(* ===== verification/_CoqProject ===== *)
-Q . S2P
Prelude.v
Json.v
Schema.v
Protocol.v
Leases.v
Tasks.v
Store.v
Desktop.v
DesktopSystem.v
DesktopSessions.v
DesktopRuns.v
DesktopDispatch.v
Capacity.v
Resources.v
PeerLease.v
PathPolicy.v
FileTree.v
FileTreeLaws.v
Generations.v
CopyTree.v
OverlaySafety.v
MaterializeSafety.v
GenerationSafety.v
SchemaCheck.v
Framing.v
FramingCodec.v
Connection.v
ConnectionSafety.v
Payloads.v
Evidence.v
Controller.v
Authority.v
TreeDigest.v
ArtifactRelay.v
RelaySafety.v
RelayCommit.v
RelayReceive.v
ControllerFrames.v
ControllerSessions.v
ControllerRecords.v
ControllerRelay.v
RelayWorld.v
RelayDelivery.v
TransferRuns.v
RecordSafety.v
CapabilityInvoke.v
InvokeSafety.v
SessionFabric.v
SessionRuns.v
InvokeOutcome.v
DataPack.v
DataPackFormat.v
DataPackSafety.v
DataPackTheorems.v
Utf8.v
FileHandlers.v
FileSafety.v
FileRestore.v
FileRuns.v
ProcessTable.v
ProcessSafety.v
ProcessDisk.v
ProcessSignals.v
ProcessRuns.v
Catalogue.v
CatalogueSafety.v
ProcessRequests.v
Tunnels.v
TunnelSafety.v
ControllerTasks.v
ControllerCalls.v
DesktopRun.v
Commands.v
Clipboard.v
ComputerUse.v
Rpc.v
SocketOwnership.v
PeerSsh.v
PeerChannel.v
Quoting.v
