(* ===== verification/Prelude.v ===== *)
(** * Machine Fabric: a verification development

    ** The program

    Machine Fabric lets agents act on several machines. A _controller_
    ([crates/machine-fabric-runtime/src/controller.rs]) keeps workspace sessions,
    driver leases, tasks, approvals, transactions, generations and the registry
    of executors; it answers requests, commits its state to one file and calls
    the executors. An _executor_ ([executor.rs]) runs on a machine: it admits
    requests to a bounded number of slots, issues fences for the resources they
    lock, restricts the paths they touch, sends input to the desktop under a
    durable queue, builds generations of applications, packs their resources,
    sends or receives artifacts, changes files, and keeps the processes and the
    tunnels it started. Its catalogue says what it can do and what each request
    and answer look like. Controllers hand sessions to each other, and peers keep duplex
    connections with leases. The tables of leases and tasks and the state file are
    the crate machine-fabric-core; the records that all of them exchange are
    machine-fabric-schema, the envelope of requests machine-fabric-protocol.

    ** How it is modelled

    Stateful code is a computation of the monad [M S E A] of this file: state,
    typed error and a [World] (wall clock, monotonic clock, UUIDs, outcome of each
    attempt at input or output), each an oracle that is read in the order in which
    the source reads it. An error keeps the changes made before it. Where threads
    interleave, the critical sections are the steps of a relation ([desk_step],
    [cap_step], [peer_event], [sys_step]) and theorems quantify over all runs.
    Machine integers are [Z] with wrap-around, saturation or checks written out.
    Libraries are parameters or classes with the laws they document.

    ** The files

    - [Prelude]: results, worlds, the monad and its proof rules ([wp], [keeps],
      [Stable]), machine integers, strings, ordered maps, hints and tactics.
    - [Json], [Schema], [Protocol]: serde_json values, the shared records, the
      RPC envelope.
    - [Leases], [Tasks], [Store]: [lease.rs], [task.rs], [store.rs] of
      machine-fabric-core. Fences strictly increase and stale tokens are refused;
      tasks follow their life cycle and submission is idempotent; a save is atomic
      under power failure.
    - [Desktop], [DesktopSystem], [DesktopSessions], [DesktopDispatch],
      [DesktopRuns]: [desktop.rs], [desktop_worker.rs] and the dispatch of desktop
      actions in [executor.rs]. One session at a time has the desktop, in every
      interleaving with crashes; an interrupted or uncertain action blocks it (an
      interrupted one, if the restart can look at the file); only
      the granted session acts; sessions are granted in order. [QueueInvariant] is
      the interface that an invariant implements once for all operations.
    - [Capacity], [Resources]: admission in [executor.rs]. Concurrent permits are
      disjoint and bounded, the queue is respected, fences increase; rendering a
      lock template can loop forever.
    - [PathPolicy]: [path_policy.rs] over the interface [FileSystem]. Accepted
      writes stay in the write roots, credentials are protected.
    - [FileTree], [FileTreeLaws]: [std::fs] on Unix as trees of directories, files
      and links with failing system calls; a volume keeps the trees it went
      through, so that theorems speak of every moment.
    - [Generations], [CopyTree], [GenerationSafety], [OverlaySafety],
      [MaterializeSafety]: [generation.rs].
      Activation is one step of a link, replacing a tree never loses it, a
      materialized generation is complete; a copy into itself never ends.
    - [PeerLease], [Framing], [FramingCodec], [Connection], [ConnectionSafety]:
      the crate machine-fabric-peer. Frames survive the wire
      (interface [Codec]); calls return once; nothing is dispatched without
      authorization, nor after the end of a connection, except what a thread was
      just about to dispatch; queues are bounded ([PeerInvariant]).
    - [PeerSsh]: [ssh.rs] of that crate. The arguments of [ssh] are checked; a
      managed peer reconnects one process at a time; after a close it ends, with
      at most one more attempt, which it was just about to begin.
    - [PeerChannel]: [peer.rs] and [peer_channel.rs]. Generations of a peer
      increase over runs and crashes; an adapter keeps the grant of its channel and
      says truly who sent what it hands on.
    - [Quoting]: the command lines that [transport.rs], [peer.rs], [process.rs],
      [windows.rs] and [windows_computer_use.rs] build, against readers of such
      lines. They are read as what was meant, except in three places.
    - [Payloads], [Evidence], [Controller], [ControllerFrames]:
      opening and committing the state of a controller, payloads of tasks in files
      of their own, compaction of evidence.
    - [Authority], [ControllerSessions], [SessionFabric], [SessionRuns]: the
      handlers of sessions. [Authority] is the abstract protocol; every run of
      the handlers without a [Departure] is a run of it, hence at most one
      controller acts on a session by itself; a departure can break this.
    - [SchemaCheck], [CapabilityInvoke], [InvokeSafety], [InvokeOutcome]:
      [capability.invoke]. The validator of contracts agrees with a
      declarative reading; a dispatch is checked, an approval is spent once, and
      the outcome is recorded.
    - [ControllerRecords], [RecordSafety]: the handlers of leases,
      approvals, transactions, handoffs, generations, agents, artifacts and
      executors.
    - [ControllerTasks], [ControllerCalls]: [task.*], the calls of other
      nodes, the search for a free port, the views, and [handle], the envelope of
      every request. A call proves the leases it presents; a malformed one poisons
      the table of leases.
    - [TreeDigest], [ArtifactRelay], [RelaySafety], [RelayCommit], [RelayReceive]:
      [artifact.relay.*] of an executor. The digest of a directory
      identifies its contents when these hold no NUL byte; a commit that answers
      has put a tree with the expected digest in place and loses nothing on the
      way. Archives and base64 are the interface [Archiver].
    - [ControllerRelay], [RelayWorld], [RelayDelivery],
      [TransferRuns]: [artifact.transfer] of the controller, composed with the
      handlers of two executors: what arrives is what was sent, with calls that are
      refused, lost or not answered.
    - [DataPack], [DataPackFormat], [DataPackSafety], [DataPackTheorems]:
      [datapack.rs] and its request. The output is the old one or a
      complete pack at every moment, a pack holds exactly the files of its trees,
      an incremental pack is the full pack, and no base file makes the reader leave
      its bounds.
    - [Utf8], [FileHandlers], [FileSafety], [FileRestore], [FileRuns]:
      the requests on files of [executor.rs]. A write is atomic and keeps the mode,
      a creation replaces nothing, a patch changes the one occurrence it names, a
      restore undoes a removal, a search gives lines that hold the query.
    - [ProcessTable], [ProcessSafety], [ProcessDisk], [ProcessSignals],
      [ProcessRuns]: [process.rs]. Records keep their type and follow a life cycle
      ([life_step]), the state file holds a complete table at every moment and what
      was answered, a restart signals the old process first, a wait ends.
    - [Catalogue], [CatalogueSafety]: [capability_catalog] on
      Linux, macOS and Windows. The catalogue is consistent, and an input that its
      schema admits, without a placeholder mark in its values, renders its locks
      (composed with [SchemaCheck] and [Resources]); two capabilities are excepted,
      and the runs show why.
    - [ProcessRequests]: the requests on processes, logs and
      ports. A program that can destroy data starts only under the digest of its
      command, and what these requests and those on files answer passes the output
      schemas of the catalogue.
    - [Tunnels], [TunnelSafety]: the requests on tunnels over the
      process table. A request keeps the addresses of running tunnels apart; the
      restart of tunnels does not.
    - [Commands]: [command.rs], [command.run] and [artifact.build]. A run ends by
      its deadline and signals only its own group.
    - [DesktopRun]: [desktop_run.rs] of the command line. A consumer of a grant
      starts its command at most once, with crashes at any moment, and once more
      for each run that could not look at its receipt.
    - [Clipboard]: [clipboard.rs] and [clipboard_cli.rs]. An image is pushed at most
      once, to the machine that was asked for and just said that it is ready.
    - [ComputerUse]: [computer_use.rs]. A request is written to the host at most
      once, and a host whose outcome is uncertain is retired.
    - [Rpc], [SocketOwnership]: [rpc.rs]. Frames of one bounded line over a stream
      that delivers in any pieces; servers that race for a path leave live
      endpoints of others alone, also of programs that do not take the lock, if
      these come outside of the short windows that the code has.

    ** Bounds and fuel

    Recursion over directories ([copy_tree], [collect], [relay_manifest],
    [ensure_tree_readable], [collect_pack_tree], [search_tree]) has fuel, which
    the depth of the tree bounds; running out of it is the error [out_of_fuel], and the theorems about results hold for
    every fuel. [copy_into_itself_never_ends] is about every fuel: there the code
    does not stop. The chunk loops of a transfer need at most as many rounds as
    bytes ([copying_an_archive_ends]). The polls of [wait_loop] and of
    [stable_manifest] end by the clock ([wait_ready_ends]); where a theorem speaks
    of an answer of a tunnel, it holds for every fuel of that poll. Readiness
    probes recurse by the depth of their specification. Links are followed 40
    times, as on Linux. The loop of a command has fuel for the readings of the
    clock, which its deadline bounds ([command_ends]); the loops of [Rpc] have fuel
    for their turns, and [controlled_call_answered] says how many are enough. The
    number of attempts to connect ([connect_turns]) is a parameter, because the
    code tries for ever.

    ** Assumptions

    UUIDs do not repeat where a theorem says so ([uuids_fresh]) and consist of
    hexadecimal digits for transfers ([plain_uuids]). SHA-256 is a function; where
    it matters, the theorem says on which texts it must not collide. Permissions are
    kept but not enforced, file names are UTF-8, the text of operating system errors
    is left out. The handlers of one session run one after the other (its gate).
    [fabric_step] has every step of the handlers and marks those that depart from
    the protocol ([Departure]: a further [session.put] without authority, a handoff
    to oneself, an epoch at its limit, running on after a mark that was not
    committed, a restart that cannot look at the state file); the theorems about
    authority are about runs without them, and others show what a departure does.
    [Path::exists] is false when the file cannot be looked at: the code then takes
    the file for absent, and so do the models of [Store], [Controller], [Desktop],
    [DesktopRun] and [ProcessTable]; where a theorem needs the look, it says so. A transfer is between two different
    executors whose registration does not change meanwhile. Requests on one process
    run one after the other (the lock of the capability). The theorems about packs
    are about files below 2^47 bytes and a target that no link reaches; a hard link
    is a second entry with the content of the first; reading the state file of the
    processes gives back the table that was written (the law of serde_json, with a
    serialization that satisfies it in [ProcessRuns]). JSON gives back values
    without floating point numbers that are nested within its limit ([readable]),
    but not a [null] in an optional field. What [ssh -G] prints and
    what binding an address gives are parameters. Child processes of commands, of
    consumers and of peers are interfaces: what they do is any sequence of answers.
    A remote shell splits words as POSIX says, a Windows program as
    CommandLineToArgvW does.

    ** Not modelled

    The JSON of [dashboard.snapshot]; [filesystem.capacity] and the host tools of
    the executor; the accept loops of [rpc.rs] with their threads and Windows pipes;
    the search for the files of the computer-use host and its spawn; the threads
    that relay the streams of a bridge or of a peer channel, [accept_peer], and the
    process of [call_executor] over ssh; the TCP adapter and the condition variables
    of peer connections; the environment block of Windows; telemetry; the Windows and
    macOS bindings and the parsing of arguments. These mostly call
    the operating system, or repeat on another platform what is modelled here for
    Unix. *)
From Stdlib Require Import ZArith Lia String Ascii.
From stdpp Require Import base gmap strings list sorting numbers option pretty.

Open Scope Z_scope.

(** ** Results, worlds and the state-and-error monad *)

(** Rust's [Result<A, E>]. *)
Inductive result (E A : Type) : Type :=
| Ok (a : A)
| Err (e : E).
Arguments Ok {E A} a.
Arguments Err {E A} e.

Definition is_ok {E A} (r : result E A) : bool :=
  match r with Ok _ => true | Err _ => false end.

Definition is_err {E A} (r : result E A) : bool := negb (is_ok r).

Definition ok_or {E A} (o : option A) (e : E) : result E A :=
  match o with Some a => Ok a | None => Err e end.

Definition map_err {E F A} (f : E -> F) (r : result E A) : result F A :=
  match r with Ok a => Ok a | Err e => Err (f e) end.

(** [r?] *)
Definition bind_result {E A B} (r : result E A) (f : A -> result E B) : result E B :=
  match r with Ok a => f a | Err e => Err e end.

Lemma bind_result_ok {E A B} (r : result E A) (f : A -> result E B) b :
  bind_result r f = Ok b <-> exists a, r = Ok a /\ f a = Ok b.
Proof.
  destruct r as [a|e]; cbn; split.
  - by exists a.
  - by intros (? & [= ->] & ?).
  - done.
  - by intros (? & ? & ?).
Qed.

(** An [Oracle A] is an external source of values that the program reads one
    after the other (a clock, a random generator, the outcome of a system
    call): every theorem quantifies over all of them. *)
Record Oracle (A : Type) := mkOracle { o_at : nat -> A; o_next : nat }.
Arguments mkOracle {A} _ _.
Arguments o_at {A} _ _.
Arguments o_next {A} _.

Definition peek {A} (o : Oracle A) : A := o_at o (o_next o).
Definition advance {A} (o : Oracle A) : Oracle A := mkOracle (o_at o) (S (o_next o)).

(** What a computation reads from outside the program: the wall clock
    ([SystemTime::now]), the monotonic clock ([Instant::now]), the version 4
    UUIDs ([Uuid::new_v4]) and the outcome of each attempt to write a file. *)
Record World := mkWorld {
  w_wall : Oracle Z;
  w_instant : Oracle Z;
  w_uuid : Oracle string;
  w_io : Oracle bool;
}.

(** A fallible computation over the mutable state [S] of a component. An error
    keeps the mutations made before it, as an early return through [&mut self]
    does. *)
Definition M (S E A : Type) : Type := S -> World -> result E A * S * World.

Definition ret {S E A} (a : A) : M S E A := fun s w => (Ok a, s, w).
Definition fail {S E A} (e : E) : M S E A := fun s w => (Err e, s, w).
Definition bind {S E A B} (m : M S E A) (k : A -> M S E B) : M S E B :=
  fun s w =>
    match m s w with
    | (Ok a, s', w') => k a s' w'
    | (Err e, s', w') => (Err e, s', w')
    end.
Definition get {S E} : M S E S := fun s w => (Ok s, s, w).
Definition put {S E} (s : S) : M S E unit := fun _ w => (Ok tt, s, w).
Definition gets {S E A} (f : S -> A) : M S E A := fun s w => (Ok (f s), s, w).
Definition modify {S E} (f : S -> S) : M S E unit := fun s w => (Ok tt, f s, w).
Definition lift {S E A} (r : result E A) : M S E A := fun s w => (r, s, w).

(** [attempt m] runs [m] and hands its result over as a value: the form of
    [match f() {...}] and [let _ = f()]. *)
Definition attempt {S E F A} (m : M S E A) : M S F (result E A) :=
  fun s w => let '(r, s', w') := m s w in (Ok r, s', w').

(** [with_err f m] is [m.map_err(f)?]. *)
Definition with_err {S E F A} (f : E -> F) (m : M S E A) : M S F A :=
  fun s w => let '(r, s', w') := m s w in (map_err f r, s', w').

(** [zoom g p m] runs a computation on the part [g s] of a larger state. *)
Definition zoom {S T E A} (g : S -> T) (p : T -> S -> S) (m : M T E A) : M S E A :=
  fun s w => let '(r, t, w') := m (g s) w in (r, p t s, w').

Declare Scope fabric_scope.
Delimit Scope fabric_scope with fabric.
Notation "'let*' x ':=' m 'in' k" := (bind m (fun x => k))
  (at level 10, x binder, m at level 200, k at level 200) : fabric_scope.
Notation "'let*' ' p ':=' m 'in' k" := (bind m (fun x => match x with p => k end))
  (at level 10, p pattern, m at level 200, k at level 200) : fabric_scope.
Notation "m ';;' k" := (bind m (fun _ => k)) : fabric_scope.
Open Scope fabric_scope.

Definition set_wall (o : Oracle Z) (w : World) : World :=
  mkWorld o (w_instant w) (w_uuid w) (w_io w).
Definition set_instant (o : Oracle Z) (w : World) : World :=
  mkWorld (w_wall w) o (w_uuid w) (w_io w).
Definition set_uuid (o : Oracle string) (w : World) : World :=
  mkWorld (w_wall w) (w_instant w) o (w_io w).
Definition set_io (o : Oracle bool) (w : World) : World :=
  mkWorld (w_wall w) (w_instant w) (w_uuid w) o.

(** [machine_fabric_core::now_ms] *)
Definition now_ms {S E} : M S E Z :=
  fun s w => (Ok (peek (w_wall w)), s, set_wall (advance (w_wall w)) w).
Definition instant_now {S E} : M S E Z :=
  fun s w => (Ok (peek (w_instant w)), s, set_instant (advance (w_instant w)) w).
Definition new_v4 {S E} : M S E string :=
  fun s w => (Ok (peek (w_uuid w)), s, set_uuid (advance (w_uuid w)) w).
(** Whether the next attempt to write reaches the disk. *)
Definition io_outcome {S E} : M S E bool :=
  fun s w => (Ok (peek (w_io w)), s, set_io (advance (w_io w)) w).

(** [for x in l { f(x)? }] *)
Fixpoint for_each {S E A} (l : list A) (f : A -> M S E unit) : M S E unit :=
  match l with
  | [] => ret tt
  | x :: l' => let* _ := f x in for_each l' f
  end.

(** Collecting the results of [f] over [l], stopping at the first error. *)
Fixpoint map_m {S E A B} (f : A -> M S E B) (l : list A) : M S E (list B) :=
  match l with
  | [] => ret []
  | x :: l' => let* y := f x in let* ys := map_m f l' in ret (y :: ys)
  end.

(** ** Machine integers

    [u64], [u32] and [usize] values are integers; the operations write the
    width out. Plain [+] on an unsigned integer wraps around: the workspace
    manifest sets no [overflow-checks], so a release build has none. *)

Definition U64_MAX : Z := 18446744073709551615.
Definition U32_MAX : Z := 4294967295.

Definition in_u64 (x : Z) : Prop := 0 <= x <= U64_MAX.

Definition u64_add (a b : Z) : Z := (a + b) mod (U64_MAX + 1).
Definition u32_add (a b : Z) : Z := (a + b) mod (U32_MAX + 1).
Definition u64_saturating_add (a b : Z) : Z := Z.min (a + b) U64_MAX.
Definition u64_saturating_sub (a b : Z) : Z := Z.max (a - b) 0.
Definition u64_checked_add (a b : Z) : option Z :=
  if a + b <=? U64_MAX then Some (a + b) else None.

Lemma u64_add_small a b : 0 <= a -> 0 <= b -> a + b <= U64_MAX -> u64_add a b = a + b.
Proof. intros. unfold u64_add. apply Z.mod_small. lia. Qed.

Lemma u64_add_bounds a b : in_u64 (u64_add a b).
Proof.
  unfold in_u64, u64_add. pose proof (Z.mod_pos_bound (a + b) (U64_MAX + 1)).
  unfold U64_MAX in *. lia.
Qed.

Lemma u64_saturating_add_bounds a b : 0 <= a -> 0 <= b -> in_u64 (u64_saturating_add a b).
Proof. unfold in_u64, u64_saturating_add, U64_MAX. lia. Qed.

Lemma u64_saturating_add_ge a b : 0 <= b -> a <= U64_MAX -> a <= u64_saturating_add a b.
Proof. unfold u64_saturating_add. lia. Qed.

(** ** The wall clock *)

Definition wall (w : World) : Z := peek (w_wall w).

(** Every reading of the clock is a [u64] number of milliseconds. *)
Definition clock_ok (w : World) : Prop := forall n, in_u64 (o_at (w_wall w) n).

(** Version 4 UUIDs never repeat. *)
Definition uuids_fresh (w : World) : Prop :=
  forall i j, o_at (w_uuid w) i = o_at (w_uuid w) j -> i = j.

(** ** Strings: a Rust [String] is the list of its UTF-8 bytes. *)

Definition starts_with (p s : string) : bool := String.prefix p s.

Fixpoint strip_prefix (p s : string) : option string :=
  match p, s with
  | EmptyString, _ => Some s
  | String a p', String b s' => if Ascii.eqb a b then strip_prefix p' s' else None
  | String _ _, EmptyString => None
  end.

Definition str_contains (pat s : string) : bool :=
  match String.index 0 pat s with Some _ => true | None => false end.

Fixpoint bytes_all (f : ascii -> bool) (s : string) : bool :=
  match s with
  | EmptyString => true
  | String c s' => f c && bytes_all f s'
  end.

Lemma string_length_app a b :
  String.length (a +:+ b) = (String.length a + String.length b)%nat.
Proof. induction a as [|c a IH]; [done|]. exact (f_equal S IH). Qed.

Definition str_len (s : string) : Z := Z.of_nat (String.length s).
Definition str_is_empty (s : string) : bool :=
  match s with EmptyString => true | _ => false end.

Definition byte_in (lo hi : nat) (c : ascii) : bool :=
  Nat.leb lo (nat_of_ascii c) && Nat.leb (nat_of_ascii c) hi.
Definition is_ascii_digit (c : ascii) : bool := byte_in 48 57 c.
Definition is_ascii_uppercase (c : ascii) : bool := byte_in 65 90 c.
Definition is_ascii_lowercase (c : ascii) : bool := byte_in 97 122 c.
Definition is_ascii_alphanumeric (c : ascii) : bool :=
  is_ascii_digit c || is_ascii_uppercase c || is_ascii_lowercase c.
Definition is_ascii_hexdigit (c : ascii) : bool :=
  is_ascii_digit c || byte_in 65 70 c || byte_in 97 102 c.

Definition to_ascii_lowercase_char (c : ascii) : ascii :=
  if is_ascii_uppercase c then ascii_of_nat (nat_of_ascii c + 32) else c.
Fixpoint to_ascii_lowercase (s : string) : string :=
  match s with
  | EmptyString => EmptyString
  | String c s' => String (to_ascii_lowercase_char c) (to_ascii_lowercase s')
  end.

Lemma string_app_cons c p s : String c p +:+ s = String c (p +:+ s).
Proof. reflexivity. Qed.

Lemma string_app_assoc a b c : a +:+ (b +:+ c) = (a +:+ b) +:+ c.
Proof. induction a as [|x a IH]; [done|]. by rewrite !string_app_cons, IH. Qed.

Lemma string_app_nil_r s : s +:+ "" = s.
Proof. induction s as [|c s IH]; [done|]. by rewrite string_app_cons, IH. Qed.

Lemma bytes_all_app f a b : bytes_all f (a +:+ b) = bytes_all f a && bytes_all f b.
Proof. induction a as [|c a IH]; [done|]. rewrite string_app_cons. cbn [bytes_all]. by rewrite IH, andb_assoc. Qed.

Lemma filter_none {A} (p : A -> bool) l : Forall (fun x => p x = false) l -> List.filter p l = [].
Proof. induction 1 as [|x l Hx _ IH]; [done|]. cbn. by rewrite Hx. Qed.

Lemma filter_keeps {A} (f : A -> bool) l : Forall (fun x => f x = true) l -> List.filter f l = l.
Proof. induction 1 as [|x l Hx _ IH]; cbn; [done|]. by rewrite Hx, IH. Qed.

Lemma strip_prefix_app p s : strip_prefix p (p +:+ s) = Some s.
Proof.
  induction p as [|c p IH]; [done|]. rewrite string_app_cons. cbn [strip_prefix].
  by rewrite Ascii.eqb_refl.
Qed.

Lemma strip_prefix_Some p s t : strip_prefix p s = Some t -> s = p +:+ t.
Proof.
  revert s. induction p as [|c p IH]; intros [|d s]; cbn [strip_prefix];
    rewrite ?string_app_cons; try (intros [= <-]; reflexivity); try congruence.
  destruct (Ascii.eqb_spec c d) as [->|]; [|congruence].
  intros H. by rewrite (IH _ H).
Qed.

(** ** Vectors *)

(** [iter().position(p)] *)
Fixpoint position {A} (p : A -> bool) (l : list A) : option nat :=
  match l with
  | [] => None
  | x :: l' => if p x then Some O else S <$> position p l'
  end.

Lemma position_Some {A} (p : A -> bool) (l : list A) i :
  position p l = Some i <->
  exists x, l !! i = Some x /\ p x = true /\
    forall j y, (j < i)%nat -> l !! j = Some y -> p y = false.
Proof.
  revert i. induction l as [|x l IH]; intros i; cbn.
  - split; [done|]. intros (y & Hy & _). done.
  - destruct (p x) eqn:Hpx.
    + split.
      * intros [= <-]. exists x. split_and!; [done..|]. lia.
      * intros (y & Hy & Hp & Hmin). destruct i as [|i]; [done|].
        specialize (Hmin O x ltac:(lia) eq_refl). congruence.
    + rewrite fmap_Some. split.
      * intros (j & (y & Hy & Hp & Hmin)%IH & ->). exists y. split_and!; [done..|].
        intros [|k] z Hk Hz; cbn in Hz; [by simplify_eq|].
        eapply (Hmin k); [lia|done].
      * intros (y & Hy & Hp & Hmin). destruct i as [|i]; cbn in Hy; [congruence|].
        exists i. split; [|done]. apply IH. exists y. split_and!; [done..|].
        intros j z Hj Hz. apply (Hmin (S j) z); [lia|done].
Qed.

Lemma position_None {A} (p : A -> bool) (l : list A) :
  position p l = None <-> forall x, x ∈ l -> p x = false.
Proof.
  induction l as [|x l IH]; cbn.
  - split; [|done]. intros _ y Hy. by apply not_elem_of_nil in Hy.
  - destruct (p x) eqn:Hpx.
    + split; [done|]. intros H. specialize (H x ltac:(left)). congruence.
    + rewrite fmap_None, IH. split.
      * intros H y [->|Hy]%elem_of_cons; [done|auto].
      * intros H y Hy. apply H. by right.
Qed.

Lemma position_lt {A} (p : A -> bool) (l : list A) i :
  position p l = Some i -> (i < length l)%nat.
Proof. intros (x & Hx & _)%position_Some. by eapply lookup_lt_Some. Qed.

Lemma elem_of_filter_values {A} (p : A -> bool) (l : list A) a :
  a ∈ List.filter p l <-> a ∈ l /\ p a = true.
Proof. by rewrite list_elem_of_In, filter_In, <- list_elem_of_In. Qed.

(** ** Ordered maps

    A [BTreeMap<String, V>] is a finite map; the order in which it is iterated
    is the byte order of its keys. *)

Definition key_le {V} (p q : string * V) : Prop := String.le p.1 q.1.
#[export] Instance key_le_dec {V} : RelDecision (@key_le V).
Proof. intros p q. unfold key_le. apply _. Defined.
#[export] Instance key_le_total {V} : Total (@key_le V).
Proof. intros p q. unfold key_le. apply (total String.le). Qed.
#[export] Instance key_le_trans {V} : Transitive (@key_le V).
Proof. intros p q r. unfold key_le. apply transitivity. Qed.

Definition btree_entries {V} (m : gmap string V) : list (string * V) :=
  merge_sort key_le (map_to_list m).
Definition btree_values {V} (m : gmap string V) : list V := (btree_entries m).*2.

Section BTree.
Context {V : Type}.
Implicit Types m : gmap string V.

Lemma btree_entries_perm m : btree_entries m ≡ₚ map_to_list m.
Proof. apply merge_sort_Permutation. Qed.

Lemma btree_entries_sorted m : StronglySorted key_le (btree_entries m).
Proof. apply Sorted_StronglySorted, Sorted_merge_sort; apply _. Qed.

Lemma elem_of_btree_entries m k v : (k, v) ∈ btree_entries m <-> m !! k = Some v.
Proof. by rewrite btree_entries_perm, elem_of_map_to_list. Qed.

Lemma elem_of_btree_values m v : v ∈ btree_values m <-> exists k, m !! k = Some v.
Proof.
  unfold btree_values. rewrite list_elem_of_fmap. split.
  - intros ([k v'] & -> & Hin). exists k. by apply elem_of_btree_entries.
  - intros [k Hk]. exists (k, v). split; [done|]. by apply elem_of_btree_entries.
Qed.

Lemma btree_entries_NoDup m : NoDup (btree_entries m).*1.
Proof. rewrite btree_entries_perm. apply NoDup_fst_map_to_list. Qed.

Lemma list_to_map_btree_entries m : list_to_map (btree_entries m) = m.
Proof.
  rewrite <- (list_to_map_to_list m) at 2.
  apply list_to_map_proper; [apply btree_entries_NoDup|apply btree_entries_perm].
Qed.

(** When every value carries its own key, re-inserting the values rebuilds the map. *)
Lemma rebuild_from_values (key : V -> string) m :
  (forall k v, m !! k = Some v -> key v = k) ->
  list_to_map ((fun v => (key v, v)) <$> btree_values m) = m.
Proof.
  intros Hkey. rewrite <- (list_to_map_btree_entries m) at 2. f_equal.
  unfold btree_values. rewrite <- list_fmap_compose.
  rewrite <- (list_fmap_id (btree_entries m)) at 2.
  apply list_fmap_ext. intros i [k v] Hi. cbn.
  rewrite (Hkey k v); [done|]. apply elem_of_btree_entries.
  by eapply list_elem_of_lookup_2.
Qed.

Lemma btree_values_keys (key : V -> string) m :
  (forall k v, m !! k = Some v -> key v = k) ->
  key <$> btree_values m = (btree_entries m).*1.
Proof.
  intros Hkey. unfold btree_values. rewrite <- list_fmap_compose.
  apply list_fmap_ext. intros i [k v] Hi. cbn. apply Hkey, elem_of_btree_entries.
  by eapply list_elem_of_lookup_2.
Qed.

(** Inserting the elements of a vector one by one, under their own keys. *)
Lemma fold_insert_keyed {A} (key : A -> string) (val : A -> V) (l : list A) m :
  NoDup (key <$> l) ->
  fold_left (fun acc a => <[key a := val a]> acc) l m
  = list_to_map ((fun a => (key a, val a)) <$> l) ∪ m.
Proof.
  revert m. induction l as [|x l IH]; intros m Hnd; cbn; [by rewrite (left_id_L ∅ (∪))|].
  apply NoDup_cons in Hnd as [Hx Hnd]. rewrite IH by done.
  rewrite <- insert_union_r, insert_union_l; [done|].
  apply not_elem_of_list_to_map_1. rewrite <- list_fmap_compose. done.
Qed.

Lemma fold_insert_values (key : V -> string) m :
  (forall k v, m !! k = Some v -> key v = k) ->
  fold_left (fun acc v => <[key v := v]> acc) (btree_values m) ∅ = m.
Proof.
  intros Hkey. rewrite (fold_insert_keyed key (fun v => v)), (right_id_L ∅ (∪)).
  - by apply rebuild_from_values.
  - rewrite btree_values_keys by done. apply btree_entries_NoDup.
Qed.

Lemma btree_values_length m : length (btree_values m) = size m.
Proof. unfold btree_values. by rewrite length_fmap, btree_entries_perm, length_map_to_list. Qed.

End BTree.

(** [v.sort(); v.dedup();] on a vector of strings. *)
Fixpoint dedup (l : list string) : list string :=
  match l with
  | x :: (y :: _) as l' => if String.eqb x y then dedup l' else x :: dedup l'
  | _ => l
  end.

Definition sort_dedup (l : list string) : list string := dedup (merge_sort String.le l).

Lemma elem_of_dedup l x : x ∈ dedup l <-> x ∈ l.
Proof.
  induction l as [|a l IH]; [done|]. destruct l as [|b l]; [done|].
  change (dedup (a :: b :: l)) with (if String.eqb a b then dedup (b :: l) else a :: dedup (b :: l)).
  destruct (String.eqb_spec a b) as [->|]; rewrite ?elem_of_cons, IH, ?elem_of_cons; tauto.
Qed.

Lemma elem_of_sort_dedup l x : x ∈ sort_dedup l <-> x ∈ l.
Proof. unfold sort_dedup. by rewrite elem_of_dedup, merge_sort_Permutation. Qed.

Lemma dedup_NoDup l : StronglySorted String.le l -> NoDup (dedup l).
Proof.
  induction l as [|a l IH]; intros Hs; [constructor|]. destruct l as [|b l]; [apply NoDup_singleton|].
  apply StronglySorted_inv in Hs as [Hs Ha].
  change (dedup (a :: b :: l)) with (if String.eqb a b then dedup (b :: l) else a :: dedup (b :: l)).
  destruct (String.eqb_spec a b) as [->|Hne]; [auto|]. apply NoDup_cons. split; [|auto].
  rewrite elem_of_dedup. intros [->|Hin]%elem_of_cons; [done|]. apply Hne.
  apply StronglySorted_inv in Hs as [_ Hb]. rewrite Forall_forall in Ha, Hb.
  apply (anti_symm String.le); [apply Ha; by left|by apply Hb].
Qed.

Lemma sort_dedup_NoDup l : NoDup (sort_dedup l).
Proof. apply dedup_NoDup, Sorted_StronglySorted, Sorted_merge_sort; apply _. Qed.

(** ** Automation *)

(** Symbolic execution of the monad: unfold it everywhere. *)
Ltac munfold :=
  cbv beta iota zeta delta
    [bind ret fail get put gets modify lift attempt with_err zoom ok_or map_err
     now_ms new_v4 instant_now io_outcome] in *.

(** Run a hypothesis that equates a computation with its outcome. *)
Ltac mrun := munfold; repeat (case_match; simplify_eq); simplify_eq/=.

Ltac bool_prop :=
  repeat match goal with
  | H : (_ <? _) = true |- _ => apply Z.ltb_lt in H
  | H : (_ <? _) = false |- _ => apply Z.ltb_ge in H
  | H : (_ <=? _) = true |- _ => apply Z.leb_le in H
  | H : (_ <=? _) = false |- _ => apply Z.leb_gt in H
  | H : (_ =? _)%Z = true |- _ => apply Z.eqb_eq in H
  | H : (_ =? _)%Z = false |- _ => apply Z.eqb_neq in H
  | H : String.eqb _ _ = true |- _ => apply String.eqb_eq in H
  | H : String.eqb _ _ = false |- _ => apply String.eqb_neq in H
  | H : negb _ = true |- _ => apply Bool.negb_true_iff in H
  | H : negb _ = false |- _ => apply Bool.negb_false_iff in H
  | H : (_ || _)%bool = false |- _ => apply Bool.orb_false_iff in H as [? ?]
  | H : (_ && _)%bool = true |- _ => apply Bool.andb_true_iff in H as [? ?]
  | H : bool_decide _ = true |- _ => apply bool_decide_eq_true in H
  | H : bool_decide _ = false |- _ => apply bool_decide_eq_false in H
  end.

(** The sources only move forward: [w'] is a later moment of the world [w]. *)
Record world_le (w w' : World) : Prop := mk_world_le {
  wle_wall : o_at (w_wall w') = o_at (w_wall w);
  wle_instant : o_at (w_instant w') = o_at (w_instant w);
  wle_uuid : o_at (w_uuid w') = o_at (w_uuid w);
  wle_io : o_at (w_io w') = o_at (w_io w);
  wle_wall_next : (o_next (w_wall w) <= o_next (w_wall w'))%nat;
  wle_instant_next : (o_next (w_instant w) <= o_next (w_instant w'))%nat;
  wle_uuid_next : (o_next (w_uuid w) <= o_next (w_uuid w'))%nat;
  wle_io_next : (o_next (w_io w) <= o_next (w_io w'))%nat;
}.

#[export] Instance world_le_preorder : PreOrder world_le.
Proof.
  split.
  - intros w. by constructor.
  - intros w1 w2 w3 [] []. constructor; (congruence || lia).
Qed.

(** The monotonic clock never goes back, and what runs meanwhile only reads it on. *)
Definition monotonic_clock (w : World) : Prop := forall i j, (i <= j)%nat -> (o_at (w_instant w) i <= o_at (w_instant w) j)%Z.
Definition forward {S E A} (m : M S E A) : Prop := forall s w r s' w', m s w = (r, s', w') -> world_le w w'.

Lemma world_le_uuids_fresh w w' : world_le w w' -> uuids_fresh w -> uuids_fresh w'.
Proof. intros [] Hf i j. rewrite wle_uuid0. apply Hf. Qed.

Lemma world_le_clock_ok w w' : world_le w w' -> clock_ok w -> clock_ok w'.
Proof. intros [] Hc n. rewrite wle_wall0. apply Hc. Qed.

Create HintDb fabric.
#[export] Hint Resolve world_le_uuids_fresh world_le_clock_ok : fabric.

(** ** Invariants of computations *)

(** Split a run of [m ;; k] into the run of [m] and, when it succeeds, of [k]. *)
Lemma bind_cases {S E A B} (m : M S E A) (k : A -> M S E B) s w r s' w' :
  bind m k s w = (r, s', w') ->
  exists r1 s1 w1, m s w = (r1, s1, w1) /\
    match r1 with
    | Ok a => k a s1 w1 = (r, s', w')
    | Err e => r = Err e /\ s' = s1 /\ w' = w1
    end.
Proof.
  unfold bind. destruct (m s w) as [[[a|e] s1] w1]; intros H; eexists _, _, _; (split; [done|]);
    by simplify_eq.
Qed.

(** The same for runs that succeed. *)
Lemma bind_ok {S E A B} (m : M S E A) (k : A -> M S E B) s w b s' w' :
  bind m k s w = (Ok b, s', w') -> exists a s1 w1, m s w = (Ok a, s1, w1) /\ k a s1 w1 = (Ok b, s', w').
Proof.
  intros ([a|e] & s1 & w1 & H1 & H2)%bind_cases; [by exists a, s1, w1|by destruct H2].
Qed.

Lemma bind_lift_ok {S E A B} (r : result E A) (k : A -> M S E B) s w b s' w' :
  bind (lift r) k s w = (Ok b, s', w') -> exists a, r = Ok a /\ k a s w = (Ok b, s', w').
Proof. unfold bind, lift. destruct r as [a|e]; [|done]. intros H. by exists a. Qed.

Lemma ok_or_ok {E A} (o : option A) (e : E) a : ok_or o e = Ok a <-> o = Some a.
Proof. destruct o; cbn; split; congruence. Qed.

Lemma zoom_cases {S T E A} (g : S -> T) (p : T -> S -> S) (m : M T E A) s w r s' w' :
  zoom g p m s w = (r, s', w') -> exists t', m (g s) w = (r, t', w') /\ s' = p t' s.
Proof. unfold zoom. destruct (m (g s) w) as [[r0 t0] w0]. intros [= <- <- <-]. by exists t0. Qed.
Lemma with_err_cases {S E F A} (f : E -> F) (m : M S E A) s w r s' w' :
  with_err f m s w = (r, s', w') -> exists r0, m s w = (r0, s', w') /\ r = map_err f r0.
Proof. unfold with_err. destruct (m s w) as [[r0 s0] w0]. intros [= <- <- <-]. by exists r0. Qed.

Lemma attempt_cases {S E F A} (m : M S E A) s w (r : result F (result E A)) s' w' :
  attempt m s w = (r, s', w') -> exists r0, r = Ok r0 /\ m s w = (r0, s', w').
Proof. unfold attempt. destruct (m s w) as [[r0 s0] w0]. intros [= <- <- <-]. by exists r0. Qed.

(** [mstep H a s w H1] splits the successful run [H] at its first step [H1]. *)
Ltac mstep H a s w H1 := apply bind_ok in H as (a & s & w & H1 & H).
Ltac mlift H a Ha := apply bind_lift_ok in H as (a & Ha & H).

(** [wp m Q s w]: the outcome of [m] from [s] and [w] satisfies [Q]. Computations are total, so
    this is both partial and total correctness. *)
Definition wp {S E A} (m : M S E A) (Q : result E A -> S -> World -> Prop) (s : S) (w : World) : Prop :=
  let '(r, s', w') := m s w in Q r s' w'.

Lemma wp_run {S E A} (m : M S E A) Q s w r s' w' : wp m Q s w -> m s w = (r, s', w') -> Q r s' w'.
Proof. unfold wp. intros H E'. by rewrite E' in H. Qed.

Lemma wp_intro {S E A} (m : M S E A) Q s w :
  (forall r s' w', m s w = (r, s', w') -> Q r s' w') -> wp m Q s w.
Proof. unfold wp. destruct (m s w) as [[r s'] w']. auto. Qed.

Lemma wp_mono {S E A} (m : M S E A) (Q Q' : result E A -> S -> World -> Prop) s w :
  wp m Q s w -> (forall r s' w', Q r s' w' -> Q' r s' w') -> wp m Q' s w.
Proof. unfold wp. destruct (m s w) as [[r s'] w']. auto. Qed.

Lemma wp_bind {S E A B} (m : M S E A) (k : A -> M S E B) Q s w :
  wp m (fun r s' w' => match r with Ok a => wp (k a) Q s' w' | Err e => Q (Err e) s' w' end) s w ->
  wp (bind m k) Q s w.
Proof. unfold wp, bind. by destruct (m s w) as [[[a|e] s'] w']. Qed.

Lemma wp_attempt {S E F A} (m : M S E A) (Q : result F (result E A) -> S -> World -> Prop) s w :
  wp m (fun r s' w' => Q (Ok r) s' w') s w -> wp (attempt m) Q s w.
Proof. unfold wp, attempt. by destruct (m s w) as [[r s'] w']. Qed.

(** A predicate that later readings of the sources do not invalidate. *)
Class Stable {S} (P : S -> World -> Prop) : Prop :=
  stable : forall s w w', P s w -> world_le w w' -> P s w'.

#[export] Instance stable_pure {S} (P : S -> Prop) : Stable (fun s _ => P s).
Proof. by intros s w w' H _. Qed.

Lemma world_le_wall w : world_le w (set_wall (advance (w_wall w)) w).
Proof. constructor; cbn; (done || lia). Qed.
Lemma world_le_uuid w : world_le w (set_uuid (advance (w_uuid w)) w).
Proof. constructor; cbn; (done || lia). Qed.
Lemma world_le_io w : world_le w (set_io (advance (w_io w)) w).
Proof. constructor; cbn; (done || lia). Qed.
#[export] Hint Resolve world_le_wall world_le_uuid world_le_io : fabric.

(** [keeps P m]: [m] preserves [P] whatever it returns, errors included. *)
Definition keeps {S E A} (P : S -> World -> Prop) (m : M S E A) : Prop :=
  forall s w, P s w -> wp m (fun _ s' w' => P s' w') s w.

Section Keeps.
Context {S E : Type} (P : S -> World -> Prop) `{HP : !Stable P}.

Lemma keeps_ret {A} (a : A) : keeps (E := E) P (ret a).
Proof. by intros s w H. Qed.

Lemma keeps_fail {A} (e : E) : keeps (A := A) P (fail e).
Proof. by intros s w H. Qed.

Lemma keeps_lift {A} (x : result E A) : keeps P (lift x).
Proof. by intros s w H. Qed.

Lemma keeps_gets {A} (f : S -> A) : keeps (E := E) P (gets f).
Proof. by intros s w H. Qed.

Lemma keeps_now_ms : keeps (E := E) P now_ms.
Proof. intros s w H. eapply HP; [exact H|apply world_le_wall]. Qed.

Lemma keeps_new_v4 : keeps (E := E) P new_v4.
Proof. intros s w H. eapply HP; [exact H|apply world_le_uuid]. Qed.

Lemma keeps_io_outcome : keeps (E := E) P io_outcome.
Proof. intros s w H. eapply HP; [exact H|apply world_le_io]. Qed.

Lemma keeps_modify f : (forall s w, P s w -> P (f s) w) -> keeps (E := E) P (modify f).
Proof. intros Hf s w H. by apply Hf. Qed.

Lemma keeps_bind {A B} (m : M S E A) (k : A -> M S E B) :
  keeps P m -> (forall a, keeps P (k a)) -> keeps P (bind m k).
Proof.
  intros Hm Hk s w H. apply wp_bind. eapply wp_mono; [by apply Hm|].
  intros [a|e] s' w' H'; [by apply Hk|done].
Qed.

(** Reading the state first: the rest may use what is known of it. *)
Lemma keeps_gets_bind {A B} (f : S -> A) (k : A -> M S E B) :
  (forall s w, P s w -> wp (k (f s)) (fun _ s' w' => P s' w') s w) -> keeps P (bind (gets f) k).
Proof. intros H s w Hs. apply wp_bind. by apply H. Qed.

Lemma keeps_attempt {F A} (m : M S F A) : keeps P m -> keeps (E := E) P (attempt m).
Proof. intros Hm s w H. apply wp_attempt. by apply Hm. Qed.

Lemma keeps_map_m {A B} (f : A -> M S E B) (l : list A) :
  (forall x, keeps P (f x)) -> keeps P (map_m f l).
Proof.
  intros H. induction l as [|x l IH]; cbn; [apply keeps_ret|].
  apply keeps_bind; [done|]. intros y. apply keeps_bind; [done|]. intros ys. apply keeps_ret.
Qed.

End Keeps.

#[export] Hint Resolve keeps_ret keeps_fail keeps_lift keeps_gets keeps_now_ms keeps_new_v4
  keeps_io_outcome keeps_attempt keeps_map_m : fabric.

(** Decompose a [keeps] goal along the structure of the computation. *)
Ltac keeps_step :=
  first
    [ apply keeps_ret | apply keeps_fail | apply keeps_lift | apply keeps_gets
    | apply keeps_now_ms | apply keeps_new_v4 | apply keeps_io_outcome
    | solve [eauto with fabric]
    | apply keeps_attempt | apply keeps_map_m; intros ?
    | apply keeps_bind; [|intros ?]
    | progress case_match ].
Ltac keeps := repeat (keeps_step; try exact _).

(** ** A concrete world, for the examples: the clocks advance by one
    millisecond per reading, identifiers count in unary, writes succeed. *)

Fixpoint unary (n : nat) : string :=
  match n with O => "" | S m => String "i"%char (unary m) end.

Definition sample_world (start : Z) : World :=
  mkWorld (mkOracle (fun n => start + Z.of_nat n) 0) (mkOracle (fun n => start + Z.of_nat n) 0)
    (mkOracle unary 0) (mkOracle (fun _ => true) 0).

Lemma unary_inj i j : unary i = unary j -> i = j.
Proof.
  revert j. induction i as [|i IH]; intros [|j]; cbn; try congruence.
  intros [= H]. f_equal. by apply IH.
Qed.

Lemma sample_world_fresh start : uuids_fresh (sample_world start).
Proof. intros i j. apply unary_inj. Qed.

(** The error of a function that has no [Result] but can panic. *)
Inductive panic := Panicked.
