(* ===== verification/Json.v ===== *)
(** * JSON values

    The documented data model and accessors of [serde_json::Value] as the
    source uses them: an object is a map ordered by key (the workspace does not
    enable [preserve_order]), a number is a non-negative integer, a negative
    integer or a binary64 float. Printing and parsing of text are not defined
    here: the components that use them take them as parameters. *)
From Stdlib Require Import ZArith String SpecFloat.
From stdpp Require Import base strings list.
From S2P Require Import Prelude.
Open Scope Z_scope.

Inductive number : Type :=
| PosInt (n : Z)
| NegInt (n : Z)
| Float (f : spec_float).

#[warnings="-register-all"]
Inductive Value : Type :=
| VNull
| VBool (b : bool)
| VNumber (n : number)
| VString (s : string)
| VArray (l : list Value)
| VObject (m : list (string * Value)).

(** ** Accessors *)

Fixpoint obj_get (k : string) (m : list (string * Value)) : option Value :=
  match m with
  | [] => None
  | (k', v) :: m' => if String.eqb k k' then Some v else obj_get k m'
  end.

(** Insertion keeps the object ordered by key. *)
Fixpoint obj_insert (k : string) (v : Value) (m : list (string * Value)) : list (string * Value) :=
  match m with
  | [] => [(k, v)]
  | (k', v') :: m' =>
      match String.compare k k' with
      | Eq => (k, v) :: m'
      | Lt => (k, v) :: (k', v') :: m'
      | Gt => (k', v') :: obj_insert k v m'
      end
  end.

Definition obj_of (l : list (string * Value)) : Value :=
  VObject (fold_left (fun m p => obj_insert (fst p) (snd p) m) l []).

(** [value.get(key)] *)
Definition vget (k : string) (v : Value) : option Value :=
  match v with VObject m => obj_get k m | _ => None end.

(** [value[key]]: [Null] where there is nothing. *)
Definition vindex (v : Value) (k : string) : Value :=
  match vget k v with Some x => x | None => VNull end.

(** [value[key] = x]: inserts in an object, turns [Null] into an object, and
    panics ([None]) on any other value. *)
Definition vindex_set (k : string) (x v : Value) : option Value :=
  match v with
  | VObject m => Some (VObject (obj_insert k x m))
  | VNull => Some (VObject [(k, x)])
  | _ => None
  end.

(** [value.pointer("/a/b")] for reference tokens that are not array indices. *)
Fixpoint pointer (path : list string) (v : Value) : option Value :=
  match path with
  | [] => Some v
  | k :: path' => match vget k v with Some x => pointer path' x | None => None end
  end.

Definition as_str (v : Value) : option string :=
  match v with VString s => Some s | _ => None end.
Definition as_bool (v : Value) : option bool :=
  match v with VBool b => Some b | _ => None end.
Definition as_array (v : Value) : option (list Value) :=
  match v with VArray l => Some l | _ => None end.
Definition as_object (v : Value) : option (list (string * Value)) :=
  match v with VObject m => Some m | _ => None end.
Definition as_u64 (v : Value) : option Z :=
  match v with VNumber (PosInt n) => Some n | _ => None end.
Definition I64_MAX : Z := 9223372036854775807.
Definition as_i64 (v : Value) : option Z :=
  match v with
  | VNumber (PosInt n) => if n <=? I64_MAX then Some n else None
  | VNumber (NegInt n) => Some n
  | _ => None
  end.

(** [n as f64] rounds to nearest, ties to even. *)
Definition f64_of_Z (n : Z) : spec_float := binary_normalize 53 1024 n 0 false.
Definition as_f64 (v : Value) : option spec_float :=
  match v with
  | VNumber (PosInt n) => Some (f64_of_Z n)
  | VNumber (NegInt n) => Some (f64_of_Z n)
  | VNumber (Float f) => Some f
  | _ => None
  end.

Definition is_null (v : Value) : bool := match v with VNull => true | _ => false end.
Definition is_boolean (v : Value) : bool := match v with VBool _ => true | _ => false end.
Definition is_number (v : Value) : bool := match v with VNumber _ => true | _ => false end.
Definition is_string (v : Value) : bool := match v with VString _ => true | _ => false end.
Definition is_array (v : Value) : bool := match v with VArray _ => true | _ => false end.
Definition is_object (v : Value) : bool := match v with VObject _ => true | _ => false end.

(** ** Comparisons *)

Definition number_eqb (a b : number) : bool :=
  match a, b with
  | PosInt x, PosInt y => x =? y
  | NegInt x, NegInt y => x =? y
  | Float x, Float y => SFeqb x y
  | _, _ => false
  end.

Fixpoint value_eqb (a b : Value) : bool :=
  match a, b with
  | VNull, VNull => true
  | VBool x, VBool y => Bool.eqb x y
  | VNumber x, VNumber y => number_eqb x y
  | VString x, VString y => String.eqb x y
  | VArray l, VArray l' =>
      (fix go (l l' : list Value) : bool :=
         match l, l' with
         | [], [] => true
         | x :: l, y :: l' => value_eqb x y && go l l'
         | _, _ => false
         end) l l'
  | VObject m, VObject m' =>
      (fix go (m m' : list (string * Value)) : bool :=
         match m, m' with
         | [], [] => true
         | (k, x) :: m, (k', y) :: m' => String.eqb k k' && value_eqb x y && go m m'
         | _, _ => false
         end) m m'
  | _, _ => false
  end.

(** [value == "text"], [value == true], [value == 1]. *)
Definition eq_str (v : Value) (s : string) : bool :=
  match as_str v with Some t => String.eqb t s | None => false end.
Definition eq_bool (v : Value) (b : bool) : bool :=
  match as_bool v with Some c => Bool.eqb c b | None => false end.
Definition eq_int (v : Value) (n : Z) : bool :=
  match as_i64 v with Some m => m =? n | None => false end.

Definition vu64 (n : Z) : Value := VNumber (PosInt n).
Definition vopt {A} (f : A -> Value) (o : option A) : Value :=
  match o with Some a => f a | None => VNull end.

(** Text with floating point numbers need not be read back exactly, everything else is, unless its arrays and objects are nested
    more deeply than the reader goes: it stops at 128 levels ([remaining_depth] of the deserializer). *)
Fixpoint no_floats (v : Value) : bool :=
  match v with
  | VNumber (Float _) => false
  | VArray l => forallb no_floats l
  | VObject m => forallb (fun p => no_floats p.2) m
  | _ => true
  end.

Definition MAX_NESTING : nat := 127.
Arguments MAX_NESTING : simpl never.
(** No floating point numbers, and at most [n] levels of arrays and objects *)
Fixpoint readable (n : nat) (v : Value) : bool :=
  match v with
  | VNumber (Float _) => false
  | VArray l => match n with O => false | S n' => forallb (readable n') l end
  | VObject m => match n with O => false | S n' => forallb (fun p => readable n' p.2) m end
  | _ => true
  end.

Arguments readable : simpl never.

(** ** Facts *)

Lemma readable_null n : readable n VNull = true.
Proof. by destruct n. Qed.
Lemma readable_text n s : readable n (VString s) = true.
Proof. by destruct n. Qed.
Lemma readable_u64 n k : readable n (vu64 k) = true.
Proof. by destruct n. Qed.
Lemma readable_array n l : readable (S n) (VArray l) = forallb (readable n) l.
Proof. reflexivity. Qed.
Lemma readable_object n m : readable (S n) (VObject m) = forallb (fun p => readable n p.2) m.
Proof. reflexivity. Qed.
Lemma readable_no_floats n v : readable n v = true -> no_floats v = true.
Proof.
  revert v. induction n as [|n IH]; intros [|b|[| |]|s|l|m]; unfold readable; fold readable; cbn [no_floats]; try done.
  - intros H. induction l as [|v l IHl]; [done|]. cbn in *. apply andb_true_iff in H as [H1 H2]. by rewrite (IH v H1), IHl.
  - intros H. induction m as [|[k v] m IHm]; [done|]. cbn in *. apply andb_true_iff in H as [H1 H2]. by rewrite (IH v H1), IHm.
Qed.

Lemma string_compare_refl s : String.compare s s = Eq.
Proof.
  induction s as [|c s IH]; cbn; [done|].
  unfold Ascii.compare. by rewrite N.compare_refl.
Qed.

Lemma obj_get_insert_eq k v m : obj_get k (obj_insert k v m) = Some v.
Proof.
  induction m as [|[k' v'] m IH]; cbn.
  - by rewrite String.eqb_refl.
  - destruct (String.compare k k') eqn:Hc; cbn; rewrite ?String.eqb_refl; try done.
    destruct (String.eqb_spec k k') as [->|]; [|done].
    by rewrite string_compare_refl in Hc.
Qed.

Lemma obj_get_insert_ne k j v m : k ≠ j -> obj_get j (obj_insert k v m) = obj_get j m.
Proof.
  intros Hne. induction m as [|[k' v'] m IH]; cbn.
  - by rewrite (proj2 (String.eqb_neq j k) (not_eq_sym Hne)).
  - destruct (String.compare k k') eqn:Hc; cbn.
    + apply String.compare_eq_iff in Hc as ->.
      by rewrite (proj2 (String.eqb_neq j k') (not_eq_sym Hne)).
    + by rewrite (proj2 (String.eqb_neq j k) (not_eq_sym Hne)).
    + by rewrite IH.
Qed.

Lemma eq_str_spec v s : eq_str v s = true <-> v = VString s.
Proof.
  unfold eq_str, as_str. destruct v; try (split; congruence).
  rewrite String.eqb_eq. split; congruence.
Qed.

Lemma eq_bool_spec v b : eq_bool v b = true <-> v = VBool b.
Proof.
  unfold eq_bool, as_bool. destruct v; try (split; congruence).
  rewrite Bool.eqb_true_iff. split; congruence.
Qed.

(** ** Induction over the children of a value *)

Definition child (v value : Value) : Prop :=
  match value with
  | VObject object => exists key, (key, v) ∈ object
  | VArray values => v ∈ values
  | _ => False
  end.

Lemma value_child_ind (P : Value -> Prop) :
  (forall value, (forall v, child v value -> P v) -> P value) -> forall value, P value.
Proof.
  intros HP. fix IH 1. intros [|b|n|s|l|m]; apply HP; cbn [child]; [intros v []..| |].
  - assert (Forall P l) as Hl by (induction l; constructor; [apply IH|assumption]).
    clear IH. intros v Hv. by eapply Forall_forall in Hl.
  - assert (Forall (fun p => P p.2) m) as Hm by (induction m as [|[k x] m IHm]; constructor; [apply IH|exact IHm]).
    clear IH. intros v [key Hv]. by eapply Forall_forall in Hm; [|exact Hv].
Qed.
