(* ===== verification/Schema.v ===== *)
(** * The shared schema ([crates/machine-fabric-schema/src/lib.rs])

    The records and enumerations that the controller, the executors and the
    peers exchange and persist, with the source's fields and constructors (a
    field carries its record's name as a prefix), and the decidable equalities
    the handlers use. *)
From stdpp Require Import base gmap strings list.
From S2P Require Import Prelude Json.
Open Scope Z_scope.

Definition API_VERSION : string := "machine-fabric.dev/v1".

Record Metadata := mkMetadata {
  meta_id : string;
  meta_labels : gmap string string;
  meta_created_at : Z;
  meta_updated_at : Z;
}.

Inductive SessionState := SActive | SCompleted | SArchived.

Record SessionAuthority := mkSessionAuthority {
  auth_controller_id : string;
  auth_epoch : Z;
  auth_pending_controller_id : option string;
}.

Record WorkspaceSession := mkWorkspaceSession {
  session_api_version : string;
  session_metadata : Metadata;
  session_objective : string;
  session_state : SessionState;
  session_authority : option SessionAuthority;
}.

Inductive ExecutorEndpoint :=
| EndpointLocal (socket : string)
| EndpointSsh (host socket : string) (control_path : option string)
| EndpointCommand (executable : string) (args : list string) (cwd : option string).

Inductive HealthStatus := HReady | HDegraded | HOffline | HUnknown.

Record RetryPolicy := mkRetryPolicy {
  retry_max_attempts : Z;
  retry_retryable_errors : list string;
  retry_backoff_ms : Z;
}.

Definition default_attempts : Z := 1.
Definition RetryPolicy_default : RetryPolicy := mkRetryPolicy 1 [] 0.

Inductive LockMode := LockShared | LockExclusive.

Record LockTemplate := mkLockTemplate { lock_key : string; lock_mode : LockMode }.

Record IdempotencyContract := mkIdempotencyContract {
  idem_key_fields : list string;
  idem_retention_ms : Z;
}.

Definition default_idempotency_ttl : Z := 86400000.

Inductive RollbackStrategy :=
| RollbackNone
| RollbackCompensate (capability : string)
| RollbackRetainPreviousGeneration.

Inductive HealthCheck :=
| HealthCheckNone
| HealthCheckCapability (name : string)
| HealthCheckProcess.

Inductive Effect := ReadOnly | Mutating | Destructive.

Record CapabilityDescriptor := mkCapabilityDescriptor {
  cap_name : string;
  cap_version : string;
  cap_input_schema : Value;
  cap_output_schema : Value;
  cap_required_executor_features : list string;
  cap_locks : list LockTemplate;
  cap_idempotency : IdempotencyContract;
  cap_timeout_ms : Z;
  cap_retry : RetryPolicy;
  cap_rollback : RollbackStrategy;
  cap_health_check : HealthCheck;
  cap_emitted_evidence : list string;
  cap_effect : Effect;
}.

Record Executor := mkExecutor {
  executor_api_version : string;
  executor_metadata : Metadata;
  executor_endpoint : ExecutorEndpoint;
  executor_capabilities : list CapabilityDescriptor;
  executor_allowed_roots : list string;
  executor_health : HealthStatus;
}.

Record ControllerPeer := mkControllerPeer {
  peer_api_version : string;
  peer_metadata : Metadata;
  peer_endpoint : ExecutorEndpoint;
  peer_health : HealthStatus;
}.

Inductive LeaseKind := Driver | Resource.

Record Lease := mkLease {
  lease_id : string;
  lease_kind : LeaseKind;
  lease_resource : string;
  lease_owner : string;
  lease_token : string;
  lease_fence : Z;
  lease_acquired_at : Z;
  lease_updated_at : Z;
  lease_expires_at : Z;
  lease_handoff_to : option string;
}.

Record TaskPayloadRef := mkTaskPayloadRef {
  ref_digest : string;
  ref_bytes : Z;
  ref_locator : string;
  ref_chunk : option string;
}.

Inductive TaskState :=
| Queued | Running | Succeeded | Failed | Cancelled | TimedOut | OutcomeUnknown.

(** [TaskState::terminal] *)
Definition terminal (s : TaskState) : bool :=
  match s with
  | Succeeded | Failed | Cancelled | TimedOut | OutcomeUnknown => true
  | _ => false
  end.

Record TaskEvent := mkTaskEvent {
  event_sequence : Z;
  event_timestamp : Z;
  event_type : string;
  event_details : Value;
}.

Record TaskFailure := mkTaskFailure {
  failure_code : string;
  failure_message : string;
  failure_retryable : bool;
  failure_details : Value;
}.

Record Task := mkTask {
  task_id : string;
  task_correlation_id : option string;
  task_request_id : option string;
  task_workspace_session_id : string;
  task_executor_id : string;
  task_capability : string;
  task_input : Value;
  task_input_ref : option TaskPayloadRef;
  task_output : option Value;
  task_output_ref : option TaskPayloadRef;
  task_error : option TaskFailure;
  task_idempotency_key : string;
  task_state : TaskState;
  task_attempt : Z;
  task_revision : Z;
  task_created_at : Z;
  task_updated_at : Z;
  task_events : list TaskEvent;
}.

Inductive ArtifactLocation :=
| LocationFile (executor_id path : string)
| LocationUrl (url : string).

Record Provenance := mkProvenance {
  prov_workspace_session_id : string;
  prov_task_id : option string;
  prov_source_digests : list string;
  prov_attributes : gmap string string;
}.

Record Artifact := mkArtifact {
  artifact_digest : string;
  artifact_type : string;
  artifact_schema : string;
  artifact_size : Z;
  artifact_locations : list ArtifactLocation;
  artifact_provenance : Provenance;
  artifact_created_at : Z;
}.

Inductive GenerationState :=
| GReserved | GMaterializing | GMaterialized | GValidated | GFinalized
| GSmokePassed | GActive | GSuperseded | GFailed.

Record BaselineIdentity := mkBaselineIdentity {
  baseline_digest : string;
  baseline_source : string;
  baseline_identifier : option string;
  baseline_version : option string;
  baseline_attributes : gmap string string;
}.

Record EvidenceResult := mkEvidenceResult {
  evidence_passed : bool;
  evidence_checked_at : Z;
  evidence_summary : string;
  evidence_artifacts : list string;
  evidence_details : Value;
}.

Record Generation := mkGeneration {
  generation_id : string;
  generation_workspace_session_id : string;
  generation_application_type : string;
  generation_root : string;
  generation_state : GenerationState;
  generation_baseline : BaselineIdentity;
  generation_applied_artifacts : list string;
  generation_digest : string;
  generation_created_at : Z;
  generation_activated_at : option Z;
  generation_validation : option EvidenceResult;
  generation_finalization : option EvidenceResult;
  generation_smoke : option EvidenceResult;
  generation_failure : option TaskFailure;
}.

Inductive TransactionState :=
| TxPlanned | TxRunning | TxOutcomeUnknown | TxActivated | TxRolledBack | TxFailed.

Inductive TransactionStepState :=
| StepPlanned | StepStarted | StepSucceeded | StepFailed | StepCompensated | StepOutcomeUnknown.

Record TransactionJournalEntry := mkTransactionJournalEntry {
  entry_sequence : Z;
  entry_step : string;
  entry_state : TransactionStepState;
  entry_attempt : Z;
  entry_started_at : Z;
  entry_finished_at : option Z;
  entry_input_digest : option string;
  entry_output_digest : option string;
  entry_executor_id : option string;
  entry_fence : option Z;
  entry_details : Value;
}.

Record ActivationTransaction := mkActivationTransaction {
  tx_id : string;
  tx_workspace_session_id : string;
  tx_idempotency_key : string;
  tx_target : string;
  tx_generation_id : string;
  tx_previous_generation_id : option string;
  tx_state : TransactionState;
  tx_created_at : Z;
  tx_updated_at : Z;
  tx_completed_steps : list string;
  tx_journal : list TransactionJournalEntry;
  tx_lease_fence : option Z;
  tx_evidence : list string;
  tx_error : option TaskFailure;
}.

Inductive AgentState := AStarting | ARunning | AStopped | AFailed.

Record AgentInstance := mkAgentInstance {
  agent_id : string;
  agent_workspace_session_id : string;
  agent_executor_id : string;
  agent_role : string;
  agent_provider : string;
  agent_state : AgentState;
  agent_metadata : Value;
}.

Record AgentRoleRef := mkAgentRoleRef { role_agent_id : option string; role_role : string }.

Record PendingAction := mkPendingAction { pending_capability : string; pending_input : Value }.

Record HandoffArtifact := mkHandoffArtifact {
  ha_artifact_type : string;
  ha_digest : string;
  ha_generation : option string;
  ha_provenance : Value;
  ha_location : option ArtifactLocation;
}.

Record Handoff := mkHandoff {
  handoff_id : string;
  handoff_workspace_session_id : string;
  handoff_objective : string;
  handoff_from : AgentRoleRef;
  handoff_to : AgentRoleRef;
  handoff_artifacts : list HandoffArtifact;
  handoff_evidence : list Value;
  handoff_completed_actions : list PendingAction;
  handoff_pending_actions : list PendingAction;
  handoff_acceptance_criteria : list string;
  handoff_constraints : list string;
  handoff_blockers : list string;
  handoff_created_at : Z;
  handoff_acknowledged_at : option Z;
  handoff_completed_at : option Z;
}.

Inductive ApprovalState := APending | AApproved | AConsumed | ARevoked | AExpired.

Record Approval := mkApproval {
  approval_id : string;
  approval_digest : string;
  approval_owner : string;
  approval_reason : string;
  approval_state : ApprovalState;
  approval_created_at : Z;
  approval_approved_at : option Z;
  approval_consumed_at : option Z;
  approval_expires_at : option Z;
}.

(** ** Decidable equality, where the handlers compare values *)

#[export] Instance TaskState_eq_dec : EqDecision TaskState.
Proof. solve_decision. Defined.
#[export] Instance GenerationState_eq_dec : EqDecision GenerationState.
Proof. solve_decision. Defined.
#[export] Instance ApprovalState_eq_dec : EqDecision ApprovalState.
Proof. solve_decision. Defined.
#[export] Instance SessionAuthority_eq_dec : EqDecision SessionAuthority.
Proof. solve_decision. Defined.
#[export] Instance TransactionStepState_eq_dec : EqDecision TransactionStepState.
Proof. solve_decision. Defined.
#[export] Instance Effect_eq_dec : EqDecision Effect.
Proof. solve_decision. Defined.

(** [#[serde(rename_all = "kebab-case")]] on [TaskState]. *)
Definition task_state_kebab (s : TaskState) : string :=
  match s with
  | Queued => "queued"
  | Running => "running"
  | Succeeded => "succeeded"
  | Failed => "failed"
  | Cancelled => "cancelled"
  | TimedOut => "timed-out"
  | OutcomeUnknown => "outcome-unknown"
  end.
