(* ===== verification/Protocol.v ===== *)
(** * The RPC envelope ([crates/machine-fabric-protocol/src/lib.rs])

    Requests, responses and errors with their constructors. A request
    identifier is drawn from the UUID source of the world. *)
From stdpp Require Import base strings.
From S2P Require Import Prelude Json.
Open Scope Z_scope.

Definition RPC_VERSION : string := "machine-fabric.dev/v1".

Record RpcError := mkRpcError {
  err_code : string;
  err_message : string;
  err_retryable : bool;
  err_details : Value;
}.

Record Request := mkRequest {
  req_api_version : string;
  req_request_id : string;
  req_correlation_id : option string;
  req_parent_request_id : option string;
  req_action : string;
  req_params : Value;
}.

Record Response := mkResponse {
  resp_ok : bool;
  resp_api_version : string;
  resp_request_id : string;
  resp_result : option Value;
  resp_error : option RpcError;
}.

(** [RpcError::new] *)
Definition rpc_error (code message : string) : RpcError :=
  mkRpcError code message false VNull.

(** [Request::new] *)
Definition request_new {S E} (action : string) (params : Value) : M S E Request :=
  let* uuid := new_v4 in
  let request_id := "req_" +:+ uuid in
  ret (mkRequest RPC_VERSION request_id (Some request_id) None action params).

(** [Request::child] *)
Definition request_child {S E} (parent : Request) (action : string) (params : Value)
    : M S E Request :=
  let* request := request_new action params in
  let correlation :=
    match req_correlation_id parent with
    | Some c => c
    | None => req_request_id parent
    end in
  ret (mkRequest (req_api_version request) (req_request_id request) (Some correlation)
         (Some (req_request_id parent)) (req_action request) (req_params request)).

(** [Response::success] *)
Definition response_success (request_id : string) (result : Value) : Response :=
  mkResponse true RPC_VERSION request_id (Some result) None.

(** [Response::failure] *)
Definition response_failure (request_id : string) (error : RpcError) : Response :=
  mkResponse false RPC_VERSION request_id None (Some error).

(** An envelope carries exactly one of its two branches. *)
Definition response_wf (r : Response) : Prop :=
  if resp_ok r then is_Some (resp_result r) /\ resp_error r = None
  else resp_result r = None /\ is_Some (resp_error r).

Lemma response_success_wf id v : response_wf (response_success id v).
Proof. by split. Qed.

Lemma response_failure_wf id e : response_wf (response_failure id e).
Proof. by split. Qed.

(** A chain of nested requests: each one is a child of the previous one. *)
Inductive descends {S E} : Request -> Request -> Prop :=
| descends_self r : descends r r
| descends_child r p c action params s w s' w' :
    descends r p ->
    @request_child S E p action params s w = (Ok c, s', w') ->
    descends r c.

(** The correlation identifier under which a request is traced. *)
Definition correlation_of (r : Request) : string :=
  match req_correlation_id r with Some c => c | None => req_request_id r end.

Lemma descends_correlation {S E} r c : @descends S E r c -> correlation_of c = correlation_of r.
Proof.
  induction 1 as [|r p c action params s w s' w' _ IH H]; [done|].
  unfold request_child, request_new, bind, ret in H. cbn in H. simplify_eq.
  by rewrite <- IH.
Qed.
