(* ===== verification/Leases.v ===== *)
(** * The lease table ([crates/machine-fabric-core/src/lease.rs])

    Exclusive, expiring, fenced ownership of named resources. The table is the
    state of the monad; every operation reads the clock and draws UUIDs in the
    order of the source. The abstract contract is [lease_effect]: an operation
    either keeps every ownership (renewing, marking or dropping it) or grants
    one resource with the next fence and a new token; the fencing and
    stale-token theorems are proved against that contract. *)
From stdpp Require Import base gmap strings list.
From S2P Require Import Prelude Json Schema.
Open Scope Z_scope.
Open Scope fabric_scope.

Inductive LeaseError :=
| LeaseActive (owner : string) (expires_at : Z)
| LeaseNotFound
| LeaseOwnedByOther
| LeaseInvalidHandoff.

Record LeaseTable := mkLeaseTable {
  leases : gmap string Lease;
  fences : gmap string Z;
}.

Definition LeaseTable_default : LeaseTable := mkLeaseTable ∅ ∅.

(** [LeaseTable::from_snapshot] *)
Definition from_snapshot_step (acc : gmap string Lease * gmap string Z) (lease : Lease)
    : gmap string Lease * gmap string Z :=
  let fence := default 0 (snd acc !! lease_resource lease) in
  (<[lease_resource lease := lease]> (fst acc),
   <[lease_resource lease := Z.max fence (lease_fence lease)]> (snd acc)).

Definition from_snapshot (ls : list Lease) (fs : gmap string Z) : LeaseTable :=
  let '(l, f) := fold_left from_snapshot_step ls (∅, fs) in mkLeaseTable l f.

(** [LeaseTable::from_leases] *)
Definition from_leases (ls : list Lease) : LeaseTable := from_snapshot ls ∅.

(** [LeaseTable::acquire] *)
Definition acquire (kind : LeaseKind) (resource owner : string) (ttl_ms : Z)
    : M LeaseTable LeaseError Lease :=
  let* now := now_ms in
  let* t := get in
  let grant : M LeaseTable LeaseError Lease :=
    let fence := u64_add (default 0 (fences t !! resource)) 1 in
    let* id := new_v4 in
    let* token := new_v4 in
    let lease :=
      mkLease ("lease_" +:+ id) kind resource owner ("token_" +:+ token) fence
        now now (u64_saturating_add now ttl_ms) None in
    put (mkLeaseTable (<[resource := lease]> (leases t)) (<[resource := fence]> (fences t))) ;;
    ret lease in
  match leases t !! resource with
  | Some existing =>
      if now <? lease_expires_at existing
      then fail (LeaseActive (lease_owner existing) (lease_expires_at existing))
      else grant
  | None => grant
  end.

(** [LeaseTable::validate] *)
Definition validate (resource owner token : string) : M LeaseTable LeaseError Lease :=
  let* t := get in
  let* lease := lift (ok_or (leases t !! resource) LeaseNotFound) in
  let* now := now_ms in
  if lease_expires_at lease <=? now then fail LeaseNotFound
  else if negb (String.eqb (lease_owner lease) owner) || negb (String.eqb (lease_token lease) token)
  then fail LeaseOwnedByOther
  else ret lease.

Definition update_lease (resource : string) (lease : Lease) : M LeaseTable LeaseError unit :=
  modify (fun t => mkLeaseTable (<[resource := lease]> (leases t)) (fences t)).

(** [LeaseTable::renew]; the record re-read after [validate] is the one it returned. *)
Definition renew (resource owner token : string) (ttl_ms : Z) : M LeaseTable LeaseError Lease :=
  let* lease := validate resource owner token in
  let* now := now_ms in
  let lease' :=
    mkLease (lease_id lease) (lease_kind lease) (lease_resource lease) (lease_owner lease)
      (lease_token lease) (lease_fence lease) (lease_acquired_at lease) now
      (u64_saturating_add now ttl_ms) (lease_handoff_to lease) in
  update_lease resource lease' ;;
  ret lease'.

(** [LeaseTable::handoff] *)
Definition handoff (resource owner token target : string) : M LeaseTable LeaseError Lease :=
  let* lease := validate resource owner token in
  let* now := now_ms in
  let lease' :=
    mkLease (lease_id lease) (lease_kind lease) (lease_resource lease) (lease_owner lease)
      (lease_token lease) (lease_fence lease) (lease_acquired_at lease) now
      (lease_expires_at lease) (Some target) in
  update_lease resource lease' ;;
  ret lease'.

(** [LeaseTable::take_handoff] *)
Definition take_handoff (resource target : string) (ttl_ms : Z) : M LeaseTable LeaseError Lease :=
  let* now := now_ms in
  let* t := get in
  let* lease := lift (ok_or (leases t !! resource) LeaseNotFound) in
  if bool_decide (lease_handoff_to lease = Some target) then
    let fence := u64_add (default (lease_fence lease) (fences t !! resource)) 1 in
    let* token := new_v4 in
    let lease' :=
      mkLease (lease_id lease) (lease_kind lease) (lease_resource lease) target
        ("token_" +:+ token) fence now now (u64_saturating_add now ttl_ms) None in
    put (mkLeaseTable (<[resource := lease']> (leases t)) (<[resource := fence]> (fences t))) ;;
    ret lease'
  else fail LeaseInvalidHandoff.

(** [LeaseTable::release] *)
Definition release (resource owner token : string) : M LeaseTable LeaseError Lease :=
  let* _ := validate resource owner token in
  let* t := get in
  let* lease := lift (ok_or (leases t !! resource) LeaseNotFound) in
  put (mkLeaseTable (delete resource (leases t)) (fences t)) ;;
  ret lease.

(** [LeaseTable::snapshot], [LeaseTable::fence_snapshot], [LeaseTable::get] *)
Definition snapshot (t : LeaseTable) : list Lease := btree_values (leases t).
Definition fence_snapshot (t : LeaseTable) : gmap string Z := fences t.
Definition get_lease (t : LeaseTable) (resource : string) : option Lease := leases t !! resource.

(** [LeaseTable::reap_expired] *)
Fixpoint remove_all (resources : list string) (m : gmap string Lease)
    : list Lease * gmap string Lease :=
  match resources with
  | [] => ([], m)
  | r :: rs =>
      match m !! r with
      | Some lease => let '(ls, m') := remove_all rs (delete r m) in (lease :: ls, m')
      | None => remove_all rs m
      end
  end.

Definition reap_expired : M LeaseTable LeaseError (list Lease) :=
  let* now := now_ms in
  let* t := get in
  let resources :=
    lease_resource <$> List.filter (fun lease => lease_expires_at lease <=? now) (btree_values (leases t)) in
  let '(reaped, ls) := remove_all resources (leases t) in
  put (mkLeaseTable ls (fences t)) ;;
  ret reaped.

(** ** Facts about single operations *)

(** The part of a lease that renewing or marking it never changes. *)
Definition same_grant (l l' : Lease) : Prop :=
  lease_resource l' = lease_resource l /\ lease_owner l' = lease_owner l /\
  lease_token l' = lease_token l /\ lease_fence l' = lease_fence l /\
  lease_id l' = lease_id l /\ lease_kind l' = lease_kind l.

Lemma same_grant_refl l : same_grant l l.
Proof. by repeat split. Qed.
#[export] Hint Resolve same_grant_refl : fabric.

(** The invariant of the table: a lease is filed under its own resource and its
    fence does not exceed the resource's fence counter. *)
Record lease_wf (t : LeaseTable) : Prop := mk_lease_wf {
  lwf_key : forall r l, leases t !! r = Some l -> lease_resource l = r;
  lwf_fence : forall r l, leases t !! r = Some l ->
    exists f, fences t !! r = Some f /\ lease_fence l <= f;
  lwf_range : forall r f, fences t !! r = Some f -> in_u64 f;
}.

(** The contract of the table, seen by its clients. *)
Inductive lease_effect (t : LeaseTable) (w w' : World) : option Lease -> LeaseTable -> Prop :=
| effect_keeps t' :
    fences t' = fences t ->
    (forall r l', leases t' !! r = Some l' ->
       exists l, leases t !! r = Some l /\ same_grant l l') ->
    lease_effect t w w' None t'
| effect_grants g t' k :
    leases t' = <[lease_resource g := g]> (leases t) ->
    fences t' = <[lease_resource g := lease_fence g]> (fences t) ->
    lease_fence g = u64_add (default 0 (fences t !! lease_resource g)) 1 ->
    lease_token g = "token_" +:+ o_at (w_uuid w) k ->
    (o_next (w_uuid w) <= k < o_next (w_uuid w'))%nat ->
    (forall l, leases t !! lease_resource g = Some l ->
       lease_expires_at l <= wall w \/ lease_handoff_to l = Some (lease_owner g)) ->
    lease_effect t w w' (Some g) t'.

Lemma validate_Ok r o k t w l t' w' :
  validate r o k t w = (Ok l, t', w') ->
  t' = t /\ world_le w w' /\ leases t !! r = Some l /\ wall w < lease_expires_at l /\
  lease_owner l = o /\ lease_token l = k.
Proof.
  unfold validate. munfold. destruct (leases t !! r) as [l0|] eqn:Hl; [|intros; simplify_eq].
  destruct (lease_expires_at l0 <=? _) eqn:He; [intros; simplify_eq|].
  destruct (_ || _)%bool eqn:Ho; intros; simplify_eq. bool_prop.
  split_and!; try done. constructor; cbn; auto with lia.
Qed.

Lemma validate_Err r o k t w e t' w' :
  validate r o k t w = (Err e, t', w') -> t' = t /\ world_le w w'.
Proof.
  unfold validate. intros H. mrun; split; try done; constructor; cbn; auto with lia.
Qed.

Lemma keeps_refl t w w' : lease_effect t w w' None t.
Proof. constructor; [done|]. eauto with fabric. Qed.
#[export] Hint Resolve keeps_refl : fabric.

Lemma lease_keeps_update t w w' r l l' :
  leases t !! r = Some l -> same_grant l l' ->
  lease_effect t w w' None (mkLeaseTable (<[r := l']> (leases t)) (fences t)).
Proof.
  intros Hl Hs. constructor; [done|]. intros r0 l0. cbn.
  destruct (decide (r = r0)) as [->|Hne].
  - rewrite lookup_insert_eq. intros [= <-]. eauto.
  - rewrite lookup_insert_ne by done. eauto with fabric.
Qed.

Lemma keeps_sub t w w' ls :
  ls ⊆ leases t -> lease_effect t w w' None (mkLeaseTable ls (fences t)).
Proof.
  intros Hsub. constructor; [done|]. intros r l Hr. cbn in Hr.
  exists l. split; [by eapply lookup_weaken|apply same_grant_refl].
Qed.

Ltac wle := constructor; cbn; auto with lia.

Lemma renew_effect r o k ttl t w res t' w' :
  renew r o k ttl t w = (res, t', w') -> lease_effect t w w' None t' /\ world_le w w'.
Proof.
  unfold renew, bind. destruct (validate r o k t w) as [[[l|e] t1] w1] eqn:Hv.
  - apply validate_Ok in Hv as (-> & Hw & Hl & _). munfold. unfold update_lease. munfold.
    intros; simplify_eq. split; [eapply lease_keeps_update; [done|by repeat split]|].
    etrans; [exact Hw|wle].
  - apply validate_Err in Hv as [-> ?]. intros; simplify_eq. eauto with fabric.
Qed.

Lemma handoff_effect r o k target t w res t' w' :
  handoff r o k target t w = (res, t', w') -> lease_effect t w w' None t' /\ world_le w w'.
Proof.
  unfold handoff, bind. destruct (validate r o k t w) as [[[l|e] t1] w1] eqn:Hv.
  - apply validate_Ok in Hv as (-> & Hw & Hl & _). munfold. unfold update_lease. munfold.
    intros; simplify_eq. split; [eapply lease_keeps_update; [done|by repeat split]|].
    etrans; [exact Hw|wle].
  - apply validate_Err in Hv as [-> ?]. intros; simplify_eq. eauto with fabric.
Qed.

Lemma release_effect r o k t w res t' w' :
  release r o k t w = (res, t', w') -> lease_effect t w w' None t' /\ world_le w w'.
Proof.
  unfold release, bind. destruct (validate r o k t w) as [[[l|e] t1] w1] eqn:Hv.
  - apply validate_Ok in Hv as (-> & Hw & Hl & _). munfold. rewrite Hl.
    intros; simplify_eq. split; [apply keeps_sub, delete_subseteq|done].
  - apply validate_Err in Hv as [-> ?]. intros; simplify_eq. eauto with fabric.
Qed.

Lemma remove_all_sub rs m : snd (remove_all rs m) ⊆ m.
Proof.
  revert m. induction rs as [|r rs IH]; intros m; cbn; [done|].
  destruct (m !! r); [|apply IH].
  specialize (IH (delete r m)). destruct (remove_all rs (delete r m)); cbn in *.
  etrans; [exact IH|apply delete_subseteq].
Qed.

Lemma reap_effect t w res t' w' :
  reap_expired t w = (res, t', w') -> lease_effect t w w' None t' /\ world_le w w'.
Proof.
  unfold reap_expired. munfold.
  set (rs := _ <$> _). pose proof (remove_all_sub rs (leases t)) as Hsub.
  destruct (remove_all rs (leases t)) as [ls m]. intros; simplify_eq.
  split; [by apply keeps_sub|wle].
Qed.

Lemma acquire_effect kind r o ttl t w res t' w' :
  acquire kind r o ttl t w = (res, t', w') ->
  lease_effect t w w' (match res with Ok g => Some g | Err _ => None end) t' /\ world_le w w'.
Proof.
  unfold acquire. munfold.
  destruct (leases t !! r) as [l|] eqn:Hl;
    [destruct (_ <? lease_expires_at l) eqn:He; [intros; simplify_eq; split; [eauto with fabric|wle]|]|];
    intros; simplify_eq; (split; [|wle]);
    (eapply (effect_grants _ _ _ _ _ (S (o_next (w_uuid w)))); cbn; try done; [lia|]);
    rewrite Hl; intros; simplify_eq; bool_prop; auto.
Qed.

Lemma take_handoff_effect r target ttl t w res t' w' :
  lease_wf t ->
  take_handoff r target ttl t w = (res, t', w') ->
  lease_effect t w w' (match res with Ok g => Some g | Err _ => None end) t' /\ world_le w w'.
Proof.
  intros Hwf. unfold take_handoff. munfold.
  destruct (leases t !! r) as [l|] eqn:Hl;
    [|intros; simplify_eq; split; [eauto with fabric|wle]].
  case_bool_decide as Ht; intros; simplify_eq; (split; [|wle]); [|eauto with fabric].
  pose proof (lwf_key _ Hwf _ _ Hl) as Hr. destruct (lwf_fence _ Hwf _ _ Hl) as (f & Hf & _).
  eapply (effect_grants _ _ _ _ _ (o_next (w_uuid w))); cbn; rewrite ?Hr, ?Hf; try done; [lia|].
  rewrite Hl. intros; simplify_eq. auto.
Qed.

(** ** The invariant, restarts and reaping *)

Lemma lease_wf_default : lease_wf LeaseTable_default.
Proof. constructor; intros r ?; cbn; by rewrite lookup_empty. Qed.

Lemma lease_effect_wf t w w' o t' : lease_wf t -> lease_effect t w w' o t' -> lease_wf t'.
Proof.
  intros [Hkey Hfence Hrange] [t1 Hf Hl|g t1 k Hl Hf Hg _ _ _].
  - constructor.
    + intros r l' (l & H & Hs & _)%Hl. rewrite Hs. by apply Hkey.
    + intros r l' (l & H & Hs)%Hl. destruct (Hfence _ _ H) as (f & ? & ?).
      exists f. rewrite Hf. destruct Hs as (_ & _ & _ & -> & _). done.
    + rewrite Hf. apply Hrange.
  - constructor; rewrite ?Hl, ?Hf; intros r x.
    + rewrite lookup_insert. case_decide; [|apply Hkey]. intros [= <-]. done.
    + rewrite !lookup_insert. case_decide; [|apply Hfence].
      intros [= <-]. exists (lease_fence g). split; [done|lia].
    + rewrite lookup_insert. case_decide; [|apply Hrange].
      intros [= <-]. rewrite Hg. apply u64_add_bounds.
Qed.

Lemma from_snapshot_fold ls m fs :
  fold_left from_snapshot_step ls (m, fs)
  = (fold_left (fun acc l => <[lease_resource l := l]> acc) ls m,
     snd (fold_left from_snapshot_step ls (m, fs))).
Proof. revert m fs. induction ls as [|l ls IH]; intros m fs; [done|]. apply IH. Qed.

Lemma from_snapshot_fences_id ls m fs :
  (forall l, l ∈ ls -> exists f, fs !! lease_resource l = Some f /\ lease_fence l <= f) ->
  snd (fold_left from_snapshot_step ls (m, fs)) = fs.
Proof.
  revert m. induction ls as [|l ls IH]; intros m H; [done|]. cbn.
  destruct (H l ltac:(left)) as (f & Hf & Hle).
  assert (from_snapshot_step (m, fs) l = (<[lease_resource l := l]> m, fs)) as ->.
  { unfold from_snapshot_step. cbn. rewrite Hf. cbn. rewrite Z.max_l by done.
    by rewrite (insert_id fs). }
  apply IH. intros l' Hl'. apply H. by right.
Qed.

(** A snapshot restores the very same table. *)
Lemma from_snapshot_snapshot t :
  lease_wf t -> from_snapshot (snapshot t) (fence_snapshot t) = t.
Proof.
  intros [Hkey Hfence _]. unfold from_snapshot, snapshot, fence_snapshot.
  rewrite from_snapshot_fold, from_snapshot_fences_id.
  - rewrite (fold_insert_values lease_resource) by done. by destruct t.
  - intros l [r Hr]%elem_of_btree_values. rewrite (Hkey _ _ Hr). by apply Hfence.
Qed.

Lemma remove_all_spec ls m :
  NoDup (lease_resource <$> ls) ->
  (forall l, l ∈ ls -> m !! lease_resource l = Some l) ->
  remove_all (lease_resource <$> ls) m
  = (ls, fold_right (fun l acc => delete (lease_resource l) acc) m ls).
Proof.
  revert m. induction ls as [|l ls IH]; intros m Hnd Hm; [done|].
  apply NoDup_cons in Hnd as [Hl Hnd]. cbn. rewrite (Hm l) by left.
  rewrite IH; [|done|].
  - do 2 f_equal. clear. induction ls as [|l' ls IH]; [done|]. cbn.
    rewrite IH. by rewrite delete_delete.
  - intros l' Hl'. rewrite lookup_delete_ne; [apply Hm; by right|].
    intros Heq. apply Hl. rewrite Heq. by apply list_elem_of_fmap_2.
Qed.

Lemma lookup_fold_delete ls (m : gmap string Lease) r :
  fold_right (fun l acc => delete (lease_resource l) acc) m ls !! r
  = if decide (r ∈ lease_resource <$> ls) then None else m !! r.
Proof.
  induction ls as [|l ls IH]; cbn.
  - rewrite decide_False; [done|apply not_elem_of_nil].
  - rewrite lookup_delete, IH. destruct (decide (lease_resource l = r)) as [<-|Hne].
    + rewrite decide_True; [done|left].
    + destruct (decide (r ∈ lease_resource <$> ls)) as [Hin|Hin].
      * by rewrite decide_True by (by right).
      * rewrite decide_False; [done|]. intros [Heq|?]%elem_of_cons; congruence.
Qed.

(** What the reaper leaves and what it returns. *)
Definition unexpired (now : Z) (o : option Lease) : option Lease :=
  match o with
  | Some l => if lease_expires_at l <=? now then None else Some l
  | None => None
  end.

Lemma reap_expired_spec t w :
  lease_wf t ->
  exists t',
    reap_expired t w
    = (Ok (List.filter (fun l => lease_expires_at l <=? wall w) (snapshot t)), t',
       set_wall (advance (w_wall w)) w)
    /\ fences t' = fences t
    /\ forall r, leases t' !! r = unexpired (wall w) (leases t !! r).
Proof.
  intros Hwf. pose proof (lwf_key _ Hwf) as Hkey.
  unfold reap_expired, snapshot. munfold. fold (wall w).
  set (expired := List.filter _ _).
  assert (Hin : forall l, l ∈ expired <->
    leases t !! lease_resource l = Some l /\ lease_expires_at l <= wall w).
  { intros l. unfold expired. rewrite list_elem_of_In, filter_In, <- list_elem_of_In.
    rewrite elem_of_btree_values, Z.leb_le. split.
    - intros [[r Hr] ?]. by rewrite (Hkey _ _ Hr).
    - intros [? ?]. eauto. }
  rewrite remove_all_spec.
  - eexists. split; [done|]. split; [done|]. intros r. cbn. rewrite lookup_fold_delete.
    unfold unexpired. case_decide as Hr.
    + apply list_elem_of_fmap in Hr as (l & -> & [-> Hle]%Hin).
      by rewrite (proj2 (Z.leb_le _ _) Hle).
    + destruct (leases t !! r) as [l|] eqn:Hl; [|done].
      destruct (_ <=? _) eqn:He; [|done]. exfalso. apply Hr. bool_prop.
      rewrite <- (Hkey _ _ Hl). apply list_elem_of_fmap_2, Hin. by rewrite (Hkey _ _ Hl).
  - assert (Hall : NoDup (lease_resource <$> btree_values (leases t))).
    { rewrite btree_values_keys by done. apply btree_entries_NoDup. }
    unfold expired. clear -Hall. induction (btree_values (leases t)) as [|l ls IH]; [done|].
    apply NoDup_cons in Hall as [Hl Hall]. cbn. destruct (_ <=? _); [|auto].
    apply NoDup_cons. split; [|auto]. intros Hel. apply Hl.
    apply list_elem_of_fmap in Hel as (l' & -> & Hin').
    rewrite list_elem_of_In, filter_In, <- list_elem_of_In in Hin'.
    apply list_elem_of_fmap_2, Hin'.
  - intros l [? _]%Hin. done.
Qed.

(** ** Runs of the table

    A run is any sequence of operations, in any order and by any clients; a
    restart replaces the table by the one rebuilt from its own snapshot. *)

Inductive lease_op :=
| OpAcquire (kind : LeaseKind) (resource owner : string) (ttl_ms : Z)
| OpRenew (resource owner token : string) (ttl_ms : Z)
| OpHandoff (resource owner token target : string)
| OpTakeHandoff (resource target : string) (ttl_ms : Z)
| OpRelease (resource owner token : string)
| OpReap
| OpRestart.

(** The lease that an operation grants, if it grants one. *)
Definition ok_grant (x : result LeaseError Lease * LeaseTable * World)
    : option Lease * LeaseTable * World :=
  let '(r, t, w) := x in (match r with Ok g => Some g | Err _ => None end, t, w).

Definition no_grant {A} (x : result LeaseError A * LeaseTable * World)
    : option Lease * LeaseTable * World :=
  let '(_, t, w) := x in (None, t, w).

Definition run_op (o : lease_op) (t : LeaseTable) (w : World) : option Lease * LeaseTable * World :=
  match o with
  | OpAcquire kind r owner ttl => ok_grant (acquire kind r owner ttl t w)
  | OpRenew r owner token ttl => no_grant (renew r owner token ttl t w)
  | OpHandoff r owner token target => no_grant (handoff r owner token target t w)
  | OpTakeHandoff r target ttl => ok_grant (take_handoff r target ttl t w)
  | OpRelease r owner token => no_grant (release r owner token t w)
  | OpReap => no_grant (reap_expired t w)
  | OpRestart => (None, from_snapshot (snapshot t) (fence_snapshot t), w)
  end.

Fixpoint run_ops (os : list lease_op) (t : LeaseTable) (w : World)
    : list Lease * LeaseTable * World :=
  match os with
  | [] => ([], t, w)
  | o :: os' =>
      let '(g, t1, w1) := run_op o t w in
      let '(gs, t2, w2) := run_ops os' t1 w1 in
      (option_list g ++ gs, t2, w2)
  end.

Lemma run_op_effect o t w g t' w' :
  lease_wf t -> run_op o t w = (g, t', w') -> lease_effect t w w' g t' /\ world_le w w'.
Proof.
  intros Hwf H. destruct o; cbn [run_op] in H; unfold ok_grant, no_grant in H;
    try match type of H with
    | (let '(_, _) := ?x in _) = _ => destruct x as [[res t1] w1] eqn:E; simplify_eq
    end; eauto using acquire_effect, renew_effect, handoff_effect, take_handoff_effect,
      release_effect, reap_effect.
  simplify_eq. rewrite from_snapshot_snapshot by done. split; [eauto with fabric|done].
Qed.

(** What holds between the grants made so far and the table they produced. *)
Record run_inv (gs : list Lease) (t : LeaseTable) (w : World) : Prop := mk_run_inv {
  ri_wf : lease_wf t;
  ri_counter : forall g, g ∈ gs ->
    exists f, fences t !! lease_resource g = Some f /\ lease_fence g <= f;
  ri_current : forall r l, leases t !! r = Some l ->
    exists pre g post, gs = pre ++ g :: post /\ lease_resource g = r /\
      lease_token g = lease_token l /\ forall g', g' ∈ post -> lease_resource g' ≠ r;
  ri_tokens : forall g, g ∈ gs -> exists k, (k < o_next (w_uuid w))%nat /\
    lease_token g = "token_" +:+ o_at (w_uuid w) k;
  ri_distinct : uuids_fresh w -> NoDup (lease_token <$> gs);
  ri_sorted : forall i j g1 g2, (i < j)%nat -> gs !! i = Some g1 -> gs !! j = Some g2 ->
    lease_resource g1 = lease_resource g2 -> lease_fence g1 < lease_fence g2;
}.

Lemma run_inv_default w : run_inv [] LeaseTable_default w.
Proof.
  constructor; try (intros g Hg; by apply not_elem_of_nil in Hg).
  - apply lease_wf_default.
  - intros r l. cbn. by rewrite lookup_empty.
  - intros _. apply NoDup_nil_2.
  - intros i j g1 g2 _ H. by rewrite lookup_nil in H.
Qed.

Lemma token_inj a b : "token_" +:+ a = "token_" +:+ b -> a = b.
Proof. intros H. by simplify_eq. Qed.

Lemma run_inv_keeps gs t w w' t' :
  run_inv gs t w -> lease_effect t w w' None t' -> world_le w w' -> run_inv gs t' w'.
Proof.
  intros [Hwf Hc Hcur Htok Hd Hsort] He Hw. pose proof (lease_effect_wf _ _ _ _ _ Hwf He) as Hwf'.
  inversion He as [t1 Hf Hl|]; subst. constructor; [done|..].
  - intros g Hg. rewrite Hf. eauto.
  - intros r l' (l & H & Hs)%Hl. destruct (Hcur _ _ H) as (pre & g & post & ? & ? & ? & ?).
    exists pre, g, post. split_and!; try done. destruct Hs as (_ & _ & -> & _). done.
  - intros g (k & ? & ->)%Htok. exists k. destruct Hw. rewrite wle_uuid. split; [lia|done].
  - intros Hfr. apply Hd. intros i j. destruct Hw. rewrite <- wle_uuid. apply Hfr.
  - done.
Qed.

Lemma run_inv_grants gs t w w' g t' :
  run_inv gs t w -> lease_effect t w w' (Some g) t' -> world_le w w' ->
  default 0 (fences t !! lease_resource g) < U64_MAX ->
  run_inv (gs ++ [g]) t' w'.
Proof.
  intros [Hwf Hc Hcur Htok Hd Hsort] He Hw Hov. pose proof (lease_effect_wf _ _ _ _ _ Hwf He) as Hwf'.
  inversion He as [|g1 t1 k Hl Hf Hg Ht Hk _]; subst. constructor; [done|..].
  - intros g' [Hg'| ->%list_elem_of_singleton]%elem_of_app.
    + rewrite Hf, lookup_insert. case_decide as Heq; [|eauto].
      exists (lease_fence g). split; [done|]. destruct (Hc _ Hg') as (f & Hf' & Hle).
      rewrite <- Heq in Hf'. rewrite Hf' in Hg, Hov. cbn in *.
      pose proof (lwf_range _ Hwf _ _ Hf') as [? ?]. rewrite Hg, u64_add_small; lia.
    + exists (lease_fence g). by rewrite Hf, lookup_insert_eq.
  - intros r l. rewrite Hl, lookup_insert. case_decide as Heq.
    + intros [= <-]. exists gs, g, []. split_and!; try done.
      intros g' Hg'. by apply not_elem_of_nil in Hg'.
    + intros (pre & g' & post & -> & ? & ? & Hpost)%Hcur. exists pre, g', (post ++ [g]).
      split_and!; try done; [by rewrite <- app_assoc|].
      intros g'' [?| ->%list_elem_of_singleton]%elem_of_app; [auto|congruence].
  - intros g' [(j & ? & ->)%Htok| ->%list_elem_of_singleton]%elem_of_app;
      destruct Hw; rewrite wle_uuid.
    + exists j. split; [lia|done].
    + exists k. split; [lia|done].
  - intros Hfr. rewrite fmap_app. apply NoDup_app. split_and!.
    + apply Hd. intros i j. destruct Hw. rewrite <- wle_uuid. apply Hfr.
    + intros tok (g' & -> & Hg')%list_elem_of_fmap Hin%list_elem_of_singleton.
      destruct (Htok _ Hg') as (j & ? & Hj). rewrite Hj, Ht in Hin.
      apply token_inj in Hin. destruct Hw. rewrite <- wle_uuid in Hin.
      apply Hfr in Hin. lia.
    + apply NoDup_singleton.
  - intros i j g1 g2 Hij Hi Hj Hr. apply lookup_app_Some in Hj as [Hj|[Hj Hj2]].
    + assert (Hi' : gs !! i = Some g1).
      { apply lookup_lt_Some in Hj. by rewrite lookup_app_l in Hi by lia. }
      eauto.
    + apply list_lookup_singleton_Some in Hj2 as [? <-].
      assert (Hi' : gs !! i = Some g1) by (by rewrite lookup_app_l in Hi by lia).
      destruct (Hc g1 (list_elem_of_lookup_2 _ _ _ Hi')) as (f & Hf' & Hle).
      rewrite Hr in Hf'. rewrite Hf' in Hg, Hov. cbn in *.
      pose proof (lwf_range _ Hwf _ _ Hf') as [? ?]. rewrite Hg, u64_add_small; lia.
Qed.

(** No counter of the table is within [n] grants of the largest [u64]. *)
Definition fence_room (n : nat) (t : LeaseTable) : Prop :=
  forall r, default 0 (fences t !! r) + Z.of_nat n <= U64_MAX.

Lemma fences_nonneg t r : lease_wf t -> 0 <= default 0 (fences t !! r).
Proof.
  intros Hwf. destruct (fences t !! r) as [f|] eqn:Hf; cbn; [|done].
  apply (lwf_range _ Hwf _ _ Hf).
Qed.

Lemma fence_room_step n t w w' g t' :
  lease_wf t -> fence_room (S n) t -> lease_effect t w w' g t' -> fence_room n t'.
Proof.
  intros Hwf Hroom [t1 Hf _|g1 t1 k _ Hf Hg _ _ _]; intros r; rewrite Hf.
  - specialize (Hroom r). lia.
  - rewrite lookup_insert. case_decide; cbn; [|specialize (Hroom r); lia].
    specialize (Hroom (lease_resource g1)). pose proof (fences_nonneg t (lease_resource g1) Hwf).
    rewrite Hg, u64_add_small; lia.
Qed.

Lemma run_ops_inv os gs t w gs' t' w' :
  run_inv gs t w -> fence_room (length os) t ->
  run_ops os t w = (gs', t', w') -> run_inv (gs ++ gs') t' w' /\ world_le w w'.
Proof.
  revert gs t w gs' t' w'. induction os as [|o os IH]; intros gs t w gs' t' w' Hinv Hroom H; cbn in H.
  - simplify_eq. by rewrite app_nil_r.
  - destruct (run_op o t w) as [[g t1] w1] eqn:Ho.
    destruct (run_ops os t1 w1) as [[gs1 t2] w2] eqn:Hos. simplify_eq.
    pose proof (run_op_effect _ _ _ _ _ _ (ri_wf _ _ _ Hinv) Ho) as [He Hw].
    assert (Hinv1 : run_inv (gs ++ option_list g) t1 w1).
    { destruct g as [g|]; cbn; [|rewrite app_nil_r; by eapply run_inv_keeps].
      eapply run_inv_grants; try done. specialize (Hroom (lease_resource g)). cbn in Hroom. lia. }
    destruct (IH _ _ _ _ _ _ Hinv1 (fence_room_step _ _ _ _ _ _ (ri_wf _ _ _ Hinv) Hroom He) Hos)
      as [Hi Hw2].
    rewrite <- app_assoc in Hi. split; [done|by etrans].
Qed.

Lemma run_from_default os w gs t w' :
  Z.of_nat (length os) <= U64_MAX ->
  run_ops os LeaseTable_default w = (gs, t, w') -> run_inv gs t w' /\ world_le w w'.
Proof.
  intros Hlen H. apply (run_ops_inv os []) in H; [done|apply run_inv_default|].
  intros r. cbn. rewrite lookup_empty. cbn. lia.
Qed.

(** ** The properties of the table *)

(** C3: Fencing. In any run of the lease table from the empty table (operations of any clients, in
    any order, with restarts from a snapshot in between), two successive grants of the same
    resource carry strictly increasing fences. *)
Theorem fences_strictly_increase os w gs t w' :
  Z.of_nat (length os) <= U64_MAX ->
  run_ops os LeaseTable_default w = (gs, t, w') ->
  forall i j g1 g2, (i < j)%nat -> gs !! i = Some g1 -> gs !! j = Some g2 ->
    lease_resource g1 = lease_resource g2 -> lease_fence g1 < lease_fence g2.
Proof. intros Hlen [Hinv _]%run_from_default; [|done]. apply (ri_sorted _ _ _ Hinv). Qed.

(** Stale writers. Once a resource has been granted again, the token of any earlier grant of it
    is refused by [validate] for every owner, for the rest of the run. *)
Theorem stale_token_rejected os w gs t w' :
  Z.of_nat (length os) <= U64_MAX -> uuids_fresh w ->
  run_ops os LeaseTable_default w = (gs, t, w') ->
  forall i j g1 g2, (i < j)%nat -> gs !! i = Some g1 -> gs !! j = Some g2 ->
    lease_resource g1 = lease_resource g2 ->
  forall owner, exists e,
    fst (fst (validate (lease_resource g1) owner (lease_token g1) t w')) = Err e.
Proof.
  intros Hlen Hfr Hrun i j g1 g2 Hij Hi Hj Hr owner.
  apply run_from_default in Hrun as [Hinv Hw]; [|done].
  destruct (validate _ owner (lease_token g1) t w') as [[[l|e] t1] w1] eqn:Hv; [|by eexists].
  exfalso. apply validate_Ok in Hv as (_ & _ & Hl & _ & _ & Htok).
  destruct (ri_current _ _ _ Hinv _ _ Hl) as (pre & g & post & Heq & Hgr & Hgt & Hpost).
  pose proof (ri_distinct _ _ _ Hinv (world_le_uuids_fresh _ _ Hw Hfr)) as Hnd.
  assert (i = length pre) as ->.
  { eapply (NoDup_lookup (lease_token <$> gs)); [done| |].
    - rewrite list_lookup_fmap, Hi. cbn. by rewrite <- Htok, <- Hgt.
    - rewrite list_lookup_fmap, Heq, list_lookup_middle by done. done. }
  apply (Hpost g2); [|done]. rewrite Heq in Hj.
  apply list_elem_of_lookup. exists (j - S (length pre))%nat.
  rewrite lookup_app_r in Hj by lia.
  by replace (j - length pre)%nat with (S (j - S (length pre))) in Hj by lia.
Qed.

(** Exclusive ownership. Whatever operation runs on a well-formed table, the owner recorded for
    a resource changes only when the lease had expired or when it was handed off to exactly the
    new owner. *)
Theorem owner_changes_only_by_expiry_or_handoff o t w g t' w' r l l' :
  lease_wf t -> run_op o t w = (g, t', w') ->
  leases t !! r = Some l -> leases t' !! r = Some l' -> lease_owner l' ≠ lease_owner l ->
  lease_expires_at l <= wall w \/ lease_handoff_to l = Some (lease_owner l').
Proof.
  intros Hwf Ho Hl Hl' Hne. destruct (run_op_effect _ _ _ _ _ _ Hwf Ho) as [He _].
  destruct He as [t1 Hf Hk|g1 t1 k Hins _ _ _ _ Hcond].
  - destruct (Hk _ _ Hl') as (l0 & H0 & _ & Hown & _). congruence.
  - rewrite Hins, lookup_insert in Hl'. case_decide as Heq; [|congruence].
    simplify_eq. by apply Hcond.
Qed.

(** [acquire] on every branch: it is refused, naming the holder and leaving the table alone,
    exactly while an unexpired lease exists; otherwise it installs a lease for the caller with the
    next fence that expires [ttl_ms] later (saturating), and no other resource changes. *)
Theorem acquire_behaviour kind r owner ttl t w :
  match acquire kind r owner ttl t w, leases t !! r with
  | (Err e, t', _), Some l =>
      wall w < lease_expires_at l /\ t' = t /\
      e = LeaseActive (lease_owner l) (lease_expires_at l)
  | (Err _, _, _), None => False
  | (Ok g, t', _), o =>
      unexpired (wall w) o = None /\
      leases t' = <[r := g]> (leases t) /\
      fences t' = <[r := lease_fence g]> (fences t) /\
      lease_fence g = u64_add (default 0 (fences t !! r)) 1 /\
      lease_resource g = r /\ lease_owner g = owner /\ lease_kind g = kind /\
      lease_expires_at g = u64_saturating_add (wall w) ttl /\ lease_handoff_to g = None
  end.
Proof.
  unfold acquire. munfold. fold (wall w). unfold unexpired.
  destruct (leases t !! r) as [l|] eqn:Hl; [|done].
  destruct (wall w <? lease_expires_at l) eqn:He; bool_prop; [done|].
  by rewrite (proj2 (Z.leb_le _ _) He).
Qed.

(** [reap_expired] returns exactly the expired leases, in key order, removes exactly those, and
    keeps every fence counter, so that a reaped resource never gets an old fence again. *)
Theorem reap_expired_exact os w gs t w' :
  Z.of_nat (length os) <= U64_MAX ->
  run_ops os LeaseTable_default w = (gs, t, w') ->
  exists t',
    reap_expired t w'
    = (Ok (List.filter (fun l => lease_expires_at l <=? wall w') (snapshot t)), t',
       set_wall (advance (w_wall w')) w')
    /\ fences t' = fences t
    /\ forall r, leases t' !! r = unexpired (wall w') (leases t !! r).
Proof. intros Hlen [Hinv _]%run_from_default; [|done]. apply reap_expired_spec, Hinv. Qed.

(** Restart. The table rebuilt from the persisted leases and fences of any reachable table is
    that table, including the fence counters of released resources. *)
Theorem restart_restores_table os w gs t w' :
  Z.of_nat (length os) <= U64_MAX ->
  run_ops os LeaseTable_default w = (gs, t, w') ->
  from_snapshot (snapshot t) (fence_snapshot t) = t.
Proof.
  intros Hlen [Hinv _]%run_from_default; [|done].
  apply from_snapshot_snapshot, Hinv.
Qed.

(** ** Witnesses: agent [a] drives a workspace, hands it to [b], which takes it. *)

Definition sample_ops : list lease_op :=
  [ OpAcquire Driver "workspace:s" "a" 60000;
    OpAcquire Driver "workspace:s" "b" 60000;
    OpHandoff "workspace:s" "a" "token_i" "b";
    OpTakeHandoff "workspace:s" "b" 60000;
    OpRestart;
    OpAcquire Resource "port:1" "c" 0;
    OpReap ].

Definition sample_run := run_ops sample_ops LeaseTable_default (sample_world 1000).
Definition sample_grants : list Lease := fst (fst sample_run).

Example sample_run_grants :
  (fun g => (lease_resource g, lease_owner g, lease_fence g)) <$> sample_grants
  = [("workspace:s", "a", 1); ("workspace:s", "b", 2); ("port:1", "c", 1)].
Proof. vm_compute. reflexivity. Qed.

Definition sample_grant (i : nat) : Lease :=
  default (mkLease "" Driver "" "" "" 0 0 0 0 None) (sample_grants !! i).

Lemma sample_run_eq :
  run_ops sample_ops LeaseTable_default (sample_world 1000)
  = (sample_grants, snd (fst sample_run), snd sample_run).
Proof. unfold sample_grants, sample_run. by destruct (run_ops _ _ _) as [[? ?] ?]. Qed.

Lemma sample_ops_short : Z.of_nat (length sample_ops) <= U64_MAX.
Proof. vm_compute. discriminate. Qed.

Lemma fences_strictly_increase_witness :
  lease_fence (sample_grant 0) < lease_fence (sample_grant 1).
Proof.
  apply (fences_strictly_increase sample_ops (sample_world 1000) sample_grants
           (snd (fst sample_run)) (snd sample_run) sample_ops_short sample_run_eq 0 1).
  - lia.
  - vm_compute. reflexivity.
  - vm_compute. reflexivity.
  - vm_compute. reflexivity.
Defined.

Lemma stale_token_rejected_witness :
  exists e, fst (fst (validate (lease_resource (sample_grant 0)) "a" (lease_token (sample_grant 0))
                        (snd (fst sample_run)) (snd sample_run))) = Err e.
Proof.
  apply (stale_token_rejected sample_ops (sample_world 1000) sample_grants
           (snd (fst sample_run)) (snd sample_run) sample_ops_short (sample_world_fresh 1000)
           sample_run_eq 0 1 (sample_grant 0) (sample_grant 1)).
  - lia.
  - vm_compute. reflexivity.
  - vm_compute. reflexivity.
  - vm_compute. reflexivity.
Defined.

Definition held_table : LeaseTable :=
  snd (fst (run_ops (take 3 sample_ops) LeaseTable_default (sample_world 1000))).

Lemma held_table_wf : lease_wf held_table.
Proof.
  destruct (run_ops (take 3 sample_ops) LeaseTable_default (sample_world 1000))
    as [[gs t] w'] eqn:H.
  unfold held_table. rewrite H. apply (run_from_default (take 3 sample_ops)) in H as [Hi _].
  - apply Hi.
  - cbn. unfold U64_MAX. lia.
Qed.

Definition held_lease : Lease := mkLease "lease_" Driver "workspace:s" "a" "token_i" 1 1000 1003 61000 (Some "b").
Definition taken_lease : Lease := mkLease "lease_" Driver "workspace:s" "b" "token_" 2 2000 2000 62000 None.

Lemma owner_changes_witness :
  lease_expires_at held_lease <= wall (sample_world 2000) \/
  lease_handoff_to held_lease = Some (lease_owner taken_lease).
Proof.
  apply (owner_changes_only_by_expiry_or_handoff
           (OpTakeHandoff "workspace:s" "b" 60000) held_table (sample_world 2000)
           _ _ _ "workspace:s" held_lease taken_lease held_table_wf eq_refl).
  - vm_compute. reflexivity.
  - vm_compute. reflexivity.
  - vm_compute. discriminate.
Defined.

Lemma reap_expired_exact_witness :
  exists t', fst (fst (reap_expired (snd (fst sample_run)) (snd sample_run))) = Ok [] /\
    forall r, leases t' !! r = unexpired (wall (snd sample_run)) (leases (snd (fst sample_run)) !! r).
Proof.
  destruct (reap_expired_exact sample_ops (sample_world 1000) sample_grants
              (snd (fst sample_run)) (snd sample_run) sample_ops_short sample_run_eq)
    as (t' & Heq & _ & Hl).
  exists t'. split; [vm_compute; reflexivity|exact Hl].
Defined.

Lemma restart_restores_table_witness :
  from_snapshot (snapshot (snd (fst sample_run))) (fence_snapshot (snd (fst sample_run)))
  = snd (fst sample_run).
Proof.
  apply (restart_restores_table sample_ops (sample_world 1000) sample_grants
           (snd (fst sample_run)) (snd sample_run) sample_ops_short sample_run_eq).
Defined.
