(* ===== verification/Tasks.v ===== *)
(** * The task table ([crates/machine-fabric-core/src/task.rs])

    Idempotent submission, the life cycle of a task, payload references
    guarded by a revision, recovery after a restart, pruning and paging. The
    contract of the life cycle is the relation [task_step] on [TaskState];
    [task_op_refines] shows that every operation moves every task along it. *)
From Stdlib Require Import Ascii.
From stdpp Require Import base gmap strings list.
From S2P Require Import Prelude Json Schema.
Open Scope Z_scope.
Open Scope fabric_scope.

Inductive TaskError :=
| TaskNotFound
| TaskInvalidTransition (from to : TaskState).

Record TaskTable := mkTaskTable {
  tasks : gmap string Task;
  idempotency : gmap string string;
}.

Definition TaskTable_default : TaskTable := mkTaskTable ∅ ∅.

Definition NUL : string := String "000"%char "".

Definition scoped_idempotency_key (workspace_session_id executor_id capability key : string) : string :=
  workspace_session_id +:+ NUL +:+ executor_id +:+ NUL +:+ capability +:+ NUL +:+ key.

(** The scope under which a task is indexed. *)
Definition task_scope (t : Task) : string :=
  scoped_idempotency_key (task_workspace_session_id t) (task_executor_id t)
    (task_capability t) (task_idempotency_key t).

(** [TaskTable::from_tasks] *)
Definition from_tasks_step (table : TaskTable) (task : Task) : TaskTable :=
  mkTaskTable (<[task_id task := task]> (tasks table))
    (<[task_scope task := task_id task]> (idempotency table)).

Definition from_tasks (ts : list Task) : TaskTable :=
  fold_left from_tasks_step ts TaskTable_default.

(** [TaskTable::push_event] *)
Definition push_event {S E} (task : Task) (type : string) (details : Value) : M S E Task :=
  let* now := now_ms in
  let event := mkTaskEvent (Z.of_nat (length (task_events task)) + 1) now type details in
  ret (mkTask (task_id task) (task_correlation_id task) (task_request_id task)
         (task_workspace_session_id task) (task_executor_id task) (task_capability task)
         (task_input task) (task_input_ref task) (task_output task) (task_output_ref task)
         (task_error task) (task_idempotency_key task) (task_state task) (task_attempt task)
         (task_revision task) (task_created_at task) (task_updated_at task)
         (task_events task ++ [event])).

Definition store_task {E} (id : string) (task : Task) : M TaskTable E unit :=
  modify (fun table => mkTaskTable (<[id := task]> (tasks table)) (idempotency table)).

(** [TaskTable::submit_traced]; indexing [self.tasks[id]] panics on a dangling entry. *)
Definition submit_traced (workspace_session_id executor_id capability : string) (input : Value)
    (idempotency_key : string) (correlation_id request_id : option string)
    : M TaskTable panic (Task * bool) :=
  let scoped_key :=
    scoped_idempotency_key workspace_session_id executor_id capability idempotency_key in
  let* table := get in
  match idempotency table !! scoped_key with
  | Some id =>
      let* task := lift (ok_or (tasks table !! id) Panicked) in
      ret (task, true)
  | None =>
      let* now := now_ms in
      let* uuid := new_v4 in
      let task :=
        mkTask ("task_" +:+ uuid) correlation_id request_id workspace_session_id executor_id
          capability input None None None None idempotency_key Queued 0 1 now now [] in
      let* task := push_event task "task.queued" VNull in
      put (mkTaskTable (<[task_id task := task]> (tasks table))
             (<[scoped_key := task_id task]> (idempotency table))) ;;
      ret (task, false)
  end.

(** [TaskTable::submit] *)
Definition submit (workspace_session_id executor_id capability : string) (input : Value)
    (idempotency_key : string) : M TaskTable panic (Task * bool) :=
  submit_traced workspace_session_id executor_id capability input idempotency_key None None.

(** The [matches!] of [TaskTable::transition]. *)
Definition transition_allowed (from to : TaskState) : bool :=
  match from, to with
  | Queued, Running => true
  | Queued, Cancelled => true
  | Running, Succeeded => true
  | Running, Failed => true
  | Running, Cancelled => true
  | Running, TimedOut => true
  | Running, OutcomeUnknown => true
  | _, _ => false
  end.

(** [TaskTable::transition] *)
Definition transition (id : string) (state : TaskState) (output : option Value)
    (error : option TaskFailure) : M TaskTable TaskError Task :=
  let* table := get in
  let* task := lift (ok_or (tasks table !! id) TaskNotFound) in
  if negb (transition_allowed (task_state task) state)
  then fail (TaskInvalidTransition (task_state task) state)
  else
    let attempt :=
      match state with Running => u32_add (task_attempt task) 1 | _ => task_attempt task end in
    let* now := now_ms in
    let task :=
      mkTask (task_id task) (task_correlation_id task) (task_request_id task)
        (task_workspace_session_id task) (task_executor_id task) (task_capability task)
        (task_input task) (task_input_ref task) output None error (task_idempotency_key task)
        state attempt (u64_saturating_add (task_revision task) 1) (task_created_at task) now
        (task_events task) in
    let* task := push_event task ("task." +:+ task_state_kebab state) VNull in
    store_task id task ;;
    ret task.

Definition retryable_state (s : TaskState) : bool :=
  match s with Failed | TimedOut | OutcomeUnknown => true | _ => false end.

(** [TaskTable::retry] *)
Definition retry (id : string) : M TaskTable TaskError Task :=
  let* table := get in
  let* task := lift (ok_or (tasks table !! id) TaskNotFound) in
  if negb (retryable_state (task_state task))
  then fail (TaskInvalidTransition (task_state task) Queued)
  else
    let* now := now_ms in
    let task :=
      mkTask (task_id task) (task_correlation_id task) (task_request_id task)
        (task_workspace_session_id task) (task_executor_id task) (task_capability task)
        (task_input task) (task_input_ref task) None None None (task_idempotency_key task)
        Queued (task_attempt task) (u64_saturating_add (task_revision task) 1)
        (task_created_at task) now (task_events task) in
    let* task := push_event task "task.retried" VNull in
    store_task id task ;;
    ret task.

(** Assignments to the payload fields of a task. *)
Definition with_input (task : Task) (input : Value) (input_ref : option TaskPayloadRef) : Task :=
  mkTask (task_id task) (task_correlation_id task) (task_request_id task)
    (task_workspace_session_id task) (task_executor_id task) (task_capability task)
    input input_ref (task_output task) (task_output_ref task) (task_error task)
    (task_idempotency_key task) (task_state task) (task_attempt task) (task_revision task)
    (task_created_at task) (task_updated_at task) (task_events task).

Definition with_output (task : Task) (output : option Value) (output_ref : option TaskPayloadRef)
    : Task :=
  mkTask (task_id task) (task_correlation_id task) (task_request_id task)
    (task_workspace_session_id task) (task_executor_id task) (task_capability task)
    (task_input task) (task_input_ref task) output output_ref (task_error task)
    (task_idempotency_key task) (task_state task) (task_attempt task) (task_revision task)
    (task_created_at task) (task_updated_at task) (task_events task).

(** [TaskTable::retry_with_input] *)
Definition retry_with_input (id : string) (input : Value) : M TaskTable TaskError Task :=
  let* _ := retry id in
  let* table := get in
  let* task := lift (ok_or (tasks table !! id) TaskNotFound) in
  let task := with_input task input None in
  store_task id task ;;
  ret task.

(** [TaskTable::get], [TaskTable::snapshot] *)
Definition get_task (table : TaskTable) (id : string) : option Task := tasks table !! id.
Definition snapshot (table : TaskTable) : list Task := btree_values (tasks table).

(** [TaskTable::page_by]: one pass that counts the matches and collects the page. *)
Fixpoint page_loop (cursor limit : nat) (predicate : Task -> bool) (ts : list Task)
    (total : nat) (page : list Task) : nat * list Task :=
  match ts with
  | [] => (total, page)
  | task :: ts' =>
      if predicate task then
        page_loop cursor limit predicate ts' (S total)
          (if Nat.leb cursor total && Nat.ltb (length page) limit then page ++ [task] else page)
      else page_loop cursor limit predicate ts' total page
  end.

Definition page_by (table : TaskTable) (cursor limit : nat) (predicate : Task -> bool)
    : nat * list Task :=
  page_loop cursor limit predicate (btree_values (tasks table)) 0 [].

(** [TaskTable::replace_input_ref_if_unchanged] *)
Definition replace_input_ref_if_unchanged (id : string) (revision : Z) (marker : Value)
    (reference : TaskPayloadRef) : M TaskTable panic bool :=
  let* table := get in
  match tasks table !! id with
  | None => ret false
  | Some task =>
      if negb (task_revision task =? revision) || bool_decide (is_Some (task_input_ref task))
      then ret false
      else store_task id (with_input task marker (Some reference)) ;; ret true
  end.

(** [TaskTable::replace_output_ref_if_unchanged] *)
Definition replace_output_ref_if_unchanged (id : string) (revision : Z) (marker : Value)
    (reference : TaskPayloadRef) : M TaskTable panic bool :=
  let* table := get in
  match tasks table !! id with
  | None => ret false
  | Some task =>
      if negb (task_revision task =? revision) || bool_decide (is_Some (task_output_ref task))
      then ret false
      else store_task id (with_output task (Some marker) (Some reference)) ;; ret true
  end.

(** [TaskTable::prune_terminal_before] *)
Definition prunable (cutoff : Z) (task : Task) : bool :=
  terminal (task_state task) && (task_updated_at task <? cutoff).

Fixpoint prune_loop (ids : list string) (table : TaskTable) : list Task * TaskTable :=
  match ids with
  | [] => ([], table)
  | id :: ids' =>
      match tasks table !! id with
      | Some task =>
          let '(removed, table') :=
            prune_loop ids'
              (mkTaskTable (delete id (tasks table)) (delete (task_scope task) (idempotency table))) in
          (task :: removed, table')
      | None => prune_loop ids' table
      end
  end.

Definition prune_terminal_before (cutoff : Z) : M TaskTable panic (list Task) :=
  let* table := get in
  let ids := task_id <$> List.filter (prunable cutoff) (btree_values (tasks table)) in
  let '(removed, table') := prune_loop ids table in
  put table' ;;
  ret removed.

(** [TaskTable::recover_orphans] *)
Definition in_flight (s : TaskState) : bool :=
  match s with Queued | Running => true | _ => false end.

Definition restart_failure : TaskFailure :=
  mkTaskFailure "CONTROLLER_RESTARTED"
    "controller restarted before the task outcome was recorded" true VNull.

Definition recover_one (entry : string * Task) : M TaskTable panic Task :=
  let task := entry.2 in
  let* now := now_ms in
  let task :=
    mkTask (task_id task) (task_correlation_id task) (task_request_id task)
      (task_workspace_session_id task) (task_executor_id task) (task_capability task)
      (task_input task) (task_input_ref task) (task_output task) (task_output_ref task)
      (Some restart_failure) (task_idempotency_key task) OutcomeUnknown (task_attempt task)
      (u64_saturating_add (task_revision task) 1) (task_created_at task) now (task_events task) in
  let* task := push_event task "task.outcome-unknown" VNull in
  store_task entry.1 task ;;
  ret task.

Definition recover_orphans : M TaskTable panic (list Task) :=
  let* table := get in
  map_m recover_one
    (List.filter (fun entry => in_flight (task_state entry.2)) (btree_entries (tasks table))).

(** ** The life cycle of a task *)

Inductive task_step : TaskState -> TaskState -> Prop :=
| step_start : task_step Queued Running
| step_cancel_queued : task_step Queued Cancelled
| step_succeed : task_step Running Succeeded
| step_fail : task_step Running Failed
| step_cancel : task_step Running Cancelled
| step_time_out : task_step Running TimedOut
| step_lose : task_step Running OutcomeUnknown
| step_retry s : retryable_state s = true -> task_step s Queued
| step_orphan s : in_flight s = true -> task_step s OutcomeUnknown.

Lemma transition_allowed_step a b : transition_allowed a b = true -> task_step a b.
Proof. destruct a, b; cbn; (discriminate || constructor; done). Qed.

(** Everything that names a task and its idempotency scope. *)
Definition same_identity (x x' : Task) : Prop :=
  task_id x' = task_id x /\ task_workspace_session_id x' = task_workspace_session_id x /\
  task_executor_id x' = task_executor_id x /\ task_capability x' = task_capability x /\
  task_idempotency_key x' = task_idempotency_key x.

Lemma same_identity_scope x x' : same_identity x x' -> task_scope x' = task_scope x.
Proof. intros (_ & H1 & H2 & H3 & H4). unfold task_scope. congruence. Qed.

(** How one operation changes one task. *)
Inductive evolves (x x' : Task) : Prop :=
| evolves_step e :
    same_identity x x' -> task_step (task_state x) (task_state x') ->
    task_revision x' = u64_saturating_add (task_revision x) 1 ->
    task_events x' = task_events x ++ [e] ->
    event_sequence e = Z.of_nat (length (task_events x)) + 1 ->
    evolves x x'
| evolves_payload :
    same_identity x x' -> task_state x' = task_state x -> task_revision x' = task_revision x ->
    task_events x' = task_events x -> evolves x x'.

Lemma evolves_identity x x' : evolves x x' -> same_identity x x'.
Proof. by intros []. Qed.

(** The elementary effects on the table. *)
Inductive prim (t t' : TaskTable) : Prop :=
| prim_update id x x' :
    tasks t !! id = Some x -> evolves x x' ->
    t' = mkTaskTable (<[id := x']> (tasks t)) (idempotency t) -> prim t t'
| prim_remove id x :
    tasks t !! id = Some x -> terminal (task_state x) = true ->
    t' = mkTaskTable (delete id (tasks t)) (delete (task_scope x) (idempotency t)) -> prim t t'.

(** A submission adds one queued task under a scope that was free. *)
Inductive inserts (w : World) (t t' : TaskTable) : Prop :=
| inserts_new x e :
    task_id x = "task_" +:+ peek (w_uuid w) ->
    tasks t !! task_id x = None -> idempotency t !! task_scope x = None ->
    task_state x = Queued -> task_revision x = 1 -> task_events x = [e] -> event_sequence e = 1 ->
    t' = mkTaskTable (<[task_id x := x]> (tasks t)) (<[task_scope x := task_id x]> (idempotency t)) ->
    inserts w t t'.

(** The contract of every operation. *)
Definition task_effect (w : World) (t t' : TaskTable) : Prop := rtc prim t t' \/ inserts w t t'.

(** Events are numbered from one without gaps. *)
Definition events_numbered (x : Task) : Prop :=
  forall i e, task_events x !! i = Some e -> event_sequence e = Z.of_nat i + 1.

(** The invariant: tasks and idempotency index determine each other. *)
Record task_wf (t : TaskTable) : Prop := mk_task_wf {
  twf_key : forall id x, tasks t !! id = Some x -> task_id x = id;
  twf_index : forall k id, idempotency t !! k = Some id ->
    exists x, tasks t !! id = Some x /\ task_scope x = k;
  twf_indexed : forall id x, tasks t !! id = Some x -> idempotency t !! task_scope x = Some id;
  twf_events : forall id x, tasks t !! id = Some x -> events_numbered x;
  twf_revision : forall id x, tasks t !! id = Some x -> 1 <= task_revision x <= U64_MAX;
}.

Lemma task_wf_default : task_wf TaskTable_default.
Proof. constructor; intros ? ?; cbn; by rewrite lookup_empty. Qed.

Lemma events_numbered_snoc es e i e' :
  (forall j e, es !! j = Some e -> event_sequence e = Z.of_nat j + 1) ->
  event_sequence e = Z.of_nat (length es) + 1 ->
  (es ++ [e]) !! i = Some e' -> event_sequence e' = Z.of_nat i + 1.
Proof.
  intros Hes He [Hi|[Hi Hi2]]%lookup_app_Some; [by apply Hes|].
  apply list_lookup_singleton_Some in Hi2 as [? <-]. rewrite He. do 2 f_equal. lia.
Qed.

Lemma evolves_events x x' : evolves x x' -> events_numbered x -> events_numbered x'.
Proof.
  intros [e _ _ _ He Hs|_ _ _ He] Hx i e'; rewrite He; [by apply events_numbered_snoc|apply Hx].
Qed.

Lemma evolves_revision x x' :
  evolves x x' -> 1 <= task_revision x <= U64_MAX -> 1 <= task_revision x' <= U64_MAX.
Proof. intros [e _ _ Hr _ _|_ _ Hr _]; rewrite Hr; unfold u64_saturating_add, U64_MAX; lia. Qed.

Lemma task_wf_update t id x x' :
  task_wf t -> tasks t !! id = Some x -> evolves x x' ->
  task_wf (mkTaskTable (<[id := x']> (tasks t)) (idempotency t)).
Proof.
  intros [Hkey Hix Hixd Hev Hrev] Hx He.
  pose proof (evolves_identity _ _ He) as Hid. pose proof (same_identity_scope _ _ Hid) as Hsc.
  assert (Hcase : forall i y, <[id := x']> (tasks t) !! i = Some y ->
    (i = id /\ y = x') \/ tasks t !! i = Some y).
  { intros i y. rewrite lookup_insert. case_decide; [|auto]. intros [= <-]. auto. }
  constructor; cbn.
  - intros i y [[-> ->]|?]%Hcase; [|eauto]. destruct Hid as [-> _]. eauto.
  - intros k i (y & Hy & Hk)%Hix. rewrite lookup_insert. case_decide; [|eauto].
    subst. exists x'. split; [done|]. rewrite Hsc. congruence.
  - intros i y [[-> ->]|?]%Hcase; [|eauto]. rewrite Hsc. eauto.
  - intros i y [[-> ->]|?]%Hcase; eauto using evolves_events.
  - intros i y [[-> ->]|?]%Hcase; eauto using evolves_revision.
Qed.

Lemma task_wf_new t x e :
  task_wf t -> tasks t !! task_id x = None -> idempotency t !! task_scope x = None ->
  task_revision x = 1 -> task_events x = [e] -> event_sequence e = 1 ->
  task_wf (mkTaskTable (<[task_id x := x]> (tasks t)) (<[task_scope x := task_id x]> (idempotency t))).
Proof.
  intros [Hkey Hix Hixd Hev Hrev] Hfr Hfs Hr1 Hes He1.
  assert (Hcase : forall i y, <[task_id x := x]> (tasks t) !! i = Some y ->
    (i = task_id x /\ y = x) \/ (tasks t !! i = Some y /\ task_scope y ≠ task_scope x)).
  { intros i y. rewrite lookup_insert. case_decide; [intros [= <-]; auto|].
    intros Hy. right. split; [done|]. intros Hs. pose proof (Hixd _ _ Hy). congruence. }
  constructor; cbn.
  - intros i y [[-> ->]|[? _]]%Hcase; eauto.
  - intros k i. rewrite lookup_insert. case_decide as Hk.
    + intros [= <-]. exists x. by rewrite lookup_insert_eq.
    + intros (y & Hy & ?)%Hix. exists y. rewrite lookup_insert_ne; [done|congruence].
  - intros i y [[-> ->]|[? Hne]]%Hcase.
    + by rewrite lookup_insert_eq.
    + rewrite lookup_insert_ne by congruence. eauto.
  - intros i y [[-> ->]|[? _]]%Hcase; [|eauto].
    intros j e'. rewrite Hes. intros [-> <-]%list_lookup_singleton_Some. done.
  - intros i y [[-> ->]|[? _]]%Hcase; [|eauto]. rewrite Hr1. unfold U64_MAX. lia.
Qed.

Lemma task_wf_remove t id x :
  task_wf t -> tasks t !! id = Some x ->
  task_wf (mkTaskTable (delete id (tasks t)) (delete (task_scope x) (idempotency t))).
Proof.
  intros [Hkey Hix Hixd Hev Hrev] Hx.
  assert (Hcase : forall i y, delete id (tasks t) !! i = Some y ->
    i ≠ id /\ tasks t !! i = Some y) by (intros i y [? ?]%lookup_delete_Some; auto).
  constructor; cbn; [intros i y [? ?]%Hcase; eauto|..].
  - intros k i [Hk (y & Hy & Hs)%Hix]%lookup_delete_Some. exists y. split; [|done].
    rewrite lookup_delete_ne; [done|]. intros ->. congruence.
  - intros i y [Hi Hy]%Hcase. rewrite lookup_delete_ne; [eauto|].
    intros Hs. pose proof (Hixd _ _ Hx). pose proof (Hixd _ _ Hy). congruence.
  - intros i y [? ?]%Hcase; eauto.
  - intros i y [? ?]%Hcase; eauto.
Qed.

Lemma prim_wf t t' : prim t t' -> task_wf t -> task_wf t'.
Proof. intros [] ?; subst; eauto using task_wf_update, task_wf_remove. Qed.

Lemma prims_wf t t' : rtc prim t t' -> task_wf t -> task_wf t'.
Proof. induction 1; eauto using prim_wf. Qed.

Lemma task_effect_wf w t t' : task_effect w t t' -> task_wf t -> task_wf t'.
Proof. intros [?|[]] ?; subst; eauto using prims_wf, task_wf_new. Qed.

Lemma prims_known t t' id : rtc prim t t' -> is_Some (tasks t' !! id) -> is_Some (tasks t !! id).
Proof.
  induction 1 as [|t1 t2 t3 Hp _ IH]; [done|]. intros Hs. apply IH in Hs.
  destruct Hp as [i x x' Hx _ ->|i x Hx _ ->]; cbn in Hs.
  - rewrite lookup_insert in Hs. case_decide; [by subst; rewrite Hx|done].
  - rewrite lookup_delete in Hs. case_decide; [by apply is_Some_None in Hs|done].
Qed.

(** ** Every operation is a sequence of elementary effects *)

Ltac wle := constructor; cbn; auto with lia.

(** Identifiers that the UUID source has not produced yet are not in use. *)
Definition ids_unused (t : TaskTable) (w : World) : Prop :=
  forall k, (o_next (w_uuid w) <= k)%nat -> tasks t !! ("task_" +:+ o_at (w_uuid w) k) = None.

Lemma ids_unused_le t w w' :
  world_le w w' -> ids_unused t w -> ids_unused t w'.
Proof. intros [] H k Hk. rewrite wle_uuid. apply H. lia. Qed.

Lemma prims_ids_unused t t' w : rtc prim t t' -> ids_unused t w -> ids_unused t' w.
Proof.
  intros Hp H k Hk. apply eq_None_not_Some. intros His%(prims_known _ _ _ Hp).
  rewrite H in His by done. by apply is_Some_None in His.
Qed.

Lemma submit_effect ws ex cap input key corr req t w r t' w' :
  uuids_fresh w -> ids_unused t w ->
  submit_traced ws ex cap input key corr req t w = (r, t', w') ->
  task_effect w t t' /\ world_le w w' /\ ids_unused t' w'.
Proof.
  intros Hfr Hids. unfold submit_traced, push_event. munfold.
  destruct (idempotency t !! _) as [id|] eqn:Hix.
  { destruct (tasks t !! id); intros; simplify_eq; split_and!; try done; by left. }
  intros; simplify_eq. split_and!; [|wle|].
  - right.
    eapply (inserts_new _ _ _ (mkTask ("task_" +:+ peek (w_uuid w)) corr req ws ex cap input
      None None None None key Queued 0 1 (peek (w_wall w)) (peek (w_wall w))
      [mkTaskEvent 1 (peek (advance (w_wall w))) "task.queued" VNull])); cbn; try done.
    by apply Hids.
  - intros k Hk. cbn in *. rewrite lookup_insert_ne; [apply Hids; lia|].
    intros Heq. assert (o_at (w_uuid w) k = o_at (w_uuid w) (o_next (w_uuid w))) as E
      by (unfold peek in Heq; by simplify_eq).
    apply Hfr in E. lia.
Qed.

Lemma transition_prims id st out err t w r t' w' :
  transition id st out err t w = (r, t', w') -> rtc prim t t' /\ world_le w w'.
Proof.
  unfold transition, push_event, store_task. munfold.
  destruct (tasks t !! id) as [x|] eqn:Hx; [|intros; simplify_eq; by split].
  destruct (negb _) eqn:Ha; intros; simplify_eq; [by split|]. bool_prop.
  split; [|wle]. apply rtc_once. eapply prim_update; [done| |done].
  eapply evolves_step; cbn; try done; by apply transition_allowed_step.
Qed.

Lemma retry_Ok id t w x' t' w' :
  retry id t w = (Ok x', t', w') ->
  exists x, tasks t !! id = Some x /\ retryable_state (task_state x) = true /\ evolves x x' /\
    task_state x' = Queued /\ task_revision x' = u64_saturating_add (task_revision x) 1 /\
    t' = mkTaskTable (<[id := x']> (tasks t)) (idempotency t) /\ world_le w w'.
Proof.
  unfold retry, push_event, store_task. munfold.
  destruct (tasks t !! id) as [x|] eqn:Hx; [|intros; simplify_eq].
  destruct (negb _) eqn:Ha; intros; simplify_eq. bool_prop.
  exists x. split_and!; try done; [|wle].
  eapply evolves_step; cbn; try done. by constructor.
Qed.

Lemma retry_Err id t w e t' w' : retry id t w = (Err e, t', w') -> t' = t /\ w' = w.
Proof. unfold retry, push_event, store_task. intros H. mrun; done. Qed.

Lemma retry_prims id t w r t' w' : retry id t w = (r, t', w') -> rtc prim t t' /\ world_le w w'.
Proof.
  destruct r as [x'|e]; intros H.
  - apply retry_Ok in H as (x & Hx & _ & He & _ & _ & -> & Hw). split; [|done].
    by eapply rtc_once, prim_update.
  - by apply retry_Err in H as [-> ->].
Qed.

Lemma evolves_with_input x input r : evolves x (with_input x input r).
Proof. apply evolves_payload; by repeat split. Qed.
Lemma evolves_with_output x output r : evolves x (with_output x output r).
Proof. apply evolves_payload; by repeat split. Qed.

Lemma retry_with_input_prims id input t w r t' w' :
  retry_with_input id input t w = (r, t', w') -> rtc prim t t' /\ world_le w w'.
Proof.
  unfold retry_with_input, bind. destruct (retry id t w) as [[[x'|e] t1] w1] eqn:Hr.
  - pose proof (retry_prims _ _ _ _ _ _ Hr) as [Hp Hw].
    apply retry_Ok in Hr as (x & Hx & _ & _ & _ & _ & -> & _). unfold store_task. munfold. cbn.
    rewrite lookup_insert_eq. intros; simplify_eq. split; [|done].
    eapply rtc_r; [done|]. eapply prim_update; [apply lookup_insert_eq| |done].
    apply evolves_with_input.
  - apply retry_Err in Hr as [-> ->]. intros; simplify_eq. by split.
Qed.

Lemma replace_input_prims id rev m ref t w r t' w' :
  replace_input_ref_if_unchanged id rev m ref t w = (r, t', w') -> rtc prim t t' /\ w' = w.
Proof.
  unfold replace_input_ref_if_unchanged, store_task. munfold.
  destruct (tasks t !! id) as [x|] eqn:Hx; [|intros; by simplify_eq].
  destruct (_ || _)%bool; intros; simplify_eq; [done|]. split; [|done].
  eapply rtc_once, prim_update; [done| |done]. apply evolves_with_input.
Qed.

Lemma replace_output_prims id rev m ref t w r t' w' :
  replace_output_ref_if_unchanged id rev m ref t w = (r, t', w') -> rtc prim t t' /\ w' = w.
Proof.
  unfold replace_output_ref_if_unchanged, store_task. munfold.
  destruct (tasks t !! id) as [x|] eqn:Hx; [|intros; by simplify_eq].
  destruct (_ || _)%bool; intros; simplify_eq; [done|]. split; [|done].
  eapply rtc_once, prim_update; [done| |done]. apply evolves_with_output.
Qed.

Lemma prune_loop_prims ids t removed t' :
  (forall id x, id ∈ ids -> tasks t !! id = Some x -> terminal (task_state x) = true) ->
  prune_loop ids t = (removed, t') -> rtc prim t t'.
Proof.
  revert t removed. induction ids as [|id ids IH]; intros t removed Hterm H; cbn in H; [by simplify_eq|].
  destruct (tasks t !! id) as [x|] eqn:Hx.
  - destruct (prune_loop ids _) as [rs t1] eqn:Hl. simplify_eq. eapply rtc_l.
    + eapply prim_remove; [done| |done]. eapply Hterm; [left|done].
    + eapply IH; [|done]. cbn. intros i y Hi [_ Hy]%lookup_delete_Some.
      eapply Hterm; [by right|done].
  - eapply IH; [|done]. intros i y Hi. apply Hterm. by right.
Qed.

Lemma prune_prims cutoff t w r t' w' :
  task_wf t -> prune_terminal_before cutoff t w = (r, t', w') -> rtc prim t t' /\ w' = w.
Proof.
  intros Hwf. unfold prune_terminal_before. munfold.
  destruct (prune_loop _ t) as [rs t1] eqn:Hl. intros; simplify_eq. split; [|done].
  eapply prune_loop_prims; [|done]. intros id x Hin Hx.
  apply list_elem_of_fmap in Hin as (y & -> & [[i Hy]%elem_of_btree_values Hp]%elem_of_filter_values).
  rewrite (twf_key _ Hwf _ _ Hy) in Hx. rewrite Hy in Hx. simplify_eq.
  by apply andb_prop in Hp as [? _].
Qed.

Lemma recover_one_spec entry t w :
  in_flight (task_state entry.2) = true -> tasks t !! entry.1 = Some entry.2 ->
  exists x' w',
    recover_one entry t w
    = (Ok x', mkTaskTable (<[entry.1 := x']> (tasks t)) (idempotency t), w')
    /\ evolves entry.2 x' /\ task_state x' = OutcomeUnknown /\ task_error x' = Some restart_failure
    /\ world_le w w' /\ w_uuid w' = w_uuid w.
Proof.
  intros Hf Hx. unfold recover_one, push_event, store_task. munfold. cbn.
  eexists _, _. split; [done|]. split_and!; try done; [|wle].
  eapply evolves_step; cbn; try done. by constructor.
Qed.

Lemma recover_loop_spec entries t w :
  NoDup entries.*1 ->
  (forall i x, (i, x) ∈ entries -> tasks t !! i = Some x /\ in_flight (task_state x) = true) ->
  exists xs t' w',
    map_m recover_one entries t w = (Ok xs, t', w') /\
    rtc prim t t' /\ world_le w w' /\ idempotency t' = idempotency t /\
    (forall i, i ∉ entries.*1 -> tasks t' !! i = tasks t !! i) /\
    (forall i x, (i, x) ∈ entries -> exists x', tasks t' !! i = Some x' /\ x' ∈ xs /\
       evolves x x' /\ task_state x' = OutcomeUnknown /\ task_error x' = Some restart_failure) /\
    length xs = length entries.
Proof.
  revert t w. induction entries as [|[i x] es IH]; intros t w Hnd Hes.
  - exists [], t, w. split_and!; try done. intros i x Hin. by apply not_elem_of_nil in Hin.
  - apply NoDup_cons in Hnd as [Hi Hnd]. destruct (Hes i x ltac:(left)) as [Hx Hf].
    destruct (recover_one_spec (i, x) t w Hf Hx) as (x' & w1 & Hr & He & Hs & Herr & Hw & _).
    cbn [fst snd] in *. set (t1 := mkTaskTable (<[i := x']> (tasks t)) (idempotency t)) in *.
    destruct (IH t1 w1 Hnd) as (xs & t2 & w2 & Hm & Hp & Hw2 & Hidx & Hother & Hthese & Hlen).
    { intros j y Hj. destruct (Hes j y ltac:(by right)) as [Hy Hfy]. split; [|done]. cbn.
      rewrite lookup_insert_ne; [done|]. intros ->. apply Hi.
      by apply (list_elem_of_fmap_2 fst _ (j, y)). }
    exists (x' :: xs), t2, w2. cbn [map_m]. unfold bind at 1. rewrite Hr. unfold bind at 1.
    rewrite Hm. split_and!; try done; [|by etrans|..].
    + eapply rtc_l; [|done]. by eapply prim_update.
    + intros j [Hji Hjn]%not_elem_of_cons. rewrite Hother by done. cbn.
      by rewrite lookup_insert_ne by done.
    + intros j y [[= -> ->]|Hj]%elem_of_cons.
      * exists x'. rewrite Hother by done. cbn. rewrite lookup_insert_eq.
        split_and!; try done. left.
      * destruct (Hthese _ _ Hj) as (y' & ? & ? & ? & ? & ?). exists y'. split_and!; try done.
        by right.
    + cbn. by rewrite Hlen.
Qed.

Lemma filter_entries_NoDup (p : string * Task -> bool) l :
  NoDup l.*1 -> NoDup (List.filter p l).*1.
Proof.
  induction l as [|[i x] l IH]; intros Hnd; [done|]. apply NoDup_cons in Hnd as [Hi Hnd].
  cbn. destruct (p (i, x)); [|auto]. apply NoDup_cons. split; [|auto].
  intros Hin. apply Hi. apply list_elem_of_fmap in Hin as ([j y] & Heq & Hj).
  apply elem_of_filter_values in Hj as [Hj _]. cbn in Heq. subst j.
  by apply (list_elem_of_fmap_2 fst _ (i, y)).
Qed.

Lemma recover_orphans_spec t w :
  exists xs t' w',
    recover_orphans t w = (Ok xs, t', w') /\
    rtc prim t t' /\ world_le w w' /\ idempotency t' = idempotency t /\
    (forall i x, tasks t !! i = Some x -> in_flight (task_state x) = false ->
       tasks t' !! i = Some x) /\
    (forall i x, tasks t !! i = Some x -> in_flight (task_state x) = true ->
       exists x', tasks t' !! i = Some x' /\ x' ∈ xs /\ evolves x x' /\
         task_state x' = OutcomeUnknown /\ task_error x' = Some restart_failure) /\
    (forall i, tasks t !! i = None -> tasks t' !! i = None) /\
    length xs = length (List.filter (fun x => in_flight (task_state x)) (snapshot t)).
Proof.
  set (es := List.filter (fun entry => in_flight (task_state entry.2)) (btree_entries (tasks t))).
  assert (Hin : forall i x, (i, x) ∈ es <-> tasks t !! i = Some x /\ in_flight (task_state x) = true)
    by (intros i x; unfold es; by rewrite elem_of_filter_values, elem_of_btree_entries).
  assert (Hout : forall i, i ∈ es.*1 -> exists x, tasks t !! i = Some x /\ in_flight (task_state x) = true).
  { intros i ([j y] & -> & Hj)%list_elem_of_fmap. apply Hin in Hj. eauto. }
  destruct (recover_loop_spec es t w) as (xs & t' & w' & Hm & Hp & Hw & Hidx & Hother & Hthese & Hlen).
  - apply filter_entries_NoDup, btree_entries_NoDup.
  - intros i x. apply Hin.
  - exists xs, t', w'. split_and!; try done.
    + intros i x Hx Hf. rewrite Hother; [done|]. intros (y & Hy & ?)%Hout. congruence.
    + intros i x Hx Hf. apply Hthese, Hin. done.
    + intros i Hx. rewrite Hother; [done|]. intros (y & Hy & ?)%Hout. congruence.
    + rewrite Hlen. unfold es, snapshot, btree_values. clear.
      induction (btree_entries (tasks t)) as [|[i x] l IH]; [done|]. cbn.
      destruct (in_flight (task_state x)); cbn; by rewrite IH.
Qed.

(** ** Runs *)

Inductive task_op :=
| TSubmit (ws ex cap : string) (input : Value) (key : string) (corr req : option string)
| TTransition (id : string) (state : TaskState) (output : option Value) (error : option TaskFailure)
| TRetry (id : string)
| TRetryWithInput (id : string) (input : Value)
| TReplaceInput (id : string) (revision : Z) (marker : Value) (reference : TaskPayloadRef)
| TReplaceOutput (id : string) (revision : Z) (marker : Value) (reference : TaskPayloadRef)
| TPrune (cutoff : Z)
| TRecover
| TRestart.

Definition outcome {E A} (x : result E A * TaskTable * World) : TaskTable * World :=
  let '(_, t, w) := x in (t, w).

Definition run_task_op (o : task_op) (t : TaskTable) (w : World) : TaskTable * World :=
  match o with
  | TSubmit ws ex cap input key corr req => outcome (submit_traced ws ex cap input key corr req t w)
  | TTransition id state output error => outcome (transition id state output error t w)
  | TRetry id => outcome (retry id t w)
  | TRetryWithInput id input => outcome (retry_with_input id input t w)
  | TReplaceInput id rev m ref => outcome (replace_input_ref_if_unchanged id rev m ref t w)
  | TReplaceOutput id rev m ref => outcome (replace_output_ref_if_unchanged id rev m ref t w)
  | TPrune cutoff => outcome (prune_terminal_before cutoff t w)
  | TRecover => outcome (recover_orphans t w)
  | TRestart => (from_tasks (snapshot t), w)
  end.

Fixpoint run_task_ops (os : list task_op) (t : TaskTable) (w : World) : TaskTable * World :=
  match os with
  | [] => (t, w)
  | o :: os' => let '(t1, w1) := run_task_op o t w in run_task_ops os' t1 w1
  end.

Lemma from_tasks_fold ts table :
  fold_left from_tasks_step ts table
  = mkTaskTable (fold_left (fun acc x => <[task_id x := x]> acc) ts (tasks table))
      (fold_left (fun acc x => <[task_scope x := task_id x]> acc) ts (idempotency table)).
Proof. revert table. induction ts as [|x ts IH]; intros table; [by destruct table|]. apply IH. Qed.

Lemma scopes_NoDup t : task_wf t -> NoDup (task_scope <$> snapshot t).
Proof.
  intros Hwf. apply NoDup_fmap_2_strong.
  - intros x y [i Hx]%elem_of_btree_values [j Hy]%elem_of_btree_values Heq.
    pose proof (twf_indexed _ Hwf _ _ Hx). pose proof (twf_indexed _ Hwf _ _ Hy). congruence.
  - apply (NoDup_fmap_1 task_id). unfold snapshot. rewrite btree_values_keys by apply Hwf.
    apply btree_entries_NoDup.
Qed.

(** Reloading the persisted tasks rebuilds the tasks and the idempotency index. *)
Lemma from_tasks_snapshot t : task_wf t -> from_tasks (snapshot t) = t.
Proof.
  intros Hwf. unfold from_tasks. rewrite from_tasks_fold. cbn.
  rewrite (fold_insert_keyed task_scope task_id) by (by apply scopes_NoDup).
  unfold snapshot. rewrite fold_insert_values by apply Hwf.
  rewrite (right_id_L ∅ (∪)). destruct t as [ts ix]. cbn in *. f_equal.
  apply map_eq. intros k. apply option_eq. intros id.
  rewrite <- elem_of_list_to_map.
  - rewrite list_elem_of_fmap. split.
    + intros (x & [= -> ->] & [i Hx]%elem_of_btree_values).
      rewrite (twf_key _ Hwf _ _ Hx). apply (twf_indexed _ Hwf _ _ Hx).
    + intros (x & Hx & Hs)%(twf_index _ Hwf). exists x. cbn in Hx. split.
      * by rewrite Hs, (twf_key _ Hwf _ _ Hx).
      * apply elem_of_btree_values. eauto.
  - rewrite <- list_fmap_compose. apply (scopes_NoDup _ Hwf).
Qed.

Lemma run_task_op_effect o t w t' w' :
  task_wf t -> uuids_fresh w -> ids_unused t w ->
  run_task_op o t w = (t', w') -> task_effect w t t' /\ world_le w w' /\ ids_unused t' w'.
Proof.
  intros Hwf Hfr Hids H.
  assert (Hkeep : rtc prim t t' -> world_le w w' ->
    task_effect w t t' /\ world_le w w' /\ ids_unused t' w').
  { intros Hp Hw. split_and!; [by left|done|].
    eapply prims_ids_unused; [done|]. by eapply ids_unused_le. }
  destruct o; cbn [run_task_op] in H; unfold outcome in H;
    try match type of H with
    | (let '(_, _) := ?x in _) = _ => destruct x as [[res t1] w1] eqn:E; simplify_eq
    end.
  - by eapply submit_effect.
  - apply transition_prims in E as [? ?]. auto.
  - apply retry_prims in E as [? ?]. auto.
  - apply retry_with_input_prims in E as [? ?]. auto.
  - apply replace_input_prims in E as [? ->]. by apply Hkeep.
  - apply replace_output_prims in E as [? ->]. by apply Hkeep.
  - apply prune_prims in E as [? ->]; [by apply Hkeep|done].
  - destruct (recover_orphans_spec t w) as (xs & t2 & w2 & E' & ? & ? & _).
    rewrite E' in E. simplify_eq. auto.
  - simplify_eq. apply Hkeep; [|done]. by rewrite from_tasks_snapshot.
Qed.

Record task_inv (t : TaskTable) (w : World) : Prop := mk_task_inv {
  ti_wf : task_wf t; ti_fresh : uuids_fresh w; ti_unused : ids_unused t w }.

Lemma task_inv_default w : uuids_fresh w -> task_inv TaskTable_default w.
Proof.
  intros Hfr. constructor; [apply task_wf_default|done|]. intros k _. cbn. by rewrite lookup_empty.
Qed.

Lemma run_task_op_inv o t w t' w' :
  task_inv t w -> run_task_op o t w = (t', w') -> task_inv t' w'.
Proof.
  intros [Hwf Hfr Hu] H. destruct (run_task_op_effect _ _ _ _ _ Hwf Hfr Hu H) as (He & Hw & Hu').
  constructor; eauto using task_effect_wf with fabric.
Qed.

Lemma run_task_ops_inv os t w t' w' :
  task_inv t w -> run_task_ops os t w = (t', w') -> task_inv t' w'.
Proof.
  revert t w. induction os as [|o os IH]; intros t w Hi H; cbn in H; [by simplify_eq|].
  destruct (run_task_op o t w) as [t1 w1] eqn:E. eauto using run_task_op_inv.
Qed.

(** ** One task along a run *)

Record progress (x x' : Task) : Prop := mk_progress {
  pr_identity : same_identity x x';
  pr_states : rtc task_step (task_state x) (task_state x');
  pr_history : exists es, task_events x' = task_events x ++ es /\
    task_revision x' = Z.min U64_MAX (task_revision x + Z.of_nat (length es));
}.

Lemma progress_refl x : task_revision x <= U64_MAX -> progress x x.
Proof.
  intros H. constructor; [by repeat split|done|]. exists []. rewrite app_nil_r. cbn. split; [done|lia].
Qed.

Lemma progress_step x y z : progress x y -> evolves y z -> progress x z.
Proof.
  intros [(A1 & A2 & A3 & A4 & A5) Hst (es & He & Hr)] Hev.
  destruct Hev as [e (B1 & B2 & B3 & B4 & B5) Hs Hr' He' _|(B1 & B2 & B3 & B4 & B5) Hs Hr' He'].
  - constructor; [repeat split; congruence|by eapply rtc_r|].
    exists (es ++ [e]). rewrite He', He, app_assoc. split; [done|].
    rewrite Hr', Hr, length_app. unfold u64_saturating_add. cbn. lia.
  - constructor; [repeat split; congruence|by rewrite Hs|].
    exists es. rewrite He', Hr'. done.
Qed.

(** The identifier of a task that is in the table is never drawn again. *)
Definition spent (w : World) (id : string) : Prop :=
  forall k, (o_next (w_uuid w) <= k)%nat -> id ≠ "task_" +:+ o_at (w_uuid w) k.

Lemma spent_le w w' id : world_le w w' -> spent w id -> spent w' id.
Proof. intros [] H k Hk. rewrite wle_uuid. apply H. lia. Qed.

Lemma prims_track t t' id x0 :
  rtc prim t t' ->
  (forall x, tasks t !! id = Some x -> progress x0 x) ->
  forall x', tasks t' !! id = Some x' -> progress x0 x'.
Proof.
  induction 1 as [|t1 t2 t3 Hp _ IH]; [done|]. intros H. apply IH.
  destruct Hp as [i x x' Hx He ->|i x Hx _ ->]; cbn; intros y.
  - rewrite lookup_insert. case_decide; [|apply H]. intros [= <-]. subst.
    eauto using progress_step.
  - intros [_ ?]%lookup_delete_Some. by apply H.
Qed.

Lemma run_track os t w t' w' id x0 :
  task_inv t w -> spent w id ->
  (forall x, tasks t !! id = Some x -> progress x0 x) ->
  run_task_ops os t w = (t', w') ->
  forall x', tasks t' !! id = Some x' -> progress x0 x'.
Proof.
  revert t w. induction os as [|o os IH]; intros t w Hi Hsp Hx H; cbn in H; [by simplify_eq|].
  destruct (run_task_op o t w) as [t1 w1] eqn:E.
  pose proof (run_task_op_inv _ _ _ _ _ Hi E) as Hi1. destruct Hi as [Hwf Hfr Hu].
  destruct (run_task_op_effect _ _ _ _ _ Hwf Hfr Hu E) as (He & Hw & _).
  eapply IH; [done|by eapply spent_le| |done].
  destruct He as [Hp|[y e Hid _ _ _ _ _ _ ->]]; [by eapply prims_track|].
  intros x. cbn. rewrite lookup_insert_ne; [apply Hx|].
  intros Heq. apply (Hsp (o_next (w_uuid w)) (le_n _)). unfold peek in Hid. congruence.
Qed.

Lemma in_table_spent t w id x : task_inv t w -> tasks t !! id = Some x -> spent w id.
Proof. intros [_ _ Hu] Hx k Hk ->. rewrite (Hu k Hk) in Hx. done. Qed.

Lemma run_progress os t w t' w' id x x' :
  task_inv t w -> run_task_ops os t w = (t', w') ->
  tasks t !! id = Some x -> tasks t' !! id = Some x' -> progress x x'.
Proof.
  intros Hi Hrun Hx. eapply run_track; eauto using in_table_spent.
  intros y Hy. simplify_eq. apply progress_refl, (twf_revision _ (ti_wf _ _ Hi) _ _ Hx).
Qed.

(** ** Paging, pruning and the idempotency index *)

Lemma page_loop_spec cursor limit p ts total page :
  length page = Nat.min limit (total - cursor) ->
  page_loop cursor limit p ts total page
  = (total + length (List.filter p ts),
     page ++ take (limit - length page) (drop (cursor - total) (List.filter p ts)))%nat.
Proof.
  revert total page.
  induction ts as [|x ts IH]; intros total page Hlen; cbn [page_loop List.filter].
  - cbn. by rewrite drop_nil, take_nil, app_nil_r, Nat.add_0_r.
  - destruct (p x) eqn:Hp; [|by apply IH]. cbn [List.length].
    destruct (Nat.leb cursor total && Nat.ltb (length page) limit)%bool eqn:Hc.
    + apply andb_prop in Hc as [Hc1%Nat.leb_le Hc2%Nat.ltb_lt].
      assert (Hl : length (page ++ [x]) = S (length page)) by (rewrite List.length_app; cbn; lia).
      rewrite IH by (rewrite Hl; lia). rewrite Hl.
      replace (cursor - total)%nat with O by lia. replace (cursor - S total)%nat with O by lia.
      rewrite !drop_0, <- app_assoc. f_equal; [lia|]. f_equal.
      by replace (limit - length page)%nat with (S (limit - S (length page))) by lia.
    + rewrite IH.
      * f_equal; [lia|]. f_equal. apply andb_false_iff in Hc as [Hc|Hc].
        -- apply Nat.leb_gt in Hc.
           by replace (cursor - total)%nat with (S (cursor - S total)) by lia.
        -- apply Nat.ltb_ge in Hc. by replace (limit - length page)%nat with O by lia.
      * apply andb_false_iff in Hc as [Hc%Nat.leb_gt|Hc%Nat.ltb_ge]; lia.
Qed.

Lemma prune_loop_spec xs t :
  NoDup (task_id <$> xs) -> (forall x, x ∈ xs -> tasks t !! task_id x = Some x) ->
  exists t', prune_loop (task_id <$> xs) t = (xs, t') /\
    forall id, tasks t' !! id = if decide (id ∈ task_id <$> xs) then None else tasks t !! id.
Proof.
  revert t. induction xs as [|x xs IH]; intros t Hnd Hxs; cbn.
  - exists t. split; [done|]. intros id. rewrite decide_False; [done|apply not_elem_of_nil].
  - apply NoDup_cons in Hnd as [Hx Hnd]. rewrite (Hxs x) by left.
    destruct (IH (mkTaskTable (delete (task_id x) (tasks t))
                    (delete (task_scope x) (idempotency t))) Hnd) as (t' & Hl & Hlook).
    + intros y Hy. cbn. rewrite lookup_delete_ne; [apply Hxs; by right|].
      intros Heq. apply Hx. rewrite Heq. by apply list_elem_of_fmap_2.
    + exists t'. rewrite Hl. split; [done|]. intros id. rewrite Hlook. cbn.
      destruct (decide (task_id x = id)) as [<-|Hne].
      * rewrite (decide_False (P := task_id x ∈ _)) by done.
        by rewrite lookup_delete_eq, decide_True by left.
      * rewrite lookup_delete_ne by done. destruct (decide (id ∈ task_id <$> xs)).
        -- by rewrite decide_True by (by right).
        -- rewrite decide_False; [done|]. intros [?|?]%elem_of_cons; congruence.
Qed.

Definition retained (cutoff : Z) (o : option Task) : option Task :=
  match o with
  | Some x => if prunable cutoff x then None else Some x
  | None => None
  end.

Lemma filter_ids_NoDup t (p : Task -> bool) :
  task_wf t -> NoDup (task_id <$> List.filter p (snapshot t)).
Proof.
  intros Hwf. assert (Hall : NoDup (task_id <$> snapshot t)).
  { unfold snapshot. rewrite btree_values_keys by apply Hwf. apply btree_entries_NoDup. }
  induction (snapshot t) as [|x l IH]; [done|]. apply NoDup_cons in Hall as [Hx Hall]. cbn.
  destruct (p x); [|auto]. apply NoDup_cons. split; [|auto].
  intros Hin. apply list_elem_of_fmap in Hin as (y & Heq & [Hy _]%elem_of_filter_values).
  apply Hx. rewrite Heq. by apply list_elem_of_fmap_2.
Qed.

Lemma prune_spec cutoff t w :
  task_wf t ->
  exists t', prune_terminal_before cutoff t w
    = (Ok (List.filter (prunable cutoff) (snapshot t)), t', w) /\
    task_wf t' /\ forall id, tasks t' !! id = retained cutoff (tasks t !! id).
Proof.
  intros Hwf. destruct (prune_loop_spec (List.filter (prunable cutoff) (snapshot t)) t)
    as (t' & Hl & Hlook).
  - by apply filter_ids_NoDup.
  - intros x [[i Hx]%elem_of_btree_values _]%elem_of_filter_values.
    by rewrite (twf_key _ Hwf _ _ Hx).
  - assert (Hp : prune_terminal_before cutoff t w
      = (Ok (List.filter (prunable cutoff) (snapshot t)), t', w)).
    { unfold prune_terminal_before. munfold. unfold snapshot in Hl. by rewrite Hl. }
    exists t'. split; [done|]. split; [eapply prims_wf; [by eapply prune_prims|done]|].
    intros id. rewrite Hlook. unfold retained. case_decide as Hin.
    + apply list_elem_of_fmap in Hin as (x & -> & [[i Hx]%elem_of_btree_values Hpr]%elem_of_filter_values).
      by rewrite (twf_key _ Hwf _ _ Hx), Hx, Hpr.
    + destruct (tasks t !! id) as [x|] eqn:Hx; [|done].
      destruct (prunable cutoff x) eqn:Hpr; [|done]. exfalso. apply Hin.
      rewrite <- (twf_key _ Hwf _ _ Hx). apply list_elem_of_fmap_2, elem_of_filter_values.
      split; [|done]. apply elem_of_btree_values. eauto.
Qed.

Lemma index_entry_kept o t w t' w' k id :
  task_wf t -> (forall c, o ≠ TPrune c) -> run_task_op o t w = (t', w') ->
  idempotency t !! k = Some id -> idempotency t' !! k = Some id.
Proof.
  intros Hwf Hno H Hk. destruct o; cbn [run_task_op] in H; unfold outcome in H.
  - unfold submit_traced, push_event in H. mrun; cbn; [done..|].
    rewrite lookup_insert_ne; [done|]. congruence.
  - unfold transition, push_event, store_task in H. mrun; done.
  - unfold retry, push_event, store_task in H. mrun; done.
  - unfold retry_with_input, retry, push_event, store_task in H. mrun; done.
  - unfold replace_input_ref_if_unchanged, store_task in H. mrun; done.
  - unfold replace_output_ref_if_unchanged, store_task in H. mrun; done.
  - by destruct (Hno cutoff).
  - destruct (recover_orphans_spec t w) as (xs & t2 & w2 & E & _ & _ & Hix & _).
    rewrite E in H. simplify_eq. by rewrite Hix.
  - simplify_eq. by rewrite from_tasks_snapshot.
Qed.

Lemma index_entry_kept_run os t w t' w' k id :
  task_inv t w -> Forall (fun o => forall c, o ≠ TPrune c) os ->
  run_task_ops os t w = (t', w') ->
  idempotency t !! k = Some id -> idempotency t' !! k = Some id.
Proof.
  revert t w. induction os as [|o os IH]; intros t w Hi Hno H Hk; cbn in H; [by simplify_eq|].
  inversion Hno; subst. destruct (run_task_op o t w) as [t1 w1] eqn:E.
  apply (IH t1 w1); [by eapply run_task_op_inv|done..|].
  eapply index_entry_kept; eauto. apply Hi.
Qed.

Lemma submit_indexes ws ex cap input key corr req t w x b t' w' :
  task_inv t w ->
  submit_traced ws ex cap input key corr req t w = (Ok (x, b), t', w') ->
  idempotency t' !! scoped_idempotency_key ws ex cap key = Some (task_id x).
Proof.
  intros [Hwf _ _]. unfold submit_traced, push_event. munfold.
  destruct (idempotency t !! _) as [id|] eqn:Hix.
  - destruct (twf_index _ Hwf _ _ Hix) as (y & Hy & _). rewrite Hy. intros; simplify_eq.
    by rewrite (twf_key _ Hwf _ _ Hy).
  - intros; simplify_eq. cbn. by rewrite lookup_insert_eq.
Qed.

Lemma submit_known ws ex cap input key corr req t w id :
  task_inv t w -> idempotency t !! scoped_idempotency_key ws ex cap key = Some id ->
  exists x, submit_traced ws ex cap input key corr req t w = (Ok (x, true), t, w) /\ task_id x = id.
Proof.
  intros [Hwf _ _] Hix. unfold submit_traced. munfold. rewrite Hix.
  destruct (twf_index _ Hwf _ _ Hix) as (y & Hy & _). rewrite Hy.
  exists y. split; [done|]. apply (twf_key _ Hwf _ _ Hy).
Qed.

(** ** Scope keys *)

(** No NUL byte. *)
Definition nul_free (s : string) : bool := bytes_all (fun c => negb (Ascii.eqb c "000"%char)) s.

Lemma nul_split a b s s' :
  nul_free a = true -> nul_free b = true ->
  a +:+ NUL +:+ s = b +:+ NUL +:+ s' -> a = b /\ s = s'.
Proof.
  revert b. induction a as [|c a IH]; intros [|d b] Ha Hb H; cbn in *.
  - by simplify_eq.
  - injection H as <- _. discriminate.
  - injection H as -> _. discriminate.
  - injection H as -> H. apply andb_prop in Ha as [_ Ha], Hb as [_ Hb].
    by destruct (IH b Ha Hb H) as [-> ->].
Qed.

(** ** The properties of the table *)

(** Reachable tables. In every table reached from the empty one, tasks and idempotency index
    determine each other, the events of each task are numbered from one without gaps, and
    [submit_traced] never panics on a dangling index entry. *)
Theorem reachable_tables_sound os w t w' :
  uuids_fresh w -> run_task_ops os TaskTable_default w = (t, w') ->
  task_wf t /\
  forall ws ex cap input key corr req, exists x b t1 w1,
    submit_traced ws ex cap input key corr req t w' = (Ok (x, b), t1, w1).
Proof.
  intros Hfr H. pose proof (run_task_ops_inv _ _ _ _ _ (task_inv_default w Hfr) H) as Hi.
  split; [apply Hi|]. intros.
  destruct (idempotency t !! scoped_idempotency_key ws ex cap key) as [id|] eqn:Hix.
  - destruct (submit_known ws ex cap input key corr req t w' id Hi Hix) as (x & Hx & _). eauto.
  - unfold submit_traced, push_event. munfold. rewrite Hix. eauto.
Qed.

(** Idempotent submission. After a submission, and after any further operations that do not
    prune (transitions, retries, recovery, restarts, other submissions), submitting again under the
    same session, executor, capability and key answers the same task as a duplicate and changes
    nothing, whatever the second input is. *)
Theorem submission_idempotent ws ex cap input key corr req t w x b t1 w1 os t2 w2 input' corr' req' :
  task_inv t w ->
  submit_traced ws ex cap input key corr req t w = (Ok (x, b), t1, w1) ->
  Forall (fun o => forall c, o ≠ TPrune c) os ->
  run_task_ops os t1 w1 = (t2, w2) ->
  exists y, submit_traced ws ex cap input' key corr' req' t2 w2 = (Ok (y, true), t2, w2)
    /\ task_id y = task_id x.
Proof.
  intros Hi Hs Hno Hrun.
  assert (Hi1 : task_inv t1 w1).
  { apply (run_task_op_inv (TSubmit ws ex cap input key corr req) t w); [done|].
    cbn [run_task_op]. by rewrite Hs. }
  apply submit_known; [by eapply run_task_ops_inv|].
  eapply index_entry_kept_run; eauto using submit_indexes.
Qed.

(** C5: Life cycle. Along any run, a task that stays in the table keeps its identity, moves only
    along [task_step], never leaves [Succeeded] or [Cancelled], keeps its event history as a prefix
    and counts one revision per event. *)
Theorem task_life_cycle os t w t' w' id x x' :
  task_inv t w -> run_task_ops os t w = (t', w') ->
  tasks t !! id = Some x -> tasks t' !! id = Some x' ->
  progress x x' /\
  (task_state x = Succeeded \/ task_state x = Cancelled -> task_state x' = task_state x).
Proof.
  intros Hi Hrun Hx Hx'. pose proof (run_progress _ _ _ _ _ _ _ _ Hi Hrun Hx Hx') as Hp.
  split; [done|]. intros Hfin. destruct Hp as [_ Hsteps _].
  destruct Hsteps as [|s s' s'' Hstep _]; [done|].
  destruct Hfin as [ -> | -> ]; inversion Hstep; discriminate.
Qed.

(** [transition] on every branch: an unknown identifier and a disallowed edge are refused
    without touching the table; an allowed edge updates exactly that task, increments the attempt
    counter only when it starts to run, and replaces output and error. *)
Theorem transition_behaviour id st out err t w :
  match transition id st out err t w, tasks t !! id with
  | (Err e, t', _), Some x =>
      e = TaskInvalidTransition (task_state x) st /\ transition_allowed (task_state x) st = false /\ t' = t
  | (Err e, t', _), None => e = TaskNotFound /\ t' = t
  | (Ok _, _, _), None => False
  | (Ok x', t', _), Some x =>
      transition_allowed (task_state x) st = true /\
      t' = mkTaskTable (<[id := x']> (tasks t)) (idempotency t) /\
      same_identity x x' /\ task_state x' = st /\ task_output x' = out /\ task_output_ref x' = None /\
      task_error x' = err /\ task_input x' = task_input x /\
      task_attempt x' = (if decide (st = Running) then u32_add (task_attempt x) 1 else task_attempt x) /\
      task_revision x' = u64_saturating_add (task_revision x) 1
  end.
Proof.
  unfold transition, push_event, store_task. munfold.
  destruct (tasks t !! id) as [x|] eqn:Hx; cbn; [|done].
  destruct (transition_allowed (task_state x) st) eqn:Ha; cbn; [|done].
  split_and!; try done. by destruct st.
Qed.

(** Stale payloads. A payload reference computed for a revision of a task is refused, with no
    effect, once the task has moved since (unless its revision is saturated). *)
Theorem stale_payload_refused os t w t' w' id x x' marker ref :
  task_inv t w -> run_task_ops os t w = (t', w') ->
  tasks t !! id = Some x -> tasks t' !! id = Some x' ->
  task_revision x < U64_MAX -> task_events x' ≠ task_events x ->
  replace_input_ref_if_unchanged id (task_revision x) marker ref t' w' = (Ok false, t', w') /\
  replace_output_ref_if_unchanged id (task_revision x) marker ref t' w' = (Ok false, t', w').
Proof.
  intros Hi Hrun Hx Hx' Hmax Hev.
  destruct (run_progress _ _ _ _ _ _ _ _ Hi Hrun Hx Hx') as [_ _ (es & He & Hr)].
  assert (task_revision x' ≠ task_revision x).
  { destruct es; [rewrite app_nil_r in He; congruence|]. cbn in Hr. lia. }
  unfold replace_input_ref_if_unchanged, replace_output_ref_if_unchanged. munfold.
  rewrite Hx'. rewrite (proj2 (Z.eqb_neq _ _)) by done. done.
Qed.

(** Recovery after a restart. Every queued or running task becomes [OutcomeUnknown] with the
    retryable restart error and is reported exactly once; every other task and the index stay. *)
Theorem recover_orphans_exact t w :
  exists xs t' w',
    recover_orphans t w = (Ok xs, t', w') /\ idempotency t' = idempotency t /\
    length xs = length (List.filter (fun x => in_flight (task_state x)) (snapshot t)) /\
    forall i, match tasks t !! i with
      | None => tasks t' !! i = None
      | Some x =>
          if in_flight (task_state x) then
            exists x', tasks t' !! i = Some x' /\ x' ∈ xs /\ same_identity x x' /\
              task_state x' = OutcomeUnknown /\ task_error x' = Some restart_failure
          else tasks t' !! i = Some x
      end.
Proof.
  destruct (recover_orphans_spec t w) as (xs & t' & w' & E & _ & _ & Hix & Hsame & Hrec & Hnone & Hlen).
  exists xs, t', w'. split_and!; try done. intros i.
  destruct (tasks t !! i) as [x|] eqn:Hx; [|by apply Hnone].
  destruct (in_flight (task_state x)) eqn:Hf; [|by apply Hsame].
  destruct (Hrec i x Hx Hf) as (x' & ? & ? & He & ? & ?). exists x'. split_and!; eauto using evolves_identity.
Qed.

(** Pruning removes exactly the terminal tasks last updated before the cut-off, reports them in
    key order, and frees their idempotency scopes (the result is well-formed again). *)
Theorem prune_terminal_before_exact cutoff t w :
  task_wf t ->
  exists t', prune_terminal_before cutoff t w
    = (Ok (List.filter (prunable cutoff) (snapshot t)), t', w) /\
    task_wf t' /\ forall id, tasks t' !! id = retained cutoff (tasks t !! id).
Proof. apply prune_spec. Qed.

(** [page_by], a single pass, is the slice [cursor .. cursor+limit] of the matching tasks, with
    the number of all matches. *)
Theorem page_by_is_slice t cursor limit p :
  page_by t cursor limit p
  = (length (List.filter p (snapshot t)), take limit (drop cursor (List.filter p (snapshot t)))).
Proof.
  unfold page_by. rewrite page_loop_spec by (cbn; lia). cbn [List.length app].
  by rewrite !Nat.sub_0_r.
Qed.

(** Scope keys identify their components as long as the session, executor and capability names
    contain no NUL byte (the key itself may). *)
Theorem scoped_key_injective ws ex cap key ws' ex' cap' key' :
  nul_free ws = true -> nul_free ex = true -> nul_free cap = true ->
  nul_free ws' = true -> nul_free ex' = true -> nul_free cap' = true ->
  scoped_idempotency_key ws ex cap key = scoped_idempotency_key ws' ex' cap' key' ->
  ws = ws' /\ ex = ex' /\ cap = cap' /\ key = key'.
Proof.
  unfold scoped_idempotency_key. intros H1 H2 H3 H1' H2' H3' H.
  apply nul_split in H as [-> H]; [|done..]. apply nul_split in H as [-> H]; [|done..].
  by apply nul_split in H as [-> ->].
Qed.

(** Without that condition two different scopes share a key: the second submission of
    [scoped_key_collides] is answered with the first caller's task. *)
Theorem scoped_key_collides :
  scoped_idempotency_key "s" ("e" +:+ NUL +:+ "c") "d" "k"
  = scoped_idempotency_key "s" "e" ("c" +:+ NUL +:+ "d") "k".
Proof. reflexivity. Qed.

(** ** Witnesses: one task runs, loses its controller, is retried and succeeds. *)

Definition sample_task_id : string := "task_".

Definition sample_task_ops : list task_op :=
  [ TTransition sample_task_id Running None None;
    TRestart; TRecover;
    TRetry sample_task_id;
    TTransition sample_task_id Running None None;
    TTransition sample_task_id Succeeded (Some VNull) None ].

Definition sample_submitted :=
  submit_traced "s" "e" "fs.read" VNull "k" None None TaskTable_default (sample_world 1000).
Definition sample_table : TaskTable := snd (fst sample_submitted).
Definition sample_after : World := snd sample_submitted.
Definition sample_task : Task :=
  mkTask sample_task_id None None "s" "e" "fs.read" VNull None None None None "k" Queued 0 1 1000 1000
    [mkTaskEvent 1 1001 "task.queued" VNull].
Definition sample_ref : TaskPayloadRef := mkTaskPayloadRef "sha256" 1 "payloads/1" None.
Definition sample_end := run_task_ops sample_task_ops sample_table sample_after.
Definition done_task : Task := default sample_task (tasks (fst sample_end) !! sample_task_id).

Lemma sample_submitted_eq :
  submit_traced "s" "e" "fs.read" VNull "k" None None TaskTable_default (sample_world 1000)
  = (Ok (sample_task, false), sample_table, sample_after).
Proof. vm_compute. reflexivity. Qed.

Lemma sample_inv : task_inv sample_table sample_after.
Proof.
  eapply (run_task_op_inv (TSubmit "s" "e" "fs.read" VNull "k" None None) TaskTable_default);
    [apply task_inv_default, (sample_world_fresh 1000)|].
  cbn [run_task_op]. by rewrite sample_submitted_eq.
Qed.

Lemma sample_end_eq :
  run_task_ops sample_task_ops sample_table sample_after = (fst sample_end, snd sample_end).
Proof. unfold sample_end. by destruct (run_task_ops _ _ _). Qed.

Lemma sample_ops_keep : Forall (fun o => forall c, o ≠ TPrune c) sample_task_ops.
Proof. repeat constructor; discriminate. Qed.

Example sample_life_cycle : (task_state done_task, task_attempt done_task, task_revision done_task)
  = (Succeeded, 2, 6).
Proof. vm_compute. reflexivity. Qed.

Lemma reachable_tables_sound_witness :
  task_wf (fst (run_task_ops [TSubmit "s" "e" "c" VNull "k" None None; TRecover] TaskTable_default
                  (sample_world 1000))).
Proof.
  apply (reachable_tables_sound [TSubmit "s" "e" "c" VNull "k" None None; TRecover]
           (sample_world 1000) _ (snd (run_task_ops
             [TSubmit "s" "e" "c" VNull "k" None None; TRecover] TaskTable_default
             (sample_world 1000))) (sample_world_fresh 1000)).
  by destruct (run_task_ops _ _ _).
Defined.

Lemma submission_idempotent_witness :
  exists y, submit_traced "s" "e" "fs.read" (VBool true) "k" None None (fst sample_end) (snd sample_end)
    = (Ok (y, true), fst sample_end, snd sample_end) /\ task_id y = sample_task_id.
Proof.
  exact (submission_idempotent "s" "e" "fs.read" VNull "k" None None TaskTable_default
           (sample_world 1000) sample_task false sample_table sample_after sample_task_ops
           (fst sample_end) (snd sample_end) (VBool true) None None
           (task_inv_default _ (sample_world_fresh 1000)) sample_submitted_eq sample_ops_keep
           sample_end_eq).
Defined.

Lemma task_life_cycle_witness : progress sample_task done_task.
Proof.
  apply (task_life_cycle sample_task_ops sample_table sample_after (fst sample_end) (snd sample_end)
           sample_task_id sample_task done_task sample_inv sample_end_eq).
  - vm_compute. reflexivity.
  - vm_compute. reflexivity.
Defined.

Lemma stale_payload_refused_witness :
  fst (fst (replace_output_ref_if_unchanged sample_task_id 1 VNull
              sample_ref (fst sample_end) (snd sample_end))) = Ok false.
Proof.
  destruct (stale_payload_refused sample_task_ops sample_table sample_after (fst sample_end)
              (snd sample_end) sample_task_id sample_task done_task VNull
              sample_ref sample_inv sample_end_eq) as [_ H].
  - vm_compute. reflexivity.
  - vm_compute. reflexivity.
  - vm_compute. reflexivity.
  - vm_compute. discriminate.
  - cbn [task_revision sample_task] in H. by rewrite H.
Defined.

Lemma prune_terminal_before_exact_witness :
  exists t', fst (fst (prune_terminal_before 9000 (fst sample_end) (snd sample_end))) = Ok [done_task]
    /\ tasks t' !! sample_task_id = None.
Proof.
  destruct (prune_terminal_before_exact 9000 (fst sample_end) (snd sample_end)
              (ti_wf _ _ (run_task_ops_inv _ _ _ _ _ sample_inv sample_end_eq))) as (t' & H & _ & Hl).
  exists t'. rewrite H, Hl. split; vm_compute; reflexivity.
Defined.

Lemma scoped_key_injective_witness : "k" = "k" /\ "fs.read" = "fs.read".
Proof.
  split; apply (scoped_key_injective "s" "e" "fs.read" "k" "s" "e" "fs.read" "k"); reflexivity.
Defined.
