(* ===== verification/Store.v ===== *)
(** * The state file ([crates/machine-fabric-core/src/store.rs])

    [JsonStore] writes the whole [FabricState] to a temporary sibling, syncs
    it and renames it over the state file. The disk is a finite map from
    paths to nodes; a file knows whether its bytes have been synced, every
    system call may fail, and the disk records the states it went through, so
    that a power failure between two system calls can be stated. [serde_json]
    is a parameter. *)
From Stdlib Require Import Ascii.
From stdpp Require Import base gmap strings list.
From S2P Require Import Prelude Json Schema.
Open Scope Z_scope.
Open Scope fabric_scope.

Record FabricState := mkFabricState {
  st_controller_id : option string;
  st_sessions : list WorkspaceSession;
  st_executors : list Executor;
  st_controllers : list ControllerPeer;
  st_leases : list Lease;
  st_lease_fences : gmap string Z;
  st_tasks : list Task;
  st_artifacts : list Artifact;
  st_generations : list Generation;
  st_transactions : list ActivationTransaction;
  st_agents : list AgentInstance;
  st_handoffs : list Handoff;
  st_approvals : list Approval;
}.

Definition FabricState_default : FabricState :=
  mkFabricState None [] [] [] [] ∅ [] [] [] [] [] [] [].

(** [StoreIo site] is the [Io] variant; [site] is the prefix [map_err] puts before the system's
    message. *)
Inductive StoreError :=
| StoreIo (site : string)
| StoreJson
| ControllerIdentityMismatch (stored configured : string).

(** ** The disk *)

(** A path is the list of its components. *)
Abbreviation path := (list string).

Inductive node :=
| Dir
| File (bytes : string) (synced : bool).

Record Disk := mkDisk { files : gmap path node; history : list (gmap path node) }.

(** One system call: it may fail without effect, or change the file map in one step. *)
Definition syscall {E A} (error : E) (run : gmap path node -> option (A * gmap path node))
    : M Disk E A :=
  let* ok := io_outcome in
  let* disk := get in
  match (if ok : bool then run (files disk) else None) with
  | Some (a, fs) => put (mkDisk fs (fs :: history disk)) ;; ret a
  | None => fail error
  end.

Definition parent (p : path) : option path :=
  match p with [] => None | _ => Some (take (length p - 1) p) end.
Definition file_name (p : path) : option string := last p.
Definition with_file_name (p : path) (name : string) : path := take (length p - 1) p ++ [name].

Definition make_dir (p : path) (fs : gmap path node) : option (unit * gmap path node) :=
  match fs !! p with
  | Some Dir => Some (tt, fs)
  | Some (File _ _) => None
  | None => Some (tt, <[p := Dir]> fs)
  end.

(** [fs::create_dir_all]: one [mkdir] per component that is missing. *)
Fixpoint create_dirs {E} (error : E) (above rest : path) : M Disk E unit :=
  match rest with
  | [] => ret tt
  | c :: rest' =>
      syscall error (make_dir (above ++ [c])) ;;
      create_dirs error (above ++ [c]) rest'
  end.
Definition create_dir_all {E} (error : E) (p : path) : M Disk E unit := create_dirs error [] p.

Definition is_dir (fs : gmap path node) (p : path) : bool :=
  match p with [] => true | _ => match fs !! p with Some Dir => true | _ => false end end.

(** [OpenOptions::new().create_new(true).write(true).open] *)
Definition create_new {E} (error : E) (p : path) : M Disk E unit :=
  syscall error (fun fs =>
    match fs !! p with
    | Some _ => None
    | None => if is_dir fs (take (length p - 1) p) then Some (tt, <[p := File "" false]> fs) else None
    end).

Definition append_bytes (p : path) (bytes : string) (fs : gmap path node) : gmap path node :=
  match fs !! p with
  | Some (File old _) => <[p := File (old +:+ bytes) false]> fs
  | _ => fs
  end.

(** [File::write_all]: a write that fails may leave any part [torn bytes] of its bytes. *)
Definition write_all {E} (torn : string -> string) (error : E) (p : path) (bytes : string)
    : M Disk E unit :=
  let* ok := io_outcome in
  let* disk := get in
  let fs := append_bytes p (if ok : bool then bytes else torn bytes) (files disk) in
  put (mkDisk fs (fs :: history disk)) ;;
  if ok then ret tt else fail error.

Definition sync_all {E} (error : E) (p : path) : M Disk E unit :=
  syscall error (fun fs =>
    match fs !! p with
    | Some (File bytes _) => Some (tt, <[p := File bytes true]> fs)
    | _ => None
    end).

(** [atomic_replace] on Unix: [fs::rename] of a file. *)
Definition atomic_replace {E} (error : E) (source target : path) : M Disk E unit :=
  syscall error (fun fs =>
    match fs !! source, fs !! target with
    | Some (File bytes synced), Some Dir => None
    | Some (File bytes synced), _ => Some (tt, <[target := File bytes synced]> (delete source fs))
    | _, _ => None
    end).

Definition remove_file {E} (error : E) (p : path) : M Disk E unit :=
  syscall error (fun fs =>
    match fs !! p with Some (File _ _) => Some (tt, delete p fs) | _ => None end).

Definition read_file {E} (error : E) (p : path) : M Disk E string :=
  syscall error (fun fs =>
    match fs !! p with Some (File bytes _) => Some (bytes, fs) | _ => None end).

(** A power failure: synced files keep their bytes, others keep what [torn] leaves. *)
Definition crash (torn : string -> string) (fs : gmap path node) : gmap path node :=
  (fun n => match n with File bytes false => File (torn bytes) true | _ => n end) <$> fs.

(** ** The store *)

Record JsonStore := mkJsonStore { store_path : path }.

(** [temporary_path] *)
Definition temporary_path {S E} (p : path) : M S E path :=
  let* uuid := new_v4 in
  ret (with_file_name p ("." +:+ default "" (file_name p) +:+ "." +:+ uuid +:+ ".tmp")).

Definition newline : string := String "010"%char "".

Section Store.
(** [serde_json::to_vec_pretty], [serde_json::from_slice], and what a failed write leaves. *)
Context (to_vec_pretty : FabricState -> option string) (from_slice : string -> option FabricState).
Context (torn : string -> string).

Definition write_steps (temporary target : path) (state : FabricState) : M Disk StoreError unit :=
  create_new (StoreIo "") temporary ;;
  let* bytes := lift (ok_or (to_vec_pretty state) StoreJson) in
  write_all torn (StoreIo "write state temp ") temporary bytes ;;
  write_all torn (StoreIo "write state temp ") temporary newline ;;
  sync_all (StoreIo "sync state temp ") temporary ;;
  atomic_replace (StoreIo "rename state temp ") temporary target.

(** [JsonStore::save], [JsonStore::save_inner] *)
Definition save (store : JsonStore) (state : FabricState) : M Disk StoreError unit :=
  match parent (store_path store) with
  | Some above => create_dir_all (StoreIo "") above
  | None => ret tt
  end ;;
  let* temporary := temporary_path (store_path store) in
  let* result := attempt (write_steps temporary (store_path store) state) in
  (if is_err result then let* _ := attempt (remove_file tt temporary) in ret tt else ret tt) ;;
  lift result.

(** [Path::exists]: false also when the file cannot be looked at. *)
Definition path_exists {E} (p : path) : M Disk E bool :=
  let* seen := io_outcome in
  let* disk := get in
  ret (seen && bool_decide (is_Some (files disk !! p))).

(** [JsonStore::load] *)
Definition load (store : JsonStore) : M Disk StoreError FabricState :=
  let* exists_ := path_exists (store_path store) in
  if negb exists_ then ret FabricState_default
  else
    let* bytes := read_file (StoreIo "") (store_path store) in
    lift (ok_or (from_slice bytes) StoreJson).

(** ** What a save does *)

Lemma syscall_cases {E A} (e : E) (run : gmap path node -> option (A * gmap path node)) d w r d' w' :
  syscall e run d w = (r, d', w') ->
  (r = Err e /\ d' = d) \/
  (exists a fs, r = Ok a /\ run (files d) = Some (a, fs) /\ d' = mkDisk fs (fs :: history d)).
Proof.
  unfold syscall. munfold. intros H.
  destruct (peek (w_io w)); [destruct (run (files d)) as [[a fs]|] eqn:Er|]; simplify_eq; eauto 10.
Qed.

(** The disk grew by states that all satisfy [Q]. *)
Definition through (Q : gmap path node -> Prop) (d d' : Disk) : Prop :=
  exists h, history d' = h ++ history d /\ Forall Q h.

Lemma through_refl Q d : through Q d d.
Proof. by exists []. Qed.

Lemma through_step Q d d' fs : through Q d d' -> Q fs -> through Q d (mkDisk fs (fs :: history d')).
Proof. intros (h & Hh & HQ) Hfs. exists (fs :: h). cbn. rewrite Hh. auto. Qed.

Lemma through_trans Q d1 d2 d3 : through Q d1 d2 -> through Q d2 d3 -> through Q d1 d3.
Proof.
  intros (h & Hh & HQ) (h' & Hh' & HQ'). exists (h' ++ h). rewrite Hh', Hh, app_assoc.
  split; [done|]. by apply Forall_app.
Qed.

(** The state file holds its old content, or the new bytes, completely written and synced. *)
Definition settled (p : path) (old : option node) (new : option string) (fs : gmap path node) : Prop :=
  fs !! p = old \/ exists bytes, new = Some bytes /\ fs !! p = Some (File (bytes +:+ newline) true).

(** Only the temporary file changed, in states that all keep the state file. *)
Record staged (tmp p : path) (new : option string) (d d' : Disk) : Prop := mk_staged {
  sg_only : forall q, q ≠ tmp -> files d' !! q = files d !! q;
  sg_through : through (settled p (files d !! p) new) d d' }.

Lemma staged_refl tmp p new d : staged tmp p new d d.
Proof. split; [done|apply through_refl]. Qed.

Lemma staged_step tmp p new d d' fs :
  tmp ≠ p -> staged tmp p new d d' -> (forall q, q ≠ tmp -> fs !! q = files d' !! q) ->
  staged tmp p new d (mkDisk fs (fs :: history d')).
Proof.
  intros Hne [Ho Ht] Hfs. assert (forall q, q ≠ tmp -> fs !! q = files d !! q) as H
    by (intros q Hq; by rewrite Hfs, Ho). split; [done|].
  apply through_step; [done|]. left. apply H. congruence.
Qed.

Section Stages.
Context (tmp p : path) (new : option string) (d0 : Disk) (Hne : tmp ≠ p).
#[local] Abbreviation staged := (staged tmp p new d0).

Lemma create_new_stage e d w r d' w' :
  staged d -> create_new (E := StoreError) e tmp d w = (r, d', w') ->
  staged d' /\ (r = Ok tt -> files d !! tmp = None /\ files d' !! tmp = Some (File "" false)).
Proof.
  intros Hs H. unfold create_new in H.
  apply syscall_cases in H as [[-> ->]|(a & fs & -> & Hr & ->)]; [done|]. cbn in Hr.
  destruct (files d !! tmp) eqn:Hf; [done|]. case_match; [|done]. simplify_eq.
  split; [|intros _; cbn; by rewrite lookup_insert_eq].
  apply staged_step; [done..|]. intros q Hq. by rewrite lookup_insert_ne.
Qed.

Lemma write_all_stage e bytes d w r d' w' :
  staged d -> write_all torn (E := StoreError) e tmp bytes d w = (r, d', w') ->
  staged d' /\ (r = Ok tt -> forall old s, files d !! tmp = Some (File old s) ->
    files d' !! tmp = Some (File (old +:+ bytes) false)).
Proof.
  intros Hs H. unfold write_all in H. munfold. set (ok := peek (w_io w)) in H.
  set (fs := append_bytes tmp (if ok then bytes else torn bytes) (files d)) in H.
  assert (d' = mkDisk fs (fs :: history d) /\ (r = Ok tt -> ok = true)) as [-> Hok]
    by (destruct ok; by simplify_eq).
  split.
  - apply staged_step; [done..|]. intros q Hq. unfold fs, append_bytes.
    destruct (files d !! tmp) as [[|old s]|]; [done| |done]. by rewrite lookup_insert_ne.
  - intros Hr old s Hf. cbn. unfold fs, append_bytes. by rewrite (Hok Hr), Hf, lookup_insert_eq.
Qed.

Lemma sync_all_stage e d w r d' w' :
  staged d -> sync_all (E := StoreError) e tmp d w = (r, d', w') ->
  staged d' /\ (r = Ok tt -> exists bytes s, files d !! tmp = Some (File bytes s) /\
    files d' !! tmp = Some (File bytes true)).
Proof.
  intros Hs H. unfold sync_all in H.
  apply syscall_cases in H as [[-> ->]|(a & fs & -> & Hr & ->)]; [done|]. cbn in Hr.
  destruct (files d !! tmp) as [[|bytes s]|] eqn:Hf; simplify_eq.
  split; [|intros _; exists bytes, s; cbn; by rewrite lookup_insert_eq].
  apply staged_step; [done..|]. intros q Hq. by rewrite lookup_insert_ne.
Qed.

Lemma remove_file_stage d w r d' w' :
  staged d -> remove_file tt tmp d w = (r, d', w') -> staged d'.
Proof.
  intros Hs H. unfold remove_file in H.
  apply syscall_cases in H as [[-> ->]|(a & fs & -> & Hr & ->)]; [done|]. cbn in Hr.
  repeat case_match; simplify_eq. apply staged_step; [done..|].
  intros q Hq. by rewrite lookup_delete_ne.
Qed.

(** The rename publishes exactly the bytes of the temporary file. *)
Lemma rename_stage e d w r d' w' bytes :
  staged d -> files d0 !! tmp = None -> new = Some bytes ->
  files d !! tmp = Some (File (bytes +:+ newline) true) ->
  atomic_replace (E := StoreError) e tmp p d w = (r, d', w') ->
  (is_err r = true /\ staged d') \/
  (r = Ok tt /\ through (settled p (files d0 !! p) new) d0 d' /\
   forall q, files d' !! q = if decide (q = p) then Some (File (bytes +:+ newline) true)
                             else files d0 !! q).
Proof.
  intros [Ho Ht] Hf Hn Hb H. unfold atomic_replace in H.
  apply syscall_cases in H as [[-> ->]|(a & fs & -> & Hr & ->)]; [by left|]. cbn in Hr. right.
  rewrite Hb in Hr.
  assert (fs = <[p := File (bytes +:+ newline) true]> (delete tmp (files d))) as ->
    by (repeat case_match; by simplify_eq).
  split; [by destruct a|]. split.
  - apply through_step; [done|]. right. exists bytes. by rewrite lookup_insert_eq.
  - intros q. cbn. rewrite lookup_insert. destruct (decide (p = q)) as [<-|Hq];
      [by rewrite decide_True|rewrite decide_False by done].
    rewrite lookup_delete. case_decide as Hq'; [by subst|]. by rewrite Ho.
Qed.

End Stages.

(** The outcome of the steps up to the rename. *)
Definition wrote (tmp p : path) (new : option string) (d d' : Disk) (r : result StoreError unit)
    : Prop :=
  (is_err r = true /\ staged tmp p new d d') \/
  (r = Ok tt /\ through (settled p (files d !! p) new) d d' /\ exists bytes, new = Some bytes /\
   forall q, files d' !! q = if decide (q = p) then Some (File (bytes +:+ newline) true)
                             else files d !! q).

Lemma write_steps_spec tmp p st d w r d' w' :
  tmp ≠ p -> write_steps tmp p st d w = (r, d', w') -> wrote tmp p (to_vec_pretty st) d d' r.
Proof.
  intros Hne H. unfold write_steps in H. unfold wrote.
  apply bind_cases in H as (r1 & d1 & w1 & E & H).
  apply (create_new_stage tmp p (to_vec_pretty st) d Hne) in E as [S1 F1]; [|apply staged_refl].
  destruct r1 as [[]|]; [destruct (F1 eq_refl) as [Hfree T1]|by destruct H as (-> & -> & _); left].
  apply bind_cases in H as (r2 & d2 & w2 & E & H). unfold lift in E. simplify_eq.
  destruct (to_vec_pretty st) as [bytes|]; cbn in H; [|by destruct H as (-> & -> & _); left].
  apply bind_cases in H as (r3 & d3 & w3 & E & H).
  apply (write_all_stage tmp p (Some bytes) d Hne _ _ _ _ _ _ _ S1) in E as [S3 F3].
  destruct r3 as [[]|]; [apply F3 in T1; [|done]|by destruct H as (-> & -> & _); left].
  apply bind_cases in H as (r4 & d4 & w4 & E & H).
  apply (write_all_stage tmp p (Some bytes) d Hne _ _ _ _ _ _ _ S3) in E as [S4 F4].
  destruct r4 as [[]|]; [apply F4 in T1; [|done]|by destruct H as (-> & -> & _); left].
  apply bind_cases in H as (r5 & d5 & w5 & E & H).
  apply (sync_all_stage tmp p (Some bytes) d Hne _ _ _ _ _ _ S4) in E as [S5 F5].
  destruct r5 as [[]|]; [|by destruct H as (-> & -> & _); left].
  destruct (F5 eq_refl) as (b & s & Hb & T5). rewrite T1 in Hb. simplify_eq. cbn in T5.
  eapply rename_stage in H; [|done..]. destruct H as [?|(? & ? & ?)]; [by left|right; eauto 10].
Qed.

Lemma temporary_ne p uuid :
  with_file_name p ("." +:+ default "" (file_name p) +:+ "." +:+ uuid +:+ ".tmp") ≠ p.
Proof.
  unfold with_file_name, file_name. destruct p as [|c p _] using rev_ind; [done|].
  rewrite length_app, last_snoc. cbn [List.length default].
  rewrite Nat.add_sub, take_app_length. intros [_ H]%app_inj_tail.
  apply (f_equal String.length) in H. rewrite !string_length_app in H. cbn in H. lia.
Qed.

(** [create_dir_all] only turns missing paths into directories, all of them above [p]. *)
Definition dirs_only (p : path) (fs fs' : gmap path node) : Prop :=
  forall q, fs' !! q = fs !! q \/
    (fs !! q = None /\ fs' !! q = Some Dir /\ (length q < length p)%nat).

Lemma create_dirs_spec e p above rest d d1 w r d' w' Q :
  (length above + length rest < length p)%nat ->
  (forall fs, dirs_only p (files d) fs -> Q fs) ->
  dirs_only p (files d) (files d1) -> through Q d d1 ->
  create_dirs (E := StoreError) e above rest d1 w = (r, d', w') ->
  dirs_only p (files d) (files d') /\ through Q d d'.
Proof.
  intros Hlen HQ. revert above w d1 Hlen.
  induction rest as [|c rest IH]; intros above w d1 Hlen Hd Ht H; cbn in H;
    [by unfold ret in H; simplify_eq|].
  apply bind_cases in H as (r1 & d2 & w2 & E & H). cbn in Hlen.
  assert (Hl : (length (above ++ [c]) + length rest < length p)%nat)
    by (rewrite length_app; cbn; lia).
  apply syscall_cases in E as [[-> ->]|([] & fs & -> & Hm & ->)];
    [by destruct H as (_ & -> & _)|].
  assert (Hd' : dirs_only p (files d) fs).
  { intros q. unfold make_dir in Hm. specialize (Hd q).
    destruct (files d1 !! (above ++ [c])) as [[|]|] eqn:Hq; simplify_eq; [done|].
    rewrite lookup_insert. case_decide as Heq; [subst q|done]. right.
    destruct Hd as [Hd|(_ & Hd & _)]; [|congruence]. split; [congruence|]. split; [done|lia]. }
  apply IH in H; [done..|apply through_step; auto].
Qed.

Lemma through_weaken (Q Q' : gmap path node -> Prop) d d' :
  (forall fs, Q fs -> Q' fs) -> through Q d d' -> through Q' d d'.
Proof. intros H (h & ? & HQ). exists h. split; [done|]. eapply Forall_impl; eauto. Qed.

Lemma dirs_only_keeps p fs fs' : dirs_only p fs fs' -> fs' !! p = fs !! p.
Proof. intros H. destruct (H p) as [?|(_ & _ & ?)]; [done|lia]. Qed.

(** Everything a save does to the disk. *)
Record saved (store : JsonStore) (state : FabricState) (d d' : Disk) (r : result StoreError unit)
    : Prop := mk_saved {
  sv_through : through (settled (store_path store) (files d !! store_path store) (to_vec_pretty state)) d d';
  sv_err : is_err r = true -> files d' !! store_path store = files d !! store_path store;
  sv_ok : r = Ok tt -> exists bytes, to_vec_pretty state = Some bytes /\
    files d' !! store_path store = Some (File (bytes +:+ newline) true) }.

Lemma create_parents_spec p d w r d' w' Q :
  (forall fs, dirs_only p (files d) fs -> Q fs) ->
  match parent p with Some above => create_dir_all (StoreIo "") above | None => ret tt end d w
    = (r, d', w') ->
  dirs_only p (files d) (files d') /\ through Q d d'.
Proof.
  intros HQ H. unfold parent in H. destruct p as [|c p].
  - unfold ret in H. simplify_eq. split; [by left|apply through_refl].
  - eapply create_dirs_spec; [|exact HQ|by left|apply through_refl|exact H].
    rewrite length_take. cbn. lia.
Qed.

Lemma save_spec store st d w r d' w' : save store st d w = (r, d', w') -> saved store st d d' r.
Proof.
  destruct store as [p]. unfold save. cbn [store_path]. intros H.
  apply bind_cases in H as (r1 & d1 & w1 & E & H).
  apply (create_parents_spec p d w r1 d1 w1 (settled p (files d !! p) (to_vec_pretty st))) in E
    as [Hdirs%dirs_only_keeps Ht1]; [|intros fs Hfs%dirs_only_keeps; by left].
  destruct r1 as [[]|e]; [|destruct H as (-> & -> & _); by split].
  unfold temporary_path in H. unfold bind at 1 in H. munfold.
  set (tmp := with_file_name p _) in H. assert (Hne : tmp ≠ p) by apply temporary_ne.
  destruct (write_steps tmp p st d1 _) as [[r2 d2] w2] eqn:E2.
  apply write_steps_spec in E2 as [[Hr Hst]|(-> & Ht2 & bytes & Hb & Hl)]; [| |done].
  - rewrite Hr in H. destruct (remove_file tt tmp d2 w2) as [[r3 d3] w3] eqn:E3.
    apply (remove_file_stage tmp p (to_vec_pretty st) d1 Hne _ _ _ _ _ Hst) in E3 as [Ho Ht3].
    simplify_eq. assert (files d' !! p = files d !! p) by (rewrite Ho by congruence; done).
    split; [|done|intros ->; done]. rewrite Hdirs in Ht3. by eapply through_trans.
  - cbn in H. simplify_eq. rewrite Hdirs in Ht2. split; [by eapply through_trans|done|].
    intros _. exists bytes. split; [done|]. rewrite Hl. by rewrite decide_True.
Qed.

(** ** When nothing fails *)

(** From this moment on every system call that can succeed does. *)
Definition io_good (w : World) : Prop := forall n, (o_next (w_io w) <= n)%nat -> o_at (w_io w) n = true.

Lemma io_good_peek w : io_good w -> peek (w_io w) = true.
Proof. intros H. apply H. done. Qed.

Lemma io_good_next w : io_good w -> io_good (set_io (advance (w_io w)) w).
Proof. intros H n Hn. cbn in *. apply H. lia. Qed.

Lemma syscall_good {E A} (e : E) (run : gmap path node -> option (A * gmap path node)) d w a fs :
  io_good w -> run (files d) = Some (a, fs) ->
  exists w', syscall e run d w = (Ok a, mkDisk fs (fs :: history d), w') /\ io_good w'.
Proof.
  intros Hw Hr. unfold syscall. munfold. rewrite io_good_peek, Hr by done.
  eexists. split; [done|]. by apply io_good_next.
Qed.

Lemma create_new_good {E} (e : E) p d w :
  io_good w -> files d !! p = None -> is_dir (files d) (take (length p - 1) p) = true ->
  exists d' w', create_new e p d w = (Ok tt, d', w') /\ io_good w' /\
    files d' = <[p := File "" false]> (files d).
Proof.
  intros Hw Hf Hd.
  destruct (syscall_good e (fun fs => match fs !! p with
    | Some _ => None
    | None => if is_dir fs (take (length p - 1) p) then Some (tt, <[p := File "" false]> fs) else None
    end) d w tt (<[p := File "" false]> (files d)) Hw) as (w' & E' & Hw'); [by rewrite Hf, Hd|].
  by eexists _, w'.
Qed.

Lemma sync_all_good {E} (e : E) p bytes s d w :
  io_good w -> files d !! p = Some (File bytes s) ->
  exists d' w', sync_all e p d w = (Ok tt, d', w') /\ io_good w' /\
    files d' = <[p := File bytes true]> (files d).
Proof.
  intros Hw Hf.
  destruct (syscall_good e (fun fs => match fs !! p with
    | Some (File bytes _) => Some (tt, <[p := File bytes true]> fs)
    | _ => None
    end) d w tt (<[p := File bytes true]> (files d)) Hw) as (w' & E' & Hw'); [by rewrite Hf|].
  by eexists _, w'.
Qed.

Lemma rename_good {E} (e : E) source target bytes s d w :
  io_good w -> files d !! source = Some (File bytes s) -> files d !! target ≠ Some Dir ->
  exists d' w', atomic_replace e source target d w = (Ok tt, d', w').
Proof.
  intros Hw Hs Ht.
  destruct (syscall_good e (fun fs => match fs !! source, fs !! target with
    | Some (File bytes synced), Some Dir => None
    | Some (File bytes synced), _ => Some (tt, <[target := File bytes synced]> (delete source fs))
    | _, _ => None
    end) d w tt (<[target := File bytes s]> (delete source (files d))) Hw) as (w' & E' & Hw').
  - rewrite Hs. by destruct (files d !! target) as [[|]|].
  - by eexists _, w'.
Qed.

Lemma write_all_good {E} (e : E) p bytes old s d w :
  io_good w -> files d !! p = Some (File old s) ->
  exists d' w', write_all torn e p bytes d w = (Ok tt, d', w') /\ io_good w' /\
    files d' = <[p := File (old +:+ bytes) false]> (files d).
Proof.
  intros Hw Hf. unfold write_all. munfold. rewrite io_good_peek by done.
  eexists _, _. split; [done|]. split; [by apply io_good_next|].
  cbn. unfold append_bytes. by rewrite Hf.
Qed.

(** No proper prefix of [p] is a file. *)
Definition clear_way (p : path) (fs : gmap path node) : Prop :=
  forall q b s, (length q < length p)%nat -> q `prefix_of` p -> fs !! q ≠ Some (File b s).

Lemma create_dirs_good {E} (e : E) p above rest d w :
  io_good w -> clear_way p (files d) -> is_dir (files d) above = true ->
  (above ++ rest) `prefix_of` p -> (length (above ++ rest) < length p)%nat ->
  exists d' w', create_dirs e above rest d w = (Ok tt, d', w') /\ io_good w' /\
    is_dir (files d') (above ++ rest) = true /\ clear_way p (files d') /\
    forall q, (length p <= length q)%nat -> files d' !! q = files d !! q.
Proof.
  revert above d w. induction rest as [|c rest IH]; intros above d w Hw Hc Hd Hp Hl; cbn.
  - rewrite app_nil_r. by exists d, w.
  - assert (Hsplit : (above ++ [c]) ++ rest = above ++ c :: rest) by (by rewrite <- app_assoc).
    assert (Hpre : (above ++ [c]) `prefix_of` p).
    { destruct Hp as [k ->]. exists (rest ++ k). by rewrite <- !app_assoc. }
    assert (Hlen : (length (above ++ [c]) < length p)%nat)
      by (rewrite length_app in Hl |- *; cbn in *; lia).
    assert (exists fs, make_dir (above ++ [c]) (files d) = Some (tt, fs) /\
      fs !! (above ++ [c]) = Some Dir /\ forall q, q ≠ above ++ [c] -> fs !! q = files d !! q)
      as (fs & Hm & Hdir & Hrest).
    { unfold make_dir. destruct (files d !! (above ++ [c])) as [[|b s]|] eqn:Hq; eauto.
      - by apply Hc in Hq.
      - eexists. split; [done|]. split; [by rewrite lookup_insert_eq|].
        intros q Hne. by rewrite lookup_insert_ne. }
    destruct (syscall_good e (make_dir (above ++ [c])) d w tt fs Hw Hm) as (w1 & E1 & Hw1).
    unfold bind. rewrite E1.
    destruct (IH (above ++ [c]) (mkDisk fs (fs :: history d)) w1 Hw1)
      as (d' & w' & E2 & Hw' & Hd' & Hc' & Hother).
    + intros q b s Hq Hqp. cbn. destruct (decide (q = above ++ [c])) as [->|Hne];
        [by rewrite Hdir|rewrite Hrest by done; by apply Hc].
    + unfold is_dir. cbn. rewrite Hdir. by destruct (above ++ [c]).
    + by rewrite Hsplit.
    + by rewrite Hsplit.
    + exists d', w'. rewrite <- Hsplit. split_and!; try done.
      intros q Hq. rewrite Hother by done. cbn. apply Hrest. intros ->. lia.
Qed.

Lemma write_steps_good tmp p st bytes d w :
  io_good w -> to_vec_pretty st = Some bytes -> tmp ≠ p ->
  files d !! tmp = None -> is_dir (files d) (take (length tmp - 1) tmp) = true ->
  files d !! p ≠ Some Dir ->
  exists d' w', write_steps tmp p st d w = (Ok tt, d', w').
Proof.
  intros Hw Hv Hne Hfree Hdir Hp. unfold write_steps.
  destruct (create_new_good (StoreIo "") tmp d w) as (d1 & w1 & E1 & Hw1 & Hf1); [done..|].
  unfold bind at 1. rewrite E1. unfold bind at 1, lift. rewrite Hv. cbn [ok_or].
  destruct (write_all_good (StoreIo "write state temp ") tmp bytes "" false d1 w1)
    as (d2 & w2 & E2 & Hw2 & Hf2); [done|by rewrite Hf1, lookup_insert_eq|].
  unfold bind at 1. rewrite E2. rewrite Hf1, insert_insert_eq in Hf2.
  destruct (write_all_good (StoreIo "write state temp ") tmp newline bytes false d2 w2)
    as (d3 & w3 & E3 & Hw3 & Hf3); [done|by rewrite Hf2, lookup_insert_eq|].
  unfold bind at 1. rewrite E3. rewrite Hf2, insert_insert_eq in Hf3.
  destruct (sync_all_good (StoreIo "sync state temp ") tmp (bytes +:+ newline) false d3 w3)
    as (d4 & w4 & E4 & Hw4 & Hf4); [done|by rewrite Hf3, lookup_insert_eq|].
  unfold bind at 1. rewrite E4. rewrite Hf3, insert_insert_eq in Hf4.
  apply (rename_good _ _ _ (bytes +:+ newline) true); [done|by rewrite Hf4, lookup_insert_eq|].
  by rewrite Hf4, lookup_insert_ne.
Qed.

(** ** The properties of the store *)

(** C4: Crash safety. Whatever system calls fail, and wherever in a save the power fails, the state
    file afterwards holds what a power failure before the save would have left, or the complete new
    state: the rename happens only after every byte has been written and synced. *)
Theorem save_crash_safe store st d w :
  let '(_, d', _) := save store st d w in
  exists h, history d' = h ++ history d /\
  forall fs, fs ∈ h ->
    crash torn fs !! store_path store = crash torn (files d) !! store_path store \/
    exists bytes, to_vec_pretty st = Some bytes /\
      crash torn fs !! store_path store = Some (File (bytes +:+ newline) true).
Proof.
  destruct (save store st d w) as [[r d'] w'] eqn:E. apply save_spec in E as [(h & Hh & Hall) _ _].
  exists h. split; [done|]. intros fs Hfs. rewrite Forall_forall in Hall.
  unfold crash. rewrite !lookup_fmap.
  destruct (Hall fs Hfs) as [->|(bytes & Hb & ->)]; [by left|]. right. exists bytes. done.
Qed.

(** All or nothing. A save that answers [Ok] is what the next [load] returns, when it can look at the
    file and read it, and a save that answers an error leaves [load] as it was. The hypothesis is that
    [serde_json] reads back what it wrote for this state, trailing newline included. *)
Theorem save_all_or_nothing store st d w :
  (forall bytes, to_vec_pretty st = Some bytes -> from_slice (bytes +:+ newline) = Some st) ->
  let '(r, d', _) := save store st d w in
  match r with
  | Ok _ => forall w2, peek (w_io w2) = true -> peek (advance (w_io w2)) = true -> fst (fst (load store d' w2)) = Ok st
  | Err _ => forall w2, fst (fst (load store d' w2)) = fst (fst (load store d w2))
  end.
Proof.
  intros Hcodec. destruct (save store st d w) as [[r d'] w'] eqn:E. apply save_spec in E as [_ He Hk].
  destruct r as [[]|e]; intros w2.
  - intros Hio Hread. destruct (Hk eq_refl) as (bytes & Hb & Hf).
    unfold load, path_exists, read_file, syscall. munfold. rewrite Hf, Hio. rewrite bool_decide_eq_true_2 by done.
    cbn [andb negb fst w_io set_io]. rewrite Hread. rewrite Hf. cbn [fst]. by rewrite (Hcodec _ Hb).
  - specialize (He eq_refl). unfold load, path_exists, read_file, syscall. munfold. rewrite He.
    by repeat case_match; simplify_eq.
Qed.

(** A state file that cannot be looked at is taken for an absent one: the load answers the empty
    state, whatever the file holds. *)
Theorem unseen_state_is_empty store d w :
  peek (w_io w) = false -> fst (fst (load store d w)) = Ok FabricState_default.
Proof. intros H. unfold load, path_exists. munfold. by rewrite H. Qed.

(** Progress. When no system call fails, no component of the way is a file, the state path is
    not a directory and the temporary name is free, a save of a serializable state succeeds. *)
Theorem save_succeeds store st bytes d w :
  io_good w -> to_vec_pretty st = Some bytes ->
  store_path store ≠ [] -> clear_way (store_path store) (files d) ->
  files d !! store_path store ≠ Some Dir ->
  (forall name, name ≠ default "" (file_name (store_path store)) ->
     files d !! with_file_name (store_path store) name = None) ->
  exists d' w', save store st d w = (Ok tt, d', w').
Proof.
  destruct store as [p]. cbn [store_path]. intros Hw Hv Hp Hc Hdir Hfree.
  destruct p as [|name above _] using rev_ind; [done|]. unfold save. cbn [store_path].
  assert (Hpar : take (length (above ++ [name]) - 1) (above ++ [name]) = above)
    by (rewrite length_app, Nat.add_sub; apply take_app_length).
  assert (exists d1 w1, match parent (above ++ [name]) with
      | Some above => create_dir_all (StoreIo "") above | None => ret tt end d w = (Ok tt, d1, w1) /\
      io_good w1 /\ is_dir (files d1) above = true /\
      forall q, (length (above ++ [name]) <= length q)%nat -> files d1 !! q = files d !! q)
    as (d1 & w1 & E1 & Hw1 & Hd1 & Hother).
  { unfold parent. rewrite Hpar.
    destruct (create_dirs_good (StoreIo "") (above ++ [name]) [] above d w)
      as (d1 & w1 & E1 & Hw1 & Hd1 & _ & Hother);
      [done..|by apply prefix_app_r|cbn; rewrite length_app; cbn; lia|].
    exists d1, w1. split; [|done]. by destruct above. }
  unfold bind at 1. rewrite E1. unfold temporary_path. munfold.
  set (tmp := with_file_name (above ++ [name]) _).
  assert (Htmp : take (length tmp - 1) tmp = above /\ length tmp = length (above ++ [name])).
  { unfold tmp, with_file_name. rewrite Hpar, !length_app, Nat.add_sub, take_app_length. done. }
  destruct Htmp as [Htmp Hlen].
  destruct (write_steps_good tmp (above ++ [name]) st bytes d1
              (set_uuid (advance (w_uuid w1)) w1)) as (d2 & w2 & E2);
    [done|done|apply temporary_ne| | | |].
  - rewrite Hother by (rewrite Hlen; done). apply Hfree. unfold file_name. rewrite last_snoc. cbn.
    intros H%(f_equal String.length). cbn in H. rewrite !string_length_app in H. cbn in H. lia.
  - by rewrite Htmp.
  - by rewrite Hother.
  - rewrite E2. cbn. eauto.
Qed.

End Store.

(** ** Witnesses, with a serializer that knows the empty state *)

Definition sample_store : JsonStore := mkJsonStore ["var"; "fabric"; "state.json"].
Definition sample_to_vec (_ : FabricState) : option string := Some "{}".
Definition sample_from_slice (bytes : string) : option FabricState :=
  if String.eqb bytes ("{}" +:+ newline) then Some FabricState_default else None.
Definition empty_disk : Disk := mkDisk ∅ [].

Lemma save_all_or_nothing_witness :
  exists d' w', save sample_to_vec (fun s => s) sample_store FabricState_default empty_disk (sample_world 0)
      = (Ok tt, d', w') /\
    fst (fst (load sample_from_slice sample_store d' w')) = Ok FabricState_default.
Proof.
  pose proof (save_all_or_nothing sample_to_vec sample_from_slice (fun s => s) sample_store
                FabricState_default empty_disk (sample_world 0)) as H.
  destruct (save sample_to_vec (fun s => s) sample_store FabricState_default empty_disk
              (sample_world 0)) as [[r d'] w'] eqn:E.
  assert (r = Ok tt) as -> by (vm_compute in E; congruence).
  exists d', w'. split; [reflexivity|]. apply H.
  - intros bytes [= <-]. reflexivity.
  - vm_compute in E. injection E as _ <-. reflexivity.
  - vm_compute in E. injection E as _ <-. reflexivity.
Defined.

Lemma save_succeeds_witness :
  exists d' w', save sample_to_vec (fun s => s) sample_store FabricState_default empty_disk
    (sample_world 0) = (Ok tt, d', w').
Proof.
  apply (save_succeeds sample_to_vec (fun s => s) sample_store FabricState_default "{}" empty_disk
           (sample_world 0)).
  - intros n _. reflexivity.
  - reflexivity.
  - discriminate.
  - intros q b s _ _. discriminate.
  - discriminate.
  - intros name _. reflexivity.
Defined.
