(* ===== verification/Desktop.v ===== *)
(** * The desktop queue ([crates/machine-fabric-runtime/src/desktop.rs])

    One durable first-in first-out queue per executor decides who may send
    input to its interactive desktop. [Desktop] is the queue in memory with
    the image of it on disk (written as a whole by an atomic replacement, see
    [Store]) and the node-local files that other programs write: the
    availability snapshot and the operator's receipt, which may change between
    any two reads. SHA-256, UUID parsing and the effective user are parameters.
    Clock readings happen in the order, and only where, the source evaluates
    them. *)
From Stdlib Require Import Ascii.
From stdpp Require Import base gmap strings list pretty.
From S2P Require Import Prelude Json Protocol.
Open Scope Z_scope.
Open Scope fabric_scope.

Definition AVAILABILITY_MAX_AGE_MS : Z := 10000.
Definition AVAILABILITY_MAX_LIFETIME_MS : Z := 10000.

(** An RPC error, or a panic of the thread. *)
Inductive fault :=
| Rpc (e : RpcError)
| Panics.

Definition error {S A} (code message : string) : M S fault A := fail (Rpc (rpc_error code message)).

Definition bounded_name (limit : Z) (s : string) : bool := negb (str_is_empty s) && (str_len s <=? limit).

Definition snapshot_allows_input (v : Value) (now : Z) : bool :=
  match as_u64 (vindex v "observedAtMs"), as_u64 (vindex v "expiresAtMs") with
  | Some observed, Some expires =>
      eq_int (vindex v "schemaVersion") 1
      && eq_str (vindex v "provider") "away-guard"
      && eq_str (vindex v "state") "armed"
      && match as_str (vindex v "generation") with Some s => bounded_name 256 s | None => false end
      && match as_u64 (vindex v "sequence") with Some n => 0 <? n | None => false end
      && eq_bool (vindex v "available") true
      && (observed <=? now)
      && ((now - observed) mod (U64_MAX + 1) <=? AVAILABILITY_MAX_AGE_MS)
      && (now <? expires)
      && ((expires - observed) mod (U64_MAX + 1) <=? AVAILABILITY_MAX_LIFETIME_MS)
  | _, _ => false
  end.

Record Job := mkJob {
  job_id : string;
  job_owner : string;
  job_request_key : string;
  job_token : string;
  job_state : string;
  job_epoch : Z;
  job_ttl_ms : Z;
  job_submitted_at : Z;
  job_expires_at : Z;
  job_requires_availability : bool;
  job_deadline_at : option Z;
  job_claimed_by : option string;
}.

Record DesktopQueue := mkDesktopQueue {
  q_path : bool;
  q_epoch : Z;
  q_jobs : list Job;
  q_in_flight : bool;
  q_blocked : bool;
  q_boot_id : option string;
  q_last_recovery : option Value;
  q_maintenance_owner : option string;
  q_availability_required : bool;
  q_recovery_inspection_active : bool;
  q_notification_wakes : Z;
  q_polling_wakes : Z;
}.

Definition DesktopQueue_default : DesktopQueue :=
  mkDesktopQueue false 0 [] false false None None None false false 0 0.

(** Assignments to fields. *)
Definition set_state (s : string) (j : Job) : Job :=
  mkJob (job_id j) (job_owner j) (job_request_key j) (job_token j) s (job_epoch j) (job_ttl_ms j)
    (job_submitted_at j) (job_expires_at j) (job_requires_availability j) (job_deadline_at j)
    (job_claimed_by j).
Definition set_grant (epoch expires_at : Z) (j : Job) : Job :=
  mkJob (job_id j) (job_owner j) (job_request_key j) (job_token j) (job_state j) epoch (job_ttl_ms j)
    (job_submitted_at j) expires_at (job_requires_availability j) (job_deadline_at j)
    (job_claimed_by j).
Definition set_claimed_by (c : option string) (j : Job) : Job :=
  mkJob (job_id j) (job_owner j) (job_request_key j) (job_token j) (job_state j) (job_epoch j)
    (job_ttl_ms j) (job_submitted_at j) (job_expires_at j) (job_requires_availability j)
    (job_deadline_at j) c.

Definition set_jobs (js : list Job) (q : DesktopQueue) : DesktopQueue :=
  mkDesktopQueue (q_path q) (q_epoch q) js (q_in_flight q) (q_blocked q) (q_boot_id q)
    (q_last_recovery q) (q_maintenance_owner q) (q_availability_required q)
    (q_recovery_inspection_active q) (q_notification_wakes q) (q_polling_wakes q).
Definition set_epoch (e : Z) (q : DesktopQueue) : DesktopQueue :=
  mkDesktopQueue (q_path q) e (q_jobs q) (q_in_flight q) (q_blocked q) (q_boot_id q)
    (q_last_recovery q) (q_maintenance_owner q) (q_availability_required q)
    (q_recovery_inspection_active q) (q_notification_wakes q) (q_polling_wakes q).
Definition set_in_flight (b : bool) (q : DesktopQueue) : DesktopQueue :=
  mkDesktopQueue (q_path q) (q_epoch q) (q_jobs q) b (q_blocked q) (q_boot_id q)
    (q_last_recovery q) (q_maintenance_owner q) (q_availability_required q)
    (q_recovery_inspection_active q) (q_notification_wakes q) (q_polling_wakes q).
Definition set_blocked (b : bool) (q : DesktopQueue) : DesktopQueue :=
  mkDesktopQueue (q_path q) (q_epoch q) (q_jobs q) (q_in_flight q) b (q_boot_id q)
    (q_last_recovery q) (q_maintenance_owner q) (q_availability_required q)
    (q_recovery_inspection_active q) (q_notification_wakes q) (q_polling_wakes q).
Definition set_boot_id (b : option string) (q : DesktopQueue) : DesktopQueue :=
  mkDesktopQueue (q_path q) (q_epoch q) (q_jobs q) (q_in_flight q) (q_blocked q) b
    (q_last_recovery q) (q_maintenance_owner q) (q_availability_required q)
    (q_recovery_inspection_active q) (q_notification_wakes q) (q_polling_wakes q).
Definition set_last_recovery (v : option Value) (q : DesktopQueue) : DesktopQueue :=
  mkDesktopQueue (q_path q) (q_epoch q) (q_jobs q) (q_in_flight q) (q_blocked q) (q_boot_id q)
    v (q_maintenance_owner q) (q_availability_required q)
    (q_recovery_inspection_active q) (q_notification_wakes q) (q_polling_wakes q).
Definition set_maintenance_owner (o : option string) (q : DesktopQueue) : DesktopQueue :=
  mkDesktopQueue (q_path q) (q_epoch q) (q_jobs q) (q_in_flight q) (q_blocked q) (q_boot_id q)
    (q_last_recovery q) o (q_availability_required q)
    (q_recovery_inspection_active q) (q_notification_wakes q) (q_polling_wakes q).
Definition set_availability_required (b : bool) (q : DesktopQueue) : DesktopQueue :=
  mkDesktopQueue (q_path q) (q_epoch q) (q_jobs q) (q_in_flight q) (q_blocked q) (q_boot_id q)
    (q_last_recovery q) (q_maintenance_owner q) b
    (q_recovery_inspection_active q) (q_notification_wakes q) (q_polling_wakes q).
(** The fields marked [serde(skip)]. *)
Definition set_transient (path inspection : bool) (notifications polls : Z) (q : DesktopQueue)
    : DesktopQueue :=
  mkDesktopQueue path (q_epoch q) (q_jobs q) (q_in_flight q) (q_blocked q) (q_boot_id q)
    (q_last_recovery q) (q_maintenance_owner q) (q_availability_required q)
    inspection notifications polls.

(** What serialization keeps of a queue. *)
Definition image (q : DesktopQueue) : DesktopQueue := set_transient false false 0 0 q.

(** ** The node-local files *)

(** What [symlink_metadata] and [read] tell about the operator's receipt. *)
Record ReceiptFile := mkReceiptFile {
  rf_is_file : bool;
  rf_len : Z;
  rf_mode : Z;
  rf_uid : Z;
  rf_json : option Value;
}.

(** [node_availability]: the length of the snapshot file and its JSON, if it can be read. *)
Record Node := mkNode {
  node_availability_present : bool;
  node_availability : option (Z * option Value);
  node_receipt : option ReceiptFile;
}.

Record Desktop := mkDesktop {
  queue : DesktopQueue;
  durable : option DesktopQueue;
  nodes : Oracle Node;
}.

Definition read_node {E} : M Desktop E Node :=
  fun d w => (Ok (peek (nodes d)), mkDesktop (queue d) (durable d) (advance (nodes d)), w).

Definition on_queue (f : DesktopQueue -> DesktopQueue) (d : Desktop) : Desktop :=
  mkDesktop (f (queue d)) (durable d) (nodes d).
Definition update {E} (f : DesktopQueue -> DesktopQueue) : M Desktop E unit := modify (on_queue f).
Definition the_queue {E} : M Desktop E DesktopQueue := gets queue.
Definition update_job {E} (i : nat) (f : Job -> Job) : M Desktop E unit :=
  update (fun q => set_jobs (alter f i (q_jobs q)) q).

Definition field (v : Value) (name : string) : result fault string :=
  match as_str (vindex v name) with
  | Some s =>
      if bounded_name 256 s then Ok s
      else Err (Rpc (rpc_error "INVALID_PARAMS" (name +:+ " must be 1..256 bytes")))
  | None => Err (Rpc (rpc_error "INVALID_PARAMS" (name +:+ " must be 1..256 bytes")))
  end.

Definition one_of (names : list string) (s : string) : bool := existsb (String.eqb s) names.

Definition validate_recovery_inspection_params (action : string) (params : Value) : result fault unit :=
  if negb (String.eqb action "ui.native-inspect") then
    Err (Rpc (rpc_error "RECOVERY_INSPECT_ACTION_INVALID" "recovery inspection only admits ui.native-inspect"))
  else match as_object params with
  | None => Err (Rpc (rpc_error "INVALID_PARAMS" "input must be an object"))
  | Some object =>
      if existsb (fun kv => negb (one_of ["applicationPath"; "requestPermission"; "recoveryInspection"] kv.1)) object
         || negb (eq_bool (vindex params "recoveryInspection") true)
         || negb (eq_bool (vindex params "requestPermission") false)
         || match as_str (vindex params "applicationPath") with Some s => str_is_empty s | None => true end
      then Err (Rpc (rpc_error "RECOVERY_INSPECT_PARAMS_INVALID"
             "only applicationPath, recoveryInspection=true, and requestPermission=false are allowed"))
      else Ok tt
  end.

Definition protected (action : string) : bool :=
  String.eqb action "computer-use.call"
  || String.eqb action "computer-use.tools"
  || starts_with "application." action
  || starts_with "ui." action
  || String.eqb action "clipboard.write".

(** [DesktopQueue::save] *)
Definition save : M Desktop fault unit :=
  let* q := the_queue in
  if q_path q then
    let* _ := new_v4 in
    let* ok := io_outcome in
    if ok : bool
    then modify (fun d => mkDesktop (queue d) (Some (image (queue d))) (nodes d))
    else error "DESKTOP_STATE_FAILED" ""
  else ret tt.

Definition holding (j : Job) : bool := one_of ["active"; "draining"] (job_state j).

(** [DesktopQueue::active] *)
Definition active (q : DesktopQueue) : option nat := position holding (q_jobs q).

Definition os_restarted (old current : option string) : bool :=
  match old, current with Some a, Some b => negb (String.eqb a b) | _, _ => false end.

(** [DesktopQueue::open_with_boot_id]. [path.exists()] is false also when the file cannot be looked at. *)
Definition open_with_boot_id (boot_id : option string) : M Desktop fault unit :=
  let* d := get in
  let* seen := io_outcome in
  let* q := match durable d with
    | Some stored =>
        if seen : bool then
          let* ok := io_outcome in
          if ok : bool then ret stored else error "DESKTOP_STATE_FAILED" ""
        else ret DesktopQueue_default
    | None => ret DesktopQueue_default
    end in
  let q := set_transient true false 0 0 q in
  let restarted := os_restarted (q_boot_id q) boot_id in
  let interrupted := q_in_flight q || existsb holding (q_jobs q) in
  let* q :=
    if restarted then
      let retired := length (List.filter holding (q_jobs q)) in
      let jobs := (fun j => if holding j then set_state "interrupted" j else j) <$> q_jobs q in
      let* last_recovery :=
        if q_blocked q || interrupted then
          let* now := now_ms in
          ret (Some (obj_of [("reason", VString "os_restart"); ("observedAt", vu64 now);
                 ("interruptedSessions", vu64 (Z.of_nat retired)); ("inputReplayed", VBool false)]))
        else ret (q_last_recovery q) in
      ret (set_in_flight false (set_blocked false (set_last_recovery last_recovery (set_jobs jobs q))))
    else if interrupted then ret (set_in_flight false (set_blocked true q))
    else ret q in
  let q := match boot_id with Some _ => set_boot_id boot_id q | None => q end in
  update (fun _ => q) ;;
  save.

(** [job.expires_at <= now_ms() || job.deadline_at.is_some_and(|at| at <= now_ms())] *)
Definition past_deadline {S E} (j : Job) : M S E bool :=
  match job_deadline_at j with
  | Some at_ => let* now := now_ms in ret (at_ <=? now)
  | None => ret false
  end.
Definition job_over {S E} (j : Job) : M S E bool :=
  let* now := now_ms in
  if job_expires_at j <=? now then ret true else past_deadline j.

Definition job_at {S} (q : DesktopQueue) (i : nat) : M S fault Job := lift (ok_or (q_jobs q !! i) Panics).

(** [DesktopQueue::needs_cleanup] *)
Definition needs_cleanup : M Desktop fault bool :=
  let* q := the_queue in
  if q_in_flight q then ret false
  else match active q with
  | Some i =>
      let* j := job_at q i in
      let* over := job_over j in
      (if over : bool then update_job i (set_state "draining") else ret tt) ;;
      let* q := the_queue in
      let* j := job_at q i in
      ret (String.eqb (job_state j) "draining")
  | None => ret false
  end.

Definition availability_snapshot (q : DesktopQueue) (n : Node) : option Value :=
  if q_path q then
    match node_availability n with
    | Some (len, Some v) => if len <=? 4096 then Some v else None
    | _ => None
    end
  else None.

(** [DesktopQueue::availability] *)
Definition availability : M Desktop fault Value :=
  let* q := the_queue in
  let* n := read_node in
  let snapshot := availability_snapshot q n in
  let* now := now_ms in
  let available := match snapshot with Some v => snapshot_allows_input v now | None => false end in
  ret (obj_of [("available", VBool available); ("snapshot", vopt id snapshot);
         ("policy", obj_of [("maxAgeMs", vu64 AVAILABILITY_MAX_AGE_MS);
                            ("maxLifetimeMs", vu64 AVAILABILITY_MAX_LIFETIME_MS)])]).

(** [self.availability()["available"] == true] *)
Definition available : M Desktop fault bool :=
  let* v := availability in ret (eq_bool (vindex v "available") true).

(** [DesktopQueue::refresh_availability_policy] *)
Definition refresh_availability_policy : M Desktop fault unit :=
  let* q := the_queue in
  if q_availability_required q then ret tt
  else if q_path q then
    let* n := read_node in
    if node_availability_present n then update (set_availability_required true) ;; save else ret tt
  else ret tt.

(** [m1 && m2] *)
Definition and_then {S E} (m1 m2 : M S E bool) : M S E bool :=
  let* b := m1 in if b : bool then m2 else ret false.

Section Queue.
(** [hex::encode(Sha256::digest(_))], [uuid::Uuid::parse_str(_).is_ok()], [geteuid()]. *)
Context (sha256_hex : string -> string) (uuid_parses : string -> bool) (geteuid : Z).

(** The checks of the receipt's content in [DesktopQueue::user_authorization]. *)
Definition receipt_grants (q : DesktopQueue) (job : Job) (value : Value) (now granted expires : Z)
    : bool :=
  eq_int (vindex value "schemaVersion") 1
  && eq_str (vindex value "source") "explicit-user"
  && eq_str (vindex value "jobId") (job_id job)
  && eq_str (vindex value "owner") (job_owner job)
  && eq_str (vindex value "requestKey") (job_request_key job)
  && eq_str (vindex value "tokenSha256") (sha256_hex (job_token job))
  && bool_decide (as_str (vindex value "bootId") = q_boot_id q)
  && bool_decide (is_Some (q_boot_id q))
  && (granted <=? now)
  && (now <? expires)
  && (u64_saturating_sub expires granted <=? 900000)
  && match as_str (vindex value "authorizationId") with Some s => uuid_parses s | None => false end
  && match as_str (vindex value "reason") with Some s => bounded_name 512 s | None => false end.

(** [DesktopQueue::user_authorization] on Unix *)
Definition user_authorization (job : Job) : M Desktop fault (option Value) :=
  let* q := the_queue in
  if negb (one_of ["queued"; "active"] (job_state job)) then ret None
  else if negb (q_path q) then ret None
  else
    let* n := read_node in
    match node_receipt n with
    | None => ret None
    | Some metadata =>
        if negb (rf_is_file metadata)
           || (4096 <? rf_len metadata)
           || negb (Z.land (rf_mode metadata) 511 =? 384)
           || negb (rf_uid metadata =? geteuid)
        then ret None
        else
          let* n := read_node in
          match match node_receipt n with Some f => rf_json f | None => None end with
          | None => ret None
          | Some value =>
              let* now := now_ms in
              match as_u64 (vindex value "grantedAtMs"), as_u64 (vindex value "expiresAtMs") with
              | Some granted, Some expires =>
                  if receipt_grants q job value now granted expires
                  then ret (Some (obj_of [("source", VString "explicit-user");
                              ("authorizationId", vindex value "authorizationId");
                              ("grantedAtMs", vu64 granted); ("expiresAtMs", vu64 expires)]))
                  else ret None
              | _, _ => ret None
              end
          end
    end.

(** [iter().position(p)] for a predicate that reads the environment. *)
Fixpoint position_m {S E A} (p : A -> M S E bool) (l : list A) : M S E (option nat) :=
  match l with
  | [] => ret None
  | x :: l' =>
      let* b := p x in
      if b : bool then ret (Some O) else let* r := position_m p l' in ret (option_map Datatypes.S r)
  end.

Definition queued (j : Job) : bool := String.eqb (job_state j) "queued".

Definition expire_queued (now : Z) (j : Job) : Job :=
  if queued j && match job_deadline_at j with Some at_ => at_ <=? now | None => false end
  then set_state "expired" j else j.

(** The gate of the availability policy for a job. *)
Definition gated (q : DesktopQueue) (j : Job) : bool :=
  job_requires_availability j || q_availability_required q.

Definition authorized (j : Job) : M Desktop fault bool :=
  let* receipt := user_authorization j in ret (bool_decide (is_Some receipt)).

(** The choice of [candidate] in [DesktopQueue::promote]. *)
Definition candidate (available : bool) : M Desktop fault (option nat) :=
  let* q := the_queue in
  let head :=
    match position queued (q_jobs q) with
    | Some i =>
        match q_jobs q !! i with
        | Some j => if negb (gated q j) || available then Some i else None
        | None => None
        end
    | None => None
    end in
  match head with
  | Some i => ret (Some i)
  | None => position_m (fun j => and_then (ret (queued j)) (authorized j)) (q_jobs q)
  end.

(** [DesktopQueue::promote] *)
Definition admits_promotion (q : DesktopQueue) : bool :=
  bool_decide (q_maintenance_owner q = None) && negb (q_blocked q) && negb (q_in_flight q)
  && bool_decide (active q = None).

Definition activate (i : nat) : M Desktop fault unit :=
  let* q := the_queue in
  let* old_job := job_at q i in
  let epoch := u64_add (q_epoch q) 1 in
  let* now := now_ms in
  let job := set_grant epoch (u64_saturating_add now (job_ttl_ms old_job)) (set_state "active" old_job) in
  update (fun _ => set_epoch epoch (set_jobs (<[i := job]> (q_jobs q)) q)) ;;
  let* saved := attempt save in
  match saved with
  | Ok _ => ret tt
  | Err e =>
      update (fun q =>
        let q := set_epoch ((q_epoch q - 1) mod (U64_MAX + 1)) q in
        match position (fun j => String.eqb (job_id j) (job_id old_job)) (q_jobs q) with
        | Some k => set_jobs (<[k := old_job]> (q_jobs q)) q
        | None => q
        end) ;;
      fail e
  end.

Definition promote : M Desktop fault unit :=
  let* q := the_queue in
  if q_recovery_inspection_active q then ret tt
  else
    refresh_availability_policy ;;
    let* now := now_ms in
    let* q := the_queue in
    let jobs := expire_queued now <$> q_jobs q in
    let expired := existsb (fun j =>
      queued j && match job_deadline_at j with Some at_ => at_ <=? now | None => false end) (q_jobs q) in
    update (set_jobs jobs) ;;
    (if expired then save else ret tt) ;;
    let* available := available in
    let* candidate := candidate available in
    let* q := the_queue in
    match candidate with
    | Some i => if admits_promotion q then activate i else ret tt
    | None => ret tt
    end.

(** [DesktopQueue::cleanup_done] *)
Definition cleanup_done (success : bool) : M Desktop fault unit :=
  (if success then
     let* q := the_queue in
     match active q with
     | Some i =>
         let* j := job_at q i in
         if q_blocked q then update_job i (set_state "interrupted")
         else
           let* now := now_ms in
           update_job i (set_state (if job_expires_at j <=? now then "expired" else "completed"))
     | None => ret tt
     end
   else update (set_blocked true)) ;;
  save ;;
  promote.

(** [DesktopQueue::worker_reconcile] *)
Definition worker_reconcile (notification : bool) : M Desktop fault unit :=
  update (fun q =>
    if notification
    then set_transient (q_path q) (q_recovery_inspection_active q)
           (u64_saturating_add (q_notification_wakes q) 1) (q_polling_wakes q) q
    else set_transient (q_path q) (q_recovery_inspection_active q)
           (q_notification_wakes q) (u64_saturating_add (q_polling_wakes q) 1) q) ;;
  promote.

(** [serde_json::to_value(job)] *)
Definition job_json (j : Job) : Value :=
  obj_of [("id", VString (job_id j)); ("owner", VString (job_owner j));
    ("requestKey", VString (job_request_key j)); ("token", VString (job_token j));
    ("state", VString (job_state j)); ("epoch", vu64 (job_epoch j)); ("ttlMs", vu64 (job_ttl_ms j));
    ("submittedAt", vu64 (job_submitted_at j)); ("expiresAt", vu64 (job_expires_at j));
    ("requiresAvailability", VBool (job_requires_availability j));
    ("deadlineAt", vopt vu64 (job_deadline_at j)); ("claimedBy", vopt VString (job_claimed_by j))].

(** [value[key] = v], which panics when [value] is neither an object nor null. *)
Definition assign {S} (key : string) (v value : Value) : M S fault Value :=
  lift (ok_or (vindex_set key v value) Panics).

(** [DesktopQueue::job_value] *)
Definition job_value (job : Job) : M Desktop fault Value :=
  let* q := the_queue in
  let value := job_json job in
  let* receipt := user_authorization job in
  let* value := match receipt with
    | Some r => assign "userAuthorization" r value
    | None => ret value
    end in
  if gated q job then
    let* value := assign "requiresAvailability" (VBool true) value in
    let* allowed :=
      and_then (ret (String.eqb (job_state job) "active" && negb (q_blocked q)))
        (and_then (let* now := now_ms in ret (now <? job_expires_at job))
          (and_then (let* past := past_deadline job in ret (negb past))
            (let* a := available in ret (a || bool_decide (is_Some receipt))))) in
    assign "inputAllowed" (VBool allowed) value
  else ret value.

Definition obj_remove (k : string) (m : list (string * Value)) : list (string * Value) :=
  List.filter (fun kv => negb (String.eqb kv.1 k)) m.

Definition job_terminal (j : Job) : bool :=
  one_of ["completed"; "cancelled"; "expired"; "interrupted"] (job_state j).

(** The arm ["desktop.list"] of [DesktopQueue::command] *)
Definition desktop_list (params : Value) : M Desktop fault Value :=
  let* include_terminal := match vget "includeTerminal" params with
    | None => ret true
    | Some (VBool b) => ret b
    | Some _ => error "INVALID_PARAMS" "includeTerminal must be a boolean"
    end in
  let* q := the_queue in
  let history_count := length (List.filter job_terminal (q_jobs q)) in
  let* jobs := map_m (fun j =>
      let* value := job_value j in
      let* object := lift (ok_or (as_object value) Panics) in
      ret (VObject (obj_remove "token" object)))
    (List.filter (fun j => include_terminal || negb (job_terminal j)) (q_jobs q)) in
  let* availability := availability in
  ret (obj_of [("jobs", VArray jobs); ("historyCount", vu64 (Z.of_nat history_count));
    ("totalCount", vu64 (Z.of_nat (length (q_jobs q)))); ("historyIncluded", VBool include_terminal);
    ("availabilityRequired", VBool (q_availability_required q));
    ("worker", obj_of [("notificationWakes", vu64 (q_notification_wakes q));
                       ("pollingWakes", vu64 (q_polling_wakes q))]);
    ("availability", availability); ("blocked", VBool (q_blocked q));
    ("inFlight", VBool (q_in_flight q)); ("lastRecovery", vopt id (q_last_recovery q));
    ("recoveryPolicy", VString "verified-os-restart-or-explicit-desktop-reset");
    ("maintenanceOwner", vopt VString (q_maintenance_owner q));
    ("safePoint", VBool (bool_decide (is_Some (q_maintenance_owner q)) && negb (q_blocked q)
                         && negb (q_in_flight q) && bool_decide (active q = None)))]).

(** The arm ["desktop.maintenance"]; its recursive call is [promote] and the listing. *)
Definition desktop_maintenance (params : Value) : M Desktop fault Value :=
  let* owner := lift (field params "owner") in
  let* enabled := match as_bool (vindex params "enabled") with
    | Some b => ret b
    | None => error "INVALID_PARAMS" "enabled is required"
    end in
  let* q := the_queue in
  if match q_maintenance_owner q with Some current => negb (String.eqb current owner) | None => false end
  then error "MAINTENANCE_OWNED" "another operator owns desktop maintenance"
  else
    update (set_maintenance_owner (if enabled : bool then Some owner else None)) ;;
    save ;;
    promote ;;
    promote ;;
    desktop_list (obj_of [("includeTerminal", VBool false)]).

Definition same_request (owner key : string) (j : Job) : bool :=
  String.eqb (job_owner j) owner && String.eqb (job_request_key j) key.

(** The arm ["desktop.submit"]: a request that is not in the queue yet *)
Definition submit_new (owner key : string) (params : Value) : M Desktop fault Value :=
  let* q := the_queue in
  if 10000 <=? Z.of_nat (length (q_jobs q))
  then error "DESKTOP_QUEUE_FULL" "archive completed sessions before submitting more"
  else
    let ttl := default 900000 (as_u64 (vindex params "ttlMs")) in
    if negb ((1000 <=? ttl) && (ttl <=? 3600000))
    then error "INVALID_PARAMS" "ttlMs must be 1000..3600000"
    else
      let* requires_availability := match vget "requiresAvailability" params with
        | None => ret false
        | Some (VBool value) => ret value
        | Some _ => error "INVALID_PARAMS" "requiresAvailability must be boolean"
        end in
      let* deadline_at := match vget "deadlineAt" params with
        | None => ret None
        | Some value =>
            match as_u64 value with
            | Some at_ =>
                let* now := now_ms in
                if now <? at_ then ret (Some at_)
                else error "INVALID_PARAMS" "deadlineAt must be a future epoch millisecond"
            | None => error "INVALID_PARAMS" "deadlineAt must be a future epoch millisecond"
            end
        end in
      let* id := new_v4 in
      let* token := new_v4 in
      let* now := now_ms in
      let job := mkJob id owner key token "queued" 0 ttl now 0
                   (requires_availability || q_availability_required q) deadline_at None in
      update (fun q => set_jobs (q_jobs q ++ [job]) q) ;;
      save ;;
      promote ;;
      let* q := the_queue in
      let* job := lift (ok_or (last (q_jobs q)) Panics) in
      job_value job.

(** The arm ["desktop.submit"] *)
Definition desktop_submit (params : Value) : M Desktop fault Value :=
  let* owner := lift (field params "owner") in
  let* key := lift (field params "requestKey") in
  let* q := the_queue in
  match List.find (same_request owner key) (q_jobs q) with
  | Some job => job_value job
  | None => submit_new owner key params
  end.

Definition credentials (owner token : string) (j : Job) : bool :=
  String.eqb (job_owner j) owner && String.eqb (job_token j) token.

Definition find_session (owner token : string) : M Desktop fault nat :=
  let* q := the_queue in
  match position (credentials owner token) (q_jobs q) with
  | Some i => ret i
  | None => error "DESKTOP_SESSION_INVALID" "unknown session credentials"
  end.

(** The arm ["desktop.claim"] *)
Definition desktop_claim (params : Value) : M Desktop fault Value :=
  let* owner := lift (field params "owner") in
  let* token := lift (field params "token") in
  let* consumer := lift (field params "consumerId") in
  let* provided := available in
  let* i := find_session owner token in
  let* q := the_queue in
  let* job := job_at q i in
  let* allowed := if provided : bool then ret true else authorized job in
  let* inactive :=
    if q_blocked q || negb (String.eqb (job_state job) "active") then ret true else job_over job in
  if inactive : bool then error "DESKTOP_SESSION_INACTIVE" "consumer requires a live active session"
  else if gated q job && negb allowed
  then error "DESKTOP_UNAVAILABLE" "local availability permission is absent or expired"
  else if match job_claimed_by job with Some c => negb (String.eqb c consumer) | None => false end
  then error "DESKTOP_ALREADY_CLAIMED" "another consumer has claimed this request; no replay"
  else
    update_job i (set_claimed_by (Some consumer)) ;;
    let* saved := attempt save in
    match saved with
    | Err e => update_job i (set_claimed_by (job_claimed_by job)) ;; fail e
    | Ok _ => ret (obj_of [("claimed", VBool true); ("id", VString (job_id job))])
    end.

(** The arm ["desktop.get" | "desktop.renew" | "desktop.finish" | "desktop.cancel"] *)
Definition desktop_session (action : string) (params : Value) : M Desktop fault Value :=
  let* token := lift (field params "token") in
  let* owner := lift (field params "owner") in
  let* i := find_session owner token in
  let* q := the_queue in
  let* job := job_at q i in
  (if String.eqb action "desktop.renew" then
     let* inactive :=
       if negb (String.eqb (job_state job) "active") then ret true
       else let* over := job_over job in ret (over || q_blocked q) in
     if inactive : bool then error "DESKTOP_SESSION_INACTIVE" "only a live active session can renew"
     else
       let* now := now_ms in
       update_job i (set_grant (job_epoch job) (u64_saturating_add now (job_ttl_ms job)))
   else if one_of ["desktop.finish"; "desktop.cancel"] action then
     if String.eqb (job_state job) "queued" then update_job i (set_state "cancelled")
     else if String.eqb (job_state job) "active" then update_job i (set_state "draining")
     else ret tt
   else ret tt) ;;
  let* q := the_queue in
  let* job := job_at q i in
  let* value := job_value job in
  (if negb (String.eqb action "desktop.get") then save else ret tt) ;;
  ret value.

(** The arm ["desktop.recover"] *)
Definition desktop_recover (params : Value) : M Desktop fault Value :=
  let* q := the_queue in
  if negb (q_blocked q) || q_in_flight q || negb (eq_bool (vindex params "confirmDesktopReset") true)
  then error "DESKTOP_RECOVERY_REQUIRED" "reset native helpers/desktop first, then confirmDesktopReset"
  else
    match active q with
    | Some i => update_job i (set_state "interrupted")
    | None => ret tt
    end ;;
    update (set_blocked false) ;;
    save ;;
    promote ;;
    ret (obj_of [("recovered", VBool true)]).

(** [DesktopQueue::command] *)
Definition command (action : string) (params : Value) : M Desktop fault Value :=
  let* q := the_queue in
  if q_recovery_inspection_active q && negb (one_of ["desktop.list"; "desktop.get"] action)
  then error "DESKTOP_RECOVERY_INSPECT_BUSY" "queue mutation is unavailable during recovery inspection"
  else
    promote ;;
    if String.eqb action "desktop.maintenance" then desktop_maintenance params
    else if String.eqb action "desktop.submit" then desktop_submit params
    else if String.eqb action "desktop.list" then desktop_list params
    else if String.eqb action "desktop.claim" then desktop_claim params
    else if one_of ["desktop.get"; "desktop.renew"; "desktop.finish"; "desktop.cancel"] action
    then desktop_session action params
    else if String.eqb action "desktop.recover" then desktop_recover params
    else error "UNKNOWN_ACTION" action.

(** [DesktopQueue::begin_recovery_inspection], [DesktopQueue::end_recovery_inspection] *)
Definition set_inspection (b : bool) (q : DesktopQueue) : DesktopQueue :=
  set_transient (q_path q) b (q_notification_wakes q) (q_polling_wakes q) q.

Definition begin_recovery_inspection (action : string) (params : Value) : M Desktop fault unit :=
  lift (validate_recovery_inspection_params action params) ;;
  let* q := the_queue in
  if q_recovery_inspection_active q
  then error "DESKTOP_RECOVERY_INSPECT_BUSY" "another recovery inspection is active"
  else if negb (q_blocked q) || q_in_flight q
  then error "DESKTOP_RECOVERY_REQUIRED"
         "recovery inspection requires a blocked queue with no in-flight action"
  else update (set_inspection true).

Definition end_recovery_inspection : M Desktop fault unit := update (set_inspection false).

(** The decimal digits of a [u64], for [format!("{}:{}", ..)]. *)
Definition decimal (n : Z) : string := pretty n.

(** The admission of an action in [DesktopQueue::begin]; the [params] it may rewrite are returned. *)
Definition admission (action : string) (params : Value) : M Desktop fault Value :=
  let* q := the_queue in
  match active q with
  | Some i =>
      let* job := job_at q i in
      let* draining := if negb (String.eqb (job_state job) "active") then ret true else job_over job in
      if draining : bool then error "DESKTOP_DRAINING" "previous session is draining"
      else
        let desktop := vindex params "_desktop" in
        if negb (eq_str (vindex desktop "token") (job_token job))
           || negb (eq_str (vindex desktop "owner") (job_owner job))
        then error "DESKTOP_BUSY" "desktop belongs to another acceptance session"
        else
          let* refused :=
            and_then (ret (gated q job))
              (and_then (let* a := available in ret (negb a))
                        (let* a := authorized job in ret (negb a))) in
          if refused : bool
          then error "DESKTOP_UNAVAILABLE"
                 "local availability permission is absent or expired; no desktop action dispatched"
          else if String.eqb action "computer-use.call"
          then assign "sessionId" (VString (job_id job +:+ ":" +:+ decimal (job_epoch job))) params
          else ret params
  | None =>
      if bool_decide (is_Some (q_maintenance_owner q))
      then error "DESKTOP_MAINTENANCE" "desktop admission is paused for maintenance"
      else if q_availability_required q || String.eqb action "computer-use.call"
              || bool_decide (is_Some (vget "_desktop" params))
      then error "DESKTOP_SESSION_REQUIRED" "submit and await a desktop session first"
      else ret params
  end.

(** [DesktopQueue::begin] *)
Definition begin (action : string) (params : Value) : M Desktop fault Value :=
  let* q := the_queue in
  if q_blocked q
  then error "DESKTOP_RECOVERY_REQUIRED" "desktop outcome is uncertain; explicit reset required"
  else if q_in_flight q then error "DESKTOP_BUSY" "desktop action is already in flight"
  else
    refresh_availability_policy ;;
    let* params := admission action params in
    update (set_in_flight true) ;;
    save ;;
    ret params.

(** [DesktopQueue::end] *)
Definition end_ (uncertain : bool) : M Desktop fault unit :=
  update (set_in_flight false) ;;
  update (fun q => set_blocked (q_blocked q || uncertain) q) ;;
  save.

End Queue.
