(* ===== verification/DesktopSystem.v ===== *)
(** * The desktop queue as a system of threads

    The executor runs the operations of [Desktop] under one mutex; a second
    mutex ([desktop_execution] in [executor.rs]) is held while an action runs
    and while helpers are cleaned up. [desk_step] is the interleaving of all
    of them with crashes. Invariants of the queue are instances of
    [QueueInvariant]; every operation preserves them, once and for all. *)
From stdpp Require Import base gmap strings list.
From S2P Require Import Prelude Json Protocol Desktop.
Open Scope Z_scope.
Open Scope fabric_scope.

(** ** What an invariant of the queue must survive *)

Class QueueInvariant (R : DesktopQueue -> Prop) : Prop := mkQueueInvariant {
  inv_transient q a b c d : R q -> R (set_transient a b c d q);
  inv_required q : R q -> R (set_availability_required true q);
  inv_maintenance q o : R q -> R (set_maintenance_owner o q);
  inv_block q : R q -> R (set_blocked true q);
  inv_expire q now : R q -> R (set_jobs (expire_queued now <$> q_jobs q) q);
  inv_release q i s : R q -> one_of ["active"; "draining"] s = false ->
    R (set_jobs (alter (set_state s) i (q_jobs q)) q);
  inv_drain q i j : R q -> q_jobs q !! i = Some j -> holding j = true ->
    R (set_jobs (alter (set_state "draining") i (q_jobs q)) q);
  inv_extend q i e x : R q -> R (set_jobs (alter (set_grant e x) i (q_jobs q)) q);
  inv_claim q i c : R q -> R (set_jobs (alter (set_claimed_by c) i (q_jobs q)) q);
  inv_submit q j : R q -> holding j = false -> R (set_jobs (q_jobs q ++ [j]) q);
  inv_grant q i j e x : R q -> active q = None -> q_jobs q !! i = Some j ->
    R (set_epoch e (set_jobs (<[i := set_grant e x (set_state "active" j)]> (q_jobs q)) q));
  inv_epoch q e : R q -> R (set_epoch e q);
  inv_restore q i j : R q -> holding j = false -> R (set_jobs (<[i := j]> (q_jobs q)) q);
}.

(** An invariant that also survives [desktop.recover]. *)
Class SurvivesRecovery (R : DesktopQueue -> Prop) : Prop :=
  inv_unblock q : R q -> q_in_flight q = false -> R (set_blocked false q).

(** No job holds the desktop where [active] finds none. *)
Lemma active_None q i j : active q = None -> q_jobs q !! i = Some j -> holding j = false.
Proof. unfold active. intros H Hj. eapply position_None; [exact H|]. by eapply list_elem_of_lookup_2. Qed.

Lemma active_Some q i : active q = Some i -> exists j, q_jobs q !! i = Some j /\ holding j = true.
Proof. intros (j & Hj & Hh & _)%position_Some. eauto. Qed.

Section Preserved.
Context (sha256_hex : string -> string) (uuid_parses : string -> bool) (geteuid : Z).
(** [R] holds of the queue in memory, [D] of its image on disk. *)
Context (R : DesktopQueue -> Prop) (D : option DesktopQueue -> Prop) `{HR : !QueueInvariant R}.
Context (HD : forall q, R q -> D (Some (image q))).

Definition held (d : Desktop) (_ : World) : Prop :=
  q_path (queue d) = true /\ R (queue d) /\ D (durable d).

#[local] Instance held_stable : Stable held.
Proof. by intros s w w' H _. Qed.

Lemma keeps_update f :
  (forall q, q_path q = true -> q_path (f q) = true) -> (forall q, R q -> R (f q)) ->
  keeps (E := fault) held (update f).
Proof. intros Hp Hf [q du n] w (H1 & H2 & H3). split; [by apply Hp|]. split; [by apply Hf|done]. Qed.

Lemma keeps_read_node : keeps (E := fault) held read_node.
Proof. by intros [q du n] w H. Qed.

Lemma keeps_save : keeps held save.
Proof.
  unfold save. keeps. apply keeps_modify. intros [q du n] w (H1 & H2 & H3).
  split; [done|]. split; [done|]. by apply HD.
Qed.

#[local] Hint Resolve keeps_read_node keeps_save : fabric.

Lemma keeps_update_job f i :
  (forall q, R q -> R (set_jobs (alter f i (q_jobs q)) q)) -> keeps (E := fault) held (update_job i f).
Proof. intros H. by apply keeps_update. Qed.

Lemma keeps_refresh : keeps held refresh_availability_policy.
Proof. unfold refresh_availability_policy. keeps. apply keeps_update; [done|]. apply inv_required. Qed.

Lemma keeps_availability : keeps held availability.
Proof. unfold availability, the_queue. keeps. Qed.

Lemma keeps_available : keeps held available.
Proof. unfold available. keeps. Qed.

Lemma keeps_user_authorization j :
  keeps held (user_authorization sha256_hex uuid_parses geteuid j).
Proof. unfold user_authorization, the_queue. keeps. Qed.

Lemma keeps_authorized j : keeps held (authorized sha256_hex uuid_parses geteuid j).
Proof. unfold authorized. keeps. Qed.

#[local] Hint Resolve keeps_refresh keeps_availability keeps_available keeps_user_authorization
  keeps_authorized : fabric.

Lemma keeps_position_m {A} (p : A -> M Desktop fault bool) l :
  (forall x, keeps held (p x)) -> keeps held (position_m p l).
Proof. intros Hp. induction l as [|x l IH]; cbn; keeps. Qed.

Lemma keeps_candidate a : keeps held (candidate sha256_hex uuid_parses geteuid a).
Proof.
  unfold candidate, the_queue. keeps; apply keeps_position_m; intros x; unfold and_then; keeps.
Qed.

(** The activation itself, where no job holds the desktop. *)
Lemma wp_activate i d w :
  held d w -> active (queue d) = None ->
  wp (activate i) (fun _ d' w' => held d' w') d w.
Proof.
  intros (Hp & HRq & Hd) Hact. unfold activate, the_queue, job_at. apply wp_bind. cbn.
  apply wp_bind. unfold wp at 1, lift. destruct (q_jobs (queue d) !! i) as [j|] eqn:Hj; cbn; [|done].
  assert (Hq : holding j = false) by (by eapply active_None).
  apply wp_bind. cbn. apply wp_bind. cbn. apply wp_bind, wp_attempt.
  eapply wp_mono; [apply keeps_save|].
  - split; [done|]. split; [by apply inv_grant|done].
  - cbn. intros [[]|e] d1 w1 H1; [done|]. apply wp_bind.
    eapply wp_mono; [eapply keeps_update; [| |exact H1]|by intros [[]|] ? ?].
    + intros q. cbv zeta. by case_match.
    + intros q HRq'. cbv zeta. case_match; [|by apply inv_epoch].
      apply (inv_restore (set_epoch _ q)); [by apply inv_epoch|done].
Qed.

Lemma keeps_promote : keeps held (promote sha256_hex uuid_parses geteuid).
Proof.
  unfold promote, the_queue.
  apply keeps_bind; [apply keeps_gets|]. intros q0. case_match; [apply keeps_ret|].
  apply keeps_bind; [apply keeps_refresh|]. intros _.
  apply keeps_bind; [apply keeps_now_ms; exact _|]. intros now.
  apply keeps_gets_bind. intros d w Hh. apply wp_bind.
  apply (wp_mono _ (fun _ d' w' => held d' w')).
  - destruct Hh as (H1 & H2 & H3). split; [done|]. split; [|done]. by apply inv_expire.
  - intros [[]|e] d1 w1 H1; [|exact H1].
    revert d1 w1 H1. apply keeps_bind; [by case_match; [apply keeps_save|apply keeps_ret]|]. intros _.
    apply keeps_bind; [apply keeps_available|]. intros a.
    apply keeps_bind; [apply keeps_candidate|]. intros c.
    apply keeps_gets_bind. intros d1 w1 H1. destruct c as [i|]; [|done].
    destruct (admits_promotion (queue d1)) eqn:Ha; [|done]. apply wp_activate; [done|].
    unfold admits_promotion in Ha. by bool_prop.
Qed.

#[local] Hint Resolve keeps_promote : fabric.

(** Draining the session that was seen to hold the desktop. *)
Lemma held_drain d w i j :
  held d w -> q_jobs (queue d) !! i = Some j -> holding j = true ->
  held (on_queue (fun q => set_jobs (alter (set_state "draining") i (q_jobs q)) q) d) w.
Proof. intros (H1 & H2 & H3) Hj Hh. split; [done|]. split; [by eapply inv_drain|done]. Qed.

(** Clock readings change nothing but the world. *)
Definition only_clock {A} (m : M Desktop fault A) : Prop :=
  forall d w, wp m (fun _ d' _ => d' = d) d w.

Lemma only_clock_past j : only_clock (past_deadline j).
Proof. intros d w. unfold past_deadline. by destruct (job_deadline_at j). Qed.

Lemma only_clock_over j : only_clock (job_over j).
Proof.
  intros d w. apply wp_bind. cbn. case_match; [done|]. apply only_clock_past.
Qed.

Lemma keeps_job_over j : keeps (E := fault) held (job_over j).
Proof. unfold job_over, past_deadline. keeps. Qed.
#[local] Hint Resolve keeps_job_over : fabric.

Lemma keeps_needs_cleanup : keeps held needs_cleanup.
Proof.
  unfold needs_cleanup, the_queue. apply keeps_gets_bind. intros d w Hd. case_match; [done|].
  destruct (active (queue d)) as [i|] eqn:Ha; [|done].
  destruct (active_Some _ _ Ha) as (j & Hj & Hh). unfold job_at. rewrite Hj.
  apply wp_bind. cbn. apply wp_bind. eapply wp_mono; [apply only_clock_over|].
  intros [over|e] d1 w1 ->; [|done]. apply wp_bind. apply (wp_mono _ (fun _ d' w' => held d' w')).
  - destruct over; [by eapply held_drain|done].
  - intros [[]|e] d2 w2 H2; [|done]. revert d2 w2 H2. keeps.
Qed.

Lemma keeps_release i st :
  one_of ["active"; "draining"] st = false -> keeps (E := fault) held (update_job i (set_state st)).
Proof. intros Hst. apply keeps_update_job. intros q Hq. by apply inv_release. Qed.

Lemma keeps_cleanup_done b : keeps held (cleanup_done sha256_hex uuid_parses geteuid b).
Proof.
  unfold cleanup_done, the_queue, job_at. keeps; try (by apply keeps_release).
  apply keeps_update; [done|]. apply inv_block.
Qed.

Lemma keeps_worker_reconcile b : keeps held (worker_reconcile sha256_hex uuid_parses geteuid b).
Proof.
  unfold worker_reconcile. apply keeps_bind; [|intros _; keeps].
  apply keeps_update; intros q Hq; destruct b; try done; by apply inv_transient.
Qed.

Lemma keeps_job_value j : keeps held (job_value sha256_hex uuid_parses geteuid j).
Proof. unfold job_value, the_queue, assign, and_then, past_deadline. keeps. Qed.
#[local] Hint Resolve keeps_job_value : fabric.

Lemma keeps_desktop_list p : keeps held (desktop_list sha256_hex uuid_parses geteuid p).
Proof. unfold desktop_list, the_queue, error. keeps. Qed.
#[local] Hint Resolve keeps_desktop_list : fabric.

Lemma keeps_desktop_maintenance p : keeps held (desktop_maintenance sha256_hex uuid_parses geteuid p).
Proof.
  unfold desktop_maintenance, the_queue, error. keeps; (apply keeps_update; [done|]); intros q Hq; by apply inv_maintenance.
Qed.

Lemma keeps_desktop_submit p : keeps held (desktop_submit sha256_hex uuid_parses geteuid p).
Proof.
  unfold desktop_submit, submit_new, the_queue, error.
  keeps; apply keeps_update; try done; intros q Hq; by apply inv_submit.
Qed.

Lemma keeps_find_session o t : keeps held (find_session o t).
Proof. unfold find_session, the_queue, error. keeps. Qed.
#[local] Hint Resolve keeps_find_session : fabric.

Lemma keeps_desktop_claim p : keeps held (desktop_claim sha256_hex uuid_parses geteuid p).
Proof.
  unfold desktop_claim, the_queue, error, job_at.
  keeps; apply keeps_update_job; intros q Hq; by apply inv_claim.
Qed.

Lemma keeps_desktop_session a p : keeps held (desktop_session sha256_hex uuid_parses geteuid a p).
Proof.
  unfold desktop_session, error.
  apply keeps_bind; [apply keeps_lift|]. intros token. apply keeps_bind; [apply keeps_lift|].
  intros owner. apply keeps_bind; [apply keeps_find_session|]. intros i.
  apply keeps_gets_bind. intros d w Hd. unfold job_at.
  destruct (q_jobs (queue d) !! i) as [j|] eqn:Hj; [|done]. apply wp_bind. cbn. apply wp_bind.
  apply (wp_mono _ (fun _ d' w' => held d' w')).
  - destruct (String.eqb a "desktop.renew").
    + generalize (q_blocked (queue d)) as blk. intros blk. clear Hj. revert d w Hd. keeps.
      apply keeps_update_job. intros q Hq. by apply inv_extend.
    + case_match; [|exact Hd].
      destruct (String.eqb (job_state j) "queued"); [by apply keeps_release|].
      destruct (String.eqb (job_state j) "active") eqn:Hst; [|exact Hd].
      eapply held_drain; [done..|]. unfold holding, one_of. cbn. by rewrite Hst.
  - intros [[]|e] d1 w1 H1; [|done]. revert d1 w1 H1. unfold the_queue. keeps.
Qed.

Lemma keeps_begin_inspection a p : keeps held (begin_recovery_inspection a p).
Proof.
  unfold begin_recovery_inspection, the_queue, error. keeps.
  (apply keeps_update; [done|]); intros q Hq; by apply inv_transient.
Qed.

Lemma keeps_end_inspection : keeps held end_recovery_inspection.
Proof. (apply keeps_update; [done|]); intros q Hq; by apply inv_transient. Qed.

(** Every command but [desktop.recover]. *)
Lemma keeps_command a p :
  a ≠ "desktop.recover" -> keeps held (command sha256_hex uuid_parses geteuid a p).
Proof.
  intros Ha. unfold command, the_queue, error. rewrite (proj2 (String.eqb_neq _ _) Ha).
  apply keeps_bind; [apply keeps_gets|]. intros q. case_match; [apply keeps_fail|].
  apply keeps_bind; [apply keeps_promote|]. intros _.
  repeat (case_match; [first [apply keeps_desktop_maintenance | apply keeps_desktop_submit
    | apply keeps_desktop_list | apply keeps_desktop_claim | apply keeps_desktop_session]|]).
  apply keeps_fail.
Qed.

(** Reports a refusal of [desktop.recover] or what it does. *)
Lemma wp_desktop_recover p d w :
  held d w -> (forall q, R q -> q_in_flight q = false -> R (set_blocked false q)) ->
  wp (desktop_recover sha256_hex uuid_parses geteuid p) (fun _ d' w' => held d' w') d w.
Proof.
  intros Hd Hun. unfold desktop_recover, the_queue. apply wp_bind. cbn.
  destruct (_ || _ || _) eqn:Hc; [done|].
  apply orb_false_iff in Hc as [[_ Hfl]%orb_false_iff _]. apply wp_bind.
  apply (wp_mono _ (fun _ d' w' => held d' w' /\ q_in_flight (queue d') = false)).
  - destruct (active (queue d)) as [i|]; [|done]. split; [|done].
    apply (keeps_release i "interrupted" eq_refl d w Hd).
  - intros [[]|e] d1 w1 [H1 Hf]; [|done]. apply wp_bind. cbn.
    assert (H2 : held (on_queue (set_blocked false) d1) w1).
    { destruct H1 as (? & ? & ?). split; [done|]. split; [by apply Hun|done]. }
    revert H2. generalize (on_queue (set_blocked false) d1). intros d2 H2. clear H1 Hf.
    revert d2 w1 H2. keeps.
Qed.

Lemma keeps_admission a p : keeps held (admission sha256_hex uuid_parses geteuid a p).
Proof.
  unfold admission, the_queue, error, job_at, assign, and_then.
  repeat first [ apply keeps_ret | apply keeps_fail | apply keeps_lift | apply keeps_gets
    | apply keeps_job_over | apply keeps_available | apply keeps_authorized
    | apply keeps_bind; [|intros ?] | progress case_match ].
Qed.

(** [begin], for an invariant that may change when the action is recorded. *)
Lemma wp_begin a p (Q : result fault Value -> Desktop -> World -> Prop) d w :
  held d w ->
  (forall e d' w', held d' w' -> Q (Err e) d' w') ->
  (forall params d' w', held d' w' ->
     wp (update (set_in_flight true) ;; save ;; ret params) Q d' w') ->
  wp (begin sha256_hex uuid_parses geteuid a p) Q d w.
Proof.
  intros Hd He Hk. unfold begin, the_queue, error. apply wp_bind. cbn. do 2 (case_match; [by apply He|]).
  apply wp_bind. eapply wp_mono; [by apply keeps_refresh|]. intros [[]|e] d1 w1 H1; [|by apply He].
  apply wp_bind. eapply wp_mono; [by apply keeps_admission|].
  intros [params|e] d2 w2 H2; [by apply Hk|by apply He].
Qed.

Lemma keeps_command_recover p :
  (forall q, R q -> q_in_flight q = false -> R (set_blocked false q)) ->
  keeps held (command sha256_hex uuid_parses geteuid "desktop.recover" p).
Proof.
  intros Hun. unfold command, the_queue, error. apply keeps_bind; [apply keeps_gets|]. intros q.
  case_match; [apply keeps_fail|]. apply keeps_bind; [apply keeps_promote|]. intros _ d w Hd.
  by apply wp_desktop_recover.
Qed.

End Preserved.

(** ** Three invariants *)

(** At most one job holds the desktop. *)
Definition one_holder (js : list Job) : Prop :=
  forall i j a b, js !! i = Some a -> js !! j = Some b ->
    holding a = true -> holding b = true -> i = j.

Definition single_holder (q : DesktopQueue) : Prop := one_holder (q_jobs q).

(** Fewer holders than before, each where it was. *)
Lemma one_holder_shrink js js' :
  (forall i a', js' !! i = Some a' -> holding a' = true -> exists a, js !! i = Some a /\ holding a = true) ->
  one_holder js -> one_holder js'.
Proof.
  intros Hs H i j a b Ha Hb Hha Hhb.
  destruct (Hs i a Ha Hha) as (a0 & ? & ?), (Hs j b Hb Hhb) as (b0 & ? & ?). eapply H; eauto.
Qed.

Lemma one_holder_alter js f i :
  (forall a, js !! i = Some a -> holding (f a) = true -> holding a = true) ->
  one_holder js -> one_holder (alter f i js).
Proof.
  intros Hf. apply one_holder_shrink. intros k a' Hk Hh.
  destruct (decide (k = i)) as [->|Hne].
  - rewrite list_lookup_alter_eq in Hk. apply fmap_Some in Hk as (a & Ha & ->). eauto.
  - rewrite list_lookup_alter_ne in Hk by done. eauto.
Qed.

Lemma expire_queued_holding now j : holding (expire_queued now j) = true -> holding j = true.
Proof. unfold expire_queued. by case_match. Qed.

#[export] Instance single_holder_invariant : QueueInvariant single_holder.
Proof.
  constructor; unfold single_holder; try done; cbn [q_jobs set_jobs set_epoch].
  - intros q now. apply one_holder_shrink. intros i a' Hi Hh.
    rewrite list_lookup_fmap in Hi. apply fmap_Some in Hi as (a & Ha & ->).
    eauto using expire_queued_holding.
  - intros q i s H Hs. apply one_holder_alter; [|done]. intros a _. unfold holding.
    change (job_state (set_state s a)) with s. congruence.
  - intros q i j H Hj Hh. apply one_holder_alter; [|done]. intros a Ha _. congruence.
  - intros q i e x. by apply one_holder_alter.
  - intros q i c. by apply one_holder_alter.
  - intros q j H Hj. revert H. apply one_holder_shrink. intros i a' Hi Hh.
    apply lookup_app_Some in Hi as [?|[_ Hi]]; [eauto|].
    apply list_lookup_singleton_Some in Hi as [_ <-]. congruence.
  - intros q i j e x _ Hact Hj k l a b Hk Hl Ha Hb.
    assert (forall m c, <[i := set_grant e x (set_state "active" j)]> (q_jobs q) !! m = Some c ->
      holding c = true -> m = i) as Hone; [|by rewrite (Hone k a Hk Ha), (Hone l b Hl Hb)].
    intros m c Hm Hc. destruct (decide (m = i)) as [|Hne]; [done|].
    rewrite list_lookup_insert_ne in Hm by done.
    by rewrite (active_None _ _ _ Hact Hm) in Hc.
  - intros q i j H Hj. revert H. apply one_holder_shrink. intros k a' Hk Hh.
    apply list_lookup_insert_Some in Hk as [(_ & <- & _)|[_ ?]]; [congruence|eauto].
Qed.

(** An action is in flight, or the queue is blocked: nothing but [end], a recovery or a restart
    changes that. *)
#[export] Instance in_flight_invariant : QueueInvariant (fun q => q_in_flight q = true).
Proof. by constructor. Qed.

#[export] Instance blocked_invariant : QueueInvariant (fun q => q_blocked q = true).
Proof. by constructor. Qed.

(** ** The system *)

Inductive Gate := Free | Running | Cleaning.

Record Sys := mkSys { desk : Desktop; gate : Gate; world : World }.

Section System.
Context (sha256_hex : string -> string) (uuid_parses : string -> bool) (geteuid : Z).

Definition run_in {A} (m : M Desktop fault A) (s : Sys) : result fault A * Desktop * World :=
  m (desk s) (world s).

Inductive event :=
| EvCommand (action : string) (params : Value)
| EvWorker (notification : bool)
| EvBegin (action : string) (params : Value)
| EvEnd (uncertain : bool)
| EvCheck
| EvClean (closed : bool)
| EvInspect (action : string) (params : Value)
| EvInspectEnd
| EvRestart (boot_id : option string).

(** One critical section of one thread, or a restart of the executor at any moment. The gate is
    taken by [begin] and by the check for a cleanup, and kept only when they go ahead. *)
Inductive desk_step : event -> Sys -> Sys -> Prop :=
| step_command a p s r d w :
    run_in (command sha256_hex uuid_parses geteuid a p) s = (r, d, w) ->
    desk_step (EvCommand a p) s (mkSys d (gate s) w)
| step_worker b s r d w :
    run_in (worker_reconcile sha256_hex uuid_parses geteuid b) s = (r, d, w) ->
    desk_step (EvWorker b) s (mkSys d (gate s) w)
| step_begin a p s r d w :
    gate s = Free -> run_in (begin sha256_hex uuid_parses geteuid a p) s = (r, d, w) ->
    desk_step (EvBegin a p) s (mkSys d (if is_ok r then Running else Free) w)
| step_end u s r d w :
    gate s = Running -> run_in (end_ u) s = (r, d, w) ->
    desk_step (EvEnd u) s (mkSys d Free w)
| step_check s r d w :
    gate s = Free -> run_in needs_cleanup s = (r, d, w) ->
    desk_step EvCheck s (mkSys d (match r with Ok true => Cleaning | _ => Free end) w)
| step_clean b s r d w :
    gate s = Cleaning -> run_in (cleanup_done sha256_hex uuid_parses geteuid b) s = (r, d, w) ->
    desk_step (EvClean b) s (mkSys d Free w)
| step_inspect a p s r d w :
    gate s = Free -> run_in (begin_recovery_inspection a p) s = (r, d, w) ->
    desk_step (EvInspect a p) s (mkSys d Free w)
| step_inspect_end s r d w :
    run_in end_recovery_inspection s = (r, d, w) ->
    desk_step EvInspectEnd s (mkSys d (gate s) w)
| step_restart b s d w :
    run_in (open_with_boot_id b) s = (Ok tt, d, w) ->
    desk_step (EvRestart b) s (mkSys d Free w).

Inductive reachable : Sys -> Prop :=
| reach_open b d0 d w0 w :
    durable d0 = None -> open_with_boot_id b d0 w0 = (Ok tt, d, w) -> reachable (mkSys d Free w)
| reach_step ev s s' : reachable s -> desk_step ev s s' -> reachable s'.

(** *** Mutual exclusion *)

Definition sound_image (o : option DesktopQueue) : Prop := forall q, o = Some q -> single_holder q.

Lemma sound_image_save q : single_holder q -> sound_image (Some (image q)).
Proof. by intros H q' [= <-]. Qed.

Abbreviation sound := (held single_holder sound_image).

Lemma keeps_sound_flight b : keeps (E := fault) sound (update (set_in_flight b)).
Proof. by intros d w (? & ? & ?). Qed.

Lemma keeps_sound_begin a p : keeps sound (begin sha256_hex uuid_parses geteuid a p).
Proof.
  intros d w H. apply (wp_begin _ _ _ single_holder sound_image sound_image_save); [done..|].
  intros params. apply keeps_bind; [apply keeps_sound_flight|]. intros _.
  apply keeps_bind; [apply keeps_save, sound_image_save|intros _; apply keeps_ret].
Qed.

Lemma keeps_sound_end u : keeps sound (end_ u).
Proof.
  unfold end_. apply keeps_bind; [apply keeps_sound_flight|]. intros _.
  apply keeps_bind; [by apply keeps_update|]. intros _. apply keeps_save, sound_image_save.
Qed.

Lemma one_holder_retire js :
  one_holder js -> one_holder ((fun j => if holding j then set_state "interrupted" j else j) <$> js).
Proof.
  apply one_holder_shrink. intros i a' Hi Hh. rewrite list_lookup_fmap in Hi.
  apply fmap_Some in Hi as (a & Ha & ->). exists a. split; [done|]. destruct (holding a) eqn:Ea; [done|].
  by rewrite Ea in Hh.
Qed.

Lemma open_sound b d w :
  sound_image (durable d) ->
  wp (open_with_boot_id b) (fun r d' w' => r = Ok tt -> sound d' w') d w.
Proof.
  intros Hd. unfold open_with_boot_id. apply wp_bind. cbn. apply wp_bind. cbn. apply wp_bind.
  apply (wp_mono _ (fun r d' _ => d' = d /\ forall q, r = Ok q -> single_holder q)).
  { destruct (durable d) as [q|] eqn:Hq; [destruct (peek (w_io w)); [apply wp_bind; cbn; case_match|]|].
    - split; [done|]. intros q' [= <-]. by apply Hd.
    - done.
    - split; [done|]. by intros q' [= <-] i.
    - split; [done|]. by intros q' [= <-] i. }
  intros [q|e] d1 w1 [-> Hq]; [|done]. specialize (Hq q eq_refl). cbv zeta. apply wp_bind.
  set (q1 := set_transient true false 0 0 q).
  apply (wp_mono _ (fun r d' _ => d' = d /\ forall q, r = Ok q -> q_path q = true /\ single_holder q)).
  { case_match; [apply wp_bind; case_match; [apply wp_bind|]; cbn|case_match]; (split; [done|]);
      intros q' [= <-]; (split; [done|]); try exact Hq; by apply one_holder_retire. }
  intros [q2|e] d2 w2 [-> H2]; [|done]. destruct (H2 q2 eq_refl) as [Hp Hs]. apply wp_bind. cbn.
  eapply wp_mono; [apply keeps_save; [apply sound_image_save|]|by intros r d3 w3 H3 _].
  split; [by destruct b|]. split; [by destruct b|done].
Qed.

Lemma step_sound ev s s' :
  sound (desk s) (world s) -> desk_step ev s s' -> sound (desk s') (world s').
Proof.
  intros Hs Hstep.
  assert (Hk : forall A (m : M Desktop fault A) r d w, keeps sound m -> run_in m s = (r, d, w) -> sound d w)
    by (intros A m r d w Hm E; by apply (wp_run m _ _ _ _ _ _ (Hm _ _ Hs) E)).
  destruct Hstep as [a p s r d w E|b s r d w E|a p s r d w _ E|u s r d w _ E|s r d w _ E|b s r d w _ E
                    |a p s r d w _ E|s r d w E|b s d w E]; cbn;
    [eapply Hk; [|exact E]..|].
  - destruct (decide (a = "desktop.recover")) as [->|Hne].
    + apply keeps_command_recover; [exact _|apply sound_image_save|done].
    + apply keeps_command; [exact _|apply sound_image_save|done].
  - apply keeps_worker_reconcile; [exact _|apply sound_image_save].
  - apply keeps_sound_begin.
  - apply keeps_sound_end.
  - apply keeps_needs_cleanup; first [exact _|apply sound_image_save].
  - apply keeps_cleanup_done; [exact _|apply sound_image_save].
  - apply keeps_begin_inspection; first [exact _|apply sound_image_save].
  - apply keeps_end_inspection; first [exact _|apply sound_image_save].
  - by apply (wp_run _ _ _ _ _ _ _ (open_sound b (desk s) (world s) (proj2 (proj2 Hs))) E).
Qed.

Lemma reachable_sound s : reachable s -> sound (desk s) (world s).
Proof.
  induction 1 as [b d0 d w0 w Hd E|ev s s' _ IH Hstep]; [|by eapply step_sound].
  refine (wp_run _ _ _ _ _ _ _ (open_sound b d0 w0 _) E eq_refl). intros q. by rewrite Hd.
Qed.

(** *** The record of a running action *)

Definition flight_image (o : option DesktopQueue) : Prop := exists q, o = Some q /\ q_in_flight q = true.

Lemma flight_image_save q : q_in_flight q = true -> flight_image (Some (image q)).
Proof. intros H. by eexists. Qed.

Abbreviation flying := (held (fun q => q_in_flight q = true) flight_image).

#[local] Instance any_queue : QueueInvariant (fun _ => True).
Proof. by constructor. Qed.

(** [begin] answers [Ok] only after the disk records the action. *)
Lemma begin_records a p d w :
  q_path (queue d) = true ->
  wp (begin sha256_hex uuid_parses geteuid a p) (fun r d' w' => is_ok r = true -> flying d' w') d w.
Proof.
  intros Hp. apply (wp_begin _ _ _ (fun _ => True) (fun _ => True)); [done..|].
  intros params d1 w1 (Hp1 & _ & _). apply wp_bind. cbn. apply wp_bind. unfold save, the_queue.
  apply wp_bind. cbn. rewrite Hp1. apply wp_bind. cbn. apply wp_bind. cbn. case_match; [|done].
  intros _. split; [done|]. split; [done|]. by eexists.
Qed.

(** The queue keeps its state file. *)
Lemma reachable_path s : reachable s -> q_path (queue (desk s)) = true.
Proof. intros H%reachable_sound. apply H. Qed.

Lemma keeps_flying_command a p : keeps flying (command sha256_hex uuid_parses geteuid a p).
Proof.
  destruct (decide (a = "desktop.recover")) as [->|Hne].
  - apply keeps_command_recover; [exact _|apply flight_image_save|]. intros q. cbn. congruence.
  - apply keeps_command; [exact _|apply flight_image_save|done].
Qed.

Lemma reachable_flying s : reachable s -> gate s = Running -> flying (desk s) (world s).
Proof.
  induction 1 as [b d0 d w0 w Hd E|ev s s' Hr IH Hstep]; [done|].
  destruct Hstep as [a p s r d w E|b s r d w E|a p s r d w Hg E|u s r d w _ E|s r d w _ E|b s r d w _ E
                    |a p s r d w _ E|s r d w E|b s d w E]; cbn; intros Hrun; try done.
  - exact (wp_run _ _ _ _ _ _ _ (keeps_flying_command a p _ _ (IH Hrun)) E).
  - refine (wp_run _ _ _ _ _ _ _ (keeps_worker_reconcile _ _ _ _ _ flight_image_save b _ _ (IH Hrun)) E).
  - refine (wp_run _ _ _ _ _ _ _ (begin_records a p _ _ (reachable_path _ Hr)) E _).
    by destruct (is_ok r).
  - by destruct r as [[]|].
  - refine (wp_run _ _ _ _ _ _ _ (keeps_end_inspection _ _ _ _ (IH Hrun)) E).
Qed.

(** What [open_with_boot_id] makes of a stored queue that it can look at. *)
Lemma open_result b d w q :
  durable d = Some q -> peek (w_io w) = true ->
  wp (open_with_boot_id b) (fun r d' _ => r = Ok tt ->
    let stopped := q_in_flight q || existsb holding (q_jobs q) in
    if os_restarted (q_boot_id q) b then
      q_blocked (queue d') = false /\ q_in_flight (queue d') = false /\
      q_jobs (queue d') = (fun j => if holding j then set_state "interrupted" j else j) <$> q_jobs q
    else
      q_blocked (queue d') = q_blocked q || stopped /\ q_in_flight (queue d') = false /\
      q_jobs (queue d') = q_jobs q) d w.
Proof.
  intros Hd Hseen. unfold open_with_boot_id, error. apply wp_bind. cbn -[existsb]. apply wp_bind. cbn -[existsb]. rewrite Hd, Hseen.
  apply wp_bind, wp_bind. cbn -[existsb]. case_match; [|done]. cbn -[existsb]. apply wp_bind.
  assert (Hsave : forall q' d' w', wp (update (fun _ => q') ;; save)
    (fun r d1 _ => r = Ok tt -> queue d1 = q') d' w').
  { intros q' d' w'. apply wp_bind. cbn. unfold save, the_queue, error. apply wp_bind. cbn.
    case_match; [|done]. apply wp_bind. cbn. apply wp_bind. cbn. by case_match. }
  destruct (os_restarted (q_boot_id q) b).
  - apply wp_bind. case_match; [apply wp_bind|]; cbn;
      (eapply wp_mono; [apply Hsave|]); intros r d1 w1 Hq Hr; rewrite (Hq Hr); by destruct b.
  - case_match eqn:Hst; cbn; (eapply wp_mono; [apply Hsave|]); intros r d1 w1 Hq Hr;
      rewrite (Hq Hr); destruct b; cbn; rewrite ?orb_true_r, ?orb_false_r; try done.
    all: by apply orb_false_iff in Hst as [-> _].
Qed.

Lemma begin_blocked a p d w :
  q_blocked (queue d) = true ->
  begin sha256_hex uuid_parses geteuid a p d w
  = (Err (Rpc (rpc_error "DESKTOP_RECOVERY_REQUIRED"
                 "desktop outcome is uncertain; explicit reset required")), d, w).
Proof. intros H. unfold begin, the_queue, error. munfold. by rewrite H. Qed.

(** *** The properties *)

(** C1: Mutual exclusion. In every reachable state of the queue, under any interleaving of clients,
    worker, actions, cleanups and restarts, at most one session is active or draining. *)
Theorem desktop_mutual_exclusion s :
  reachable s ->
  forall i j a b, q_jobs (queue (desk s)) !! i = Some a -> q_jobs (queue (desk s)) !! j = Some b ->
    holding a = true -> holding b = true -> i = j.
Proof. intros (_ & H & _)%reachable_sound. exact H. Qed.

(** C2: No replay. If the executor dies while an action is being dispatched, whatever happened since
    it began, then after a restart that can look at the file of the queue and is not a restart of the
    operating system the queue is blocked and every further action is refused. A restart that cannot
    look at the file takes it for absent: [unseen_queue_forgets_the_action] of [DesktopRuns]. *)
Theorem interrupted_action_quarantined s s' b :
  reachable s -> gate s = Running -> peek (w_io (world s)) = true ->
  (forall q, durable (desk s) = Some q -> os_restarted (q_boot_id q) b = false) ->
  desk_step (EvRestart b) s s' ->
  q_blocked (queue (desk s')) = true /\
  forall a p, fst (fst (begin sha256_hex uuid_parses geteuid a p (desk s') (world s')))
    = Err (Rpc (rpc_error "DESKTOP_RECOVERY_REQUIRED"
                  "desktop outcome is uncertain; explicit reset required")).
Proof.
  intros Hr Hg Hseen Hboot Hstep. destruct (reachable_flying s Hr Hg) as (_ & _ & q & Hq & Hf).
  assert (Hb : q_blocked (queue (desk s')) = true).
  { inversion Hstep as [| | | | | | | |b' s0 d w E]; subst. cbn.
    apply (wp_run _ _ _ _ _ _ _ (open_result b (desk s) (world s) q Hq Hseen)) in E; [|done].
    rewrite (Hboot q Hq), Hf in E. destruct E as (-> & _). by rewrite orb_true_r. }
  split; [done|]. intros a p. by rewrite begin_blocked.
Qed.

(** Restart of the operating system. A changed boot identifier, and only that, unblocks the
    queue by itself: every session that held the desktop is interrupted, never resumed, and every
    other job is kept as it was. *)
Theorem os_restart_releases s s' b q :
  durable (desk s) = Some q -> peek (w_io (world s)) = true -> os_restarted (q_boot_id q) b = true ->
  desk_step (EvRestart b) s s' ->
  q_blocked (queue (desk s')) = false /\ q_in_flight (queue (desk s')) = false /\
  active (queue (desk s')) = None /\
  forall i, q_jobs (queue (desk s')) !! i
    = (fun j => if holding j then set_state "interrupted" j else j) <$> q_jobs q !! i.
Proof.
  intros Hq Hseen Hb Hstep. inversion Hstep as [| | | | | | | |b' s0 d w E]; subst. cbn.
  apply (wp_run _ _ _ _ _ _ _ (open_result b (desk s) (world s) q Hq Hseen)) in E; [|done].
  rewrite Hb in E. destruct E as (-> & -> & Hjobs). split_and!; [done..| |].
  - apply position_None. rewrite Hjobs. intros x (y & -> & _)%list_elem_of_fmap.
    by destruct (holding y) eqn:Hy.
  - intros i. rewrite Hjobs. apply list_lookup_fmap.
Qed.

(** Quarantine. Once the queue is blocked, the only event other than a restart that can unblock
    it is [desktop.recover] with the explicit confirmation of a reset. *)
Theorem blocked_until_recovery ev s s' :
  reachable s -> q_blocked (queue (desk s)) = true -> desk_step ev s s' ->
  q_blocked (queue (desk s')) = true \/
  (exists p, ev = EvCommand "desktop.recover" p /\ vindex p "confirmDesktopReset" = VBool true) \/
  (exists b, ev = EvRestart b).
Proof.
  intros Hr Hb Hstep. pose proof (reachable_path s Hr) as Hp.
  pose (stays := held (fun q => q_blocked q = true) (fun _ => True)).
  assert (Hs : stays (desk s) (world s)) by done.
  assert (Hk : forall A (m : M Desktop fault A) r d w,
    keeps stays m -> run_in m s = (r, d, w) -> q_blocked (queue d) = true)
    by (intros A m r d w Hm E; by apply (wp_run m _ _ _ _ _ _ (Hm _ _ Hs) E)).
  destruct Hstep as [a p s r d w E|b s r d w E|a p s r d w _ E|u s r d w _ E|s r d w _ E|b s r d w _ E
                    |a p s r d w _ E|s r d w E|b s d w E]; cbn.
  - destruct (decide (a = "desktop.recover")) as [->|Hne].
    + destruct (eq_bool (vindex p "confirmDesktopReset") true) eqn:Hc.
      * right. left. exists p. split; [done|]. by apply eq_bool_spec.
      * left. eapply Hk; [|exact E]. unfold command, the_queue, error.
        apply keeps_bind; [apply keeps_gets|]. intros q. case_match; [apply keeps_fail|].
        apply keeps_bind; [by apply keeps_promote|]. intros _. unfold desktop_recover. cbn.
        apply keeps_bind; [apply keeps_gets|]. intros q1. rewrite Hc, orb_true_r. apply keeps_fail.
    + left. eapply Hk; [|exact E]. by apply keeps_command.
  - left. eapply Hk; [|exact E]. by apply keeps_worker_reconcile.
  - left. unfold run_in in E. rewrite begin_blocked in E by done. by simplify_eq.
  - left. eapply Hk; [|exact E]. unfold end_. apply keeps_bind; [by intros d0 w0 (? & ? & ?)|]. intros _.
    apply keeps_bind; [|intros _; by apply keeps_save].
    intros d0 w0 (? & Hb0 & ?). split; [done|]. split; [|done]. cbn. by rewrite Hb0.
  - left. eapply Hk; [|exact E]. by apply keeps_needs_cleanup.
  - left. eapply Hk; [|exact E]. by apply keeps_cleanup_done.
  - left. eapply Hk; [|exact E]. by apply keeps_begin_inspection.
  - left. eapply Hk; [|exact E]. by apply keeps_end_inspection.
  - right. right. by exists b.
Qed.

End System.
