(* ===== verification/DesktopSessions.v ===== *)
(** * Sessions of the desktop queue

    Who may act ([begin]), who is granted next ([promote]), what a failed
    write undoes, repeated submissions, and concrete runs of the system of
    [DesktopSystem]. *)
From stdpp Require Import base gmap strings list pretty.
From S2P Require Import Prelude Json Protocol Desktop DesktopSystem.
Open Scope Z_scope.
Open Scope fabric_scope.

(** Reading clocks and node-local files changes neither the queue nor the sources. *)
Record later (d : Desktop) (w : World) (d' : Desktop) (w' : World) : Prop := mk_later {
  lt_queue : queue d' = queue d;
  lt_durable : durable d' = durable d;
  lt_nodes : o_at (nodes d') = o_at (nodes d);
  lt_wall : o_at (w_wall w') = o_at (w_wall w) }.

Lemma later_refl d w : later d w d w.
Proof. done. Qed.

Lemma later_trans d1 w1 d2 w2 d3 w3 : later d1 w1 d2 w2 -> later d2 w2 d3 w3 -> later d1 w1 d3 w3.
Proof. intros [] []. constructor; congruence. Qed.

(** The provider's snapshot, as read at some moment, permits input at some moment. *)
Definition provider_permits (d : Desktop) (w : World) : Prop :=
  exists k m v, availability_snapshot (queue d) (o_at (nodes d) k) = Some v /\
    snapshot_allows_input v (o_at (w_wall w) m) = true.

Lemma wp_available d w :
  wp available (fun r d' w' => later d w d' w' /\ (r = Ok true -> provider_permits d w)) d w.
Proof.
  unfold available, availability, the_queue. repeat (apply wp_bind; cbn -[obj_of vindex]).
  split; [done|]. intros [= H]. cbn in H.
  destruct (availability_snapshot (queue d) (peek (nodes d))) as [v|] eqn:Hv; [|done].
  exists (o_next (nodes d)), (o_next (w_wall w)), v. split; [done|].
  by destruct (snapshot_allows_input v _).
Qed.

Lemma wp_job_over j d w :
  wp (E := fault) (job_over j) (fun r d' w' => later d w d' w' /\
    (r = Ok false -> exists m, o_at (w_wall w) m < job_expires_at j)) d w.
Proof.
  unfold job_over, past_deadline. apply wp_bind. cbn. case_match eqn:He; [done|].
  apply Z.leb_gt in He. case_match; [apply wp_bind|]; cbn; (split; [done|]); intros _; eauto.
Qed.

Section Sessions.
Context (sha256_hex : string -> string) (uuid_parses : string -> bool) (geteuid : Z).
#[local] Abbreviation user_authorization := (user_authorization sha256_hex uuid_parses geteuid).
#[local] Abbreviation authorized := (authorized sha256_hex uuid_parses geteuid).
#[local] Abbreviation admission := (admission sha256_hex uuid_parses geteuid).
#[local] Abbreviation begin := (begin sha256_hex uuid_parses geteuid).
#[local] Abbreviation promote := (promote sha256_hex uuid_parses geteuid).
#[local] Abbreviation candidate := (candidate sha256_hex uuid_parses geteuid).
#[local] Abbreviation job_value := (job_value sha256_hex uuid_parses geteuid).
#[local] Abbreviation command := (command sha256_hex uuid_parses geteuid).

(** The operator's receipt, owned by the executor's user and private to it, names this job. *)
Definition operator_permits (d : Desktop) (w : World) (j : Job) : Prop :=
  exists k f k' f' m value granted expires,
    node_receipt (o_at (nodes d) k) = Some f /\
    rf_is_file f = true /\ Z.land (rf_mode f) 511 = 384 /\ rf_uid f = geteuid /\
    node_receipt (o_at (nodes d) k') = Some f' /\ rf_json f' = Some value /\
    receipt_grants sha256_hex uuid_parses (queue d) j value (o_at (w_wall w) m) granted expires = true.

Lemma wp_user_authorization j d w :
  wp (user_authorization j) (fun r d' w' => later d w d' w' /\
    forall v, r = Ok (Some v) ->
      one_of ["queued"; "active"] (job_state j) = true /\ operator_permits d w j) d w.
Proof.
  unfold Desktop.user_authorization, the_queue. apply wp_bind. cbn -[one_of Z.land].
  destruct (one_of _ _); [|done]. cbn -[one_of Z.land].
  case_match; [done|]. apply wp_bind. cbn -[Z.land].
  destruct (node_receipt (peek (nodes d))) as [f|] eqn:Hf; [|done]. case_match eqn:Hmeta; [done|].
  apply wp_bind. cbn -[Z.land].
  destruct (match node_receipt _ with Some f => rf_json f | None => None end) as [value|] eqn:Hv;
    [|done].
  destruct (node_receipt _) as [f'|] eqn:Hf' in Hv; [|done]. apply wp_bind. cbn -[Z.land].
  case_match; [|done]. case_match; [|done].
  match goal with |- context [receipt_grants ?a ?b ?c ?d ?e ?f ?g ?h] =>
    destruct (receipt_grants a b c d e f g h) eqn:Hg end; [|done].
  split; [done|]. intros _ _. split; [done|].
  apply orb_false_iff in Hmeta as [[[Hm1 _]%orb_false_iff Hm2]%orb_false_iff Hm3].
  exists (o_next (nodes d)), f, (S (o_next (nodes d))), f', (o_next (w_wall w)), value. do 2 eexists.
  bool_prop. split_and!; eassumption.
Qed.

Lemma wp_authorized j d w :
  wp (authorized j) (fun r d' w' => later d w d' w' /\
    (r = Ok true -> one_of ["queued"; "active"] (job_state j) = true /\ operator_permits d w j)) d w.
Proof.
  unfold Desktop.authorized. apply wp_bind. eapply wp_mono; [apply wp_user_authorization|].
  intros [[v|]|e] d' w' [Hl H]; cbn -[one_of]; split; try done. intros _. by apply (H v).
Qed.

(** ** Admission *)

(** The permission a gated job needs. *)
Definition permitted (d : Desktop) (w : World) (j : Job) : Prop :=
  gated (queue d) j = true -> provider_permits d w \/ operator_permits d w j.

Lemma later_provider d w d' w' : later d w d' w' -> provider_permits d' w' -> provider_permits d w.
Proof. intros [Hq _ Hn Hw] (k & m & v & H1 & H2). rewrite Hq, Hn in H1. rewrite Hw in H2. by exists k, m, v. Qed.

Lemma later_operator d w d' w' j : later d w d' w' -> operator_permits d' w' j -> operator_permits d w j.
Proof.
  intros [Hq _ Hn Hw] (k & f & k' & f' & m & value & g & e & H). rewrite Hq, Hn, Hw in H.
  by exists k, f, k', f', m, value, g, e.
Qed.

(** What [admission] has checked when it lets an action through. *)
Definition admitted (a : string) (p : Value) (d : Desktop) (w : World) : Prop :=
  match active (queue d) with
  | Some i => exists j, q_jobs (queue d) !! i = Some j /\ job_state j = "active" /\
      (exists m, o_at (w_wall w) m < job_expires_at j) /\
      vindex (vindex p "_desktop") "token" = VString (job_token j) /\
      vindex (vindex p "_desktop") "owner" = VString (job_owner j) /\
      permitted d w j
  | None => q_maintenance_owner (queue d) = None /\ q_availability_required (queue d) = false /\
      a ≠ "computer-use.call" /\ vget "_desktop" p = None
  end.

Lemma wp_admission a p d w :
  wp (admission a p) (fun r _ _ => is_ok r = true -> admitted a p d w) d w.
Proof.
  unfold Desktop.admission, admitted, the_queue, error, job_at. apply wp_bind. cbn.
  destruct (active (queue d)) as [i|] eqn:Ha.
  - destruct (active_Some _ _ Ha) as (j & Hj & _). rewrite Hj. apply wp_bind. cbn.
    destruct (String.eqb_spec (job_state j) "active") as [Hst|]; [|done]. cbn. apply wp_bind.
    eapply wp_mono; [apply wp_job_over|]. intros [[|]|e] d1 w1 [Hl1 Hlive]; [done| |done].
    case_match eqn:Hcred; [done|]. apply orb_false_iff in Hcred as [Htok Hown]. bool_prop.
    apply wp_bind. unfold and_then. apply wp_bind. cbn.
    apply (wp_mono _ (fun r _ _ => r = Ok false -> permitted d w j)).
    + destruct (gated (queue d) j) eqn:Hg; [|intros _ Hg'; congruence].
      apply wp_bind, wp_bind. eapply wp_mono; [apply wp_available|].
      intros [a1|e] d2 w2 [Hl2 Hav]; [|done]. cbn.
      destruct a1; [intros _ _; left; eapply later_provider; [exact Hl1|by apply Hav]|]. cbn.
      apply wp_bind. eapply wp_mono; [apply wp_authorized|].
      intros [[|]|e] d3 w3 [Hl3 Hau]; [|done..]. intros _ _. right.
      eapply later_operator; [eapply later_trans; [exact Hl1|exact Hl2]|by apply Hau].
    + intros [[|]|e] d2 w2 Hperm; [done| |done].
      assert (Hdone : exists j0, Some j = Some j0 /\ job_state j0 = "active" /\
        (exists m, o_at (w_wall w) m < job_expires_at j0) /\
        vindex (vindex p "_desktop") "token" = VString (job_token j0) /\
        vindex (vindex p "_desktop") "owner" = VString (job_owner j0) /\ permitted d w j0).
      { exists j. split_and!; auto; by apply eq_str_spec. }
      case_match; [unfold assign, lift; by apply wp_intro|by intros _].
  - do 2 (case_match; [done|]). bool_prop. intros _. split_and!; try done.
    + by apply eq_None_not_Some.
    + by apply eq_None_not_Some.
Qed.
(** The availability policy may have been switched on; nothing else of the queue changed. *)
Definition refreshed (d : Desktop) (w : World) (d' : Desktop) (w' : World) : Prop :=
  (queue d' = queue d \/ queue d' = set_availability_required true (queue d)) /\
  o_at (nodes d') = o_at (nodes d) /\ o_at (w_wall w') = o_at (w_wall w).

Lemma wp_save d w :
  wp save (fun r d' w' => queue d' = queue d /\ o_at (nodes d') = o_at (nodes d) /\
    o_at (w_wall w') = o_at (w_wall w) /\
    (is_ok r = true -> q_path (queue d) = true -> durable d' = Some (image (queue d))) /\
    (is_ok r = false -> durable d' = durable d)) d w.
Proof.
  unfold save, the_queue, error. apply wp_bind. cbn. destruct (q_path (queue d)); [|done].
  do 2 (apply wp_bind; cbn). by case_match.
Qed.

Lemma wp_refresh d w : wp refresh_availability_policy (fun _ d' w' => refreshed d w d' w') d w.
Proof.
  unfold refresh_availability_policy, the_queue. apply wp_bind. cbn.
  case_match; [by split; [left|]|]. case_match; [|by split; [left|]].
  apply wp_bind. cbn. case_match; [|by split; [left|]]. apply wp_bind. cbn.
  eapply wp_mono; [apply wp_save|]. intros r d' w' (Hq & Hn & Hw & _). split; [by right|done].
Qed.

(** ** The next session *)

Lemma wp_position_m (p : Job -> M Desktop fault bool) (P : Job -> Prop) l d w :
  (forall x d1 w1, later d w d1 w1 -> wp (p x) (fun r d' w' => later d1 w1 d' w' /\ (r = Ok true -> P x)) d1 w1) ->
  wp (position_m p l) (fun r d' w' => later d w d' w' /\
    forall i, r = Ok (Some i) -> exists x, l !! i = Some x /\ P x) d w.
Proof.
  intros Hp. assert (Hl : later d w d w) by done. revert Hl. generalize d at 2 4, w at 2 4.
  induction l as [|x l IH]; intros d1 w1 Hl; cbn; [done|]. apply wp_bind.
  eapply wp_mono; [by apply Hp|]. intros [[|]|e] d2 w2 [Hl2 Hx]; cbn.
  - split; [by eapply later_trans|]. intros i [= <-]. exists x. auto.
  - apply wp_bind. eapply wp_mono; [apply IH; by eapply later_trans|].
    intros [[i|]|e] d3 w3 [Hl3 H3]; cbn; (split; [done|]); [|done..].
    intros k [= <-]. by apply H3.
  - split; [by eapply later_trans|done].
Qed.

(** Which job may be granted: the head of the queue where its gate is open, or a job that the
    operator authorized. *)
Definition eligible (d : Desktop) (w : World) (provided : bool) (i : nat) (j : Job) : Prop :=
  queued j = true /\
  ((forall k jk, (k < i)%nat -> q_jobs (queue d) !! k = Some jk -> queued jk = false) /\
   (gated (queue d) j = true -> provided = true) \/ operator_permits d w j).

Lemma wp_candidate provided d w :
  wp (candidate provided) (fun r d' w' => later d w d' w' /\
    forall i, r = Ok (Some i) -> exists j, q_jobs (queue d) !! i = Some j /\ eligible d w provided i j) d w.
Proof.
  unfold Desktop.candidate, the_queue. apply wp_bind. cbn.
  set (head := match position queued (q_jobs (queue d)) with Some i => _ | None => None end).
  destruct head as [i|] eqn:Hh; subst head.
  - split; [done|]. intros k [= <-].
    destruct (position queued (q_jobs (queue d))) as [i'|] eqn:Hpos; [|done].
    apply position_Some in Hpos as (j & Hj & Hq & Hmin). rewrite Hj in Hh.
    destruct (_ || provided) eqn:Hg; simplify_eq. exists j. split; [done|]. split; [done|]. left.
    split; [done|]. intros Hgate. rewrite Hgate in Hg. done.
  - eapply wp_mono; [apply (wp_position_m _ (fun j => queued j = true /\ operator_permits d w j))|].
    + intros j d1 w1 Hl. unfold and_then. apply wp_bind. cbn. destruct (queued j); [|done].
      eapply wp_mono; [apply wp_authorized|]. intros r d2 w2 [Hl2 H2]. split; [done|].
      intros Hr. split; [done|]. eapply later_operator; [done|]. by apply H2.
    + intros r d' w' [Hl H]. split; [done|]. intros i Hr. destruct (H i Hr) as (j & Hj & Hq & Hop).
      exists j. split; [done|]. split; [done|]. by right.
Qed.

(** [activate] changes no other job; when it answers [Ok] the grant is on disk. *)
Lemma wp_activate_frame i d w :
  wp (activate i) (fun r d' _ => r = Ok tt ->
    (q_path (queue d) = true -> durable d' = Some (image (queue d'))) /\
    forall k, k ≠ i -> q_jobs (queue d') !! k = q_jobs (queue d) !! k) d w.
Proof.
  unfold activate, the_queue, job_at. apply wp_bind. cbn. apply wp_bind. unfold wp at 1, lift.
  destruct (q_jobs (queue d) !! i) as [j|] eqn:Hj; cbn; [|done].
  apply wp_bind. cbn. apply wp_bind. cbn. apply wp_bind, wp_attempt.
  eapply wp_mono; [apply wp_save|]. intros [[]|e] d1 w1 (Hq & _ & _ & Hd & _).
  - intros _. rewrite Hq. split; [by apply Hd|]. intros k Hk. cbn. by rewrite list_lookup_insert_ne.
  - apply wp_bind. hnf. intros [=].
Qed.

(** A deadline that had passed at some reading of the clock. *)
Definition deadline_passed (w : World) (j : Job) : Prop :=
  exists m at_, job_deadline_at j = Some at_ /\ at_ <= o_at (w_wall w) m.

Lemma expire_queued_cases now j :
  expire_queued now j = j \/
  (queued j = true /\ (exists at_, job_deadline_at j = Some at_ /\ at_ <= now) /\
   queued (expire_queued now j) = false).
Proof.
  unfold expire_queued. case_match eqn:H; [right|by left].
  apply andb_true_iff in H as [Hq Hd]. split; [done|]. destruct (job_deadline_at j) as [at_|]; [|done].
  apply Z.leb_le in Hd. split; [by exists at_|done].
Qed.

(** Permissions depend on the sources and on few fields of the queue. *)
Record same_sources (d : Desktop) (w : World) (d' : Desktop) (w' : World) : Prop := mk_same_sources {
  ss_path : q_path (queue d') = q_path (queue d);
  ss_boot : q_boot_id (queue d') = q_boot_id (queue d);
  ss_nodes : o_at (nodes d') = o_at (nodes d);
  ss_wall : o_at (w_wall w') = o_at (w_wall w) }.

Lemma same_sources_provider d w d' w' :
  same_sources d w d' w' -> provider_permits d' w' -> provider_permits d w.
Proof.
  intros [Hp _ Hn Hw] (k & m & v & H1 & H2). exists k, m, v. unfold availability_snapshot in *.
  by rewrite <- Hp, <- Hn, <- Hw.
Qed.

Lemma same_sources_operator d w d' w' j :
  same_sources d w d' w' -> operator_permits d' w' j -> operator_permits d w j.
Proof.
  intros [_ Hb Hn Hw] (k & f & k' & f' & m & value & g & e & H). exists k, f, k', f', m, value, g, e.
  unfold receipt_grants in *. by rewrite <- Hb, <- Hn, <- Hw.
Qed.

(** The grant that [promote] may make, in terms of the queue it started from. *)
Definition granted_fairly (d : Desktop) (w : World) (i : nat) : Prop :=
  q_blocked (queue d) = false /\ q_in_flight (queue d) = false /\
  q_maintenance_owner (queue d) = None /\ active (queue d) = None /\
  exists j, q_jobs (queue d) !! i = Some j /\ queued j = true /\
    ((forall k jk, (k < i)%nat -> q_jobs (queue d) !! k = Some jk -> queued jk = true ->
        deadline_passed w jk) /\
     (gated (queue d) j = true -> provider_permits d w)
     \/ operator_permits d w j).

(** The queue after the refresh and the expiry of deadlines. *)
Definition expired_queue (now : Z) (q0 q : DesktopQueue) : Prop :=
  q = set_jobs (expire_queued now <$> q_jobs q0) q0 \/
  q = set_availability_required true (set_jobs (expire_queued now <$> q_jobs q0) q0).

Lemma expired_active now j : job_state (expire_queued now j) = "active" -> job_state j = "active".
Proof. unfold expire_queued. by case_match. Qed.

Lemma expired_holding now j : holding (expire_queued now j) = holding j.
Proof.
  unfold expire_queued. case_match eqn:H; [|done]. apply andb_true_iff in H as [Hq _].
  apply String.eqb_eq in Hq. unfold holding. by rewrite Hq.
Qed.

Lemma expired_no_active now js :
  position holding (expire_queued now <$> js) = None -> position holding js = None.
Proof.
  rewrite !position_None. intros H x Hx. rewrite <- (expired_holding now). apply H.
  by apply list_elem_of_fmap_2.
Qed.

(** An eligible job of the expired queue is a fair choice in the original one. *)
Lemma eligible_fair d w d' w' now m provided i j' :
  now = o_at (w_wall w) m -> same_sources d w d' w' ->
  expired_queue now (queue d) (queue d') ->
  (provided = true -> provider_permits d' w') ->
  q_jobs (queue d') !! i = Some j' -> eligible d' w' provided i j' ->
  admits_promotion (queue d') = true -> granted_fairly d w i.
Proof.
  intros Hnow Hss Hq Hprov Hj' (Hqd & Hchoice) Hadm.
  assert (Hjobs : q_jobs (queue d') = expire_queued now <$> q_jobs (queue d)) by (by destruct Hq as [-> | ->]).
  rewrite Hjobs in Hj'. rewrite list_lookup_fmap in Hj'. apply fmap_Some in Hj' as (j & Hj & ->).
  destruct (expire_queued_cases now j) as [Hsame|(_ & _ & Hx)]; [rewrite Hsame in *|congruence].
  unfold admits_promotion in Hadm.
  apply andb_true_iff in Hadm as [[[Hm Hb]%andb_true_iff Hf]%andb_true_iff Ha]. bool_prop.
  assert (q_blocked (queue d') = q_blocked (queue d) /\ q_in_flight (queue d') = q_in_flight (queue d) /\
    q_maintenance_owner (queue d') = q_maintenance_owner (queue d)) as (E1 & E2 & E3)
    by (by destruct Hq as [-> | ->]).
  assert (Hact : active (queue d) = None)
    by (unfold active in *; rewrite Hjobs in Ha; by eapply expired_no_active).
  split; [congruence|]. split; [congruence|]. split; [congruence|]. split; [done|].
  exists j. split; [done|]. split; [done|]. destruct Hchoice as [[Hfirst Hgate]|Hop].
  - left. split.
    + intros k jk Hk Hjk Hqk. destruct (expire_queued_cases now jk) as [Hs|(_ & (at_ & Ha1 & Ha2) & _)].
      * specialize (Hfirst k jk Hk). rewrite Hjobs, list_lookup_fmap, Hjk in Hfirst. cbn in Hfirst.
        rewrite Hs in Hfirst. by rewrite Hfirst in Hqk.
      * exists m, at_. subst now. done.
    + intros Hg. eapply same_sources_provider; [done|]. apply Hprov, Hgate.
      unfold gated in *. destruct Hq as [-> | ->]; cbn; [done|by rewrite orb_true_r].
  - right. by eapply same_sources_operator.
Qed.

Lemma refreshed_expired d w d1 w1 now :
  refreshed d w d1 w1 ->
  expired_queue now (queue d) (set_jobs (expire_queued now <$> q_jobs (queue d1)) (queue d1)).
Proof. intros ([-> | ->] & _); [by left|by right]. Qed.

Lemma expired_queue_active now q0 q i j' :
  expired_queue now q0 q -> q_jobs q !! i = Some j' -> job_state j' = "active" ->
  exists j, q_jobs q0 !! i = Some j /\ job_state j = "active".
Proof.
  intros Hq Hj Hst.
  assert (q_jobs q = expire_queued now <$> q_jobs q0) as Hjobs by (by destruct Hq as [-> | ->]).
  rewrite Hjobs, list_lookup_fmap in Hj. apply fmap_Some in Hj as (j & Hj & ->).
  eauto using expired_active.
Qed.

(** The second half of [promote]: choose a candidate and activate it. *)
Lemma wp_choose d w d2 w2 now m :
  now = o_at (w_wall w) m -> same_sources d w d2 w2 -> expired_queue now (queue d) (queue d2) ->
  wp (let* a := available in
      let* c := candidate a in
      let* q := the_queue in
      match c with Some i => if admits_promotion q then activate i else ret tt | None => ret tt end)
    (fun r d' _ => r = Ok tt -> forall i j', q_jobs (queue d') !! i = Some j' -> job_state j' = "active" ->
       (exists j, q_jobs (queue d) !! i = Some j /\ job_state j = "active") \/ granted_fairly d w i) d2 w2.
Proof.
  intros Hnow Hss Hex. apply wp_bind. eapply wp_mono; [apply wp_available|].
  intros [a|e] d3 w3 [Hl3 Hav]; [|done]. apply wp_bind. eapply wp_mono; [apply wp_candidate|].
  intros [c|e] d4 w4 [Hl4 Hc]; [|done]. apply wp_bind. cbn.
  assert (Hl : later d2 w2 d4 w4) by (by eapply later_trans).
  assert (Hkeep : forall i j', q_jobs (queue d2) !! i = Some j' -> job_state j' = "active" ->
    exists j, q_jobs (queue d) !! i = Some j /\ job_state j = "active")
    by (intros i j'; by eapply expired_queue_active).
  rewrite (lt_queue _ _ _ _ Hl). destruct c as [i|];
    [|intros _ k j' Hk Hst; left; rewrite (lt_queue _ _ _ _ Hl) in Hk; eauto].
  destruct (admits_promotion (queue d2)) eqn:Hadm;
    [|intros _ k j' Hk Hst; left; rewrite (lt_queue _ _ _ _ Hl) in Hk; eauto].
  eapply wp_mono; [apply wp_activate_frame|]. intros r d5 w5 H5 Hr k j' Hk Hst.
  destruct (H5 Hr) as [_ Hframe]. destruct (decide (k = i)) as [->|Hne].
  - right. destruct (Hc i eq_refl) as (j & Hj & Hel). rewrite (lt_queue _ _ _ _ Hl3) in Hj.
    eapply (eligible_fair d w d2 w2 now m a i j); try done; [intros ->; by apply Hav|].
    destruct Hel as (Hq & Hch). split; [done|]. destruct Hch as [Hch|Hop]; [left|right].
    + by rewrite (lt_queue _ _ _ _ Hl3) in Hch.
    + exact (later_operator _ _ _ _ _ Hl3 Hop).
  - left. rewrite Hframe in Hk by done. rewrite (lt_queue _ _ _ _ Hl) in Hk. eauto.
Qed.

(** ** What a failed write undoes *)

(** A grant that cannot be written is taken back completely. *)
Lemma wp_activate_rollback i d w :
  NoDup (job_id <$> q_jobs (queue d)) -> in_u64 (q_epoch (queue d)) ->
  wp (activate i) (fun r d' _ => is_ok r = false -> queue d' = queue d /\ durable d' = durable d) d w.
Proof.
  intros Hnd He. unfold activate, the_queue, job_at. apply wp_bind. cbn. apply wp_bind.
  unfold wp at 1, lift. destruct (q_jobs (queue d) !! i) as [j|] eqn:Hj; cbn; [|done].
  apply wp_bind. cbn. apply wp_bind. cbn. apply wp_bind, wp_attempt.
  eapply wp_mono; [apply wp_save|]. intros [[]|e] d1 w1 (Hq & _ & _ & _ & Hd); [done|].
  apply wp_bind. hnf. intros _. split; [|by apply Hd]. cbn. rewrite Hq. cbn.
  set (new := set_grant _ _ _). set (e1 := (u64_add _ 1 - 1) mod _).
  assert (Hpos : position (fun k => (job_id k =? job_id j)%string) (<[i := new]> (q_jobs (queue d))) = Some i).
  { apply position_Some. exists new. split; [by eapply list_lookup_insert_eq, lookup_lt_Some|].
    split; [by apply String.eqb_eq|]. intros k y Hk Hy.
    rewrite list_lookup_insert_ne in Hy by lia. apply String.eqb_neq. intros Heq.
    assert (k = i); [|lia]. eapply (NoDup_lookup _ _ _ (job_id j) Hnd); rewrite list_lookup_fmap.
    - rewrite Hy. cbn. by rewrite Heq.
    - by rewrite Hj. }
  rewrite Hpos, list_insert_insert_eq, list_insert_id by done.
  assert (e1 = q_epoch (queue d)) as ->.
  { unfold e1, u64_add, in_u64 in *. rewrite Zminus_mod_idemp_l.
    replace (q_epoch (queue d) + 1 - 1) with (q_epoch (queue d)) by lia.
    apply Z.mod_small. lia. }
  by destruct (queue d).
Qed.

(** ** Submissions *)

(** What names a job never changes. *)
Definition identity (j : Job) : string * string * string * string :=
  (job_id j, job_owner j, job_request_key j, job_token j).

Definition identities (d : Desktop) : list (string * string * string * string) :=
  identity <$> q_jobs (queue d).

Lemma identity_expired now (js : list Job) : identity <$> (expire_queued now <$> js) = identity <$> js.
Proof.
  rewrite <- list_fmap_compose. apply list_fmap_ext. intros i j _. cbn. unfold expire_queued.
  by case_match.
Qed.

Lemma wp_activate_identity i d w :
  wp (activate i) (fun r d' _ => is_ok r = true -> identities d' = identities d) d w.
Proof.
  unfold activate, the_queue, job_at. apply wp_bind. cbn. apply wp_bind. unfold wp at 1, lift.
  destruct (q_jobs (queue d) !! i) as [j|] eqn:Hj; cbn; [|done].
  apply wp_bind. cbn. apply wp_bind. cbn. apply wp_bind, wp_attempt.
  eapply wp_mono; [apply wp_save|]. intros [[]|e] d1 w1 (Hq & _); [|by apply wp_bind; hnf].
  intros _. unfold identities. rewrite Hq. cbn. rewrite list_fmap_insert, list_insert_id; [done|].
  by rewrite list_lookup_fmap, Hj.
Qed.

Lemma wp_promote_identity d w :
  wp promote (fun r d' _ => is_ok r = true -> identities d' = identities d) d w.
Proof.
  unfold Desktop.promote, the_queue. apply wp_bind. cbn. case_match; [done|].
  apply wp_bind. eapply wp_mono; [apply wp_refresh|]. intros [[]|e] d1 w1 (H1 & _); [|done].
  apply wp_bind. cbn. apply wp_bind. cbn. apply wp_bind. cbn. apply wp_bind.
  set (d2 := on_queue _ d1).
  assert (H2 : identities d2 = identities d).
  { unfold identities, d2. cbn. rewrite identity_expired. by destruct H1 as [-> | ->]. }
  apply (wp_mono _ (fun _ d3 _ => identities d3 = identities d)).
  { case_match; [|done]. eapply wp_mono; [apply wp_save|]. intros r d3 w3 (Hq & _).
    unfold identities. by rewrite Hq. }
  intros [[]|e] d3 w3 H3; [|done]. apply wp_bind. eapply wp_mono; [apply wp_available|].
  intros [a|e] d4 w4 [Hl4 _]; [|done]. apply wp_bind. eapply wp_mono; [apply wp_candidate|].
  intros [c|e] d5 w5 [Hl5 _]; [|done]. apply wp_bind. cbn.
  assert (H5 : identities d5 = identities d)
    by (unfold identities; rewrite (lt_queue _ _ _ _ Hl5), (lt_queue _ _ _ _ Hl4); exact H3).
  destruct c as [i|]; [|intros _; exact H5]. case_match; [|intros _; exact H5].
  eapply wp_mono; [apply wp_activate_identity|]. intros r d6 w6 H6 Hr. rewrite (H6 Hr). exact H5.
Qed.

Lemma wp_job_value j d w : wp (job_value j) (fun _ d' w' => later d w d' w') d w.
Proof.
  unfold Desktop.job_value, the_queue, assign. apply wp_bind. cbn -[vindex_set job_json].
  apply wp_bind. eapply wp_mono; [apply wp_user_authorization|].
  intros [receipt|e] d1 w1 [Hl1 _]; [|done]. apply wp_bind.
  apply (wp_mono _ (fun _ d' w' => later d w d' w')); [by destruct receipt|].
  intros [value|e] d2 w2 Hl2; [|done]. destruct (gated (queue d) j); [|done].
  apply wp_bind. apply (wp_mono _ (fun _ d' w' => later d w d' w')); [done|].
  intros [value2|e] d3 w3 Hl3; [|done]. apply wp_bind.
  apply (wp_mono _ (fun _ d' w' => later d w d' w')); [|by intros [b|e] d4 w4 Hl4].
  unfold and_then, past_deadline. apply wp_bind. cbn. case_match; [|done].
  assert (Hl3' : later d w d3 (set_wall (advance (w_wall w3)) w3)) by (destruct Hl3; by constructor).
  do 2 apply wp_bind. cbn. case_match; [|exact Hl3']. apply wp_bind, wp_bind.
  apply (wp_mono _ (fun _ d' w' => later d w d' w')).
  { case_match; [apply wp_bind|]; cbn; destruct Hl3; by constructor. }
  intros [b|e] d4 w4 Hl4; [|done]. cbn. destruct (negb b); [|exact Hl4]. apply wp_bind.
  eapply wp_mono; [apply wp_available|]. intros [x|e] d5 w5 [Hl5 _]; cbn; by eapply later_trans.
Qed.

Lemma find_same_request d owner key :
  (exists x, x ∈ identities d /\ x.1.1.2 = owner /\ x.1.2 = key) ->
  exists job, List.find (same_request owner key) (q_jobs (queue d)) = Some job.
Proof.
  intros (x & Hx & Ho & Hk). destruct (List.find _ _) as [job|] eqn:Hf; [eauto|]. exfalso.
  apply list_elem_of_fmap in Hx as (j & -> & Hj). cbn in Ho, Hk.
  apply list_elem_of_In, (List.find_none _ _ Hf) in Hj.
  unfold same_request in Hj. by rewrite Ho, Hk, !String.eqb_refl in Hj.
Qed.

(** A new submission that is answered is in the queue. *)
Lemma wp_submit_new owner key p d w :
  wp (submit_new sha256_hex uuid_parses geteuid owner key p) (fun r d' _ => is_ok r = true ->
    exists job, List.find (same_request owner key) (q_jobs (queue d')) = Some job) d w.
Proof.
  unfold submit_new, the_queue, error. apply wp_bind. cbn -[last].
  do 2 (case_match; [done|]). apply wp_bind.
  apply (wp_mono _ (fun _ _ _ => True)); [by apply wp_intro|]. intros [req|e] d1 w1 _; [|done].
  apply wp_bind. apply (wp_mono _ (fun _ _ _ => True)); [by apply wp_intro|].
  intros [deadline|e] d2 w2 _; [|done]. do 4 (apply wp_bind; cbn -[last]).
  set (job := mkJob _ _ _ _ _ _ _ _ _ _ _ _). set (d3 := on_queue _ d2).
  apply wp_bind. eapply wp_mono; [apply wp_save|]. intros [[]|e] d4 w4 (Hq & _); [|done].
  apply wp_bind. eapply wp_mono; [apply wp_promote_identity|]. intros [[]|e] d5 w5 H5; [|done].
  apply wp_bind. cbn -[last]. apply wp_bind. unfold wp at 1, lift.
  destruct (last (q_jobs (queue d5))) as [j|]; cbn; [|done].
  eapply wp_mono; [apply wp_job_value|]. intros r d6 w6 Hl _. apply find_same_request.
  exists (identity job). split; [|done]. unfold identities.
  rewrite (lt_queue _ _ _ _ Hl). change (identity job ∈ identities d5). rewrite (H5 eq_refl).
  unfold identities. rewrite Hq. cbn. rewrite fmap_app. apply elem_of_app. right. by left.
Qed.

(** ** The properties *)

(** Admission. An action is dispatched only when the queue is neither blocked nor busy and either
    no session holds the desktop (and none is needed), or the caller presents the credentials of the
    one active session, which has not expired and has the availability provider's or the operator's
    permission where the policy asks for it. *)
Theorem begin_admits_only_the_session a p d w :
  let '(r, _, _) := begin a p d w in
  is_ok r = true ->
  q_blocked (queue d) = false /\ q_in_flight (queue d) = false /\
  exists d1 w1, refreshed d w d1 w1 /\ admitted a p d1 w1.
Proof.
  change (wp (begin a p) (fun r _ _ => is_ok r = true ->
    q_blocked (queue d) = false /\ q_in_flight (queue d) = false /\
    exists d1 w1, refreshed d w d1 w1 /\ admitted a p d1 w1) d w).
  unfold Desktop.begin, the_queue, error. apply wp_bind. cbn.
  destruct (q_blocked (queue d)); [done|]. destruct (q_in_flight (queue d)); [done|].
  apply wp_bind. eapply wp_mono; [apply wp_refresh|]. intros [[]|e] d1 w1 H1; [|done].
  apply wp_bind. eapply wp_mono; [apply wp_admission|]. intros [p'|e] d2 w2 H2; [|done].
  apply wp_intro. intros r d3 w3 _ _. split_and!; [done..|]. exists d1, w1. split; [done|]. by apply H2.
Qed.

(** First in, first out. A successful [promote] makes a job active only when nothing holds,
    blocks, or maintains the desktop, the job was queued, and either every job queued before it had
    passed its deadline and the provider permits input where the job needs it, or the operator
    authorized exactly this job. *)
Theorem promote_is_fifo d w :
  let '(r, d', _) := promote d w in
  r = Ok tt -> forall i j', q_jobs (queue d') !! i = Some j' -> job_state j' = "active" ->
  (exists j, q_jobs (queue d) !! i = Some j /\ job_state j = "active") \/ granted_fairly d w i.
Proof.
  change (wp promote (fun r d' _ => r = Ok tt -> forall i j', q_jobs (queue d') !! i = Some j' ->
    job_state j' = "active" ->
    (exists j, q_jobs (queue d) !! i = Some j /\ job_state j = "active") \/ granted_fairly d w i) d w).
  unfold Desktop.promote, the_queue. apply wp_bind. cbn.
  case_match; [intros _ i j' Hj Hst; left; eauto|].
  apply wp_bind. eapply wp_mono; [apply wp_refresh|]. intros [[]|e] d1 w1 H1; [|done].
  apply wp_bind. cbn. apply wp_bind. cbn. apply wp_bind. cbn. apply wp_bind.
  set (now := peek (w_wall w1)). set (d2 := on_queue _ d1).
  pose proof (refreshed_expired d w d1 w1 now H1) as Hex. change (set_jobs _ _) with (queue d2) in Hex.
  assert (Hrun : forall d3 w3, queue d3 = queue d2 -> o_at (nodes d3) = o_at (nodes d1) ->
    o_at (w_wall w3) = o_at (w_wall w1) -> same_sources d w d3 w3 /\ expired_queue now (queue d) (queue d3)).
  { intros d3 w3 Hq Hn Hw. destruct H1 as (_ & Hn1 & Hw1). rewrite Hq. split; [|done].
    assert (q_path (queue d2) = q_path (queue d) /\ q_boot_id (queue d2) = q_boot_id (queue d)) as [? ?]
      by (by destruct Hex as [-> | ->]).
    constructor; congruence. }
  assert (Hnow : now = o_at (w_wall w) (o_next (w_wall w1)))
    by (unfold now, peek; by rewrite (proj2 (proj2 H1))).
  apply (wp_mono _ (fun _ d3 w3 => queue d3 = queue d2 /\ o_at (nodes d3) = o_at (nodes d1) /\
    o_at (w_wall w3) = o_at (w_wall w1))).
  - case_match; [|done]. eapply wp_mono; [apply wp_save|]. by intros r d3 w3 (? & ? & ? & _).
  - intros [[]|e] d3 w3 (Hq & Hn & Hw); [|done]. destruct (Hrun d3 w3 Hq Hn Hw) as [Hss Hex3].
    by eapply wp_choose.
Qed.

(** Atomic grants. When the state of a grant cannot be written, [activate] answers the error with
    the queue in memory and its image on disk exactly as they were (job identifiers being distinct). *)
Theorem grant_rolls_back i d w :
  NoDup (job_id <$> q_jobs (queue d)) -> in_u64 (q_epoch (queue d)) ->
  let '(r, d', _) := activate i d w in
  is_ok r = false -> queue d' = queue d /\ durable d' = durable d.
Proof. apply wp_activate_rollback. Qed.

(** Repeated submissions. After a submission that answered [Ok], submitting the same owner and
    request key again answers with the job already in the queue, and the queue stays as it is. *)
Theorem resubmission_answers_the_same_job p d w v d1 w1 :
  desktop_submit sha256_hex uuid_parses geteuid p d w = (Ok v, d1, w1) ->
  exists owner key job,
    field p "owner" = Ok owner /\ field p "requestKey" = Ok key /\
    List.find (same_request owner key) (q_jobs (queue d1)) = Some job /\
    forall w2,
      desktop_submit sha256_hex uuid_parses geteuid p d1 w2 = job_value job d1 w2 /\
      queue (snd (fst (desktop_submit sha256_hex uuid_parses geteuid p d1 w2))) = queue d1.
Proof.
  intros H. unfold desktop_submit in H at 1. apply bind_cases in H as (r1 & d2 & w2 & E & H).
  unfold lift in E. destruct (field p "owner") as [owner|] eqn:Ho; simplify_eq; [|by destruct H].
  apply bind_cases in H as (r1 & d3 & w3 & E & H).
  unfold lift in E. destruct (field p "requestKey") as [key|] eqn:Hk; simplify_eq; [|by destruct H].
  assert (Hfound : exists job, List.find (same_request owner key) (q_jobs (queue d1)) = Some job).
  { apply bind_cases in H as (r1 & d4 & w4 & E & H). unfold the_queue, gets in E. simplify_eq.
    destruct (List.find (same_request owner key) _) as [job|] eqn:Hf.
    - exists job. by rewrite (lt_queue _ _ _ _ (wp_run _ _ _ _ _ _ _ (wp_job_value job _ _) H)).
    - by apply (wp_run _ _ _ _ _ _ _ (wp_submit_new owner key p _ _) H). }
  destruct Hfound as [job Hfound]. exists owner, key, job. split_and!; [done..|]. intros w4.
  assert (Heq : desktop_submit sha256_hex uuid_parses geteuid p d1 w4 = job_value job d1 w4).
  { unfold desktop_submit, the_queue. munfold. by rewrite Ho, Hk, Hfound. }
  split; [done|]. rewrite Heq. pose proof (wp_job_value job d1 w4) as Hv. unfold wp in Hv.
  destruct (job_value job d1 w4) as [[r d'] w']. apply Hv.
Qed.

End Sessions.
