(* ===== verification/DesktopRuns.v ===== *)
(** * Runs of the desktop queue

    An executable version of [desk_step] and concrete runs: the witnesses of
    the theorems of [DesktopSystem] and [DesktopSessions], and two behaviours
    of the code that its comments do not announce. *)
From stdpp Require Import base gmap strings list pretty.
From S2P Require Import Prelude Json Protocol Desktop DesktopSystem DesktopSessions.
Open Scope Z_scope.
Open Scope fabric_scope.

Definition sha (s : string) : string := s.
Definition any_uuid (_ : string) : bool := true.

(** [exec ev s] is the step of [ev] in [s], where the gate allows it. *)
Definition exec (ev : event) (s : Sys) : option Sys :=
  let d := desk s in
  let w := world s in
  match ev, gate s with
  | EvCommand a p, g => let '(_, d', w') := command sha any_uuid 0 a p d w in Some (mkSys d' g w')
  | EvWorker b, g => let '(_, d', w') := worker_reconcile sha any_uuid 0 b d w in Some (mkSys d' g w')
  | EvBegin a p, Free =>
      let '(r, d', w') := begin sha any_uuid 0 a p d w in
      Some (mkSys d' (if is_ok r then Running else Free) w')
  | EvEnd u, Running => let '(_, d', w') := end_ u d w in Some (mkSys d' Free w')
  | EvCheck, Free =>
      let '(r, d', w') := needs_cleanup d w in
      Some (mkSys d' (match r with Ok true => Cleaning | _ => Free end) w')
  | EvClean b, Cleaning =>
      let '(_, d', w') := cleanup_done sha any_uuid 0 b d w in Some (mkSys d' Free w')
  | EvInspect a p, Free => let '(_, d', w') := begin_recovery_inspection a p d w in Some (mkSys d' Free w')
  | EvInspectEnd, g => let '(_, d', w') := end_recovery_inspection d w in Some (mkSys d' g w')
  | EvRestart b, _ =>
      match open_with_boot_id b d w with
      | (Ok _, d', w') => Some (mkSys d' Free w')
      | _ => None
      end
  | _, _ => None
  end.

Lemma exec_step ev s s' : exec ev s = Some s' -> desk_step sha any_uuid 0 ev s s'.
Proof.
  unfold exec. destruct ev; intros H.
  - destruct (command _ _ _ _ _ _ _) as [[r d] w] eqn:E. simplify_eq. by eapply step_command.
  - destruct (worker_reconcile _ _ _ _ _ _) as [[r d] w] eqn:E. simplify_eq. by eapply step_worker.
  - destruct (gate s) eqn:Hg; [|done..].
    destruct (begin _ _ _ _ _ _ _) as [[r d] w] eqn:E. simplify_eq. by eapply step_begin.
  - destruct (gate s) eqn:Hg; [done| |done].
    destruct (end_ _ _ _) as [[r d] w] eqn:E. simplify_eq. by eapply step_end.
  - destruct (gate s) eqn:Hg; [|done..].
    destruct (needs_cleanup _ _) as [[r d] w] eqn:E. simplify_eq. by eapply step_check.
  - destruct (gate s) eqn:Hg; [done..|].
    destruct (cleanup_done _ _ _ _ _ _) as [[r d] w] eqn:E. simplify_eq. by eapply step_clean.
  - destruct (gate s) eqn:Hg; [|done..].
    destruct (begin_recovery_inspection _ _ _ _) as [[r d] w] eqn:E. simplify_eq. by eapply step_inspect.
  - destruct (end_recovery_inspection _ _) as [[r d] w] eqn:E. simplify_eq. by eapply step_inspect_end.
  - destruct (open_with_boot_id _ _ _) as [[[[]|] d] w] eqn:E; simplify_eq. by eapply step_restart.
Qed.

Fixpoint exec_all (evs : list event) (s : Sys) : option Sys :=
  match evs with
  | [] => Some s
  | ev :: evs' => match exec ev s with Some s' => exec_all evs' s' | None => None end
  end.

Lemma exec_all_reachable evs s s' :
  reachable sha any_uuid 0 s -> exec_all evs s = Some s' -> reachable sha any_uuid 0 s'.
Proof.
  revert s. induction evs as [|ev evs IH]; intros s Hr H; cbn in H; [by simplify_eq|].
  destruct (exec ev s) as [s1|] eqn:E; [|done]. eapply IH; [|done].
  eapply reach_step; [done|]. by apply exec_step.
Qed.

(** A node without availability provider and without receipt. *)
Definition bare_node : Node := mkNode false None None.
Definition fresh_desktop : Desktop := mkDesktop DesktopQueue_default None (mkOracle (fun _ => bare_node) 0).

Definition boot : Sys :=
  let '(_, d, w) := open_with_boot_id (Some "boot-1") fresh_desktop (sample_world 1000) in mkSys d Free w.

Lemma boot_reachable : reachable sha any_uuid 0 boot.
Proof.
  apply (reach_open sha any_uuid 0 (Some "boot-1") fresh_desktop _ (sample_world 1000)).
  - reflexivity.
  - vm_compute. reflexivity.
Qed.

Definition submit_params (owner key : string) : Value :=
  obj_of [("owner", VString owner); ("requestKey", VString key)].

Definition states (s : Sys) : list (string * string) :=
  (fun j => (job_owner j, job_state j)) <$> q_jobs (queue (desk s)).

(** The state after a list of events that are all possible. *)
Definition after (evs : list event) : Sys := default boot (exec_all evs boot).

Lemma after_reachable evs :
  bool_decide (is_Some (exec_all evs boot)) = true -> reachable sha any_uuid 0 (after evs).
Proof.
  intros H%bool_decide_eq_true. destruct H as [s Hs]. unfold after. rewrite Hs.
  eapply exec_all_reachable; [apply boot_reachable|done].
Qed.

(** Two clients submit; the first is granted and starts an action. *)
Definition two_sessions : list event :=
  [ EvCommand "desktop.submit" (submit_params "a" "1");
    EvCommand "desktop.submit" (submit_params "b" "2") ].

Definition session_params (owner token : string) : Value :=
  obj_of [("_desktop", obj_of [("owner", VString owner); ("token", VString token)])].

Definition acting : list event := two_sessions ++ [EvBegin "ui.click" (session_params "a" "ii")].

Example acting_runs : gate (after acting) = Running /\
  states (after acting) = [("a", "active"); ("b", "queued")].
Proof. vm_compute. split; reflexivity. Qed.

Definition granted_job : Job := mkJob "i" "a" "1" "ii" "active" 1 900000 1002 901005 false None None.

Lemma desktop_mutual_exclusion_witness :
  q_jobs (queue (desk (after acting))) !! 0%nat = Some granted_job /\ 0%nat = 0%nat.
Proof.
  assert (Hj : q_jobs (queue (desk (after acting))) !! 0%nat = Some granted_job)
    by (vm_compute; reflexivity).
  split; [exact Hj|].
  refine (desktop_mutual_exclusion sha any_uuid 0 (after acting) _ 0 0 granted_job granted_job Hj Hj _ _).
  - apply after_reachable. vm_compute. reflexivity.
  - vm_compute. reflexivity.
  - vm_compute. reflexivity.
Defined.

Lemma interrupted_action_quarantined_witness :
  q_blocked (queue (desk (after (acting ++ [EvRestart (Some "boot-1")])))) = true.
Proof.
  refine (proj1 (interrupted_action_quarantined sha any_uuid 0 (after acting) _ (Some "boot-1") _ _ _ _ _)).
  - apply after_reachable. vm_compute. reflexivity.
  - vm_compute. reflexivity.
  - vm_compute. reflexivity.
  - vm_compute. intros q [= <-]. reflexivity.
  - apply exec_step. vm_compute. reflexivity.
Defined.

Definition sample_image : DesktopQueue :=
  default DesktopQueue_default (durable (desk (after acting))).

Lemma os_restart_releases_witness :
  active (queue (desk (after (acting ++ [EvRestart (Some "boot-2")])))) = None.
Proof.
  refine (proj1 (proj2 (proj2 (os_restart_releases sha any_uuid 0 (after acting) _ (Some "boot-2")
                                 sample_image _ _ _ _)))).
  - vm_compute. reflexivity.
  - vm_compute. reflexivity.
  - vm_compute. reflexivity.
  - apply exec_step. vm_compute. reflexivity.
Defined.

(** The action timed out; another client keeps trying. *)
Definition quarantined : list event := acting ++ [EvEnd true].

Lemma blocked_until_recovery_witness :
  let s' := after (quarantined ++ [EvCommand "desktop.list" VNull]) in
  q_blocked (queue (desk s')) = true \/
  (exists p, EvCommand "desktop.list" VNull = EvCommand "desktop.recover" p /\
     vindex p "confirmDesktopReset" = VBool true) \/
  (exists b, EvCommand "desktop.list" VNull = EvRestart b).
Proof.
  apply (blocked_until_recovery sha any_uuid 0 (EvCommand "desktop.list" VNull) (after quarantined)).
  - apply after_reachable. vm_compute. reflexivity.
  - vm_compute. reflexivity.
  - apply exec_step. vm_compute. reflexivity.
Defined.

Definition lone_job : Job := mkJob "i" "a" "1" "ii" "queued" 0 900000 1004 0 false None None.
Definition lone_desktop : Desktop :=
  mkDesktop (set_jobs [lone_job] (queue (desk boot))) None (mkOracle (fun _ => bare_node) 0).

(** Every write fails. *)
Definition full_disk : World :=
  mkWorld (mkOracle (fun n => 1000 + Z.of_nat n) 0) (mkOracle (fun n => 1000 + Z.of_nat n) 0)
    (mkOracle unary 0) (mkOracle (fun _ => false) 0).

Lemma grant_rolls_back_witness :
  let '(r, d', _) := activate 0 lone_desktop full_disk in
  is_ok r = false /\ queue d' = queue lone_desktop.
Proof.
  pose proof (grant_rolls_back 0 lone_desktop full_disk) as H.
  destruct (activate 0 lone_desktop full_disk) as [[r d'] w'] eqn:E.
  assert (Hr : is_ok r = false) by (vm_compute in E; injection E as <- _ _; reflexivity).
  split; [exact Hr|]. apply H; [|split; vm_compute; discriminate|exact Hr].
  apply NoDup_singleton.
Defined.

Definition first_submission := desktop_submit sha any_uuid 0 (submit_params "a" "1") (desk boot) (world boot).
Definition first_value : Value :=
  match fst (fst first_submission) with Ok v => v | Err _ => VNull end.

Lemma resubmission_answers_the_same_job_witness :
  exists owner key job,
    field (submit_params "a" "1") "owner" = Ok owner /\
    List.find (same_request owner key) (q_jobs (queue (snd (fst first_submission)))) = Some job.
Proof.
  destruct (resubmission_answers_the_same_job sha any_uuid 0 (submit_params "a" "1") (desk boot)
              (world boot) first_value (snd (fst first_submission)) (snd first_submission))
    as (owner & key & job & H1 & _ & H3 & _).
  - vm_compute. reflexivity.
  - exists owner, key, job. split; [exact H1|exact H3].
Defined.

(** ** Two behaviours *)

(** The first write fails, every later one succeeds. *)
Definition failing_once : World :=
  mkWorld (mkOracle (fun n => 1000 + Z.of_nat n) 0) (mkOracle (fun n => 1000 + Z.of_nat n) 0)
    (mkOracle unary 0) (mkOracle (fun n => negb (Nat.eqb n 0)) 0).

(** When the write of [begin] fails, the action is refused but [in_flight] stays set in memory:
    every later action is refused as busy, and [desktop.recover] is refused too, although nothing
    was dispatched and the disk works again. *)
Theorem failed_begin_leaves_the_queue_busy :
  let s0 := mkSys (desk boot) Free failing_once in
  let '(r1, d1, w1) := begin sha any_uuid 0 "clipboard.write" VNull (desk s0) (world s0) in
  let '(r2, d2, w2) := begin sha any_uuid 0 "clipboard.write" VNull d1 w1 in
  let '(r3, _, _) := command sha any_uuid 0 "desktop.recover"
                       (obj_of [("confirmDesktopReset", VBool true)]) d2 w2 in
  r1 = Err (Rpc (rpc_error "DESKTOP_STATE_FAILED" "")) /\
  r2 = Err (Rpc (rpc_error "DESKTOP_BUSY" "desktop action is already in flight")) /\
  r3 = Err (Rpc (rpc_error "DESKTOP_RECOVERY_REQUIRED"
                   "reset native helpers/desktop first, then confirmDesktopReset")).
Proof. vm_compute. split_and!; reflexivity. Qed.

(** The executor dies during the action, and when it starts again it cannot look at the file of the
    queue: [path.exists()] answers false. It opens an empty queue that is not blocked, writes it over
    the old one, and the next client acts at once, although the outcome of the action is unknown. *)
Theorem unseen_queue_forgets_the_action :
  let s := mkSys (desk (after acting)) Running failing_once in
  let '(r, d1, w1) := open_with_boot_id (Some "boot-1") (desk s) (world s) in
  let '(r2, d2, w2) := command sha any_uuid 0 "desktop.submit" (submit_params "b" "2") d1 w1 in
  r = Ok tt /\ q_blocked (queue d1) = false /\ (q_in_flight <$> durable (desk s)) = Some true /\
  (q_jobs <$> durable d1) = Some [] /\ states (mkSys d2 Free w2) = [("b", "active")].
Proof. vm_compute. split_and!; reflexivity. Qed.

(** The first session times out, is finished, and is recovered during its cleanup. *)
Definition overtaken_cleanup : list event :=
  quarantined ++
  [ EvCommand "desktop.finish" (obj_of [("owner", VString "a"); ("token", VString "ii")]);
    EvCheck;
    EvCommand "desktop.recover" (obj_of [("confirmDesktopReset", VBool true)]) ].

(** The cleanup of a session does not hold the queue while it stops the helpers. If the operator
    recovers the queue meanwhile, the next session is granted, and the end of the cleanup marks that
    session, which never asked to finish, as completed. *)
Theorem cleanup_completes_the_next_session :
  reachable sha any_uuid 0 (after (overtaken_cleanup ++ [EvClean true])) /\
  states (after overtaken_cleanup) = [("a", "interrupted"); ("b", "active")] /\
  states (after (overtaken_cleanup ++ [EvClean true])) = [("a", "interrupted"); ("b", "completed")].
Proof.
  split; [apply after_reachable; vm_compute; reflexivity|]. split; vm_compute; reflexivity.
Qed.
