(* ===== verification/DesktopDispatch.v ===== *)
(** * Dispatch of desktop actions ([crates/machine-fabric-runtime/src/executor.rs])

    [ExecutorRuntime::desktop_dispatch] admits an action through the queue of
    [Desktop], runs it, decides from its result whether the state of the
    desktop is uncertain, and records that. The action itself ([dispatch]), the
    stopping of helpers ([close_existing]) and the parsing of UUIDs are
    parameters. *)
From stdpp Require Import base gmap strings list.
From S2P Require Import Prelude Json Protocol Desktop DesktopSystem.
Open Scope Z_scope.
Open Scope fabric_scope.

Definition pointer_str (path : list string) (v : Value) : option string :=
  match pointer path v with Some x => as_str x | None => None end.
Definition pointer_bool (path : list string) (v : Value) : option bool :=
  match pointer path v with Some x => as_bool x | None => None end.
Definition is_text (o : option string) (s : string) : bool :=
  match o with Some t => String.eqb t s | None => false end.
Definition is_flag (o : option bool) (b : bool) : bool :=
  match o with Some c => Bool.eqb c b | None => false end.
Definition is_value (o : option Value) (v : Value) : bool :=
  match o with Some x => value_eqb x v | None => false end.

(** ** Uncertain outcomes *)

Definition empty_array (v : Value) : bool :=
  match as_array v with Some [] => true | _ => false end.

(** All elements are unsigned integers, none twice. *)
Definition distinct_codes (v : Value) : bool :=
  match as_array v with
  | Some items =>
      match mapM as_u64 items with Some codes => bool_decide (NoDup codes) | None => false end
  | None => false
  end.

Definition counts_match (receipt dispatch : Value) : bool :=
  match as_u64 (vindex receipt "operationEventsDispatched"), as_u64 (vindex receipt "releaseEventsDispatched") with
  | Some operation, Some releases =>
      if 0 <? operation then
        match u64_checked_add operation releases with
        | Some total => bool_decide (as_u64 (vindex dispatch "eventsDispatched") = Some total)
        | None => false
        end
      else false
  | _, _ => false
  end.

(** [verified_native_input_recovery] *)
Definition verified_native_input_recovery (dispatch : Value) : bool :=
  let receipt := vindex dispatch "inputRecovery" in
  eq_bool (vindex dispatch "recoveryRequired") false
  && eq_bool (vindex dispatch "retrySafe") false
  && empty_array (vindex dispatch "unreleasedKeys")
  && empty_array (vindex dispatch "unreleasedMouseButtons")
  && eq_int (vindex receipt "schemaVersion") 1
  && eq_str (vindex receipt "scope") "native_transaction"
  && eq_str (vindex receipt "status") "verified"
  && eq_bool (vindex receipt "nativeOperationStopped") true
  && eq_bool (vindex receipt "inputReplayed") false
  && eq_str (vindex receipt "verification") "system_input_state"
  && empty_array (vindex receipt "unreleasedKeys")
  && empty_array (vindex receipt "unreleasedMouseButtons")
  && distinct_codes (vindex receipt "verifiedKeys")
  && distinct_codes (vindex receipt "verifiedMouseButtons")
  && counts_match receipt dispatch.

Definition partial_hid_unknown (value : Value) : bool :=
  is_text (pointer_str ["details"; "execution"; "inputDispatch"; "outcome"] value) "unknown"
  && is_text (pointer_str ["details"; "execution"; "inputDispatch"; "kind"] value) "partial_hid"
  && negb match pointer ["details"; "execution"; "inputDispatch"] value with
          | Some dispatch => verified_native_input_recovery dispatch
          | None => false
          end.

(** [has_structured_computer_use_unknown] *)
Definition has_structured_computer_use_unknown (value : Value) : bool :=
  if negb (is_text (pointer_str ["details"; "tool"] value) "act_ui")
     || negb (is_text (pointer_str ["details"; "status"] value) "dispatch_outcome_unknown")
  then false
  else
    let transport_unknown :=
      is_text (pointer_str ["details"; "execution"; "transport"; "outcome"] value) "unknown" in
    let semantic_unknown :=
      is_text (pointer_str ["details"; "execution"; "semanticDispatch"; "outcome"] value) "unknown"
      && is_text (pointer_str ["details"; "execution"; "semanticDispatch"; "mechanism"] value) "atspi"
      && is_flag (pointer_bool ["details"; "execution"; "semanticDispatch"; "recoveryRequired"] value) true
      && is_flag (pointer_bool ["details"; "execution"; "semanticDispatch"; "retrySafe"] value) false
      && is_text (pointer_str ["details"; "error"; "code"] value) "semantic_dispatch_unknown" in
    transport_unknown || partial_hid_unknown value || semantic_unknown.

Definition launch_failure_receipt : Value :=
  obj_of [("version", vu64 1); ("tool", VString "launch_browser"); ("phase", VString "navigation");
    ("physicalInputDispatched", VBool false); ("navigationOutcome", VString "unknown");
    ("ownedBrowserClosed", VBool true); ("ownedProfileRemoved", VBool true);
    ("ownershipReleased", VBool true); ("retrySafe", VBool false)].

Definition navigation_failure_receipt : Value :=
  obj_of [("version", vu64 1); ("mechanism", VString "cdp"); ("command", VString "Page.navigate");
    ("phase", VString "navigation"); ("physicalInputDispatched", VBool false);
    ("navigationOutcome", VString "unknown"); ("retrySafe", VBool false)].

Section Dispatch.
Context (uuid_parses : string -> bool).

(** [returned_cdp_navigation_failure] *)
Definition returned_cdp_navigation_failure (action : string) (tool : option string) (error : RpcError)
    : bool :=
  let details := err_details error in
  let matched_scope :=
    match tool with
    | Some t =>
        if String.eqb t "navigate_browser" then true
        else if String.eqb t "launch_browser"
        then is_value (pointer ["hostDiagnostics"; "launchFailure"] details) launch_failure_receipt
        else false
    | None => false
    end in
  String.eqb action "computer-use.call"
  && matched_scope
  && String.eqb (err_code error) "COMPUTER_USE_TOOL_FAILED"
  && is_value (vget "hostResponseReceived" details) (VBool true)
  && bool_decide (match vget "tool" details with Some v => as_str v | None => None end = tool)
  && is_value (vget "operationOutcome" details) (VString "unknown")
  && match vget "hostRequestId" details with
     | Some v => match as_str v with Some id => uuid_parses id | None => false end
     | None => false
     end
  && is_value (pointer ["hostDiagnostics"; "navigationFailure"] details) navigation_failure_receipt.

Definition read_only_poll (action : string) (tool : option string) : bool :=
  String.eqb action "computer-use.tools"
  || (String.eqb action "computer-use.call"
      && match tool with Some t => one_of ["observe_ui"; "wait_for"] t | None => false end).

(** [desktop_dispatch_uncertain] *)
Definition desktop_dispatch_uncertain (action : string) (tool : option string)
    (result : result RpcError Value) : bool :=
  match result with
  | Err error =>
      let message := to_ascii_lowercase (err_message error) in
      negb (read_only_poll action tool)
      && negb (returned_cdp_navigation_failure action tool error)
      && (String.eqb (err_code error) "COMPUTER_USE_UNAVAILABLE"
          || str_contains "TIMEOUT" (err_code error)
          || (String.eqb (err_code error) "COMPUTER_USE_TOOL_FAILED"
              && (str_contains "timeout" message || str_contains "timed out" message
                  || str_contains "abort" message)))
  | Ok value => String.eqb action "computer-use.call" && has_structured_computer_use_unknown value
  end.

(** ** The handler *)

Context (sha256_hex : string -> string) (geteuid : Z).
Context (dispatch : string -> Value -> result RpcError Value).
Context (close_existing : result RpcError unit).

Definition of_rpc {A} (r : result RpcError A) : M Desktop fault A := lift (map_err Rpc r).

(** [ExecutorRuntime::reconcile_desktop], with the gate free *)
Definition reconcile_desktop : M Desktop fault unit :=
  let* cleanup := needs_cleanup in
  if cleanup : bool then
    cleanup_done sha256_hex uuid_parses geteuid (is_ok close_existing) ;;
    of_rpc close_existing
  else ret tt.

(** [ExecutorRuntime::desktop_dispatch] on a platform without recovery inspection *)
Definition desktop_dispatch (action : string) (params : Value) : M Desktop fault Value :=
  if String.eqb action "ui.native-inspect" && is_value (vget "recoveryInspection" params) (VBool true) then
    lift (validate_recovery_inspection_params action params) ;;
    Desktop.error "RECOVERY_INSPECT_UNSUPPORTED_PLATFORM" "recovery inspection is supported only on macOS"
  else if starts_with "desktop." action then
    let* result := command sha256_hex uuid_parses geteuid action params in
    reconcile_desktop ;;
    if one_of ["desktop.finish"; "desktop.cancel"] action
    then command sha256_hex uuid_parses geteuid "desktop.get" params
    else ret result
  else if negb (protected action) then of_rpc (dispatch action params)
  else
    reconcile_desktop ;;
    let* params := begin sha256_hex uuid_parses geteuid action params in
    let tool := match vget "tool" params with Some v => as_str v | None => None end in
    let result := dispatch action params in
    end_ (desktop_dispatch_uncertain action tool result) ;;
    reconcile_desktop ;;
    of_rpc result.

End Dispatch.

(** ** The properties *)

Section Properties.
Context (uuid_parses : string -> bool) (sha256_hex : string -> string) (geteuid : Z).
Context (dispatch : string -> Value -> result RpcError Value) (close_existing : result RpcError unit).
#[local] Abbreviation reconcile := (reconcile_desktop uuid_parses sha256_hex geteuid close_existing).
#[local] Abbreviation handler := (desktop_dispatch uuid_parses sha256_hex geteuid dispatch close_existing).

Lemma keeps_reconcile R D `{!QueueInvariant R} :
  (forall q, R q -> D (Some (image q))) -> keeps (held R D) reconcile.
Proof.
  intros HD. unfold reconcile_desktop, of_rpc. apply keeps_bind; [by apply keeps_needs_cleanup|].
  intros cleanup. destruct cleanup; [|apply keeps_ret].
  apply keeps_bind; [by apply keeps_cleanup_done|]. intros _. apply keeps_lift.
Qed.

#[local] Instance any_queue : QueueInvariant (fun _ => True).
Proof. by constructor. Qed.

(** The queue, wherever it is kept, keeps its path. *)
Abbreviation pathed := (held (fun _ => True) (fun _ => True)).

Lemma begin_pathed a p : keeps pathed (begin sha256_hex uuid_parses geteuid a p).
Proof.
  intros d w H. apply (wp_begin _ _ _ (fun _ => True) (fun _ => True)); [done..|].
  intros params. apply keeps_bind; [by apply keeps_update|]. intros _.
  apply keeps_bind; [by apply keeps_save|]. intros _. apply keeps_ret.
Qed.

(** After [end(true)] the queue is blocked, and the reconciliation that follows leaves it so. *)
Lemma end_then_blocked A (k : M Desktop fault A) d w :
  pathed d w ->
  keeps (held (fun q => q_blocked q = true) (fun _ => True)) k ->
  wp (end_ true ;; k) (fun _ d' _ => q_blocked (queue d') = true) d w.
Proof.
  intros (Hp & _ & _) Hk. apply wp_bind.
  apply (wp_mono _ (fun _ d' w' => held (fun q => q_blocked q = true) (fun _ => True) d' w')).
  - unfold end_. apply wp_bind. cbn. apply wp_bind. cbn.
    apply (keeps_save (fun q => q_blocked q = true) (fun _ => True)); [done|].
    split; [done|]. split; [|done]. cbn. apply orb_true_r.
  - intros [[]|e] d1 w1 H1; [|by apply H1]. eapply wp_mono; [by apply Hk|]. intros r d2 w2 H2. apply H2.
Qed.

(** Fail closed. When a protected action has been dispatched and its result leaves the state of the
    desktop uncertain, the queue is blocked when the handler returns, whether or not the record could
    be written, so that no further action is dispatched before a recovery. *)
Theorem uncertain_action_quarantines action params d w d1 w1 p' d2 w2 :
  q_path (queue d) = true -> protected action = true ->
  starts_with "desktop." action = false ->
  is_value (vget "recoveryInspection" params) (VBool true) = false ->
  reconcile d w = (Ok tt, d1, w1) ->
  begin sha256_hex uuid_parses geteuid action params d1 w1 = (Ok p', d2, w2) ->
  desktop_dispatch_uncertain uuid_parses action
    match vget "tool" p' with Some v => as_str v | None => None end (dispatch action p') = true ->
  q_blocked (queue (snd (fst (handler action params d w)))) = true.
Proof.
  intros Hp Hprot Hdesk Hinsp Hrec Hbegin Hunc.
  assert (H2 : pathed d2 w2).
  { refine (wp_run _ _ _ _ _ _ _ (begin_pathed action params d1 w1 _) Hbegin).
    by refine (wp_run _ _ _ _ _ _ _ (keeps_reconcile (fun _ => True) (fun _ => True) _ d w _) Hrec). }
  assert (Hw : wp (handler action params) (fun _ d' _ => q_blocked (queue d') = true) d w).
  { unfold desktop_dispatch. rewrite Hinsp, andb_false_r, Hdesk, Hprot. cbn [negb].
    apply wp_bind. unfold wp at 1. rewrite Hrec. apply wp_bind. unfold wp at 1. rewrite Hbegin, Hunc.
    apply end_then_blocked; [done|].
    apply keeps_bind; [by apply keeps_reconcile|]. intros _. apply keeps_lift. }
  unfold wp in Hw. by destruct (handler action params d w) as [[r d'] w'].
Qed.

Lemma counts_match_spec receipt dispatched :
  counts_match receipt dispatched = true ->
  exists operation releases,
    as_u64 (vindex receipt "operationEventsDispatched") = Some operation /\ 0 < operation /\
    as_u64 (vindex receipt "releaseEventsDispatched") = Some releases /\
    operation + releases <= U64_MAX /\
    as_u64 (vindex dispatched "eventsDispatched") = Some (operation + releases).
Proof.
  unfold counts_match, u64_checked_add. intros H. repeat case_match; try done. bool_prop.
  simplify_eq. eauto 10.
Qed.

(** Partial input. A tool result that reports partly posted input is taken as certain only with a
    receipt of the native recovery in which every key and button is released and the events of the
    operation and of the releases add up, without overflow, to the events dispatched. *)
Theorem partial_input_needs_a_receipt tool value :
  pointer_str ["details"; "tool"] value = Some "act_ui" ->
  pointer_str ["details"; "status"] value = Some "dispatch_outcome_unknown" ->
  pointer_str ["details"; "execution"; "inputDispatch"; "outcome"] value = Some "unknown" ->
  pointer_str ["details"; "execution"; "inputDispatch"; "kind"] value = Some "partial_hid" ->
  desktop_dispatch_uncertain uuid_parses "computer-use.call" tool (Ok value) = false ->
  exists dispatched operation releases,
    pointer ["details"; "execution"; "inputDispatch"] value = Some dispatched /\
    let receipt := vindex dispatched "inputRecovery" in
    vindex receipt "status" = VString "verified" /\
    vindex receipt "nativeOperationStopped" = VBool true /\
    as_array (vindex dispatched "unreleasedKeys") = Some [] /\
    as_array (vindex dispatched "unreleasedMouseButtons") = Some [] /\
    as_array (vindex receipt "unreleasedKeys") = Some [] /\
    as_array (vindex receipt "unreleasedMouseButtons") = Some [] /\
    0 < operation /\ operation + releases <= U64_MAX /\
    as_u64 (vindex dispatched "eventsDispatched") = Some (operation + releases).
Proof.
  intros H1 H2 H3 H4 H. unfold desktop_dispatch_uncertain, has_structured_computer_use_unknown in H.
  rewrite H1, H2 in H. cbn in H. apply orb_false_iff in H as [[_ H]%orb_false_iff _].
  unfold partial_hid_unknown in H. rewrite H3, H4 in H. cbn [is_text String.eqb Ascii.eqb andb] in H.
  apply negb_false_iff in H. destruct (pointer _ value) as [x|] eqn:Hx; [|done].
  unfold verified_native_input_recovery in H.
  repeat match goal with H : _ && _ = true |- _ => apply andb_true_iff in H as [? ?] end.
  assert (Hempty : forall v, empty_array v = true -> as_array v = Some [])
    by (intros v; unfold empty_array; by repeat case_match).
  destruct (counts_match_spec (vindex x "inputRecovery") x) as (op & rel & _ & ? & _ & ? & ?); [done|].
  exists x, op, rel. split; [done|]. cbv zeta.
  split_and!; auto; (by apply eq_str_spec) || (by apply eq_bool_spec).
Qed.

End Properties.

(** ** Witnesses *)

Definition lost_connection (_ : string) (_ : Value) : result RpcError Value :=
  Err (rpc_error "COMPUTER_USE_UNAVAILABLE" "helper is gone").

Definition opened : Desktop :=
  snd (fst (open_with_boot_id (Some "boot-1")
    (mkDesktop DesktopQueue_default None (mkOracle (fun _ => mkNode false None None) 0)) (sample_world 0))).

Lemma uncertain_action_quarantines_witness :
  q_blocked (queue (snd (fst (desktop_dispatch (fun _ => true) (fun s => s) 0 lost_connection (Ok tt)
    "ui.click" VNull opened (sample_world 10))))) = true.
Proof.
  eapply (uncertain_action_quarantines (fun _ => true) (fun s => s) 0 lost_connection (Ok tt)
            "ui.click" VNull opened (sample_world 10)).
  - vm_compute. reflexivity.
  - vm_compute. reflexivity.
  - vm_compute. reflexivity.
  - vm_compute. reflexivity.
  - vm_compute. reflexivity.
  - vm_compute. reflexivity.
  - vm_compute. reflexivity.
Defined.

Definition recovered_dispatch : Value :=
  obj_of [("outcome", VString "unknown"); ("kind", VString "partial_hid");
    ("recoveryRequired", VBool false); ("retrySafe", VBool false);
    ("unreleasedKeys", VArray []); ("unreleasedMouseButtons", VArray []); ("eventsDispatched", vu64 5);
    ("inputRecovery", obj_of [("schemaVersion", vu64 1); ("scope", VString "native_transaction");
       ("status", VString "verified"); ("nativeOperationStopped", VBool true);
       ("inputReplayed", VBool false); ("verification", VString "system_input_state");
       ("unreleasedKeys", VArray []); ("unreleasedMouseButtons", VArray []);
       ("verifiedKeys", VArray [vu64 4; vu64 7]); ("verifiedMouseButtons", VArray []);
       ("operationEventsDispatched", vu64 3); ("releaseEventsDispatched", vu64 2)])].

Definition recovered_value : Value :=
  obj_of [("details", obj_of [("tool", VString "act_ui"); ("status", VString "dispatch_outcome_unknown");
    ("execution", obj_of [("inputDispatch", recovered_dispatch)])])].

Lemma partial_input_needs_a_receipt_witness :
  exists dispatched, pointer ["details"; "execution"; "inputDispatch"] recovered_value = Some dispatched /\
    as_array (vindex dispatched "unreleasedKeys") = Some [].
Proof.
  destruct (partial_input_needs_a_receipt (fun _ => true) None recovered_value)
    as (x & op & rel & Hx & _ & _ & Hk & _).
  - vm_compute. reflexivity.
  - vm_compute. reflexivity.
  - vm_compute. reflexivity.
  - vm_compute. reflexivity.
  - vm_compute. reflexivity.
  - exists x. split; [exact Hx|exact Hk].
Defined.
