(* ===== verification/Capacity.v ===== *)
(** * Execution capacity ([ExecutionCapacity] in [crates/machine-fabric-runtime/src/executor.rs])

    A monitor that admits a bounded number of requests whose resources are
    disjoint, with a bounded queue. [acquire] is one thread's walk through
    critical sections separated by waits on the condition variable: [enter],
    then any number of [wake]s, then the drop of the permit. [cap_step] is
    their interleaving. The ghost field [permits] lists the permits that are
    out. *)
From stdpp Require Import base gmap sets strings list sorting pretty.
From S2P Require Import Prelude Json Protocol.
Open Scope Z_scope.

Record WaitingExecution := mkWaiting { wait_ticket : Z; wait_resources : list string }.

Record ExecutionState := mkExecutionState {
  ex_active : Z;
  ex_held_resources : gset string;
  ex_waiting : list WaitingExecution;
  ex_next_ticket : Z;
}.

Definition ExecutionState_default : ExecutionState := mkExecutionState 0 ∅ [] 0.

Record ExecutionCapacity := mkExecutionCapacity {
  ec_maximum : Z;
  ec_maximum_queue : Z;
  ec_wait_timeout_ms : Z;
}.

(** [ExecutionCapacity::from_environment], given the parsed variables and the parallelism. *)
Definition from_environment (parallelism maximum maximum_queue wait_ms : option Z) : ExecutionCapacity :=
  let fallback := Z.max 2 (Z.min 32 (default 4 parallelism)) in
  let positive (o : option Z) (d : Z) : Z :=
    match o with Some v => if 0 <? v then v else d | None => d end in
  mkExecutionCapacity (positive maximum fallback) (default 128 maximum_queue) (positive wait_ms 30000).

Definition has_ticket (t : Z) (x : WaitingExecution) : bool := wait_ticket x =? t.

Definition shares (rs rs' : list string) : bool := existsb (fun r => bool_decide (r ∈ rs')) rs.

(** [ExecutionCapacity::can_grant] *)
Definition can_grant (c : ExecutionCapacity) (s : ExecutionState) (resources : list string)
    (ticket : option Z) : bool :=
  if (ec_maximum c <=? ex_active s)
     || existsb (fun r => bool_decide (r ∈ ex_held_resources s)) resources
  then false
  else match ticket with
  | None => match ex_waiting s with [] => true | _ => false end
  | Some t =>
      match position (has_ticket t) (ex_waiting s) with
      | None => false
      | Some i => negb (existsb (fun earlier => shares (wait_resources earlier) resources)
                          (take i (ex_waiting s)))
      end
  end.

Definition queue_full (c : ExecutionCapacity) : RpcError :=
  mkRpcError "EXECUTOR_QUEUE_FULL" ("executor queue limit " +:+ pretty (ec_maximum_queue c) +:+ " reached")
    true VNull.
Definition queue_timeout (c : ExecutionCapacity) : RpcError :=
  mkRpcError "EXECUTOR_QUEUE_TIMEOUT"
    ("executor admission wait exceeded " +:+ pretty (ec_wait_timeout_ms c) +:+ " ms") true VNull.

(** The outcome of one critical section of [acquire]. *)
Inductive admission :=
| Granted (resources : list string)
| Waits (ticket : Z)
| Refused (e : RpcError)
| Panicking.

(** The ticket leaves the queue with a permit; [None] is the panic on a missing ticket. *)
Definition grant (s : ExecutionState) (ticket : Z) (resources : list string) : option ExecutionState :=
  match position (has_ticket ticket) (ex_waiting s) with
  | None => None
  | Some i =>
      Some (mkExecutionState (ex_active s + 1) (ex_held_resources s ∪ list_to_set resources)
              (take i (ex_waiting s) ++ drop (S i) (ex_waiting s)) (ex_next_ticket s))
  end.

Definition leave (s : ExecutionState) (ticket : Z) : ExecutionState :=
  mkExecutionState (ex_active s) (ex_held_resources s)
    (List.filter (fun x => negb (has_ticket ticket x)) (ex_waiting s)) (ex_next_ticket s).

(** The head of the loop of [acquire]; [expired] is [remaining.is_zero()]. *)
Definition attempt_grant (c : ExecutionCapacity) (ticket : Z) (resources : list string) (expired : bool)
    (s : ExecutionState) : admission * ExecutionState :=
  if can_grant c s resources (Some ticket) then
    match grant s ticket resources with
    | Some s' => (Granted resources, s')
    | None => (Panicking, s)
    end
  else if expired then (Refused (queue_timeout c), leave s ticket)
  else (Waits ticket, s).

(** [ExecutionCapacity::acquire] up to the first wait *)
Definition enter (c : ExecutionCapacity) (requested : list string) (expired : bool) (s : ExecutionState)
    : admission * ExecutionState :=
  let resources := sort_dedup requested in
  let ticket := ex_next_ticket s in
  let s := mkExecutionState (ex_active s) (ex_held_resources s) (ex_waiting s)
             (u64_saturating_add ticket 1) in
  if negb (can_grant c s resources None) && (ec_maximum_queue c <=? Z.of_nat (length (ex_waiting s)))
  then (Refused (queue_full c), s)
  else
    attempt_grant c ticket resources expired
      (mkExecutionState (ex_active s) (ex_held_resources s)
         (ex_waiting s ++ [mkWaiting ticket resources]) (ex_next_ticket s)).

(** [ExecutionCapacity::acquire] from the return of one wait to the next *)
Definition wake (c : ExecutionCapacity) (ticket : Z) (resources : list string)
    (timed_out expired : bool) (s : ExecutionState) : admission * ExecutionState :=
  if timed_out && negb (can_grant c s resources (Some ticket))
  then (Refused (queue_timeout c), leave s ticket)
  else attempt_grant c ticket resources expired s.

(** [ExecutionPermit::drop] *)
Definition drop_permit (resources : list string) (s : ExecutionState) : ExecutionState :=
  mkExecutionState (Z.max (ex_active s - 1) 0)
    (fold_left (fun held r => held ∖ {[ r ]}) resources (ex_held_resources s))
    (ex_waiting s) (ex_next_ticket s).

(** [ExecutionCapacity::snapshot], [ExecutionCapacity::is_available] *)
Definition snapshot (c : ExecutionCapacity) (s : ExecutionState) : Z * Z * Z * Z * Z :=
  (ex_active s, ec_maximum c, Z.of_nat (length (ex_waiting s)), ec_maximum_queue c,
   Z.of_nat (size (ex_held_resources s))).
Definition is_available (resource : string) (s : ExecutionState) : bool :=
  negb (bool_decide (resource ∈ ex_held_resources s)).

(** ** The monitor as a system *)

Record Monitor := mkMonitor { st : ExecutionState; permits : list (list string) }.

Definition settle (o : admission) (ps : list (list string)) : list (list string) :=
  match o with Granted rs => ps ++ [rs] | _ => ps end.

Inductive cap_step (c : ExecutionCapacity) : Monitor -> Monitor -> Prop :=
| cap_enter rs expired m o s :
    enter c rs expired (st m) = (o, s) -> cap_step c m (mkMonitor s (settle o (permits m)))
| cap_wake x timed_out expired m o s :
    x ∈ ex_waiting (st m) ->
    wake c (wait_ticket x) (wait_resources x) timed_out expired (st m) = (o, s) ->
    cap_step c m (mkMonitor s (settle o (permits m)))
| cap_drop i rs m :
    permits m !! i = Some rs ->
    cap_step c m (mkMonitor (drop_permit rs (st m)) (delete i (permits m))).

(** At most [n] steps from the start. *)
Inductive cap_run (c : ExecutionCapacity) : nat -> Monitor -> Prop :=
| run_start : cap_run c 0 (mkMonitor ExecutionState_default [])
| run_more n m m' : cap_run c n m -> cap_step c m m' -> cap_run c (S n) m'.

(** ** The invariant *)

Record cap_inv (c : ExecutionCapacity) (n : nat) (m : Monitor) : Prop := mk_cap_inv {
  ci_active : ex_active (st m) = Z.of_nat (length (permits m));
  ci_limit : ex_active (st m) <= Z.max 0 (ec_maximum c);
  ci_held : ex_held_resources (st m) = list_to_set (mjoin (permits m));
  ci_disjoint : NoDup (mjoin (permits m));
  ci_tickets : NoDup (wait_ticket <$> ex_waiting (st m));
  ci_issued : forall x, x ∈ ex_waiting (st m) -> wait_ticket x < ex_next_ticket (st m);
  ci_resources : forall x, x ∈ ex_waiting (st m) -> NoDup (wait_resources x);
  ci_next : 0 <= ex_next_ticket (st m) <= Z.of_nat n;
  ci_queue : Z.of_nat (length (ex_waiting (st m))) <= Z.max 0 (ec_maximum_queue c);
}.

Lemma cap_inv_start c : cap_inv c 0 (mkMonitor ExecutionState_default []).
Proof.
  constructor; cbn; try done; try lia; try (by constructor); intros x Hx; by apply not_elem_of_nil in Hx.
Qed.

Lemma existsb_false {A} (p : A -> bool) l : existsb p l = false <-> forall x, x ∈ l -> p x = false.
Proof.
  induction l as [|a l IH]; cbn.
  - split; [|done]. intros _ x Hx. by apply not_elem_of_nil in Hx.
  - rewrite orb_false_iff, IH. split.
    + intros [Ha Hl] x [->|Hx]%elem_of_cons; auto.
    + intros H. split; [apply H; by left|]. intros x Hx. apply H. by right.
Qed.

Lemma shares_false rs rs' : shares rs rs' = false <-> forall r, r ∈ rs -> r ∉ rs'.
Proof.
  unfold shares. rewrite existsb_false. split; intros H r Hr; specialize (H r Hr).
  - by apply bool_decide_eq_false in H.
  - by apply bool_decide_eq_false.
Qed.

(** What a positive answer of [can_grant] for a ticket means. *)
Lemma can_grant_Some c s rs t :
  can_grant c s rs (Some t) = true <->
  ex_active s < ec_maximum c /\ (forall r, r ∈ rs -> r ∉ ex_held_resources s) /\
  exists i x, position (has_ticket t) (ex_waiting s) = Some i /\ ex_waiting s !! i = Some x /\
    wait_ticket x = t /\
    forall k y, (k < i)%nat -> ex_waiting s !! k = Some y -> forall r, r ∈ wait_resources y -> r ∉ rs.
Proof.
  unfold can_grant. split.
  - destruct (_ || _) eqn:Hb; [done|]. apply orb_false_iff in Hb as [Ha Hr].
    destruct (position _ _) as [i|] eqn:Hp; [|done]. intros Hn%negb_true_iff.
    apply Z.leb_gt in Ha. split; [done|]. split.
    + intros r Hin. rewrite existsb_false in Hr. by apply Hr, bool_decide_eq_false in Hin.
    + destruct (proj1 (position_Some _ _ _) Hp) as (x & Hx & Ht & _). exists i, x.
      split_and!; [done..|by apply Z.eqb_eq|]. intros k y Hk Hy. apply shares_false.
      rewrite existsb_false in Hn. apply Hn. apply list_elem_of_lookup. exists k.
      by rewrite lookup_take_lt.
  - intros (Ha & Hr & i & x & Hp & Hx & Ht & Hearly).
    rewrite (proj2 (Z.leb_gt _ _)) by lia. cbn.
    rewrite (proj2 (existsb_false _ _)).
    + rewrite Hp. apply negb_true_iff, existsb_false. intros y Hy. apply shares_false.
      apply list_elem_of_lookup in Hy as [k Hk]. apply lookup_take_Some in Hk as [Hk Hlt]. eauto.
    + intros r Hin. by apply bool_decide_eq_false, Hr.
Qed.

Lemma mjoin_snoc {A} (ps : list (list A)) rs : mjoin (ps ++ [rs]) = mjoin ps ++ rs.
Proof. rewrite join_app. cbn. by rewrite app_nil_r. Qed.

Lemma delete_sublist {A} (l : list A) i : sublist (take i l ++ drop (S i) l) l.
Proof. rewrite <- delete_take_drop. apply sublist_delete. Qed.

(** A grant keeps the invariant. *)
Lemma grant_inv c n m t rs s :
  cap_inv c n m -> NoDup rs -> can_grant c (st m) rs (Some t) = true -> grant (st m) t rs = Some s ->
  cap_inv c n (mkMonitor s (permits m ++ [rs])).
Proof.
  intros [Ha Hl Hh Hd Ht Hi Hr Hn Hq] Hnd Hc Hg. apply can_grant_Some in Hc as (Hlt & Hfree & _).
  unfold grant in Hg. destruct (position _ _) as [i|]; simplify_eq.
  constructor; cbn.
  - rewrite length_app. cbn. lia.
  - lia.
  - rewrite mjoin_snoc, list_to_set_app_L. by rewrite Hh.
  - rewrite mjoin_snoc. apply NoDup_app. split_and!; [done| |done]. intros x Hx Hx'.
    apply (Hfree x Hx'). rewrite Hh. by apply elem_of_list_to_set.
  - eapply sublist_NoDup; [exact Ht|]. apply fmap_sublist. apply delete_sublist.
  - intros x Hx. eapply Hi, elem_of_sublist; [exact Hx|apply delete_sublist].
  - intros x Hx. eapply Hr, elem_of_sublist; [exact Hx|apply delete_sublist].
  - done.
  - pose proof (sublist_length _ _ (delete_sublist (ex_waiting (st m)) i)). lia.
Qed.

Lemma leave_sublist s t : sublist (ex_waiting (leave s t)) (ex_waiting s).
Proof.
  cbn. induction (ex_waiting s) as [|x l IH]; cbn; [constructor|].
  destruct (negb (has_ticket t x)); by constructor.
Qed.

Lemma leave_inv c n m t : cap_inv c n m -> cap_inv c n (mkMonitor (leave (st m) t) (permits m)).
Proof.
  intros [Ha Hl Hh Hd Ht Hi Hr Hn Hq]. pose proof (leave_sublist (st m) t) as Hs.
  constructor; try done; cbn [st permits].
  - eapply sublist_NoDup; [exact Ht|]. by apply fmap_sublist.
  - intros x Hx. by eapply Hi, elem_of_sublist.
  - intros x Hx. by eapply Hr, elem_of_sublist.
  - apply sublist_length in Hs. lia.
Qed.

(** Dropping a permit gives its resources back. *)
Lemma fold_difference rs (held : gset string) :
  fold_left (fun held r => held ∖ {[ r ]}) rs held = held ∖ list_to_set rs.
Proof.
  revert held. induction rs as [|r rs IH]; intros held; cbn; [by rewrite difference_empty_L|].
  rewrite IH. apply set_eq. intros x. rewrite !elem_of_difference, elem_of_union, elem_of_singleton. tauto.
Qed.

Lemma drop_inv c n m i rs :
  cap_inv c n m -> permits m !! i = Some rs ->
  cap_inv c n (mkMonitor (drop_permit rs (st m)) (delete i (permits m))).
Proof.
  intros [Ha Hl Hh Hd Ht Hi Hr Hn Hq] Hrs.
  pose proof (take_drop_middle _ _ _ Hrs) as Hsplit.
  assert (Hj : mjoin (permits m) ≡ₚ rs ++ mjoin (delete i (permits m))).
  { rewrite delete_take_drop, join_app, <- Hsplit at 1. rewrite join_app. cbn.
    by rewrite !app_assoc, (Permutation_app_comm (mjoin (take i (permits m))) rs). }
  rewrite Hj in Hd. apply NoDup_app in Hd as (_ & Hsep & Hd).
  assert (Hlen : length (permits m) = S (length (delete i (permits m)))) by (rewrite length_delete by done; apply lookup_lt_Some in Hrs; lia).
  constructor; cbn; try done; try lia.
  rewrite fold_difference, Hh. apply set_eq. intros r.
  rewrite elem_of_difference, !elem_of_list_to_set, Hj, elem_of_app. split; [tauto|].
  intros Hin. split; [by right|]. intros Hin'. by apply (Hsep r).
Qed.

(** The head of the loop keeps the invariant for a ticket in the queue. *)
Lemma attempt_grant_inv c n m t rs expired o s :
  cap_inv c n m -> NoDup rs -> attempt_grant c t rs expired (st m) = (o, s) ->
  cap_inv c n (mkMonitor s (settle o (permits m))) /\ o ≠ Panicking.
Proof.
  intros Hi Hnd H. unfold attempt_grant in H. destruct (can_grant _ _ _ _) eqn:Hc.
  - destruct (grant (st m) t rs) as [s'|] eqn:Hg; simplify_eq; [by split; [eapply grant_inv|]|].
    apply can_grant_Some in Hc as (_ & _ & i & x & Hp & _). unfold grant in Hg. by rewrite Hp in Hg.
  - destruct expired; simplify_eq; cbn; (split; [|done]); [by apply leave_inv|by destruct m].
Qed.

Lemma next_small n t : 0 <= t <= Z.of_nat n -> Z.of_nat (S n) <= U64_MAX -> u64_saturating_add t 1 = t + 1.
Proof. unfold u64_saturating_add. lia. Qed.

(** Taking a ticket. *)
Lemma ticket_inv c n m :
  Z.of_nat (S n) <= U64_MAX -> cap_inv c n m ->
  let s := st m in
  cap_inv c (S n) (mkMonitor (mkExecutionState (ex_active s) (ex_held_resources s) (ex_waiting s)
    (u64_saturating_add (ex_next_ticket s) 1)) (permits m)).
Proof.
  intros Hn [? ? ? ? ? Hi ? Hnx ?]. cbn. rewrite (next_small n) by done.
  constructor; cbn; try done; [|lia]. intros x Hx. specialize (Hi x Hx). lia.
Qed.

(** Joining the queue with a fresh ticket, where there is room. *)
Lemma join_inv c n m t rs :
  cap_inv c n m -> NoDup rs -> t < ex_next_ticket (st m) ->
  (forall x, x ∈ ex_waiting (st m) -> wait_ticket x < t) ->
  Z.of_nat (length (ex_waiting (st m))) < Z.max 0 (ec_maximum_queue c) ->
  cap_inv c n (mkMonitor (mkExecutionState (ex_active (st m)) (ex_held_resources (st m))
    (ex_waiting (st m) ++ [mkWaiting t rs]) (ex_next_ticket (st m))) (permits m)).
Proof.
  intros [Ha Hl Hh Hd Ht Hi Hr Hn Hq] Hnd Hlt Hfresh Hroom. constructor; cbn; try done.
  - rewrite fmap_app. apply NoDup_app. split_and!; [done| |apply NoDup_singleton].
    intros z Hz Hz'. apply list_elem_of_fmap in Hz as (x & -> & Hx). cbn in Hz'.
    apply list_elem_of_singleton in Hz'. specialize (Hfresh x Hx). lia.
  - intros x [Hx|Hx%list_elem_of_singleton]%elem_of_app; [auto|by subst].
  - intros x [Hx|Hx%list_elem_of_singleton]%elem_of_app; [auto|by subst].
  - rewrite length_app. cbn. lia.
Qed.

(** The bound on the queue is the only part that depends on its limit. *)
Lemma widen_queue c n m q :
  Z.of_nat (length (ex_waiting (st m))) <= Z.max 0 q -> cap_inv c n m ->
  cap_inv (mkExecutionCapacity (ec_maximum c) q (ec_wait_timeout_ms c)) n m.
Proof. intros Hq []. by constructor. Qed.

(** Where the queue is empty and the capacity free, entering is granted at once. *)
Lemma enter_granted c m rs t :
  can_grant c (st m) rs None = true ->
  let s := st m in
  let s1 := mkExecutionState (ex_active s) (ex_held_resources s) (ex_waiting s ++ [mkWaiting t rs])
              (ex_next_ticket s) in
  ex_waiting s = [] /\ can_grant c s1 rs (Some t) = true.
Proof.
  unfold can_grant. cbn. destruct (_ || _); [done|]. destruct (ex_waiting (st m)); [|done]. intros _.
  split; [done|]. cbn. unfold has_ticket. cbn. by rewrite Z.eqb_refl.
Qed.

Lemma enter_inv c n m rs expired o s :
  Z.of_nat (S n) <= U64_MAX -> cap_inv c n m -> enter c rs expired (st m) = (o, s) ->
  cap_inv c (S n) (mkMonitor s (settle o (permits m))) /\ o ≠ Panicking.
Proof.
  intros Hn Hi H. pose proof (ticket_inv c n m Hn Hi) as Hi1. cbn in Hi1. unfold enter in H.
  set (m1 := mkMonitor (mkExecutionState _ _ _ _) _) in Hi1.
  change (mkExecutionState (ex_active (st m)) (ex_held_resources (st m)) (ex_waiting (st m))
            (u64_saturating_add (ex_next_ticket (st m)) 1)) with (st m1) in H.
  set (t := ex_next_ticket (st m)) in *. pose proof (sort_dedup_NoDup rs) as Hnd.
  set (rs' := sort_dedup rs) in *.
  assert (Hnext : t < ex_next_ticket (st m1)).
  { cbn. rewrite (next_small n); [unfold t; lia|apply Hi|done]. }
  assert (Hfresh : forall x, x ∈ ex_waiting (st m1) -> wait_ticket x < t) by (apply Hi).
  destruct (can_grant c (st m1) rs' None) eqn:Hc; cbn [negb andb] in H.
  - destruct (enter_granted c m1 rs' t Hc) as [Hempty Hgrant].
    assert (Hj : cap_inv (mkExecutionCapacity (ec_maximum c) 1 (ec_wait_timeout_ms c)) (S n)
      (mkMonitor (mkExecutionState (ex_active (st m1)) (ex_held_resources (st m1))
        (ex_waiting (st m1) ++ [mkWaiting t rs']) (ex_next_ticket (st m1))) (permits m1))).
    { apply join_inv; try done; [|by rewrite Hempty]. apply widen_queue; [by rewrite Hempty|done]. }
    unfold attempt_grant in H. rewrite Hgrant in H. rewrite Hempty in *. cbn [app] in *.
    destruct (grant _ t rs') as [s'|] eqn:Hg; [|unfold grant, has_ticket in Hg; cbn in Hg;
      by rewrite Z.eqb_refl in Hg]. simplify_eq. split; [|done].
    eapply grant_inv in Hj; [|done|exact Hgrant|exact Hg].
    unfold grant, has_ticket in Hg. cbn in Hg. rewrite Z.eqb_refl in Hg. simplify_eq.
    eapply (widen_queue _ _ _ (ec_maximum_queue c)) in Hj; [|cbn; lia]. by destruct c.
  - destruct (ec_maximum_queue c <=? _) eqn:Hfull; [simplify_eq; by split|]. apply Z.leb_gt in Hfull.
    eapply (attempt_grant_inv c (S n) (mkMonitor _ (permits m1))); [|exact Hnd|exact H].
    apply join_inv; try done. lia.
Qed.

Lemma wake_inv c n m x timed_out expired o s :
  cap_inv c n m -> x ∈ ex_waiting (st m) ->
  wake c (wait_ticket x) (wait_resources x) timed_out expired (st m) = (o, s) ->
  cap_inv c n (mkMonitor s (settle o (permits m))) /\ o ≠ Panicking.
Proof.
  intros Hi Hx H. unfold wake in H. destruct (timed_out && _).
  - simplify_eq. split; [by apply leave_inv|done].
  - eapply attempt_grant_inv; [done| |exact H]. by apply (ci_resources _ _ _ Hi).
Qed.

Lemma cap_run_inv c n m : Z.of_nat n <= U64_MAX -> cap_run c n m -> cap_inv c n m.
Proof.
  intros Hn H. induction H as [|n m m' _ IH Hstep]; [apply cap_inv_start|].
  assert (Hi : cap_inv c n m) by (apply IH; lia).
  assert (Hmore : cap_inv c (S n) m) by (destruct Hi; constructor; (done || lia)).
  destruct Hstep as [rs expired m o s E|x timed_out expired m o s Hx E|i rs m Hrs].
  - by eapply enter_inv.
  - by eapply wake_inv.
  - by apply drop_inv.
Qed.

(** ** The properties *)

(** C22: Exclusive execution. However requests arrive, wait, time out and finish, the permits that
    are out never share a resource, are never more than the configured maximum, and are counted
    exactly; the queue never exceeds its limit. *)
Theorem execution_is_exclusive c n m :
  Z.of_nat n <= U64_MAX -> cap_run c n m ->
  ex_active (st m) = Z.of_nat (length (permits m)) /\
  ex_active (st m) <= Z.max 0 (ec_maximum c) /\
  Z.of_nat (length (ex_waiting (st m))) <= Z.max 0 (ec_maximum_queue c) /\
  (forall r, r ∈ ex_held_resources (st m) <-> exists rs, rs ∈ permits m /\ r ∈ rs) /\
  forall i j ri rj r, permits m !! i = Some ri -> permits m !! j = Some rj ->
    r ∈ ri -> r ∈ rj -> i = j.
Proof.
  intros Hn [Ha Hl Hh Hd _ _ _ _ Hq]%cap_run_inv; [|done]. split_and!; [done..| |].
  - intros r. rewrite Hh, elem_of_list_to_set, list_elem_of_join.
    split; intros (rs & H1 & H2); eauto.
  - clear -Hd. induction (permits m) as [|p ps IH]; intros i j ri rj r Hi Hj Hri Hrj; [done|].
    cbn in Hd. apply NoDup_app in Hd as (_ & Hsep & Hd).
    assert (Hin : forall k rk, ps !! k = Some rk -> r ∈ rk -> r ∈ mjoin ps).
    { intros k rk Hk Hr. apply list_elem_of_join. exists rk. split; [done|]. by eapply list_elem_of_lookup_2. }
    destruct i as [|i], j as [|j]; cbn in Hi, Hj; [done| | |f_equal; by eapply IH].
    + simplify_eq. exfalso. by eapply Hsep, Hin.
    + simplify_eq. exfalso. by eapply Hsep, Hin.
Qed.

(** No overtaking among conflicting requests. When a waiting request is granted, no request that
    was waiting before it wants any of its resources. *)
Theorem grants_respect_the_queue c n m x timed_out expired rs s :
  Z.of_nat n <= U64_MAX -> cap_run c n m -> x ∈ ex_waiting (st m) ->
  wake c (wait_ticket x) (wait_resources x) timed_out expired (st m) = (Granted rs, s) ->
  rs = wait_resources x /\
  exists i, ex_waiting (st m) !! i = Some x /\
    forall k y r, (k < i)%nat -> ex_waiting (st m) !! k = Some y -> r ∈ wait_resources y -> r ∉ rs.
Proof.
  intros Hn Hi%cap_run_inv Hx H; [|done]. unfold wake, attempt_grant in H.
  destruct (can_grant c (st m) (wait_resources x) (Some (wait_ticket x))) eqn:Hc;
    [|destruct (timed_out && _), expired; simplify_eq].
  rewrite andb_false_r in H. destruct (grant _ _ _); simplify_eq. split; [done|].
  apply can_grant_Some in Hc as (_ & _ & i & y & Hp & Hy & Ht & Hearly).
  apply list_elem_of_lookup in Hx as [j Hj].
  assert (i = j) as <-.
  { eapply (NoDup_lookup (wait_ticket <$> ex_waiting (st m))); [apply Hi| |].
    - by rewrite list_lookup_fmap, Hy.
    - rewrite list_lookup_fmap, Hj. cbn. by rewrite Ht. }
  exists i. split; [done|]. intros k z r Hk Hz. by apply (Hearly k z).
Qed.

(** No deadlock. As long as fewer permits than the maximum are out and none of them, and no
    earlier waiter, holds or wants a resource of a waiting request, that request is granted when its
    thread wakes, even by a timeout; in particular the head of the queue is, once no permit is out. *)
Theorem waiting_request_granted c n m i x timed_out expired :
  Z.of_nat n <= U64_MAX -> cap_run c n m -> ex_waiting (st m) !! i = Some x ->
  Z.of_nat (length (permits m)) < ec_maximum c ->
  (forall rs r, rs ∈ permits m -> r ∈ rs -> r ∉ wait_resources x) ->
  (forall k y r, (k < i)%nat -> ex_waiting (st m) !! k = Some y -> r ∈ wait_resources y ->
     r ∉ wait_resources x) ->
  exists s, wake c (wait_ticket x) (wait_resources x) timed_out expired (st m)
            = (Granted (wait_resources x), s).
Proof.
  intros Hn Hi%cap_run_inv Hx Hmax Hheld Hearly; [|done].
  assert (Hp : position (has_ticket (wait_ticket x)) (ex_waiting (st m)) = Some i).
  { apply position_Some. exists x. split; [done|]. split; [apply Z.eqb_refl|]. intros k y Hk Hy.
    apply Z.eqb_neq. intros Heq. assert (k = i); [|lia].
    eapply (NoDup_lookup (wait_ticket <$> ex_waiting (st m))); [apply Hi| |];
      rewrite list_lookup_fmap; [by rewrite Hy; cbn; rewrite Heq|by rewrite Hx]. }
  assert (Hc : can_grant c (st m) (wait_resources x) (Some (wait_ticket x)) = true).
  { apply can_grant_Some. rewrite (ci_active _ _ _ Hi). split; [done|]. split.
    - intros r Hr Hh. rewrite (ci_held _ _ _ Hi) in Hh.
      apply elem_of_list_to_set, list_elem_of_join in Hh as (rs & Hr' & Hrs). by apply (Hheld rs r).
    - exists i, x. split_and!; [done..|]. intros k y Hk Hy r. by apply (Hearly k y). }
  unfold wake, attempt_grant, grant. rewrite Hc, andb_false_r, Hp. eauto.
Qed.

(** ** Witnesses: one request holds a port, a second one waits for it and gets it. *)

Definition sample_capacity : ExecutionCapacity := mkExecutionCapacity 2 4 30000.

Definition entered (rs : list string) (m : Monitor) : Monitor :=
  let '(o, s) := enter sample_capacity rs false (st m) in mkMonitor s (settle o (permits m)).

Definition monitor0 : Monitor := mkMonitor ExecutionState_default [].
Definition monitor2 : Monitor := entered ["port:1"] (entered ["port:1"; "file:2"] monitor0).
Definition monitor3 : Monitor :=
  mkMonitor (drop_permit ["file:2"; "port:1"] (st monitor2)) (delete 0%nat (permits monitor2)).

Lemma entered_run n rs m : cap_run sample_capacity n m -> cap_run sample_capacity (S n) (entered rs m).
Proof.
  intros H. eapply run_more; [exact H|]. unfold entered.
  destruct (enter sample_capacity rs false (st m)) as [o s] eqn:E. by eapply cap_enter.
Qed.

Lemma monitor2_run : cap_run sample_capacity 2 monitor2.
Proof. apply entered_run, entered_run, run_start. Qed.

Lemma monitor3_run : cap_run sample_capacity 3 monitor3.
Proof. eapply run_more; [apply monitor2_run|]. apply cap_drop. vm_compute. reflexivity. Qed.

Definition second_request : WaitingExecution := mkWaiting 1 ["port:1"].

Lemma execution_is_exclusive_witness :
  ex_active (st monitor2) = 1 /\ permits monitor2 = [["file:2"; "port:1"]] /\
  ex_active (st monitor2) <= Z.max 0 (ec_maximum sample_capacity).
Proof.
  destruct (execution_is_exclusive sample_capacity 2 monitor2 ltac:(vm_compute; discriminate) monitor2_run)
    as (_ & H & _).
  split; [vm_compute; reflexivity|]. split; [vm_compute; reflexivity|exact H].
Defined.

Lemma grants_respect_the_queue_witness :
  ["port:1"] = wait_resources second_request.
Proof.
  refine (proj1 (grants_respect_the_queue sample_capacity 3 monitor3 second_request false false
                   ["port:1"] _ ltac:(vm_compute; discriminate) monitor3_run _ eq_refl)).
  apply list_elem_of_lookup. exists 0%nat. vm_compute. reflexivity.
Defined.

Lemma waiting_request_granted_witness :
  exists s, wake sample_capacity 1 ["port:1"] true true (st monitor3) = (Granted ["port:1"], s).
Proof.
  apply (waiting_request_granted sample_capacity 3 monitor3 0 second_request true true
           ltac:(vm_compute; discriminate) monitor3_run).
  - vm_compute. reflexivity.
  - vm_compute. reflexivity.
  - intros rs r Hrs. vm_compute in Hrs. apply not_elem_of_nil in Hrs as [].
  - intros k y r Hk. lia.
Defined.
