(* ===== verification/Resources.v ===== *)
(** * Resources and authorities of an executor ([crates/machine-fabric-runtime/src/executor.rs])

    Which resources a request locks ([execution_resources], with the rendering
    of lock templates) and the fences the executor issues for them
    ([issue_authority]). The capability catalog is an argument: the theorems
    hold for every catalog. The printing of JSON values that are not strings is
    a parameter. Rendering is a [while] loop in the source; here it has fuel,
    and running out of it is [None]. *)
From Stdlib Require Import Ascii.
From stdpp Require Import base gmap strings list sorting pretty.
From S2P Require Import Prelude Json Schema Protocol.
Open Scope Z_scope.
Open Scope fabric_scope.

(** ** Lock templates *)

(** [s.find("${")]: what precedes the first occurrence and what follows it. *)
Fixpoint find_open (s : string) : option (string * string) :=
  match s with
  | EmptyString => None
  | String c s' =>
      match s' with
      | String d s'' =>
          if Ascii.eqb c "$"%char && Ascii.eqb d "{"%char then Some ("", s'')
          else match find_open s' with Some (a, b) => Some (String c a, b) | None => None end
      | EmptyString => None
      end
  end.

(** [s.find('}')] *)
Fixpoint find_close (s : string) : option (string * string) :=
  match s with
  | EmptyString => None
  | String c s' =>
      if Ascii.eqb c "}"%char then Some ("", s')
      else match find_close s' with Some (a, b) => Some (String c a, b) | None => None end
  end.

Section Rendering.
Context (to_string : Value -> string).

Definition value_text (v : Value) : string :=
  match as_str v with Some s => s | None => to_string v end.

(** One turn of the loop of [render_authority_resource]: [Ok None] when it is over. *)
Definition render_step (template : string) (params : Value) (rendered : string)
    : result RpcError (option string) :=
  match find_open rendered with
  | None => Ok None
  | Some (before, rest) =>
      match find_close rest with
      | None => Err (rpc_error "INVALID_LOCK_TEMPLATE" template)
      | Some (key, after) =>
          match vget key params with
          | None => Err (rpc_error "EXECUTOR_AUTHORITY_MISMATCH" ("capability lock requires " +:+ key))
          | Some value => Ok (Some (before +:+ value_text value +:+ after))
          end
      end
  end.

Fixpoint render_loop (fuel : nat) (template : string) (params : Value) (rendered : string)
    : option (result RpcError string) :=
  match fuel with
  | O => None
  | S fuel =>
      match render_step template params rendered with
      | Err e => Some (Err e)
      | Ok None => Some (Ok rendered)
      | Ok (Some rendered) => render_loop fuel template params rendered
      end
  end.

(** [render_authority_resource] *)
Definition render_authority_resource (fuel : nat) (template : string) (params : Value)
    : option (result RpcError string) :=
  render_loop fuel template params template.

(** [required_port] *)
Definition required_port (params : Value) (key : string) : result RpcError Z :=
  let refuse := Err (rpc_error "INVALID_PARAMS" (key +:+ " must be a TCP port")) in
  match vget key params with
  | Some v =>
      match as_u64 v with
      | Some n => if (0 <? n) && (n <=? 65535) then Ok n else refuse
      | None => refuse
      end
  | None => refuse
  end.

(** [render_execution_resource] *)
Definition render_execution_resource (fuel : nat) (template action : string) (params : Value)
    (default_launch_port : option Z) : option (result RpcError (option string)) :=
  if String.eqb action "application.launch"
     && String.eqb template "debug-port:${remoteDebuggingPort}" then
    Some (match vget "remoteDebuggingPort" params with
          | Some _ =>
              match required_port params "remoteDebuggingPort" with
              | Ok port => Ok (Some ("debug-port:" +:+ pretty port))
              | Err e => Err e
              end
          | None => Ok ((fun port : Z => "debug-port:" +:+ pretty port) <$> default_launch_port)
          end)
  else
    match render_authority_resource fuel template params with
    | None => None
    | Some (Ok s) => Some (Ok (Some s))
    | Some (Err e) => Some (Err e)
    end.

Definition canonical (action : string) : string :=
  if String.eqb action "fs.write" then "filesystem.write"
  else if String.eqb action "fs.patch" then "filesystem.patch"
  else if String.eqb action "fs.remove" then "filesystem.remove"
  else if String.eqb action "fs.restore" then "filesystem.restore"
  else action.

Definition find_contract (catalog : list CapabilityDescriptor) (action : string)
    : option CapabilityDescriptor :=
  List.find (fun c => String.eqb (cap_name c) (canonical action)) catalog.

(** [.map(render).collect::<Result<Vec<_>, _>>()?.into_iter().flatten()] *)
Fixpoint render_locks (fuel : nat) (locks : list LockTemplate) (action : string) (params : Value)
    (default_launch_port : option Z) : option (result RpcError (list string)) :=
  match locks with
  | [] => Some (Ok [])
  | lock :: locks' =>
      match render_execution_resource fuel (lock_key lock) action params default_launch_port with
      | None => None
      | Some (Err e) => Some (Err e)
      | Some (Ok o) =>
          match render_locks fuel locks' action params default_launch_port with
          | Some (Ok rs) => Some (Ok (match o with Some r => r :: rs | None => rs end))
          | r => r
          end
      end
  end.

Definition is_read_only (e : Effect) : bool := match e with ReadOnly => true | _ => false end.

(** [execution_resources] *)
Definition execution_resources (fuel : nat) (catalog : list CapabilityDescriptor)
    (default_launch_port : option Z) (action : string) (params : Value) (executor_id : string)
    : option (result RpcError (list string)) :=
  match find_contract catalog action with
  | None => Some (Ok [])
  | Some contract =>
      match render_locks fuel (cap_locks contract) (canonical action) params default_launch_port with
      | None => None
      | Some (Err e) => Some (Err e)
      | Some (Ok resources) =>
          let resources :=
            match resources with
            | [] =>
                if is_read_only (cap_effect contract) then resources
                else
                  let fallback := "executor:" +:+ executor_id +:+ ":" +:+ canonical action in
                  let scope :=
                    match vget "_workspaceSessionId" params with
                    | Some v =>
                        match as_str v with
                        | Some s => if str_is_empty s then fallback else s
                        | None => fallback
                        end
                    | None => fallback
                    end in
                  ["workspace:" +:+ scope]
            | _ => resources
            end in
          Some (Ok (sort_dedup resources))
      end
  end.

(** ** Fences *)

Record FenceRecord := mkFenceRecord { fr_controller_id : string; fr_fence : Z }.

(** The table in memory and the one on disk. *)
Record ExecutorFences := mkExecutorFences {
  fence_resources : gmap string FenceRecord;
  fence_disk : gmap string FenceRecord;
}.

(** An RPC error, or a panic of the thread. *)
Inductive fence_fault := FenceRpc (e : RpcError) | FencePanics | FenceDiverges.

(** [persist_fences] *)
Definition persist_fences : M ExecutorFences fence_fault unit :=
  let* ok := io_outcome in
  if ok : bool then modify (fun f => mkExecutorFences (fence_resources f) (fence_resources f))
  else fail (FenceRpc (rpc_error "FENCE_STATE_FAILED" "")).

Definition next_fence (table : gmap string FenceRecord) (resource : string) : Z :=
  match table !! resource with
  | Some current => u64_saturating_add (fr_fence current) 1
  | None => 1
  end.

(** The loop of [issue_authority] over the resources. *)
Fixpoint raise_fences (controller_id : string) (resources : list string)
    (table : gmap string FenceRecord) : list (string * Z) * gmap string FenceRecord :=
  match resources with
  | [] => ([], table)
  | resource :: resources' =>
      let fence := next_fence table resource in
      let '(issued, table') :=
        raise_fences controller_id resources'
          (<[resource := mkFenceRecord controller_id fence]> table) in
      ((resource, fence) :: issued, table')
  end.

Definition authority_json (controller_id : string) (issued : list (string * Z)) : Value :=
  VArray ((fun rf : string * Z => obj_of [("controllerId", VString controller_id);
             ("resource", VString rf.1); ("fence", vu64 rf.2)]) <$> issued).

(** [ExecutorRuntime::issue_authority]: the new [params] and the fences issued for the request. *)
Definition issue_authority (fuel : nat) (catalog : list CapabilityDescriptor)
    (default_launch_port : option Z) (executor_id action : string) (params : Value)
    : M ExecutorFences fence_fault (Value * list (string * Z)) :=
  match find_contract catalog action with
  | None => ret (params, [])
  | Some contract =>
      if is_read_only (cap_effect contract) then ret (params, [])
      else
        match execution_resources fuel catalog default_launch_port action params executor_id with
        | None => fail FenceDiverges
        | Some (Err e) => fail (FenceRpc e)
        | Some (Ok resources) =>
            let controller_id := "executor:" +:+ executor_id in
            let* f := get in
            let '(issued, table) := raise_fences controller_id resources (fence_resources f) in
            put (mkExecutorFences table (fence_disk f)) ;;
            persist_fences ;;
            match vindex_set "_authority" (authority_json controller_id issued) params with
            | Some params' => ret (params', issued)
            | None => fail FencePanics
            end
        end
  end.

(** The start of the executor ([open_with_policy]): the table is read from disk. *)
Definition reopen_fences (f : ExecutorFences) : ExecutorFences :=
  mkExecutorFences (fence_disk f) (fence_disk f).

End Rendering.

(** ** Rendering *)

Definition dollar : ascii := "$"%char.

Fixpoint count_dollars (s : string) : nat :=
  match s with
  | EmptyString => O
  | String c s' => ((if Ascii.eqb c dollar then 1 else 0) + count_dollars s')%nat
  end.

Lemma count_dollars_app a b : count_dollars (a +:+ b) = (count_dollars a + count_dollars b)%nat.
Proof.
  induction a as [|c a IH]; [done|]. rewrite string_app_cons. cbn [count_dollars]. rewrite IH. lia.
Qed.

Lemma find_open_Some s a b : find_open s = Some (a, b) -> s = a +:+ "${" +:+ b.
Proof.
  revert a b. induction s as [|c s IH]; intros a b H; [done|]. cbn [find_open] in H.
  destruct s as [|d s]; [done|].
  destruct (Ascii.eqb c "$"%char && Ascii.eqb d "{"%char) eqn:E.
  - apply andb_true_iff in E as [->%Ascii.eqb_eq ->%Ascii.eqb_eq]. by simplify_eq.
  - destruct (find_open (String d s)) as [[a' b']|] eqn:Hf; simplify_eq.
    rewrite (IH a' b eq_refl). by rewrite string_app_cons.
Qed.

Lemma find_close_Some s a b : find_close s = Some (a, b) -> s = a +:+ "}" +:+ b.
Proof.
  revert a b. induction s as [|c s IH]; intros a b H; [done|]. cbn [find_close] in H.
  destruct (Ascii.eqb_spec c "}"%char) as [->|]; [by simplify_eq|].
  destruct (find_close s) as [[a' b']|]; simplify_eq. rewrite (IH a' b eq_refl). by rewrite string_app_cons.
Qed.

Section Facts.
Context (to_string : Value -> string).

(** No value of the parameters is rendered with a dollar sign. *)
Definition plain_values (params : Value) : Prop :=
  forall key v, vget key params = Some v -> count_dollars (value_text to_string v) = 0%nat.

Lemma render_step_shrinks template params s s' :
  plain_values params -> render_step to_string template params s = Ok (Some s') ->
  (count_dollars s' < count_dollars s)%nat.
Proof.
  intros Hp H. unfold render_step in H.
  destruct (find_open s) as [[a rest]|] eqn:Ho; [|done]. apply find_open_Some in Ho as ->.
  destruct (find_close rest) as [[key after]|] eqn:Hc; [|done]. apply find_close_Some in Hc as ->.
  destruct (vget key params) as [v|] eqn:Hv; simplify_eq.
  rewrite !count_dollars_app, (Hp _ _ Hv). cbn. lia.
Qed.

Lemma render_loop_terminates template params fuel s :
  plain_values params -> (count_dollars s < fuel)%nat ->
  is_Some (render_loop to_string fuel template params s).
Proof.
  intros Hp. revert s. induction fuel as [|fuel IH]; intros s Hf; [lia|]. cbn.
  destruct (render_step to_string template params s) as [[s'|]|e] eqn:Hs; [|by eexists..].
  apply IH. apply render_step_shrinks in Hs; [lia|done].
Qed.

(** ** Fences *)

(** The fence of a resource, zero before the first. *)
Definition fence_of (table : gmap string FenceRecord) (r : string) : Z :=
  match table !! r with Some c => fr_fence c | None => 0 end.

Lemma next_fence_succ table r :
  fence_of table r < U64_MAX -> next_fence table r = fence_of table r + 1.
Proof. unfold next_fence, fence_of, u64_saturating_add. destruct (table !! r); lia. Qed.

Lemma fence_of_insert table r c r' :
  fence_of (<[r := c]> table) r' = if decide (r = r') then fr_fence c else fence_of table r'.
Proof. unfold fence_of. rewrite lookup_insert. by case_decide. Qed.

Lemma raise_fences_spec cid rs table :
  NoDup rs -> (forall r, r ∈ rs -> fence_of table r < U64_MAX) ->
  exists table', raise_fences cid rs table = ((fun r => (r, fence_of table r + 1)) <$> rs, table') /\
  forall r, fence_of table' r = if decide (r ∈ rs) then fence_of table r + 1 else fence_of table r.
Proof.
  revert table. induction rs as [|r rs IH]; intros table Hnd Hmax; cbn.
  - exists table. split; [done|]. intros r. by rewrite decide_False by apply not_elem_of_nil.
  - apply NoDup_cons in Hnd as [Hr Hnd]. rewrite next_fence_succ by (apply Hmax; by left).
    set (t1 := <[r := mkFenceRecord cid (fence_of table r + 1)]> table).
    assert (Hsame : forall r', r' ∈ rs -> fence_of t1 r' = fence_of table r').
    { intros r' Hr'. unfold t1. rewrite fence_of_insert, decide_False; [done|]. by intros ->. }
    destruct (IH t1 Hnd) as (t' & -> & Hlook).
    + intros r' Hr'. rewrite Hsame by done. apply Hmax. by right.
    + exists t'. split.
      * do 2 f_equal. apply list_fmap_ext. intros i x Hx.
        by rewrite Hsame by (by eapply list_elem_of_lookup_2).
      * intros r'. rewrite Hlook. unfold t1. rewrite fence_of_insert.
        destruct (decide (r = r')) as [<-|Hne]; cbn.
        -- rewrite (decide_False (P := r ∈ rs)) by done. by rewrite decide_True by left.
        -- destruct (decide (r' ∈ rs)); [by rewrite decide_True by (by right)|].
           rewrite decide_False; [done|]. intros [?|?]%elem_of_cons; congruence.
Qed.

Lemma execution_resources_NoDup fuel catalog port action params id rs :
  execution_resources to_string fuel catalog port action params id = Some (Ok rs) -> NoDup rs.
Proof.
  unfold execution_resources. intros H. repeat case_match; simplify_eq; try apply sort_dedup_NoDup.
  apply NoDup_nil_2.
Qed.

(** ** Runs of the fence table *)

Inductive fence_event :=
| FvIssue (fuel : nat) (action : string) (params : Value)
| FvRestart.

Context (catalog : list CapabilityDescriptor) (port : option Z) (executor_id : string).

(** The fences issued, in order; a request that fails issues none. *)
Fixpoint fence_run (evs : list fence_event) (f : ExecutorFences) (w : World)
    : list (string * Z) * ExecutorFences * World :=
  match evs with
  | [] => ([], f, w)
  | FvRestart :: evs' => fence_run evs' (reopen_fences f) w
  | FvIssue fuel action params :: evs' =>
      let '(r, f', w') := issue_authority to_string fuel catalog port executor_id action params f w in
      let issued := match r with Ok (_, issued) => issued | Err _ => [] end in
      let '(more, f'', w'') := fence_run evs' f' w' in
      (issued ++ more, f'', w'')
  end.

(** What has been issued is on disk; the disk is never ahead of the memory. *)
Record fence_inv (n : nat) (log : list (string * Z)) (f : ExecutorFences) : Prop := mk_fence_inv {
  fi_log : forall r k, (r, k) ∈ log -> k <= fence_of (fence_disk f) r;
  fi_disk : forall r, fence_of (fence_disk f) r <= fence_of (fence_resources f) r;
  fi_bound : forall r, fence_of (fence_resources f) r <= Z.of_nat n;
  fi_sorted : forall i j r k k', (i < j)%nat -> log !! i = Some (r, k) -> log !! j = Some (r, k') -> k < k' }.

Lemma fence_inv_issue n log f rs cid table :
  Z.of_nat n < U64_MAX -> fence_inv n log f -> NoDup rs ->
  raise_fences cid rs (fence_resources f)
    = ((fun r => (r, fence_of (fence_resources f) r + 1)) <$> rs, table) ->
  (forall r, fence_of table r
     = if decide (r ∈ rs) then fence_of (fence_resources f) r + 1 else fence_of (fence_resources f) r) ->
  fence_inv (S n) log (mkExecutorFences table (fence_disk f)) /\
  fence_inv (S n) (log ++ ((fun r => (r, fence_of (fence_resources f) r + 1)) <$> rs))
    (mkExecutorFences table table).
Proof.
  intros Hn [Hlog Hdisk Hb Hs] Hnd _ Ht.
  assert (Hge : forall r, fence_of (fence_resources f) r <= fence_of table r <= fence_of (fence_resources f) r + 1)
    by (intros r; rewrite Ht; case_decide; lia).
  split; constructor; cbn; auto.
  - intros r. specialize (Hdisk r). specialize (Hge r). lia.
  - intros r. specialize (Hb r). specialize (Hge r). lia.
  - intros r k [Hin|Hin]%elem_of_app.
    + specialize (Hlog r k Hin). specialize (Hdisk r). specialize (Hge r). lia.
    + apply list_elem_of_fmap in Hin as (x & [= -> ->] & Hx). rewrite Ht, decide_True by done. lia.
  - intros r. lia.
  - intros r. specialize (Hb r). specialize (Hge r). lia.
  - intros i j r k k' Hij Hi Hj. apply lookup_app_Some in Hi as [Hi|[Hle Hi]].
    + apply lookup_app_Some in Hj as [Hj|[_ Hj]]; [by eapply Hs|].
      rewrite list_lookup_fmap in Hj. apply fmap_Some in Hj as (x & Hx & [= -> ->]).
      apply list_elem_of_lookup_2, Hlog in Hi. specialize (Hdisk x). lia.
    + rewrite lookup_app_r in Hj by lia. rewrite list_lookup_fmap in Hi, Hj.
      apply fmap_Some in Hi as (x & Hx & [= -> ->]), Hj as (y & Hy & [= Hxy ->]). subst y.
      pose proof (NoDup_lookup _ _ _ _ Hnd Hx Hy). lia.
Qed.
Lemma fence_inv_more n log f : fence_inv n log f -> fence_inv (S n) log f.
Proof. intros [? ? Hb ?]. constructor; try done. intros r. specialize (Hb r). lia. Qed.

Lemma fence_inv_reopen n log f : fence_inv n log f -> fence_inv n log (reopen_fences f).
Proof.
  intros [Hlog Hd Hb Hs]. constructor; cbn; auto; [lia|]. intros r.
  specialize (Hd r). specialize (Hb r). lia.
Qed.

Lemma issue_authority_inv n log f w fuel action params r f' w' :
  Z.of_nat n < U64_MAX -> fence_inv n log f ->
  issue_authority to_string fuel catalog port executor_id action params f w = (r, f', w') ->
  fence_inv (S n) (log ++ match r with Ok (_, issued) => issued | Err _ => [] end) f'.
Proof.
  intros Hn Hi H. pose proof (fence_inv_more _ _ _ Hi) as Hm. unfold issue_authority in H.
  destruct (find_contract catalog action) as [contract|];
    [|unfold ret in H; simplify_eq; by rewrite app_nil_r].
  destruct (is_read_only (cap_effect contract)); [unfold ret in H; simplify_eq; by rewrite app_nil_r|].
  destruct (execution_resources _ _ _ _ _ _ _) as [[rs|e]|] eqn:Hr;
    [|unfold fail in H; simplify_eq; by rewrite app_nil_r..].
  apply execution_resources_NoDup in Hr.
  destruct (raise_fences_spec ("executor:" +:+ executor_id) rs (fence_resources f) Hr) as (table & Hraise & Hlook).
  { intros x _. pose proof (fi_bound _ _ _ Hi x). lia. }
  destruct (fence_inv_issue n log f rs _ table Hn Hi Hr Hraise Hlook) as [Hfail Hok].
  unfold persist_fences in H. munfold. rewrite Hraise in H.
  destruct (peek (w_io w)); [|simplify_eq; by rewrite app_nil_r].
  assert (Hpanic : fence_inv (S n) log (mkExecutorFences table table)).
  { destruct Hfail as [Hl Hd Hb Hs]. destruct Hok as [Hl' _ Hb' _]. constructor; cbn in *; try done.
    intros x k Hx. apply Hl'. apply elem_of_app. by left. }
  destruct (vindex_set _ _ _); simplify_eq; [done|by rewrite app_nil_r].
Qed.

Lemma fence_run_inv evs n log f w issued f' w' :
  Z.of_nat (n + length evs) <= U64_MAX -> fence_inv n log f ->
  fence_run evs f w = (issued, f', w') -> exists n', fence_inv n' (log ++ issued) f'.
Proof.
  revert n log f w issued. induction evs as [|ev evs IH]; intros n log f w issued Hn Hi H; cbn in H.
  - simplify_eq. rewrite app_nil_r. eauto.
  - cbn in Hn. destruct ev as [fuel action params|].
    + destruct (issue_authority _ _ _ _ _ _ _ f w) as [[r f1] w1] eqn:E.
      destruct (fence_run evs f1 w1) as [[more f2] w2] eqn:E2. simplify_eq.
      apply (issue_authority_inv n log) in E; [|lia|done]. rewrite app_assoc.
      eapply (IH (S n)); [lia|exact E|exact E2].
    + eapply (IH n); [lia|by apply fence_inv_reopen|exact H].
Qed.

(** ** The properties *)

(** Fences of an executor. Along any run of requests, failed writes and restarts of the executor,
    the fences it issues for a resource strictly increase. *)
Theorem issued_fences_increase evs w issued f w' :
  Z.of_nat (length evs) <= U64_MAX ->
  fence_run evs (mkExecutorFences ∅ ∅) w = (issued, f, w') ->
  forall i j r k k', (i < j)%nat -> issued !! i = Some (r, k) -> issued !! j = Some (r, k') -> k < k'.
Proof.
  intros Hn H. destruct (fence_run_inv evs 0 [] (mkExecutorFences ∅ ∅) w issued f w') as (n & Hi);
    [done| |done|exact (fi_sorted _ _ _ Hi)].
  assert (Hz : forall r, fence_of ∅ r = 0) by (intros r; unfold fence_of; by rewrite lookup_empty).
  constructor; cbn; try done; try (intros r; rewrite !Hz; lia).
  intros r k Hin. by apply not_elem_of_nil in Hin.
Qed.

(** Every request for a mutating capability that is admitted names at least one resource to lock,
    each once: a mutating action never runs unguarded. *)
Theorem mutating_requests_lock fuel action params contract rs :
  find_contract catalog action = Some contract -> is_read_only (cap_effect contract) = false ->
  execution_resources to_string fuel catalog port action params executor_id = Some (Ok rs) ->
  rs ≠ [] /\ NoDup rs.
Proof.
  intros Hc He H. split; [|by eapply execution_resources_NoDup].
  unfold execution_resources in H. rewrite Hc, He in H.
  assert (Hne : forall x l, sort_dedup (x :: l) ≠ []).
  { intros x l Hx. assert (Hin : x ∈ sort_dedup (x :: l)) by (apply elem_of_sort_dedup; by left).
    rewrite Hx in Hin. by apply not_elem_of_nil in Hin. }
  destruct (render_locks _ _ _ _ _ _) as [[[|x l]|e]|]; simplify_eq; apply Hne.
Qed.

(** Rendering terminates. When no parameter is rendered with a dollar sign, a lock template is
    rendered, or refused, within one turn per dollar sign of the template. *)
Theorem rendering_terminates fuel template params :
  plain_values params -> (count_dollars template < fuel)%nat ->
  is_Some (render_authority_resource to_string fuel template params).
Proof. apply render_loop_terminates. Qed.

(** Rendering may not terminate. A request whose [path] is the text of the placeholder itself is
    rendered for ever: no amount of turns gives [execution_resources] an answer. *)
Theorem rendering_diverges fuel contract more :
  find_contract catalog "fs.write" = Some contract ->
  cap_locks contract = mkLockTemplate "filesystem:${path}" LockExclusive :: more ->
  execution_resources to_string fuel catalog port "fs.write"
    (obj_of [("path", VString "${path}")]) executor_id = None.
Proof.
  intros Hc Hl. unfold execution_resources. rewrite Hc, Hl. cbn [render_locks].
  assert (Hr : render_execution_resource to_string fuel "filesystem:${path}" "filesystem.write"
    (obj_of [("path", VString "${path}")]) port = None); [|change (canonical "fs.write") with "filesystem.write";
    cbn [lock_key]; by rewrite Hr].
  unfold render_execution_resource, render_authority_resource. cbn [String.eqb Ascii.eqb andb].
  assert (Hloop : forall n, render_loop to_string n "filesystem:${path}"
    (obj_of [("path", VString "${path}")]) "filesystem:${path}" = None)
    by (intros n; induction n as [|n IH]; [done|]; exact IH).
  rewrite Hloop. reflexivity.
Qed.
End Facts.

(** ** Witnesses *)

Definition sample_contract (name : string) (locks : list LockTemplate) (effect : Effect)
    : CapabilityDescriptor :=
  mkCapabilityDescriptor name "1.0.0" VNull VNull ["filesystem"] locks
    (mkIdempotencyContract ["path"] 86400000) 30000 RetryPolicy_default RollbackNone HealthCheckProcess [] effect.

Definition sample_catalog : list CapabilityDescriptor :=
  [ sample_contract "filesystem.read" [] ReadOnly;
    sample_contract "filesystem.write" [mkLockTemplate "filesystem:${path}" LockExclusive] Mutating ].

Definition no_text (_ : Value) : string := "".
Definition write_to (p : string) : Value := obj_of [("path", VString p)].

Definition sample_fence_events : list fence_event :=
  [ FvIssue 9 "fs.write" (write_to "/a"); FvRestart; FvIssue 9 "fs.write" (write_to "/a") ].

Definition sample_fence_run :=
  fence_run no_text sample_catalog None "mac" sample_fence_events (mkExecutorFences ∅ ∅) (sample_world 0).

Lemma issued_fences_increase_witness :
  fst (fst sample_fence_run) = [("filesystem:/a", 1); ("filesystem:/a", 2)] /\ 1 < 2.
Proof.
  split; [vm_compute; reflexivity|].
  apply (issued_fences_increase no_text sample_catalog None "mac" sample_fence_events (sample_world 0)
           (fst (fst sample_fence_run)) (snd (fst sample_fence_run)) (snd sample_fence_run)
           ltac:(vm_compute; discriminate) ltac:(vm_compute; reflexivity) 0 1 "filesystem:/a").
  - lia.
  - vm_compute. reflexivity.
  - vm_compute. reflexivity.
Defined.

Lemma mutating_requests_lock_witness : ["filesystem:/a"] ≠ [] /\ NoDup ["filesystem:/a"].
Proof.
  apply (mutating_requests_lock no_text sample_catalog None "mac" 9 "fs.write" (write_to "/a")
           (sample_contract "filesystem.write" [mkLockTemplate "filesystem:${path}" LockExclusive] Mutating)).
  - vm_compute. reflexivity.
  - vm_compute. reflexivity.
  - vm_compute. reflexivity.
Defined.

Lemma rendering_terminates_witness :
  is_Some (render_authority_resource no_text 2 "filesystem:${path}" (write_to "/a")).
Proof.
  apply (rendering_terminates no_text 2 "filesystem:${path}" (write_to "/a")).
  - intros key v H. unfold write_to, obj_of in H. cbn in H.
    destruct (String.eqb key "path"); [|discriminate H]. injection H as <-. reflexivity.
  - cbn. lia.
Defined.

Lemma rendering_diverges_witness :
  execution_resources no_text 1000 sample_catalog None "fs.write" (write_to "${path}") "mac" = None.
Proof.
  apply (rendering_diverges no_text sample_catalog None "mac" 1000
           (sample_contract "filesystem.write" [mkLockTemplate "filesystem:${path}" LockExclusive] Mutating) []).
  - vm_compute. reflexivity.
  - vm_compute. reflexivity.
Defined.
