(* ===== verification/PeerLease.v ===== *)
(** * The admission lease of peer connections ([crates/machine-fabric-peer/src/lease.rs])

    A lease has a wall-clock expiry and a deadline on the monotonic clock. The
    state behind the mutex is [State]; every clone of a lease shares it. The
    largest instant the platform can represent is a parameter. *)
From Stdlib Require Import Ascii.
From stdpp Require Import base strings list.
From S2P Require Import Prelude.
Open Scope Z_scope.
Open Scope fabric_scope.

Record State := mkState {
  pl_deadline : Z;
  pl_expires_at_ms : Z;
  pl_ended : option string;
}.

(** [char::is_control] on UTF-8: the C0 controls, DEL, and U+0080 to U+009F (two bytes). *)
Fixpoint has_control (s : string) : bool :=
  match s with
  | EmptyString => false
  | String c s' =>
      byte_in 0 31 c || byte_in 127 127 c
      || (byte_in 194 194 c && match s' with String d _ => byte_in 128 159 d | EmptyString => false end)
      || has_control s'
  end.

Section PeerLease.
Context (INSTANT_MAX : Z).

(** [Instant::checked_add] *)
Definition instant_checked_add (at_ millis : Z) : option Z :=
  if at_ + millis <=? INSTANT_MAX then Some (at_ + millis) else None.

(** [Lease::new] *)
Definition new {S} (id : string) (expires_at_ms : Z) : M S string (string * State) :=
  if str_is_empty id || (256 <? str_len id) || has_control id then fail "invalid lease identity"
  else
    let* now := now_ms in
    let remaining := u64_saturating_sub expires_at_ms now in
    if remaining =? 0 then fail "lease has already expired"
    else
      let* instant := instant_now in
      let* deadline := lift (ok_or (instant_checked_add instant remaining) "lease deadline is out of range") in
      ret (id, mkState deadline expires_at_ms None).

(** [Lease::expires_at_ms] *)
Definition expires_at_ms : M State string Z := gets pl_expires_at_ms.

(** [Lease::revoke] *)
Definition revoke : M State string unit :=
  modify (fun s => mkState (pl_deadline s) (pl_expires_at_ms s) (Some "revoked")).

(** [Instant::now() >= state.deadline || now_ms() >= state.expires_at_ms] *)
Definition over (s : State) : M State string bool :=
  let* instant := instant_now in
  if pl_deadline s <=? instant then ret true
  else let* now := now_ms in ret (pl_expires_at_ms s <=? now).

(** [Lease::ended] *)
Definition ended : M State string (option string) :=
  let* s := get in
  let* expired := match pl_ended s with Some _ => ret false | None => over s end in
  (if expired : bool then put (mkState (pl_deadline s) (pl_expires_at_ms s) (Some "expired")) else ret tt) ;;
  gets pl_ended.

(** [Lease::renew] *)
Definition renew (expires_at_ms : Z) : M State string unit :=
  let* s := get in
  let* refused := match pl_ended s with Some _ => ret true | None => over s end in
  if refused : bool then
    put (mkState (pl_deadline s) (pl_expires_at_ms s)
           (Some (match pl_ended s with Some reason => reason | None => "expired" end))) ;;
    fail "an ended lease cannot be renewed"
  else if expires_at_ms <? pl_expires_at_ms s
  then fail "renewal cannot shorten a lease; revoke it explicitly"
  else
    let* deadline := lift (ok_or (instant_checked_add (pl_deadline s) (expires_at_ms - pl_expires_at_ms s))
                             "lease deadline is out of range") in
    put (mkState deadline expires_at_ms None).

(** ** Runs *)

Inductive lease_event := LvRevoke | LvEnded | LvRenew (expires_at_ms : Z).

Definition lease_step (ev : lease_event) (s : State) (w : World) : State * World :=
  match ev with
  | LvRevoke => let '(_, s', w') := revoke s w in (s', w')
  | LvEnded => let '(_, s', w') := ended s w in (s', w')
  | LvRenew e => let '(_, s', w') := renew e s w in (s', w')
  end.

Fixpoint lease_run (evs : list lease_event) (s : State) (w : World) : State * World :=
  match evs with
  | [] => (s, w)
  | ev :: evs' => let '(s1, w1) := lease_step ev s w in lease_run evs' s1 w1
  end.

(** The monotonic lifetime and the authorized wall-clock lifetime grow together. *)
Record extends (s s' : State) : Prop := mk_extends {
  ex_lifetime : pl_deadline s' - pl_deadline s = pl_expires_at_ms s' - pl_expires_at_ms s;
  ex_longer : pl_expires_at_ms s <= pl_expires_at_ms s';
  ex_final : is_Some (pl_ended s) -> is_Some (pl_ended s') /\ pl_expires_at_ms s' = pl_expires_at_ms s }.

#[export] Instance extends_preorder : PreOrder extends.
Proof.
  split.
  - intros s. constructor; (done || lia).
  - intros a b c [A1 A2 A3] [B1 B2 B3]. constructor; [lia|lia|].
    intros H. destruct (A3 H) as [H1 H2], (B3 H1) as [H3 H4]. split; [done|congruence].
Qed.

Lemma over_state s w : snd (fst (over s s w)) = s.
Proof. unfold over. munfold. by destruct (pl_deadline s <=? _). Qed.

Lemma extends_end s reason :
  extends s (mkState (pl_deadline s) (pl_expires_at_ms s) (Some reason)).
Proof. constructor; cbn; [lia|lia|]. intros _. split; [by eexists|done]. Qed.

Lemma lease_step_extends ev s w : extends s (fst (lease_step ev s w)).
Proof.
  destruct ev as [| |e]; cbn.
  - apply extends_end.
  - unfold ended, over. munfold. destruct (pl_ended s) as [reason|]; [done|].
    destruct (pl_deadline s <=? _); [apply extends_end|].
    destruct (pl_expires_at_ms s <=? _); [apply extends_end|done].
  - unfold renew, over, instant_checked_add. munfold.
    destruct (pl_ended s) as [reason|] eqn:He; [apply extends_end|].
    destruct (pl_deadline s <=? _); [apply extends_end|].
    destruct (pl_expires_at_ms s <=? _); [apply extends_end|].
    destruct (e <? pl_expires_at_ms s) eqn:Hs; [done|]. bool_prop.
    destruct (_ <=? INSTANT_MAX); cbn; [|done].
    constructor; cbn; [lia|lia|]. rewrite He. by intros [].
Qed.

Lemma lease_run_extends evs s w : extends s (fst (lease_run evs s w)).
Proof.
  revert s w. induction evs as [|ev evs IH]; intros s w; cbn; [done|].
  pose proof (lease_step_extends ev s w) as H. destruct (lease_step ev s w) as [s1 w1]. cbn in H.
  by etrans.
Qed.

(** Lifetime of a peer lease. Whatever renewals, checks and revocations follow, and however the
    wall clock moves, the monotonic deadline is the one of the grant plus exactly the extension of the
    authorized expiry; an ended lease stays ended and is never extended; and once the monotonic clock
    reaches that deadline the lease is reported as ended. *)
Theorem peer_lease_lifetime evs s w :
  let '(s', w') := lease_run evs s w in
  pl_deadline s' = pl_deadline s + (pl_expires_at_ms s' - pl_expires_at_ms s) /\
  pl_expires_at_ms s <= pl_expires_at_ms s' /\
  (is_Some (pl_ended s) -> is_Some (pl_ended s') /\ pl_expires_at_ms s' = pl_expires_at_ms s) /\
  (pl_deadline s' <= peek (w_instant w') ->
   exists reason, fst (fst (ended s' w')) = Ok (Some reason)).
Proof.
  pose proof (lease_run_extends evs s w) as [H1 H2 H3]. destruct (lease_run evs s w) as [s' w'].
  cbn in *. split_and!; [lia|lia|done|]. intros Hd. unfold ended, over. munfold.
  destruct (pl_ended s') eqn:He; cbn; [by rewrite He; eauto|].
  rewrite (proj2 (Z.leb_le _ _) Hd). eauto.
Qed.

(** A renewal never revives or shortens: it succeeds only on a lease that neither ended, nor
    reached its deadline, nor expired by the wall clock, and only to a later expiry. *)
Theorem renewal_only_extends_live_leases e s w :
  let '(r, s', _) := renew e s w in
  match r with
  | Ok _ => pl_ended s = None /\ peek (w_instant w) < pl_deadline s /\
      peek (w_wall w) < pl_expires_at_ms s /\ pl_expires_at_ms s <= e /\
      s' = mkState (pl_deadline s + (e - pl_expires_at_ms s)) e None
  | Err _ => pl_expires_at_ms s' = pl_expires_at_ms s /\ pl_deadline s' = pl_deadline s
  end.
Proof.
  unfold renew, over, instant_checked_add. munfold.
  destruct (pl_ended s) as [reason|] eqn:He; [done|].
  destruct (pl_deadline s <=? peek (w_instant w)) eqn:Hd; [done|]. cbn.
  destruct (pl_expires_at_ms s <=? peek (w_wall w)) eqn:Hw; [done|].
  destruct (e <? pl_expires_at_ms s) eqn:Hs; [done|]. bool_prop.
  destruct (_ <=? INSTANT_MAX); cbn; [|done]. by split_and!.
Qed.

End PeerLease.
