(* ===== verification/PathPolicy.v ===== *)
(** * The path policy of a desktop executor ([crates/machine-fabric-runtime/src/path_policy.rs])

    Which paths an executor may read and write on Linux and macOS; the blocks
    compiled for Windows (drive prefixes, device names, comparison without case)
    are not modelled. A path is its list of components, as [Path::components]
    yields them. The file system is an interface ([FileSystem]): what exists,
    what is a directory, and the canonical form of an existing path. The text of
    an operating system error is left out of the messages. *)
From stdpp Require Import base gmap strings list.
From S2P Require Import Prelude Json Protocol.
Open Scope Z_scope.

Inductive Component := CurDir | ParentDir | Normal (name : string).

#[export] Instance Component_eq_dec : EqDecision Component.
Proof. solve_decision. Defined.

Record Path := mkPath { p_absolute : bool; p_components : list Component }.

#[export] Instance Path_eq_dec : EqDecision Path.
Proof. solve_decision. Defined.

Definition component_str (c : Component) : string :=
  match c with CurDir => "." | ParentDir => ".." | Normal n => n end.

(** [path.display()] *)
Definition display (p : Path) : string :=
  (if p_absolute p then "/" else "") +:+ String.concat "/" (component_str <$> p_components p).

(** [path.push(component)], [path.join(relative)] for a relative argument *)
Definition push (p : Path) (c : Component) : Path := mkPath (p_absolute p) (p_components p ++ [c]).
Definition join (p : Path) (names : list string) : Path :=
  mkPath (p_absolute p) (p_components p ++ (Normal <$> names)).

(** What the policy asks of the operating system. *)
Class FileSystem := {
  fs_exists : Path -> bool;
  fs_is_dir : Path -> bool;
  fs_canonicalize : Path -> option Path;
}.

(** The documented result of [canonicalize]: absolute, without [.] and [..]. *)
Definition is_normal (c : Component) : bool := match c with Normal _ => true | _ => false end.
Definition normalized (p : Path) : Prop := p_absolute p = true /\ forallb is_normal (p_components p) = true.

Class FileSystemLaws `{FileSystem} : Prop :=
  canonicalize_normalized p q : fs_canonicalize p = Some q -> normalized q.

Inductive PathAccess := Read | Write.

(** [within] *)
Fixpoint is_prefix (a b : list Component) : bool :=
  match a, b with
  | [], _ => true
  | x :: a', y :: b' => bool_decide (x = y) && is_prefix a' b'
  | _ :: _, [] => false
  end.
Definition within (path root : Path) : bool :=
  Bool.eqb (p_absolute path) (p_absolute root) && is_prefix (p_components root) (p_components path).

(** [logical_path] *)
Fixpoint logical_loop (comps stack : list Component) : result RpcError (list Component) :=
  match comps with
  | [] => Ok stack
  | CurDir :: comps' => logical_loop comps' stack
  | ParentDir :: comps' =>
      match last stack with
      | Some (Normal _) => logical_loop comps' (take (length stack - 1) stack)
      | _ => Err (rpc_error "PATH_INVALID" "path escapes its filesystem root")
      end
  | Normal n :: comps' => logical_loop comps' (stack ++ [Normal n])
  end.

Definition logical_path (p : Path) : result RpcError Path :=
  if negb (p_absolute p) then Err (rpc_error "PATH_INVALID" "path must be absolute")
  else match logical_loop (p_components p) [] with
  | Ok cs => Ok (mkPath true cs)
  | Err e => Err e
  end.

(** [same_path] *)
Definition same_path (left right : Path) : bool :=
  match logical_path left, logical_path right with
  | Ok l, Ok r => within l r && within r l
  | _, _ => false
  end.

Section Policy.
Context `{FileSystem}.

(** The loop of [resolve_path] over the ancestors, the components reversed. *)
Fixpoint resolve_missing (path : Path) (reversed : list Component) (missing : list Component)
    : result RpcError Path :=
  let ancestor := mkPath true (rev reversed) in
  if fs_exists ancestor then
    match fs_canonicalize ancestor with
    | Some resolved => Ok (mkPath (p_absolute resolved) (p_components resolved ++ missing))
    | None => Err (rpc_error "PATH_INVALID" (display path +:+ ": "))
    end
  else
    match reversed with
    | Normal name :: reversed' =>
        if String.eqb name "." || String.eqb name ".."
        then Err (rpc_error "PATH_INVALID" "path contains unresolved traversal")
        else resolve_missing path reversed' (Normal name :: missing)
    | _ => Err (rpc_error "PATH_INVALID" "path has no existing ancestor")
    end.

(** [resolve_path] *)
Definition resolve_path (path : Path) : result RpcError Path :=
  if negb (p_absolute path) then Err (rpc_error "PATH_INVALID" "path must be absolute")
  else if existsb (fun c => bool_decide (c = ParentDir)) (p_components path)
  then Err (rpc_error "PATH_INVALID" "path contains parent traversal")
  else if fs_exists path then
    match fs_canonicalize path with
    | Some p => Ok p
    | None => Err (rpc_error "PATH_INVALID" (display path +:+ ": "))
    end
  else resolve_missing path (rev (p_components path)) [].

Record DesktopPathPolicy := mkDesktopPathPolicy {
  read_denied : list Path;
  write_allowed : list Path;
  logical_write_allowed : list Path;
  managed_mappings : list (Path * Path);
}.

Definition contains_path (l : list Path) (p : Path) : bool := existsb (fun q => bool_decide (q = p)) l.

(** [add_read_root] *)
Definition add_read_root (roots : list Path) (path : Path) : result RpcError (list Path) :=
  if negb (p_absolute path) then Err (rpc_error "INVALID_ROOT" "read-deny root must be absolute")
  else
    let roots := if contains_path roots path then roots else roots ++ [path] in
    Ok match resolve_path path with
       | Ok resolved => if contains_path roots resolved then roots else roots ++ [resolved]
       | Err _ => roots
       end.


Definition denied_relatives : list (list string) :=
  [ [".ssh"]; [".gnupg"]; [".aws"]; [".azure"]; [".kube"]; [".docker"]; [".config"; "gcloud"];
    [".config"; "gh"]; [".netrc"]; [".npmrc"] ].
Definition allowed_relatives : list (list string) :=
  [ ["Code"]; ["Workspace"]; ["Downloads"]; ["Documents"]; ["Desktop"]; ["Pictures"]; [".cache"];
    [".local"; "state"]; [".local"; "share"]; [".config"] ].

Fixpoint deny_all (original_home home : Path) (relatives : list (list string)) (roots : list Path)
    : result RpcError (list Path) :=
  match relatives with
  | [] => Ok roots
  | r :: rs =>
      bind_result (add_read_root roots (join original_home r)) (fun roots =>
      bind_result (add_read_root roots (join home r)) (deny_all original_home home rs))
  end.

Fixpoint allow_all (original_home home : Path) (relatives : list (list string))
    (acc : list Path * list Path) : result RpcError (list Path * list Path) :=
  match relatives with
  | [] => Ok acc
  | r :: rs =>
      bind_result (resolve_path (join home r)) (fun w =>
      bind_result (logical_path (join original_home r)) (fun l =>
      allow_all original_home home rs (acc.1 ++ [w], acc.2 ++ [l])))
  end.

(** [target_os] *)
Inductive Platform := Linux | MacOs.

Definition macos_denied : list Path :=
  mkPath true <$>
  (fmap Normal <$>
    [ ["private"; "etc"]; ["private"; "var"; "db"]; ["private"; "var"; "root"]; ["Library"; "Keychains"];
      ["System"; "Library"; "Keychains"]; ["dev"] ]).
Definition macos_denied_relatives : list (list string) :=
  [ ["Library"; "Keychains"]; ["Library"; "Application Support"; "com.apple.TCC"] ].
Definition macos_allowed_relatives : list (list string) :=
  [ ["Applications"]; ["Library"; "Caches"]; ["Library"; "Application Support"];
    ["Library"; "Preferences"]; ["Library"; "Logs"] ].

Fixpoint deny_absolute (paths roots : list Path) : result RpcError (list Path) :=
  match paths with
  | [] => Ok roots
  | p :: ps => bind_result (add_read_root roots p) (deny_absolute ps)
  end.

(** The block of [new] compiled for macOS. *)
Definition platform_roots (os : Platform) (original_home home : Path) (denied : list Path)
    (allowed : list Path * list Path) : result RpcError (list Path * (list Path * list Path)) :=
  match os with
  | Linux => Ok (denied, allowed)
  | MacOs =>
      bind_result (deny_absolute macos_denied denied) (fun denied =>
      bind_result (deny_all original_home home macos_denied_relatives denied) (fun denied =>
      bind_result (allow_all original_home home macos_allowed_relatives allowed) (fun allowed =>
      Ok (denied, allowed))))
  end.

(** The roots named by [XDG_CACHE_HOME], [XDG_STATE_HOME] and [XDG_CONFIG_HOME]. *)
Fixpoint allow_xdg (home : Path) (variables : list (option Path)) (acc : list Path * list Path)
    : result RpcError (list Path * list Path) :=
  match variables with
  | [] => Ok acc
  | None :: vs => allow_xdg home vs acc
  | Some root :: vs =>
      if p_absolute root then
        bind_result (resolve_path root) (fun root =>
          if within root home then
            bind_result (logical_path root) (fun l =>
            allow_xdg home vs (acc.1 ++ [root], acc.2 ++ [l]))
          else allow_xdg home vs acc)
      else allow_xdg home vs acc
  end.

(** [DesktopPathPolicy::new] *)
Definition new (os : Platform) (home : Path) (variables : list (option Path)) : result RpcError DesktopPathPolicy :=
  let original_home := home in
  match fs_canonicalize home with
  | None => Err (rpc_error "INVALID_ROOT" (display home +:+ ": "))
  | Some home =>
      bind_result (deny_all original_home home denied_relatives []) (fun denied =>
      bind_result (allow_all original_home home allowed_relatives ([], [])) (fun allowed =>
      bind_result (platform_roots os original_home home denied allowed) (fun roots =>
      bind_result (allow_xdg home variables roots.2) (fun allowed =>
      Ok (mkDesktopPathPolicy roots.1 allowed.1 allowed.2 [])))))
  end.

(** [DesktopPathPolicy::check] *)
Definition check (policy : DesktopPathPolicy) (path : Path) (access : PathAccess) : result RpcError unit :=
  if existsb (within path) (read_denied policy)
  then Err (rpc_error "PATH_READ_DENIED" (display path +:+ " is in a protected system or credential path"))
  else match access with
  | Write =>
      if existsb (within path) (write_allowed policy) then Ok tt
      else Err (rpc_error "PATH_WRITE_DENIED" (display path +:+ " is outside executor write roots"))
  | Read => Ok tt
  end.

Definition mapping_error : RpcError := rpc_error "INVALID_ROOT" "invalid or overlapping managed path mapping".

(** The loop of [DesktopPathPolicy::register_mappings] *)
Fixpoint verify_mappings (policy : DesktopPathPolicy) (mappings verified : list (Path * Path))
    : result RpcError (list (Path * Path)) :=
  match mappings with
  | [] => Ok verified
  | (logical, physical) :: mappings' =>
      bind_result (logical_path logical) (fun logical =>
      bind_result (resolve_path physical) (fun physical =>
      bind_result (check policy logical Read) (fun _ =>
      bind_result (check policy physical Read) (fun _ =>
        if negb (existsb (within logical) (logical_write_allowed policy))
           || negb (fs_is_dir logical) || negb (fs_is_dir physical)
        then Err mapping_error
        else
          bind_result (resolve_path logical) (fun resolved =>
            if negb (same_path resolved physical)
               || existsb (fun m => within logical m.1 || within m.1 logical) verified
            then Err mapping_error
            else verify_mappings policy mappings' (verified ++ [(logical, physical)]))))))
  end.

(** [DesktopPathPolicy::register_mappings]: the new policy, or the error and the old one. *)
Definition register_mappings (policy : DesktopPathPolicy) (mappings : list (Path * Path))
    : result RpcError unit * DesktopPathPolicy :=
  match verify_mappings policy mappings [] with
  | Ok verified =>
      (Ok tt, mkDesktopPathPolicy (read_denied policy) (write_allowed policy)
                (logical_write_allowed policy) verified)
  | Err e => (Err e, policy)
  end.

(** The loop of [DesktopPathPolicy::check_resolved] over the mappings: [Ok true] is the early
    return, [Ok false] that no mapping matches. *)
Fixpoint match_mappings (mappings : list (Path * Path)) (logical resolved : Path) : result RpcError bool :=
  match mappings with
  | [] => Ok false
  | (root, target) :: mappings' =>
      bind_result (logical_path target) (fun physical_root =>
        let matched :=
          if within logical root then Some root
          else if within logical physical_root then Some physical_root
          else None in
        match matched with
        | None => match_mappings mappings' logical resolved
        | Some matched_root =>
            let expected :=
              mkPath (p_absolute target)
                (p_components target ++ drop (length (p_components matched_root)) (p_components logical)) in
            bind_result (resolve_path root) (fun now =>
              if negb (same_path now target) || negb (same_path resolved expected)
              then Err (rpc_error "PATH_WRITE_DENIED" "managed mapping changed or contains an unregistered redirect")
              else Ok true)
        end)
  end.

(** [DesktopPathPolicy::check_resolved] *)
Definition check_resolved (policy : DesktopPathPolicy) (logical resolved : Path) (access : PathAccess)
    : result RpcError unit :=
  bind_result (check policy logical Read) (fun _ =>
  bind_result (check policy resolved Read) (fun _ =>
  bind_result (logical_path logical) (fun logical =>
  bind_result (check policy logical Read) (fun _ =>
    match access with
    | Read => check policy resolved access
    | Write =>
        bind_result (match_mappings (managed_mappings policy) logical resolved) (fun matched =>
          if matched : bool then Ok tt else check policy resolved access)
    end)))).

End Policy.

(** ** Containment *)

Lemma is_prefix_spec a b : is_prefix a b = true <-> a `prefix_of` b.
Proof.
  revert b. induction a as [|x a IH]; intros [|y b]; cbn.
  - split; [intros _; apply prefix_nil|done].
  - split; [intros _; apply prefix_nil|done].
  - split; [done|]. intros H. by apply prefix_nil_inv in H.
  - rewrite andb_true_iff, bool_decide_eq_true, IH. split.
    + intros [-> H]. by apply prefix_cons.
    + intros H. split; [by eapply prefix_cons_inv_1|by eapply prefix_cons_inv_2].
Qed.

Lemma within_spec p root :
  within p root = true <->
  p_absolute p = p_absolute root /\ p_components root `prefix_of` p_components p.
Proof. unfold within. by rewrite andb_true_iff, Bool.eqb_true_iff, is_prefix_spec. Qed.

#[export] Instance within_preorder : PreOrder (fun p root => within p root = true).
Proof.
  split.
  - intros p. by apply within_spec.
  - intros p q r [H1 H2]%within_spec [H3 H4]%within_spec. apply within_spec.
    split; [congruence|]. by etrans.
Qed.

Lemma within_antisym p q : within p q = true -> within q p = true -> p = q.
Proof.
  intros [H1 H2]%within_spec [_ H3]%within_spec. destruct p as [a cs], q as [b ds]. cbn in *.
  subst. f_equal. by apply (anti_symm prefix).
Qed.

Lemma existsb_within p roots :
  existsb (within p) roots = true <-> exists root, root ∈ roots /\ within p root = true.
Proof.
  rewrite existsb_exists. split; intros (r & Hr & Hw); exists r; (split; [|done]); by apply list_elem_of_In.
Qed.

Lemma existsb_within_false p roots root :
  existsb (within p) roots = false -> root ∈ roots -> within p root = false.
Proof.
  intros Hf Hr. destruct (within p root) eqn:Hw; [|done].
  assert (existsb (within p) roots = true) by (apply existsb_within; eauto). congruence.
Qed.

(** ** Logical paths *)

Lemma forallb_app {A} (p : A -> bool) l k : forallb p (l ++ k) = forallb p l && forallb p k.
Proof. induction l as [|x l IH]; cbn; [done|]. by rewrite IH, andb_assoc. Qed.

Lemma forallb_take {A} (p : A -> bool) n l : forallb p l = true -> forallb p (take n l) = true.
Proof.
  intros H. rewrite <- (take_drop n l), forallb_app in H. by apply andb_true_iff in H as [H _].
Qed.

Lemma logical_loop_normal cs stack out :
  forallb is_normal stack = true -> logical_loop cs stack = Ok out -> forallb is_normal out = true.
Proof.
  revert stack. induction cs as [|c cs IH]; intros stack Hs H; cbn in H; [by simplify_eq|].
  destruct c as [| |n]; [by eapply IH| |].
  - destruct (last stack) as [[| |m]|]; try done. eapply IH; [|exact H]. by apply forallb_take.
  - eapply IH; [|exact H]. by rewrite forallb_app, Hs.
Qed.

Lemma logical_path_normalized p q : logical_path p = Ok q -> normalized q.
Proof.
  unfold logical_path. destruct (negb (p_absolute p)); [done|].
  destruct (logical_loop (p_components p) []) as [cs|] eqn:E; intros; simplify_eq.
  split; [done|]. eapply logical_loop_normal; [|exact E]. done.
Qed.

Lemma logical_loop_id cs stack :
  forallb is_normal cs = true -> logical_loop cs stack = Ok (stack ++ cs).
Proof.
  revert stack. induction cs as [|c cs IH]; intros stack H; cbn; [by rewrite app_nil_r|].
  cbn in H. apply andb_true_iff in H as [Hc H]. destruct c; try done.
  rewrite IH by done. by rewrite <- app_assoc.
Qed.

Lemma logical_path_id p : normalized p -> logical_path p = Ok p.
Proof.
  intros [Ha Hn]. unfold logical_path. rewrite Ha. cbn. rewrite logical_loop_id by done.
  by destruct p; cbn in *; subst.
Qed.

Lemma same_path_normalized p q : normalized q -> same_path p q = true -> exists l, logical_path p = Ok l /\ l = q.
Proof.
  intros Hq. unfold same_path. rewrite (logical_path_id q Hq).
  destruct (logical_path p) as [l|]; [|done]. intros [H1 H2]%andb_true_iff. exists l.
  split; [done|]. by apply within_antisym.
Qed.

(** ** Accepted accesses *)

Ltac bind_ok :=
  repeat match goal with
  | H : bind_result _ _ = Ok _ |- _ => destruct (proj1 (bind_result_ok _ _ _) H) as (? & ? & ?); clear H
  | u : unit |- _ => destruct u
  end.

Section Accepted.
Context `{FileSystem}.

Definition undenied (policy : DesktopPathPolicy) (p : Path) : Prop :=
  forall root, root ∈ read_denied policy -> within p root = false.

Lemma check_read_ok policy p u : check policy p Read = Ok u <-> undenied policy p.
Proof.
  destruct u. unfold check, undenied. destruct (existsb _ _) eqn:E; split; try done.
  - intros Hu. apply existsb_within in E as (r & Hr & Hw). specialize (Hu r Hr). congruence.
  - intros _ r Hr. by eapply existsb_within_false.
Qed.

Lemma check_write_ok policy p u :
  check policy p Write = Ok u <->
  undenied policy p /\ exists root, root ∈ write_allowed policy /\ within p root = true.
Proof.
  rewrite <- (check_read_ok policy p u), <- existsb_within. destruct u. unfold check.
  destruct (existsb _ (read_denied policy)), (existsb _ (write_allowed policy)); naive_solver.
Qed.

(** The mapping that admits a write: the target of a registered mapping which still redirects as it
    did at registration, extended by what follows the matched root in the logical path. *)
Definition mapped (policy : DesktopPathPolicy) (logical resolved : Path) : Prop :=
  exists root target matched suffix now,
    (root, target) ∈ managed_mappings policy /\
    (matched = root \/ logical_path target = Ok matched) /\
    p_components logical = p_components matched ++ suffix /\
    resolve_path root = Ok now /\ same_path now target = true /\
    same_path resolved (mkPath (p_absolute target) (p_components target ++ suffix)) = true.

Lemma within_suffix p root :
  within p root = true ->
  p_components p = p_components root ++ drop (length (p_components root)) (p_components p).
Proof.
  intros [_ [k Hk]]%within_spec. rewrite Hk, drop_app_length. done.
Qed.

Lemma match_mappings_true policy mappings logical resolved :
  mappings ⊆ managed_mappings policy ->
  match_mappings mappings logical resolved = Ok true -> mapped policy logical resolved.
Proof.
  induction mappings as [|[root target] ms IH]; intros Hin Hm; cbn [match_mappings] in Hm; [done|].
  bind_ok. rename x into physical.
  destruct (within logical root) eqn:W1; [|destruct (within logical physical) eqn:W2].
  3: { apply IH; [set_solver|done]. }
  all: bind_ok; match goal with H : (if ?b then _ else _) = Ok _ |- _ => destruct b eqn:B; [done|] end.
  all: apply orb_false_iff in B as [B1%negb_false_iff B2%negb_false_iff].
  1: exists root, target, root. 2: exists root, target, physical.
  all: eexists _, x; repeat split; [set_solver|auto|by apply within_suffix|done..].
Qed.


(** C36: a write that the policy accepts never reaches a protected path, neither under the name the
    caller used nor under the resolved one, and the resolved path lies in a write root or is the
    place a registered mapping sends the logical path to. *)
Theorem accepted_writes_stay_in_roots policy logical resolved :
  check_resolved policy logical resolved Write = Ok tt ->
  undenied policy logical /\ undenied policy resolved /\
  exists l, logical_path logical = Ok l /\ undenied policy l /\
    ((exists root, root ∈ write_allowed policy /\ within resolved root = true) \/
     mapped policy l resolved).
Proof.
  intros Hc. unfold check_resolved in Hc. bind_ok.
  repeat match goal with H : check _ _ Read = Ok _ |- _ => apply check_read_ok in H end.
  split; [done|]. split; [done|]. exists x1. split; [done|]. split; [done|].
  destruct x3.
  - right. by eapply match_mappings_true.
  - left. by match goal with H : check _ _ Write = Ok _ |- _ => apply check_write_ok in H as [_ ?] end.
Qed.

(** ** Registration *)

Definition disjoint_roots (ms : list (Path * Path)) : Prop :=
  forall i j m n, ms !! i = Some m -> ms !! j = Some n -> i <> j -> within m.1 n.1 = false.

Definition verified_mapping (policy : DesktopPathPolicy) (m : Path * Path) : Prop :=
  normalized m.1 /\ undenied policy m.1 /\ undenied policy m.2 /\
  (exists root, root ∈ logical_write_allowed policy /\ within m.1 root = true) /\
  fs_is_dir m.1 = true /\ fs_is_dir m.2 = true /\
  exists resolved, resolve_path m.1 = Ok resolved /\ same_path resolved m.2 = true.

Definition names_mapping (asked verified : Path * Path) : Prop :=
  logical_path asked.1 = Ok verified.1 /\ resolve_path asked.2 = Ok verified.2.

Lemma disjoint_roots_snoc ms m :
  disjoint_roots ms ->
  existsb (fun n => within m.1 n.1 || within n.1 m.1) ms = false ->
  disjoint_roots (ms ++ [m]).
Proof.
  intros Hd He.
  assert (Hn : forall n, n ∈ ms -> within m.1 n.1 = false /\ within n.1 m.1 = false).
  { intros n Hn. apply orb_false_iff. destruct (within m.1 n.1 || within n.1 m.1) eqn:E; [|done].
    rewrite <- He. symmetry. apply existsb_exists. exists n. split; [by apply list_elem_of_In|done]. }
  intros i j a b Ha Hb Hij.
  apply lookup_app_Some in Ha as [Ha|[Hi Ha]], Hb as [Hb|[Hj Hb]].
  - by eapply (Hd i j).
  - apply list_lookup_singleton_Some in Hb as [_ <-]. apply Hn. by eapply list_elem_of_lookup_2.
  - apply list_lookup_singleton_Some in Ha as [_ <-]. apply Hn. by eapply list_elem_of_lookup_2.
  - apply list_lookup_singleton_Some in Ha as [? _], Hb as [? _]. lia.
Qed.

Lemma verify_mappings_sound policy ms verified out :
  disjoint_roots verified -> Forall (verified_mapping policy) verified ->
  verify_mappings policy ms verified = Ok out ->
  disjoint_roots out /\ Forall (verified_mapping policy) out /\
  exists news, out = verified ++ news /\ Forall2 names_mapping ms news.
Proof.
  revert verified. induction ms as [|[logical physical] ms IH]; intros verified Hd Hf Hv;
    cbn [verify_mappings] in Hv.
  { simplify_eq. split_and!; [done..|]. exists []. by rewrite app_nil_r. }
  bind_ok. rename x into l, x0 into p.
  repeat match goal with H : check _ _ Read = Ok _ |- _ => apply check_read_ok in H end.
  match goal with H : (if ?b then _ else _) = Ok _ |- _ => destruct b eqn:B1; [done|] end.
  bind_ok. rename x into r.
  match goal with H : (if ?b then _ else _) = Ok _ |- _ => destruct b eqn:B2; [done|] end.
  apply orb_false_iff in B1 as [B1 Bp%negb_false_iff].
  apply orb_false_iff in B1 as [Bw%negb_false_iff Bl%negb_false_iff].
  apply orb_false_iff in B2 as [Bs%negb_false_iff Bd].
  edestruct (IH (verified ++ [(l, p)])) as (O1 & O2 & news & -> & O3); [| |done|].
  - by apply disjoint_roots_snoc.
  - apply Forall_app. split; [done|]. apply Forall_singleton. unfold verified_mapping. cbn.
    apply existsb_within in Bw. split_and!; try done; [by eapply logical_path_normalized..|]. eauto.
  - split_and!; [done..|]. exists ((l, p) :: news). rewrite <- app_assoc. split; [done|].
    by constructor.
Qed.

(** a registration is all or nothing. An error leaves the policy as it was; after a success
    every mapping that was asked for is a directory under a logical write root that resolves to
    its target, neither side is protected, and no mapping lies inside another one. *)
Theorem registered_mappings_sound policy ms :
  let (answer, policy') := register_mappings policy ms in
  read_denied policy' = read_denied policy /\ write_allowed policy' = write_allowed policy /\
  match answer with
  | Err _ => policy' = policy
  | Ok _ =>
      Forall2 names_mapping ms (managed_mappings policy') /\
      disjoint_roots (managed_mappings policy') /\
      Forall (verified_mapping policy) (managed_mappings policy')
  end.
Proof.
  unfold register_mappings. destruct (verify_mappings policy ms []) as [out|e] eqn:E; [|done].
  cbn. apply verify_mappings_sound in E as (O1 & O2 & news & -> & O3); [done| |done].
  intros i j m n Hm. by rewrite lookup_nil in Hm.
Qed.

(** ** The protected paths of a new policy *)

Lemma registered_roots policy ms : read_denied (register_mappings policy ms).2 = read_denied policy.
Proof. unfold register_mappings. by destruct (verify_mappings policy ms []). Qed.

Lemma contains_path_spec l p : contains_path l p = true <-> p ∈ l.
Proof.
  unfold contains_path. rewrite existsb_exists. split.
  - intros (q & Hq & ->%bool_decide_eq_true). by apply list_elem_of_In.
  - intros Hp. exists p. split; [by apply list_elem_of_In|by apply bool_decide_eq_true].
Qed.

Lemma add_read_root_incl roots path out :
  add_read_root roots path = Ok out ->
  roots ⊆ out /\ path ∈ out /\ forall r, resolve_path path = Ok r -> r ∈ out.
Proof.
  assert (Hadd : forall l p, l ⊆ (if contains_path l p then l else l ++ [p]) /\
                             p ∈ (if contains_path l p then l else l ++ [p])).
  { intros l p. destruct (contains_path l p) eqn:E; [by apply contains_path_spec in E|set_solver]. }
  unfold add_read_root. destruct (negb _); [done|]. intros [= <-].
  destruct (Hadd roots path) as [A1 A2]. destruct (resolve_path path) as [r|e]; [|done].
  destruct (Hadd (if contains_path roots path then roots else roots ++ [path]) r) as [B1 B2].
  split_and!; [set_solver..|]. by intros ? [= <-].
Qed.

Lemma deny_all_incl original home rs roots out :
  deny_all original home rs roots = Ok out ->
  roots ⊆ out /\ forall r, r ∈ rs -> join original r ∈ out /\ join home r ∈ out /\
    forall p, resolve_path (join home r) = Ok p -> p ∈ out.
Proof.
  revert roots. induction rs as [|r rs IH]; intros roots Hd; cbn [deny_all] in Hd.
  { simplify_eq. split; [done|]. intros r Hr. by apply list_elem_of_In in Hr. }
  bind_ok. edestruct IH as [I1 I2]; [done|].
  repeat match goal with Ha : add_read_root _ _ = Ok _ |- _ =>
    apply add_read_root_incl in Ha as (? & ? & ?) end.
  split; [set_solver|]. intros r' [->|Hr']%elem_of_cons; [|by apply I2].
  split_and!; set_solver.
Qed.

Lemma deny_absolute_incl ps roots out :
  deny_absolute ps roots = Ok out -> roots ⊆ out /\ ps ⊆ out.
Proof.
  revert roots. induction ps as [|p ps IH]; intros roots Hd; cbn [deny_absolute] in Hd.
  { simplify_eq. set_solver. }
  bind_ok. edestruct IH as [I1 I2]; [done|].
  match goal with Ha : add_read_root _ _ = Ok _ |- _ => apply add_read_root_incl in Ha as (? & ? & ?) end.
  set_solver.
Qed.

(** The paths a new policy has to protect. *)
Definition credential_root (os : Platform) (original home root : Path) : Prop :=
  (exists r, r ∈ denied_relatives ++ (match os with MacOs => macos_denied_relatives | Linux => [] end) /\
     (root = join original r \/ root = join home r \/ resolve_path (join home r) = Ok root)) \/
  (os = MacOs /\ root ∈ macos_denied).

Lemma platform_denies os original home denied allowed roots :
  platform_roots os original home denied allowed = Ok roots ->
  denied ⊆ roots.1 /\
  match os with
  | Linux => True
  | MacOs => macos_denied ⊆ roots.1 /\
      forall r, r ∈ macos_denied_relatives -> join original r ∈ roots.1 /\ join home r ∈ roots.1 /\
        forall p, resolve_path (join home r) = Ok p -> p ∈ roots.1
  end.
Proof.
  destruct os; cbn [platform_roots]; intros Hp; [by simplify_eq|].
  apply bind_result_ok in Hp as (d1 & H1 & Hp). apply bind_result_ok in Hp as (d2 & H2 & Hp).
  apply bind_result_ok in Hp as (a & _ & Hp). injection Hp as <-. cbn [fst].
  apply deny_absolute_incl in H1 as [S1 A]. apply deny_all_incl in H2 as [S2 M].
  split; [by etrans|]. split; [by etrans|]. exact M.
Qed.

Lemma new_denies os original variables policy :
  new os original variables = Ok policy ->
  exists home, fs_canonicalize original = Some home /\
    forall root, credential_root os original home root -> root ∈ read_denied policy.
Proof.
  unfold new. destruct (fs_canonicalize original) as [home|]; [|done]. intros Hn.
  apply bind_result_ok in Hn as (denied & Hd & Hn). apply bind_result_ok in Hn as (allowed & _ & Hn).
  apply bind_result_ok in Hn as (roots & Hp & Hn). apply bind_result_ok in Hn as (a & _ & Hn).
  injection Hn as <-. exists home. split; [done|]. intros root Hc. cbn [read_denied].
  apply deny_all_incl in Hd as [_ D]. apply platform_denies in Hp as [S1 M].
  destruct Hc as [(r & [Hr|Hr]%elem_of_app & C)|[-> Hr]]; [| |by apply M].
  - apply S1. destruct (D r Hr) as (? & ? & ?). destruct C as [->|[->|?]]; eauto.
  - destruct os; [by apply elem_of_nil in Hr|].
    destruct M as [_ M], (M r Hr) as (? & ? & ?). destruct C as [->|[->|?]]; eauto.
Qed.

(** a policy built for a home directory refuses every access to its credential directories,
    under the name of the home directory that was given, under the canonical one and under the
    place a credential directory resolves to, whatever mappings are registered later. *)
Theorem credentials_are_protected os original variables policy ms path root home access :
  new os original variables = Ok policy ->
  fs_canonicalize original = Some home ->
  credential_root os original home root -> within path root = true ->
  forall logical,
  check (register_mappings policy ms).2 path access =
    Err (rpc_error "PATH_READ_DENIED" (display path +:+ " is in a protected system or credential path")) /\
  (exists e, check_resolved (register_mappings policy ms).2 logical path access = Err e) /\
  (exists e, check_resolved (register_mappings policy ms).2 path logical access = Err e).
Proof.
  intros Hn Hc Hr Hw logical. apply new_denies in Hn as (home' & Hc' & Hin). simplify_eq.
  pose proof (registered_roots policy ms) as Hd.
  set (policy' := (register_mappings policy ms).2) in *.
  assert (Hex : existsb (within path) (read_denied policy') = true).
  { apply existsb_within. exists root. rewrite Hd. eauto. }
  assert (Hno : forall u, check policy' path Read <> Ok u).
  { intros u Hu. unfold check in Hu. by rewrite Hex in Hu. }
  split; [unfold check; by rewrite Hex|].
  split; (destruct (check_resolved _ _ _ _) as [u|e] eqn:E; [|by eauto]);
    unfold check_resolved in E; bind_ok; by edestruct Hno.
Qed.

End Accepted.

(** ** Resolution *)

Section Resolution.
Context `{FileSystemLaws}.

Definition ancestor (cs : list Component) (k : nat) : Path := mkPath true (take k cs).

(** [q] is the canonical form of the longest existing ancestor of [cs], followed by the rest. *)
Definition resolves (cs : list Component) (q : Path) : Prop :=
  exists k c, (k <= length cs)%nat /\ fs_exists (ancestor cs k) = true /\
    fs_canonicalize (ancestor cs k) = Some c /\
    q = mkPath (p_absolute c) (p_components c ++ drop k cs) /\
    forallb is_normal (drop k cs) = true /\
    forall j, (k < j <= length cs)%nat -> fs_exists (ancestor cs j) = false.

Lemma resolve_missing_spec path reversed missing q :
  forallb is_normal missing = true ->
  (forall j, (length reversed < j <= length reversed + length missing)%nat ->
     fs_exists (ancestor (rev reversed ++ missing) j) = false) ->
  resolve_missing path reversed missing = Ok q -> resolves (rev reversed ++ missing) q.
Proof.
  revert missing. induction reversed as [|c cs IH]; intros missing Hn Hj Hr.
  all: cbn [resolve_missing] in Hr;
    match type of Hr with (if fs_exists ?a then _ else _) = _ => destruct (fs_exists a) eqn:He end.
  2: done.
  1, 2: match type of Hr with match fs_canonicalize ?a with _ => _ end = _ =>
          destruct (fs_canonicalize a) as [r|] eqn:Hc; [|done] end; injection Hr as <-.
  - exists 0%nat, r. cbn in *. rewrite drop_0. split_and!; try done; lia.
  - exists (length (c :: cs)), r. unfold ancestor in *.
    rewrite <- (length_rev (c :: cs)), take_app_length, drop_app_length.
    split_and!; try done; try (rewrite length_app; lia). rewrite length_rev, length_app, length_rev.
    intros j ?. by apply Hj.
  - destruct c as [| |n]; try done. destruct (_ || _); [done|]. cbn [rev].
    rewrite <- app_assoc. apply IH; [done| |done].
    intros j Hjr. cbn in Hjr. destruct (decide (j = S (length cs))) as [->|Hne].
    + unfold ancestor. rewrite app_assoc, take_app_length'; [exact He|].
      rewrite length_app, length_rev. cbn. lia.
    + cbn [length rev] in Hj. rewrite <- app_assoc in Hj. apply Hj. lia.
Qed.

(** a resolved path is absolute and without [.] and [..]; it is the canonical form of the
    longest existing ancestor of the path that was asked for, followed by the missing names. *)
Theorem resolve_path_spec p q :
  resolve_path p = Ok q ->
  p_absolute p = true /\ (ParentDir ∉ p_components p) /\ resolves (p_components p) q /\ normalized q.
Proof.
  unfold resolve_path. destruct (p_absolute p) eqn:Ha; [|done]. cbn [negb].
  destruct (existsb _ _) eqn:Hp; [done|]. intros Hr.
  assert (Hnp : ParentDir ∉ p_components p).
  { intros Hin. enough (existsb (fun c => bool_decide (c = ParentDir)) (p_components p) = true) by congruence.
    apply existsb_exists. exists ParentDir. by rewrite <- list_elem_of_In. }
  assert (Hres : resolves (p_components p) q).
  { destruct (fs_exists p) eqn:He.
    - destruct (fs_canonicalize p) as [c|] eqn:Hc; [|done]. injection Hr as <-.
      assert (Hp' : ancestor (p_components p) (length (p_components p)) = p).
      { unfold ancestor. rewrite firstn_all. destruct p; cbn in *; by subst. }
      exists (length (p_components p)), c. rewrite Hp', drop_all, app_nil_r.
      split_and!; try done; [by destruct c|]. intros j ?. lia.
    - pose proof (resolve_missing_spec p (rev (p_components p)) [] q) as R.
      rewrite rev_involutive, app_nil_r in R. apply R; [done| |done]. cbn. intros j ?. lia. }
  split_and!; [done..|]. destruct Hres as (k & c & _ & _ & Hc & -> & Hn & _).
  apply canonicalize_normalized in Hc as [Hc1 Hc2]. split; [done|]. cbn [p_components].
  by rewrite forallb_app, Hc2.
Qed.

End Resolution.

(** ** Witnesses: a home directory whose [Code] directory is a link to another volume *)

Definition abs (names : list string) : Path := mkPath true (Normal <$> names).

Definition sample_directories : list Path :=
  [ abs ["home"; "u"; ".ssh"]; abs ["home"; "u"; "Code"; "app"]; abs ["volume"; "app"] ].

#[local] Instance sample_fs : FileSystem := {
  fs_exists p := existsb (fun d => within d p) sample_directories;
  fs_is_dir p := existsb (fun d => within d p) sample_directories;
  fs_canonicalize p :=
    if negb (p_absolute p && forallb is_normal (p_components p)) then None
    else if existsb (fun d => within d p) sample_directories then
      if within p (abs ["home"; "u"; "Code"])
      then Some (mkPath true (Normal "volume" :: drop 3 (p_components p)))
      else Some p
    else None;
}.

#[local] Instance sample_fs_laws : FileSystemLaws.
Proof.
  intros p q. cbn [fs_canonicalize sample_fs].
  destruct (p_absolute p) eqn:Ha; [|done]. destruct (forallb _ _) eqn:Hn; [|done]. cbn [andb negb].
  destruct (existsb _ _); [|done]. destruct (within p _); intros [= <-]; split; try done.
  cbn. rewrite <- (take_drop 3 (p_components p)), forallb_app in Hn. by apply andb_true_iff in Hn as [_ ?].
Qed.

Definition empty_policy : DesktopPathPolicy := mkDesktopPathPolicy [] [] [] [].

(** The policy of the sample home directory, with the link registered. *)
Definition sample_mapping : Path * Path := (abs ["home"; "u"; "Code"; "app"], abs ["volume"; "app"]).
Definition fresh_policy : DesktopPathPolicy :=
  match new Linux (abs ["home"; "u"]) [None; None; None] with Ok p => p | Err _ => empty_policy end.
Definition sample_policy : DesktopPathPolicy := (register_mappings fresh_policy [sample_mapping]).2.

Example sample_registration : (register_mappings fresh_policy [sample_mapping]).1 = Ok tt.
Proof. vm_compute. reflexivity. Qed.

Lemma accepted_writes_stay_in_roots_witness :
  undenied sample_policy (abs ["volume"; "app"; "main.rs"]).
Proof.
  apply (accepted_writes_stay_in_roots sample_policy (abs ["home"; "u"; "Code"; "app"; "main.rs"])
           (abs ["volume"; "app"; "main.rs"])).
  vm_compute. reflexivity.
Defined.

Lemma credentials_are_protected_witness :
  exists e, check_resolved sample_policy (abs ["home"; "u"; ".ssh"; "id"]) (abs ["tmp"]) Read = Err e.
Proof.
  apply (credentials_are_protected Linux (abs ["home"; "u"]) [None; None; None] fresh_policy
           [sample_mapping] (abs ["home"; "u"; ".ssh"; "id"]) (abs ["home"; "u"; ".ssh"])
           (abs ["home"; "u"]) Read).
  - vm_compute. reflexivity.
  - vm_compute. reflexivity.
  - left. exists [".ssh"]. split; [left|left; reflexivity].
  - vm_compute. reflexivity.
Defined.

Lemma resolve_path_spec_witness :
  normalized (abs ["volume"; "app"; "main.rs"]).
Proof.
  apply (resolve_path_spec (abs ["home"; "u"; "Code"; "app"; "main.rs"])).
  vm_compute. reflexivity.
Defined.
