(* ===== verification/FileTree.v ===== *)
(** * Directory trees of the operating system

    The part of [std::fs] and [std::path] that the executor uses on Unix: a tree
    of directories, files and symbolic links, the resolution of paths through
    links, and the system calls, each of which may fail. A volume also keeps the
    trees it went through, so that a theorem can speak of every moment of an
    operation. Names are valid UTF-8, and the text of an operating system error
    is left out. *)
From Stdlib Require Import Ascii.
From stdpp Require Import base gmap strings list sorting.
From S2P Require Import Prelude Json Protocol PathPolicy.
Open Scope Z_scope.

(** The place of an entry: its names from the root. *)
Abbreviation place := (list string).

Inductive Entry :=
| EDir (mode : Z)
| EFile (mode : Z) (data : string)
| ELink (target : Path)
| EOther.

Abbreviation Tree := (gmap place Entry).

Definition entry_is_dir (e : Entry) : bool := match e with EDir _ => true | _ => false end.
Definition entry_is_file (e : Entry) : bool := match e with EFile _ _ => true | _ => false end.
Definition entry_is_link (e : Entry) : bool := match e with ELink _ => true | _ => false end.

Definition dir_at (t : Tree) (p : place) : bool := match t !! p with Some (EDir _) => true | _ => false end.
Definition parent_place (p : place) : place := take (length p - 1) p.

(** ** Parts of a tree *)

(** What is left of [q] below [p]. *)
Fixpoint below (p q : place) : option place :=
  match p, q with
  | [], _ => Some q
  | x :: p', y :: q' => if String.eqb x y then below p' q' else None
  | _ :: _, [] => None
  end.

(** The entries at and below [p], with their places relative to [p]. *)
Definition subtree (p : place) (t : Tree) : Tree :=
  map_fold (fun k e s => match below p k with Some q => <[q := e]> s | None => s end) ∅ t.

(** The tree without the entries at and below [p]. *)
Definition prune (p : place) (t : Tree) : Tree := filter (fun kv => below p kv.1 = None) t.

(** The tree with [s] put at [p], in place of what was there. *)
Definition graft (p : place) (s t : Tree) : Tree := kmap (app p) s ∪ prune p t.

Lemma below_Some p q r : below p q = Some r <-> q = p ++ r.
Proof.
  revert q. induction p as [|x p IH]; intros q; cbn; [by split; [intros [= ->]|intros ->]|].
  destruct q as [|y q]; [done|]. destruct (String.eqb_spec x y) as [->|]; [|naive_solver].
  rewrite IH. naive_solver.
Qed.
Lemma below_app p r : below p (p ++ r) = Some r.
Proof. by apply below_Some. Qed.
Lemma below_self p : below p p = Some [].
Proof. apply below_Some. by rewrite app_nil_r. Qed.
Lemma below_prefix p q : below p q = None <-> ~ p `prefix_of` q.
Proof.
  split.
  - intros H [r ->]. by rewrite below_app in H.
  - intros H. destruct (below p q) as [r|] eqn:E; [|done]. apply below_Some in E as ->. destruct H. by exists r.
Qed.

Lemma lookup_subtree p t q : subtree p t !! q = t !! (p ++ q).
Proof.
  unfold subtree. revert q. apply (map_fold_weak_ind (fun s (t : Tree) => forall q, s !! q = t !! (p ++ q))); [done|].
  intros k e t' s _ IH q. destruct (below p k) as [r|] eqn:E.
  - apply below_Some in E as ->. rewrite !lookup_insert, IH.
    pose proof (inj (app p) r q). repeat case_decide; naive_solver.
  - rewrite lookup_insert_ne, IH; [done|]. intros ->. by rewrite below_app in E.
Qed.

Lemma lookup_prune p t q : prune p t !! q = match below p q with Some _ => None | None => t !! q end.
Proof.
  unfold prune. rewrite map_lookup_filter. destruct (t !! q) as [e|]; cbn; [|by destruct (below p q)].
  destruct (below p q); case_guard; naive_solver.
Qed.

Lemma lookup_graft p s t q : graft p s t !! q = match below p q with Some r => s !! r | None => t !! q end.
Proof.
  unfold graft. rewrite lookup_union, lookup_prune. destruct (below p q) as [r|] eqn:E.
  - apply below_Some in E as ->. rewrite lookup_kmap by apply _. by destruct (s !! r).
  - rewrite (proj2 (lookup_kmap_None (app p) s q)); [by destruct (t !! q)|]. intros r ->. by rewrite below_app in E.
Qed.

Lemma subtree_graft p s t : subtree p (graft p s t) = s.
Proof. apply map_eq. intros q. by rewrite lookup_subtree, lookup_graft, below_app. Qed.

(** ** Resolving a path *)

Inductive IoKind := NotFound | AlreadyExists | OtherError.

Definition MAXSYMLINKS : nat := 40.

(** The kernel's walk of a path, link by link; [follow] says whether a link at the end is followed. *)
Fixpoint walk (links : nat) (t : Tree) (follow : bool) {struct links}
    : place -> list Component -> result IoKind place :=
  fix go (cur : place) (rest : list Component) {struct rest} : result IoKind place :=
    match rest with
    | [] => Ok cur
    | CurDir :: rest' => go cur rest'
    | ParentDir :: rest' => go (parent_place cur) rest'
    | Normal name :: rest' =>
        let last := match rest' with [] => true | _ => false end in
        match t !! (cur ++ [name]) with
        | Some (EDir _) => go (cur ++ [name]) rest'
        | Some (ELink target) =>
            if last && negb follow then Ok (cur ++ [name])
            else match links with
                 | O => Err OtherError
                 | S links' => walk links' t follow (if p_absolute target then [] else cur) (p_components target ++ rest')
                 end
        | Some _ => if last then Ok (cur ++ [name]) else Err OtherError
        | None => if last then Ok (cur ++ [name]) else Err NotFound
        end
    end.

(** Only absolute paths reach the file system: the path policy refuses others. *)
Definition resolve (t : Tree) (follow : bool) (p : Path) : result IoKind place :=
  if p_absolute p then walk MAXSYMLINKS t follow [] (p_components p) else Err NotFound.

Definition entry (t : Tree) (follow : bool) (p : Path) : result IoKind (place * Entry) :=
  bind_result (resolve t follow p) (fun q =>
  match t !! q with Some e => Ok (q, e) | None => Err NotFound end).

(** The absolute path of a place. *)
Definition at_ (p : place) : Path := mkPath true (Normal <$> p).

(** [Path::parent], [Path::file_name], [Path::starts_with], [Path::with_extension] *)
Definition path_parent (p : Path) : option Path :=
  match rev (p_components p) with
  | [] => None
  | _ :: cs => Some (mkPath (p_absolute p) (rev cs))
  end.
Definition path_name (p : Path) : option string :=
  match rev (p_components p) with Normal n :: _ => Some n | _ => None end.

(** The position of the last dot of a name that does not start the name. *)
Fixpoint last_dot (s : string) (i : nat) : option nat :=
  match s with
  | EmptyString => None
  | String c s' =>
      match last_dot s' (S i) with
      | Some j => Some j
      | None => if Ascii.eqb c "."%char && negb (Nat.eqb i 0) then Some i else None
      end
  end.
Definition file_stem (name : string) : string :=
  match last_dot name 0 with Some i => String.substring 0 i name | None => name end.
Definition with_extension (p : Path) (extension : string) : Path :=
  match rev (p_components p) with
  | Normal n :: cs => mkPath (p_absolute p) (rev cs ++ [Normal (file_stem n +:+ "." +:+ extension)])
  | _ => p
  end.

(** What the path policy asks of a file system, answered by a tree. *)
Definition tree_fs (t : Tree) : FileSystem := {|
  fs_exists p := is_ok (entry t true p);
  fs_is_dir p := match entry t true p with Ok (_, e) => entry_is_dir e | Err _ => false end;
  fs_canonicalize p := match entry t true p with Ok (q, _) => Some (at_ q) | Err _ => None end
|}.

Lemma tree_fs_laws t : @FileSystemLaws (tree_fs t).
Proof.
  intros p q. cbn. destruct (entry t true p) as [[r e]|]; [|done]. intros [= <-]. split; [done|]. cbn.
  induction r as [|x r IH]; [done|exact IH].
Qed.

(** ** System calls *)

Record Volume := mkVolume { vol_tree : Tree; vol_umask : Z; vol_history : list Tree }.

(** A call may fail without effect; otherwise it changes the tree in one step. *)
Definition sys {A} (run : Tree -> result IoKind (A * Tree)) : M Volume IoKind A :=
  let* ok := io_outcome in
  let* v := get in
  if ok : bool then
    match run (vol_tree v) with
    | Ok (a, t) => put (mkVolume t (vol_umask v) (t :: vol_history v)) ;; ret a
    | Err k => fail k
    end
  else fail OtherError.

(** A call that changes nothing. *)
Definition ask {A} (f : Tree -> result IoKind A) : M Volume IoKind A :=
  let* ok := io_outcome in
  let* v := get in
  if ok : bool then lift (f (vol_tree v)) else fail OtherError.

Definition masked (mode umask : Z) : Z := Z.land mode (Z.lnot umask).

(** The place where a new entry can be made. *)
Definition vacancy (t : Tree) (p : Path) : result IoKind place :=
  bind_result (resolve t false p) (fun q =>
  match t !! q with
  | Some _ => Err AlreadyExists
  | None => if dir_at t (parent_place q) then Ok q else Err NotFound
  end).

(** The content of the file at [q] from [offset] on replaced by [bytes]; a gap is filled with zeros. *)
Fixpoint zeros (n : nat) : string := match n with O => "" | S n' => String "000"%char (zeros n') end.
Definition overwrite (data : string) (offset : nat) (bytes : string) : string :=
  let n := String.length data in
  String.substring 0 offset data +:+ zeros (offset - n) +:+ bytes
  +:+ String.substring (offset + String.length bytes) (n - (offset + String.length bytes)) data.

Module Fs.

Definition symlink_metadata (p : Path) : M Volume IoKind Entry :=
  ask (fun t => bind_result (entry t false p) (fun qe => Ok qe.2)).
Definition metadata (p : Path) : M Volume IoKind Entry :=
  ask (fun t => bind_result (entry t true p) (fun qe => Ok qe.2)).

(** [Path::exists], [Path::is_symlink], [Path::is_file]: an error counts as [false]. *)
Definition test {E} (m : M Volume IoKind Entry) (f : Entry -> bool) : M Volume E bool :=
  let* r := attempt m in
  ret match r with Ok e => f e | Err _ => false end.
Definition exists_ {E} (p : Path) : M Volume E bool := test (metadata p) (fun _ => true).
Definition is_symlink {E} (p : Path) : M Volume E bool := test (symlink_metadata p) entry_is_link.
Definition is_file {E} (p : Path) : M Volume E bool := test (metadata p) entry_is_file.

Definition canonicalize (p : Path) : M Volume IoKind Path :=
  ask (fun t => bind_result (entry t true p) (fun qe => Ok (at_ qe.1))).

Definition children (q : place) (t : Tree) : list string :=
  merge_sort String.le
    (omap (fun kv => match below q kv.1 with Some [n] => Some n | _ => None end) (map_to_list t)).

Definition read_dir (p : Path) : M Volume IoKind (list string) :=
  ask (fun t => bind_result (entry t true p) (fun qe =>
    if entry_is_dir qe.2 then Ok (children qe.1 t) else Err OtherError)).

Definition read (p : Path) : M Volume IoKind string :=
  ask (fun t => bind_result (entry t true p) (fun qe =>
    match qe.2 with EFile _ data => Ok data | _ => Err OtherError end)).

Definition read_link (p : Path) : M Volume IoKind Path :=
  ask (fun t => bind_result (entry t false p) (fun qe =>
    match qe.2 with ELink target => Ok target | _ => Err OtherError end)).

Definition create_dir (p : Path) : M Volume IoKind unit :=
  let* v := get in
  sys (fun t => bind_result (vacancy t p) (fun q => Ok (tt, <[q := EDir (masked 511 (vol_umask v))]> t))).

(** [create_dir_all]: the missing directories from the top down. *)
Fixpoint create_dirs (above : Path) (rest : list Component) : M Volume IoKind unit :=
  match rest with
  | [] => ret tt
  | c :: rest' =>
      let* v := get in
      (if @fs_is_dir (tree_fs (vol_tree v)) (push above c) then ret tt else create_dir (push above c)) ;;
      create_dirs (push above c) rest'
  end.
Definition create_dir_all (p : Path) : M Volume IoKind unit :=
  create_dirs (mkPath (p_absolute p) []) (p_components p).

(** [OpenOptions::write(true)] with [create] and [truncate]; the place of the opened file. *)
Definition open_truncate (mode : Z) (p : Path) : M Volume IoKind place :=
  let* v := get in
  sys (fun t => bind_result (resolve t true p) (fun q =>
    match t !! q with
    | Some (EFile m _) => Ok (q, <[q := EFile m ""]> t)
    | Some _ => Err OtherError
    | None => if dir_at t (parent_place q) then Ok (q, <[q := EFile (masked mode (vol_umask v)) ""]> t)
              else Err NotFound
    end)).

(** [create_new(true)] *)
Definition open_new (mode : Z) (p : Path) : M Volume IoKind place :=
  let* v := get in
  sys (fun t => bind_result (vacancy t p) (fun q => Ok (q, <[q := EFile (masked mode (vol_umask v)) ""]> t))).

(** Opening an existing file for writing. *)
Definition open_existing (p : Path) : M Volume IoKind place :=
  ask (fun t => bind_result (entry t true p) (fun qe =>
    if entry_is_file qe.2 then Ok qe.1 else Err OtherError)).

Definition chmod (q : place) (mode : Z) (t : Tree) : Tree :=
  match t !! q with
  | Some (EFile _ data) => <[q := EFile mode data]> t
  | Some (EDir _) => <[q := EDir mode]> t
  | _ => t
  end.
Definition set_permissions (p : Path) (mode : Z) : M Volume IoKind unit :=
  sys (fun t => bind_result (entry t true p) (fun qe => Ok (tt, chmod qe.1 mode t))).

Definition symlink (target p : Path) : M Volume IoKind unit :=
  sys (fun t => bind_result (vacancy t p) (fun q => Ok (tt, <[q := ELink target]> t))).

Definition remove_file (p : Path) : M Volume IoKind unit :=
  sys (fun t => bind_result (entry t false p) (fun qe =>
    if entry_is_dir qe.2 then Err OtherError else Ok (tt, delete qe.1 t))).

Definition remove_dir (p : Path) : M Volume IoKind unit :=
  sys (fun t => bind_result (entry t false p) (fun qe =>
    if entry_is_dir qe.2 then
      match children qe.1 t with [] => Ok (tt, delete qe.1 t) | _ => Err OtherError end
    else Err OtherError)).

(** [remove_dir_all]: the entries of the directory one by one, the deepest first. *)
Definition deeper (a b : place) : Prop := (length b <= length a)%nat.
#[global] Instance deeper_dec : RelDecision deeper.
Proof. intros a b. unfold deeper. apply _. Defined.
Definition descendants (q : place) (t : Tree) : list place :=
  merge_sort deeper (omap (fun kv => match below q kv.1 with Some _ => Some kv.1 | None => None end) (map_to_list t)).
Definition remove_dir_all (p : Path) : M Volume IoKind unit :=
  let* qe := ask (fun t => entry t false p) in
  match qe.2 with
  | ELink _ => sys (fun t => Ok (tt, delete qe.1 t))
  | EDir _ =>
      let* v := get in
      for_each (descendants qe.1 (vol_tree v)) (fun k => sys (fun t => Ok (tt, delete k t)))
  | _ => fail OtherError
  end.

(** [rename]: a directory may replace an empty directory only, another entry no directory. *)
Definition rename_tree (a b : place) (t : Tree) : result IoKind Tree :=
  match t !! a with
  | None => Err NotFound
  | Some e =>
      if bool_decide (a = b) then Ok t
      else if bool_decide (below a b <> None) || negb (dir_at t (parent_place b)) then Err OtherError
      else
        let fits := match t !! b with
                    | None => true
                    | Some e' => if entry_is_dir e then entry_is_dir e' && bool_decide (children b t = [])
                                 else negb (entry_is_dir e')
                    end in
        if fits then Ok (graft b (subtree a t) (prune a t)) else Err OtherError
  end.
Definition rename (source target : Path) : M Volume IoKind unit :=
  sys (fun t => bind_result (resolve t false source) (fun a =>
                bind_result (resolve t false target) (fun b =>
                bind_result (rename_tree a b t) (fun t' => Ok (tt, t'))))).

Section Writing.
(** What a failed write leaves of its bytes. *)
Context (torn : string -> string).

(** [write_all] at an offset of an open file *)
Definition write_at (q : place) (offset : nat) (bytes : string) : M Volume IoKind unit :=
  let* ok := io_outcome in
  let* v := get in
  match vol_tree v !! q with
  | Some (EFile m data) =>
      let t := <[q := EFile m (overwrite data offset (if ok : bool then bytes else torn bytes))]> (vol_tree v) in
      put (mkVolume t (vol_umask v) (t :: vol_history v)) ;;
      if ok then ret tt else fail OtherError
  | _ => fail OtherError
  end.

(** [fs::write] *)
Definition write (p : Path) (bytes : string) : M Volume IoKind unit :=
  let* q := open_truncate 438 p in
  write_at q 0 bytes.

(** [fs::copy]: the target has the permissions of the source before it has its content. *)
Definition copy (source target : Path) : M Volume IoKind unit :=
  let* e := metadata source in
  match e with
  | EFile mode _ =>
      let* q := open_truncate mode target in
      sys (fun t => Ok (tt, chmod q mode t)) ;;
      let* data := read source in
      write_at q 0 data
  | _ => fail OtherError
  end.

End Writing.

End Fs.
