(* ===== verification/FileTreeLaws.v ===== *)
(** * Laws of directory trees

    Paths without links resolve to themselves; what each system call does at
    such a place; what a call leaves alone. *)
From stdpp Require Import base gmap strings list sorting.
From S2P Require Import Prelude Json Protocol PathPolicy FileTree.
Open Scope Z_scope.

(** ** Places without links above them *)

Definition clear (t : Tree) (p : place) : Prop :=
  forall q, q `prefix_of` p -> q <> p -> dir_at t q = true.

Definition is_link_at (t : Tree) (p : place) : bool :=
  match t !! p with Some (ELink _) => true | _ => false end.

Lemma join_at p names : join (at_ p) names = at_ (p ++ names).
Proof. unfold join, at_. cbn. by rewrite fmap_app. Qed.
Lemma push_at p name : push (at_ p) (Normal name) = at_ (p ++ [name]).
Proof. unfold push, at_. cbn. by rewrite fmap_app. Qed.
Lemma parent_snoc p n : parent_place (p ++ [n]) = p.
Proof. unfold parent_place. rewrite length_app, Nat.add_sub. apply take_app_length. Qed.
Lemma path_parent_at p n : path_parent (at_ (p ++ [n])) = Some (at_ p).
Proof. unfold path_parent, at_. cbn. rewrite fmap_app, rev_app_distr. cbn. by rewrite rev_involutive. Qed.

Lemma walk_clear links t follow rest cur :
  (forall q, q `prefix_of` rest -> q <> [] -> q <> rest -> dir_at t (cur ++ q) = true) ->
  (follow = true -> rest <> [] -> is_link_at t (cur ++ rest) = false) ->
  walk links t follow cur (Normal <$> rest) = Ok (cur ++ rest).
Proof.
  revert cur. induction rest as [|n rest IH]; intros cur Hd Hl.
  - rewrite app_nil_r. by destruct links.
  - assert (walk links t follow cur (Normal <$> (n :: rest)) =
      match t !! (cur ++ [n]) with
      | Some (EDir _) => walk links t follow (cur ++ [n]) (Normal <$> rest)
      | Some (ELink target) =>
          if (match rest with [] => true | _ => false end) && negb follow then Ok (cur ++ [n])
          else match links with
               | O => Err OtherError
               | S links' => walk links' t follow (if p_absolute target then [] else cur) (p_components target ++ (Normal <$> rest))
               end
      | Some _ => if (match rest with [] => true | _ => false end) then Ok (cur ++ [n]) else Err OtherError
      | None => if (match rest with [] => true | _ => false end) then Ok (cur ++ [n]) else Err NotFound
      end) as ->.
    { destruct links, rest; reflexivity. }
    destruct rest as [|n' rest].
    + cbn [fmap list_fmap]. destruct (t !! (cur ++ [n])) as [[]|] eqn:E; try done.
      * by destruct links.
      * cbn. destruct follow; [|done]. specialize (Hl eq_refl). unfold is_link_at in Hl. rewrite E in Hl. naive_solver.
    + specialize (Hd [n]) as Hn. unfold dir_at in Hn. replace (cur ++ n :: n' :: rest) with ((cur ++ [n]) ++ n' :: rest) by (by rewrite <- app_assoc).
      destruct (t !! (cur ++ [n])) as [[]|] eqn:E;
        try (exfalso; assert (false = true); [apply Hn; [by exists (n' :: rest)|done|done]|done]).
      apply IH.
      * intros q Hq Hne Hne'. rewrite <- app_assoc. apply Hd; [by apply prefix_cons|done|]. intros [= ->]. done.
      * intros Hf _. rewrite <- app_assoc. by apply Hl.
Qed.

Lemma resolve_clear t follow p :
  clear t p -> (follow = true -> is_link_at t p = false) -> resolve t follow (at_ p) = Ok p.
Proof.
  intros Hc Hl. unfold resolve, at_. cbn [p_absolute p_components]. rewrite walk_clear; [done| |auto].
  intros q Hq _ Hne. by apply Hc.
Qed.

Lemma prefix_snoc_inv {A} (q p : list A) n : q `prefix_of` p ++ [n] -> q = p ++ [n] \/ q `prefix_of` p.
Proof.
  intros [k Hk]. destruct k as [|x k _] using rev_ind; [left; by rewrite app_nil_r in Hk|right].
  rewrite app_assoc in Hk. apply app_inj_tail in Hk as [-> _]. by exists k.
Qed.

Lemma clear_snoc t p n : clear t (p ++ [n]) <-> clear t p /\ dir_at t p = true.
Proof.
  split.
  - intros H. split.
    + intros q Hq Hne. apply H; [by apply prefix_app_r|]. intros ->. apply prefix_length in Hq. rewrite length_app in Hq. cbn in Hq. lia.
    + apply H; [by exists [n]|]. intros Hp. apply (f_equal length) in Hp. rewrite length_app in Hp. cbn in Hp. lia.
  - intros [Hc Hd] q Hq Hne. apply prefix_snoc_inv in Hq as [->|Hq]; [done|]. destruct (decide (q = p)) as [->|]; [done|by apply Hc].
Qed.

Lemma clear_dirs t t' p : (forall q, q `prefix_of` p -> dir_at t q = true -> dir_at t' q = true) -> clear t p -> clear t' p.
Proof. intros H Hc q Hq Hne. by apply H, Hc. Qed.

(** ** What a call can do *)

Definition log (v : Volume) (t : Tree) : Volume := mkVolume t (vol_umask v) (t :: vol_history v).

Lemma sys_cases {A} (run : Tree -> result IoKind (A * Tree)) v w r v' w' :
  sys run v w = (r, v', w') ->
  (exists k, r = Err k /\ v' = v) \/ (exists a t, run (vol_tree v) = Ok (a, t) /\ r = Ok a /\ v' = log v t).
Proof.
  unfold sys. munfold. destruct (peek (w_io w)); [|intros [= <- <- <-]; left; by eexists].
  destruct (run (vol_tree v)) as [[a t]|k]; intros [= <- <- <-]; [right; by eexists _, _|left; by eexists].
Qed.

Lemma ask_cases {A} (f : Tree -> result IoKind A) v w r v' w' :
  ask f v w = (r, v', w') -> v' = v /\ (forall a, r = Ok a -> f (vol_tree v) = Ok a).
Proof.
  unfold ask. munfold. destruct (peek (w_io w)); intros [= <- <- <-]; naive_solver.
Qed.

Lemma vacancy_clear t p :
  clear t p -> vacancy t (at_ p) =
    match t !! p with Some _ => Err AlreadyExists | None => if dir_at t (parent_place p) then Ok p else Err NotFound end.
Proof. intros H. unfold vacancy. by rewrite resolve_clear. Qed.

Lemma entry_clear t follow p :
  clear t p -> (follow = true -> is_link_at t p = false) ->
  entry t follow (at_ p) = match t !! p with Some e => Ok (p, e) | None => Err NotFound end.
Proof. intros H Hl. unfold entry. by rewrite resolve_clear. Qed.

Lemma symlink_at target p v w r v' w' :
  clear (vol_tree v) p -> Fs.symlink target (at_ p) v w = (r, v', w') ->
  (exists k, r = Err k /\ v' = v) \/
  (r = Ok tt /\ vol_tree v !! p = None /\ v' = log v (<[p := ELink target]> (vol_tree v))).
Proof.
  intros Hc [?|(a & t & Hr & -> & ->)]%sys_cases; [by left|right]. rewrite vacancy_clear in Hr by done.
  destruct (vol_tree v !! p); [done|]. destruct (dir_at _ _); [|done]. by simplify_eq/=.
Qed.

Lemma remove_file_at p v w r v' w' :
  clear (vol_tree v) p -> Fs.remove_file (at_ p) v w = (r, v', w') ->
  (exists k, r = Err k /\ v' = v) \/ (r = Ok tt /\ v' = log v (delete p (vol_tree v))).
Proof.
  intros Hc [?|(a & t & Hr & -> & ->)]%sys_cases; [by left|right]. rewrite entry_clear in Hr by done.
  destruct (vol_tree v !! p) as [e|]; [|done]. cbn in Hr. destruct (entry_is_dir e); by simplify_eq/=.
Qed.

Lemma rename_at a b v w r v' w' :
  clear (vol_tree v) a -> clear (vol_tree v) b -> Fs.rename (at_ a) (at_ b) v w = (r, v', w') ->
  (exists k, r = Err k /\ v' = v) \/
  (exists t, Fs.rename_tree a b (vol_tree v) = Ok t /\ r = Ok tt /\ v' = log v t).
Proof.
  intros Ha Hb [?|(u & t & Hr & -> & ->)]%sys_cases; [by left|right]. rewrite !resolve_clear in Hr by done. cbn in Hr.
  destruct (Fs.rename_tree a b (vol_tree v)) as [t'|]; [|done]. simplify_eq/=. by exists t.
Qed.

(** A successful rename: what was at [a] is at [b], and only there. *)
Lemma rename_tree_ok a b t t' :
  Fs.rename_tree a b t = Ok t' -> a <> b ->
  is_Some (t !! a) /\ below a b = None /\ dir_at t (parent_place b) = true /\
  t' = graft b (subtree a t) (prune a t) /\
  (forall m, t !! b = Some (EDir m) -> dir_at t a = true /\ Fs.children b t = []).
Proof.
  unfold Fs.rename_tree. intros H Hne. destruct (t !! a) as [e|] eqn:Ea; [|done]. rewrite bool_decide_false in H by done.
  destruct (bool_decide_reflect (below a b <> None)) as [|Hb]; [done|]. destruct (dir_at t (parent_place b)); [|done]. cbn in H.
  destruct (match t !! b with Some _ => _ | None => _ end) eqn:Hf; [|done]. injection H as <-.
  split_and!; [done|by destruct (below a b); [destruct Hb|]|done|done|]. intros m Hm. rewrite Hm in Hf. unfold dir_at. rewrite Ea.
  destruct e; cbn in Hf; try done. split; [done|]. by bool_prop.
Qed.

(** Parts of the tree away from both places stay, and the moved part arrives. *)
Lemma rename_moves a b t q :
  below a b = None -> graft b (subtree a t) (prune a t) !! (b ++ q) = t !! (a ++ q).
Proof. intros H. by rewrite lookup_graft, below_app, lookup_subtree. Qed.
Lemma rename_arrives a b t : below a b = None -> graft b (subtree a t) (prune a t) !! b = t !! a.
Proof. intros H. pose proof (rename_moves a b t [] H) as E. by rewrite !app_nil_r in E. Qed.
Lemma rename_frame a b t q :
  below a q = None -> below b q = None -> graft b (subtree a t) (prune a t) !! q = t !! q.
Proof. intros Ha Hb. by rewrite lookup_graft, Hb, lookup_prune, Ha. Qed.
Lemma rename_gone a b t q :
  below b (a ++ q) = None -> graft b (subtree a t) (prune a t) !! (a ++ q) = None.
Proof. intros Hb. by rewrite lookup_graft, Hb, lookup_prune, below_app. Qed.

(** ** What a sequence of calls leaves alone *)

Definition outside (ps : list place) (q : place) : Prop := Forall (fun p => below p q = None) ps.
Definition agree (ps : list place) (t t' : Tree) : Prop := forall q, outside ps q -> t' !! q = t !! q.

(** From [v] to [v'] the tree changed at most at and below [ps], at every moment. *)
Definition only (ps : list place) (v v' : Volume) : Prop :=
  exists steps, vol_history v' = steps ++ vol_history v /\ Forall (agree ps (vol_tree v)) steps /\
    agree ps (vol_tree v) (vol_tree v').

Lemma agree_refl ps t : agree ps t t.
Proof. by intros q _. Qed.
Lemma agree_trans ps t1 t2 t3 : agree ps t1 t2 -> agree ps t2 t3 -> agree ps t1 t3.
Proof. intros H1 H2 q Hq. by rewrite H2, H1. Qed.
Lemma outside_mono ps ps' q : Forall (fun p' => Exists (fun p => p `prefix_of` p') ps) ps' -> outside ps q -> outside ps' q.
Proof.
  intros H Hq. eapply Forall_impl; [exact H|]. intros p' Hp. apply Exists_exists in Hp as (p & Hin & Hp).
  unfold outside in Hq. rewrite Forall_forall in Hq. specialize (Hq p Hin). apply below_prefix. apply below_prefix in Hq.
  intros Hq'. apply Hq. by etrans.
Qed.
Lemma agree_mono ps ps' t t' : Forall (fun p' => Exists (fun p => p `prefix_of` p') ps) ps' -> agree ps' t t' -> agree ps t t'.
Proof. intros H Ha q Hq. apply Ha. by eapply outside_mono. Qed.

Lemma only_refl (ps : list place) v : only ps v v.
Proof. exists []. split_and!; [done|by constructor|by apply agree_refl]. Qed.
Lemma only_trans ps v1 v2 v3 : only ps v1 v2 -> only ps v2 v3 -> only ps v1 v3.
Proof.
  intros (s1 & H1 & F1 & A1) (s2 & H2 & F2 & A2). exists (s2 ++ s1). split_and!.
  - by rewrite H2, H1, app_assoc.
  - apply Forall_app. split; [|done]. eapply Forall_impl; [exact F2|]. intros t Ht. by eapply agree_trans.
  - by eapply agree_trans.
Qed.
Lemma only_mono ps ps' v v' : Forall (fun p' => Exists (fun p => p `prefix_of` p') ps) ps' -> only ps' v v' -> only ps v v'.
Proof.
  intros H (s & Hh & F & A). exists s. split_and!; [done| |by eapply agree_mono]. eapply Forall_impl; [exact F|]. intros t Ht. by eapply agree_mono.
Qed.
Lemma only_log ps v t : agree ps (vol_tree v) t -> only ps v (log v t).
Proof. intros H. exists [t]. split_and!; [done|by constructor|done]. Qed.
#[export] Instance only_preorder ps : PreOrder (only ps).
Proof. split; [intros v; apply only_refl|intros v1 v2 v3; apply only_trans]. Qed.

Lemma outside_one p q : outside [p] q <-> below p q = None.
Proof. unfold outside. by rewrite Forall_singleton. Qed.
Lemma outside_in ps p q : outside ps q -> p ∈ ps -> below p q = None.
Proof. unfold outside. rewrite Forall_forall. auto. Qed.

Lemma agree_insert p e t : agree [p] t (<[p := e]> t).
Proof. intros q Hq%outside_one. rewrite lookup_insert_ne; [done|]. intros ->. by rewrite below_self in Hq. Qed.
Lemma agree_delete p t : agree [p] t (delete p t).
Proof. intros q Hq%outside_one. rewrite lookup_delete_ne; [done|]. intros ->. by rewrite below_self in Hq. Qed.
Lemma agree_rename a b t : agree [a; b] t (graft b (subtree a t) (prune a t)).
Proof. intros q Hq. apply rename_frame; eapply outside_in; eauto; set_solver. Qed.

(** A computation that only touches [ps]. *)
Definition touches {E A} (ps : list place) (m : M Volume E A) (v : Volume) : Prop :=
  forall w r v' w', m v w = (r, v', w') -> only ps v v'.

Lemma touches_ret {E A} (ps : list place) (a : A) v : touches (E := E) ps (ret a) v.
Proof. intros w r v' w' [= <- <- <-]. apply only_refl. Qed.
Lemma touches_fail {E A} (ps : list place) (e : E) v : touches (A := A) ps (fail e) v.
Proof. intros w r v' w' [= <- <- <-]. apply only_refl. Qed.
Lemma touches_ask {A} (ps : list place) (f : Tree -> result IoKind A) v : touches ps (ask f) v.
Proof. intros w r v' w' [-> _]%ask_cases. apply only_refl. Qed.
Lemma touches_with_err {E F A} (ps : list place) (f : E -> F) (m : M Volume E A) v : touches ps m v -> touches ps (with_err f m) v.
Proof. intros H w r v' w' (r0 & Hm & _)%with_err_cases. by eapply H. Qed.
Lemma touches_attempt {E F A} (ps : list place) (m : M Volume E A) v : touches ps m v -> touches (E := F) ps (attempt m) v.
Proof. intros H w r v' w'. unfold attempt. destruct (m v w) as [[r0 v0] w0] eqn:Hm. intros [= <- <- <-]. by eapply H. Qed.
Lemma touches_bind {E A B} (ps : list place) (m : M Volume E A) (k : A -> M Volume E B) v :
  touches ps m v -> (forall w a v' w', m v w = (Ok a, v', w') -> touches ps (k a) v') -> touches ps (let* a := m in k a) v.
Proof.
  intros Hm Hk w r v' w' H. apply bind_cases in H as (r1 & v1 & w1 & H1 & H). pose proof (Hm _ _ _ _ H1) as Ho.
  destruct r1 as [a|e]; [|by destruct H as (_ & -> & _)]. etrans; [exact Ho|]. by eapply Hk.
Qed.

(** ** Directories that exist *)

Lemma fs_is_dir_clear t p : clear t p -> dir_at t p = true -> @fs_is_dir (tree_fs t) (at_ p) = true.
Proof.
  intros Hc Hd. cbn. unfold dir_at in Hd. destruct (t !! p) as [e|] eqn:E; [|done].
  rewrite entry_clear; [|done|]; [|unfold is_link_at; rewrite E; by destruct e]. rewrite E. by destruct e.
Qed.

(** [create_dir_all] of a directory that exists does nothing. *)
Lemma create_dirs_present above rest v w :
  clear (vol_tree v) (above ++ rest) -> dir_at (vol_tree v) (above ++ rest) = true ->
  Fs.create_dirs (at_ above) (Normal <$> rest) v w = (Ok tt, v, w).
Proof.
  revert above. induction rest as [|n rest IH]; intros above Hc Hd; [done|].
  cbn [fmap list_fmap Fs.create_dirs]. munfold. rewrite push_at.
  assert (dir_at (vol_tree v) (above ++ [n]) = true) as Hn.
  { destruct (decide (rest = [])) as [->|Hne]; [done|]. apply Hc; [exists rest; by rewrite <- app_assoc|].
    intros H. apply (f_equal length) in H. rewrite !length_app in H. destruct rest; [done|]. cbn in H. lia. }
  rewrite fs_is_dir_clear; [|intros q Hq Hqn|done].
  - apply IH; by rewrite <- app_assoc.
  - apply Hc; [etrans; [exact Hq|]; exists rest; by rewrite <- app_assoc|]. intros ->. apply prefix_length in Hq.
    rewrite !length_app in Hq. cbn in Hq. apply Hqn. destruct rest; [done|cbn in Hq; lia].
Qed.
Lemma create_dir_all_present p v w :
  clear (vol_tree v) p -> dir_at (vol_tree v) p = true -> Fs.create_dir_all (at_ p) v w = (Ok tt, v, w).
Proof. apply (create_dirs_present []). Qed.

Lemma test_cases {E} (m : M Volume IoKind Entry) (f : Entry -> bool) v w (r : result E bool) v' w' :
  Fs.test m f v w = (r, v', w') -> exists r0, m v w = (r0, v', w') /\ r = Ok match r0 with Ok e => f e | Err _ => false end.
Proof. unfold Fs.test, attempt. munfold. destruct (m v w) as [[r0 v0] w0]. intros [= <- <- <-]. by exists r0. Qed.

(** ** Well-formed trees and vacant places *)

Definition tree_wf (t : Tree) : Prop := forall p e, t !! p = Some e -> clear t p.

(** Nothing is at or below the place. *)
Definition vacant (t : Tree) (p : place) : Prop := forall q, t !! (p ++ q) = None.

Lemma vacant_below t p q : vacant t p -> vacant t (p ++ q).
Proof. intros H k. rewrite <- app_assoc. apply H. Qed.

Lemma wf_under_nondir t p n q : tree_wf t -> dir_at t p = false -> t !! (p ++ n :: q) = None.
Proof.
  intros Hw Hd. destruct (t !! (p ++ n :: q)) as [e|] eqn:E; [|done]. apply Hw in E.
  rewrite E in Hd; [done|by exists (n :: q)|]. intros H. apply (f_equal length) in H. rewrite length_app in H. cbn in H. lia.
Qed.

Lemma elem_of_children q t n : n ∈ Fs.children q t <-> is_Some (t !! (q ++ [n])).
Proof.
  unfold Fs.children. rewrite merge_sort_Permutation, list_elem_of_omap. split.
  - intros ([k e] & Hin & Hk). apply elem_of_map_to_list in Hin. cbn in Hk. destruct (below q k) as [[|x [|]]|] eqn:E; try done.
    injection Hk as ->. apply below_Some in E as ->. by exists e.
  - intros [e He]. exists (q ++ [n], e). split; [by apply elem_of_map_to_list|]. cbn. by rewrite below_app.
Qed.

Lemma NoDup_omap_inj {A B} (f : A -> option B) (l : list A) :
  (forall a a' b, a ∈ l -> a' ∈ l -> f a = Some b -> f a' = Some b -> a = a') -> NoDup l -> NoDup (omap f l).
Proof.
  induction l as [|a l IH]; intros Hf Hn; [constructor|]. apply NoDup_cons in Hn as [Ha Hn]. cbn.
  assert (NoDup (omap f l)) by (apply IH; [|done]; intros; eapply Hf; eauto; by right).
  destruct (f a) as [b|] eqn:E; [|done]. apply NoDup_cons. split; [|done]. intros (a' & Hin & Hb)%list_elem_of_omap.
  assert (a = a') as <-; [|done]. eapply Hf; eauto; [by left|by right].
Qed.

Lemma children_NoDup q t : NoDup (Fs.children q t).
Proof.
  unfold Fs.children. rewrite merge_sort_Permutation. apply NoDup_omap_inj; [|apply NoDup_map_to_list].
  intros [k e] [k' e'] n H1%elem_of_map_to_list H2%elem_of_map_to_list Hk Hk'. cbn in *.
  destruct (below q k) as [[|x [|]]|] eqn:E; try done. destruct (below q k') as [[|x' [|]]|] eqn:E'; try done.
  simplify_eq. apply below_Some in E as ->. apply below_Some in E' as ->. congruence.
Qed.

(** Of two places neither above the other, what is below one is outside the other. *)
Lemma below_apart p q r : below p q = None -> below q p = None -> below p (q ++ r) = None.
Proof.
  intros H1 H2. apply below_prefix. intros Hp. apply below_prefix in H1. apply below_prefix in H2.
  destruct (prefix_weak_total p q (q ++ r)) as [?|?]; [done|by apply prefix_app_r|done..].
Qed.
Lemma below_deeper p q r : below p q = None -> below (p ++ r) q = None.
Proof. rewrite !below_prefix. intros H Hp. apply H. etrans; [|exact Hp]. by apply prefix_app_r. Qed.
Lemma vacant_apart t p q : vacant t p -> is_Some (t !! q) -> below p q = None.
Proof. intros Hv [e He]. destruct (below p q) as [k|] eqn:E; [|done]. apply below_Some in E as ->. by rewrite Hv in He. Qed.

Lemma below_sibling (r : place) (a b : string) q : a <> b -> below (r ++ [a]) (r ++ b :: q) = None.
Proof. intros H. apply below_prefix. intros [k Hk]. rewrite <- app_assoc in Hk. apply app_inv_head in Hk. naive_solver. Qed.
Lemma below_sibling' (r : place) (a b : string) : a <> b -> below (r ++ [a]) (r ++ [b]) = None.
Proof. apply below_sibling. Qed.
Lemma below_above (r : place) (a : string) q : q `prefix_of` r -> below (r ++ [a]) q = None.
Proof. intros Hq. apply below_prefix. intros Hp. apply prefix_length in Hp, Hq. rewrite length_app in Hp. cbn in Hp. lia. Qed.

(** Changes to names in [r] keep the way to [r]. *)
Lemma clear_agree (r : place) (names : list string) t t' :
  agree ((fun n => r ++ [n]) <$> names) t t' -> clear t r -> dir_at t r = true -> clear t' r /\ dir_at t' r = true.
Proof.
  intros Ha Hc Hd. assert (forall q, q `prefix_of` r -> dir_at t' q = dir_at t q) as H.
  { intros q Hq. unfold dir_at. rewrite Ha; [done|]. apply Forall_fmap, Forall_forall. intros n _. by apply below_above. }
  split; [intros q Hq Hne; rewrite H by done; by apply Hc|by rewrite H].
Qed.

(** ** Calls at a vacant place *)

Lemma create_dirs_last above n v w r v' w' :
  clear (vol_tree v) (above ++ [n]) -> vol_tree v !! (above ++ [n]) = None ->
  Fs.create_dir_all (at_ (above ++ [n])) v w = (r, v', w') ->
  (exists k, r = Err k /\ v' = v) \/
  (exists m, r = Ok tt /\ v' = log v (<[above ++ [n] := EDir m]> (vol_tree v))).
Proof.
  intros Hc Hn. unfold Fs.create_dir_all, at_. cbn [p_absolute p_components].
  assert (forall pre rest, pre ++ rest = above -> 
    Fs.create_dirs (at_ pre) (Normal <$> (rest ++ [n])) v w = (r, v', w') ->
    (exists k, r = Err k /\ v' = v) \/ (exists m, r = Ok tt /\ v' = log v (<[above ++ [n] := EDir m]> (vol_tree v)))) as Hgo.
  { intros pre rest. revert pre. induction rest as [|x rest IH]; intros pre Hpre H.
    - rewrite app_nil_r in Hpre. subst pre. cbn [app fmap list_fmap Fs.create_dirs] in H.
      apply bind_cases in H as (r1 & v1 & w1 & H1 & H). unfold get in H1. injection H1 as <- <- <-.
      rewrite push_at in H.
      assert (@fs_is_dir (tree_fs (vol_tree v)) (at_ (above ++ [n])) = false) as Hf.
      { cbn. rewrite entry_clear, Hn; [done|done|]. unfold is_link_at. by rewrite Hn. }
      rewrite Hf in H. apply bind_cases in H as (r2 & v2 & w2 & H2 & H).
      unfold Fs.create_dir in H2. apply bind_cases in H2 as (r3 & v3 & w3 & H3 & H2). unfold get in H3. injection H3 as <- <- <-.
      apply sys_cases in H2 as [(k & -> & ->)|(u & t & Hr & -> & ->)]; [left; by destruct H as (-> & -> & _); eexists|].
      rewrite vacancy_clear, Hn in Hr by done. destruct (dir_at _ _); [|done]. injection Hr as <- <-. unfold ret in H. injection H as <- <- <-.
      right. by eexists.
    - cbn [app fmap list_fmap Fs.create_dirs] in H.
      apply bind_cases in H as (r1 & v1 & w1 & H1 & H). unfold get in H1. injection H1 as <- <- <-.
      rewrite push_at in H. apply clear_snoc in Hc as [Hc Hd]. subst above.
      rewrite fs_is_dir_clear in H.
      + apply bind_cases in H as (r2 & v2 & w2 & H2 & H). unfold ret in H2. injection H2 as <- <- <-. apply (IH (pre ++ [x])); [by rewrite <- app_assoc|exact H].
      + intros q Hq Hqn. apply Hc; [etrans; [exact Hq|]; exists rest; by rewrite <- app_assoc|]. intros ->. apply prefix_length in Hq.
        rewrite !length_app in Hq. cbn in Hq. destruct rest; [done|cbn in Hq; lia].
      + destruct rest as [|y rest]; [done|]. apply Hc; [exists (y :: rest); by rewrite <- app_assoc|].
        intros E. apply (f_equal length) in E. rewrite !length_app in E. cbn in E. lia. }
  intros H. eapply (Hgo [] above); [done|exact H].
Qed.

Lemma bind_get {S E A} (k : S -> M S E A) s w : (let* x := get in k x) s w = k s s w.
Proof. reflexivity. Qed.

Lemma overwrite_empty bytes : overwrite "" 0 bytes = bytes.
Proof.
  assert (forall k, String.substring k 0 "" = "") as H by (by intros []).
  unfold overwrite. cbn [String.length Nat.sub zeros Nat.add]. rewrite !H.
  change (bytes +:+ "" = bytes). apply string_app_nil_r.
Qed.
Lemma substring_whole a b : String.substring 0 (String.length a) (a +:+ b) = a.
Proof. induction a as [|c a IH]; [by destruct b|]. rewrite string_app_cons. cbn. by rewrite IH. Qed.
Lemma overwrite_end data bytes : overwrite data (String.length data) bytes = data +:+ bytes.
Proof.
  unfold overwrite. pose proof (substring_whole data "") as Hw. rewrite string_app_nil_r in Hw. rewrite Hw, Nat.sub_diag. cbn [zeros].
  replace (String.length data - _)%nat with 0%nat by lia. change ("" +:+ ?x) with x.
  assert (forall n s, String.substring n 0 s = "") as -> by (intros n s; revert n; induction s; intros [|n]; cbn; auto).
  by rewrite string_app_nil_r.
Qed.

Lemma clear_outside ps t t' p : agree ps t t' -> outside ps p -> clear t p -> clear t' p.
Proof.
  intros Ha Ho Hc q Hq Hne. unfold dir_at. rewrite Ha; [by apply Hc|]. eapply Forall_impl; [exact Ho|].
  intros x Hx. apply below_prefix. apply below_prefix in Hx. intros Hx'. apply Hx. by etrans.
Qed.
Lemma clear_self t t' p : agree [p] t t' -> clear t p -> clear t' p.
Proof.
  intros Ha Hc q Hq Hne. unfold dir_at. rewrite Ha; [by apply Hc|]. apply outside_one, below_prefix. intros Hp.
  apply Hne. apply prefix_length_eq; [done|]. by apply prefix_length.
Qed.

(** Opening a new file, and writing a file that is at its place. *)
Lemma open_truncate_vacant mode p n v w r v' w' :
  clear (vol_tree v) (p ++ [n]) -> vol_tree v !! (p ++ [n]) = None ->
  Fs.open_truncate mode (at_ (p ++ [n])) v w = (r, v', w') ->
  (exists k, r = Err k /\ v' = v) \/
  (exists m, r = Ok (p ++ [n]) /\ v' = log v (<[p ++ [n] := EFile m ""]> (vol_tree v))).
Proof.
  intros Hc Hn. unfold Fs.open_truncate. rewrite bind_get. intros [?|(a & t & Hr & -> & ->)]%sys_cases; [by left|right].
  rewrite resolve_clear in Hr; [|done|unfold is_link_at; by rewrite Hn]. cbn in Hr. rewrite Hn in Hr.
  destruct (dir_at _ _); [|done]. injection Hr as <- <-. by eexists.
Qed.

Lemma write_at_cases torn q bytes v w r v' w' m :
  vol_tree v !! q = Some (EFile m "") -> Fs.write_at torn q 0 bytes v w = (r, v', w') ->
  exists data, v' = log v (<[q := EFile m data]> (vol_tree v)) /\ (r = Ok tt -> data = bytes).
Proof.
  intros Hq. unfold Fs.write_at. munfold. rewrite Hq. destruct (peek (w_io w)); intros [= <- <- <-]; eexists; (split; [done|]); [|done].
  intros _. apply overwrite_empty.
Qed.

Lemma log_insert_insert v p e e' t :
  vol_tree (log (log v (<[p := e]> t)) (<[p := e']> (<[p := e]> t))) = <[p := e']> t.
Proof. cbn. by rewrite insert_insert_eq. Qed.

(** [fs::copy] to a vacant place. *)
Lemma copy_vacant torn src p n v w r v' w' m data :
  clear (vol_tree v) src -> vol_tree v !! src = Some (EFile m data) ->
  clear (vol_tree v) (p ++ [n]) -> vol_tree v !! (p ++ [n]) = None ->
  below (p ++ [n]) src = None ->
  Fs.copy torn (at_ src) (at_ (p ++ [n])) v w = (r, v', w') ->
  only [p ++ [n]] v v' /\ (r = Ok tt -> vol_tree v' = <[p ++ [n] := EFile m data]> (vol_tree v)).
Proof.
  intros Hs Hsrc Hc Hn Hb H. set (tg := p ++ [n]) in *. unfold Fs.copy in H.
  assert (forall t, agree [tg] (vol_tree v) t -> entry t true (at_ src) = Ok (src, EFile m data)) as He.
  { intros t Ha. assert (t !! src = Some (EFile m data)) as E by (rewrite Ha; [done|by apply outside_one]).
    rewrite entry_clear, E; [done| |unfold is_link_at; by rewrite E].
    eapply clear_outside; [exact Ha|by apply outside_one|done]. }
  apply bind_cases in H as (r1 & v1 & w1 & H1 & H). apply ask_cases in H1 as [-> H1].
  destruct r1 as [e|k]; [|destruct H as (-> & -> & _); split; [apply only_refl|done]].
  specialize (H1 _ eq_refl). rewrite He in H1 by apply agree_refl. cbn in H1. injection H1 as <-.
  apply bind_cases in H as (r2 & v2 & w2 & H2 & H). apply open_truncate_vacant in H2; [|done..].
  destruct H2 as [(k & -> & ->)|(m2 & -> & ->)]; [destruct H as (-> & -> & _); split; [apply only_refl|done]|]. fold tg in H.
  assert (only [tg] v (log v (<[tg := EFile m2 ""]> (vol_tree v)))) as O2 by apply only_log, agree_insert.
  apply bind_cases in H as (r3 & v3 & w3 & H3 & H). apply sys_cases in H3 as [(k & -> & ->)|(u & t & Hr & -> & ->)];
    [destruct H as (-> & -> & _); by split|].
  unfold Fs.chmod in Hr. cbn [vol_tree log] in Hr. rewrite lookup_insert_eq in Hr. injection Hr as <- <-.
  set (v3 := log (log v _) _) in H.
  assert (only [tg] v v3) as O3 by (etrans; [exact O2|apply only_log, agree_insert]).
  apply bind_cases in H as (r4 & v4 & w4 & H4 & H). apply ask_cases in H4 as [-> H4].
  destruct r4 as [d|k]; [|destruct H as (-> & -> & _); by split]. specialize (H4 _ eq_refl). rewrite He in H4 by (by destruct O3 as (? & ? & ? & ?)).
  cbn in H4. injection H4 as <-. eapply write_at_cases in H as (d & -> & Hd); [|apply lookup_insert_eq]. split.
  - etrans; [exact O3|]. apply only_log, agree_insert.
  - intros Hr. rewrite Hd by done. unfold v3. cbn [vol_tree log]. by rewrite !insert_insert_eq.
Qed.

Lemma only_agree ps v v' : only ps v v' -> agree ps (vol_tree v) (vol_tree v').
Proof. by intros (? & _ & _ & ?). Qed.

Lemma set_permissions_at p mode v w r v' w' :
  clear (vol_tree v) p -> is_link_at (vol_tree v) p = false -> Fs.set_permissions (at_ p) mode v w = (r, v', w') ->
  (exists k, r = Err k /\ v' = v) \/ (r = Ok tt /\ v' = log v (Fs.chmod p mode (vol_tree v))).
Proof.
  intros Hc Hl [?|(a & t & Hr & -> & ->)]%sys_cases; [by left|right]. rewrite entry_clear in Hr by done.
  destruct (vol_tree v !! p); [|done]. cbn in Hr. by simplify_eq.
Qed.
Lemma agree_chmod p mode t : agree [p] t (Fs.chmod p mode t).
Proof. unfold Fs.chmod. destruct (t !! p) as [[]|]; first [apply agree_insert|apply agree_refl]. Qed.

(** Every entry below [p] is in a directory. *)
Definition rooted (t : Tree) (p : place) : Prop :=
  forall q n, is_Some (t !! (p ++ q ++ [n])) -> dir_at t (p ++ q) = true.

Lemma dir_at_Some t p : dir_at t p = true -> exists m, t !! p = Some (EDir m).
Proof. unfold dir_at. destruct (t !! p) as [[]|]; try done. by eexists. Qed.
Lemma rooted_wf t p : tree_wf t -> rooted t p.
Proof.
  intros Hw q n [e He]. apply (Hw _ _ He); [exists [n]; by rewrite <- app_assoc|]. intros H.
  apply (f_equal length) in H. rewrite !length_app in H. cbn in H. lia.
Qed.
Lemma rooted_child t p n : rooted t p -> rooted t (p ++ [n]).
Proof. intros H q x. rewrite <- !app_assoc. apply (H (n :: q) x). Qed.
Lemma rooted_top t p n q e : rooted t p -> t !! (p ++ n :: q) = Some e -> is_Some (t !! (p ++ [n])).
Proof.
  intros H. revert e. induction q as [|x q IH] using rev_ind; intros e He; [by exists e|].
  specialize (H (n :: q) x). destruct (dir_at_Some _ _ (H (ex_intro _ e He))) as [m Hm]. by eapply IH.
Qed.
Lemma rooted_agree ps t t' p : agree ps t t' -> (forall q, outside ps (p ++ q)) -> rooted t p -> rooted t' p.
Proof. intros Ha Ho Hr q n. unfold dir_at. rewrite !Ha by apply Ho. apply Hr. Qed.
Lemma rooted_leaf t p n q : rooted t p -> dir_at t p = false -> t !! (p ++ n :: q) = None.
Proof.
  intros Hr Hd. destruct (t !! (p ++ n :: q)) as [e|] eqn:E; [|done]. apply (rooted_top _ _ _ _ _ Hr) in E.
  specialize (Hr [] n E). rewrite app_nil_r in Hr. congruence.
Qed.

(** ** Moments *)

(** Every tree the volume went through from [v] to [v'] is in [Q]. *)
Definition passes (Q : Tree -> Prop) (v v' : Volume) : Prop :=
  exists steps, vol_history v' = steps ++ vol_history v /\ Forall Q steps.

Lemma passes_refl (Q : Tree -> Prop) v : passes Q v v.
Proof. exists []. by split; [|constructor]. Qed.
Lemma passes_trans (Q : Tree -> Prop) v1 v2 v3 : passes Q v1 v2 -> passes Q v2 v3 -> passes Q v1 v3.
Proof. intros (s1 & H1 & F1) (s2 & H2 & F2). exists (s2 ++ s1). split; [by rewrite H2, H1, app_assoc|by apply Forall_app]. Qed.
Lemma passes_impl (Q Q' : Tree -> Prop) v v' : (forall t, Q t -> Q' t) -> passes Q v v' -> passes Q' v v'.
Proof. intros H (s & Hs & F). exists s. split; [done|]. by eapply Forall_impl. Qed.
Lemma passes_log (Q : Tree -> Prop) v t : Q t -> passes Q v (log v t).
Proof. intros H. exists [t]. by split; [|constructor]. Qed.
Lemma only_passes (Q : Tree -> Prop) ps v v' : (forall t, agree ps (vol_tree v) t -> Q t) -> only ps v v' -> passes Q v v'.
Proof. intros H (s & Hs & F & _). exists s. split; [done|]. by eapply Forall_impl. Qed.

(** Removing a directory touches only what is in it. *)
Lemma remove_dir_all_only p v w r v' w' :
  clear (vol_tree v) p -> Fs.remove_dir_all (at_ p) v w = (r, v', w') -> only [p] v v'.
Proof.
  intros Hc H. unfold Fs.remove_dir_all in H. apply bind_cases in H as (r1 & v1 & w1 & H1 & H). apply ask_cases in H1 as [-> H1].
  destruct r1 as [[q e]|k]; [|destruct H as (_ & -> & _); apply only_refl]. specialize (H1 _ eq_refl).
  rewrite entry_clear in H1 by done. destruct (vol_tree v !! p); [|done]. injection H1 as <- ->. destruct e; cbn [fst snd] in H.
  - rewrite bind_get in H. assert (forall ks, (forall k, k ∈ ks -> below p k <> None) -> forall v w r v' w',
      for_each ks (fun k => sys (fun t => Ok (tt, delete k t))) v w = (r, v', w') -> only [p] v v') as Hk.
    { clear. intros ks Hks. induction ks as [|k ks IH]; intros v w r v' w' H; cbn [for_each] in H.
      - unfold ret in H. simplify_eq. apply only_refl.
      - apply bind_cases in H as (r1 & v1 & w1 & H1 & H).
        assert (only [p] v v1) as O1.
        { apply sys_cases in H1 as [(e & _ & ->)|(a & t & Ht & _ & ->)]; [apply only_refl|]. injection Ht as _ <-. apply only_log.
          eapply agree_mono; [|apply agree_delete]. constructor; [|constructor]. left.
          destruct (below p k) as [x|] eqn:E; [|destruct (Hks k ltac:(left)); done]. apply below_Some in E as ->. by apply prefix_app_r. }
        destruct r1; [|by destruct H as (_ & -> & _)]. etrans; [exact O1|]. eapply IH; [|exact H]. intros x Hx. apply Hks. by right. }
    eapply Hk; [|exact H]. intros k Hin. unfold Fs.descendants in Hin. rewrite merge_sort_Permutation, list_elem_of_omap in Hin.
    destruct Hin as ([k' e] & _ & Hk'). cbn in Hk'. destruct (below p k') eqn:E; [|done]. injection Hk' as <-. by rewrite E.
  - unfold fail in H. simplify_eq. apply only_refl.
  - apply sys_cases in H as [(k & _ & ->)|(a & t & Ht & _ & ->)]; [apply only_refl|]. injection Ht as _ <-. apply only_log, agree_delete.
  - unfold fail in H. simplify_eq. apply only_refl.
Qed.

Lemma wf_insert_dir t p m : tree_wf t -> clear t p -> tree_wf (<[p := EDir m]> t).
Proof.
  intros Hw Hc q e Hq x Hx Hne. unfold dir_at. destruct (decide (p = x)) as [->|Hpx]; [by rewrite lookup_insert_eq|].
  rewrite lookup_insert_ne by done. destruct (decide (p = q)) as [->|Hpq]; [by apply Hc|].
  rewrite lookup_insert_ne in Hq by done. by apply (Hw q e).
Qed.

Lemma wf_insert_file t p m data : tree_wf t -> clear t p -> t !! p = None -> tree_wf (<[p := EFile m data]> t).
Proof.
  intros Hw Hc Hn q e Hq x Hx Hne. assert (dir_at t x = true) as Hd.
  { destruct (decide (p = q)) as [->|]; [by apply Hc|]. rewrite lookup_insert_ne in Hq by done. by apply (Hw q e). }
  unfold dir_at in *. destruct (decide (p = x)) as [->|]; [by rewrite Hn in Hd|by rewrite lookup_insert_ne].
Qed.

(** A file that keeps its place may change its content. *)
Lemma wf_write t p m data m' data' : tree_wf t -> t !! p = Some (EFile m data) -> tree_wf (<[p := EFile m' data']> t).
Proof.
  intros Hw Hp q e Hq x Hx Hne. assert (is_Some (t !! q)) as [e' He'].
  { destruct (decide (p = q)) as [<-|]; [by eexists|]. rewrite lookup_insert_ne in Hq by done. by eexists. }
  pose proof (Hw q e' He' x Hx Hne) as Hd. unfold dir_at in *. destruct (decide (p = x)) as [->|]; [by rewrite Hp in Hd|by rewrite lookup_insert_ne].
Qed.

(** Writing into an open file. *)
Lemma write_at_file torn q off bytes v w r v' w' m data :
  vol_tree v !! q = Some (EFile m data) -> Fs.write_at torn q off bytes v w = (r, v', w') ->
  exists data', v' = log v (<[q := EFile m data']> (vol_tree v)) /\ (r = Ok tt -> data' = overwrite data off bytes).
Proof.
  intros Hq. unfold Fs.write_at. munfold. rewrite Hq. by destruct (peek (w_io w)); intros [= <- <- <-]; eexists; (split; [done|]).
Qed.

Lemma vacant_wf t p : tree_wf t -> t !! p = None -> vacant t p.
Proof.
  intros Hw Hn [|x q]; [by rewrite app_nil_r|]. apply wf_under_nondir; [done|]. unfold dir_at. by rewrite Hn.
Qed.

(** [fs::write] of a new file. *)
Lemma write_vacant torn p n bytes v w r v' w' :
  clear (vol_tree v) (p ++ [n]) -> vol_tree v !! (p ++ [n]) = None ->
  Fs.write torn (at_ (p ++ [n])) bytes v w = (r, v', w') ->
  only [p ++ [n]] v v' /\ (r = Ok tt -> exists m, vol_tree v' = <[p ++ [n] := EFile m bytes]> (vol_tree v)).
Proof.
  intros Hc Hn H. unfold Fs.write in H. apply bind_cases in H as (r1 & v1 & w1 & H1 & H). apply open_truncate_vacant in H1; [|done..].
  destruct H1 as [(k & -> & ->)|(m & -> & ->)]; [destruct H as (-> & -> & _); split; [apply only_refl|done]|].
  eapply write_at_cases in H as (d & -> & Hd); [|apply lookup_insert_eq]. split.
  - etrans; [apply only_log, agree_insert|apply only_log, agree_insert].
  - intros Hr. rewrite Hd by done. exists m. cbn. by rewrite insert_insert_eq.
Qed.

(** [create_dir] at a place without links above it. *)
Lemma create_dir_at p v w r v' w' :
  clear (vol_tree v) p -> Fs.create_dir (at_ p) v w = (r, v', w') ->
  (exists k, r = Err k /\ v' = v) \/
  (exists m, r = Ok tt /\ vol_tree v !! p = None /\ v' = log v (<[p := EDir m]> (vol_tree v))).
Proof.
  intros Hc H. unfold Fs.create_dir in H. rewrite bind_get in H. apply sys_cases in H as [?|(u & t & Ht & -> & ->)]; [by left|right].
  rewrite vacancy_clear in Ht by done. destruct (vol_tree v !! p); [done|]. destruct (dir_at _ _); [|done]. injection Ht as <- <-. by eexists.
Qed.

(** [create_dir_all] of a directory whose parent exists: nothing, or one new directory. *)
Lemma create_dir_all_at p n v w r v' w' :
  clear (vol_tree v) (p ++ [n]) -> is_link_at (vol_tree v) (p ++ [n]) = false ->
  Fs.create_dir_all (at_ (p ++ [n])) v w = (r, v', w') -> r = Ok tt ->
  (v' = v /\ dir_at (vol_tree v) (p ++ [n]) = true) \/
  (exists m, vol_tree v !! (p ++ [n]) = None /\ v' = log v (<[p ++ [n] := EDir m]> (vol_tree v))).
Proof.
  intros Hc Hl H ->. destruct (dir_at (vol_tree v) (p ++ [n])) eqn:Hd.
  { rewrite create_dir_all_present in H by done. injection H as <- <-. by left. }
  destruct (vol_tree v !! (p ++ [n])) as [e|] eqn:He.
  2:{ apply create_dirs_last in H; [|done..]. destruct H as [(k & ? & _)|(m & _ & ->)]; [done|]. right. by exists m. }
  exfalso. unfold dir_at in Hd. unfold is_link_at in Hl. rewrite He in Hd, Hl.
  assert (forall pre rest, pre ++ rest = p -> Fs.create_dirs (at_ pre) (Normal <$> (rest ++ [n])) v w <> (Ok tt, v', w')) as Hgo.
  { intros pre rest. revert pre. induction rest as [|x rest IH]; intros pre Hpre H'; cbn [app fmap list_fmap Fs.create_dirs] in H'; rewrite bind_get, push_at in H'.
    - rewrite app_nil_r in Hpre. subst pre. assert (@fs_is_dir (tree_fs (vol_tree v)) (at_ (p ++ [n])) = false) as Hf.
      { cbn. rewrite entry_clear, He; [by destruct e|done|]. unfold is_link_at. rewrite He. by destruct e. }
      rewrite Hf in H'. apply bind_cases in H' as (r2 & v2 & w2 & H2 & H'). apply create_dir_at in H2 as [(k & -> & ->)|(m & _ & Hx & _)]; [|congruence|done].
      by destruct H'.
    - apply clear_snoc in Hc as [Hc Hdp]. subst p. rewrite fs_is_dir_clear in H'.
      + apply bind_cases in H' as (r2 & v2 & w2 & H2 & H'). unfold ret in H2. injection H2 as <- <- <-. eapply (IH (pre ++ [x])); [by rewrite <- app_assoc|exact H'].
      + intros q Hq Hqn. apply Hc; [etrans; [exact Hq|]; exists rest; by rewrite <- app_assoc|]. intros ->. apply prefix_length in Hq.
        rewrite !length_app in Hq. cbn in Hq. destruct rest; [done|cbn in Hq; lia].
      + destruct rest as [|y rest]; [done|]. apply Hc; [exists (y :: rest); by rewrite <- app_assoc|].
        intros E. apply (f_equal length) in E. rewrite !length_app in E. cbn in E. lia. }
  by apply (Hgo [] p).
Qed.

(** A new file that is moved to another name of its directory. *)
Lemma rename_new_file t dir a b m data t' :
  a <> b -> Fs.rename_tree (dir ++ [a]) (dir ++ [b]) (<[dir ++ [a] := EFile m data]> t) = Ok t' ->
  t' !! (dir ++ [b]) = Some (EFile m data) /\ t' !! (dir ++ [a]) = None /\ agree [dir ++ [a]; dir ++ [b]] t t'.
Proof.
  intros Hne H. apply rename_tree_ok in H as (_ & Hb & _ & -> & _); [|intros E%app_inv_head; congruence]. split_and!.
  - rewrite rename_arrives by done. apply lookup_insert_eq.
  - pose proof (rename_gone (dir ++ [a]) (dir ++ [b]) (<[dir ++ [a] := EFile m data]> t) []) as E.
    rewrite app_nil_r in E. apply E, below_sibling'. done.
  - intros q Hq. pose proof (outside_in _ _ _ Hq ltac:(by left)). pose proof (outside_in _ _ _ Hq ltac:(by right; left)).
    rewrite rename_frame by done. rewrite lookup_insert_ne; [done|]. intros <-. by rewrite below_self in *.
Qed.
