(* ===== verification/Generations.v ===== *)
(** * Generations on disk ([crates/machine-fabric-runtime/src/generation.rs])

    A generation is a copy of a baseline with a marker file; overlays are copied
    into it, its state is recorded in the marker, and activating it moves the
    link [current]. Modelled as compiled for Linux; the directory junctions of
    Windows and [clonefile] of macOS are not. The recursion of [copy_tree] is
    bounded by the depth of the tree it copies. *)
From Stdlib Require Import Ascii.
From stdpp Require Import base gmap strings list sorting pretty.
From S2P Require Import Prelude Json Protocol PathPolicy FileTree.
Open Scope Z_scope.
Open Scope fabric_scope.

Record MaterializedGeneration := mkMaterializedGeneration {
  mg_generation_id : string;
  mg_root : Path;
  mg_application_path : Path;
  mg_marker_path : Path;
  mg_created_at : Z;
}.

Record Overlay := mkOverlay {
  overlay_source : Path;
  overlay_target_relative_path : Path;
  overlay_replace : bool;
}.

(** [io_error] on the result of a system call *)
Definition io_error {A} (code : string) (p : Path) (m : M Volume IoKind A) : M Volume RpcError A :=
  with_err (fun _ => rpc_error code (display p +:+ ": ")) m.

(** The thread panics, or its recursion is cut off. *)
Definition thread_panic : RpcError := rpc_error "PANIC" "".
Definition out_of_fuel : RpcError := rpc_error "FUEL" "".

(** [validate_generation_id] *)
Definition validate_generation_id (value : string) : result RpcError unit :=
  if str_is_empty value || (128 <? str_len value)
     || negb (bytes_all (fun c => is_ascii_alphanumeric c || Ascii.eqb c "-"%char || Ascii.eqb c "_"%char
                                  || Ascii.eqb c "."%char) value)
  then Err (rpc_error "INVALID_GENERATION_ID" "generation ID must be a safe path component")
  else Ok tt.

(** [validate_relative] *)
Definition validate_relative (p : Path) : result RpcError unit :=
  if bool_decide (p_components p = []) || p_absolute p || negb (forallb is_normal (p_components p))
  then Err (rpc_error "INVALID_OVERLAY_PATH" ("overlay target must be a safe relative path: " +:+ display p))
  else Ok tt.

(** [generations.join(generation_id)]: an identifier of dots alone is not a name. *)
Definition component_of (name : string) : Component :=
  if String.eqb name "." then CurDir else if String.eqb name ".." then ParentDir else Normal name.

(** The part of a name up to its first [.app] *)
Definition application_name (baseline_name : string) : string :=
  match String.index 0 ".app" baseline_name with
  | Some position => String.substring 0 (position + 4) baseline_name
  | None => baseline_name
  end.

Definition STATES : list string :=
  ["materialized"; "applied"; "validated"; "finalized"; "smoke-passed"; "ready"; "active"; "failed"].

Section Generations.
Context (to_vec_pretty : Value -> string) (from_slice : string -> option Value).
Context (torn : string -> string) (pid : Z).

Definition pid_text : string := pretty pid.

(** [copy_permissions] *)
Definition entry_mode (e : Entry) : Z := match e with EDir m | EFile m _ => m | _ => 0 end.
Definition copy_permissions (metadata : Entry) (target : Path) : M Volume RpcError unit :=
  io_error "MATERIALIZE_FAILED" target (Fs.set_permissions target (entry_mode metadata)).

(** [clone_or_copy] *)
Definition clone_or_copy (source target : Path) : M Volume RpcError unit :=
  io_error "MATERIALIZE_FAILED" target (Fs.copy torn source target).

(** [copy_tree] *)
Fixpoint copy_tree (fuel : nat) (source target : Path) : M Volume RpcError unit :=
  match fuel with
  | O => fail out_of_fuel
  | S fuel' =>
      let* metadata := io_error "MATERIALIZE_FAILED" source (Fs.symlink_metadata source) in
      match metadata with
      | ELink _ =>
          let* link := io_error "MATERIALIZE_FAILED" source (Fs.read_link source) in
          let* present := Fs.exists_ target in
          let* linked := if present : bool then ret true else Fs.is_symlink target in
          (if linked : bool then io_error "MATERIALIZE_FAILED" target (Fs.remove_file target) else ret tt) ;;
          io_error "MATERIALIZE_FAILED" target (Fs.symlink link target)
      | EDir _ =>
          io_error "MATERIALIZE_FAILED" target (Fs.create_dir_all target) ;;
          copy_permissions metadata target ;;
          let* names := io_error "MATERIALIZE_FAILED" source (Fs.read_dir source) in
          for_each names (fun name => copy_tree fuel' (join source [name]) (join target [name]))
      | EFile _ _ =>
          match path_parent target with
          | Some parent => io_error "MATERIALIZE_FAILED" parent (Fs.create_dir_all parent)
          | None => ret tt
          end ;;
          clone_or_copy source target ;;
          copy_permissions metadata target
      | EOther => fail (rpc_error "MATERIALIZE_FAILED" ("unsupported baseline entry: " +:+ display source))
      end
  end.

Definition read_marker (marker_path : Path) : M Volume RpcError Value :=
  let* bytes := io_error "GENERATION_INVALID" marker_path (Fs.read marker_path) in
  lift (ok_or (from_slice bytes) (rpc_error "GENERATION_INVALID" "")).

(** The marker of a complete generation *)
Definition materialized_marker (generation_id name : string) (baseline : Path) (created_at : Z) : Value :=
  obj_of [("generationId", VString generation_id); ("state", VString "materialized");
          ("applicationName", VString name); ("baseline", VString (display baseline));
          ("createdAt", vu64 created_at)].

(** [materialize] of a generation that exists *)
Definition reuse_generation (generation_id : string) (root : Path) : M Volume RpcError MaterializedGeneration :=
  let marker_path := join root ["generation.json"] in
  let* marker := read_marker marker_path in
  if bool_decide (vget "state" marker ≫= as_str = Some "materialized")
  then ret (mkMaterializedGeneration generation_id root
              (join root [default "application" (vget "applicationName" marker ≫= as_str)])
              marker_path (default 0 (vget "createdAt" marker ≫= as_u64)))
  else fail (rpc_error "GENERATION_EXISTS"
               ("generation already exists but is not reusable: " +:+ generation_id)).

(** [materialize] of a new generation: built under a temporary name and renamed *)
Definition build_generation (fuel : nat) (generations : Path) (generation_id : string) (baseline : Path)
    : M Volume RpcError MaterializedGeneration :=
  let root := push generations (component_of generation_id) in
  let temporary := join generations ["." +:+ generation_id +:+ "." +:+ pid_text +:+ ".tmp"] in
  io_error "GENERATION_CREATE_FAILED" temporary (Fs.create_dir temporary) ;;
  let* baseline_name := lift (ok_or (path_name baseline)
                                (rpc_error "BASELINE_INVALID" "baseline has no UTF-8 name")) in
  let name := application_name baseline_name in
  let* copied := attempt (copy_tree fuel baseline (join temporary [name])) in
  match copied with
  | Err error =>
      let* now := now_ms in
      let marker := obj_of [("generationId", VString generation_id); ("state", VString "failed");
                            ("error", VString (err_message error)); ("createdAt", vu64 now)] in
      let* _ := attempt (F := RpcError) (Fs.write torn (join temporary ["generation.json"]) (to_vec_pretty marker)) in
      let* _ := attempt (F := RpcError) (Fs.rename temporary root) in
      fail error
  | Ok _ =>
      let* created_at := now_ms in
      let marker_path := join temporary ["generation.json"] in
      io_error "GENERATION_CREATE_FAILED" marker_path
        (Fs.write torn marker_path (to_vec_pretty (materialized_marker generation_id name baseline created_at))) ;;
      io_error "GENERATION_CREATE_FAILED" root (Fs.rename temporary root) ;;
      ret (mkMaterializedGeneration generation_id root (join root [name]) (join root ["generation.json"]) created_at)
  end.

(** [materialize] *)
Definition materialize (fuel : nat) (generation_root : Path) (generation_id : string) (baseline : Path)
    : M Volume RpcError MaterializedGeneration :=
  lift (validate_generation_id generation_id) ;;
  if bool_decide (path_name generation_root = Some "generations")
  then fail (rpc_error "INVALID_GENERATION_ROOT"
               "generationRoot is the deployment root; do not include the trailing generations directory")
  else
    let generations := join generation_root ["generations"] in
    io_error "GENERATION_CREATE_FAILED" generations (Fs.create_dir_all generations) ;;
    let root := push generations (component_of generation_id) in
    let* present := Fs.exists_ root in
    if present : bool then reuse_generation generation_id root
    else build_generation fuel generations generation_id baseline.

(** The end of [replace_tree]: the complete copy takes the place of the target, which is put back when that fails. *)
Definition exchange (target staging incoming previous : Path) : M Volume RpcError unit :=
  let* present := Fs.exists_ target in
  let* had_previous := if present : bool then ret true else Fs.is_symlink target in
  let* moved := if had_previous : bool then attempt (Fs.rename target previous) else ret (Ok tt) in
  match moved with
  | Err _ =>
      let* _ := attempt (F := RpcError) (Fs.remove_dir_all staging) in
      fail (rpc_error "OVERLAY_REPLACE_FAILED" (display target +:+ ": "))
  | Ok _ =>
      let* placed := attempt (Fs.rename incoming target) in
      match placed with
      | Err _ =>
          (if had_previous : bool
           then io_error "OVERLAY_RESTORE_FAILED" previous (Fs.rename previous target) else ret tt) ;;
          let* _ := attempt (F := RpcError) (Fs.remove_dir_all staging) in
          fail (rpc_error "OVERLAY_REPLACE_FAILED" (display target +:+ ": "))
      | Ok _ => io_error "OVERLAY_CLEANUP_FAILED" staging (Fs.remove_dir_all staging)
      end
  end.

(** [replace_tree] *)
Definition replace_tree (fuel : nat) (source target : Path) : M Volume RpcError unit :=
  let* parent := lift (ok_or (path_parent target)
                         (rpc_error "INVALID_OVERLAY_PATH" "overlay target has no parent")) in
  io_error "OVERLAY_REPLACE_FAILED" parent (Fs.create_dir_all parent) ;;
  let* source_root := io_error "OVERLAY_REPLACE_FAILED" source (Fs.canonicalize source) in
  let* parent_root := io_error "OVERLAY_REPLACE_FAILED" parent (Fs.canonicalize parent) in
  if within parent_root source_root
  then fail (rpc_error "INVALID_OVERLAY_PATH" "replacement staging must not be inside its source")
  else
    let* now := now_ms in
    let staging := join parent [".overlay-" +:+ pid_text +:+ "-" +:+ pretty now] in
    io_error "OVERLAY_REPLACE_FAILED" staging (Fs.create_dir staging) ;;
    let* copied := attempt (copy_tree fuel source (join staging ["incoming"])) in
    match copied with
    | Err error =>
        let* _ := attempt (F := RpcError) (Fs.remove_dir_all staging) in
        fail error
    | Ok _ => exchange target staging (join staging ["incoming"]) (join staging ["previous"])
    end.

(** [apply_overlays] *)
Definition apply_overlays (fuel : nat) (application_path : Path) (overlays : list Overlay)
    : M Volume RpcError (list (Path * Path * bool)) :=
  map_m (fun overlay =>
    lift (validate_relative (overlay_target_relative_path overlay)) ;;
    let target := mkPath (p_absolute application_path)
                    (p_components application_path ++ p_components (overlay_target_relative_path overlay)) in
    (if overlay_replace overlay then replace_tree fuel (overlay_source overlay) target
     else copy_tree fuel (overlay_source overlay) target) ;;
    ret (overlay_source overlay, target, overlay_replace overlay)) overlays.

(** [marker[key] = value] *)
Definition set_field (key : string) (value marker : Value) : result RpcError Value :=
  ok_or (vindex_set key value marker) thread_panic.

(** [record_state] *)
Definition record_state (generation_root : Path) (generation_id state : string) (evidence : Value)
    : M Volume RpcError Value :=
  lift (validate_generation_id generation_id) ;;
  if negb (existsb (String.eqb state) STATES)
  then fail (rpc_error "INVALID_GENERATION_STATE" ("unsupported generation state: " +:+ state))
  else
    let marker_path := join (push (join generation_root ["generations"]) (component_of generation_id))
                         ["generation.json"] in
    let* marker := read_marker marker_path in
    let* marker := lift (set_field "state" (VString state) marker) in
    let* now := now_ms in
    let* marker := lift (set_field "updatedAt" (vu64 now) marker) in
    let* marker := lift (set_field "evidence" evidence marker) in
    let temporary := with_extension marker_path ("json." +:+ pid_text +:+ ".tmp") in
    io_error "GENERATION_UPDATE_FAILED" temporary (Fs.write torn temporary (to_vec_pretty marker)) ;;
    io_error "GENERATION_UPDATE_FAILED" marker_path (Fs.rename temporary marker_path) ;;
    ret marker.

(** The link [current] of [activate] is made under another name and renamed. *)
Definition switch_current (generation_root : Path) (generation_id : string) : M Volume RpcError unit :=
  let current := join generation_root ["current"] in
  let next := join generation_root [".current." +:+ pid_text +:+ ".tmp"] in
  let* stale := Fs.exists_ next in
  (if stale : bool then io_error "ACTIVATION_FAILED" next (Fs.remove_file next) else ret tt) ;;
  io_error "ACTIVATION_FAILED" next
    (Fs.symlink (mkPath false [Normal "generations"; component_of generation_id]) next) ;;
  io_error "ACTIVATION_FAILED" current (Fs.rename next current).

(** The former target becomes the link [previous]. *)
Definition keep_previous (generation_root old : Path) : M Volume RpcError unit :=
  let previous := join generation_root ["previous"] in
  let previous_next := join generation_root [".previous." +:+ pid_text +:+ ".tmp"] in
  let* _ := attempt (F := RpcError) (Fs.remove_file previous_next) in
  io_error "ACTIVATION_FAILED" previous_next (Fs.symlink old previous_next) ;;
  io_error "ACTIVATION_FAILED" previous (Fs.rename previous_next previous).

(** [activate]; the target of the link [current] before *)
Definition activate (generation_root : Path) (generation_id : string) : M Volume RpcError (option Path) :=
  lift (validate_generation_id generation_id) ;;
  let target := push (join generation_root ["generations"]) (component_of generation_id) in
  let marker_path := join target ["generation.json"] in
  let* marked := Fs.is_file marker_path in
  if negb marked then fail (rpc_error "GENERATION_NOT_READY" ("generation has no marker: " +:+ generation_id))
  else
    let* marker := read_marker marker_path in
    let state := vget "state" marker ≫= as_str in
    if negb (bool_decide (state = Some "ready"))
    then fail (rpc_error "GENERATION_NOT_READY"
                 ("generation state is " +:+ default "unknown" state +:+ ", expected ready"))
    else
      io_error "ACTIVATION_FAILED" generation_root (Fs.create_dir_all generation_root) ;;
      let* old := attempt (Fs.read_link (join generation_root ["current"])) in
      switch_current generation_root generation_id ;;
      match old with
      | Ok old => keep_previous generation_root old ;; ret (Some old)
      | Err _ => ret None
      end.

End Generations.
