(* ===== verification/CopyTree.v ===== *)
(** * Copying a tree ([copy_tree] of [crates/machine-fabric-runtime/src/generation.rs])

    A copy to a vacant place touches nothing else, and a copy that succeeds is
    the tree it copied. *)
From stdpp Require Import base gmap strings list sorting pretty.
From S2P Require Import Prelude Json Protocol PathPolicy FileTree FileTreeLaws Generations.
Open Scope Z_scope.
Open Scope fabric_scope.

Section Copy.
Context (torn : string -> string).
#[local] Abbreviation copy_tree := (copy_tree torn).

(** A copy from [src] to [target] between two volumes, with its result. *)
Definition copied (src target : place) (v : Volume) (r : result RpcError unit) (v' : Volume) : Prop :=
  only [target] v v' /\ (r = Ok tt -> subtree target (vol_tree v') = subtree src (vol_tree v)).

Lemma copied_failed src target v v' e : only [target] v v' -> copied src target v (Err e) v'.
Proof. by split. Qed.

(** The places of a copy: the source is there, the target is vacant, and neither is inside the other. *)
Record copyable (src p : place) (n : string) (t : Tree) : Prop := mk_copyable {
  cp_source : clear t src;
  cp_rooted : rooted t src;
  cp_target : clear t (p ++ [n]);
  cp_vacant : vacant t (p ++ [n]);
  cp_apart : below src (p ++ [n]) = None;
}.

Lemma vacant_lookup t p : vacant t p -> t !! p = None.
Proof. intros H. specialize (H []). by rewrite app_nil_r in H. Qed.
Lemma vacant_not_link t p : vacant t p -> is_link_at t p = false.
Proof. intros H. unfold is_link_at. by rewrite vacant_lookup. Qed.

(** A single entry put at the target is the copy of a source without children. *)
Lemma leaf_copy src p n t t' e :
  copyable src p n t -> t !! src = Some e -> entry_is_dir e = false -> t' = <[p ++ [n] := e]> t ->
  subtree (p ++ [n]) t' = subtree src t.
Proof.
  intros Hc He Hd ->. apply map_eq. intros q. rewrite !lookup_subtree. destruct q as [|x q].
  - by rewrite !app_nil_r, lookup_insert_eq.
  - rewrite lookup_insert_ne by (intros E; apply (f_equal length) in E; rewrite !length_app in E; cbn in E; lia).
    rewrite (cp_vacant _ _ _ _ Hc). symmetry. apply rooted_leaf; [by eapply cp_rooted|]. unfold dir_at. rewrite He. by destruct e.
Qed.

Lemma copy_link fuel src p n v w r v' w' target :
  copyable src p n (vol_tree v) -> vol_tree v !! src = Some (ELink target) ->
  copy_tree (S fuel) (at_ src) (at_ (p ++ [n])) v w = (r, v', w') -> copied src (p ++ [n]) v r v'.
Proof.
  intros Hc Hs H. set (tg := p ++ [n]) in *. cbn [Generations.copy_tree] in H.
  assert (entry (vol_tree v) false (at_ src) = Ok (src, ELink target)) as He by (rewrite entry_clear, Hs; [done|by apply Hc|done]).
  assert (forall f, entry (vol_tree v) f (at_ tg) = Err NotFound) as Hn.
  { intros f. rewrite entry_clear, vacant_lookup; [done|by apply Hc|by apply Hc|intros _; by apply vacant_not_link, Hc]. }
  apply bind_cases in H as (r1 & v1 & w1 & H1 & H). apply with_err_cases in H1 as (k1 & H1 & ->). apply ask_cases in H1 as [-> H1].
  destruct k1 as [e|k]; cbn [map_err] in H; [|destruct H as (-> & -> & _); apply copied_failed, only_refl].
  specialize (H1 _ eq_refl). rewrite He in H1. injection H1 as <-.
  apply bind_cases in H as (r2 & v2 & w2 & H2 & H). apply with_err_cases in H2 as (k2 & H2 & ->). apply ask_cases in H2 as [-> H2].
  destruct k2 as [link|k]; cbn [map_err] in H; [|destruct H as (-> & -> & _); apply copied_failed, only_refl].
  specialize (H2 _ eq_refl). rewrite He in H2. injection H2 as <-.
  apply bind_cases in H as (r3 & v3 & w3 & H3 & H). apply test_cases in H3 as (k3 & H3 & ->). apply ask_cases in H3 as [-> H3].
  assert (match k3 with Ok _ => true | Err _ => false end = false) as E3.
  { destruct k3 as [e|]; [|done]. specialize (H3 _ eq_refl). by rewrite Hn in H3. }
  rewrite E3 in H. apply bind_cases in H as (r4 & v4 & w4 & H4 & H). apply test_cases in H4 as (k4 & H4 & ->). apply ask_cases in H4 as [-> H4].
  assert (match k4 with Ok e => entry_is_link e | Err _ => false end = false) as E4.
  { destruct k4 as [e|]; [|done]. specialize (H4 _ eq_refl). by rewrite Hn in H4. }
  rewrite E4 in H. apply bind_cases in H as (r5 & v5 & w5 & H5 & H). unfold ret in H5. injection H5 as <- <- <-.
  apply with_err_cases in H as (k6 & H6 & ->). apply symlink_at in H6; [|by apply Hc].
  destruct H6 as [(k & -> & ->)|(-> & _ & ->)]; [apply copied_failed, only_refl|]. split; [apply only_log, agree_insert|].
  intros _. eapply leaf_copy; [done|exact Hs|done|done].
Qed.

Lemma copy_file fuel src p n v w r v' w' m data :
  copyable src p n (vol_tree v) -> vol_tree v !! src = Some (EFile m data) ->
  copy_tree (S fuel) (at_ src) (at_ (p ++ [n])) v w = (r, v', w') -> copied src (p ++ [n]) v r v'.
Proof.
  intros Hc Hs H. cbn [Generations.copy_tree] in H. rewrite path_parent_at in H.
  assert (entry (vol_tree v) false (at_ src) = Ok (src, EFile m data)) as He by (rewrite entry_clear, Hs; [done|by apply Hc|done]).
  apply bind_cases in H as (r1 & v1 & w1 & H1 & H). apply with_err_cases in H1 as (k1 & H1 & ->). apply ask_cases in H1 as [-> H1].
  destruct k1 as [e|k]; cbn [map_err] in H; [|destruct H as (-> & -> & _); apply copied_failed, only_refl].
  specialize (H1 _ eq_refl). rewrite He in H1. injection H1 as <-.
  apply bind_cases in H as (r2 & v2 & w2 & H2 & H). unfold io_error, with_err in H2.
  pose proof (cp_target _ _ _ _ Hc) as Ht. apply clear_snoc in Ht as [Ht Hd]. rewrite create_dir_all_present in H2 by done.
  injection H2 as <- <- <-. cbn [map_err] in H. set (tg := p ++ [n]) in *.
  apply bind_cases in H as (r3 & v3 & w3 & H3 & H). apply with_err_cases in H3 as (k3 & H3 & ->).
  apply (copy_vacant _ _ _ _ _ _ _ _ _ m data) in H3 as [O3 H3]; [|by apply Hc|done|by apply Hc|by apply vacant_lookup, Hc|].
  2:{ eapply vacant_apart; [apply Hc|by eexists]. }
  destruct k3 as [[]|k]; cbn [map_err] in H; [|destruct H as (-> & -> & _); by apply copied_failed]. specialize (H3 eq_refl).
  apply with_err_cases in H as (k4 & H4 & ->). apply set_permissions_at in H4.
  2:{ eapply clear_self; [by eapply only_agree|apply Hc]. } 2:{ rewrite H3. unfold is_link_at. by rewrite lookup_insert_eq. }
  destruct H4 as [(k & -> & ->)|(-> & ->)]; [by apply copied_failed|]. split; [etrans; [exact O3|apply only_log, agree_chmod]|].
  intros _. eapply leaf_copy; [done|exact Hs|done|]. cbn [vol_tree log]. unfold Fs.chmod. rewrite H3, lookup_insert_eq. apply insert_insert_eq.
Qed.

(** The directory of a copy: made, and open for the copies of the children. *)
Record opened (src tg : place) (names : list string) (t : Tree) : Prop := mk_opened {
  op_source : clear t src;
  op_source_dir : dir_at t src = true;
  op_rooted : rooted t src;
  op_target : clear t tg;
  op_target_dir : dir_at t tg = true;
  op_out : below src tg = None;
  op_in : below tg src = None;
  op_names : NoDup names;
  op_vacant : forall n, n ∈ names -> vacant t (tg ++ [n]);
}.

Lemma opened_copyable src tg names t n : opened src tg names t -> n ∈ names -> copyable (src ++ [n]) tg n t.
Proof.
  intros [] Hn. split; [by apply clear_snoc|by apply rooted_child|by apply clear_snoc|by apply op_vacant0|].
  by apply below_deeper, below_apart.
Qed.

(** A copy of one child leaves the directory open for the others. *)
Lemma opened_step src tg n names t t' :
  opened src tg (n :: names) t -> agree [tg ++ [n]] t t' -> opened src tg names t'.
Proof.
  intros [] Ha. assert (forall q, outside [tg ++ [n]] (src ++ q)) as Hs.
  { intros q. by apply outside_one, below_deeper, below_apart. }
  assert (outside [tg ++ [n]] tg) as Ht by (by apply outside_one, below_above).
  assert (outside [tg ++ [n]] src) as Hs' by (specialize (Hs []); by rewrite app_nil_r in Hs).
  apply NoDup_cons in op_names0 as [Hn Hnd]. split; try done.
  - by eapply clear_outside.
  - unfold dir_at. by rewrite Ha.
  - by eapply rooted_agree.
  - by eapply clear_outside.
  - unfold dir_at. by rewrite Ha.
  - intros x Hx q. rewrite Ha; [apply op_vacant0; by right|]. rewrite <- app_assoc. apply outside_one, below_sibling. by intros ->.
Qed.

Definition copies (tg : place) (names : list string) : list place := (fun n => tg ++ [n]) <$> names.

Lemma copies_outside src tg names q : below src tg = None -> below tg src = None -> outside (copies tg names) (src ++ q).
Proof. intros H1 H2. apply Forall_fmap, Forall_forall. intros n _. by apply below_deeper, below_apart. Qed.

Lemma copy_children fuel src tg names :
  (forall src p n v w r v' w', copyable src p n (vol_tree v) ->
     copy_tree fuel (at_ src) (at_ (p ++ [n])) v w = (r, v', w') -> copied src (p ++ [n]) v r v') ->
  forall v w r v' w', opened src tg names (vol_tree v) ->
  for_each names (fun name => copy_tree fuel (join (at_ src) [name]) (join (at_ tg) [name])) v w = (r, v', w') ->
  only (copies tg names) v v' /\
  (r = Ok tt -> forall n, n ∈ names -> forall q, vol_tree v' !! (tg ++ n :: q) = vol_tree v !! (src ++ n :: q)).
Proof.
  intros IH. induction names as [|n names IHn]; intros v w r v' w' Ho H.
  - cbn in H. unfold ret in H. simplify_eq. split; [apply only_refl|]. intros _ n Hn. by apply not_elem_of_nil in Hn.
  - cbn [for_each] in H. apply bind_cases in H as (r1 & v1 & w1 & H1 & H). rewrite !join_at in H1.
    apply IH in H1 as [O1 C1]; [|eapply opened_copyable; [exact Ho|by left]].
    assert (only (copies tg (n :: names)) v v1) as O1'. { eapply only_mono; [|exact O1]. constructor; [by left|constructor]. }
    destruct r1 as [[]|e]; [|destruct H as (-> & -> & _); by split]. specialize (C1 eq_refl).
    pose proof (opened_step _ _ _ _ _ _ Ho (only_agree _ _ _ O1)) as Ho1. apply IHn in H as [O2 C2]; [|exact Ho1]. split.
    + etrans; [exact O1'|]. eapply only_mono; [|exact O2]. apply Forall_forall. intros x Hx. apply Exists_exists. exists x. split; [by right|done].
    + intros Hr x Hx q. apply elem_of_cons in Hx as [->|Hx].
      * pose proof (op_names _ _ _ _ Ho) as [Hn _]%NoDup_cons.
        rewrite (only_agree _ _ _ O2); [|apply Forall_fmap, Forall_forall; intros y Hy; apply below_sibling; by intros ->].
        apply (f_equal (fun m => m !! q)) in C1. rewrite !lookup_subtree, <- !app_assoc in C1. exact C1.
      * rewrite C2 by done. apply (only_agree _ _ _ O1). apply outside_one, below_deeper, below_apart; apply Ho.
Qed.

Lemma copy_dir fuel src p n v w r v' w' m :
  (forall src p n v w r v' w', copyable src p n (vol_tree v) ->
     copy_tree fuel (at_ src) (at_ (p ++ [n])) v w = (r, v', w') -> copied src (p ++ [n]) v r v') ->
  copyable src p n (vol_tree v) -> vol_tree v !! src = Some (EDir m) ->
  copy_tree (S fuel) (at_ src) (at_ (p ++ [n])) v w = (r, v', w') -> copied src (p ++ [n]) v r v'.
Proof.
  intros IH Hc Hs H. cbn [Generations.copy_tree] in H. set (tg := p ++ [n]) in *.
  assert (below tg src = None) as Hin by (eapply vacant_apart; [apply Hc|by eexists]).
  assert (forall t, agree [tg] (vol_tree v) t -> forall q, t !! (src ++ q) = vol_tree v !! (src ++ q)) as Hsrc.
  { intros t Ha q. apply Ha, outside_one, below_apart; [done|apply Hc]. }
  assert (forall t, agree [tg] (vol_tree v) t -> clear t src) as Hcs.
  { intros t Ha. eapply clear_outside; [exact Ha|by apply outside_one|apply Hc]. }
  apply bind_cases in H as (r1 & v1 & w1 & H1 & H). apply with_err_cases in H1 as (k1 & H1 & ->). apply ask_cases in H1 as [-> H1].
  destruct k1 as [e|k]; cbn [map_err] in H; [|destruct H as (-> & -> & _); apply copied_failed, only_refl].
  specialize (H1 _ eq_refl). rewrite entry_clear, Hs in H1; [|by apply Hc|done]. injection H1 as <-.
  apply bind_cases in H as (r2 & v2 & w2 & H2 & H). apply with_err_cases in H2 as (k2 & H2 & ->).
  apply create_dirs_last in H2; [|by apply Hc|by apply vacant_lookup, Hc].
  destruct H2 as [(k & -> & ->)|(m2 & -> & ->)]; cbn [map_err] in H; [destruct H as (-> & -> & _); apply copied_failed, only_refl|]. fold tg in H.
  set (v2 := log v _) in H. assert (only [tg] v v2) as O2 by apply only_log, agree_insert.
  apply bind_cases in H as (r3 & v3 & w3 & H3 & H). apply with_err_cases in H3 as (k3 & H3 & ->). apply set_permissions_at in H3.
  2:{ eapply clear_self; [by eapply only_agree|apply Hc]. } 2:{ unfold is_link_at. cbn. by rewrite lookup_insert_eq. }
  destruct H3 as [(k & -> & ->)|(-> & ->)]; cbn [map_err] in H; [destruct H as (-> & -> & _); by apply copied_failed|].
  set (v3 := log v2 _) in H. assert (only [tg] v v3) as O3 by (etrans; [exact O2|apply only_log, agree_chmod]).
  assert (vol_tree v3 = <[tg := EDir m]> (vol_tree v)) as E3.
  { unfold v3, v2, Fs.chmod. cbn. rewrite lookup_insert_eq. cbn. apply insert_insert_eq. }
  apply bind_cases in H as (r4 & v4 & w4 & H4 & H). apply with_err_cases in H4 as (k4 & H4 & ->). apply ask_cases in H4 as [-> H4].
  destruct k4 as [names|k]; cbn [map_err] in H; [|destruct H as (-> & -> & _); by apply copied_failed].
  specialize (H4 _ eq_refl). pose proof (only_agree _ _ _ O3) as A3. pose proof (Hsrc _ A3 []) as Hs3. rewrite app_nil_r, Hs in Hs3.
  rewrite entry_clear, Hs3 in H4; [|by apply Hcs|unfold is_link_at; by rewrite Hs3]. cbn in H4. injection H4 as <-.
  apply (copy_children fuel src tg) in H; [|exact IH|].
  - destruct H as [O4 C4]. assert (only [tg] v v') as O.
    { etrans; [exact O3|]. eapply only_mono; [|exact O4]. apply Forall_fmap, Forall_forall. intros x _. left. by apply prefix_app_r. }
    split; [done|]. intros Hr. specialize (C4 Hr). apply map_eq. intros q. rewrite !lookup_subtree. destruct q as [|x q].
    + rewrite !app_nil_r, (only_agree _ _ _ O4), E3, lookup_insert_eq; [done|]. apply Forall_fmap, Forall_forall. intros x _. by apply below_above.
    + destruct (decide (x ∈ Fs.children src (vol_tree v3))) as [Hx|Hx]; [rewrite C4 by done; by apply Hsrc|].
      rewrite (only_agree _ _ _ O4); [|apply Forall_fmap, Forall_forall; intros y Hy; apply below_sibling; by intros ->].
      rewrite E3, lookup_insert_ne by (intros E; apply (f_equal length) in E; rewrite !length_app in E; cbn in E; lia).
      rewrite (cp_vacant _ _ _ _ Hc). destruct (vol_tree v !! (src ++ x :: q)) as [e|] eqn:E; [|done]. destruct Hx.
      apply elem_of_children. rewrite (Hsrc _ A3). eapply rooted_top; [apply Hc|exact E].
  - split; [by apply Hcs| | |eapply clear_self; [exact A3|apply Hc]| |apply Hc|done|apply children_NoDup|].
    + unfold dir_at. by rewrite Hs3.
    + eapply rooted_agree; [exact A3| |apply Hc]. intros q. apply outside_one, below_apart; [done|apply Hc].
    + unfold dir_at. by rewrite E3, lookup_insert_eq.
    + intros x _ q. rewrite E3, lookup_insert_ne by (intros E; apply (f_equal length) in E; rewrite !length_app in E; cbn in E; lia).
      rewrite <- app_assoc. apply Hc.
Qed.

(** A copy to a vacant place touches only that place; when it succeeds the place holds the source. *)
Lemma copy_tree_spec fuel src p n v w r v' w' :
  copyable src p n (vol_tree v) -> copy_tree fuel (at_ src) (at_ (p ++ [n])) v w = (r, v', w') ->
  copied src (p ++ [n]) v r v'.
Proof.
  revert src p n v w r v' w'. induction fuel as [|fuel IH]; intros src p n v w r v' w' Hc H.
  { cbn in H. unfold fail in H. simplify_eq. apply copied_failed, only_refl. }
  destruct (vol_tree v !! src) as [e|] eqn:Hs.
  - destruct e; [by eapply copy_dir|by eapply copy_file|by eapply copy_link|].
    cbn [Generations.copy_tree] in H. apply bind_cases in H as (r1 & v1 & w1 & H1 & H). apply with_err_cases in H1 as (k1 & H1 & ->).
    apply ask_cases in H1 as [-> H1]. destruct k1 as [e|k]; cbn [map_err] in H; [|destruct H as (-> & -> & _); apply copied_failed, only_refl].
    specialize (H1 _ eq_refl). rewrite entry_clear, Hs in H1; [|by apply Hc|done]. injection H1 as <-.
    unfold fail in H. simplify_eq. apply copied_failed, only_refl.
  - cbn [Generations.copy_tree] in H. apply bind_cases in H as (r1 & v1 & w1 & H1 & H). apply with_err_cases in H1 as (k1 & H1 & ->).
    apply ask_cases in H1 as [-> H1]. destruct k1 as [e|k]; cbn [map_err] in H; [|destruct H as (-> & -> & _); apply copied_failed, only_refl].
    specialize (H1 _ eq_refl). rewrite entry_clear, Hs in H1; [done|by apply Hc|done].
Qed.

End Copy.
