(* ===== verification/OverlaySafety.v ===== *)
(** * Replacing a tree ([replace_tree] of [crates/machine-fabric-runtime/src/generation.rs])

    An overlay that replaces its target is copied beside it and exchanged with
    it by two renames. The old tree is never lost: at every moment it is at the
    target, or in the staging directory, or the new one is complete at the
    target. *)
From stdpp Require Import base gmap strings list sorting pretty.
From S2P Require Import Prelude Json Protocol PathPolicy FileTree FileTreeLaws Generations CopyTree.
Open Scope Z_scope.
Open Scope fabric_scope.

Section Exchange.
Context (pp : place) (n s : string) (Hns : n <> s).

Definition tg : place := pp ++ [n].
Definition stg : place := pp ++ [s].
Definition inc : place := stg ++ ["incoming"].
Definition prv : place := stg ++ ["previous"].

(** The target holds the old or the new tree, or the old one waits in the staging directory. *)
Definition moment (old new t : Tree) : Prop :=
  subtree tg t = old \/ subtree tg t = new \/ (vacant t tg /\ subtree prv t = old).

(** What an exchange has done when it returns. *)
Inductive exchanged (old new t' : Tree) : result RpcError unit -> Prop :=
| ex_replaced : subtree tg t' = new -> exchanged old new t' (Ok tt)
| ex_left_over e : subtree tg t' = new -> err_code e = "OVERLAY_CLEANUP_FAILED" -> exchanged old new t' (Err e)
| ex_kept e : subtree tg t' = old -> exchanged old new t' (Err e)
| ex_saved e : vacant t' tg -> subtree prv t' = old -> err_code e = "OVERLAY_RESTORE_FAILED" -> exchanged old new t' (Err e).

Lemma stg_tg q : below stg (tg ++ q) = None.
Proof. unfold stg, tg. rewrite <- app_assoc. by apply below_sibling. Qed.
Lemma tg_stg q : below tg (stg ++ q) = None.
Proof. unfold stg, tg. rewrite <- app_assoc. by apply below_sibling. Qed.
Lemma tg_inc q : below tg (inc ++ q) = None.
Proof. unfold inc. rewrite <- app_assoc. apply tg_stg. Qed.
Lemma tg_prv q : below tg (prv ++ q) = None.
Proof. unfold prv. rewrite <- app_assoc. apply tg_stg. Qed.
Lemma inc_tg q : below inc (tg ++ q) = None.
Proof. apply below_deeper, stg_tg. Qed.
Lemma prv_tg q : below prv (tg ++ q) = None.
Proof. apply below_deeper, stg_tg. Qed.
Lemma inc_prv q : below inc (prv ++ q) = None.
Proof. unfold inc, prv. rewrite <- app_assoc. by apply below_sibling. Qed.
Lemma prv_inc q : below prv (inc ++ q) = None.
Proof. unfold inc, prv. rewrite <- app_assoc. by apply below_sibling. Qed.
Lemma no_tail (f : place -> option place) p : (forall q, f (p ++ q) = None) -> f p = None.
Proof. intros H. specialize (H []). by rewrite app_nil_r in H. Qed.

Lemma subtree_agree ps t t' p : agree ps t t' -> (forall q, outside ps (p ++ q)) -> subtree p t' = subtree p t.
Proof. intros Ha Ho. apply map_eq. intros q. rewrite !lookup_subtree. apply Ha, Ho. Qed.
Lemma target_agree t t' : agree [stg] t t' -> subtree tg t' = subtree tg t.
Proof. intros Ha. eapply subtree_agree; [exact Ha|]. intros q. apply outside_one, stg_tg. Qed.

Lemma clear_inc t : clear t inc <-> clear t stg /\ dir_at t stg = true.
Proof. apply clear_snoc. Qed.
Lemma clear_tg t : clear t inc -> clear t tg.
Proof. intros [[Hp Hd]%clear_snoc _]%clear_inc. by apply clear_snoc. Qed.
Lemma clear_prv t : clear t inc -> clear t prv.
Proof. intros [Hs Hd]%clear_inc. by apply clear_snoc. Qed.

(** The exchange keeps the way to the staging directory. *)
Lemma way_kept t t' : agree [tg; inc; prv] t t' -> clear t inc -> clear t' inc.
Proof.
  intros Ha Hc q Hq Hne. unfold dir_at. rewrite Ha; [by apply Hc|]. apply prefix_snoc_inv in Hq as [->|Hq]; [done|].
  assert (q = stg \/ q `prefix_of` pp) as Hq'.
  { unfold stg in Hq. by apply prefix_snoc_inv in Hq. }
  unfold outside. rewrite !Forall_cons. split_and!; [|by apply below_above|by apply below_above|constructor].
  destruct Hq' as [->|Hq']; [exact (no_tail (below tg) _ tg_stg)|by apply below_above].
Qed.

Lemma cleanup_passes old new v w (r : result IoKind unit) v' w' :
  (subtree tg (vol_tree v) = old \/ subtree tg (vol_tree v) = new) -> clear (vol_tree v) inc ->
  Fs.remove_dir_all (at_ stg) v w = (r, v', w') ->
  passes (moment old new) v v' /\ subtree tg (vol_tree v') = subtree tg (vol_tree v) /\ only [stg] v v'.
Proof.
  intros Hm Hc H. apply remove_dir_all_only in H; [|by apply clear_inc]. split_and!; [|by eapply target_agree, only_agree|done].
  eapply only_passes; [|exact H]. intros t Ht. unfold moment. rewrite (target_agree _ _ Ht). tauto.
Qed.

(** The second rename of an exchange, and what follows it; [previous] holds the old tree when there was one. *)
Lemma place_incoming had old new v w r v' w' :
  clear (vol_tree v) inc -> subtree inc (vol_tree v) = new ->
  (if had : bool then vacant (vol_tree v) tg /\ subtree prv (vol_tree v) = old else subtree tg (vol_tree v) = old) ->
  (let* placed := attempt (Fs.rename (at_ inc) (at_ tg)) in
   match placed with
   | Err _ =>
       (if had then io_error "OVERLAY_RESTORE_FAILED" (at_ prv) (Fs.rename (at_ prv) (at_ tg)) else ret tt) ;;
       let* _ := attempt (F := RpcError) (Fs.remove_dir_all (at_ stg)) in
       fail (rpc_error "OVERLAY_REPLACE_FAILED" (display (at_ tg) +:+ ": "))
   | Ok _ => io_error "OVERLAY_CLEANUP_FAILED" (at_ stg) (Fs.remove_dir_all (at_ stg))
   end) v w = (r, v', w') ->
  passes (moment old new) v v' /\ exchanged old new (vol_tree v') r /\ only [tg; stg] v v'.
Proof.
  intros Hc Hnew Hold H. assert (forall a b, only [stg] a b -> only [tg; stg] a b) as Hup.
  { intros a b. apply only_mono. constructor; [right; by left|constructor]. }
  apply bind_cases in H as (r1 & v1 & w1 & H1 & H). apply attempt_cases in H1 as (r0 & -> & H1).
  apply rename_at in H1; [|done|by apply clear_tg]. destruct H1 as [(k & -> & ->)|(t & Ht & -> & ->)].
  - destruct had.
    + apply bind_cases in H as (r2 & v2 & w2 & H2 & H). apply with_err_cases in H2 as (r3 & H2 & ->).
      apply rename_at in H2; [|by apply clear_prv|by apply clear_tg]. destruct Hold as [Hv Hp]. destruct H2 as [(k2 & -> & ->)|(t & Ht & -> & ->)].
      { destruct H as (-> & -> & _). split_and!; [apply passes_refl|by eapply ex_saved|apply only_refl]. }
      apply rename_tree_ok in Ht as (_ & Hb & _ & -> & _); [|intros E; pose proof (no_tail (below prv) _ prv_tg) as Hx; by rewrite E, below_self in Hx].
      cbn [map_err] in H. set (v2 := log v _) in H. assert (subtree tg (vol_tree v2) = old) as Hr by (unfold v2; cbn; by rewrite subtree_graft).
      apply bind_cases in H as (r4 & v4 & w4 & H4 & H). apply attempt_cases in H4 as (r5 & -> & H4). unfold fail in H. injection H as <- <- <-.
      apply (cleanup_passes old new) in H4 as (Hpass & Hsub & O4); [|by left|].
      * split_and!; [|apply ex_kept; by rewrite Hsub|].
        -- eapply passes_trans; [apply passes_log; by left|exact Hpass].
        -- etrans; [|by apply Hup]. apply only_log. eapply agree_mono; [|apply agree_rename].
           constructor; [right; left; by apply prefix_app_r|]. constructor; [by left|constructor].
      * eapply way_kept; [|exact Hc]. eapply agree_mono; [|apply agree_rename]. constructor; [do 2 right; by left|]. constructor; [by left|constructor].
    + apply bind_cases in H as (r2 & v2 & w2 & H2 & H). unfold ret in H2. injection H2 as <- <- <-.
      apply bind_cases in H as (r4 & v4 & w4 & H4 & H). apply attempt_cases in H4 as (r5 & -> & H4). unfold fail in H. injection H as <- <- <-.
      apply (cleanup_passes old new) in H4 as (Hpass & Hsub & O4); [|by left|done]. split_and!; [done|apply ex_kept; by rewrite Hsub|by apply Hup].
  - apply rename_tree_ok in Ht as (_ & Hb & _ & -> & _); [|intros E; pose proof (no_tail (below inc) _ inc_tg) as Hx; by rewrite E, below_self in Hx].
    set (v2 := log v _) in H. assert (subtree tg (vol_tree v2) = new) as Hr by (unfold v2; cbn; by rewrite subtree_graft).
    apply with_err_cases in H as (r2 & H & ->). apply (cleanup_passes old new) in H as (Hpass & Hsub & O4); [|by right|].
    + split_and!.
      * eapply passes_trans; [apply passes_log; right; by left|exact Hpass].
      * destruct r2 as [[]|k]; [apply ex_replaced|apply ex_left_over; [|done]]; by rewrite Hsub.
      * etrans; [|by apply Hup]. apply only_log. eapply agree_mono; [|apply agree_rename].
        constructor; [right; left; by apply prefix_app_r|]. constructor; [by left|constructor].
    + eapply way_kept; [|exact Hc]. eapply agree_mono; [|apply agree_rename]. constructor; [right; by left|]. constructor; [by left|constructor].
Qed.

Lemma exchange_spec old new v w r v' w' :
  clear (vol_tree v) inc -> subtree inc (vol_tree v) = new -> subtree tg (vol_tree v) = old ->
  exchange (at_ tg) (at_ stg) (at_ inc) (at_ prv) v w = (r, v', w') ->
  passes (moment old new) v v' /\ exchanged old new (vol_tree v') r /\ only [tg; stg] v v'.
Proof.
  intros Hc Hnew Hold H. unfold exchange in H. apply bind_cases in H as (r1 & v1 & w1 & H1 & H).
  apply test_cases in H1 as (k1 & H1 & ->). apply ask_cases in H1 as [-> _].
  apply bind_cases in H as (r2 & v2 & w2 & H2 & H).
  assert (v2 = v /\ exists had, r2 = Ok had) as [-> [had ->]].
  { destruct (match k1 with Ok _ => true | Err _ => false end); [unfold ret in H2; simplify_eq; by eauto|].
    apply test_cases in H2 as (k2 & H2 & ->). apply ask_cases in H2 as [-> _]. by eauto. }
  apply bind_cases in H as (r3 & v3 & w3 & H3 & H). destruct had.
  - apply attempt_cases in H3 as (r0 & -> & H3). apply rename_at in H3; [|by apply clear_tg|by apply clear_prv].
    destruct H3 as [(k & -> & ->)|(t & Ht & -> & ->)].
    + apply bind_cases in H as (r4 & v4 & w4 & H4 & H). apply attempt_cases in H4 as (r5 & -> & H4). unfold fail in H. injection H as <- <- <-.
      apply (cleanup_passes old new) in H4 as (Hpass & Hsub & O4); [|by left|done].
      split_and!; [done|apply ex_kept; by rewrite Hsub|]. eapply only_mono; [|exact O4]. constructor; [right; by left|constructor].
    + apply rename_tree_ok in Ht as (_ & _ & _ & -> & _); [|intros E; pose proof (no_tail (below tg) _ tg_prv) as Hx; by rewrite E, below_self in Hx].
      set (v3 := log v _) in H. assert (agree [tg; prv] (vol_tree v) (vol_tree v3)) as A3 by apply agree_rename.
      assert (vacant (vol_tree v3) tg /\ subtree prv (vol_tree v3) = old) as Hsaved.
      { unfold v3. cbn. split; [intros q; apply rename_gone, prv_tg|by rewrite subtree_graft]. }
      apply (place_incoming true old new) in H as (Hpass & Hex & O).
      * split_and!; [|done|].
        -- eapply passes_trans; [apply passes_log; right; by right|exact Hpass].
        -- etrans; [|exact O]. apply only_log. eapply agree_mono; [|exact A3].
           constructor; [by left|]. constructor; [right; left; by apply prefix_app_r|constructor].
      * eapply way_kept; [|exact Hc]. eapply agree_mono; [|exact A3]. constructor; [by left|]. constructor; [do 2 right; by left|constructor].
      * rewrite <- Hnew. eapply subtree_agree; [exact A3|]. intros q. unfold outside. rewrite !Forall_cons.
        split_and!; [apply tg_inc|apply prv_inc|constructor].
      * done.
  - unfold ret in H3. injection H3 as <- <- <-. by apply (place_incoming false old new) in H.
Qed.

End Exchange.

Section Replace.
Context (torn : string -> string) (pid : Z).

Definition staging_name (now : Z) : string := ".overlay-" +:+ pid_text pid +:+ "-" +:+ pretty now.

(** Where a replacement may run: the source and the parent of the target are reached without links. *)
Record replaceable (src pp : place) (n : string) (t : Tree) : Prop := mk_replaceable {
  rp_tree : tree_wf t;
  rp_source : clear t src;
  rp_no_link : is_link_at t src = false;
  rp_parent : clear t pp;
  rp_parent_dir : dir_at t pp = true;
  rp_name : starts_with ".overlay-" n = false;
}.

Lemma canonicalize_at p v w q v' w' :
  clear (vol_tree v) p -> is_link_at (vol_tree v) p = false ->
  Fs.canonicalize (at_ p) v w = (q, v', w') -> v' = v /\ (forall x, q = Ok x -> x = at_ p /\ is_Some (vol_tree v !! p)).
Proof.
  intros Hc Hl [-> H]%ask_cases. split; [done|]. intros x ->. specialize (H _ eq_refl). rewrite entry_clear in H by done.
  destruct (vol_tree v !! p); [|done]. cbn in H. by simplify_eq.
Qed.

Lemma prefix_own a b : String.prefix a (a +:+ b) = true.
Proof. induction a as [|c a IH]; [by destruct b|]. rewrite string_app_cons. cbn. by destruct (Ascii.ascii_dec c c). Qed.
Lemma is_prefix_places (a b : place) : is_prefix (Normal <$> a) (Normal <$> b) = false -> below a b = None.
Proof.
  revert b. induction a as [|x a IH]; intros b; [done|]. destruct b as [|y b]; [done|]. cbn.
  destruct (String.eqb_spec x y) as [->|]; [|done]. rewrite bool_decide_true by done. apply IH.
Qed.

(** Staging the copy and exchanging it. *)
Lemma stage_and_exchange fuel src pp n s v w r v' w' :
  replaceable src pp n (vol_tree v) -> n <> s -> below src pp = None -> is_Some (vol_tree v !! src) ->
  (io_error "OVERLAY_REPLACE_FAILED" (at_ (pp ++ [s])) (Fs.create_dir (at_ (pp ++ [s]))) ;;
   let* copied := attempt (copy_tree torn fuel (at_ src) (at_ (inc pp s))) in
   match copied with
   | Err error => let* _ := attempt (F := RpcError) (Fs.remove_dir_all (at_ (stg pp s))) in fail error
   | Ok _ => exchange (at_ (tg pp n)) (at_ (stg pp s)) (at_ (inc pp s)) (at_ (prv pp s))
   end) v w = (r, v', w') ->
  let old := subtree (tg pp n) (vol_tree v) in
  let new := subtree src (vol_tree v) in
  passes (moment pp n s old new) v v' /\ exchanged pp n s old new (vol_tree v') r /\ only [tg pp n; stg pp s] v v'.
Proof.
  intros [] Hns Hb Hsrc H old new. apply bind_cases in H as (r1 & v1 & w1 & H1 & H). apply with_err_cases in H1 as (k1 & H1 & ->).
  assert (forall a b, only [stg pp s] a b -> only [tg pp n; stg pp s] a b) as Hup.
  { intros a b. apply only_mono. constructor; [right; by left|constructor]. }
  assert (forall a b, only [stg pp s] a b -> subtree (tg pp n) (vol_tree a) = old -> passes (moment pp n s old new) a b /\ subtree (tg pp n) (vol_tree b) = old) as Hstay.
  { intros a b O Ha. split; [|by rewrite (target_agree pp n s Hns _ _ (only_agree _ _ _ O))].
    eapply only_passes; [|exact O]. intros t Ht. left. by rewrite (target_agree pp n s Hns _ _ Ht). }
  unfold Fs.create_dir in H1. rewrite bind_get in H1. apply sys_cases in H1 as [(k & -> & ->)|(u & t & Ht & -> & ->)].
  { destruct H as (-> & -> & _). split_and!; [apply passes_refl|by apply ex_kept|apply only_refl]. }
  fold (stg pp s) in Ht. rewrite vacancy_clear in Ht by (by apply clear_snoc).
  destruct (vol_tree v !! stg pp s) eqn:Hvac; [done|]. unfold stg in Ht at 1. rewrite parent_snoc, rp_parent_dir0 in Ht. injection Ht as _ <-.
  cbn [map_err] in H. set (v1 := log v _) in H. assert (only [stg pp s] v v1) as O1 by apply only_log, agree_insert.
  pose proof (only_agree _ _ _ O1) as A1. destruct (Hstay _ _ O1 eq_refl) as [P1 S1].
  assert (vacant (vol_tree v) (stg pp s)) as Hv.
  { intros [|x q]; [by rewrite app_nil_r|]. apply wf_under_nondir; [done|]. unfold dir_at. by rewrite Hvac. }
  assert (below (stg pp s) src = None) as Hss by (by eapply vacant_apart).
  assert (below src (stg pp s) = None) as Hss'.
  { apply below_prefix. intros [->|Hp]%prefix_snoc_inv; [unfold stg in Hvac; by rewrite Hvac in Hsrc; destruct Hsrc|by apply below_prefix in Hb]. }
  assert (forall q, outside [stg pp s] (src ++ q)) as Hout by (intros q; by apply outside_one, below_apart).
  apply bind_cases in H as (r2 & v2 & w2 & H2 & H). apply attempt_cases in H2 as (k2 & -> & H2).
  apply (copy_tree_spec torn fuel src (stg pp s) "incoming") in H2 as [O2 C2].
  - assert (only [stg pp s] v1 v2) as O2'. { eapply only_mono; [|exact O2]. constructor; [left; by apply prefix_app_r|constructor]. }
    assert (clear (vol_tree v2) (inc pp s)) as Hc2. { eapply clear_self; [by eapply only_agree|]. apply clear_snoc. split; [by eapply clear_self; [exact A1|apply clear_snoc]|]. unfold v1, dir_at. cbn. by rewrite lookup_insert_eq. }
    destruct (Hstay _ _ O2' S1) as [P2 S2]. pose proof (passes_trans _ _ _ _ P1 P2) as P. pose proof (only_trans _ _ _ _ O1 O2') as O.
    destruct k2 as [[]|e].
    + assert (subtree (inc pp s) (vol_tree v2) = new) as Hnew by (unfold inc; rewrite C2 by done; by eapply subtree_agree).
      destruct (exchange_spec pp n s Hns old new _ _ _ _ _ Hc2 Hnew S2 H) as (P3 & E3 & O3).
      split_and!; [by eapply passes_trans|done|etrans; [by apply Hup|exact O3]].
    + apply bind_cases in H as (r4 & v4 & w4 & H4 & H). apply attempt_cases in H4 as (r5 & -> & H4). unfold fail in H. injection H as <- <- <-.
      destruct (cleanup_passes pp n s Hns old new _ _ _ _ _ (or_introl S2) Hc2 H4) as (P3 & Hsub & O4).
      split_and!; [by eapply passes_trans|apply ex_kept; by rewrite Hsub|apply Hup; by etrans].
  - split.
    + eapply clear_outside; [exact A1| |done]. specialize (Hout []). by rewrite app_nil_r in Hout.
    + eapply rooted_agree; [exact A1|exact Hout|by apply rooted_wf].
    + apply clear_snoc. split; [by eapply clear_self; [exact A1|apply clear_snoc]|]. unfold v1, dir_at. cbn. by rewrite lookup_insert_eq.
    + intros q. unfold v1. cbn. rewrite lookup_insert_ne by (intros E; apply (f_equal length) in E; rewrite !length_app in E; cbn in E; lia).
      rewrite <- app_assoc. apply Hv.
    + by apply below_apart.
Qed.

(** C11: replacing a tree never loses it. At every moment of a replacement, whatever fails, the target
    holds the old tree or the complete copy of the source, or the old tree waits in the staging
    directory; the old tree is gone only when the copy is in place, which the result says. *)
Theorem replacement_never_loses_the_tree fuel src pp n v w r v' w' :
  replaceable src pp n (vol_tree v) ->
  replace_tree torn pid fuel (at_ src) (at_ (pp ++ [n])) v w = (r, v', w') ->
  exists now, let s := staging_name now in
  let old := subtree (pp ++ [n]) (vol_tree v) in
  let new := subtree src (vol_tree v) in
  passes (moment pp n s old new) v v' /\ exchanged pp n s old new (vol_tree v') r /\
  agree [pp ++ [n]; pp ++ [s]] (vol_tree v) (vol_tree v').
Proof.
  intros [] H. unfold replace_tree in H.
  set (old := subtree (pp ++ [n]) (vol_tree v)). set (new := subtree src (vol_tree v)).
  assert (forall e, exists now, let s := staging_name now in
    passes (moment pp n s old new) v v /\ exchanged pp n s old new (vol_tree v) (Err e) /\
    agree [pp ++ [n]; pp ++ [s]] (vol_tree v) (vol_tree v)) as Hkept.
  { intros e. exists 0. split_and!; [apply passes_refl|by apply ex_kept|apply agree_refl]. }
  rewrite path_parent_at in H. apply bind_cases in H as (r1 & v1 & w1 & H1 & H). unfold lift in H1. cbn in H1. injection H1 as <- <- <-.
  apply bind_cases in H as (r2 & v2 & w2 & H2 & H). unfold io_error, with_err in H2. rewrite create_dir_all_present in H2 by done.
  injection H2 as <- <- <-. cbn [map_err] in H.
  apply bind_cases in H as (r3 & v3 & w3 & H3 & H). apply with_err_cases in H3 as (k3 & H3 & ->).
  apply canonicalize_at in H3 as [-> H3]; [|done..]. destruct k3 as [sr|k]; cbn [map_err] in H; [|destruct H as (-> & -> & _); apply Hkept].
  destruct (H3 _ eq_refl) as [-> Hsrc]. apply bind_cases in H as (r4 & v4 & w4 & H4 & H). apply with_err_cases in H4 as (k4 & H4 & ->).
  apply canonicalize_at in H4 as [-> H4]; [|done|apply dir_at_Some in rp_parent_dir0 as [m Hm]; unfold is_link_at; by rewrite Hm].
  destruct k4 as [pr|k]; cbn [map_err] in H; [|destruct H as (-> & -> & _); apply Hkept]. destruct (H4 _ eq_refl) as [-> _].
  destruct (within (at_ pp) (at_ src)) eqn:Hwi; [unfold fail in H; injection H as <- <- <-; apply Hkept|].
  apply bind_cases in H as (r5 & v5 & w5 & H5 & H). unfold now_ms in H5. injection H5 as <- <- <-. set (now := peek (w_wall w4)) in H.
  exists now. cbv zeta. fold (staging_name now) in H. rewrite !join_at in H.
  assert (n <> staging_name now) as Hns by (intros E; rewrite E in rp_name0; apply not_true_iff_false in rp_name0; apply rp_name0; unfold staging_name, starts_with; by rewrite prefix_own).
  apply stage_and_exchange in H as (? & ? & ?%only_agree); [done|done|done|by apply is_prefix_places|done].
Qed.

End Replace.
