(* ===== verification/MaterializeSafety.v ===== *)
(** * Materializing a generation ([materialize] of [crates/machine-fabric-runtime/src/generation.rs])

    A generation appears under its name in one step, with the complete copy of
    the baseline and the marker that says so; asked for again it is found. *)
From stdpp Require Import base gmap strings list sorting pretty.
From S2P Require Import Prelude Json Protocol PathPolicy Store FileTree FileTreeLaws Generations CopyTree.
Open Scope Z_scope.
Open Scope fabric_scope.

(** ** Calls that read, when nothing fails *)

Lemma ask_good {A} (f : Tree -> result IoKind A) v w :
  io_good w -> exists w', ask f v w = (f (vol_tree v), v, w') /\ io_good w'.
Proof.
  intros Hw. unfold ask. munfold. rewrite io_good_peek by done. eexists. split; [done|]. by apply io_good_next.
Qed.
Lemma tree_read_good p q m data v w :
  io_good w -> entry (vol_tree v) true p = Ok (q, EFile m data) ->
  exists w', Fs.read p v w = (Ok data, v, w') /\ io_good w'.
Proof. intros Hw He. unfold Fs.read. edestruct (ask_good (A := string)) as (w' & -> & ?); [done|]. exists w'. by rewrite He. Qed.
Lemma metadata_good p q e v w :
  io_good w -> entry (vol_tree v) true p = Ok (q, e) -> exists w', Fs.metadata p v w = (Ok e, v, w') /\ io_good w'.
Proof. intros Hw He. unfold Fs.metadata. edestruct (ask_good (A := Entry)) as (w' & -> & ?); [done|]. exists w'. by rewrite He. Qed.

Section Materialize.
Context (to_vec_pretty : Value -> string) (from_slice : string -> option Value).
Context (torn : string -> string) (pid : Z).
#[local] Abbreviation materialize := (materialize to_vec_pretty from_slice torn pid).

Section Places.
Context (r bp : place) (id bn : string).

Definition gens : place := r ++ ["generations"].
Definition home : place := gens ++ [id].
Definition temp : place := gens ++ ["." +:+ id +:+ "." +:+ pid_text pid +:+ ".tmp"].
Definition base : place := bp ++ [bn].
Definition app_name : string := application_name bn.

(** Where a new generation can be made: its place is free, and the baseline does not contain it. *)
Record deployable (t : Tree) : Prop := mk_deployable {
  dp_tree : tree_wf t;
  dp_root : clear t r;
  dp_root_dir : dir_at t r = true;
  dp_no_link : is_link_at t gens = false;
  dp_free : vacant t home;
  dp_base : clear t base;
  dp_base_there : is_Some (t !! base);
  dp_apart : below base gens = None;
  dp_id : component_of id = Normal id;
  dp_name : app_name <> "generation.json";
}.

(** The generation is at its place, with all of the baseline and its marker. *)
Definition whole (t0 : Tree) (created : Z) (t : Tree) : Prop :=
  dir_at t home = true /\ subtree (home ++ [app_name]) t = subtree base t0 /\
  exists m, t !! (home ++ ["generation.json"]) = Some (EFile m (to_vec_pretty (materialized_marker id app_name (at_ base) created))).

Definition generation (created : Z) : MaterializedGeneration :=
  mkMaterializedGeneration id (at_ home) (at_ (home ++ [app_name])) (at_ (home ++ ["generation.json"])) created.

Lemma temp_not_home : "." +:+ id +:+ "." +:+ pid_text pid +:+ ".tmp" <> id.
Proof.
  intros H. apply (f_equal String.length) in H. rewrite !string_length_app in H. cbn [String.length] in H. lia.
Qed.
Lemma temp_home q : below temp (home ++ q) = None.
Proof. unfold temp, home. rewrite <- app_assoc. apply below_sibling, temp_not_home. Qed.
Lemma vacant_temp t t' : agree [temp] t t' -> vacant t home -> vacant t' home.
Proof. intros Ha Hv q. rewrite Ha; [apply Hv|apply outside_one, temp_home]. Qed.

(** The directory of the generations is there, and the generation is not. *)
Record buildable (t : Tree) : Prop := mk_buildable {
  bd_tree : tree_wf t;
  bd_gens : clear t gens;
  bd_gens_dir : dir_at t gens = true;
  bd_free : vacant t home;
  bd_base : clear t base;
  bd_base_there : is_Some (t !! base);
  bd_apart : below base gens = None;
}.

Lemma longer (p : place) x q : p <> p ++ x :: q.
Proof. intros E. apply (f_equal length) in E. rewrite length_app in E. cbn in E. lia. Qed.

(** The new temporary directory is a place for the copy. *)
Lemma temp_copyable t m :
  buildable t -> t !! temp = None ->
  let t1 := <[temp := EDir m]> t in
  copyable base temp app_name t1 /\ subtree base t1 = subtree base t /\ (forall x, t1 !! (temp ++ [x]) = None).
Proof.
  intros [] Hn. pose proof (vacant_wf _ _ bd_tree0 Hn) as Hvt. pose proof (vacant_apart _ _ _ Hvt bd_base_there0) as Htb.
  assert (below base temp = None) as Hbt.
  { apply below_prefix. intros [E|Hp]%prefix_snoc_inv; [|by apply below_prefix in bd_apart0]. change (base = temp) in E.
    rewrite E, Hn in bd_base_there0. by destruct bd_base_there0. }
  pose proof (agree_insert temp (EDir m) t) as A. assert (forall q, outside [temp] (base ++ q)) as Hout by (intros q; by apply outside_one, below_apart).
  assert (forall q x, <[temp := EDir m]> t !! (temp ++ x :: q) = None) as Hin. { intros q x. rewrite lookup_insert_ne by apply longer. apply Hvt. }
  assert (clear t temp) as Hct by (by apply clear_snoc). cbv zeta. split_and!; [split| |intros x; apply Hin].
  - eapply clear_outside; [exact A| |done]. specialize (Hout []). by rewrite app_nil_r in Hout.
  - by apply rooted_wf, wf_insert_dir.
  - apply clear_snoc. split; [by eapply clear_self|]. unfold dir_at. by rewrite lookup_insert_eq.
  - intros q. rewrite <- app_assoc. apply Hin.
  - by apply below_apart.
  - apply map_eq. intros q. rewrite !lookup_subtree. apply A, Hout.
Qed.

(** Renamed, the temporary directory with the copy and the marker is the generation. *)
Lemma renamed_whole t0 created t m :
  app_name <> "generation.json" -> dir_at t temp = true -> subtree (temp ++ [app_name]) t = subtree base t0 ->
  let marked := <[temp ++ ["generation.json"] := EFile m (to_vec_pretty (materialized_marker id app_name (at_ base) created))]> t in
  whole t0 created (graft home (subtree temp marked) (prune temp marked)).
Proof.
  intros Hname Hd Hsub marked. pose proof (temp_home []) as Hth. rewrite app_nil_r in Hth. split_and!.
  - unfold dir_at. rewrite rename_arrives by done. unfold marked. rewrite lookup_insert_ne; [done|]. intros E. symmetry in E. by apply longer in E.
  - apply map_eq. intros q. rewrite lookup_subtree, <- app_assoc, rename_moves, app_assoc by done.
    unfold marked. rewrite lookup_insert_ne by (intros E; rewrite <- !app_assoc in E; apply app_inv_head in E; by injection E).
    rewrite <- Hsub. by rewrite lookup_subtree.
  - exists m. rewrite rename_moves by done. unfold marked. by rewrite lookup_insert_eq.
Qed.

(** The copy in the temporary directory and the rename of the directory. *)
Lemma build_spec fuel v w g v' w' t0 :
  buildable (vol_tree v) -> component_of id = Normal id -> app_name <> "generation.json" ->
  subtree base (vol_tree v) = subtree base t0 ->
  build_generation to_vec_pretty torn pid fuel (at_ gens) id (at_ base) v w = (Ok g, v', w') ->
  exists created, g = generation created /\ whole t0 created (vol_tree v') /\
    passes (fun t => vacant t home \/ whole t0 created t) v v' /\ agree [temp; home] (vol_tree v) (vol_tree v').
Proof.
  intros Hb Hid Hname Hsub H. pose proof Hb as []. unfold build_generation in H. rewrite Hid, push_at, !join_at in H.
  fold temp home in H. mstep H u1 v1 w1 H1. apply with_err_cases in H1 as (k1 & H1 & Hk1). destruct k1 as [[]|]; [|done]. clear Hk1 u1.
  assert (clear (vol_tree v) temp) as Hct by (by apply clear_snoc).
  apply create_dir_at in H1 as [(k & ? & _)|(m & _ & Hn & ->)]; [done| |done].
  destruct (temp_copyable _ m Hb Hn) as (Hcp & Hsub1 & Hin). set (v1 := log v _) in H.
  assert (only [temp] v v1) as O1 by apply only_log, agree_insert.
  assert (dir_at (vol_tree v1) temp = true /\ clear (vol_tree v1) temp) as [Hd1 Hc1].
  { split; [unfold v1, dir_at; cbn; by rewrite lookup_insert_eq|]. eapply clear_self; [by eapply only_agree|done]. }
  assert (path_name (at_ base) = Some bn) as Hpn. { unfold path_name, at_, base. cbn. by rewrite fmap_app, rev_app_distr. }
  mlift H name Hl. rewrite Hpn in Hl. cbn in Hl. injection Hl as <-. fold app_name in H.
  mstep H copied2 v2 w2 H2. apply attempt_cases in H2 as (k2 & Hk2 & H2). injection Hk2 as ->. rewrite join_at in H2.
  apply (copy_tree_spec torn fuel base temp app_name) in H2 as [O2 C2]; [|done].
  destruct k2 as [[]|e]; [|mstep H x1 y1 z1 Hx1; mstep H x2 y2 z2 Hx2; by mstep H x3 y3 z3 Hx3]. specialize (C2 eq_refl).
  mstep H created v3 w3 H3. unfold now_ms in H3. injection H3 as Hcr <- <-. clear Hcr.
  mstep H u4 v4 w4 H4. apply with_err_cases in H4 as (k4 & H4 & Hk4). destruct k4 as [[]|]; [|done]. clear Hk4 u4.
  assert (outside [temp ++ [app_name]] temp) as Hot by (by apply outside_one, below_above).
  assert (clear (vol_tree v2) temp /\ dir_at (vol_tree v2) temp = true) as [Hc2 Hd2].
  { split; [by eapply clear_outside; [eapply only_agree| |]|]. unfold dir_at. by rewrite (only_agree _ _ _ O2). }
  apply write_vacant in H4 as [O4 C4]; [|by apply clear_snoc|].
  2:{ rewrite (only_agree _ _ _ O2); [apply Hin|by apply outside_one, below_sibling']. }
  destruct (C4 eq_refl) as [m4 E4]. clear C4.
  mstep H u5 v5 w5 H5. apply with_err_cases in H5 as (k5 & H5 & Hk5). destruct k5 as [[]|]; [|done]. clear Hk5 u5.
  unfold ret in H. rewrite ?join_at in H. injection H as <- <- <-. assert (only [temp] v v4) as O.
  { etrans; [exact O1|]. etrans; (eapply only_mono; [|eassumption]); (constructor; [left; by apply prefix_app_r|constructor]). }
  assert (clear (vol_tree v4) temp) as Hc4 by (eapply clear_self; [by eapply only_agree|done]).
  assert (clear (vol_tree v4) home) as Hch. { unfold temp in Hc4. apply clear_snoc in Hc4 as [? ?]. by apply clear_snoc. }
  apply rename_at in H5 as [(k & ? & _)|(t & Ht & _ & ->)]; [done| |done..].
  pose proof (temp_home []) as Hth. rewrite app_nil_r in Hth.
  apply rename_tree_ok in Ht as (_ & _ & _ & -> & _); [|intros E; by rewrite E, below_self in Hth].
  assert (whole t0 created (graft home (subtree temp (vol_tree v4)) (prune temp (vol_tree v4)))) as Hwhole.
  { rewrite E4. apply renamed_whole; [done|done|]. rewrite C2, <- Hsub. exact Hsub1. }
  exists created. split_and!; [done|done| |].
  - eapply passes_trans; [|apply passes_log; by right]. eapply only_passes; [|exact O]. intros t Ht. left. by eapply vacant_temp.
  - eapply agree_trans; [eapply agree_mono; [|by eapply only_agree]|apply agree_rename]. constructor; [by left|constructor].
Qed.

(** A complete generation is found again. *)
Lemma reuse_spec t0 created v w :
  io_good w -> clear (vol_tree v) home -> whole t0 created (vol_tree v) ->
  (let m := materialized_marker id app_name (at_ base) created in from_slice (to_vec_pretty m) = Some m) ->
  exists w', reuse_generation from_slice id (at_ home) v w = (Ok (generation created), v, w').
Proof.
  intros Hw Hc (Hd & _ & m & Hm) Hcodec. unfold reuse_generation, read_marker. rewrite join_at.
  destruct (tree_read_good (at_ (home ++ ["generation.json"])) (home ++ ["generation.json"]) m
    (to_vec_pretty (materialized_marker id app_name (at_ base) created)) v w Hw) as (w1 & H1 & _).
  { rewrite entry_clear, Hm; [done|by apply clear_snoc|unfold is_link_at; by rewrite Hm]. }
  exists w1. unfold bind, io_error, with_err. rewrite H1. cbn [map_err]. unfold lift. rewrite Hcodec.
  cbn [ok_or]. unfold ret. cbn. rewrite bool_decide_true by done. by rewrite join_at.
Qed.

Lemma materialize_spec fuel v w g v' w' :
  deployable (vol_tree v) -> materialize fuel (at_ r) id (at_ base) v w = (Ok g, v', w') ->
  validate_generation_id id = Ok tt /\ path_name (at_ r) <> Some "generations" /\
  clear (vol_tree v') home /\ dir_at (vol_tree v') gens = true /\
  exists created, g = generation created /\ whole (vol_tree v) created (vol_tree v') /\
    passes (fun t => vacant t home \/ whole (vol_tree v) created t) v v' /\ agree [gens] (vol_tree v) (vol_tree v').
Proof.
  intros [] H. unfold Generations.materialize in H. mlift H u Hval. destruct u. split; [done|].
  destruct (bool_decide_reflect (path_name (at_ r) = Some "generations")) as [|Hnr]; [done|]. split; [done|].
  rewrite join_at in H. fold gens in H. mstep H u1 v1 w1 H1. apply with_err_cases in H1 as (k1 & H1 & Hk1). destruct k1 as [[]|]; [|done]. clear Hk1 u1.
  assert (clear (vol_tree v) gens) as Hcg by (by apply clear_snoc).
  apply create_dir_all_at in H1; [|done..]. rewrite dp_id0, push_at in H. fold home in H.
  assert (agree [gens] (vol_tree v) (vol_tree v1) /\ passes (fun t => vacant t home) v v1 /\ buildable (vol_tree v1) /\
          subtree base (vol_tree v1) = subtree base (vol_tree v)) as (A1 & P1 & Hb1 & Hs1).
  { destruct H1 as [[-> Hd1]|(m & Hn & ->)]; [split_and!; first [done | apply agree_refl | apply passes_refl]|].
    assert (vacant (<[gens := EDir m]> (vol_tree v)) home) as Hvac.
    { intros q. rewrite lookup_insert_ne; [apply dp_free0|]. unfold home. rewrite <- app_assoc. apply longer. }
    assert (forall q, gens <> base ++ q) as Hne. { intros q E. by rewrite E, below_app in dp_apart0. }
    split_and!; [apply agree_insert|by apply passes_log|split; try done|].
    - by apply wf_insert_dir.
    - by eapply clear_self; [apply agree_insert|].
    - unfold dir_at. cbn. by rewrite lookup_insert_eq.
    - eapply clear_dirs; [|done]. intros q _. unfold dir_at. cbn. rewrite lookup_insert. by case_decide.
    - cbn. rewrite lookup_insert_ne; [done|]. specialize (Hne []). by rewrite app_nil_r in Hne.
    - apply map_eq. intros q. rewrite !lookup_subtree. cbn. by rewrite lookup_insert_ne. }
  pose proof Hb1 as [_ Hc1 Hd1 Hf1 _ _ _].
  mstep H present v2 w2 H2. apply test_cases in H2 as (k2 & H2 & Hk2). apply ask_cases in H2 as [-> H2]. injection Hk2 as ->.
  assert (match k2 with Ok _ => true | Err _ => false end = false) as E2.
  { destruct k2 as [e|]; [|done]. specialize (H2 _ eq_refl).
    rewrite entry_clear, vacant_lookup in H2; [done|done|by apply clear_snoc|intros _; by apply vacant_not_link]. }
  rewrite E2 in H. apply (build_spec fuel _ _ _ _ _ (vol_tree v)) in H as (created & -> & Hwh & Hp & Ha); [|done..].
  assert (clear (vol_tree v') gens /\ dir_at (vol_tree v') gens = true) as [Hcg' Hdg'].
  { apply (clear_agree gens ["." +:+ id +:+ "." +:+ pid_text pid +:+ ".tmp"; id] (vol_tree v1)); done. }
  split_and!; [by apply clear_snoc|done|]. exists created. split_and!; [done|done| |].
  - eapply passes_trans; [|exact Hp]. destruct P1 as (st & Hst & F). exists st. split; [done|]. eapply Forall_impl; [exact F|]. by left.
  - eapply agree_trans; [exact A1|]. eapply agree_mono; [|exact Ha]. constructor; [left; by apply prefix_app_r|]. constructor; [left; by apply prefix_app_r|constructor].
Qed.

(** a generation is materialized completely or not at all. It appears at its place in one step, with
    a marker and the complete copy of the baseline; nothing outside the directory of the generations
    changes; and asking for it again finds it and changes nothing. *)
Theorem materialized_generation_is_complete fuel v w g v' w' :
  (forall created, let m := materialized_marker id app_name (at_ base) created in from_slice (to_vec_pretty m) = Some m) ->
  deployable (vol_tree v) -> materialize fuel (at_ r) id (at_ base) v w = (Ok g, v', w') ->
  (exists created, g = generation created /\ whole (vol_tree v) created (vol_tree v') /\
     passes (fun t => vacant t home \/ whole (vol_tree v) created t) v v') /\
  agree [gens] (vol_tree v) (vol_tree v') /\
  (forall fuel' w2, io_good w2 -> exists w3, materialize fuel' (at_ r) id (at_ base) v' w2 = (Ok g, v', w3)).
Proof.
  intros Hcodec Hdp H. pose proof (dp_id _ Hdp) as Hid.
  apply materialize_spec in H as (Hval & Hnr & Hch & Hdg & created & -> & Hwh & Hp & Ha); [|done].
  split_and!; [by exists created|done|]. intros fuel' w2 Hw2. unfold Generations.materialize.
  rewrite join_at, Hid, push_at. fold gens home. unfold bind at 1, lift. rewrite Hval, bool_decide_false by done.
  pose proof Hch as Hcg. unfold home in Hcg. apply clear_snoc in Hcg as [Hcg _].
  unfold bind at 1, io_error, with_err. rewrite create_dir_all_present by done. cbn [map_err].
  pose proof Hwh as (Hd & _). apply dir_at_Some in Hd as [m Hm].
  destruct (metadata_good (at_ home) home (EDir m) v' w2 Hw2) as (w3 & H3 & Hw3).
  { rewrite entry_clear, Hm; [done|done|unfold is_link_at; by rewrite Hm]. }
  unfold bind at 1, Fs.exists_, Fs.test, attempt. unfold bind at 1. rewrite H3. unfold ret at 1.
  eapply reuse_spec; [done|done|exact Hwh|apply Hcodec].
Qed.

End Places.
End Materialize.
