(* ===== verification/GenerationSafety.v ===== *)
(** * Generations: theorems

    Activating a generation is one step of the link [current]; replacing a tree
    never loses the tree it replaces; copying copies. *)
From Stdlib Require Import Ascii.
From stdpp Require Import base gmap strings sorting pretty countable list.
From S2P Require Import Prelude Json Protocol Store PathPolicy FileTree FileTreeLaws Generations CopyTree OverlaySafety MaterializeSafety.
Open Scope Z_scope.
Open Scope fabric_scope.

Section Safety.
Context (to_vec_pretty : Value -> string) (from_slice : string -> option Value).
Context (torn : string -> string) (pid : Z).
#[local] Abbreviation activate := (activate from_slice pid).

(** ** Activation *)

Definition generation_link (id : string) : Entry := ELink (mkPath false [Normal "generations"; component_of id]).

(** The marker of the generation says that it is ready. *)
Definition ready (t : Tree) (r : place) (id : string) : Prop :=
  exists q m data marker,
    entry t true (join (push (join (at_ r) ["generations"]) (component_of id)) ["generation.json"]) = Ok (q, EFile m data) /\
    from_slice data = Some marker /\ vget "state" marker ≫= as_str = Some "ready".

Definition next_link (r : place) : place := r ++ [".current." +:+ pid_text pid +:+ ".tmp"].
Definition next_previous (r : place) : place := r ++ [".previous." +:+ pid_text pid +:+ ".tmp"].

Lemma read_marker_ok p v w marker v' w' :
  read_marker from_slice p v w = (Ok marker, v', w') ->
  v' = v /\ exists q m data, entry (vol_tree v) true p = Ok (q, EFile m data) /\ from_slice data = Some marker.
Proof.
  intros H. unfold read_marker in H. mstep H data v1 w1 H1. apply with_err_cases in H1 as (r0 & H1 & Hr).
  destruct r0 as [d|]; [|done]. injection Hr as <-. apply ask_cases in H1 as [-> H1]. specialize (H1 _ eq_refl).
  unfold lift in H. injection H as H <- <-. apply ok_or_ok in H. split; [done|].
  apply bind_result_ok in H1 as ([q e] & He & H1). destruct e as [|m d0| |]; try done. cbn in H1. injection H1 as ->. by exists q, m, data.
Qed.

(** The replacement of the link [previous], which leaves [current] alone. *)
Lemma keep_previous_links r old v w res v' w' :
  clear (vol_tree v) r -> dir_at (vol_tree v) r = true -> keep_previous pid (at_ r) old v w = (res, v', w') ->
  only [next_previous r; r ++ ["previous"]] v v' /\
  (res = Ok tt -> vol_tree v' !! (r ++ ["previous"]) = Some (ELink old)) /\
  (res <> Ok tt -> vol_tree v' !! (r ++ ["previous"]) = vol_tree v !! (r ++ ["previous"])).
Proof.
  intros Hc Hd H. unfold keep_previous in H. rewrite !join_at in H.
  change (r ++ [".previous." +:+ pid_text pid +:+ ".tmp"]) with (next_previous r) in H.
  set (np := next_previous r) in *. set (pv := r ++ ["previous"]) in *.
  assert (forall t, agree [np] (vol_tree v) t -> clear t np /\ clear t pv) as Hcl.
  { intros t Ha. apply (clear_agree r [".previous." +:+ pid_text pid +:+ ".tmp"]) in Ha as [? ?]; [|done..]. by split; apply clear_snoc. }
  assert (below np pv = None) as Hb by (apply below_sibling'; done).
  apply bind_cases in H as (r1 & v1 & w1 & H1 & H). unfold attempt in H1.
  destruct (Fs.remove_file (at_ np) v w) as [[r0 v0] w0] eqn:H0. injection H1 as <- -> ->.
  assert (only [np] v v1) as O1.
  { apply remove_file_at in H0; [|by apply Hcl, agree_refl]. destruct H0 as [(k & _ & ->)|(_ & ->)]; [apply only_refl|]. apply only_log, agree_delete. }
  assert (agree [np] (vol_tree v) (vol_tree v1)) as A1 by (by destruct O1 as (?&?&?&?)).
  assert (forall u, only [np] v u -> only [np; pv] v u) as Hup.
  { intros u. apply only_mono. constructor; [by left|constructor]. }
  assert (forall t, agree [np] (vol_tree v) t -> t !! pv = vol_tree v !! pv) as Hpv.
  { intros t Ha. by apply Ha, outside_one. }
  apply bind_cases in H as (r2 & v2 & w2 & H2 & H). apply with_err_cases in H2 as (k2 & H2 & ->).
  apply symlink_at in H2; [|by apply Hcl]. destruct H2 as [(k & -> & ->)|(-> & _ & ->)]; [destruct H as (-> & -> & _); split_and!; [by apply Hup|done|intros _; by apply Hpv]|].
  assert (only [np] v (log v1 (<[np := ELink old]> (vol_tree v1)))) as O2.
  { etrans; [exact O1|]. apply only_log, agree_insert. }
  assert (agree [np] (vol_tree v) (<[np := ELink old]> (vol_tree v1))) as A2 by (by destruct O2 as (?&?&?&?)).
  cbn in H. apply with_err_cases in H as (k3 & H3 & ->). apply rename_at in H3; [|by apply Hcl..].
  destruct H3 as [(k & -> & ->)|(t & Ht & -> & ->)]; [split_and!; [by apply Hup|done|intros _; by apply Hpv]|]. cbn [vol_tree log] in Ht.
  apply rename_tree_ok in Ht as (_ & _ & _ & -> & _); [|intros E; by rewrite E, below_self in Hb].
  split_and!; [| |done].
  - etrans; [by apply Hup|]. apply only_log. apply agree_rename.
  - intros _. cbn [vol_tree log]. by rewrite rename_arrives, lookup_insert_eq.
Qed.

(** The link [current] is made beside it and renamed over it: at every moment it is the old or the new one. *)
Lemma switch_current_links r id v w res v' w' :
  clear (vol_tree v) r -> dir_at (vol_tree v) r = true -> switch_current pid (at_ r) id v w = (res, v', w') ->
  match res with
  | Err _ => only [next_link r] v v'
  | Ok _ => only [next_link r; r ++ ["current"]] v v' /\ vol_tree v' !! (r ++ ["current"]) = Some (generation_link id) /\
      exists steps, vol_history v' = vol_tree v' :: steps ++ vol_history v /\ Forall (agree [next_link r] (vol_tree v)) steps
  end.
Proof.
  intros Hc Hd H. unfold switch_current in H. rewrite !join_at in H.
  change (r ++ [".current." +:+ pid_text pid +:+ ".tmp"]) with (next_link r) in H.
  set (nx := next_link r) in *. set (cu := r ++ ["current"]) in *.
  assert (forall t, agree [nx] (vol_tree v) t -> clear t nx /\ clear t cu) as Hcl.
  { intros t Ha. apply (clear_agree r [".current." +:+ pid_text pid +:+ ".tmp"]) in Ha as [? ?]; [|done..]. by split; apply clear_snoc. }
  assert (below nx cu = None) as Hb by (apply below_sibling'; done).
  apply bind_cases in H as (r1 & v1 & w1 & H1 & H). apply test_cases in H1 as (r0 & H1 & ->). apply ask_cases in H1 as [-> _].
  apply bind_cases in H as (r2 & v2 & w2 & H2 & H).
  assert (only [nx] v v2) as O1.
  { destruct (match r0 with Ok _ => true | Err _ => false end); [|unfold ret in H2; simplify_eq; apply only_refl].
    apply with_err_cases in H2 as (k2 & H2 & ->). apply remove_file_at in H2; [|by apply Hcl, agree_refl].
    destruct H2 as [(k & _ & ->)|(_ & ->)]; [apply only_refl|]. apply only_log, agree_delete. }
  destruct r2 as [u2|e2]; [|by destruct H as (-> & -> & _)].
  assert (agree [nx] (vol_tree v) (vol_tree v2)) as A1 by (by destruct O1 as (?&?&?&?)).
  apply bind_cases in H as (r3 & v3 & w3 & H3 & H). apply with_err_cases in H3 as (k3 & H3 & ->).
  apply symlink_at in H3; [|by apply Hcl]. destruct H3 as [(k & -> & ->)|(-> & _ & ->)]; [by destruct H as (-> & -> & _)|].
  assert (only [nx] v (log v2 (<[nx := generation_link id]> (vol_tree v2)))) as O2.
  { etrans; [exact O1|]. apply only_log, agree_insert. }
  assert (agree [nx] (vol_tree v) (<[nx := generation_link id]> (vol_tree v2))) as A2 by (by destruct O2 as (?&?&?&?)).
  cbn in H. apply with_err_cases in H as (k4 & H4 & ->). apply rename_at in H4; [|by apply Hcl..].
  destruct H4 as [(k & -> & ->)|(t & Ht & -> & ->)]; [done|]. cbn [map_err vol_tree log] in *.
  apply rename_tree_ok in Ht as (_ & _ & _ & -> & _); [|intros E; by rewrite E, below_self in Hb]. split_and!.
  - etrans; [|apply only_log, agree_rename]. eapply only_mono; [|exact O2]. constructor; [by left|constructor].
  - by rewrite rename_arrives, lookup_insert_eq.
  - destruct O2 as (steps & Hs & F & _). exists steps. split; [|done]. cbn [vol_history log] in Hs |- *. f_equal. exact Hs.
Qed.

(** What an activation has done when it returns. *)
Definition activated (r : place) (id : string) (res : result RpcError (option Path)) (t t' : Tree) : Prop :=
  match res with
  | Ok old =>
      t' !! (r ++ ["current"]) = Some (generation_link id) /\
      match old with
      | Some p => t !! (r ++ ["current"]) = Some (ELink p) /\ t' !! (r ++ ["previous"]) = Some (ELink p)
      | None => t' !! (r ++ ["previous"]) = t !! (r ++ ["previous"])
      end
  | Err _ => t' !! (r ++ ["previous"]) = t !! (r ++ ["previous"])
  end.

Definition links (r : place) : list place := [next_link r; r ++ ["current"]; next_previous r; r ++ ["previous"]].

(** The run of an activation from [v] to [v']: every moment of [current], and the end. *)
Record activation (r : place) (id : string) (v : Volume) (res : result RpcError (option Path)) (v' : Volume) : Prop := mk_activation {
  act_moments : exists steps, vol_history v' = steps ++ vol_history v /\
    Forall (fun t => t !! (r ++ ["current"]) = vol_tree v !! (r ++ ["current"]) \/
                     t !! (r ++ ["current"]) = Some (generation_link id)) steps;
  act_current : vol_tree v' !! (r ++ ["current"]) = vol_tree v !! (r ++ ["current"]) \/
    vol_tree v' !! (r ++ ["current"]) = Some (generation_link id) /\ ready (vol_tree v) r id;
  act_result : activated r id res (vol_tree v) (vol_tree v');
  act_frame : agree (links r) (vol_tree v) (vol_tree v');
}.

Lemma activation_refused r id v e : activation r id v (Err e) v.
Proof. split; [exists []; by split; [|constructor]|by left|by cbn|apply agree_refl]. Qed.

Lemma outside_current r : outside [next_link r] (r ++ ["current"]).
Proof. apply outside_one, below_sibling'. done. Qed.

Lemma activation_failed r id v v' e : only [next_link r] v v' -> activation r id v (Err e) v'.
Proof.
  intros (steps & Hs & F & A). assert (forall t, agree [next_link r] (vol_tree v) t -> t !! (r ++ ["current"]) = vol_tree v !! (r ++ ["current"])) as Hcur.
  { intros t Ht. apply Ht, outside_current. }
  split; [|left; by apply Hcur|apply A, outside_one, below_sibling'; done|].
  - exists steps. split; [done|]. eapply Forall_impl; [exact F|]. intros t Ht. left. by apply Hcur.
  - eapply agree_mono; [|exact A]. constructor; [by left|constructor].
Qed.

(** After the switch only [previous] and its temporary name change. *)
Lemma activation_done r id v v1 v2 res :
  ready (vol_tree v) r id ->
  only [next_link r; r ++ ["current"]] v v1 -> vol_tree v1 !! (r ++ ["current"]) = Some (generation_link id) ->
  (exists steps, vol_history v1 = vol_tree v1 :: steps ++ vol_history v /\ Forall (agree [next_link r] (vol_tree v)) steps) ->
  only [next_previous r; r ++ ["previous"]] v1 v2 ->
  activated r id res (vol_tree v) (vol_tree v2) -> activation r id v res v2.
Proof.
  intros Hr (_ & _ & _ & A1) Hc1 (steps & Hs & F) (steps2 & Hs2 & F2 & A2) Hres.
  assert (forall t, agree [next_previous r; r ++ ["previous"]] (vol_tree v1) t -> t !! (r ++ ["current"]) = Some (generation_link id)) as Hcur.
  { intros t Ht. rewrite Ht; [done|]. repeat constructor; by apply below_sibling'. }
  split; [|right; split; [by apply Hcur|done]|done|].
  - exists (steps2 ++ vol_tree v1 :: steps). split; [by rewrite Hs2, Hs, <- app_assoc|]. apply Forall_app. split.
    + eapply Forall_impl; [exact F2|]. intros t Ht. right. by apply Hcur.
    + constructor; [by right|]. eapply Forall_impl; [exact F|]. intros t Ht. left. apply Ht, outside_current.
  - eapply agree_trans; (eapply agree_mono; [|eassumption]); repeat first [apply Forall_cons; split | apply Forall_nil_2];
      repeat first [by apply Exists_cons_hd | apply Exists_cons_tl].
Qed.

Lemma activate_spec r id v w res v' w' :
  clear (vol_tree v) r -> dir_at (vol_tree v) r = true -> activate (at_ r) id v w = (res, v', w') -> activation r id v res v'.
Proof.
  intros Hc Hd H. unfold Generations.activate in H.
  apply bind_cases in H as (r1 & v1 & w1 & H1 & H). unfold lift in H1. injection H1 as <- <- <-.
  destruct (validate_generation_id id) as [u|e]; [|destruct H as (-> & -> & _); apply activation_refused]. clear u.
  apply bind_cases in H as (r2 & v2 & w2 & H2 & H). apply test_cases in H2 as (r0 & H2 & ->). apply ask_cases in H2 as [-> _].
  destruct (match r0 with Ok _ => _ | Err _ => _ end); cbn [negb] in H; [|unfold fail in H; simplify_eq; apply activation_refused].
  apply bind_cases in H as (r3 & v3 & w3 & H3 & H). destruct r3 as [marker|e].
  2:{ destruct H as (-> & -> & _). assert (v3 = v) as ->; [|apply activation_refused].
      unfold read_marker in H3. apply bind_cases in H3 as (r4 & v4 & w4 & H4 & H3). apply with_err_cases in H4 as (k & H4 & ->).
      apply ask_cases in H4 as [-> _]. destruct k; cbn in H3; [unfold lift in H3; by simplify_eq|by destruct H3 as (_ & -> & _)]. }
  apply read_marker_ok in H3 as (-> & q & m & data & He & Hm).
  destruct (bool_decide_reflect (vget "state" marker ≫= as_str = Some "ready")) as [Hst|]; cbn [negb] in H;
    [|unfold fail in H; simplify_eq; apply activation_refused].
  apply bind_cases in H as (r4 & v4 & w4 & H4 & H). unfold io_error, with_err in H4. rewrite create_dir_all_present in H4 by done.
  injection H4 as <- <- <-. cbn [map_err] in H.
  apply bind_cases in H as (r5 & v5 & w5 & H5 & H). unfold attempt in H5.
  destruct (Fs.read_link _ _ _) as [[old v6] w6] eqn:H6. injection H5 as <- -> ->. apply ask_cases in H6 as [-> H6].
  apply bind_cases in H as (r7 & v7 & w7 & H7 & H). apply switch_current_links in H7; [|done..].
  destruct r7 as [u|e]; [|destruct H as (-> & -> & _); by apply activation_failed]. destruct H7 as (O1 & Hcur & Hsteps).
  assert (ready (vol_tree v) r id) as Hrd by (by exists q, m, data, marker).
  destruct old as [old|k].
  - apply bind_cases in H as (r8 & v8 & w8 & H8 & H). assert (clear (vol_tree v7) r /\ dir_at (vol_tree v7) r = true) as [Hc7 Hd7].
    { destruct O1 as (_ & _ & _ & A). eapply (clear_agree r [_; "current"]); [exact A|done..]. }
    apply keep_previous_links in H8 as (O2 & Hp & Hne); [|done..].
    assert (vol_tree v7 !! (r ++ ["previous"]) = vol_tree v !! (r ++ ["previous"])) as Hp7.
    { destruct O1 as (_ & _ & _ & A). apply A. repeat constructor; by apply below_sibling'. }
    assert (vol_tree v8 !! (r ++ ["current"]) = Some (generation_link id)) as Hc8.
    { destruct O2 as (_ & _ & _ & A). rewrite A; [done|]. repeat constructor; by apply below_sibling'. }
    assert (v' = v8) as -> by (destruct r8; [unfold ret in H; by simplify_eq|by destruct H as (_ & -> & _)]).
    eapply activation_done; [done..|]. destruct r8 as [[]|e]; [|destruct H as (-> & _); cbn; rewrite <- Hp7; by apply Hne]. unfold ret in H. simplify_eq. split; [done|].
    split; [|by apply Hp]. specialize (H6 _ eq_refl). rewrite join_at in H6. apply bind_result_ok in H6 as ([q' e'] & H6 & Ht).
    rewrite entry_clear in H6; [|by apply clear_snoc|done]. destruct (vol_tree v !! (r ++ ["current"])) as [e''|]; [|done].
    injection H6 as <- ->. by destruct e'; simplify_eq/=.
  - unfold ret in H. simplify_eq. eapply activation_done; [done..|apply only_refl|]. split; [done|].
    destruct O1 as (_ & _ & _ & A). apply A. repeat constructor; by apply below_sibling'.
Qed.

(** C10: activating a generation is atomic. Whatever fails on the way, at every moment [current] is the
    link it was or the link to the new generation; it moves only to a generation whose marker says that
    it is ready; a successful activation that could read the former link leaves its target in
    [previous]; one that could not, or that failed at any point, leaves [previous] as it was; and nothing
    outside the links changes. *)
Theorem activation_is_atomic r id v w res v' w' :
  clear (vol_tree v) r -> dir_at (vol_tree v) r = true -> activate (at_ r) id v w = (res, v', w') ->
  activation r id v res v'.
Proof. apply activate_spec. Qed.

End Safety.

(** ** Runs *)

(** ** Deciding the conditions of the theorems *)

Definition clearb (t : Tree) (p : place) : bool := forallb (fun k => dir_at t (take k p)) (seq 0 (length p)).
Definition wfb (t : Tree) : bool := forallb (fun kv => clearb t kv.1) (map_to_list t).

Lemma clearb_sound t p : clearb t p = true -> clear t p.
Proof.
  unfold clearb. rewrite forallb_forall. intros H q [k ->] Hne. specialize (H (length q)). rewrite take_app_length in H. apply H, in_seq.
  rewrite length_app. destruct k; [rewrite app_nil_r in Hne; done|]. cbn. lia.
Qed.
Lemma wfb_sound t : wfb t = true -> tree_wf t.
Proof.
  unfold wfb. rewrite forallb_forall. intros H p e He. apply clearb_sound. apply (H (p, e)).
  by apply list_elem_of_In, elem_of_map_to_list.
Qed.

(** ** A sample of a disk *)

Definition link_out : Path := mkPath true [Normal "etc"].
Definition tree0 : Tree := list_to_map
  [([], EDir 493); (["client"], EDir 493); (["etc"], EDir 493); (["overlay"], EDir 493);
   (["overlay"; "added"], EFile 420 "new"); (["Example.app"], EDir 493);
   (["Example.app"; "kept"], EFile 384 "baseline"); (["Example.app"; "config"], ELink link_out);
   (["live"], EDir 493); (["live"; "stale"], EFile 420 "old")].
Definition vol0 : Volume := mkVolume tree0 18 [].

(** Markers as text: the state by its first letter, and the time of creation in binary. *)
Fixpoint bits (p : positive) : string :=
  match p with xH => "" | xO p => String "0"%char (bits p) | xI p => String "1"%char (bits p) end.
Fixpoint unbits (s : string) : positive :=
  match s with
  | EmptyString => xH
  | String c s' => if Ascii.eqb c "0"%char then xO (unbits s') else xI (unbits s')
  end.
Lemma unbits_bits p : unbits (bits p) = p.
Proof. induction p as [p IH|p IH|]; cbn; by rewrite ?IH. Qed.

Definition marker_text (v : Value) : string :=
  (if bool_decide (vget "state" v ≫= as_str = Some "materialized") then "m"
   else if bool_decide (vget "state" v ≫= as_str = Some "ready") then "r" else "f")
  +:+ bits (encode (default 0 (vget "createdAt" v ≫= as_u64))).
Definition marker_of (id : string) (s : string) : option Value :=
  match s with
  | String c s' =>
      let created := default 0 (decode (unbits s')) in
      let m := materialized_marker id "Example.app" (at_ ["Example.app"]) created in
      if Ascii.eqb c "m"%char then Some m else if Ascii.eqb c "r"%char then vindex_set "state" (VString "ready") m else None
  | EmptyString => None
  end.

Lemma marker_round_trip id created :
  let m := materialized_marker id "Example.app" (at_ ["Example.app"]) created in marker_of id (marker_text m) = Some m.
Proof.
  intros m. assert (marker_text m = String "m"%char (bits (encode created))) as ->.
  { unfold marker_text. rewrite bool_decide_true by reflexivity. reflexivity. }
  unfold marker_of. rewrite unbits_bits, decode_encode. reflexivity.
Qed.

Definition whole_text (s : string) : string := s.
#[local] Abbreviation materialize' id := (materialize marker_text (marker_of id) whole_text 7).
#[local] Abbreviation record' id := (record_state marker_text (marker_of id) whole_text 7).
#[local] Abbreviation activate' id := (activate (marker_of id) 7).

Definition result_of {A} (r : result RpcError A * Volume * World) : result RpcError A := r.1.1.
Definition volume_of {A} (r : result RpcError A * Volume * World) : Volume := r.1.2.

Lemma sample_world_good n : io_good (sample_world n).
Proof. by intros k _. Qed.

Lemma deployable0 : deployable ["client"] [] "one" "Example.app" tree0.
Proof.
  assert (tree_wf tree0) as Hw by (apply wfb_sound; vm_compute; reflexivity).
  split; [done|apply clearb_sound| | |apply vacant_wf; [done|]|apply clearb_sound|eexists| | |done]; vm_compute; reflexivity.
Qed.

Lemma materialized_generation_is_complete_witness :
  exists g v' w', materialize' "one" 10%nat (at_ ["client"]) "one" (at_ ["Example.app"]) vol0 (sample_world 10) = (Ok g, v', w') /\
  agree [["client"; "generations"]] (vol_tree vol0) (vol_tree v') /\
  (exists w3, materialize' "one" 10%nat (at_ ["client"]) "one" (at_ ["Example.app"]) v' (sample_world 50) = (Ok g, v', w3)).
Proof.
  destruct (materialize' "one" 10%nat (at_ ["client"]) "one" (at_ ["Example.app"]) vol0 (sample_world 10)) as [[r v'] w'] eqn:H.
  assert (is_ok r = true) as Hr. { change r with ((r, v', w').1.1). rewrite <- H. vm_compute. reflexivity. }
  destruct r as [g|e]; [|done]. exists g, v', w'. split; [exact eq_refl|].
  destruct (materialized_generation_is_complete marker_text (marker_of "one") whole_text 7 ["client"] [] "one" "Example.app" 10%nat vol0
    (sample_world 10) g v' w' (marker_round_trip "one") deployable0 H) as (_ & Ha & Hagain).
  split; [exact Ha|]. apply (Hagain 10%nat (sample_world 50)), sample_world_good.
Defined.

(** The deployment root with one complete and ready generation. *)
Definition tree1 : Tree := list_to_map
  [([], EDir 493); (["client"], EDir 493); (["client"; "generation.json"], EFile 420 "r1");
   (["client"; "current"], ELink (mkPath false [Normal "generations"; Normal "zero"]));
   (["client"; "generations"], EDir 493); (["client"; "generations"; "one"], EDir 493);
   (["client"; "generations"; "one"; "generation.json"], EFile 420 "r1")].
Definition vol1 : Volume := mkVolume tree1 18 [].

Lemma activation_is_atomic_witness :
  exists v' w', activate' "one" (at_ ["client"]) "one" vol1 (sample_world 10)
    = (Ok (Some (mkPath false [Normal "generations"; Normal "zero"])), v', w') /\
  activation (marker_of "one") 7 ["client"] "one" vol1 (Ok (Some (mkPath false [Normal "generations"; Normal "zero"]))) v'.
Proof.
  destruct (activate' "one" (at_ ["client"]) "one" vol1 (sample_world 10)) as [[r v'] w'] eqn:H.
  assert (r = Ok (Some (mkPath false [Normal "generations"; Normal "zero"]))) as ->.
  { change r with ((r, v', w').1.1). rewrite <- H. vm_compute. reflexivity. }
  exists v', w'. split; [exact eq_refl|].
  apply (activation_is_atomic (marker_of "one") 7 ["client"] "one" vol1 (sample_world 10) _ v' w'); [|vm_compute; reflexivity|exact H].
  apply clearb_sound. vm_compute. reflexivity.
Defined.

Lemma replacement_never_loses_the_tree_witness :
  exists v' w' now, replace_tree whole_text 7 10%nat (at_ ["overlay"]) (at_ (["live"] ++ ["stale"])) vol0 (sample_world 10) = (Ok tt, v', w') /\
  exchanged ["live"] "stale" (staging_name 7 now) (subtree (["live"] ++ ["stale"]) (vol_tree vol0)) (subtree ["overlay"] (vol_tree vol0)) (vol_tree v') (Ok tt).
Proof.
  destruct (replace_tree whole_text 7 10%nat (at_ ["overlay"]) (at_ (["live"] ++ ["stale"])) vol0 (sample_world 10)) as [[r v'] w'] eqn:H.
  assert (r = Ok tt) as ->. { change r with ((r, v', w').1.1). rewrite <- H. vm_compute. reflexivity. }
  assert (replaceable ["overlay"] ["live"] "stale" (vol_tree vol0)) as Hr.
  { split; [apply wfb_sound|apply clearb_sound| |apply clearb_sound| |]; vm_compute; reflexivity. }
  destruct (replacement_never_loses_the_tree whole_text 7 10%nat ["overlay"] ["live"] "stale" vol0 (sample_world 10) (Ok tt) v' w' Hr H)
    as (now & _ & He & _). exists v', w', now. split; [exact eq_refl|exact He].
Defined.

(** ** What the code does not prevent *)

(** the check of a generation identifier accepts the names [.] and [..]: with a marker in the
    deployment root, the link [current] is moved to the deployment root itself. *)
Theorem dotted_identifiers_are_accepted :
  validate_generation_id "." = Ok tt /\ validate_generation_id ".." = Ok tt /\
  exists v' w', activate' ".." (at_ ["client"]) ".." vol1 (sample_world 10)
      = (Ok (Some (mkPath false [Normal "generations"; Normal "zero"])), v', w') /\
    vol_tree v' !! ["client"; "current"] = Some (ELink (mkPath false [Normal "generations"; ParentDir])).
Proof.
  split_and!; [reflexivity..|]. destruct (activate' ".." (at_ ["client"]) ".." vol1 (sample_world 10)) as [[r v'] w'] eqn:H.
  assert (r = (Ok (Some (mkPath false [Normal "generations"; Normal "zero"])))) as ->.
  { change r with ((r, v', w').1.1). rewrite <- H. vm_compute. reflexivity. }
  exists v', w'. split; [exact eq_refl|]. change v' with ((Ok (E := RpcError) (Some (mkPath false [Normal "generations"; Normal "zero"])), v', w').1.2).
  rewrite <- H. vm_compute. reflexivity.
Qed.

(** an overlay is written through a link of the application: a relative target below a link that
    leaves the application changes files outside of it. *)
Theorem overlays_follow_links :
  exists v' w', apply_overlays whole_text 7 10%nat (at_ ["Example.app"])
      [mkOverlay (at_ ["overlay"]) (mkPath false [Normal "config"; Normal "app"]) false] vol0 (sample_world 10)
      = (Ok [(at_ ["overlay"], at_ ["Example.app"; "config"; "app"], false)], v', w') /\
    vol_tree v' !! ["etc"; "app"; "added"] = Some (EFile 420 "new").
Proof.
  destruct (apply_overlays _ _ _ _ _ vol0 (sample_world 10)) as [[r v'] w'] eqn:H.
  assert (r = Ok [(at_ ["overlay"], at_ ["Example.app"; "config"; "app"], false)]) as ->.
  { change r with ((r, v', w').1.1). rewrite <- H. vm_compute. reflexivity. }
  exists v', w'. split; [exact eq_refl|]. change v' with ((Ok (E := RpcError) [(at_ ["overlay"], at_ ["Example.app"; "config"; "app"], false)], v', w').1.2).
  rewrite <- H. vm_compute. reflexivity.
Qed.

(** ** A copy into itself

    [copy_tree] reads a directory after it has made the target: a target inside
    the source is copied into itself, one level deeper each time. *)

(** ** Calls that change the tree, when nothing fails *)

Lemma sys_good {A} (run : Tree -> result IoKind (A * Tree)) v w a t :
  io_good w -> run (vol_tree v) = Ok (a, t) -> exists w', sys run v w = (Ok a, log v t, w') /\ io_good w'.
Proof.
  intros Hw Hr. unfold sys. munfold. rewrite io_good_peek, Hr by done. eexists. split; [done|]. by apply io_good_next.
Qed.

Lemma create_dir_good p v w :
  io_good w -> clear (vol_tree v) p -> vol_tree v !! p = None -> dir_at (vol_tree v) (parent_place p) = true ->
  exists m w', Fs.create_dir (at_ p) v w = (Ok tt, log v (<[p := EDir m]> (vol_tree v)), w') /\ io_good w'.
Proof.
  intros Hw Hc Hn Hd. unfold Fs.create_dir. rewrite bind_get. exists (masked 511 (vol_umask v)). apply sys_good; [done|].
  by rewrite vacancy_clear, Hn, Hd.
Qed.

Lemma create_dir_all_good p n v w :
  io_good w -> clear (vol_tree v) (p ++ [n]) -> vol_tree v !! (p ++ [n]) = None ->
  exists m w', Fs.create_dir_all (at_ (p ++ [n])) v w = (Ok tt, log v (<[p ++ [n] := EDir m]> (vol_tree v)), w') /\ io_good w'.
Proof.
  intros Hw Hc Hn. pose proof Hc as [Hcp Hdp]%clear_snoc.
  destruct (create_dir_good (p ++ [n]) v w) as (m & w' & Hm & Hw'); [done..|by rewrite parent_snoc|]. exists m, w'. split; [|done].
  unfold Fs.create_dir_all, at_ at 1. cbn [p_absolute p_components].
  assert (forall pre rest, pre ++ rest = p -> Fs.create_dirs (at_ pre) (Normal <$> (rest ++ [n])) v w = (Ok tt, log v (<[p ++ [n] := EDir m]> (vol_tree v)), w')) as Hgo;
    [|by apply (Hgo [] p)].
  intros pre rest. revert pre. induction rest as [|x rest IH]; intros pre Hpre; cbn [app fmap list_fmap Fs.create_dirs]; rewrite bind_get, push_at.
  - rewrite app_nil_r in Hpre. subst pre. assert (@fs_is_dir (tree_fs (vol_tree v)) (at_ (p ++ [n])) = false) as ->.
    { cbn. rewrite entry_clear, Hn; [done|done|]. unfold is_link_at. by rewrite Hn. }
    unfold bind. by rewrite Hm.
  - subst p. rewrite fs_is_dir_clear; [unfold bind, ret; apply IH; by rewrite <- app_assoc| |].
    + intros q Hq Hqn. apply Hcp; [etrans; [exact Hq|]; exists rest; by rewrite <- app_assoc|]. intros ->. apply prefix_length in Hq.
      rewrite !length_app in Hq. cbn in Hq. destruct rest; [done|cbn in Hq; lia].
    + destruct rest as [|y rest]; [done|]. apply Hcp; [exists (y :: rest); by rewrite <- app_assoc|].
      intros E. apply (f_equal length) in E. rewrite !length_app in E. cbn in E. lia.
Qed.

Section Diverges.
Context (torn : string -> string).

(** A directory with one directory in it, and so on, [k] deep. *)
Definition nest (k : nat) : place := "a" :: replicate k "t".
Definition chain (k : nat) (t : Tree) : Prop :=
  dir_at t [] = true /\ (forall i, (i <= k)%nat -> dir_at t (nest i) = true) /\
  (forall q, is_Some (t !! q) -> q = [] \/ exists i, (i <= k)%nat /\ q = nest i).

Lemma nest_S k : nest (S k) = nest k ++ ["t"].
Proof. unfold nest. cbn. f_equal. change ("t" :: replicate k "t") with (replicate (S k) "t"). by rewrite replicate_S_end. Qed.
Lemma nest_prefix q k : q `prefix_of` nest k -> q = [] \/ exists i, (i <= k)%nat /\ q = nest i.
Proof.
  induction k as [|k IH]; intros Hq.
  - destruct Hq as [x Hx]. destruct q as [|y q]; [by left|]. injection Hx as <- Hx. symmetry in Hx. apply app_eq_nil in Hx as [-> _]. right. by exists O.
  - rewrite nest_S in Hq. apply prefix_snoc_inv in Hq as [->|Hq]; [right; exists (S k); by rewrite nest_S|].
    destruct (IH Hq) as [|(i & Hi & ->)]; [by left|]. right. exists i. split; [lia|done].
Qed.
Lemma nest_inj i j : nest i = nest j -> i = j.
Proof. intros H. apply (f_equal length) in H. unfold nest in H. cbn in H. rewrite !length_replicate in H. lia. Qed.

Lemma chain_clear k t p : chain k t -> p `prefix_of` nest (S k) -> clear t p.
Proof.
  intros (H0 & Hd & _) Hp q Hq Hne. destruct (nest_prefix q (S k)) as [->|(i & Hi & ->)]; [by etrans|done|]. apply Hd.
  destruct (decide (i = S k)) as [->|]; [|lia]. destruct Hne. apply prefix_length_eq; [done|]. by apply prefix_length.
Qed.
Lemma chain_vacant k t : chain k t -> t !! nest (S k) = None.
Proof.
  intros (_ & _ & H). destruct (t !! nest (S k)) as [e|] eqn:E; [|done]. destruct (H (nest (S k))) as [?|(i & Hi & Hn)]; [by eexists|done|].
  apply nest_inj in Hn. lia.
Qed.
Lemma chain_grow k t m : chain k t -> chain (S k) (<[nest (S k) := EDir m]> t).
Proof.
  intros (H0 & Hd & H). unfold chain, dir_at in *. split_and!.
  - by rewrite lookup_insert_ne.
  - intros i Hi. destruct (decide (i = S k)) as [->|]; [by rewrite lookup_insert_eq|]. rewrite lookup_insert_ne by (intros E; apply nest_inj in E; lia). apply Hd. lia.
  - intros q. destruct (decide (q = nest (S k))) as [->|]; [intros _; right; by exists (S k)|]. rewrite lookup_insert_ne by done.
    intros [?|(i & ? & ->)]%H; [by left|]. right. exists i. split; [lia|done].
Qed.
Lemma chain_children k t m : chain k t -> Fs.children (nest k) (<[nest (S k) := EDir m]> t) = ["t"].
Proof.
  intros Hc. set (t' := <[_ := _]> t). assert (forall n, n ∈ Fs.children (nest k) t' <-> n = "t") as Hel.
  { intros n. rewrite elem_of_children. split.
    - intros Hs. destruct (chain_grow _ _ m Hc) as (_ & _ & H). destruct (H _ Hs) as [E|(i & Hi & E)].
      + by apply app_eq_nil in E as [? _].
      + destruct i as [|i]; [apply (f_equal length) in E; rewrite length_app in E; cbn in E; rewrite length_replicate in E; lia|].
        rewrite nest_S in E. by apply app_inj_tail in E as [_ ->].
    - intros ->. rewrite <- nest_S. unfold t'. rewrite lookup_insert_eq. by eexists. }
  pose proof (children_NoDup (nest k) t') as Hnd. destruct (Fs.children (nest k) t') as [|x l].
  - exfalso. by apply (not_elem_of_nil "t"), Hel.
  - assert (x = "t") as -> by (apply Hel; by left). inversion_clear Hnd as [|? ? Hx Hl]. clear Hl. destruct l as [|y l]; [done|].
    exfalso. apply Hx. assert (y = "t") as -> by (apply Hel; right; by left). by left.
Qed.

Lemma copy_nested fuel k v w :
  io_good w -> chain k (vol_tree v) -> (copy_tree torn fuel (at_ (nest k)) (at_ (nest (S k))) v w).1.1 = Err out_of_fuel.
Proof.
  revert k v w. induction fuel as [|fuel IH]; intros k v w Hw Hc; [done|]. cbn [copy_tree].
  assert (nest k `prefix_of` nest (S k)) as Hp by (rewrite nest_S; by apply prefix_app_r).
  assert (exists m, vol_tree v !! nest k = Some (EDir m)) as [m Hm] by (by apply dir_at_Some, Hc).
  destruct (ask_good (fun t => bind_result (entry t false (at_ (nest k))) (fun qe => Ok qe.2)) v w Hw) as (w1 & H1 & Hw1).
  rewrite (entry_clear (vol_tree v)), Hm in H1; [|by eapply chain_clear|done].
  unfold bind at 1, io_error at 1, with_err at 1, Fs.symlink_metadata. rewrite H1. cbn [map_err bind_result snd].
  pose proof (chain_vacant _ _ Hc) as Hn. pose proof (chain_clear _ _ (nest (S k)) Hc ltac:(done)) as Hcl. rewrite nest_S in Hn, Hcl.
  destruct (create_dir_all_good (nest k) "t" v w1) as (m2 & w2 & H2 & Hw2); [done..|]. rewrite <- nest_S in H2.
  unfold bind at 1, io_error at 1, with_err at 1. rewrite H2. cbn [map_err]. set (v2 := log v _).
  pose proof (chain_grow _ _ m2 Hc) as Hc2. change (<[nest (S k) := EDir m2]> (vol_tree v)) with (vol_tree v2) in Hc2.
  destruct (sys_good (fun t => bind_result (entry t true (at_ (nest (S k)))) (fun qe => Ok (tt, Fs.chmod qe.1 (entry_mode (EDir m)) t))) v2 w2 tt
    (<[nest (S k) := EDir m]> (vol_tree v2))) as (w3 & H3 & Hw3); [done| |].
  { rewrite entry_clear; [|eapply chain_clear; [exact Hc2|rewrite (nest_S (S k)); by apply prefix_app_r]|unfold is_link_at, v2; cbn; by rewrite lookup_insert_eq].
    unfold v2. cbn. rewrite lookup_insert_eq. cbn. unfold Fs.chmod. by rewrite lookup_insert_eq. }
  unfold bind at 1, copy_permissions, io_error at 1, with_err at 1, Fs.set_permissions. rewrite H3. cbn [map_err]. set (v3 := log v2 _).
  assert (vol_tree v3 = <[nest (S k) := EDir m]> (vol_tree v)) as E3 by (unfold v3, v2; cbn; apply insert_insert_eq).
  pose proof (chain_grow _ _ m Hc) as Hc3. rewrite <- E3 in Hc3.
  destruct (ask_good (fun t => bind_result (entry t true (at_ (nest k))) (fun qe =>
    if entry_is_dir qe.2 then Ok (Fs.children qe.1 t) else Err OtherError)) v3 w3 Hw3) as (w4 & H4 & Hw4).
  assert (vol_tree v3 !! nest k = Some (EDir m)) as Hm3. { rewrite E3, lookup_insert_ne; [done|]. intros E. apply nest_inj in E. lia. }
  rewrite (entry_clear (vol_tree v3)), Hm3 in H4; [|eapply chain_clear; [exact Hc3|rewrite (nest_S (S k)); by apply prefix_app_r]|unfold is_link_at; by rewrite Hm3].
  unfold bind at 1, io_error at 1, with_err at 1, Fs.read_dir. rewrite H4. cbn [map_err bind_result snd fst entry_is_dir].
  rewrite E3, chain_children by done. cbn [for_each]. rewrite !join_at, <- !nest_S. unfold bind.
  specialize (IH (S k) v3 w4 Hw4 Hc3). by destruct (copy_tree torn fuel _ _ v3 w4) as [[[]] ?].
Qed.

(** a copy into a directory of its own source never ends: however deep the recursion may go, the
    target is copied into itself once more. *)
Theorem copy_into_itself_never_ends fuel m w :
  io_good w ->
  (copy_tree torn fuel (at_ ["a"]) (at_ ["a"; "t"]) (mkVolume (<[["a"] := EDir m]> {[ [] := EDir m ]}) 0 []) w).1.1 = Err out_of_fuel.
Proof.
  intros Hw. apply (copy_nested fuel 0); [done|]. unfold chain, dir_at. cbn [vol_tree]. split_and!.
  - by rewrite lookup_insert_ne, lookup_singleton_eq.
  - intros i Hi. assert (i = O) as -> by lia. by rewrite lookup_insert_eq.
  - intros q Hq. destruct (decide (q = ["a"])) as [->|]; [right; by exists O|]. rewrite lookup_insert_ne in Hq by done.
    left. destruct Hq as [e He]. by apply lookup_singleton_Some in He as [<- _].
Qed.

End Diverges.

Lemma copy_into_itself_never_ends_witness :
  io_good (sample_world 10) /\
  (copy_tree (fun s => s) 100 (at_ ["a"]) (at_ ["a"; "t"]) (mkVolume (<[["a"] := EDir 493]> {[ [] := EDir 493 ]}) 0 []) (sample_world 10)).1.1
  = Err out_of_fuel.
Proof.
  assert (io_good (sample_world 10)) as H by (by intros k _). split; [exact H|].
  exact (copy_into_itself_never_ends (fun s => s) 100 493 (sample_world 10) H).
Defined.
