(* ===== verification/SchemaCheck.v ===== *)
(** * Validation of inputs and outputs against capability contracts
      ([validate_schema] of [crates/machine-fabric-runtime/src/controller.rs])

    The validator and a declarative reading of the part of JSON Schema that it
    supports; the two agree. The text of a value and of a float, which only
    error messages show, are parameters. *)
From Stdlib Require Import SpecFloat.
From stdpp Require Import base strings list pretty.
From S2P Require Import Prelude Json Protocol.
Open Scope Z_scope.

(** [schema_error] *)
Definition schema_error (path message : string) : RpcError :=
  rpc_error "SCHEMA_VALIDATION_FAILED" (path +:+ " " +:+ message).

(** [value_matches_type] *)
Definition value_matches_type (value : Value) (kind : string) : bool :=
  if String.eqb kind "null" then is_null value
  else if String.eqb kind "boolean" then is_boolean value
  else if String.eqb kind "integer" then
    match as_i64 value, as_u64 value with None, None => false | _, _ => true end
  else if String.eqb kind "number" then is_number value
  else if String.eqb kind "string" then is_string value
  else if String.eqb kind "array" then is_array value
  else if String.eqb kind "object" then is_object value
  else false.

Definition strings_of (l : list Value) : list string := omap as_str l.

Definition type_matches (types value : Value) : bool :=
  match types with
  | VString kind => value_matches_type value kind
  | VArray kinds => existsb (value_matches_type value) (strings_of kinds)
  | _ => false
  end.

(** [schema.get("additionalProperties") == Some(&Value::Bool(false))] *)
Definition closed_schema (schema : Value) : bool :=
  match vget "additionalProperties" schema with Some (VBool false) => true | _ => false end.

Definition unconstrained (schema : Value) : bool :=
  match as_object schema with None | Some [] => true | Some _ => false end.

Section Validate.
Context (to_string : Value -> string) (f64_text : spec_float -> string).

(** The checks of a value itself, before its children. *)
Definition check_enum (schema value : Value) (path : string) : result RpcError unit :=
  match vget "enum" schema ≫= as_array with
  | Some allowed => if existsb (fun v => value_eqb v value) allowed then Ok tt
                    else Err (schema_error path "value is not in enum")
  | None => Ok tt
  end.

Definition check_type (schema value : Value) (path : string) : result RpcError unit :=
  match vget "type" schema with
  | Some types => if type_matches types value then Ok tt
                  else Err (schema_error path ("does not match type " +:+ to_string types))
  | None => Ok tt
  end.

Definition check_minimum (schema value : Value) (path : string) : result RpcError unit :=
  match vget "minimum" schema ≫= as_f64, as_f64 value with
  | Some minimum, Some number =>
      if SFltb number minimum then Err (schema_error path ("is below minimum " +:+ f64_text minimum)) else Ok tt
  | _, _ => Ok tt
  end.

Definition check_maximum (schema value : Value) (path : string) : result RpcError unit :=
  match vget "maximum" schema ≫= as_f64, as_f64 value with
  | Some maximum, Some number =>
      if SFltb maximum number then Err (schema_error path ("is above maximum " +:+ f64_text maximum)) else Ok tt
  | _, _ => Ok tt
  end.

Fixpoint check_required (required : list string) (object : list (string * Value)) (path : string)
    : result RpcError unit :=
  match required with
  | [] => Ok tt
  | key :: required' =>
      match obj_get key object with
      | None => Err (schema_error (path +:+ "." +:+ key) "is required")
      | Some _ => check_required required' object path
      end
  end.

Definition required_keys (schema : Value) : list string :=
  match vget "required" schema ≫= as_array with Some l => strings_of l | None => [] end.

(** [validate_schema] *)
Fixpoint validate_schema (schema value : Value) (path : string) {struct value} : result RpcError unit :=
  if unconstrained schema then Ok tt
  else
    bind_result (check_enum schema value path) (fun _ =>
    bind_result (check_type schema value path) (fun _ =>
    bind_result (check_minimum schema value path) (fun _ =>
    bind_result (check_maximum schema value path) (fun _ =>
    match value with
    | VObject object =>
        bind_result (check_required (required_keys schema) object path) (fun _ =>
        match vget "properties" schema ≫= as_object with
        | Some properties =>
            (fix fields (object : list (string * Value)) : result RpcError unit :=
               match object with
               | [] => Ok tt
               | (key, child) :: object' =>
                   bind_result
                     (match obj_get key properties with
                      | Some child_schema => validate_schema child_schema child (path +:+ "." +:+ key)
                      | None => if closed_schema schema
                                then Err (schema_error (path +:+ "." +:+ key) "is not allowed") else Ok tt
                      end)
                     (fun _ => fields object')
               end) object
        | None => Ok tt
        end)
    | VArray values =>
        match vget "items" schema with
        | Some items =>
            (fix elements (index : nat) (values : list Value) : result RpcError unit :=
               match values with
               | [] => Ok tt
               | child :: values' =>
                   bind_result (validate_schema items child (path +:+ "[" +:+ pretty index +:+ "]"))
                     (fun _ => elements (S index) values')
               end) 0%nat values
        | None => Ok tt
        end
    | _ => Ok tt
    end)))).

(** ** What the contract means *)

(** [conforms schema value]: the value meets every constraint of the schema that the contract
    language knows. *)
Inductive conforms : Value -> Value -> Prop :=
| conforms_any schema value : unconstrained schema = true -> conforms schema value
| conforms_all schema value :
    (forall allowed, vget "enum" schema = Some (VArray allowed) ->
       exists v, v ∈ allowed /\ value_eqb v value = true) ->
    (forall types, vget "type" schema = Some types -> type_matches types value = true) ->
    (forall minimum number, vget "minimum" schema ≫= as_f64 = Some minimum -> as_f64 value = Some number ->
       SFltb number minimum = false) ->
    (forall maximum number, vget "maximum" schema ≫= as_f64 = Some maximum -> as_f64 value = Some number ->
       SFltb maximum number = false) ->
    (forall object key, value = VObject object -> key ∈ required_keys schema -> is_Some (obj_get key object)) ->
    (forall object properties key child child_schema, value = VObject object ->
       vget "properties" schema = Some (VObject properties) -> (key, child) ∈ object ->
       obj_get key properties = Some child_schema -> conforms child_schema child) ->
    (forall object properties key child, value = VObject object -> closed_schema schema = true ->
       vget "properties" schema = Some (VObject properties) -> (key, child) ∈ object ->
       is_Some (obj_get key properties)) ->
    (forall values items child, value = VArray values -> vget "items" schema = Some items ->
       child ∈ values -> conforms items child) ->
    conforms schema value.

Lemma check_enum_ok schema value path :
  check_enum schema value path = Ok tt <->
  forall allowed, vget "enum" schema = Some (VArray allowed) -> exists v, v ∈ allowed /\ value_eqb v value = true.
Proof.
  unfold check_enum. destruct (vget "enum" schema) as [[| | | |allowed|]|]; cbn; try (split; [intros _ ?; congruence|done]).
  destruct (existsb _ allowed) eqn:E.
  - split; [|done]. intros _ a [= <-]. apply existsb_exists in E as (v & Hv & Heq). exists v.
    by rewrite list_elem_of_In.
  - split; [done|]. intros H. destruct (H allowed eq_refl) as (v & Hv & Heq).
    assert (existsb (fun v => value_eqb v value) allowed = true); [|congruence].
    apply existsb_exists. exists v. by rewrite <- list_elem_of_In.
Qed.

Lemma check_type_ok schema value path :
  check_type schema value path = Ok tt <->
  forall types, vget "type" schema = Some types -> type_matches types value = true.
Proof.
  unfold check_type. destruct (vget "type" schema) as [t|]; [|split; [intros _ ?; congruence|done]].
  destruct (type_matches t value) eqn:E; split; try done.
  - by intros _ ? [= <-].
  - intros H. specialize (H t eq_refl). congruence.
Qed.

Lemma check_minimum_ok schema value path :
  check_minimum schema value path = Ok tt <->
  forall minimum number, vget "minimum" schema ≫= as_f64 = Some minimum -> as_f64 value = Some number ->
    SFltb number minimum = false.
Proof.
  unfold check_minimum. destruct (_ ≫= _) as [m|]; [|split; [intros _ ??; congruence|done]].
  destruct (as_f64 value) as [n|]; [|split; [intros _ ??; congruence|done]].
  destruct (SFltb n m) eqn:E; split; try done.
  - intros H. specialize (H m n eq_refl eq_refl). congruence.
  - by intros _ ?? [= <-] [= <-].
Qed.

Lemma check_maximum_ok schema value path :
  check_maximum schema value path = Ok tt <->
  forall maximum number, vget "maximum" schema ≫= as_f64 = Some maximum -> as_f64 value = Some number ->
    SFltb maximum number = false.
Proof.
  unfold check_maximum. destruct (_ ≫= _) as [m|]; [|split; [intros _ ??; congruence|done]].
  destruct (as_f64 value) as [n|]; [|split; [intros _ ??; congruence|done]].
  destruct (SFltb m n) eqn:E; split; try done.
  - intros H. specialize (H m n eq_refl eq_refl). congruence.
  - by intros _ ?? [= <-] [= <-].
Qed.

Lemma check_required_ok required object path :
  check_required required object path = Ok tt <-> forall key, key ∈ required -> is_Some (obj_get key object).
Proof.
  induction required as [|k required IH]; cbn.
  - split; [|done]. intros _ key H. by apply not_elem_of_nil in H.
  - destruct (obj_get k object) as [v|] eqn:E.
    + rewrite IH. split.
      * intros H key [->|Hk]%elem_of_cons; [by exists v|auto].
      * intros H key Hk. apply H. by right.
    + split; [done|]. intros H. destruct (H k) as [? ?]; [by left|congruence].
Qed.

(** The loops over the fields of an object and the elements of an array. *)
Definition check_fields (schema : Value) (properties : list (string * Value)) (path : string)
    : list (string * Value) -> result RpcError unit :=
  fix fields object :=
    match object with
    | [] => Ok tt
    | (key, child) :: object' =>
        bind_result
          (match obj_get key properties with
           | Some child_schema => validate_schema child_schema child (path +:+ "." +:+ key)
           | None => if closed_schema schema
                     then Err (schema_error (path +:+ "." +:+ key) "is not allowed") else Ok tt
           end)
          (fun _ => fields object')
    end.

Definition check_elements (items : Value) (path : string) : nat -> list Value -> result RpcError unit :=
  fix elements index values :=
    match values with
    | [] => Ok tt
    | child :: values' =>
        bind_result (validate_schema items child (path +:+ "[" +:+ pretty index +:+ "]"))
          (fun _ => elements (S index) values')
    end.

Definition check_children (schema value : Value) (path : string) : result RpcError unit :=
  match value with
  | VObject object =>
      bind_result (check_required (required_keys schema) object path) (fun _ =>
      match vget "properties" schema ≫= as_object with
      | Some properties => check_fields schema properties path object
      | None => Ok tt
      end)
  | VArray values =>
      match vget "items" schema with Some items => check_elements items path 0 values | None => Ok tt end
  | _ => Ok tt
  end.

Lemma validate_schema_eq schema value path :
  validate_schema schema value path =
  if unconstrained schema then Ok tt
  else
    bind_result (check_enum schema value path) (fun _ =>
    bind_result (check_type schema value path) (fun _ =>
    bind_result (check_minimum schema value path) (fun _ =>
    bind_result (check_maximum schema value path) (fun _ => check_children schema value path)))).
Proof. by destruct value. Qed.

Lemma sequence_ok (r k : result RpcError unit) : bind_result r (fun _ => k) = Ok tt <-> r = Ok tt /\ k = Ok tt.
Proof. rewrite bind_result_ok. split; [by intros ([] & ? & ?)|intros [? ?]; by exists tt]. Qed.

Lemma check_fields_ok schema properties path object :
  (forall key child, (key, child) ∈ object -> forall sc p, validate_schema sc child p = Ok tt <-> conforms sc child) ->
  check_fields schema properties path object = Ok tt <->
  forall key child, (key, child) ∈ object ->
    (forall sc, obj_get key properties = Some sc -> conforms sc child) /\
    (closed_schema schema = true -> is_Some (obj_get key properties)).
Proof.
  intros IH. induction object as [|[k x] object IHo]; cbn [check_fields].
  { split; [|done]. intros _ key child H. by apply not_elem_of_nil in H. }
  rewrite sequence_ok, IHo by (intros; eapply IH; by right). clear IHo.
  assert (Hx := IH k x (list_elem_of_here _ _)). clear IH. split.
  - intros [H1 H2] key child [[= -> ->]|Hin]%elem_of_cons; [|by apply H2].
    destruct (obj_get k properties) as [sc|]; [|by destruct (closed_schema schema)].
    split; [|done]. intros ? [= <-]. by eapply Hx.
  - intros H. split; [|intros key child Hin; apply H; by right].
    destruct (H k x (list_elem_of_here _ _)) as [H1 H2].
    destruct (obj_get k properties) as [sc|]; [by apply Hx, H1|]. destruct (closed_schema schema); [|done].
    by destruct (H2 eq_refl).
Qed.

Lemma check_elements_ok items path values :
  (forall child, child ∈ values -> forall sc p, validate_schema sc child p = Ok tt <-> conforms sc child) ->
  forall index, check_elements items path index values = Ok tt <-> forall child, child ∈ values -> conforms items child.
Proof.
  intros IH. induction values as [|x values IHv]; intros index; cbn [check_elements].
  { split; [|done]. intros _ child H. by apply not_elem_of_nil in H. }
  rewrite sequence_ok, IHv by (intros; eapply IH; by right). clear IHv.
  rewrite (IH x (list_elem_of_here _ _)). clear IH. split.
  - intros [H1 H2] child [->|Hin]%elem_of_cons; auto.
  - intros H. split; [apply H; by left|]. intros child Hin. apply H. by right.
Qed.

(** The children of the value: what [conforms_all] says of objects and arrays. *)
Definition children_conform (schema value : Value) : Prop :=
  match value with
  | VObject object =>
      (forall key, key ∈ required_keys schema -> is_Some (obj_get key object)) /\
      forall properties, vget "properties" schema = Some (VObject properties) ->
        forall key child, (key, child) ∈ object ->
          (forall sc, obj_get key properties = Some sc -> conforms sc child) /\
          (closed_schema schema = true -> is_Some (obj_get key properties))
  | VArray values =>
      forall items, vget "items" schema = Some items -> forall child, child ∈ values -> conforms items child
  | _ => True
  end.

Lemma check_children_ok schema value path :
  (forall v, child v value -> forall sc p, validate_schema sc v p = Ok tt <-> conforms sc v) ->
  check_children schema value path = Ok tt <-> children_conform schema value.
Proof.
  intros IH. destruct value as [| | | |values|object]; cbn [check_children children_conform]; try done.
  - destruct (vget "items" schema) as [items|]; [|split; [intros _ ?; congruence|done]].
    rewrite check_elements_ok by (intros; by apply IH). split; [by intros ? ? [= <-]|eauto].
  - rewrite sequence_ok, check_required_ok.
    assert (match vget "properties" schema ≫= as_object with
            | Some properties => check_fields schema properties path object
            | None => Ok tt
            end = Ok tt <->
            forall properties, vget "properties" schema = Some (VObject properties) ->
              forall key child, (key, child) ∈ object ->
                (forall sc, obj_get key properties = Some sc -> conforms sc child) /\
                (closed_schema schema = true -> is_Some (obj_get key properties))) as ->; [|done].
    destruct (vget "properties" schema) as [[| | | | |properties]|]; cbn; try (split; [intros _ ?; congruence|done]).
    rewrite check_fields_ok by (intros; apply IH; by eexists). split; [by intros ? ? [= <-]|eauto].
Qed.

Lemma conforms_iff schema value :
  unconstrained schema = false ->
  conforms schema value <->
  (forall allowed, vget "enum" schema = Some (VArray allowed) ->
     exists v, v ∈ allowed /\ value_eqb v value = true) /\
  (forall types, vget "type" schema = Some types -> type_matches types value = true) /\
  (forall minimum number, vget "minimum" schema ≫= as_f64 = Some minimum -> as_f64 value = Some number ->
     SFltb number minimum = false) /\
  (forall maximum number, vget "maximum" schema ≫= as_f64 = Some maximum -> as_f64 value = Some number ->
     SFltb maximum number = false) /\
  children_conform schema value.
Proof.
  intros Hun. split.
  - intros H. destruct H as [schema value Hn|schema value H1 H2 H3 H4 H5 H6 H7 H8]; [congruence|].
    split_and!; [done..|]. destruct value as [| | | |values|object]; cbn; try done.
    + intros items Hi c Hc. by eapply H8.
    + split; [intros key Hk; by eapply H5|]. intros properties Hp key c Hc. split; [intros sc Hs; by eapply H6|].
      intros Hcl. by eapply H7.
  - intros (H1 & H2 & H3 & H4 & H5). apply conforms_all; try done.
    + intros object key -> Hk. by apply H5.
    + intros object properties key c sc -> Hp Hc Hs. destruct H5 as [_ H5]. by eapply H5.
    + intros object properties key c -> Hcl Hp Hc. destruct H5 as [_ H5]. by eapply H5.
    + intros values items c -> Hi Hc. by eapply H5.
Qed.

Lemma validate_schema_ok : forall value schema path,
  validate_schema schema value path = Ok tt <-> conforms schema value.
Proof.
  induction value as [value IH] using value_child_ind. intros schema path. rewrite validate_schema_eq.
  destruct (unconstrained schema) eqn:Hun; [split; [by intros _; apply conforms_any|done]|].
  rewrite conforms_iff, !sequence_ok, check_enum_ok, check_type_ok, check_minimum_ok, check_maximum_ok by done.
  rewrite check_children_ok; [done|]. intros v Hv sc p. by apply IH.
Qed.

(** C20: the validator accepts a value exactly when the value conforms to the schema. *)
Theorem validate_schema_is_conformance value schema path :
  validate_schema schema value path = Ok tt <-> conforms schema value.
Proof. apply validate_schema_ok. Qed.

End Validate.

Definition env_schema : Value :=
  obj_of [("type", VString "object"); ("additionalProperties", obj_of [("type", VString "string")])].
Definition closed_empty_schema : Value :=
  obj_of [("type", VString "object"); ("additionalProperties", VBool false)].

(** a schema for the additional properties is not applied, and without [properties] even the
    closing of an object is not: the contract of [env] accepts values that are not strings, and a closed
    object without properties accepts every field. *)
Theorem additional_properties_are_not_checked to_string f64_text object path :
  validate_schema to_string f64_text env_schema (VObject object) path = Ok tt /\
  validate_schema to_string f64_text closed_empty_schema (VObject object) path = Ok tt.
Proof. by split. Qed.
