(* ===== verification/Framing.v ===== *)
(** * Frames of a peer connection ([encode] and [read_frame] of
      [crates/machine-fabric-peer/src/connection.rs], and
      [crates/machine-fabric-peer/src/compression.rs])

    A frame is one line of JSON; a large successful response travels compressed
    where both sides negotiated it. [serde_json], [flate2] and [base64] are the
    interface [Codec]; what they document is [CodecLaws]. *)
From Stdlib Require Import Ascii.
From stdpp Require Import base strings list sets.
From S2P Require Import Prelude Json Protocol.
Open Scope Z_scope.

Definition bytes : Type := list ascii.

Definition len {A} (l : list A) : Z := Z.of_nat (length l).
Definition div_ceil (a b : Z) : Z := (a + b - 1) / b.

Record ChannelBinding := mkChannelBinding { cb_lease_id : string; cb_scope : Value }.

Record HelloFields := mkHelloFields {
  h_protocol : string;
  h_node_id : string;
  h_roles : list string;
  h_binding : option ChannelBinding;
  h_response_gzip : bool;
}.

Inductive Frame :=
| Hello (h : HelloFields)
| HelloAck (h : HelloFields)
| FRequest (id target_role : string) (request : Request)
| FResponse (id : string) (response : Response)
| ResponseGzip (id : string) (expanded_bytes : Z) (payload : bytes)
| Cancel (id : string).

Inductive CloseReason :=
| Requested | LeaseExpired | LeaseRevoked | Disconnected | ProtocolError | HandshakeTimeout
| Backpressure | DrainIncomplete.

#[export] Instance CloseReason_eq_dec : EqDecision CloseReason.
Proof. solve_decision. Defined.

(** The libraries: the pieces [to_writer] hands to the writer one after the other, [from_slice];
    [gunzip] gives the bytes the decoder produces and whether the stream then ends cleanly. *)
Class Codec := {
  frame_json : Frame -> list bytes;
  parse_frame : bytes -> option Frame;
  response_json : Response -> list bytes;
  parse_response : bytes -> option Response;
  gzip : bytes -> option bytes;
  gunzip : bytes -> bytes * bool;
  base64_encode : bytes -> bytes;
  base64_decode : bytes -> option bytes;
}.

Definition newline : ascii := "010"%char.

Definition opt_all {A} (p : A -> bool) (o : option A) : bool :=
  match o with Some a => p a | None => true end.
(** What [serde_json] reads back as it was: its [Option] of a value reads [null] as [None], floating point numbers may change, and the
    reader goes to [MAX_NESTING] levels, of which the frame and its parts take the first. *)
Definition exact_response (r : Response) : bool :=
  opt_all (fun v => negb (is_null v) && readable (MAX_NESTING - 2) v) (resp_result r)
  && opt_all (fun e => readable (MAX_NESTING - 3) (err_details e)) (resp_error r).
Definition exact_hello (h : HelloFields) : bool := opt_all (fun b => readable (MAX_NESTING - 2) (cb_scope b)) (h_binding h).
Definition exact (f : Frame) : bool :=
  match f with
  | Hello h | HelloAck h => exact_hello h
  | FRequest _ _ request => readable (MAX_NESTING - 2) (req_params request)
  | FResponse _ response => exact_response response
  | ResponseGzip _ expanded_bytes _ => (0 <=? expanded_bytes) && (expanded_bytes <=? U64_MAX)
  | Cancel _ => true
  end.

Class CodecLaws `{Codec} : Prop := {
  parse_frame_json f : exact f = true -> parse_frame (concat (frame_json f) ++ [newline]) = Some f;
  frame_json_one_line f : newline ∉ concat (frame_json f);
  parse_response_json r : exact_response r = true -> parse_response (concat (response_json r)) = Some r;
  response_inside_frame id r : len (concat (response_json r)) < len (concat (frame_json (FResponse id r)));
  gzip_frame_size id r n z :
    0 <= n <= U64_MAX ->
    len (concat (frame_json (ResponseGzip id n (base64_encode z)))) + len (concat (response_json r)) <=
    len (base64_encode z) + 256 + len (concat (frame_json (FResponse id r)));
  gunzip_gzip b z : gzip b = Some z -> gunzip z = (b, true);
  base64_decode_encode b : base64_decode (base64_encode b) = Some b;
  base64_length b : len (base64_encode b) = div_ceil (len b) 3 * 4;
}.

Section Framing.
Context `{Codec}.

(** [BoundedBytes::write] over the pieces *)
Fixpoint bounded_write (maximum : Z) (written : bytes) (pieces : list bytes) : option bytes :=
  match pieces with
  | [] => Some written
  | p :: ps =>
      if u64_saturating_sub maximum (len written) <? len p then None
      else bounded_write maximum (written ++ p) ps
  end.

(** [encode] *)
Definition encode (frame : Frame) (maximum : Z) : result string bytes :=
  match bounded_write (maximum - 1) [] (frame_json frame) with
  | Some written => Ok (written ++ [newline])
  | None => Err "encode bounded peer frame"
  end.

(** What the reader has: the bytes still to come, and whether reading then fails or meets the end. *)
Record Stream := mkStream { s_data : bytes; s_broken : bool }.

(** [take(limit).read_until(b'\n', ..)]: the bytes read, the rest, whether the data ran out. *)
Fixpoint read_until (limit : nat) (s : bytes) : bytes * bytes * bool :=
  match limit, s with
  | O, _ => ([], s, false)
  | S _, [] => ([], [], true)
  | S n, c :: s' =>
      if Ascii.eqb c newline then ([c], s', false)
      else let '(b, rest, ended) := read_until n s' in (c :: b, rest, ended)
  end.

(** [read_frame] *)
Definition read_frame (maximum : Z) (s : Stream) : result CloseReason Frame * Stream :=
  let '(b, rest, ended) := read_until (Z.to_nat (maximum + 1)) (s_data s) in
  let s' := mkStream rest (s_broken s) in
  if ended && s_broken s then (Err Disconnected, s')
  else if bool_decide (b = []) then (Err Disconnected, s')
  else if (maximum <? len b) || negb (bool_decide (last b = Some newline)) then (Err ProtocolError, s')
  else match parse_frame b with
  | Some f => (Ok f, s')
  | None => (Err ProtocolError, s')
  end.

Definition MAX_GZIP_RESPONSE : Z := 32 * 1024 * 1024.
Definition MIN_GZIP_RESPONSE : Z := 64 * 1024.

(** [ResponseSize::write] over the pieces *)
Fixpoint response_size (n : Z) (pieces : list bytes) : option Z :=
  match pieces with
  | [] => Some n
  | p :: ps =>
      match u64_checked_add n (len p) with
      | Some m => if m <=? MAX_GZIP_RESPONSE then response_size m ps else None
      | None => None
      end
  end.

(** [encode_response_frame] *)
Definition encode_response_frame (id : string) (response : Response) (negotiated : bool) : Frame :=
  if negotiated && resp_ok response then
    match response_size 0 (response_json response) with
    | Some size =>
        if MIN_GZIP_RESPONSE <=? size then
          match gzip (concat (response_json response)) with
          | Some z =>
              if div_ceil (len z) 3 * 4 + 256 <? size
              then ResponseGzip id size (base64_encode z)
              else FResponse id response
          | None => FResponse id response
          end
        else FResponse id response
    | None => FResponse id response
    end
  else FResponse id response.

(** [decode_response_frame] *)
Definition decode_response_frame (frame : Frame) (negotiated : bool) (maximum : Z) : result string Frame :=
  match frame with
  | ResponseGzip id expanded_bytes payload =>
      if negb negotiated || (maximum <? expanded_bytes)
         || negb ((MIN_GZIP_RESPONSE <=? expanded_bytes) && (expanded_bytes <=? MAX_GZIP_RESPONSE))
         || (div_ceil MAX_GZIP_RESPONSE 3 * 4 <? len payload)
      then Err "invalid or unnegotiated compressed peer response"
      else match base64_decode payload with
      | None => Err "decode compressed peer response base64"
      | Some compressed =>
          let '(produced, clean) := gunzip compressed in
          let limit := Z.to_nat (expanded_bytes + 1) in
          if Nat.ltb (length produced) limit && negb clean
          then Err "decode compressed peer response gzip"
          else
            let b := take limit produced in
            if negb (len b =? expanded_bytes) then Err "compressed peer response length mismatch"
            else match parse_response b with
            | None => Err "decode compressed peer response JSON"
            | Some response =>
                if negb (resp_ok response) then Err "compressed error response is not supported"
                else Ok (FResponse id response)
            end
      end
  | _ => Ok frame
  end.

(** ** The bounded encoder *)

Lemma bounded_write_spec maximum written pieces out :
  0 <= maximum -> len written <= maximum ->
  bounded_write maximum written pieces = Some out <->
  out = written ++ concat pieces /\ len (written ++ concat pieces) <= maximum.
Proof.
  revert written. induction pieces as [|p ps IH]; intros written Hm Hw; cbn [bounded_write concat].
  - rewrite app_nil_r. split; [intros [= <-]; done|by intros [-> _]].
  - destruct (Z.ltb_spec (u64_saturating_sub maximum (len written)) (len p)) as [Hlt|Hle];
      unfold u64_saturating_sub in *.
    + split; [done|]. intros [-> Hl]. unfold len in *. rewrite !length_app in Hl. lia.
    + rewrite IH, <- app_assoc; [done..|]. unfold len in *. rewrite length_app. lia.
Qed.

Lemma encode_spec frame maximum out :
  1 <= maximum ->
  encode frame maximum = Ok out <->
  out = concat (frame_json frame) ++ [newline] /\ len out <= maximum.
Proof.
  intros Hm. unfold encode. destruct (bounded_write _ _ _) as [b|] eqn:E.
  - apply bounded_write_spec in E as [-> Hl]; [|lia|unfold len; cbn; lia]. cbn [app] in *. unfold len in *.
    split; [intros [= <-]|by intros [-> _]]. split; [done|]. rewrite length_app. cbn. lia.
  - split; [done|]. intros [-> Hl]. exfalso.
    assert (Hb : bounded_write (maximum - 1) [] (frame_json frame) = Some (concat (frame_json frame))).
    { apply bounded_write_spec; [lia|unfold len; cbn; lia|]. split; [done|]. unfold len in *.
      rewrite length_app in Hl. cbn in *. lia. }
    congruence.
Qed.

Lemma read_until_line limit line rest :
  newline ∉ line -> (length line < limit)%nat ->
  read_until limit (line ++ newline :: rest) = (line ++ [newline], rest, false).
Proof.
  revert limit. induction line as [|c line IH]; intros [|limit] Hn Hl; cbn in Hl; try lia; cbn.
  - done.
  - destruct (Ascii.eqb_spec c newline) as [->|_]; [set_solver|].
    rewrite IH; [done|set_solver|lia].
Qed.

(** ** Reading what was written *)

(** The reading side of a connection, until [n] frames are read. *)
Fixpoint read_frames (n : nat) (maximum : Z) (s : Stream) : result CloseReason (list Frame) * Stream :=
  match n with
  | O => (Ok [], s)
  | S n' =>
      match read_frame maximum s with
      | (Ok f, s') =>
          match read_frames n' maximum s' with
          | (Ok fs, s'') => (Ok (f :: fs), s'')
          | failed => failed
          end
      | (Err e, s') => (Err e, s')
      end
  end.

Context `{!CodecLaws}.

Lemma read_encoded frame maximum b rest broken :
  exact frame = true -> 1 <= maximum -> encode frame maximum = Ok b ->
  read_frame maximum (mkStream (b ++ rest) broken) = (Ok frame, mkStream rest broken).
Proof.
  intros Hx Hm [-> Hl]%encode_spec; [|done]. unfold read_frame. cbn [s_data s_broken].
  rewrite <- app_assoc. cbn [app]. rewrite read_until_line.
  - cbn [andb]. rewrite bool_decide_eq_false_2 by (intros Hnil; by apply app_eq_nil in Hnil as [_ ?]).
    rewrite last_snoc, bool_decide_eq_true_2 by done. cbn [negb].
    rewrite (proj2 (Z.ltb_ge _ _) Hl). cbn [orb]. by rewrite (parse_frame_json _ Hx).
  - apply frame_json_one_line.
  - unfold len in Hl. rewrite length_app in Hl. cbn in Hl. lia.
Qed.

(** C40: frames survive the wire. What the encoder accepts, the reader of the other side returns, in
    order and one frame for each, with the bytes that follow untouched; for frames whose values JSON
    gives back: without floating point numbers, not nested beyond the limit of the reader, and
    without [null] as the result of a response. *)
Theorem frames_survive_the_wire maximum frames lines rest broken :
  1 <= maximum -> Forall2 (fun f b => exact f = true /\ encode f maximum = Ok b) frames lines ->
  read_frames (length frames) maximum (mkStream (concat lines ++ rest) broken) =
    (Ok frames, mkStream rest broken).
Proof.
  intros Hm Hf. induction Hf as [|f b fs bs [Hx Hb] _ IH]; [done|].
  cbn [length read_frames concat]. rewrite <- app_assoc, (read_encoded f) by done. by rewrite IH.
Qed.

Lemma response_size_spec n pieces m :
  0 <= n <= MAX_GZIP_RESPONSE ->
  response_size n pieces = Some m -> m = n + len (concat pieces) /\ m <= MAX_GZIP_RESPONSE.
Proof.
  revert n. induction pieces as [|p ps IH]; intros n Hn; cbn [response_size concat].
  { intros [= <-]. unfold len. cbn. lia. }
  unfold u64_checked_add. destruct (_ <=? U64_MAX); [|done].
  destruct (Z.leb_spec (n + len p) MAX_GZIP_RESPONSE) as [Hle|]; [|done]. intros [-> Hmax]%IH.
  - split; [|done]. unfold len. rewrite length_app. lia.
  - unfold len in *. lia.
Qed.

Lemma div_ceil_mono a b : a <= b -> div_ceil a 3 <= div_ceil b 3.
Proof. unfold div_ceil. intros. apply Z.div_le_mono; lia. Qed.

(** The frame of a response: uncompressed, or the compressed form of the same response. *)
Lemma encode_response_frame_cases id r negotiated :
  encode_response_frame id r negotiated = FResponse id r \/
  exists z, negotiated = true /\ resp_ok r = true /\ gzip (concat (response_json r)) = Some z /\
    MIN_GZIP_RESPONSE <= len (concat (response_json r)) <= MAX_GZIP_RESPONSE /\
    div_ceil (len z) 3 * 4 + 256 < len (concat (response_json r)) /\
    encode_response_frame id r negotiated =
      ResponseGzip id (len (concat (response_json r))) (base64_encode z).
Proof.
  unfold encode_response_frame. destruct (negotiated && resp_ok r) eqn:E; [|by left].
  apply andb_true_iff in E as [-> Hok].
  destruct (response_size 0 _) as [size|] eqn:Hs; [|by left].
  apply response_size_spec in Hs as [-> Hmax]; [|unfold MAX_GZIP_RESPONSE; lia]. rewrite Z.add_0_l in *.
  destruct (Z.leb_spec MIN_GZIP_RESPONSE (len (concat (response_json r)))) as [Hmin|]; [|by left].
  destruct (gzip _) as [z|]; [|by left].
  destruct (Z.ltb_spec (div_ceil (len z) 3 * 4 + 256) (len (concat (response_json r)))); [|by left].
  right. exists z. by split_and!.
Qed.

Lemma decode_compressed id r z maximum :
  exact_response r = true -> resp_ok r = true -> gzip (concat (response_json r)) = Some z ->
  MIN_GZIP_RESPONSE <= len (concat (response_json r)) <= MAX_GZIP_RESPONSE ->
  len (concat (response_json r)) <= maximum ->
  div_ceil (len z) 3 * 4 + 256 < len (concat (response_json r)) ->
  decode_response_frame (ResponseGzip id (len (concat (response_json r))) (base64_encode z)) true maximum =
    Ok (FResponse id r).
Proof.
  intros Hx Hok Hz [Hmin Hmax] Hm Hc. cbn [decode_response_frame negb].
  rewrite (proj2 (Z.ltb_ge _ _) Hm), (proj2 (Z.leb_le _ _) Hmin), (proj2 (Z.leb_le _ _) Hmax). cbn [andb negb orb].
  rewrite base64_length, (proj2 (Z.ltb_ge _ _)).
  2: { assert (len z <= MAX_GZIP_RESPONSE).
       { unfold div_ceil in Hc. assert (0 <= len z) by (unfold len; lia).
         pose proof (Z.div_mod (len z + 3 - 1) 3 ltac:(lia)).
         pose proof (Z.mod_pos_bound (len z + 3 - 1) 3 ltac:(lia)). lia. }
       pose proof (div_ceil_mono _ _ H1). lia. }
  rewrite base64_decode_encode, (gunzip_gzip _ _ Hz), andb_false_r.
  rewrite take_ge by (unfold len; lia). rewrite Z.eqb_refl. cbn [negb].
  by rewrite (parse_response_json _ Hx), Hok.
Qed.

(** responses survive compression. A response whose plain frame fits the limit is sent in a frame
    that fits too, and the other side, with the same limit and the same negotiation, reads exactly
    that response for exactly that request. *)
Theorem responses_survive_compression maximum id r negotiated plain rest broken :
  1 <= maximum -> exact_response r = true -> encode (FResponse id r) maximum = Ok plain ->
  exists line frame, encode (encode_response_frame id r negotiated) maximum = Ok line /\
    read_frame maximum (mkStream (line ++ rest) broken) = (Ok frame, mkStream rest broken) /\
    decode_response_frame frame negotiated maximum = Ok (FResponse id r).
Proof.
  intros Hm Hx Hp. pose proof (proj1 (encode_spec _ _ _ Hm) Hp) as [-> Hl].
  pose proof (response_inside_frame id r) as Hin.
  unfold len in Hl. rewrite length_app in Hl. cbn in Hl.
  destruct (encode_response_frame_cases id r negotiated) as [->|(z & -> & Hok & Hz & Hs & Hc & ->)].
  { exists (concat (frame_json (FResponse id r)) ++ [newline]), (FResponse id r). split; [done|]. split; [apply read_encoded; [exact Hx|done..]|done]. }
  set (n := len (concat (response_json r))) in *.
  assert (He : encode (ResponseGzip id n (base64_encode z)) maximum =
    Ok (concat (frame_json (ResponseGzip id n (base64_encode z))) ++ [newline])).
  { apply encode_spec; [done|]. split; [done|].
    pose proof (gzip_frame_size id r n z ltac:(unfold U64_MAX, MIN_GZIP_RESPONSE, MAX_GZIP_RESPONSE in *; lia)) as Hg.
    fold n in Hg. rewrite base64_length in Hg.
    unfold len at 1. rewrite length_app. unfold len in Hg, Hc. cbn. lia. }
  eexists _, _. split; [exact He|]. split.
  { apply read_encoded; [|done..]. cbn.
    rewrite (proj2 (Z.leb_le _ _)), (proj2 (Z.leb_le _ _)); unfold U64_MAX, MIN_GZIP_RESPONSE, MAX_GZIP_RESPONSE in *; (done || lia). }
  apply decode_compressed; try done. unfold len in Hin. lia.
Qed.

End Framing.
