(* ===== verification/FramingCodec.v ===== *)
(** * A codec that satisfies the laws of [Framing]

    The theorems on frames hold for every codec with [CodecLaws]. This one shows
    that the laws can hold together: values are written as binary digits,
    [base64] packs three bytes into four characters, compression is the
    identity. The witnesses of the theorems on frames are at the end. *)
From Stdlib Require Import Ascii String.
From stdpp Require Import base strings list countable sets.
From S2P Require Import Prelude Json Protocol Framing.
Open Scope Z_scope.

(** ** Values as trees, trees as binary digits *)

Definition tree : Type := gen_tree (Z + string).

Fixpoint value_tree (v : Value) : tree :=
  match v with
  | VNull => GenNode 0 []
  | VBool false => GenNode 1 []
  | VBool true => GenNode 2 []
  | VNumber (PosInt n) => GenNode 3 [GenLeaf (inl n)]
  | VNumber (NegInt n) => GenNode 4 [GenLeaf (inl n)]
  | VNumber (Float _) => GenNode 5 []
  | VString s => GenLeaf (inr s)
  | VArray l => GenNode 6 (map value_tree l)
  | VObject m => GenNode 7 (map (fun p => GenNode 8 [GenLeaf (inr p.1); value_tree p.2]) m)
  end.

Fixpoint tree_value (t : tree) : Value :=
  match t with
  | GenNode 1 _ => VBool false
  | GenNode 2 _ => VBool true
  | GenNode 3 [GenLeaf (inl n)] => VNumber (PosInt n)
  | GenNode 4 [GenLeaf (inl n)] => VNumber (NegInt n)
  | GenLeaf (inr s) => VString s
  | GenNode 6 l => VArray (map tree_value l)
  | GenNode 7 l =>
      VObject (map (fun e =>
        match e with
        | GenNode 8 [GenLeaf (inr k); v] => (k, tree_value v)
        | _ => (EmptyString, VNull)
        end) l)
  | _ => VNull
  end.

Lemma tree_value_tree : forall v, no_floats v = true -> tree_value (value_tree v) = v.
Proof.
  fix IH 1. intros [|[]|[n|n|f]|s|l|m] Hn; cbn in *; try done.
  - f_equal. induction l as [|v l IHl]; [done|]. cbn in *.
    apply andb_true_iff in Hn as [H1 H2]. rewrite (IH v H1). f_equal. by apply IHl.
  - f_equal. induction m as [|[k v] m IHm]; [done|]. cbn in *.
    apply andb_true_iff in Hn as [H1 H2]. rewrite (IH v H1). f_equal. by apply IHm.
Qed.

Fixpoint pos_bytes (p : positive) : bytes :=
  match p with
  | xH => []
  | xO p => "0"%char :: pos_bytes p
  | xI p => "1"%char :: pos_bytes p
  end.

Fixpoint bytes_pos (b : bytes) : positive :=
  match b with
  | [] => xH
  | c :: b => if Ascii.eqb c "0"%char then xO (bytes_pos b) else xI (bytes_pos b)
  end.

Definition digits (b : bytes) : Prop := Forall (fun c => c = "0"%char \/ c = "1"%char) b.

Lemma bytes_pos_bytes p : bytes_pos (pos_bytes p) = p.
Proof. induction p; cbn; by f_equal. Qed.

Lemma pos_bytes_digits p : digits (pos_bytes p).
Proof. induction p; constructor; auto. Qed.

Lemma digits_not b c : digits b -> c <> "0"%char -> c <> "1"%char -> c ∉ b.
Proof. intros Hd H0 H1 Hin. by destruct (proj1 (Forall_forall _ _) Hd _ Hin). Qed.

Definition value_bytes (v : Value) : bytes := pos_bytes (countable.encode (value_tree v)).
Definition bytes_value (b : bytes) : Value :=
  match countable.decode (bytes_pos b) with Some t => tree_value t | None => VNull end.

Lemma bytes_value_bytes v : no_floats v = true -> bytes_value (value_bytes v) = v.
Proof.
  intros Hn. unfold bytes_value, value_bytes. rewrite bytes_pos_bytes, decode_encode.
  by apply tree_value_tree.
Qed.

(** ** Records as values *)

Definition wrap (o : option Value) : Value := match o with Some v => VArray [v] | None => VNull end.
Definition unwrap (v : Value) : option Value := match v with VArray [x] => Some x | _ => None end.
Definition text (v : Value) : string := match v with VString s => s | _ => EmptyString end.
Definition flag (v : Value) : bool := match v with VBool b => b | _ => false end.

Lemma unwrap_wrap o : unwrap (wrap o) = o.
Proof. by destruct o. Qed.
Lemma no_floats_wrap o : no_floats (wrap o) = opt_all no_floats o.
Proof. destruct o; cbn; [by rewrite andb_true_r|done]. Qed.

Definition error_value (e : RpcError) : Value :=
  VArray [VString (err_code e); VString (err_message e); VBool (err_retryable e); err_details e].
Definition value_error (v : Value) : RpcError :=
  match v with
  | VArray [c; m; r; d] => mkRpcError (text c) (text m) (flag r) d
  | _ => rpc_error "" ""
  end.

Definition response_value (r : Response) : Value :=
  VArray [VBool (resp_ok r); VString (resp_api_version r); VString (resp_request_id r);
          wrap (resp_result r); wrap (error_value <$> resp_error r)].
Definition value_response (v : Value) : Response :=
  match v with
  | VArray [o; a; i; r; e] => mkResponse (flag o) (text a) (text i) (unwrap r) (value_error <$> unwrap e)
  | _ => response_success "" VNull
  end.

Lemma value_response_value r : value_response (response_value r) = r.
Proof.
  destruct r as [o a i r [[c m t d]|]]; unfold response_value, value_response; cbn; by rewrite unwrap_wrap.
Qed.

Lemma response_value_exact r : exact_response r = true -> no_floats (response_value r) = true.
Proof.
  destruct r as [o a i r [[c m t d]|]]; unfold exact_response; cbn [opt_all resp_result resp_error]; intros [H1 H2]%andb_true_iff;
    assert (opt_all no_floats r = true) as H3 by (destruct r; cbn [opt_all] in *; [apply andb_true_iff in H1 as [_ H1]; by eapply readable_no_floats|done]).
  - apply readable_no_floats in H2. clear H1. cbn in *. by rewrite no_floats_wrap, H3, H2.
  - cbn. by rewrite no_floats_wrap, H3.
Qed.

Definition strings_value (l : list string) : Value := VArray (VString <$> l).
Definition value_strings (v : Value) : list string := match v with VArray l => text <$> l | _ => [] end.

Lemma value_strings_value l : value_strings (strings_value l) = l.
Proof. cbn. rewrite <- list_fmap_compose. by induction l as [|s l IH]; cbn; [|f_equal]. Qed.
Lemma strings_value_exact l : no_floats (strings_value l) = true.
Proof. cbn. by induction l. Qed.

Definition binding_value (b : ChannelBinding) : Value := VArray [VString (cb_lease_id b); cb_scope b].
Definition value_binding (v : Value) : ChannelBinding :=
  match v with VArray [l; s] => mkChannelBinding (text l) s | _ => mkChannelBinding "" VNull end.

Definition hello_value (h : HelloFields) : list Value :=
  [VString (h_protocol h); VString (h_node_id h); strings_value (h_roles h);
   wrap (binding_value <$> h_binding h); VBool (h_response_gzip h)].
Definition value_hello (l : list Value) : HelloFields :=
  match l with
  | [p; n; r; b; g] => mkHelloFields (text p) (text n) (value_strings r) (value_binding <$> unwrap b) (flag g)
  | _ => mkHelloFields "" "" [] None false
  end.

Lemma value_hello_value h : value_hello (hello_value h) = h.
Proof.
  destruct h as [p n r [[l s]|] g]; unfold hello_value, value_hello; cbn [h_roles h_binding h_protocol
    h_node_id h_response_gzip]; by rewrite value_strings_value.
Qed.

Lemma hello_value_exact h : exact_hello h = true -> forallb no_floats (hello_value h) = true.
Proof.
  destruct h as [p n r [[l s]|] g]; unfold exact_hello, hello_value; cbn [h_roles h_binding opt_all cb_scope];
    intros Hs; cbn [forallb]; rewrite strings_value_exact; [apply readable_no_floats in Hs|]; cbn in *; [by rewrite Hs|done].
Qed.

Definition request_value (r : Request) : list Value :=
  [VString (req_api_version r); VString (req_request_id r); wrap (VString <$> req_correlation_id r);
   wrap (VString <$> req_parent_request_id r); VString (req_action r); req_params r].
Definition value_request (l : list Value) : Request :=
  match l with
  | [a; i; c; p; n; v] => mkRequest (text a) (text i) (text <$> unwrap c) (text <$> unwrap p) (text n) v
  | _ => mkRequest "" "" None None "" VNull
  end.

Lemma value_request_value r : value_request (request_value r) = r.
Proof. by destruct r as [a i [c|] [p|] n v]. Qed.

Lemma request_value_exact r : readable (MAX_NESTING - 2) (req_params r) = true -> forallb no_floats (request_value r) = true.
Proof. intros H%readable_no_floats. destruct r as [a i [c|] [p|] n v]; cbn in *; by rewrite H. Qed.

(** The frames other than responses. *)
Definition frame_value (f : Frame) : Value :=
  match f with
  | Hello h => VArray (VString "h" :: hello_value h)
  | HelloAck h => VArray (VString "a" :: hello_value h)
  | FRequest id role r => VArray (VString "q" :: VString id :: VString role :: request_value r)
  | Cancel id => VArray [VString "c"; VString id]
  | ResponseGzip id n payload =>
      VArray [VString "z"; VString id; VNumber (PosInt n); VString (string_of_list_ascii payload)]
  | FResponse _ _ => VNull
  end.
Definition value_frame (v : Value) : option Frame :=
  match v with
  | VArray [VString "z"; VString id; VNumber (PosInt n); VString payload] =>
      Some (ResponseGzip id n (list_ascii_of_string payload))
  | VArray (VString "q" :: VString id :: VString role :: r) => Some (FRequest id role (value_request r))
  | VArray [VString "c"; VString id] => Some (Cancel id)
  | VArray (VString "h" :: h) => Some (Hello (value_hello h))
  | VArray (VString "a" :: h) => Some (HelloAck (value_hello h))
  | _ => None
  end.

Lemma value_frame_value f :
  match f with FResponse _ _ => False | _ => True end -> value_frame (frame_value f) = Some f.
Proof.
  destruct f as [h|h|id role r|id r|id n p|id]; intros Hf; try done; unfold frame_value.
  - by rewrite <- (value_hello_value h) at 2.
  - by rewrite <- (value_hello_value h) at 2.
  - by rewrite <- (value_request_value r) at 2.
  - cbn. by rewrite list_ascii_of_string_of_list_ascii.
Qed.

Lemma frame_value_exact f : exact f = true -> no_floats (frame_value f) = true.
Proof.
  destruct f as [h|h|id role r|id r|id n p|id]; try done; cbn [frame_value exact].
  - exact (hello_value_exact h).
  - exact (hello_value_exact h).
  - exact (request_value_exact r).
Qed.

(** ** Base 64: three bytes in four characters of six bits, the last group padded *)

Definition six (a b c d e f : bool) : ascii := Ascii a b c d e f true false.
Definition pad : ascii := "="%char.

Fixpoint base64 (b : bytes) : bytes :=
  match b with
  | Ascii a0 a1 a2 a3 a4 a5 a6 a7 :: Ascii b0 b1 b2 b3 b4 b5 b6 b7 :: Ascii c0 c1 c2 c3 c4 c5 c6 c7 :: r =>
      six a0 a1 a2 a3 a4 a5 :: six a6 a7 b0 b1 b2 b3 :: six b4 b5 b6 b7 c0 c1 :: six c2 c3 c4 c5 c6 c7
        :: base64 r
  | [Ascii a0 a1 a2 a3 a4 a5 a6 a7; Ascii b0 b1 b2 b3 b4 b5 b6 b7] =>
      [six a0 a1 a2 a3 a4 a5; six a6 a7 b0 b1 b2 b3; six b4 b5 b6 b7 false false; pad]
  | [Ascii a0 a1 a2 a3 a4 a5 a6 a7] =>
      [six a0 a1 a2 a3 a4 a5; six a6 a7 false false false false; pad; pad]
  | [] => []
  end.

Fixpoint unbase64 (b : bytes) : option bytes :=
  match b with
  | [] => Some []
  | Ascii a0 a1 a2 a3 a4 a5 _ _ :: Ascii a6 a7 b0 b1 b2 b3 _ _
      :: Ascii b4 b5 b6 b7 c0 c1 p _ :: Ascii c2 c3 c4 c5 c6 c7 q _ :: r =>
      if negb p then Some [Ascii a0 a1 a2 a3 a4 a5 a6 a7]
      else if negb q then Some [Ascii a0 a1 a2 a3 a4 a5 a6 a7; Ascii b0 b1 b2 b3 b4 b5 b6 b7]
      else
        match unbase64 r with
        | Some s =>
            Some (Ascii a0 a1 a2 a3 a4 a5 a6 a7 :: Ascii b0 b1 b2 b3 b4 b5 b6 b7
                  :: Ascii c0 c1 c2 c3 c4 c5 c6 c7 :: s)
        | None => None
        end
  | _ => None
  end.

Lemma bytes_ind3 (P : bytes -> Prop) :
  P [] -> (forall a, P [a]) -> (forall a b, P [a; b]) ->
  (forall a b c r, P r -> P (a :: b :: c :: r)) -> forall l, P l.
Proof.
  intros H0 H1 H2 H3. fix IH 1. intros [|a [|b [|c r]]]; [done..|]. apply H3, IH.
Qed.

Lemma unbase64_base64 b : unbase64 (base64 b) = Some b.
Proof.
  induction b as [|a|a b|a b c r IH] using bytes_ind3; cbn; [done|by destruct a|by destruct a, b|].
  destruct a, b, c. cbn. by rewrite IH.
Qed.

Lemma base64_len b : len (base64 b) = div_ceil (len b) 3 * 4.
Proof.
  induction b as [|a|a b|a b c r IH] using bytes_ind3; [done|by destruct a|by destruct a, b|].
  assert (Hd : div_ceil (len (a :: b :: c :: r)) 3 = div_ceil (len r) 3 + 1).
  { unfold div_ceil, len. cbn [length]. rewrite <- Z.div_add by lia. f_equal. lia. }
  rewrite Hd, Z.mul_add_distr_r, <- IH. destruct a, b, c. unfold len. cbn [base64 length]. lia.
Qed.

Lemma base64_one_line b : newline ∉ base64 b.
Proof.
  induction b as [|a|a b|a b c r IH] using bytes_ind3; [apply not_elem_of_nil|destruct a|destruct a, b|destruct a, b, c];
    cbn [base64]; rewrite ?not_elem_of_cons; split_and?; try done; apply not_elem_of_nil.
Qed.

(** ** The codec *)

Definition semi : ascii := ";"%char.
Definition one_line (b : bytes) : bool := forallb (fun c => negb (Ascii.eqb c newline)) b.

Fixpoint cut (b : bytes) : bytes * bytes :=
  match b with
  | [] => ([], [])
  | c :: b => if Ascii.eqb c semi then ([], b) else let (x, y) := cut b in (c :: x, y)
  end.

Lemma cut_app x y : semi ∉ x -> cut (x ++ semi :: y) = (x, y).
Proof.
  induction x as [|c x IH]; intros Hn; cbn; [done|].
  destruct (Ascii.eqb_spec c semi) as [->|_]; [set_solver|]. rewrite IH by set_solver. done.
Qed.

Definition write_response (r : Response) : bytes := value_bytes (response_value r).

Definition write_frame (f : Frame) : bytes :=
  match f with
  | FResponse id r => "r"%char :: value_bytes (VString id) ++ semi :: write_response r
  | ResponseGzip id n payload =>
      if one_line payload && (0 <=? n)
      then "z"%char :: value_bytes (VString id) ++ semi :: pos_bytes (Z.to_pos (n + 1)) ++ semi :: payload
      else "v"%char :: value_bytes (frame_value f)
  | _ => "v"%char :: value_bytes (frame_value f)
  end.

Definition read_line (b : bytes) : option Frame :=
  match b with
  | "r"%char :: b =>
      let (id, r) := cut b in
      Some (FResponse (text (bytes_value id)) (value_response (bytes_value r)))
  | "z"%char :: b =>
      let (id, b) := cut b in
      let (n, payload) := cut b in
      Some (ResponseGzip (text (bytes_value id)) (Zpos (bytes_pos n) - 1) payload)
  | "v"%char :: b => value_frame (bytes_value b)
  | _ => None
  end.

#[local] Instance sample_codec : Codec := {
  frame_json f := [write_frame f];
  parse_frame b := read_line (removelast b);
  response_json r := [write_response r];
  parse_response b := Some (value_response (bytes_value b));
  gzip b := Some b;
  gunzip b := (b, true);
  base64_encode := base64;
  base64_decode := unbase64;
}.

Lemma value_bytes_no v c : c <> "0"%char -> c <> "1"%char -> c ∉ value_bytes v.
Proof. apply digits_not, pos_bytes_digits. Qed.

Lemma one_line_spec b : one_line b = true <-> newline ∉ b.
Proof.
  unfold one_line. induction b as [|c b IH]; cbn.
  - split; [intros _; apply not_elem_of_nil|done].
  - rewrite andb_true_iff, IH, negb_true_iff, Ascii.eqb_neq, not_elem_of_cons. naive_solver.
Qed.

Lemma read_write_frame f : exact f = true -> read_line (write_frame f) = Some f.
Proof.
  assert (Hv : forall g, match g with FResponse _ _ => False | _ => True end -> exact g = true ->
    read_line ("v"%char :: value_bytes (frame_value g)) = Some g).
  { intros g Hg Hx. cbn. rewrite bytes_value_bytes by by apply frame_value_exact.
    by apply value_frame_value. }
  destruct f as [h|h|id role r|id r|id n p|id]; intros Hx; try by apply Hv.
  - cbn. rewrite cut_app by (by apply value_bytes_no). rewrite bytes_value_bytes by done.
    unfold write_response. rewrite bytes_value_bytes by by apply response_value_exact.
    by rewrite value_response_value.
  - cbn [write_frame]. destruct (one_line p && (0 <=? n)) eqn:E; [|by apply Hv].
    apply andb_true_iff in E as [_ Hn%Z.leb_le]. cbn.
    rewrite cut_app by (by apply value_bytes_no). rewrite cut_app.
    + rewrite bytes_value_bytes, bytes_pos_bytes by done. cbn. do 2 f_equal. lia.
    + apply digits_not; [apply pos_bytes_digits|done..].
Qed.

Lemma write_frame_one_line f : newline ∉ write_frame f.
Proof.
  assert (Hv : forall v c, c <> newline -> newline ∉ c :: value_bytes v).
  { intros v c Hc. apply not_elem_of_cons. split; [done|]. by apply value_bytes_no. }
  destruct f as [h|h|id role r|id r|id n p|id]; try by apply Hv.
  - cbn. rewrite not_elem_of_cons, not_elem_of_app, not_elem_of_cons.
    split_and!; try done; by apply value_bytes_no.
  - cbn [write_frame]. destruct (one_line p && (0 <=? n)) eqn:E; [|by apply Hv].
    apply andb_true_iff in E as [Hp%one_line_spec _].
    rewrite not_elem_of_cons, not_elem_of_app, not_elem_of_cons, not_elem_of_app, not_elem_of_cons.
    split_and!; try done; [by apply value_bytes_no|]. apply digits_not; [apply pos_bytes_digits|done..].
Qed.

Lemma pos_bytes_length p n : (Zpos p < 2 ^ Z.of_nat (S n)) -> (length (pos_bytes p) <= n)%nat.
Proof.
  revert p. induction n as [|n IH]; intros p Hp.
  - destruct p; cbn in Hp |- *; lia.
  - rewrite Nat2Z.inj_succ, Z.pow_succ_r in Hp by lia.
    destruct p as [p|p|]; cbn [pos_bytes length]; [| |lia]; apply le_n_S, IH; lia.
Qed.

Lemma gzip_size id r n z :
  0 <= n <= U64_MAX ->
  len (write_frame (ResponseGzip id n (base64 z))) + len (write_response r) <=
  len (base64 z) + 256 + len (write_frame (FResponse id r)).
Proof.
  intros Hn. cbn [write_frame].
  rewrite (proj2 (one_line_spec _) (base64_one_line z)), (proj2 (Z.leb_le 0 n)) by lia. cbn [andb].
  assert (Hl : (length (pos_bytes (Z.to_pos (n + 1))) <= 64)%nat).
  { apply pos_bytes_length. rewrite Z2Pos.id by lia. unfold U64_MAX in Hn. cbn. lia. }
  unfold len. cbn [length]. rewrite !length_app. cbn [length]. rewrite !length_app. cbn [length]. lia.
Qed.

#[local] Instance sample_codec_laws : CodecLaws.
Proof.
  constructor; cbn [frame_json parse_frame response_json parse_response gzip gunzip base64_encode
    base64_decode sample_codec concat]; try (intros; rewrite ?app_nil_r).
  - rewrite removelast_last. by apply read_write_frame.
  - apply write_frame_one_line.
  - f_equal. unfold write_response. rewrite bytes_value_bytes by by apply response_value_exact.
    apply value_response_value.
  - unfold len. cbn [write_frame length]. rewrite length_app. cbn [length]. lia.
  - by apply gzip_size.
  - by simplify_eq.
  - apply unbase64_base64.
  - apply base64_len.
Qed.

(** ** Witnesses *)

Definition sample_request : Request := mkRequest RPC_VERSION "req_1" None None "fs.read" VNull.
Definition sample_response : Response := response_success "req_1" (VString "ok").
Definition sample_frames : list Frame := [FRequest "p1" "executor" sample_request; Cancel "p1"; FResponse "p1" sample_response].
Definition sample_lines : list bytes := (fun f => concat (frame_json f) ++ [newline]) <$> sample_frames.

Lemma frames_survive_the_wire_witness :
  read_frames 3 4096 (mkStream (concat sample_lines ++ []) false) = (Ok sample_frames, mkStream [] false).
Proof.
  apply (frames_survive_the_wire 4096 sample_frames sample_lines [] false).
  - lia.
  - repeat constructor; vm_compute; reflexivity.
Defined.

Lemma responses_survive_compression_witness :
  exists line frame, encode (encode_response_frame "p1" sample_response true) 4096 = Ok line /\
    read_frame 4096 (mkStream (line ++ []) false) = (Ok frame, mkStream [] false) /\
    decode_response_frame frame true 4096 = Ok (FResponse "p1" sample_response).
Proof.
  apply (responses_survive_compression 4096 "p1" sample_response true
           (concat (frame_json (FResponse "p1" sample_response)) ++ [newline])).
  - lia.
  - reflexivity.
  - vm_compute. reflexivity.
Defined.
