(* ===== verification/Connection.v ===== *)
(** * Peer connections ([crates/machine-fabric-peer/src/connection.rs])

    One side of a duplex connection: the state behind the mutex, the bounded
    queue of the writer thread, the reader thread, the watchdog, the threads
    that handle inbound requests and the callers that wait for a response.
    [peer_event] is one step of one of these threads, so that a list of events
    is an interleaving of them: the steps are the lock sections of the source
    (sending a frame, the check of the lease included, is one step). [Framing] has the frames; the lease is the one of [PeerLease]. *)
From Stdlib Require Import Ascii.
From stdpp Require Import base gmap strings list.
From S2P Require Import Prelude Json Protocol PeerLease Framing.
Open Scope Z_scope.
Open Scope fabric_scope.

Inductive PeerProtocol := LegacyV1 | ScopedV2.
#[export] Instance PeerProtocol_eq_dec : EqDecision PeerProtocol.
Proof. solve_decision. Defined.

(** [PeerProtocol::name] *)
Definition protocol_name (p : PeerProtocol) : string :=
  match p with LegacyV1 => "machine-fabric.peer/v1" | ScopedV2 => "machine-fabric.peer/v2" end.

Record PeerLimits := mkPeerLimits {
  max_frame_bytes : Z;
  max_outbound_requests : Z;
  max_inbound_requests : Z;
  max_queued_frames : Z;
  handshake_timeout : Z;
  request_timeout : Z;
}.

(** [PeerLimits::default] *)
Definition PeerLimits_default : PeerLimits := mkPeerLimits (8 * 1024 * 1024) 64 16 64 15000 60000.

(** The lease of a configuration is its identifier; its state is shared, see [Peer]. *)
Record PeerConfig := mkPeerConfig {
  protocol : PeerProtocol;
  local_id : string;
  expected_peer_id : string;
  services : list string;
  required_peer_services : list string;
  binding : option ChannelBinding;
  lease : option string;
  limits : PeerLimits;
}.

Definition peer_name_char (c : ascii) : bool :=
  is_ascii_alphanumeric c || existsb (Ascii.eqb c) ["."%char; "_"%char; ":"%char; "-"%char].

(** [validate_name] *)
Definition validate_name (name : string) : result string unit :=
  if str_is_empty name || (256 <? str_len name) || negb (bytes_all peer_name_char name)
  then Err "invalid peer/service identity" else Ok tt.

(** The loop of [PeerConfig::validate] over one list of services. *)
Fixpoint validate_services (names seen : list string) : result string unit :=
  match names with
  | [] => Ok tt
  | s :: names' =>
      match validate_name s with
      | Err e => Err e
      | Ok _ => if bool_decide (s ∈ seen) then Err "duplicate service name"
                else validate_services names' (s :: seen)
      end
  end.

(** [PeerConfig::validate] *)
Definition validate (c : PeerConfig) : M PeerLease.State string unit :=
  for_each [local_id c; expected_peer_id c] (fun id => lift (validate_name id)) ;;
  for_each [services c; required_peer_services c] (fun names =>
    if bool_decide (names = []) || (64 <? len names) then fail "provide 1..64 service names"
    else lift (validate_services names [])) ;;
  match protocol c, binding c, lease c with
  | LegacyV1, None, None => ret tt
  | ScopedV2, Some b, Some id =>
      if String.eqb (cb_lease_id b) id && is_object (cb_scope b) then
        let* e := ended in
        match e with Some _ => fail "lease is no longer active" | None => ret tt end
      else fail "scoped peers require a matching binding and lease; v1 is unscoped"
  | _, _, _ => fail "scoped peers require a matching binding and lease; v1 is unscoped"
  end ;;
  let l := limits c in
  if (max_frame_bytes l <? 1024) || (256 * 1024 * 1024 <? max_frame_bytes l)
     || (max_outbound_requests l =? 0) || (max_inbound_requests l =? 0) || (max_queued_frames l =? 0)
     || (handshake_timeout l =? 0) || (request_timeout l =? 0)
  then fail "invalid peer limits"
  else ret tt.

Inductive Handshake := Initiate | Accept.

Record RequestContext := mkRequestContext {
  rc_peer_id : string;
  rc_service : string;
  rc_binding : option ChannelBinding;
}.

(** The state behind the mutex. A pending call is its request identifier; an inbound request is
    the flag of its cancellation, shared with the thread that handles it. *)
Record State := mkState {
  c_response_gzip : bool;
  c_ready : bool;
  c_remote_services : list string;
  c_closed : option CloseReason;
  c_pending : gmap string string;
  c_inbound : gmap string bool;
  c_io_threads : Z;
}.

(** Where the reader thread is, and where the thread of an inbound request is. *)
Inductive reader_pc :=
| RStart | RHello | RLoop (response_gzip : bool) | RFrame (response_gzip : bool) (frame : Frame)
| RFailed (reason : CloseReason) | RExit | RDone.
Inductive handler_pc :=
| HStart (context : RequestContext) (request : Request)
| HRun (context : RequestContext) (request : Request)
| HCall (context : RequestContext) (request : Request)
| HBusy (request_id : string)
| HRespond (response : Response)
| HRemove.

(** The connection with its threads. [p_answers] are the messages sent to the callers' channels,
    [p_waiting] the callers blocked in [recv_timeout], [p_results] what calls returned, with the
    identifiers of the call and of its request;
    [p_authorized] and [p_dispatched] record the inbound requests that the authorizer accepted and
    that reached the handler; [p_shutdowns] counts the calls of the transport's shutdown. *)
Record Peer := mkPeer {
  p_state : State;
  p_lease : PeerLease.State;
  p_outgoing : list bytes;
  p_written : list bytes;
  p_writer_done : bool;
  p_reader : reader_pc;
  p_handlers : gmap string handler_pc;
  p_waiting : gmap string string;
  p_answers : list (string * Response);
  p_results : list (string * string * Response);
  p_authorized : list (RequestContext * Request);
  p_dispatched : list (RequestContext * Request);
  p_shutdowns : Z;
}.

Definition set_state f p := mkPeer (f (p_state p)) (p_lease p) (p_outgoing p) (p_written p) (p_writer_done p) (p_reader p) (p_handlers p) (p_waiting p) (p_answers p) (p_results p) (p_authorized p) (p_dispatched p) (p_shutdowns p).
Definition set_lease l p := mkPeer (p_state p) l (p_outgoing p) (p_written p) (p_writer_done p) (p_reader p) (p_handlers p) (p_waiting p) (p_answers p) (p_results p) (p_authorized p) (p_dispatched p) (p_shutdowns p).
Definition set_outgoing o p := mkPeer (p_state p) (p_lease p) o (p_written p) (p_writer_done p) (p_reader p) (p_handlers p) (p_waiting p) (p_answers p) (p_results p) (p_authorized p) (p_dispatched p) (p_shutdowns p).
Definition set_written o p := mkPeer (p_state p) (p_lease p) (p_outgoing p) o (p_writer_done p) (p_reader p) (p_handlers p) (p_waiting p) (p_answers p) (p_results p) (p_authorized p) (p_dispatched p) (p_shutdowns p).
Definition set_writer_done b p := mkPeer (p_state p) (p_lease p) (p_outgoing p) (p_written p) b (p_reader p) (p_handlers p) (p_waiting p) (p_answers p) (p_results p) (p_authorized p) (p_dispatched p) (p_shutdowns p).
Definition set_reader r p := mkPeer (p_state p) (p_lease p) (p_outgoing p) (p_written p) (p_writer_done p) r (p_handlers p) (p_waiting p) (p_answers p) (p_results p) (p_authorized p) (p_dispatched p) (p_shutdowns p).
Definition set_handlers f p := mkPeer (p_state p) (p_lease p) (p_outgoing p) (p_written p) (p_writer_done p) (p_reader p) (f (p_handlers p)) (p_waiting p) (p_answers p) (p_results p) (p_authorized p) (p_dispatched p) (p_shutdowns p).
Definition set_waiting f p := mkPeer (p_state p) (p_lease p) (p_outgoing p) (p_written p) (p_writer_done p) (p_reader p) (p_handlers p) (f (p_waiting p)) (p_answers p) (p_results p) (p_authorized p) (p_dispatched p) (p_shutdowns p).
Definition add_answers l p := mkPeer (p_state p) (p_lease p) (p_outgoing p) (p_written p) (p_writer_done p) (p_reader p) (p_handlers p) (p_waiting p) (p_answers p ++ l) (p_results p) (p_authorized p) (p_dispatched p) (p_shutdowns p).
Definition add_result r p := mkPeer (p_state p) (p_lease p) (p_outgoing p) (p_written p) (p_writer_done p) (p_reader p) (p_handlers p) (p_waiting p) (p_answers p) (p_results p ++ [r]) (p_authorized p) (p_dispatched p) (p_shutdowns p).
Definition add_authorized r p := mkPeer (p_state p) (p_lease p) (p_outgoing p) (p_written p) (p_writer_done p) (p_reader p) (p_handlers p) (p_waiting p) (p_answers p) (p_results p) (p_authorized p ++ [r]) (p_dispatched p) (p_shutdowns p).
Definition add_dispatched r p := mkPeer (p_state p) (p_lease p) (p_outgoing p) (p_written p) (p_writer_done p) (p_reader p) (p_handlers p) (p_waiting p) (p_answers p) (p_results p) (p_authorized p) (p_dispatched p ++ [r]) (p_shutdowns p).
Definition add_shutdown p := mkPeer (p_state p) (p_lease p) (p_outgoing p) (p_written p) (p_writer_done p) (p_reader p) (p_handlers p) (p_waiting p) (p_answers p) (p_results p) (p_authorized p) (p_dispatched p) (p_shutdowns p + 1).

Definition set_pending f s := mkState (c_response_gzip s) (c_ready s) (c_remote_services s) (c_closed s) (f (c_pending s)) (c_inbound s) (c_io_threads s).
Definition set_inbound f s := mkState (c_response_gzip s) (c_ready s) (c_remote_services s) (c_closed s) (c_pending s) (f (c_inbound s)) (c_io_threads s).
Definition set_closed r s := mkState (c_response_gzip s) (c_ready s) (c_remote_services s) (Some r) (c_pending s) (c_inbound s) (c_io_threads s).
Definition set_ready roles gz s := mkState gz true roles (c_closed s) (c_pending s) (c_inbound s) (c_io_threads s).
Definition set_io_threads n s := mkState (c_response_gzip s) (c_ready s) (c_remote_services s) (c_closed s) (c_pending s) (c_inbound s) n.

(** [failure] *)
Definition failure (id code message : string) : Response := response_failure id (rpc_error code message).

Definition connection_ended (request_id : string) : Response :=
  failure request_id "PEER_OUTCOME_UNKNOWN"
    "connection ended before response; query execution before any retry".

Section Connection.
Context `{Codec} (cfg : PeerConfig) (handshake : Handshake) (INSTANT_MAX : Z).

(** What [Shared::close] does to an open connection: record the reason, cancel the inbound requests,
    answer every pending call, shut the transport down. *)
Definition closed_peer (reason : CloseReason) (p : Peer) : Peer :=
  add_shutdown (add_answers ((fun e => (e.1, connection_ended e.2)) <$> map_to_list (c_pending (p_state p)))
    (set_state (fun s =>
       set_pending (fun _ => ∅) (set_inbound (fmap (fun _ => true)) (set_closed reason s))) p)).

(** [Shared::close] *)
Definition close {E} (reason : CloseReason) : M Peer E unit :=
  let* s := gets p_state in
  match c_closed s with
  | Some _ => ret tt
  | None =>
      modify (closed_peer reason)
  end.

(** [self.config.lease.as_ref().and_then(Lease::ended)] *)
Definition lease_ended {E} : M Peer E (option string) :=
  match lease cfg with
  | None => ret None
  | Some _ =>
      let* r := zoom p_lease set_lease (attempt ended) in
      ret match r with Ok o => o | Err _ => None end
  end.

(** [Shared::ensure_live] *)
Definition ensure_live : M Peer RpcError unit :=
  let* e := lease_ended in
  match e with
  | Some reason =>
      close (if String.eqb reason "revoked" then LeaseRevoked else LeaseExpired) ;;
      fail (rpc_error "PEER_LEASE_ENDED" "channel lease is no longer active")
  | None =>
      let* closed := gets (fun p => c_closed (p_state p)) in
      match closed with
      | Some _ => fail (rpc_error "PEER_CLOSED" "channel is closed; request was not sent")
      | None => ret tt
      end
  end.

(** [self.outgoing.try_send(..)]: the queue is bounded, and gone once the writer returned. *)
Definition try_send {E} (b : bytes) : M Peer E bool :=
  let* p := get in
  if (max_queued_frames (limits cfg) <=? len (p_outgoing p)) || p_writer_done p then ret false
  else put (set_outgoing (p_outgoing p ++ [b]) p) ;; ret true.

(** [Shared::send] *)
Definition send (frame : Frame) : M Peer string unit :=
  with_err err_message ensure_live ;;
  let* encoded := lift (encode frame (max_frame_bytes (limits cfg))) in
  let* sent := try_send encoded in
  if sent : bool then ret tt
  else close Backpressure ;; fail "peer write queue is full".

(** [Shared::send_response] *)
Definition send_response {E} (id : string) (response : Response) : M Peer E unit :=
  let response :=
    if is_ok (encode (FResponse id response) (max_frame_bytes (limits cfg))) then response
    else failure (resp_request_id response) "PEER_FRAME_TOO_LARGE" "response exceeds frame limit" in
  let* negotiated := gets (fun p => c_response_gzip (p_state p)) in
  attempt (send (encode_response_frame id response negotiated)) ;;
  ret tt.

(** [Shared::io_finished] *)
Definition io_finished {E} : M Peer E unit :=
  modify (set_state (fun s => set_io_threads (c_io_threads s - 1) s)).

(** [PeerConnection::call_timeout] up to the wait: the identifier of the call, or the response
    with which it returns at once. *)
Definition call_begin (service : string) (request : Request) (timeout : Z) : M Peer Response string :=
  let request_id := req_request_id request in
  with_err (response_failure request_id) ensure_live ;;
  if timeout =? 0 then fail (failure request_id "PEER_INVALID_TIMEOUT" "request was not sent")
  else
    let* uuid := new_v4 in
    let id := "peer_request_" +:+ uuid in
    let* b := with_err (fun _ => failure request_id "PEER_FRAME_TOO_LARGE" "request was not sent")
                (lift (encode (FRequest id service request) (max_frame_bytes (limits cfg)))) in
    let* s := gets p_state in
    if negb (bool_decide (c_closed s = None)) || negb (c_ready s)
    then fail (failure request_id "PEER_NOT_READY" "request was not sent")
    else if negb (existsb (fun x => String.eqb x service) (c_remote_services s))
    then fail (failure request_id "PEER_SERVICE_UNAVAILABLE" "request was not sent")
    else if max_outbound_requests (limits cfg) <=? Z.of_nat (size (c_pending s))
    then fail (failure request_id "PEER_BUSY" "outbound limit; request was not sent")
    else
      modify (fun p => set_waiting (insert id request_id) (set_state (set_pending (insert id request_id)) p)) ;;
      let* sent := try_send b in
      if sent : bool then ret id
      else
        modify (fun p => set_waiting (delete id) (set_state (set_pending (delete id)) p)) ;;
        fail (failure request_id "PEER_BUSY" "outgoing queue full; request was not sent").

(** The response of a call whose deadline elapsed. *)
Definition deadline_elapsed (request_id : string) : Response :=
  failure request_id "PEER_OUTCOME_UNKNOWN" "response deadline elapsed; query execution before any retry".

(** [PeerConnection::call_timeout] where [recv_timeout] fails: the caller no longer waits, and its
    result is decided. *)
Definition call_expire {E} (id request_id : string) : M Peer E unit :=
  modify (fun p => add_result (id, request_id, deadline_elapsed request_id)
                     (set_waiting (delete id) (set_state (set_pending (delete id)) p))) ;;
  if bool_decide (protocol cfg = ScopedV2) then attempt (send (Cancel id)) ;; ret tt else ret tt.

(** [PeerConnection::status] *)
Record PeerStatus := mkPeerStatus {
  ps_ready : bool;
  ps_closed : option CloseReason;
  ps_pending_requests : Z;
  ps_active_handlers : Z;
  ps_io_threads : Z;
}.
Definition status (s : State) : PeerStatus :=
  mkPeerStatus (c_ready s && bool_decide (c_closed s = None)) (c_closed s)
    (Z.of_nat (size (c_pending s))) (Z.of_nat (size (c_inbound s))) (c_io_threads s).

(** ** The reader thread ([read_loop]) *)

Definition binding_eqb (a b : option ChannelBinding) : bool :=
  match a, b with
  | None, None => true
  | Some x, Some y => String.eqb (cb_lease_id x) (cb_lease_id y) && value_eqb (cb_scope x) (cb_scope y)
  | _, _ => false
  end.

Definition own_hello (gz : bool) : HelloFields :=
  mkHelloFields (protocol_name (protocol cfg)) (local_id cfg) (services cfg) (binding cfg) gz.

(** The check of the greeting. *)
Definition hello_refused (h : HelloFields) : bool :=
  negb (String.eqb (h_protocol h) (protocol_name (protocol cfg)))
  || negb (String.eqb (h_node_id h) (expected_peer_id cfg))
  || negb (binding_eqb (h_binding h) (binding cfg))
  || (64 <? len (h_roles h))
  || existsb (fun role => negb (bool_decide (role ∈ h_roles h))) (required_peer_services cfg)
  || existsb (fun role => is_err (validate_name role)) (h_roles h).

Definition goto {E} (pc : reader_pc) : M Peer E unit := modify (set_reader pc).

(** Before the first frame. *)
Definition reader_start {E} : M Peer E unit :=
  match handshake with
  | Initiate =>
      let* r := attempt (send (Hello (own_hello true))) in
      match r with Ok _ => goto RHello | Err _ => goto (RFailed Disconnected) end
  | Accept => goto RHello
  end.

(** The first frame. *)
Definition reader_hello {E} (read : result CloseReason Frame) : M Peer E unit :=
  match read with
  | Err e => goto (RFailed e)
  | Ok frame =>
      match handshake, frame with
      | Initiate, HelloAck h | Accept, Hello h =>
          if hello_refused h then goto (RFailed ProtocolError)
          else
            let* sent := match handshake with
                         | Accept => attempt (send (HelloAck (own_hello (h_response_gzip h))))
                         | Initiate => ret (Ok tt)
                         end in
            match sent with
            | Err _ => goto (RFailed Disconnected)
            | Ok _ =>
                let* s := gets p_state in
                if bool_decide (c_closed s = None) then
                  modify (set_state (set_ready (h_roles h) (h_response_gzip h))) ;;
                  goto (RLoop (h_response_gzip h))
                else goto RExit
            end
      | _, _ => goto (RFailed ProtocolError)
      end
  end.

(** The head of the loop: read, decode, check the lease. *)
Definition reader_read {E} (gz : bool) (read : result CloseReason Frame) : M Peer E unit :=
  match read with
  | Err e => goto (RFailed e)
  | Ok frame =>
      match decode_response_frame frame gz (max_frame_bytes (limits cfg)) with
      | Err _ => goto (RFailed ProtocolError)
      | Ok frame =>
          let* live := attempt ensure_live in
          match live with
          | Err _ => goto (RFailed Disconnected)
          | Ok _ => goto (RFrame gz frame)
          end
      end
  end.

(** [Frame::Response] *)
Definition on_response {E} (gz : bool) (id : string) (response : Response) : M Peer E unit :=
  let* s := gets p_state in
  match c_pending s !! id with
  | None => goto (RLoop gz)
  | Some request_id =>
      let wrong := negb (String.eqb (resp_request_id response) request_id)
                   && bool_decide (protocol cfg = ScopedV2) in
      let answer :=
        if wrong then failure request_id "PEER_OUTCOME_UNKNOWN" "invalid response identity" else response in
      modify (fun p => add_answers [(id, answer)] (set_state (set_pending (delete id)) p)) ;;
      goto (if wrong then RFailed ProtocolError else RLoop gz)
  end.

(** [Frame::Request] *)
Definition on_request {E} (gz : bool) (id target_role : string) (request : Request) : M Peer E unit :=
  if str_is_empty id || (256 <? str_len id) then goto (RFailed ProtocolError)
  else if negb (bool_decide (target_role ∈ services cfg)) then
    send_response id (failure (req_request_id request) "PEER_SERVICE_UNAVAILABLE" "service is not exposed") ;;
    goto (RLoop gz)
  else
    let* s := gets p_state in
    if bool_decide (is_Some (c_inbound s !! id)) then goto (RFailed ProtocolError)
    else if max_inbound_requests (limits cfg) <=? Z.of_nat (size (c_inbound s)) then
      send_response id (failure (req_request_id request) "PEER_BUSY" "inbound limit; request was not dispatched") ;;
      goto (RLoop gz)
    else
      let context := mkRequestContext (expected_peer_id cfg) target_role (binding cfg) in
      modify (fun p => set_handlers (insert id (HStart context request))
                         (set_state (set_inbound (insert id false)) p)) ;;
      goto (RLoop gz).

(** The body of the loop. *)
Definition reader_act {E} (gz : bool) (frame : Frame) : M Peer E unit :=
  match frame with
  | FResponse id response => on_response gz id response
  | Cancel id =>
      if bool_decide (protocol cfg = ScopedV2) then
        modify (set_state (set_inbound (alter (fun _ => true) id))) ;;
        goto (RLoop gz)
      else goto (RFailed ProtocolError)
  | FRequest id target_role request => on_request gz id target_role request
  | _ => goto (RFailed ProtocolError)
  end.

(** ** The threads of inbound requests *)

Definition handler_goto {E} (id : string) (pc : handler_pc) : M Peer E unit :=
  modify (set_handlers (insert id pc)).

Definition handler_panicked (request_id : string) : Response :=
  failure request_id "PEER_HANDLER_PANICKED" "handler outcome is unknown".

(** [ensure_live] and the authorizer, whose verdict [None] stands for a panic. *)
Definition handler_check {E} (id : string) (context : RequestContext) (request : Request)
    (verdict : option (result RpcError unit)) : M Peer E unit :=
  let* live := attempt ensure_live in
  match live with
  | Err e => handler_goto id (HRespond (response_failure (req_request_id request) e))
  | Ok _ =>
      match verdict with
      | None => handler_goto id (HRespond (handler_panicked (req_request_id request)))
      | Some (Err e) => handler_goto id (HRespond (response_failure (req_request_id request) e))
      | Some (Ok _) =>
          modify (fun p => set_handlers (insert id (HRun context request)) (add_authorized (context, request) p))
      end
  end.

(** The check of the cancellation. No lock is held between it and the call of the handler. *)
Definition handler_run {E} (id : string) (context : RequestContext) (request : Request) : M Peer E unit :=
  let* s := gets p_state in
  if bool_decide (c_inbound s !! id = Some true) then
    handler_goto id (HRespond (failure (req_request_id request) "PEER_CANCELLED" "dispatch was cancelled"))
  else handler_goto id (HCall context request).

(** The call of the handler. *)
Definition handler_call {E} (id : string) (context : RequestContext) (request : Request) : M Peer E unit :=
  modify (fun p => set_handlers (insert id (HBusy (req_request_id request)))
                     (add_dispatched (context, request) p)).

(** The handler returned, or panicked ([None]). *)
Definition handler_return {E} (id request_id : string) (response : option Response) : M Peer E unit :=
  handler_goto id (HRespond match response with Some r => r | None => handler_panicked request_id end).

Definition handler_respond {E} (id : string) (response : Response) : M Peer E unit :=
  send_response id response ;; handler_goto id HRemove.

Definition handler_remove {E} (id : string) : M Peer E unit :=
  modify (fun p => set_handlers (delete id) (set_state (set_inbound (delete id)) p)).

(** ** The writer thread and the watchdog of [PeerConnection::start] *)

Definition writer_exit {E} : M Peer E unit := modify (set_writer_done true) ;; io_finished.

(** One turn of the writer: [written] is whether the transport accepts the frame. *)
Definition writer_turn {E} (written : bool) : M Peer E unit :=
  let* p := get in
  if negb (bool_decide (c_closed (p_state p) = None)) then writer_exit
  else match p_outgoing p with
  | [] => ret tt
  | frame :: rest =>
      put (set_outgoing rest p) ;;
      let* live := attempt ensure_live in
      match live with
      | Err _ => writer_exit
      | Ok _ =>
          if written then modify (fun p => set_written (p_written p ++ [frame]) p)
          else close Disconnected ;; writer_exit
      end
  end.

(** One turn of the watchdog: [late] is whether the deadline of the handshake passed. *)
Definition watchdog_turn {E} (late : bool) : M Peer E unit :=
  let* live := attempt ensure_live in
  match live with
  | Err _ => ret tt
  | Ok _ =>
      let* s := gets p_state in
      if negb (c_ready s) && late then close HandshakeTimeout else ret tt
  end.

(** ** Interleavings *)

Inductive event :=
| EvCall (service : string) (request : Request) (timeout : Z)
| EvReceive (id : string)
| EvExpire (id : string)
| EvClose
| EvWatchdog (late : bool)
| EvWriter (written : bool)
| EvReader (read : result CloseReason Frame)
| EvHandler (id : string) (verdict : option (result RpcError unit)) (returned : option Response)
| EvLease (ev : lease_event).

(** [receiver.recv_timeout(..)] answers with the first message of the channel. *)
Fixpoint first_answer (id : string) (l : list (string * Response)) : option Response :=
  match l with
  | [] => None
  | (k, r) :: l' => if String.eqb k id then Some r else first_answer id l'
  end.

(** One step of one thread; a thread that is not at such a step does nothing. *)
Definition peer_event {E} (ev : event) : M Peer E unit :=
  let* p := get in
  match ev with
  | EvCall service request timeout => attempt (call_begin service request timeout) ;; ret tt
  | EvReceive id =>
      match p_waiting p !! id, first_answer id (p_answers p) with
      | Some request_id, Some r =>
          modify (fun p => add_result (id, request_id, r) (set_waiting (delete id) p))
      | _, _ => ret tt
      end
  | EvExpire id =>
      match p_waiting p !! id with
      | Some request_id => call_expire id request_id
      | None => ret tt
      end
  | EvClose => close Requested
  | EvWatchdog late => watchdog_turn late
  | EvWriter written => if p_writer_done p then ret tt else writer_turn written
  | EvReader read =>
      match p_reader p with
      | RStart => reader_start
      | RHello => reader_hello read
      | RLoop gz => reader_read gz read
      | RFrame gz frame => reader_act gz frame
      | RFailed reason => close reason ;; goto RExit
      | RExit => io_finished ;; goto RDone
      | RDone => ret tt
      end
  | EvHandler id verdict returned =>
      match p_handlers p !! id with
      | Some (HStart context request) => handler_check id context request verdict
      | Some (HRun context request) => handler_run id context request
      | Some (HCall context request) => handler_call id context request
      | Some (HBusy request_id) => handler_return id request_id returned
      | Some (HRespond response) => handler_respond id response
      | Some HRemove => handler_remove id
      | None => ret tt
      end
  | EvLease ev =>
      (fun p w => let '(l, w') := lease_step INSTANT_MAX ev (p_lease p) w in (Ok tt, set_lease l p, w'))
  end.

Fixpoint peer_run (evs : list event) (p : Peer) (w : World) : Peer * World :=
  match evs with
  | [] => (p, w)
  | ev :: evs' => let '(_, p1, w1) := peer_event (E := panic) ev p w in peer_run evs' p1 w1
  end.

(** [PeerConnection::start] after [validate] *)
Definition start (l : PeerLease.State) : Peer :=
  mkPeer (mkState false false [] None ∅ ∅ 2) l [] [] false RStart ∅ ∅ [] [] [] [] 0.

End Connection.
