(* ===== verification/ConnectionSafety.v ===== *)
(** * Invariants of peer connections

    [PeerInvariant] lists what an invariant of [Connection] has to survive;
    every step of every thread preserves each instance. The instances give the
    bounds of the connection, the fate of calls and the safety of dispatch. *)
From Stdlib Require Import Ascii.
From stdpp Require Import base gmap strings list.
From S2P Require Import Prelude Json Protocol PeerLease Framing FramingCodec Connection.
Open Scope Z_scope.
Open Scope fabric_scope.

(** The reader enters its loop only when the connection is ready, and then stays in it. *)
Definition in_loop (pc : reader_pc) : bool :=
  match pc with RLoop _ | RFrame _ _ => true | _ => false end.

(** The steps of a handler that neither authorize nor dispatch. *)
Definition settled (pc : handler_pc) : bool :=
  match pc with HRespond _ | HRemove => true | _ => false end.

Definition call_id (w : World) : string := "peer_request_" +:+ peek (w_uuid w).
Arguments call_id w : simpl never.

Definition add_call (id request_id : string) (p : Peer) : Peer :=
  set_waiting (insert id request_id) (set_state (set_pending (insert id request_id)) p).
Definition drop_call (id : string) (p : Peer) : Peer :=
  set_waiting (delete id) (set_state (set_pending (delete id)) p).

Section Invariant.
Context (cfg : PeerConfig).

Definition context_of (role : string) : RequestContext :=
  mkRequestContext (expected_peer_id cfg) role (binding cfg).

(** What the operations that only send and close do to a connection. *)
Class Quiet (P : Peer -> World -> Prop) : Prop := {
  qu_stable : Stable P;
  qu_lease p w l : P p w -> P (set_lease l p) w;
  qu_enqueue p w b : P p w -> len (p_outgoing p) < max_queued_frames (limits cfg) ->
    P (set_outgoing (p_outgoing p ++ [b]) p) w;
  qu_close p w reason : P p w -> c_closed (p_state p) = None -> P (closed_peer reason p) w;
}.

Class PeerInvariant (P : Peer -> World -> Prop) : Prop := {
  pi_quiet : Quiet P;
  pi_dequeue p w b rest : P p w -> p_outgoing p = b :: rest -> P (set_outgoing rest p) w;
  pi_written p w o : P p w -> P (set_written o p) w;
  pi_writer_done p w : P p w -> P (set_writer_done true p) w;
  pi_io p w n : P p w -> P (set_state (fun s => set_io_threads (n s) s) p) w;
  pi_call p w request_id : P p w -> c_closed (p_state p) = None ->
    Z.of_nat (size (c_pending (p_state p))) < max_outbound_requests (limits cfg) ->
    P (add_call (call_id w) request_id p) (set_uuid (advance (w_uuid w)) w);
  pi_drop_call p w id : P p w -> P (drop_call id p) w;
  pi_expire p w id request_id : P p w -> p_waiting p !! id = Some request_id ->
    P (add_result (id, request_id, deadline_elapsed request_id) (drop_call id p)) w;
  pi_receive p w id request_id r : P p w -> p_waiting p !! id = Some request_id ->
    (id, r) ∈ p_answers p -> P (add_result (id, request_id, r) (set_waiting (delete id) p)) w;
  pi_answer p w id request_id r : P p w -> c_pending (p_state p) !! id = Some request_id ->
    (protocol cfg = ScopedV2 -> resp_request_id r = request_id) ->
    P (add_answers [(id, r)] (set_state (set_pending (delete id)) p)) w;
  pi_ready p w h : P p w -> c_closed (p_state p) = None -> hello_refused cfg h = false ->
    P (set_state (set_ready (h_roles h) (h_response_gzip h)) p) w;
  pi_reader p w pc : P p w ->
    (in_loop pc = true -> in_loop (p_reader p) = true \/ c_ready (p_state p) = true) ->
    P (set_reader pc p) w;
  pi_inbound p w id role request : P p w -> in_loop (p_reader p) = true ->
    role ∈ services cfg -> c_inbound (p_state p) !! id = None ->
    Z.of_nat (size (c_inbound (p_state p))) < max_inbound_requests (limits cfg) ->
    P (set_handlers (insert id (HStart (context_of role) request))
         (set_state (set_inbound (insert id false)) p)) w;
  pi_cancel p w id : P p w -> P (set_state (set_inbound (alter (fun _ => true) id)) p) w;
  pi_authorize p w id context request : P p w -> p_handlers p !! id = Some (HStart context request) ->
    c_closed (p_state p) = None ->
    P (set_handlers (insert id (HRun context request)) (add_authorized (context, request) p)) w;
  pi_pass p w id context request : P p w -> p_handlers p !! id = Some (HRun context request) ->
    c_inbound (p_state p) !! id <> Some true ->
    P (set_handlers (insert id (HCall context request)) p) w;
  pi_dispatch p w id context request : P p w -> p_handlers p !! id = Some (HCall context request) ->
    P (set_handlers (insert id (HBusy (req_request_id request))) (add_dispatched (context, request) p)) w;
  pi_handler p w id old pc : P p w -> p_handlers p !! id = Some old -> settled pc = true ->
    P (set_handlers (insert id pc) p) w;
  pi_remove p w id : P p w ->
    P (set_handlers (delete id) (set_state (set_inbound (delete id)) p)) w;
}.

End Invariant.

(** The part of a connection that sending and closing leave alone. *)
Record same_threads (p p' : Peer) : Prop := mk_same_threads {
  sm_handlers : p_handlers p' = p_handlers p;
  sm_reader : p_reader p' = p_reader p;
  sm_ready : c_ready (p_state p') = c_ready (p_state p);
  sm_waiting : p_waiting p' = p_waiting p;
}.

Lemma quiet_frame cfg P p0 : Quiet cfg P -> Quiet cfg (fun p w => P p w /\ same_threads p0 p).
Proof.
  intros HQ. constructor.
  - intros p w w' [Hp Hs] Hw. split; [by eapply (qu_stable cfg)|done].
  - intros p w l [Hp [? ? ? ?]]. split; [by apply (qu_lease cfg)|by constructor].
  - intros p w b [Hp [? ? ? ?]] Hl. split; [by apply (qu_enqueue cfg)|by constructor].
  - intros p w reason [Hp [? ? ? ?]] Hc. split; [by apply (qu_close cfg)|by constructor].
Qed.

(** ** Sending and closing *)

Lemma ended_world {E} s w :
  exists s' w', attempt (F := E) ended s w = (Ok (Ok (pl_ended s')), s', w') /\ world_le w w'.
Proof.
  unfold ended, over. munfold. destruct (pl_ended s) as [reason|] eqn:He.
  { exists s, w. by rewrite He. }
  destruct (pl_deadline s <=? _); [|destruct (pl_expires_at_ms s <=? _)].
  - eexists (PeerLease.mkState _ _ (Some "expired")), _. split; [reflexivity|]. constructor; cbn; (done || lia).
  - eexists (PeerLease.mkState _ _ (Some "expired")), _. split; [reflexivity|]. constructor; cbn; (done || lia).
  - eexists s, _. split; [by rewrite He|]. constructor; cbn; (done || lia).
Qed.

Section Sending.
Context `{Codec} (cfg : PeerConfig).
Context (P : Peer -> World -> Prop) `{HQ : !Quiet cfg P}.

#[local] Instance quiet_is_stable : Stable P := qu_stable cfg.

Lemma keeps_close {E} reason : keeps (E := E) P (close reason).
Proof.
  intros p w Hp. unfold close. apply wp_bind. unfold wp at 1, gets.
  destruct (c_closed (p_state p)) eqn:Hc; [done|]. unfold wp, modify. by apply (qu_close cfg).
Qed.

Lemma keeps_lease_ended {E} : keeps (E := E) P (lease_ended cfg).
Proof.
  unfold lease_ended. destruct (lease cfg); [|apply keeps_ret]. apply keeps_bind; [|intros; apply keeps_ret].
  intros p w Hp. unfold wp, zoom. destruct (ended_world (E := E) (p_lease p) w) as (s' & w' & -> & Hw).
  apply (qu_lease cfg). by eapply (qu_stable cfg).
Qed.

(** A live connection is open. *)
Lemma wp_ensure_live p w :
  P p w -> wp (ensure_live cfg) (fun r p' w' => P p' w' /\ (is_ok r = true -> c_closed (p_state p') = None)) p w.
Proof.
  intros Hp. unfold ensure_live. apply wp_bind. eapply wp_mono; [by apply keeps_lease_ended|].
  intros [[reason|]|e] p1 w1 H1; [| |done].
  - apply wp_bind. eapply wp_mono; [by apply keeps_close|]. by intros [[]|e] p2 w2 H2.
  - apply wp_bind. unfold wp at 1, gets. by destruct (c_closed (p_state p1)) eqn:Hc.
Qed.

Lemma keeps_ensure_live : keeps P (ensure_live cfg).
Proof. intros p w Hp. eapply wp_mono; [by apply wp_ensure_live|]. by intros r p' w' [? _]. Qed.

Lemma keeps_with_err {E F A} (f : E -> F) (m : M Peer E A) : keeps P m -> keeps P (with_err f m).
Proof. intros Hm p w Hp. specialize (Hm p w Hp). unfold wp, with_err in *. by destruct (m p w) as [[r p'] w']. Qed.

Lemma keeps_try_send {E} b : keeps (E := E) P (try_send cfg b).
Proof.
  intros p w Hp. unfold try_send. apply wp_bind. unfold wp at 1, get.
  destruct (_ || _) eqn:Hf; [done|]. apply orb_false_iff in Hf as [Hf%Z.leb_gt _].
  by apply (qu_enqueue cfg).
Qed.

Lemma keeps_send frame : keeps P (send cfg frame).
Proof.
  unfold send. apply keeps_bind; [apply keeps_with_err, keeps_ensure_live|]. intros _.
  apply keeps_bind; [apply keeps_lift|]. intros b. apply keeps_bind; [apply keeps_try_send|].
  intros [|]; [apply keeps_ret|]. apply keeps_bind; [apply keeps_close|]. intros _. apply keeps_fail.
Qed.

Lemma keeps_send_response {E} id r : keeps (E := E) P (send_response cfg id r).
Proof.
  unfold send_response. apply keeps_bind; [apply keeps_gets|]. intros gz.
  apply keeps_bind; [apply keeps_attempt, keeps_send|]. intros _. apply keeps_ret.
Qed.

End Sending.

(** ** Every step preserves them *)

Section Preserved.
Context `{Codec} (cfg : PeerConfig) (hs : Handshake) (INSTANT_MAX : Z).
Context (P : Peer -> World -> Prop) `{HP : !PeerInvariant cfg P}.

#[local] Instance P_quiet : Quiet cfg P := pi_quiet cfg.
#[local] Instance P_stable : Stable P := qu_stable cfg.

#[local] Abbreviation safe m p w := (wp m (fun _ p' w' => P p' w') p w).

(** An operation that sends, followed by steps that rely on where the threads are. *)
Lemma wp_quiet {E A B} (m : M Peer E A) (k : A -> M Peer E B) p w :
  (forall Q, Quiet cfg Q -> keeps Q m) -> P p w ->
  (forall a p' w', P p' w' -> same_threads p p' -> safe (k a) p' w') ->
  safe (bind m k) p w.
Proof.
  intros Hm Hp Hk. apply wp_bind.
  eapply wp_mono; [apply (Hm _ (quiet_frame cfg P p P_quiet)); by split|].
  intros [a|e] p' w' [H1 H2]; [by apply Hk|done].
Qed.

Lemma wp_goto {E} pc p w :
  P p w -> (in_loop pc = true -> in_loop (p_reader p) = true \/ c_ready (p_state p) = true) ->
  safe (goto (E := E) pc) p w.
Proof. intros Hp Hl. unfold wp, goto, modify. by apply (pi_reader cfg). Qed.

Lemma keeps_goto {E} pc : in_loop pc = false -> keeps (E := E) P (goto pc).
Proof. intros Hl p w Hp. apply wp_goto; [done|]. by rewrite Hl. Qed.

Lemma keeps_io_finished {E} : keeps (E := E) P io_finished.
Proof. intros p w Hp. unfold wp, io_finished, modify. by apply (pi_io cfg p w (fun s => c_io_threads s - 1)). Qed.

Lemma keeps_reader_start {E} : keeps (E := E) P (reader_start cfg hs).
Proof.
  unfold reader_start. destruct hs; [|by apply keeps_goto].
  apply keeps_bind; [apply keeps_attempt; exact (keeps_send cfg P _)|]. intros [|]; by apply keeps_goto.
Qed.

Lemma keeps_greeted {E} h (m : M Peer E (result string unit)) :
  hello_refused cfg h = false -> keeps P m ->
  keeps (E := E) P (let* sent := m in
    match sent with
    | Err _ => goto (RFailed Disconnected)
    | Ok _ =>
        let* s := gets p_state in
        if bool_decide (c_closed s = None) then
          modify (set_state (set_ready (h_roles h) (h_response_gzip h))) ;;
          goto (RLoop (h_response_gzip h))
        else goto RExit
    end).
Proof.
  intros Hh Hm. apply keeps_bind; [done|]. intros [[]|]; [|by apply keeps_goto].
  apply keeps_gets_bind. intros p w Hp. destruct (decide (c_closed (p_state p) = None)) as [Hc|Hc].
  - rewrite bool_decide_eq_true_2 by done. apply wp_bind. unfold wp at 1, modify.
    apply wp_goto; [by apply (pi_ready cfg)|]. intros _. by right.
  - rewrite bool_decide_eq_false_2 by done. by apply keeps_goto.
Qed.

Lemma keeps_reader_hello {E} read : keeps (E := E) P (reader_hello cfg hs read).
Proof.
  unfold reader_hello. destruct read as [frame|e]; [|by apply keeps_goto].
  destruct hs, frame; try (by apply keeps_goto);
    (destruct (hello_refused cfg h) eqn:Hh; [by apply keeps_goto|]); (apply keeps_greeted; [done|]).
  - apply keeps_ret.
  - apply keeps_attempt. exact (keeps_send cfg P _).
Qed.

Lemma wp_reader_read {E} gz read p w :
  P p w -> in_loop (p_reader p) = true -> safe (reader_read (E := E) cfg gz read) p w.
Proof.
  intros Hp Hl. unfold reader_read. destruct read as [frame|e]; [|by apply keeps_goto].
  destruct (decode_response_frame _ _ _) as [f|e]; [|by apply keeps_goto].
  apply wp_quiet; [|done|].
  - intros Q HQ. apply keeps_attempt. exact (keeps_ensure_live cfg Q).
  - intros [[]|e] p' w' Hp' Hs; [|by apply keeps_goto]. apply wp_goto; [done|].
    rewrite (sm_reader _ _ Hs). auto.
Qed.

Lemma wp_on_response {E} gz id r p w :
  P p w -> in_loop (p_reader p) = true -> safe (on_response (E := E) cfg gz id r) p w.
Proof.
  intros Hp Hl. unfold on_response. apply wp_bind. unfold wp at 1, gets.
  destruct (c_pending (p_state p) !! id) as [rid|] eqn:Hr; [|apply wp_goto; auto].
  cbv zeta. set (wrong := negb _ && _). apply wp_bind. unfold wp at 1, modify. apply wp_goto.
  - apply (pi_answer cfg) with rid; [done..|]. intros Hs. unfold wrong.
    rewrite (bool_decide_eq_true_2 (protocol cfg = ScopedV2)) by done. rewrite andb_true_r.
    destruct (String.eqb_spec (resp_request_id r) rid) as [He|He]; [exact He|done].
  - auto.
Qed.

Lemma wp_refused {E} gz id r p w :
  P p w -> in_loop (p_reader p) = true ->
  safe (send_response (E := E) cfg id r ;; goto (RLoop gz)) p w.
Proof.
  intros Hp Hl. apply wp_quiet; [|done|].
  - intros Q HQ. exact (keeps_send_response cfg Q id r).
  - intros [] p' w' Hp' Hs. apply wp_goto; [done|]. rewrite (sm_reader _ _ Hs). auto.
Qed.

Lemma wp_on_request {E} gz id role request p w :
  P p w -> in_loop (p_reader p) = true -> safe (on_request (E := E) cfg gz id role request) p w.
Proof.
  intros Hp Hl. unfold on_request. destruct (_ || _); [by apply keeps_goto|].
  destruct (decide (role ∈ services cfg)) as [Hr|Hr].
  2: { rewrite bool_decide_eq_false_2 by done. by apply wp_refused. }
  rewrite bool_decide_eq_true_2 by done. apply wp_bind. unfold wp at 1, gets.
  destruct (c_inbound (p_state p) !! id) as [b|] eqn:Hi.
  { rewrite bool_decide_eq_true_2 by eauto. by apply keeps_goto. }
  rewrite bool_decide_eq_false_2 by (by intros []).
  destruct (Z.leb_spec (max_inbound_requests (limits cfg)) (Z.of_nat (size (c_inbound (p_state p))))).
  { by apply wp_refused. }
  apply wp_bind. unfold wp at 1, modify. apply wp_goto; [by apply (pi_inbound cfg)|]. auto.
Qed.

Lemma wp_reader_act {E} gz frame p w :
  P p w -> in_loop (p_reader p) = true -> safe (reader_act (E := E) cfg gz frame) p w.
Proof.
  intros Hp Hl. unfold reader_act. destruct frame; try (by apply keeps_goto).
  - by apply wp_on_request.
  - by apply wp_on_response.
  - destruct (bool_decide _); [|by apply keeps_goto]. apply wp_bind. unfold wp at 1, modify.
    apply wp_goto; [by apply (pi_cancel cfg)|]. auto.
Qed.

Lemma wp_handler_goto {E} id old pc p w :
  P p w -> p_handlers p !! id = Some old -> settled pc = true -> safe (handler_goto (E := E) id pc) p w.
Proof. intros Hp Ho Hs. unfold wp, handler_goto, modify. by eapply (pi_handler cfg). Qed.

Lemma wp_handler_check {E} id context request verdict p w :
  P p w -> p_handlers p !! id = Some (HStart context request) ->
  safe (handler_check (E := E) cfg id context request verdict) p w.
Proof.
  intros Hp Ho. unfold handler_check. apply wp_bind, wp_attempt.
  pose proof (quiet_frame cfg P p P_quiet) as HQ.
  eapply wp_mono; [apply (wp_ensure_live cfg (fun p' w' => P p' w' /\ same_threads p p'))|].
  - by split.
  - intros r p' w' [[Hp' Hs] Hc]. assert (Ho' : p_handlers p' !! id = Some (HStart context request)).
    { by rewrite (sm_handlers _ _ Hs). }
    destruct r as [[]|e]; [|by eapply wp_handler_goto].
    destruct verdict as [[[]|e]|]; [|by eapply wp_handler_goto..].
    unfold wp, modify. apply (pi_authorize cfg); auto.
Qed.

Lemma wp_handler_run {E} id context request p w :
  P p w -> p_handlers p !! id = Some (HRun context request) ->
  safe (handler_run (E := E) id context request) p w.
Proof.
  intros Hp Ho. unfold handler_run. apply wp_bind. unfold wp at 1, gets.
  destruct (decide (c_inbound (p_state p) !! id = Some true)) as [Hc|Hc].
  - rewrite bool_decide_eq_true_2 by done. by eapply wp_handler_goto.
  - rewrite bool_decide_eq_false_2 by done. unfold wp, handler_goto, modify. by apply (pi_pass cfg).
Qed.

Lemma wp_handler_respond {E} id r old p w :
  P p w -> p_handlers p !! id = Some old -> safe (handler_respond (E := E) cfg id r) p w.
Proof.
  intros Hp Ho. unfold handler_respond. apply wp_quiet; [|done|].
  - intros Q HQ. exact (keeps_send_response cfg Q id r).
  - intros [] p' w' Hp' Hs. eapply wp_handler_goto; [done| |done]. by rewrite (sm_handlers _ _ Hs).
Qed.

Lemma keeps_writer_exit {E} : keeps (E := E) P writer_exit.
Proof.
  unfold writer_exit. apply keeps_bind; [|intros _; apply keeps_io_finished].
  apply keeps_modify. intros p w. apply (pi_writer_done cfg).
Qed.

Lemma keeps_writer_turn {E} written : keeps (E := E) P (writer_turn cfg written).
Proof.
  intros p w Hp. unfold writer_turn. apply wp_bind. unfold wp at 1, get.
  destruct (negb _); [by apply keeps_writer_exit|].
  destruct (p_outgoing p) as [|frame rest] eqn:Ho; [done|].
  apply wp_bind. unfold wp at 1, put. apply (pi_dequeue cfg) with (b := frame) (rest := rest) in Hp; [|done].
  revert Hp. generalize (set_outgoing rest p) w. clear -HP. apply keeps_bind.
  { apply keeps_attempt. exact (keeps_ensure_live cfg P). }
  intros [[]|e]; [|apply keeps_writer_exit]. destruct written.
  - apply keeps_modify. intros p w. apply (pi_written cfg).
  - apply keeps_bind; [exact (keeps_close cfg P _)|]. intros _. apply keeps_writer_exit.
Qed.

Lemma keeps_watchdog_turn {E} late : keeps (E := E) P (watchdog_turn cfg late).
Proof.
  unfold watchdog_turn. apply keeps_bind; [apply keeps_attempt; exact (keeps_ensure_live cfg P)|].
  intros [[]|e]; [|apply keeps_ret]. apply keeps_bind; [apply keeps_gets|]. intros s.
  destruct (_ && _); [exact (keeps_close cfg P _)|apply keeps_ret].
Qed.

Lemma keeps_call_begin service request timeout : keeps P (call_begin cfg service request timeout).
Proof.
  intros p w Hp. unfold call_begin. apply wp_bind.
  eapply wp_mono; [exact (keeps_with_err P _ _ (keeps_ensure_live cfg P) p w Hp)|].
  intros [[]|e] p1 w1 Hp1; [|done]. destruct (timeout =? 0); [done|].
  assert (Hadv : P p1 (set_uuid (advance (w_uuid w1)) w1)).
  { eapply (qu_stable cfg); [done|]. apply world_le_uuid. }
  apply wp_bind. unfold wp at 1, new_v4. apply wp_bind. unfold wp at 1, with_err, lift.
  destruct (encode _ _) as [b|e]; cbn [map_err]; [|done]. apply wp_bind. unfold wp at 1, gets.
  destruct (decide (c_closed (p_state p1) = None)) as [Hc|Hc].
  2: { rewrite (bool_decide_eq_false_2 _ Hc). done. }
  rewrite (bool_decide_eq_true_2 _ Hc). cbn [negb orb]. destruct (c_ready (p_state p1)); [|done]. cbn [negb].
  destruct (existsb _ _); [|done]. cbn [negb].
  destruct (Z.leb_spec (max_outbound_requests (limits cfg)) (Z.of_nat (size (c_pending (p_state p1)))))
    as [|Hsz]; [done|].
  apply wp_bind. unfold wp at 1, modify.
  pose proof (pi_call cfg p1 w1 (req_request_id request) Hp1 Hc Hsz) as Hcall.
  revert Hcall. unfold add_call, call_id. generalize (set_waiting (insert ("peer_request_" +:+ peek (w_uuid w1))
    (req_request_id request)) (set_state (set_pending (insert ("peer_request_" +:+ peek (w_uuid w1))
    (req_request_id request))) p1)) (set_uuid (advance (w_uuid w1)) w1). clear -HP.
  apply keeps_bind; [exact (keeps_try_send cfg P _)|]. intros [|]; [apply keeps_ret|].
  apply keeps_bind; [|intros _; apply keeps_fail]. apply keeps_modify.
  intros p w. apply (pi_drop_call cfg).
Qed.

Lemma wp_call_expire {E} id request_id p w :
  P p w -> p_waiting p !! id = Some request_id -> safe (call_expire (E := E) cfg id request_id) p w.
Proof.
  intros Hp Hw. unfold call_expire. apply wp_bind. unfold wp at 1, modify.
  pose proof (pi_expire cfg p w id request_id Hp Hw) as He. revert He. unfold drop_call.
  destruct (bool_decide _); [|by intros]. intros He. revert He.
  generalize (add_result (id, request_id, deadline_elapsed request_id)
    (set_waiting (delete id) (set_state (set_pending (delete id)) p))) w. clear -HP.
  apply keeps_bind; [|intros _; apply keeps_ret]. apply keeps_attempt. exact (keeps_send cfg P _).
Qed.

Lemma first_answer_elem id l r : first_answer id l = Some r -> (id, r) ∈ l.
Proof.
  induction l as [|[k x] l IH]; cbn; [done|]. destruct (String.eqb_spec k id) as [->|_].
  - intros [= ->]. by left.
  - intros Hr. right. auto.
Qed.

Lemma lease_step_world ev s w : world_le w (snd (lease_step INSTANT_MAX ev s w)).
Proof.
  destruct ev as [| |e]; cbn; [done|unfold ended, over|unfold renew, over]; munfold;
    repeat case_match; simplify_eq; constructor; cbn; (done || lia).
Qed.

Lemma keeps_peer_event {E} ev : keeps (E := E) P (peer_event cfg hs INSTANT_MAX ev).
Proof.
  intros p w Hp. unfold peer_event. apply wp_bind. unfold wp at 1, get.
  destruct ev as [service request timeout|id|id| |late|written|read|id verdict returned|ev].
  - revert p w Hp. apply keeps_bind; [apply keeps_attempt, keeps_call_begin|]. intros _. apply keeps_ret.
  - destruct (p_waiting p !! id) as [rid|] eqn:Hw; [|done].
    destruct (first_answer id (p_answers p)) as [r|] eqn:Hr; [|done].
    apply first_answer_elem in Hr. unfold wp, modify. by apply (pi_receive cfg).
  - destruct (p_waiting p !! id) as [rid|] eqn:Hw; [|done]. by apply wp_call_expire.
  - by apply (keeps_close cfg P).
  - by apply keeps_watchdog_turn.
  - destruct (p_writer_done p); [done|]. by apply keeps_writer_turn.
  - destruct (p_reader p) as [| |gz|gz frame|reason| |] eqn:Hr.
    + by apply keeps_reader_start.
    + by apply keeps_reader_hello.
    + apply wp_reader_read; [done|]. by rewrite Hr.
    + apply wp_reader_act; [done|]. by rewrite Hr.
    + revert p w Hp Hr. intros p w Hp _. revert p w Hp.
      apply keeps_bind; [exact (keeps_close cfg P _)|]. intros _. by apply keeps_goto.
    + revert p w Hp Hr. intros p w Hp _. revert p w Hp.
      apply keeps_bind; [apply keeps_io_finished|]. intros _. by apply keeps_goto.
    + done.
  - destruct (p_handlers p !! id) as [[c r|c r|c r|rid|r|]|] eqn:Hh; [..|done].
    + by apply wp_handler_check.
    + by apply wp_handler_run.
    + unfold handler_call, wp, modify. by apply (pi_dispatch cfg).
    + by eapply wp_handler_goto.
    + by eapply wp_handler_respond.
    + unfold handler_remove, wp, modify. by apply (pi_remove cfg).
  - unfold wp. destruct (lease_step INSTANT_MAX ev (p_lease p) w) as [l w'] eqn:El.
    pose proof (lease_step_world ev (p_lease p) w) as Hle. rewrite El in Hle.
    apply (qu_lease cfg). by eapply (qu_stable cfg).
Qed.

Lemma peer_run_keeps evs p w :
  P p w -> P (fst (peer_run cfg hs INSTANT_MAX evs p w)) (snd (peer_run cfg hs INSTANT_MAX evs p w)).
Proof.
  revert p w. induction evs as [|ev evs IH]; intros p w Hp; [done|]. cbn [peer_run].
  pose proof (keeps_peer_event (E := panic) ev p w Hp) as He. unfold wp in He.
  destruct (peer_event cfg hs INSTANT_MAX ev p w) as [[r p1] w1]. by apply IH.
Qed.

End Preserved.

(** ** The bounds of a connection *)

Section Bounds.
Context (cfg : PeerConfig).

Record bounded (p : Peer) (w : World) : Prop := mk_bounded {
  bd_pending : Z.of_nat (size (c_pending (p_state p))) <= Z.max 0 (max_outbound_requests (limits cfg));
  bd_inbound : Z.of_nat (size (c_inbound (p_state p))) <= Z.max 0 (max_inbound_requests (limits cfg));
  bd_outgoing : len (p_outgoing p) <= Z.max 0 (max_queued_frames (limits cfg));
}.

Lemma size_delete_le {A} (m : gmap string A) k : (size (delete k m) <= size m)%nat.
Proof. rewrite <- !size_dom, dom_delete_L. apply subseteq_size. set_solver. Qed.

Lemma size_insert_le {A} (m : gmap string A) k x : (size (<[k := x]> m) <= S (size m))%nat.
Proof.
  rewrite <- !size_dom, dom_insert_L. rewrite size_union_alt, size_singleton.
  assert (size (dom m ∖ {[k]}) <= size (dom m))%nat by (apply subseteq_size; set_solver). lia.
Qed.

Lemma size_alter {A} (m : gmap string A) f k : size (alter f k m) = size m.
Proof. by rewrite <- !size_dom, dom_alter_L. Qed.

#[export] Instance bounded_quiet : Quiet cfg bounded.
Proof.
  constructor.
  - intros p w w' [] _. by constructor.
  - intros p w l []. by constructor.
  - intros p w b [] Hl. constructor; try done. cbn. unfold len in *. rewrite length_app. cbn. lia.
  - intros p w reason [] Hc. constructor; cbn; try done.
    + rewrite map_size_empty. lia.
    + by rewrite map_size_fmap.
Qed.

#[export] Instance bounded_inv : PeerInvariant cfg bounded.
Proof.
  constructor; try exact _; intros p w; intros.
  all: match goal with Hb : bounded _ _ |- _ => destruct Hb as [B1 B2 B3] end; constructor; cbn; try done.
  all: repeat match goal with
       | |- context [size (delete ?k ?m)] => pose proof (size_delete_le m k); generalize dependent (size (delete k m)); intros
       | |- context [size (<[?k := ?x]> ?m)] => pose proof (size_insert_le m k x); generalize dependent (size (<[k := x]> m)); intros
       | |- context [size (alter ?f ?k ?m)] => rewrite (size_alter m f k)
       end; try lia.
  unfold len in *. match goal with Ho : p_outgoing _ = _ |- _ => rewrite Ho in B3 end. cbn in B3. lia.
Qed.

(** C39: a peer connection is bounded. Whatever the peer sends and however the threads interleave,
    the pending calls, the inbound requests and the queued frames stay within the configured limits. *)
Theorem connection_is_bounded `{Codec} hs INSTANT_MAX evs l w :
  let p := fst (peer_run cfg hs INSTANT_MAX evs (start l) w) in
  Z.of_nat (size (c_pending (p_state p))) <= Z.max 0 (max_outbound_requests (limits cfg)) /\
  Z.of_nat (size (c_inbound (p_state p))) <= Z.max 0 (max_inbound_requests (limits cfg)) /\
  len (p_outgoing p) <= Z.max 0 (max_queued_frames (limits cfg)).
Proof.
  cbv zeta. edestruct (peer_run_keeps cfg hs INSTANT_MAX bounded evs (start l) w) as [B1 B2 B3]; [|done].
  constructor; cbn; rewrite ?map_size_empty; unfold len; cbn; lia.
Qed.

End Bounds.

(** ** Closed connections *)

Section Closing.
Context (cfg : PeerConfig).

(** A closed connection has answered its calls and cancelled what may still be dispatched. *)
Record quiesced (p : Peer) (w : World) : Prop := mk_quiesced {
  qs_pending : c_closed (p_state p) <> None -> c_pending (p_state p) = ∅;
  qs_cancelled id context request : c_closed (p_state p) <> None ->
    p_handlers p !! id = Some (HRun context request) -> c_inbound (p_state p) !! id = Some true;
  qs_running id context request :
    p_handlers p !! id = Some (HRun context request) -> is_Some (c_inbound (p_state p) !! id);
  qs_started id context request :
    p_handlers p !! id = Some (HStart context request) -> is_Some (c_inbound (p_state p) !! id);
}.

#[export] Instance quiesced_quiet : Quiet cfg quiesced.
Proof.
  constructor.
  - intros p w w' [] _. by constructor.
  - intros p w l []. by constructor.
  - intros p w b [] Hl. by constructor.
  - intros p w reason [] Hc. constructor; cbn; try done.
    + intros id c r _ Hh. destruct (qs_running0 id c r Hh) as [b Hb]. by rewrite lookup_fmap, Hb.
    + intros id c r Hh. rewrite lookup_fmap. apply fmap_is_Some. eauto.
    + intros id c r Hh. rewrite lookup_fmap. apply fmap_is_Some. eauto.
Qed.

(** Lookups in the maps of a connection after one step. *)
Ltac solve_lookup :=
  repeat match goal with
  | Hh : insert ?i _ _ !! ?j = Some _ |- _ =>
      apply lookup_insert_Some in Hh as [[? ?]|[? ?]]; simplify_eq
  | Hh : delete _ _ !! _ = Some _ |- _ => apply lookup_delete_Some in Hh as [? ?]
  | |- context [insert ?i _ _ !! ?i] => rewrite lookup_insert_eq
  | |- context [delete ?i _ !! ?j] => rewrite (lookup_delete_ne _ i j) by done
  | |- context [insert ?i _ _ !! ?j] => rewrite (lookup_insert_ne _ i j) by done
  end; eauto.

#[export] Instance quiesced_inv : PeerInvariant cfg quiesced.
Proof.
  constructor; try exact _; intros p w; intros.
  all: match goal with Hb : quiesced _ _ |- _ => destruct Hb as [Q1 Q2 Q3 Q4] end; constructor; cbn; try done.
  all: intros; solve_lookup; try congruence.
  all: try (rewrite Q1 by done; apply delete_empty).
  all: try (rewrite lookup_alter; case_decide; subst; eauto; erewrite Q2 by done; done).
all: by apply lookup_alter_is_Some; eauto.
Qed.

(** The requests of the threads [ids], which were about to call the handler *)
Definition were_calling (handlers : gmap string handler_pc) (ids : list string) (ds : list (RequestContext * Request)) : Prop :=
  NoDup ids /\ Forall2 (fun id d => handlers !! id = Some (HCall d.1 d.2)) ids ds.
(** After the close in [p0]: the reason stays, and only threads that were about to call the handler still call it, each once. *)
Definition after_close (reason : CloseReason) (p0 p : Peer) (w : World) : Prop :=
  quiesced p w /\ c_closed (p_state p) = Some reason /\
  exists ids ds, p_dispatched p = p_dispatched p0 ++ ds /\ were_calling (p_handlers p0) ids ds /\
    forall id c r, p_handlers p !! id = Some (HCall c r) -> p_handlers p0 !! id = Some (HCall c r) /\ id ∉ ids.

#[export] Instance after_close_quiet reason p0 : Quiet cfg (after_close reason p0).
Proof.
  constructor.
  - intros p w w' (Hq & ? & ?) Hw. split; [by eapply (qu_stable cfg)|done].
  - intros p w l (Hq & ? & ?). split; [by apply (qu_lease cfg)|done].
  - intros p w b (Hq & ? & ?) Hl. split; [by apply (qu_enqueue cfg)|done].
  - intros p w r (Hq & ? & ?) Hc. congruence.
Qed.

#[export] Instance after_close_inv reason p0 : PeerInvariant cfg (after_close reason p0).
Proof.
  pose proof quiesced_inv as HI.
  constructor; try exact _; intros p w; intros; match goal with Hb : after_close _ _ _ _ |- _ =>
    destruct Hb as (Hq & Hc & ids & ds & Hd & Hw & Hr) end; try congruence.
  all: try (match goal with Hn : _ <> Some true |- _ => exfalso; apply Hn end; eapply qs_cancelled; [done| |done]; congruence).
  all: (split; [destruct HI; eauto|]); (split; [done|]).
  all: try (exists ids, ds; split_and!; [exact Hd|exact Hw|]; intros i ? ?; cbn;
            rewrite ?lookup_insert_Some, ?lookup_delete_Some; intros Hh; destruct_or?; destruct_and?; simplify_eq; try done; by eapply Hr).
  destruct (Hr id context request) as [Hcall Hn]; [done|].
  exists (ids ++ [id]), (ds ++ [(context, request)]). destruct Hw as [Hnd Hall]. split_and!.
  - cbn. by rewrite Hd, app_assoc.
  - split; [apply NoDup_app; split_and!; [done| |apply NoDup_singleton]; by intros x Hx ->%list_elem_of_singleton|].
    apply Forall2_app; [done|]. by repeat constructor.
  - intros i c r. cbn. rewrite lookup_insert_Some. intros [[_ ?]|[Hne Hh]]; [done|]. destruct (Hr _ _ _ Hh) as [? ?].
    split; [done|]. rewrite elem_of_app, list_elem_of_singleton. intros [?|?]; [done|congruence].
Qed.

Lemma start_quiesced l w : quiesced (start l) w.
Proof. constructor; cbn; try done; intros; by match goal with Hh : ∅ !! _ = Some _ |- _ => rewrite lookup_empty in Hh end. Qed.

(** C37: closing is final. Once a connection is closed for a reason, whatever its threads and its
    peer do afterwards, the reason stays and no call is pending; and the only requests that still
    reach the handler, once each, are those whose thread had found, before the close, that they were
    not cancelled, and was about to call it. One that arrived, or that the authorizer accepted, but
    whose thread had not got that far, never reaches it. *)
Theorem no_dispatch_after_close `{Codec} hs INSTANT_MAX evs evs' l w p w' p' w'' reason :
  peer_run cfg hs INSTANT_MAX evs (start l) w = (p, w') ->
  c_closed (p_state p) = Some reason ->
  peer_run cfg hs INSTANT_MAX evs' p w' = (p', w'') ->
  c_closed (p_state p') = Some reason /\ c_pending (p_state p') = ∅ /\
  exists ids ds, p_dispatched p' = p_dispatched p ++ ds /\
    NoDup ids /\ Forall2 (fun id d => p_handlers p !! id = Some (HCall d.1 d.2)) ids ds.
Proof.
  intros H1 Hc H2.
  pose proof (peer_run_keeps cfg hs INSTANT_MAX quiesced evs (start l) w (start_quiesced l w)) as Hq.
  rewrite H1 in Hq. cbn in Hq.
  assert (Ha : after_close reason p p w').
  { split; [done|]. split; [done|]. exists [], []. rewrite app_nil_r. split_and!; [done|by split; [apply NoDup_nil_2|]|].
    intros id c r Hh. split; [done|apply not_elem_of_nil]. }
  pose proof (peer_run_keeps cfg hs INSTANT_MAX _ evs' p w' Ha) as Hr. rewrite H2 in Hr. cbn in Hr.
  destruct Hr as (Hq' & Hc' & ids & ds & Hd' & [Hn Hall] & _). split; [done|]. split; [|by exists ids, ds].
  apply (qs_pending _ _ Hq'). by rewrite Hc'.
Qed.

End Closing.

(** ** Calls *)

Section Calls.
Context (cfg : PeerConfig).

(** The identifiers in use were drawn before. *)
Definition known (p : Peer) (id : string) : Prop :=
  is_Some (p_waiting p !! id) \/ id ∈ (p_answers p).*1 \/ id ∈ (p_results p).*1.*1.
Definition drawn (w : World) (id : string) : Prop :=
  exists k, (k < o_next (w_uuid w))%nat /\ id = "peer_request_" +:+ o_at (w_uuid w) k.

Record calls (p : Peer) (w : World) : Prop := mk_calls {
  cl_uuids : uuids_fresh w;
  cl_drawn id : known p id -> drawn w id;
  cl_pending id rid : c_pending (p_state p) !! id = Some rid -> p_waiting p !! id = Some rid;
  cl_waiting id rid : p_waiting p !! id = Some rid ->
    c_pending (p_state p) !! id = Some rid \/ id ∈ (p_answers p).*1;
  cl_answered id r : (id, r) ∈ p_answers p -> c_pending (p_state p) !! id = None;
  cl_answers : NoDup (p_answers p).*1;
  cl_identity id rid r : protocol cfg = ScopedV2 -> p_waiting p !! id = Some rid ->
    (id, r) ∈ p_answers p -> resp_request_id r = rid;
  cl_returned id rid r : (id, rid, r) ∈ p_results p ->
    p_waiting p !! id = None /\ (protocol cfg = ScopedV2 -> resp_request_id r = rid);
  cl_results : NoDup (p_results p).*1.*1;
}.

Lemma string_app_inv_l a b c : a +:+ b = a +:+ c -> b = c.
Proof. induction a as [|x a IH]; [done|]. rewrite !string_app_cons. intros [= H]. auto. Qed.

Lemma call_id_new p w : calls p w -> ~ known p (call_id w).
Proof.
  intros [Hf Hd _ _ _ _ _ _ _] Hk. destruct (Hd _ Hk) as (k & Hk1 & Hk2).
  apply string_app_inv_l, Hf in Hk2. lia.
Qed.

Lemma drawn_le w w' id : world_le w w' -> drawn w id -> drawn w' id.
Proof. intros [] (k & H1 & ->). exists k. split; [lia|congruence]. Qed.

Lemma elem_of_fst {A B} (l : list (A * B)) a : a ∈ l.*1 <-> exists b, (a, b) ∈ l.
Proof.
  rewrite list_elem_of_fmap. split.
  - intros ([x b] & -> & Hx). eauto.
  - intros [b Hb]. by exists (a, b).
Qed.

Lemma pending_answers (m : gmap string string) :
  ((fun e => (e.1, connection_ended e.2)) <$> map_to_list m).*1 = (map_to_list m).*1.
Proof. rewrite <- list_fmap_compose. by apply list_fmap_ext. Qed.

Lemma elem_of_pending_answers (m : gmap string string) id r :
  (id, r) ∈ (fun e => (e.1, connection_ended e.2)) <$> map_to_list m <->
  exists rid, m !! id = Some rid /\ r = connection_ended rid.
Proof.
  rewrite list_elem_of_fmap. split.
  - intros ([k rid] & [= -> ->] & Hm%elem_of_map_to_list). eauto.
  - intros (rid & Hm & ->). exists (id, rid). by rewrite elem_of_map_to_list.
Qed.

#[export] Instance calls_quiet : Quiet cfg calls.
Proof.
  constructor.
  - intros p w w' [Hf Hd H3 H4 H5 H6 H7 H8 H9] Hw. constructor; try done.
    + by eapply world_le_uuids_fresh.
    + intros id Hk. eapply drawn_le; eauto.
  - intros p w l []. by constructor.
  - intros p w b [] _. by constructor.
  - intros p w reason [Hf Hd H3 H4 H5 H6 H7 H8 H9] _. constructor; cbn; try done.
    + intros id [Hk|[Hk|Hk]]; cbn in Hk; [by apply Hd; left| |by apply Hd; right; right].
      rewrite fmap_app, pending_answers in Hk. apply elem_of_app in Hk as [Hk|Hk]; [by apply Hd; right; left|].
      apply elem_of_fst in Hk as [rid Hk%elem_of_map_to_list]. apply Hd. left. eauto.
    + intros id rid Hw. right. rewrite fmap_app, pending_answers, elem_of_app.
      destruct (H4 _ _ Hw) as [Hp|Ha]; [|by left]. right. apply elem_of_fst. exists rid.
      by apply elem_of_map_to_list.
    + rewrite fmap_app, pending_answers. apply NoDup_app. split_and!; [done| |apply NoDup_fst_map_to_list].
      intros id (r & Ha)%elem_of_fst (rid & Hm%elem_of_map_to_list)%elem_of_fst.
      apply H5 in Ha. congruence.
    + intros id rid r Hs Hw [Ha|(rid' & Hm & ->)%elem_of_pending_answers]%elem_of_app; [by eapply H7|].
      apply H3 in Hm. cbn. congruence.
Qed.

Lemma calls_add p w rid :
  calls p w -> calls (add_call (call_id w) rid p) (set_uuid (advance (w_uuid w)) w).
Proof.
  intros Hc. pose proof (call_id_new p w Hc) as Hn. destruct Hc as [Hf Hd H3 H4 H5 H6 H7 H8 H9].
  assert (Ha : forall r, (call_id w, r) ∉ p_answers p).
  { intros r Hr. apply Hn. right. left. apply elem_of_fst. eauto. }
  constructor; cbn; try done.
  - intros id Hk. destruct (decide (id = call_id w)) as [->|Hne].
    { exists (o_next (w_uuid w)). cbn. split; [lia|done]. }
    eapply drawn_le; [apply world_le_uuid|]. apply Hd. destruct Hk as [Hk|[Hk|Hk]]; cbn in Hk.
    + left. by rewrite lookup_insert_ne in Hk.
    + by right; left.
    + by right; right.
  - intros id r [[-> ->]|[Hne Hp]]%lookup_insert_Some; [by rewrite lookup_insert_eq|].
    rewrite lookup_insert_ne by done. auto.
  - intros id r [[-> ->]|[Hne Hp]]%lookup_insert_Some; [left; by rewrite lookup_insert_eq|].
    rewrite lookup_insert_ne by done. auto.
  - intros id r Hr. rewrite lookup_insert_ne; [eauto|]. intros <-. by eapply Ha.
  - intros id r0 r Hs [[<- <-]|[Hne Hp]]%lookup_insert_Some Hr; [by edestruct Ha|]. by eapply H7.
  - intros id r0 r Hr. destruct (H8 _ _ _ Hr) as [Hw Hi]. split; [|done].
    rewrite lookup_insert_ne; [done|]. intros <-. apply Hn. right. right.
    apply elem_of_fst. exists r0. apply elem_of_fst. eauto.
Qed.

Lemma calls_drop p w id : calls p w -> calls (drop_call id p) w.
Proof.
  intros [Hf Hd H3 H4 H5 H6 H7 H8 H9]. constructor; cbn; try done.
  - intros i [Hk|[Hk|Hk]]; cbn in Hk; apply Hd; [|by right; left|by right; right].
    left. destruct Hk as [x [_ Hk]%lookup_delete_Some]. eauto.
  - intros i rid [Hne Hp]%lookup_delete_Some. rewrite lookup_delete_ne by done. auto.
  - intros i rid [Hne Hp]%lookup_delete_Some. rewrite lookup_delete_ne by done. auto.
  - intros i r Hr. rewrite lookup_delete_None. right. eauto.
  - intros i rid r Hs [Hne Hp]%lookup_delete_Some Hr. eauto.
  - intros i rid r Hr. destruct (H8 _ _ _ Hr) as [? ?]. split; [|done]. rewrite lookup_delete_None. auto.
Qed.

(** A waiting call returns. *)
Lemma calls_return p w id rid r :
  calls p w -> drawn w id -> p_waiting p !! id = None ->
  id ∉ (p_results p).*1.*1 -> (protocol cfg = ScopedV2 -> resp_request_id r = rid) ->
  calls (add_result (id, rid, r) p) w.
Proof.
  intros [Hf Hd H3 H4 H5 H6 H7 H8 H9] Hk Hw Hr Hi. constructor; cbn; try done.
  - intros i [Hk'|[Hk'|Hk']]; cbn in Hk'; [by apply Hd; left|by apply Hd; right; left|].
    rewrite !fmap_app in Hk'. apply elem_of_app in Hk' as [Hk'|Hk'%list_elem_of_singleton].
    + apply Hd. by right; right.
    + by subst.
  - intros i x y [Hx|Hx%list_elem_of_singleton]%elem_of_app; [by eapply H8|]. by simplify_eq.
  - rewrite !fmap_app. apply NoDup_app. split_and!; [done| |apply NoDup_singleton].
    intros i Hx Hx2%list_elem_of_singleton. by subst.
Qed.

Lemma waiting_not_returned p w id rid : calls p w -> p_waiting p !! id = Some rid -> id ∉ (p_results p).*1.*1.
Proof.
  intros Hc Hw (x & (r & Hr)%elem_of_fst)%elem_of_fst. destruct (cl_returned _ _ Hc _ _ _ Hr). congruence.
Qed.

Lemma calls_answer p w id rid r :
  calls p w -> c_pending (p_state p) !! id = Some rid ->
  (protocol cfg = ScopedV2 -> resp_request_id r = rid) ->
  calls (add_answers [(id, r)] (set_state (set_pending (delete id)) p)) w.
Proof.
  intros [Hf Hd H3 H4 H5 H6 H7 H8 H9] Hp Hi. constructor; cbn; try done.
  - intros i [Hk|[Hk|Hk]]; cbn in Hk; [by apply Hd; left| |by apply Hd; right; right].
    rewrite fmap_app in Hk. apply elem_of_app in Hk as [Hk|Hk%list_elem_of_singleton].
    + apply Hd. by right; left.
    + subst. apply Hd. left. eauto.
  - intros i x [Hne Hx]%lookup_delete_Some. auto.
  - intros i x Hx. rewrite fmap_app, elem_of_app. destruct (decide (i = id)) as [->|Hne].
    + right. right. by left.
    + rewrite lookup_delete_ne by done. destruct (H4 _ _ Hx); auto.
  - intros i x [Hx|Hx%list_elem_of_singleton]%elem_of_app.
    + rewrite lookup_delete_None. right. eauto.
    + simplify_eq. apply lookup_delete_eq.
  - rewrite fmap_app. apply NoDup_app. split_and!; [done| |apply NoDup_singleton].
    intros i (x & Hx)%elem_of_fst Hx2%list_elem_of_singleton. cbn in Hx2. subst. apply H5 in Hx. congruence.
  - intros i x y Hs Hx [Hy|Hy%list_elem_of_singleton]%elem_of_app; [by eapply H7|].
    simplify_eq. apply H3 in Hp. rewrite (Hi Hs). congruence.
Qed.

Lemma calls_receive p w id rid r :
  calls p w -> p_waiting p !! id = Some rid -> (id, r) ∈ p_answers p ->
  calls (add_result (id, rid, r) (set_waiting (delete id) p)) w.
Proof.
  intros Hc Hw Ha. pose proof (waiting_not_returned _ _ _ _ Hc Hw) as Hn.
  assert (Hd : drawn w id) by (apply (cl_drawn _ _ Hc); left; eauto).
  pose proof (cl_answered _ _ Hc _ _ Ha) as Hp.
  pose proof (fun Hs => cl_identity _ _ Hc id rid r Hs Hw Ha) as Hi.
  replace (set_waiting (delete id) p) with (drop_call id p).
  - apply calls_return; [by apply calls_drop|done|apply lookup_delete_eq|done..].
  - unfold drop_call. destruct p as [[] ? ? ? ? ? ? ? ? ? ? ? ?]. cbn in *. unfold set_state, set_pending. cbn.
    by rewrite (delete_id _ _ Hp).
Qed.

Lemma start_calls l w : uuids_fresh w -> calls (start l) w.
Proof.
  intros Hu. constructor; cbn; try done; try apply NoDup_nil_2.
  1: intros id [Hk|[Hk|Hk]]; cbn in Hk; [by destruct Hk|by apply not_elem_of_nil in Hk..].
  all: intros; match goal with Hn : _ ∈ [] |- _ => by apply not_elem_of_nil in Hn end.
Qed.

Lemma first_answer_is_Some id l : id ∈ l.*1 -> is_Some (first_answer id l).
Proof.
  intros [r Hr]%elem_of_fst. induction l as [|[k x] l IH]; cbn; [by apply not_elem_of_nil in Hr|].
  destruct (String.eqb_spec k id); [eauto|]. apply IH. apply elem_of_cons in Hr as [?|?]; [congruence|done].
Qed.

#[export] Instance calls_inv : PeerInvariant cfg calls.
Proof.
  constructor; try exact _; intros p w; intros; match goal with Hc : calls _ _ |- _ => rename Hc into Hcalls end.
  all: try (destruct Hcalls; by constructor).
  - by apply calls_add.
  - by apply calls_drop.
  - apply calls_return; [by apply calls_drop|apply (cl_drawn _ _ Hcalls); left; eauto|..|done].
    + apply lookup_delete_eq.
    + cbn. by eapply waiting_not_returned.
  - apply calls_receive; done.
  - by eapply calls_answer.
Qed.

(** C38: every call that got as far as waiting for its response (what is refused at once is the
    subject of [refused_calls_are_not_sent]) is answered once, and honestly. None returns twice; on a scoped connection the
    response a call returns carries the identifier of its own request; a caller that waits has its
    call pending or an answer in its channel, so that on a closed connection no caller is left
    waiting without an answer. *)
Theorem each_call_answered_once `{Codec} hs INSTANT_MAX evs l w p w' :
  uuids_fresh w -> peer_run cfg hs INSTANT_MAX evs (start l) w = (p, w') ->
  NoDup (p_results p).*1.*1 /\
  (forall id rid r, (id, rid, r) ∈ p_results p -> protocol cfg = ScopedV2 -> resp_request_id r = rid) /\
  (forall id rid, p_waiting p !! id = Some rid ->
     c_pending (p_state p) !! id = Some rid \/ is_Some (first_answer id (p_answers p))) /\
  (is_Some (c_closed (p_state p)) ->
   forall id, is_Some (p_waiting p !! id) -> is_Some (first_answer id (p_answers p))).
Proof.
  intros Hu Hr.
  pose proof (peer_run_keeps cfg hs INSTANT_MAX calls evs (start l) w (start_calls l w Hu)) as Hc.
  pose proof (peer_run_keeps cfg hs INSTANT_MAX (quiesced) evs (start l) w (start_quiesced l w)) as Hq.
  rewrite Hr in Hc, Hq. cbn in Hc, Hq.
  assert (Hw : forall id rid, p_waiting p !! id = Some rid ->
     c_pending (p_state p) !! id = Some rid \/ is_Some (first_answer id (p_answers p))).
  { intros id rid Hid. destruct (cl_waiting _ _ Hc _ _ Hid) as [?|?]; [by left|right].
    by apply first_answer_is_Some. }
  split_and!; [apply Hc| |done|].
  - intros id rid r Hin. by apply (cl_returned _ _ Hc _ _ _ Hin).
  - intros [reason Hcl] id [rid Hid]. destruct (Hw id rid Hid) as [Hp|Hp]; [|done].
    rewrite (qs_pending _ _ Hq), lookup_empty in Hp; congruence.
Qed.

End Calls.

(** ** Dispatch *)

Section Dispatch.
Context (cfg : PeerConfig).

(** The greeting that a ready connection has accepted. *)
Definition greeted (p : Peer) : Prop :=
  c_ready (p_state p) = true /\ exists h, hello_refused cfg h = false /\
    c_remote_services (p_state p) = h_roles h.

Definition exposed (c : RequestContext) : Prop := exists role, role ∈ services cfg /\ c = context_of cfg role.

Record provenance (p : Peer) (w : World) : Prop := mk_provenance {
  pv_reader : in_loop (p_reader p) = true -> greeted p;
  pv_ready : c_ready (p_state p) = true -> greeted p;
  pv_started id c r : p_handlers p !! id = Some (HStart c r) -> exposed c /\ greeted p;
  pv_running id c r : p_handlers p !! id = Some (HRun c r) -> (c, r) ∈ p_authorized p;
  pv_calling id c r : p_handlers p !! id = Some (HCall c r) -> (c, r) ∈ p_authorized p;
  pv_authorized c r : (c, r) ∈ p_authorized p -> exposed c /\ greeted p;
  pv_dispatched c r : (c, r) ∈ p_dispatched p -> (c, r) ∈ p_authorized p;
}.

#[export] Instance provenance_quiet : Quiet cfg provenance.
Proof.
  constructor.
  - intros p w w' [] _. by constructor.
  - intros p w l []. by constructor.
  - intros p w b [] _. by constructor.
  - intros p w reason [] _. by constructor.
Qed.

#[export] Instance provenance_inv : PeerInvariant cfg provenance.
Proof.
  constructor; try exact _; intros p w; intros; match goal with Hp : provenance _ _ |- _ =>
    destruct Hp as [V1 V2 V3 V4 V7 V5 V6] end.
  all: try by constructor.
  - (* ready *)
    assert (Hg : greeted (set_state (set_ready (h_roles h) (h_response_gzip h)) p)) by (split; [done|]; by exists h).
    constructor; try done; cbn; intros; split; try done; [by eapply V3|by eapply V5].
  - (* reader *)
    constructor; try done; cbn. intros Hl. destruct (H0 Hl); [by apply V1|by apply V2].
  - (* inbound *)
    constructor; try done; cbn; intros id' c r Hh; apply lookup_insert_Some in Hh as [[<- Hh]|[_ Hh]]; simplify_eq.
    + split; [by exists role|by apply V1].
    + by eapply V3.
    + by eapply V4.
    + by eapply V7.
  - (* authorize *)
    destruct (V3 _ _ _ H0) as [He Hg].
    constructor; try done; cbn.
    + intros id' c r Hh. apply lookup_insert_Some in Hh as [[<- Hh]|[_ Hh]]; simplify_eq. by eapply V3.
    + intros id' c r Hh. rewrite elem_of_app. apply lookup_insert_Some in Hh as [[<- Hh]|[_ Hh]].
      * simplify_eq. right. by left.
      * left. by eapply V4.
    + intros id' c r Hh. rewrite elem_of_app. apply lookup_insert_Some in Hh as [[<- Hh]|[_ Hh]]; simplify_eq. left. by eapply V7.
    + intros c r [Hc|Hc%list_elem_of_singleton]%elem_of_app; [by eapply V5|]. by simplify_eq.
    + intros c r Hc. rewrite elem_of_app. left. by apply V6.
  - (* pass *)
    constructor; try done; cbn; intros id' c r Hh; apply lookup_insert_Some in Hh as [[<- Hh]|[_ Hh]]; simplify_eq;
      [by eapply V3|by eapply V4|by eapply V4|by eapply V7].
  - (* dispatch *)
    constructor; try done; cbn.
    + intros id' c r Hh. apply lookup_insert_Some in Hh as [[<- Hh]|[_ Hh]]; simplify_eq. by eapply V3.
    + intros id' c r Hh. apply lookup_insert_Some in Hh as [[<- Hh]|[_ Hh]]; simplify_eq. by eapply V4.
    + intros id' c r Hh. apply lookup_insert_Some in Hh as [[<- Hh]|[_ Hh]]; simplify_eq. by eapply V7.
    + intros c r [Hc|Hc%list_elem_of_singleton]%elem_of_app; [by apply V6|]. simplify_eq. by eapply V7.
  - (* settled *)
    constructor; try done; cbn; intros id' c r Hh; apply lookup_insert_Some in Hh as [[<- ->]|[_ Hh]]; try done;
      [by eapply V3|by eapply V4|by eapply V7].
  - (* removed *)
    constructor; try done; cbn; intros id' c r [_ Hh]%lookup_delete_Some; [by eapply V3|by eapply V4|by eapply V7].
Qed.

(** dispatch is authorized. Every request that reaches the handler came in after a greeting whose
    protocol, node identity and binding are the expected ones, names a service that this side
    exposes, was accepted by the authorizer in that same context, and the context identifies the
    configured peer and binding, not what the request claims. *)
Theorem dispatch_is_authorized `{Codec} hs INSTANT_MAX evs l w p w' context request :
  peer_run cfg hs INSTANT_MAX evs (start l) w = (p, w') ->
  (context, request) ∈ p_dispatched p ->
  (context, request) ∈ p_authorized p /\
  rc_peer_id context = expected_peer_id cfg /\ rc_binding context = binding cfg /\
  rc_service context ∈ services cfg /\
  exists h, h_protocol h = protocol_name (protocol cfg) /\ h_node_id h = expected_peer_id cfg /\
    binding_eqb (h_binding h) (binding cfg) = true /\ c_remote_services (p_state p) = h_roles h.
Proof.
  intros Hr Hd.
  assert (H0 : provenance (start l) w).
  { constructor; cbn; try done; intros c r Hh; by apply not_elem_of_nil in Hh. }
  pose proof (peer_run_keeps cfg hs INSTANT_MAX provenance evs (start l) w H0) as Hp.
  rewrite Hr in Hp. cbn in Hp. pose proof (pv_dispatched _ _ Hp _ _ Hd) as Ha.
  destruct (pv_authorized _ _ Hp _ _ Ha) as [(role & Hs & ->) (_ & h & Hh & Hroles)].
  split_and!; try done. exists h. unfold hello_refused in Hh. bool_prop.
  split_and!; try done; by apply String.eqb_eq.
Qed.

End Dispatch.

(** ** What a caller is told *)

Section Honesty.
Context `{Codec} (cfg : PeerConfig).

(** Nothing reaches the queue of the writer. *)
Definition unsent (q : list bytes) (p : Peer) (w : World) : Prop := p_outgoing p = q.

Lemma keeps_unsent_live q : keeps (unsent q) (ensure_live cfg).
Proof.
  unfold ensure_live, lease_ended.
  assert (Hc : forall E r, keeps (E := E) (unsent q) (close r)).
  { intros E r p w Hp. unfold close. apply wp_bind. unfold wp at 1, gets. by destruct (c_closed _). }
  apply keeps_bind.
  - destruct (lease cfg); [|apply keeps_ret]. apply keeps_bind; [|intros; apply keeps_ret].
    intros p w Hp. unfold wp, zoom. by destruct (attempt ended (p_lease p) w) as [[r ls] w'].
  - intros [reason|].
    + apply keeps_bind; [apply Hc|]. intros _. apply keeps_fail.
    + apply keeps_bind; [apply keeps_gets|]. intros [|]; [apply keeps_fail|apply keeps_ret].
Qed.

(** a caller is told the truth about sending. When a call returns at once, nothing was put into
    the queue of the connection and the response carries the identifier of the request; otherwise
    exactly one frame was queued, the one that carries this request under the identifier the call
    waits for, to a service the peer announced. *)
Theorem refused_calls_are_not_sent service request timeout p w :
  let '(r, p', _) := call_begin cfg service request timeout p w in
  match r with
  | Err response => resp_request_id response = req_request_id request /\ resp_ok response = false /\
      p_outgoing p' = p_outgoing p
  | Ok id => exists b, encode (FRequest id service request) (max_frame_bytes (limits cfg)) = Ok b /\
      p_outgoing p' = p_outgoing p ++ [b] /\ service ∈ c_remote_services (p_state p') /\
      p_waiting p' !! id = Some (req_request_id request)
  end.
Proof.
  enough (Hwp : wp (call_begin cfg service request timeout) (fun r p' _ =>
    match r with
    | Err response => resp_request_id response = req_request_id request /\ resp_ok response = false /\
        p_outgoing p' = p_outgoing p
    | Ok id => exists b, encode (FRequest id service request) (max_frame_bytes (limits cfg)) = Ok b /\
        p_outgoing p' = p_outgoing p ++ [b] /\ service ∈ c_remote_services (p_state p') /\
        p_waiting p' !! id = Some (req_request_id request)
    end) p w).
  { unfold wp in Hwp. by destruct (call_begin _ _ _ _ _ _) as [[r p'] w']. }
  unfold call_begin. apply wp_bind. unfold wp at 1, with_err.
  pose proof (keeps_unsent_live (p_outgoing p) p w eq_refl) as Hl. unfold wp in Hl.
  destruct (ensure_live cfg p w) as [[[[]|e] p1] w1]; cbn [map_err]; [|done]. unfold unsent in Hl.
  destruct (timeout =? 0); [done|]. apply wp_bind. unfold wp at 1, new_v4.
  set (id := "peer_request_" +:+ peek (w_uuid w1)). apply wp_bind. unfold wp at 1, with_err, lift.
  destruct (encode (FRequest id service request) _) as [b|e] eqn:Hb; cbn [map_err]; [|done].
  apply wp_bind. unfold wp at 1, gets. destruct (_ || _); [done|].
  destruct (existsb _ _) eqn:Hs; cbn [negb]; [|done]. destruct (_ <=? _); [done|].
  apply wp_bind. unfold wp at 1, modify. apply wp_bind. unfold try_send.
  apply wp_bind. unfold wp at 1, get. destruct (_ || _); [done|].
  cbn. exists b. rewrite Hl, lookup_insert_eq. split_and!; try done.
  apply existsb_exists in Hs as (x & Hx & ->%String.eqb_eq). by apply list_elem_of_In.
Qed.

End Honesty.

(** ** Runs of a connection

    A scoped connection on the accepting side: the greeting, one inbound
    request that is authorized and dispatched, one outbound call that returns. *)

#[local] Existing Instance FramingCodec.sample_codec.

Definition sample_binding : ChannelBinding := mkChannelBinding "lease-1" (obj_of [("attempt", vu64 1)]).
Definition sample_config : PeerConfig :=
  mkPeerConfig ScopedV2 "node-b" "node-a" ["executor"] ["controller"] (Some sample_binding) (Some "lease-1")
    PeerLimits_default.
Definition sample_lease : PeerLease.State := PeerLease.mkState 1000000 1000000 None.

Example sample_config_valid :
  fst (fst (validate sample_config sample_lease (sample_world 0))) = Ok tt.
Proof. vm_compute. reflexivity. Qed.

Definition sample_hello : HelloFields :=
  mkHelloFields "machine-fabric.peer/v2" "node-a" ["controller"] (Some sample_binding) false.
Definition any_read : result CloseReason Frame := Err Disconnected.

Definition greeting : list event := [EvReader any_read; EvReader (Ok (Hello sample_hello)); EvWriter true].
Definition incoming : list event :=
  [EvReader (Ok (FRequest "q1" "executor" sample_request)); EvReader any_read; EvHandler "q1" (Some (Ok tt)) None].
Definition dispatching : list event := [EvHandler "q1" None None; EvHandler "q1" None None].
Definition calling : list event :=
  [EvCall "controller" sample_request 1000; EvReader (Ok (FResponse "peer_request_" sample_response));
   EvReader any_read; EvReceive "peer_request_"].

Definition run (evs : list event) : Peer * World :=
  peer_run sample_config Accept 2000000 evs (start sample_lease) (sample_world 0).

Lemma run_eq evs :
  peer_run sample_config Accept 2000000 evs (start sample_lease) (sample_world 0) = (fst (run evs), snd (run evs)).
Proof. apply surjective_pairing. Qed.

Definition more (evs : list event) (r : Peer * World) : Peer * World :=
  peer_run sample_config Accept 2000000 evs (fst r) (snd r).

Lemma more_eq evs r :
  peer_run sample_config Accept 2000000 evs (fst r) (snd r) = (fst (more evs r), snd (more evs r)).
Proof. apply surjective_pairing. Qed.

Definition executor_context : RequestContext := mkRequestContext "node-a" "executor" (Some sample_binding).

#[local] Abbreviation closed_run := (run (greeting ++ incoming ++ [EvClose])).
#[local] Abbreviation closed_more := (more dispatching closed_run).

Lemma no_dispatch_after_close_witness :
  p_authorized (fst closed_run) = [(executor_context, sample_request)] /\
  p_dispatched (fst closed_more) = [].
Proof.
  split; [vm_compute; reflexivity|].
  assert (Hc : c_closed (p_state (fst closed_run)) = Some Requested) by (vm_compute; reflexivity).
  assert (Hd : p_dispatched (fst closed_run) = []) by (vm_compute; reflexivity).
  pose proof (no_dispatch_after_close sample_config Accept 2000000 (greeting ++ incoming ++ [EvClose]) dispatching
    sample_lease (sample_world 0) (fst closed_run) (snd closed_run) (fst closed_more) (snd closed_more) Requested
    (run_eq _) Hc (more_eq _ _)) as (_ & _ & ids & ds & H1 & _ & H2).
  rewrite Hd in H1. destruct H2 as [|id d ids' ds' H2 _]; [exact H1|]. exfalso.
  assert (Hh : map_to_list (p_handlers (fst closed_run)) = [("q1", HRun executor_context sample_request)]) by (vm_compute; reflexivity).
  apply elem_of_map_to_list in H2. rewrite Hh in H2. apply list_elem_of_singleton in H2. discriminate.
Defined.

(** A request whose thread had passed its check reaches the handler after the close. *)
Theorem dispatch_after_close :
  let p := fst (run (greeting ++ incoming ++ [EvHandler "q1" None None; EvClose])) in
  c_closed (p_state p) = Some Requested /\ p_dispatched p = [] /\
  p_dispatched (fst (run (greeting ++ incoming ++ [EvHandler "q1" None None; EvClose; EvHandler "q1" None None]))) = [(executor_context, sample_request)].
Proof. vm_compute. done. Qed.

#[local] Abbreviation dispatch_run := (run (greeting ++ incoming ++ dispatching)).

Lemma dispatch_is_authorized_witness :
  p_dispatched (fst dispatch_run) = [(executor_context, sample_request)] /\
  (executor_context, sample_request) ∈ p_authorized (fst dispatch_run).
Proof.
  assert (Hd : p_dispatched (fst dispatch_run) = [(executor_context, sample_request)]) by (vm_compute; reflexivity).
  split; [exact Hd|].
  assert (Hin : (executor_context, sample_request) ∈ p_dispatched (fst dispatch_run)) by (rewrite Hd; left).
  exact (proj1 (dispatch_is_authorized sample_config Accept 2000000 (greeting ++ incoming ++ dispatching)
    sample_lease (sample_world 0) (fst dispatch_run) (snd dispatch_run) executor_context sample_request
    (run_eq _) Hin)).
Defined.

#[local] Abbreviation call_run := (run (greeting ++ calling)).

Lemma each_call_answered_once_witness :
  p_results (fst call_run) = [("peer_request_", "req_1", sample_response)] /\
  NoDup (p_results (fst call_run)).*1.*1.
Proof.
  split; [vm_compute; reflexivity|].
  exact (proj1 (each_call_answered_once sample_config Accept 2000000 (greeting ++ calling) sample_lease
    (sample_world 0) (fst call_run) (snd call_run) (sample_world_fresh 0) (run_eq _))).
Defined.
