(* ===== verification/Payloads.v ===== *)
(** * Task payloads beside the state file ([crates/machine-fabric-runtime/src/controller.rs])

    Large inputs and outputs of finished tasks move out of the state file into
    files named by their digest; the task keeps a reference. Reading checks the
    size and the digest. The disk is the one of [Store] (it has no symbolic
    links); [serde_json] and the SHA-256 digest are parameters. The text of an
    operating system error is left out of the messages. *)
From Stdlib Require Import Ascii String.
From stdpp Require Import base gmap strings list.
From S2P Require Import Prelude Json Schema Protocol Tasks Store FramingCodec.
Open Scope Z_scope.
Open Scope fabric_scope.

Definition TASK_PAYLOAD_INLINE_LIMIT : Z := 64 * 1024.

Record PayloadUpdate := mkPayloadUpdate {
  pu_id : string;
  pu_revision : Z;
  pu_input : option (Value * TaskPayloadRef);
  pu_output : option (Value * TaskPayloadRef);
}.

Definition path_text (p : path) : string := "/" +:+ String.concat "/" p.

(** [valid_payload_digest] *)
Definition valid_payload_digest (digest : string) : bool :=
  match strip_prefix "sha256:" digest with
  | Some hex => (str_len hex =? 64) && bytes_all is_ascii_hexdigit hex
  | None => false
  end.

(** [payload_error] *)
Definition payload_error (reference : TaskPayloadRef) (reason : string) : RpcError :=
  rpc_error "TASK_PAYLOAD_UNAVAILABLE"
    (reason +:+ " (digest=" +:+ ref_digest reference +:+ ", locator=" +:+ ref_locator reference +:+ ")").

Definition is_lower_hexdigit (c : ascii) : bool := is_ascii_digit c || byte_in 97 102 c.

(** [fs::symlink_metadata] *)
Definition stat {E} (error : E) (p : path) : M Disk E node :=
  syscall error (fun fs => match fs !! p with Some n => Some (n, fs) | None => None end).

Section Payloads.
Context (to_vec : Value -> option string) (from_slice : string -> option Value).
Context (sha256_hex : string -> string) (torn : string -> string).
Context (store : JsonStore).

Definition sha256_bytes (b : string) : string := "sha256:" +:+ sha256_hex b.

Definition payload_directory : path := default [] (parent (store_path store)) ++ ["task-payloads"].
Definition payload_path (name : string) : path := payload_directory ++ [name +:+ ".json"].
Definition locator_of (name : string) : string := "task-payloads/" +:+ name +:+ ".json".

(** [read_payload_bytes] *)
Definition read_payload_bytes (directory p : path) (size : Z) (digest : string) : M Disk RpcError string :=
  let invalid reason := rpc_error "TASK_PAYLOAD_UNAVAILABLE" (path_text p +:+ ": " +:+ reason) in
  stat (invalid "") directory ;;
  let* kind := stat (invalid "") p in
  match kind with
  | Dir => fail (invalid "payload directory/file must not be symlinks")
  | File _ _ =>
      let* bytes := read_file (invalid "") p in
      if negb (str_len bytes =? size) then fail (invalid "byte count mismatch")
      else if negb (String.eqb (sha256_bytes bytes) digest)
      then fail (invalid "SHA-256 or byte count mismatch")
      else ret bytes
  end.

(** [read_task_payload] *)
Definition read_task_payload (reference : TaskPayloadRef) : M Disk RpcError Value :=
  if negb (valid_payload_digest (ref_digest reference)) then fail (payload_error reference "invalid digest")
  else
    let hex := default "" (strip_prefix "sha256:" (ref_digest reference)) in
    let name :=
      if String.eqb (ref_locator reference) (locator_of hex) then Some hex
      else if String.eqb (ref_locator reference) (locator_of (ref_digest reference))
      then Some (ref_digest reference) else None in
    match name with
    | None => fail (payload_error reference "locator is not the canonical digest path")
    | Some name =>
        let* bytes := read_payload_bytes payload_directory (payload_path name) (ref_bytes reference)
                        (ref_digest reference) in
        lift (ok_or (from_slice bytes) (payload_error reference "invalid JSON: "))
    end.

(** The closure of [write_task_payload] that creates the file. *)
Definition publish_payload (temporary p : path) (bytes : string) : M Disk RpcError unit :=
  let failed stage := rpc_error "STATE_PAYLOAD_WRITE_FAILED" (stage +:+ " " +:+ path_text temporary +:+ ": ") in
  create_new (failed "open") temporary ;;
  write_all torn (failed "write") temporary bytes ;;
  sync_all (failed "write") temporary ;;
  atomic_replace (failed "rename") temporary p.

Definition payload_ref (bytes : string) : TaskPayloadRef :=
  mkTaskPayloadRef (sha256_bytes bytes) (str_len bytes) (locator_of (sha256_hex bytes)) None.

(** [write_task_payload] *)
Definition write_task_payload (bytes : string) : M Disk RpcError TaskPayloadRef :=
  let p := payload_path (sha256_hex bytes) in
  let* disk := get in
  match files disk !! p with
  | Some _ => read_payload_bytes payload_directory p (str_len bytes) (sha256_bytes bytes) ;; ret tt
  | None =>
      create_dir_all (rpc_error "STATE_PAYLOAD_WRITE_FAILED" ("create " +:+ path_text payload_directory +:+ ": "))
        payload_directory ;;
      let* temporary := temporary_path p in
      let* written := attempt (publish_payload temporary p bytes) in
      match written with
      | Ok _ => ret tt
      | Err e => let* _ := attempt (remove_file tt temporary) in fail e
      end
  end ;;
  ret (payload_ref bytes).

Definition payload_marker (reference : TaskPayloadRef) : Value :=
  obj_of [("$taskPayloadRef", VString (ref_digest reference)); ("bytes", vu64 (ref_bytes reference))].

Definition encode_payload (v : Value) : M Disk RpcError string :=
  lift (ok_or (to_vec v) (rpc_error "STATE_PAYLOAD_ENCODE_FAILED" "")).

(** The part of [externalize_task_payloads] for one value: the reference, where it is moved out. *)
Definition externalize_value (v : Value) : M Disk RpcError (option TaskPayloadRef) :=
  let* bytes := encode_payload v in
  if TASK_PAYLOAD_INLINE_LIMIT <? str_len bytes
  then let* reference := write_task_payload bytes in ret (Some reference)
  else ret None.

(** The body of the loop of [externalize_task_payloads]. *)
Definition externalize_task (task : Task) : M Disk RpcError (Task * PayloadUpdate) :=
  let* input :=
    match task_input_ref task with
    | None => externalize_value (task_input task)
    | Some _ => ret None
    end in
  let task1 :=
    match input with
    | Some reference => with_input task (payload_marker reference) (Some reference)
    | None => task
    end in
  let* output :=
    match task_output task1, task_output_ref task1 with
    | Some v, None => externalize_value v
    | _, _ => ret None
    end in
  let task2 :=
    match output with
    | Some reference => with_output task1 (Some (payload_marker reference)) (Some reference)
    | None => task1
    end in
  let tagged := fmap (fun reference => (payload_marker reference, reference)) in
  ret (task2, mkPayloadUpdate (task_id task) (task_revision task) (tagged input) (tagged output)).

Definition has_update (u : PayloadUpdate) : bool :=
  match pu_input u, pu_output u with None, None => false | _, _ => true end.

(** [externalize_task_payloads]: the new tasks and the updates. *)
Fixpoint externalize_task_payloads (tasks : list Task) : M Disk RpcError (list Task * list PayloadUpdate) :=
  match tasks with
  | [] => ret ([], [])
  | task :: tasks' =>
      if terminal (task_state task) then
        let* done := externalize_task task in
        let* rest := externalize_task_payloads tasks' in
        ret (done.1 :: rest.1, if has_update done.2 then done.2 :: rest.2 else rest.2)
      else
        let* rest := externalize_task_payloads tasks' in
        ret (task :: rest.1, rest.2)
  end.

(** [deployed_payload] *)
Definition deployed_payload (value : Value) : M Disk RpcError (option Value) :=
  match vget "$machineFabricPayload" value with
  | None => ret None
  | Some marker =>
      let invalid reason := rpc_error "TASK_PAYLOAD_UNAVAILABLE" reason in
      if match as_object value with Some m => negb (Nat.eqb (length m) 1) | None => true end
         || match as_object marker with Some m => negb (Nat.eqb (length m) 2) | None => true end
      then fail (invalid "invalid deployed payload marker fields")
      else match vget "sha256" marker ≫= as_str with
      | None => fail (invalid "invalid deployed payload digest")
      | Some digest =>
          if negb ((str_len digest =? 64) && bytes_all is_lower_hexdigit digest)
          then fail (invalid "invalid deployed payload digest")
          else match vget "bytes" marker ≫= as_u64, file_name (store_path store) with
          | None, _ => fail (invalid "invalid deployed payload byte count")
          | Some _, None => fail (invalid "state filename missing")
          | Some size, Some name =>
              let directory := with_file_name (store_path store) (name +:+ ".payloads") in
              let* bytes := read_payload_bytes directory (directory ++ [digest +:+ ".json"]) size
                              ("sha256:" +:+ digest) in
              let* v := lift (ok_or (from_slice bytes) (invalid "invalid deployed payload JSON: ")) in
              ret (Some v)
          end
      end
  end.

(** [hydrate_deployed_payload] *)
Definition hydrate_deployed_payload (value : Value) : M Disk RpcError Value :=
  let* restored := deployed_payload value in
  ret match restored with Some v => v | None => value end.

Definition with_details (e : TaskEvent) (v : Value) : TaskEvent :=
  mkTaskEvent (event_sequence e) (event_timestamp e) (event_type e) v.
Definition with_failure_details (f : TaskFailure) (v : Value) : TaskFailure :=
  mkTaskFailure (failure_code f) (failure_message f) (failure_retryable f) v.

Definition with_error_events (t : Task) (error : option TaskFailure) (events : list TaskEvent) : Task :=
  mkTask (task_id t) (task_correlation_id t) (task_request_id t) (task_workspace_session_id t)
    (task_executor_id t) (task_capability t) (task_input t) (task_input_ref t) (task_output t)
    (task_output_ref t) error (task_idempotency_key t) (task_state t) (task_attempt t) (task_revision t)
    (task_created_at t) (task_updated_at t) events.

(** [task_with_payload] *)
Definition task_with_payload (task : Task) : M Disk RpcError Task :=
  let* input := match task_input_ref task with
                | Some reference => read_task_payload reference
                | None => ret (task_input task)
                end in
  let* output := match task_output_ref task with
                 | Some reference => let* v := read_task_payload reference in ret (Some v)
                 | None => ret (task_output task)
                 end in
  let* input := hydrate_deployed_payload input in
  let* output := match output with
                 | Some v => let* v := hydrate_deployed_payload v in ret (Some v)
                 | None => ret None
                 end in
  let* error := match task_error task with
                | Some f => let* v := hydrate_deployed_payload (failure_details f) in
                            ret (Some (with_failure_details f v))
                | None => ret None
                end in
  let* events := map_m (fun e => let* v := hydrate_deployed_payload (event_details e) in
                                 ret (with_details e v)) (task_events task) in
  ret (with_error_events
         (with_output (with_input task input (task_input_ref task)) output (task_output_ref task))
         error events).

(** The part of [migrate_deployed_task_payloads] for one field: the value and the reference. *)
Definition migrate_field (finished : bool) (field : Value * option TaskPayloadRef)
    : M Disk RpcError (option (Value * option TaskPayloadRef)) :=
  let* restored := deployed_payload field.1 in
  match restored with
  | None => ret None
  | Some v =>
      match field.2 with
      | Some _ => fail (rpc_error "TASK_PAYLOAD_UNAVAILABLE" "conflicting deployed and candidate references")
      | None =>
          if finished then
            let* bytes := encode_payload v in
            let* converted := write_task_payload bytes in
            ret (Some (payload_marker converted, Some converted))
          else ret (Some (v, None))
      end
  end.

(** The body of the loop of [migrate_deployed_task_payloads]. *)
Definition migrate_task (task : Task) : M Disk RpcError (Task * bool) :=
  let finished := terminal (task_state task) in
  let* input := migrate_field finished (task_input task, task_input_ref task) in
  let task1 := match input with Some (v, r) => with_input task v r | None => task end in
  let* output := match task_output task1 with
                 | Some v => migrate_field finished (v, task_output_ref task1)
                 | None => ret None
                 end in
  let task2 := match output with Some (v, r) => with_output task1 (Some v) r | None => task1 end in
  match task_error task with Some f => deployed_payload (failure_details f) ;; ret tt | None => ret tt end ;;
  for_each (task_events task) (fun e => deployed_payload (event_details e) ;; ret tt) ;;
  ret (task2, bool_decide (is_Some input) || bool_decide (is_Some output)).

(** [migrate_deployed_task_payloads] *)
Fixpoint migrate_deployed_task_payloads (tasks : list Task) : M Disk RpcError (list Task * bool) :=
  match tasks with
  | [] => ret ([], false)
  | task :: tasks' =>
      let* done := migrate_task task in
      let* rest := migrate_deployed_task_payloads tasks' in
      ret (done.1 :: rest.1, done.2 || rest.2)
  end.

End Payloads.

(** ** What writing a payload does to the disk *)

Fixpoint ends_with (suffix s : string) : bool :=
  String.eqb suffix s || match s with EmptyString => false | String _ s' => ends_with suffix s' end.

(** The names that [temporary_path] makes. *)
Definition temporary (q : path) : bool :=
  match file_name q with Some name => ends_with ".tmp" name | None => false end.

(** Nothing that is on the disk changes, temporary files apart. *)
Definition kept (d0 d : Disk) : Prop :=
  forall q n, temporary q = false -> files d0 !! q = Some n -> files d !! q = Some n.

#[export] Instance kept_preorder : PreOrder kept.
Proof. split; [by intros d q n|]. intros a b c H1 H2 q n Ht Hq. auto. Qed.

Lemma ends_with_app suffix a : ends_with suffix (a +:+ suffix) = true.
Proof.
  induction a as [|c a IH].
  - change ("" +:+ suffix) with suffix. destruct suffix as [|c s]; [done|]. cbn [ends_with].
    by rewrite String.eqb_refl.
  - rewrite string_app_cons. cbn [ends_with]. by rewrite IH, orb_true_r.
Qed.

Lemma temporary_path_is_temporary p uuid :
  temporary (with_file_name p ("." +:+ default "" (file_name p) +:+ "." +:+ uuid +:+ ".tmp")) = true.
Proof.
  unfold temporary, file_name, with_file_name. rewrite last_snoc.
  rewrite !string_app_assoc.
  apply ends_with_app.
Qed.

Lemma json_not_temporary dir name : temporary (dir ++ [name +:+ ".json"]) = false.
Proof.
  unfold temporary, file_name. rewrite last_snoc. induction name as [|c name IH]; [done|].
  rewrite string_app_cons. cbn [ends_with]. rewrite IH, orb_false_r. apply String.eqb_neq.
  intros H%(f_equal String.length). cbn in H. rewrite string_length_app in H. cbn in H. lia.
Qed.

Lemma wp_syscall {E A} (e : E) (run : gmap path node -> option (A * gmap path node))
    (Q : result E A -> Disk -> World -> Prop) d w :
  (forall w', Q (Err e) d w') ->
  (forall a fs w', run (files d) = Some (a, fs) -> Q (Ok a) (mkDisk fs (fs :: history d)) w') ->
  wp (syscall e run) Q d w.
Proof.
  intros He Hok. apply wp_intro. intros r d' w' H.
  apply syscall_cases in H as [[-> ->]|(a & fs & -> & Hr & ->)]; auto.
Qed.

Lemma wp_create_dirs {E} (e : E) above rest d w :
  wp (create_dirs e above rest) (fun r d' _ => kept d d' /\
    (forall q, (length above + length rest < length q)%nat -> files d' !! q = files d !! q) /\
    (r = Ok tt -> rest <> [] -> files d' !! (above ++ rest) = Some Dir)) d w.
Proof.
  revert above d w. induction rest as [|c rest IH]; intros above d w; cbn [create_dirs].
  { split; [done|]. split; [done|]. by intros _ ?. }
  apply wp_bind, wp_syscall; [done|]. intros [] fs w' Hm.
  assert (Hk : kept d (mkDisk fs (fs :: history d)) /\ fs !! (above ++ [c]) = Some Dir /\
    forall q, q <> above ++ [c] -> fs !! q = files d !! q).
  { unfold make_dir in Hm. destruct (files d !! (above ++ [c])) as [[|]|] eqn:Hc; simplify_eq; [by split_and!; [intros q n|..]|].
    split; [|split; [by rewrite lookup_insert_eq|intros q Hq; by rewrite lookup_insert_ne]].
    intros q n _ Hq. cbn. destruct (decide (above ++ [c] = q)) as [<-|Hne]; [congruence|].
    by rewrite lookup_insert_ne. }
  destruct Hk as (Hk & Hd & Hq). destruct rest as [|c' rest].
  { split; [done|]. split; [|by intros _ _]. intros q Hl. apply Hq. intros ->.
    rewrite length_app in Hl. cbn in Hl. lia. }
  eapply wp_mono; [apply IH|]. intros r d' _ (Hk' & Hq' & Hr).
  split; [by etrans|]. split.
  - intros q Hl. cbn [length] in Hl. rewrite Hq' by (rewrite length_app; cbn; lia). apply Hq.
    intros ->. rewrite length_app in Hl. cbn in Hl. lia.
  - intros Hok _. rewrite (cons_middle c), app_assoc. by apply Hr.
Qed.

Section PayloadFacts.
Context (to_vec : Value -> option string) (from_slice : string -> option Value).
Context (sha256_hex : string -> string) (torn : string -> string).
Context (store : JsonStore).
#[local] Abbreviation payload_at := (payload_path store).

Lemma wp_read_payload_bytes directory p size digest d w :
  wp (read_payload_bytes sha256_hex directory p size digest) (fun r d' _ => files d' = files d /\
    match r with
    | Ok b => is_Some (files d !! directory) /\ (exists s, files d !! p = Some (File b s)) /\ str_len b = size /\
        sha256_bytes sha256_hex b = digest
    | Err _ => True
    end) d w.
Proof.
  unfold read_payload_bytes. apply wp_bind, wp_syscall; [done|]. intros k1 fs w1 H1.
  destruct (files d !! directory) as [m|] eqn:Hd; simplify_eq.
  apply wp_bind, wp_syscall; [done|]. cbn. intros n fs w2 H2.
  destruct (files d !! p) as [k|] eqn:Hp; simplify_eq. destruct n as [|b s]; [done|].
  apply wp_bind, wp_syscall; [done|]. cbn. intros b' fs w3 H3. rewrite Hp in H3. simplify_eq.
  destruct (Z.eqb_spec (str_len b') size); [|done]. cbn.
  destruct (String.eqb_spec (sha256_bytes sha256_hex b') digest); [|done]. cbn. eauto 10.
Qed.

(** Until it is renamed, the temporary file is the only change. *)
Lemma wp_publish_payload temporary p bytes d w :
  files d !! p = None -> temporary <> p ->
  wp (publish_payload torn temporary p bytes) (fun r d' _ =>
    (forall q, q <> temporary -> q <> p -> files d' !! q = files d !! q) /\
    match r with
    | Ok _ => files d !! temporary = None /\ files d' !! p = Some (File bytes true)
    | Err _ => files d' !! p = None /\ (files d !! temporary = None \/ files d' = files d)
    end) d w.
Proof.
  intros Hp Hne. unfold publish_payload. apply wp_bind, wp_syscall; [by auto|]. intros [] fs1 w1 H1.
  destruct (files d !! temporary) eqn:Ht; [done|]. destruct (is_dir _ _); simplify_eq.
  apply wp_bind. unfold write_all. apply wp_intro. intros r2 d2 w2 H2. munfold. cbn in H2.
  unfold append_bytes in H2. rewrite lookup_insert_eq in H2.
  assert (Hd2 : exists b, files d2 = <[temporary := File b false]> (files d) /\ (r2 = Ok tt -> b = bytes)).
  { rewrite insert_insert_eq in H2. destruct (peek (w_io w1)); simplify_eq; cbn; eexists; (split; [done|]).
    - done.
    - done. }
  destruct Hd2 as (b & Hd2 & Hb).
  assert (Hfr : forall b' q, q <> temporary -> <[temporary := b']> (files d) !! q = files d !! q).
  { intros b' q Hq. by rewrite lookup_insert_ne. }
  assert (Hpn : forall n, <[temporary := n]> (files d) !! p = None) by (intros n; rewrite Hfr; done).
  destruct r2 as [[]|e2]; [|rewrite Hd2; eauto 10]. rewrite (Hb eq_refl) in Hd2.
  apply wp_bind, wp_syscall; [rewrite Hd2; eauto 10|]. intros [] fs3 w3 H3.
  rewrite Hd2, lookup_insert_eq in H3. simplify_eq. rewrite insert_insert_eq.
  apply wp_syscall; cbn; [eauto 10|]. intros [] fs4 w4 H4.
  rewrite lookup_insert_eq, Hpn in H4. simplify_eq. cbn. rewrite lookup_insert_eq. split; [|done].
  intros q Hq1 Hq2. rewrite lookup_insert_ne, lookup_delete_ne by done. by apply Hfr.
Qed.

(** The payload of [bytes] is on the disk: a file with its name, its size and its digest. *)
Definition stored (bytes : string) (d : Disk) : Prop :=
  is_Some (files d !! payload_directory store) /\
  exists b s, files d !! payload_at (sha256_hex bytes) = Some (File b s) /\
    sha256_hex b = sha256_hex bytes /\ str_len b = str_len bytes.

Lemma payload_directory_kept : temporary (payload_directory store) = false.
Proof. unfold temporary, file_name, payload_directory. by rewrite last_snoc. Qed.

Lemma stored_kept bytes d d' : stored bytes d -> kept d d' -> stored bytes d'.
Proof.
  intros ([n Hn] & b & s & Hf & Hs) Hk. split.
  - exists n. apply Hk; [apply payload_directory_kept|done].
  - exists b, s. split; [|done]. apply Hk; [apply json_not_temporary|done].
Qed.

Lemma sha_app_inj a b : sha256_bytes sha256_hex a = sha256_bytes sha256_hex b -> sha256_hex a = sha256_hex b.
Proof. unfold sha256_bytes. by intros [= H]. Qed.

Lemma wp_write_task_payload bytes d w :
  wp (write_task_payload sha256_hex torn store bytes) (fun r d' _ => kept d d' /\
    match r with
    | Ok reference => reference = payload_ref sha256_hex bytes /\ stored bytes d' /\
        (forall name b s, files d' !! payload_at name = Some (File b s) ->
           files d !! payload_at name = Some (File b s) \/ b = bytes)
    | Err _ => True
    end) d w.
Proof.
  unfold write_task_payload. apply wp_bind. unfold wp at 1, get.
  apply wp_bind. destruct (files d !! payload_at (sha256_hex bytes)) as [n|] eqn:Hp.
  - apply wp_bind. eapply wp_mono; [apply wp_read_payload_bytes|].
    intros [b|e] d' w' [Hf H]; [|split; [intros q m _ Hq; by rewrite Hf|done]].
    destruct H as (Hd & [s Hb] & Hl & Hs). unfold wp, ret.
    split; [intros q m _ Hq; by rewrite Hf|]. split; [done|]. split; [|intros; left; by rewrite <- Hf].
    unfold stored. rewrite Hf. split; [done|]. exists b, s. split; [done|]. split; [|done].
    by apply sha_app_inj.
  - apply wp_bind. eapply wp_mono; [apply wp_create_dirs|]. intros [[]|e] d1 w1 (Hk & Hlong & Hdir); [|done].
    assert (Hd1 : files d1 !! payload_directory store = Some Dir).
    { apply Hdir; [done|]. unfold payload_directory. by destruct (default [] _). }
    clear Hdir. apply wp_bind. unfold temporary_path. apply wp_bind. unfold wp at 1, new_v4, wp at 1, ret.
    set (tmp := with_file_name _ _). assert (Hne : tmp <> payload_at (sha256_hex bytes)) by apply temporary_ne.
    assert (Htmp : temporary tmp = true) by apply temporary_path_is_temporary.
    assert (Hp1 : files d1 !! payload_at (sha256_hex bytes) = None).
    { rewrite Hlong; [done|]. unfold payload_path. rewrite length_app. cbn. lia. }
    apply wp_bind, wp_attempt. eapply wp_mono; [by apply wp_publish_payload|].
    intros [[]|e] d2 w2 (Hfr & Hpub).
    + destruct Hpub as [Ht Hf].
      assert (Hk2 : kept d1 d2) by (intros q n Hq1 Hq2; rewrite Hfr; [done|congruence..]).
      unfold wp, ret. split; [by etrans|]. split; [done|]. split; cycle 1.
      { intros name b s Hb. destruct (decide (payload_at name = payload_at (sha256_hex bytes))) as [He|He].
        - right. rewrite He, Hf in Hb. by simplify_eq.
        - left. rewrite <- (Hlong (payload_at name)), <- Hfr; [done| |done|].
          + intros Ht'. rewrite <- Ht' in Htmp. unfold payload_path in Htmp. by rewrite json_not_temporary in Htmp.
          + unfold payload_path. rewrite length_app. cbn. lia. }
      split; [exists Dir; apply Hk2; [apply payload_directory_kept|done]|]. by exists bytes, true.
    + assert (Hk2 : kept d1 d2) by (intros q n Hq1 Hq2; rewrite Hfr; [done|congruence..]).
      apply wp_bind, wp_attempt, wp_syscall.
      * intros w3. split; [by etrans|done].
      * intros a fs w3 Hr. split; [|done]. do 2 (etrans; [done|]). intros q n Hq1 Hq2. cbn.
        destruct (files d2 !! tmp) as [[|]|]; simplify_eq. rewrite lookup_delete_ne; [done|congruence].
Qed.

(** ** Reading a payload back *)

(** The payload of [bytes] itself is on the disk. *)
Definition holds (bytes : string) (d : Disk) : Prop :=
  is_Some (files d !! payload_directory store) /\
  exists s, files d !! payload_at (sha256_hex bytes) = Some (File bytes s).

Lemma holds_kept bytes d d' : holds bytes d -> kept d d' -> holds bytes d'.
Proof.
  intros ([n Hn] & s & Hf) Hk. split.
  - exists n. apply Hk; [apply payload_directory_kept|done].
  - exists s. apply Hk; [apply json_not_temporary|done].
Qed.

(** SHA-256 tells apart the payloads that [S] admits; its text form has 64 digits. *)
Definition separates (S : string -> Prop) : Prop :=
  forall a b, S a -> S b -> sha256_hex a = sha256_hex b -> a = b.
Definition on_disk (d : Disk) (b : string) : Prop :=
  exists name s, files d !! payload_at name = Some (File b s).

Lemma stored_holds S bytes d :
  separates S -> (forall b, on_disk d b -> S b) -> S bytes -> stored bytes d -> holds bytes d.
Proof.
  intros Hs Hd Hb (Hdir & b & s & Hf & He & _). split; [done|]. exists s.
  rewrite Hf. do 2 f_equal. apply Hs; [|done|done]. apply Hd. by exists (sha256_hex bytes), s.
Qed.

Definition digests_ok : Prop :=
  forall b, (str_len (sha256_hex b) =? 64) && bytes_all is_ascii_hexdigit (sha256_hex b) = true.

Lemma stat_good {E} (e : E) p d w n :
  io_good w -> files d !! p = Some n ->
  exists d' w', stat e p d w = (Ok n, d', w') /\ files d' = files d /\ io_good w'.
Proof.
  intros Hw Hn. unfold stat.
  edestruct (syscall_good e (fun fs => match fs !! p with Some n => Some (n, fs) | None => None end) d w)
    as (w' & Hs & Hw'); [done|by rewrite Hn|]. rewrite Hs. eauto.
Qed.

Lemma read_good {E} (e : E) p d w b s :
  io_good w -> files d !! p = Some (File b s) ->
  exists d' w', read_file e p d w = (Ok b, d', w') /\ files d' = files d /\ io_good w'.
Proof.
  intros Hw Hn. unfold read_file.
  edestruct (syscall_good e (fun fs => match fs !! p with Some (File b _) => Some (b, fs) | _ => None end) d w)
    as (w' & Hs & Hw'); [done|by rewrite Hn|]. rewrite Hs. eauto.
Qed.

Lemma read_stored bytes v d w :
  digests_ok -> io_good w -> holds bytes d -> from_slice bytes = Some v ->
  exists d' w', read_task_payload from_slice sha256_hex store (payload_ref sha256_hex bytes) d w = (Ok v, d', w') /\
    files d' = files d /\ io_good w'.
Proof.
  intros Hx Hw ([n Hn] & s & Hf) Hv. unfold read_task_payload, payload_ref. cbn [ref_digest ref_locator ref_bytes].
  unfold valid_payload_digest, sha256_bytes. rewrite strip_prefix_app, Hx. cbn [negb default]. unfold id.
  rewrite String.eqb_refl. unfold read_payload_bytes. cbv zeta beta.
  set (e := rpc_error "TASK_PAYLOAD_UNAVAILABLE" (path_text _ +:+ ": " +:+ "")).
  destruct (stat_good e (payload_directory store) d w n Hw Hn) as (d1 & w1 & E1 & F1 & Hw1).
  destruct (stat_good e (payload_at (sha256_hex bytes)) d1 w1 (File bytes s)) as (d2 & w2 & E2 & F2 & Hw2);
    [done|by rewrite F1|].
  destruct (read_good e (payload_at (sha256_hex bytes)) d2 w2 bytes s) as (d3 & w3 & E3 & F3 & Hw3);
    [done|by rewrite F2, F1|].
  exists d3, w3. split; [|split; [congruence|done]]. unfold bind.
  rewrite E1. cbv beta iota. rewrite E2. cbv beta iota. rewrite E3. cbn.
  unfold sha256_bytes. rewrite Z.eqb_refl, String.eqb_refl. cbn. by rewrite Hv.
Qed.

Lemma wp_externalize_value v d w :
  wp (externalize_value to_vec sha256_hex torn store v) (fun r d' _ => kept d d' /\
    match r with
    | Ok (Some reference) => exists b, to_vec v = Some b /\ reference = payload_ref sha256_hex b /\ stored b d' /\
        (forall name c s, files d' !! payload_at name = Some (File c s) ->
           files d !! payload_at name = Some (File c s) \/ c = b)
    | Ok None => files d' = files d
    | Err _ => True
    end) d w.
Proof.
  unfold externalize_value, encode_payload. apply wp_bind. unfold wp at 1, lift.
  destruct (to_vec v) as [b|] eqn:Hb; cbn [ok_or]; [|done]. destruct (_ <? _); [|done].
  apply wp_bind. eapply wp_mono; [apply wp_write_task_payload|].
  intros [reference|e] d' w' [Hk H]; [|done]. unfold wp, ret. split; [done|]. exists b. by split.
Qed.

(** A value without the marker of an older release. *)
Definition plain (v : Value) : Prop := vget "$machineFabricPayload" v = None.

Record plain_task (t : Task) : Prop := mk_plain_task {
  pt_input : plain (task_input t) /\ readable MAX_NESTING (task_input t) = true;
  pt_output v : task_output t = Some v -> plain v /\ readable MAX_NESTING v = true;
  pt_error f : task_error t = Some f -> plain (failure_details f);
  pt_events e : e ∈ task_events t -> plain (event_details e);
  pt_refs : task_input_ref t = None /\ task_output_ref t = None;
}.

Lemma hydrate_plain v d w :
  plain v -> hydrate_deployed_payload from_slice sha256_hex store v d w = (Ok v, d, w).
Proof. intros Hp. unfold hydrate_deployed_payload, deployed_payload. by rewrite Hp. Qed.

Lemma hydrate_events es d w :
  (forall e, e ∈ es -> plain (event_details e)) ->
  map_m (fun e => let* v := hydrate_deployed_payload from_slice sha256_hex store (event_details e) in
                  ret (with_details e v)) es d w = (Ok es, d, w).
Proof.
  induction es as [|e es IH]; intros Hp; cbn [map_m]; [done|].
  unfold bind, ret in IH |- *. rewrite hydrate_plain by (apply Hp; by left). cbv beta iota.
  rewrite IH by (intros; apply Hp; by right). by destruct e.
Qed.

(** Where the payload of a value is after [externalize_task]. *)
Definition placed (v : Value) (v' : Value) (reference : option TaskPayloadRef) (d : Disk) : Prop :=
  (v' = v /\ reference = None) \/
  exists b, to_vec v = Some b /\ reference = Some (payload_ref sha256_hex b) /\ stored b d.

Definition in_play (t : Task) (d : Disk) (b : string) : Prop :=
  on_disk d b \/ to_vec (task_input t) = Some b \/ exists v, task_output t = Some v /\ to_vec v = Some b.

Lemma wp_externalize_task t d w :
  task_input_ref t = None -> task_output_ref t = None ->
  wp (externalize_task to_vec sha256_hex torn store t) (fun r d' _ =>
    match r with
    | Ok (t', _) => kept d d' /\
        t' = with_output (with_input t (task_input t') (task_input_ref t')) (task_output t') (task_output_ref t') /\
        placed (task_input t) (task_input t') (task_input_ref t') d' /\
        match task_output t with
        | None => task_output t' = None /\ task_output_ref t' = None
        | Some v => exists v', task_output t' = Some v' /\ placed v v' (task_output_ref t') d'
        end /\
        (forall b, on_disk d' b -> in_play t d b)
    | Err _ => True
    end) d w.
Proof.
  intros Hi Ho. unfold externalize_task. rewrite Hi. apply wp_bind.
  eapply wp_mono; [apply wp_externalize_value|]. intros [input|e] d1 w1 [Hk1 H1]; [|done].
  set (t1 := match input with Some r => with_input t (payload_marker r) (Some r) | None => t end).
  assert (Ht1 : task_output t1 = task_output t /\ task_output_ref t1 = None /\
    t1 = with_input t (task_input t1) (task_input_ref t1) /\
    placed (task_input t) (task_input t1) (task_input_ref t1) d1 /\
    forall b, on_disk d1 b -> in_play t d b).
  { unfold t1. destruct input as [r|]; cbn.
    - destruct H1 as (b & Hb & -> & Hs & Hd). split_and!; try done.
      + right. by exists b.
      + intros c (name & s & Hc). destruct (Hd _ _ _ Hc) as [?| ->]; [left; by exists name, s|right; by left].
    - split_and!; try done; [by destruct t|by left|]. intros c Hc. left.
      destruct Hc as (name & s & Hc). exists name, s. congruence. }
  clearbody t1. destruct Ht1 as (E1 & E2 & E3 & P1 & D1). rewrite E1, E2. apply wp_bind.
  destruct (task_output t) as [v|] eqn:Hv.
  - eapply wp_mono; [apply wp_externalize_value|]. intros [output|e] d2 w2 [Hk2 H2]; [|done].
    unfold wp, ret. split; [by etrans|].
    assert (P2 : placed (task_input t) (task_input t1) (task_input_ref t1) d2).
    { destruct P1 as [?|(b & ? & ? & ?)]; [by left|right]. exists b. split_and!; try done. by eapply stored_kept. }
    destruct output as [r|]; cbn.
    + destruct H2 as (b & Hb & -> & Hs & Hd). split_and!; [by rewrite <- E3|done| |].
      * eexists. split; [done|]. right. by exists b.
      * intros c (name & s & Hc). destruct (Hd _ _ _ Hc) as [?| ->].
        -- apply D1. by exists name, s.
        -- right. right. eauto.
    + split_and!.
      * rewrite <- E3. by destruct t1.
      * done.
      * rewrite E1. eexists. split; [done|]. rewrite E2. by left.
      * intros c (name & s & Hc). apply D1. exists name, s. congruence.
  - unfold wp, ret. cbn. split; [done|]. split_and!; try done.
    rewrite <- E3. by destruct t1.
Qed.

(** What [serde_json] documents for values without floating point numbers and within the depth of its reader. *)
Definition json_ok : Prop := forall v b, readable MAX_NESTING v = true -> to_vec v = Some b -> from_slice b = Some v.

(** One field of [task_with_payload]. *)
Lemma read_placed S v v' reference d w :
  json_ok -> digests_ok -> separates S -> (forall b, on_disk d b -> S b) ->
  (forall b, to_vec v = Some b -> S b) -> readable MAX_NESTING v = true -> io_good w -> placed v v' reference d ->
  exists d' w', match reference with
                | Some r => read_task_payload from_slice sha256_hex store r
                | None => ret v'
                end d w = (Ok v, d', w') /\ files d' = files d /\ io_good w'.
Proof.
  intros Hj Hx Hs Hd Hv Hn Hw [[-> ->]|(b & Hb & -> & Hst)]; [by exists d, w|].
  apply read_stored; [done|done| |by apply Hj]. apply stored_holds with S; auto.
Qed.

Lemma on_disk_files d d' b : files d' = files d -> on_disk d b -> on_disk d' b.
Proof. intros H (name & s & Hf). exists name, s. by rewrite H. Qed.

(** payloads read back. When the input or the output of a finished task is moved out of the state
    file, nothing else on the disk changes, and the task is read back from it with exactly the
    input, output, error and events it had. *)
Theorem externalized_payloads_read_back t d w t' u d1 w1 w2 :
  json_ok -> digests_ok -> plain_task t -> separates (in_play t d) ->
  externalize_task to_vec sha256_hex torn store t d w = (Ok (t', u), d1, w1) ->
  io_good w2 ->
  exists t'' d3 w3, task_with_payload from_slice sha256_hex store t' d1 w2 = (Ok t'', d3, w3) /\
    t'' = with_output (with_input t (task_input t) (task_input_ref t')) (task_output t) (task_output_ref t') /\
    kept d d1.
Proof.
  intros Hj Hx [[Hi1 Hi2] Ho He Hev [Hr1 Hr2]] Hs Hext Hw.
  pose proof (wp_run _ _ _ _ _ _ _ (wp_externalize_task t d w Hr1 Hr2) Hext) as (Hk & Ht' & Pi & Po & Hd).
  assert (Hvi : forall b, to_vec (task_input t) = Some b -> in_play t d b) by (intros; right; by left).
  destruct (read_placed (in_play t d) _ _ _ d1 w2 Hj Hx Hs Hd Hvi Hi2 Hw Pi) as (d2 & w3 & E1 & F1 & Hw3).
  assert (Hout : exists d3 w4, match task_output_ref t' with
      | Some r => let* v := read_task_payload from_slice sha256_hex store r in ret (Some v)
      | None => ret (task_output t')
      end d2 w3 = (Ok (task_output t), d3, w4)).
  { destruct (task_output t) as [v|] eqn:Hv; [|destruct Po as [-> ->]; by exists d2, w3].
    destruct Po as (v' & Ev & Po). destruct (Ho v eq_refl) as [_ Hnf].
    edestruct (read_placed (in_play t d) v v' (task_output_ref t') d2 w3) as (d3 & w4 & E2 & _ & _); try done.
    - intros b Hb. apply Hd. by eapply on_disk_files.
    - intros b Hb. right. right. eauto.
    - destruct Po as [?|(b & ? & ? & ?)]; [by left|right]. exists b. split_and!; try done.
      eapply stored_kept; [done|]. intros q n _ Hq. by rewrite F1.
    - exists d3, w4. rewrite Ev. destruct (task_output_ref t'); unfold bind, ret in *; by rewrite ?E2; simplify_eq. }
  destruct Hout as (d3 & w4 & E2). eexists _, d3, w4. split; [|split; [reflexivity|done]].
  unfold task_with_payload. unfold bind at 1. rewrite E1. unfold bind at 1. rewrite E2.
  unfold bind at 1. rewrite hydrate_plain by done.
  assert (Ee : task_error t' = task_error t /\ task_events t' = task_events t) by (rewrite Ht'; done).
  destruct Ee as [-> ->].
  destruct (task_output t) as [v|] eqn:Hv.
  all: unfold bind at 1; try (unfold bind at 1; rewrite hydrate_plain by (by apply Ho)); unfold ret at 1.
  all: destruct (task_error t) as [f|] eqn:Hf.
  all: unfold bind at 1; try (unfold bind at 1; rewrite hydrate_plain by (by apply He)); unfold ret at 1.
  all: unfold bind at 1; rewrite hydrate_events by done; unfold ret; do 3 f_equal.
  all: rewrite Ht'; destruct t; cbn in *; subst; try done; by destruct f.
Qed.

(** a payload that is not what the reference says is refused. Whatever is on the disk, a payload is
    returned only from the file the digest names, with the referenced size and digest; the disk
    does not change. *)
Theorem payload_matches_reference reference v d w d' w' :
  read_task_payload from_slice sha256_hex store reference d w = (Ok v, d', w') ->
  files d' = files d /\ valid_payload_digest (ref_digest reference) = true /\
  exists name b s, (ref_digest reference = "sha256:" +:+ name \/ name = ref_digest reference) /\
    files d !! payload_at name = Some (File b s) /\ str_len b = ref_bytes reference /\
    sha256_bytes sha256_hex b = ref_digest reference /\ from_slice b = Some v.
Proof.
  unfold read_task_payload. destruct (valid_payload_digest (ref_digest reference)) eqn:Hvd; [|done]. cbn [negb].
  assert (Hhex : ref_digest reference = "sha256:" +:+ default "" (strip_prefix "sha256:" (ref_digest reference))).
  { unfold valid_payload_digest in Hvd. destruct (strip_prefix "sha256:" (ref_digest reference)) as [hex|] eqn:Hh; [|done].
    by apply strip_prefix_Some. }
  set (hex := default "" _) in *.
  assert (Hread : forall name, (ref_digest reference = "sha256:" +:+ name \/ name = ref_digest reference) ->
    (let* bytes := read_payload_bytes sha256_hex (payload_directory store) (payload_at name) (ref_bytes reference)
                     (ref_digest reference) in
     lift (ok_or (from_slice bytes) (payload_error reference "invalid JSON: "))) d w = (Ok v, d', w') ->
    files d' = files d /\ true = true /\ exists name b s,
      (ref_digest reference = "sha256:" +:+ name \/ name = ref_digest reference) /\
      files d !! payload_at name = Some (File b s) /\ str_len b = ref_bytes reference /\
      sha256_bytes sha256_hex b = ref_digest reference /\ from_slice b = Some v).
  { intros name Hname Hb. apply bind_cases in Hb as (r1 & d1 & w1 & Hr & Hb).
    apply (wp_run _ _ _ _ _ _ _ (wp_read_payload_bytes _ _ _ _ _ _)) in Hr as [Hf Hr].
    destruct r1 as [b|e]; [|by destruct Hb as [? _]]. destruct Hr as (_ & [s Hs] & Hl & Hd).
    unfold lift in Hb. destruct (from_slice b) as [x|] eqn:Hx; cbn in Hb; simplify_eq.
    split; [done|]. split; [done|]. by exists name, b, s. }
  destruct (String.eqb _ _); [apply Hread; by left|].
  destruct (String.eqb _ _); [apply Hread; by right|done].
Qed.

End PayloadFacts.

(** ** Runs: a finished task with a large input *)

(** Text of more than 64 KiB: padding before the digits of the value. *)
Fixpoint zeros (n : nat) : string := match n with O => "" | S m => String "0"%char (zeros m) end.
Definition padding : string := zeros (Z.to_nat 65537).
Definition sample_to_text (v : Value) : option string :=
  Some (padding +:+ string_of_list_ascii (value_bytes v)).
Definition sample_from_text (b : string) : option Value :=
  match strip_prefix padding b with
  | Some s => Some (bytes_value (list_ascii_of_string s))
  | None => None
  end.
Definition sample_sha (_ : string) : string := zeros 64.
Definition sample_torn (_ : string) : string := "".
Definition payload_store : JsonStore := mkJsonStore ["var"; "state.json"].

Lemma sample_json_ok : json_ok sample_to_text sample_from_text.
Proof.
  intros v b Hn%readable_no_floats. unfold sample_to_text. intros [= <-]. unfold sample_from_text.
  rewrite strip_prefix_app, list_ascii_of_string_of_list_ascii. by rewrite bytes_value_bytes.
Qed.

Definition payload_task : Task :=
  mkTask "task_1" None None "s" "mac" "fs.write" (VString "data") None None None None "key" Succeeded 1 1 0 0 [].

#[local] Abbreviation sample_ext :=
  (externalize_task sample_to_text sample_sha sample_torn payload_store payload_task empty_disk (sample_world 0)).

Example sample_input_moves_out :
  match sample_ext with
  | (Ok (t', _), d, _) =>
      match task_input_ref t' with Some r => 65536 <? ref_bytes r | None => false end
      && bool_decide (is_Some (files d !! ["var"; "task-payloads"; zeros 64 +:+ ".json"]))
  | _ => false
  end = true.
Proof. vm_compute. reflexivity. Qed.

Lemma payload_task_plain : plain_task payload_task.
Proof.
  constructor; cbn; try done. intros e He. by apply not_elem_of_nil in He.
Qed.

Lemma sample_separates : separates sample_sha (in_play sample_to_text payload_store payload_task empty_disk).
Proof.
  assert (Hone : forall b, in_play sample_to_text payload_store payload_task empty_disk b ->
    sample_to_text (VString "data") = Some b).
  { intros b [(name & s & Hf)|[Hb|(v & Hv & _)]]; [|exact Hb|discriminate Hv].
    cbn in Hf. by rewrite lookup_empty in Hf. }
  intros a b Ha%Hone Hb%Hone _. congruence.
Qed.

Lemma sample_io_good start : io_good (sample_world start).
Proof. intros n _. reflexivity. Qed.

Lemma externalized_payloads_read_back_witness :
  exists t' u d1 w1, sample_ext = (Ok (t', u), d1, w1) /\
  exists t'' d3 w3,
    task_with_payload sample_from_text sample_sha payload_store t' d1 (sample_world 0) = (Ok t'', d3, w3) /\
    t'' = with_output (with_input payload_task (VString "data") (task_input_ref t')) None (task_output_ref t').
Proof.
  assert (Hok : is_ok (fst (fst sample_ext)) = true) by (vm_compute; reflexivity).
  destruct sample_ext as [[[[t' u]|e] d1] w1] eqn:E; [|discriminate Hok].
  exists t', u, d1, w1. split; [reflexivity|].
  destruct (externalized_payloads_read_back sample_to_text sample_from_text sample_sha sample_torn payload_store
    payload_task empty_disk (sample_world 0) t' u d1 w1 (sample_world 0) sample_json_ok
    ltac:(intros b; vm_compute; reflexivity) payload_task_plain sample_separates E (sample_io_good 0))
    as (t'' & d3 & w3 & H1 & H2 & _).
  exists t'', d3, w3. split; [exact H1|exact H2].
Defined.

Definition small_disk : Disk :=
  mkDisk (<[["var"; "task-payloads"] := Dir]> (<[["var"; "task-payloads"; zeros 64 +:+ ".json"] := File "x" true]> ∅)) [].
Definition small_ref : TaskPayloadRef := mkTaskPayloadRef ("sha256:" +:+ zeros 64) 1 ("task-payloads/" +:+ zeros 64 +:+ ".json") None.
Definition small_from (_ : string) : option Value := Some VNull.

Lemma payload_matches_reference_witness :
  valid_payload_digest (ref_digest small_ref) = true.
Proof.
  assert (Hok : fst (fst (read_task_payload small_from sample_sha payload_store small_ref small_disk (sample_world 0))) = Ok VNull)
    by (vm_compute; reflexivity).
  destruct (read_task_payload small_from sample_sha payload_store small_ref small_disk (sample_world 0)) as [[r d'] w'] eqn:E.
  cbn in Hok. subst r.
  destruct (payload_matches_reference small_from sample_sha payload_store small_ref VNull small_disk (sample_world 0) d' w' E)
    as (_ & Hv & _). exact Hv.
Defined.
