(* ===== verification/Evidence.v ===== *)
(** * Compaction of persisted evidence ([compact_persisted_evidence] of
      [crates/machine-fabric-runtime/src/controller.rs])

    Large observations of native inspections are replaced by their number when
    a controller opens its state. A function here returns the new value and
    whether it changed, as the functions of the source change in place and
    return a flag. *)
From stdpp Require Import base strings list.
From S2P Require Import Prelude Json Schema Tasks Store.
Open Scope Z_scope.

(** ** Values *)

Definition array_len (v : Value) : Z := match as_array v with Some l => Z.of_nat (length l) | None => 0 end.

(** [compact_value]. Where the evaluations are removed, the count replaces a child of its name,
    which is then a number: neither is looked into. *)
Fixpoint compact_value (v : Value) : Value * bool :=
  match v with
  | VObject m =>
      let removed := obj_get "nativeEvaluations" m in
      let skipped k :=
        match removed with
        | Some _ => String.eqb k "nativeEvaluations" || String.eqb k "nativeObservationCount"
        | None => false
        end in
      let '(m', changed) :=
        (fix go (m : list (string * Value)) : list (string * Value) * bool :=
           match m with
           | [] => ([], false)
           | (k, x) :: m =>
               let '(rest, c) := go m in
               if skipped k then (rest, c)
               else let '(x', c') := compact_value x in ((k, x') :: rest, c' || c)
           end) m in
      match removed with
      | Some evaluations => (VObject (obj_insert "nativeObservationCount" (vu64 (array_len evaluations)) m'), true)
      | None => (VObject m', changed)
      end
  | VArray l =>
      let '(l', changed) :=
        (fix go (l : list Value) : list Value * bool :=
           match l with
           | [] => ([], false)
           | x :: l => let '(rest, c) := go l in let '(x', c') := compact_value x in (x' :: rest, c' || c)
           end) l in
      (VArray l', changed)
  | _ => (v, false)
  end.

(** [retained_task_output] *)
Definition retained_task_output (capability : string) (result : Value) : Value :=
  if negb (String.eqb capability "ui.native-inspect")
     || bool_decide (is_Some (vget "$machineFabricPayload" result))
     || bool_decide (is_Some (vget "$taskPayloadRef" result))
     || bool_decide (is_Some (pointer ["inspection"; "processCount"] result))
  then result
  else
    obj_of [("applicationPath", vindex result "applicationPath");
            ("pids", default (VArray []) (vget "pids" result));
            ("inspection", obj_of
               [("accessibilityTrusted", default (VBool false) (pointer ["inspection"; "accessibilityTrusted"] result));
                ("processCount", vu64 (default 0 (array_len <$> pointer ["inspection"; "processes"] result)))]);
            ("inspectedAt", vindex result "inspectedAt")].

(** ** Records *)

Section Fields.
Context {A : Type} (f : A -> A * bool).

Definition compact_option (o : option A) : option A * bool :=
  match o with Some a => let '(a', c) := f a in (Some a', c) | None => (None, false) end.

Fixpoint compact_list (l : list A) : list A * bool :=
  match l with
  | [] => ([], false)
  | a :: l' => let '(rest, c) := compact_list l' in let '(a', c') := f a in (a' :: rest, c' || c)
  end.
End Fields.

Definition compact_failure (e : TaskFailure) : TaskFailure * bool :=
  let '(v, c) := compact_value (failure_details e) in
  (mkTaskFailure (failure_code e) (failure_message e) (failure_retryable e) v, c).

(** The body of [compact_task_outputs]. *)
Definition compact_output (t : Task) : option Value * bool :=
  match task_output t with
  | Some output =>
      if String.eqb (task_capability t) "ui.native-inspect" && bool_decide (task_output_ref t = None) then
        let compact := retained_task_output (task_capability t) output in
        if value_eqb compact output then (Some output, false) else (Some compact, true)
      else (Some output, false)
  | None => (None, false)
  end.

(** Both loops over the tasks, for one task. *)
Definition compact_task (t : Task) : Task * bool :=
  let '(output, c0) := compact_output t in
  let '(input, c1) := compact_value (task_input t) in
  let '(output, c2) := compact_option compact_value output in
  let '(error, c3) := compact_option compact_failure (task_error t) in
  (mkTask (task_id t) (task_correlation_id t) (task_request_id t) (task_workspace_session_id t)
     (task_executor_id t) (task_capability t) input (task_input_ref t) output (task_output_ref t) error
     (task_idempotency_key t) (task_state t) (task_attempt t) (task_revision t) (task_created_at t)
     (task_updated_at t) (task_events t), c0 || c1 || c2 || c3).

Definition compact_entry (e : TransactionJournalEntry) : TransactionJournalEntry * bool :=
  let '(v, c) := compact_value (entry_details e) in
  (mkTransactionJournalEntry (entry_sequence e) (entry_step e) (entry_state e) (entry_attempt e)
     (entry_started_at e) (entry_finished_at e) (entry_input_digest e) (entry_output_digest e)
     (entry_executor_id e) (entry_fence e) v, c).

Definition compact_transaction (t : ActivationTransaction) : ActivationTransaction * bool :=
  let '(journal, c1) := compact_list compact_entry (tx_journal t) in
  let '(error, c2) := compact_option compact_failure (tx_error t) in
  (mkActivationTransaction (tx_id t) (tx_workspace_session_id t) (tx_idempotency_key t) (tx_target t)
     (tx_generation_id t) (tx_previous_generation_id t) (tx_state t) (tx_created_at t) (tx_updated_at t)
     (tx_completed_steps t) journal (tx_lease_fence t) (tx_evidence t) error, c1 || c2).

Definition compact_evidence (e : EvidenceResult) : EvidenceResult * bool :=
  let '(v, c) := compact_value (evidence_details e) in
  (mkEvidenceResult (evidence_passed e) (evidence_checked_at e) (evidence_summary e) (evidence_artifacts e) v, c).

Definition compact_generation (g : Generation) : Generation * bool :=
  let '(validation, c1) := compact_option compact_evidence (generation_validation g) in
  let '(finalization, c2) := compact_option compact_evidence (generation_finalization g) in
  let '(smoke, c3) := compact_option compact_evidence (generation_smoke g) in
  let '(failure, c4) := compact_option compact_failure (generation_failure g) in
  (mkGeneration (generation_id g) (generation_workspace_session_id g) (generation_application_type g)
     (generation_root g) (generation_state g) (generation_baseline g) (generation_applied_artifacts g)
     (generation_digest g) (generation_created_at g) (generation_activated_at g) validation finalization
     smoke failure, c1 || c2 || c3 || c4).

Definition compact_handoff (h : Handoff) : Handoff * bool :=
  let '(evidence, c) := compact_list compact_value (handoff_evidence h) in
  (mkHandoff (handoff_id h) (handoff_workspace_session_id h) (handoff_objective h) (handoff_from h)
     (handoff_to h) (handoff_artifacts h) evidence (handoff_completed_actions h) (handoff_pending_actions h)
     (handoff_acceptance_criteria h) (handoff_constraints h) (handoff_blockers h) (handoff_created_at h)
     (handoff_acknowledged_at h) (handoff_completed_at h), c).

Definition compact_agent (a : AgentInstance) : AgentInstance * bool :=
  let '(v, c) := compact_value (agent_metadata a) in
  (mkAgentInstance (agent_id a) (agent_workspace_session_id a) (agent_executor_id a) (agent_role a)
     (agent_provider a) (agent_state a) v, c).

(** [compact_persisted_evidence] *)
Definition compact_persisted_evidence (s : FabricState) : FabricState * bool :=
  let '(tasks, c1) := compact_list compact_task (st_tasks s) in
  let '(transactions, c2) := compact_list compact_transaction (st_transactions s) in
  let '(generations, c3) := compact_list compact_generation (st_generations s) in
  let '(handoffs, c4) := compact_list compact_handoff (st_handoffs s) in
  let '(agents, c5) := compact_list compact_agent (st_agents s) in
  (mkFabricState (st_controller_id s) (st_sessions s) (st_executors s) (st_controllers s) (st_leases s)
     (st_lease_fences s) tasks (st_artifacts s) generations transactions agents handoffs (st_approvals s),
   c1 || c2 || c3 || c4 || c5).

(** ** Compacting twice changes nothing *)

(** A compaction settles its argument: the result is compact, and the flag tells whether it differs. *)
Definition settles {A} (f : A -> A * bool) (a : A) : Prop :=
  f (f a).1 = ((f a).1, false) /\ ((f a).2 = false -> (f a).1 = a).

Section Settles.
Context {A : Type} (f : A -> A * bool).

Lemma settles_option o : (forall a, settles f a) -> settles (compact_option f) o.
Proof.
  intros Hf. destruct o as [a|]; [|done]. destruct (Hf a) as [H1 H2]. unfold settles, compact_option.
  destruct (f a) as [a' c]. cbn in *. rewrite H1. split; [done|]. intros ->. by rewrite H2.
Qed.

Lemma settles_list l : (forall a, settles f a) -> settles (compact_list f) l.
Proof.
  intros Hf. induction l as [|a l [IH1 IH2]]; [done|]. destruct (Hf a) as [H1 H2].
  unfold settles in *. cbn. destruct (compact_list f l) as [l' c], (f a) as [a' c']. cbn in *.
  rewrite IH1, H1. split; [done|]. intros [-> ->]%orb_false_iff. by rewrite IH2, H2.
Qed.
End Settles.

Lemma settles_eq {A} (f : A -> A * bool) a : settles f a -> exists a' c, f a = (a', c) /\ f a' = (a', false) /\ (c = false -> a' = a).
Proof. intros [H1 H2]. destruct (f a) as [a' c]. eauto. Qed.

(** The loop over the children of an object. *)
Definition compact_children (skipped : string -> bool) : list (string * Value) -> list (string * Value) * bool :=
  fix go m :=
    match m with
    | [] => ([], false)
    | (k, x) :: m =>
        let '(rest, c) := go m in
        if skipped k then (rest, c) else let '(x', c') := compact_value x in ((k, x') :: rest, c' || c)
    end.

Definition replaced (k : string) : bool := String.eqb k "nativeEvaluations" || String.eqb k "nativeObservationCount".

Lemma compact_object m :
  compact_value (VObject m) =
  match obj_get "nativeEvaluations" m with
  | Some e => (VObject (obj_insert "nativeObservationCount" (vu64 (array_len e)) (compact_children replaced m).1), true)
  | None => (VObject (compact_children (fun _ => false) m).1, (compact_children (fun _ => false) m).2)
  end.
Proof.
  cbn [compact_value]. destruct (obj_get "nativeEvaluations" m) as [e|].
  - match goal with |- (let '(_, _) := ?g in _) = _ => change g with (compact_children replaced m) end.
    by destruct (compact_children replaced m).
  - match goal with |- (let '(_, _) := ?g in _) = _ => change g with (compact_children (fun _ => false) m) end.
    by destruct (compact_children (fun _ => false) m).
Qed.

Lemma compact_array l :
  compact_value (VArray l) = (VArray (compact_list compact_value l).1, (compact_list compact_value l).2).
Proof.
  cbn [compact_value].
  match goal with |- (let '(_, _) := ?g in _) = _ => change g with (compact_list compact_value l) end.
  by destruct (compact_list compact_value l).
Qed.

Definition settled_children (m : list (string * Value)) : Prop :=
  compact_children (fun _ => false) m = (m, false).

Lemma children_settle skipped m :
  Forall (fun p => settles compact_value p.2) m -> settled_children (compact_children skipped m).1 /\
  ((forall k, skipped k = false) -> (compact_children skipped m).2 = false -> (compact_children skipped m).1 = m).
Proof.
  unfold settled_children. induction 1 as [|[k x] m Hx _ [IH1 IH2]]; [done|]. cbn in *.
  destruct (settles_eq _ _ Hx) as (x' & c & E1 & E2 & E3).
  destruct (compact_children skipped m) as [rest c0]. cbn in *. destruct (skipped k) eqn:Hk.
  - split; [done|]. intros Hs. by rewrite Hs in Hk.
  - rewrite E1. cbn. rewrite IH1, E2. split; [done|]. intros Hs [-> ->]%orb_false_iff.
    by rewrite E3, IH2.
Qed.

Lemma settled_insert k n m :
  settled_children m -> settled_children (obj_insert k (vu64 n) m).
Proof.
  unfold settled_children. induction m as [|[k' v] m IH]; [done|]. cbn.
  destruct (compact_children (fun _ => false) m) as [rest c] eqn:Em.
  destruct (compact_value v) as [v' c'] eqn:Ev. intros [= -> -> Hc]. apply orb_false_iff in Hc as [-> ->].
  destruct (String.compare k k'); cbn; rewrite ?Em, ?Ev; cbn; rewrite ?Em; try done.
  by rewrite (IH eq_refl).
Qed.

Lemma children_get skipped k m :
  obj_get k (compact_children skipped m).1 =
  if skipped k then None else fst <$> (compact_value <$> obj_get k m).
Proof.
  induction m as [|[k' v] m IH]; cbn; [by destruct (skipped k)|].
  destruct (compact_children skipped m) as [rest c]. cbn in IH.
  destruct (String.eqb_spec k k') as [->|Hne].
  - destruct (skipped k'); [done|]. destruct (compact_value v) eqn:Ev. cbn. by rewrite String.eqb_refl, Ev.
  - destruct (skipped k'); [done|]. destruct (compact_value v). cbn.
    by rewrite (proj2 (String.eqb_neq k k') Hne).
Qed.

Lemma compact_value_settles : forall v, settles compact_value v.
Proof.
  fix IH 1. intros [|b|n|s|l|m]; [by split..| |].
  - unfold settles. rewrite compact_array. cbn [fst snd]. rewrite compact_array.
    assert (Hl : settles (compact_list compact_value) l).
    { induction l as [|a l [IH1 IH2]]; [done|]. destruct (IH a) as [H1 H2].
      unfold settles in *. cbn. destruct (compact_list compact_value l) as [l' c], (compact_value a) as [a' c'].
      cbn in *. rewrite IH1, H1. split; [done|]. intros [-> ->]%orb_false_iff. by rewrite IH2, H2. }
    destruct Hl as [H1 H2]. rewrite H1. cbn. split; [done|]. intros Hc. by rewrite H2.
  - assert (Hm : Forall (fun p => settles compact_value p.2) m).
    { induction m as [|[k x] m IHm]; constructor; [apply IH|done]. }
    unfold settles. rewrite compact_object. destruct (obj_get "nativeEvaluations" m) as [e|] eqn:He; cbn [fst snd].
    + split; [|done]. destruct (children_settle replaced m Hm) as [Hs _].
      rewrite compact_object, obj_get_insert_ne, children_get by done. cbn [replaced String.eqb orb Ascii.eqb Bool.eqb].
      by rewrite (settled_insert "nativeObservationCount" (array_len e) _ Hs).
    + destruct (children_settle (fun _ => false) m Hm) as [Hs Hu].
      rewrite compact_object, children_get, He. cbn. rewrite Hs. split; [done|]. intros Hc. by rewrite Hu.
Qed.
