(* ===== verification/Controller.v ===== *)
(** * The controller: state, commit and opening
      ([crates/machine-fabric-runtime/src/controller.rs])

    A controller keeps the fabric state, the lease table and the task table in
    memory and commits all of them as one document. The state file is the
    document that the next opening loads ([ctl_durable]); [Store] shows that
    saving and loading it behave so. Task payloads live on a disk beside it. *)
From Stdlib Require Import Ascii.
From stdpp Require Import base gmap strings list.
From S2P Require Import Prelude Json Schema Protocol Leases Tasks Store Payloads Evidence.
Open Scope Z_scope.
Open Scope fabric_scope.

Record Controller := mkController {
  ctl_id : string;
  ctl_state : FabricState;
  ctl_leases : LeaseTable;
  ctl_tasks : TaskTable;
  ctl_payloads : Disk;
  ctl_durable : FabricState;
}.

Definition set_fabric (f : FabricState -> FabricState) (c : Controller) : Controller :=
  mkController (ctl_id c) (f (ctl_state c)) (ctl_leases c) (ctl_tasks c) (ctl_payloads c) (ctl_durable c).
Definition set_leases (t : LeaseTable) (c : Controller) : Controller :=
  mkController (ctl_id c) (ctl_state c) t (ctl_tasks c) (ctl_payloads c) (ctl_durable c).
Definition set_tasks (t : TaskTable) (c : Controller) : Controller :=
  mkController (ctl_id c) (ctl_state c) (ctl_leases c) t (ctl_payloads c) (ctl_durable c).
Definition set_payloads (d : Disk) (c : Controller) : Controller :=
  mkController (ctl_id c) (ctl_state c) (ctl_leases c) (ctl_tasks c) d (ctl_durable c).
Definition set_durable (s : FabricState) (c : Controller) : Controller :=
  mkController (ctl_id c) (ctl_state c) (ctl_leases c) (ctl_tasks c) (ctl_payloads c) s.

Definition set_sessions f s := mkFabricState (st_controller_id s) (f (st_sessions s)) (st_executors s) (st_controllers s) (st_leases s) (st_lease_fences s) (st_tasks s) (st_artifacts s) (st_generations s) (st_transactions s) (st_agents s) (st_handoffs s) (st_approvals s).
Definition set_executors f s := mkFabricState (st_controller_id s) (st_sessions s) (f (st_executors s)) (st_controllers s) (st_leases s) (st_lease_fences s) (st_tasks s) (st_artifacts s) (st_generations s) (st_transactions s) (st_agents s) (st_handoffs s) (st_approvals s).
Definition set_controllers f s := mkFabricState (st_controller_id s) (st_sessions s) (st_executors s) (f (st_controllers s)) (st_leases s) (st_lease_fences s) (st_tasks s) (st_artifacts s) (st_generations s) (st_transactions s) (st_agents s) (st_handoffs s) (st_approvals s).
Definition set_tables ls fs ts s := mkFabricState (st_controller_id s) (st_sessions s) (st_executors s) (st_controllers s) ls fs ts (st_artifacts s) (st_generations s) (st_transactions s) (st_agents s) (st_handoffs s) (st_approvals s).
Definition set_task_list f s := mkFabricState (st_controller_id s) (st_sessions s) (st_executors s) (st_controllers s) (st_leases s) (st_lease_fences s) (f (st_tasks s)) (st_artifacts s) (st_generations s) (st_transactions s) (st_agents s) (st_handoffs s) (st_approvals s).
Definition set_artifacts f s := mkFabricState (st_controller_id s) (st_sessions s) (st_executors s) (st_controllers s) (st_leases s) (st_lease_fences s) (st_tasks s) (f (st_artifacts s)) (st_generations s) (st_transactions s) (st_agents s) (st_handoffs s) (st_approvals s).
Definition set_generations f s := mkFabricState (st_controller_id s) (st_sessions s) (st_executors s) (st_controllers s) (st_leases s) (st_lease_fences s) (st_tasks s) (st_artifacts s) (f (st_generations s)) (st_transactions s) (st_agents s) (st_handoffs s) (st_approvals s).
Definition set_transactions f s := mkFabricState (st_controller_id s) (st_sessions s) (st_executors s) (st_controllers s) (st_leases s) (st_lease_fences s) (st_tasks s) (st_artifacts s) (st_generations s) (f (st_transactions s)) (st_agents s) (st_handoffs s) (st_approvals s).
Definition set_agents f s := mkFabricState (st_controller_id s) (st_sessions s) (st_executors s) (st_controllers s) (st_leases s) (st_lease_fences s) (st_tasks s) (st_artifacts s) (st_generations s) (st_transactions s) (f (st_agents s)) (st_handoffs s) (st_approvals s).
Definition set_handoffs f s := mkFabricState (st_controller_id s) (st_sessions s) (st_executors s) (st_controllers s) (st_leases s) (st_lease_fences s) (st_tasks s) (st_artifacts s) (st_generations s) (st_transactions s) (st_agents s) (f (st_handoffs s)) (st_approvals s).
Definition set_approvals f s := mkFabricState (st_controller_id s) (st_sessions s) (st_executors s) (st_controllers s) (st_leases s) (st_lease_fences s) (st_tasks s) (st_artifacts s) (st_generations s) (st_transactions s) (st_agents s) (st_handoffs s) (f (st_approvals s)).
Definition set_controller_id id s := mkFabricState id (st_sessions s) (st_executors s) (st_controllers s) (st_leases s) (st_lease_fences s) (st_tasks s) (st_artifacts s) (st_generations s) (st_transactions s) (st_agents s) (st_handoffs s) (st_approvals s).

Definition with_authority (s : WorkspaceSession) (a : option SessionAuthority) : WorkspaceSession :=
  mkWorkspaceSession (session_api_version s) (session_metadata s) (session_objective s) (session_state s) a.

(** [upsert_by] *)
Fixpoint upsert_by {A} (items : list A) (value : A) (predicate : A -> bool) : list A :=
  match items with
  | [] => [value]
  | x :: items' => if predicate x then value :: items' else x :: upsert_by items' value predicate
  end.

(** [required_str] *)
Definition required_str (params : Value) (key : string) : result RpcError string :=
  match vget key params ≫= as_str with
  | Some s => if str_is_empty s then Err (rpc_error "INVALID_PARAMS" (key +:+ " is required")) else Ok s
  | None => Err (rpc_error "INVALID_PARAMS" (key +:+ " is required"))
  end.

Section Controller.
Context (to_vec : Value -> option string) (from_slice : string -> option Value).
Context (sha256_hex : string -> string) (torn : string -> string) (store : JsonStore).

(** A computation that cannot fail, on the task table. *)
Definition on_tasks {E A} (m : M TaskTable panic A) : M Controller E (option A) :=
  fun c w => let '(r, t, w') := m (ctl_tasks c) w in
             (Ok match r with Ok a => Some a | Err _ => None end, set_tasks t c, w').

(** [self.store.save(..)] *)
Definition save_state (s : FabricState) : M Controller RpcError unit :=
  let* ok := io_outcome in
  if ok : bool then modify (set_durable s)
  else fail (rpc_error "STATE_WRITE_FAILED" ("state commit " +:+ path_text (store_path store) +:+ ": ")).

(** The loop of [Controller::persist] over the updates. *)
Definition apply_update (u : PayloadUpdate) : M Controller RpcError unit :=
  match pu_input u with
  | Some (marker, reference) =>
      on_tasks (replace_input_ref_if_unchanged (pu_id u) (pu_revision u) marker reference) ;; ret tt
  | None => ret tt
  end ;;
  match pu_output u with
  | Some (marker, reference) =>
      on_tasks (replace_output_ref_if_unchanged (pu_id u) (pu_revision u) marker reference) ;; ret tt
  | None => ret tt
  end.

(** [Controller::persist] *)
Definition persist : M Controller RpcError unit :=
  let* c := get in
  let* done := zoom ctl_payloads set_payloads
                 (externalize_task_payloads to_vec sha256_hex torn store (Tasks.snapshot (ctl_tasks c))) in
  save_state (set_tables (Leases.snapshot (ctl_leases c)) (fence_snapshot (ctl_leases c)) done.1 (ctl_state c)) ;;
  for_each done.2 apply_update.

(** ** Opening *)

(** What is on disk while no controller runs. *)
Record Boot := mkBoot { b_durable : FabricState; b_payloads : Disk }.
Definition set_b_payloads (d : Disk) (b : Boot) : Boot := mkBoot (b_durable b) d.
Definition set_b_durable (s : FabricState) (b : Boot) : Boot := mkBoot s (b_payloads b).

(** The loop of [Controller::open_with_id] over the sessions. *)
Definition own_session (id : string) (s : WorkspaceSession) : WorkspaceSession :=
  match session_authority s with
  | Some _ => s
  | None => with_authority s (Some (mkSessionAuthority id 1 None))
  end.
Definition unowned (s : WorkspaceSession) : bool := bool_decide (session_authority s = None).

Definition state_io {E} (error : E) : M Boot E unit :=
  let* ok := io_outcome in if ok : bool then ret tt else fail error.

(** Run a computation that cannot fail on a table. *)
Definition run_table {T E A} (m : M T E A) (t : T) : M Boot StoreError (option A * T) :=
  fun b w => let '(r, t', w') := m t w in
             (Ok (match r with Ok a => Some a | Err _ => None end, t'), b, w').

Definition nonempty {A} (o : option (list A)) : bool := match o with Some (_ :: _) => true | _ => false end.

(** [JsonStore::load]: a file that cannot be looked at is taken for absent ([Store.load]). *)
Definition load_state : M Boot StoreError FabricState :=
  let* seen := io_outcome in
  if seen : bool then state_io (StoreIo "") ;; gets b_durable else ret FabricState_default.

(** [Controller::open_with_id] *)
Definition open_with_id (configured_id : option string) : M Boot StoreError Controller :=
  let* state := load_state in
  match st_controller_id state, configured_id with
  | Some stored, Some configured =>
      if String.eqb stored configured then ret tt else fail (ControllerIdentityMismatch stored configured)
  | _, _ => ret tt
  end ;;
  let* id := match configured_id, st_controller_id state with
             | Some id, _ => ret id
             | None, Some id => ret id
             | None, None => let* uuid := new_v4 in ret ("controller_" +:+ uuid)
             end in
  let identity_changed :=
    negb (bool_decide (st_controller_id state = Some id)) || existsb unowned (st_sessions state) in
  let state := set_sessions (map (own_session id)) (set_controller_id (Some id) state) in
  let* migrated := with_err (fun e => StoreIo (err_code e +:+ ": " +:+ err_message e))
    (zoom b_payloads set_b_payloads
       (migrate_deployed_task_payloads to_vec from_slice sha256_hex torn store (st_tasks state))) in
  let '(state, compacted) := compact_persisted_evidence (set_task_list (fun _ => migrated.1) state) in
  let* leases := run_table reap_expired (from_snapshot (st_leases state) (st_lease_fences state)) in
  let* tasks := run_table recover_orphans (from_tasks (st_tasks state)) in
  let state :=
    if migrated.2 || identity_changed || compacted || nonempty leases.1 || nonempty tasks.1
    then set_tables (Leases.snapshot leases.2) (fence_snapshot leases.2) (Tasks.snapshot tasks.2) state
    else set_task_list (fun _ => []) state in
  (if migrated.2 || identity_changed || compacted || nonempty leases.1 || nonempty tasks.1
   then state_io (StoreIo "") ;; modify (set_b_durable state)
   else ret tt) ;;
  let* b := get in
  ret (mkController id (set_task_list (fun _ => []) state) leases.2 tasks.2 (b_payloads b) (b_durable b)).

(** What is loaded when the file can be looked at *)
Lemma load_seen b w s b' w' :
  load_state b w = (Ok s, b', w') -> peek (w_io w) = true -> s = b_durable b /\ b' = b.
Proof.
  intros H Hseen. unfold load_state, state_io in H. munfold. rewrite Hseen in H. destruct (peek (w_io (set_io _ _))); by simplify_eq.
Qed.

End Controller.
