(* ===== verification/Authority.v ===== *)
(** * The protocol of session authority

    An abstract account of how the controllers of a fabric pass the authority
    over one workspace session on ([session.handoff] and
    [session.accept-handoff] of
    [crates/machine-fabric-runtime/src/controller.rs]). A node has the
    authority record it holds in memory and the one its state file holds;
    messages are never lost from [net], so that they may be delivered late and
    more than once. [ControllerSessions] shows that the handlers implement it. *)
From stdpp Require Import base gmap strings list relations.
From S2P Require Import Prelude Schema.
Open Scope Z_scope.

Record Node := mkNode { mem : option SessionAuthority; dsk : option SessionAuthority }.
Record Fabric := mkFabric { node_map : gmap string Node; net : list SessionAuthority }.

(** A node that does not know the session holds nothing. *)
Definition nodes (f : Fabric) (x : string) : Node := default (mkNode None None) (node_map f !! x).
Definition set_node (x : string) (n : Node) (f : Fabric) : Fabric := mkFabric (<[x := n]> (node_map f)) (net f).
Definition add_message (m : SessionAuthority) (f : Fabric) : Fabric := mkFabric (node_map f) (m :: net f).

(** A node acts on the session by itself when it owns it and is not handing it over. *)
Definition active (f : Fabric) (x : string) : Prop :=
  exists e, mem (nodes f x) = Some (mkSessionAuthority x e None).

(** One step of the protocol. A commit that fails leaves the state file as it was; a node whose
    commit fails while it marks a handoff has to restart before it sends. *)
Inductive auth_step (f : Fabric) : Fabric -> Prop :=
| st_mark x y e :
    x <> y -> mem (nodes f x) = Some (mkSessionAuthority x e None) ->
    let a := Some (mkSessionAuthority x e (Some y)) in
    auth_step f (set_node x (mkNode a a) f)
| st_send x y e :
    mem (nodes f x) = Some (mkSessionAuthority x e (Some y)) ->
    auth_step f (add_message (mkSessionAuthority y (e + 1) None) f)
| st_accept y m d :
    m ∈ net f -> auth_controller_id m = y ->
    (forall a, mem (nodes f y) = Some a -> auth_epoch a < auth_epoch m) ->
    d = dsk (nodes f y) \/ d = Some m ->
    auth_step f (set_node y (mkNode (Some m) d) f)
| st_complete x y e m d :
    mem (nodes f x) = Some (mkSessionAuthority x e (Some y)) -> x <> y ->
    m = mkSessionAuthority y (e + 1) None -> m ∈ net f ->
    d = dsk (nodes f x) \/ d = Some m ->
    auth_step f (set_node x (mkNode (Some m) d) f)
| st_restart x :
    auth_step f (set_node x (mkNode (dsk (nodes f x)) (dsk (nodes f x))) f)
| st_commit x :
    auth_step f (set_node x (mkNode (mem (nodes f x)) (mem (nodes f x))) f).

(** ** The invariant *)

Definition at_node (f : Fabric) (x : string) (a : SessionAuthority) : Prop :=
  mem (nodes f x) = Some a \/ dsk (nodes f x) = Some a.
Definition version (f : Fabric) (a : SessionAuthority) : Prop := a ∈ net f \/ exists x, at_node f x a.

(** The state file of [x] has reached epoch [e]. *)
Definition reached (f : Fabric) (x : string) (e : Z) : Prop :=
  exists d, dsk (nodes f x) = Some d /\ e <= auth_epoch d.

Record auth_inv (f : Fabric) : Prop := mk_auth_inv {
  ai_owner a b : version f a -> version f b -> auth_epoch a = auth_epoch b ->
    auth_controller_id a = auth_controller_id b;
  ai_latest x e b : at_node f x (mkSessionAuthority x e None) -> version f b -> auth_epoch b <= e;
  ai_durable x e y : mem (nodes f x) = Some (mkSessionAuthority x e (Some y)) ->
    dsk (nodes f x) = mem (nodes f x);
  ai_target x e y b : at_node f x (mkSessionAuthority x e (Some y)) -> version f b ->
    auth_epoch b = e + 1 -> auth_controller_id b = y;
  ai_pending x a y : at_node f x a -> auth_pending_controller_id a = Some y -> auth_controller_id a = x;
  ai_messages m : m ∈ net f -> auth_pending_controller_id m = None;
  ai_accepted m b : m ∈ net f -> version f b -> auth_epoch m < auth_epoch b ->
    reached f (auth_controller_id m) (auth_epoch m);
  ai_passed x e y b : at_node f x (mkSessionAuthority x e (Some y)) -> version f b ->
    e + 1 < auth_epoch b -> reached f y (e + 1);
  ai_monotone x d : dsk (nodes f x) = Some d -> exists a, mem (nodes f x) = Some a /\ auth_epoch d <= auth_epoch a;
}.

(** ** It is preserved *)

Lemma node_same x n f : nodes (set_node x n f) x = n.
Proof. unfold nodes. cbn. by rewrite lookup_insert_eq. Qed.
Lemma node_other x y n f : y <> x -> nodes (set_node x n f) y = nodes f y.
Proof. intros H. unfold nodes. cbn. by rewrite lookup_insert_ne. Qed.

(** What a step at node [x] leaves behind: versions that were there, at their nodes, or new at [x]. *)
Lemma at_node_set x n f y a :
  at_node (set_node x n f) y a -> (y = x /\ (mem n = Some a \/ dsk n = Some a)) \/ (y <> x /\ at_node f y a).
Proof.
  unfold at_node. destruct (decide (y = x)) as [->|Hne].
  - rewrite node_same. by left.
  - rewrite node_other by done. by right.
Qed.

Lemma version_set x n f a :
  version (set_node x n f) a -> version f a \/ mem n = Some a \/ dsk n = Some a.
Proof.
  intros [Hn|[y Hy]]; [by left; left|]. apply at_node_set in Hy as [[-> ?]|[_ ?]]; [by right|].
  left. right. eauto.
Qed.

Lemma reached_set x n f y e :
  reached f y e -> (forall d, dsk (nodes f x) = Some d -> exists d', dsk n = Some d' /\ auth_epoch d <= auth_epoch d') ->
  reached (set_node x n f) y e.
Proof.
  intros (d & Hd & He) Hx. unfold reached. destruct (decide (y = x)) as [->|Hne].
  - rewrite node_same. destruct (Hx d Hd) as (d' & ? & ?). exists d'. split; [done|lia].
  - rewrite node_other by done. eauto.
Qed.

Definition in_node (n : Node) (a : SessionAuthority) : Prop := mem n = Some a \/ dsk n = Some a.

(** A step at one node that makes no new version and marks no new handoff. *)
Lemma auth_inv_set f x n :
  auth_inv f ->
  (forall a, in_node n a -> version f a) ->
  (forall a y, in_node n a -> auth_pending_controller_id a = Some y -> at_node f x a) ->
  (forall e b, in_node n (mkSessionAuthority x e None) -> version f b -> auth_epoch b <= e) ->
  (forall e y, mem n = Some (mkSessionAuthority x e (Some y)) -> dsk n = mem n) ->
  (forall d, dsk (nodes f x) = Some d -> exists d', dsk n = Some d' /\ auth_epoch d <= auth_epoch d') ->
  (forall d, dsk n = Some d -> exists a, mem n = Some a /\ auth_epoch d <= auth_epoch a) ->
  auth_inv (set_node x n f).
Proof.
  intros [H1 H2 H3 H4 H5 H6 H7 H8 H9] Hv Hp Hl Hd Hg Hm.
  assert (Hver : forall a, version (set_node x n f) a -> version f a).
  { intros a Ha. apply version_set in Ha as [?|?]; [done|]. by apply Hv. }
  assert (Hpend : forall y a z, at_node (set_node x n f) y a -> auth_pending_controller_id a = Some z -> at_node f y a).
  { intros y a z Ha Hz. apply at_node_set in Ha as [[-> ?]|[_ ?]]; [by eapply Hp|done]. }
  constructor.
  - intros a b Ha%Hver Hb%Hver. by apply H1.
  - intros y e b Ha Hb%Hver. apply at_node_set in Ha as [[-> ?]|[_ ?]]; [by apply (Hl e b)|by apply (H2 y e b)].
  - intros y e z. destruct (decide (y = x)) as [->|Hne].
    + rewrite node_same. apply Hd.
    + rewrite node_other by done. apply H3.
  - intros y e z b Ha Hb%Hver. eapply H4; [by eapply Hpend|done].
  - intros y a z Ha Hz. eapply H5; [by eapply Hpend|done].
  - exact H6.
  - intros m b Hnet Hb%Hver He. apply reached_set; [by eapply H7|done].
  - intros y e z b Ha Hb%Hver He. apply reached_set; [|done]. eapply H8; [by eapply Hpend|done..].
  - intros y d. destruct (decide (y = x)) as [->|Hne].
    + rewrite node_same. apply Hm.
    + rewrite node_other by done. apply H9.
Qed.

Lemma version_mem f x a : mem (nodes f x) = Some a -> version f a.
Proof. intros H. right. exists x. by left. Qed.
Lemma version_dsk f x a : dsk (nodes f x) = Some a -> version f a.
Proof. intros H. right. exists x. by right. Qed.
#[local] Hint Resolve version_mem version_dsk : core.

Lemma inv_mark f x y e :
  auth_inv f -> x <> y -> mem (nodes f x) = Some (mkSessionAuthority x e None) ->
  let a := Some (mkSessionAuthority x e (Some y)) in auth_inv (set_node x (mkNode a a) f).
Proof.
  intros [H1 H2 H3 H4 H5 H6 H7 H8 H9] Hxy Hm a.
  assert (Hmax : forall b, version f b -> auth_epoch b <= e) by (intros b Hb; eapply H2; [by left|done]).
  assert (Hver : forall b, version (set_node x (mkNode a a) f) b ->
    version f b \/ b = mkSessionAuthority x e (Some y)).
  { intros b Hb. apply version_set in Hb as [?|[?|?]]; [by left|right; cbn in *; unfold a in *; congruence..]. }
  assert (Hle : forall b, version (set_node x (mkNode a a) f) b -> auth_epoch b <= e).
  { intros b Hb. destruct (Hver b Hb) as [?| ->]; [auto|done]. }
  assert (Hx : forall b, version (set_node x (mkNode a a) f) b -> auth_epoch b = e -> auth_controller_id b = x).
  { intros b Hb He. destruct (Hver b Hb) as [Hb'| ->]; [|done]. by apply (H1 b (mkSessionAuthority x e None)); eauto. }
  assert (Hg : forall d, dsk (nodes f x) = Some d -> exists d', dsk (mkNode a a) = Some d' /\ auth_epoch d <= auth_epoch d').
  { intros d Hd. eexists. split; [done|]. cbn. eauto. }
  constructor.
  - intros b c Hb Hc He. destruct (Hver b Hb) as [Hb'| ->], (Hver c Hc) as [Hc'| ->].
    + by apply H1.
    + by apply Hx.
    + symmetry. by apply Hx.
    + done.
  - intros z e' b Hz Hb. apply at_node_set in Hz as [[-> [Hz|Hz]]|[Hne Hz]]; [cbn in *; unfold a in *; congruence..|].
    assert (e <= e') by (apply (H2 z e' _ Hz (version_mem f x _ Hm))). specialize (Hle b Hb). lia.
  - intros z e' t. destruct (decide (z = x)) as [->|Hne]; [by rewrite node_same|].
    rewrite node_other by done. apply H3.
  - intros z e' t b Hz Hb He. apply at_node_set in Hz as [[-> [Hz|Hz]]|[Hne Hz]].
    1, 2: cbn in Hz; unfold a in Hz; simplify_eq; specialize (Hle b Hb); lia.
    destruct (Hver b Hb) as [Hb'| ->]; [by eapply H4|]. cbn in *.
    eapply (H4 z e' t (mkSessionAuthority x e None)); eauto.
  - intros z b t Hz Hp. apply at_node_set in Hz as [[-> [Hz|Hz]]|[Hne Hz]]; [cbn in Hz; unfold a in Hz; by simplify_eq..|by eapply H5].
  - exact H6.
  - intros m b Hnet Hb He. apply reached_set; [|done].
    destruct (Hver b Hb) as [Hb'| ->]; [by eapply H7|]. eapply (H7 m (mkSessionAuthority x e None)); eauto.
  - intros z e' t b Hz Hb He. apply at_node_set in Hz as [[-> [Hz|Hz]]|[Hne Hz]].
    1, 2: cbn in Hz; unfold a in Hz; simplify_eq; specialize (Hle b Hb); lia.
    apply reached_set; [|done]. destruct (Hver b Hb) as [Hb'| ->]; [by eapply H8|].
    eapply (H8 z e' t (mkSessionAuthority x e None)); eauto.
  - intros z d. destruct (decide (z = x)) as [->|Hne].
    + rewrite node_same. intros Hd. exists d. by split.
    + rewrite node_other by done. apply H9.
Qed.

(** A message is at no node. *)
Lemma at_node_message f m x a : at_node (add_message m f) x a <-> at_node f x a.
Proof. done. Qed.
Lemma reached_message f m x e : reached f x e -> reached (add_message m f) x e.
Proof. done. Qed.

Lemma inv_send f x y e :
  auth_inv f -> mem (nodes f x) = Some (mkSessionAuthority x e (Some y)) ->
  auth_inv (add_message (mkSessionAuthority y (e + 1) None) f).
Proof.
  intros [H1 H2 H3 H4 H5 H6 H7 H8 H9] Hm. set (m := mkSessionAuthority y (e + 1) None).
  assert (Hx : at_node f x (mkSessionAuthority x e (Some y))) by (by left).
  assert (Hver : forall b, version (add_message m f) b -> version f b \/ b = m).
  { intros b [Hb|Hb]; [|by left; right]. apply elem_of_cons in Hb as [->|Hb]; [by right|by left; left]. }
  (* the owner of the epoch before is [x], and it holds nothing but its pending handoff *)
  assert (Hprev : forall z, at_node f z (mkSessionAuthority z e None) -> False).
  { intros z Hz. assert (z = x) as ->.
    { apply (H1 (mkSessionAuthority z e None) (mkSessionAuthority x e (Some y))); [right; eauto|eauto|done]. }
    destruct Hz as [Hz|Hz]; [congruence|]. rewrite (H3 x e y Hm) in Hz. congruence. }
  constructor.
  - intros a b Ha Hb He. destruct (Hver a Ha) as [Ha'| ->], (Hver b Hb) as [Hb'| ->].
    + by apply H1.
    + by apply (H4 x e y).
    + symmetry. by apply (H4 x e y).
    + done.
  - intros z e' b Hz%at_node_message Hb. destruct (Hver b Hb) as [Hb'| ->]; [by eapply H2|]. cbn.
    assert (e <= e') by (apply (H2 z e' _ Hz (version_mem f x _ Hm))).
    destruct (decide (e' = e)) as [->|]; [by edestruct Hprev|lia].
  - exact H3.
  - intros z e' t b Hz%at_node_message Hb He. destruct (Hver b Hb) as [Hb'| ->]; [by eapply H4|]. cbn in *.
    assert (e' = e) as -> by lia. assert (z = x) as ->.
    { apply (H1 (mkSessionAuthority z e (Some t)) (mkSessionAuthority x e (Some y))); [right; eauto|eauto|done]. }
    destruct Hz as [Hz|Hz]; cbn in Hz; [|rewrite (H3 x e y Hm) in Hz]; rewrite Hm in Hz; by simplify_eq.
  - exact H5.
  - intros a [->|Ha]%elem_of_cons; [done|by apply H6].
  - intros a b Ha Hb He. destruct (Hver b Hb) as [Hb'| ->].
    + apply elem_of_cons in Ha as [->|Ha]; [|by eapply H7]. cbn in *. by apply (H8 x e y b).
    + apply elem_of_cons in Ha as [->|Ha]; [lia|]. cbn in He.
      destruct (decide (auth_epoch a = e)) as [He'|].
      * assert (auth_controller_id a = x) as ->.
        { apply (H1 a (mkSessionAuthority x e (Some y))); [by left|eauto|done]. }
        apply reached_message. exists (mkSessionAuthority x e (Some y)). cbn. rewrite (H3 x e y Hm). split; [done|lia].
      * apply (H7 a (mkSessionAuthority x e (Some y))); [done|eauto|cbn; lia].
  - intros z e' t b Hz%at_node_message Hb He. destruct (Hver b Hb) as [Hb'| ->]; [by eapply H8|]. cbn in He.
    destruct (decide (e = e' + 1)) as [->|].
    + assert (x = t) as -> by (apply (H4 z e' t (mkSessionAuthority x (e' + 1) (Some y)) Hz); eauto).
      apply reached_message. exists (mkSessionAuthority t (e' + 1) (Some y)). cbn. rewrite (H3 t (e' + 1) y Hm). split; [done|lia].
    + apply (H8 z e' t (mkSessionAuthority x e (Some y)) Hz); [eauto|cbn; lia].
  - exact H9.
Qed.

(** A node that knows nothing as new as a message is the one to take it up: nobody went beyond it. *)
Lemma fresh_message_latest f m b :
  auth_inv f -> m ∈ net f -> version f b ->
  (forall a, mem (nodes f (auth_controller_id m)) = Some a -> auth_epoch a < auth_epoch m) ->
  auth_epoch b <= auth_epoch m.
Proof.
  intros Hinv Hm Hb Hlow. destruct (decide (auth_epoch b <= auth_epoch m)) as [|Hgt]; [done|exfalso].
  destruct (ai_accepted f Hinv m b Hm Hb) as (d & Hd & He); [lia|].
  destruct (ai_monotone f Hinv _ d Hd) as (a & Ha & Hle). specialize (Hlow a Ha). lia.
Qed.

Lemma inv_accept f y m d :
  auth_inv f -> m ∈ net f -> auth_controller_id m = y ->
  (forall a, mem (nodes f y) = Some a -> auth_epoch a < auth_epoch m) ->
  d = dsk (nodes f y) \/ d = Some m ->
  auth_inv (set_node y (mkNode (Some m) d) f).
Proof.
  intros Hinv Hm Hy Hlow Hd. subst y.
  assert (Hfresh : forall b, version f b -> auth_epoch b <= auth_epoch m).
  { intros b Hb. by apply (fresh_message_latest f). }
  assert (Hold : forall b, dsk (nodes f (auth_controller_id m)) = Some b -> auth_epoch b < auth_epoch m).
  { intros b Hb. destruct (ai_monotone f Hinv _ b Hb) as (a & Ha & ?). specialize (Hlow a Ha). lia. }
  assert (Hsame : forall c e b, Some m = Some (mkSessionAuthority c e None) -> version f b -> auth_epoch b <= e).
  { intros c e b Hme Hb. apply (f_equal (option_map auth_epoch)) in Hme. cbn in Hme. injection Hme as <-. by apply Hfresh. }
  apply auth_inv_set; [done|..].
  - intros a [Ha|Ha]; cbn in Ha; [simplify_eq; by left|]. destruct Hd as [-> | ->]; [eauto|simplify_eq; by left].
  - intros a z [Ha|Ha] Hz; cbn in Ha.
    + simplify_eq. by rewrite (ai_messages f Hinv a Hm) in Hz.
    + destruct Hd as [-> | ->]; [by right|]. simplify_eq. by rewrite (ai_messages f Hinv a Hm) in Hz.
  - intros e b [Ha|Ha] Hb; cbn in Ha.
    + by eapply Hsame.
    + destruct Hd as [-> | ->]; [|by eapply Hsame].
      apply (ai_latest f Hinv (auth_controller_id m)); [by right|done].
  - intros e z Ha. cbn in Ha. apply (f_equal (option_map auth_pending_controller_id)) in Ha. cbn in Ha.
    rewrite (ai_messages f Hinv m Hm) in Ha. done.
  - intros b Hb. cbn. destruct Hd as [-> | ->]; [by exists b|]. exists m. specialize (Hold b Hb). split; [done|lia].
  - intros b Hb. cbn in *. exists m. split; [done|].
    destruct Hd as [-> | ->]; [specialize (Hold b Hb); lia|]. by simplify_eq.
Qed.

Lemma inv_complete f x y e m d :
  auth_inv f -> mem (nodes f x) = Some (mkSessionAuthority x e (Some y)) -> x <> y ->
  m = mkSessionAuthority y (e + 1) None -> m ∈ net f ->
  d = dsk (nodes f x) \/ d = Some m ->
  auth_inv (set_node x (mkNode (Some m) d) f).
Proof.
  intros Hinv Hx Hxy -> Hm Hd. pose proof (ai_durable f Hinv x e y Hx) as Hdsk.
  apply auth_inv_set; [done|..]; cbn.
  - intros a [Ha|Ha]; cbn in Ha; [simplify_eq; by left|]. destruct Hd as [-> | ->]; [eauto|simplify_eq; by left].
  - intros a z [Ha|Ha] Hz; cbn in Ha; [by simplify_eq|]. destruct Hd as [-> | ->]; [by right|by simplify_eq].
  - intros e' b [Ha|Ha] Hb; cbn in Ha; [congruence|]. destruct Hd as [-> | ->]; congruence.
  - intros e' z Ha. congruence.
  - intros b Hb. destruct Hd as [-> | ->]; [by exists b|]. eexists. split; [done|].
    rewrite Hdsk, Hx in Hb. simplify_eq. cbn. lia.
  - intros b Hb. eexists. split; [done|]. destruct Hd as [-> | ->]; [|by simplify_eq].
    rewrite Hdsk, Hx in Hb. simplify_eq. cbn. lia.
Qed.

Lemma inv_restart f x :
  auth_inv f -> auth_inv (set_node x (mkNode (dsk (nodes f x)) (dsk (nodes f x))) f).
Proof.
  intros Hinv. apply auth_inv_set; [done|..]; cbn; unfold in_node; cbn.
  - intros a [Ha|Ha]; eauto.
  - intros a y [Ha|Ha] _; by right.
  - intros e b [Ha|Ha] Hb; (apply (ai_latest f Hinv x); [by right|done]).
  - done.
  - intros d Hd. by exists d.
  - intros d Hd. by exists d.
Qed.

Lemma inv_commit f x :
  auth_inv f -> auth_inv (set_node x (mkNode (mem (nodes f x)) (mem (nodes f x))) f).
Proof.
  intros Hinv. apply auth_inv_set; [done|..]; cbn; unfold in_node; cbn.
  - intros a [Ha|Ha]; eauto.
  - intros a y [Ha|Ha] _; by left.
  - intros e b [Ha|Ha] Hb; (apply (ai_latest f Hinv x); [by left|done]).
  - done.
  - apply (ai_monotone f Hinv).
  - intros d Hd. by exists d.
Qed.

Lemma auth_step_inv f f' : auth_step f f' -> auth_inv f -> auth_inv f'.
Proof.
  intros [] Hinv.
  - by apply inv_mark.
  - by eapply inv_send.
  - by apply inv_accept.
  - by eapply inv_complete.
  - by apply inv_restart.
  - by apply inv_commit.
Qed.

(** ** From the beginning: one controller has created the session. *)
Definition created (x0 : string) (f : Fabric) : Prop :=
  let a := Some (mkSessionAuthority x0 1 None) in
  (forall y, nodes f y = if decide (y = x0) then mkNode a a else mkNode None None) /\ net f = [].

Lemma created_at x0 f y b : created x0 f -> at_node f y b -> b = mkSessionAuthority x0 1 None.
Proof. intros [Hn _] H. unfold at_node in H. rewrite Hn in H. case_decide; destruct H; cbn in *; by simplify_eq. Qed.

Lemma created_version x0 f b : created x0 f -> version f b -> b = mkSessionAuthority x0 1 None.
Proof.
  intros Hc [Hb|[y Hy]]; [|by eapply created_at]. destruct Hc as [_ Hnet]. rewrite Hnet in Hb.
  by apply not_elem_of_nil in Hb.
Qed.

Lemma created_inv x0 f : created x0 f -> auth_inv f.
Proof.
  intros Hc. pose proof (created_at x0 f) as Hat. pose proof (created_version x0 f) as Hve.
  assert (Hnet : forall m, m ∉ net f) by (intros m; destruct Hc as [_ ->]; apply not_elem_of_nil).
  constructor.
  - intros a b Ha Hb. by rewrite (Hve a Hc Ha), (Hve b Hc Hb).
  - intros x e b Hx Hb. rewrite (Hve b Hc Hb). apply (Hat _ _ Hc) in Hx. by simplify_eq.
  - intros x e y Hx. assert (at_node f x (mkSessionAuthority x e (Some y))) as H by (by left).
    apply (Hat _ _ Hc) in H. done.
  - intros x e y b Hx. apply (Hat _ _ Hc) in Hx. done.
  - intros x a y Hx. apply (Hat _ _ Hc) in Hx as ->. done.
  - intros m Hm. by destruct (Hnet m).
  - intros m b Hm. by destruct (Hnet m).
  - intros x e y b Hx. apply (Hat _ _ Hc) in Hx. done.
  - destruct Hc as [Hn _]. intros x d. rewrite Hn. case_decide; cbn; [|done]. intros Hd. by exists d.
Qed.

Lemma active_unique f x y : auth_inv f -> active f x -> active f y -> x = y.
Proof.
  intros Hinv [e Hx] [e' Hy].
  assert (e' <= e) by (apply (ai_latest f Hinv x e (mkSessionAuthority y e' None)); [by left|eauto]).
  assert (e <= e') by (apply (ai_latest f Hinv y e' (mkSessionAuthority x e None)); [by left|eauto]).
  apply (ai_owner f Hinv (mkSessionAuthority x e None) (mkSessionAuthority y e' None)); [eauto..|cbn; lia].
Qed.

Lemma steps_inv f f' : rtc auth_step f f' -> auth_inv f -> auth_inv f'.
Proof. induction 1; eauto using auth_step_inv. Qed.
