(* ===== verification/TreeDigest.v ===== *)
(** * The digest of a directory ([digest_tree], [relay_manifest], [safe_relative] of
      [crates/machine-fabric-runtime/src/executor.rs])

    The digest covers the paths of the files and links in byte order, each with
    its content, separated by NUL bytes. It identifies the contents when these
    hold no NUL byte, and not otherwise. The recursion is bounded by the depth of
    the tree; SHA-256 is a parameter. *)
From Stdlib Require Import Ascii.
From stdpp Require Import base gmap strings list sorting pretty.
From S2P Require Import Prelude Json Protocol PathPolicy FileTree FileTreeLaws Generations Controller.
Open Scope Z_scope.
Open Scope fabric_scope.

Definition NUL : ascii := "000"%char.

(** [portable_path_text] of a relative path on Unix *)
Definition relative_text (q : place) : string := String.concat "/" q.

Section Digest.
Context (sha256_hex : string -> string).

(** [collect] of [digest_tree]: the files and links below [root.join(relative)], with the text of their path *)
Fixpoint collect (fuel : nat) (root : Path) (relative : place) : M Volume RpcError (list (string * place)) :=
  match fuel with
  | O => fail out_of_fuel
  | S fuel' =>
      let directory := join root relative in
      let* names := io_error "ARTIFACT_READ_FAILED" directory (Fs.read_dir directory) in
      let* parts :=
        map_m (fun name =>
          let path := join root (relative ++ [name]) in
          let* metadata := io_error "ARTIFACT_READ_FAILED" path (Fs.symlink_metadata path) in
          match metadata with
          | EDir _ => collect fuel' root (relative ++ [name])
          | EFile _ _ | ELink _ => ret [(relative_text (relative ++ [name]), relative ++ [name])]
          | EOther => ret []
          end) names in
      ret (concat parts)
  end.

(** The loop over the sorted paths: the text that is hashed, and the size *)
Fixpoint digest_entries (root : Path) (paths : list (string * place)) (text : string) (size : Z)
    : M Volume RpcError (string * Z) :=
  match paths with
  | [] => ret (text, size)
  | (portable_relative, relative) :: paths' =>
      let path := join root relative in
      let text := text +:+ portable_relative +:+ String NUL "" in
      let* metadata := io_error "ARTIFACT_READ_FAILED" path (Fs.symlink_metadata path) in
      let* item :=
        match metadata with
        | ELink _ =>
            let* target := io_error "ARTIFACT_READ_FAILED" path (Fs.read_link path) in
            ret (display target, size)
        | _ =>
            let* bytes := io_error "ARTIFACT_READ_FAILED" path (Fs.read path) in
            ret (bytes, u64_saturating_add size (str_len bytes))
        end in
      digest_entries root paths' (text +:+ item.1 +:+ String NUL "") item.2
  end.

(** [digest_tree] *)
Definition digest_tree (fuel : nat) (root : Path) : M Volume RpcError (string * Z * Z) :=
  let* paths := collect fuel root [] in
  let* item := digest_entries root (merge_sort key_le paths) "" 0 in
  ret ("sha256:" +:+ sha256_hex item.1, item.2, Z.of_nat (length paths)).

(** [relay_manifest] *)
Fixpoint relay_manifest (fuel : nat) (root : Path) (relative : place) : M Volume RpcError (list Value) :=
  match fuel with
  | O => fail out_of_fuel
  | S fuel' =>
      let directory := join root relative in
      let* names := io_error "ARTIFACT_READ_FAILED" directory (Fs.read_dir directory) in
      let* parts :=
        map_m (fun name =>
          let path := join root (relative ++ [name]) in
          let* metadata := io_error "ARTIFACT_READ_FAILED" path (Fs.symlink_metadata path) in
          let text := relative_text (relative ++ [name]) in
          match metadata with
          | EDir _ =>
              let* inner := relay_manifest fuel' root (relative ++ [name]) in
              ret (obj_of [("path", VString text); ("kind", VString "directory")] :: inner)
          | EFile _ data =>
              ret [obj_of [("path", VString text); ("kind", VString "file"); ("size", vu64 (str_len data))]]
          | _ => fail (rpc_error "INVALID_ARTIFACT"
                         ("relay does not support symlinks or special files: " +:+ display path))
          end) (merge_sort String.le names) in
      ret (concat parts)
  end.

End Digest.

(** ** What is hashed *)

Definition leaf_content (e : Entry) : option string :=
  match e with EFile _ data => Some data | ELink target => Some (display target) | _ => None end.

(** The files and links of a tree with the text of their path, in the order of the texts. *)
Definition leaves (s : Tree) : list (string * place) :=
  omap (fun kv => (fun _ => (relative_text kv.1, kv.1)) <$> leaf_content kv.2) (map_to_list s).
Definition sorted_leaves (s : Tree) : list (string * place) := merge_sort key_le (leaves s).

Definition content_at (s : Tree) (q : place) : string := default "" (s !! q ≫= leaf_content).

Definition tree_text (s : Tree) : string :=
  foldr (fun (tq : string * place) text => tq.1 +:+ String NUL (content_at s tq.2 +:+ String NUL text)) "" (sorted_leaves s).

(** Names as the operating system has them: not empty, no slash, no NUL, not [.] or [..]. *)
Definition no_byte (c : ascii) (s : string) : bool := bytes_all (fun d => negb (Ascii.eqb d c)) s.
Definition good_name (n : string) : bool := negb (str_is_empty n) && no_byte "/"%char n && no_byte NUL n && negb (String.eqb n ".") && negb (String.eqb n "..").
Definition named (s : Tree) : Prop := forall q e, s !! q = Some e -> forallb good_name q = true.

(** ** Splitting at a byte *)

Fixpoint split_at (c : ascii) (s : string) : list string :=
  match s with
  | EmptyString => [""]
  | String d s' =>
      if Ascii.eqb d c then "" :: split_at c s'
      else match split_at c s' with [] => [String d ""] | x :: l => String d x :: l end
  end.

Lemma no_byte_cons c d a : no_byte c (String d a) = true <-> Ascii.eqb d c = false /\ no_byte c a = true.
Proof. unfold no_byte. cbn [bytes_all]. by rewrite andb_true_iff, negb_true_iff. Qed.

Lemma split_at_cons c a s : no_byte c a = true -> split_at c (a +:+ String c s) = a :: split_at c s.
Proof.
  induction a as [|d a IH]; intros H.
  - change (split_at c (String c s) = "" :: split_at c s). cbn [split_at]. by rewrite Ascii.eqb_refl.
  - apply no_byte_cons in H as [Hd H]. rewrite string_app_cons. cbn [split_at]. by rewrite IH, Hd by done.
Qed.
Lemma split_at_one c a : no_byte c a = true -> split_at c a = [a].
Proof. induction a as [|d a IH]; intros H; [done|]. apply no_byte_cons in H as [Hd H]. cbn [split_at]. by rewrite IH, Hd by done. Qed.

Lemma relative_text_cons n m q : relative_text (n :: m :: q) = n +:+ String "/"%char (relative_text (m :: q)).
Proof. done. Qed.
Lemma split_relative q : q <> [] -> forallb good_name q = true -> split_at "/"%char (relative_text q) = q.
Proof.
  intros Hne Hg. induction q as [|n q IH]; [done|]. cbn in Hg. unfold good_name in Hg at 1. bool_prop. destruct q as [|m q].
  - cbn. by apply split_at_one.
  - rewrite relative_text_cons, split_at_cons, IH by done. done.
Qed.
Lemma relative_text_inj q q' :
  q <> [] -> q' <> [] -> forallb good_name q = true -> forallb good_name q' = true ->
  relative_text q = relative_text q' -> q = q'.
Proof. intros H1 H2 G1 G2 H. rewrite <- (split_relative q), <- (split_relative q') by done. by rewrite H. Qed.

Lemma no_byte_app c a b : no_byte c a = true -> no_byte c b = true -> no_byte c (a +:+ b) = true.
Proof.
  intros Ha Hb. induction a as [|d a IH]; [done|]. apply no_byte_cons in Ha as [Hd Ha]. rewrite string_app_cons. apply no_byte_cons. auto.
Qed.
Lemma relative_text_no_nul q : forallb good_name q = true -> no_byte NUL (relative_text q) = true.
Proof.
  induction q as [|n q IH]; [done|]. intros Hg. cbn in Hg. unfold good_name in Hg at 1. bool_prop. destruct q as [|m q]; [done|].
  rewrite relative_text_cons. apply no_byte_app; [done|]. apply no_byte_cons. auto.
Qed.

(** ** Computations that change nothing *)

Definition inert {E A} (m : M Volume E A) : Prop := forall v w r v' w', m v w = (r, v', w') -> v' = v.

Lemma inert_ret {E A} (a : A) : inert (E := E) (ret a).
Proof. intros v w r v' w' H. unfold ret in H. by simplify_eq. Qed.
Lemma inert_fail {E A} (e : E) : inert (A := A) (fail e).
Proof. intros v w r v' w' H. unfold fail in H. by simplify_eq. Qed.
Lemma inert_ask {A} (f : Tree -> result IoKind A) : inert (ask f).
Proof. by intros v w r v' w' [-> _]%ask_cases. Qed.
Lemma inert_with_err {E F A} (f : E -> F) (m : M Volume E A) : inert m -> inert (with_err f m).
Proof. intros H v w r v' w' (r0 & Hm & _)%with_err_cases. by eapply H. Qed.
Lemma inert_bind {E A B} (m : M Volume E A) (k : A -> M Volume E B) : inert m -> (forall a, inert (k a)) -> inert (let* a := m in k a).
Proof.
  intros Hm Hk v w r v' w' H. apply bind_cases in H as (r1 & v1 & w1 & H1 & H). apply Hm in H1 as ->.
  destruct r1; [by eapply Hk|by destruct H as (_ & -> & _)].
Qed.
Lemma inert_map_m {E A B} (f : A -> M Volume E B) l : (forall a, inert (f a)) -> inert (map_m f l).
Proof. intros Hf. induction l as [|a l IH]; [apply inert_ret|]. apply inert_bind; [done|]. intros b. apply inert_bind; [done|]. intros bs. apply inert_ret. Qed.
Create HintDb inert.
#[export] Hint Resolve inert_ret inert_fail inert_ask inert_with_err inert_bind inert_map_m : inert.

Lemma collect_inert fuel root relative : inert (collect fuel root relative).
Proof.
  revert relative. induction fuel as [|fuel IH]; intros relative; [apply inert_fail|]. cbn [collect]. apply inert_bind; [by apply inert_with_err, inert_ask|].
  intros names. apply inert_bind; [|intros; apply inert_ret]. apply inert_map_m. intros name.
  apply inert_bind; [by apply inert_with_err, inert_ask|]. intros []; auto with inert.
Qed.
Lemma digest_entries_inert root paths text size : inert (digest_entries root paths text size).
Proof.
  revert text size. induction paths as [|[t q] paths IH]; intros text size; [apply inert_ret|]. cbn [digest_entries].
  apply inert_bind; [by apply inert_with_err, inert_ask|]. intros e. apply inert_bind; [|intros; apply IH].
  destruct e; (apply inert_bind; [by apply inert_with_err, inert_ask|intros; apply inert_ret]).
Qed.

Lemma map_m_inert_ok {E A B} (f : A -> M Volume E B) l v w ys v' w' :
  (forall a, inert (f a)) -> map_m f l v w = (Ok ys, v', w') ->
  Forall2 (fun a b => exists w1 w2, f a v w1 = (Ok b, v, w2)) l ys.
Proof.
  intros Hf. revert w ys. induction l as [|a l IH]; intros w ys H; cbn [map_m] in H; [unfold ret in H; simplify_eq; constructor|].
  mstep H b v1 w1 H1. pose proof (Hf _ _ _ _ _ _ H1) as ->. mstep H bs v2 w2 H2. unfold ret in H. simplify_eq.
  constructor; [by exists w, w1|]. assert (v' = v) as -> by (by eapply inert_map_m). by eapply IH.
Qed.

(** ** The collected paths are the leaves *)

(** A path below [base] that is a file or a link. *)
Definition is_leaf (t : Tree) (base : place) (q : place) : Prop := is_Some (t !! (base ++ q) ≫= leaf_content).

Definition collected (t : Tree) (root relative : place) (l : list (string * place)) : Prop :=
  NoDup l /\ forall x, x ∈ l <-> exists q, q <> [] /\ x = (relative_text (relative ++ q), relative ++ q) /\ is_leaf t (root ++ relative) q.

Lemma elem_of_concat {A} (x : A) (ls : list (list A)) : x ∈ concat ls <-> exists l, x ∈ l /\ l ∈ ls.
Proof. rewrite list_elem_of_In, in_concat. setoid_rewrite list_elem_of_In. naive_solver. Qed.

(** The paths of the children, put together. *)
Lemma collected_children t root relative names parts :
  NoDup names -> (forall n, n ∈ names <-> is_Some (t !! (root ++ relative ++ [n]))) -> rooted t (root ++ relative) ->
  Forall2 (fun n part => NoDup part /\ forall x, x ∈ part <-> exists q,
     x = (relative_text (relative ++ n :: q), relative ++ n :: q) /\ is_leaf t (root ++ relative) (n :: q)) names parts ->
  collected t root relative (concat parts).
Proof.
  intros Hnd Hnames Hr HF. split.
  - clear Hnames Hr. induction HF as [|n part names parts [Hp Hx] HF IH]; [constructor|]. apply NoDup_cons in Hnd as [Hn Hnd].
    cbn. apply NoDup_app. split_and!; [done| |by apply IH]. intros x (q & -> & _)%Hx (part' & Hin' & Hin)%elem_of_concat.
    apply list_elem_of_lookup in Hin as [i Hi]. destruct (Forall2_lookup_r _ _ _ _ _ HF Hi) as (n' & Hn' & _ & Hx').
    apply Hx' in Hin' as (q' & E & _). injection E as _ E. apply app_inv_head in E. injection E as -> _.
    by apply Hn, (list_elem_of_lookup_2 _ i).
  - intros x. rewrite elem_of_concat. split.
    + intros (part & Hin & Hx). apply list_elem_of_lookup in Hx as [i Hi]. destruct (Forall2_lookup_r _ _ _ _ _ HF Hi) as (n & Hn & _ & Hx).
      apply Hx in Hin as (q & -> & Hl). by exists (n :: q).
    + intros (q & Hne & -> & Hl). destruct q as [|n q]; [done|]. assert (n ∈ names) as Hin.
      { apply Hnames. rewrite app_assoc. unfold is_leaf in Hl. destruct (t !! ((root ++ relative) ++ n :: q)) as [e|] eqn:E; [|by destruct Hl].
        by eapply rooted_top. }
      apply list_elem_of_lookup in Hin as [i Hi]. destruct (Forall2_lookup_l _ _ _ _ _ HF Hi) as (part & Hpart & _ & Hx).
      exists part. split; [|by eapply list_elem_of_lookup_2]. apply Hx. by exists q.
Qed.

Lemma collect_spec fuel root relative v w l v' w' :
  clear (vol_tree v) (root ++ relative) -> dir_at (vol_tree v) (root ++ relative) = true -> rooted (vol_tree v) (root ++ relative) ->
  collect fuel (at_ root) relative v w = (Ok l, v', w') -> collected (vol_tree v) root relative l.
Proof.
  revert relative w l v' w'. induction fuel as [|fuel IH]; intros relative w l v' w' Hc Hd Hr H; [done|]. cbn [collect] in H.
  rewrite !join_at in H. mstep H names v1 w1 H1. apply with_err_cases in H1 as (k1 & H1 & Hk). destruct k1 as [ns|]; [|done].
  injection Hk as <-. apply ask_cases in H1 as [-> H1]. specialize (H1 _ eq_refl). pose proof Hd as [m Hm]%dir_at_Some.
  rewrite entry_clear, Hm in H1; [|done|unfold is_link_at; by rewrite Hm]. cbn in H1. injection H1 as <-.
  mstep H parts v2 w2 H2. unfold ret in H. injection H as <- _ _. apply map_m_inert_ok in H2.
  2:{ intros name. apply inert_bind; [by apply inert_with_err, inert_ask|]. intros []; auto using collect_inert with inert. }
  apply (collected_children _ _ _ (Fs.children (root ++ relative) (vol_tree v))); [apply children_NoDup| |done|].
  { intros n. rewrite elem_of_children. by rewrite <- app_assoc. }
  eapply Forall2_impl; [exact H2|]. clear H2. intros n part (wa & wb & Hf). rewrite !join_at in Hf. rewrite (app_assoc root) in Hf.
  mstep Hf e v3 w3 H3. apply with_err_cases in H3 as (k3 & H3 & Hk). destruct k3 as [e0|]; [|done]. injection Hk as <-.
  apply ask_cases in H3 as [-> H3]. specialize (H3 _ eq_refl).
  assert (clear (vol_tree v) ((root ++ relative) ++ [n])) as Hcn by (by apply clear_snoc).
  rewrite entry_clear in H3 by done. destruct (vol_tree v !! ((root ++ relative) ++ [n])) as [e1|] eqn:He; [|done]. cbn in H3. injection H3 as ->.
  assert (forall q, is_leaf (vol_tree v) (root ++ relative) (n :: q) <-> is_leaf (vol_tree v) (root ++ relative ++ [n]) q) as Hleaf.
  { intros q. unfold is_leaf. by rewrite (app_assoc root), <- (app_assoc (root ++ relative)). }
  assert (e = EOther \/ is_Some (leaf_content e) \/ exists m, e = EDir m) as Hcases by (destruct e; naive_solver).
  destruct Hcases as [->|[Hl|[m0 ->]]].
  - unfold ret in Hf. injection Hf as <- _. split; [constructor|]. intros x. split; [by intros ?%not_elem_of_nil|]. intros (q & _ & Hl). exfalso.
    unfold is_leaf in Hl. destruct q as [|y q]; [rewrite He in Hl; by destruct Hl|].
    rewrite (cons_middle n), app_assoc in Hl. rewrite (rooted_leaf _ ((root ++ relative) ++ [n])) in Hl; [by destruct Hl|by apply rooted_child|].
    unfold dir_at. by rewrite He.
  - assert (part = [(relative_text (relative ++ [n]), relative ++ [n])]) as -> by (destruct e; try (by destruct Hl); unfold ret in Hf; by simplify_eq).
    split; [apply NoDup_singleton|]. intros x. rewrite list_elem_of_singleton. split.
    + intros ->. exists []. split; [done|]. unfold is_leaf. by rewrite He.
    + intros (q & -> & Hq). destruct q as [|y q]; [done|]. exfalso. unfold is_leaf in Hq.
      rewrite (cons_middle n), app_assoc in Hq. rewrite (rooted_leaf _ ((root ++ relative) ++ [n])) in Hq; [by destruct Hq|by apply rooted_child|].
      unfold dir_at. rewrite He. by destruct e; destruct Hl.
  - apply IH in Hf as [Hnd Hx]; [|by rewrite app_assoc|rewrite app_assoc; unfold dir_at; by rewrite He|rewrite app_assoc; by apply rooted_child].
    split; [done|]. intros x. rewrite Hx. split.
    + intros (q & Hne & -> & Hq). exists q. rewrite <- app_assoc. split; [done|]. by apply Hleaf.
    + intros (q & -> & Hq). exists q. rewrite <- app_assoc. split_and!; [|done|by apply Hleaf]. intros ->. unfold is_leaf in Hq. rewrite He in Hq. by destruct Hq.
Qed.

Lemma elem_of_leaves s x : x ∈ leaves s <-> exists q, x = (relative_text q, q) /\ is_leaf s [] q.
Proof.
  unfold leaves, is_leaf. rewrite list_elem_of_omap. split.
  - intros ([q e] & Hin%elem_of_map_to_list & Hx). cbn in *. destruct (leaf_content e) as [c|] eqn:E; [|done]. injection Hx as <-.
    exists q. split; [done|]. rewrite Hin. cbn. by rewrite E.
  - intros (q & -> & Hl). cbn in Hl. destruct (s !! q) as [e|] eqn:E; [|by destruct Hl]. cbn in Hl. destruct Hl as [c Hc].
    exists (q, e). split; [by apply elem_of_map_to_list|]. cbn. by rewrite Hc.
Qed.
Lemma leaves_NoDup s : NoDup (leaves s).
Proof.
  apply NoDup_omap_inj; [|apply NoDup_map_to_list]. intros [q e] [q' e'] x H1%elem_of_map_to_list H2%elem_of_map_to_list Hx Hx'. cbn in *.
  destruct (leaf_content e); [|done]. destruct (leaf_content e'); [|done]. simplify_eq/=. congruence.
Qed.

Lemma collected_sorted t root l :
  named (subtree root t) -> dir_at t root = true -> collected t root [] l -> merge_sort key_le l = sorted_leaves (subtree root t).
Proof.
  intros Hn Hd [Hnd Hx]. unfold sorted_leaves. assert (l ≡ₚ leaves (subtree root t)) as Hp.
  { apply NoDup_Permutation; [done|apply leaves_NoDup|]. intros x. rewrite Hx, elem_of_leaves. unfold is_leaf. cbn. rewrite app_nil_r. split.
    - intros (q & _ & -> & Hl). exists q. split; [done|]. by rewrite lookup_subtree.
    - intros (q & -> & Hl). rewrite lookup_subtree in Hl. exists q. split_and!; [|done|done]. intros ->. rewrite app_nil_r in Hl.
      unfold dir_at in Hd. destruct (t !! root) as [[]|]; try done. by destruct Hl. }
  apply (StronglySorted_unique_strong key_le).
  - intros x y Hxin Hyin H1 H2. rewrite merge_sort_Permutation, Hp in Hxin. rewrite merge_sort_Permutation in Hyin.
    apply elem_of_leaves in Hxin as (q & -> & Hq). apply elem_of_leaves in Hyin as (q' & -> & Hq'). unfold key_le in H1, H2. cbn in *.
    assert (relative_text q = relative_text q') as E by (by apply (anti_symm String.le)).
    assert (forall p, is_leaf (subtree root t) [] p -> p <> [] /\ forallb good_name p = true) as Hg.
    { intros p Hl. unfold is_leaf in Hl. cbn in Hl. destruct (subtree root t !! p) as [e|] eqn:Hs; [|by destruct Hl]. split; [|by eapply Hn].
      intros ->. rewrite lookup_subtree, app_nil_r in Hs. unfold dir_at in Hd. rewrite Hs in Hd. destruct e; try done. by destruct Hl. }
    destruct (Hg q Hq), (Hg q' Hq'). by rewrite (relative_text_inj q q').
  - apply Sorted_StronglySorted, Sorted_merge_sort; apply _.
  - apply Sorted_StronglySorted, Sorted_merge_sort; apply _.
  - by rewrite !merge_sort_Permutation.
Qed.

(** ** The text and the size *)

Definition leaf_size (s : Tree) (q : place) : Z := match s !! q with Some (EFile _ data) => str_len data | _ => 0 end.
Definition tree_size (s : Tree) : Z := foldr (fun (tq : string * place) n => leaf_size s tq.2 + n) 0 (sorted_leaves s).
Definition entries_text (s : Tree) (l : list (string * place)) : string :=
  foldr (fun (tq : string * place) text => tq.1 +:+ String NUL (content_at s tq.2 +:+ String NUL text)) "" l.

Lemma str_len_nonneg s : 0 <= str_len s.
Proof. unfold str_len. lia. Qed.
Lemma sizes_nonneg s l : 0 <= foldr (fun (tq : string * place) n => leaf_size s tq.2 + n) 0 l.
Proof. induction l as [|x l IH]; cbn; [lia|]. assert (0 <= leaf_size s x.2); [|lia]. unfold leaf_size. destruct (s !! x.2) as [[]|]; try lia. apply str_len_nonneg. Qed.

Lemma digest_entries_spec root l text size v w text' size' v' w' :
  clear (vol_tree v) root -> dir_at (vol_tree v) root = true -> rooted (vol_tree v) root ->
  (forall x, x ∈ l -> x.2 <> [] /\ is_leaf (vol_tree v) root x.2) -> 0 <= size <= U64_MAX ->
  digest_entries (at_ root) l text size v w = (Ok (text', size'), v', w') ->
  let s := subtree root (vol_tree v) in
  text' = text +:+ entries_text s l /\ size' = Z.min (size + foldr (fun (tq : string * place) n => leaf_size s tq.2 + n) 0 l) U64_MAX.
Proof.
  intros Hc Hd Hr. revert text size w. induction l as [|[tx q] l IH]; intros text size w Hl Hsz H s.
  { cbn in H. unfold ret in H. injection H as <- <- _ _. cbn. split; [by rewrite string_app_nil_r|lia]. }
  cbn [digest_entries] in H. rewrite join_at in H. destruct (Hl (tx, q)) as [Hne Hq]; [by left|]. cbn in Hne, Hq.
  assert (clear (vol_tree v) (root ++ q)) as Hcq.
  { intros p Hp Hpn. unfold is_leaf in Hq. destruct (prefix_weak_total p root (root ++ q)) as [Hpr|[k ->]]; [done|by apply prefix_app_r| |].
    - destruct (decide (p = root)) as [->|]; [done|by apply Hc].
    - destruct Hp as [z Hz]. rewrite <- app_assoc in Hz. apply app_inv_head in Hz. subst q. destruct z as [|y z] using rev_ind; [by rewrite app_nil_r in Hpn|].
      clear IHz. destruct (vol_tree v !! (root ++ k ++ z ++ [y])) as [e|] eqn:E; [|by destruct Hq]. clear -Hr E.
      revert y e E. induction z as [|x z IH] using rev_ind; intros y e E.
      + apply (Hr k y). by exists e.
      + rewrite <- !app_assoc in E. specialize (Hr (k ++ z ++ [x]) y). rewrite <- !app_assoc in Hr. destruct (dir_at_Some _ _ (Hr (ex_intro _ e E))) as [m Hm]. by eapply IH. }
  mstep H e v1 w1 H1. apply with_err_cases in H1 as (k1 & H1 & Hk). destruct k1 as [e1|]; [|done]. injection Hk as <-.
  apply ask_cases in H1 as [-> H1]. specialize (H1 _ eq_refl). rewrite entry_clear in H1 by done.
  assert (content_at s q = default "" (leaf_content e) /\ leaf_size s q = match e with EFile _ d => str_len d | _ => 0 end /\ is_Some (leaf_content e) /\ vol_tree v !! (root ++ q) = Some e) as (Hcon & Hsi & Hlc & He).
  { unfold content_at, leaf_size, is_leaf in *. unfold s. rewrite lookup_subtree. destruct (vol_tree v !! (root ++ q)); [|done]. cbn in *. by simplify_eq. }
  mstep H item v2 w2 H2. assert (v2 = v /\ item = (content_at s q, Z.min (size + leaf_size s q) U64_MAX)) as [-> ->].
  { rewrite Hcon, Hsi. destruct e as [|m d|tg|]; try by destruct Hlc.
    - mstep H2 d2 v3 w3 H3. apply with_err_cases in H3 as (k3 & H3 & Hk3). destruct k3 as [d3|]; [|done]. injection Hk3 as <-.
      apply ask_cases in H3 as [-> H3]. specialize (H3 _ eq_refl). rewrite entry_clear, He in H3; [|done|unfold is_link_at; by rewrite He].
      cbn in H3. injection H3 as ->. unfold ret in H2. injection H2 as <- <- _. done.
    - mstep H2 d2 v3 w3 H3. apply with_err_cases in H3 as (k3 & H3 & Hk3). destruct k3 as [d3|]; [|done]. injection Hk3 as <-.
      apply ask_cases in H3 as [-> H3]. specialize (H3 _ eq_refl). rewrite entry_clear, He in H3 by done.
      cbn in H3. injection H3 as ->. unfold ret in H2. injection H2 as <- <- _. split; [done|]. f_equal. lia. }
  cbn [fst snd] in H. assert (0 <= leaf_size s q) as Hnn by (rewrite Hsi; destruct e; try lia; apply str_len_nonneg).
  apply IH in H as [-> ->]; [|intros x Hx; apply Hl; by right|unfold U64_MAX in *; lia]. cbn [entries_text foldr fst snd]. split.
  - rewrite <- !string_app_assoc. reflexivity.
  - pose proof (sizes_nonneg s l) as Hrest. fold s. cbn [foldr snd]. revert Hrest. generalize (foldr (fun (tq : string * place) n => leaf_size s tq.2 + n) 0 l).
    intros rest Hrest. unfold U64_MAX in *. lia.
Qed.

(** What [digest_tree] returns is the digest of the text of the tree, its size and the number of its files. *)
Lemma digest_tree_spec hex fuel root v w d size n v' w' :
  clear (vol_tree v) root -> dir_at (vol_tree v) root = true -> rooted (vol_tree v) root -> named (subtree root (vol_tree v)) ->
  digest_tree hex fuel (at_ root) v w = (Ok (d, size, n), v', w') ->
  let s := subtree root (vol_tree v) in
  v' = v /\ d = "sha256:" +:+ hex (tree_text s) /\ size = Z.min (tree_size s) U64_MAX /\ n = Z.of_nat (length (leaves s)).
Proof.
  intros Hc Hd Hr Hn H s. unfold digest_tree in H. mstep H paths v1 w1 H1. pose proof (collect_inert _ _ _ _ _ _ _ _ H1) as ->.
  apply collect_spec in H1; [|by rewrite app_nil_r..]. pose proof (collected_sorted _ _ _ Hn Hd H1) as Hs. fold s in Hs.
  mstep H item v2 w2 H2. pose proof (digest_entries_inert _ _ _ _ _ _ _ _ _ H2) as ->. destruct item as [tx sz].
  unfold ret in H. injection H as <- <- <- <- _. split; [done|]. rewrite Hs in H2. apply digest_entries_spec in H2 as [-> ->]; [|done..| |unfold U64_MAX; lia].
  - split_and!; [done|done|]. f_equal. apply Permutation_length. rewrite <- (merge_sort_Permutation key_le paths), Hs. apply merge_sort_Permutation.
  - intros x Hx. rewrite <- Hs, merge_sort_Permutation in Hx. apply H1 in Hx as (q & Hq & -> & Hl). rewrite app_nil_r in Hl. done.
Qed.

(** ** What the digest identifies *)

Lemma entries_text_cons s tx q l :
  entries_text s ((tx, q) :: l) = tx +:+ String NUL (content_at s q +:+ String NUL (entries_text s l)).
Proof. done. Qed.

Lemma entries_text_inj s1 s2 l1 l2 :
  (forall x, x ∈ l1 -> no_byte NUL x.1 = true /\ no_byte NUL (content_at s1 x.2) = true) ->
  (forall x, x ∈ l2 -> no_byte NUL x.1 = true /\ no_byte NUL (content_at s2 x.2) = true) ->
  entries_text s1 l1 = entries_text s2 l2 ->
  (fun x => (x.1, content_at s1 x.2)) <$> l1 = (fun x => (x.1, content_at s2 x.2)) <$> l2.
Proof.
  revert l2. induction l1 as [|[t1 q1] l1 IH]; intros [|[t2 q2] l2] H1 H2 E; [done|..].
  - by destruct t2.
  - by destruct t1.
  - rewrite !entries_text_cons in E. destruct (H1 (t1, q1)) as [N1 C1]; [by left|]. destruct (H2 (t2, q2)) as [N2 C2]; [by left|]. cbn in N1, C1, N2, C2.
    pose proof (f_equal (split_at NUL) E) as Es. rewrite !split_at_cons in Es by done. injection Es as -> Ec _. rewrite Ec in E.
    apply (inj (String.append t2)) in E. injection E as E. apply (inj (String.append (content_at s2 q2))) in E. injection E as E.
    cbn. rewrite Ec. f_equal. apply IH; [intros x Hx; apply H1; by right|intros x Hx; apply H2; by right|done].
Qed.

Definition nul_free (s : Tree) : Prop := forall q, no_byte NUL (content_at s q) = true.
Definition contents (s : Tree) (q : place) : option string := s !! q ≫= leaf_content.

Lemma sorted_leaves_names s x : named s -> x ∈ sorted_leaves s -> x.1 = relative_text x.2 /\ forallb good_name x.2 = true /\ is_Some (contents s x.2).
Proof.
  intros Hn Hx. unfold sorted_leaves in Hx. rewrite merge_sort_Permutation in Hx. apply elem_of_leaves in Hx as (q & -> & Hl).
  cbn. unfold is_leaf in Hl. cbn in Hl. unfold contents. split_and!; [done| |done]. destruct (s !! q) eqn:E; [by eapply Hn|by destruct Hl].
Qed.

(** A leaf of one tree with its content is in the list of the other. *)
Lemma listed_contents s1 s2 q c :
  named s1 -> named s2 -> s1 !! [] ≫= leaf_content = None -> s2 !! [] ≫= leaf_content = None ->
  (fun x => (x.1, content_at s1 x.2)) <$> sorted_leaves s1 = (fun x => (x.1, content_at s2 x.2)) <$> sorted_leaves s2 ->
  contents s1 q = Some c -> contents s2 q = Some c.
Proof.
  intros Hn1 Hn2 R1 R2 E Hc. assert ((relative_text q, q) ∈ sorted_leaves s1) as Hin.
  { unfold sorted_leaves. rewrite merge_sort_Permutation. apply elem_of_leaves. exists q. split; [done|]. unfold is_leaf. cbn. unfold contents in Hc. by rewrite Hc. }
  assert ((relative_text q, content_at s1 q) ∈ (fun x : string * place => (x.1, content_at s1 x.2)) <$> sorted_leaves s1) as H by (apply list_elem_of_fmap; by exists (relative_text q, q)).
  rewrite E in H. apply list_elem_of_fmap in H as ([t' q'] & Hx & Hin'). cbn in Hx. injection Hx as Ht Hcon.
  destruct (sorted_leaves_names _ _ Hn1 Hin) as (_ & Hg & _). destruct (sorted_leaves_names _ _ Hn2 Hin') as (Ht' & Hg' & Hc'). cbn in *.
  assert (q = q') as <-.
  { apply relative_text_inj; [|..]; try done; [| |by rewrite Ht].
    - intros ->. unfold contents in Hc. congruence.
    - intros ->. unfold contents in Hc'. rewrite R2 in Hc'. by destruct Hc'. }
  destruct Hc' as [c' Hc']. unfold content_at, contents in *. rewrite Hc, Hc' in Hcon. cbn in Hcon. by rewrite Hc', Hcon.
Qed.

Lemma text_identifies s1 s2 :
  named s1 -> named s2 -> s1 !! [] ≫= leaf_content = None -> s2 !! [] ≫= leaf_content = None -> nul_free s1 -> nul_free s2 ->
  tree_text s1 = tree_text s2 -> forall q, contents s1 q = contents s2 q.
Proof.
  intros Hn1 Hn2 R1 R2 F1 F2 E q. apply entries_text_inj in E.
  - apply option_eq. intros c. split; [by apply listed_contents|]. symmetry in E. by apply listed_contents.
  - intros x Hx. destruct (sorted_leaves_names _ _ Hn1 Hx) as (-> & Hg & _). split; [by apply relative_text_no_nul|apply F1].
  - intros x Hx. destruct (sorted_leaves_names _ _ Hn2 Hx) as (-> & Hg & _). split; [by apply relative_text_no_nul|apply F2].
Qed.

(** Where a directory can be digested. *)
Record digestible (t : Tree) (root : place) : Prop := mk_digestible {
  dg_clear : clear t root;
  dg_dir : dir_at t root = true;
  dg_rooted : rooted t root;
  dg_named : named (subtree root t);
}.

Lemma digestible_root t root : digestible t root -> subtree root t !! [] ≫= leaf_content = None.
Proof. intros [_ [m Hm]%dir_at_Some _ _]. by rewrite lookup_subtree, app_nil_r, Hm. Qed.

(** two directories with the same digest have the same files and links with the same contents, when
    the hash does not collide on them and no content holds a NUL byte. *)
Theorem digest_identifies_contents hex fuel1 root1 v1 w1 fuel2 root2 v2 w2 d size1 n1 size2 n2 v1' w1' v2' w2' :
  digestible (vol_tree v1) root1 -> digestible (vol_tree v2) root2 ->
  let s1 := subtree root1 (vol_tree v1) in
  let s2 := subtree root2 (vol_tree v2) in
  nul_free s1 -> nul_free s2 -> (hex (tree_text s1) = hex (tree_text s2) -> tree_text s1 = tree_text s2) ->
  digest_tree hex fuel1 (at_ root1) v1 w1 = (Ok (d, size1, n1), v1', w1') ->
  digest_tree hex fuel2 (at_ root2) v2 w2 = (Ok (d, size2, n2), v2', w2') ->
  forall q, contents s1 q = contents s2 q.
Proof.
  intros D1 D2 s1 s2 F1 F2 Hhex H1 H2. pose proof (digestible_root _ _ D1) as R1. pose proof (digestible_root _ _ D2) as R2.
  destruct D1, D2. apply digest_tree_spec in H1 as (_ & E1 & _); [|done..]. apply digest_tree_spec in H2 as (_ & E2 & _); [|done..].
  rewrite E1 in E2. apply (inj (String.append "sha256:")) in E2. by apply text_identifies, Hhex.
Qed.
