(* ===== verification/ArtifactRelay.v ===== *)
(** * The executor's side of an artifact relay ([artifact.relay.*] of
      [crates/machine-fabric-runtime/src/executor.rs])

    An artifact is packed into an archive, read and written in chunks, extracted
    beside its destination and exchanged with it. The archive format (the crates
    tar and flate2) and base64 are an interface; a chunk of a regular file is
    read in full. *)
From Stdlib Require Import Ascii.
From stdpp Require Import base gmap strings list sorting pretty.
From S2P Require Import Prelude Json Protocol PathPolicy FileTree FileTreeLaws Generations Controller TreeDigest.
Open Scope Z_scope.
Open Scope fabric_scope.

(** ** Archives *)

Inductive Member :=
| MFile (path : Path) (data : string)
| MDir (path : Path)
| MOther (path : Path).

Definition member_path (m : Member) : Path := match m with MFile p _ | MDir p | MOther p => p end.

(** [tar] over [flate2], and [base64]. [unpack_in] is false for a member it refuses to write. *)
Class Archiver := {
  pack : list Member -> string;
  unpack : string -> option (list (option Member));
  unpack_in : Member -> Path -> M Volume IoKind bool;
  b64_encode : string -> string;
  b64_decode : string -> option string;
}.

(** ** Paths of requests *)

(** [PathBuf::from] *)
Definition path_of (s : string) : Path :=
  let absolute := starts_with "/" s in
  let parts := List.filter (fun c => negb (str_is_empty c)) (split_at "/"%char s) in
  let component c := if String.eqb c ".." then ParentDir else Normal c in
  let rest := component <$> List.filter (fun c => negb (String.eqb c ".")) parts in
  let leading := match parts with c :: _ => negb absolute && String.eqb c "." | [] => false end in
  mkPath absolute (if leading then CurDir :: rest else rest).

(** [safe_relative] *)
Definition safe_relative (value : string) : result RpcError Path :=
  let path := path_of value in
  if str_is_empty value || p_absolute path || negb (forallb is_normal (p_components path))
  then Err (rpc_error "INVALID_ARTIFACT_PATH" ("unsafe relative path: " +:+ value))
  else Ok path.

Definition join_path (p relative : Path) : Path := mkPath (p_absolute p) (p_components p ++ p_components relative).

Record ExecutorRuntime := mkExecutorRuntime {
  allowed_roots : list Path;
  relay_root : Path;
  desktop_policy : option DesktopPathPolicy;
}.

(** [checked_path], given the tree *)
Definition checked_path_in (t : Tree) (rt : ExecutorRuntime) (raw : string) (must_exist : bool) (access : PathAccess)
    : result RpcError Path :=
  let path := path_of raw in
  bind_result (match desktop_policy rt with
               | Some policy => bind_result (check policy path Read) (fun _ => logical_path path)
               | None => Ok path
               end) (fun path =>
  if must_exist && negb (@fs_exists (tree_fs t) path)
  then Err (rpc_error "PATH_INVALID" (display path +:+ ": "))
  else
    bind_result (@resolve_path (tree_fs t) path) (fun checked =>
    match desktop_policy rt with
    | Some policy => bind_result (@check_resolved (tree_fs t) policy path checked access) (fun _ => Ok checked)
    | None =>
        if existsb (within checked) (allowed_roots rt) then Ok checked
        else Err (rpc_error "PATH_OUTSIDE_ALLOWED_ROOTS" (display checked +:+ " is outside executor roots"))
    end)).

Definition checked_text (rt : ExecutorRuntime) (raw : string) (must_exist : bool) (access : PathAccess)
    : M Volume RpcError Path :=
  let* v := get in lift (checked_path_in (vol_tree v) rt raw must_exist access).

(** [path], [write_path] *)
Definition checked_path (rt : ExecutorRuntime) (params : Value) (key : string) (must_exist : bool) (access : PathAccess)
    : M Volume RpcError Path :=
  match vget key params ≫= as_str with
  | Some raw => checked_text rt raw must_exist access
  | None => fail (rpc_error "INVALID_PARAMS" (key +:+ " is required"))
  end.
Definition read_path (rt : ExecutorRuntime) (params : Value) (key : string) : bool -> M Volume RpcError Path :=
  fun must_exist => checked_path rt params key must_exist Read.
Definition write_path (rt : ExecutorRuntime) (params : Value) (key : string) : bool -> M Volume RpcError Path :=
  fun must_exist => checked_path rt params key must_exist Write.

(** [read_path_denied] *)
Definition read_path_denied (rt : ExecutorRuntime) (path : Path) : M Volume RpcError bool :=
  match desktop_policy rt with
  | None => ret false
  | Some policy =>
      if is_err (check policy path Read) then ret true
      else
        let* v := get in
        let* checked := lift (@resolve_path (tree_fs (vol_tree v)) path) in
        ret (is_err (check policy checked Read))
  end.

(** [ensure_tree_readable] *)
Fixpoint ensure_tree_readable (fuel : nat) (rt : ExecutorRuntime) (directory : Path) : M Volume RpcError unit :=
  match fuel with
  | O => fail out_of_fuel
  | S fuel' =>
      let* names := io_error "ARTIFACT_READ_FAILED" directory (Fs.read_dir directory) in
      for_each names (fun name =>
        let path := join directory [name] in
        let* denied := read_path_denied rt path in
        if denied : bool
        then fail (rpc_error "PATH_READ_DENIED"
                     (display directory +:+ " contains a protected system or credential path"))
        else
          let* metadata := io_error "ARTIFACT_READ_FAILED" path (Fs.symlink_metadata path) in
          if entry_is_dir metadata then ensure_tree_readable fuel' rt path else ret tt)
  end.

Section Relay.
Context `{Archiver} (sha256_hex : string -> string) (torn : string -> string) (fuel : nat).

(** [digest_tree] of the runtime *)
Definition runtime_digest_tree (rt : ExecutorRuntime) (root : Path) : M Volume RpcError (string * Z * Z) :=
  match desktop_policy rt with Some _ => ensure_tree_readable fuel rt root | None => ret tt end ;;
  digest_tree sha256_hex fuel root.

(** [relay_archive_path] *)
Definition relay_archive_path (root : Path) (token : string) : result RpcError Path :=
  if negb (Nat.eqb (String.length token) 32) || negb (bytes_all is_ascii_hexdigit token)
  then Err (rpc_error "INVALID_ARTIFACT_TOKEN" "archive relay token must be 32 hexadecimal characters")
  else Ok (join root [token +:+ ".tar.gz"]).

(** [Metadata::len] of a file *)
Definition metadata_len (e : Entry) : Z := match e with EFile _ data => str_len data | _ => 0 end.

(** A file read from an offset *)
Definition read_at (p : Path) (offset limit : Z) : M Volume IoKind string :=
  let* data := Fs.read p in
  if I64_MAX <? offset then fail OtherError
  else ret (String.substring (Z.to_nat offset) (Z.to_nat (Z.min limit (str_len data))) data).

(** Opening, seeking and writing an existing file *)
Definition write_chunk (p : Path) (offset : Z) (bytes : string) : M Volume IoKind unit :=
  let* q := Fs.open_existing p in
  if I64_MAX <? offset then fail OtherError
  else Fs.write_at torn q (Z.to_nat offset) bytes.

(** One entry of the manifest as a member of the archive. *)
Definition append_member (source : Path) (entry : Value) : M Volume RpcError Member :=
  let* relative_text := lift (required_str entry "path") in
  let* relative := lift (safe_relative relative_text) in
  let path := join_path source relative in
  let* kind := lift (required_str entry "kind") in
  let* metadata := io_error "ARTIFACT_TRANSFER_FAILED" path (Fs.symlink_metadata path) in
  if String.eqb kind "directory" then ret (MDir relative)
  else match metadata with
       | EFile _ data => ret (MFile relative data)
       | EDir _ => ret (MDir relative)
       | ELink _ => ret (MOther relative)
       | EOther => fail (rpc_error "ARTIFACT_TRANSFER_FAILED" (display path +:+ ": "))
       end.

(** [artifact.relay.archive.create] *)
Definition archive_create (rt : ExecutorRuntime) (params : Value) : M Volume RpcError Value :=
  let* source := read_path rt params "path" true in
  let* metadata := io_error "ARTIFACT_READ_FAILED" source (Fs.metadata source) in
  if negb (entry_is_dir metadata)
  then fail (rpc_error "INVALID_ARTIFACT" "archive relay currently requires a directory artifact")
  else
    let* digested := runtime_digest_tree rt source in
    let '(digest, size, files) := digested in
    let* entries := relay_manifest fuel source [] in
    io_error "ARTIFACT_TRANSFER_FAILED" (relay_root rt) (Fs.create_dir_all (relay_root rt)) ;;
    let* token := new_v4 in
    let* archive_path := lift (relay_archive_path (relay_root rt) token) in
    let* file := io_error "ARTIFACT_TRANSFER_FAILED" archive_path (Fs.open_truncate 438 archive_path) in
    let* members := map_m (append_member source) entries in
    io_error "ARTIFACT_TRANSFER_FAILED" archive_path (Fs.write_at torn file 0 (pack members)) ;;
    let* written := io_error "ARTIFACT_TRANSFER_FAILED" archive_path (Fs.metadata archive_path) in
    ret (obj_of [("token", VString token); ("compression", VString "gzip"); ("archiveSize", vu64 (metadata_len written));
                 ("digest", VString digest); ("size", vu64 size); ("files", vu64 files)]).

(** [artifact.relay.archive.read] *)
Definition archive_read (rt : ExecutorRuntime) (params : Value) : M Volume RpcError Value :=
  let* token := lift (required_str params "token") in
  let* archive_path := lift (relay_archive_path (relay_root rt) token) in
  let offset := default 0 (vget "offset" params ≫= as_u64) in
  let limit := Z.min (default 8388608 (vget "limit" params ≫= as_u64)) 16777216 in
  let* bytes := io_error "ARTIFACT_READ_FAILED" archive_path (read_at archive_path offset limit) in
  ret (obj_of [("token", VString token); ("offset", vu64 offset); ("data", VString (b64_encode bytes));
               ("bytes", vu64 (str_len bytes)); ("eof", VBool (str_len bytes <? limit))]).

(** [artifact.relay.archive.remove] *)
Definition archive_remove (rt : ExecutorRuntime) (params : Value) : M Volume RpcError Value :=
  let* token := lift (required_str params "token") in
  let* archive_path := lift (relay_archive_path (relay_root rt) token) in
  let* removed := attempt (Fs.remove_file archive_path) in
  match removed with
  | Ok _ => ret (obj_of [("token", VString token); ("removed", VBool true)])
  | Err NotFound => ret (obj_of [("token", VString token); ("removed", VBool false)])
  | Err _ => fail (rpc_error "ARTIFACT_TRANSFER_FAILED" (display archive_path +:+ ": "))
  end.

(** A staging directory, made anew *)
Definition fresh_staging (staging : Path) : M Volume RpcError unit :=
  let* present := Fs.exists_ staging in
  (if present : bool then io_error "ARTIFACT_TRANSFER_FAILED" staging (Fs.remove_dir_all staging) else ret tt) ;;
  io_error "ARTIFACT_TRANSFER_FAILED" staging (Fs.create_dir_all staging).

(** [artifact.relay.archive.prepare] *)
Definition archive_prepare (rt : ExecutorRuntime) (params : Value) : M Volume RpcError Value :=
  let* staging := write_path rt params "staging" false in
  fresh_staging staging ;;
  let archive_path := join staging ["payload.tar.gz"] in
  let* _ := io_error "ARTIFACT_TRANSFER_FAILED" archive_path (Fs.open_truncate 438 archive_path) in
  ret (obj_of [("staging", VString (display staging))]).

Definition required_offset (params : Value) : result RpcError Z :=
  ok_or (vget "offset" params ≫= as_u64) (rpc_error "INVALID_PARAMS" "offset is required").
Definition required_data (params : Value) : result RpcError string :=
  bind_result (required_str params "data") (fun data => ok_or (b64_decode data) (rpc_error "INVALID_PARAMS" "")).

(** [artifact.relay.archive.write] *)
Definition archive_write (rt : ExecutorRuntime) (params : Value) : M Volume RpcError Value :=
  let* staging := write_path rt params "staging" true in
  let* archive_path := checked_text rt (display (join staging ["payload.tar.gz"])) true Write in
  if negb (within archive_path staging)
  then fail (rpc_error "INVALID_ARTIFACT_PATH" "archive escapes staging")
  else
    let* offset := lift (required_offset params) in
    let* bytes := lift (required_data params) in
    io_error "ARTIFACT_TRANSFER_FAILED" archive_path (write_chunk archive_path offset bytes) ;;
    ret (obj_of [("offset", vu64 offset); ("bytes", vu64 (str_len bytes))]).

(** The loop of [extract_relay_archive] *)
Fixpoint extract_members (archive_path destination : Path) (expected_size expected_files : Z)
    (members : list (option Member)) (size files : Z) : M Volume RpcError (Z * Z) :=
  match members with
  | [] => ret (size, files)
  | None :: _ => fail (rpc_error "ARTIFACT_TRANSFER_FAILED" (display archive_path +:+ ": "))
  | Some (MOther _) :: _ =>
      fail (rpc_error "INVALID_ARTIFACT" "archive relay supports only regular files and directories")
  | Some m :: members' =>
      let path := member_path m in
      if p_absolute path || negb (forallb (fun c => match c with ParentDir => false | _ => true end) (p_components path))
      then fail (rpc_error "INVALID_ARTIFACT_PATH" ("unsafe archive path: " +:+ display path))
      else
        let files := match m with MFile _ _ => u64_saturating_add files 1 | _ => files end in
        let size := match m with MFile _ data => u64_saturating_add size (str_len data) | _ => size end in
        if (match m with MFile _ _ => true | _ => false end) && ((expected_files <? files) || (expected_size <? size))
        then fail (rpc_error "ARTIFACT_ARCHIVE_LIMIT_EXCEEDED" "archive contents exceed the declared artifact limits")
        else
          let* unpacked := io_error "ARTIFACT_TRANSFER_FAILED" destination (unpack_in m destination) in
          if unpacked : bool
          then extract_members archive_path destination expected_size expected_files members' size files
          else fail (rpc_error "INVALID_ARTIFACT_PATH" ("archive path escapes destination: " +:+ display path))
  end.

(** [extract_relay_archive] *)
Definition extract_relay_archive (archive_path destination : Path) (expected_size expected_files : Z)
    : M Volume RpcError unit :=
  let* data := io_error "ARTIFACT_TRANSFER_FAILED" archive_path (Fs.read archive_path) in
  match unpack data with
  | None => fail (rpc_error "ARTIFACT_TRANSFER_FAILED" (display archive_path +:+ ": "))
  | Some members =>
      let* counted := extract_members archive_path destination expected_size expected_files members 0 0 in
      let '(size, files) := counted in
      if negb (files =? expected_files) || negb (size =? expected_size)
      then fail (rpc_error "ARTIFACT_ARCHIVE_CONTENT_MISMATCH"
                   ("expected " +:+ pretty expected_files +:+ " files/" +:+ pretty expected_size +:+ " bytes, got "
                    +:+ pretty files +:+ " files/" +:+ pretty size +:+ " bytes"))
      else ret tt
  end.

(** [commit_relay_staging] *)
Definition commit_relay_staging (destination staging : Path) : M Volume RpcError unit :=
  let* uuid := new_v4 in
  let backup := with_extension destination ("machine-fabric-backup-" +:+ uuid) in
  let* present := Fs.exists_ destination in
  (if present : bool
   then io_error "ARTIFACT_TRANSFER_FAILED" destination (Fs.rename destination backup) else ret tt) ;;
  let* placed := attempt (Fs.rename staging destination) in
  match placed with
  | Err _ =>
      let* saved := Fs.exists_ backup in
      (if saved : bool
       then let* _ := attempt (F := RpcError) (Fs.rename backup destination) in ret tt else ret tt) ;;
      fail (rpc_error "ARTIFACT_TRANSFER_FAILED" (display destination +:+ ": "))
  | Ok _ =>
      let* remains := Fs.exists_ backup in
      if remains : bool then io_error "ARTIFACT_TRANSFER_FAILED" backup (Fs.remove_dir_all backup) else ret tt
  end.

Definition required_u64 (params : Value) (key : string) : result RpcError Z :=
  ok_or (vget key params ≫= as_u64) (rpc_error "INVALID_PARAMS" (key +:+ " is required")).

Definition commit_answer (destination : Path) (digest : string) (size files : Z) : Value :=
  obj_of [("destination", VString (display destination)); ("digest", VString digest); ("size", vu64 size); ("files", vu64 files)].

Definition digest_mismatch (expected digest : string) : RpcError :=
  rpc_error "ARTIFACT_DIGEST_MISMATCH" ("expected " +:+ expected +:+ ", got " +:+ digest).

(** The end of [artifact.relay.archive.commit]: the archive is extracted, digested and put in place *)
Definition land_archive (rt : ExecutorRuntime) (destination staging archive_path : Path) (expected : string)
    (expected_size expected_files : Z) : M Volume RpcError Value :=
  let extracted := join staging ["extracted"] in
  io_error "ARTIFACT_TRANSFER_FAILED" extracted (Fs.create_dir extracted) ;;
  extract_relay_archive archive_path extracted expected_size expected_files ;;
  let* digested := runtime_digest_tree rt extracted in
  let '(digest, size, files) := digested in
  if negb (String.eqb digest expected) then fail (digest_mismatch expected digest)
  else
    commit_relay_staging destination extracted ;;
    let* _ := attempt (F := RpcError) (Fs.remove_file archive_path) in
    let* _ := attempt (F := RpcError) (Fs.remove_dir staging) in
    ret (commit_answer destination digest size files).

(** [artifact.relay.archive.commit] *)
Definition archive_commit (rt : ExecutorRuntime) (params : Value) : M Volume RpcError Value :=
  let* destination := write_path rt params "destination" false in
  let* staging := write_path rt params "staging" true in
  let* expected := lift (required_str params "expectedDigest") in
  let* expected_archive_size := lift (required_u64 params "archiveSize") in
  let* expected_size := lift (required_u64 params "size") in
  let* expected_files := lift (required_u64 params "files") in
  let* archive_path := checked_text rt (display (join staging ["payload.tar.gz"])) true Read in
  if negb (within archive_path staging)
  then fail (rpc_error "INVALID_ARTIFACT_PATH" "archive escapes staging")
  else
    let* metadata := io_error "ARTIFACT_TRANSFER_FAILED" archive_path (Fs.metadata archive_path) in
    if negb (metadata_len metadata =? expected_archive_size)
    then fail (rpc_error "ARTIFACT_ARCHIVE_SIZE_MISMATCH"
                 ("expected " +:+ pretty expected_archive_size +:+ " archive bytes, got " +:+ pretty (metadata_len metadata)))
    else land_archive rt destination staging archive_path expected expected_size expected_files.

(** ** The relay file by file, for executors without archives *)

(** [artifact.relay.manifest] *)
Definition relay_manifest_action (rt : ExecutorRuntime) (params : Value) : M Volume RpcError Value :=
  let* source := read_path rt params "path" true in
  let* digested := runtime_digest_tree rt source in
  let '(digest, size, files) := digested in
  let* entries := relay_manifest fuel source [] in
  ret (obj_of [("path", VString (display source)); ("entries", VArray entries); ("digest", VString digest);
               ("size", vu64 size); ("files", vu64 files)]).

(** [artifact.relay.read] *)
Definition relay_read (rt : ExecutorRuntime) (params : Value) : M Volume RpcError Value :=
  let* source := read_path rt params "path" true in
  let* relative_text := lift (required_str params "relativePath") in
  let* relative := lift (safe_relative relative_text) in
  let* path := checked_text rt (display (join_path source relative)) true Read in
  if negb (within path source)
  then fail (rpc_error "INVALID_ARTIFACT_PATH" "relative path escapes artifact")
  else
    let offset := default 0 (vget "offset" params ≫= as_u64) in
    let limit := Z.min (default 1048576 (vget "limit" params ≫= as_u64)) 4194304 in
    let* bytes := io_error "ARTIFACT_READ_FAILED" path (read_at path offset limit) in
    ret (obj_of [("relativePath", VString relative_text); ("offset", vu64 offset); ("data", VString (b64_encode bytes));
                 ("bytes", vu64 (str_len bytes)); ("eof", VBool (str_len bytes <? limit))]).

(** One entry of [artifact.relay.prepare] *)
Definition prepare_entry (staging : Path) (entry : Value) : M Volume RpcError unit :=
  let* text := lift (required_str entry "path") in
  let* relative := lift (safe_relative text) in
  let path := join_path staging relative in
  let* kind := lift (required_str entry "kind") in
  if String.eqb kind "directory" then io_error "ARTIFACT_TRANSFER_FAILED" path (Fs.create_dir_all path)
  else if String.eqb kind "file" then
    match path_parent path with
    | Some parent => io_error "ARTIFACT_TRANSFER_FAILED" parent (Fs.create_dir_all parent)
    | None => ret tt
    end ;;
    let* _ := io_error "ARTIFACT_TRANSFER_FAILED" path (Fs.open_truncate 438 path) in
    ret tt
  else fail (rpc_error "INVALID_ARTIFACT" "relay supports files and directories only").

(** [artifact.relay.prepare] *)
Definition relay_prepare (rt : ExecutorRuntime) (params : Value) : M Volume RpcError Value :=
  let* destination := write_path rt params "destination" false in
  let* staging := write_path rt params "staging" false in
  fresh_staging staging ;;
  let* entries := lift (ok_or (vget "entries" params ≫= as_array)
                          (rpc_error "INVALID_PARAMS" "entries are required")) in
  for_each entries (prepare_entry staging) ;;
  ret (obj_of [("destination", VString (display destination)); ("staging", VString (display staging))]).

(** [artifact.relay.write] *)
Definition relay_write (rt : ExecutorRuntime) (params : Value) : M Volume RpcError Value :=
  let* staging := write_path rt params "staging" true in
  let* relative_text := lift (required_str params "relativePath") in
  let* relative := lift (safe_relative relative_text) in
  let* path := checked_text rt (display (join_path staging relative)) true Write in
  if negb (within path staging)
  then fail (rpc_error "INVALID_ARTIFACT_PATH" "relative path escapes staging")
  else
    let* offset := lift (required_offset params) in
    let* bytes := lift (required_data params) in
    io_error "ARTIFACT_TRANSFER_FAILED" path (write_chunk path offset bytes) ;;
    ret (obj_of [("relativePath", VString relative_text); ("offset", vu64 offset); ("bytes", vu64 (str_len bytes))]).

(** [artifact.relay.commit], whose exchange is that of [commit_relay_staging] *)
Definition relay_commit (rt : ExecutorRuntime) (params : Value) : M Volume RpcError Value :=
  let* destination := write_path rt params "destination" false in
  let* staging := write_path rt params "staging" true in
  let* expected := lift (required_str params "expectedDigest") in
  let* digested := runtime_digest_tree rt staging in
  let '(digest, size, files) := digested in
  if negb (String.eqb digest expected) then fail (digest_mismatch expected digest)
  else
    commit_relay_staging destination staging ;;
    ret (commit_answer destination digest size files).

End Relay.
