(* ===== verification/RelaySafety.v ===== *)
(** * Artifact relay: the commit

    A commit exchanges the received tree with the destination by two renames.
    It succeeds only for a tree with the expected digest, and the old tree is
    never lost. *)
From stdpp Require Import base gmap strings list sorting pretty.
From S2P Require Import Prelude Json Protocol PathPolicy FileTree FileTreeLaws Generations Controller TreeDigest ArtifactRelay.
Open Scope Z_scope.
Open Scope fabric_scope.

Section Commit.
Context (dp : place) (n b : string) (st : place) (Hnb : n <> b).

Definition dest : place := dp ++ [n].
Definition backup : place := dp ++ [b].

(** The destination holds the old or the new tree, or the old one waits under the backup name. *)
Definition commit_moment (old new t : Tree) : Prop :=
  subtree dest t = old \/ subtree dest t = new \/ (vacant t dest /\ subtree backup t = old).

(** A commit that succeeds has put the new tree in place. *)
Definition committed (old new : Tree) (r : result RpcError unit) (t : Tree) : Prop :=
  match r with Ok _ => subtree dest t = new | Err _ => commit_moment old new t end.

(** The received tree is apart from the destination and from the backup. *)
Record apart : Prop := mk_apart {
  ap_dest : below dest st = None;
  ap_dest' : below st dest = None;
  ap_backup : below backup st = None;
  ap_backup' : below st backup = None;
}.
Context (Hap : apart).

Lemma dest_backup q : below dest (backup ++ q) = None.
Proof. unfold dest, backup. rewrite <- app_assoc. by apply below_sibling. Qed.
Lemma backup_dest q : below backup (dest ++ q) = None.
Proof. unfold dest, backup. rewrite <- app_assoc. by apply below_sibling. Qed.
Lemma at_no_tail (f : place -> option place) p : (forall q, f (p ++ q) = None) -> f p = None.
Proof. intros H. specialize (H []). by rewrite app_nil_r in H. Qed.

Lemma commit_clear t t' : agree [dest; backup; st] t t' -> clear t dp -> dir_at t dp = true -> below st dp = None -> clear t' dp /\ dir_at t' dp = true.
Proof.
  intros Ha Hc Hd Hst. assert (forall q, q `prefix_of` dp -> dir_at t' q = dir_at t q) as H.
  { intros q Hq. unfold dir_at. rewrite Ha; [done|]. unfold outside. rewrite !Forall_cons. split_and!; [by apply below_above|by apply below_above| |constructor].
    apply below_prefix. apply below_prefix in Hst. intros Hs. apply Hst. by etrans. }
  split; [intros q Hq Hne; rewrite H by done; by apply Hc|by rewrite H].
Qed.

Lemma tree_at_agree ps t t' p : agree ps t t' -> (forall q, outside ps (p ++ q)) -> subtree p t' = subtree p t.
Proof. intros Ha Ho. apply map_eq. intros q. rewrite !lookup_subtree. apply Ha, Ho. Qed.

(** A directory at its place, that can be renamed away or removed. *)
Definition site (t : Tree) : Prop := clear t dp /\ dir_at t dp = true /\ below st dp = None.
Lemma site_dest t : site t -> clear t dest.
Proof. intros (? & ? & _). by apply clear_snoc. Qed.
Lemma site_backup t : site t -> clear t backup.
Proof. intros (? & ? & _). by apply clear_snoc. Qed.
Lemma site_agree ps t t' : agree ps t t' -> Forall (fun p' => Exists (fun p => p `prefix_of` p') [dest; backup; st]) ps -> site t -> site t'.
Proof.
  intros Ha Hp (Hc & Hd & Hs). destruct (commit_clear t t') as [? ?]; [by eapply agree_mono|done..|]. by split.
Qed.

(** The end of a commit: the old tree is under the backup name, or was never there. *)
Lemma place_received had old new v w r v' w' :
  site (vol_tree v) -> clear (vol_tree v) st -> subtree st (vol_tree v) = new ->
  (if had : bool then vacant (vol_tree v) dest /\ subtree backup (vol_tree v) = old
   else subtree dest (vol_tree v) = old /\ vacant (vol_tree v) backup) ->
  (let* placed := attempt (Fs.rename (at_ st) (at_ dest)) in
   match placed with
   | Err _ =>
       let* saved := Fs.exists_ (at_ backup) in
       (if saved : bool
        then let* _ := attempt (F := RpcError) (Fs.rename (at_ backup) (at_ dest)) in ret tt else ret tt) ;;
       fail (rpc_error "ARTIFACT_TRANSFER_FAILED" (display (at_ dest) +:+ ": "))
   | Ok _ =>
       let* remains := Fs.exists_ (at_ backup) in
       if remains : bool then io_error "ARTIFACT_TRANSFER_FAILED" (at_ backup) (Fs.remove_dir_all (at_ backup)) else ret tt
   end) v w = (r, v', w') ->
  passes (commit_moment old new) v v' /\ committed old new r (vol_tree v') /\ only [dest; backup; st] v v'.
Proof.
  intros Hsite Hcst Hnew Hold H. apply bind_cases in H as (r1 & v1 & w1 & H1 & H). apply attempt_cases in H1 as (r0 & -> & H1).
  apply rename_at in H1; [|done|by apply site_dest]. destruct H1 as [(k & -> & ->)|(t & Ht & -> & ->)].
  - apply bind_cases in H as (r2 & v2 & w2 & H2 & H). apply test_cases in H2 as (k2 & H2 & ->). apply ask_cases in H2 as [-> H2].
    apply bind_cases in H as (r3 & v3 & w3 & H3 & H).
    assert (passes (commit_moment old new) v v3 /\ commit_moment old new (vol_tree v3) /\ only [dest; backup; st] v v3) as (P & Mo & O).
    { assert (commit_moment old new (vol_tree v)) as M0 by (destruct had; [right; by right|by left; destruct Hold]).
      destruct (match k2 with Ok _ => true | Err _ => false end) eqn:E2.
      2:{ unfold ret in H3. injection H3 as _ <- _. split_and!; [apply passes_refl|done|apply only_refl]. }
      apply bind_cases in H3 as (r4 & v4 & w4 & H4 & H3). apply attempt_cases in H4 as (k4 & -> & H4). unfold ret in H3. injection H3 as _ <- _.
      apply rename_at in H4; [|by apply site_backup|by apply site_dest]. destruct H4 as [(k4' & _ & ->)|(t & Ht & _ & ->)]; [split_and!; [apply passes_refl|done|apply only_refl]|].
      destruct had.
      - apply rename_tree_ok in Ht as (_ & _ & _ & -> & _); [|intros E; pose proof (at_no_tail (below backup) _ backup_dest) as Hx; by rewrite E, below_self in Hx].
        destruct Hold as [_ Hb]. assert (commit_moment old new (graft dest (subtree backup (vol_tree v)) (prune backup (vol_tree v)))) as M1 by (left; by rewrite subtree_graft).
        split_and!; [by apply passes_log|done|]. apply only_log. eapply agree_mono; [|apply agree_rename].
        constructor; [right; by left|]. constructor; [by left|constructor].
      - exfalso. destruct k2 as [e|]; [|done]. specialize (H2 _ eq_refl). destruct Hold as [_ Hv].
        assert (vol_tree v !! backup = None) as Hn by (specialize (Hv []); by rewrite app_nil_r in Hv).
        rewrite entry_clear, Hn in H2; [done|by apply site_backup|unfold is_link_at; by rewrite Hn]. }
    assert (exists e, r = Err e /\ v' = v3) as (e & -> & ->).
    { destruct r3; [unfold fail in H; simplify_eq; by eexists|destruct H as (-> & -> & _); by eexists]. }
    by split_and!.
  - apply rename_tree_ok in Ht as (_ & _ & _ & -> & _); [|intros E; pose proof (ap_dest' Hap) as Hx; by rewrite E, below_self in Hx].
    set (v2 := log v _) in H. assert (subtree dest (vol_tree v2) = new) as Hr by (unfold v2; cbn; by rewrite subtree_graft).
    assert (only [dest; backup; st] v v2) as O2.
    { apply only_log. eapply agree_mono; [|apply agree_rename]. constructor; [do 2 right; by left|]. constructor; [by left|constructor]. }
    assert (site (vol_tree v2)) as Hsite2.
    { eapply site_agree; [by eapply only_agree| |done]. constructor; [by left|]. constructor; [right; by left|]. constructor; [do 2 right; by left|constructor]. }
    apply bind_cases in H as (r3 & v3 & w3 & H3 & H). apply test_cases in H3 as (k3 & H3 & ->). apply ask_cases in H3 as [-> _].
    assert (only [backup] v2 v' /\ subtree dest (vol_tree v') = new) as [O3 Hr'].
    { assert (only [backup] v2 v') as O.
      { destruct (match k3 with Ok _ => true | Err _ => false end); [|unfold ret in H; simplify_eq; apply only_refl].
        apply with_err_cases in H as (k4 & H & _). apply remove_dir_all_only in H; [done|by apply site_backup]. }
      split; [done|]. rewrite <- Hr. eapply tree_at_agree; [by eapply only_agree|]. intros q. apply outside_one, backup_dest. }
    split_and!.
    + eapply passes_trans; [apply passes_log; right; left; exact Hr|]. eapply only_passes; [|exact O3]. intros t Ht. right. left.
      rewrite <- Hr. eapply tree_at_agree; [exact Ht|]. intros q. apply outside_one, backup_dest.
    + destruct r; [done|]. right. by left.
    + etrans; [exact O2|]. eapply only_mono; [|exact O3]. constructor; [right; by left|constructor].
Qed.

End Commit.

(** ** The exchange of [commit_relay_staging] *)

Definition backup_name (n uuid : string) : string := file_stem n +:+ "." +:+ "machine-fabric-backup-" +:+ uuid.

Lemma with_extension_at dp n ext : with_extension (at_ (dp ++ [n])) ext = at_ (dp ++ [file_stem n +:+ "." +:+ ext]).
Proof.
  unfold with_extension, at_. cbn. rewrite fmap_app, rev_app_distr. cbn. by rewrite rev_involutive, fmap_app.
Qed.

Lemma commit_relay_spec dp n st v w r v' w' :
  let b := backup_name n (peek (w_uuid w)) in
  n <> b -> apart dp n b st -> site dp st (vol_tree v) -> clear (vol_tree v) st -> vacant (vol_tree v) (dp ++ [b]) ->
  commit_relay_staging (at_ (dp ++ [n])) (at_ st) v w = (r, v', w') ->
  let old := subtree (dp ++ [n]) (vol_tree v) in
  let new := subtree st (vol_tree v) in
  passes (commit_moment dp n b old new) v v' /\ committed dp n b old new r (vol_tree v') /\
  only [dp ++ [n]; dp ++ [b]; st] v v'.
Proof.
  intros b Hnb Hap Hsite Hcst Hvac H old new. unfold commit_relay_staging in H.
  apply bind_cases in H as (r0 & v0 & w0 & H0 & H). unfold new_v4 in H0. injection H0 as <- <- <-. rewrite with_extension_at in H. fold (backup_name n (peek (w_uuid w))) in H. fold b in H.
  apply bind_cases in H as (r1 & v1 & w1 & H1 & H). apply test_cases in H1 as (k1 & H1 & ->). apply ask_cases in H1 as [-> _].
  apply bind_cases in H as (r2 & v2 & w2 & H2 & H). destruct (match k1 with Ok _ => true | Err _ => false end).
  - apply with_err_cases in H2 as (k2 & H2 & ->). apply rename_at in H2; [|by eapply site_dest|by eapply site_backup].
    destruct H2 as [(k & -> & ->)|(t & Ht & -> & ->)]; [destruct H as (-> & -> & _); split_and!; [apply passes_refl|by left|apply only_refl]|].
    apply rename_tree_ok in Ht as (_ & _ & _ & -> & _); [|intros E; by apply app_inj_tail in E as [_ ?]].
    cbn [map_err] in H. set (v2 := log v _) in H. assert (agree [dp ++ [n]; dp ++ [b]] (vol_tree v) (vol_tree v2)) as A2 by apply agree_rename.
    assert (vacant (vol_tree v2) (dp ++ [n]) /\ subtree (dp ++ [b]) (vol_tree v2) = old) as Hsaved.
    { unfold v2. cbn. split; [intros q; apply rename_gone, (backup_dest dp n b Hnb)|by rewrite subtree_graft]. }
    assert (outside [dp ++ [n]; dp ++ [b]] st) as Hout by (unfold outside; rewrite !Forall_cons; split_and!; [apply Hap|apply Hap|constructor]).
    eapply (place_received dp n b st Hnb Hap true old new) in H as (P & C & O).
    + split_and!; [|done|]; [eapply passes_trans; [apply passes_log; right; by right|exact P]|].
      etrans; [|exact O]. apply only_log. eapply agree_mono; [|exact A2]. constructor; [by left|]. constructor; [right; by left|constructor].
    + eapply (site_agree dp n b st); [exact A2| |done]. constructor; [by left|]. constructor; [right; by left|constructor].
    + by eapply clear_outside.
    + eapply tree_at_agree; [exact A2|]. intros q. unfold outside. rewrite !Forall_cons. split_and!; [apply below_apart; apply Hap|apply below_apart; apply Hap|constructor].
    + done.
  - unfold ret in H2. injection H2 as <- <- <-. by eapply (place_received dp n b st Hnb Hap false old new) in H.
Qed.

(** ** Trees of the operating system, and what the archiver may do *)

Record tree_ok (t : Tree) : Prop := mk_tree_ok { ok_wf : tree_wf t; ok_named : named t }.

Class ArchiverLaws `{Archiver} : Prop := {
  (** a member is unpacked below the directory, which stays *)
  unpack_in_only m d v w r v' w' :
    tree_ok (vol_tree v) -> clear (vol_tree v) d -> dir_at (vol_tree v) d = true ->
    unpack_in m (at_ d) v w = (r, v', w') -> only [d] v v' /\ dir_at (vol_tree v') d = true /\ tree_ok (vol_tree v');
  b64_round_trip bytes : b64_decode (b64_encode bytes) = Some bytes;
}.

Section Archive.
Context `{ArchiverLaws} (sha256_hex : string -> string) (torn : string -> string) (fuel : nat).

Lemma extract_members_only archive_path d es ef members size files v w r v' w' :
  tree_ok (vol_tree v) -> clear (vol_tree v) d -> dir_at (vol_tree v) d = true ->
  extract_members archive_path (at_ d) es ef members size files v w = (r, v', w') ->
  only [d] v v' /\ dir_at (vol_tree v') d = true /\ tree_ok (vol_tree v').
Proof.
  revert size files v w. induction members as [|[m|] members IH]; intros size files v w Hok Hc Hd Hrun; cbn [extract_members] in Hrun.
  - unfold ret in Hrun. simplify_eq. split_and!; [apply only_refl|done..].
  - assert (forall e, (fail e : M Volume RpcError (Z * Z)) v w = (r, v', w') -> only [d] v v' /\ dir_at (vol_tree v') d = true /\ tree_ok (vol_tree v')) as Hfail.
    { intros e He. unfold fail in He. simplify_eq. split_and!; [apply only_refl|done..]. }
    assert (forall k, (let* unpacked := io_error "ARTIFACT_TRANSFER_FAILED" (at_ d) (unpack_in m (at_ d)) in
        if unpacked : bool then k else fail (rpc_error "INVALID_ARTIFACT_PATH" ("archive path escapes destination: " +:+ display (member_path m)))) v w = (r, v', w') ->
        (forall v1 w1, tree_ok (vol_tree v1) -> clear (vol_tree v1) d -> dir_at (vol_tree v1) d = true -> k v1 w1 = (r, v', w') ->
           only [d] v1 v' /\ dir_at (vol_tree v') d = true /\ tree_ok (vol_tree v')) ->
        only [d] v v' /\ dir_at (vol_tree v') d = true /\ tree_ok (vol_tree v')) as Hstep.
    { intros k Hk Hrest. apply bind_cases in Hk as (r1 & v1 & w1 & H1 & Hk). apply with_err_cases in H1 as (k1 & H1 & ->).
      apply unpack_in_only in H1 as (O1 & Hd1 & Hok1); [|done..].
      destruct k1 as [[]|]; cbn [map_err] in Hk.
      - apply Hrest in Hk as (O & ? & ?); [|done|by eapply clear_self; [eapply only_agree|]|done]. split_and!; [by etrans|done..].
      - unfold fail in Hk. simplify_eq. done.
      - destruct Hk as (_ & -> & _). done. }
    destruct m as [p data|p|p]; [| |by eapply Hfail]; cbn [member_path] in *; (destruct (_ || _) in Hrun; [by eapply Hfail|]).
    + destruct (_ && _) in Hrun; [by eapply Hfail|]. eapply Hstep; [exact Hrun|]. intros v1 w1 Hok1 Hc1 Hd1 Hr1. by eapply IH.
    + eapply Hstep; [exact Hrun|]. intros v1 w1 Hok1 Hc1 Hd1 Hr1. by eapply IH.
  - unfold fail in Hrun. simplify_eq. split_and!; [apply only_refl|done..].
Qed.

Lemma extract_only archive_path d es ef v w r v' w' :
  tree_ok (vol_tree v) -> clear (vol_tree v) d -> dir_at (vol_tree v) d = true ->
  extract_relay_archive archive_path (at_ d) es ef v w = (r, v', w') ->
  only [d] v v' /\ dir_at (vol_tree v') d = true /\ tree_ok (vol_tree v').
Proof.
  intros Hok Hc Hd Hrun. unfold extract_relay_archive in Hrun. apply bind_cases in Hrun as (r1 & v1 & w1 & H1 & Hrun).
  apply with_err_cases in H1 as (k1 & H1 & ->). apply ask_cases in H1 as [-> _].
  destruct k1 as [data|]; cbn [map_err] in Hrun; [|destruct Hrun as (_ & -> & _); split_and!; [apply only_refl|done..]].
  destruct (unpack data) as [members|]; [|unfold fail in Hrun; simplify_eq; split_and!; [apply only_refl|done..]].
  apply bind_cases in Hrun as (r2 & v2 & w2 & H2 & Hrun). apply extract_members_only in H2 as (O & Hd2 & Hok2); [|done..].
  assert (v' = v2) as ->; [|done]. destruct r2 as [[size files]|]; [|by destruct Hrun as (_ & -> & _)].
  destruct (_ || _) in Hrun; [unfold fail in Hrun|unfold ret in Hrun]; by simplify_eq.
Qed.

Lemma ensure_readable_inert fuel' rt p : inert (ensure_tree_readable fuel' rt p).
Proof.
  revert p. induction fuel' as [|fuel' IH]; intros p; [apply inert_fail|]. cbn [ensure_tree_readable].
  apply inert_bind; [by apply inert_with_err, inert_ask|]. intros names. induction names as [|name names IHn]; [apply inert_ret|].
  cbn [for_each]. apply inert_bind; [|intros _; exact IHn]. apply inert_bind.
  - unfold read_path_denied. destruct (desktop_policy rt); [|apply inert_ret]. destruct (is_err _); [apply inert_ret|].
    apply inert_bind; [intros v w r v' w' E; unfold get in E; by simplify_eq|]. intros v.
    apply inert_bind; [intros v0 w r v' w' E; unfold lift in E; by simplify_eq|]. intros q. apply inert_ret.
  - intros []; [apply inert_fail|]. apply inert_bind; [by apply inert_with_err, inert_ask|]. intros e. destruct (entry_is_dir e); [apply IH|apply inert_ret].
Qed.

Lemma runtime_digest_spec rt root v w r v' w' :
  digestible (vol_tree v) root -> runtime_digest_tree sha256_hex fuel rt (at_ root) v w = (r, v', w') ->
  v' = v /\ forall d size n, r = Ok (d, size, n) ->
    let s := subtree root (vol_tree v) in
    d = "sha256:" +:+ sha256_hex (tree_text s) /\ size = Z.min (tree_size s) U64_MAX /\ n = Z.of_nat (length (leaves s)).
Proof.
  intros Hdg Hrun. unfold runtime_digest_tree in Hrun. apply bind_cases in Hrun as (r1 & v1 & w1 & H1 & Hrun).
  assert (v1 = v) as ->. { destruct (desktop_policy rt); [by eapply ensure_readable_inert|unfold ret in H1; by simplify_eq]. }
  destruct r1; [|destruct Hrun as (-> & -> & _); by split]. assert (v' = v) as ->.
  { unfold digest_tree in Hrun. apply bind_cases in Hrun as (r2 & v2 & w2 & H2 & Hrun). apply collect_inert in H2 as ->.
    destruct r2; [|by destruct Hrun as (_ & -> & _)]. apply bind_cases in Hrun as (r3 & v3 & w3 & H3 & Hrun). apply digest_entries_inert in H3 as ->.
    destruct r3; [unfold ret in Hrun; by simplify_eq|by destruct Hrun as (_ & -> & _)]. }
  split; [done|]. intros d size n ->. destruct Hdg. by apply digest_tree_spec in Hrun as (_ & ? & ? & ?).
Qed.

Definition has_digest (expected : string) (s : Tree) : Prop := expected = "sha256:" +:+ sha256_hex (tree_text s).

(** The destination holds what it held, or a tree with the expected digest, or what it held waits under the backup name. *)
Definition never_lost (dp : place) (n b : string) (expected : string) (old t : Tree) : Prop :=
  subtree (dp ++ [n]) t = old \/ has_digest expected (subtree (dp ++ [n]) t) \/ (vacant t (dp ++ [n]) /\ subtree (dp ++ [b]) t = old).

(** A directory with names of the operating system *)
Definition delivered (s : Tree) : Prop := named s /\ s !! [] ≫= leaf_content = None.

(** A success leaves a tree with the expected digest at the destination, and no moment loses the old one;
    nothing but the destination, its backup and the staging directory changes. *)
Definition landed (dp : place) (n : string) (sg : place) (expected : string) (v : Volume) (r : result RpcError Value) (v' : Volume) : Prop :=
  exists uuid, let b := backup_name n uuid in
  let old := subtree (dp ++ [n]) (vol_tree v) in
  let now := subtree (dp ++ [n]) (vol_tree v') in
  passes (never_lost dp n b expected old) v v' /\ agree [dp ++ [n]; dp ++ [b]; sg] (vol_tree v) (vol_tree v') /\
  match r with
  | Ok answer =>
      has_digest expected now /\ delivered now /\
      answer = commit_answer (at_ (dp ++ [n])) expected (Z.min (tree_size now) U64_MAX) (Z.of_nat (length (leaves now)))
  | Err _ => never_lost dp n b expected old (vol_tree v')
  end.

Lemma moment_never_lost dp n b expected old new t :
  has_digest expected new -> commit_moment dp n b old new t -> never_lost dp n b expected old t.
Proof. intros Hd [Ht|[Ht|Ht]]; [by left| |by right; right]. right. left. unfold dest in Ht. by rewrite Ht. Qed.
Lemma moments_never_lost dp n b expected old new v v' :
  has_digest expected new -> passes (commit_moment dp n b old new) v v' -> passes (never_lost dp n b expected old) v v'.
Proof. intros Hd. apply passes_impl. intros t. by apply moment_never_lost. Qed.

Lemma landed_refused dp n sg expected v e v' : only [sg] v v' -> below sg (dp ++ [n]) = None -> below (dp ++ [n]) sg = None -> landed dp n sg expected v (Err e) v'.
Proof.
  intros O Hb Hb'. exists "". assert (forall t, agree [sg] (vol_tree v) t -> subtree (dp ++ [n]) t = subtree (dp ++ [n]) (vol_tree v)) as Hs.
  { intros t Ht. eapply tree_at_agree; [exact Ht|]. intros q. by apply outside_one, below_apart. }
  split_and!.
  - eapply only_passes; [|exact O]. intros t Ht. left. by apply Hs.
  - eapply agree_mono; [|by eapply only_agree]. constructor; [do 2 right; by left|constructor].
  - left. by apply Hs, only_agree.
Qed.

(** Where an artifact can land: the destination and the staging directory are reached without links,
    neither is inside the other, and no backup is left over. *)
Record landing (dp : place) (n : string) (sg : place) (t : Tree) : Prop := mk_landing {
  ld_tree : tree_ok t;
  ld_parent : clear t dp;
  ld_parent_dir : dir_at t dp = true;
  ld_staging : clear t sg;
  ld_staging_dir : dir_at t sg = true;
  ld_apart : below (dp ++ [n]) sg = None;
  ld_apart' : below sg (dp ++ [n]) = None;
  ld_name : forall uuid, n <> backup_name n uuid;
  ld_backup : forall uuid, vacant t (dp ++ [backup_name n uuid]);
}.

Lemma landing_parent dp n sg t : landing dp n sg t -> below sg dp = None.
Proof. intros [_ _ _ _ _ _ Hb _ _]. apply below_prefix. apply below_prefix in Hb. intros Hp. apply Hb. by apply prefix_app_r. Qed.
Lemma landing_backup dp n sg t uuid :
  landing dp n sg t -> let b := dp ++ [backup_name n uuid] in below b sg = None /\ below sg b = None.
Proof.
  intros Hl b. pose proof (landing_parent _ _ _ _ Hl) as Hp. pose proof (ld_backup _ _ _ _ Hl uuid) as Hv. split.
  - eapply vacant_apart; [exact Hv|]. destruct (dir_at_Some _ _ (ld_staging_dir _ _ _ _ Hl)) as [m Hm]. by exists (EDir m).
  - apply below_prefix. intros [E|Hq]%prefix_snoc_inv; [|by apply below_prefix in Hp].
    pose proof (ld_staging_dir _ _ _ _ Hl) as Hd. unfold dir_at in Hd. rewrite E in Hd. specialize (Hv []). rewrite app_nil_r in Hv. by rewrite Hv in Hd.
Qed.

(** What changes below the staging directory keeps the site of the commit. *)
Lemma landing_site dp n sg t t' uuid :
  let b := backup_name n uuid in let ex := sg ++ ["extracted"] in
  landing dp n sg t -> agree [sg] t t' -> apart dp n b ex /\ site dp ex t' /\ vacant t' (dp ++ [b]).
Proof.
  intros b ex Hl Ha. pose proof (landing_parent _ _ _ _ Hl) as Hp. destruct (landing_backup _ _ _ _ uuid Hl) as [Hb1 Hb2].
  pose proof (ld_apart _ _ _ _ Hl) as Hd1. pose proof (ld_apart' _ _ _ _ Hl) as Hd2.
  split_and!; [split; [by apply below_apart|by apply below_deeper|by apply below_apart|by apply below_deeper]|unfold site; split_and!|].
  - eapply clear_outside; [exact Ha|by apply outside_one|apply Hl].
  - unfold dir_at. rewrite Ha; [apply (ld_parent_dir _ _ _ _ Hl)|by apply outside_one].
  - by apply below_deeper.
  - intros q. rewrite Ha; [apply (ld_backup _ _ _ _ Hl)|]. by apply outside_one, below_apart.
Qed.

Lemma named_insert t p e : named t -> forallb good_name p = true -> named (<[p := e]> t).
Proof. intros Hn Hp q e'. rewrite lookup_insert. case_decide as Hd; [by subst q|apply Hn]. Qed.

(** The extracted directory: made below the staging directory, filled, and digestible. *)
Lemma extracted_tree dp n sg ap es ef v w u v2 w2 :
  let ex := sg ++ ["extracted"] in
  landing dp n sg (vol_tree v) ->
  (io_error "ARTIFACT_TRANSFER_FAILED" (at_ ex) (Fs.create_dir (at_ ex)) ;; extract_relay_archive ap (at_ ex) es ef) v w = (u, v2, w2) ->
  only [sg] v v2 /\ (u = Ok tt -> digestible (vol_tree v2) ex).
Proof.
  intros ex Hl Hrun. apply bind_cases in Hrun as (r1 & v1 & w1 & H1 & Hrun). apply with_err_cases in H1 as (k1 & H1 & ->).
  assert (forall a c, only [ex] a c -> only [sg] a c) as Hup. { intros a c. apply only_mono. constructor; [left; by apply prefix_app_r|constructor]. }
  assert (clear (vol_tree v) ex) as Hcex by (apply clear_snoc; split; [apply (ld_staging _ _ _ _ Hl)|apply (ld_staging_dir _ _ _ _ Hl)]).
  apply create_dir_at in H1; [|done]. destruct H1 as [(k & -> & ->)|(m & -> & Hn & ->)]; [destruct Hrun as (-> & -> & _); split; [apply only_refl|done]|].
  cbn [map_err] in Hrun. set (v1 := log v _) in Hrun. assert (only [ex] v v1) as O1 by apply only_log, agree_insert.
  assert (tree_ok (vol_tree v1)) as Hok1.
  { destruct (ld_tree _ _ _ _ Hl) as [Hw Hnm]. destruct (dir_at_Some _ _ (ld_staging_dir _ _ _ _ Hl)) as [ms Hms].
    split; [by apply wf_insert_dir|]. apply named_insert; [done|]. unfold ex. rewrite forallb_app. rewrite (Hnm _ _ Hms). done. }
  assert (clear (vol_tree v1) ex) as Hc1 by (eapply clear_self; [by eapply only_agree|done]).
  apply extract_only in Hrun as (O2 & Hd2 & Hok2); [|done|done|unfold v1, dir_at; cbn; by rewrite lookup_insert_eq].
  split; [apply Hup; by etrans|]. intros ->. split; [eapply clear_self; [by eapply only_agree|done]|done|apply rooted_wf, Hok2|].
  intros q e He. rewrite lookup_subtree in He. apply (ok_named _ Hok2) in He. rewrite forallb_app in He. by bool_prop.
Qed.

(** The archive and the staging directory are removed as far as possible. *)
Lemma cleanup_staging sg v w (answer : Value) (r : result RpcError Value) v' w' :
  clear (vol_tree v) sg -> dir_at (vol_tree v) sg = true ->
  (let* _ := attempt (F := RpcError) (Fs.remove_file (at_ (sg ++ ["payload.tar.gz"]))) in
   let* _ := attempt (F := RpcError) (Fs.remove_dir (at_ sg)) in ret answer) v w = (r, v', w') ->
  r = Ok answer /\ only [sg] v v'.
Proof.
  intros Hc Hd Hrun. apply bind_cases in Hrun as (r1 & v1 & w1 & H1 & Hrun). apply attempt_cases in H1 as (k1 & -> & H1).
  assert (only [sg ++ ["payload.tar.gz"]] v v1) as O1.
  { apply remove_file_at in H1; [|by apply clear_snoc]. destruct H1 as [(k & _ & ->)|(_ & ->)]; [apply only_refl|apply only_log, agree_delete]. }
  assert (only [sg] v v1) as O1'. { eapply only_mono; [|exact O1]. constructor; [left; by apply prefix_app_r|constructor]. }
  apply bind_cases in Hrun as (r2 & v2 & w2 & H2 & Hrun). apply attempt_cases in H2 as (k2 & -> & H2). unfold ret in Hrun. injection Hrun as <- <- _.
  split; [done|]. etrans; [exact O1'|]. apply sys_cases in H2 as [(k & _ & ->)|(a & t & Ht & _ & ->)]; [apply only_refl|].
  rewrite entry_clear in Ht; [|by eapply clear_self; [eapply only_agree|]|done]. destruct (vol_tree v1 !! sg) as [e|]; [|done]. cbn in Ht.
  destruct (entry_is_dir e); [|done]. destruct (Fs.children sg (vol_tree v1)); [|done]. injection Ht as _ <-. apply only_log, agree_delete.
Qed.

Lemma land_archive_spec rt dp n sg expected es ef v w r v' w' :
  landing dp n sg (vol_tree v) ->
  land_archive sha256_hex fuel rt (at_ (dp ++ [n])) (at_ sg) (at_ (sg ++ ["payload.tar.gz"])) expected es ef v w = (r, v', w') ->
  landed dp n sg expected v r v'.
Proof.
  intros Hl Hrun. unfold land_archive in Hrun. rewrite !join_at in Hrun. set (ex := sg ++ ["extracted"]) in Hrun.
  pose proof (ld_apart _ _ _ _ Hl) as Hd1. pose proof (ld_apart' _ _ _ _ Hl) as Hd2.
  assert (exists u v2 w2, (io_error "ARTIFACT_TRANSFER_FAILED" (at_ ex) (Fs.create_dir (at_ ex)) ;;
      extract_relay_archive (at_ (sg ++ ["payload.tar.gz"])) (at_ ex) es ef) v w = (u, v2, w2) /\
    match u with
    | Err e => r = Err e /\ v' = v2
    | Ok _ => (let* digested := runtime_digest_tree sha256_hex fuel rt (at_ ex) in
        let '(digest, size, files) := digested in
        if negb (String.eqb digest expected) then fail (digest_mismatch expected digest)
        else
          commit_relay_staging (at_ (dp ++ [n])) (at_ ex) ;;
          let* _ := attempt (F := RpcError) (Fs.remove_file (at_ (sg ++ ["payload.tar.gz"]))) in
          let* _ := attempt (F := RpcError) (Fs.remove_dir (at_ sg)) in
          ret (commit_answer (at_ (dp ++ [n])) digest size files)) v2 w2 = (r, v', w')
    end) as (u & v2 & w2 & H2 & Hrest).
  { apply bind_cases in Hrun as (r1 & v1 & w1 & H1 & Hrun). destruct r1 as [[]|e].
    - apply bind_cases in Hrun as (r2 & v2 & w2 & H2 & Hrun). exists r2, v2, w2. unfold bind. rewrite H1. split; [done|].
      destruct r2; [exact Hrun|]. destruct Hrun as (-> & -> & _). done.
    - destruct Hrun as (-> & -> & ->). exists (Err e), v1, w1. unfold bind. by rewrite H1. }
  clear Hrun. apply (extracted_tree dp n) in H2 as [O2 Hdg]; [|done]. destruct u as [[]|e]; [|destruct Hrest as [-> ->]; by apply landed_refused].
  specialize (Hdg eq_refl). apply bind_cases in Hrest as (r3 & v3 & w3 & H3 & Hrun). apply runtime_digest_spec in H3 as [-> H3]; [|done].
  destruct r3 as [[[d size] files]|e]; [|destruct Hrun as (-> & -> & _); by apply landed_refused].
  destruct (H3 _ _ _ eq_refl) as (Hd & Hsz & Hfl). destruct (String.eqb_spec d expected) as [<-|]; cbn [negb] in Hrun; [|unfold fail in Hrun; simplify_eq; by apply landed_refused].
  apply bind_cases in Hrun as (r4 & v4 & w4 & H4 & Hrun). set (b := backup_name n (peek (w_uuid w3))).
  pose proof (only_agree _ _ _ O2) as A2. destruct (landing_site dp n sg _ _ (peek (w_uuid w3)) Hl A2) as (Hap & Hsite & Hvac). fold b ex in Hap, Hsite, Hvac.
  set (old := subtree (dp ++ [n]) (vol_tree v)). assert (forall t, agree [sg] (vol_tree v) t -> subtree (dp ++ [n]) t = old) as Hold.
  { intros t Ht. eapply tree_at_agree; [exact Ht|]. intros q. by apply outside_one, below_apart. }
  apply commit_relay_spec in H4 as (P4 & C4 & O4); [|apply (ld_name _ _ _ _ Hl)|exact Hap|exact Hsite|apply Hdg|exact Hvac]. fold b in P4, C4, O4.
  rewrite (Hold _ A2) in P4, C4. set (new := subtree ex (vol_tree v2)) in *.
  assert (passes (commit_moment dp n b old new) v v4) as P.
  { eapply passes_trans; [|exact P4]. eapply only_passes; [|exact O2]. intros t Ht. left. by apply Hold. }
  assert (agree [dp ++ [n]; dp ++ [b]; sg] (vol_tree v) (vol_tree v4)) as A4.
  { eapply agree_trans; (eapply agree_mono; [|eapply only_agree; eassumption]); [constructor; [do 2 right; by left|constructor]|].
    constructor; [by left|]. constructor; [right; by left|]. constructor; [do 2 right; left; by apply prefix_app_r|constructor]. }
  apply (moments_never_lost _ _ _ d) in P; [|done].
  destruct r4 as [[]|e]; [|destruct Hrun as (-> & -> & _); exists (peek (w_uuid w3)); fold b; split_and!; [done|done|by apply (moment_never_lost _ _ _ _ _ new)]].
  assert (outside [dp ++ [n]; dp ++ [b]; ex] sg) as Hout.
  { unfold outside. rewrite !Forall_cons. split_and!; [done|apply (landing_backup _ _ _ _ _ Hl)|by apply below_above|constructor]. }
  assert (clear (vol_tree v2) sg /\ dir_at (vol_tree v2) sg = true) as [Hc2 Hd2'] by (apply (proj1 (clear_snoc _ _ "extracted")), (dg_clear _ _ Hdg)).
  assert (clear (vol_tree v4) sg /\ dir_at (vol_tree v4) sg = true) as [Hc4 Hd4].
  { split; [by eapply clear_outside; [eapply only_agree| |]|]. unfold dir_at. by rewrite (only_agree _ _ _ O4). }
  apply cleanup_staging in Hrun as [-> O5]; [|done..]. exists (peek (w_uuid w3)). fold b old.
  assert (forall t, agree [sg] (vol_tree v4) t -> subtree (dp ++ [n]) t = new) as Hkeep.
  { intros t Ht. transitivity (subtree (dp ++ [n]) (vol_tree v4)); [|exact C4].
    eapply tree_at_agree; [exact Ht|]. intros q. by apply outside_one, below_apart. }
  assert (delivered new) as Hnew by (split; [apply Hdg|by apply digestible_root]).
  rewrite (Hkeep _ (only_agree _ _ _ O5)). split_and!; [|..|done|done|by rewrite Hsz, Hfl].
  - eapply passes_trans; [exact P|]. eapply only_passes; [|exact O5]. intros t Ht. right. left. by rewrite (Hkeep _ Ht).
  - eapply agree_trans; [exact A4|]. eapply agree_mono; [|by eapply only_agree]. constructor; [do 2 right; by left|constructor].
Qed.

End Archive.
