(* ===== verification/RelayCommit.v ===== *)
(** * Artifact relay: the handlers that commit

    [artifact.relay.archive.commit] and [artifact.relay.commit] on checked
    paths: the texts of places parse back, and a commit that answers has put a
    tree with the expected digest in place. *)
From Stdlib Require Import Ascii.
From stdpp Require Import base gmap strings list sorting pretty.
From S2P Require Import Prelude Json Protocol PathPolicy FileTree FileTreeLaws Generations Controller TreeDigest ArtifactRelay RelaySafety.
Open Scope Z_scope.
Open Scope fabric_scope.

(** ** Texts of places *)

Lemma filter_all {A} (f : A -> bool) l : forallb f l = true -> List.filter f l = l.
Proof. induction l as [|x l IH]; [done|]. cbn. intros H. bool_prop. by rewrite H, IH. Qed.

Lemma good_names (f : string -> bool) p : (forall n, good_name n = true -> f n = true) -> forallb good_name p = true -> forallb f p = true.
Proof. rewrite !forallb_forall. auto. Qed.

Lemma display_at p : display (at_ p) = String "/"%char (relative_text p).
Proof. unfold display, at_, relative_text. cbn [p_absolute p_components]. by rewrite <- list_fmap_compose, list_fmap_id. Qed.

Lemma good_name_parts n :
  good_name n = true -> negb (str_is_empty n) = true /\ negb (String.eqb n ".") = true /\ String.eqb n ".." = false.
Proof. unfold good_name. rewrite !andb_true_iff, !negb_true_iff. tauto. Qed.

(** The path of a place is read back from its text. *)
Lemma path_of_display p : forallb good_name p = true -> path_of (display (at_ p)) = at_ p.
Proof.
  intros Hg. rewrite display_at. unfold path_of.
  assert (List.filter (fun c => negb (str_is_empty c)) (split_at "/"%char (String "/"%char (relative_text p))) = p) as ->.
  { cbn [split_at]. rewrite Ascii.eqb_refl. cbn [List.filter str_is_empty negb]. destruct p as [|n p]; [done|].
    rewrite split_relative by done. apply filter_all. eapply good_names; [|exact Hg]. intros m Hm. by apply good_name_parts. }
  rewrite filter_all. 2:{ eapply good_names; [|exact Hg]. intros m Hm. by apply good_name_parts. }
  assert (starts_with "/" (String "/"%char (relative_text p)) = true) as -> by (by destruct (relative_text p)).
  cbn [negb andb]. unfold at_. f_equal. assert (match p with [] => false | _ :: _ => false end = false) as -> by (by destruct p).
  apply list_fmap_ext. intros i n Hi. assert (good_name n = true) as Hn.
  { rewrite forallb_forall in Hg. apply Hg. apply list_elem_of_In. by eapply list_elem_of_lookup_2. }
  apply good_name_parts in Hn as (_ & _ & ->). done.
Qed.

Lemma at_normalized p : normalized (at_ p).
Proof. split; [done|]. cbn. induction p as [|n p IH]; [done|exact IH]. Qed.

(** A checked text of a place that resolves to itself is that place. *)
Lemma checked_text_resolved rt p must_exist access v w r v' w' :
  forallb good_name p = true -> @resolve_path (tree_fs (vol_tree v)) (at_ p) = Ok (at_ p) ->
  checked_text rt (display (at_ p)) must_exist access v w = (r, v', w') -> v' = v /\ w' = w /\ forall q, r = Ok q -> q = at_ p.
Proof.
  intros Hg Hres H. unfold checked_text, bind, get, lift in H. injection H as <- <- <-. split; [done|]. split; [done|]. intros q H.
  unfold checked_path_in in H. rewrite path_of_display in H by done. set (named := match desktop_policy rt with Some _ => _ | None => _ end) in H.
  assert (named = Ok (at_ p) \/ exists x, named = Err x) as [E|[x E]]; [|rewrite E in H|by rewrite E in H].
  { unfold named. destruct (desktop_policy rt); [|by left]. destruct (check _ _ _); [|right; by eexists]. left. apply logical_path_id, at_normalized. }
  cbn [bind_result] in H. destruct (must_exist && _); [done|]. rewrite Hres in H. cbn [bind_result] in H.
  destruct (desktop_policy rt); [destruct (check_resolved _ _ _ _)|destruct (existsb _ _)]; by simplify_eq/=.
Qed.

Lemma no_parent_at p : existsb (fun c => bool_decide (c = ParentDir)) (p_components (at_ p)) = false.
Proof. cbn. induction p as [|n p IH]; [done|exact IH]. Qed.

(** An existing place that is not a link resolves to itself. *)
Lemma resolve_existing t p : clear t p -> is_link_at t p = false -> is_Some (t !! p) -> @resolve_path (tree_fs t) (at_ p) = Ok (at_ p).
Proof.
  intros Hc Hl [e He]. assert (entry t true (at_ p) = Ok (p, e)) as Hen by (by rewrite entry_clear, He).
  unfold resolve_path. rewrite no_parent_at. cbn. by rewrite Hen.
Qed.

(** ** The handlers *)

Section Handlers.
Context `{ArchiverLaws} (sha256_hex : string -> string) (fuel : nat).

(** The request of a commit: its destination and its staging directory resolve to the places. *)
Record commit_request (rt : ExecutorRuntime) (params : Value) (t : Tree) (dp : place) (n : string) (sg : place) (expected : string) : Prop := mk_commit_request {
  cq_destination : exists text, vget "destination" params ≫= as_str = Some text /\ checked_path_in t rt text false Write = Ok (at_ (dp ++ [n]));
  cq_staging : exists text, vget "staging" params ≫= as_str = Some text /\ checked_path_in t rt text true Write = Ok (at_ sg);
  cq_expected : required_str params "expectedDigest" = Ok expected;
}.

Lemma requested_paths {B} rt params t dp n sg expected (k : Path -> Path -> string -> M Volume RpcError B) v w r v' w' :
  commit_request rt params t dp n sg expected -> t = vol_tree v ->
  (let* destination := write_path rt params "destination" false in
   let* staging := write_path rt params "staging" true in
   let* expected := lift (required_str params "expectedDigest") in k destination staging expected) v w = (r, v', w') ->
  k (at_ (dp ++ [n])) (at_ sg) expected v w = (r, v', w').
Proof.
  intros [(d & Hd & Cd) (s & Hs & Cs) He] -> Hrun. unfold write_path, checked_path in Hrun. rewrite Hd, Hs in Hrun.
  unfold checked_text, bind, get, lift in Hrun. by rewrite Cd, Cs, He in Hrun.
Qed.

(** A value the request lacks ends the commit before it changes anything. *)
Lemma lift_refused {A} dp n sg expected (x : result RpcError A) (k : A -> M Volume RpcError Value) v w r v' w' :
  landing dp n sg (vol_tree v) -> (let* a := lift x in k a) v w = (r, v', w') ->
  (forall a, k a v w = (r, v', w') -> landed sha256_hex dp n sg expected v r v') -> landed sha256_hex dp n sg expected v r v'.
Proof.
  intros Hl Hrun Hk. unfold bind, lift in Hrun. destruct x as [a|e]; [by eapply Hk|]. injection Hrun as <- <- _.
  apply landed_refused; [apply only_refl|apply Hl..].
Qed.

Lemma archive_commit_lands rt params dp n sg expected v w r v' w' :
  landing dp n sg (vol_tree v) -> commit_request rt params (vol_tree v) dp n sg expected ->
  (exists m data, vol_tree v !! (sg ++ ["payload.tar.gz"]) = Some (EFile m data)) ->
  archive_commit sha256_hex fuel rt params v w = (r, v', w') -> landed sha256_hex dp n sg expected v r v'.
Proof.
  intros Hl Hq (m & data & Hpay) Hrun. unfold archive_commit in Hrun. apply (requested_paths _ _ _ _ _ _ _ _ _ _ _ _ _ Hq eq_refl) in Hrun.
  do 3 (eapply (lift_refused _ _ _ _ _ _ _ _ _ _ _ Hl Hrun); clear Hrun; intros ? Hrun). rewrite join_at in Hrun.
  apply bind_cases in Hrun as (r1 & v1 & w1 & H1 & Hrun). apply checked_text_resolved in H1 as (-> & _ & Hap).
  2:{ exact (ok_named _ (ld_tree _ _ _ _ Hl) _ _ Hpay). }
  2:{ apply resolve_existing; [exact (ok_wf _ (ld_tree _ _ _ _ Hl) _ _ Hpay)|unfold is_link_at; by rewrite Hpay|by eexists]. }
  assert (forall e, landed sha256_hex dp n sg expected v (Err e) v) as Hsame by (intros e; apply landed_refused; [apply only_refl|apply Hl..]).
  destruct r1 as [ap|e]; [|destruct Hrun as (-> & -> & _); apply Hsame]. rewrite (Hap _ eq_refl) in Hrun.
  destruct (within _ _) in Hrun; cbn [negb] in Hrun; [|unfold fail in Hrun; simplify_eq; apply Hsame].
  apply bind_cases in Hrun as (r2 & v2 & w2 & H2 & Hrun). apply with_err_cases in H2 as (k2 & H2 & ->). apply ask_cases in H2 as [-> _].
  destruct k2 as [md|k]; cbn [map_err] in Hrun; [|destruct Hrun as (-> & -> & _); apply Hsame].
  destruct (_ =? _) in Hrun; cbn [negb] in Hrun; [|unfold fail in Hrun; simplify_eq; apply Hsame]. by eapply land_archive_spec.
Qed.

(** when a commit of a received archive answers, the tree now at the destination has the digest the
    request expects, and the size and file count of the answer are those of that tree; at every moment of
    a commit, failed or not, the destination holds its old tree or one with that digest, or the old tree
    waits whole under the backup name; nothing but the destination, the backup and the staging directory changes. *)
Theorem committed_artifact_has_the_digest rt params dp n sg expected v w r v' w' :
  landing dp n sg (vol_tree v) -> commit_request rt params (vol_tree v) dp n sg expected ->
  (exists m data, vol_tree v !! (sg ++ ["payload.tar.gz"]) = Some (EFile m data)) ->
  archive_commit sha256_hex fuel rt params v w = (r, v', w') -> landed sha256_hex dp n sg expected v r v'.
Proof. apply archive_commit_lands. Qed.

(** The commit of a tree received file by file: the staging directory itself is put in place. *)
Lemma relay_commit_lands rt params dp n sg expected v w r v' w' :
  landing dp n sg (vol_tree v) -> commit_request rt params (vol_tree v) dp n sg expected ->
  relay_commit sha256_hex fuel rt params v w = (r, v', w') -> landed sha256_hex dp n sg expected v r v'.
Proof.
  intros Hl Hq Hrun. unfold relay_commit in Hrun. apply (requested_paths _ _ _ _ _ _ _ _ _ _ _ _ _ Hq eq_refl) in Hrun.
  assert (forall e, landed sha256_hex dp n sg expected v (Err e) v) as Hsame by (intros e; apply landed_refused; [apply only_refl|apply Hl..]).
  assert (digestible (vol_tree v) sg) as Hdg.
  { split; [apply Hl|apply (ld_staging_dir _ _ _ _ Hl)|apply rooted_wf, Hl|]. intros q e He. rewrite lookup_subtree in He.
      apply (ok_named _ (ld_tree _ _ _ _ Hl)) in He. rewrite forallb_app in He. by apply andb_true_iff in He as [_ ?]. }
  apply bind_cases in Hrun as (r1 & v1 & w1 & H1 & Hrun). apply runtime_digest_spec in H1 as [-> H1]; [|done].
  destruct r1 as [[[d size] files]|e]; [|destruct Hrun as (-> & -> & _); apply Hsame]. destruct (H1 _ _ _ eq_refl) as (Hd & Hsz & Hfl).
  destruct (String.eqb_spec d expected) as [<-|]; cbn [negb] in Hrun; [|unfold fail in Hrun; simplify_eq; apply Hsame].
  apply bind_cases in Hrun as (r2 & v2 & w2 & H2 & Hrun). destruct (landing_backup _ _ _ _ (peek (w_uuid w1)) Hl) as [Hb1 Hb2].
  apply commit_relay_spec in H2 as (P & C & O); [|apply Hl|split; [apply Hl|apply Hl|exact Hb1|exact Hb2]| |apply Hl|apply Hl].
  2:{ split_and!; [apply Hl|apply (ld_parent_dir _ _ _ _ Hl)|by eapply landing_parent]. }
  apply (moments_never_lost sha256_hex _ _ _ d) in P; [|done]. exists (peek (w_uuid w1)).
  destruct r2 as [[]|e]; [unfold ret in Hrun; injection Hrun as <- <- _|destruct Hrun as (-> & -> & _)]; (split; [done|]; split; [by eapply only_agree|]).
  - cbn in C. unfold dest in C. rewrite C. split_and!; [done|split; [apply Hdg|by apply digestible_root]|by rewrite Hsz, Hfl].
  - by eapply moment_never_lost.
Qed.

End Handlers.
