(* ===== verification/RelayReceive.v ===== *)
(** * Artifact relay: receiving

    [artifact.relay.archive.prepare] makes the staging directory with an empty
    archive, and [artifact.relay.archive.write] fills the archive: neither
    touches anything else, whatever they answer. *)
From Stdlib Require Import Ascii.
From stdpp Require Import base gmap strings list sorting pretty.
From S2P Require Import Prelude Json Protocol PathPolicy FileTree FileTreeLaws Generations Controller TreeDigest ArtifactRelay RelaySafety RelayCommit GenerationSafety.
Open Scope Z_scope.
Open Scope fabric_scope.

(** A place that is not a link, or that is missing in its directory, resolves to itself. *)
Lemma resolve_place t dp x :
  good_name x = true -> clear t dp -> dir_at t dp = true -> is_link_at t (dp ++ [x]) = false ->
  @resolve_path (tree_fs t) (at_ (dp ++ [x])) = Ok (at_ (dp ++ [x])).
Proof.
  intros Hg Hc Hd Hl. assert (clear t (dp ++ [x])) as Hcx by (by apply clear_snoc).
  destruct (t !! (dp ++ [x])) as [e|] eqn:He; [by apply resolve_existing|].
  assert (entry t true (at_ (dp ++ [x])) = Err NotFound) as Hn by (by rewrite entry_clear, He).
  destruct (dir_at_Some _ _ Hd) as [m Hm].
  assert (entry t true (at_ dp) = Ok (dp, EDir m)) as Hdp by (rewrite entry_clear, Hm; [done|done|intros _; unfold is_link_at; by rewrite Hm]).
  unfold resolve_path. rewrite no_parent_at. cbn [p_absolute at_ negb fs_exists tree_fs]. change (mkPath true (Normal <$> (dp ++ [x]))) with (at_ (dp ++ [x])).
  rewrite Hn. cbn [is_ok]. change (p_components (at_ (dp ++ [x]))) with (Normal <$> (dp ++ [x])). rewrite fmap_app, rev_app_distr. cbn [fmap list_fmap rev app].
  cbn [resolve_missing]. cbn [rev]. rewrite rev_involutive, <- fmap_snoc. change (mkPath true (Normal <$> (dp ++ [x]))) with (at_ (dp ++ [x])).
  cbn [fs_exists tree_fs]. rewrite Hn. cbn [is_ok]. apply good_name_parts in Hg as (_ & Hdot & Hdots). rewrite negb_true_iff in Hdot. rewrite Hdot, Hdots. cbn [orb].
  assert (forall path l miss, rev l = Normal <$> dp -> @resolve_missing (tree_fs t) path l miss = Ok (mkPath true ((Normal <$> dp) ++ miss))) as Hup.
  { intros path l miss Hrev. assert (mkPath true (rev l) = at_ dp) as Hat by (by rewrite Hrev). destruct l; cbn [resolve_missing]; rewrite Hat; cbn [fs_exists fs_canonicalize tree_fs]; by rewrite Hdp. }
  rewrite Hup by apply rev_involutive. unfold at_. by rewrite fmap_app.
Qed.

(** ** Where an artifact is received *)

Definition staging_name (n uuid : string) : string := n +:+ ".machine-fabric-relay-" +:+ uuid.
Definition archive_place (sg : place) : place := sg ++ ["payload.tar.gz"].

Lemma archive_place_ne sg : archive_place sg <> sg.
Proof. intros E. apply (f_equal length) in E. unfold archive_place in E. rewrite length_app in E. cbn in E. lia. Qed.

(** The destination and the names beside it, before a relay. *)
Record receptive (dp : place) (n : string) (t : Tree) : Prop := mk_receptive {
  rc_tree : tree_ok t;
  rc_parent : clear t dp;
  rc_parent_dir : dir_at t dp = true;
  rc_good : good_name n = true;
  rc_link : is_link_at t (dp ++ [n]) = false;
  rc_name : forall uuid, n <> backup_name n uuid;
  rc_names : forall uuid uuid', staging_name n uuid <> backup_name n uuid';
  rc_backup : forall uuid, t !! (dp ++ [backup_name n uuid]) = None;
  rc_staging : forall uuid, t !! (dp ++ [staging_name n uuid]) = None;
}.

(** While it is received: the staging directory holds the archive, and nothing else has changed. *)
Record receiving (dp : place) (n uuid : string) (t0 t : Tree) : Prop := mk_receiving {
  rv_before : receptive dp n t0;
  rv_only : agree [dp ++ [staging_name n uuid]] t0 t;
  rv_tree : tree_ok t;
  rv_staging_dir : dir_at t (dp ++ [staging_name n uuid]) = true;
  rv_archive : exists m data, t !! archive_place (dp ++ [staging_name n uuid]) = Some (EFile m data);
}.

Lemma staging_apart dp n uuid : below (dp ++ [n]) (dp ++ [staging_name n uuid]) = None /\ below (dp ++ [staging_name n uuid]) (dp ++ [n]) = None.
Proof.
  assert (n <> staging_name n uuid) as Hne.
  { intros E. apply (f_equal String.length) in E. unfold staging_name in E. rewrite !string_length_app in E. cbn in E. lia. }
  split; by apply below_sibling'.
Qed.

Lemma receptive_root dp n t : receptive dp n t -> forallb good_name dp = true.
Proof. intros H. destruct (dir_at_Some _ _ (rc_parent_dir _ _ _ H)) as [m Hm]. exact (ok_named _ (rc_tree _ _ _ H) _ _ Hm). Qed.

Lemma receiving_parent dp n uuid t0 t : receiving dp n uuid t0 t -> clear t dp /\ dir_at t dp = true.
Proof. intros H. apply (proj1 (clear_snoc _ _ (staging_name n uuid))). destruct (dir_at_Some _ _ (rv_staging_dir _ _ _ _ _ H)) as [m Hm]. exact (ok_wf _ (rv_tree _ _ _ _ _ H) _ _ Hm). Qed.

(** What is received can land. *)
Lemma receiving_landing dp n uuid t0 t : receiving dp n uuid t0 t -> landing dp n (dp ++ [staging_name n uuid]) t.
Proof.
  intros H. destruct (receiving_parent _ _ _ _ _ H) as [Hc Hd]. pose proof (rv_before _ _ _ _ _ H) as H0. destruct (staging_apart dp n uuid) as [A1 A2].
  split; [apply H|done|done| |apply (rv_staging_dir _ _ _ _ _ H)|done|done|apply H0|].
  - by apply clear_snoc.
  - intros u. apply vacant_wf; [apply H|]. rewrite (rv_only _ _ _ _ _ H); [apply H0|]. apply outside_one, below_sibling', H0.
Qed.

(** ** The handlers *)

Section Handlers.
Context `{Archiver} (torn : string -> string).

Lemma write_path_place rt params key dp x must_exist v w r v' w' :
  vget key params ≫= as_str = Some (display (at_ (dp ++ [x]))) -> forallb good_name dp = true -> good_name x = true ->
  clear (vol_tree v) dp -> dir_at (vol_tree v) dp = true -> is_link_at (vol_tree v) (dp ++ [x]) = false ->
  write_path rt params key must_exist v w = (r, v', w') -> v' = v /\ forall q, r = Ok q -> q = at_ (dp ++ [x]).
Proof.
  intros Hk Hg Hx Hc Hd Hl Hrun. unfold write_path, checked_path in Hrun. rewrite Hk in Hrun.
  apply checked_text_resolved in Hrun as (-> & _ & ?); [done| |by apply resolve_place]. rewrite forallb_app, Hg. cbn. by rewrite Hx.
Qed.

(** A staging directory that is not there is made, and only it. *)
Lemma fresh_staging_new p x v w r v' w' :
  clear (vol_tree v) (p ++ [x]) -> vol_tree v !! (p ++ [x]) = None -> fresh_staging (at_ (p ++ [x])) v w = (r, v', w') ->
  (exists e, r = Err e /\ v' = v) \/ (exists m, r = Ok tt /\ v' = log v (<[p ++ [x] := EDir m]> (vol_tree v))).
Proof.
  intros Hc Hn Hrun. unfold fresh_staging in Hrun. apply bind_cases in Hrun as (r1 & v1 & w1 & H1 & Hrun). apply test_cases in H1 as (k1 & H1 & ->).
  apply ask_cases in H1 as [-> H1]. destruct k1 as [e|k].
  { specialize (H1 _ eq_refl). rewrite entry_clear, Hn in H1; [done|done|intros _; unfold is_link_at; by rewrite Hn]. }
  apply bind_cases in Hrun as (r2 & v2 & w2 & H2 & Hrun). unfold ret in H2. injection H2 as <- <- <-.
  apply with_err_cases in Hrun as (k3 & H3 & ->). apply create_dirs_last in H3; [|done..].
  destruct H3 as [(k' & -> & ->)|(m & -> & ->)]; [left|right]; by eexists.
Qed.

Lemma prepare_receives rt params dp n uuid v w r v' w' :
  let sg := dp ++ [staging_name n uuid] in
  receptive dp n (vol_tree v) -> good_name (staging_name n uuid) = true -> vget "staging" params ≫= as_str = Some (display (at_ sg)) ->
  archive_prepare rt params v w = (r, v', w') ->
  only [sg] v v' /\ forall a, r = Ok a -> receiving dp n uuid (vol_tree v) (vol_tree v').
Proof.
  intros sg Hrc Hg Hk Hrun. assert (clear (vol_tree v) sg) as Hcs by (apply clear_snoc; split; [apply Hrc|apply (rc_parent_dir _ _ _ Hrc)]).
  unfold archive_prepare in Hrun. apply bind_cases in Hrun as (r1 & v1 & w1 & H1 & Hrun).
  apply (write_path_place _ _ _ dp (staging_name n uuid)) in H1 as [-> H1];
    [|exact Hk|by eapply receptive_root|done|apply Hrc|apply (rc_parent_dir _ _ _ Hrc)|unfold is_link_at; by rewrite (rc_staging _ _ _ Hrc)].
  destruct r1 as [p|e]; [|destruct Hrun as (-> & -> & _); split; [apply only_refl|done]]. rewrite (H1 _ eq_refl), join_at in Hrun.
  apply bind_cases in Hrun as (r2 & v2 & w2 & H2 & Hrun). apply fresh_staging_new in H2; [|done|apply Hrc].
  destruct H2 as [(e & -> & ->)|(m & -> & ->)]; [destruct Hrun as (-> & -> & _); split; [apply only_refl|done]|].
  fold sg in Hrun. set (v2 := log v _) in Hrun. assert (only [sg] v v2) as O2 by apply only_log, agree_insert.
  assert (dir_at (vol_tree v2) sg = true) as Hd2 by (unfold v2, dir_at; cbn; by rewrite lookup_insert_eq).
  assert (tree_wf (vol_tree v2)) as Hw2 by (apply wf_insert_dir; [apply Hrc|done]).
  assert (named (vol_tree v2)) as Hn2.
  { apply named_insert; [apply Hrc|]. unfold sg. rewrite forallb_app, (receptive_root _ _ _ Hrc). cbn. by rewrite Hg. }
  assert (clear (vol_tree v2) (sg ++ ["payload.tar.gz"])) as Hc2 by (apply clear_snoc; split; [eapply clear_self; [by eapply only_agree|done]|done]).
  assert (vol_tree v2 !! (sg ++ ["payload.tar.gz"]) = None) as Hv2.
  { unfold v2. cbn. rewrite lookup_insert_ne by (symmetry; apply archive_place_ne).
    apply (vacant_wf (vol_tree v) sg); [apply Hrc|apply Hrc]. }
  apply bind_cases in Hrun as (r3 & v3 & w3 & H3 & Hrun). apply with_err_cases in H3 as (k3 & H3 & ->). apply open_truncate_vacant in H3; [|done..].
  destruct H3 as [(k & -> & ->)|(mf & -> & ->)]; cbn [map_err] in Hrun; [destruct Hrun as (-> & -> & _); split; [exact O2|done]|].
  unfold ret in Hrun. injection Hrun as <- <- _. set (v3 := log v2 _).
  assert (only [sg] v v3) as O3.
  { etrans; [exact O2|]. apply only_log. eapply agree_mono; [|apply agree_insert]. constructor; [left; by apply prefix_app_r|constructor]. }
  split; [exact O3|]. intros a _. split; [done|by apply only_agree| |unfold v3, dir_at; cbn; fold sg; rewrite lookup_insert_ne; [exact Hd2|apply archive_place_ne]|].
  - split; [by apply wf_insert_file|]. apply named_insert; [done|]. rewrite forallb_app. unfold sg. rewrite forallb_app, (receptive_root _ _ _ Hrc). cbn. by rewrite Hg.
  - eexists _, _. unfold v3, archive_place. cbn. by rewrite lookup_insert_eq.
Qed.

(** Writing a chunk keeps the reception, whatever it answers. *)
Lemma write_receives rt params dp n uuid t0 v w r v' w' :
  let sg := dp ++ [staging_name n uuid] in
  receiving dp n uuid t0 (vol_tree v) -> good_name (staging_name n uuid) = true -> vget "staging" params ≫= as_str = Some (display (at_ sg)) ->
  archive_write torn rt params v w = (r, v', w') ->
  only [sg] v v' /\ receiving dp n uuid t0 (vol_tree v').
Proof.
  intros sg Hrv Hg Hk Hrun. destruct (receiving_parent _ _ _ _ _ Hrv) as [Hc Hd]. pose proof (receptive_root _ _ _ (rv_before _ _ _ _ _ Hrv)) as Hr.
  assert (only [sg] v v /\ receiving dp n uuid t0 (vol_tree v)) as Hsame by (split; [apply only_refl|done]).
  destruct (rv_archive _ _ _ _ _ Hrv) as (m & data & Hpay). fold sg in Hpay. destruct (dir_at_Some _ _ (rv_staging_dir _ _ _ _ _ Hrv)) as [ms Hms]. fold sg in Hms.
  unfold archive_write in Hrun. apply bind_cases in Hrun as (r1 & v1 & w1 & H1 & Hrun).
  apply (write_path_place _ _ _ dp (staging_name n uuid)) in H1 as [-> H1]; [|done..|fold sg; unfold is_link_at; by rewrite Hms].
  destruct r1 as [p|e]; [|by destruct Hrun as (_ & -> & _)]. rewrite (H1 _ eq_refl), join_at in Hrun. fold sg (archive_place sg) in Hrun.
  assert (clear (vol_tree v) (archive_place sg)) as Hca by exact (ok_wf _ (rv_tree _ _ _ _ _ Hrv) _ _ Hpay).
  apply bind_cases in Hrun as (r2 & v2 & w2 & H2 & Hrun). apply checked_text_resolved in H2 as (-> & _ & H2);
    [|exact (ok_named _ (rv_tree _ _ _ _ _ Hrv) _ _ Hpay)|apply resolve_existing; [done|unfold is_link_at; by rewrite Hpay|by eexists]].
  destruct r2 as [q|e]; [|by destruct Hrun as (_ & -> & _)]. rewrite (H2 _ eq_refl) in Hrun.
  destruct (negb _) in Hrun; [unfold fail in Hrun; by simplify_eq|].
  apply bind_cases in Hrun as (r3 & v3 & w3 & H3 & Hrun). unfold lift in H3. injection H3 as _ <- _. destruct r3 as [offset|]; [|by destruct Hrun as (_ & -> & _)].
  apply bind_cases in Hrun as (r4 & v4 & w4 & H4 & Hrun). unfold lift in H4. injection H4 as _ <- _. destruct r4 as [bytes|]; [|by destruct Hrun as (_ & -> & _)].
  apply bind_cases in Hrun as (r5 & v5 & w5 & H5 & Hrun). apply with_err_cases in H5 as (k5 & H5 & ->).
  assert (v' = v5) as ->. { destruct k5; cbn [map_err] in Hrun; [unfold ret in Hrun; by simplify_eq|by destruct Hrun as (_ & -> & _)]. }
  clear Hrun. unfold write_chunk in H5. apply bind_cases in H5 as (r6 & v6 & w6 & H6 & H5). apply ask_cases in H6 as [-> H6].
  destruct r6 as [q'|]; [|by destruct H5 as (_ & -> & _)]. specialize (H6 _ eq_refl).
  rewrite entry_clear, Hpay in H6; [|done|intros _; unfold is_link_at; by rewrite Hpay]. cbn in H6. injection H6 as <-.
  destruct (I64_MAX <? offset) in H5; [unfold fail in H5; by simplify_eq|].
  apply (write_at_file _ _ _ _ _ _ _ _ _ _ _ Hpay) in H5 as (data' & -> & _). set (v7 := log v _).
  assert (only [sg] v v7) as O7. { apply only_log. eapply agree_mono; [|apply agree_insert]. constructor; [left; by apply prefix_app_r|constructor]. }
  pose proof (archive_place_ne sg) as Hne.
  split; [exact O7|]. split; [apply Hrv| | |unfold v7, dir_at; cbn; fold sg; by rewrite lookup_insert_ne, Hms|].
  - eapply agree_trans; [apply Hrv|by apply only_agree].
  - split; [eapply wf_write; [apply Hrv|exact Hpay]|]. apply named_insert; [apply Hrv|]. exact (ok_named _ (rv_tree _ _ _ _ _ Hrv) _ _ Hpay).
  - eexists _, _. unfold v7. cbn. by rewrite lookup_insert_eq.
Qed.

End Handlers.

(** ** Runs *)

(** ** An archive format: names and contents ended by NUL bytes *)

Definition plain_member (m : Member) : string :=
  match m with
  | MFile p data => display p +:+ String NUL (data +:+ String NUL "")
  | _ => ""
  end.
Fixpoint plain_members (parts : list string) : list (option Member) :=
  match parts with
  | name :: data :: parts' => Some (MFile (mkPath false [Normal name]) data) :: plain_members parts'
  | _ => []
  end.

(** A file is written when its name is good and nothing is in its place. *)
Definition plain_unpack (m : Member) (p : Path) : M Volume IoKind bool :=
  match m with
  | MFile (mkPath false [Normal name]) data =>
      sys (fun t => bind_result (entry t true p) (fun qe =>
        let q := qe.1 ++ [name] in
        match t !! q with
        | None => if good_name name then Ok (true, <[q := EFile 420 data]> t) else Ok (false, t)
        | Some _ => Ok (false, t)
        end))
  | _ => ret false
  end.

#[export] Instance plain_archiver : Archiver := {|
  pack ms := String.concat "" (plain_member <$> ms);
  unpack s := Some (plain_members (split_at NUL s));
  unpack_in := plain_unpack;
  b64_encode s := s;
  b64_decode := Some
|}.

#[export] Instance plain_archiver_laws : ArchiverLaws.
Proof.
  split; [|done]. intros m d v w r v' w' Hok Hc Hd Hrun.
  assert (v' = v -> only [d] v v' /\ dir_at (vol_tree v') d = true /\ tree_ok (vol_tree v')) as Hsame by (intros ->; split_and!; [apply only_refl|done..]).
  assert (m_refused : ret (E := IoKind) false v w = (r, v', w') -> v' = v) by (intros E; unfold ret in E; by simplify_eq).
  cbn in Hrun. unfold plain_unpack in Hrun. destruct m as [[[] [|[]  []]] data| |]; try by auto.
  apply sys_cases in Hrun as [(k & _ & ->)|(a & t & Ht & _ & ->)]; [by apply Hsame|]. destruct (dir_at_Some _ _ Hd) as [m Hm].
  rewrite entry_clear, Hm in Ht; [|done|intros _; unfold is_link_at; by rewrite Hm]. cbn in Ht.
  destruct (vol_tree v !! (d ++ [name])) as [e|] eqn:E; [|destruct (good_name name) eqn:G]; simplify_eq; try (split_and!; [apply only_log, agree_refl|done..]).
  split_and!.
  - apply only_log. eapply agree_mono; [|apply agree_insert]. constructor; [left; by apply prefix_app_r|constructor].
  - unfold dir_at. cbn. rewrite lookup_insert_ne; [exact Hd|]. intros X. apply (f_equal length) in X. rewrite length_app in X. cbn in X. lia.
  - destruct Hok as [Hw Hn]. split; cbn; [apply wf_insert_file; [done|by apply clear_snoc|done]|]. apply named_insert; [done|].
    rewrite forallb_app, (Hn _ _ Hm). cbn. by rewrite G.
Qed.

(** ** A commit *)

Definition nul : string := String NUL "".
Definition payload : string := "a" +:+ nul +:+ "hello" +:+ nul.
Definition relay_tree : Tree := list_to_map
  [([], EDir 493); (["data"], EDir 493); (["data"; "out"], EDir 493); (["data"; "out"; "old"], EFile 420 "1");
   (["stage"], EDir 493); (["stage"; "payload.tar.gz"], EFile 420 payload)].
Definition relay_volume : Volume := mkVolume relay_tree 18 [].
Definition relay_runtime : ExecutorRuntime := mkExecutorRuntime [at_ []] (at_ ["relay"]) None.
Definition relay_params : Value :=
  obj_of [("destination", VString "/data/out"); ("staging", VString "/stage"); ("expectedDigest", VString ("sha256:" +:+ payload));
          ("archiveSize", vu64 8); ("size", vu64 5); ("files", vu64 1)].

Definition namedb (t : Tree) : bool := forallb (fun kv => forallb good_name kv.1) (map_to_list t).
Lemma namedb_sound t : namedb t = true -> named t.
Proof.
  unfold namedb. rewrite forallb_forall. intros H q e He. apply (H (q, e)). by apply list_elem_of_In, elem_of_map_to_list.
Qed.

Lemma relay_landing : landing ["data"] "out" ["stage"] relay_tree.
Proof.
  assert (tree_wf relay_tree) as Hw by (apply wfb_sound; vm_compute; reflexivity).
  split; [split; [exact Hw|apply namedb_sound; vm_compute; reflexivity]|apply clearb_sound; vm_compute; reflexivity|vm_compute; reflexivity
         |apply clearb_sound; vm_compute; reflexivity|vm_compute; reflexivity|vm_compute; reflexivity|vm_compute; reflexivity|by intros uuid|].
  intros uuid. apply vacant_wf; [exact Hw|]. apply not_elem_of_list_to_map_1. unfold backup_name. cbn. intros Hin.
  repeat (apply elem_of_cons in Hin as [Hin|Hin]; [discriminate Hin|]). by apply not_elem_of_nil in Hin.
Qed.

Lemma committed_artifact_has_the_digest_witness :
  exists v' w', archive_commit whole_text 9 relay_runtime relay_params relay_volume (sample_world 0)
    = (Ok (commit_answer (at_ ["data"; "out"]) ("sha256:" +:+ payload) 5 1), v', w') /\
  subtree ["data"; "out"] (vol_tree v') !! ["a"] = Some (EFile 420 "hello") /\
  landed whole_text ["data"] "out" ["stage"] ("sha256:" +:+ payload) relay_volume
    (Ok (commit_answer (at_ ["data"; "out"]) ("sha256:" +:+ payload) 5 1)) v'.
Proof.
  destruct (archive_commit whole_text 9 relay_runtime relay_params relay_volume (sample_world 0)) as [[r v'] w'] eqn:Hrun.
  assert (r = Ok (commit_answer (at_ ["data"; "out"]) ("sha256:" +:+ payload) 5 1)) as ->.
  { change r with ((r, v', w').1.1). rewrite <- Hrun. vm_compute. reflexivity. }
  exists v', w'. split; [exact eq_refl|]. split.
  - change v' with ((Ok (E := RpcError) tt, v', w').1.2). transitivity (subtree ["data"; "out"] (vol_tree (archive_commit whole_text 9 relay_runtime relay_params relay_volume (sample_world 0)).1.2) !! ["a"]).
    + rewrite Hrun. exact eq_refl.
    + vm_compute. reflexivity.
  - apply (committed_artifact_has_the_digest whole_text 9 relay_runtime relay_params ["data"] "out" ["stage"] _ relay_volume (sample_world 0) _ v' w').
    + exact relay_landing.
    + split; [exists "/data/out"; split; vm_compute; reflexivity|exists "/stage"; split; vm_compute; reflexivity|vm_compute; reflexivity].
    + exists 420, payload. vm_compute. reflexivity.
    + exact Hrun.
Defined.

(** ** Two directories, one digest *)

Definition clash (a : string) (name data : string) : Volume := mkVolume (list_to_map
  [([], EDir 493); (["x"], EDir 493); (["x"; "a"], EFile 420 a); (["x"; name], EFile 420 data)]) 18 [].
Definition clash_left : Volume := clash "" "b" (nul +:+ "c" +:+ nul).
Definition clash_right : Volume := clash (nul +:+ "b" +:+ nul) "c" "".

Definition digest_of (hex : string -> string) (v : Volume) : result RpcError (string * Z * Z) :=
  (digest_tree hex 5 (at_ ["x"]) v (sample_world 0)).1.1.

(** whatever the hash, two directories with different files, both with two files of three bytes in all,
    have the same digest, since a content may hold the NUL bytes that separate the entries. *)
Theorem digest_confuses_contents (hex : string -> string) :
  digest_of hex clash_left = digest_of hex clash_right /\ is_ok (digest_of hex clash_left) = true /\
  contents (subtree ["x"] (vol_tree clash_left)) ["b"] <> contents (subtree ["x"] (vol_tree clash_right)) ["b"].
Proof. split; [vm_compute; reflexivity|]. split; [vm_compute; reflexivity|]. vm_compute. discriminate. Qed.

(** Two directories that differ in the modes only. *)
Definition modes (m : Z) : Volume := mkVolume (list_to_map
  [([], EDir 493); (["x"], EDir m); (["x"; "a"], EFile m "1"); (["x"; "b"], EFile m "2")]) 18 [].

Definition nul_freeb (s : Tree) : bool := forallb (fun kv => no_byte NUL (default "" (leaf_content kv.2))) (map_to_list s).
Lemma nul_freeb_sound s : nul_freeb s = true -> nul_free s.
Proof.
  unfold nul_freeb. rewrite forallb_forall. intros H q. unfold content_at. destruct (s !! q) as [e|] eqn:E; [|done].
  apply (H (q, e)). by apply list_elem_of_In, elem_of_map_to_list.
Qed.
Lemma digestible_sound t root :
  wfb t = true -> clearb t root = true -> dir_at t root = true -> namedb (subtree root t) = true -> digestible t root.
Proof. intros Hw Hc Hd Hn. split; [by apply clearb_sound|done|by apply rooted_wf, wfb_sound|by apply namedb_sound]. Qed.

Lemma digest_identifies_contents_witness :
  exists d, digest_of whole_text (modes 448) = Ok (d, 2, 2) /\
  forall q, contents (subtree ["x"] (vol_tree (modes 448))) q = contents (subtree ["x"] (vol_tree (modes 493))) q.
Proof.
  exists ("sha256:a" +:+ nul +:+ "1" +:+ nul +:+ "b" +:+ nul +:+ "2" +:+ nul). split; [vm_compute; reflexivity|].
  destruct (digest_tree whole_text 5 (at_ ["x"]) (modes 448) (sample_world 0)) as [[r1 v1] w1] eqn:H1.
  destruct (digest_tree whole_text 5 (at_ ["x"]) (modes 493) (sample_world 0)) as [[r2 v2] w2] eqn:H2.
  assert (r1 = Ok ("sha256:a" +:+ nul +:+ "1" +:+ nul +:+ "b" +:+ nul +:+ "2" +:+ nul, 2, 2)) as ->.
  { change r1 with ((r1, v1, w1).1.1). rewrite <- H1. vm_compute. reflexivity. }
  assert (r2 = Ok ("sha256:a" +:+ nul +:+ "1" +:+ nul +:+ "b" +:+ nul +:+ "2" +:+ nul, 2, 2)) as ->.
  { change r2 with ((r2, v2, w2).1.1). rewrite <- H2. vm_compute. reflexivity. }
  eapply (digest_identifies_contents whole_text 5 ["x"] (modes 448) (sample_world 0) 5 ["x"] (modes 493) (sample_world 0)).
  - apply digestible_sound; vm_compute; reflexivity.
  - apply digestible_sound; vm_compute; reflexivity.
  - apply nul_freeb_sound. vm_compute. reflexivity.
  - apply nul_freeb_sound. vm_compute. reflexivity.
  - intros Ht. exact Ht.
  - exact H1.
  - exact H2.
Defined.
