(* ===== verification/ControllerFrames.v ===== *)
(** * What computations of a controller leave alone, and what a commit writes *)
From stdpp Require Import base gmap strings list.
From S2P Require Import Prelude Json Schema Protocol Leases Tasks Store Payloads Controller.
Open Scope Z_scope.

(** ** Parts of a controller that computations leave alone *)

(** [frame f m]: [m] does not change the part [f] of the controller. *)
Definition frame {E A B} (f : Controller -> B) (m : M Controller E A) : Prop :=
  forall c w r c' w', m c w = (r, c', w') -> f c' = f c.

Section Frames.
Context {B : Type} (f : Controller -> B).

Lemma frame_bind {E A C} (m : M Controller E A) (k : A -> M Controller E C) :
  frame f m -> (forall a, frame f (k a)) -> frame f (bind m k).
Proof.
  intros Hm Hk c w r c' w' H. apply bind_cases in H as (r1 & c1 & w1 & H1 & H).
  destruct r1 as [a|e]; [|destruct H as (_ & -> & _); by eapply Hm].
  rewrite (Hk a _ _ _ _ _ H). by eapply Hm.
Qed.
Lemma frame_ret {E A} (a : A) : frame (E := E) f (ret a).
Proof. intros c w r c' w' H. unfold ret in H. by simplify_eq. Qed.
Lemma frame_fail {E A} (e : E) : frame (A := A) f (fail e).
Proof. intros c w r c' w' H. unfold fail in H. by simplify_eq. Qed.
Lemma frame_lift {E A} (r : result E A) : frame f (lift r).
Proof. intros c w r' c' w' H. unfold lift in H. by simplify_eq. Qed.
Lemma frame_get {E} : frame (E := E) f get.
Proof. intros c w r c' w' H. unfold get in H. by simplify_eq. Qed.
Lemma frame_now_ms {E} : frame (E := E) f now_ms.
Proof. intros c w r c' w' H. unfold now_ms in H. by simplify_eq. Qed.
Lemma frame_new_v4 {E} : frame (E := E) f new_v4.
Proof. intros c w r c' w' H. unfold new_v4 in H. by simplify_eq. Qed.
Lemma frame_instant {E} : frame (E := E) f instant_now.
Proof. intros c w r c' w' H. unfold instant_now in H. by simplify_eq. Qed.
Lemma frame_io {E} : frame (E := E) f io_outcome.
Proof. intros c w r c' w' H. unfold io_outcome in H. by simplify_eq. Qed.
Lemma frame_with_err {E F A} (g : E -> F) (m : M Controller E A) : frame f m -> frame f (with_err g m).
Proof. intros Hm c w r c' w' H. unfold with_err in H. destruct (m c w) as [[r1 c1] w1] eqn:E1. simplify_eq. by eapply Hm. Qed.
Lemma frame_attempt {E F A} (m : M Controller E A) : frame f m -> frame (E := F) f (attempt m).
Proof. intros Hm c w r c' w' H. unfold attempt in H. destruct (m c w) as [[r1 c1] w1] eqn:E1. simplify_eq. by eapply Hm. Qed.
Lemma frame_zoom {T E A} (g : Controller -> T) (p : T -> Controller -> Controller) (m : M T E A) :
  (forall t c, f (p t c) = f c) -> frame f (zoom g p m).
Proof. intros Hp c w r c' w' H. unfold zoom in H. destruct (m (g c) w) as [[r1 t] w1]. simplify_eq. apply Hp. Qed.
Lemma frame_modify {E} (g : Controller -> Controller) : (forall c, f (g c) = f c) -> frame (E := E) f (modify g).
Proof. intros Hg c w r c' w' H. unfold modify in H. simplify_eq. apply Hg. Qed.
Lemma frame_for_each {E A} (l : list A) (k : A -> M Controller E unit) : (forall a, frame f (k a)) -> frame f (for_each l k).
Proof. intros Hk. induction l as [|a l IH]; cbn; [apply frame_ret|by apply frame_bind]. Qed.
Lemma frame_on_tasks {E A} (m : M TaskTable panic A) : (forall t c, f (set_tasks t c) = f c) -> frame (E := E) f (on_tasks m).
Proof. intros Hp c w r c' w' H. unfold on_tasks in H. destruct (m _ w) as [[r1 t] w1]. simplify_eq. apply Hp. Qed.
End Frames.

Ltac frame :=
  repeat first
    [ apply frame_ret | apply frame_fail | apply frame_lift | apply frame_get | apply frame_now_ms
    | apply frame_new_v4 | apply frame_instant | apply frame_io
    | apply frame_with_err | apply frame_attempt
    | apply frame_zoom; solve [intros; auto] | apply frame_modify; solve [intros; auto]
    | apply frame_on_tasks; solve [intros; auto]
    | apply frame_for_each; intros ? | apply frame_bind; [|intros ?]
    | assumption | progress case_match ].

Section Commit.
Context (to_vec : Value -> option string) (sha256_hex : string -> string) (torn : string -> string).
Context (store : JsonStore).
#[local] Abbreviation persist := (persist to_vec sha256_hex torn store).

(** A commit changes neither the state, nor the identity, nor the leases. *)
Lemma persist_frame {B} (f : Controller -> B) :
  (forall t c, f (set_tasks t c) = f c) -> (forall d c, f (set_payloads d c) = f c) ->
  (forall s c, f (set_durable s c) = f c) -> frame f persist.
Proof. intros Ht Hd Hs. unfold Controller.persist, save_state, apply_update. frame. Qed.

Lemma persist_state : frame ctl_state persist.
Proof. by apply persist_frame. Qed.

(** Moving payloads out keeps identifiers and states of the tasks. *)
Definition task_mark (t : Task) : string * TaskState := (task_id t, task_state t).

Lemma externalize_marks tasks d w ts us d' w' :
  externalize_task_payloads to_vec sha256_hex torn store tasks d w = (Ok (ts, us), d', w') ->
  map task_mark ts = map task_mark tasks.
Proof.
  revert d w ts us d' w'. induction tasks as [|t tasks IH]; intros d w ts us d' w' H; cbn in H.
  { unfold ret in H. by simplify_eq. }
  destruct (terminal (task_state t)).
  - mstep H ext d1 w1 H1. mstep H rest d2 w2 H2. unfold ret in H. destruct rest as [ts1 us1]. simplify_eq. cbn.
    rewrite (IH _ _ _ _ _ _ H2). f_equal. unfold externalize_task in H1. mstep H1 i d3 w3 H3. mstep H1 o d4 w4 H4.
    unfold ret in H1. simplify_eq. cbn. by repeat case_match.
  - mstep H rest d2 w2 H2. unfold ret in H. destruct rest as [ts1 us1]. simplify_eq. cbn.
    by rewrite (IH _ _ _ _ _ _ H2).
Qed.

(** What a successful commit writes. *)
Lemma persist_durable c w u c' w' :
  persist c w = (Ok u, c', w') ->
  exists ts, ctl_durable c' = set_tables (Leases.snapshot (ctl_leases c)) (fence_snapshot (ctl_leases c)) ts (ctl_state c) /\
    map task_mark ts = map task_mark (Tasks.snapshot (ctl_tasks c)).
Proof.
  intros H. unfold Controller.persist in H. mstep H c0 c1 w1 H1. unfold get in H1. simplify_eq.
  mstep H ext c2 w2 H2.
  assert (map task_mark ext.1 = map task_mark (Tasks.snapshot (ctl_tasks c0))) as Hm.
  { unfold zoom in H2. destruct (externalize_task_payloads _ _ _ _ _ _ _) as [[r d] w3] eqn:E. simplify_eq.
    destruct ext as [ts us]. by eapply externalize_marks. }
  mstep H u1 c3 w3 H3. unfold save_state in H3. munfold. destruct (peek (w_io w2)); simplify_eq.
  assert (frame ctl_durable (for_each ext.2 apply_update)) as Hf by (unfold apply_update; frame).
  exists ext.1. rewrite (Hf _ _ _ _ _ H). by split.
Qed.

Lemma apply_updates_ok l c w e c' w' : for_each l apply_update c w = (Err e, c', w') -> False.
Proof.
  revert c w. induction l as [|u l IH]; intros c w H; cbn in H; [done|].
  unfold bind in H. destruct (apply_update u c w) as [[r c1] w1] eqn:E.
  assert (exists x, r = Ok x) as [x ->]; [|by apply IH in H].
  unfold apply_update, on_tasks, bind, ret in E. repeat case_match; simplify_eq; by eexists.
Qed.

Lemma persist_durable_err c w e c' w' : persist c w = (Err e, c', w') -> ctl_durable c' = ctl_durable c.
Proof.
  intros H. unfold Controller.persist in H. apply bind_cases in H as (r1 & c1 & w1 & H1 & H).
  unfold get in H1. simplify_eq. apply bind_cases in H as (r2 & c2 & w2 & H2 & H).
  assert (ctl_durable c2 = ctl_durable c1) as Hd.
  { unfold zoom in H2. destruct (externalize_task_payloads _ _ _ _ _ _) as [[r d] w3]. by simplify_eq. }
  destruct r2 as [ext|]; [|by destruct H as (_ & -> & _)].
  apply bind_cases in H as (r3 & c3 & w3 & H3 & H). unfold save_state in H3. munfold.
  destruct (peek (w_io w2)); simplify_eq; [|by destruct H as (_ & -> & _)].
  by apply apply_updates_ok in H.
Qed.

End Commit.
