(* ===== verification/ControllerSessions.v ===== *)
(** * Workspace sessions of a controller
      ([crates/machine-fabric-runtime/src/controller.rs])

    The handlers [session.put], [session.transition], [session.handoff] and
    [session.accept-handoff], and the routing of an action to the controller
    that has the authority over its session. The gate of a session
    ([session_gate]) runs the handlers of one session one after the other. *)
From Stdlib Require Import Ascii.
From stdpp Require Import base gmap strings list.
From S2P Require Import Prelude Json Schema Protocol Leases Tasks Store Payloads Controller.
Open Scope Z_scope.
Open Scope fabric_scope.

Definition session_is (id : string) (s : WorkspaceSession) : bool := String.eqb (meta_id (session_metadata s)) id.
Definition peer_is (id : string) (p : ControllerPeer) : bool := String.eqb (meta_id (peer_metadata p)) id.
Definition find_session (id : string) (s : FabricState) : option WorkspaceSession :=
  find (session_is id) (st_sessions s).
Definition authority_of (id : string) (s : FabricState) : option SessionAuthority :=
  find_session id s ≫= session_authority.

Definition put_session (s : WorkspaceSession) : M Controller RpcError unit :=
  modify (set_fabric (set_sessions (fun l => upsert_by l s (session_is (meta_id (session_metadata s)))))).

Definition touched (now : Z) (s : WorkspaceSession) : WorkspaceSession :=
  let m := session_metadata s in
  mkWorkspaceSession (session_api_version s)
    (mkMetadata (meta_id m) (meta_labels m) (meta_created_at m) now)
    (session_objective s) (session_state s) (session_authority s).
Definition with_state (st : SessionState) (s : WorkspaceSession) : WorkspaceSession :=
  mkWorkspaceSession (session_api_version s) (session_metadata s) (session_objective s) st (session_authority s).

(** [{:?}] of a string, for the escapes of ASCII text. *)
Definition quote : string := String (ascii_of_nat 34) EmptyString.
Fixpoint escape_debug (s : string) : string :=
  match s with
  | EmptyString => ""
  | String a s' =>
      let n := nat_of_ascii a in
      (if Nat.eqb n 34 || Nat.eqb n 92 then String (ascii_of_nat 92) (String a "")
       else if Nat.eqb n 10 then "\n" else if Nat.eqb n 13 then "\r" else if Nat.eqb n 9 then "\t"
       else String a "") +:+ escape_debug s'
  end.
Definition debug_option_str (o : option string) : string :=
  match o with None => "None" | Some s => "Some(" +:+ quote +:+ escape_debug s +:+ quote +:+ ")" end.

(** What a session takes along when it is handed off. *)
Record Bundle := mkBundle {
  bd_session : WorkspaceSession;
  bd_tasks : list Task;
  bd_artifacts : list Artifact;
  bd_generations : list Generation;
  bd_transactions : list ActivationTransaction;
  bd_agents : list AgentInstance;
  bd_handoffs : list Handoff;
}.

(** [Controller::session_bundle] *)
Definition session_bundle (session : WorkspaceSession) (c : Controller) : Bundle :=
  let sid := meta_id (session_metadata session) in
  let st := ctl_state c in
  mkBundle session
    (base.filter (fun t => task_workspace_session_id t = sid) (Tasks.snapshot (ctl_tasks c)))
    (base.filter (fun a => prov_workspace_session_id (artifact_provenance a) = sid) (st_artifacts st))
    (base.filter (fun g => generation_workspace_session_id g = sid) (st_generations st))
    (base.filter (fun t => tx_workspace_session_id t = sid) (st_transactions st))
    (base.filter (fun a => agent_workspace_session_id a = sid) (st_agents st))
    (base.filter (fun h => handoff_workspace_session_id h = sid) (st_handoffs st)).

(** What deserializing the parameters of [session.accept-handoff] yields, key by key: the values,
    or the error that the handler meets when it comes to the key. *)
Record AcceptParams := mkAcceptParams {
  ap_session : result RpcError WorkspaceSession;
  ap_tasks : result RpcError (list Task);
  ap_artifacts : result RpcError (list Artifact);
  ap_generations : result RpcError (list Generation);
  ap_transactions : result RpcError (list ActivationTransaction);
  ap_agents : result RpcError (list AgentInstance);
  ap_handoffs : result RpcError (list Handoff);
}.
Definition bundle_params (b : Bundle) : AcceptParams :=
  mkAcceptParams (Ok (bd_session b)) (Ok (bd_tasks b)) (Ok (bd_artifacts b)) (Ok (bd_generations b))
    (Ok (bd_transactions b)) (Ok (bd_agents b)) (Ok (bd_handoffs b)).

(** [for item in .. { upsert_by(&mut items, item, |existing| existing.key == key) }] *)
Definition upsert_all {A} (key : A -> string) (news : list A) (items : list A) : list A :=
  fold_left (fun items x => upsert_by items x (fun y => String.eqb (key y) (key x))) news items.

Section Sessions.
Context (to_vec : Value -> option string) (sha256_hex : string -> string) (torn : string -> string).
Context (store : JsonStore).
#[local] Abbreviation persist := (persist to_vec sha256_hex torn store).

(** [session.put] *)
Definition session_put (params : result string WorkspaceSession) : M Controller RpcError WorkspaceSession :=
  let* session := lift (map_err (rpc_error "INVALID_PARAMS") params) in
  let* c := get in
  let* session :=
    match session_authority session with
    | None => ret (with_authority session (Some (mkSessionAuthority (ctl_id c) 1 None)))
    | Some authority =>
        if String.eqb (auth_controller_id authority) (ctl_id c) then
          if bool_decide (authority_of (meta_id (session_metadata session)) (ctl_state c) = Some authority)
          then ret session
          else fail (rpc_error "INVALID_AUTHORITY" "session authority can only change through handoff")
        else fail (rpc_error "NOT_SESSION_AUTHORITY"
                     ("session " +:+ meta_id (session_metadata session) +:+ " is owned by controller "
                        +:+ auth_controller_id authority))
    end in
  put_session session ;;
  persist ;;
  ret session.

(** [session.transition] *)
Definition session_transition (params : Value) (state : result string SessionState)
    : M Controller RpcError WorkspaceSession :=
  let* id := lift (required_str params "sessionId") in
  let* session_state := lift match vget "state" params with
                             | None => Err (rpc_error "INVALID_PARAMS" "state is required")
                             | Some _ => map_err (rpc_error "INVALID_PARAMS") state
                             end in
  let* c := get in
  match find_session id (ctl_state c) with
  | None => fail (rpc_error "SESSION_NOT_FOUND" ("unknown session: " +:+ id))
  | Some session =>
      let* now := now_ms in
      let result := touched now (with_state session_state session) in
      put_session result ;;
      persist ;;
      ret result
  end.

(** The part of [session.accept-handoff] that refuses a handoff or finds it done already. *)
Definition accept_check (session : WorkspaceSession) (authority : SessionAuthority) (c : Controller)
    : result RpcError (option WorkspaceSession) :=
  match find_session (meta_id (session_metadata session)) (ctl_state c) with
  | None => Ok None
  | Some existing =>
      if bool_decide (session_authority existing = Some authority) then Ok (Some existing)
      else match session_authority existing with
           | Some current =>
               if auth_epoch authority <=? auth_epoch current
               then Err (rpc_error "STALE_AUTHORITY_EPOCH" "handoff epoch must increase")
               else Ok None
           | None => Ok None
           end
  end.

(** The records of the bundle, and the task table made of the task list. *)
Definition accept_records (params : AcceptParams) : M Controller RpcError unit :=
  let* tasks := lift (ap_tasks params) in
  modify (set_fabric (set_task_list (upsert_all task_id tasks))) ;;
  let* artifacts := lift (ap_artifacts params) in
  modify (set_fabric (set_artifacts (upsert_all artifact_digest artifacts))) ;;
  let* generations := lift (ap_generations params) in
  modify (set_fabric (set_generations (upsert_all generation_id generations))) ;;
  let* transactions := lift (ap_transactions params) in
  modify (set_fabric (set_transactions (upsert_all tx_id transactions))) ;;
  let* agents := lift (ap_agents params) in
  modify (set_fabric (set_agents (upsert_all agent_id agents))) ;;
  let* handoffs := lift (ap_handoffs params) in
  modify (set_fabric (set_handoffs (upsert_all handoff_id handoffs))) ;;
  modify (fun c => set_fabric (set_task_list (fun _ => [])) (set_tasks (from_tasks (st_tasks (ctl_state c))) c)).

(** [session.accept-handoff] *)
Definition accept_handoff (params : AcceptParams) : M Controller RpcError WorkspaceSession :=
  let* session := lift (ap_session params) in
  match session_authority session with
  | None => fail (rpc_error "INVALID_AUTHORITY" "handoff has no session authority")
  | Some authority =>
      let* c := get in
      if negb (String.eqb (auth_controller_id authority) (ctl_id c))
      then fail (rpc_error "INVALID_AUTHORITY" "handoff target does not match this controller")
      else
        let* already := lift (accept_check session authority c) in
        match already with
        | Some existing => ret existing
        | None =>
            put_session session ;;
            accept_records params ;;
            persist ;;
            ret session
        end
  end.

(** The part of [session.handoff] before the call: the handoff is marked, and the target and the
    session to send are determined. *)
Definition handoff_prepare (session_id target_id : string)
    : M Controller RpcError (ControllerPeer * WorkspaceSession) :=
  let* c := get in
  match find (peer_is target_id) (st_controllers (ctl_state c)) with
  | None => fail (rpc_error "CONTROLLER_NOT_FOUND" "target not registered")
  | Some target =>
      if existsb (fun t => String.eqb (task_workspace_session_id t) session_id && negb (terminal (task_state t)))
           (Tasks.snapshot (ctl_tasks c))
      then fail (rpc_error "SESSION_NOT_QUIESCENT" "session has queued or running tasks")
      else
        match find_session session_id (ctl_state c) with
        | None => fail (rpc_error "SESSION_NOT_FOUND" "session not found")
        | Some session =>
            match session_authority session with
            | None => fail (rpc_error "INVALID_AUTHORITY" "session has no authority")
            | Some current =>
                if negb (String.eqb (auth_controller_id current) (ctl_id c))
                then fail (rpc_error "NOT_SESSION_AUTHORITY"
                             ("session is owned by " +:+ auth_controller_id current))
                else
                  match auth_pending_controller_id current with
                  | Some pending =>
                      if String.eqb pending target_id then ret tt
                      else fail (rpc_error "HANDOFF_IN_PROGRESS"
                                   ("handoff is already pending to "
                                      +:+ debug_option_str (auth_pending_controller_id current)))
                  | None =>
                      put_session (with_authority session
                        (Some (mkSessionAuthority (ctl_id c) (auth_epoch current) (Some target_id)))) ;;
                      persist
                  end ;;
                  let* now := now_ms in
                  ret (target, touched now (with_authority session
                        (Some (mkSessionAuthority target_id (u64_saturating_add (auth_epoch current) 1) None))))
            end
        end
  end.

(** The part of [session.handoff] after the call. *)
Definition handoff_complete (session : WorkspaceSession) (response : result string Response)
    : M Controller RpcError WorkspaceSession :=
  match response with
  | Err error => fail (rpc_error "CONTROLLER_UNAVAILABLE" error)
  | Ok response =>
      if resp_ok response then
        put_session session ;;
        persist ;;
        ret session
      else fail (default (rpc_error "HANDOFF_REJECTED" "target rejected session handoff") (resp_error response))
  end.

(** [session.handoff]; [call_executor] makes the call. *)
Definition session_handoff (call_executor : ExecutorEndpoint -> Bundle -> result string Response)
    (params : Value) : M Controller RpcError WorkspaceSession :=
  let* session_id := lift (required_str params "sessionId") in
  let* target_id := lift (required_str params "targetControllerId") in
  let* prepared := handoff_prepare session_id target_id in
  let* c := get in
  handoff_complete prepared.2 (call_executor (peer_endpoint prepared.1) (session_bundle prepared.2 c)).

End Sessions.

(** ** Routing *)

(** The first of two options. *)
Definition or_else {A} (o o' : option A) : option A := match o with Some _ => o | None => o' end.

(** The state that [session_id_for_action] looks an identifier up in. *)
Definition session_id_from_records (c : Controller) (action : string) (params : Value) : option string :=
  let str key := vget key params ≫= as_str in
  if starts_with "agent." action then
    agent_workspace_session_id <$>
      (str "agentId" ≫= fun id => find (fun a => String.eqb (agent_id a) id) (st_agents (ctl_state c)))
  else if starts_with "task." action then
    task_workspace_session_id <$> (str "taskId" ≫= get_task (ctl_tasks c))
  else if starts_with "transaction." action then
    tx_workspace_session_id <$>
      (str "transactionId" ≫= fun id => find (fun t => String.eqb (tx_id t) id) (st_transactions (ctl_state c)))
  else if starts_with "handoff." action then
    handoff_workspace_session_id <$>
      (str "handoffId" ≫= fun id => find (fun h => String.eqb (handoff_id h) id) (st_handoffs (ctl_state c)))
  else None.

(** [Controller::session_id_for_action] *)
Definition session_id_for_action (c : Controller) (action : string) (params : Value) : option string :=
  let when (b : bool) (o : option string) := if b then o else None in
  or_else (or_else (vget "workspaceSessionId" params) (vget "sessionId" params) ≫= as_str)
  (or_else (when (String.eqb action "session.put")
              (pointer ["metadata"; "id"] params ≫= as_str))
  (or_else (when (String.eqb action "session.accept-handoff")
              (pointer ["session"; "metadata"; "id"] params ≫= as_str))
  (or_else (when (String.eqb action "artifact.put")
              (pointer ["provenance"; "workspaceSessionId"] params ≫= as_str))
  (or_else (when (starts_with "driver." action || starts_with "lease." action)
              ((vget "resource" params ≫= as_str) ≫= strip_prefix "workspace:"))
  (session_id_from_records c action params))))).

(** [Controller::route_session_action] *)
Definition route_session_action
    (call_executor : ExecutorEndpoint -> string -> Value -> result string Response)
    (c : Controller) (action : string) (params : Value) : result RpcError (option Value) :=
  if String.eqb action "session.put" || String.eqb action "session.accept-handoff" then Ok None
  else
    match session_id_for_action c action params with
    | None => Ok None
    | Some session_id =>
        let authority := authority_of session_id (ctl_state c) in
        match authority ≫= auth_pending_controller_id,
              negb (String.eqb action "session.get" || String.eqb action "session.handoff") with
        | Some target, true =>
            Err (rpc_error "SESSION_HANDOFF_IN_PROGRESS" ("session handoff to " +:+ target +:+ " is in progress"))
        | _, _ =>
            match auth_controller_id <$> authority with
            | None => Ok None
            | Some authority_id =>
                if String.eqb authority_id (ctl_id c) then Ok None
                else
                  match find (peer_is authority_id) (st_controllers (ctl_state c)) with
                  | None => Err (rpc_error "SESSION_AUTHORITY_UNAVAILABLE"
                                   ("home controller " +:+ authority_id +:+ " is not registered"))
                  | Some controller =>
                      match call_executor (peer_endpoint controller) action params with
                      | Err error => Err (rpc_error "SESSION_AUTHORITY_UNAVAILABLE" error)
                      | Ok response =>
                          if resp_ok response then Ok (Some (default VNull (resp_result response)))
                          else Err (default (rpc_error "SESSION_AUTHORITY_FAILED" "home controller rejected request")
                                      (resp_error response))
                      end
                  end
            end
        end
    end.
