(* ===== verification/ControllerRecords.v ===== *)
(** * The records of a controller ([crates/machine-fabric-runtime/src/controller.rs])

    The handlers of leases, approvals, activation transactions, agent
    handoffs, generations, agents, artifacts, executors and ports. A handler
    takes the parameters of the request; where the source deserializes a record
    from them, the outcome of the deserialization is an argument. A handler
    returns the record that the source serializes into the response. *)
From stdpp Require Import base gmap strings list pretty.
From S2P Require Import Prelude Json Schema Protocol Leases Tasks Store Payloads Controller.
Open Scope Z_scope.
Open Scope fabric_scope.

(** [map_lease_error] with the messages of [LeaseError] *)
Definition map_lease_error (error : LeaseError) : RpcError :=
  match error with
  | LeaseActive owner expires_at =>
      rpc_error "LEASE_ACTIVE" ("resource is leased by " +:+ owner +:+ " until " +:+ pretty expires_at)
  | LeaseNotFound => rpc_error "LEASE_NOT_FOUND" "lease not found"
  | LeaseOwnedByOther => rpc_error "LEASE_OWNED_BY_OTHER" "lease is owned by another writer"
  | LeaseInvalidHandoff => rpc_error "INVALID_HANDOFF" "handoff target does not match"
  end.

Definition on_leases {A} (m : M LeaseTable LeaseError A) : M Controller RpcError A :=
  with_err map_lease_error (zoom ctl_leases set_leases m).

Definition opt_str (params : Value) (key : string) : option string := vget key params ≫= as_str.
Definition opt_u64 (params : Value) (key : string) : option Z := vget key params ≫= as_u64.
Definition ttl_of (params : Value) : Z := default 300000 (opt_u64 params "ttlMs").

(** [if let Some(x) = items.iter_mut().find(p) { *x = f(x) }] *)
Fixpoint update_first {A} (p : A -> bool) (f : A -> A) (l : list A) : list A :=
  match l with
  | [] => []
  | x :: l' => if p x then f x :: l' else x :: update_first p f l'
  end.

Definition deserialized {A} (r : result string A) : result RpcError A := map_err (rpc_error "INVALID_PARAMS") r.
(** The field [key], deserialized. *)
Definition field_as {A} (params : Value) (key : string) (r : result string A) : result RpcError A :=
  match vget key params with
  | None => Err (rpc_error "INVALID_PARAMS" (key +:+ " is required"))
  | Some _ => deserialized r
  end.

(** ** Approvals *)

Definition approval_is (id : string) (a : Approval) : bool := String.eqb (approval_id a) id.
Definition open_approval (digest owner : string) (a : Approval) : bool :=
  String.eqb (approval_digest a) digest && String.eqb (approval_owner a) owner
  && match approval_state a with APending | AApproved => true | _ => false end.

Definition approved (now ttl : Z) (a : Approval) : Approval :=
  mkApproval (approval_id a) (approval_digest a) (approval_owner a) (approval_reason a) AApproved
    (approval_created_at a) (Some now) (approval_consumed_at a) (Some (u64_saturating_add now ttl)).
Definition revoked (a : Approval) : Approval :=
  mkApproval (approval_id a) (approval_digest a) (approval_owner a) (approval_reason a) ARevoked
    (approval_created_at a) (approval_approved_at a) (approval_consumed_at a) (approval_expires_at a).
Definition consumed (now : Z) (a : Approval) : Approval :=
  mkApproval (approval_id a) (approval_digest a) (approval_owner a) (approval_reason a) AConsumed
    (approval_created_at a) (approval_approved_at a) (Some now) (approval_expires_at a).

(** ** Transactions *)

Definition transaction_is (id : string) (t : ActivationTransaction) : bool := String.eqb (tx_id t) id.

Definition finishes (s : TransactionStepState) : bool :=
  match s with StepSucceeded | StepFailed | StepCompensated | StepOutcomeUnknown => true | _ => false end.

(** [x as u32] *)
Definition as_u32 (n : Z) : Z := n mod (U32_MAX + 1).

Definition new_entry (t : ActivationTransaction) (step : string) (step_state : TransactionStepState)
    (params : Value) (now : Z) : TransactionJournalEntry :=
  mkTransactionJournalEntry (Z.of_nat (length (tx_journal t)) + 1) step step_state
    (as_u32 (default 1 (opt_u64 params "attempt"))) (default now (opt_u64 params "startedAt"))
    (if finishes step_state then Some now else None)
    (opt_str params "inputDigest") (opt_str params "outputDigest") (opt_str params "executorId")
    (opt_u64 params "fence") (default VNull (vget "details" params)).

(** The state of a transaction after a step was recorded. *)
Definition state_after (step : string) (s : TransactionStepState) (old : TransactionState) : TransactionState :=
  match s with
  | StepStarted => TxRunning
  | StepSucceeded => if String.eqb step "activate" then TxActivated else old
  | StepFailed => TxFailed
  | StepOutcomeUnknown => TxOutcomeUnknown
  | StepCompensated => TxRolledBack
  | StepPlanned => old
  end.

Definition steps_after (step : string) (s : TransactionStepState) (steps : list string) : list string :=
  match s with
  | StepSucceeded => if existsb (String.eqb step) steps then steps else steps ++ [step]
  | _ => steps
  end.

(** The changes that [transaction.record] makes to the transaction. *)
Definition recorded (step : string) (step_state : TransactionStepState) (params : Value) (now : Z)
    (t : ActivationTransaction) : ActivationTransaction :=
  mkActivationTransaction (tx_id t) (tx_workspace_session_id t) (tx_idempotency_key t) (tx_target t)
    (tx_generation_id t)
    (match (if String.eqb step "activate" then opt_str params "previousGenerationId" else None) with
     | Some previous => Some previous
     | None => tx_previous_generation_id t
     end)
    (state_after step step_state (tx_state t)) (tx_created_at t) now
    (steps_after step step_state (tx_completed_steps t))
    (tx_journal t ++ [new_entry t step step_state params now])
    (tx_lease_fence t) (tx_evidence t) (tx_error t).

(** ** Generations *)

(** [generation_transition_allowed] *)
Definition generation_transition_allowed (from to : GenerationState) : bool :=
  bool_decide (from = to)
  || match from, to with
     | GReserved, GMaterializing | GReserved, GFailed
     | GMaterializing, GMaterialized | GMaterializing, GFailed
     | GMaterialized, GValidated | GMaterialized, GFailed
     | GValidated, GFinalized | GValidated, GFailed
     | GFinalized, GSmokePassed | GFinalized, GFailed
     | GSmokePassed, GActive | GSmokePassed, GFailed
     | GActive, GSuperseded => true
     | _, _ => false
     end.

(** [{:?}] of a generation state *)
Definition generation_state_debug (s : GenerationState) : string :=
  match s with
  | GReserved => "Reserved" | GMaterializing => "Materializing" | GMaterialized => "Materialized"
  | GValidated => "Validated" | GFinalized => "Finalized" | GSmokePassed => "SmokePassed"
  | GActive => "Active" | GSuperseded => "Superseded" | GFailed => "Failed"
  end.

Definition generation_is (id : string) (g : Generation) : bool := String.eqb (generation_id g) id.
Definition same_generation (existing g : Generation) : bool :=
  String.eqb (generation_workspace_session_id existing) (generation_workspace_session_id g)
  && String.eqb (generation_root existing) (generation_root g)
  && String.eqb (baseline_digest (generation_baseline existing)) (baseline_digest (generation_baseline g)).

(** ** Handoffs between agents *)

Definition handoff_is (id : string) (h : Handoff) : bool := String.eqb (handoff_id h) id.
Definition with_handoff (h : Handoff) (id : string) (created : Z) (acknowledged completed : option Z) : Handoff :=
  mkHandoff id (handoff_workspace_session_id h) (handoff_objective h) (handoff_from h) (handoff_to h)
    (handoff_artifacts h) (handoff_evidence h) (handoff_completed_actions h) (handoff_pending_actions h)
    (handoff_acceptance_criteria h) (handoff_constraints h) (handoff_blockers h) created acknowledged completed.

Definition executor_is (id : string) (e : Executor) : bool := String.eqb (meta_id (executor_metadata e)) id.
Definition agent_with_state (s : AgentState) (a : AgentInstance) : AgentInstance :=
  mkAgentInstance (agent_id a) (agent_workspace_session_id a) (agent_executor_id a) (agent_role a)
    (agent_provider a) s (agent_metadata a).

Section Records.
Context (to_vec : Value -> option string) (sha256_hex : string -> string) (torn : string -> string).
Context (store : JsonStore).
#[local] Abbreviation persist := (persist to_vec sha256_hex torn store).

Definition on_state (f : FabricState -> FabricState) : M Controller RpcError unit := modify (set_fabric f).

(** [driver.acquire], [lease.acquire] *)
Definition lease_acquire (kind : LeaseKind) (params : Value) : M Controller RpcError Lease :=
  let* resource := lift (required_str params "resource") in
  let* owner := lift (required_str params "owner") in
  let* lease := on_leases (acquire kind resource owner (ttl_of params)) in
  persist ;;
  ret lease.

(** [driver.renew], [lease.renew] *)
Definition lease_renew (params : Value) : M Controller RpcError Lease :=
  let* resource := lift (required_str params "resource") in
  let* owner := lift (required_str params "owner") in
  let* token := lift (required_str params "token") in
  let* lease := on_leases (renew resource owner token (ttl_of params)) in
  persist ;;
  ret lease.

(** [driver.handoff] *)
Definition driver_handoff (params : Value) : M Controller RpcError Lease :=
  let* resource := lift (required_str params "resource") in
  let* owner := lift (required_str params "owner") in
  let* token := lift (required_str params "token") in
  let* target := lift (required_str params "target") in
  let* lease := on_leases (handoff resource owner token target) in
  persist ;;
  ret lease.

(** [driver.take] *)
Definition driver_take (params : Value) : M Controller RpcError Lease :=
  let* resource := lift (required_str params "resource") in
  let* owner := lift (required_str params "owner") in
  let* c := get in
  let* lease :=
    match get_lease (ctl_leases c) resource with
    | Some _ => on_leases (take_handoff resource owner (ttl_of params))
    | None => on_leases (acquire Driver resource owner (ttl_of params))
    end in
  persist ;;
  ret lease.

(** [driver.release], [lease.release] *)
Definition lease_release (params : Value) : M Controller RpcError Lease :=
  let* resource := lift (required_str params "resource") in
  let* owner := lift (required_str params "owner") in
  let* token := lift (required_str params "token") in
  let* lease := on_leases (release resource owner token) in
  persist ;;
  ret lease.

(** [approval.request] *)
Definition approval_request (params : Value) : M Controller RpcError Approval :=
  let* digest := lift (required_str params "digest") in
  let* owner := lift (required_str params "owner") in
  let* c := get in
  match find (open_approval digest owner) (st_approvals (ctl_state c)) with
  | Some existing => ret existing
  | None =>
      let* uuid := new_v4 in
      let* reason := lift (required_str params "reason") in
      let* now := now_ms in
      let approval := mkApproval ("approval_" +:+ uuid) digest owner reason APending now None None None in
      on_state (set_approvals (fun l => l ++ [approval])) ;;
      persist ;;
      ret approval
  end.

(** [approval.approve] *)
Definition approval_approve (params : Value) : M Controller RpcError Approval :=
  let* id := lift (required_str params "approvalId") in
  let* c := get in
  match find (approval_is id) (st_approvals (ctl_state c)) with
  | None => fail (rpc_error "APPROVAL_NOT_FOUND" ("unknown approval: " +:+ id))
  | Some approval =>
      match approval_state approval with
      | APending =>
          let* now := now_ms in
          on_state (set_approvals (update_first (approval_is id) (approved now (ttl_of params)))) ;;
          persist ;;
          ret (approved now (ttl_of params) approval)
      | _ => fail (rpc_error "APPROVAL_NOT_PENDING" "approval is not pending")
      end
  end.

(** [approval.revoke] *)
Definition approval_revoke (params : Value) : M Controller RpcError Approval :=
  let* id := lift (required_str params "approvalId") in
  let* c := get in
  match find (approval_is id) (st_approvals (ctl_state c)) with
  | None => fail (rpc_error "APPROVAL_NOT_FOUND" ("unknown approval: " +:+ id))
  | Some approval =>
      on_state (set_approvals (update_first (approval_is id) revoked)) ;;
      persist ;;
      ret (revoked approval)
  end.

(** [transaction.begin]: the transaction and whether it was there already *)
Definition transaction_begin (params : Value) : M Controller RpcError (ActivationTransaction * bool) :=
  let* key := lift (required_str params "idempotencyKey") in
  let* c := get in
  match find (fun t => String.eqb (tx_idempotency_key t) key) (st_transactions (ctl_state c)) with
  | Some existing => ret (existing, true)
  | None =>
      let* now := now_ms in
      let* uuid := new_v4 in
      let* session := lift (required_str params "workspaceSessionId") in
      let* target := lift (required_str params "target") in
      let* generation := lift (required_str params "generationId") in
      let transaction :=
        mkActivationTransaction ("transaction_" +:+ uuid) session key target generation
          (opt_str params "previousGenerationId") TxPlanned now now [] []
          (opt_u64 params "leaseFence") [] None in
      on_state (set_transactions (fun l => l ++ [transaction])) ;;
      persist ;;
      ret (transaction, false)
  end.

(** [transaction.record] *)
Definition transaction_record (params : Value) (state : result string TransactionStepState)
    : M Controller RpcError ActivationTransaction :=
  let* id := lift (required_str params "transactionId") in
  let* step := lift (required_str params "step") in
  let* step_state := lift (field_as params "state" state) in
  let* c := get in
  match find (transaction_is id) (st_transactions (ctl_state c)) with
  | None => fail (rpc_error "TRANSACTION_NOT_FOUND" ("unknown transaction: " +:+ id))
  | Some transaction =>
      match tx_lease_fence transaction, opt_u64 params "fence" with
      | Some expected, Some actual =>
          if expected =? actual then ret tt
          else fail (rpc_error "STALE_FENCING_TOKEN"
                       ("transaction fence is " +:+ pretty expected +:+ ", request used " +:+ pretty actual))
      | _, _ => ret tt
      end ;;
      let* now := now_ms in
      on_state (set_transactions (update_first (transaction_is id) (recorded step step_state params now))) ;;
      persist ;;
      ret (recorded step step_state params now transaction)
  end.

(** [handoff.create] *)
Definition handoff_create (params : result string Handoff) : M Controller RpcError Handoff :=
  let* h := lift (deserialized params) in
  let* id := if str_is_empty (handoff_id h)
             then let* uuid := new_v4 in ret ("handoff_" +:+ uuid) else ret (handoff_id h) in
  let* created := if handoff_created_at h =? 0 then now_ms else ret (handoff_created_at h) in
  let h := with_handoff h id created (handoff_acknowledged_at h) (handoff_completed_at h) in
  on_state (set_handoffs (fun l => l ++ [h])) ;;
  persist ;;
  ret h.

(** [handoff.acknowledge] and [handoff.complete] *)
Definition handoff_progress (acknowledge : bool) (params : Value) : M Controller RpcError Handoff :=
  let* id := lift (required_str params "handoffId") in
  let* c := get in
  match find (handoff_is id) (st_handoffs (ctl_state c)) with
  | None => fail (rpc_error "HANDOFF_NOT_FOUND" ("unknown handoff: " +:+ id))
  | Some h =>
      let* now := now_ms in
      let* h' :=
        if acknowledge then
          match handoff_acknowledged_at h with
          | Some _ => fail (rpc_error "HANDOFF_ALREADY_ACKNOWLEDGED" ("handoff already acknowledged: " +:+ id))
          | None => ret (with_handoff h (handoff_id h) (handoff_created_at h) (Some now) (handoff_completed_at h))
          end
        else
          match handoff_acknowledged_at h with
          | None => fail (rpc_error "HANDOFF_NOT_ACKNOWLEDGED" "handoff must be acknowledged before completion")
          | Some t => ret (with_handoff h (handoff_id h) (handoff_created_at h) (Some t) (Some now))
          end in
      on_state (set_handoffs (update_first (handoff_is id) (fun _ => h'))) ;;
      persist ;;
      ret h'
  end.

(** [generation.put] *)
Definition generation_put (params : result string Generation) : M Controller RpcError Generation :=
  let* g := lift (deserialized params) in
  let* c := get in
  match find (generation_is (generation_id g)) (st_generations (ctl_state c)) with
  | Some existing =>
      if negb (same_generation existing g)
      then fail (rpc_error "GENERATION_IDENTITY_CONFLICT" "generation identity fields are immutable")
      else if negb (generation_transition_allowed (generation_state existing) (generation_state g))
      then fail (rpc_error "INVALID_GENERATION_STATE"
                   ("invalid generation transition " +:+ generation_state_debug (generation_state existing)
                      +:+ " -> " +:+ generation_state_debug (generation_state g)))
      else ret tt
  | None => ret tt
  end ;;
  on_state (set_generations (fun l => upsert_by l g (generation_is (generation_id g)))) ;;
  persist ;;
  ret g.

(** [artifact.put] *)
Definition artifact_put (params : result string Artifact) : M Controller RpcError Artifact :=
  let* a := lift (deserialized params) in
  on_state (set_artifacts (fun l => upsert_by l a (fun x => String.eqb (artifact_digest x) (artifact_digest a)))) ;;
  persist ;;
  ret a.

(** [agent.put] *)
Definition agent_put (params : result string AgentInstance) : M Controller RpcError AgentInstance :=
  let* a := lift (deserialized params) in
  on_state (set_agents (fun l => upsert_by l a (fun x => String.eqb (agent_id x) (agent_id a)))) ;;
  persist ;;
  ret a.

(** [agent.transition] *)
Definition agent_transition (params : Value) (state : result string AgentState)
    : M Controller RpcError AgentInstance :=
  let* id := lift (required_str params "agentId") in
  let* s := lift (field_as params "state" state) in
  let* c := get in
  match find (fun a => String.eqb (agent_id a) id) (st_agents (ctl_state c)) with
  | None => fail (rpc_error "AGENT_NOT_FOUND" ("unknown agent: " +:+ id))
  | Some a =>
      on_state (set_agents (update_first (fun a => String.eqb (agent_id a) id) (agent_with_state s))) ;;
      persist ;;
      ret (agent_with_state s a)
  end.

(** [executor.put] *)
Definition executor_put (params : result string Executor) : M Controller RpcError Executor :=
  let* e := lift (deserialized params) in
  on_state (set_executors (fun l => upsert_by l e (executor_is (meta_id (executor_metadata e))))) ;;
  persist ;;
  ret e.

(** [executor.unregister]: whether one was removed *)
Definition executor_unregister (params : Value) : M Controller RpcError bool :=
  let* id := lift (required_str params "executorId") in
  let* c := get in
  let kept := List.filter (fun e => negb (executor_is id e)) (st_executors (ctl_state c)) in
  let removed := negb (Nat.eqb (length kept) (length (st_executors (ctl_state c)))) in
  on_state (set_executors (fun _ => kept)) ;;
  (if removed then persist else ret tt) ;;
  ret removed.

(** [executor.remove] *)
Definition executor_remove (params : Value) : M Controller RpcError unit :=
  let* id := lift (required_str params "executorId") in
  let* c := get in
  let kept := List.filter (fun e => negb (executor_is id e)) (st_executors (ctl_state c)) in
  on_state (set_executors (fun _ => kept)) ;;
  if Nat.eqb (length kept) (length (st_executors (ctl_state c)))
  then fail (rpc_error "EXECUTOR_NOT_FOUND" ("unknown executor: " +:+ id))
  else persist.

(** [controller.unregister]: whether one was removed *)
Definition controller_unregister (params : Value) : M Controller RpcError bool :=
  let* id := lift (required_str params "controllerId") in
  let* c := get in
  if String.eqb id (ctl_id c)
  then fail (rpc_error "CONTROLLER_SELF_UNREGISTER" "a Controller cannot unregister itself")
  else
    let kept := List.filter (fun p => negb (String.eqb (meta_id (peer_metadata p)) id)) (st_controllers (ctl_state c)) in
    let removed := negb (Nat.eqb (length kept) (length (st_controllers (ctl_state c)))) in
    on_state (set_controllers (fun _ => kept)) ;;
    (if removed then persist else ret tt) ;;
    ret removed.

(** ** The requests of this file *)

Inductive record_op :=
| OpLeaseAcquire (kind : LeaseKind) (params : Value)
| OpLeaseRenew (params : Value)
| OpDriverHandoff (params : Value)
| OpDriverTake (params : Value)
| OpLeaseRelease (params : Value)
| OpApprovalRequest (params : Value)
| OpApprovalApprove (params : Value)
| OpApprovalRevoke (params : Value)
| OpTransactionBegin (params : Value)
| OpTransactionRecord (params : Value) (state : result string TransactionStepState)
| OpHandoffCreate (params : result string Handoff)
| OpHandoffProgress (acknowledge : bool) (params : Value)
| OpGenerationPut (params : result string Generation)
| OpArtifactPut (params : result string Artifact)
| OpAgentPut (params : result string AgentInstance)
| OpAgentTransition (params : Value) (state : result string AgentState)
| OpExecutorPut (params : result string Executor)
| OpExecutorUnregister (params : Value)
| OpExecutorRemove (params : Value)
| OpControllerUnregister (params : Value).

Definition run_record (op : record_op) : M Controller RpcError unit :=
  let discard {A} (m : M Controller RpcError A) := m ;; ret tt in
  match op with
  | OpLeaseAcquire kind params => discard (lease_acquire kind params)
  | OpLeaseRenew params => discard (lease_renew params)
  | OpDriverHandoff params => discard (driver_handoff params)
  | OpDriverTake params => discard (driver_take params)
  | OpLeaseRelease params => discard (lease_release params)
  | OpApprovalRequest params => discard (approval_request params)
  | OpApprovalApprove params => discard (approval_approve params)
  | OpApprovalRevoke params => discard (approval_revoke params)
  | OpTransactionBegin params => discard (transaction_begin params)
  | OpTransactionRecord params state => discard (transaction_record params state)
  | OpHandoffCreate params => discard (handoff_create params)
  | OpHandoffProgress acknowledge params => discard (handoff_progress acknowledge params)
  | OpGenerationPut params => discard (generation_put params)
  | OpArtifactPut params => discard (artifact_put params)
  | OpAgentPut params => discard (agent_put params)
  | OpAgentTransition params state => discard (agent_transition params state)
  | OpExecutorPut params => discard (executor_put params)
  | OpExecutorUnregister params => discard (executor_unregister params)
  | OpExecutorRemove params => executor_remove params
  | OpControllerUnregister params => discard (controller_unregister params)
  end.

End Records.
