(* ===== verification/ControllerRelay.v ===== *)
(** * The controller's side of an artifact relay ([artifact.transfer],
      [relay_artifact] and [relay_archive] of
      [crates/machine-fabric-runtime/src/controller.rs])

    The controller copies an archive, or file by file for executors without
    archives, from one executor to another in chunks, under a lease of the
    destination. A call acts on the controller and on the executors: other
    requests may run meanwhile. Telemetry ([transfer_event]) is not modelled. *)
From stdpp Require Import base gmap strings list pretty.
From S2P Require Import Prelude Json Schema Protocol Leases Tasks Store Payloads Controller ControllerRecords.
Open Scope Z_scope.
Open Scope fabric_scope.

(** The fuel of a loop is exhausted. *)
Definition relay_out_of_fuel : RpcError := rpc_error "OUT_OF_FUEL" "".

(** [transfer_error] *)
Definition transfer_error (stage : string) (offset chunks : Z) (error : RpcError) : RpcError :=
  mkRpcError (err_code error) (err_message error) (err_retryable error)
    (obj_of [("stage", VString stage); ("failureOffset", vu64 offset); ("transferredBytes", vu64 offset);
             ("chunks", vu64 chunks); ("retryCount", vu64 0); ("cause", err_details error)]).

Definition u64_mul (a b : Z) : Z := (a * b) mod (U64_MAX + 1).
Definition u64_saturating_mul (a b : Z) : Z := Z.min (a * b) U64_MAX.

Definition throughput (archive_size duration : Z) : Z :=
  if duration =? 0 then u64_mul archive_size 1000 else u64_saturating_mul archive_size 1000 / duration.

(** [==] of optional values *)
Definition opt_value_eqb (a b : option Value) : bool :=
  match a, b with Some x, Some y => value_eqb x y | None, None => true | _, _ => false end.

Definition CHUNK : Z := 8388608.

Record Transfer := mkTransfer { tr_offset : Z; tr_chunks : Z; tr_encoded : Z }.

Section Relay.
Context (to_vec : Value -> option string) (sha256_hex : string -> string) (torn : string -> string) (store : JsonStore).
Context {Net : Type}.

(** The controller and the machines it calls. *)
Record Fabric := mkFabric { fab_ctl : Controller; fab_net : Net }.
Definition set_ctl (c : Controller) (f : Fabric) : Fabric := mkFabric c (fab_net f).
Definition set_net (n : Net) (f : Fabric) : Fabric := mkFabric (fab_ctl f) n.
Definition on_ctl {E A} (m : M Controller E A) : M Fabric E A := zoom fab_ctl set_ctl m.

(** [call_executor]: the text of a transport error, or the response. *)
Context (call_executor : ExecutorEndpoint -> string -> Value -> M Fabric string Response).

#[local] Abbreviation persist := (persist to_vec sha256_hex torn store).

(** [Controller::call_registered_executor] *)
Definition call_registered_executor (executor_id action : string) (params : Value) : M Fabric RpcError Value :=
  let* c := gets fab_ctl in
  match find (executor_is executor_id) (st_executors (ctl_state c)) with
  | None => fail (rpc_error "EXECUTOR_NOT_FOUND" ("unknown executor: " +:+ executor_id))
  | Some executor =>
      let* response := with_err (fun text => mkRpcError "EXECUTOR_UNAVAILABLE" text true VNull)
                         (call_executor (executor_endpoint executor) action params) in
      if resp_ok response then ret (default VNull (resp_result response))
      else fail (default (rpc_error "EXECUTOR_FAILED" "executor failed") (resp_error response))
  end.

Definition relay_resource (destination_path : string) : string := "artifact-relay:" +:+ destination_path.
Definition relay_authority (id resource : string) (fence : Z) : Value :=
  VArray [obj_of [("controllerId", VString id); ("resource", VString resource); ("fence", vu64 fence)]].

(** The end of both relays: the lease is released and the state committed, whatever the result. *)
Definition under_lease {A} (destination_path : string) (body : string -> Value -> M Fabric RpcError A) : M Fabric RpcError A :=
  let* c := gets fab_ctl in
  let resource := relay_resource destination_path in
  let owner := "controller:" +:+ ctl_id c in
  let* lease := on_ctl (on_leases (acquire Resource resource owner 3600000)) in
  on_ctl persist ;;
  let* uuid := new_v4 in
  let staging := destination_path +:+ ".machine-fabric-relay-" +:+ uuid in
  let* result := attempt (body staging (relay_authority (ctl_id c) resource (lease_fence lease))) in
  let* _ := attempt (F := RpcError) (on_ctl (on_leases (release resource owner (lease_token lease)))) in
  on_ctl persist ;;
  lift result.

(** The loop of [relay_archive] over the chunks *)
Fixpoint copy_archive (fuel : nat) (source_executor destination_executor destination_path staging token : string)
    (authority : Value) (archive_size : Z) (tr : Transfer) : M Fabric RpcError Transfer :=
  let offset := tr_offset tr in
  let chunks := tr_chunks tr in
  if offset <? archive_size then
    match fuel with
    | O => fail relay_out_of_fuel
    | S fuel' =>
        let* chunk := with_err (transfer_error "reading" offset chunks)
          (call_registered_executor source_executor "artifact.relay.archive.read"
             (obj_of [("token", VString token); ("offset", vu64 offset); ("limit", vu64 CHUNK)])) in
        let* bytes := lift (ok_or (opt_u64 chunk "bytes") (rpc_error "INVALID_ARTIFACT" "archive chunk has no byte count")) in
        if bytes =? 0
        then fail (transfer_error "reading" offset chunks
                     (rpc_error "ARTIFACT_TRANSFER_FAILED" "unexpected EOF while reading archive"))
        else
          let chunks := u64_add chunks 1 in
          let encoded := u64_add (tr_encoded tr) (match opt_str chunk "data" with Some data => str_len data | None => 0 end) in
          let* _ := with_err (transfer_error "writing" offset chunks)
            (call_registered_executor destination_executor "artifact.relay.archive.write"
               (obj_of [("destination", VString destination_path); ("staging", VString staging); ("offset", vu64 offset);
                        ("data", vindex chunk "data"); ("_authority", authority)])) in
          copy_archive fuel' source_executor destination_executor destination_path staging token authority archive_size
            (mkTransfer (u64_saturating_add offset bytes) chunks encoded)
    end
  else ret tr.

(** What [artifact.relay.archive.create] answered *)
Record Archive := mkArchive { ar_token : string; ar_digest : string; ar_archive_size : Z; ar_size : Z; ar_files : Z }.
Definition read_archive (archive : Value) : result RpcError Archive :=
  bind_result (required_str archive "token") (fun token =>
  bind_result (required_str archive "digest") (fun digest =>
  bind_result (ok_or (opt_u64 archive "archiveSize") (rpc_error "INVALID_ARTIFACT" "archive size is required")) (fun archive_size =>
  bind_result (ok_or (opt_u64 archive "size") (rpc_error "INVALID_ARTIFACT" "artifact size is required")) (fun size =>
  bind_result (ok_or (opt_u64 archive "files") (rpc_error "INVALID_ARTIFACT" "artifact file count is required")) (fun files =>
  Ok (mkArchive token digest archive_size size files)))))).

Definition archive_answer (source_executor destination_executor destination_path mode : string) (a : Archive) (tr : Transfer)
    (relay_ms commit_ms : Z) (committed : Value) : Value :=
  obj_of [("source", obj_of [("executorId", VString source_executor)]);
    ("destination", obj_of [("executorId", VString destination_executor); ("path", VString destination_path)]);
    ("mode", VString mode); ("transport", VString "archive"); ("compression", VString "gzip");
    ("archiveSize", vu64 (ar_archive_size a)); ("digest", vindex committed "digest"); ("size", vindex committed "size");
    ("files", vindex committed "files");
    ("transfer", obj_of [("rawBytes", vu64 (ar_size a)); ("archiveBytes", vu64 (ar_archive_size a));
       ("transferredBytes", vu64 (tr_offset tr)); ("encodedBytes", vu64 (tr_encoded tr)); ("chunks", vu64 (tr_chunks tr));
       ("chunkSize", vu64 CHUNK); ("retryCount", vu64 0); ("relayDurationMs", vu64 relay_ms);
       ("commitDurationMs", vu64 commit_ms); ("throughputBytesPerSecond", vu64 (throughput (ar_archive_size a) relay_ms))])].

(** The closure of [relay_archive] *)
Definition send_archive (fuel : nat) (source_executor destination_executor destination_path mode : string) (a : Archive)
    (staging : string) (authority : Value) : M Fabric RpcError Value :=
  let* _ := with_err (transfer_error "preparing" 0 0)
    (call_registered_executor destination_executor "artifact.relay.archive.prepare"
       (obj_of [("destination", VString destination_path); ("staging", VString staging); ("_authority", authority)])) in
  let* relay_started := instant_now in
  let* tr := copy_archive fuel source_executor destination_executor destination_path staging (ar_token a) authority
               (ar_archive_size a) (mkTransfer 0 0 0) in
  let* relay_ended := instant_now in
  let* commit_started := instant_now in
  let* committed := with_err (transfer_error "committing" (tr_offset tr) (tr_chunks tr))
    (call_registered_executor destination_executor "artifact.relay.archive.commit"
       (obj_of [("destination", VString destination_path); ("staging", VString staging); ("expectedDigest", VString (ar_digest a));
                ("archiveSize", vu64 (ar_archive_size a)); ("size", vu64 (ar_size a)); ("files", vu64 (ar_files a));
                ("_authority", authority)])) in
  let* commit_ended := instant_now in
  ret (archive_answer source_executor destination_executor destination_path mode a tr
         (u64_saturating_sub relay_ended relay_started) (u64_saturating_sub commit_ended commit_started) committed).

(** [Controller::relay_archive] *)
Definition relay_archive (fuel : nat) (source_executor destination_executor destination_path mode : string) (archive : Value)
    : M Fabric RpcError Value :=
  let* a := lift (read_archive archive) in
  under_lease destination_path (send_archive fuel source_executor destination_executor destination_path mode a).

(** ** File by file *)

Definition manifest_of (executor path : string) : M Fabric RpcError Value :=
  call_registered_executor executor "artifact.relay.manifest" (obj_of [("path", VString path)]).

(** The loop that waits for two equal manifests in a row *)
Fixpoint stable_manifest (fuel : nat) (executor path : string) (deadline : Z) (manifest : Value) : M Fabric RpcError Value :=
  let* next := manifest_of executor path in
  if opt_value_eqb (vget "digest" next) (vget "digest" manifest) && opt_value_eqb (vget "entries" next) (vget "entries" manifest)
  then ret next
  else
    let* now := instant_now in
    if deadline <=? now
    then fail (rpc_error "ARTIFACT_NOT_STABLE" "source artifact changed during the stability window")
    else match fuel with
         | O => fail relay_out_of_fuel
         | S fuel' => stable_manifest fuel' executor path deadline next
         end.

Definition empty_file (entry : Value) : bool :=
  bool_decide (opt_str entry "kind" = Some "file") && bool_decide (opt_u64 entry "size" = Some 0).

(** The loop over the chunks of one file *)
Fixpoint copy_file (fuel : nat) (source_executor source_path destination_executor destination_path staging relative : string)
    (authority : Value) (size offset : Z) : M Fabric RpcError unit :=
  if offset <? size then
    match fuel with
    | O => fail relay_out_of_fuel
    | S fuel' =>
        let* chunk := call_registered_executor source_executor "artifact.relay.read"
          (obj_of [("path", VString source_path); ("relativePath", VString relative); ("offset", vu64 offset);
                   ("limit", vu64 1048576)]) in
        let* bytes := lift (ok_or (opt_u64 chunk "bytes") (rpc_error "INVALID_ARTIFACT" "relay chunk has no byte count")) in
        if bytes =? 0
        then fail (rpc_error "ARTIFACT_TRANSFER_FAILED" ("unexpected EOF while reading " +:+ relative))
        else
          let* _ := call_registered_executor destination_executor "artifact.relay.write"
            (obj_of [("destination", VString destination_path); ("staging", VString staging); ("relativePath", VString relative);
                     ("offset", vu64 offset); ("data", vindex chunk "data"); ("_authority", authority)]) in
          copy_file fuel' source_executor source_path destination_executor destination_path staging relative authority size
            (u64_saturating_add offset bytes)
    end
  else ret tt.

(** The body of the loop over the entries *)
Definition send_entry (fuel : nat) (source_executor source_path destination_executor destination_path staging : string)
    (authority : Value) (entry : Value) : M Fabric RpcError unit :=
  let* kind := lift (required_str entry "kind") in
  if negb (String.eqb kind "file") then ret tt
  else
    let* relative := lift (required_str entry "path") in
    let* size := lift (ok_or (opt_u64 entry "size") (rpc_error "INVALID_ARTIFACT" "file size is required")) in
    copy_file fuel source_executor source_path destination_executor destination_path staging relative authority size 0.

(** The closure of [relay_artifact] *)
Definition send_files (fuel : nat) (source_executor source_path destination_executor destination_path mode : string)
    (entries : list Value) (expected_digest : string) (staging : string) (authority : Value) : M Fabric RpcError Value :=
  let* _ := call_registered_executor destination_executor "artifact.relay.prepare"
    (obj_of [("destination", VString destination_path); ("staging", VString staging); ("entries", VArray entries);
             ("_authority", authority)]) in
  for_each entries (send_entry fuel source_executor source_path destination_executor destination_path staging authority) ;;
  let* committed := call_registered_executor destination_executor "artifact.relay.commit"
    (obj_of [("destination", VString destination_path); ("staging", VString staging);
             ("expectedDigest", VString expected_digest); ("_authority", authority)]) in
  ret (obj_of [("source", obj_of [("executorId", VString source_executor); ("path", VString source_path)]);
    ("destination", obj_of [("executorId", VString destination_executor); ("path", VString destination_path)]);
    ("mode", VString mode); ("digest", vindex committed "digest"); ("size", vindex committed "size");
    ("files", vindex committed "files")]).

(** The rest of [relay_artifact] when the source makes no archives *)
Definition relay_files (fuel : nat) (params : Value) (source_executor source_path destination_executor destination_path mode : string)
    : M Fabric RpcError Value :=
  let* manifest := manifest_of source_executor source_path in
  let* now := instant_now in
  let* manifest := stable_manifest fuel source_executor source_path (now + 30000) manifest in
  let* entries := lift (ok_or (vget "entries" manifest ≫= as_array)
                          (rpc_error "INVALID_ARTIFACT" "source manifest has no entries")) in
  if bool_decide (vget "rejectEmptyFiles" params ≫= as_bool = Some true) && existsb empty_file entries
  then fail (rpc_error "ARTIFACT_INCOMPLETE" "source artifact contains an empty file")
  else
    let* expected_digest := lift (required_str manifest "digest") in
    under_lease destination_path
      (send_files fuel source_executor source_path destination_executor destination_path mode entries expected_digest).

(** [value["transfer"]["totalDurationMs"] = total] *)
Definition with_total (total : Z) (value : Value) : option Value :=
  vindex_set "totalDurationMs" (vu64 total) (vindex value "transfer") ≫= fun transfer => vindex_set "transfer" transfer value.

(** [Controller::relay_artifact] *)
Definition relay_artifact (fuel : nat) (params : Value) : M Fabric RpcError Value :=
  let* transfer_started := instant_now in
  let* source := lift (ok_or (vget "source" params) (rpc_error "INVALID_PARAMS" "source is required")) in
  let* destination := lift (ok_or (vget "destination" params) (rpc_error "INVALID_PARAMS" "destination is required")) in
  let* source_executor := lift (required_str source "executorId") in
  let* source_path := lift (required_str source "path") in
  let* destination_executor := lift (required_str destination "executorId") in
  let* destination_path := lift (required_str destination "path") in
  let mode := default "mirror" (opt_str params "mode") in
  if negb (String.eqb mode "mirror")
  then fail (rpc_error "INVALID_PARAMS" "Controller artifact relay currently requires mode=mirror")
  else
    let* created := attempt (call_registered_executor source_executor "artifact.relay.archive.create"
                               (obj_of [("path", VString source_path)])) in
    match created with
    | Ok archive =>
        let* token := lift (required_str archive "token") in
        let* result := attempt (relay_archive fuel source_executor destination_executor destination_path mode archive) in
        let* _ := attempt (F := RpcError) (call_registered_executor source_executor "artifact.relay.archive.remove"
                             (obj_of [("token", VString token)])) in
        let* value := lift result in
        let* ended := instant_now in
        lift (ok_or (with_total (u64_saturating_sub ended transfer_started) value) (rpc_error "PANIC" ""))
    | Err error =>
        if String.eqb (err_code error) "UNKNOWN_ACTION"
        then relay_files fuel params source_executor source_path destination_executor destination_path mode
        else fail error
    end.

End Relay.
