(* ===== verification/RelayWorld.v ===== *)
(** * Artifact relay: identifiers

    The names of staging directories end in identifiers of hexadecimal digits.
    Every computation up to the choice of the name keeps the source of the
    identifiers. *)
From Stdlib Require Import Ascii.
From stdpp Require Import base gmap strings list sorting pretty.
From S2P Require Import Prelude Json Schema Protocol Leases Tasks Store PathPolicy FileTree FileTreeLaws Payloads Generations Controller.
From S2P Require Import TreeDigest ArtifactRelay ControllerRecords RelaySafety RelayCommit RelayReceive.
Open Scope Z_scope.
Open Scope fabric_scope.

(** [Uuid::simple]: hexadecimal digits *)
Definition plain_uuids (w : World) : Prop := forall k, bytes_all is_ascii_hexdigit (o_at (w_uuid w) k) = true.

#[export] Instance plain_uuids_stable S : Stable (fun (_ : S) w => plain_uuids w).
Proof. intros s w w' H Hle k. rewrite (wle_uuid _ _ Hle). apply H. Qed.

Definition steady {S E A} (m : M S E A) : Prop := keeps (fun _ w => plain_uuids w) m.

Lemma steady_run {S E A} (m : M S E A) s w r s' w' : steady m -> m s w = (r, s', w') -> plain_uuids w -> plain_uuids w'.
Proof. intros Hm Hrun H. exact (wp_run _ _ _ _ _ _ _ (Hm s w H) Hrun). Qed.

Lemma steady_get {S E} : steady (S := S) (E := E) get.
Proof. by intros s w H. Qed.
Lemma steady_put {S E} (x : S) : steady (E := E) (put x).
Proof. by intros s w H. Qed.
Lemma steady_modify {S E} (f : S -> S) : steady (E := E) (modify f).
Proof. by intros s w H. Qed.
Lemma steady_instant {S E} : steady (S := S) (E := E) instant_now.
Proof. by intros s w H. Qed.
Lemma steady_with_err {S E F A} (f : E -> F) (m : M S E A) : steady m -> steady (with_err f m).
Proof. intros Hm s w H. unfold wp, with_err. specialize (Hm s w H). unfold wp in Hm. by destruct (m s w) as [[r s'] w']. Qed.
Lemma steady_zoom {S T E A} (g : S -> T) (p : T -> S -> S) (m : M T E A) : steady m -> steady (zoom g p m).
Proof. intros Hm s w H. unfold wp, zoom. specialize (Hm (g s) w H). unfold wp in Hm. by destruct (m (g s) w) as [[r s'] w']. Qed.
Lemma steady_for_each {S E A} (l : list A) (f : A -> M S E unit) : (forall a, steady (f a)) -> steady (for_each l f).
Proof. intros Hf. induction l as [|a l IH]; [apply keeps_ret|]. apply keeps_bind; [apply Hf|done]. Qed.

Lemma steady_ask {A} (f : Tree -> result IoKind A) : steady (ask f).
Proof. unfold ask. apply keeps_bind; [apply keeps_io_outcome; exact _|]. intros ok. apply keeps_bind; [apply steady_get|]. intros v. destruct ok; [apply keeps_lift|apply keeps_fail]. Qed.
Lemma steady_sys {A} (f : Tree -> result IoKind (A * Tree)) : steady (sys f).
Proof.
  unfold sys. apply keeps_bind; [apply keeps_io_outcome; exact _|]. intros ok. apply keeps_bind; [apply steady_get|]. intros v.
  destruct ok; [|apply keeps_fail]. destruct (f (vol_tree v)) as [[a t]|k]; [|apply keeps_fail]. apply keeps_bind; [apply steady_put|]. intros _. apply keeps_ret.
Qed.

(** Along the structure of a computation. *)
Create HintDb steady.
Ltac steady_step :=
  first
    [ assumption | apply keeps_ret | apply keeps_fail | apply keeps_lift | apply keeps_gets
    | apply keeps_now_ms; exact _ | apply keeps_new_v4; exact _ | apply keeps_io_outcome; exact _
    | apply steady_get | apply steady_put | apply steady_modify | apply steady_instant
    | solve [try match goal with |- keeps _ ?m => change (steady m) end; eauto with steady]
    | apply steady_ask | apply steady_sys
    | apply steady_with_err | apply steady_zoom | apply steady_for_each; intros ?
    | apply keeps_attempt | apply keeps_map_m; intros ?
    | apply keeps_bind; [|intros ?]
    | progress case_match ].

Lemma steady_write_at torn q off bytes : steady (Fs.write_at torn q off bytes).
Proof. unfold Fs.write_at, steady. repeat steady_step. Qed.
Lemma steady_open_truncate mode p : steady (Fs.open_truncate mode p).
Proof. unfold Fs.open_truncate, steady. repeat steady_step. Qed.
Lemma steady_create_dir p : steady (Fs.create_dir p).
Proof. unfold Fs.create_dir, steady. repeat steady_step. Qed.
#[export] Hint Resolve steady_write_at steady_open_truncate steady_create_dir : steady.
Lemma steady_create_dirs above rest : steady (Fs.create_dirs above rest).
Proof. revert above. induction rest as [|c rest IH]; intros above; cbn [Fs.create_dirs]; unfold steady; repeat (first [apply IH|steady_step]). Qed.
#[export] Hint Resolve steady_create_dirs : steady.

Lemma steady_checked_path rt params key must_exist access : steady (checked_path rt params key must_exist access).
Proof. unfold checked_path, checked_text, steady. repeat steady_step. Qed.
Lemma steady_read_path_denied rt p : steady (read_path_denied rt p).
Proof. unfold read_path_denied, steady. repeat steady_step. Qed.
#[export] Hint Resolve steady_checked_path steady_read_path_denied : steady.

Lemma steady_ensure_readable fuel rt p : steady (ensure_tree_readable fuel rt p).
Proof.
  revert p. induction fuel as [|fuel IH]; intros p; cbn [ensure_tree_readable]; unfold steady; repeat (first [apply IH|steady_step]).
Qed.
Lemma steady_collect fuel root relative : steady (collect fuel root relative).
Proof.
  revert relative. induction fuel as [|fuel IH]; intros relative; cbn [collect]; unfold steady; repeat (first [apply IH|steady_step]).
Qed.
Lemma steady_digest_entries root paths text size : steady (digest_entries root paths text size).
Proof.
  revert text size. induction paths as [|[t q] paths IH]; intros text size; cbn [digest_entries]; unfold steady; repeat (first [apply IH|steady_step]).
Qed.
Lemma steady_manifest fuel root relative : steady (relay_manifest fuel root relative).
Proof.
  revert relative. induction fuel as [|fuel IH]; intros relative; cbn [relay_manifest]; unfold steady; repeat (first [apply IH|steady_step]).
Qed.
#[export] Hint Resolve steady_ensure_readable steady_collect steady_digest_entries steady_manifest : steady.

Lemma steady_archive_create `{Archiver} hex torn fuel rt params : steady (archive_create hex torn fuel rt params).
Proof. unfold archive_create, read_path, runtime_digest_tree, digest_tree, Fs.create_dir_all, append_member, steady. repeat steady_step. Qed.

(** ** The controller *)

Lemma steady_syscall {E A} (e : E) (f : gmap Store.path Store.node -> option (A * gmap Store.path Store.node)) : steady (syscall e f).
Proof. unfold syscall, steady. repeat steady_step. Qed.
#[export] Hint Resolve steady_syscall : steady.
Lemma steady_dirs {E} (e : E) done rest : steady (Store.create_dirs e done rest).
Proof. revert done. induction rest as [|n rest IH]; intros done; cbn [Store.create_dirs]; unfold steady; repeat (first [apply IH|steady_step]). Qed.
#[export] Hint Resolve steady_dirs : steady.
Lemma steady_read_payload hex d p size digest : steady (read_payload_bytes hex d p size digest).
Proof. unfold read_payload_bytes, stat, read_file, steady. repeat steady_step. Qed.
#[export] Hint Resolve steady_read_payload : steady.
Lemma steady_publish torn temporary p bytes : steady (publish_payload torn temporary p bytes).
Proof. unfold publish_payload, create_new, write_all, sync_all, atomic_replace, steady. repeat steady_step. Qed.
#[export] Hint Resolve steady_publish : steady.
Lemma steady_write_payload hex torn store bytes : steady (write_task_payload hex torn store bytes).
Proof. unfold write_task_payload, create_dir_all, temporary_path, remove_file, steady. repeat steady_step. Qed.
#[export] Hint Resolve steady_write_payload : steady.
Lemma steady_externalize to_vec hex torn store tasks : steady (externalize_task_payloads to_vec hex torn store tasks).
Proof.
  induction tasks as [|t tasks IH]; cbn [externalize_task_payloads]; [apply keeps_ret|]. unfold externalize_task, externalize_value, encode_payload, steady.
  repeat (first [apply IH|steady_step]).
Qed.
#[export] Hint Resolve steady_externalize : steady.

Lemma steady_on_tasks {E A} (m : M TaskTable panic A) : steady m -> steady (on_tasks (E := E) m).
Proof. intros Hm s w H. unfold wp, on_tasks. specialize (Hm (ctl_tasks s) w H). unfold wp in Hm. by destruct (m (ctl_tasks s) w) as [[r t] w']. Qed.

Lemma steady_persist to_vec hex torn store : steady (persist to_vec hex torn store).
Proof.
  unfold persist, save_state, apply_update, steady. repeat (first [apply steady_on_tasks; unfold replace_input_ref_if_unchanged, replace_output_ref_if_unchanged, store_task|steady_step]).
Qed.
Lemma steady_acquire kind resource owner ttl : steady (on_leases (acquire kind resource owner ttl)).
Proof. unfold on_leases, acquire, steady. repeat steady_step. Qed.
#[export] Hint Resolve steady_persist steady_acquire : steady.

(** A staging directory has a good name. *)
Lemma hexdigit_plain c : is_ascii_hexdigit c = true -> Ascii.eqb c "/"%char = false /\ Ascii.eqb c NUL = false.
Proof. intros H. split; [destruct (Ascii.eqb_spec c "/"%char) as [->|]|destruct (Ascii.eqb_spec c NUL) as [->|]]; done. Qed.
Lemma hex_no_byte s : bytes_all is_ascii_hexdigit s = true -> no_byte "/"%char s = true /\ no_byte NUL s = true.
Proof.
  induction s as [|c s IH]; [done|]. cbn [bytes_all]. intros [Hc Hs]%andb_true_iff. apply hexdigit_plain in Hc as [H1 H2]. destruct (IH Hs).
  by rewrite !no_byte_cons.
Qed.
Lemma staging_good n uuid : good_name n = true -> bytes_all is_ascii_hexdigit uuid = true -> good_name (staging_name n uuid) = true.
Proof.
  intros Hn [Hs H0]%hex_no_byte. unfold good_name in *. rewrite !andb_true_iff in *. destruct Hn as [[[[He Hns] Hn0] _] _]. unfold staging_name.
  assert (20 < String.length (n +:+ ".machine-fabric-relay-" +:+ uuid))%nat as Hlen by (rewrite !string_length_app; cbn; lia).
  split_and!; [..|apply negb_true_iff, String.eqb_neq; intros E; rewrite E in Hlen; cbn in Hlen; lia|apply negb_true_iff, String.eqb_neq; intros E; rewrite E in Hlen; cbn in Hlen; lia].
  - by destruct n.
  - apply no_byte_app; [done|]. apply no_byte_app; done.
  - apply no_byte_app; [done|]. apply no_byte_app; done.
Qed.
