(* ===== verification/RelayDelivery.v ===== *)
(** * Artifact relay: delivery

    A controller and two executors: what arrives at the destination is what was
    at the source. A call may not reach the executor, may be refused by its
    admission, and its response may be lost; other requests may run on the
    controller meanwhile. *)
From Stdlib Require Import Ascii.
From stdpp Require Import base gmap strings list sorting pretty.
From S2P Require Import Prelude Json Schema Protocol Leases Tasks Store PathPolicy FileTree FileTreeLaws Payloads Generations Controller.
From S2P Require Import TreeDigest ArtifactRelay ControllerRecords RelaySafety RelayCommit RelayReceive RelayWorld ControllerRelay ControllerFrames.
Open Scope Z_scope.
Open Scope fabric_scope.

#[export] Instance ExecutorEndpoint_eq_dec : EqDecision ExecutorEndpoint.
Proof. solve_decision. Defined.

Section Delivery.
Context `{HA : ArchiverLaws}.
Context (to_vec : Value -> option string) (sha256_hex : string -> string) (torn : string -> string) (store : JsonStore) (fuel : nat).

(** ** The machines *)

Context (source_at destination_at : ExecutorEndpoint) (source_runtime destination_runtime : ExecutorRuntime).

(** The admission of a request by an executor, and what other requests do to the controller meanwhile. *)
Context (admission : string -> Value -> World -> result RpcError unit * World) (others : Controller -> World -> Controller * World).

(** The handlers of an executor for an archive *)
Definition serve (rt : ExecutorRuntime) (action : string) (params : Value) : M Volume RpcError Value :=
  if String.eqb action "artifact.relay.archive.create" then archive_create sha256_hex torn fuel rt params
  else if String.eqb action "artifact.relay.archive.read" then archive_read rt params
  else if String.eqb action "artifact.relay.archive.remove" then archive_remove rt params
  else if String.eqb action "artifact.relay.archive.prepare" then archive_prepare rt params
  else if String.eqb action "artifact.relay.archive.write" then archive_write torn rt params
  else if String.eqb action "artifact.relay.archive.commit" then archive_commit sha256_hex fuel rt params
  else fail (rpc_error "UNKNOWN_ACTION" ("unknown action: " +:+ action)).

Definition admitted (rt : ExecutorRuntime) (action : string) (params : Value) : M Volume RpcError Value :=
  fun v w => match admission action params w with
             | (Ok _, w') => serve rt action params v w'
             | (Err e, w') => (Err e, v, w')
             end.

Definition Disks : Type := Volume * Volume.

Definition on_machine {E A} (endpoint : ExecutorEndpoint) (f : ExecutorRuntime -> M Volume E A) (unknown : E) : M (Fabric (Net := Disks)) E A :=
  if decide (endpoint = destination_at)
  then zoom (fun fab => (fab_net fab).2) (fun v fab => set_net ((fab_net fab).1, v) fab) (f destination_runtime)
  else if decide (endpoint = source_at)
  then zoom (fun fab => (fab_net fab).1) (fun v fab => set_net (v, (fab_net fab).2) fab) (f source_runtime)
  else fail unknown.

(** A call: sent, handled, answered. *)
Definition call (endpoint : ExecutorEndpoint) (action : string) (params : Value) : M (Fabric (Net := Disks)) string Response :=
  (fun fab w => let '(c, w') := others (fab_ctl fab) w in (Ok tt, set_ctl c fab, w')) ;;
  let* sent := io_outcome in
  if negb sent then fail "not sent"
  else
    let* result := on_machine endpoint (fun rt => attempt (admitted rt action params)) "unknown endpoint" in
    let* answered := io_outcome in
    if answered : bool
    then ret match result with Ok value => response_success "" value | Err error => response_failure "" error end
    else fail "no answer".

#[local] Abbreviation call_registered := (call_registered_executor call).
#[local] Abbreviation relay_artifact' := (relay_artifact to_vec sha256_hex torn store call fuel).

(** ** What a call does *)

Context (Hsteady : forall action params w r w', admission action params w = (r, w') -> plain_uuids w -> plain_uuids w').
Context (Hothers : forall c w c' w', others c w = (c', w') ->
  st_executors (ctl_state c') = st_executors (ctl_state c) /\ (plain_uuids w -> plain_uuids w')).
Context (Happ : source_at <> destination_at).

Definition executors (fab : Fabric (Net := Disks)) : list Executor := st_executors (ctl_state (fab_ctl fab)).
Definition there (fab : Fabric (Net := Disks)) : Volume := (fab_net fab).2.
Definition here (fab : Fabric (Net := Disks)) : Volume := (fab_net fab).1.

Definition registered (id : string) (endpoint : ExecutorEndpoint) (es : list Executor) : Prop :=
  exists e, find (executor_is id) es = Some e /\ executor_endpoint e = endpoint.

(** The executor did not run the request, or it did, and the caller has its answer or an error. *)
Definition handled (rt : ExecutorRuntime) (action : string) (params : Value) (v : Volume) (r : result RpcError Value) (v' : Volume) : Prop :=
  (v' = v /\ is_err r = true) \/
  exists w1 r1 w2, serve rt action params v w1 = (r1, v', w2) /\ forall a, r = Ok a -> r1 = Ok a.

Lemma admitted_cases rt action params v w r v' w' :
  admitted rt action params v w = (r, v', w') ->
  (v' = v /\ is_err r = true) \/ exists w1, serve rt action params v w1 = (r, v', w') /\ (plain_uuids w -> plain_uuids w1).
Proof.
  unfold admitted. destruct (admission action params w) as [[u|e] w1] eqn:Ha; intros Hrun; [right|left; by simplify_eq].
  exists w1. split; [done|]. by eapply Hsteady.
Qed.

Definition response_of (result : result RpcError Value) : Response :=
  match result with Ok value => response_success "" value | Err error => response_failure "" error end.

(** A call ends before the machine is reached, or after its handler. *)
Lemma call_cases endpoint action params fab w r fab' w' :
  call endpoint action params fab w = (r, fab', w') ->
  exists fab1 w1, executors fab1 = executors fab /\ fab_net fab1 = fab_net fab /\ (plain_uuids w -> plain_uuids w1) /\
  ((fab' = fab1 /\ (forall resp, r <> Ok resp) /\ (plain_uuids w1 -> plain_uuids w')) \/
   exists res w2, on_machine endpoint (fun rt => attempt (admitted rt action params)) "unknown endpoint" fab1 w1 = (res, fab', w2) /\
     (plain_uuids w2 -> plain_uuids w') /\ forall resp, r = Ok resp -> exists a, res = Ok a /\ resp = response_of a).
Proof.
  intros Hrun. unfold call in Hrun. apply bind_cases in Hrun as (r0 & f0 & w0 & H0 & Hrun). destruct (others (fab_ctl fab) w) as [c wo] eqn:Ho.
  injection H0 as <- <- <-. apply Hothers in Ho as [Hc Hw]. apply bind_cases in Hrun as (r1 & f1 & w1 & H1 & Hrun). unfold io_outcome in H1. injection H1 as <- <- <-.
  exists (set_ctl c fab), (set_io (advance (w_io wo)) wo). split; [done|]. split; [done|]. split; [exact Hw|].
  destruct (peek (w_io wo)); cbn [negb] in Hrun; [|left; unfold fail in Hrun; simplify_eq; by split_and!]. right.
  apply bind_cases in Hrun as (r2 & f2 & w2 & H2 & Hrun). exists r2, w2. destruct r2 as [res|e].
  - apply bind_cases in Hrun as (r3 & f3 & w3 & H3 & Hrun). unfold io_outcome in H3. injection H3 as <- <- <-.
    destruct (peek (w_io w2)); [unfold ret in Hrun|unfold fail in Hrun]; simplify_eq; (split; [exact H2|]; split; [exact id|]); [|done].
    intros resp [= <-]. by exists res.
  - destruct Hrun as (-> & -> & ->). split; [exact H2|]. by split.
Qed.

Lemma registered_cases id endpoint action params fab w r fab' w' :
  registered id endpoint (executors fab) -> call_registered id action params fab w = (r, fab', w') ->
  exists k, call endpoint action params fab w = (k, fab', w') /\
    forall a, r = Ok a -> exists resp, k = Ok resp /\ resp_ok resp = true /\ a = default VNull (resp_result resp).
Proof.
  intros (e & Hf & He) Hrun. unfold call_registered_executor in Hrun. apply bind_cases in Hrun as (r0 & s0 & w0 & H0 & Hrun). unfold gets in H0. injection H0 as <- <- <-.
  unfold executors in Hf. rewrite Hf, He in Hrun. apply bind_cases in Hrun as (r1 & f1 & w1 & H1 & Hrun). apply with_err_cases in H1 as (k1 & H1 & ->). exists k1.
  destruct k1 as [resp|t]; cbn [map_err] in Hrun; [|destruct Hrun as (-> & -> & ->); by split].
  destruct (resp_ok resp) eqn:Ek; [unfold ret in Hrun|unfold fail in Hrun]; simplify_eq; (split; [exact H1|]); [|done]. intros a [= <-]. by exists resp.
Qed.

Lemma response_of_ok (x : result RpcError Value) : resp_ok (response_of x) = true -> x = Ok (default VNull (resp_result (response_of x))).
Proof. by destruct x. Qed.

(** A call of the destination leaves the source alone, and conversely. *)
Lemma call_at_destination id action params fab w r fab' w' :
  registered id destination_at (executors fab) -> call_registered id action params fab w = (r, fab', w') ->
  executors fab' = executors fab /\ handled destination_runtime action params (there fab) r (there fab').
Proof.
  intros Hreg Hrun. apply (registered_cases _ _ _ _ _ _ _ _ _ Hreg) in Hrun as (k & Hrun & Hr).
  apply call_cases in Hrun as (fab1 & w1 & Hex & Hnet & _ & [(-> & Hno & _)|(res & w2 & Hm & _ & Hres)]).
  - split; [done|]. left. unfold there. rewrite Hnet. split; [done|]. destruct r as [a|]; [|done]. destruct (Hr _ eq_refl) as (resp & -> & _). by destruct (Hno resp).
  - unfold on_machine in Hm. rewrite decide_True in Hm by done. unfold zoom, attempt in Hm. unfold there. rewrite <- Hnet.
    match type of Hm with context [admitted ?rt ?a ?p ?v ?w] => destruct (admitted rt a p v w) as [[r1 v1] w3] eqn:Ha end. injection Hm as <- <- <-. split; [exact Hex|]. cbn.
    assert (forall a, r = Ok a -> r1 = Ok a) as Hra.
    { intros a Hra. destruct (Hr _ Hra) as (resp & Hk & Hok & ->). destruct (Hres _ Hk) as (x & [= <-] & ->). by apply response_of_ok. }
    apply admitted_cases in Ha as [[-> Herr]|(w4 & Hs & _)]; [left|right; by exists w4, r1, w3]. split; [done|].
    destruct r as [a|]; [|done]. by rewrite (Hra _ eq_refl) in Herr.
Qed.
Lemma call_at_source id action params fab w r fab' w' :
  registered id source_at (executors fab) -> call_registered id action params fab w = (r, fab', w') ->
  executors fab' = executors fab /\ there fab' = there fab /\ handled source_runtime action params (here fab) r (here fab') /\
  ((forall rt, steady (serve rt action params)) -> plain_uuids w -> plain_uuids w').
Proof.
  intros Hreg Hrun. apply (registered_cases _ _ _ _ _ _ _ _ _ Hreg) in Hrun as (k & Hrun & Hr).
  apply call_cases in Hrun as (fab1 & w1 & Hex & Hnet & Hpl & [(-> & Hno & Hpl')|(res & w2 & Hm & Hpl' & Hres)]).
  - split; [done|]. unfold there, here. rewrite Hnet. split; [done|]. split; [left|by auto]. split; [done|].
    destruct r as [a|]; [|done]. destruct (Hr _ eq_refl) as (resp & -> & _). by destruct (Hno resp).
  - unfold on_machine in Hm. rewrite decide_False, decide_True in Hm by done. unfold zoom, attempt in Hm. unfold there, here. rewrite <- Hnet.
    match type of Hm with context [admitted ?rt ?a ?p ?v ?w] => destruct (admitted rt a p v w) as [[r1 v1] w3] eqn:Ha end. injection Hm as <- <- <-. split; [exact Hex|]. split; [done|]. cbn.
    assert (forall a, r = Ok a -> r1 = Ok a) as Hra.
    { intros a Hra. destruct (Hr _ Hra) as (resp & Hk & Hok & ->). destruct (Hres _ Hk) as (x & [= <-] & ->). by apply response_of_ok. }
    unfold admitted in Ha. destruct (admission action params w1) as [[u|e] w4] eqn:Had; [|simplify_eq].
    + split; [right; by exists w4, r1, w3|]. intros Hst Hp. apply Hpl'. eapply steady_run; [apply Hst|exact Ha|]. eapply Hsteady; [exact Had|by apply Hpl].
    + split; [left; split; [done|destruct r as [a|]; [by specialize (Hra _ eq_refl)|done]]|]. intros _ Hp. apply Hpl'. eapply Hsteady; [exact Had|by apply Hpl].
Qed.


(** ** The steps of a transfer *)

(** The texts of a request to commit are those of the destination and of the staging directory. *)
Lemma commit_of_receiving rt params dp n uuid expected t0 v w r v' w' :
  let sg := dp ++ [staging_name n uuid] in
  receiving dp n uuid t0 (vol_tree v) -> good_name (staging_name n uuid) = true ->
  vget "destination" params ≫= as_str = Some (display (at_ (dp ++ [n]))) -> vget "staging" params ≫= as_str = Some (display (at_ sg)) ->
  required_str params "expectedDigest" = Ok expected ->
  archive_commit sha256_hex fuel rt params v w = (r, v', w') -> landed sha256_hex dp n sg expected v r v'.
Proof.
  intros sg Hrv Hg Hd Hs He Hrun. pose proof (receiving_landing _ _ _ _ _ Hrv) as Hl. fold sg in Hl. destruct (receiving_parent _ _ _ _ _ Hrv) as [Hc Hdir].
  pose proof (rv_before _ _ _ _ _ Hrv) as Hrc. pose proof (receptive_root _ _ _ Hrc) as Hroot. destruct (staging_apart dp n uuid) as [A1 A2].
  assert (forall e, landed sha256_hex dp n sg expected v (Err e) v) as Hsame by (intros e; apply landed_refused; [apply only_refl|done..]).
  assert (is_link_at (vol_tree v) (dp ++ [n]) = false) as Hln.
  { unfold is_link_at. rewrite (rv_only _ _ _ _ _ Hrv); [apply Hrc|]. by apply outside_one. }
  assert (is_link_at (vol_tree v) sg = false) as Hls.
  { destruct (dir_at_Some _ _ (rv_staging_dir _ _ _ _ _ Hrv)) as [m Hm]. unfold is_link_at, sg. by rewrite Hm. }
  assert (forall x must, good_name x = true -> is_link_at (vol_tree v) (dp ++ [x]) = false ->
    checked_path_in (vol_tree v) rt (display (at_ (dp ++ [x]))) must Write = Ok (at_ (dp ++ [x])) \/
    exists e, checked_path_in (vol_tree v) rt (display (at_ (dp ++ [x]))) must Write = Err e) as Hchk.
  { intros x must Hx Hlx. destruct (checked_text rt (display (at_ (dp ++ [x]))) must Write v w) as [[r1 v1] w1] eqn:H1. pose proof H1 as H2.
    apply checked_text_resolved in H1 as (_ & _ & H1); [|rewrite forallb_app, Hroot; cbn; by rewrite Hx|by apply resolve_place].
    unfold checked_text, bind, get, lift in H2. injection H2 as -> _ _. destruct r1 as [q|e]; [left; by rewrite (H1 _ eq_refl)|right; by exists e]. }
  destruct (Hchk n false) as [Cd|[e Cd]]; [apply Hrc|done| |].
  2:{ unfold archive_commit, write_path, checked_path, checked_text, bind, get, lift in Hrun. rewrite Hd, Cd in Hrun. simplify_eq. apply Hsame. }
  destruct (Hchk (staging_name n uuid) true) as [Cs|[e Cs]]; [done|done| |].
  2:{ unfold archive_commit, write_path, checked_path, checked_text, bind, get, lift in Hrun. fold sg in Cs; rewrite Hd, Hs, Cd, Cs in Hrun. simplify_eq. apply Hsame. }
  eapply archive_commit_lands; [exact Hl| |apply (rv_archive _ _ _ _ _ Hrv)|exact Hrun]. split; [by eexists|by eexists|done].
Qed.

Context (src dst : string) (dp : place) (n : string).
Definition reg (fab : Fabric (Net := Disks)) : Prop := registered src source_at (executors fab) /\ registered dst destination_at (executors fab).
Lemma reg_same fab fab' : executors fab' = executors fab -> reg fab -> reg fab'.
Proof. unfold reg. by intros ->. Qed.

Definition dest_text : string := display (at_ (dp ++ [n])).
Definition staging_text (uuid : string) : string := dest_text +:+ ".machine-fabric-relay-" +:+ uuid.

Lemma relative_text_snoc p x s : relative_text (p ++ [x]) +:+ s = relative_text (p ++ [x +:+ s]).
Proof.
  induction p as [|y p IH]; [done|]. change ((y :: p) ++ [x]) with (y :: (p ++ [x])). change ((y :: p) ++ [x +:+ s]) with (y :: (p ++ [x +:+ s])).
  destruct (p ++ [x]) as [|a l] eqn:E1; [by destruct p|]. destruct (p ++ [x +:+ s]) as [|a' l'] eqn:E2; [by destruct p|].
  rewrite !relative_text_cons, <- IH, <- string_app_assoc. done.
Qed.
Lemma staging_text_at uuid : staging_text uuid = display (at_ (dp ++ [staging_name n uuid])).
Proof. unfold staging_text, dest_text, staging_name. rewrite !display_at, <- relative_text_snoc. done. Qed.

(** What a step of the transfer may do: nothing but the staging directory changes. *)
Definition staged (uuid : string) (fab fab' : Fabric (Net := Disks)) : Prop :=
  executors fab' = executors fab /\ only [dp ++ [staging_name n uuid]] (there fab) (there fab').
#[export] Instance staged_preorder uuid : PreOrder (staged uuid).
Proof. split; [intros f; split; [done|apply only_refl]|]. intros f1 f2 f3 [E1 O1] [E2 O2]. split; [congruence|by etrans]. Qed.

Definition ready (uuid : string) (t0 : Tree) (fab : Fabric (Net := Disks)) : Prop := receiving dp n uuid t0 (vol_tree (there fab)).

Lemma prepare_call uuid authority fab w r fab' w' :
  reg fab -> receptive dp n (vol_tree (there fab)) -> good_name (staging_name n uuid) = true ->
  call_registered dst "artifact.relay.archive.prepare"
    (obj_of [("destination", VString dest_text); ("staging", VString (staging_text uuid)); ("_authority", authority)]) fab w = (r, fab', w') ->
  staged uuid fab fab' /\ forall a, r = Ok a -> ready uuid (vol_tree (there fab)) fab'.
Proof.
  intros [_ Hreg] Hrc Hg Hrun. apply (call_at_destination _ _ _ _ _ _ _ _ Hreg) in Hrun as [He [[Hv Hr]|(w1 & r1 & w2 & Hs & Hr)]].
  - split; [split; [done|rewrite Hv; apply only_refl]|]. by intros a ->.
  - eapply (prepare_receives _ _ dp n uuid) in Hs as [O Hok]; [|done|done|rewrite <- staging_text_at; reflexivity].
    split; [by split|]. intros a Ha. eapply Hok, Hr, Ha.
Qed.

Lemma write_call uuid t0 authority offset data fab w r fab' w' :
  reg fab -> ready uuid t0 fab -> good_name (staging_name n uuid) = true ->
  call_registered dst "artifact.relay.archive.write"
    (obj_of [("destination", VString dest_text); ("staging", VString (staging_text uuid)); ("offset", vu64 offset); ("data", data);
             ("_authority", authority)]) fab w = (r, fab', w') ->
  staged uuid fab fab' /\ ready uuid t0 fab'.
Proof.
  intros [_ Hreg] Hrv Hg Hrun. apply (call_at_destination _ _ _ _ _ _ _ _ Hreg) in Hrun as [He [[Hv Hr]|(w1 & r1 & w2 & Hs & Hr)]].
  - split; [split; [done|rewrite Hv; apply only_refl]|]. unfold ready. by rewrite Hv.
  - eapply (write_receives _ _ _ dp n uuid) in Hs as [O Hok]; [|exact Hrv|done|rewrite <- staging_text_at; reflexivity]. split; [by split|done].
Qed.

Lemma read_call action params fab w r fab' w' :
  reg fab -> call_registered src action params fab w = (r, fab', w') -> executors fab' = executors fab /\ there fab' = there fab.
Proof. intros [Hreg _] Hrun. by apply (call_at_source _ _ _ _ _ _ _ _ Hreg) in Hrun as (? & ? & _). Qed.

(** The loop keeps the reception, whatever it ends with. *)
Lemma copy_archive_receives uuid t0 token authority size k tr fab w r fab' w' :
  reg fab -> ready uuid t0 fab -> good_name (staging_name n uuid) = true ->
  copy_archive call k src dst dest_text (staging_text uuid) token authority size tr fab w = (r, fab', w') ->
  staged uuid fab fab' /\ ready uuid t0 fab'.
Proof.
  revert tr fab w. induction k as [|k IH]; intros tr fab w Hreg Hrv Hg Hrun; cbn [copy_archive] in Hrun;
    (destruct (tr_offset tr <? size) in Hrun; [|unfold ret in Hrun; simplify_eq; split; [reflexivity|done]]).
  { unfold fail in Hrun. simplify_eq. split; [reflexivity|done]. }
  apply bind_cases in Hrun as (r1 & f1 & w1 & H1 & Hrun). apply with_err_cases in H1 as (k1 & H1 & ->). apply (read_call _ _ _ _ _ _ _ Hreg) in H1 as [He1 Ht1].
  assert (staged uuid fab f1 /\ ready uuid t0 f1) as [S1 R1] by (split; [split; [done|rewrite Ht1; apply only_refl]|unfold ready; by rewrite Ht1]).
  destruct k1 as [chunk|]; cbn [map_err] in Hrun; [|by destruct Hrun as (_ & -> & _)].
  apply bind_cases in Hrun as (r2 & f2 & w2 & H2 & Hrun). unfold lift in H2. injection H2 as _ <- _. destruct r2 as [bytes|]; [|by destruct Hrun as (_ & -> & _)].
  destruct (bytes =? 0) in Hrun; [unfold fail in Hrun; by simplify_eq|].
  apply bind_cases in Hrun as (r3 & f3 & w3 & H3 & Hrun). apply with_err_cases in H3 as (k3 & H3 & ->).
  apply (write_call uuid t0) in H3 as [S3 R3]; [|by eapply reg_same|done..]. destruct k3; cbn [map_err] in Hrun; [|destruct Hrun as (_ & -> & _); split; [by etrans|done]].
  apply IH in Hrun as [S4 R4]; [|by eapply reg_same; [apply S3|eapply reg_same]|done..]. split; [|done]. by etrans; [etrans|].
Qed.

Lemma commit_call uuid t0 expected archive_size size files authority fab w r fab' w' :
  reg fab -> ready uuid t0 fab -> good_name (staging_name n uuid) = true -> expected <> "" ->
  call_registered dst "artifact.relay.archive.commit"
    (obj_of [("destination", VString dest_text); ("staging", VString (staging_text uuid)); ("expectedDigest", VString expected);
             ("archiveSize", vu64 archive_size); ("size", vu64 size); ("files", vu64 files); ("_authority", authority)]) fab w = (r, fab', w') ->
  executors fab' = executors fab /\ exists r1, landed sha256_hex dp n (dp ++ [staging_name n uuid]) expected (there fab) r1 (there fab') /\ forall a, r = Ok a -> r1 = Ok a.
Proof.
  intros [_ Hreg] Hrv Hg Hne Hrun. apply (call_at_destination _ _ _ _ _ _ _ _ Hreg) in Hrun as [He [[Hv Hr]|(w1 & r1 & w2 & Hs & Hr)]]; (split; [done|]).
  - destruct r as [a|e]; [done|]. exists (Err e). split; [|done]. rewrite Hv. destruct (staging_apart dp n uuid). by apply landed_refused; [apply only_refl|..].
  - exists r1. split; [|done]. eapply commit_of_receiving in Hs; [exact Hs|exact Hrv|done|done|rewrite <- staging_text_at; reflexivity|].
    transitivity (if str_is_empty expected then Err (rpc_error "INVALID_PARAMS" ("expectedDigest" +:+ " is required")) else Ok expected); [reflexivity|by destruct expected].
Qed.


(** ** The transfer *)

(** The destination after a transfer: nothing is lost on the way, and a success has the digest. *)
Definition arrived (expected : string) (v : Volume) (success : bool) (v' : Volume) : Prop :=
  exists uuid, let b := backup_name n uuid in
  passes (never_lost sha256_hex dp n b expected (subtree (dp ++ [n]) (vol_tree v))) v v' /\
  if success then has_digest sha256_hex expected (subtree (dp ++ [n]) (vol_tree v')) /\ delivered (subtree (dp ++ [n]) (vol_tree v'))
  else never_lost sha256_hex dp n b expected (subtree (dp ++ [n]) (vol_tree v)) (vol_tree v').

Lemma staged_tree uuid t t' : agree [dp ++ [staging_name n uuid]] t t' -> subtree (dp ++ [n]) t' = subtree (dp ++ [n]) t.
Proof. intros Ha. destruct (staging_apart dp n uuid). eapply tree_at_agree; [exact Ha|]. intros q. by apply outside_one, below_apart. Qed.

Lemma staged_lost uuid b expected v v' :
  only [dp ++ [staging_name n uuid]] v v' -> passes (never_lost sha256_hex dp n b expected (subtree (dp ++ [n]) (vol_tree v))) v v'.
Proof. intros O. eapply only_passes; [|exact O]. intros t Ht. left. by eapply staged_tree. Qed.

Lemma staged_arrived uuid expected v v' : only [dp ++ [staging_name n uuid]] v v' -> arrived expected v false v'.
Proof. intros O. exists "". split; [by eapply staged_lost|]. left. by eapply staged_tree, only_agree. Qed.

Lemma landed_arrived uuid expected v v1 r1 (success : bool) v' :
  only [dp ++ [staging_name n uuid]] v v1 -> landed sha256_hex dp n (dp ++ [staging_name n uuid]) expected v1 r1 v' ->
  (success = true -> is_ok r1 = true) -> arrived expected v success v'.
Proof.
  intros O (u & P & _ & Hr) Hs. exists u. cbn zeta. rewrite (staged_tree uuid _ _ (only_agree _ _ _ O)) in P, Hr.
  split; [eapply passes_trans; [by eapply staged_lost|exact P]|]. destruct r1 as [a|e]; [destruct Hr as (Hd & Hn & _)|].
  - destruct success; [done|]. right. by left.
  - destruct success; [by specialize (Hs eq_refl)|done].
Qed.

Lemma same_arrived expected v : arrived expected v false v.
Proof. eapply (staged_arrived ""), only_refl. Qed.

Lemma send_archive_arrives uuid mode a authority k fab w r fab' w' :
  reg fab -> receptive dp n (vol_tree (there fab)) -> good_name (staging_name n uuid) = true -> ar_digest a <> "" ->
  send_archive call k src dst dest_text mode a (staging_text uuid) authority fab w = (r, fab', w') ->
  executors fab' = executors fab /\ arrived (ar_digest a) (there fab) (is_ok r) (there fab').
Proof.
  intros Hreg Hrc Hg Hne Hrun. unfold send_archive in Hrun. apply bind_cases in Hrun as (r1 & f1 & w1 & H1 & Hrun). apply with_err_cases in H1 as (k1 & H1 & ->).
  apply prepare_call in H1 as [[E1 O1] R1]; [|done..]. destruct k1 as [p|]; cbn [map_err] in Hrun; [|destruct Hrun as (-> & -> & _); split; [done|by eapply staged_arrived]].
  specialize (R1 _ eq_refl). apply bind_cases in Hrun as (r2 & f2 & w2 & H2 & Hrun). unfold instant_now in H2. injection H2 as <- <- <-.
  apply bind_cases in Hrun as (r3 & f3 & w3 & H3 & Hrun). apply copy_archive_receives with (t0 := vol_tree (there fab)) in H3 as [[E3 O3] R3]; [|by eapply reg_same|done..].
  assert (only [dp ++ [staging_name n uuid]] (there fab) (there f3)) as O by (by etrans). assert (executors f3 = executors fab) as E by congruence.
  destruct r3 as [tr|]; [|destruct Hrun as (-> & -> & _); split; [done|by eapply staged_arrived]].
  apply bind_cases in Hrun as (r4 & f4 & w4 & H4 & Hrun). unfold instant_now in H4. injection H4 as <- <- <-.
  apply bind_cases in Hrun as (r5 & f5 & w5 & H5 & Hrun). unfold instant_now in H5. injection H5 as <- <- <-.
  apply bind_cases in Hrun as (r6 & f6 & w6 & H6 & Hrun). apply with_err_cases in H6 as (k6 & H6 & ->).
  apply commit_call with (t0 := vol_tree (there fab)) in H6 as (E6 & r1 & L6 & Hok); [|by eapply reg_same|done..].
  destruct k6 as [committed|]; cbn [map_err] in Hrun; [|destruct Hrun as (-> & -> & _); split; [congruence|by eapply landed_arrived]].
  apply bind_cases in Hrun as (r7 & f7 & w7 & H7 & Hrun). unfold instant_now in H7. injection H7 as <- <- <-. unfold ret in Hrun. injection Hrun as <- <- _.
  split; [congruence|]. eapply landed_arrived; [exact O|exact L6|]. intros _. by rewrite (Hok _ eq_refl).
Qed.

(** The controller's own steps touch no machine. *)
Lemma on_ctl_cases {E A} (m : M Controller E A) fab w r fab' w' :
  frame (fun c => st_executors (ctl_state c)) m -> on_ctl m fab w = (r, fab', w') ->
  executors fab' = executors fab /\ fab_net fab' = fab_net fab /\ (steady m -> plain_uuids w -> plain_uuids w').
Proof.
  intros Hf Hrun. unfold on_ctl, zoom in Hrun. destruct (m (fab_ctl fab) w) as [[r1 c] w1] eqn:Hm. injection Hrun as <- <- <-.
  split; [exact (Hf _ _ _ _ _ Hm)|]. split; [done|]. intros Hs. by eapply steady_run.
Qed.
Lemma frame_leases {A} (m : M LeaseTable LeaseError A) : frame (fun c => st_executors (ctl_state c)) (on_leases m).
Proof. unfold on_leases. frame. Qed.
Lemma frame_persist : frame (fun c => st_executors (ctl_state c)) (persist to_vec sha256_hex torn store).
Proof. by apply persist_frame. Qed.

(** Under the lease: the body runs once at most, for a staging directory with a good name. *)
Lemma under_lease_cases {A} (body : string -> Value -> M (Fabric (Net := Disks)) RpcError A) fab w r fab' w' :
  plain_uuids w -> good_name n = true -> under_lease to_vec sha256_hex torn store dest_text body fab w = (r, fab', w') ->
  (executors fab' = executors fab /\ there fab' = there fab /\ is_ok r = false) \/
  exists uuid authority fab1 w1 rb fab2 w2, good_name (staging_name n uuid) = true /\ executors fab1 = executors fab /\ there fab1 = there fab /\
    body (staging_text uuid) authority fab1 w1 = (rb, fab2, w2) /\ executors fab' = executors fab2 /\ there fab' = there fab2 /\ (is_ok r = true -> is_ok rb = true).
Proof.
  intros Hp Hn Hrun. unfold under_lease in Hrun. apply bind_cases in Hrun as (r0 & f0 & w0 & H0 & Hrun). unfold gets in H0. injection H0 as <- <- <-.
  apply bind_cases in Hrun as (r1 & f1 & w1 & H1 & Hrun). apply on_ctl_cases in H1 as (E1 & N1 & P1); [|apply frame_leases]. specialize (P1 (steady_acquire _ _ _ _) Hp).
  destruct r1 as [lease|]; [|destruct Hrun as (-> & -> & _); left; unfold there; by rewrite N1, E1].
  apply bind_cases in Hrun as (r2 & f2 & w2 & H2 & Hrun). apply on_ctl_cases in H2 as (E2 & N2 & P2); [|apply frame_persist]. specialize (P2 (steady_persist _ _ _ _) P1).
  destruct r2 as [[]|]; [|destruct Hrun as (-> & -> & _); left; unfold there; by rewrite N2, N1, E2, E1]. right.
  apply bind_cases in Hrun as (r3 & f3 & w3 & H3 & Hrun). unfold new_v4 in H3. injection H3 as <- <- <-. exists (peek (w_uuid w2)).
  apply bind_cases in Hrun as (r4 & f4 & w4 & H4 & Hrun). apply attempt_cases in H4 as (rb & -> & H4). do 2 eexists. exists (set_uuid (advance (w_uuid w2)) w2), rb, f4, w4.
  split; [apply staging_good; [done|apply P2]|]. split; [|split; [|split; [exact H4|]]]; [congruence|unfold there; by rewrite N2, N1|].
  apply bind_cases in Hrun as (r5 & f5 & w5 & H5 & Hrun). apply attempt_cases in H5 as (k5 & -> & H5). apply on_ctl_cases in H5 as (E5 & N5 & _); [|apply frame_leases].
  apply bind_cases in Hrun as (r6 & f6 & w6 & H6 & Hrun). apply on_ctl_cases in H6 as (E6 & N6 & _); [|apply frame_persist].
  assert (there f6 = there f4) as Ht by (unfold there; by rewrite N6, N5). assert (executors f6 = executors f4) as He by congruence.
  destruct r6 as [[]|]; [unfold lift in Hrun; by simplify_eq|]. by destruct Hrun as (-> & -> & _).
Qed.


(** ** The artifact *)

(** The archive of a directory carries the digest of its tree. *)
Lemma create_digest rt params text sp v w a v' w' :
  vget "path" params ≫= as_str = Some text -> checked_path_in (vol_tree v) rt text true Read = Ok (at_ sp) -> digestible (vol_tree v) sp ->
  archive_create sha256_hex torn fuel rt params v w = (Ok a, v', w') ->
  required_str a "digest" = Ok ("sha256:" +:+ sha256_hex (tree_text (subtree sp (vol_tree v)))).
Proof.
  intros Hp Hc Hdg Hrun. unfold archive_create in Hrun. mstep Hrun q v1 w1 H1. unfold read_path, checked_path in H1. rewrite Hp in H1.
  unfold checked_text, bind, get, lift in H1. rewrite Hc in H1. injection H1 as <- <- <-.
  mstep Hrun md v2 w2 H2. apply with_err_cases in H2 as (k2 & H2 & _). apply ask_cases in H2 as [-> _]. destruct (negb _) in Hrun; [done|].
  mstep Hrun dg v3 w3 H3. apply runtime_digest_spec in H3 as [-> H3]; [|done]. destruct dg as [[d size] files]. destruct (H3 _ _ _ eq_refl) as (-> & _).
  mstep Hrun es v4 w4 H4. mstep Hrun u5 v5 w5 H5. mstep Hrun token v6 w6 H6. mstep Hrun file_path v7 w7 H7. mstep Hrun fl v8 w8 H8. mstep Hrun ms v9 w9 H9.
  mstep Hrun u10 v10 w10 H10. mstep Hrun wr v11 w11 H11. unfold ret in Hrun. injection Hrun as <- _ _. reflexivity.
Qed.

Lemma read_archive_digest archive a : read_archive archive = Ok a -> required_str archive "digest" = Ok (ar_digest a).
Proof.
  unfold read_archive. destruct (required_str archive "token"); [|done]. destruct (required_str archive "digest"); [|done]. cbn [bind_result].
  destruct (ok_or _ _); [|done]. destruct (ok_or _ _); [|done]. destruct (ok_or _ _); [|done]. by intros [= <-].
Qed.

Lemma relay_archive_arrives mode archive want fab w r fab' w' :
  reg fab -> receptive dp n (vol_tree (there fab)) -> plain_uuids w -> required_str archive "digest" = Ok want -> want <> "" ->
  relay_archive to_vec sha256_hex torn store call fuel src dst dest_text mode archive fab w = (r, fab', w') ->
  executors fab' = executors fab /\ arrived want (there fab) (is_ok r) (there fab').
Proof.
  intros Hreg Hrc Hp Hw Hne Hrun. unfold relay_archive in Hrun. apply bind_cases in Hrun as (r1 & f1 & w1 & H1 & Hrun). unfold lift in H1. injection H1 as <- <- <-.
  destruct (read_archive archive) as [a|e] eqn:Ha; [|destruct Hrun as (-> & -> & _); split; [done|apply same_arrived]].
  apply read_archive_digest in Ha. rewrite Hw in Ha. injection Ha as ->.
  apply under_lease_cases in Hrun as [(He & Hv & ->)|(uuid & authority & fab1 & w2 & rb & fab2 & w3 & Hg & E1 & T1 & Hb & E2 & T2 & Hok)];
    [split; [done|rewrite Hv; apply same_arrived]| |done|apply (rc_good _ _ _ Hrc)].
  apply send_archive_arrives in Hb as [E3 (u & P & Hr)]; [|by eapply reg_same|by rewrite T1|done..]. split; [congruence|]. exists u. rewrite T2, <- T1. split; [done|].
  destruct (is_ok r); [by rewrite Hok in Hr|]. destruct (is_ok rb); [destruct Hr as [Hr _]; right; by left|done].
Qed.

Definition transfer_request (params : Value) (source_path : string) : Prop :=
  exists source destination, vget "source" params = Some source /\ vget "destination" params = Some destination /\
    required_str source "executorId" = Ok src /\ required_str source "path" = Ok source_path /\
    required_str destination "executorId" = Ok dst /\ required_str destination "path" = Ok dest_text.

Lemma serve_unknown rt params v w : serve rt "artifact.relay.manifest" params v w = (Err (rpc_error "UNKNOWN_ACTION" ("unknown action: " +:+ "artifact.relay.manifest")), v, w).
Proof. reflexivity. Qed.

(** Without archives nothing is sent. *)
Lemma relay_files_refused params source_path mode fab w r fab' w' :
  reg fab -> relay_files to_vec sha256_hex torn store call fuel params src source_path dst dest_text mode fab w = (r, fab', w') ->
  there fab' = there fab /\ is_ok r = false.
Proof.
  intros Hreg Hrun. unfold relay_files in Hrun. apply bind_cases in Hrun as (r1 & f1 & w1 & H1 & Hrun). unfold manifest_of in H1.
  apply (call_at_source _ _ _ _ _ _ _ _ (proj1 Hreg)) in H1 as (_ & T1 & [[_ Hr]|(w2 & r2 & w3 & Hs & Hr)] & _).
  - destruct r1; [done|]. by destruct Hrun as (-> & -> & _).
  - rewrite serve_unknown in Hs. injection Hs as <- _ _. destruct r1 as [a|]; [by specialize (Hr _ eq_refl)|]. by destruct Hrun as (-> & -> & _).
Qed.

Lemma relay_arrives params source_path sp fab w r fab' w' :
  reg fab -> receptive dp n (vol_tree (there fab)) -> plain_uuids w -> transfer_request params source_path ->
  checked_path_in (vol_tree (here fab)) source_runtime source_path true Read = Ok (at_ sp) -> digestible (vol_tree (here fab)) sp ->
  relay_artifact' params fab w = (r, fab', w') ->
  arrived ("sha256:" +:+ sha256_hex (tree_text (subtree sp (vol_tree (here fab))))) (there fab) (is_ok r) (there fab').
Proof.
  intros Hreg Hrc Hp (source & destination & Hs & Hd & Hse & Hsp & Hde & Hdp) Hc Hdg Hrun. set (want := "sha256:" +:+ _).
  unfold relay_artifact in Hrun. apply bind_cases in Hrun as (r0 & f0 & w0 & H0 & Hrun). unfold instant_now in H0. injection H0 as <- <- <-. rewrite Hs, Hd in Hrun. cbn [ok_or] in Hrun.
  do 2 (apply bind_cases in Hrun as (? & ? & ? & H1 & Hrun); unfold lift in H1; injection H1 as <- <- <-). rewrite Hse, Hsp, Hde, Hdp in Hrun.
  do 4 (apply bind_cases in Hrun as (? & ? & ? & H1 & Hrun); unfold lift in H1; injection H1 as <- <- <-).
  destruct (negb _) in Hrun; [unfold fail in Hrun; simplify_eq; apply same_arrived|].
  set (w1 := set_instant _ _) in Hrun. apply bind_cases in Hrun as (r2 & f2 & w2 & H2 & Hrun). apply attempt_cases in H2 as (created & -> & H2).
  apply (call_at_source _ _ _ _ _ _ _ _ (proj1 Hreg)) in H2 as (E2 & T2 & Hh & P2).
  assert (plain_uuids w2) as Hp2 by (apply P2; [intros rt; apply steady_archive_create|exact Hp]). destruct created as [archive|error].
  - assert (required_str archive "digest" = Ok want) as Hw.
    { destruct Hh as [[_ ?]|(w3 & r3 & w4 & Hsv & Hr)]; [done|]. rewrite (Hr _ eq_refl) in Hsv. by eapply create_digest in Hsv. }
    apply bind_cases in Hrun as (r3 & f3 & w3 & H3 & Hrun). unfold lift in H3. injection H3 as _ <- <-. destruct r3 as [token|e].
    2:{ destruct Hrun as (-> & -> & _). rewrite T2. apply same_arrived. }
    apply bind_cases in Hrun as (r4 & f4 & w4 & H4 & Hrun). apply attempt_cases in H4 as (result & -> & H4).
    apply (relay_archive_arrives _ _ want) in H4 as [E4 A4]; [|by eapply reg_same|by rewrite T2|done..]. rewrite T2 in A4.
    apply bind_cases in Hrun as (r5 & f5 & w5 & H5 & Hrun). apply attempt_cases in H5 as (removed & -> & H5).
    apply read_call in H5 as [_ T5]; [|by eapply reg_same; [exact E4|eapply reg_same]]. rewrite <- T5 in A4.
    apply bind_cases in Hrun as (r6 & f6 & w6 & H6 & Hrun). unfold lift in H6. injection H6 as -> <- <-. destruct r6 as [value|e]; [|by destruct Hrun as (-> & -> & _)].
    apply bind_cases in Hrun as (r7 & f7 & w7 & H7 & Hrun). unfold instant_now in H7. injection H7 as <- <- <-. unfold lift in Hrun. injection Hrun as <- <- _.
    destruct (with_total _ _); cbn [ok_or is_ok]; [done|]. destruct A4 as (u & P & [Hdigest _]). exists u. split; [done|]. right. by left.
  - destruct (String.eqb _ _) in Hrun; [|unfold fail in Hrun; simplify_eq; rewrite T2; apply same_arrived].
    apply relay_files_refused in Hrun as [-> ->]; [|by eapply reg_same]. rewrite T2. apply same_arrived.
Qed.

(** C12: the transfer of an artifact between two executors that both provide archives delivers it: when the
    controller answers, the directory at the destination holds the files and links that the source held when the transfer
    began, with their contents (when the hash does not collide on them and no content holds a NUL byte),
    and whatever happens, at every moment the destination holds its old tree or the new one, or the old
    tree waits whole under the backup name. Calls may be refused, lost, or handled without an answer. *)
Theorem transfer_delivers_the_artifact params source_path sp fab w r fab' w' :
  reg fab -> receptive dp n (vol_tree (there fab)) -> plain_uuids w -> transfer_request params source_path ->
  checked_path_in (vol_tree (here fab)) source_runtime source_path true Read = Ok (at_ sp) -> digestible (vol_tree (here fab)) sp ->
  relay_artifact' params fab w = (r, fab', w') ->
  let sent := subtree sp (vol_tree (here fab)) in
  let received := subtree (dp ++ [n]) (vol_tree (there fab')) in
  arrived ("sha256:" +:+ sha256_hex (tree_text sent)) (there fab) (is_ok r) (there fab') /\
  (is_ok r = true -> nul_free sent -> nul_free received ->
   (sha256_hex (tree_text sent) = sha256_hex (tree_text received) -> tree_text sent = tree_text received) ->
   forall q, contents received q = contents sent q).
Proof.
  intros Hreg Hrc Hp Hq Hc Hdg Hrun sent received. pose proof (relay_arrives _ _ _ _ _ _ _ _ Hreg Hrc Hp Hq Hc Hdg Hrun) as A. split; [exact A|].
  intros Hok F1 F2 Hhex q. rewrite Hok in A. destruct A as (u & _ & Hd & Hn & Hroot). unfold has_digest in Hd. fold sent received in Hd.
  apply (inj (String.append "sha256:")) in Hd. symmetry. apply text_identifies; [apply Hdg|done|by apply digestible_root|done..|by apply Hhex].
Qed.

End Delivery.
