(* ===== verification/TransferRuns.v ===== *)
(** * Runs of a transfer

    A directory sent from one executor to another over a simple archive format,
    and what a transfer does not do. *)
From Stdlib Require Import Ascii.
From stdpp Require Import base gmap strings list sorting pretty.
From S2P Require Import Prelude Json Schema Protocol Leases Tasks Store PathPolicy FileTree FileTreeLaws Generations Payloads Controller GenerationSafety.
From S2P Require Import TreeDigest ArtifactRelay RelaySafety RelayCommit RelayReceive ControllerRecords ControllerRelay RelayWorld RelayDelivery.
Open Scope Z_scope.
Open Scope fabric_scope.

Definition source_socket : ExecutorEndpoint := EndpointLocal "source.sock".
Definition destination_socket : ExecutorEndpoint := EndpointLocal "destination.sock".
Definition executor_named (id : string) (e : ExecutorEndpoint) : Executor := mkExecutor "v1" (mkMetadata id ∅ 0 0) e [] [] HReady.
Definition state_t : FabricState :=
  mkFabricState (Some "A") [] [executor_named "source" source_socket; executor_named "destination" destination_socket] [] [] ∅ [] [] [] [] [] [] [].
Definition ctl_t : Controller := mkController "A" state_t LeaseTable_default TaskTable_default empty_disk state_t.

(** A world whose identifiers are those of the crate uuid. *)
Definition hex_world (writes : nat -> bool) : World :=
  mkWorld (mkOracle (fun k => Z.of_nat k) 0) (mkOracle (fun k => Z.of_nat k) 0)
    (mkOracle (fun _ => "0123456789abcdef0123456789abcdef") 0) (mkOracle writes 0).

Definition source_tree (empty : string) : Tree := list_to_map
  [([], EDir 493); (["app"], EDir 493); (["app"; "a"], EFile 420 "hello"); (["app"; "b"], EFile 420 empty)].
Definition destination_tree : Tree := list_to_map
  [([], EDir 493); (["data"], EDir 493); (["data"; "out"], EDir 493); (["data"; "out"; "old"], EFile 420 "1")].
Definition runtime_t : ExecutorRuntime := mkExecutorRuntime [at_ []] (at_ ["relay"]) None.
Definition fabric_t (empty : string) : Fabric (Net := Disks) := mkFabric ctl_t (mkVolume (source_tree empty) 18 [], mkVolume destination_tree 18 []).
Definition request_t : Value :=
  obj_of [("source", obj_of [("executorId", VString "source"); ("path", VString "/app")]);
          ("destination", obj_of [("executorId", VString "destination"); ("path", VString "/data/out")]);
          ("rejectEmptyFiles", VBool true)].

Definition admit_all (_ : string) (_ : Value) (w : World) : result RpcError unit * World := (Ok tt, w).
Definition alone (c : Controller) (w : World) : Controller * World := (c, w).
Definition no_text (_ : Value) : option string := None.

#[local] Abbreviation transfer :=
  (relay_artifact no_text whole_text whole_text (mkJsonStore ["var"; "state.json"])
     (call whole_text whole_text 9 source_socket destination_socket runtime_t runtime_t admit_all alone) 9 request_t).

Lemma transfer_receptive : receptive ["data"] "out" destination_tree.
Proof.
  assert (tree_wf destination_tree) as Hw by (apply wfb_sound; vm_compute; reflexivity).
  assert (forall name, (forall k, k ∈ ["data"; "out"; "old"] -> k <> name) -> destination_tree !! ["data"; name] = None) as Hnone.
  { intros name Hne. apply not_elem_of_list_to_map_1. cbn. intros Hin.
    repeat (apply elem_of_cons in Hin as [Hin|Hin]; [first [discriminate Hin|injection Hin as Hin; subst name; exfalso; eapply Hne; [|reflexivity]; set_solver]|]).
    by apply not_elem_of_nil in Hin. }
  split; [split; [exact Hw|apply namedb_sound; vm_compute; reflexivity]|apply clearb_sound; vm_compute; reflexivity|vm_compute; reflexivity
         |vm_compute; reflexivity|vm_compute; reflexivity|by intros uuid|by intros uuid uuid'| |].
  - intros uuid. apply Hnone. unfold backup_name. cbn. intros k Hk E. subst k. set_solver.
  - intros uuid. apply Hnone. unfold staging_name. cbn. intros k Hk E. subst k. set_solver.
Qed.

Lemma transfer_delivers_the_artifact_witness :
  exists fab' w' answer, transfer (fabric_t "bye") (hex_world (fun _ => true)) = (Ok answer, fab', w') /\
  forall q, contents (subtree ["data"; "out"] (vol_tree (there fab'))) q = contents (subtree ["app"] (source_tree "bye")) q.
Proof.
  destruct (transfer (fabric_t "bye") (hex_world (fun _ => true))) as [[r fab'] w'] eqn:Hrun.
  assert (is_ok r = true) as Hok. { change r with ((r, fab', w').1.1). rewrite <- Hrun. vm_compute. reflexivity. }
  assert (nul_free (subtree ["data"; "out"] (vol_tree (there fab')))) as Hnul.
  { apply nul_freeb_sound. change fab' with ((r, fab', w').1.2). rewrite <- Hrun. vm_compute. reflexivity. }
  destruct r as [answer|e]; [|discriminate Hok]. exists fab', w', answer. split; [exact eq_refl|].
  eapply (transfer_delivers_the_artifact no_text whole_text whole_text (mkJsonStore ["var"; "state.json"]) 9 source_socket destination_socket runtime_t runtime_t
    admit_all alone) with (src := "source") (dst := "destination") (dp := ["data"]) (n := "out") (sp := ["app"]) (source_path := "/app") in Hrun as [_ Hq].
  - apply Hq; [reflexivity|apply nul_freeb_sound; vm_compute; reflexivity|exact Hnul|intros Ht; exact Ht].
  - intros action params w r w1 [= <- <-] Hp. exact Hp.
  - intros c w c1 w1 [= <- <-]. split; [reflexivity|intros Hp; exact Hp].
  - discriminate.
  - split; eexists; (split; [vm_compute; reflexivity|reflexivity]).
  - exact transfer_receptive.
  - intros k. vm_compute. reflexivity.
  - eexists _, _. split; [vm_compute; reflexivity|]. split; [vm_compute; reflexivity|]. split; [vm_compute; reflexivity|]. split; [vm_compute; reflexivity|]. split; vm_compute; reflexivity.
  - vm_compute. reflexivity.
  - apply digestible_sound; vm_compute; reflexivity.
Defined.

(** ** What a transfer does not do *)

Definition code_of {A S} (run : result RpcError A * S * World) : option string :=
  match run.1.1 with Ok _ => None | Err e => Some (err_code e) end.

(** The option [rejectEmptyFiles] is ignored for an executor that makes archives. *)
Theorem empty_files_are_sent :
  vget "rejectEmptyFiles" request_t ≫= as_bool = Some true /\
  contents (source_tree "") ["app"; "b"] = Some "" /\
  code_of (transfer (fabric_t "") (hex_world (fun _ => true))) = None.
Proof. split; [vm_compute; reflexivity|]. split; vm_compute; reflexivity. Qed.

(** The state write after the lease is acquired fails: the lease stays, and the next transfer is refused. *)
Theorem failed_commit_keeps_the_destination_leased :
  let run := transfer (fabric_t "bye") (hex_world (fun k => negb (Nat.eqb k 19))) in
  code_of run = Some "STATE_WRITE_FAILED" /\
  (exists lease, leases (ctl_leases (fab_ctl run.1.2)) !! "artifact-relay:/data/out" = Some lease /\ lease_expires_at lease = 3600000) /\
  code_of (transfer run.1.2 (hex_world (fun _ => true))) = Some "LEASE_ACTIVE".
Proof. split; [vm_compute; reflexivity|]. split; [eexists; split; vm_compute; reflexivity|vm_compute; reflexivity]. Qed.

(** A directory sent over a file: the transfer reports a failure, although the directory is in place and
    the file is left under the backup name. *)
Definition file_tree : Tree := list_to_map [([], EDir 493); (["data"], EDir 493); (["data"; "out"], EFile 420 "1")].
Theorem transfer_over_a_file_reports_failure :
  let run := transfer (mkFabric ctl_t (mkVolume (source_tree "bye") 18 [], mkVolume file_tree 18 [])) (hex_world (fun _ => true)) in
  code_of run = Some "ARTIFACT_TRANSFER_FAILED" /\
  vol_tree (there run.1.2) !! ["data"; "out"; "a"] = Some (EFile 420 "hello") /\
  vol_tree (there run.1.2) !! ["data"; "out.machine-fabric-backup-0123456789abcdef0123456789abcdef"] = Some (EFile 420 "1").
Proof. split; [vm_compute; reflexivity|]. split; vm_compute; reflexivity. Qed.

(** ** Transfers end

    Whatever the executors answer, the loops over the chunks end: a chunk
    without bytes ends them, any other moves the offset. The fuel of the
    definitions is therefore enough when it is the size of what is sent. *)

Lemma with_err_ok {S E F A} (f : E -> F) (m : M S E A) s w a s' w' : with_err f m s w = (Ok a, s', w') -> m s w = (Ok a, s', w').
Proof. unfold with_err. destruct (m s w) as [[[x|e] s1] w1]; cbn; intros H; by simplify_eq. Qed.

Section Ends.
Context {Net : Type} (call_executor : ExecutorEndpoint -> string -> Value -> M (Fabric (Net := Net)) string Response).

(** A number read from JSON as [u64] is one. *)
Context (Hjson : forall endpoint action params fab w response fab' w', call_executor endpoint action params fab w = (Ok response, fab', w') ->
  forall value key x, resp_result response = Some value -> opt_u64 value key = Some x -> 0 <= x).

Lemma call_bytes id action params fab w chunk fab' w' key x :
  call_registered_executor call_executor id action params fab w = (Ok chunk, fab', w') -> opt_u64 chunk key = Some x -> 0 <= x.
Proof.
  intros Hrun Hx. unfold call_registered_executor in Hrun. mstep Hrun c f1 w1 H1. destruct (find _ _); [|done].
  mstep Hrun response f2 w2 H2. apply with_err_ok in H2. destruct (resp_ok response); [|done]. unfold ret in Hrun. injection Hrun as <- _ _.
  destruct (resp_result response) as [value|] eqn:Hr; [|done]. by eapply Hjson.
Qed.

(** Two computations with the same outcome. *)
Lemma bind_agree {S E A B} (m : M S E A) (k k' : A -> M S E B) s w :
  (forall a s1 w1, m s w = (Ok a, s1, w1) -> k a s1 w1 = k' a s1 w1) -> bind m k s w = bind m k' s w.
Proof. intros Hk. unfold bind. destruct (m s w) as [[[a|e] s1] w1]; [by apply Hk|done]. Qed.

Lemma next_offset offset bytes size : 0 <= offset -> 1 <= bytes -> offset < size -> size <= U64_MAX ->
  (Z.to_nat (size - u64_saturating_add offset bytes) < Z.to_nat (size - offset))%nat /\ 0 <= u64_saturating_add offset bytes.
Proof. unfold u64_saturating_add, U64_MAX. lia. Qed.

(** the copy of an archive ends: with any fuel that is at least the number of bytes left it has the same
    outcome, whatever the executors answer. *)
Theorem copying_an_archive_ends fuel1 fuel2 src dst path staging token authority size tr fab w :
  0 <= tr_offset tr -> size <= U64_MAX ->
  (Z.to_nat (size - tr_offset tr) <= fuel1)%nat -> (Z.to_nat (size - tr_offset tr) <= fuel2)%nat ->
  copy_archive call_executor fuel1 src dst path staging token authority size tr fab w =
  copy_archive call_executor fuel2 src dst path staging token authority size tr fab w.
Proof.
  revert fuel2 tr fab w. induction fuel1 as [|fuel1 IH]; intros fuel2 tr fab w Ho Hs H1 H2.
  - cbn [copy_archive]. destruct fuel2; cbn [copy_archive]; (destruct (Z.ltb_spec (tr_offset tr) size); [lia|done]).
  - destruct fuel2 as [|fuel2]; cbn [copy_archive]; (destruct (Z.ltb_spec (tr_offset tr) size) as [Hlt|]; [|done]); [lia|].
    apply bind_agree. intros chunk fab1 w1 Hc. apply with_err_ok in Hc. apply bind_agree. intros bytes fab2 w2 Hb. unfold lift in Hb. injection Hb as Hb _ _. apply ok_or_ok in Hb.
    pose proof (call_bytes _ _ _ _ _ _ _ _ _ _ Hc Hb). destruct (Z.eqb_spec bytes 0) as [|Hne]; [done|].
    apply bind_agree. intros written fab3 w3 _. destruct (next_offset (tr_offset tr) bytes size) as [? ?]; [lia..|].
    apply IH; cbn [tr_offset]; [done|done|lia|lia].
Qed.

(** The same for one file. *)
Lemma copying_a_file_ends fuel1 fuel2 src source_path dst path staging relative authority size offset fab w :
  0 <= offset -> size <= U64_MAX -> (Z.to_nat (size - offset) <= fuel1)%nat -> (Z.to_nat (size - offset) <= fuel2)%nat ->
  copy_file call_executor fuel1 src source_path dst path staging relative authority size offset fab w =
  copy_file call_executor fuel2 src source_path dst path staging relative authority size offset fab w.
Proof.
  revert fuel2 offset fab w. induction fuel1 as [|fuel1 IH]; intros fuel2 offset fab w Ho Hs H1 H2.
  - cbn [copy_file]. destruct fuel2; cbn [copy_file]; (destruct (Z.ltb_spec offset size); [lia|done]).
  - destruct fuel2 as [|fuel2]; cbn [copy_file]; (destruct (Z.ltb_spec offset size) as [Hlt|]; [|done]); [lia|].
    apply bind_agree. intros chunk fab1 w1 Hc. apply bind_agree. intros bytes fab2 w2 Hb. unfold lift in Hb. injection Hb as Hb _ _. apply ok_or_ok in Hb.
    pose proof (call_bytes _ _ _ _ _ _ _ _ _ _ Hc Hb). destruct (Z.eqb_spec bytes 0) as [|Hne]; [done|].
    apply bind_agree. intros written fab3 w3 _. destruct (next_offset offset bytes size) as [? ?]; [lia..|]. apply IH; [done|done|lia|lia].
Qed.

End Ends.

(** An executor that answers one byte at a time. *)
Definition one_byte (_ : ExecutorEndpoint) (_ : string) (_ : Value) : M (Fabric (Net := unit)) string Response :=
  ret (response_success "" (obj_of [("bytes", vu64 1); ("data", VString "x")])).
Definition slow_state : FabricState :=
  mkFabricState (Some "A") [] [mkExecutor "v1" (mkMetadata "e" ∅ 0 0) (EndpointLocal "e.sock") [] [] HReady] [] [] ∅ [] [] [] [] [] [] [].
Definition slow_fabric : Fabric (Net := unit) := mkFabric (mkController "A" slow_state LeaseTable_default TaskTable_default empty_disk slow_state) tt.

Lemma copying_an_archive_ends_witness :
  copy_archive one_byte 1000 "e" "e" "/d" "/s" "t" VNull 5 (mkTransfer 0 0 0) slow_fabric (sample_world 0)
  = copy_archive one_byte 5 "e" "e" "/d" "/s" "t" VNull 5 (mkTransfer 0 0 0) slow_fabric (sample_world 0) /\
  (copy_archive one_byte 5 "e" "e" "/d" "/s" "t" VNull 5 (mkTransfer 0 0 0) slow_fabric (sample_world 0)).1.1 = Ok (mkTransfer 5 5 5).
Proof.
  split; [|vm_compute; reflexivity]. apply copying_an_archive_ends; [|cbn; lia|unfold U64_MAX; lia|cbn; lia|cbn; lia].
  intros endpoint action params fab w response fab' w' Hrun value key x Hv Hx. unfold one_byte, ret in Hrun. injection Hrun as <- _ _. cbn in Hv. injection Hv as <-.
  change (opt_u64 (VObject [("bytes", vu64 1); ("data", VString "x")]) key = Some x) in Hx. unfold opt_u64, vget, obj_get in Hx.
  destruct (String.eqb key "bytes"); [cbn in Hx; injection Hx as <-; lia|]. destruct (String.eqb key "data"); discriminate Hx.
Defined.
