(* ===== verification/RecordSafety.v ===== *)
(** * What the record handlers of a controller guarantee

    Generations keep their identity and follow their life cycle, the journals
    of transactions only grow and are numbered, and what a handler has
    acknowledged is in the state file. *)
From stdpp Require Import base gmap strings list relations.
From S2P Require Import Prelude Json Schema Protocol Leases Tasks Store Payloads Controller.
From S2P Require Import ControllerFrames ControllerRecords.
Open Scope Z_scope.

Section Records.
Context (to_vec : Value -> option string) (sha256_hex : string -> string) (torn : string -> string).
Context (store : JsonStore).
#[local] Abbreviation persist := (persist to_vec sha256_hex torn store).
#[local] Abbreviation run_record := (run_record to_vec sha256_hex torn store).

(** Requests one after the other, each in a world of its own. *)
Inductive record_run : Controller -> list record_op -> Controller -> Prop :=
| rr_nil c : record_run c [] c
| rr_cons op ops c w r c1 w1 c2 :
    run_record op c w = (r, c1, w1) -> record_run c1 ops c2 -> record_run c (op :: ops) c2.

(** ** Relations between states that every handler keeps *)

(** [moves R m]: whatever [m] returns, the new fabric state is related to the old one. *)
Definition moves {A} (R : FabricState -> FabricState -> Prop) (m : M Controller RpcError A) : Prop :=
  forall c w r c' w', m c w = (r, c', w') -> R (ctl_state c) (ctl_state c').

Section Moves.
Context (R : FabricState -> FabricState -> Prop) `{!PreOrder R}.

Lemma moves_bind {A B} (m : M Controller RpcError A) (k : A -> M Controller RpcError B) :
  moves R m -> (forall a, moves R (k a)) -> moves R (bind m k).
Proof.
  intros Hm Hk c w r c' w' H. apply bind_cases in H as (r1 & c1 & w1 & H1 & H). apply Hm in H1.
  destruct r1 as [a|e]; [etransitivity; [exact H1|by eapply Hk]|by destruct H as (_ & -> & _)].
Qed.

Lemma moves_frame {A} (m : M Controller RpcError A) : frame ctl_state m -> moves R m.
Proof. intros Hf c w r c' w' H. by rewrite (Hf _ _ _ _ _ H). Qed.

Lemma moves_persist : moves R persist.
Proof. apply moves_frame, persist_state. Qed.

Lemma moves_on_state f : (forall s, R s (f s)) -> moves R (on_state f).
Proof. intros Hf c w r c' w' H. unfold on_state, modify in H. simplify_eq. apply Hf. Qed.

(** Reading the state first: the rest is about that state. *)
Lemma moves_get {A} (k : Controller -> M Controller RpcError A) :
  (forall c w r c' w', k c c w = (r, c', w') -> R (ctl_state c) (ctl_state c')) -> moves R (bind get k).
Proof. intros Hk c w r c' w' H. unfold bind, get in H. by eapply Hk. Qed.

(** A change that is related because of what was found in the state. *)
Lemma moves_change {A} f (a : A) c w r c' w' :
  R (ctl_state c) (f (ctl_state c)) ->
  bind (on_state f) (fun _ => bind persist (fun _ => ret a)) c w = (r, c', w') -> R (ctl_state c) (ctl_state c').
Proof.
  intros Hf H. unfold bind at 1, on_state, modify in H. etransitivity; [exact Hf|].
  assert (moves R (bind persist (fun _ => ret a))) as Hm.
  { apply moves_bind; [apply moves_persist|intros ?; apply moves_frame, frame_ret]. }
  by apply Hm in H.
Qed.
End Moves.

Ltac moves :=
  repeat first
    [ apply moves_persist; exact _ | apply moves_on_state; solve [intros; reflexivity | intros; cbn; auto]
    | apply moves_frame; [exact _|]; solve [unfold on_leases; frame]
    | apply moves_bind; [exact _|..|intros ?] | progress case_match ].

(** ** Generations *)

Definition generation_edge (s s' : GenerationState) : Prop := generation_transition_allowed s s' = true.

(** Every generation of [s] is in [s'], with its identity, further on in its life. *)
Definition generations_live (s s' : FabricState) : Prop :=
  forall id g, find (generation_is id) (st_generations s) = Some g ->
    exists g', find (generation_is id) (st_generations s') = Some g' /\ same_generation g g' = true /\
      rtc generation_edge (generation_state g) (generation_state g').

Lemma same_generation_refl g : same_generation g g = true.
Proof. unfold same_generation. by rewrite !String.eqb_refl. Qed.
Lemma same_generation_trans a b c : same_generation a b = true -> same_generation b c = true -> same_generation a c = true.
Proof.
  unfold same_generation. intros H1 H2. bool_prop.
  repeat match goal with H : _ = _ :> string |- _ => rewrite H; clear H end. by rewrite !String.eqb_refl.
Qed.

#[local] Instance generations_live_preorder : PreOrder generations_live.
Proof.
  split.
  - intros s id g Hg. exists g. split_and!; [done|apply same_generation_refl|done].
  - intros s1 s2 s3 H1 H2 id g Hg. destruct (H1 id g Hg) as (g1 & Hg1 & S1 & E1).
    destruct (H2 id g1 Hg1) as (g2 & Hg2 & S2 & E2). exists g2.
    split_and!; [done|by eapply same_generation_trans|by etransitivity].
Qed.

Lemma generations_same s s' : st_generations s' = st_generations s -> generations_live s s'.
Proof. intros E id g Hg. exists g. rewrite E. split_and!; [done|apply same_generation_refl|done]. Qed.

Lemma find_upsert_generation l g id :
  find (generation_is id) (upsert_by l g (generation_is (generation_id g))) =
  if generation_is id g then Some g else find (generation_is id) l.
Proof.
  induction l as [|x l IH]; cbn [upsert_by find]; [done|].
  destruct (generation_is (generation_id g) x) eqn:Hx; cbn [find]; [|rewrite IH; clear IH]; unfold generation_is in *; bool_prop.
  - rewrite Hx. by destruct (String.eqb _ id).
  - destruct (String.eqb_spec (generation_id x) id), (String.eqb_spec (generation_id g) id); congruence.
Qed.

Lemma generation_put_lives params : moves generations_live (generation_put to_vec sha256_hex torn store params).
Proof.
  unfold generation_put. apply moves_bind; [exact _|apply moves_frame; [exact _|frame]|intros g].
  apply moves_get. intros c w r c' w' H. apply bind_cases in H as (r1 & c1 & w1 & H1 & H).
  destruct (find (generation_is (generation_id g)) _) as [x|] eqn:Hx.
  2: { unfold ret in H1. simplify_eq. eapply moves_change; [exact _| |exact H].
    intros id y Hy. exists y. cbn. rewrite find_upsert_generation.
    destruct (generation_is id g) eqn:Hg.
    - unfold generation_is in Hg. bool_prop. subst. congruence.
    - split_and!; [done|apply same_generation_refl|done]. }
  destruct (same_generation x g) eqn:Hs; cbn [negb] in H1.
  2: { unfold fail in H1. simplify_eq. destruct H as (_ & -> & _). reflexivity. }
  destruct (generation_transition_allowed _ _) eqn:Ht; cbn [negb] in H1.
  2: { unfold fail in H1. simplify_eq. destruct H as (_ & -> & _). reflexivity. }
  unfold ret in H1. simplify_eq. eapply moves_change; [exact _| |exact H].
  intros id y Hy. cbn. rewrite find_upsert_generation. destruct (generation_is id g) eqn:Hg.
  - unfold generation_is in Hg. bool_prop. subst id. exists g. rewrite Hx in Hy. simplify_eq.
    split_and!; [done|done|]. by apply rtc_once.
  - exists y. split_and!; [done|apply same_generation_refl|done].
Qed.

Lemma record_generations op : moves generations_live (run_record op).
Proof.
  destruct op; cbn [ControllerRecords.run_record];
    try (apply moves_bind; [exact _| |intros ?; apply moves_frame; [exact _|apply frame_ret]]);
    try apply generation_put_lives.
  all: unfold lease_acquire, lease_renew, driver_handoff, driver_take, lease_release, approval_request, approval_approve,
    approval_revoke, transaction_begin,
    transaction_record, handoff_create, handoff_progress, artifact_put, agent_put, agent_transition,
    executor_put, executor_unregister, executor_remove, controller_unregister; moves.
  all: try (apply moves_on_state; intros s; by apply generations_same).
Qed.

Lemma run_moves (R : FabricState -> FabricState -> Prop) `{!PreOrder R} c ops c' :
  (forall op, moves R (run_record op)) -> record_run c ops c' -> R (ctl_state c) (ctl_state c').
Proof.
  intros HR. induction 1 as [|op ops c w r c1 w1 c2 H _ IH]; [reflexivity|].
  etransitivity; [by eapply HR|done].
Qed.

(** ** Transactions *)

(** The journal is numbered from one, and the completed steps are those that succeeded in it. *)
Record journal_sound (t : ActivationTransaction) : Prop := mk_journal_sound {
  js_numbered i e : tx_journal t !! i = Some e -> entry_sequence e = Z.of_nat i + 1;
  js_distinct : NoDup (tx_completed_steps t);
  js_completed step : step ∈ tx_completed_steps t <->
    exists e, e ∈ tx_journal t /\ entry_step e = step /\ entry_state e = StepSucceeded;
}.
Definition journals_sound (s : FabricState) : Prop := Forall journal_sound (st_transactions s).

(** Every transaction of [s] is in [s'], for the same activation, and its journal has only grown. *)
Definition journals_grow (s s' : FabricState) : Prop :=
  (forall id t, find (transaction_is id) (st_transactions s) = Some t ->
    exists t', find (transaction_is id) (st_transactions s') = Some t' /\
      tx_journal t `prefix_of` tx_journal t' /\ tx_idempotency_key t' = tx_idempotency_key t /\
      tx_generation_id t' = tx_generation_id t /\ tx_target t' = tx_target t) /\
  (journals_sound s -> journals_sound s').

#[local] Instance journals_grow_preorder : PreOrder journals_grow.
Proof.
  split.
  - intros s. split; [|done]. intros id t Ht. by exists t.
  - intros s1 s2 s3 [H1 S1] [H2 S2]. split; [|auto]. intros id t Ht.
    destruct (H1 id t Ht) as (t1 & Ht1 & P1 & K1 & G1 & T1). destruct (H2 id t1 Ht1) as (t2 & Ht2 & P2 & K2 & G2 & T2).
    exists t2. split_and!; [done|by etransitivity|congruence..].
Qed.

Lemma journals_same s s' : st_transactions s' = st_transactions s -> journals_grow s s'.
Proof.
  intros E. unfold journals_grow, journals_sound. rewrite E. split; [|done]. intros id t Ht. by exists t.
Qed.

Lemma journals_append s t : journal_sound t -> journals_grow s (set_transactions (fun l => l ++ [t]) s).
Proof.
  intros Ht. split.
  - intros id x Hx. exists x. cbn. split_and!; try done. revert Hx. generalize (st_transactions s).
    induction l as [|y l IH]; cbn; [done|]. destruct (transaction_is id y); auto.
  - unfold journals_sound. cbn. intros H. apply Forall_app. split; [done|]. by constructor.
Qed.

Lemma new_journal_sound id session key target generation previous now now' fence :
  journal_sound (mkActivationTransaction id session key target generation previous TxPlanned now now' [] [] fence [] None).
Proof.
  constructor; cbn.
  - done.
  - apply NoDup_nil_2.
  - intros step. split; [intros H; by apply not_elem_of_nil in H|]. intros (e & He & _). by apply not_elem_of_nil in He.
Qed.

Lemma recorded_sound step st params now t : journal_sound t -> journal_sound (recorded step st params now t).
Proof.
  intros [Hn Hd Hc]. constructor; cbn.
  - intros i e [He|[Hle He]]%lookup_app_Some; [by apply Hn|]. apply list_lookup_singleton_Some in He as [Hi <-]. cbn. lia.
  - unfold steps_after. destruct st; try done. destruct (existsb _ _) eqn:Ee; [done|].
    apply NoDup_app. split_and!; [done| |apply NoDup_singleton]. intros x Hx Hin. apply list_elem_of_singleton in Hin as ->.
    assert (existsb (String.eqb step) (tx_completed_steps t) = true); [|congruence].
    apply existsb_exists. exists step. split; [by apply list_elem_of_In|apply String.eqb_refl].
  - intros x. setoid_rewrite elem_of_app. setoid_rewrite list_elem_of_singleton.
    assert (x ∈ steps_after step st (tx_completed_steps t) <-> x ∈ tx_completed_steps t \/ st = StepSucceeded /\ x = step) as ->.
    { unfold steps_after. destruct st; try (split; [by left|intros [?|[? _]]; done]).
      destruct (existsb _ _) eqn:Ee.
      - split; [by left|]. intros [?|[_ ->]]; [done|]. apply existsb_exists in Ee as (y & Hy & Heq). bool_prop. subst.
        by apply list_elem_of_In.
      - rewrite elem_of_app, list_elem_of_singleton. intuition. }
    rewrite Hc. split.
    + intros [(e & He & H1 & H2)|[-> ->]]; [exists e; auto|]. eexists. split; [by right|done].
    + intros (e & [He| ->] & H1 & H2); [left; by exists e|]. right. cbn in *. by subst.
Qed.

Lemma journals_record s id step st params now :
  journals_grow s (set_transactions (update_first (transaction_is id) (recorded step st params now)) s).
Proof.
  split.
  - intros id' t. cbn. generalize (st_transactions s). intros l. induction l as [|y l IH]; cbn; [done|].
    destruct (transaction_is id y) eqn:Hy; cbn.
    + unfold transaction_is in *. cbn. destruct (String.eqb (tx_id y) id') eqn:Hid; [|intros Ht; by exists t].
      intros [= <-]. eexists. split_and!; [done| |done..]. by eexists.
    + destruct (transaction_is id' y); [intros [= <-]; by exists y|done].
  - unfold journals_sound. cbn. generalize (st_transactions s). intros l. induction 1 as [|y l Hy Hl IH]; cbn; [done|].
    destruct (transaction_is id y); constructor; auto using recorded_sound.
Qed.

Lemma record_journals op : moves journals_grow (run_record op).
Proof.
  destruct op; cbn [ControllerRecords.run_record];
    try (apply moves_bind; [exact _| |intros ?; apply moves_frame; [exact _|apply frame_ret]]).
  all: unfold lease_acquire, lease_renew, driver_handoff, driver_take, lease_release, approval_request, approval_approve,
    approval_revoke, transaction_begin, generation_put,
    transaction_record, handoff_create, handoff_progress, artifact_put, agent_put, agent_transition,
    executor_put, executor_unregister, executor_remove, controller_unregister; moves.
  all: apply moves_on_state; intros s;
    first [by apply journals_same | apply journals_append, new_journal_sound | apply journals_record].
Qed.

(** ** What is acknowledged is committed *)

(** The state file holds the records, the leases and the fences of the controller. *)
Definition synced (c : Controller) : Prop :=
  exists ts, ctl_durable c =
    set_tables (Leases.snapshot (ctl_leases c)) (fence_snapshot (ctl_leases c)) ts (ctl_state c).

(** [commits m]: a success of [m] leaves the state file up to date, whatever it was before. *)
Definition commits {A} (m : M Controller RpcError A) : Prop :=
  forall c w a c' w', m c w = (Ok a, c', w') -> synced c'.
(** [stays m]: a success of [m] leaves an up-to-date state file up to date. *)
Definition stays {A} (m : M Controller RpcError A) : Prop :=
  forall c w a c' w', synced c -> m c w = (Ok a, c', w') -> synced c'.

Definition volatile (c : Controller) : FabricState * LeaseTable * FabricState :=
  (ctl_state c, ctl_leases c, ctl_durable c).

Lemma synced_same c c' : volatile c' = volatile c -> synced c -> synced c'.
Proof. unfold volatile, synced. intros [= -> -> ->]. done. Qed.

Lemma commits_tail {A} (a : A) : commits (bind persist (fun _ => ret a)).
Proof.
  intros c w a' c' w' H. mstep H u c1 w1 H1. unfold ret in H. simplify_eq.
  pose proof (persist_state _ _ _ _ _ _ _ _ _ H1) as Hs.
  assert (frame ctl_leases persist) as Hl by (by apply persist_frame).
  apply persist_durable in H1 as H2. destruct H2 as (ts & Hd & _). exists ts. by rewrite Hd, Hs, (Hl _ _ _ _ _ H1).
Qed.

Lemma commits_persist : commits persist.
Proof.
  intros c w u c' w' H. apply (commits_tail u c w u c' w'). unfold bind. by rewrite H.
Qed.

Lemma commits_bind {A B} (m : M Controller RpcError A) (k : A -> M Controller RpcError B) :
  (forall a, commits (k a)) -> commits (bind m k).
Proof. intros Hk c w b c' w' H. mstep H a c1 w1 H1. by eapply Hk. Qed.

Lemma commits_fail {A} e : commits (A := A) (fail e).
Proof. intros c w a c' w' H. done. Qed.

Lemma stays_commits {A} (m : M Controller RpcError A) : commits m -> stays m.
Proof. intros Hm c w a c' w' _ H. by eapply Hm. Qed.

Lemma stays_bind {A B} (m : M Controller RpcError A) (k : A -> M Controller RpcError B) :
  frame volatile m -> (forall a, stays (k a)) -> stays (bind m k).
Proof.
  intros Hf Hk c w b c' w' Hs H. mstep H a c1 w1 H1. eapply Hk; [|exact H]. eapply synced_same; [|exact Hs].
  by eapply Hf.
Qed.

Lemma stays_frame {A} (m : M Controller RpcError A) : frame volatile m -> stays m.
Proof. intros Hf c w a c' w' Hs H. eapply synced_same; [|exact Hs]. by eapply Hf. Qed.

Ltac commits :=
  repeat first
    [ apply commits_tail | apply commits_persist | apply commits_fail | apply commits_bind; intros ? | progress case_match ].

(** Removing entries: nothing changes when none is removed. *)
Lemma filter_length_same {A} (p : A -> bool) l : length (List.filter p l) = length l -> List.filter p l = l.
Proof.
  induction l as [|x l IH]; cbn; [done|]. destruct (p x); cbn.
  - intros [= H]. by rewrite IH.
  - intros H. exfalso. assert (length (List.filter p l) <= length l)%nat; [|lia].
    clear. induction l as [|y l IH]; cbn; [lia|]. destruct (p y); cbn; lia.
Qed.

Lemma same_executors c l : l = st_executors (ctl_state c) -> set_fabric (set_executors (fun _ => l)) c = c.
Proof. intros ->. by destruct c as [? [] ? ? ? ?]. Qed.
Lemma same_controllers c l : l = st_controllers (ctl_state c) -> set_fabric (set_controllers (fun _ => l)) c = c.
Proof. intros ->. by destruct c as [? [] ? ? ? ?]. Qed.

Lemma unregister_stays params : stays (executor_unregister to_vec sha256_hex torn store params).
Proof.
  unfold executor_unregister. apply stays_bind; [frame|intros id]. intros c w b c' w' Hs H.
  unfold bind at 1, get in H. unfold bind at 1, on_state, modify in H.
  destruct (Nat.eqb_spec (length (List.filter (fun e => negb (executor_is id e)) (st_executors (ctl_state c))))
             (length (st_executors (ctl_state c)))) as [He|]; cbn [negb] in H.
  - apply filter_length_same in He. rewrite He, same_executors in H by done. unfold bind, ret in H. by simplify_eq.
  - by eapply commits_tail.
Qed.

Lemma controller_unregister_stays params : stays (controller_unregister to_vec sha256_hex torn store params).
Proof.
  unfold controller_unregister. apply stays_bind; [frame|intros id]. intros c w b c' w' Hs H.
  unfold bind at 1, get in H. destruct (String.eqb id (ctl_id c)); [done|]. unfold bind at 1, on_state, modify in H.
  destruct (Nat.eqb_spec (length (List.filter (fun p => negb (String.eqb (meta_id (peer_metadata p)) id)) (st_controllers (ctl_state c))))
             (length (st_controllers (ctl_state c)))) as [He|]; cbn [negb] in H.
  - apply filter_length_same in He. rewrite He, same_controllers in H by done. unfold bind, ret in H. by simplify_eq.
  - by eapply commits_tail.
Qed.

Lemma stays_discard {A} (m : M Controller RpcError A) : stays m -> stays (bind m (fun _ => ret tt)).
Proof.
  intros Hm c w b c' w' Hs H. mstep H a c1 w1 H1. unfold ret in H. simplify_eq. by eapply Hm.
Qed.

Lemma record_stays op : stays (run_record op).
Proof.
  destruct op; cbn [ControllerRecords.run_record]; try apply stays_discard.
  6: { unfold approval_request. do 3 (apply stays_bind; [frame|intros ?]). case_match; [apply stays_frame; frame|].
       apply stays_commits. commits. }
  8: { unfold transaction_begin. do 2 (apply stays_bind; [frame|intros ?]). case_match; [apply stays_frame; frame|].
       apply stays_commits. commits. }
  16: apply unregister_stays.
  17: apply controller_unregister_stays.
  all: apply stays_commits;
    unfold lease_acquire, lease_renew, driver_handoff, driver_take, lease_release, approval_approve,
      approval_revoke, generation_put, transaction_record, handoff_create, handoff_progress, artifact_put, agent_put,
      agent_transition, executor_put, executor_remove; commits.
Qed.

(** ** Theorems *)

(** along any requests a generation keeps its session, root and baseline and moves only along its
    life cycle; a generation that failed or was superseded stays so. *)
Theorem generation_life_cycle c ops c' id g :
  record_run c ops c' -> find (generation_is id) (st_generations (ctl_state c)) = Some g ->
  exists g', find (generation_is id) (st_generations (ctl_state c')) = Some g' /\ same_generation g g' = true /\
    rtc generation_edge (generation_state g) (generation_state g') /\
    (generation_state g = GFailed \/ generation_state g = GSuperseded -> generation_state g' = generation_state g).
Proof.
  intros Hr Hg. pose proof (run_moves generations_live _ _ _ record_generations Hr) as H.
  destruct (H id g Hg) as (g' & Hg' & Hs & He). exists g'. split_and!; [done..|]. clear -He. intros Hf.
  induction He as [|s s1 s2 E _ IH]; [done|]. assert (s1 = s) as ->; [|by apply IH].
  unfold generation_edge in E. destruct Hf as [-> | ->]; by destruct s1.
Qed.

(** along any requests the journal of a transaction only grows, its entries are numbered from one,
    and the completed steps are exactly the steps that have succeeded, each once. *)
Theorem transaction_journal c ops c' id t :
  record_run c ops c' -> journals_sound (ctl_state c) ->
  find (transaction_is id) (st_transactions (ctl_state c)) = Some t ->
  exists t', find (transaction_is id) (st_transactions (ctl_state c')) = Some t' /\ journal_sound t' /\
    tx_journal t `prefix_of` tx_journal t' /\ tx_idempotency_key t' = tx_idempotency_key t /\
    tx_generation_id t' = tx_generation_id t.
Proof.
  intros Hr Hs Ht. destruct (run_moves journals_grow _ _ _ record_journals Hr) as [H1 H2].
  destruct (H1 id t Ht) as (t' & Ht' & Hp & Hk & Hg & _). exists t'. split_and!; try done.
  specialize (H2 Hs). unfold journals_sound in H2. rewrite Forall_forall in H2. apply H2.
  apply find_some in Ht' as [Hin _]. by apply list_elem_of_In.
Qed.

(** when the state file is up to date and a record request is answered with success, the state file
    holds the records, leases and fences as they are in memory. *)
Theorem acknowledged_requests_are_committed op c w c' w' :
  synced c -> run_record op c w = (Ok tt, c', w') -> synced c'.
Proof. apply record_stays. Qed.

End Records.
