(* ===== verification/CapabilityInvoke.v ===== *)
(** * Invoking a capability ([capability.invoke] of
      [crates/machine-fabric-runtime/src/controller.rs])

    The handler in two parts, before and after the call of the executor: the
    checks, the approval, the task and its states; the result, its validation
    and what is recorded of it. The readiness of a started process is polled
    with a bounded number of polls, [None] standing for a handler that still
    waits. *)
From Stdlib Require Import Ascii SpecFloat.
From stdpp Require Import base gmap strings list pretty.
From S2P Require Import Prelude Json Schema Protocol Leases Tasks Store Payloads Evidence SchemaCheck.
From S2P Require Import Controller ControllerSessions ControllerRecords.
Open Scope Z_scope.
Open Scope fabric_scope.

(** ** Commands that need an approval *)

Fixpoint split_slash (s : string) : list string :=
  match s with
  | EmptyString => [""]
  | String a s' =>
      if Ascii.eqb a "/"%char then "" :: split_slash s'
      else match split_slash s' with
           | [] => [String a ""]
           | x :: l => String a x :: l
           end
  end.

(** [Path::file_name] of a Unix path: the last component unless it is [..]. *)
Definition path_file_name (p : string) : option string :=
  match rev (List.filter (fun c => negb (str_is_empty c || String.eqb c ".")) (split_slash p)) with
  | [] => None
  | name :: _ => if String.eqb name ".." then None else Some name
  end.

(** [command_requires_approval] *)
Definition command_requires_approval (input : Value) : bool :=
  match ((vget "argv" input ≫= as_array) ≫= head) ≫= as_str with
  | Some path =>
      match path_file_name path with
      | Some name => existsb (String.eqb name) ["rm"; "sudo"; "su"; "dd"; "mkfs"]
      | None => false
      end
  | None => false
  end.

Definition runs_commands (capability : string) : bool :=
  existsb (String.eqb capability) ["process.start"; "command.run"; "artifact.build"; "agent.start"].

(** The request thread panics: no response is sent. *)
Definition request_panic : RpcError := rpc_error "PANIC" "".

Definition task_state_debug (s : TaskState) : string :=
  match s with
  | Queued => "Queued" | Running => "Running" | Succeeded => "Succeeded" | Failed => "Failed"
  | Cancelled => "Cancelled" | TimedOut => "TimedOut" | OutcomeUnknown => "OutcomeUnknown"
  end.
Definition invalid_task_state (e : TaskError) : RpcError :=
  rpc_error "INVALID_TASK_STATE"
    match e with
    | TaskNotFound => "task not found"
    | TaskInvalidTransition from to =>
        "invalid transition from " +:+ task_state_debug from +:+ " to " +:+ task_state_debug to
    end.

Definition read_only (contract : CapabilityDescriptor) : bool := bool_decide (cap_effect contract = ReadOnly).

(** What the handler does before the call decides. *)
Inductive Invocation :=
| Reused (task : Task)
| Dispatch (task : Task) (executor : Executor) (contract : CapabilityDescriptor) (input : Value).

(** [artifact_from_result], given the time of its creation *)
Definition artifact_from_result (capability : string) (input result : Value)
    (workspace_session_id executor_id task_id : string) : option (Z -> Artifact) :=
  let value :=
    if String.eqb capability "artifact.build" then vget "artifact" result
    else if String.eqb capability "artifact.describe" || String.eqb capability "artifact.transfer" then Some result
    else None in
  match value with
  | None => None
  | Some value =>
      match vget "digest" value ≫= as_str, or_else (vget "path" value) (vget "destination" value) ≫= as_str with
      | Some digest, Some path =>
          Some (fun now => mkArtifact digest (default "generic" (opt_str input "artifactType"))
                  "machine-fabric.dev/artifact/v1" (default 0 (opt_u64 value "size"))
                  [LocationFile executor_id path]
                  (mkProvenance workspace_session_id (Some task_id)
                     match opt_str input "digest" with Some d => [d] | None => [] end ∅)
                  now)
      | _, _ => None
      end
  end.

Section Invoke.
Context (to_vec : Value -> option string) (from_slice : string -> option Value).
Context (sha256_hex : string -> string) (torn : string -> string) (store : JsonStore).
Context (to_string : Value -> string) (f64_text : spec_float -> string).
#[local] Abbreviation persist := (persist to_vec sha256_hex torn store).
#[local] Abbreviation validate_schema := (validate_schema to_string f64_text).

Definition with_payload (task : Task) : M Controller RpcError Task :=
  zoom ctl_payloads set_payloads (task_with_payload from_slice sha256_hex store task).
Definition task_op {A} (m : M TaskTable TaskError A) : M Controller RpcError A :=
  with_err invalid_task_state (zoom ctl_tasks set_tasks m).
Definition may_panic {A} (m : M TaskTable panic A) : M Controller RpcError A :=
  with_err (fun _ => request_panic) (zoom ctl_tasks set_tasks m).

(** [command_digest] *)
Definition command_digest (input : Value) : result RpcError string :=
  match vget "cwd" input, vget "argv" input with
  | None, _ => Err (rpc_error "INVALID_PARAMS" "cwd is required")
  | _, None => Err (rpc_error "INVALID_PARAMS" "argv is required")
  | Some cwd, Some argv =>
      match to_vec (obj_of [("cwd", cwd); ("argv", argv)]) with
      | Some bytes => Ok (sha256_bytes sha256_hex bytes)
      | None => Err (rpc_error "INVALID_PARAMS" "")
      end
  end.

(** The condition on the approval of a command; the clock is read only when it decides. *)
Definition approval_authorizes (digest owner : string) (approval : Approval) : M Controller RpcError bool :=
  if negb (String.eqb (approval_digest approval) digest)
     || negb (String.eqb (approval_owner approval) owner)
     || negb (bool_decide (approval_state approval = AApproved))
  then ret false
  else match approval_expires_at approval with
       | None => ret false
       | Some expires => let* now := now_ms in ret (now <? expires)
       end.

(** The approval of the command is consumed, and the consumption committed; returns the input. *)
Definition consume_approval (params input : Value) (owner : string) : M Controller RpcError Value :=
  let* digest := lift (command_digest input) in
  let* id := lift (required_str params "approvalId") in
  let* c := get in
  match find (approval_is id) (st_approvals (ctl_state c)) with
  | None => fail (rpc_error "APPROVAL_NOT_FOUND" "approval not found")
  | Some approval =>
      let* ok := approval_authorizes digest owner approval in
      if ok : bool then
        let* now := now_ms in
        on_state (set_approvals (update_first (approval_is id) (consumed now))) ;;
        let* input := lift (ok_or (vindex_set "approvalDigest" (VString digest) input) request_panic) in
        persist ;;
        ret input
      else fail (rpc_error "APPROVAL_INVALID" "approval does not authorize this exact command")
  end.

(** The task of the invocation is created or found; [Some task] is to be run. *)
Definition admit_task (session executor capability key : string) (input : Value) (trace : option string * option string)
    (max_attempts : Z) : M Controller RpcError (Task + Task) :=
  let* submitted := may_panic (submit_traced session executor capability input key trace.1 trace.2) in
  let '(task, reused) := submitted in
  if negb reused then ret (inr task)
  else
    match task_state task with
    | Succeeded => let* task := with_payload task in ret (inl task)
    | Failed | TimedOut | OutcomeUnknown =>
        if task_attempt task <? max_attempts then
          let* restored := with_payload task in
          if negb (value_eqb (task_input restored) input)
          then fail (rpc_error "TASK_RETRY_INPUT_MISMATCH" "retry input differs from the original task")
          else let* task := task_op (retry_with_input (task_id task) (task_input restored)) in ret (inr task)
        else fail (rpc_error "TASK_RETRY_EXHAUSTED" ("task " +:+ task_id task +:+ " exhausted retry policy"))
    | Queued | Running =>
        fail (rpc_error "TASK_IN_PROGRESS" ("task " +:+ task_id task +:+ " is already in progress"))
    | Cancelled => fail (rpc_error "TASK_RETRY_EXHAUSTED" ("task " +:+ task_id task +:+ " exhausted retry policy"))
    end.

(** [capability.invoke] up to the call of the executor *)
Definition invoke_prepare (params : Value) (trace : option string * option string)
    : M Controller RpcError Invocation :=
  let* executor_id := lift (required_str params "executorId") in
  let* capability := lift (required_str params "capability") in
  let* session := lift (required_str params "workspaceSessionId") in
  let* c := get in
  let* authority := lift (ok_or (authority_of session (ctl_state c))
                            (rpc_error "SESSION_NOT_FOUND" ("unknown session: " +:+ session))) in
  if negb (String.eqb (auth_controller_id authority) (ctl_id c))
  then fail (rpc_error "NOT_SESSION_AUTHORITY" ("session is owned by " +:+ auth_controller_id authority))
  else
    let* owner := lift (required_str params "owner") in
    let* key := lift (required_str params "idempotencyKey") in
    let input := default (VObject []) (vget "input" params) in
    let* executor := lift (ok_or (find (executor_is executor_id) (st_executors (ctl_state c)))
                             (rpc_error "EXECUTOR_NOT_FOUND" ("unknown executor: " +:+ executor_id))) in
    let* contract := lift (ok_or (find (fun k => String.eqb (cap_name k) capability) (executor_capabilities executor))
                             (rpc_error "CAPABILITY_NOT_FOUND" ("executor does not provide " +:+ capability))) in
    (if read_only contract then ret tt
     else
       let* token := lift (required_str params "driverToken") in
       on_leases (validate ("workspace:" +:+ session) owner token) ;;
       ret tt) ;;
    lift (validate_schema (cap_input_schema contract) input "input") ;;
    let* input :=
      if runs_commands capability && command_requires_approval input
      then consume_approval params input owner
      else ret input in
    let* admitted :=
      admit_task session executor_id capability key input trace (retry_max_attempts (cap_retry contract)) in
    match admitted with
    | inl task => ret (Reused task)
    | inr task =>
        let* task := task_op (transition (task_id task) Running None None) in
        let* input :=
          if read_only contract then ret input
          else lift (ok_or (vindex_set "_workspaceSessionId" (VString session) input) request_panic) in
        ret (Dispatch task executor contract input)
    end.

(** ** After the call *)

Definition failure_of (retryable : bool) (e : RpcError) : TaskFailure :=
  mkTaskFailure (err_code e) (err_message e) retryable (err_details e).

(** The task is marked as failed, whether or not it can be, and the error is returned. *)
Definition fail_task {A} (task : Task) (failure : TaskFailure) (error : RpcError) : M Controller RpcError A :=
  let* _ := attempt (F := RpcError) (task_op (transition (task_id task) Failed None (Some failure))) in
  persist ;;
  fail error.

(** [wait_for_process_readiness]; [polls n] is the answer of the executor to the [n]-th poll. *)
Fixpoint wait_loop (polls : nat -> result string Response) (fuel n : nat) (process_id : string) (deadline : Z)
    (result : Value) : M Controller RpcError (option Value) :=
  let readiness := (vget "readiness" result ≫= vget "state") ≫= as_str in
  let process_state := vget "state" result ≫= as_str in
  if bool_decide (readiness = Some "ready") then ret (Some result)
  else if bool_decide (readiness = Some "failed") || bool_decide (readiness = Some "timeout")
          || negb (bool_decide (process_state = Some "running"))
  then fail (rpc_error "PROCESS_NOT_READY"
               ("process readiness ended in " +:+ default "unknown" (or_else readiness process_state)))
  else
    let* now := instant_now in
    if deadline <=? now
    then fail (mkRpcError "READINESS_TIMEOUT" ("process did not become ready: " +:+ process_id) true VNull)
    else
      match fuel with
      | O => ret None
      | S fuel' =>
          match polls n with
          | Err error => fail (rpc_error "EXECUTOR_UNAVAILABLE" error)
          | Ok polled =>
              if resp_ok polled
              then wait_loop polls fuel' (S n) process_id deadline (default VNull (resp_result polled))
              else fail (default (rpc_error "EXECUTOR_FAILED" "process.get failed") (resp_error polled))
          end
      end.

Definition wait_for_process_readiness (polls : nat -> result string Response) (fuel : nat) (input result : Value)
    : M Controller RpcError (option Value) :=
  let* process_id := lift (required_str input "processId") in
  let timeout :=
    default 180000 (or_else (opt_u64 input "readinessTimeoutMs")
                            ((vget "readiness" input ≫= vget "timeoutMs") ≫= as_u64)) in
  let* start := instant_now in
  wait_loop polls fuel 0 process_id (start + timeout) result.

(** The records of a successful result: an artifact, a started or a stopped agent. *)
Definition record_result (capability session executor_id : string) (task : Task) (input result : Value)
    : M Controller RpcError unit :=
  match artifact_from_result capability input result session executor_id (task_id task) with
  | Some artifact =>
      let* now := now_ms in
      let a := artifact now in
      on_state (set_artifacts (fun l =>
        upsert_by l a (fun x => String.eqb (artifact_digest x) (artifact_digest a))))
  | None => ret tt
  end ;;
  if String.eqb capability "agent.start" then
    let* id := lift (required_str input "agentId") in
    let* role := lift (required_str input "role") in
    let agent := mkAgentInstance id session executor_id role (default "process" (opt_str input "provider"))
                   ARunning result in
    on_state (set_agents (fun l => upsert_by l agent (fun x => String.eqb (agent_id x) (agent_id agent))))
  else if String.eqb capability "agent.stop" then
    let id := default "" (opt_str input "agentId") in
    on_state (set_agents (update_first (fun a => String.eqb (agent_id a) id) (fun a =>
      mkAgentInstance (agent_id a) (agent_workspace_session_id a) (agent_executor_id a) (agent_role a)
        (agent_provider a) AStopped result)))
  else ret tt.

(** [capability.invoke] after the call: the finished task and the result *)
Definition invoke_finish (polls : nat -> result string Response) (fuel : nat) (capability session executor_id : string)
    (task : Task) (contract : CapabilityDescriptor) (input : Value) (response : result string Response)
    : M Controller RpcError (option (Task * Value)) :=
  match response with
  | Err error =>
      let rpc := rpc_error "EXECUTOR_UNAVAILABLE" error in
      fail_task task (mkTaskFailure (err_code rpc) (err_message rpc) true VNull) rpc
  | Ok response =>
      if negb (resp_ok response) then
        let error := default (rpc_error "EXECUTOR_FAILED" "executor failed") (resp_error response) in
        fail_task task (failure_of (err_retryable error) error) error
      else
        let result := default VNull (resp_result response) in
        let* ready :=
          if String.eqb capability "process.start"
             && bool_decide (vget "waitReady" input ≫= as_bool = Some true)
          then
            let* outcome := attempt (wait_for_process_readiness polls fuel input result) in
            match outcome with
            | Ok ready => ret ready
            | Err error => fail_task task (failure_of (err_retryable error) error) error
            end
          else ret (Some result) in
        match ready with
        | None => ret None
        | Some result =>
            match validate_schema (cap_output_schema contract) result "output" with
            | Err error => fail_task task (failure_of false error) error
            | Ok _ =>
                let* task := task_op (transition (task_id task) Succeeded
                                        (Some (retained_task_output capability result)) None) in
                record_result capability session executor_id task input result ;;
                persist ;;
                ret (Some (task, result))
            end
        end
  end.

(** [capability.invoke]; [call_executor] makes the call. The task, whether it was reused, the result. *)
Definition capability_invoke (call_executor : ExecutorEndpoint -> string -> Value -> result string Response)
    (polls : nat -> result string Response) (fuel : nat) (params : Value) (trace : option string * option string)
    : M Controller RpcError (option (Task * bool * option Value)) :=
  let* invocation := invoke_prepare params trace in
  match invocation with
  | Reused task => ret (Some (task, true, task_output task))
  | Dispatch task executor contract input =>
      let* executor_id := lift (required_str params "executorId") in
      let* capability := lift (required_str params "capability") in
      let* session := lift (required_str params "workspaceSessionId") in
      let response := call_executor (executor_endpoint executor) capability input in
      let* finished := invoke_finish polls fuel capability session executor_id task contract input response in
      ret ((fun p => (p.1, false, Some p.2)) <$> finished)
  end.

End Invoke.
