(* ===== verification/InvokeSafety.v ===== *)
(** * What [capability.invoke] guarantees

    A capability is dispatched only under the authority over its session, a
    valid driver lease where it changes something, a conforming input and, for
    the commands that need one, an approval; an approval is spent by one
    dispatch, also across restarts; the outcome is recorded in the task. *)
From Stdlib Require Import SpecFloat.
From stdpp Require Import base gmap strings list relations.
From S2P Require Import Prelude Json Schema Protocol Leases Tasks Store Payloads Evidence SchemaCheck.
From S2P Require Import Controller Authority ControllerSessions ControllerRecords CapabilityInvoke ControllerFrames.
Open Scope Z_scope.

Section Safety.
Context (to_vec : Value -> option string) (from_slice : string -> option Value).
Context (sha256_hex : string -> string) (torn : string -> string) (store : JsonStore).
Context (to_string : Value -> string) (f64_text : spec_float -> string).
#[local] Abbreviation persist := (persist to_vec sha256_hex torn store).
#[local] Abbreviation invoke_prepare :=
  (invoke_prepare to_vec from_slice sha256_hex torn store to_string f64_text).
#[local] Abbreviation invoke_finish :=
  (invoke_finish to_vec sha256_hex torn store to_string f64_text).
#[local] Abbreviation consume_approval := (consume_approval to_vec sha256_hex torn store).
#[local] Abbreviation admit_task := (admit_task from_slice sha256_hex store).
#[local] Abbreviation command_digest := (command_digest to_vec sha256_hex).

(** ** Authorization *)

(** The checks that stand before a dispatch, when the clock of the request shows [now]. *)
Record authorized (params : Value) (c : Controller) (now : Z) (session owner : string) (input : Value)
    (executor : Executor) (contract : CapabilityDescriptor) : Prop := mk_authorized {
  au_session : required_str params "workspaceSessionId" = Ok session;
  au_owner : required_str params "owner" = Ok owner;
  au_authority : exists e pending,
    authority_of session (ctl_state c) = Some (mkSessionAuthority (ctl_id c) e pending);
  au_executor : executor ∈ st_executors (ctl_state c);
  au_contract : contract ∈ executor_capabilities executor /\
    required_str params "capability" = Ok (cap_name contract);
  au_driver : cap_effect contract <> ReadOnly ->
    exists token lease, required_str params "driverToken" = Ok token /\
      leases (ctl_leases c) !! ("workspace:" +:+ session) = Some lease /\
      lease_owner lease = owner /\ lease_token lease = token /\ now < lease_expires_at lease;
  au_input : conforms (cap_input_schema contract) input;
}.

(** The approval that a command has used up: it was approved for this command and owner and had not
    expired when the clock showed [now], and the state file holds it as consumed. *)
Definition approval_spent (params input : Value) (owner : string) (now : Z) (c c' : Controller) : Prop :=
  exists id digest a,
    required_str params "approvalId" = Ok id /\ command_digest input = Ok digest /\
    find (approval_is id) (st_approvals (ctl_state c)) = Some a /\
    approval_digest a = digest /\ approval_owner a = owner /\ approval_state a = AApproved /\
    (exists expires, approval_expires_at a = Some expires /\ now < expires) /\
    (exists a', find (approval_is id) (st_approvals (ctl_state c')) = Some a' /\ approval_state a' = AConsumed) /\
    st_approvals (ctl_durable c') = st_approvals (ctl_state c').

Lemma find_update_first {A} (p : A -> bool) (f : A -> A) l x :
  find p l = Some x -> p (f x) = true -> find p (update_first p f l) = Some (f x).
Proof.
  induction l as [|y l IH]; cbn; [done|]. destruct (p y) eqn:Hy; cbn.
  - intros [= ->] Hf. by rewrite Hf.
  - intros H Hf. rewrite Hy. by apply IH.
Qed.

Lemma consume_approval_spends params input owner c w input' c' w' :
  consume_approval params input owner c w = (Ok input', c', w') -> approval_spent params input owner (wall w) c c'.
Proof.
  intros H. unfold CapabilityInvoke.consume_approval in H. mlift H digest Hd. mlift H aid Hid.
  mstep H c0 c1 w1 H1. unfold get in H1. simplify_eq.
  destruct (find (approval_is aid) _) as [a|] eqn:Hf; [|done].
  mstep H ok c1 w2 H1.
  assert (exists expires, c1 = c0 /\ (ok = true -> approval_digest a = digest /\ approval_owner a = owner /\
    approval_state a = AApproved /\ approval_expires_at a = Some expires /\ wall w1 < expires)) as (ex & -> & Hok).
  { unfold approval_authorizes in H1. munfold. repeat case_match; simplify_eq; try (exists 0; done).
    bool_prop. eexists _. split; [done|]. intros ?. bool_prop. split_and!; done. }
  destruct ok; [|done]. destruct (Hok eq_refl) as (Ha & Hb & Hc & Hx & Hlt). clear Hok H1.
  mstep H now2 c1 w3 H1. unfold now_ms in H1. simplify_eq.
  mstep H u c2 w4 H2. unfold on_state, modify in H2. simplify_eq. mlift H i2 Hi2.
  mstep H u2 c3 w5 H3. unfold ret in H. simplify_eq.
  pose proof (persist_state _ _ _ _ _ _ _ _ _ H3) as Hs. apply persist_durable in H3 as (ts & Hdur & _).
  exists aid, (approval_digest a), a. split_and!; try done; [by exists ex| |].
  - rewrite Hs. cbn. eexists. split; [apply find_update_first; [done|]|done]. apply find_some in Hf as [_ Hf]. exact Hf.
  - by rewrite Hdur, Hs.
Qed.

(** The world after one reading of the clock *)
Definition clock_read (w : World) : World := set_wall (advance (w_wall w)) w.
(** The world in which the approval is checked: only a driver lease reads the clock before. *)
Definition driver_checked (contract : CapabilityDescriptor) (w : World) : World :=
  if read_only contract then w else clock_read w.

Lemma validate_lease resource owner token t w l t' w' :
  validate resource owner token t w = (Ok l, t', w') ->
  t' = t /\ w' = clock_read w /\ leases t !! resource = Some l /\ lease_owner l = owner /\ lease_token l = token /\
    wall w < lease_expires_at l.
Proof. unfold validate. intros H. mrun. bool_prop. split_and!; try done. Qed.

Lemma admit_frame {B} (f : Controller -> B) session executor capability key input trace n :
  (forall t c, f (set_tasks t c) = f c) -> (forall d c, f (set_payloads d c) = f c) ->
  frame f (admit_task session executor capability key input trace n).
Proof. intros Ht Hd. unfold CapabilityInvoke.admit_task, may_panic, with_payload, task_op. frame. Qed.

Lemma task_op_frame {A B} (f : Controller -> B) (m : M TaskTable TaskError A) :
  (forall t c, f (set_tasks t c) = f c) -> frame f (task_op m).
Proof. intros Ht. unfold task_op. frame. Qed.

(** The task that is dispatched is running, with one more attempt. *)
Lemma transition_stores id s o e t w x t' w' :
  transition id s o e t w = (Ok x, t', w') ->
  get_task t' id = Some x /\ task_state x = s /\ exists x0, tasks t !! id = Some x0 /\ task_id x = task_id x0 /\
    transition_allowed (task_state x0) s = true.
Proof.
  unfold transition, push_event, store_task. intros H. mrun; bool_prop; unfold get_task; cbn;
    rewrite lookup_insert_eq; (split_and!; [done|done|]); eexists; split_and!; done.
Qed.

Definition needs_approval (capability : string) (input : Value) : bool :=
  runs_commands capability && command_requires_approval input.

Lemma dispatch_is_checked_core params trace c w task executor contract input' c' w' :
  invoke_prepare params trace c w = (Ok (Dispatch task executor contract input'), c', w') ->
  let input := default (VObject []) (vget "input" params) in
  exists session owner,
    authorized params c (wall w) session owner input executor contract /\
    (needs_approval (cap_name contract) input = true ->
     approval_spent params input owner (wall (driver_checked contract w)) c c') /\
    (exists id, get_task (ctl_tasks c') id = Some task) /\ task_state task = Running.
Proof.
  intros H input. unfold CapabilityInvoke.invoke_prepare in H.
  mlift H executor_id He. mlift H capability Hc. mlift H session Hs.
  mstep H c0 c1 w1 H1. unfold get in H1. simplify_eq. mlift H a Ha. apply ok_or_ok in Ha.
  destruct (String.eqb_spec (auth_controller_id a) (ctl_id c0)) as [Hid|]; [|done]. cbn [negb] in H.
  mlift H owner Ho. mlift H key Hk. mlift H exr Hex. apply ok_or_ok in Hex. mlift H k Hkk. apply ok_or_ok in Hkk.
  fold input in H. mstep H u c1 w2 H1.
  assert (c1 = c0 /\ w2 = driver_checked k w1 /\ (cap_effect k <> ReadOnly -> exists token lease, required_str params "driverToken" = Ok token /\
      leases (ctl_leases c0) !! ("workspace:" +:+ session) = Some lease /\
      lease_owner lease = owner /\ lease_token lease = token /\ wall w1 < lease_expires_at lease)) as (-> & -> & Hdrv).
  { unfold driver_checked. unfold read_only in *. case_bool_decide as Hro; [unfold ret in H1; by simplify_eq|].
    mlift H1 token Ht. mstep H1 l c2 w3 H2. unfold ret in H1. simplify_eq.
    unfold on_leases, with_err, zoom in H2.
    destruct (validate _ owner token (ctl_leases c0) w1) as [[[l'|e] t'] w4] eqn:E; cbn in H2; [|done].
    injection H2 as -> <- <-. apply validate_lease in E as (-> & -> & HH). split_and!; [by destruct c0|done|].
    intros _. by exists token, l. }
  mlift H uu Hsch. destruct uu. apply validate_schema_ok in Hsch.
  mstep H input1 c2 w3 H2. mstep H admitted c3 w4 H3.
  destruct admitted as [t1|t1]; [unfold ret in H; done|].
  mstep H t2 c4 w5 H4. mstep H input2 c5 w6 H5.
  assert (c5 = c4) as -> by (destruct (read_only k); [unfold ret in H5|unfold lift in H5]; by simplify_eq).
  unfold ret in H. simplify_eq. exists session, owner.
  assert (cap_name contract = capability) as Hn by (apply find_some in Hkk as [_ Hkk]; by bool_prop).
  split_and!.
  - constructor; try done.
    + destruct a as [x e p]. cbn in Hid. subst x. by exists e, p.
    + apply list_elem_of_In. by apply find_some in Hex as [? _].
    + split; [apply list_elem_of_In; by apply find_some in Hkk as [? _]|by rewrite Hn].
  - rewrite Hn. unfold needs_approval. intros Hneed. rewrite Hneed in H2. apply consume_approval_spends in H2.
    assert (ctl_state c' = ctl_state c2 /\ ctl_durable c' = ctl_durable c2) as [E1 E2].
    { split.
      - rewrite (task_op_frame ctl_state _ (fun _ _ => eq_refl) _ _ _ _ _ H4).
        by rewrite (admit_frame ctl_state _ _ _ _ _ _ _ (fun _ _ => eq_refl) (fun _ _ => eq_refl) _ _ _ _ _ H3).
      - rewrite (task_op_frame ctl_durable _ (fun _ _ => eq_refl) _ _ _ _ _ H4).
        by rewrite (admit_frame ctl_durable _ _ _ _ _ _ _ (fun _ _ => eq_refl) (fun _ _ => eq_refl) _ _ _ _ _ H3). }
    destruct H2 as (id & digest & ap & P). exists id, digest, ap. by rewrite E1, E2.
  - unfold task_op, with_err, zoom in H4.
    destruct (transition _ _ _ _ _ _) as [[[x|e] t'] w7] eqn:E; cbn in H4; [|done]. simplify_eq.
    apply transition_stores in E as (E & _). by exists (task_id t1).
  - unfold task_op, with_err, zoom in H4.
    destruct (transition _ _ _ _ _ _) as [[[x|e] t'] w7] eqn:E; cbn in H4; [|done]. simplify_eq.
    by apply transition_stores in E as (_ & E & _).
Qed.

(** ** Approvals are spent once *)

(** The approval [aid] can authorize nothing any more. *)
Definition spent (aid : string) (l : list Approval) : Prop :=
  exists a, find (approval_is aid) l = Some a /\ approval_state a <> APending /\ approval_state a <> AApproved.

(** It is spent in memory and in the state file. *)
Definition settled (aid : string) (c : Controller) : Prop :=
  spent aid (st_approvals (ctl_state c)) /\ spent aid (st_approvals (ctl_durable c)).

Lemma find_app_l {A} (p : A -> bool) l l' x : find p l = Some x -> find p (l ++ l') = Some x.
Proof. induction l as [|y l IH]; cbn; [done|]. destruct (p y); auto. Qed.

Lemma find_update_other {A} (p q : A -> bool) (f : A -> A) l :
  (forall x, q x = true -> p x = false /\ p (f x) = false) -> find p (update_first q f l) = find p l.
Proof.
  intros H. induction l as [|y l IH]; cbn; [done|]. destruct (q y) eqn:Hq; cbn.
  - destruct (H y Hq) as [-> ->]. done.
  - by rewrite IH.
Qed.

(** An update of one approval: it keeps the identifiers, and of a spent one the state. *)
Lemma spent_update aid bid (f : Approval -> Approval) l :
  (forall a, approval_id (f a) = approval_id a) ->
  (forall a, find (approval_is bid) l = Some a -> approval_state (f a) <> APending /\ approval_state (f a) <> AApproved
     \/ approval_state a = APending \/ approval_state a = AApproved) ->
  spent aid l -> spent aid (update_first (approval_is bid) f l).
Proof.
  intros Hid Hf (a & Ha & Hn1 & Hn2). destruct (decide (aid = bid)) as [->|Hne].
  - exists (f a). split.
    + apply find_update_first; [done|]. unfold approval_is. rewrite Hid. by apply find_some in Ha as [_ Ha].
    + destruct (Hf a Ha) as [?|[?|?]]; [done|congruence|congruence].
  - exists a. split; [|done]. rewrite find_update_other; [done|]. unfold approval_is.
    intros x Hx. rewrite Hid. bool_prop. subst. split; apply String.eqb_neq; congruence.
Qed.

Definition keep_settled {A} (aid : string) (m : M Controller RpcError A) : Prop :=
  forall c w r c' w', settled aid c -> m c w = (r, c', w') -> settled aid c'.

Lemma keep_bind {A C} aid (m : M Controller RpcError A) (k : A -> M Controller RpcError C) :
  keep_settled aid m -> (forall a, keep_settled aid (k a)) -> keep_settled aid (bind m k).
Proof.
  intros Hm Hk c w r c' w' Hs H. apply bind_cases in H as (r1 & c1 & w1 & H1 & H).
  specialize (Hm _ _ _ _ _ Hs H1). destruct r1 as [a|e]; [exact (Hk a _ _ _ _ _ Hm H)|by destruct H as (_ & -> & _)].
Qed.

(** What leaves the approvals alone keeps them settled. *)
Definition approvals_of (c : Controller) : list Approval * list Approval :=
  (st_approvals (ctl_state c), st_approvals (ctl_durable c)).
Lemma keep_frame {A} aid (m : M Controller RpcError A) : frame approvals_of m -> keep_settled aid m.
Proof.
  intros Hf c w r c' w' Hs H. apply Hf in H. unfold approvals_of in H. injection H as H1 H2.
  unfold settled. by rewrite H1, H2.
Qed.

Lemma keep_persist aid : keep_settled aid persist.
Proof.
  intros c w r c' w' [H1 H2] H. pose proof (persist_state _ _ _ _ _ _ _ _ _ H) as Hs. unfold settled. rewrite Hs.
  split; [done|]. destruct r as [u|e].
  - apply persist_durable in H as (ts & -> & _). done.
  - by rewrite (persist_durable_err _ _ _ _ _ _ _ _ _ H).
Qed.

(** A change of the state that keeps the approvals. *)
Lemma keep_on_state aid f : (forall s, st_approvals (f s) = st_approvals s) -> keep_settled aid (on_state f).
Proof. intros Hf. apply keep_frame, frame_modify. intros c. unfold approvals_of. cbn. by rewrite Hf. Qed.

Ltac keep_using tac :=
  repeat first
    [ tac | apply keep_persist | apply keep_on_state; reflexivity
    | apply keep_frame; solve [unfold on_leases, task_op, may_panic, with_payload; frame]
    | apply keep_bind; [|intros ?] | progress case_match ].
Ltac keep := keep_using fail.

Lemma keep_update aid bid f :
  (forall a, approval_id (f a) = approval_id a) ->
  forall c w r c' w',
    (forall a, find (approval_is bid) (st_approvals (ctl_state c)) = Some a ->
       approval_state (f a) <> APending /\ approval_state (f a) <> AApproved
       \/ approval_state a = APending \/ approval_state a = AApproved) ->
    settled aid c -> on_state (set_approvals (update_first (approval_is bid) f)) c w = (r, c', w') -> settled aid c'.
Proof.
  intros Hid c w r c' w' Hf [H1 H2] H. unfold on_state, modify in H. simplify_eq. split; [|done]. cbn.
  by apply spent_update.
Qed.

(** The rest of a handler after such a change: commit and return. *)
Lemma keep_commit {A} aid (m : M Controller RpcError unit) (a : A) c w r c' w' :
  (forall r c' w', m c w = (r, c', w') -> settled aid c') ->
  bind m (fun _ => bind persist (fun _ => ret a)) c w = (r, c', w') -> settled aid c'.
Proof.
  intros Hm H. apply bind_cases in H as (r1 & c1 & w1 & H1 & H). specialize (Hm _ _ _ H1).
  destruct r1 as [u|e]; [|by destruct H as (_ & -> & _)].
  eapply (keep_bind aid persist (fun _ => ret a)); [apply keep_persist| |exact Hm|exact H]. intros ?. keep.
Qed.

#[local] Abbreviation run_record := (run_record to_vec sha256_hex torn store).

Lemma keep_approve aid params : keep_settled aid (approval_approve to_vec sha256_hex torn store params).
Proof.
  intros c w r c' w' Hs H. unfold approval_approve in H.
  unfold bind at 1, lift in H. destruct (required_str params "approvalId") as [bid|e]; [|by simplify_eq].
  unfold bind at 1, get in H.
  destruct (find (approval_is bid) _) as [a|] eqn:Ha; [|unfold fail in H; by simplify_eq].
  destruct (approval_state a) eqn:Hst; try (unfold fail in H; by simplify_eq).
  unfold bind at 1, now_ms in H. eapply keep_commit; [|exact H]. intros r1 c1 w1 H1. eapply keep_update; [| |exact Hs|exact H1]; [done|].
  intros a'. rewrite Ha. intros [= <-]. by right; left.
Qed.

Lemma keep_revoke aid params : keep_settled aid (approval_revoke to_vec sha256_hex torn store params).
Proof.
  intros c w r c' w' Hs H. unfold approval_revoke in H.
  unfold bind at 1, lift in H. destruct (required_str params "approvalId") as [bid|e]; [|by simplify_eq].
  unfold bind at 1, get in H.
  destruct (find (approval_is bid) _) as [a|] eqn:Ha; [|unfold fail in H; by simplify_eq].
  eapply keep_commit; [|exact H]. intros r1 c1 w1 H1. eapply keep_update; [| |exact Hs|exact H1]; [done|]. intros ? _. by left.
Qed.

Lemma keep_request aid params : keep_settled aid (approval_request to_vec sha256_hex torn store params).
Proof.
  unfold approval_request. keep. intros c w r c' w' [(x & Hx & Hn) H2] Hrun.
  unfold on_state, modify in Hrun. injection Hrun as <- <- <-. split; [|done]. exists x. split; [|done]. cbn. by apply find_app_l.
Qed.

Lemma keep_record aid op : keep_settled aid (run_record op).
Proof.
  destruct op; cbn [ControllerRecords.run_record];
    try (apply keep_bind; [|intros ?; apply keep_frame, frame_ret]);
    try apply keep_approve; try apply keep_revoke; try apply keep_request.
  all: unfold lease_acquire, lease_renew, driver_handoff, driver_take, lease_release, transaction_begin,
    transaction_record, handoff_create, handoff_progress, generation_put, artifact_put, agent_put, agent_transition,
    executor_put, executor_unregister, executor_remove, controller_unregister; keep.
Qed.

Lemma keep_consume aid params input owner : keep_settled aid (consume_approval params input owner).
Proof.
  intros c w r c' w' Hs H. unfold CapabilityInvoke.consume_approval in H.
  unfold bind at 1, lift in H. destruct (command_digest input) as [digest|e]; [|by simplify_eq].
  unfold bind at 1, lift in H. destruct (required_str params "approvalId") as [bid|e]; [|by simplify_eq].
  unfold bind at 1, get in H. destruct (find (approval_is bid) _) as [a|] eqn:Ha; [|unfold fail in H; by simplify_eq].
  apply bind_cases in H as (r1 & c1 & w1 & H1 & H).
  assert (c1 = c) as -> by (unfold approval_authorizes in H1; munfold; by repeat case_match; simplify_eq).
  destruct r1 as [[]|e]; [|unfold fail in H; by simplify_eq|by destruct H as (_ & -> & _)].
  unfold bind at 1, now_ms in H. apply bind_cases in H as (r2 & c2 & w2 & H2 & H).
  assert (settled aid c2) as Hs2.
  { eapply keep_update; [| |exact Hs|exact H2]; [done|]. intros a' _. by left. }
  destruct r2 as [u|e]; [|by destruct H as (_ & -> & _)]. revert Hs2 H.
  match goal with |- _ -> ?m c2 w2 = _ -> _ => assert (keep_settled aid m) as Hk by keep end.
  apply Hk.
Qed.

Lemma keep_prepare aid params trace : keep_settled aid (invoke_prepare params trace).
Proof.
  unfold CapabilityInvoke.invoke_prepare, CapabilityInvoke.admit_task. keep_using ltac:(apply keep_consume).
Qed.

Lemma frame_wait {B} (f : Controller -> B) polls fuel n process_id deadline result :
  frame f (wait_loop polls fuel n process_id deadline result).
Proof. revert n result. induction fuel as [|fuel IH]; intros n result; cbn [wait_loop]; frame. apply IH. Qed.

Lemma keep_fail_task {A} aid task failure error :
  keep_settled aid (fail_task to_vec sha256_hex torn store (A := A) task failure error).
Proof. unfold fail_task. keep. Qed.

Lemma keep_finish aid polls fuel capability session executor_id task contract input response :
  keep_settled aid (invoke_finish polls fuel capability session executor_id task contract input response).
Proof.
  unfold CapabilityInvoke.invoke_finish, record_result, wait_for_process_readiness. 
  keep_using ltac:(first [apply keep_fail_task | apply keep_frame; apply frame_attempt; frame; apply frame_wait]).
Qed.

Lemma compact_approvals s : st_approvals (compact_persisted_evidence s).1 = st_approvals s.
Proof. unfold compact_persisted_evidence. by repeat case_match. Qed.

#[local] Abbreviation open_with_id := (open_with_id to_vec from_slice sha256_hex torn store).

Lemma open_settled aid x b w c' b' w' :
  open_with_id x b w = (Ok c', b', w') -> peek (w_io w) = true -> spent aid (st_approvals (b_durable b)) -> settled aid c'.
Proof.
  intros H Hseen Hsp. unfold Controller.open_with_id in H.
  mstep H state b1 w1 H1. apply load_seen in H1 as [-> ->]; [|done]. mstep H u2 b1 w2 H1.
  assert (b1 = b) as -> by (unfold ret, fail in H1; by repeat case_match; simplify_eq). clear H1.
  mstep H name b1 w3 H1.
  assert (b1 = b) as -> by (unfold bind, new_v4, ret in H1; by repeat case_match; simplify_eq). clear H1.
  mstep H migrated b1 w4 H1.
  assert (b_durable b1 = b_durable b) as Hb by (unfold with_err, zoom in H1; by repeat case_match; simplify_eq).
  clear H1. destruct (compact_persisted_evidence _) as [st compacted] eqn:Hst in H.
  assert (st_approvals st = st_approvals (b_durable b)) as Hf.
  { apply (f_equal fst) in Hst. cbn in Hst. subst st. by rewrite compact_approvals. }
  clear Hst. mstep H ls b2 w5 H1.
  assert (b2 = b1) as -> by (unfold run_table in H1; by repeat case_match; simplify_eq). clear H1.
  mstep H ts b2 w6 H1. assert (b2 = b1) as -> by (unfold run_table in H1; by repeat case_match; simplify_eq).
  clear H1. mstep H u3 b2 w7 H1. unfold bind, get, ret in H. simplify_eq. unfold settled.
  cbn [ctl_state ctl_durable]. destruct (_ || _)%bool in *.
  - unfold state_io in H1. mrun. by rewrite Hf.
  - unfold ret in H1. simplify_eq. rewrite Hb. cbn. by rewrite Hf.
Qed.

(** The approvals that a request has used for a dispatch. *)
Definition used (params : Value) (r : result RpcError Invocation) : list string :=
  match r, required_str params "approvalId" with
  | Ok (Dispatch _ _ contract _), Ok aid =>
      if needs_approval (cap_name contract) (default (VObject []) (vget "input" params)) then [aid] else []
  | _, _ => []
  end.

(** Requests, invocations and restarts of one controller, with the approvals used so far. A restart
    looks at the state file; one that cannot takes it for absent and has no approvals at all. *)
Inductive use_step : Controller * list string -> Controller * list string -> Prop :=
| us_record op c log w r c' w' : run_record op c w = (r, c', w') -> use_step (c, log) (c', log)
| us_prepare params trace c log w r c' w' :
    invoke_prepare params trace c w = (r, c', w') -> use_step (c, log) (c', used params r ++ log)
| us_finish polls fuel capability session executor_id task contract input response c log w r c' w' :
    invoke_finish polls fuel capability session executor_id task contract input response c w = (r, c', w') ->
    use_step (c, log) (c', log)
| us_restart x c log w c' b' w' :
    peek (w_io w) = true ->
    open_with_id x (mkBoot (ctl_durable c) (ctl_payloads c)) w = (Ok c', b', w') -> use_step (c, log) (c', log).

Definition use_inv (s : Controller * list string) : Prop := NoDup s.2 /\ forall aid, aid ∈ s.2 -> settled aid s.1.

Lemma used_settled params trace c w r c' w' aid :
  invoke_prepare params trace c w = (r, c', w') -> aid ∈ used params r -> settled aid c' /\ ~ settled aid c.
Proof.
  intros H Hin. unfold used in Hin. destruct r as [[t|t ex k i]|e]; try by apply not_elem_of_nil in Hin.
  apply dispatch_is_checked_core in H as (session & owner & _ & Hsp & _).
  destruct (required_str params "approvalId") as [bid|] eqn:Hb; [|by apply not_elem_of_nil in Hin].
  destruct (needs_approval _ _); [|by apply not_elem_of_nil in Hin]. apply list_elem_of_singleton in Hin as ->.
  destruct (Hsp eq_refl) as (b2 & digest & a & Hb2 & _ & Ha & _ & _ & Hst & _ & (a' & Ha' & Hst') & Hdur).
  assert (b2 = bid) as -> by congruence. split.
  - unfold settled. rewrite Hdur. split; exists a'; (split; [done|]); by rewrite Hst'.
  - intros [(x & Hx & _ & Hn) _]. rewrite Ha in Hx. injection Hx as <-. done.
Qed.

Lemma use_step_inv s s' : use_step s s' -> use_inv s -> use_inv s'.
Proof.
  intros [op c log w r c' w' H|params trace c log w r c' w' H|polls fuel capability session executor_id task contract
    input response c log w r c' w' H|x c log w c' b' w' Hseen H] [Hnd Hset]; unfold use_inv; cbn in *.
  - split; [done|]. intros aid Hin. eapply keep_record; [by apply Hset|exact H].
  - split.
    + apply NoDup_app. split_and!; [|intros aid Hin Hlog|done].
      * unfold used. repeat case_match; first [apply NoDup_nil_2 | apply NoDup_singleton].
      * destruct (used_settled _ _ _ _ _ _ _ _ H Hin) as [_ Hn]. by apply Hn, Hset.
    + intros aid [Hin|Hin]%elem_of_app; [exact (proj1 (used_settled _ _ _ _ _ _ _ _ H Hin))|]. eapply keep_prepare; [by apply Hset|exact H].
  - split; [done|]. intros aid Hin. eapply keep_finish; [by apply Hset|exact H].
  - split; [done|]. intros aid Hin. destruct (Hset aid Hin) as [_ Hd]. by eapply open_settled.
Qed.

(** C9: a capability is dispatched only when the controller has the authority over the session, the
    executor provides the capability, the input conforms to the contract, the caller drives the session
    under a lease that has not expired at the reading of the clock that the request makes for it, unless
    the capability only reads, and a command that needs an approval has used one up for good that had not
    expired at the reading that follows; the task is then running. *)
Theorem dispatch_is_checked params trace c w task executor contract input' c' w' :
  invoke_prepare params trace c w = (Ok (Dispatch task executor contract input'), c', w') ->
  let input := default (VObject []) (vget "input" params) in
  exists session owner,
    authorized params c (wall w) session owner input executor contract /\
    (needs_approval (cap_name contract) input = true ->
     approval_spent params input owner (wall (driver_checked contract w)) c c') /\
    (exists id, get_task (ctl_tasks c') id = Some task) /\ task_state task = Running.
Proof. apply dispatch_is_checked_core. Qed.

(** C8: an approval authorizes at most one dispatch, however requests, invocations and restarts (that
    can look at the state file) follow one another. *)
Theorem approvals_authorize_once c0 c log : rtc use_step (c0, []) (c, log) -> NoDup log.
Proof.
  intros Hr. assert (use_inv (c, log)) as [? _]; [|done].
  assert (use_inv (c0, [])) as H0.
  { split; [apply NoDup_nil_2|]. intros aid Hin. by apply not_elem_of_nil in Hin. }
  revert H0. generalize (c, log), (c0, @nil string), Hr. clear. intros s' s Hr.
  induction Hr as [|s s1 s2 H _ IH]; [done|]. intros H0. by eapply IH, use_step_inv.
Qed.

End Safety.
