(* ===== verification/SessionFabric.v ===== *)
(** * Session authority across the controllers of a fabric

    A fabric of controllers that run the handlers of [ControllerSessions], the
    bundles that they have sent and the handoffs that wait for an answer. Every
    step of it is a sequence of steps of the protocol of [Authority], so that at
    most one controller acts on a session by itself. *)
From stdpp Require Import base gmap strings list relations.
From S2P Require Import Prelude Json Schema Protocol Leases Tasks Store Payloads Evidence Controller Authority ControllerSessions.
Open Scope Z_scope.

(** ** What the handlers do to one session *)

Lemma find_upsert id (l : list WorkspaceSession) v :
  find (session_is id) (upsert_by l v (session_is (meta_id (session_metadata v)))) =
  if session_is id v then Some v else find (session_is id) l.
Proof.
  induction l as [|x l IH]; cbn [upsert_by find]; [done|].
  destruct (session_is (meta_id (session_metadata v)) x) eqn:Hx; cbn [find]; [|rewrite IH; clear IH].
  - unfold session_is in *. bool_prop. rewrite Hx. by destruct (String.eqb _ id).
  - unfold session_is in *. bool_prop.
    destruct (String.eqb_spec (meta_id (session_metadata x)) id), (String.eqb_spec (meta_id (session_metadata v)) id);
      congruence.
Qed.

Lemma find_is id l (s : WorkspaceSession) : find (session_is id) l = Some s -> meta_id (session_metadata s) = id.
Proof. intros [_ H]%find_some. unfold session_is in H. by bool_prop. Qed.

Section Effects.
Context (to_vec : Value -> option string) (from_slice : string -> option Value).
Context (sha256_hex : string -> string) (torn : string -> string) (store : JsonStore).
Context (sid : string).
#[local] Abbreviation persist := (persist to_vec sha256_hex torn store).
#[local] Abbreviation session_put := (session_put to_vec sha256_hex torn store).
#[local] Abbreviation session_transition := (session_transition to_vec sha256_hex torn store).
#[local] Abbreviation accept_handoff := (accept_handoff to_vec sha256_hex torn store).
#[local] Abbreviation handoff_prepare := (handoff_prepare to_vec sha256_hex torn store).
#[local] Abbreviation handoff_complete := (handoff_complete to_vec sha256_hex torn store).
#[local] Abbreviation open_with_id := (open_with_id to_vec from_slice sha256_hex torn store).

Definition held (c : Controller) : option WorkspaceSession := find_session sid (ctl_state c).
Definition saved (c : Controller) : option WorkspaceSession := find_session sid (ctl_durable c).

(** [c'] holds the session [s]; its state file holds what it held, or [s] as well. *)
Record becomes (c : Controller) (s : option WorkspaceSession) (c' : Controller) : Prop := mk_becomes {
  bc_id : ctl_id c' = ctl_id c;
  bc_held : held c' = s;
  bc_saved : saved c' = saved c \/ saved c' = s;
}.

Lemma becomes_refl c : becomes c (held c) c.
Proof. split; auto. Qed.

Lemma becomes_trans c s c1 s' c2 : becomes c s c1 -> saved c1 = saved c -> becomes c1 s' c2 -> becomes c s' c2.
Proof. intros [] Hs []. split; [congruence..|]. rewrite <- Hs. done. Qed.

(** Computations that touch neither the sessions nor the state file. *)
Definition sessions_same (c c' : Controller) : Prop :=
  ctl_id c' = ctl_id c /\ st_sessions (ctl_state c') = st_sessions (ctl_state c) /\ ctl_durable c' = ctl_durable c.

Lemma sessions_same_becomes c c' : sessions_same c c' -> becomes c (held c) c' /\ saved c' = saved c.
Proof.
  intros (Hi & Hs & Hd). unfold saved, held, find_session. rewrite Hd. split; [|done].
  split; [done| |unfold saved; rewrite Hd; by left]. unfold held, find_session. by rewrite Hs.
Qed.

Lemma apply_updates_same l c w : exists c' w', for_each l apply_update c w = (Ok tt, c', w') /\ sessions_same c c'.
Proof.
  revert c w. induction l as [|u l IH]; intros c w; cbn [for_each]; [by eexists _, _|].
  assert (exists c1 w1, apply_update u c w = (Ok tt, c1, w1) /\ sessions_same c c1) as (c1 & w1 & E1 & S1).
  { unfold apply_update, on_tasks, bind, ret. repeat case_match; simplify_eq; eexists _, _; (split; [done|done]). }
  unfold bind. rewrite E1. destruct (IH c1 w1) as (c2 & w2 & E2 & S2). rewrite E2. eexists _, _. split; [done|].
  destruct S1 as (?&?&?), S2 as (?&?&?). split_and!; congruence.
Qed.

Lemma persist_becomes c w r c' w' :
  persist c w = (r, c', w') -> becomes c (held c) c' /\ (forall u, r = Ok u -> saved c' = held c').
Proof.
  intros H. unfold Controller.persist in H. apply bind_cases in H as (r1 & c1 & w1 & H1 & H).
  unfold get in H1. simplify_eq. apply bind_cases in H as (r2 & c2 & w2 & H2 & H).
  assert (sessions_same c1 c2) as S2.
  { unfold zoom in H2. repeat case_match; simplify_eq. all: done. }
  destruct (sessions_same_becomes _ _ S2) as [B2 D2].
  destruct r2 as [done|e]; [|destruct H as (-> & -> & ->); by split].
  apply bind_cases in H as (r3 & c3 & w3 & H3 & H). unfold save_state in H3. munfold.
  destruct (peek (w_io w2)); simplify_eq; [|destruct H as (-> & -> & ->); by split].
  destruct (apply_updates_same done.2 (set_durable (set_tables (Leases.snapshot (ctl_leases c1))
    (fence_snapshot (ctl_leases c1)) done.1 (ctl_state c1)) c2) (set_io (advance (w_io w2)) w2)) as (c4 & w4 & E4 & S4).
  rewrite E4 in H. simplify_eq. destruct S4 as (Hi & Hs & Hd), S2 as (Hi2 & Hs2 & _).
  assert (held c' = held c1) as Hh by (unfold held, find_session; cbn in Hs; by rewrite Hs, Hs2).
  assert (saved c' = held c1) as Hv by (unfold saved, held, find_session; by rewrite Hd).
  split; [|congruence]. split; [cbn in *; congruence|done|by right].
Qed.

Definition update (v : WorkspaceSession) (c : Controller) : option WorkspaceSession :=
  if session_is sid v then Some v else held c.

Lemma put_session_becomes v c w :
  exists c1, put_session v c w = (Ok tt, c1, w) /\ becomes c (update v c) c1 /\ saved c1 = saved c.
Proof.
  eexists. split; [done|]. split; [|done]. split; [done| |by left].
  unfold held, find_session. cbn. by rewrite find_upsert.
Qed.

(** [put_session] followed by a commit. *)
Lemma put_commit_becomes {A} v (a : A) c w r c' w' :
  bind (put_session v) (fun _ => bind persist (fun _ => ret a)) c w = (r, c', w') ->
  becomes c (update v c) c' /\ (forall a', r = Ok a' -> a' = a /\ saved c' = held c').
Proof.
  intros H. destruct (put_session_becomes v c w) as (c1 & E1 & B1 & S1).
  unfold bind at 1 in H. rewrite E1 in H. apply bind_cases in H as (r2 & c2 & w2 & H2 & H).
  apply persist_becomes in H2 as [B2 C2]. rewrite (bc_held _ _ _ B1) in B2.
  pose proof (becomes_trans _ _ _ _ _ B1 S1 B2) as B.
  destruct r2 as [u|e]; [|destruct H as (-> & -> & ->); by split].
  unfold ret in H. simplify_eq. split; [done|]. intros a' [= <-]. split; [done|]. by eapply C2.
Qed.

Definition owned (o : option WorkspaceSession) : Prop := forall s, o = Some s -> session_authority s <> None.
Definition authority (o : option WorkspaceSession) : option SessionAuthority := o ≫= session_authority.

(** The authority over the session stays as it is; it may be committed. *)
Definition quiet (c c' : Controller) : Prop :=
  exists s, becomes c s c' /\ authority s = authority (held c) /\ (owned (held c) -> owned s).

Lemma quiet_becomes c c' : becomes c (held c) c' -> quiet c c'.
Proof. by exists (held c). Qed.
Lemma quiet_refl c : quiet c c.
Proof. apply quiet_becomes, becomes_refl. Qed.
Hint Resolve quiet_refl quiet_becomes : core.

(** The handler returned before it changed anything. *)
Ltac refused := munfold; cbn [negb] in *; simplify_eq; cbn; solve [auto].

Lemma quiet_update v c c' :
  becomes c (update v c) c' ->
  (session_is sid v = true -> session_authority v = authority (held c) /\ session_authority v <> None) ->
  quiet c c'.
Proof.
  intros B Hv. unfold update in B. destruct (session_is sid v); [|auto]. destruct (Hv eq_refl) as [Ha Hn].
  exists (Some v). split_and!; [done|done|]. intros _ v' [= <-]. done.
Qed.

Lemma session_put_quiet params c w r c' w' :
  session_put params c w = (r, c', w') ->
  (forall s, params = Ok s -> session_is sid s = true -> session_authority s <> None) ->
  quiet c c'.
Proof.
  intros H Hp. unfold ControllerSessions.session_put in H. destruct params as [v|e]; [|munfold; by simplify_eq].
  unfold bind at 1, lift, map_err, bind at 1, get in H. specialize (Hp v eq_refl).
  apply bind_cases in H as (r1 & c1 & w1 & H1 & H).
  destruct (session_authority v) as [a|] eqn:Ha.
  - unfold ret, fail in H1. repeat case_match; simplify_eq; try (destruct H as (-> & -> & ->); done). bool_prop.
    apply put_commit_becomes in H as [B _]. eapply quiet_update; [done|]. intros Hs. rewrite Ha. split; [|done].
    unfold session_is in Hs. bool_prop. by rewrite Hs in *.
  - unfold ret in H1. simplify_eq. apply put_commit_becomes in H as [B _].
    eapply quiet_update; [done|]. intros Hs. destruct (Hp Hs). done.
Qed.

Lemma session_transition_quiet params st c w r c' w' :
  session_transition params st c w = (r, c', w') -> owned (held c) -> quiet c c'.
Proof.
  intros H Ho. unfold ControllerSessions.session_transition in H.
  apply bind_cases in H as ([id|e] & c1 & w1 & H1 & H); unfold lift in H1; simplify_eq;
    [|destruct H as (-> & -> & ->); auto].
  apply bind_cases in H as ([new|e] & c2 & w2 & H2 & H); unfold lift in H2; simplify_eq; [|destruct H as (-> & -> & ->); auto].
  unfold bind at 1, get in H. destruct (find_session id (ctl_state c2)) as [v|] eqn:Hf; [|munfold; by simplify_eq].
  unfold bind at 1, now_ms in H. apply put_commit_becomes in H as [B _].
  eapply quiet_update; [done|]. intros Hs. unfold session_is in Hs. cbn in Hs. bool_prop.
  assert (id = sid) as -> by (by apply find_is in Hf; rewrite <- Hf).
  unfold held in *. rewrite Hf in *. cbn. split; [done|]. by apply Ho.
Qed.

Definition accepted (params : AcceptParams) (c c' : Controller) : Prop :=
  exists v a, ap_session params = Ok v /\ session_is sid v = true /\ session_authority v = Some a /\
    auth_controller_id a = ctl_id c /\ (forall b, authority (held c) = Some b -> auth_epoch b < auth_epoch a) /\
    becomes c (Some v) c'.

Lemma accept_records_same params c w r c' w' : accept_records params c w = (r, c', w') -> sessions_same c c'.
Proof.
  intros H. unfold accept_records in H. munfold. repeat (case_match; simplify_eq; try done).
Qed.

(** Before anything is recorded, a handoff is refused, found done already, or newer than what is known. *)
Lemma accept_check_new v a c :
  accept_check v a c = Ok None -> session_is sid v = true ->
  forall b, authority (held c) = Some b -> auth_epoch b < auth_epoch a.
Proof.
  unfold accept_check, session_is, held, authority. intros H Hs b Hb. bool_prop. rewrite Hs in H.
  destruct (find_session sid (ctl_state c)) as [x|]; [|done]. cbn in Hb. rewrite Hb in H.
  repeat case_match; simplify_eq. by bool_prop.
Qed.

Lemma accept_handoff_effect params c w r c' w' :
  accept_handoff params c w = (r, c', w') -> quiet c c' \/ accepted params c c'.
Proof.
  intros H. unfold ControllerSessions.accept_handoff in H.
  apply bind_cases in H as ([v|e] & c1 & w1 & H1 & H); unfold lift in H1; simplify_eq;
    [|destruct H as (-> & -> & ->); auto].
  destruct (session_authority v) as [a|] eqn:Ha; [|refused].
  unfold bind at 1, get in H. destruct (String.eqb_spec (auth_controller_id a) (ctl_id c1)) as [Hid|];
    [|unfold fail in H; cbn in H; simplify_eq; auto]. cbn [negb] in H.
  unfold bind at 1, lift in H. destruct (accept_check v a c1) as [[x|]|e] eqn:Hc;
    [unfold ret in H; simplify_eq; auto| |simplify_eq; auto].
  destruct (put_session_becomes v c1 w1) as (c2 & E2 & B2 & S2). unfold bind at 1 in H. rewrite E2 in H.
  apply bind_cases in H as (r3 & c3 & w3 & H3 & H). apply accept_records_same, sessions_same_becomes in H3 as [B3 S3].
  rewrite (bc_held _ _ _ B2) in B3. pose proof (becomes_trans _ _ _ _ _ B2 S2 B3) as B.
  assert (becomes c1 (update v c1) c') as B'.
  { destruct r3 as [u|e]; [|by destruct H as (-> & -> & ->)].
    apply bind_cases in H as (r4 & c4 & w4 & H4 & H). apply persist_becomes in H4 as [B4 _].
    rewrite (bc_held _ _ _ B) in B4. pose proof (becomes_trans _ _ _ _ _ B (eq_trans S3 S2) B4).
    destruct r4; [by munfold; simplify_eq|by destruct H as (-> & -> & ->)]. }
  unfold update in B'. destruct (session_is sid v) eqn:Hs; [|auto]. right. exists v, a.
  split_and!; [done..|by eapply accept_check_new|done].
Qed.

(** The handoff of the session from [c] is marked in memory. *)
Definition marked (c : Controller) (target : string) (e : Z) (c' : Controller) : Prop :=
  exists v, becomes c (Some v) c' /\ authority (held c) = Some (mkSessionAuthority (ctl_id c) e None) /\
    session_authority v = Some (mkSessionAuthority (ctl_id c) e (Some target)).

(** What [handoff_prepare] has done when it succeeds: the mark is in the state file. *)
Definition prepared (c : Controller) (target : string) (v : WorkspaceSession) (c' : Controller) : Prop :=
  exists e, session_authority v = Some (mkSessionAuthority target (u64_saturating_add e 1) None) /\
    (marked c target e c' /\ saved c' = held c'
     \/ c' = c /\ authority (held c) = Some (mkSessionAuthority (ctl_id c) e (Some target))).

Lemma handoff_prepare_effect id target c w r c' w' :
  handoff_prepare id target c w = (r, c', w') ->
  match r with
  | Ok (_, v) => meta_id (session_metadata v) = id /\ (if decide (id = sid) then prepared c target v c' else quiet c c')
  | Err _ => quiet c c' \/ exists e, marked c target e c'
  end.
Proof.
  intros H. unfold ControllerSessions.handoff_prepare in H. unfold bind at 1, get in H.
  destruct (find (peer_is target) _) as [peer|]; [|refused].
  destruct (existsb _ _); [refused|].
  destruct (find_session id (ctl_state c)) as [v|] eqn:Hv; [|refused].
  pose proof (find_is _ _ _ Hv) as Hid.
  destruct (session_authority v) as [[own e pend]|] eqn:Ha; [|refused]. cbn in H.
  destruct (String.eqb_spec own (ctl_id c)) as [->|]; [|refused]. cbn [negb] in H.
  destruct pend as [pending|].
  - destruct (String.eqb_spec pending target) as [->|]; [|refused].
    munfold. simplify_eq. split; [done|]. case_decide as Hs; [|auto]. exists e. split; [done|]. right.
    split; [done|]. unfold held. rewrite <- Hs, Hv. done.
  - apply bind_cases in H as (r1 & c1 & w1 & H1 & H).
    set (v1 := with_authority v _) in H1.
    destruct (put_session_becomes v1 c w) as (c2 & E2 & B2 & S2). unfold bind at 1 in H1. rewrite E2 in H1.
    apply persist_becomes in H1 as [B1 D1]. rewrite (bc_held _ _ _ B2) in B1.
    pose proof (becomes_trans _ _ _ _ _ B2 S2 B1) as B.
    assert (id = sid -> marked c target e c1) as Hm.
    { intros Hs. exists v1. unfold update in B. replace (session_is sid v1) with true in B;
        [|symmetry; unfold session_is; cbn; rewrite <- Hs, Hid; apply String.eqb_refl].
      split_and!; [done| |done]. unfold held. rewrite <- Hs, Hv. done. }
    assert (id <> sid -> quiet c c1) as Hq.
    { intros Hs. apply quiet_becomes. unfold update in B. replace (session_is sid v1) with false in B; [done|].
      symmetry. unfold session_is. cbn. apply String.eqb_neq. congruence. }
    destruct r1 as [u|err].
    + unfold bind, now_ms, ret in H. simplify_eq. split; [done|]. case_decide as Hs; [|auto].
      exists e. split; [done|]. left. split; [auto|]. by eapply D1.
    + destruct H as (-> & -> & ->). destruct (decide (id = sid)); [right; exists e; auto|left; auto].
Qed.

Lemma handoff_complete_effect v response c w r c' w' :
  handoff_complete v response c w = (r, c', w') -> quiet c c' \/ becomes c (update v c) c'.
Proof.
  intros H. unfold ControllerSessions.handoff_complete in H.
  destruct response as [resp|e]; [destruct (resp_ok resp)|]; [|refused..].
  apply put_commit_becomes in H as [B _]. auto.
Qed.

(** Opening the state again finds the session that the state file holds. *)
Lemma find_own x l : find (session_is sid) (map (own_session x) l) = own_session x <$> find (session_is sid) l.
Proof.
  induction l as [|s l IH]; cbn; [done|].
  assert (session_is sid (own_session x s) = session_is sid s) as -> by (unfold own_session; by case_match).
  destruct (session_is sid s); [done|apply IH].
Qed.

Lemma compact_sessions s : st_sessions (compact_persisted_evidence s).1 = st_sessions s.
Proof. unfold compact_persisted_evidence. by repeat case_match. Qed.

Lemma open_effect x b w c' b' w' :
  open_with_id (Some x) b w = (Ok c', b', w') -> peek (w_io w) = true -> owned (find_session sid (b_durable b)) ->
  ctl_id c' = x /\ held c' = find_session sid (b_durable b) /\ saved c' = find_session sid (b_durable b).
Proof.
  intros H Hseen Ho. unfold Controller.open_with_id in H.
  assert (own_session x <$> find_session sid (b_durable b) = find_session sid (b_durable b)) as Hown.
  { destruct (find_session sid (b_durable b)) as [s|]; [|done]. cbn. specialize (Ho s eq_refl).
    unfold own_session. by destruct (session_authority s). }
  mstep H state b1 w1 H1. apply load_seen in H1 as [-> ->]; [|done]. mstep H u2 b1 w2 H1.
  assert (b1 = b) as -> by (unfold ret, fail in H1; by repeat case_match; simplify_eq). clear H1.
  unfold bind at 1, ret at 1 in H. mstep H migrated b1 w3 H1.
  assert (b_durable b1 = b_durable b) as Hb by (unfold with_err, zoom in H1; by repeat case_match; simplify_eq).
  clear H1. destruct (compact_persisted_evidence _) as [st compacted] eqn:Hst in H.
  assert (find_session sid st = find_session sid (b_durable b)) as Hf.
  { apply (f_equal fst) in Hst. cbn in Hst. subst st. unfold find_session. rewrite compact_sessions. cbn.
    rewrite find_own. exact Hown. }
  clear Hst. mstep H ls b2 w4 H1.
  assert (b2 = b1) as -> by (unfold run_table in H1; by repeat case_match; simplify_eq). clear H1.
  mstep H ts b2 w5 H1. assert (b2 = b1) as -> by (unfold run_table in H1; by repeat case_match; simplify_eq).
  clear H1. mstep H u3 b2 w6 H1. unfold bind, get, ret in H. simplify_eq. unfold held, saved.
  cbn [ctl_id ctl_state ctl_durable].
  destruct (_ || _)%bool in *.
  - unfold state_io in H1. mrun. by split_and!.
  - unfold ret in H1. simplify_eq. rewrite Hb. by split_and!.
Qed.

(** ** A fabric of controllers *)

Record System := mkSystem {
  ctrls : gmap string Controller;
  sent : list Bundle;
  (** handoffs that wait for the answer of their target, at their controllers *)
  waiting : list (string * Bundle);
}.

Definition bundle_id (b : Bundle) : string := meta_id (session_metadata (bd_session b)).
Definition set_ctl (x : string) (c : Controller) (s : System) : System :=
  mkSystem (<[x := c]> (ctrls s)) (sent s) (waiting s).
(** The gate of session [id] is free at controller [x]. *)
Definition gate_free (x id : string) (s : System) : Prop :=
  forall b, (x, b) ∈ waiting s -> bundle_id b <> id.
Definition boot_of (c : Controller) : Boot := mkBoot (ctl_durable c) (ctl_payloads c).

(** What a step does that the protocol of authority does not provide for: a [session.put] of the session that
    names no authority; a handoff of a controller to itself; an epoch that cannot be increased; a controller that
    goes on after it failed to commit the mark of a handoff; one that starts without seeing its state file. *)
Inductive Departure := PutWithoutAuthority | SelfHandoff | EpochExhausted | UncommittedMark | UnseenState.

Definition put_departure (params : result string WorkspaceSession) : option Departure :=
  match params with
  | Ok v => if session_is sid v && bool_decide (session_authority v = None) then Some PutWithoutAuthority else None
  | Err _ => None
  end.
Definition handoff_departure (x target id : string) (c : Controller) : option Departure :=
  if String.eqb target x then Some SelfHandoff
  else match authority_of id (ctl_state c) with
       | Some a => if auth_epoch a <? U64_MAX then None else Some EpochExhausted
       | None => None
       end.
Definition restart_departure (w : World) : option Departure := if peek (w_io w) then None else Some UnseenState.

(** One step of a controller, with its departure from the protocol, if any. Every request on sessions, commit and
    restart is a step; a handoff waits for the answer of its target under the gate of the session. *)
Inductive fabric_step (s : System) : option Departure -> System -> Prop :=
| fs_put x c params w r c' w' :
    ctrls s !! x = Some c -> session_put params c w = (r, c', w') ->
    fabric_step s (put_departure params) (set_ctl x c' s)
| fs_transition x c params st w r c' w' :
    ctrls s !! x = Some c -> session_transition params st c w = (r, c', w') ->
    fabric_step s None (set_ctl x c' s)
| fs_commit x c w r c' w' :
    ctrls s !! x = Some c -> persist c w = (r, c', w') ->
    fabric_step s None (set_ctl x c' s)
| fs_handoff x c id target w peer v c' w' :
    ctrls s !! x = Some c -> gate_free x id s ->
    handoff_prepare id target c w = (Ok (peer, v), c', w') ->
    let b := session_bundle v c' in
    fabric_step s (handoff_departure x target id c) (mkSystem (<[x := c']> (ctrls s)) (b :: sent s) ((x, b) :: waiting s))
| fs_refused x c id target w e c' w' :
    ctrls s !! x = Some c -> handoff_prepare id target c w = (Err e, c', w') -> ctl_state c' = ctl_state c ->
    fabric_step s None (set_ctl x c' s)
| fs_uncommitted x c id target w e c' w' :
    ctrls s !! x = Some c -> handoff_prepare id target c w = (Err e, c', w') ->
    fabric_step s (Some UncommittedMark) (set_ctl x c' s)
| fs_unmarked x c id target w e c1 w1 w2 c' b' w' :
    ctrls s !! x = Some c -> handoff_prepare id target c w = (Err e, c1, w1) ->
    open_with_id (Some x) (boot_of c1) w2 = (Ok c', b', w') ->
    fabric_step s (if String.eqb target x then Some SelfHandoff else restart_departure w2)
      (mkSystem (<[x := c']> (ctrls s)) (sent s) (base.filter (fun p => p.1 <> x) (waiting s)))
| fs_accept y c b params w r c' w' :
    ctrls s !! y = Some c -> b ∈ sent s -> ap_session params = Ok (bd_session b) -> gate_free y (bundle_id b) s ->
    accept_handoff params c w = (r, c', w') ->
    fabric_step s None (set_ctl y c' s)
| fs_complete x c b response w r c' w' :
    ctrls s !! x = Some c -> (x, b) ∈ waiting s ->
    handoff_complete (bd_session b) response c w = (r, c', w') ->
    fabric_step s None (mkSystem (<[x := c']> (ctrls s)) (sent s)
                  (base.filter (fun p => ~ (p.1 = x /\ bundle_id p.2 = bundle_id b)) (waiting s)))
| fs_restart x c w c' b' w' :
    ctrls s !! x = Some c -> open_with_id (Some x) (boot_of c) w = (Ok c', b', w') ->
    fabric_step s (restart_departure w) (mkSystem (<[x := c']> (ctrls s)) (sent s) (base.filter (fun p => p.1 <> x) (waiting s))).

(** A step that does not depart from the protocol *)
Definition sys_step (s s' : System) : Prop := fabric_step s None s'.

Lemma put_regular params v :
  put_departure params = None -> params = Ok v -> session_is sid v = true -> session_authority v <> None.
Proof. unfold put_departure. intros H -> Hs. rewrite Hs in H. cbn in H. by case_bool_decide. Qed.
Lemma handoff_regular x target id c :
  handoff_departure x target id c = None ->
  target <> x /\ forall a, authority_of id (ctl_state c) = Some a -> auth_epoch a < U64_MAX.
Proof.
  unfold handoff_departure. destruct (String.eqb_spec target x) as [|Hne]; [done|]. intros H. split; [done|]. intros a Ha.
  rewrite Ha in H. by destruct (Z.ltb_spec (auth_epoch a) U64_MAX).
Qed.
Lemma restart_regular w : restart_departure w = None -> peek (w_io w) = true.
Proof. unfold restart_departure. by destruct (peek _). Qed.

(** ** The abstraction *)

Definition view (c : Controller) : Node := mkNode (authority (held c)) (authority (saved c)).
Definition message (b : Bundle) : option SessionAuthority :=
  if session_is sid (bd_session b) then session_authority (bd_session b) else None.
Definition fabric_of (s : System) : Fabric := mkFabric (view <$> ctrls s) (omap message (sent s)).

Record sys_inv (s : System) : Prop := mk_sys_inv {
  si_id x c : ctrls s !! x = Some c -> ctl_id c = x;
  si_owned x c : ctrls s !! x = Some c -> owned (held c) /\ owned (saved c);
  si_waiting x b : (x, b) ∈ waiting s -> session_is sid (bd_session b) = true ->
    exists c e y, ctrls s !! x = Some c /\ authority (held c) = Some (mkSessionAuthority x e (Some y)) /\
      session_authority (bd_session b) = Some (mkSessionAuthority y (e + 1) None) /\ x <> y /\ b ∈ sent s;
}.

Lemma fabric_set x c s sent' waiting' :
  omap message sent' = omap message (sent s) ->
  fabric_of (mkSystem (<[x := c]> (ctrls s)) sent' waiting') = set_node x (view c) (fabric_of s).
Proof. intros Hs. unfold fabric_of, set_node. cbn. by rewrite fmap_insert, Hs. Qed.

Lemma fabric_node s x c : ctrls s !! x = Some c -> nodes (fabric_of s) x = view c.
Proof. intros H. unfold nodes, fabric_of. cbn. by rewrite lookup_fmap, H. Qed.

Lemma fabric_same s x c n : ctrls s !! x = Some c -> n = view c -> set_node x n (fabric_of s) = fabric_of s.
Proof.
  intros H ->. unfold set_node, fabric_of. cbn. f_equal. apply insert_id. by rewrite lookup_fmap, H.
Qed.

(** A change at one controller that keeps the authority of the handoffs that wait there. *)
Lemma sys_inv_update s x c o c' sent' waiting' :
  sys_inv s -> ctrls s !! x = Some c -> becomes c o c' -> owned o ->
  (forall b, b ∈ sent s -> b ∈ sent') -> (forall p, p ∈ waiting' -> p ∈ waiting s) ->
  (forall b, (x, b) ∈ waiting' -> session_is sid (bd_session b) = true -> authority o = authority (held c)) ->
  sys_inv (mkSystem (<[x := c']> (ctrls s)) sent' waiting').
Proof.
  intros [Hi Ho Hw] Hx [Bi Bh Bs] Hown Hsent Hwait Hkeep. constructor; cbn.
  - intros z d. rewrite lookup_insert. case_decide; [|apply Hi]. intros [= <-]. subst. rewrite Bi. eauto.
  - intros z d. rewrite lookup_insert. case_decide; [|apply Ho]. intros [= <-]. subst. destruct (Ho _ _ Hx) as [H1 H2].
    destruct Bs as [-> | ->]; auto.
  - intros z b Hz Hb. destruct (Hw z b (Hwait _ Hz) Hb) as (d & e & y & Hd & Hh & Ha & Hne & Hin).
    destruct (decide (z = x)) as [->|Hzx].
    + exists c', e, y. rewrite lookup_insert, decide_True by done. simplify_eq. rewrite (Hkeep b Hz Hb).
      split_and!; auto.
    + exists d, e, y. rewrite lookup_insert_ne by done. split_and!; auto.
Qed.

(** ** The simulation *)

Lemma owned_becomes c o c' : becomes c o c' -> owned o -> owned (saved c) -> owned (held c') /\ owned (saved c').
Proof. intros [_ -> [-> | ->]]; auto. Qed.

Lemma view_becomes c o c' :
  becomes c o c' -> exists d, view c' = mkNode (authority o) d /\ (d = authority (saved c) \/ d = authority o).
Proof. intros [_ Hh Hs]. exists (authority (saved c')). unfold view. rewrite Hh. split; [done|]. destruct Hs as [-> | ->]; auto. Qed.

(** [simulates s s']: [s'] keeps the invariant, and the protocol gets there. *)
Definition simulates (s s' : System) : Prop := sys_inv s' /\ rtc auth_step (fabric_of s) (fabric_of s').

Lemma simulates_quiet s x c c' waiting' :
  sys_inv s -> ctrls s !! x = Some c -> quiet c c' -> (forall p, p ∈ waiting' -> p ∈ waiting s) ->
  simulates s (mkSystem (<[x := c']> (ctrls s)) (sent s) waiting').
Proof.
  intros Hinv Hx (o & B & Ha & Ho) Hw. split.
  { eapply sys_inv_update; [done..| |done|done|done]. apply Ho. by eapply si_owned. }
  rewrite fabric_set by done. destruct (view_becomes _ _ _ B) as (d & -> & Hd). rewrite Ha in *.
  pose proof (fabric_node s x c Hx) as Hn. destruct Hd as [-> | ->].
  - by rewrite (fabric_same s x c).
  - apply rtc_once. pose proof (st_commit (fabric_of s) x) as Hst. by rewrite Hn in Hst.
Qed.

Lemma simulates_restart s x c c' waiting' :
  sys_inv s -> ctrls s !! x = Some c -> ctl_id c' = x -> held c' = saved c -> saved c' = saved c ->
  (forall p, p ∈ waiting' -> p ∈ waiting s /\ p.1 <> x) ->
  simulates s (mkSystem (<[x := c']> (ctrls s)) (sent s) waiting').
Proof.
  intros Hinv Hx Hid Hh Hs Hw. split.
  { apply (sys_inv_update s x c (saved c)); [done..| | | | |].
    - split; [by rewrite Hid, (si_id s Hinv x c Hx)|done|by left].
    - by eapply si_owned.
    - done.
    - intros q Hq. by apply Hw.
    - intros b Hb. by destruct (Hw _ Hb). }
  rewrite fabric_set by done. apply rtc_once.
  pose proof (st_restart (fabric_of s) x) as Hst. rewrite (fabric_node s x c Hx) in Hst.
  unfold view at 1. rewrite Hh, Hs. exact Hst.
Qed.

Lemma simulates_accept s y c b params c' :
  sys_inv s -> ctrls s !! y = Some c -> b ∈ sent s -> ap_session params = Ok (bd_session b) ->
  gate_free y (bundle_id b) s -> accepted params c c' -> simulates s (set_ctl y c' s).
Proof.
  intros Hinv Hy Hb Hp Hgate (v & a & Hv & Hsid & Hva & Hid & Hlow & B). rewrite Hp in Hv. simplify_eq. split.
  { eapply sys_inv_update; [done..| |done|done|].
    - intros v [= <-]. congruence.
    - intros b' Hb' Hs'. destruct (Hgate b' Hb'). unfold session_is, bundle_id in *. bool_prop. congruence. }
  unfold set_ctl. rewrite fabric_set by done. destruct (view_becomes _ _ _ B) as (d & -> & Hd). cbn in Hd |- *.
  rewrite Hva in *. apply rtc_once, st_accept.
  - apply list_elem_of_omap. exists b. split; [done|]. unfold message. by rewrite Hsid.
  - by rewrite Hid, (si_id s Hinv y c Hy).
  - rewrite (fabric_node s y c Hy). exact Hlow.
  - rewrite (fabric_node s y c Hy). done.
Qed.

Lemma simulates_complete s x c b c' :
  sys_inv s -> ctrls s !! x = Some c -> (x, b) ∈ waiting s -> becomes c (update (bd_session b) c) c' ->
  simulates s (mkSystem (<[x := c']> (ctrls s)) (sent s)
                 (base.filter (fun p => ~ (p.1 = x /\ bundle_id p.2 = bundle_id b)) (waiting s))).
Proof.
  intros Hinv Hx Hb B. unfold update in B. destruct (session_is sid (bd_session b)) eqn:Hsid.
  2: { apply (simulates_quiet s x c); [done..|by apply quiet_becomes|]. intros q Hq. by apply list_elem_of_filter in Hq as [_ ?]. }
  destruct (si_waiting s Hinv x b Hb Hsid) as (c0 & e & y & Hx0 & Hh & Ha & Hne & Hin). simplify_eq. split.
  { eapply sys_inv_update; [done..| |done| |].
    - intros v [= <-]. congruence.
    - intros q Hq. by apply list_elem_of_filter in Hq as [_ ?].
    - intros b' Hb' Hs'. apply list_elem_of_filter in Hb' as [Hn _]. destruct Hn. split; [done|].
      unfold session_is, bundle_id in *. cbn. bool_prop. congruence. }
  rewrite fabric_set by done. destruct (view_becomes _ _ _ B) as (d & -> & Hd). cbn in Hd |- *. rewrite Ha in *.
  pose proof (fabric_node s x c Hx) as Hn. apply rtc_once. eapply (st_complete _ x y e); [|done|done| |].
  - rewrite Hn. exact Hh.
  - apply list_elem_of_omap. exists b. split; [done|]. unfold message. by rewrite Hsid.
  - rewrite Hn. done.
Qed.

Lemma view_marked c target e c' :
  marked c target e c' ->
  let a := Some (mkSessionAuthority (ctl_id c) e (Some target)) in
  authority (held c) = Some (mkSessionAuthority (ctl_id c) e None) /\
  exists d, view c' = mkNode a d /\ (d = authority (saved c) \/ d = a).
Proof.
  intros (v & B & Hh & Hv). split; [done|]. destruct (view_becomes _ _ _ B) as (d & Hview & Hd). cbn in *.
  rewrite Hv in *. by exists d.
Qed.

(** A handoff that waits is not yet marked twice. *)
Lemma not_waiting s x : gate_free x sid s -> forall b, (x, b) ∈ waiting s -> session_is sid (bd_session b) = false.
Proof. intros Hg b Hb. specialize (Hg b Hb). unfold session_is. by apply String.eqb_neq. Qed.

Lemma bundle_message v c : session_is sid v = true -> message (session_bundle v c) = session_authority v.
Proof. intros H. unfold message. cbn. by rewrite H. Qed.

Lemma simulates_prepared s x c target v c' :
  sys_inv s -> ctrls s !! x = Some c -> gate_free x sid s -> target <> x -> session_is sid v = true ->
  (forall a, authority (held c) = Some a -> auth_epoch a < U64_MAX) -> prepared c target v c' ->
  let b := session_bundle v c' in
  simulates s (mkSystem (<[x := c']> (ctrls s)) (b :: sent s) ((x, b) :: waiting s)).
Proof.
  intros Hinv Hx Hgate Hne Hsid Hmax (e & Hv & Hp) b.
  pose proof (si_id s Hinv x c Hx) as Hid. pose proof (fabric_node s x c Hx) as Hn.
  assert (e < U64_MAX /\ exists o, becomes c o c' /\ owned o /\ authority o = Some (mkSessionAuthority x e (Some target)) /\
    rtc auth_step (fabric_of s) (set_node x (view c') (fabric_of s))) as (He & o & B & Hown & Ho & Hsteps).
  { destruct Hp as [[Hm Hsaved]|[-> Hh]].
    - destruct (view_marked _ _ _ _ Hm) as [Hh (d & Hview & _)]. rewrite Hid in *. destruct Hm as (v1 & B & _ & Hv1).
      split; [by apply Hmax in Hh|]. exists (Some v1). rewrite Hid in Hv1. split_and!; [done| |done|].
      { intros v2 [= <-]. congruence. }
      assert (view c' = let a := Some (mkSessionAuthority x e (Some target)) in mkNode a a) as ->.
      { unfold view. rewrite Hsaved, (bc_held _ _ _ B). cbn. by rewrite Hv1. }
      apply rtc_once, st_mark; [done|]. rewrite Hn. done.
    - rewrite Hid in Hh. split; [by apply Hmax in Hh|]. exists (held c). split_and!; [apply becomes_refl| |done|].
      + by eapply si_owned.
      + by rewrite (fabric_same s x c). }
  assert (session_authority v = Some (mkSessionAuthority target (e + 1) None)) as Hv'.
  { rewrite Hv. unfold u64_saturating_add. by rewrite Z.min_l by lia. }
  assert (sys_inv (mkSystem (<[x := c']> (ctrls s)) (b :: sent s) (waiting s))) as Hinv'.
  { eapply sys_inv_update; [done..| |done|].
    - intros b' Hb'. by right.
    - intros b' Hb' Hs'. by rewrite (not_waiting s x Hgate b' Hb') in Hs'. }
  split.
  - destruct Hinv' as [Hi Hw Hq]. constructor; [done..|]. cbn. intros z b' [[= -> ->]|Hb']%elem_of_cons Hs'.
    + exists c', e, target. rewrite lookup_insert, decide_True by done. rewrite (bc_held _ _ _ B).
      split_and!; [done..|by left].
    + by apply Hq.
  - etransitivity; [exact Hsteps|]. apply rtc_once.
    assert (fabric_of (mkSystem (<[x := c']> (ctrls s)) (b :: sent s) ((x, b) :: waiting s)) =
      add_message (mkSessionAuthority target (e + 1) None) (set_node x (view c') (fabric_of s))) as ->.
    { unfold fabric_of, set_node, add_message. cbn -[message b]. unfold b.
      by rewrite fmap_insert, (bundle_message v c' Hsid), Hv'. }
    apply (st_send _ x). rewrite node_same. unfold view. cbn. by rewrite (bc_held _ _ _ B).
Qed.

(** A handoff of another session changes nothing of this one. *)
Lemma simulates_other s x c v c' :
  sys_inv s -> ctrls s !! x = Some c -> session_is sid v = false -> quiet c c' ->
  let b := session_bundle v c' in
  simulates s (mkSystem (<[x := c']> (ctrls s)) (b :: sent s) ((x, b) :: waiting s)).
Proof.
  intros Hinv Hx Hsid Hq b. destruct (simulates_quiet s x c c' (waiting s) Hinv Hx Hq) as [[Hi Ho Hw] Hsteps]; [done|].
  split.
  - constructor; [done..|]. cbn in *. intros z b' [[= -> ->]|Hb']%elem_of_cons Hs'; [by cbn in Hs'; congruence|].
    destruct (Hw z b' Hb' Hs') as (d & e & y & ? & ? & ? & ? & ?). exists d, e, y. split_and!; [done..|by right].
  - unfold fabric_of in *. cbn in *. unfold message at 2. cbn. rewrite Hsid. done.
Qed.

Lemma simulates_unmarked s x c target e c1 c' waiting' :
  sys_inv s -> ctrls s !! x = Some c -> target <> x -> marked c target e c1 ->
  ctl_id c' = x -> held c' = saved c1 -> saved c' = saved c1 ->
  (forall p, p ∈ waiting' -> p ∈ waiting s /\ p.1 <> x) ->
  simulates s (mkSystem (<[x := c']> (ctrls s)) (sent s) waiting').
Proof.
  intros Hinv Hx Hne Hm Hid Hh Hs Hw. pose proof (si_id s Hinv x c Hx) as Hxid.
  destruct (view_marked _ _ _ _ Hm) as [Hheld _]. destruct Hm as (v & B & _ & Hv). rewrite Hxid in *.
  destruct (bc_saved _ _ _ B) as [Hsv|Hsv].
  - apply (simulates_restart s x c); [done..|congruence|congruence|done].
  - assert (held c' = Some v /\ saved c' = Some v) as [Hh' Hs'] by (split; congruence). split.
    { apply (sys_inv_update s x c (Some v)); [done..| | | | |].
      - split; [congruence|done|by right].
      - intros v' [= <-]. congruence.
      - done.
      - intros q Hq. by apply Hw.
      - intros b Hb. by destruct (Hw _ Hb). }
    rewrite fabric_set by done.
    assert (view c' = let a := Some (mkSessionAuthority x e (Some target)) in mkNode a a) as ->.
    { unfold view. rewrite Hh', Hs'. cbn. by rewrite Hv. }
    apply rtc_once, st_mark; [done|]. rewrite (fabric_node s x c Hx). done.
Qed.

Lemma filter_waiting (P : string * Bundle -> Prop) `{!forall p, Decision (P p)} (l : list (string * Bundle)) q :
  q ∈ base.filter P l -> q ∈ l /\ P q.
Proof. intros [? ?]%list_elem_of_filter. done. Qed.

Lemma refused_quiet c target e c' : marked c target e c' -> ctl_state c' = ctl_state c -> False.
Proof.
  intros (v & [_ Hh _] & Ha & Hv) Hs. unfold held in *. rewrite Hs in Hh. rewrite Hh in Ha. cbn in Ha. congruence.
Qed.

Lemma sys_step_simulates s s' : sys_inv s -> sys_step s s' -> simulates s s'.
Proof.
  intros Hinv H. unfold sys_step in H. remember None as o eqn:Hd in H.
  destruct H as [x c params w r c' w' Hx Hrun|x c params st w r c' w' Hx Hrun|x c w r c' w' Hx Hrun
    |x c id target w peer v c' w' Hx Hg Hrun b|x c id target w e c' w' Hx Hrun Hsame|x c id target w e c' w' Hx Hrun
    |x c id target w e c1 w1 w2 c' b' w' Hx Hrun Hopen|y c b params w r c' w' Hy Hb Hp Hg Hrun
    |x c b response w r c' w' Hx Hb Hrun|x c w c' b' w' Hx Hopen].
  - eapply simulates_quiet; [done..| |done]. eapply session_put_quiet; [done|]. intros v Hv. by eapply put_regular.
  - eapply simulates_quiet; [done..| |done]. eapply session_transition_quiet; [done|]. by eapply si_owned.
  - eapply simulates_quiet; [done..| |done]. apply persist_becomes in Hrun as [? _]. by apply quiet_becomes.
  - apply handoff_regular in Hd as [Hne Hmax]. apply handoff_prepare_effect in Hrun as [Hid Hp]. case_decide as Hs.
    + subst id. apply (simulates_prepared s x c target); [done..|by rewrite <- Hs| done| |by rewrite Hs in Hmax|done].
      unfold session_is. rewrite Hs. apply String.eqb_refl.
    + apply (simulates_other s x c); [done..| |done]. unfold session_is. apply String.eqb_neq. congruence.
  - apply handoff_prepare_effect in Hrun as [Hq|[e' Hm]]; [by eapply simulates_quiet|].
    by destruct (refused_quiet _ _ _ _ Hm Hsame).
  - done.
  - destruct (String.eqb_spec target x) as [|Hne]; [done|]. apply restart_regular in Hd.
    apply handoff_prepare_effect in Hrun as [Hq|[e' Hm]].
    + destruct (simulates_quiet s x c c1 (waiting s)) as [Hinv1 Hsteps]; [done..|].
      assert (ctrls (set_ctl x c1 s) !! x = Some c1) as Hx1 by (cbn; by rewrite lookup_insert_eq).
      apply open_effect in Hopen as (Hid & Hh & Hs); [|done|by eapply (proj2 (si_owned _ Hinv1 x c1 Hx1))].
      destruct (simulates_restart (set_ctl x c1 s) x c1 c' _ Hinv1 Hx1 Hid Hh Hs (filter_waiting _ _)) as [Hinv2 Hsteps2].
      cbn in Hinv2, Hsteps2. rewrite insert_insert_eq in Hinv2, Hsteps2. split; [done|]. by etransitivity.
    + assert (owned (saved c1)) as Ho.
      { pose proof (si_owned s Hinv x c Hx) as [? ?]. destruct Hm as (v & B & _ & Hv).
        eapply owned_becomes; [done| |done]. intros v' [= <-]. congruence. }
      apply open_effect in Hopen as (Hid & Hh & Hs); [|done|done].
      eapply simulates_unmarked; [done..|]. intros q. apply filter_waiting.
  - apply accept_handoff_effect in Hrun as [Hq|Ha]; [by eapply simulates_quiet|by eapply simulates_accept].
  - apply handoff_complete_effect in Hrun as [Hq|B]; [|by eapply simulates_complete].
    eapply simulates_quiet; [done..|]. intros q Hw. by apply filter_waiting in Hw as [? _].
  - apply restart_regular in Hd. apply open_effect in Hopen as (Hid & Hh & Hs); [|done|by eapply (proj2 (si_owned s Hinv x c Hx))].
    eapply simulates_restart; [done..|]. intros q. apply filter_waiting.
Qed.

(** ** What holds in every reachable fabric *)

(** Controller [x0] has created the session and committed it, the others do not know it. *)
Record starts (x0 : string) (s : System) : Prop := mk_starts {
  sta_quiet : sent s = [] /\ waiting s = [];
  sta_id x c : ctrls s !! x = Some c -> ctl_id c = x;
  sta_owner : exists c, ctrls s !! x0 = Some c /\ held c = saved c /\
    authority (held c) = Some (mkSessionAuthority x0 1 None);
  sta_others x c : x <> x0 -> ctrls s !! x = Some c -> held c = None /\ saved c = None;
}.

Lemma starts_created x0 s : starts x0 s -> sys_inv s /\ created x0 (fabric_of s).
Proof.
  intros [[Hs Hw] Hi (c0 & Hc0 & Hh & Ha) Ho]. repeat split.
  - exact Hi.
  - destruct (decide (x = x0)) as [->|Hne]; [|by destruct (Ho x c Hne H) as [-> _]]. simplify_eq.
    intros v Hv. rewrite Hv in Ha. cbn in Ha. congruence.
  - destruct (decide (x = x0)) as [->|Hne]; [|by destruct (Ho x c Hne H) as [_ ->]]. simplify_eq.
    intros v Hv. rewrite Hh, Hv in Ha. cbn in Ha. congruence.
  - intros x b. rewrite Hw. intros Hb. by apply not_elem_of_nil in Hb.
  - intros y. case_decide as Hy.
    + subst. rewrite (fabric_node s x0 c0 Hc0). unfold view. rewrite <- Hh, Ha. done.
    + unfold nodes, fabric_of. cbn. rewrite lookup_fmap. destruct (ctrls s !! y) as [c|] eqn:Hc; [|done]. cbn.
      unfold view. by destruct (Ho y c Hy Hc) as [-> ->].
  - cbn. by rewrite Hs.
Qed.

Lemma sys_steps_simulate s s' : rtc sys_step s s' -> sys_inv s -> simulates s s'.
Proof.
  induction 1 as [s|s s1 s2 H _ IH]; intros Hinv; [by split|].
  destruct (sys_step_simulates s s1 Hinv H) as [Hinv1 H1]. destruct (IH Hinv1) as [Hinv2 H2].
  split; [done|]. by etransitivity.
Qed.

(** The controller has the authority and is not handing it over. *)
Definition acts (c : Controller) : Prop :=
  exists e, authority_of sid (ctl_state c) = Some (mkSessionAuthority (ctl_id c) e None).

Lemma reachable_active x0 s0 s x c :
  starts x0 s0 -> rtc sys_step s0 s -> ctrls s !! x = Some c -> acts c ->
  auth_inv (fabric_of s) /\ active (fabric_of s) x.
Proof.
  intros [Hi Hc]%starts_created Hr Hx [e He]. destruct (sys_steps_simulate _ _ Hr Hi) as [Hinv Hsteps].
  split; [by eapply steps_inv, created_inv|]. exists e. rewrite (fabric_node s x c Hx).
  rewrite (si_id s Hinv x c Hx) in He. exact He.
Qed.

(** An action on the session is run by the controller itself. *)
Definition runs_here (c : Controller) (action : string) (params : Value) : Prop :=
  session_id_for_action c action params = Some sid /\
  authority_of sid (ctl_state c) <> None /\
  (action ∉ ["session.put"; "session.accept-handoff"; "session.get"; "session.handoff"]) /\
  exists call, route_session_action call c action params = Ok None.

Lemma runs_here_acts c action params : runs_here c action params -> acts c.
Proof.
  intros (Hid & Hk & Ha & call & Hr). unfold route_session_action in Hr.
  rewrite !not_elem_of_cons in Ha. destruct Ha as (N1 & N2 & N3 & N4 & _).
  apply String.eqb_neq in N1, N2, N3, N4. rewrite N1, N2, N3, N4, Hid in Hr. cbn in Hr.
  destruct (authority_of sid (ctl_state c)) as [[own e pend]|] eqn:Hau; [|done]. cbn in Hr.
  destruct pend; [done|]. destruct (String.eqb_spec own (ctl_id c)) as [->|];
    [by exists e|]. repeat case_match; simplify_eq.
Qed.

End Effects.

(** ** The task table after a handoff *)

Lemma upsert_by_elem {A} (l : list A) v p x : x ∈ upsert_by l v p -> x = v \/ x ∈ l.
Proof.
  induction l as [|y l IH]; cbn; [intros ?%list_elem_of_singleton; by left|].
  destruct (p y); rewrite !elem_of_cons; [tauto|]. intros [->|?%IH]; tauto.
Qed.

Lemma upsert_all_elem {A} (key : A -> string) news items x : x ∈ upsert_all key news items -> x ∈ news \/ x ∈ items.
Proof.
  unfold upsert_all. revert items. induction news as [|y news IH]; intros items; cbn; [by right|].
  intros [?|?%upsert_by_elem]%IH; rewrite elem_of_cons; tauto.
Qed.

Lemma from_tasks_elem ts id t : tasks (from_tasks ts) !! id = Some t -> exists t', t' ∈ ts /\ task_id t' = id.
Proof.
  unfold from_tasks. rewrite from_tasks_fold. cbn.
  assert (forall acc : gmap string Task, fold_left (fun acc x => <[task_id x := x]> acc) ts acc !! id = Some t ->
    acc !! id = Some t \/ exists t', t' ∈ ts /\ task_id t' = id) as H.
  { induction ts as [|x ts IH]; intros acc; cbn; [by left|]. intros [Hl|(t' & ? & ?)]%IH.
    - rewrite lookup_insert in Hl. case_decide; [|by left]. right. exists x. split; [by left|done].
    - right. exists t'. split; [by right|done]. }
  intros [Hl|?]%H; [by rewrite lookup_empty in Hl|done].
Qed.

Section TaskTable.
Context (to_vec : Value -> option string) (sha256_hex : string -> string) (torn : string -> string).
Context (store : JsonStore).

Definition same_tasks (c c' : Controller) : Prop := dom (tasks (ctl_tasks c')) = dom (tasks (ctl_tasks c)).

Lemma replace_input_dom id rev m ref t w r t' w' :
  replace_input_ref_if_unchanged id rev m ref t w = (r, t', w') -> dom (tasks t') = dom (tasks t).
Proof.
  unfold replace_input_ref_if_unchanged, store_task. intros H. mrun; try done; rewrite dom_insert_L;
    apply subseteq_union_1_L, singleton_subseteq_l, elem_of_dom; by eexists.
Qed.

Lemma replace_output_dom id rev m ref t w r t' w' :
  replace_output_ref_if_unchanged id rev m ref t w = (r, t', w') -> dom (tasks t') = dom (tasks t).
Proof.
  unfold replace_output_ref_if_unchanged, store_task. intros H. mrun; try done; rewrite dom_insert_L;
    apply subseteq_union_1_L, singleton_subseteq_l, elem_of_dom; by eexists.
Qed.

Lemma on_tasks_dom {A} (m : M TaskTable panic A) c w r c' w' :
  (forall t w r t' w', m t w = (r, t', w') -> dom (tasks t') = dom (tasks t)) ->
  bind (E := RpcError) (on_tasks m) (fun _ => ret tt) c w = (r, c', w') -> same_tasks c c'.
Proof.
  intros Hm H. unfold bind, on_tasks, ret in H. destruct (m (ctl_tasks c) w) as [[a t] w1] eqn:E. simplify_eq.
  unfold same_tasks. cbn. by eapply Hm.
Qed.

Lemma apply_update_dom u c w r c' w' : apply_update u c w = (r, c', w') -> same_tasks c c'.
Proof.
  intros H. unfold apply_update in H. apply bind_cases in H as (r1 & c1 & w1 & H1 & H).
  assert (same_tasks c c1) as S1.
  { destruct (pu_input u) as [[m ref]|]; [|by munfold; simplify_eq]. eapply on_tasks_dom; [|done].
    intros *. apply replace_input_dom. }
  destruct r1 as [x|]; [|by destruct H as (_ & -> & _)].
  assert (same_tasks c1 c') as S2; [|unfold same_tasks in *; congruence].
  destruct (pu_output u) as [[m ref]|]; [|by munfold; simplify_eq]. eapply on_tasks_dom; [|done].
  intros *. apply replace_output_dom.
Qed.

Lemma apply_updates_dom l c w r c' w' : for_each l apply_update c w = (r, c', w') -> same_tasks c c'.
Proof.
  revert c w. induction l as [|u l IH]; intros c w; cbn [for_each]; [by munfold; intros; simplify_eq|].
  intros H. apply bind_cases in H as (r1 & c1 & w1 & H1%apply_update_dom & H).
  destruct r1; [apply IH in H|by destruct H as (_ & -> & _)]. unfold same_tasks in *. congruence.
Qed.

Lemma persist_dom c w r c' w' : persist to_vec sha256_hex torn store c w = (r, c', w') -> same_tasks c c'.
Proof.
  intros H. unfold persist in H. unfold bind at 1, get in H. apply bind_cases in H as (r2 & c2 & w2 & H2 & H).
  assert (same_tasks c c2) as S2 by (unfold zoom in H2; by repeat case_match; simplify_eq).
  destruct r2 as [u|]; [|by destruct H as (_ & -> & _)].
  apply bind_cases in H as (r3 & c3 & w3 & H3 & H).
  assert (same_tasks c2 c3) as S3 by (unfold save_state in H3; mrun; done).
  destruct r3; [apply apply_updates_dom in H|by destruct H as (_ & -> & _); unfold same_tasks in *; congruence].
  unfold same_tasks in *. congruence.
Qed.

End TaskTable.

Section Theorems.
Context (to_vec : Value -> option string) (from_slice : string -> option Value).
Context (sha256_hex : string -> string) (torn : string -> string) (store : JsonStore).
#[local] Abbreviation sys_step := (sys_step to_vec from_slice sha256_hex torn store).

(** C7: from a fabric in which one controller has created the session and nobody else knows it, however
    controllers put, transition, hand off and accept a session, crash and start again, and
    however late or often a handoff is delivered, every run of the handlers without a [Departure] is a
    run of the protocol of session authority. A run with one need not be: [departure_splits_authority]
    and [uncommitted_mark_splits_authority] of [SessionRuns]. *)
Theorem handlers_implement_the_protocol sid x0 s0 s :
  starts sid x0 s0 -> rtc (sys_step sid) s0 s ->
  created x0 (fabric_of sid s0) /\ rtc auth_step (fabric_of sid s0) (fabric_of sid s).
Proof.
  intros [Hi Hc]%starts_created Hr. split; [done|]. by eapply sys_steps_simulate.
Qed.

(** C6: from a fabric in which one controller has created the session and nobody else knows it, in every
    fabric that is reached without a [Departure], two controllers that run actions on the
    same session by themselves are one and the same. *)
Theorem one_controller_acts sid x0 s0 s x y c d action action' params params' :
  starts sid x0 s0 -> rtc (sys_step sid) s0 s -> ctrls s !! x = Some c -> ctrls s !! y = Some d ->
  runs_here sid c action params -> runs_here sid d action' params' -> x = y.
Proof.
  intros Hst Hr Hx Hy Hc%runs_here_acts Hd%runs_here_acts.
  destruct (reachable_active to_vec from_slice sha256_hex torn store sid x0 s0 s x c) as [Hinv Ax]; [done..|].
  destruct (reachable_active to_vec from_slice sha256_hex torn store sid x0 s0 s y d) as [_ Ay]; [done..|].
  by eapply active_unique.
Qed.

(** a [session.put] without an authority makes the controller the owner of the session in epoch 1,
    whoever had the authority over it. *)
Theorem put_without_authority_takes_over v c w r c' w' :
  session_authority v = None -> session_put to_vec sha256_hex torn store (Ok v) c w = (r, c', w') ->
  authority_of (meta_id (session_metadata v)) (ctl_state c') = Some (mkSessionAuthority (ctl_id c) 1 None).
Proof.
  intros Hn H. unfold session_put in H. unfold bind at 1, lift, map_err, bind at 1, get in H. rewrite Hn in H.
  unfold bind at 1, ret at 1 in H.
  apply (put_commit_becomes _ _ _ _ (meta_id (session_metadata v))) in H as [[_ Hh _] _].
  unfold held, update, session_is in Hh. cbn in Hh. rewrite String.eqb_refl in Hh.
  unfold authority_of. by rewrite Hh.
Qed.

(** a controller that accepts a handoff of a session it did not know has, afterwards, no other
    tasks than those of the handoff. *)
Theorem accepted_handoff_replaces_the_tasks b c w v c' w' id t :
  st_tasks (ctl_state c) = [] -> find_session (bundle_id b) (ctl_state c) = None ->
  accept_handoff to_vec sha256_hex torn store (bundle_params b) c w = (Ok v, c', w') ->
  get_task (ctl_tasks c') id = Some t -> exists t', t' ∈ bd_tasks b /\ task_id t' = id.
Proof.
  intros Hnone Hnew H Ht. unfold accept_handoff in H. unfold bind at 1, lift in H. cbn [ap_session bundle_params] in H.
  destruct (session_authority (bd_session b)) as [a|]; [|done]. unfold bind at 1, get in H.
  destruct (negb _); [done|]. unfold accept_check in H. unfold bundle_id in Hnew. rewrite Hnew in H.
  unfold bind at 1 in H. unfold bind at 1, put_session, modify in H.
  apply bind_cases in H as (r1 & c1 & w1 & H1 & H).
  assert (ctl_tasks c1 = from_tasks (upsert_all task_id (bd_tasks b) [])) as Htab.
  { unfold accept_records in H1. munfold. cbn in H1. simplify_eq. cbn. by rewrite Hnone. }
  destruct r1; [|by destruct H as (? & _)]. apply bind_cases in H as (r2 & c2 & w2 & H2 & H).
  apply persist_dom in H2. destruct r2; [|by destruct H as (? & _)]. unfold ret in H. simplify_eq.
  assert (id ∈ dom (tasks (ctl_tasks c1))) as Hin by (rewrite <- H2; apply elem_of_dom; by exists t).
  rewrite Htab in Hin. apply elem_of_dom in Hin as [t0 H0]. apply from_tasks_elem in H0 as (t' & Hin & Hid).
  apply upsert_all_elem in Hin as [Hin|Hin]; [by exists t'|by apply not_elem_of_nil in Hin].
Qed.

End Theorems.
