(* ===== verification/SessionRuns.v ===== *)
(** * Runs of a small fabric: witnesses of [SessionFabric] and of [RecordSafety], and a handoff whose mark is not committed

    Controller A has created session "s" and hands it to controller B. *)
From stdpp Require Import base gmap strings list relations.
From S2P Require Import Prelude Json Schema Protocol Leases Tasks Store Payloads Controller Authority ControllerSessions ControllerRecords RecordSafety SessionFabric.
Open Scope Z_scope.

Definition text (_ : Value) : option string := Some "null".
Definition value_of (_ : string) : option Value := Some VNull.
Definition hex (_ : string) : string := "00".
Definition cut (s : string) : string := s.
Definition state_store : JsonStore := mkJsonStore ["var"; "state.json"].
#[local] Abbreviation step := (sys_step text value_of hex cut state_store "s").

(** Writes fail. *)
Definition full_disk_world : World :=
  mkWorld (mkOracle Z.of_nat 0) (mkOracle Z.of_nat 0) (mkOracle unary 0) (mkOracle (fun _ => false) 0).

Definition session_s : WorkspaceSession :=
  mkWorkspaceSession API_VERSION (mkMetadata "s" ∅ 0 0) "objective" SActive (Some (mkSessionAuthority "A" 1 None)).
Definition peer_b : ControllerPeer :=
  mkControllerPeer API_VERSION (mkMetadata "B" ∅ 0 0) (EndpointLocal "b.sock") HReady.
Definition state_a : FabricState :=
  mkFabricState (Some "A") [session_s] [] [peer_b] [] ∅ [] [] [] [] [] [] [].
Definition state_b : FabricState := mkFabricState (Some "B") [] [] [] [] ∅ [] [] [] [] [] [] [].
Definition ctl_a : Controller := mkController "A" state_a LeaseTable_default TaskTable_default empty_disk state_a.
Definition ctl_b : Controller := mkController "B" state_b LeaseTable_default TaskTable_default empty_disk state_b.
Definition start : System := mkSystem {["A" := ctl_a; "B" := ctl_b]} [] [].

(** The state that a computation leaves behind, and the session it returns. *)
Definition after {S E A} (run : result E A * S * World) : S := run.1.2.
Definition returned {S E} (run : result E (ControllerPeer * WorkspaceSession) * S * World) : WorkspaceSession :=
  match run.1.1 with Ok (_, v) => v | Err _ => session_s end.

#[local] Abbreviation prepare := (handoff_prepare text hex cut state_store "s" "B").
#[local] Abbreviation accept b := (accept_handoff text hex cut state_store (bundle_params b)).
#[local] Abbreviation complete b :=
  (handoff_complete text hex cut state_store (bd_session b) (Ok (response_success "r" VNull))).
#[local] Abbreviation reopen x c := (open_with_id text value_of hex cut state_store (Some x) (boot_of c)).

Definition run1 := Eval vm_compute in prepare ctl_a (sample_world 10).
Definition a1 : Controller := Eval vm_compute in after run1.
Definition v1 : WorkspaceSession := Eval vm_compute in returned run1.
Definition b1 : Bundle := Eval vm_compute in session_bundle v1 a1.
Definition run2 := Eval vm_compute in accept b1 ctl_b (sample_world 20).
Definition b2 : Controller := Eval vm_compute in after run2.
Definition run3 := Eval vm_compute in complete b1 a1 (sample_world 30).
Definition a3 : Controller := Eval vm_compute in after run3.

Definition marked_system : System :=
  mkSystem (<["A" := a1]> (ctrls start)) (session_bundle v1 a1 :: sent start) (("A", session_bundle v1 a1) :: waiting start).
Definition accepted_system : System := set_ctl "B" b2 marked_system.
Definition handed_over : System :=
  mkSystem (<["A" := a3]> (ctrls accepted_system)) (sent accepted_system)
    (base.filter (fun p => ~ (p.1 = "A" /\ bundle_id p.2 = bundle_id b1)) (waiting accepted_system)).

Lemma start_starts : starts "s" "A" start.
Proof.
  constructor.
  - done.
  - intros x c. cbn [ctrls start]. rewrite lookup_insert, lookup_singleton. repeat case_decide; intros ?; by simplify_eq.
  - exists ctl_a. split_and!; [|done|done]. cbn. by rewrite lookup_insert_eq.
  - intros x c Hx. cbn [ctrls start]. rewrite lookup_insert, lookup_singleton. repeat case_decide; intros ?; by simplify_eq.
Qed.

Lemma handed_over_reachable : rtc step start handed_over.
Proof.
  apply (rtc_l _ _ marked_system); [|apply (rtc_l _ _ accepted_system); [|apply rtc_once]].
  - apply (fs_handoff _ _ _ _ _ _ start "A" ctl_a "s" "B" (sample_world 10) peer_b v1 a1 run1.2).
    + done.
    + intros b Hb. by apply not_elem_of_nil in Hb.
    + vm_compute. reflexivity.
  - apply (fs_accept _ _ _ _ _ _ marked_system "B" ctl_b b1 (bundle_params b1) (sample_world 20) run2.1.1 b2 run2.2).
    + done.
    + by left.
    + done.
    + intros b Hb. apply list_elem_of_singleton in Hb. done.
    + vm_compute. reflexivity.
  - apply (fs_complete _ _ _ _ _ _ accepted_system "A" a1 b1 (Ok (response_success "r" VNull)) (sample_world 30) run3.1.1 a3 run3.2).
    + done.
    + by left.
    + vm_compute. reflexivity.
Qed.

Definition list_params : Value := obj_of [("workspaceSessionId", VString "s")].

Lemma b_runs_here : runs_here "s" b2 "task.list" list_params.
Proof.
  split_and!; [done|done| |by exists (fun _ _ _ => Err "")].
  rewrite !not_elem_of_cons. split_and!; try done. apply not_elem_of_nil.
Qed.

Lemma handlers_implement_the_protocol_witness :
  created "A" (fabric_of "s" start) /\ rtc auth_step (fabric_of "s" start) (fabric_of "s" handed_over).
Proof.
  exact (handlers_implement_the_protocol text value_of hex cut state_store "s" "A" start handed_over
           start_starts handed_over_reachable).
Defined.

(** After the handoff it is B that runs the actions of the session, and A that does not. *)
Lemma one_controller_acts_witness :
  runs_here "s" b2 "task.list" list_params /\ "B" = "B" /\
  forall action params, ~ runs_here "s" a3 action params.
Proof.
  split_and!.
  - exact b_runs_here.
  - exact (one_controller_acts text value_of hex cut state_store "s" "A" start handed_over "B" "B" b2 b2
             "task.list" "task.list" list_params list_params
             start_starts handed_over_reachable eq_refl eq_refl b_runs_here b_runs_here).
  - intros action params H.
    discriminate (one_controller_acts text value_of hex cut state_store "s" "A" start handed_over "A" "B" a3 b2
             action "task.list" params list_params
             start_starts handed_over_reachable eq_refl eq_refl H b_runs_here).
Defined.

(** After the handoff A puts the session again, without an authority, and both controllers act on it. *)
Theorem departure_splits_authority :
  exists s ca, fabric_step text value_of hex cut state_store "s" handed_over (Some PutWithoutAuthority) s /\
    ctrls s !! "A" = Some ca /\ ctrls s !! "B" = Some b2 /\ acts "s" ca /\ acts "s" b2.
Proof.
  pose (run := session_put text hex cut state_store (Ok (with_authority session_s None)) a3 (sample_world 40)).
  exists (set_ctl "A" (after run) handed_over), (after run). split_and!.
  - apply (fs_put text value_of hex cut state_store "s" handed_over "A" a3 (Ok (with_authority session_s None)) (sample_world 40)
             run.1.1 (after run) run.2); reflexivity.
  - reflexivity.
  - reflexivity.
  - exists 1. vm_compute. reflexivity.
  - exists 2. reflexivity.
Qed.

(** A puts the session again, without an authority, after B has got it. *)
Lemma put_without_authority_takes_over_witness :
  let run := session_put text hex cut state_store (Ok (with_authority session_s None)) a3 (sample_world 40) in
  authority_of "s" (ctl_state a3) = Some (mkSessionAuthority "B" 2 None) /\
  authority_of "s" (ctl_state (after run)) = Some (mkSessionAuthority "A" 1 None).
Proof.
  intros run. split; [reflexivity|].
  exact (put_without_authority_takes_over text hex cut state_store (with_authority session_s None) a3 (sample_world 40)
           run.1.1 (after run) run.2 eq_refl eq_refl).
Defined.

(** ** Tasks of another session *)

Definition task_9 : Task :=
  mkTask "task_9" None None "other" "mac" "fs.read" VNull None None None None "k" Succeeded 1 1 0 0 [].
Definition task_1 : Task :=
  mkTask "task_1" None None "s" "mac" "fs.read" VNull None None None None "k" Succeeded 1 1 0 0 [].
Definition busy_b : Controller :=
  mkController "B" state_b LeaseTable_default (from_tasks [task_9]) empty_disk state_b.
Definition bundle_with_task : Bundle := mkBundle v1 [task_1] [] [] [] [] [].
Definition run4 := Eval vm_compute in accept bundle_with_task busy_b (sample_world 20).

Lemma accepted_handoff_replaces_the_tasks_witness :
  get_task (ctl_tasks busy_b) "task_9" = Some task_9 /\ get_task (ctl_tasks (after run4)) "task_9" = None /\
  exists t', t' ∈ bd_tasks bundle_with_task /\ task_id t' = "task_1".
Proof.
  split_and!; [reflexivity|reflexivity|].
  apply (accepted_handoff_replaces_the_tasks text hex cut state_store bundle_with_task busy_b (sample_world 20)
           v1 (after run4) run4.2 "task_1" task_1); vm_compute; reflexivity.
Defined.

(** ** A mark that is not committed *)

Definition failed := Eval vm_compute in prepare ctl_a full_disk_world.
Definition retried := Eval vm_compute in prepare (after failed) (sample_world 10).
Definition b_after := Eval vm_compute in after (accept (session_bundle (returned retried) (after retried)) ctl_b (sample_world 20)).
Definition a_after := Eval vm_compute in reopen "A" (after retried) (sample_world 30).

(** the commit of the mark of a handoff fails, the handoff is requested again and succeeds without
    a further commit, the target accepts it; when the source starts again, both have the authority. *)
Theorem uncommitted_mark_splits_authority :
  exists err c1 w1 peer v c2 w2 ses cb w3 ca boot w4,
    prepare ctl_a full_disk_world = (Err err, c1, w1) /\ err_code err = "STATE_WRITE_FAILED" /\
    prepare c1 (sample_world 10) = (Ok (peer, v), c2, w2) /\
    accept (session_bundle v c2) ctl_b (sample_world 20) = (Ok ses, cb, w3) /\
    reopen "A" c2 (sample_world 30) = (Ok ca, boot, w4) /\
    acts "s" ca /\ acts "s" cb.
Proof.
  do 13 eexists. split_and!; [vm_compute; reflexivity|reflexivity|vm_compute; reflexivity..| |].
  - by exists 1.
  - by exists 2.
Qed.

(** ** Records *)

#[local] Abbreviation run_op := (run_record text hex cut state_store).

Definition generation_1 (s : GenerationState) : Generation :=
  mkGeneration "g1" "s" "app" "/srv/g1" s (mkBaselineIdentity "d" "src" None None ∅) [] "" 0 None None None None None.
Definition transaction_1 : ActivationTransaction :=
  mkActivationTransaction "t1" "s" "k" "target" "g1" None TxPlanned 0 0 [] [] (Some 7) [] None.
Definition state_r : FabricState :=
  mkFabricState (Some "A") [session_s] [] [] [] ∅ [] [] [generation_1 GReserved] [transaction_1] [] [] [].
Definition ctl_s : Controller := mkController "A" state_r LeaseTable_default TaskTable_default empty_disk state_r.

Definition step_params : Value := obj_of [("transactionId", VString "t1"); ("step", VString "activate");
  ("state", VString "succeeded"); ("fence", vu64 7)].
Definition op1 : record_op := OpGenerationPut (Ok (generation_1 GMaterializing)).
Definition op2 : record_op := OpTransactionRecord step_params (Ok StepSucceeded).
Definition after1 := Eval vm_compute in run_op op1 ctl_s (sample_world 10).
Definition after2 := Eval vm_compute in run_op op2 (after after1) (sample_world 20).

Lemma two_requests : record_run text hex cut state_store ctl_s [op1; op2] (after after2).
Proof.
  eapply (rr_cons _ _ _ _ op1 [op2] ctl_s (sample_world 10) after1.1.1 (after after1) after1.2); [vm_compute; reflexivity|].
  eapply (rr_cons _ _ _ _ op2 [] (after after1) (sample_world 20) after2.1.1 (after after2) after2.2);
    [vm_compute; reflexivity|]. apply rr_nil.
Qed.

Lemma generation_life_cycle_witness :
  exists g', find (generation_is "g1") (st_generations (ctl_state (after after2))) = Some g' /\
    same_generation (generation_1 GReserved) g' = true /\
    rtc generation_edge GReserved (generation_state g') /\
    (GReserved = GFailed \/ GReserved = GSuperseded -> generation_state g' = GReserved).
Proof.
  exact (generation_life_cycle text hex cut state_store ctl_s [op1; op2] (after after2) "g1" (generation_1 GReserved)
           two_requests eq_refl).
Defined.

Lemma transaction_1_sound : journals_sound (ctl_state ctl_s).
Proof. constructor; [apply new_journal_sound|constructor]. Qed.

Lemma transaction_journal_witness :
  exists t', find (transaction_is "t1") (st_transactions (ctl_state (after after2))) = Some t' /\ journal_sound t' /\
    tx_journal transaction_1 `prefix_of` tx_journal t' /\ tx_idempotency_key t' = "k" /\ tx_generation_id t' = "g1".
Proof.
  exact (transaction_journal text hex cut state_store ctl_s [op1; op2] (after after2) "t1" transaction_1
           two_requests transaction_1_sound eq_refl).
Defined.

Lemma acknowledged_requests_are_committed_witness : synced ctl_s /\ synced (after after1).
Proof.
  assert (synced ctl_s) as H by (exists []; reflexivity). split; [exact H|].
  apply (acknowledged_requests_are_committed text hex cut state_store op1 ctl_s (sample_world 10) (after after1) after1.2 H).
  vm_compute. reflexivity.
Defined.
