(* ===== verification/InvokeOutcome.v ===== *)
(** * The outcome of an invocation is recorded *)
From Stdlib Require Import SpecFloat.
From stdpp Require Import base gmap strings list relations.
From S2P Require Import Prelude Json Schema Protocol Leases Tasks Store SchemaCheck Payloads Evidence Controller ControllerFrames ControllerSessions ControllerRecords.
From S2P Require Import CapabilityInvoke InvokeSafety SessionRuns.
Open Scope Z_scope.

(** The task [tid] is known, in state [s]. *)
Definition in_state (tid : string) (s : TaskState) (t : TaskTable) : Prop :=
  exists x, tasks t !! tid = Some x /\ task_state x = s.

(** The references to payloads that a commit enters do not change the state of a task. *)
Lemma replace_input_state id rev m ref tid s t w r t' w' :
  replace_input_ref_if_unchanged id rev m ref t w = (r, t', w') -> in_state tid s t -> in_state tid s t'.
Proof.
  unfold replace_input_ref_if_unchanged, store_task. intros H (x & Hx & Hs). mrun; try by exists x.
  all: unfold in_state; cbn; rewrite lookup_insert; case_decide; subst; [|by exists x]; simplify_eq; by eexists.
Qed.

Lemma replace_output_state id rev m ref tid s t w r t' w' :
  replace_output_ref_if_unchanged id rev m ref t w = (r, t', w') -> in_state tid s t -> in_state tid s t'.
Proof.
  unfold replace_output_ref_if_unchanged, store_task. intros H (x & Hx & Hs). mrun; try by exists x.
  all: unfold in_state; cbn; rewrite lookup_insert; case_decide; subst; [|by exists x]; simplify_eq; by eexists.
Qed.

Lemma on_tasks_state {A} (m : M TaskTable panic A) tid s c w r c' w' :
  (forall t w r t' w', m t w = (r, t', w') -> in_state tid s t -> in_state tid s t') ->
  bind (E := RpcError) (on_tasks m) (fun _ => ret tt) c w = (r, c', w') ->
  in_state tid s (ctl_tasks c) -> in_state tid s (ctl_tasks c').
Proof.
  intros Hm H Hs. unfold bind, on_tasks, ret in H. destruct (m (ctl_tasks c) w) as [[a t] w1] eqn:E. simplify_eq.
  cbn. by eapply Hm.
Qed.

Lemma apply_update_state u tid s c w r c' w' :
  apply_update u c w = (r, c', w') -> in_state tid s (ctl_tasks c) -> in_state tid s (ctl_tasks c').
Proof.
  intros H Hs. unfold apply_update in H. apply bind_cases in H as (r1 & c1 & w1 & H1 & H).
  assert (in_state tid s (ctl_tasks c1)) as S1.
  { destruct (pu_input u) as [[m ref]|]; [|by munfold; simplify_eq]. eapply on_tasks_state; [|done|done].
    intros *. apply replace_input_state. }
  destruct r1 as [x|]; [|by destruct H as (_ & -> & _)].
  destruct (pu_output u) as [[m ref]|]; [|by munfold; simplify_eq]. eapply on_tasks_state; [|done|done].
  intros *. apply replace_output_state.
Qed.

Lemma apply_updates_state l tid s c w r c' w' :
  for_each l apply_update c w = (r, c', w') -> in_state tid s (ctl_tasks c) -> in_state tid s (ctl_tasks c').
Proof.
  revert c w. induction l as [|u l IH]; intros c w; cbn [for_each]; [by munfold; intros; simplify_eq|].
  intros H Hs. apply bind_cases in H as (r1 & c1 & w1 & H1 & H). pose proof (apply_update_state _ _ _ _ _ _ _ _ H1 Hs) as Hs1.
  destruct r1; [by eapply IH|by destruct H as (_ & -> & _)].
Qed.

Section Outcome.
Context (to_vec : Value -> option string) (from_slice : string -> option Value).
Context (sha256_hex : string -> string) (torn : string -> string) (store : JsonStore).
Context (to_string : Value -> string) (f64_text : spec_float -> string).
#[local] Abbreviation persist := (persist to_vec sha256_hex torn store).
#[local] Abbreviation invoke_prepare :=
  (invoke_prepare to_vec from_slice sha256_hex torn store to_string f64_text).
#[local] Abbreviation invoke_finish :=
  (invoke_finish to_vec sha256_hex torn store to_string f64_text).

Lemma persist_task_state tid s c w r c' w' :
  persist c w = (r, c', w') -> in_state tid s (ctl_tasks c) -> in_state tid s (ctl_tasks c').
Proof.
  intros H Hs. unfold Controller.persist in H. apply bind_cases in H as (r1 & c1 & w1 & H1 & H).
  unfold get in H1. simplify_eq. apply bind_cases in H as (r2 & c2 & w2 & H2 & H).
  assert (ctl_tasks c2 = ctl_tasks c1) as E2.
  { unfold zoom in H2. destruct (externalize_task_payloads _ _ _ _ _ _ _) as [[r3 d] w3]. by simplify_eq. }
  rewrite <- E2 in Hs. destruct r2 as [ext|]; [|by destruct H as (_ & -> & _)].
  apply bind_cases in H as (r3 & c3 & w3 & H3 & H). unfold save_state in H3. munfold.
  destruct (peek (w_io w2)); simplify_eq; [|by destruct H as (_ & -> & _)].
  eapply apply_updates_state; [exact H|]. exact Hs.
Qed.

(** A running task can be moved to a final state. *)
Lemma transition_running tid s o f t w :
  in_state tid Running t -> transition_allowed Running s = true ->
  exists x t' w', transition tid s o f t w = (Ok x, t', w') /\ in_state tid s t' /\ task_state x = s.
Proof.
  intros (x & Hx & Hs) Ha. unfold transition, push_event, store_task. munfold. rewrite Hx. rewrite Hs, Ha. cbn.
  eexists _, _, _. split_and!; [done| |done]. eexists. cbn. rewrite lookup_insert_eq. done.
Qed.

Lemma task_op_running tid s o f c w :
  in_state tid Running (ctl_tasks c) -> transition_allowed Running s = true ->
  exists x c' w', task_op (transition tid s o f) c w = (Ok x, c', w') /\ in_state tid s (ctl_tasks c') /\ task_state x = s.
Proof.
  intros Hr Ha. destruct (transition_running tid s o f (ctl_tasks c) w Hr Ha) as (x & t' & w' & E & Hs & Hx).
  eexists x, _, w'. unfold task_op, with_err, zoom. rewrite E. by split_and!.
Qed.

Definition finished (tid : string) (t : TaskTable) : Prop :=
  exists s, in_state tid s t /\ terminal s = true.

Lemma fail_task_finishes {A} task failure error c w (r : result RpcError A) c' w' :
  in_state (task_id task) Running (ctl_tasks c) ->
  fail_task to_vec sha256_hex torn store task failure error c w = (r, c', w') ->
  (exists e, r = Err e) /\ finished (task_id task) (ctl_tasks c').
Proof.
  intros Hr H. unfold fail_task in H.
  destruct (task_op_running _ Failed None (Some failure) c w Hr eq_refl) as (x & c1 & w1 & E & Hs & _).
  unfold bind at 1, attempt in H. rewrite E in H. apply bind_cases in H as (r2 & c2 & w2 & H2 & H).
  apply (persist_task_state _ _ _ _ _ _ _ H2) in Hs.
  assert (finished (task_id task) (ctl_tasks c2)) by (by exists Failed).
  destruct r2 as [u|e].
  - unfold fail in H. simplify_eq. split; [by eexists|done].
  - destruct H as (-> & -> & ->). split; [by eexists|done].
Qed.

(** What the caller is told, and what is recorded. *)
Definition outcome_recorded (tid : string) (contract : CapabilityDescriptor)
    (r : result RpcError (option (Task * Value))) (c' : Controller) : Prop :=
  match r with
  | Ok None => True
  | Ok (Some (task', result)) =>
      task_state task' = Succeeded /\ conforms (cap_output_schema contract) result /\
      in_state tid Succeeded (ctl_tasks c') /\
      exists t, t ∈ st_tasks (ctl_durable c') /\ task_id t = tid /\ task_state t = Succeeded
  | Err _ => finished tid (ctl_tasks c')
  end.

Lemma fail_task_recorded contract task failure error c w r c' w' :
  in_state (task_id task) Running (ctl_tasks c) ->
  fail_task to_vec sha256_hex torn store task failure error c w = (r, c', w') ->
  outcome_recorded (task_id task) contract r c'.
Proof. intros Hr H. destruct (fail_task_finishes _ _ _ _ _ _ _ _ Hr H) as [[e ->] Hf]. done. Qed.

(** The successful end: the task succeeds, the result is recorded and committed. *)
Lemma succeed_recorded capability session executor_id task contract input result c w r c' w' :
  in_state (task_id task) Running (ctl_tasks c) ->
  (forall t, tasks (ctl_tasks c) !! task_id task = Some t -> task_id t = task_id task) ->
  conforms (cap_output_schema contract) result ->
  bind (task_op (transition (task_id task) Succeeded (Some (retained_task_output capability result)) None)) (fun t =>
    bind (record_result capability session executor_id t input result) (fun _ =>
    bind persist (fun _ => ret (Some (t, result))))) c w = (r, c', w') ->
  outcome_recorded (task_id task) contract r c'.
Proof.
  intros Hr Hkey Hc H.
  destruct (task_op_running _ Succeeded (Some (retained_task_output capability result)) None c w Hr eq_refl)
    as (x & c1 & w1 & E & Hs & Hx). unfold bind at 1 in H. rewrite E in H.
  assert (exists y, tasks (ctl_tasks c1) !! task_id task = Some y /\ task_mark y = (task_id task, Succeeded)) as Hm1.
  { destruct Hs as (y & Hy & Hys). exists y. split; [done|]. unfold task_mark. rewrite Hys. f_equal.
    unfold task_op, with_err, zoom in E. destruct (transition _ _ _ _ _ _) as [[[z|e] t'] w2] eqn:Et; cbn in E; [|done].
    simplify_eq. apply transition_stores in Et as (Hg & _ & z0 & Hz0 & Hid & _). unfold get_task in Hg. cbn in Hy.
    rewrite Hg in Hy. simplify_eq. rewrite Hid. by apply Hkey. }
  apply bind_cases in H as (r2 & c2 & w2 & H2 & H).
  assert (frame ctl_tasks (record_result capability session executor_id x input result)) as Hf
    by (unfold record_result, on_state; frame).
  rewrite <- (Hf _ _ _ _ _ H2) in Hs, Hm1.
  destruct r2 as [u|e]; [|destruct H as (-> & -> & ->); by exists Succeeded].
  apply bind_cases in H as (r3 & c3 & w3 & H3 & H). pose proof (persist_task_state _ _ _ _ _ _ _ H3 Hs) as Hs3.
  destruct r3 as [u3|e]; [|destruct H as (-> & -> & ->); by exists Succeeded].
  unfold ret in H. simplify_eq. split_and!; [done..|].
  apply persist_durable in H3 as (ts & -> & Hts). cbn. destruct Hm1 as (y & Hy & Hmy).
  assert (task_mark y ∈ map task_mark (Tasks.snapshot (ctl_tasks c2))) as Hin.
  { apply list_elem_of_fmap. exists y. split; [done|]. unfold Tasks.snapshot. apply elem_of_btree_values. by exists (task_id task). }
  rewrite <- Hts, Hmy in Hin. apply list_elem_of_fmap in Hin as (t & Ht & Hin). injection Ht as Hid Hst. by exists t.
Qed.

(** C21: whatever the executor answers, an invocation that returns leaves its task in a final state; it
    reports success only for a result that conforms to the contract, and then the state file holds the
    task as succeeded. *)
Theorem invocation_outcome_is_recorded polls fuel capability session executor_id task contract input response c w r c' w' :
  in_state (task_id task) Running (ctl_tasks c) ->
  (forall t, tasks (ctl_tasks c) !! task_id task = Some t -> task_id t = task_id task) ->
  invoke_finish polls fuel capability session executor_id task contract input response c w = (r, c', w') ->
  outcome_recorded (task_id task) contract r c'.
Proof.
  intros Hr Hkey H. unfold CapabilityInvoke.invoke_finish in H. destruct response as [resp|err]; [|by eapply fail_task_recorded].
  destruct (resp_ok resp); cbn [negb] in H; [|by eapply fail_task_recorded].
  apply bind_cases in H as (r1 & c1 & w1 & H1 & H).
  assert (match r1 with Ok _ => ctl_tasks c1 = ctl_tasks c | Err e => outcome_recorded (task_id task) contract (Err e) c1 end) as E1.
  { destruct (_ && _); [|unfold ret in H1; by simplify_eq]. apply bind_cases in H1 as (r2 & c2 & w2 & H2 & H1).
    assert (ctl_tasks c2 = ctl_tasks c) as E2.
    { assert (frame (E := RpcError) ctl_tasks (attempt (wait_for_process_readiness polls fuel input (default VNull (resp_result resp))))) as Hf.
      { unfold wait_for_process_readiness. frame; apply frame_wait. }
      by eapply Hf. }
    destruct r2 as [[ready|e]|e]; [unfold ret in H1; by simplify_eq| |].
    - rewrite <- E2 in Hr. eapply fail_task_finishes in H1 as [[e' ->] Hf]; done.
    - unfold attempt in H2. destruct (wait_for_process_readiness _ _ _ _ _ _) as [[? ?] ?]. done. }
  destruct r1 as [ready|e]; [|destruct H as (-> & -> & ->); done]. rewrite <- E1 in Hr, Hkey.
  destruct ready as [result|]; [|unfold ret in H; by simplify_eq].
  destruct (validate_schema _ _ _ _ _) as [[]|e] eqn:Hv; [|by eapply fail_task_recorded].
  apply validate_schema_ok in Hv. by eapply succeed_recorded.
Qed.

(** a capability that needs no approval is dispatched before its task is in the state file. *)
Theorem dispatch_precedes_commit params trace c w task executor contract input' c' w' :
  invoke_prepare params trace c w = (Ok (Dispatch task executor contract input'), c', w') ->
  needs_approval (cap_name contract) (default (VObject []) (vget "input" params)) = false ->
  ctl_durable c' = ctl_durable c.
Proof.
  intros H Hn. unfold CapabilityInvoke.invoke_prepare in H.
  mlift H executor_id He. mlift H capability Hc. mlift H session Hs.
  mstep H c0 c1 w1 H1. unfold get in H1. simplify_eq. mlift H a Ha.
  destruct (negb _); [done|]. mlift H owner Ho. mlift H key Hk. mlift H exr Hex. mlift H k Hkk. apply ok_or_ok in Hkk.
  mstep H u c1 w2 H1. mlift H uu Hsch. mstep H input1 c2 w3 H2. mstep H admitted c3 w4 H3.
  destruct admitted as [t1|t1]; [done|]. mstep H t2 c4 w5 H4. mstep H input2 c5 w6 H5.
  unfold ret in H. injection H as -> -> -> -> -> ->.
  assert (cap_name contract = capability) as Hname by (apply find_some in Hkk as [_ Hkk]; by bool_prop).
  rewrite Hname in Hn. unfold needs_approval in Hn. rewrite Hn in H2.
  assert (frame ctl_durable (task_op (transition (task_id t1) Running None None))) as F4 by (by apply task_op_frame).
  pose proof (admit_frame from_slice sha256_hex store ctl_durable session executor_id capability key input1 trace
    (retry_max_attempts (cap_retry contract)) (fun _ _ => eq_refl) (fun _ _ => eq_refl)) as F3.
  assert (ctl_durable c' = ctl_durable c4) as ->.
  { destruct (read_only contract); [unfold ret in H5|unfold lift in H5]; by simplify_eq. }
  rewrite (F4 _ _ _ _ _ H4), (F3 _ _ _ _ _ H3). unfold ret in H2. simplify_eq.
  destruct (read_only contract); [unfold ret in H1; by simplify_eq|].
  assert (frame ctl_durable (let* token := lift (required_str params "driverToken") in
     let* _ := on_leases (validate ("workspace:" +:+ session) owner token) in ret tt)%fabric) as F1
    by (unfold on_leases; frame).
  by eapply F1.
Qed.

(** waiting for the readiness of a process ends: when the clock has passed the deadline at the
    reading that follows [fuel] polls, the loop has ended after at most [fuel] polls. *)
Theorem readiness_wait_ends polls fuel n process_id deadline result c w :
  deadline <= o_at (w_instant w) (o_next (w_instant w) + fuel) ->
  (wait_loop polls fuel n process_id deadline result c w).1.1 <> Ok None.
Proof.
  revert n result w. induction fuel as [|fuel IH]; intros n result w Hd; cbn [wait_loop];
    destruct (bool_decide _); try done; destruct (_ || _); try done; unfold bind, instant_now, peek.
  - rewrite Nat.add_0_r in Hd. by rewrite (proj2 (Z.leb_le _ _) Hd).
  - destruct (deadline <=? _); [done|]. destruct (polls n) as [polled|e]; [|done].
    destruct (resp_ok polled); [|done]. apply IH. cbn. by rewrite Nat.add_succ_r in Hd.
Qed.

End Outcome.

(** ** Runs *)

Definition show (_ : Value) : string := "".
Definition show_f64 (_ : spec_float) : string := "".
#[local] Abbreviation prepare := (invoke_prepare text value_of hex cut state_store show show_f64).
#[local] Abbreviation finish := (invoke_finish text hex cut state_store show show_f64).
#[local] Abbreviation reopen x c := (open_with_id text value_of hex cut state_store (Some x) (mkBoot (ctl_durable c) (ctl_payloads c))).

Definition object_schema : Value := obj_of [("type", VString "object")].
Definition contract_of (name : string) (effect : Effect) : CapabilityDescriptor :=
  mkCapabilityDescriptor name "v1" object_schema object_schema [] [] (mkIdempotencyContract [] 1000) 1000
    RetryPolicy_default RollbackNone HealthCheckNone [] effect.
Definition executor_m : Executor :=
  mkExecutor API_VERSION (mkMetadata "mac" ∅ 0 0) (EndpointLocal "e.sock")
    [contract_of "fs.write" Mutating; contract_of "command.run" Mutating] [] HReady.

(** The driver of the session is "agent", with a lease that lasts. *)
Definition driver_lease : Lease :=
  mkLease "lease_1" Driver "workspace:s" "agent" "token_1" 1 0 0 1000000 None.
(** The command [rm], approved for "agent". *)
Definition rm_input : Value := obj_of [("argv", VArray [VString "/bin/rm"; VString "x"]); ("cwd", VString "/tmp")].
Definition rm_approval : Approval :=
  mkApproval "approval_1" "sha256:00" "agent" "cleanup" AApproved 0 (Some 0) None (Some 1000000).
Definition state_i : FabricState :=
  mkFabricState (Some "A") [session_s] [executor_m] [] [driver_lease] {["workspace:s" := 1]} [] [] [] [] [] [] [rm_approval].
Definition ctl_i : Controller :=
  mkController "A" state_i (from_snapshot [driver_lease] {["workspace:s" := 1]}) TaskTable_default empty_disk state_i.

Definition request (capability : string) (input : Value) : Value :=
  obj_of [("executorId", VString "mac"); ("capability", VString capability); ("workspaceSessionId", VString "s");
          ("owner", VString "agent"); ("driverToken", VString "token_1"); ("idempotencyKey", VString "k");
          ("approvalId", VString "approval_1"); ("input", input)].
Definition write_request : Value := request "fs.write" (obj_of [("path", VString "f")]).
Definition rm_request : Value := request "command.run" rm_input.

Definition dispatched {S} (run : result RpcError Invocation * S * World) : option (Task * Executor * CapabilityDescriptor * Value) :=
  match run.1.1 with Ok (Dispatch t e k i) => Some (t, e, k, i) | _ => None end.

Definition rm_run := Eval vm_compute in prepare rm_request (None, None) ctl_i (sample_world 10).
Definition rm_dispatch := Eval vm_compute in dispatched rm_run.
Definition write_run := Eval vm_compute in prepare write_request (None, None) ctl_i (sample_world 10).
Definition write_dispatch := Eval vm_compute in dispatched write_run.
Definition write_task : Task := Eval vm_compute in
  match write_dispatch with Some (t, _, _, _) => t | None => task_1 end.

(** A command that needs an approval. *)
Lemma dispatch_is_checked_witness :
  match rm_dispatch with
  | Some (t, e, k, i) =>
      needs_approval (cap_name k) rm_input = true /\
      exists session owner, authorized rm_request ctl_i (wall (sample_world 10)) session owner rm_input e k /\
        (needs_approval (cap_name k) rm_input = true ->
         approval_spent text hex rm_request rm_input owner (wall (driver_checked k (sample_world 10))) ctl_i (after rm_run)) /\
        (exists id, get_task (ctl_tasks (after rm_run)) id = Some t) /\ task_state t = Running
  | None => False
  end.
Proof.
  cbv beta iota delta [rm_dispatch]. split; [reflexivity|].
  exact (dispatch_is_checked text value_of hex cut state_store show show_f64 rm_request (None, None) ctl_i
           (sample_world 10) _ _ _ _ (after rm_run) rm_run.2 ltac:(vm_compute; reflexivity)).
Defined.

(** The command is dispatched, the controller restarts, and the request comes again. *)
Definition restarted := Eval vm_compute in reopen "A" (after rm_run) (sample_world 50).
Definition ctl_r : Controller := Eval vm_compute in match restarted.1.1 with Ok c => c | Err _ => ctl_i end.
Definition again := Eval vm_compute in prepare rm_request (None, None) ctl_r (sample_world 60).

Example second_use_is_refused :
  match again.1.1 with Err e => err_code e = "APPROVAL_INVALID" | Ok _ => False end.
Proof. reflexivity. Qed.

#[local] Abbreviation use := (use_step text value_of hex cut state_store show show_f64).

Lemma first_use : use (ctl_i, []) (after rm_run, ["approval_1"]).
Proof.
  assert (used rm_request rm_run.1.1 ++ [] = ["approval_1"]) as <- by (vm_compute; reflexivity).
  apply (us_prepare _ _ _ _ _ _ _ rm_request (None, None) ctl_i [] (sample_world 10) rm_run.1.1 (after rm_run) rm_run.2).
  vm_compute. reflexivity.
Qed.

Lemma restart_use : use (after rm_run, ["approval_1"]) (ctl_r, ["approval_1"]).
Proof.
  apply (us_restart _ _ _ _ _ _ _ (Some "A") (after rm_run) ["approval_1"] (sample_world 50) ctl_r restarted.1.2 restarted.2);
    vm_compute; reflexivity.
Qed.

Lemma second_use : use (ctl_r, ["approval_1"]) (after again, ["approval_1"]).
Proof.
  pose proof (us_prepare text value_of hex cut state_store show show_f64 rm_request (None, None) ctl_r ["approval_1"]
    (sample_world 60) again.1.1 (after again) again.2) as H.
  assert (used rm_request again.1.1 ++ ["approval_1"] = ["approval_1"]) as E by (vm_compute; reflexivity).
  rewrite E in H. apply H. vm_compute. reflexivity.
Qed.

Lemma use_run : rtc use (ctl_i, []) (after again, ["approval_1"]).
Proof.
  eapply rtc_l; [exact first_use|]. eapply rtc_l; [exact restart_use|]. apply rtc_once. exact second_use.
Qed.

Lemma approvals_authorize_once_witness : rtc use (ctl_i, []) (after again, ["approval_1"]) /\ NoDup ["approval_1"].
Proof.
  split; [exact use_run|].
  exact (approvals_authorize_once text value_of hex cut state_store show show_f64 ctl_i (after again) ["approval_1"] use_run).
Defined.

Definition no_polls (_ : nat) : result string Response := Err "".
Definition finish_run := Eval vm_compute in
  finish no_polls 0 "fs.write" "s" "mac" write_task (contract_of "fs.write" Mutating) VNull
    (Ok (response_success "r" (VObject []))) (after write_run) (sample_world 20).

Lemma invocation_outcome_is_recorded_witness :
  is_ok finish_run.1.1 = true /\
  outcome_recorded (task_id write_task) (contract_of "fs.write" Mutating) finish_run.1.1 (after finish_run).
Proof.
  split; [reflexivity|].
  apply (invocation_outcome_is_recorded text hex cut state_store show show_f64 no_polls 0 "fs.write" "s" "mac" write_task
           (contract_of "fs.write" Mutating) VNull (Ok (response_success "r" (VObject []))) (after write_run)
           (sample_world 20) finish_run.1.1 (after finish_run) finish_run.2).
  - exists write_task. split; reflexivity.
  - intros t Ht. vm_compute in Ht. injection Ht as <-. reflexivity.
  - vm_compute. reflexivity.
Defined.

Lemma dispatch_precedes_commit_witness :
  match write_dispatch with
  | Some (t, e, k, i) => ctl_durable (after write_run) = ctl_durable ctl_i /\ st_tasks (ctl_durable ctl_i) = []
  | None => False
  end.
Proof.
  cbv beta iota delta [write_dispatch]. split; [|reflexivity].
  refine (dispatch_precedes_commit text value_of hex cut state_store show show_f64 write_request (None, None) ctl_i
           (sample_world 10) _ _ _ _ (after write_run) write_run.2 ltac:(vm_compute; reflexivity) _).
  vm_compute. reflexivity.
Defined.

Lemma readiness_wait_ends_witness :
  let ready := obj_of [("state", VString "running")] in
  let poll (_ : nat) : result string Response := Ok (response_success "r" ready) in
  20 <= o_at (w_instant (sample_world 10)) (o_next (w_instant (sample_world 10)) + 10) /\
  (wait_loop poll 10 0 "p" 20 ready ctl_i (sample_world 10)).1.1 <> Ok None.
Proof.
  intros ready poll. split; [vm_compute; discriminate|].
  apply (readiness_wait_ends poll 10 0 "p" 20 ready ctl_i (sample_world 10)). vm_compute. discriminate.
Defined.

(** a controller that crashes while the executor works has no task of the invocation after its
    restart: the same request, with the same idempotency key, is dispatched a second time. *)
Theorem interrupted_invocation_runs_again :
  exists t e k i c1 w1 c2 b w2 t' e' k' i' c3 w3,
    prepare write_request (None, None) ctl_i (sample_world 10) = (Ok (Dispatch t e k i), c1, w1) /\
    cap_effect k = Mutating /\
    reopen "A" c1 (sample_world 50) = (Ok c2, b, w2) /\
    tasks (ctl_tasks c2) = ∅ /\
    prepare write_request (None, None) c2 (sample_world 60) = (Ok (Dispatch t' e' k' i'), c3, w3) /\
    i' = i /\ task_scope t' = task_scope t.
Proof.
  do 15 eexists. split_and!; [vm_compute; reflexivity|reflexivity|vm_compute; reflexivity|reflexivity|vm_compute; reflexivity|reflexivity|reflexivity].
Qed.
