(* ===== verification/DataPack.v ===== *)
(** * The Chromium DataPack codec ([crates/machine-fabric-runtime/src/datapack.rs])

    A pack is a header, an index of offsets, a JSON manifest that names the
    resources, and their contents. It is built from directories of resources, or
    from an earlier pack for the resources that did not change. [serde_json] and
    SHA-256 are parameters. An open file is its place; the recursion over a
    directory is bounded by the depth of the tree. *)
From Stdlib Require Import Ascii.
From stdpp Require Import base gmap strings list sorting pretty.
From S2P Require Import Prelude Json Protocol PathPolicy FileTree Generations Controller TreeDigest ArtifactRelay.
Open Scope Z_scope.
Open Scope fabric_scope.

Record DataPackResourceTree := mkDataPackResourceTree {
  root_relative : Path;
  tree_prefix : string;
  exclude_source_maps : bool;
  exclude_root_files : list string;
}.

(** ** Little-endian integers *)

Definition byte_of (n : Z) : ascii := ascii_of_N (Z.to_N (n mod 256)).
Definition le16 (n : Z) : string := String (byte_of n) (String (byte_of (Z.shiftr n 8)) "").
Definition le32 (n : Z) : string := le16 n +:+ le16 (Z.shiftr n 16).

Definition byte_at (s : string) (i : nat) : Z :=
  match String.get i s with Some c => Z.of_N (N_of_ascii c) | None => 0 end.
Definition le16_at (s : string) (i : nat) : Z := byte_at s i + 256 * byte_at s (S i).
Definition le32_at (s : string) (i : nat) : Z := le16_at s i + 65536 * le16_at s (S (S i)).

Definition u64_sub (a b : Z) : Z := (a - b) mod (U64_MAX + 1).
Definition U16_MAX : Z := 65535.

(** ** Open files *)

Definition file_data (t : Tree) (q : place) : result IoKind string :=
  match t !! q with Some (EFile _ data) => Ok data | _ => Err OtherError end.

(** [File::open], [Seek::seek], [Read::read_exact], [File::metadata] and [File::sync_all] *)
Definition open_read (p : Path) : M Volume IoKind place :=
  ask (fun t => bind_result (entry t true p) (fun qe => Ok qe.1)).
Definition seek (offset : Z) : M Volume IoKind unit :=
  ask (fun _ => if I64_MAX <? offset then Err OtherError else Ok tt).
Definition read_exact (q : place) (offset count : Z) : M Volume IoKind string :=
  ask (fun t => bind_result (file_data t q) (fun data =>
    if offset + count <=? str_len data then Ok (String.substring (Z.to_nat offset) (Z.to_nat count) data)
    else Err OtherError)).
Definition handle_len (q : place) : M Volume IoKind Z :=
  ask (fun t => bind_result (file_data t q) (fun data => Ok (str_len data))).
Definition sync_handle : M Volume IoKind unit := ask (fun _ => Ok tt).

(** A file read from [offset] on, up to [length] bytes *)
Definition read_range (q : place) (offset length : Z) : M Volume IoKind string :=
  ask (fun t => bind_result (file_data t q) (fun data =>
    Ok (if str_len data <=? offset then ""
        else String.substring (Z.to_nat offset) (Z.to_nat (Z.min length (str_len data))) data))).

(** ** Reading a pack *)

(** [path_matches_prefix] *)
Definition path_matches_prefix (path : string) (prefixes : list string) : bool :=
  existsb (fun prefix => String.eqb path prefix
                         || match strip_prefix prefix path with
                            | Some rest => starts_with "/" rest
                            | None => false
                            end) prefixes.

Definition invalid_base (message : string) : RpcError := rpc_error "BASE_DATAPACK_INVALID" message.

(** The offsets of the index, and whether one follows a smaller one throughout *)
Definition index_offsets (index : string) (count : nat) : list Z :=
  (fun position => le32_at index (position * 6 + 2)) <$> seq 0 (S count).
Fixpoint monotonic (offsets : list Z) : bool :=
  match offsets with
  | a :: ((b :: _) as rest) => (a <=? b) && monotonic rest
  | _ => true
  end.

(** The loop over the entries of the manifest *)
Fixpoint index_entries (offsets : list Z) (position : nat) (entries : list Value) (found : gmap string (Z * Z))
    : result RpcError (gmap string (Z * Z)) :=
  match entries with
  | [] => Ok found
  | entry :: entries' =>
      bind_result (ok_or (vget "path" entry ≫= as_str) (invalid_base "base pak entry has no path")) (fun name =>
      bind_result (ok_or (offsets !! (position + 1)%nat) thread_panic) (fun start =>
      bind_result (ok_or (offsets !! (position + 2)%nat) thread_panic) (fun next =>
      index_entries offsets (S position) entries' (<[name := (start, u64_sub next start)]> found))))
  end.

Section DataPack.
Context (to_vec : Value -> string) (from_slice : string -> option Value).
Context (sha256_hex : string -> string) (torn : string -> string) (pid : Z).

(** What the manifest says about the entries *)
Definition manifest_entries (offsets : list Z) (count : nat) (manifest : string)
    : result RpcError (gmap string (Z * Z)) :=
  bind_result (ok_or (from_slice manifest) (invalid_base "")) (fun manifest =>
  bind_result (ok_or (vget "entries" manifest ≫= as_array) (invalid_base "base pak manifest has no entries")) (fun entries =>
  if negb (Nat.eqb (length entries + 1) count)
  then Err (invalid_base "base pak manifest/index entry counts differ")
  else index_entries offsets 0 entries ∅)).

(** [parse_datapack_entries] *)
Definition parse_datapack_entries (path : Path) : M Volume RpcError (gmap string (Z * Z)) :=
  let* source := io_error "BASE_DATAPACK_INVALID" path (open_read path) in
  let* header := io_error "BASE_DATAPACK_INVALID" path (read_exact source 0 12) in
  if negb (le32_at header 0 =? 5) then fail (invalid_base "base pak is not DataPack version 5")
  else
    let count := Z.to_nat (le16_at header 8) in
    if Nat.ltb count 1 then fail (invalid_base "base pak has no manifest entry")
    else
      let* index := io_error "BASE_DATAPACK_INVALID" path
                      (read_exact source 12 (Z.of_nat (count + 1) * 6)) in
      let offsets := index_offsets index count in
      if negb (monotonic offsets) then fail (invalid_base "base pak offsets are not monotonic")
      else
        let* file_size := io_error "BASE_DATAPACK_INVALID" path (handle_len source) in
        if file_size <? default 0 (last offsets) then fail (invalid_base "base pak offsets exceed file size")
        else
          let* first := lift (ok_or (offsets !! 0%nat) thread_panic) in
          let* second := lift (ok_or (offsets !! 1%nat) thread_panic) in
          io_error "BASE_DATAPACK_INVALID" path (seek first) ;;
          let* manifest := io_error "BASE_DATAPACK_INVALID" path
                             (read_exact source first (u64_sub second first)) in
          lift (manifest_entries offsets count manifest).

(** [hash_file_range_into] and [hash_file_into]: the bytes that go into the digest *)
Definition hash_file_range_into (path : Path) (offset length : Z) : M Volume RpcError string :=
  let* source := io_error "BASE_DATAPACK_INVALID" path (open_read path) in
  io_error "BASE_DATAPACK_INVALID" path (seek offset) ;;
  let* copied := io_error "BASE_DATAPACK_INVALID" path (read_range source offset length) in
  if str_len copied =? length then ret copied
  else fail (invalid_base "base pak entry is truncated").

Definition hash_file_into (path : Path) : M Volume RpcError string :=
  io_error "DATAPACK_READ_FAILED" path (Fs.read path).

(** ** Collecting the resources *)

Fixpoint slashes (s : string) : string :=
  match s with
  | EmptyString => ""
  | String c s' => String (if Ascii.eqb c "\"%char then "/"%char else c) (slashes s')
  end.
Fixpoint has_suffix (suffix s : string) : bool :=
  String.eqb suffix s || match s with EmptyString => false | String _ s' => has_suffix suffix s' end.

Definition excluded (tree : DataPackResourceTree) (relative : string) : bool :=
  (negb (str_contains "/" relative) && existsb (String.eqb relative) (exclude_root_files tree))
  || (exclude_source_maps tree && has_suffix ".map" relative).
Definition packed_path (tree : DataPackResourceTree) (relative : string) : string :=
  if str_is_empty (tree_prefix tree) then relative else tree_prefix tree +:+ "/" +:+ relative.

(** [collect_pack_tree] in the directory [root.join(relative)] *)
Fixpoint collect_pack_tree (fuel : nat) (root : Path) (tree : DataPackResourceTree) (relative : place)
    : M Volume RpcError (list (string * Path)) :=
  match fuel with
  | O => fail out_of_fuel
  | S fuel' =>
      let current := join root relative in
      let* names := io_error "DATAPACK_READ_FAILED" current (Fs.read_dir current) in
      let* parts :=
        map_m (fun name =>
          let path := join root (relative ++ [name]) in
          let* resolved := io_error "DATAPACK_READ_FAILED" path (Fs.canonicalize path) in
          let* canonical_root := io_error "DATAPACK_READ_FAILED" root (Fs.canonicalize root) in
          let* linked := if within resolved canonical_root
                         then let* kind := io_error "DATAPACK_READ_FAILED" path (Fs.symlink_metadata path) in
                              ret (entry_is_link kind)
                         else ret true in
          if linked : bool
          then fail (rpc_error "DATAPACK_PATH_INVALID" "resource trees must not contain symbolic links")
          else
            let* metadata := io_error "DATAPACK_READ_FAILED" path (Fs.symlink_metadata path) in
            if entry_is_dir metadata then collect_pack_tree fuel' root tree (relative ++ [name])
            else if entry_is_file metadata then
              let text := slashes (relative_text (relative ++ [name])) in
              ret (if excluded tree text then [] else [(packed_path tree text, path)])
            else ret []) (merge_sort String.le names) in
      ret (concat parts)
  end.

(** [validate_relative] of [datapack.rs]: unlike that of [generation.rs] it takes the empty path. *)
Definition pack_relative (p : Path) : result RpcError unit :=
  if p_absolute p || negb (forallb is_normal (p_components p))
  then Err (rpc_error "INVALID_OVERLAY_PATH" ("overlay target must be a safe relative path: " +:+ display p))
  else Ok tt.

Definition unsafe_prefix (prefix : string) : bool :=
  negb (str_is_empty prefix)
  && (starts_with "/" prefix || str_contains "\" prefix
      || existsb (fun part => str_is_empty part || String.eqb part "." || String.eqb part "..")
           (split_at "/"%char prefix)).

(** The resources of one tree *)
Definition tree_resources (fuel : nat) (root_path : Path) (tree : DataPackResourceTree)
    : M Volume RpcError (list (string * Path)) :=
  let* _ := lift (pack_relative (root_relative tree)) in
  if unsafe_prefix (tree_prefix tree)
  then fail (rpc_error "DATAPACK_PREFIX_INVALID"
               ("DataPack prefix is not a safe resource path: " +:+ tree_prefix tree))
  else
    let tree_root := join_path root_path (root_relative tree) in
    let* present := Fs.test (Fs.metadata tree_root) entry_is_dir in
    if negb present
    then fail (rpc_error "DATAPACK_INPUT_MISSING" ("DataPack resource root is missing: " +:+ display tree_root))
    else collect_pack_tree fuel tree_root tree [].

(** The first path that comes twice in a sorted list *)
Fixpoint duplicate_path (resources : list (string * Path)) : option string :=
  match resources with
  | a :: ((b :: _) as rest) => if String.eqb a.1 b.1 then Some a.1 else duplicate_path rest
  | _ => None
  end.

(** All resources, in the order of their paths *)
Definition gather_resources (fuel : nat) (root_path : Path) (resource_trees : list DataPackResourceTree)
    : M Volume RpcError (list (string * Path)) :=
  let* parts := map_m (tree_resources fuel root_path) resource_trees in
  let resources := merge_sort key_le (concat parts) in
  match duplicate_path resources with
  | Some path => fail (rpc_error "DATAPACK_DUPLICATE_PATH" ("duplicate packed resource path: " +:+ path))
  | None =>
      match resources with
      | [] => fail (rpc_error "DATAPACK_EMPTY" "no resource resources to pack")
      | _ => ret resources
      end
  end.

(** ** The base pack *)

Record BasePack := mkBasePack { base_path : Path; base_index : gmap string (Z * Z) }.

Definition base_entries (base_pack_path : option Path) (base_pack_digest : option string)
    : M Volume RpcError (option BasePack) :=
  match base_pack_path with
  | None => ret None
  | Some path =>
      let* expected := lift (ok_or base_pack_digest
                               (rpc_error "BASE_DATAPACK_DIGEST_REQUIRED"
                                  "incremental DataPack requires the base pak digest")) in
      let* bytes := hash_file_into path in
      let actual := "sha256:" +:+ sha256_hex bytes in
      if negb (String.eqb actual expected)
      then fail (rpc_error "BASE_DATAPACK_DRIFT"
                   ("base DataPack digest changed: expected " +:+ expected +:+ ", got " +:+ actual))
      else
        let* entries := parse_datapack_entries path in
        ret (Some (mkBasePack path entries))
  end.

(** Where the content of a resource comes from: the base pack when there is one and the resource did
    not change. *)
Definition from_base (base : option BasePack) (changed : list string) (relative : string) : option BasePack :=
  match base with
  | Some b => if path_matches_prefix relative changed then None else Some b
  | None => None
  end.

Definition base_range (b : BasePack) (relative : string) : result RpcError (Z * Z) :=
  ok_or (base_index b !! relative)
    (rpc_error "BASE_DATAPACK_ENTRY_MISSING" ("unchanged entry is absent from base pak: " +:+ relative)).

(** The loop that computes the content hash: the text that is hashed *)
Fixpoint content_text (base : option BasePack) (changed : list string) (resources : list (string * Path)) (text : string)
    : M Volume RpcError string :=
  match resources with
  | [] => ret text
  | (relative, path) :: resources' =>
      let* bytes :=
        match from_base base changed relative with
        | Some b =>
            let* range := lift (base_range b relative) in
            hash_file_range_into (base_path b) range.1 range.2
        | None => hash_file_into path
        end in
      content_text base changed resources' (text +:+ relative +:+ String NUL "" +:+ bytes)
  end.

(** The manifest *)
Definition pack_manifest (platform arch bundle_name content_hash : string) (paths : list string) : Value :=
  obj_of [("arch", VString arch); ("bundle_name", VString bundle_name); ("code_cache", VNull);
          ("content_hash", VString content_hash);
          ("entries", VArray (imap (fun index relative =>
             obj_of [("id", vu64 (Z.of_nat index + 2)); ("path", VString relative)]) paths));
          ("platform", VString platform); ("tool_version", VString "1"); ("v8_version", VString "")].

(** The loop that computes the offsets, after those of the manifest *)
Fixpoint resource_offsets (base : option BasePack) (changed : list string) (resources : list (string * Path)) (at_end : Z)
    : M Volume RpcError (list Z) :=
  match resources with
  | [] => ret []
  | (relative, path) :: resources' =>
      let* size :=
        match from_base base changed relative with
        | Some b => let* range := lift (base_range b relative) in ret range.2
        | None =>
            let* metadata := io_error "DATAPACK_READ_FAILED" path (Fs.metadata path) in
            ret (metadata_len metadata)
        end in
      let next := u64_add at_end size in
      let* rest := resource_offsets base changed resources' next in
      ret (next :: rest)
  end.

(** ** Writing a pack *)

(** [write_all] of several pieces one after the other, from [position] on *)
Fixpoint write_pieces (temporary : Path) (target : place) (position : nat) (pieces : list string)
    : M Volume RpcError nat :=
  match pieces with
  | [] => ret position
  | piece :: pieces' =>
      io_error "DATAPACK_WRITE_FAILED" temporary (Fs.write_at torn target position piece) ;;
      write_pieces temporary target (position + String.length piece) pieces'
  end.

(** The header, the index and the manifest *)
Definition index_pieces (offsets : list Z) : list string :=
  concat (imap (fun index offset => [le16 (Z.of_nat index + 1); le32 offset]) offsets).
Definition head_pieces (resource_count : nat) (offsets : list Z) (last_offset : Z) (manifest : string) : list string :=
  [le32 5; zeros 4; le16 (Z.of_nat resource_count); le16 0]
  ++ index_pieces (take resource_count offsets)
  ++ [le16 0; le32 last_offset; manifest].

(** [copy_file_range] *)
Definition copy_file_range (path : Path) (offset length : Z) (target : place) (position : nat) : M Volume RpcError nat :=
  let* source := io_error "BASE_DATAPACK_INVALID" path (open_read path) in
  io_error "BASE_DATAPACK_INVALID" path (seek offset) ;;
  let* copied := io_error "DATAPACK_WRITE_FAILED" path (read_range source offset length) in
  io_error "DATAPACK_WRITE_FAILED" path (Fs.write_at torn target position copied) ;;
  if str_len copied =? length then ret (position + String.length copied)%nat
  else fail (invalid_base "base pak entry is truncated").

(** [io::copy] of a whole file: a file that is copied to its own end has no end. *)
Definition copy_whole (temporary path : Path) (target : place) (position : nat) : M Volume RpcError nat :=
  let* source := io_error "DATAPACK_READ_FAILED" path (open_read path) in
  if bool_decide (source = target) then fail out_of_fuel
  else
    let* bytes := io_error "DATAPACK_WRITE_FAILED" temporary (ask (fun t => file_data t source)) in
    io_error "DATAPACK_WRITE_FAILED" temporary (Fs.write_at torn target position bytes) ;;
    ret (position + String.length bytes)%nat.

(** The contents of the resources *)
Fixpoint write_resources (base : option BasePack) (changed : list string) (temporary : Path) (target : place)
    (position : nat) (resources : list (string * Path)) : M Volume RpcError unit :=
  match resources with
  | [] => ret tt
  | (relative, path) :: resources' =>
      let* next :=
        match from_base base changed relative with
        | Some b =>
            let* range := lift (ok_or (base_index b !! relative) thread_panic) in
            copy_file_range (base_path b) range.1 range.2 target position
        | None => copy_whole temporary path target position
        end in
      write_resources base changed temporary target next resources'
  end.

(** The closure that writes the temporary file and moves it into place *)
Definition write_pack (base : option BasePack) (changed : list string) (resources : list (string * Path))
    (offsets : list Z) (manifest : string) (temporary output : Path) : M Volume RpcError unit :=
  let resource_count := S (length resources) in
  let* target := io_error "DATAPACK_WRITE_FAILED" temporary (Fs.open_truncate 438 temporary) in
  let* last_offset := lift (ok_or (offsets !! resource_count) thread_panic) in
  let* position := write_pieces temporary target 0 (head_pieces resource_count offsets last_offset manifest) in
  write_resources base changed temporary target position resources ;;
  io_error "DATAPACK_WRITE_FAILED" temporary sync_handle ;;
  io_error "DATAPACK_WRITE_FAILED" output (Fs.rename temporary output).

Definition temporary_name : string := ".resources.pak." +:+ pretty pid +:+ ".tmp".

(** The offsets of the manifest, of the resources and of the end *)
Definition pack_offsets (base : option BasePack) (changed : list string) (resources : list (string * Path))
    (manifest : string) : M Volume RpcError (list Z) :=
  let resource_count := S (length resources) in
  let first := 12 + Z.of_nat ((resource_count + 1) * 6) in
  let second := u64_add first (str_len manifest) in
  let* rest := resource_offsets base changed resources second in
  let offsets := first :: second :: rest in
  if U32_MAX <? default 0 (last offsets)
  then fail (rpc_error "DATAPACK_SIZE_LIMIT"
               ("DataPack exceeds 4 GiB offset limit: " +:+ pretty (default 0 (last offsets))))
  else ret offsets.

(** [pack_chromium_datapack] *)
Definition pack_chromium_datapack (fuel : nat) (root_path : Path) (resource_trees : list DataPackResourceTree)
    (output_relative : Path) (platform arch bundle_name : string) (base_pack_path : option Path)
    (base_pack_digest : option string) (changed_prefixes : list string) : M Volume RpcError Value :=
  let* _ := lift (pack_relative output_relative) in
  let* resources := gather_resources fuel root_path resource_trees in
  let* base := base_entries base_pack_path base_pack_digest in
  if bool_decide (is_Some base) && bool_decide (changed_prefixes = [])
  then fail (rpc_error "DATAPACK_CHANGED_PREFIX_REQUIRED" "incremental DataPack requires at least one changed prefix")
  else
    let resource_count := Z.of_nat (length resources + 1) in
    if U16_MAX <? resource_count
    then fail (rpc_error "DATAPACK_RESOURCE_LIMIT" ("DataPack resource limit exceeded: " +:+ pretty resource_count))
    else
      let* text := content_text base changed_prefixes resources "" in
      let content_hash := sha256_hex text in
      let manifest := to_vec (pack_manifest platform arch bundle_name content_hash resources.*1) in
      let* offsets := pack_offsets base changed_prefixes resources manifest in
      let output := join_path root_path output_relative in
      let* parent := lift (ok_or (path_parent output)
                             (rpc_error "DATAPACK_OUTPUT_INVALID" "resource pack output has no parent")) in
      io_error "DATAPACK_WRITE_FAILED" parent (Fs.create_dir_all parent) ;;
      let temporary := join parent [temporary_name] in
      let* result := attempt (write_pack base changed_prefixes resources offsets manifest temporary output) in
      (if is_err result then let* _ := attempt (Fs.remove_file temporary) in ret tt else ret tt) ;;
      let* _ := lift result in
      let* bytes := hash_file_into output in
      let* metadata := io_error "DATAPACK_READ_FAILED" output (Fs.metadata output) in
      ret (obj_of [("output", VString (display output)); ("resources", vu64 resource_count);
                   ("entries", vu64 (Z.of_nat (length resources)));
                   ("size", vu64 (metadata_len metadata));
                   ("sha256", VString ("sha256:" +:+ sha256_hex bytes));
                   ("contentHash", VString ("sha256:" +:+ content_hash));
                   ("incremental", VBool (bool_decide (is_Some base)));
                   ("basePack", vopt (fun p => VString (display p)) base_pack_path);
                   ("changedPrefixes", VArray (VString <$> changed_prefixes))]).

End DataPack.

(** ** The request [artifact.pack-chromium-datapack] of [crates/machine-fabric-runtime/src/executor.rs] *)

(** [Path::join] with a path that may be absolute *)
Definition is_curdir (c : Component) : bool := match c with CurDir => true | _ => false end.
Definition path_join (p q : Path) : Path :=
  if p_absolute q then q
  else mkPath (p_absolute p) (p_components p ++ List.filter (fun c => negb (is_curdir c)) (p_components q)).

(** [Deserialize] of [DataPackResourceTree]: an object with the fields, or an array of them in order *)
Fixpoint all_some {A} (l : list (option A)) : option (list A) :=
  match l with
  | [] => Some []
  | o :: l' => o ≫= fun a => cons a <$> all_some l'
  end.
Definition string_list (v : Value) : option (list string) := as_array v ≫= fun l => all_some (as_str <$> l).
Definition field_or {A} (read : Value -> option A) (missing : option A) (v : option Value) : option A :=
  match v with Some x => read x | None => missing end.
Definition resource_tree_of (field : nat -> string -> option Value) : option DataPackResourceTree :=
  field_or as_str None (field 0%nat "rootRelative") ≫= fun root =>
  field_or as_str (Some "") (field 1%nat "prefix") ≫= fun prefix =>
  field_or as_bool (Some false) (field 2%nat "excludeSourceMaps") ≫= fun maps =>
  field_or string_list (Some []) (field 3%nat "excludeRootFiles") ≫= fun files =>
  Some (mkDataPackResourceTree (path_of root) prefix maps files).
Definition resource_tree_from_value (v : Value) : option DataPackResourceTree :=
  match v with
  | VObject m => resource_tree_of (fun _ key => obj_get key m)
  | VArray l => if Nat.leb (length l) 4 then resource_tree_of (fun position _ => l !! position) else None
  | _ => None
  end.
Definition resource_trees_of (params : Value) : result RpcError (list DataPackResourceTree) :=
  bind_result (ok_or (vget "resourceTrees" params) (rpc_error "INVALID_PARAMS" "resourceTrees are required")) (fun v =>
  ok_or (as_array v ≫= fun l => all_some (resource_tree_from_value <$> l)) (rpc_error "INVALID_PARAMS" "")).

Section PackAction.
Context (to_vec : Value -> string) (from_slice : string -> option Value).
Context (sha256_hex : string -> string) (torn : string -> string) (pid : Z) (fuel : nat).

Definition pack_datapack_action (rt : ExecutorRuntime) (params : Value) : M Volume RpcError Value :=
  let* root_path := read_path rt params "rootPath" true in
  let* resource_trees := lift (resource_trees_of params) in
  let* base_pack_path :=
    match vget "basePackPath" params ≫= as_str with
    | Some path => let* checked := checked_text rt path true Read in ret (Some checked)
    | None => ret None
    end in
  let* output_relative := lift (required_str params "outputRelative") in
  let* _ := checked_text rt (display (path_join root_path (path_of output_relative))) false Write in
  for_each resource_trees (fun tree =>
    let* _ := checked_text rt (display (path_join root_path (root_relative tree))) true Read in ret tt) ;;
  pack_chromium_datapack to_vec from_slice sha256_hex torn pid fuel root_path resource_trees (path_of output_relative)
    (default "win" (vget "platform" params ≫= as_str))
    (default "x64" (vget "arch" params ≫= as_str))
    (default "resources" (vget "bundleName" params ≫= as_str))
    base_pack_path (vget "basePackDigest" params ≫= as_str)
    (default [] ((fun items : list Value => omap as_str items) <$> (vget "changedPrefixes" params ≫= as_array))).

End PackAction.
