(* ===== verification/DataPackFormat.v ===== *)
(** * The bytes of a pack

    The layout of a pack as a function of its manifest and contents, and what
    reading it gives: every entry of a pack is found again at its offset with its
    length, and no file makes the reader fail other than with an error or return
    a range outside the file. *)
From Stdlib Require Import Ascii.
From stdpp Require Import base gmap strings list sorting pretty.
From S2P Require Import Prelude Json Store Protocol PathPolicy FileTree FileTreeLaws Generations Controller TreeDigest ArtifactRelay DataPack.
Open Scope Z_scope.
Open Scope fabric_scope.

(** ** Strings at a position *)

Lemma substring_skip a n k b : String.substring (String.length a + n) k (a +:+ b) = String.substring n k b.
Proof. induction a as [|c a IH]; [done|]. exact IH. Qed.
Lemma substring_middle a b c : String.substring (String.length a) (String.length b) (a +:+ b +:+ c) = b.
Proof. pose proof (substring_skip a 0 (String.length b) (b +:+ c)) as H. rewrite Nat.add_0_r in H. by rewrite H, substring_whole. Qed.
Lemma substring_length s n k : (n + k <= String.length s)%nat -> String.length (String.substring n k s) = k.
Proof.
  revert n k. induction s as [|c s IH]; intros n k H; cbn in *; [by destruct n, k; cbn in *; lia|].
  destruct n as [|n]; [destruct k as [|k]; [done|]; cbn; rewrite IH; lia|]. apply IH. lia.
Qed.
Lemma get_skip a n b : String.get (String.length a + n) (a +:+ b) = String.get n b.
Proof. induction a as [|c a IH]; [done|]. exact IH. Qed.
Lemma str_len_app a b : str_len (a +:+ b) = str_len a + str_len b.
Proof. unfold str_len. rewrite string_length_app. lia. Qed.

(** ** Little-endian integers *)

Lemma byte_at_of n s : byte_at (String (byte_of n) s) 0 = n mod 256.
Proof.
  unfold byte_at, byte_of. cbn [String.get]. rewrite N_ascii_embedding; [rewrite Z2N.id; [done|]; by apply Z.mod_pos_bound|].
  pose proof (Z.mod_pos_bound n 256). lia.
Qed.
Lemma byte_at_S c s i : byte_at (String c s) (S i) = byte_at s i.
Proof. done. Qed.
Lemma byte_at_skip a i s : byte_at (a +:+ s) (String.length a + i) = byte_at s i.
Proof. unfold byte_at. by rewrite get_skip. Qed.
Lemma byte_at_bounds s i : 0 <= byte_at s i < 256.
Proof. unfold byte_at. destruct (String.get i s) as [c|]; [|lia]. pose proof (N_ascii_bounded c). lia. Qed.
Lemma le16_at_of n s : le16_at (le16 n +:+ s) 0 = n mod 65536.
Proof.
  unfold le16_at, le16. rewrite !string_app_cons, byte_at_S, !byte_at_of, Z.shiftr_div_pow2 by lia.
  change (2 ^ 8) with 256. change 65536 with (256 * 256). rewrite Z.rem_mul_r by lia. lia.
Qed.
Lemma le16_at_skip a i s : le16_at (a +:+ s) (String.length a + i) = le16_at s i.
Proof. unfold le16_at. rewrite byte_at_skip. rewrite <- Nat.add_succ_r. by rewrite byte_at_skip. Qed.
Lemma le32_at_skip a i s : le32_at (a +:+ s) (String.length a + i) = le32_at s i.
Proof. unfold le32_at. rewrite le16_at_skip. rewrite <- !Nat.add_succ_r. by rewrite le16_at_skip. Qed.
Lemma le32_at_of n s : le32_at (le32 n +:+ s) 0 = n mod 4294967296.
Proof.
  unfold le32_at, le32. rewrite <- string_app_assoc, le16_at_of. change 2%nat with (String.length (le16 n) + 0)%nat at 1.
  rewrite le16_at_skip, le16_at_of, Z.shiftr_div_pow2 by lia. change (2 ^ 16) with 65536. change 4294967296 with (65536 * 65536).
  rewrite Z.rem_mul_r by lia. lia.
Qed.
Lemma le16_at_bounds s i : 0 <= le16_at s i <= U16_MAX.
Proof. unfold le16_at, U16_MAX. pose proof (byte_at_bounds s i). pose proof (byte_at_bounds s (S i)). lia. Qed.
Lemma le32_at_bounds s i : 0 <= le32_at s i <= U32_MAX.
Proof. unfold le32_at, U32_MAX. pose proof (le16_at_bounds s i). pose proof (le16_at_bounds s (S (S i))). unfold U16_MAX in *. lia. Qed.

(** ** The layout *)

(** The rows of the index *)
Fixpoint rows_text (rows : list (Z * Z)) : string :=
  match rows with [] => "" | (id, offset) :: rows' => le16 id +:+ le32 offset +:+ rows_text rows' end.

Lemma rows_text_length rows : String.length (rows_text rows) = (length rows * 6)%nat.
Proof. induction rows as [|[id o] rows IH]; [done|]. cbn [rows_text length]. rewrite !string_length_app, IH. done. Qed.
Lemma row_offset rows i id o : rows !! i = Some (id, o) -> 0 <= o <= U32_MAX -> le32_at (rows_text rows) (i * 6 + 2) = o.
Proof.
  revert i. induction rows as [|[id' o'] rows IH]; intros i Hi Ho; [done|]. cbn [rows_text]. destruct i as [|i].
  - injection Hi as -> ->. change (0 * 6 + 2)%nat with (String.length (le16 id) + 0)%nat. rewrite le32_at_skip, le32_at_of.
    apply Z.mod_small. unfold U32_MAX in Ho. lia.
  - cbn in Hi. rewrite string_app_assoc. change (S i * 6 + 2)%nat with (String.length (le16 id' +:+ le32 o') + (i * 6 + 2))%nat.
    rewrite le32_at_skip. by apply IH.
Qed.

(** Where parts of the given sizes start, one after the other, and where the last one ends *)
Fixpoint starts (start : Z) (sizes : list Z) : list Z :=
  start :: match sizes with [] => [] | size :: sizes' => starts (start + size) sizes' end.

Definition total (sizes : list Z) : Z := foldr Z.add 0 sizes.

Lemma starts_length start sizes : length (starts start sizes) = S (length sizes).
Proof. revert start. induction sizes as [|s sizes IH]; intros start; [done|]. cbn. by rewrite IH. Qed.
Lemma starts_last start sizes : last (starts start sizes) = Some (start + total sizes).
Proof.
  revert start. induction sizes as [|s sizes IH]; intros start; [cbn; f_equal; lia|]. cbn [starts]. rewrite last_cons, IH. unfold total. cbn. f_equal. lia.
Qed.
Lemma starts_lookup start sizes i : (i <= length sizes)%nat -> starts start sizes !! i = Some (start + total (take i sizes)).
Proof.
  revert start i. induction sizes as [|s sizes IH]; intros start i Hi; destruct i as [|i]; cbn in *; try lia; try (f_equal; lia).
  rewrite IH by lia. unfold total. cbn. f_equal. lia.
Qed.
Lemma total_nonneg sizes : Forall (Z.le 0) sizes -> 0 <= total sizes.
Proof. induction 1; cbn; [lia|]. unfold total in *. lia. Qed.
Lemma total_app a b : total (a ++ b) = total a + total b.
Proof. induction a as [|x a IH]; [done|]. cbn. unfold total in *. lia. Qed.
Lemma starts_monotonic start sizes : Forall (Z.le 0) sizes -> monotonic (starts start sizes) = true.
Proof.
  intros H. revert start. induction H as [|s sizes Hs H IH]; intros start; [done|]. cbn [starts monotonic].
  specialize (IH (start + s)). destruct sizes as [|s' sizes]; cbn in *; [rewrite andb_true_r; apply Z.leb_le; lia|].
  apply andb_true_iff. split; [apply Z.leb_le; lia|done].
Qed.

(** The index of a pack: the manifest, the resources and the end *)
Definition head_size (n : nat) : Z := 12 + Z.of_nat (n + 2) * 6.
Definition pack_starts (manifest : string) (contents : list string) : list Z :=
  starts (head_size (length contents)) (str_len <$> manifest :: contents).

Definition numbered (offsets : list Z) : list (Z * Z) := imap (fun i offset => (Z.of_nat i + 1, offset)) offsets.
Definition pack_rows (manifest : string) (contents : list string) : list (Z * Z) :=
  let offsets := pack_starts manifest contents in
  numbered (take (S (length contents)) offsets) ++ [(0, default 0 (last offsets))].

Definition join_all (l : list string) : string := foldr String.append "" l.

Definition pack_bytes (manifest : string) (contents : list string) : string :=
  le32 5 +:+ zeros 4 +:+ le16 (Z.of_nat (S (length contents))) +:+ le16 0
  +:+ rows_text (pack_rows manifest contents) +:+ manifest +:+ join_all contents.

Definition pack_size (manifest : string) (contents : list string) : Z :=
  head_size (length contents) + total (str_len <$> manifest :: contents).

Lemma sizes_pos (l : list string) : Forall (Z.le 0) (str_len <$> l).
Proof. apply Forall_forall. intros x (s & -> & _)%list_elem_of_fmap. apply str_len_nonneg. Qed.
Lemma join_all_length l : str_len (join_all l) = total (str_len <$> l).
Proof. induction l as [|s l IH]; [done|]. cbn [join_all foldr]. rewrite str_len_app. unfold join_all in IH. by rewrite IH. Qed.
Lemma pack_rows_length manifest contents : length (pack_rows manifest contents) = (length contents + 2)%nat.
Proof.
  unfold pack_rows, numbered. rewrite length_app, length_imap, length_take. unfold pack_starts. rewrite starts_length, length_fmap. cbn. lia.
Qed.
Lemma pack_bytes_length manifest contents : str_len (pack_bytes manifest contents) = pack_size manifest contents.
Proof.
  unfold pack_bytes, pack_size, head_size. rewrite !str_len_app, join_all_length. unfold str_len at 5. rewrite rows_text_length, pack_rows_length.
  cbn [fmap list_fmap total foldr]. unfold total. change (str_len (le32 5)) with 4. change (str_len (zeros 4)) with 4.
  change (str_len (le16 (Z.of_nat (S (length contents))))) with 2. change (str_len (le16 0)) with 2. lia.
Qed.

(** ** Reading as a function of the bytes *)

Section Parsing.
Context (from_slice : string -> option Value).

Definition slice (offset count : Z) (data : string) : option string :=
  if offset + count <=? str_len data then Some (String.substring (Z.to_nat offset) (Z.to_nat count) data) else None.

(** [parse_datapack_entries] of a file with the content [data]; [short] is the error of a read past its end. *)
Definition parse_bytes (short : RpcError) (data : string) : result RpcError (gmap string (Z * Z)) :=
  bind_result (ok_or (slice 0 12 data) short) (fun header =>
  if negb (le32_at header 0 =? 5) then Err (invalid_base "base pak is not DataPack version 5")
  else
    let count := Z.to_nat (le16_at header 8) in
    if Nat.ltb count 1 then Err (invalid_base "base pak has no manifest entry")
    else
      bind_result (ok_or (slice 12 (Z.of_nat (count + 1) * 6) data) short) (fun index =>
      let offsets := index_offsets index count in
      if negb (monotonic offsets) then Err (invalid_base "base pak offsets are not monotonic")
      else if str_len data <? default 0 (last offsets) then Err (invalid_base "base pak offsets exceed file size")
      else
        bind_result (ok_or (offsets !! 0%nat) thread_panic) (fun first =>
        bind_result (ok_or (offsets !! 1%nat) thread_panic) (fun second =>
        if I64_MAX <? first then Err short
        else
          bind_result (ok_or (slice first (u64_sub second first) data) short) (fun manifest =>
          manifest_entries from_slice offsets count manifest))))).

(** A call that asks gives the answer, or fails in an unreliable world. *)
Lemma io_ask_run {A B : Type} (code : string) (p : Path) (f : Tree -> result IoKind A) (k : A -> M Volume RpcError B) v w r v' w' :
  (let* a := io_error code p (ask f) in k a) v w = (r, v', w') ->
  exists w1, world_le w w1 /\
    ((io_good w -> is_ok (f (vol_tree v)) = false) /\ r = Err (rpc_error code (display p +:+ ": ")) /\ v' = v /\ w' = w1
     \/ exists a, f (vol_tree v) = Ok a /\ k a v w1 = (r, v', w')).
Proof.
  intros H. exists (set_io (advance (w_io w)) w). split; [apply world_le_io|]. revert H.
  unfold io_error, with_err, ask. munfold. destruct (peek (w_io w)) eqn:Ho.
  - destruct (f (vol_tree v)) as [a|e]; cbn; [right; by exists a|intros [= <- <- <-]; by left].
  - cbn. intros [= <- <- <-]. left. split; [|done]. intros Hg. specialize (Hg (o_next (w_io w))). unfold peek in Ho. rewrite Ho in Hg. by discriminate Hg.
Qed.

Lemma io_good_le w w' : world_le w w' -> io_good w -> io_good w'.
Proof. intros Hle Hg n Hn. rewrite (wle_io _ _ Hle). apply Hg. etrans; [apply (wle_io_next _ _ Hle)|done]. Qed.

Lemma file_data_at t q m data : t !! q = Some (EFile m data) -> file_data t q = Ok data.
Proof. unfold file_data. by intros ->. Qed.

(** [read_exact] as a step: the slice of the content, or the error of a read. *)
Lemma io_read_run {B : Type} (p : Path) (q : place) (m : Z) (data : string) (offset count : Z)
    (k : string -> M Volume RpcError B) v w r v' w' :
  vol_tree v !! q = Some (EFile m data) ->
  (let* a := io_error "BASE_DATAPACK_INVALID" p (read_exact q offset count) in k a) v w = (r, v', w') ->
  let short := rpc_error "BASE_DATAPACK_INVALID" (display p +:+ ": ") in
  exists w1, world_le w w1 /\
    (r = Err short /\ v' = v /\ w' = w1 /\ (slice offset count data = None \/ ~ io_good w)
     \/ exists text, slice offset count data = Some text /\ k text v w1 = (r, v', w')).
Proof.
  intros Hq H short. apply io_ask_run in H as (w1 & L & H). rewrite (file_data_at _ _ _ _ Hq) in H. cbn [bind_result] in H.
  exists w1. split; [done|]. unfold slice. destruct (_ <=? _) in H |- *; destruct H as [(Hg & -> & -> & ->)|(a & Ha & H)].
  - left. split_and!; try done. right. intros G. by specialize (Hg G).
  - right. exists a. by simplify_eq.
  - left. split_and!; try done. by left.
  - done.
Qed.

(** What reading the pack at [path] gives: what its bytes say, or the error of a read. *)
Lemma parse_run (path : Path) (q : place) (m : Z) (data : string) (v : Volume) (w : World) r v' w' :
  entry (vol_tree v) true path = Ok (q, EFile m data) -> vol_tree v !! q = Some (EFile m data) ->
  parse_datapack_entries from_slice path v w = (r, v', w') ->
  let short := rpc_error "BASE_DATAPACK_INVALID" (display path +:+ ": ") in
  v' = v /\ world_le w w' /\ (r = parse_bytes short data \/ r = Err short /\ ~ io_good w).
Proof.
  intros He Hq H short. unfold parse_datapack_entries in H. pose proof (file_data_at _ _ _ _ Hq) as Hd.
  apply io_ask_run in H as (w1 & L1 & [(Hg & -> & -> & ->)|(q1 & Hq1 & H)]); [|rewrite He in Hq1; cbn in Hq1; injection Hq1 as <-].
  { rewrite He in Hg. split_and!; [done|done|]. right. split; [done|]. intros G. by specialize (Hg G). }
  assert (forall w0 w' r, world_le w w0 -> world_le w0 w' -> r = Err short ->
            r = parse_bytes short data \/ ~ io_good w0 -> v = v /\ world_le w w' /\ (r = parse_bytes short data \/ r = Err short /\ ~ io_good w)) as Hcut.
  { intros w0 wx rx La Lb -> [E|G]; (split_and!; [done|by etrans|]); [by left|right; split; [done|]]. intros G'. by apply G, (io_good_le w). }
  unfold parse_bytes in *. apply (io_read_run _ _ _ _ _ _ _ _ _ _ _ _ Hq) in H as (w2 & L2 & [(-> & -> & -> & G)|(header & Hh & H)]).
  { eapply Hcut; [exact L1|done|done|]. destruct G as [->|G]; [by left|by right]. }
  assert (world_le w w2) as L by (by etrans). clear L1 L2. rewrite Hh in *. cbn [ok_or bind_result] in *. cbv zeta in *.
  destruct (negb (le32_at header 0 =? 5)); [unfold fail in H; injection H as <- <- <-; split_and!; [done|done|by left]|].
  destruct (Nat.ltb (Z.to_nat (le16_at header 8)) 1); [unfold fail in H; injection H as <- <- <-; split_and!; [done|done|by left]|].
  apply (io_read_run _ _ _ _ _ _ _ _ _ _ _ _ Hq) in H as (w3 & L3 & [(-> & -> & -> & G)|(index & Hi & H)]).
  { eapply Hcut; [exact L|done|done|]. destruct G as [->|G]; [by left|by right]. }
  assert (world_le w w3) as L' by (by etrans). clear L L3. rewrite Hi in *. cbn [ok_or bind_result] in *.
  destruct (negb (monotonic _)); [unfold fail in H; injection H as <- <- <-; split_and!; [done|done|by left]|].
  apply io_ask_run in H as (w4 & L4 & [(Hg & -> & -> & ->)|(size & Hs & H)]).
  { eapply Hcut; [exact L'|done|done|]. right. rewrite Hd in Hg. cbn in Hg. intros G. by specialize (Hg G). }
  rewrite Hd in Hs. cbn in Hs. injection Hs as <-. assert (world_le w w4) as L by (by etrans). clear L' L4.
  destruct (str_len data <? _); [unfold fail in H; injection H as <- <- <-; split_and!; [done|done|by left]|].
  destruct (index_offsets _ _ !! 0%nat) as [first|]; cbn [ok_or bind_result] in *; [|unfold bind, lift in H; injection H as <- <- <-; split_and!; [done|done|by left]].
  destruct (index_offsets _ _ !! 1%nat) as [second|]; cbn [ok_or bind_result] in *; [|unfold bind, lift in H; injection H as <- <- <-; split_and!; [done|done|by left]].
  unfold bind at 1 in H. unfold lift at 1 in H. unfold bind at 1 in H. unfold lift at 1 in H.
  apply io_ask_run in H as (w5 & L5 & [(Hg & -> & -> & ->)|([] & Hs & H)]).
  { eapply Hcut; [exact L|done|done|]. destruct (I64_MAX <? first); [by left|]. right. intros G. by specialize (Hg G). }
  destruct (I64_MAX <? first); [done|]. assert (world_le w w5) as L' by (by etrans). clear L L5.
  apply (io_read_run _ _ _ _ _ _ _ _ _ _ _ _ Hq) in H as (w6 & L6 & [(-> & -> & -> & G)|(text & Ht & H)]).
  { eapply Hcut; [exact L'|done|done|]. destruct G as [->|G]; [by left|by right]. }
  rewrite Ht in *. cbn [ok_or bind_result] in *. unfold lift in H. injection H as <- <- <-. split_and!; [done|by etrans|by left].
Qed.

End Parsing.

(** ** The ranges an index gives *)

Definition entry_range (offsets : list Z) (i : nat) : option (Z * Z) :=
  offsets !! (i + 1)%nat ≫= fun start => offsets !! (i + 2)%nat ≫= fun next => Some (start, u64_sub next start).

Lemma entry_range_Some offsets i start size :
  entry_range offsets i = Some (start, size) ->
  exists a b, offsets !! (i + 1)%nat = Some a /\ offsets !! (i + 2)%nat = Some b /\ start = a /\ size = u64_sub b a.
Proof.
  unfold entry_range. destruct (offsets !! (i + 1)%nat) as [a|]; [|done]. cbn. destruct (offsets !! (i + 2)%nat) as [b|]; [|done].
  cbn. intros [= <- <-]. by exists a, b.
Qed.
Lemma index_entries_step offsets i name entry entries found :
  vget "path" entry ≫= as_str = Some name ->
  index_entries offsets i (entry :: entries) found =
    match entry_range offsets i with
    | Some range => index_entries offsets (S i) entries (<[name := range]> found)
    | None => Err thread_panic
    end.
Proof.
  intros Hn. unfold entry_range. cbn [index_entries]. rewrite Hn. cbn [ok_or bind_result].
  destruct (offsets !! (i + 1)%nat); [|done]. cbn. by destruct (offsets !! (i + 2)%nat).
Qed.

(** Every range comes from two offsets that follow one another, and none is missing. *)
Lemma index_entries_total offsets i entries found :
  (i + length entries + 1 < length offsets)%nat ->
  match index_entries offsets i entries found with
  | Ok found' => forall name range, found' !! name = Some range -> found !! name = Some range \/ exists j, entry_range offsets j = Some range
  | Err e => err_code e = "BASE_DATAPACK_INVALID"
  end.
Proof.
  revert i found. induction entries as [|entry entries IH]; intros i found Hl; [cbn; auto|]. cbn [length] in Hl.
  destruct (vget "path" entry ≫= as_str) as [name|] eqn:Hn; [|cbn [index_entries]; by rewrite Hn].
  rewrite (index_entries_step _ _ name) by done. unfold entry_range at 1.
  destruct (lookup_lt_is_Some_2 offsets (i + 1)) as [a Ha]; [lia|]. destruct (lookup_lt_is_Some_2 offsets (i + 2)) as [b Hb]; [lia|].
  rewrite Ha. cbn. rewrite Hb. cbn. specialize (IH (S i) (<[name := (a, u64_sub b a)]> found)). destruct (index_entries _ _ _ _); [|apply IH; lia].
  intros n range Hr. destruct (IH ltac:(lia) n range Hr) as [Hf|?]; [|by right]. destruct (decide (name = n)) as [->|].
  - rewrite lookup_insert_eq in Hf. injection Hf as <-. right. exists i. unfold entry_range. rewrite Ha. cbn. by rewrite Hb.
  - rewrite lookup_insert_ne in Hf by done. by left.
Qed.

(** Entries with different names are all found. *)
Lemma index_entries_names offsets i entries names found :
  Forall2 (fun entry name => vget "path" entry ≫= as_str = Some name) entries names -> NoDup names ->
  (i + length entries + 1 < length offsets)%nat ->
  exists found', index_entries offsets i entries found = Ok found' /\
    (forall k name, names !! k = Some name -> found' !! name = entry_range offsets (i + k)) /\
    (forall name, name ∉ names -> found' !! name = found !! name).
Proof.
  intros HF. revert i found. induction HF as [|entry name entries names Hn HF IH]; intros i found Hnd Hl.
  - exists found. by split_and!.
  - apply NoDup_cons in Hnd as [Hni Hnd]. cbn [length] in Hl. rewrite (index_entries_step _ _ name) by done.
    destruct (entry_range offsets i) as [range|] eqn:Hr.
    2:{ exfalso. unfold entry_range in Hr. destruct (lookup_lt_is_Some_2 offsets (i + 1)) as [a Ha]; [lia|].
        destruct (lookup_lt_is_Some_2 offsets (i + 2)) as [b Hb]; [lia|]. rewrite Ha in Hr. cbn in Hr. by rewrite Hb in Hr. }
    destruct (IH (S i) (<[name := range]> found)) as (found' & -> & Hin & Hout); [done|lia|]. exists found'. split_and!; [done| |].
    + intros [|k] n Hk; cbn in Hk; [|rewrite (Hin k) by done; f_equal; lia]. injection Hk as <-.
      by rewrite Hout, lookup_insert_eq, Nat.add_0_r by done.
    + intros n [Hne Hn']%not_elem_of_cons. by rewrite Hout, lookup_insert_ne by done.
Qed.

Lemma monotonic_le l i j a b : monotonic l = true -> (i <= j)%nat -> l !! i = Some a -> l !! j = Some b -> a <= b.
Proof.
  revert i j a b. induction l as [|x l IH]; intros i j a b Hm Hij Hi Hj; [done|]. destruct l as [|y l].
  - destruct i, j; cbn in *; simplify_eq; lia.
  - cbn [monotonic] in Hm. apply andb_true_iff in Hm as [Hxy Hm]. apply Z.leb_le in Hxy. destruct i as [|i], j as [|j]; try lia.
    + cbn in *. simplify_eq. lia.
    + cbn in Hi. injection Hi as ->. cbn in Hj. specialize (IH 0%nat j y b Hm ltac:(lia) eq_refl Hj). lia.
    + by eapply (IH i j); [done|lia| |].
Qed.
Lemma u64_sub_small a b : 0 <= b <= a -> a <= U64_MAX -> u64_sub a b = a - b.
Proof. intros H1 H2. unfold u64_sub. apply Z.mod_small. unfold U64_MAX in *. lia. Qed.

Lemma index_offsets_length index count : length (index_offsets index count) = S count.
Proof. unfold index_offsets. by rewrite length_fmap, length_seq. Qed.
Lemma index_offsets_bounds index count i a : index_offsets index count !! i = Some a -> 0 <= a <= U32_MAX.
Proof. unfold index_offsets. rewrite list_lookup_fmap. destruct (seq 0 (S count) !! i); [|done]. cbn. intros [= <-]. apply le32_at_bounds. Qed.

(** Whatever the bytes are, reading them gives ranges inside the file or an error of its own. *)
Lemma parse_bytes_safe from_slice short data :
  err_code short = "BASE_DATAPACK_INVALID" ->
  match parse_bytes from_slice short data with
  | Ok found => forall name offset length, found !! name = Some (offset, length) ->
      0 <= offset /\ 0 <= length /\ offset + length <= str_len data
  | Err e => err_code e = "BASE_DATAPACK_INVALID"
  end.
Proof.
  intros Hs. unfold parse_bytes. destruct (slice 0 12 data) as [header|]; cbn [ok_or bind_result]; [|done]. destruct (negb _); [done|]. cbv zeta.
  set (count := Z.to_nat (le16_at header 8)). destruct (Nat.ltb_spec count 1); [done|].
  destruct (slice 12 _ data) as [index|]; cbn [ok_or bind_result]; [|done]. set (offsets := index_offsets index count).
  destruct (monotonic offsets) eqn:Hm; cbn [negb]; [|done]. destruct (Z.ltb_spec (str_len data) (default 0 (last offsets))) as [|Hl]; [done|].
  pose proof (index_offsets_length index count) as Hlen. fold offsets in Hlen.
  destruct (lookup_lt_is_Some_2 offsets 0) as [first Hf]; [lia|]. destruct (lookup_lt_is_Some_2 offsets 1) as [second Hse]; [lia|].
  rewrite Hf, Hse. cbn [ok_or bind_result]. destruct (I64_MAX <? first); [done|]. destruct (slice first _ data) as [manifest|]; cbn [ok_or bind_result]; [|done].
  unfold manifest_entries. destruct (from_slice manifest) as [value|]; cbn [ok_or bind_result]; [|done].
  destruct (vget "entries" value ≫= as_array) as [entries|]; cbn [ok_or bind_result]; [|done].
  destruct (Nat.eqb_spec (length entries + 1) count) as [He|]; cbn [negb]; [|done].
  pose proof (index_entries_total offsets 0 entries ∅ ltac:(lia)) as Ht. destruct (index_entries _ _ _ _) as [found|]; [|done].
  intros name offset len Hr. apply Ht in Hr as [Hr|[j Hj]]; [by rewrite lookup_empty in Hr|].
  apply entry_range_Some in Hj as (a & b & Ha & Hb & -> & ->).
  pose proof (index_offsets_bounds _ _ _ _ Ha). pose proof (index_offsets_bounds _ _ _ _ Hb).
  pose proof (monotonic_le _ (j + 1) (j + 2) _ _ Hm ltac:(lia) Ha Hb). rewrite u64_sub_small; [|lia|unfold U64_MAX, U32_MAX in *; lia].
  assert (b <= default 0 (last offsets)); [|lia]. rewrite last_lookup. rewrite Hlen. cbn [pred].
  pose proof (lookup_lt_Some _ _ _ Hb) as Hbl. rewrite Hlen in Hbl. destruct (lookup_lt_is_Some_2 offsets count) as [z Hz]; [lia|]. rewrite Hz. cbn.
  apply (monotonic_le offsets (j + 2) count); [done|lia|done|done].
Qed.

(** ** Reading a pack that was written *)

Section Layout.
Context (manifest : string) (contents : list string).
Context (Hcount : Z.of_nat (S (length contents)) <= U16_MAX) (Hsize : pack_size manifest contents <= U32_MAX).

Local Abbreviation offsets := (pack_starts manifest contents).
Local Abbreviation rows := (pack_rows manifest contents).
Definition pack_head : string := le32 5 +:+ zeros 4 +:+ le16 (Z.of_nat (S (length contents))) +:+ le16 0.

Lemma pack_bytes_head : pack_bytes manifest contents = pack_head +:+ rows_text rows +:+ manifest +:+ join_all contents.
Proof. unfold pack_bytes, pack_head. by rewrite <- !string_app_assoc. Qed.

Lemma pack_head_version : le32_at pack_head 0 = 5.
Proof. unfold pack_head. by rewrite le32_at_of. Qed.
Lemma pack_head_count : le16_at pack_head 8 = Z.of_nat (S (length contents)).
Proof.
  unfold pack_head. rewrite string_app_assoc. change 8%nat with (String.length (le32 5 +:+ zeros 4) + 0)%nat. rewrite le16_at_skip, le16_at_of.
  apply Z.mod_small. unfold U16_MAX in Hcount. lia.
Qed.

Lemma pack_offset_lookup i : (i <= S (length contents))%nat ->
  offsets !! i = Some (head_size (length contents) + total (take i (str_len <$> manifest :: contents))).
Proof. clear Hcount Hsize. intros Hi. unfold pack_starts. apply starts_lookup. rewrite length_fmap. cbn. lia. Qed.
Lemma total_take_le (l : list Z) i : Forall (Z.le 0) l -> 0 <= total (take i l) <= total l.
Proof.
  intros Hl. assert (total l = total (take i l) + total (drop i l)) as -> by (by rewrite <- total_app, take_drop).
  pose proof (total_nonneg _ (Forall_take _ i _ Hl)). pose proof (total_nonneg _ (Forall_drop _ i _ Hl)). lia.
Qed.
Lemma pack_offset_bounds i a : offsets !! i = Some a -> head_size (length contents) <= a <= pack_size manifest contents.
Proof.
  intros Ha. pose proof (lookup_lt_Some _ _ _ Ha) as Hi. unfold pack_starts in Hi. rewrite starts_length, length_fmap in Hi. cbn in Hi.
  rewrite pack_offset_lookup in Ha by lia. apply (inj Some) in Ha as <-. unfold pack_size.
  pose proof (total_take_le (str_len <$> manifest :: contents) i (sizes_pos _)). lia.
Qed.
Lemma pack_last_offset : last offsets = Some (pack_size manifest contents).
Proof. apply starts_last. Qed.

Lemma pack_monotonic : monotonic offsets = true.
Proof. apply starts_monotonic, sizes_pos. Qed.

Lemma pack_row_lookup i a : offsets !! i = Some a -> exists id, rows !! i = Some (id, a).
Proof.
  intros Ha. unfold pack_rows. assert (length offsets = S (S (length contents))) as Hl by (unfold pack_starts; by rewrite starts_length, length_fmap).
  pose proof (lookup_lt_Some _ _ _ Ha) as Hi. destruct (decide (i = S (length contents))) as [->|].
  - rewrite lookup_app_r; unfold numbered; rewrite length_imap, length_take, Hl; [|lia].
    replace (S (length contents) - _)%nat with 0%nat by lia. exists 0. rewrite last_lookup, Hl. cbn [pred]. by rewrite Ha.
  - exists (Z.of_nat i + 1). rewrite lookup_app_l; [|unfold numbered; rewrite length_imap, length_take, Hl; lia].
    unfold numbered. rewrite list_lookup_imap, lookup_take_lt by lia. by rewrite Ha.
Qed.

Lemma pack_index_offsets : index_offsets (rows_text rows) (S (length contents)) = offsets.
Proof.
  apply list_eq. intros i. unfold index_offsets. rewrite list_lookup_fmap.
  assert (length offsets = S (S (length contents))) as Hl by (unfold pack_starts; by rewrite starts_length, length_fmap).
  destruct (offsets !! i) as [a|] eqn:Ha.
  - pose proof (lookup_lt_Some _ _ _ Ha) as Hi. rewrite lookup_seq_lt by lia. cbn [fmap option_fmap option_map]. f_equal.
    destruct (pack_row_lookup i a Ha) as [id Hid]. apply (row_offset rows i id); [done|].
    pose proof (pack_offset_bounds i a Ha). unfold head_size in *. lia.
  - rewrite lookup_seq_ge; [done|]. apply lookup_ge_None in Ha. lia.
Qed.

(** A part of the layout, read at its place *)
Lemma slice_middle a b c : slice (str_len a) (str_len b) (a +:+ b +:+ c) = Some b.
Proof.
  unfold slice. rewrite !str_len_app. pose proof (str_len_nonneg c). destruct (Z.leb_spec (str_len a + str_len b) (str_len a + (str_len b + str_len c))); [|lia].
  unfold str_len. rewrite !Nat2Z.id. by rewrite substring_middle.
Qed.

Lemma pack_rows_size : str_len (pack_head +:+ rows_text rows) = head_size (length contents).
Proof. rewrite str_len_app. unfold str_len at 2. rewrite rows_text_length, pack_rows_length. change (str_len pack_head) with 12. unfold head_size. lia. Qed.

Lemma pack_slice_head : slice 0 12 (pack_bytes manifest contents) = Some pack_head.
Proof. rewrite pack_bytes_head. exact (slice_middle "" pack_head _). Qed.
Lemma pack_slice_rows : slice 12 (Z.of_nat (S (length contents) + 1) * 6) (pack_bytes manifest contents) = Some (rows_text rows).
Proof.
  rewrite pack_bytes_head. replace (Z.of_nat (S (length contents) + 1) * 6) with (str_len (rows_text rows)); [apply (slice_middle pack_head)|].
  unfold str_len. rewrite rows_text_length, pack_rows_length. lia.
Qed.
Lemma pack_slice_manifest : slice (head_size (length contents)) (str_len manifest) (pack_bytes manifest contents) = Some manifest.
Proof. rewrite pack_bytes_head, string_app_assoc, <- pack_rows_size. apply slice_middle. Qed.
Lemma join_all_app a b : join_all (a ++ b) = join_all a +:+ join_all b.
Proof. induction a as [|x a IH]; [done|]. cbn. unfold join_all in IH. by rewrite IH, string_app_assoc. Qed.

Lemma pack_content_at k c :
  contents !! k = Some c ->
  slice (head_size (length contents) + total (take (S k) (str_len <$> manifest :: contents))) (str_len c) (pack_bytes manifest contents) = Some c.
Proof.
  intros Hk. rewrite pack_bytes_head. assert (join_all contents = join_all (take k contents) +:+ c +:+ join_all (drop (S k) contents)) as ->.
  { rewrite <- (take_drop_middle contents k c Hk) at 1. by rewrite join_all_app. }
  rewrite !string_app_assoc. rewrite <- (string_app_assoc _ c).
  replace (_ + total _) with (str_len (((pack_head +:+ rows_text rows) +:+ manifest) +:+ join_all (take k contents))); [apply slice_middle|].
  rewrite str_len_app, (str_len_app _ manifest), pack_rows_size, join_all_length. cbn [fmap list_fmap take total foldr].
  unfold total. rewrite <- fmap_take. lia.
Qed.

Lemma pack_range k c :
  contents !! k = Some c ->
  entry_range offsets k = Some (head_size (length contents) + total (take (S k) (str_len <$> manifest :: contents)), str_len c).
Proof.
  intros Hk. pose proof (lookup_lt_Some _ _ _ Hk) as Hl. unfold entry_range. rewrite (pack_offset_lookup (k + 1)), (pack_offset_lookup (k + 2)) by lia.
  cbn [mbind option_bind]. replace (k + 2)%nat with (S (S k)) by lia. replace (k + 1)%nat with (S k) by lia. f_equal. f_equal.
  assert ((str_len <$> manifest :: contents) !! S k = Some (str_len c)) as Hc by (rewrite list_lookup_fmap; change ((manifest :: contents) !! S k) with (contents !! k); by rewrite Hk).
  assert (total (take (S (S k)) (str_len <$> manifest :: contents)) = total (take (S k) (str_len <$> manifest :: contents)) + str_len c) as E.
  { rewrite (take_S_r _ _ _ Hc), total_app. unfold total at 2. cbn [foldr]. lia. }
  pose proof (total_take_le _ (S k) (sizes_pos (manifest :: contents))). pose proof (total_take_le _ (S (S k)) (sizes_pos (manifest :: contents))).
  pose proof (str_len_nonneg c). unfold pack_size, head_size in *. unfold U32_MAX in Hsize. rewrite u64_sub_small by (unfold U64_MAX; lia). lia.
Qed.

(** Every entry of a pack is found again, at its offset and with its length, and no other. *)
Lemma parse_pack from_slice short value entries paths :
  from_slice manifest = Some value -> vget "entries" value ≫= as_array = Some entries ->
  Forall2 (fun entry path => vget "path" entry ≫= as_str = Some path) entries paths ->
  NoDup paths -> length paths = length contents ->
  exists found, parse_bytes from_slice short (pack_bytes manifest contents) = Ok found /\
    (forall k path c, paths !! k = Some path -> contents !! k = Some c ->
       exists offset, found !! path = Some (offset, str_len c) /\ slice offset (str_len c) (pack_bytes manifest contents) = Some c) /\
    (forall path, path ∉ paths -> found !! path = None).
Proof.
  intros Hv He HF Hnd Hlen. unfold parse_bytes. rewrite pack_slice_head. cbn [ok_or bind_result]. rewrite pack_head_version. cbv zeta.
  cbn [Z.eqb Pos.eqb negb]. rewrite pack_head_count, Nat2Z.id. cbn [Nat.ltb Nat.leb]. rewrite pack_slice_rows. cbn [ok_or bind_result].
  rewrite pack_index_offsets, pack_monotonic. cbn [negb]. rewrite pack_last_offset, pack_bytes_length. cbn [default].
  rewrite Z.ltb_irrefl. rewrite (pack_offset_lookup 0), (pack_offset_lookup 1) by lia. cbn [ok_or bind_result take fmap list_fmap total foldr].
  unfold total. cbn [foldr]. rewrite !Z.add_0_r. pose proof (str_len_nonneg manifest).
  assert (0 <= head_size (length contents) <= pack_size manifest contents) as Hh.
  { unfold pack_size. pose proof (total_nonneg _ (sizes_pos (manifest :: contents))). unfold head_size. lia. }
  assert (head_size (length contents) + str_len manifest <= pack_size manifest contents) as Hm.
  { unfold pack_size. cbn. pose proof (total_nonneg _ (sizes_pos contents)). unfold total in *. lia. }
  destruct (Z.ltb_spec I64_MAX (head_size (length contents))) as [|_]; [unfold I64_MAX, U32_MAX in *; lia|].
  rewrite u64_sub_small by (unfold U64_MAX, U32_MAX in *; lia). replace (_ + _ - _) with (str_len manifest) by lia. rewrite pack_slice_manifest.
  cbn [ok_or bind_result]. unfold manifest_entries. rewrite Hv. cbn [ok_or bind_result]. rewrite He. cbn [ok_or bind_result].
  pose proof (Forall2_length _ _ _ HF) as Hel. rewrite Hel, Hlen. replace (Nat.eqb _ _) with true by (symmetry; apply Nat.eqb_eq; lia). cbn [negb].
  assert (length offsets = S (S (length contents))) as Hl by (unfold pack_starts; by rewrite starts_length, length_fmap).
  destruct (index_entries_names offsets 0 entries paths ∅ HF Hnd) as (found & -> & Hin & Hout); [lia|]. exists found. split_and!; [done| |].
  - intros k path c Hp Hc. rewrite (Hin k path Hp). eexists. split; [by apply pack_range|by apply pack_content_at].
  - intros path Hp. by rewrite Hout, lookup_empty.
Qed.

End Layout.
