(* ===== verification/DataPackSafety.v ===== *)
(** * Packing

    What a run of [pack_chromium_datapack] does to the file system: the output
    is the old one or a complete pack at every moment, a pack holds exactly the
    resources of the trees, and an incremental pack is the full pack. *)
From Stdlib Require Import Ascii.
From stdpp Require Import base gmap strings list sorting pretty.
From S2P Require Import Prelude Json Store Protocol PathPolicy FileTree FileTreeLaws Generations Controller TreeDigest ArtifactRelay DataPack DataPackFormat.
Open Scope Z_scope.
Open Scope fabric_scope.

(** ** Resolution in a larger tree *)

Lemma walk_mono (links : nat) (t t' : Tree) (follow : bool) (rest : list Component) (cur q : place) :
  t ⊆ t' -> walk links t follow cur rest = Ok q -> is_Some (t !! q) -> walk links t' follow cur rest = Ok q.
Proof.
  intros Hsub. revert rest cur. induction links as [|links IHl]; intros rest; induction rest as [|c rest IH]; intros cur H Hq; try done;
    (destruct c as [| |n]; cbn [walk] in *; [by apply IH|by apply IH|]);
    (destruct (t !! (cur ++ [n])) as [e|] eqn:E;
      [rewrite (lookup_weaken _ _ _ _ E Hsub); destruct e; [by apply IH|by destruct rest|destruct (_ && _) in *; try done; by apply IHl|by destruct rest]
      |destruct rest; [injection H as <-; rewrite E in Hq; by destruct Hq|done]]).
Qed.

Lemma entry_mono (t t' : Tree) (follow : bool) (p : Path) x : t ⊆ t' -> entry t follow p = Ok x -> entry t' follow p = Ok x.
Proof.
  intros Hsub. unfold entry, resolve. destruct (p_absolute p); [|done].
  destruct (walk MAXSYMLINKS t follow [] (p_components p)) as [q|] eqn:E; [|done]. cbn [bind_result]. destruct (t !! q) as [e|] eqn:Eq; [|done]. intros [= <-].
  pose proof (walk_mono _ _ _ _ _ _ _ Hsub E ltac:(by rewrite Eq)) as E'. rewrite E'. cbn [bind_result]. by rewrite (lookup_weaken _ _ _ _ Eq Hsub).
Qed.
Lemma entry_found t follow p q e : entry t follow p = Ok (q, e) -> t !! q = Some e.
Proof. unfold entry. destruct (resolve t follow p) as [q'|]; [|done]. cbn. destruct (t !! q') eqn:E; [|done]. by intros [= <- <-]. Qed.

(** ** Writing the temporary file *)


Section Drafting.
Context (torn : string -> string) (t : Tree) (tmp : place) (Hvacant : t !! tmp = None).

(** The tree with a draft of the pack at the place [tmp] *)
Definition draft (m : Z) (data : string) : Tree := <[tmp := EFile m data]> t.
Definition drafting (t' : Tree) : Prop := exists m data, t' = draft m data.

Lemma draft_sub m data : t ⊆ draft m data.
Proof. by apply insert_subseteq. Qed.
Lemma draft_entry m data follow p x : entry t follow p = Ok x -> entry (draft m data) follow p = Ok x.
Proof. apply entry_mono, draft_sub. Qed.
Lemma draft_lookup m data q e : t !! q = Some e -> draft m data !! q = Some e.
Proof. intros H. apply (lookup_weaken _ _ _ _ H (draft_sub m data)). Qed.

(** What a computation that writes the draft does: the tree stays a draft, and on success the bytes are appended. *)
Definition appends {A} (m : Z) (data : string) (v : Volume) (r : result RpcError A) (v' : Volume) (more : string) : Prop :=
  passes drafting v v' /\ drafting (vol_tree v') /\ vol_umask v' = vol_umask v /\
  (is_ok r = true -> vol_tree v' = draft m (data +:+ more)).

Lemma write_appends m data bytes code p v w r v' w' :
  vol_tree v = draft m data -> io_error code p (Fs.write_at torn tmp (String.length data) bytes) v w = (r, v', w') ->
  appends m data v r v' bytes.
Proof.
  intros Hv (r0 & H & ->)%with_err_cases. eapply write_at_file in H as (d & -> & Hd); [|rewrite Hv; apply lookup_insert_eq].
  assert (vol_tree (log v (<[tmp := EFile m d]> (vol_tree v))) = draft m d) as E by (cbn; rewrite Hv; apply insert_insert_eq).
  split_and!; [apply passes_log; exists m, d; exact E|exists m, d; exact E|done|].
  intros Hok. destruct r0 as [[]|]; [|done]. by rewrite E, Hd, overwrite_end.
Qed.

Lemma pieces_append temporary pieces m data v w r v' w' :
  vol_tree v = draft m data -> write_pieces torn temporary tmp (String.length data) pieces v w = (r, v', w') ->
  appends m data v r v' (join_all pieces) /\ (forall n, r = Ok n -> n = String.length (data +:+ join_all pieces)).
Proof.
  revert data v w. induction pieces as [|piece pieces IH]; intros data v w Hv H.
  - cbn in H. unfold ret in H. injection H as <- <- <-. cbn [join_all foldr]. rewrite string_app_nil_r. split; [|by intros n [= <-]].
    split_and!; [apply passes_refl|rewrite Hv; by exists m, data|done|by rewrite string_app_nil_r].
  - cbn [write_pieces] in H. apply bind_cases in H as (r1 & v1 & w1 & H1 & H).
    eapply write_appends in H1 as (Hp & Hd & Hu & Hok); [|done]. destruct r1 as [[]|e].
    + rewrite <- string_length_app in H. apply IH in H as [(Hp' & Hd' & Hu' & Hok') Hn]; [|by apply Hok]. cbn [join_all foldr].
      fold (join_all pieces). rewrite string_app_assoc. split; [|done]. split_and!; [by eapply passes_trans|done|congruence|by rewrite string_app_assoc].
    + destruct H as (-> & -> & ->). by split.
Qed.

(** Reading while the draft is there gives what was read before. *)
Lemma ask_file_data m data q m' d code p v w r v' w' :
  vol_tree v = draft m data -> t !! q = Some (EFile m' d) ->
  io_error code p (ask (fun t => file_data t q)) v w = (r, v', w') -> v' = v /\ (forall x, r = Ok x -> x = d).
Proof.
  intros Hv Hq (r0 & [-> H]%ask_cases & ->)%with_err_cases. split; [done|]. intros x Hx. destruct r0 as [y|]; [|done]. injection Hx as <-.
  specialize (H y eq_refl). rewrite Hv, (file_data_at _ _ _ _ (draft_lookup _ _ _ _ Hq)) in H. by injection H.
Qed.
Lemma open_read_draft m data q e code p v w r v' w' :
  vol_tree v = draft m data -> entry t true p = Ok (q, e) ->
  io_error code p (open_read p) v w = (r, v', w') -> v' = v /\ (forall x, r = Ok x -> x = q).
Proof.
  intros Hv Hq (r0 & [-> H]%ask_cases & ->)%with_err_cases. split; [done|]. intros x Hx. destruct r0 as [y|]; [|done]. injection Hx as <-.
  specialize (H y eq_refl). rewrite Hv, (draft_entry _ _ _ _ _ Hq) in H. cbn in H. by injection H.
Qed.

Lemma copy_whole_appends temporary path q m' content m data v w r v' w' :
  vol_tree v = draft m data -> entry t true path = Ok (q, EFile m' content) ->
  copy_whole torn temporary path tmp (String.length data) v w = (r, v', w') ->
  appends m data v r v' content /\ (forall n, r = Ok n -> n = String.length (data +:+ content)).
Proof.
  intros Hv He H. assert (forall e, appends m data v (Err (A := nat) e) v content) as Hstop.
  { intros e. split_and!; [apply passes_refl|rewrite Hv; by exists m, data|done|done]. }
  unfold copy_whole in H. apply bind_cases in H as (r1 & v1 & w1 & H1 & H). eapply open_read_draft in H1 as [-> Hq]; [|done..].
  destruct r1 as [q'|e]; [|destruct H as (-> & -> & ->); by split]. specialize (Hq q' eq_refl) as ->. pose proof (entry_found _ _ _ _ _ He) as Ht.
  rewrite bool_decide_false in H by congruence.
  apply bind_cases in H as (r2 & v2 & w2 & H2 & H). eapply ask_file_data in H2 as [-> Hd]; [|done..].
  destruct r2 as [d|e]; [|destruct H as (-> & -> & ->); by split]. rewrite (Hd d eq_refl) in H. clear Hd.
  apply bind_cases in H as (r3 & v3 & w3 & H3 & H). eapply write_appends in H3 as Ha; [|done]. destruct r3 as [[]|e].
  - unfold ret in H. injection H as <- <- <-. split; [done|]. intros n [= <-]. by rewrite string_length_app.
  - destruct H as (-> & -> & ->). by split.
Qed.

Lemma range_slice offset length data :
  0 <= offset -> 0 <= length -> offset + length <= str_len data ->
  (if str_len data <=? offset then "" else String.substring (Z.to_nat offset) (Z.to_nat (Z.min length (str_len data))) data)
  = String.substring (Z.to_nat offset) (Z.to_nat length) data.
Proof.
  intros H1 H2 H3. destruct (Z.leb_spec (str_len data) offset) as [H|H]; [|by rewrite Z.min_l by lia].
  assert (length = 0) as -> by lia. symmetry. generalize (Z.to_nat offset). clear. intros n. cbn. revert n. induction data; intros [|n]; cbn; auto.
Qed.

Lemma copy_range_appends path q m' file offset length content m data v w r v' w' :
  vol_tree v = draft m data -> entry t true path = Ok (q, EFile m' file) -> 0 <= offset -> 0 <= length -> slice offset length file = Some content ->
  copy_file_range torn path offset length tmp (String.length data) v w = (r, v', w') ->
  appends m data v r v' content /\ (forall n, r = Ok n -> n = String.length (data +:+ content)).
Proof.
  intros Hv He Ho Hlen Hs H. assert (forall e, appends m data v (Err (A := nat) e) v content) as Hstop.
  { intros e. split_and!; [apply passes_refl|rewrite Hv; by exists m, data|done|done]. }
  unfold slice in Hs. destruct (Z.leb_spec (offset + length) (str_len file)) as [Hb|]; [|done]. injection Hs as Hs.
  unfold copy_file_range in H. apply bind_cases in H as (r1 & v1 & w1 & H1 & H). eapply open_read_draft in H1 as [-> Hq]; [|done..].
  destruct r1 as [q'|e]; [|destruct H as (-> & -> & ->); by split]. specialize (Hq q' eq_refl) as ->. pose proof (entry_found _ _ _ _ _ He) as Ht.
  apply bind_cases in H as (r2 & v2 & w2 & H2 & H). apply with_err_cases in H2 as (r20 & [-> _]%ask_cases & ->).
  destruct r20 as [[]|e]; [|destruct H as (-> & -> & ->); by split].
  apply bind_cases in H as (r3 & v3 & w3 & H3 & H). apply with_err_cases in H3 as (r30 & [-> H3]%ask_cases & ->).
  destruct r30 as [copied|e]; [|destruct H as (-> & -> & ->); by split]. specialize (H3 copied eq_refl).
  rewrite Hv, (file_data_at _ _ _ _ (draft_lookup _ _ _ _ Ht)) in H3. cbn [bind_result] in H3. rewrite range_slice, Hs in H3 by done. injection H3 as <-.
  cbn [map_err] in H. apply bind_cases in H as (r4 & v4 & w4 & H4 & H). eapply write_appends in H4 as Ha; [|done]. destruct r4 as [[]|e].
  - assert (str_len content = length) as Hc.
    { rewrite <- Hs. unfold str_len in *. rewrite substring_length; lia. }
    rewrite (proj2 (Z.eqb_eq _ _) Hc) in H. unfold ret in H. injection H as <- <- <-. split; [done|]. intros n [= <-]. by rewrite string_length_app.
  - destruct H as (-> & -> & ->). by split.
Qed.

End Drafting.

(** ** The contents of the resources *)

Definition file_at (t : Tree) (p : Path) : option string :=
  match entry t true p with Ok (_, EFile _ data) => Some data | _ => None end.

(** The content of a resource: from the base pack when it did not change, from its file otherwise. *)
Definition resource_bytes (t : Tree) (base : option BasePack) (changed : list string) (resource : string * Path) : option string :=
  match from_base base changed resource.1 with
  | Some b => base_index b !! resource.1 ≫= fun range => file_at t (base_path b) ≫= slice range.1 range.2
  | None => file_at t resource.2
  end.

(** The ranges of a base pack are inside its file. *)
Definition base_sound (t : Tree) (base : option BasePack) : Prop :=
  forall b name offset length, base = Some b -> base_index b !! name = Some (offset, length) ->
    0 <= offset /\ 0 <= length /\ exists file, file_at t (base_path b) = Some file /\ offset + length <= str_len file.

Lemma file_at_Some t p data : file_at t p = Some data <-> exists q m, entry t true p = Ok (q, EFile m data).
Proof.
  unfold file_at. split; [|by intros (q & m & ->)]. destruct (entry t true p) as [[q []]|]; try done. intros [= ->]. by exists q, mode.
Qed.
Lemma read_file_at p code v w r v' w' :
  io_error code p (Fs.read p) v w = (r, v', w') -> v' = v /\ (forall x, r = Ok x -> file_at (vol_tree v) p = Some x).
Proof.
  intros (r0 & [-> H]%ask_cases & ->)%with_err_cases. split; [done|]. intros x Hx. destruct r0 as [y|]; [|done]. injection Hx as <-.
  specialize (H y eq_refl). unfold file_at. destruct (entry _ true p) as [[q []]|]; try done. cbn in H. by injection H as ->.
Qed.
Lemma range_file_at p offset length file v w r v' w' :
  0 <= offset -> 0 <= length -> file_at (vol_tree v) p = Some file -> offset + length <= str_len file -> hash_file_range_into p offset length v w = (r, v', w') ->
  v' = v /\ (forall x, r = Ok x -> file_at (vol_tree v) p ≫= slice offset length = Some x).
Proof.
  intros Ho Hl (q0 & m & E)%file_at_Some Hb H. unfold hash_file_range_into in H.
  apply bind_cases in H as (r1 & v1 & w1 & H1 & H). apply with_err_cases in H1 as (k1 & [-> H1]%ask_cases & ->).
  destruct k1 as [q|]; [|by destruct H as (-> & -> & _)]. specialize (H1 q eq_refl).
  apply bind_cases in H as (r2 & v2 & w2 & H2 & H). apply with_err_cases in H2 as (k2 & [-> _]%ask_cases & ->).
  destruct k2 as [[]|]; [|by destruct H as (-> & -> & _)].
  apply bind_cases in H as (r3 & v3 & w3 & H3 & H). apply with_err_cases in H3 as (k3 & [-> H3]%ask_cases & ->).
  destruct k3 as [copied|]; [|by destruct H as (-> & -> & _)]. specialize (H3 copied eq_refl). cbn [map_err] in H.
  destruct (Z.eqb_spec (str_len copied) length) as [Hc|]; [|unfold fail in H; by injection H as <- <- _]. unfold ret in H. injection H as <- <- _.
  split; [done|]. intros x [= <-]. rewrite E in H1. cbn in H1. injection H1 as <-. pose proof (entry_found _ _ _ _ _ E) as Hq.
  rewrite (file_data_at _ _ _ _ Hq) in H3. cbn [bind_result] in H3. rewrite range_slice in H3 by done. injection H3 as <-.
  unfold file_at. rewrite E. cbn. unfold slice. by destruct (Z.leb_spec (offset + length) (str_len file)) as [|]; [|lia].
Qed.

Definition contents_of (t : Tree) (base : option BasePack) (changed : list string) (resources : list (string * Path)) (contents : list string) : Prop :=
  Forall2 (fun resource content => resource_bytes t base changed resource = Some content) resources contents.

(** The text that is hashed *)
Definition hashed_text (paths contents : list string) : string :=
  join_all (zip_with (fun path content => path +:+ String NUL "" +:+ content) paths contents).

Lemma content_text_spec base changed resources text v w r v' w' :
  base_sound (vol_tree v) base -> content_text base changed resources text v w = (r, v', w') ->
  v' = v /\ (forall x, r = Ok x -> exists contents, contents_of (vol_tree v) base changed resources contents /\ x = text +:+ hashed_text resources.*1 contents).
Proof.
  intros Hb. revert text w. induction resources as [|[relative path] resources IH]; intros text w H.
  - cbn in H. unfold ret in H. injection H as <- <- _. split; [done|]. intros x [= <-]. exists []. split; [constructor|]. by rewrite string_app_nil_r.
  - cbn [content_text] in H. apply bind_cases in H as (r1 & v1 & w1 & H1 & H).
    assert (v1 = v /\ forall c, r1 = Ok c -> resource_bytes (vol_tree v) base changed (relative, path) = Some c) as [-> Hc].
    { unfold resource_bytes. cbn [fst snd]. destruct (from_base base changed relative) as [b|] eqn:Ef; [|by eapply read_file_at].
      apply bind_cases in H1 as (r2 & v2 & w2 & H2 & H1). unfold lift in H2. injection H2 as <- <- <-. unfold base_range in H1.
      destruct (base_index b !! relative) as [[offset len]|] eqn:Ei; cbn [ok_or] in H1; [|by destruct H1 as (-> & -> & _)].
      assert (base = Some b) as -> by (unfold from_base in Ef; destruct base; [|done]; by destruct (path_matches_prefix _ _); simplify_eq).
      destruct (Hb _ _ _ _ eq_refl Ei) as (Ho & Hl & file & Hf & Hle). apply (range_file_at _ _ _ file) in H1 as [-> H1]; [|done..]. split; [done|]. intros c ->. cbn. by apply H1. }
    destruct r1 as [c|]; [|destruct H as (-> & -> & _); done]. apply IH in H as [-> H]. split; [done|]. intros x ->.
    destruct (H x eq_refl) as (contents & Hcs & ->). exists (c :: contents). split; [constructor; [by apply Hc|done]|].
    unfold hashed_text. cbn. rewrite <- !string_app_assoc. done.
Qed.

(** Sizes that add up to no more than a machine word *)
Definition small_files (t : Tree) : Prop := forall q m data, t !! q = Some (EFile m data) -> str_len data < 2 ^ 47.

Lemma file_at_small t p data : small_files t -> file_at t p = Some data -> str_len data < 2 ^ 47.
Proof. intros Hs (q & m & He)%file_at_Some. by eapply Hs, entry_found. Qed.

Lemma resource_offsets_spec base changed resources contents at_end v w r v' w' :
  base_sound (vol_tree v) base -> small_files (vol_tree v) -> contents_of (vol_tree v) base changed resources contents ->
  0 <= at_end -> at_end + Z.of_nat (length resources) * 2 ^ 47 <= U64_MAX ->
  resource_offsets base changed resources at_end v w = (r, v', w') ->
  v' = v /\ (forall x, r = Ok x -> at_end :: x = starts at_end (str_len <$> contents)).
Proof.
  intros Hb Hs HF. revert at_end w r v' w'. induction HF as [|[relative path] content resources contents Hc HF IH]; intros at_end w r v' w' H0 Hmax H.
  - cbn in H. unfold ret in H. injection H as <- <- _. split; [done|]. by intros x [= <-].
  - cbn [resource_offsets] in H. apply bind_cases in H as (r1 & v1 & w1 & H1 & H).
    assert (v1 = v /\ (str_len content < 2 ^ 47) /\ forall n, r1 = Ok n -> n = str_len content) as (-> & Hlt & Hn).
    { unfold resource_bytes in Hc. cbn [fst snd] in Hc. destruct (from_base base changed relative) as [b|] eqn:Ef.
      - unfold base_range in H1. destruct (base_index b !! relative) as [[offset len]|] eqn:Ei; [|done]. cbn in Hc.
        assert (base = Some b) as -> by (unfold from_base in Ef; destruct base; [|done]; by destruct (path_matches_prefix _ _); simplify_eq).
        destruct (Hb _ _ _ _ eq_refl Ei) as (Ho & Hl & file & Hf & Hle). pose proof (file_at_small _ _ _ Hs Hf). rewrite Hf in Hc. cbn in Hc. unfold slice in Hc.
        destruct (Z.leb_spec (offset + len) (str_len file)) as [_|]; [|done]. injection Hc as <-.
        assert (str_len (String.substring (Z.to_nat offset) (Z.to_nat len) file) = len) as -> by (unfold str_len in *; rewrite substring_length; lia).
        cbn in H1. unfold bind, lift, ret in H1. cbn in H1. injection H1 as <- <- _. split_and!; [done|lia|by intros n [= <-]].
      - apply bind_cases in H1 as (r2 & v2 & w2 & H2 & H1). apply with_err_cases in H2 as (k2 & [-> H2]%ask_cases & ->).
        pose proof (file_at_small _ _ _ Hs Hc). apply file_at_Some in Hc as (q & m & Hq).
        destruct k2 as [e|]; [|destruct H1 as (-> & -> & _); by split_and!]. specialize (H2 e eq_refl). rewrite Hq in H2. cbn in H2. injection H2 as <-.
        cbn [map_err] in H1. unfold ret in H1. injection H1 as <- <- _. split_and!; [done|done|]. intros n [= <-]. done. }
    destruct r1 as [n|]; [|destruct H as (-> & -> & _); done]. rewrite (Hn n eq_refl) in H. clear Hn. pose proof (str_len_nonneg content).
    cbn [length] in Hmax. rewrite u64_add_small in H by lia. apply bind_cases in H as (r5 & v5 & w5 & H5 & H). apply IH in H5 as [-> H5]; [|lia..].
    destruct r5 as [rest|]; [|destruct H as (-> & -> & _); done]. unfold ret in H. injection H as <- <- _. split; [done|]. intros x [= <-].
    cbn [fmap list_fmap starts]. f_equal. by apply H5.
Qed.

(** ** Writing the contents *)

Lemma resources_append torn t tmp base changed temporary resources contents m data v w r v' w' :
  t !! tmp = None -> base_sound t base -> contents_of t base changed resources contents ->
  vol_tree v = draft t tmp m data -> write_resources torn base changed temporary tmp (String.length data) resources v w = (r, v', w') ->
  appends t tmp m data v r v' (join_all contents).
Proof.
  intros Hvac Hb HF. revert data v w. induction HF as [|[relative path] content resources contents Hc HF IH]; intros data v w Hv H.
  - cbn in H. unfold ret in H. injection H as <- <- _. split_and!; [apply passes_refl|rewrite Hv; by exists m, data|done|by rewrite string_app_nil_r].
  - cbn [write_resources] in H. apply bind_cases in H as (r1 & v1 & w1 & H1 & H).
    assert (appends t tmp m data v r1 v1 content /\ forall n, r1 = Ok n -> n = String.length (data +:+ content)) as [(Hp & Hd & Hu & Hok) Hn].
    { unfold resource_bytes in Hc. cbn [fst snd] in Hc. destruct (from_base base changed relative) as [b|] eqn:Ef.
      - destruct (base_index b !! relative) as [[offset len]|] eqn:Ei; [|done]. cbn in Hc.
        assert (base = Some b) as -> by (unfold from_base in Ef; destruct base; [|done]; by destruct (path_matches_prefix _ _); simplify_eq).
        destruct (Hb _ _ _ _ eq_refl Ei) as (Ho & Hl & file & Hf & _). rewrite Hf in Hc. cbn in Hc. apply file_at_Some in Hf as (q & m' & Hq).
        change (copy_file_range torn (base_path b) offset len tmp (String.length data) v w = (r1, v1, w1)) in H1. exact (copy_range_appends torn t tmp Hvac _ _ _ _ _ _ _ _ _ _ _ _ _ _ Hv Hq Ho Hl Hc H1).
      - apply file_at_Some in Hc as (q & m' & Hq). exact (copy_whole_appends torn t tmp Hvac _ _ _ _ _ _ _ _ _ _ _ _ Hv Hq H1). }
    destruct r1 as [n|e]; [|destruct H as (-> & -> & _); by split_and!]. rewrite (Hn n eq_refl) in H.
    apply IH in H as (Hp' & Hd' & Hu' & Hok'); [|by apply Hok]. split_and!; [by eapply passes_trans|done|congruence|].
    intros Hr. rewrite (Hok' Hr). cbn [join_all foldr]. by rewrite string_app_assoc.
Qed.

Lemma rows_pieces (g : nat -> Z) (l : list Z) (f : list string) :
  join_all (concat (imap (fun i o => [le16 (g i); le32 o]) l) ++ f) = rows_text (imap (fun i o => (g i, o)) l) +:+ join_all f.
Proof.
  revert g. induction l as [|o l IH]; intros g; [done|]. rewrite !imap_cons. cbn [concat app rows_text].
  change (join_all (?a :: ?b :: ?l)) with (a +:+ b +:+ join_all l). rewrite <- !string_app_assoc. do 2 f_equal. apply (IH (g ∘ S)).
Qed.
Lemma rows_text_app a b : rows_text (a ++ b) = rows_text a +:+ rows_text b.
Proof. induction a as [|[id o] a IH]; [done|]. cbn [app rows_text]. by rewrite IH, !string_app_assoc. Qed.

Lemma head_pieces_text manifest contents :
  let offsets := pack_starts manifest contents in
  join_all (head_pieces (S (length contents)) offsets (default 0 (last offsets)) manifest) +:+ join_all contents = pack_bytes manifest contents.
Proof.
  cbv zeta. unfold head_pieces, pack_bytes, pack_rows, index_pieces, numbered. rewrite join_all_app, rows_pieces, rows_text_app.
  cbn [join_all foldr rows_text]. rewrite !string_app_nil_r, <- !string_app_assoc. done.
Qed.

(** ** A run of the packer *)

Section Packing.
Context (to_vec : Value -> string) (from_slice : string -> option Value).
Context (sha256_hex : string -> string) (torn : string -> string) (pid : Z) (fuel : nat).
Context (platform arch bundle_name : string).

Definition manifest_of (paths contents : list string) : string :=
  to_vec (pack_manifest platform arch bundle_name (sha256_hex (hashed_text paths contents)) paths).
Definition pack_of (paths contents : list string) : string := pack_bytes (manifest_of paths contents) contents.

(** The place of the output: its directory exists, nothing is at the temporary name, and no directory at its own. *)
Record pack_target (t : Tree) (dir : place) (name : string) : Prop := mk_pack_target {
  pt_wf : tree_wf t;
  pt_clear : clear t dir;
  pt_dir : dir_at t dir = true;
  pt_vacant : t !! (dir ++ [temporary_name pid]) = None;
  pt_file : dir_at t (dir ++ [name]) = false;
  pt_name : name <> temporary_name pid;
}.

Lemma target_clear t dir name n : pack_target t dir name -> clear t (dir ++ [n]).
Proof. intros H. apply clear_snoc. split; [by apply (pt_clear _ _ _ H)|by apply (pt_dir _ _ _ H)]. Qed.

(** A moment of writing: nothing changed but the draft and the output, and the output is the old one or the whole pack. *)
Definition pack_moment (t : Tree) (dir : place) (name data : string) (t' : Tree) : Prop :=
  agree [dir ++ [temporary_name pid]; dir ++ [name]] t t' /\
  (t' !! (dir ++ [name]) = t !! (dir ++ [name]) \/ exists m, t' !! (dir ++ [name]) = Some (EFile m data)).

Lemma draft_moment t dir name data t' :
  name <> temporary_name pid -> drafting t (dir ++ [temporary_name pid]) t' -> pack_moment t dir name data t'.
Proof.
  intros Hne (m & d & ->). unfold draft. split.
  - eapply agree_mono; [|apply agree_insert]. apply Forall_singleton, Exists_cons_hd. done.
  - left. rewrite lookup_insert_ne; [done|]. intros E%app_inv_head. congruence.
Qed.

(** The tree after the draft was moved to the output *)
Lemma rename_draft t dir name m data t' :
  pack_target t dir name -> Fs.rename_tree (dir ++ [temporary_name pid]) (dir ++ [name]) (draft t (dir ++ [temporary_name pid]) m data) = Ok t' ->
  t' !! (dir ++ [name]) = Some (EFile m data) /\ t' !! (dir ++ [temporary_name pid]) = None /\
  agree [dir ++ [temporary_name pid]; dir ++ [name]] t t'.
Proof.
  intros HT. apply rename_new_file. intros E. by apply (pt_name _ _ _ HT).
Qed.

(** [write_pack]: a moment of writing throughout; afterwards the whole pack on success. *)
Lemma write_pack_run dir name base changed resources contents manifest v w r v' w' :
  let t := vol_tree v in let data := pack_bytes manifest contents in
  pack_target t dir name -> base_sound t base -> contents_of t base changed resources contents ->
  write_pack torn base changed resources (pack_starts manifest contents) manifest (at_ (dir ++ [temporary_name pid])) (at_ (dir ++ [name])) v w = (r, v', w') ->
  passes (pack_moment t dir name data) v v' /\
  match r with
  | Ok _ => exists m, vol_tree v' !! (dir ++ [name]) = Some (EFile m data) /\ vol_tree v' !! (dir ++ [temporary_name pid]) = None /\
              agree [dir ++ [temporary_name pid]; dir ++ [name]] t (vol_tree v')
  | Err _ => vol_tree v' = t \/ drafting t (dir ++ [temporary_name pid]) (vol_tree v')
  end.
Proof.
  intros t data HT Hb HF H. unfold write_pack in H. set (tmp := dir ++ [temporary_name pid]) in *. pose proof (pt_vacant _ _ _ HT : t !! tmp = None) as Hvac.
  assert (forall t', drafting t tmp t' -> pack_moment t dir name data t') as Hmom by (intros t' Hd; apply draft_moment; [by apply (pt_name _ _ _ HT)|done]).
  apply bind_cases in H as (r1 & v1 & w1 & H1 & H). apply with_err_cases in H1 as (k1 & H1 & ->).
  apply open_truncate_vacant in H1 as [(k & -> & ->)|(m & -> & ->)]; [| |by eapply target_clear|done].
  { destruct H as (-> & -> & _). split; [apply passes_refl|by left]. }
  cbn [map_err] in H. fold tmp in H. assert (vol_tree (log v (<[tmp := EFile m ""]> (vol_tree v))) = draft t tmp m "") as Hv1 by done.
  assert (passes (pack_moment t dir name data) v (log v (<[tmp := EFile m ""]> (vol_tree v)))) as Hp1 by (apply passes_log, Hmom; by exists m, "").
  set (v1 := log v _) in *. clearbody v1. pose proof (Forall2_length _ _ _ HF) as Hlen. rewrite Hlen in H.
  assert (pack_starts manifest contents !! S (length contents) = Some (default 0 (last (pack_starts manifest contents)))) as Hlast.
  { rewrite pack_last_offset. cbn [default]. rewrite (pack_offset_lookup manifest contents (S (length contents))) by reflexivity. unfold pack_size. f_equal. f_equal. rewrite take_ge; [done|]. by rewrite length_fmap. }
  rewrite Hlast in H. cbn [ok_or] in H. unfold bind at 1 in H. unfold lift at 1 in H.
  apply bind_cases in H as (r2 & v2 & w2 & H2 & H). change 0%nat with (String.length "") in H2.
  eapply (pieces_append torn t tmp) in H2 as [(Hp2 & Hd2 & _ & Hok2) Hn]; [|exact Hv1]. apply (passes_impl _ _ _ _ Hmom) in Hp2.
  destruct r2 as [n|e]; [|destruct H as (-> & -> & _); split; [by eapply passes_trans|by right]]. rewrite (Hn n eq_refl) in H.
  specialize (Hok2 eq_refl). change ("" +:+ ?x) with x in *.
  apply bind_cases in H as (r3 & v3 & w3 & H3 & H). apply (resources_append torn t tmp base changed _ resources contents m _ _ _ _ _ _ Hvac Hb HF Hok2) in H3 as (Hp3 & Hd3 & _ & Hok3). apply (passes_impl _ _ _ _ Hmom) in Hp3.
  assert (passes (pack_moment t dir name data) v v3) as Hp by (eapply passes_trans; [exact Hp1|eapply passes_trans; [exact Hp2|exact Hp3]]).
  destruct r3 as [[]|e]; [|destruct H as (-> & -> & _); split; [done|by right]]. specialize (Hok3 eq_refl). rewrite head_pieces_text in Hok3.
  apply bind_cases in H as (r4 & v4 & w4 & H4 & H). apply with_err_cases in H4 as (k4 & [-> _]%ask_cases & ->).
  destruct k4 as [[]|]; [|destruct H as (-> & -> & _); split; [done|by right]]. cbn [map_err] in H. apply with_err_cases in H as (k5 & H & ->).
  assert (forall x, clear (vol_tree v3) (dir ++ [x])) as Hclear.
  { intros x. rewrite Hok3. apply (clear_dirs t); [|by eapply target_clear]. intros q _ Hq. unfold dir_at, draft in *. rewrite lookup_insert_ne; [done|].
    intros <-. by rewrite Hvac in Hq. }
  apply rename_at in H as [(k & -> & ->)|(t' & Ht & -> & ->)]; [split; [done|by right]|  |apply Hclear|apply Hclear].
  rewrite Hok3 in Ht. apply rename_draft in Ht as (Ho & Hg & Ha); [|done]. cbn [map_err]. split.
  - eapply passes_trans; [exact Hp|]. apply passes_log. split; [done|]. right. by exists m.
  - exists m. by split_and!.
Qed.

(** ** What comes before writing *)

Lemma inert_io_ask {A : Type} (code : string) (p : Path) (f : Tree -> result IoKind A) : inert (io_error code p (ask f)).
Proof. apply inert_with_err, inert_ask. Qed.
Lemma inert_lift {E A} (r : result E A) : inert (lift r).
Proof. intros v w r' v' w' H. unfold lift in H. by injection H as _ <- _. Qed.
Lemma inert_test {E : Type} (f : Tree -> result IoKind Entry) (g : Entry -> bool) : inert (E := E) (Fs.test (ask f) g).
Proof. intros v w r v' w' (r0 & H & _)%test_cases. by eapply inert_ask. Qed.

Lemma collect_pack_inert n root tree relative : inert (collect_pack_tree n root tree relative).
Proof.
  revert relative. induction n as [|n IH]; intros relative; [apply inert_fail|]. cbn [collect_pack_tree]. apply inert_bind; [apply inert_io_ask|].
  intros names. apply inert_bind; [|intros; apply inert_ret]. apply inert_map_m. intros name.
  apply inert_bind; [apply inert_io_ask|]. intros resolved. apply inert_bind; [apply inert_io_ask|]. intros canonical.
  apply inert_bind; [destruct (within _ _); [apply inert_bind; [apply inert_io_ask|intros; apply inert_ret]|apply inert_ret]|].
  intros []; [apply inert_fail|]. apply inert_bind; [apply inert_io_ask|]. intros e. destruct (entry_is_dir e); [apply IH|].
  destruct (entry_is_file e); apply inert_ret.
Qed.
Lemma tree_resources_inert root tree : inert (tree_resources fuel root tree).
Proof.
  unfold tree_resources. apply inert_bind; [apply inert_lift|]. intros _. destruct (unsafe_prefix _); [apply inert_fail|].
  apply inert_bind; [apply inert_test|]. intros []; [apply collect_pack_inert|apply inert_fail].
Qed.
Lemma gather_inert root trees : inert (gather_resources fuel root trees).
Proof.
  unfold gather_resources. apply inert_bind; [apply inert_map_m, tree_resources_inert|]. intros parts.
  destruct (duplicate_path _); [apply inert_fail|]. destruct (merge_sort _ _); [apply inert_fail|apply inert_ret].
Qed.

(** The base pack: its file has the digest, and its index is what the file says. *)
Lemma base_entries_spec path digest v w r v' w' :
  base_entries from_slice sha256_hex path digest v w = (r, v', w') ->
  v' = v /\ forall base, r = Ok base ->
    base_sound (vol_tree v) base /\ base_path <$> base = path /\
    forall b, base = Some b -> exists data short, file_at (vol_tree v) (base_path b) = Some data /\
      digest = Some ("sha256:" +:+ sha256_hex data) /\ parse_bytes from_slice short data = Ok (base_index b).
Proof.
  intros H. unfold base_entries in H. destruct path as [path|].
  2:{ unfold ret in H. injection H as <- <- _. split; [done|]. intros base [= <-]. split_and!; [by intros b|done|by intros b]. }
  apply bind_cases in H as (r1 & v1 & w1 & H1 & H). unfold lift in H1. injection H1 as <- <- <-.
  destruct digest as [expected|]; cbn [ok_or] in H; [|by destruct H as (-> & -> & _)].
  apply bind_cases in H as (r2 & v2 & w2 & H2 & H). apply read_file_at in H2 as [-> H2]. destruct r2 as [data|]; [|by destruct H as (-> & -> & _)].
  specialize (H2 data eq_refl). destruct (String.eqb_spec ("sha256:" +:+ sha256_hex data) expected) as [<-|]; cbn [negb] in H; [|unfold fail in H; by injection H as <- <- _].
  apply bind_cases in H as (r3 & v3 & w3 & H3 & H). pose proof H2 as (q & m & He)%file_at_Some.
  eapply parse_run in H3 as (-> & _ & H3); [|exact He|by eapply entry_found].
  destruct r3 as [entries|]; [|by destruct H as (-> & -> & _)]. destruct H3 as [H3|[? _]]; [|done]. unfold ret in H. injection H as <- <- _.
  split; [done|]. intros base [= <-]. split_and!; [|done|].
  - intros b name offset length [= <-] Hr. cbn in *.
    pose proof (parse_bytes_safe from_slice (rpc_error "BASE_DATAPACK_INVALID" (display path +:+ ": ")) data eq_refl) as Hs.
    rewrite <- H3 in Hs. destruct (Hs _ _ _ Hr) as (Ho & Hl & Hb). split_and!; [done|done|]. by exists data.
  - intros b [= <-]. eexists data, _. by split_and!.
Qed.

Definition manifest_small (v : Volume) (root : Path) (trees : list DataPackResourceTree) : Prop :=
  forall resources contents w w', gather_resources fuel root trees v w = (Ok resources, v, w') -> str_len (manifest_of resources.*1 contents) < 2 ^ 47.

Lemma pack_offsets_spec base changed resources contents manifest v w r v' w' :
  base_sound (vol_tree v) base -> small_files (vol_tree v) -> contents_of (vol_tree v) base changed resources contents ->
  str_len manifest < 2 ^ 47 -> Z.of_nat (length resources + 1) <= U16_MAX ->
  pack_offsets base changed resources manifest v w = (r, v', w') ->
  v' = v /\ forall offsets, r = Ok offsets -> offsets = pack_starts manifest contents /\ pack_size manifest contents <= U32_MAX.
Proof.
  intros Hb Hs HF Hm Hc H. pose proof (Forall2_length _ _ _ HF) as Hlen. unfold pack_offsets in H. pose proof (str_len_nonneg manifest).
  assert (12 + Z.of_nat ((S (length resources) + 1) * 6) = head_size (length contents)) as Eh by (unfold head_size; lia). rewrite Eh in H.
  assert (0 <= head_size (length contents) <= 2 ^ 20) as Hh by (unfold head_size, U16_MAX in *; lia).
  rewrite u64_add_small in H by (unfold U64_MAX; lia). apply bind_cases in H as (r1 & v1 & w1 & H1 & H).
  eapply resource_offsets_spec in H1 as [-> H1]; [|done..|lia|unfold U64_MAX, U16_MAX in *; lia].
  destruct r1 as [rest|]; [|by destruct H as (-> & -> & _)]. specialize (H1 rest eq_refl).
  assert (head_size (length contents) :: (head_size (length contents) + str_len manifest) :: rest = pack_starts manifest contents) as E.
  { unfold pack_starts. cbn [fmap list_fmap starts]. f_equal. exact H1. }
  rewrite E, pack_last_offset in H. change (default 0 (Some ?x)) with x in H. destruct (Z.ltb_spec U32_MAX (pack_size manifest contents)) as [|Hle].
  - unfold fail in H. by injection H as <- <- _.
  - unfold ret in H. injection H as <- <- _. split; [done|]. by intros offsets [= <-].
Qed.

(** ** The whole run *)

Definition relative_path (q : place) : Path := mkPath false (Normal <$> q).

Lemma join_relative root q : join_path (at_ root) (relative_path q) = at_ (root ++ q).
Proof. unfold join_path, relative_path, at_. cbn. by rewrite fmap_app. Qed.

(** What a run that got as far as writing had found. *)
Record pack_plan (v : Volume) (root : Path) (trees : list DataPackResourceTree) (base_pack_path : option Path)
    (base_pack_digest : option string) (changed : list string)
    (resources : list (string * Path)) (base : option BasePack) (contents : list string) : Prop := mk_pack_plan {
  plan_resources : exists w w', gather_resources fuel root trees v w = (Ok resources, v, w');
  plan_base : exists w w', base_entries from_slice sha256_hex base_pack_path base_pack_digest v w = (Ok base, v, w');
  plan_contents : contents_of (vol_tree v) base changed resources contents;
  plan_count : Z.of_nat (S (length contents)) <= U16_MAX;
  plan_size : pack_size (manifest_of resources.*1 contents) contents <= U32_MAX;
}.

Definition pack_answer (output : Path) (base_pack_path : option Path) (changed : list string) (base : option BasePack)
    (paths contents : list string) : Value :=
  let data := pack_of paths contents in
  obj_of [("output", VString (display output)); ("resources", vu64 (Z.of_nat (length contents + 1)));
          ("entries", vu64 (Z.of_nat (length contents))); ("size", vu64 (str_len data));
          ("sha256", VString ("sha256:" +:+ sha256_hex data));
          ("contentHash", VString ("sha256:" +:+ sha256_hex (hashed_text paths contents)));
          ("incremental", VBool (bool_decide (is_Some base)));
          ("basePack", vopt (fun p => VString (display p)) base_pack_path);
          ("changedPrefixes", VArray (VString <$> changed))].

(** The output can be read where it was written. *)
Lemma output_readable t t' dir name m data :
  pack_target t dir name -> agree [dir ++ [temporary_name pid]; dir ++ [name]] t t' -> t' !! (dir ++ [name]) = Some (EFile m data) ->
  file_at t' (at_ (dir ++ [name])) = Some data.
Proof.
  intros HT Ha Ho. apply file_at_Some. exists (dir ++ [name]), m. rewrite entry_clear; [by rewrite Ho| |unfold is_link_at; by rewrite Ho].
  assert (outside [dir ++ [temporary_name pid]; dir ++ [name]] dir) as Hout by (repeat constructor; by apply below_above).
  apply clear_snoc. split; [by eapply clear_outside, (pt_clear _ _ _ HT)|]. unfold dir_at. rewrite Ha by done. apply (pt_dir _ _ _ HT).
Qed.

(** Removing the draft is a moment of writing. *)
Lemma cleanup_moment t dir name data v w r v' w' :
  pack_target t dir name -> vol_tree v = t \/ drafting t (dir ++ [temporary_name pid]) (vol_tree v) ->
  Fs.remove_file (at_ (dir ++ [temporary_name pid])) v w = (r, v', w') -> passes (pack_moment t dir name data) v v'.
Proof.
  intros HT Hv H. pose proof (pt_vacant _ _ _ HT) as Hvac.
  assert (clear (vol_tree v) (dir ++ [temporary_name pid])) as Hc.
  { apply (clear_dirs t); [|by eapply target_clear]. intros q _ Hq. destruct Hv as [->|(m & d & ->)]; [done|].
    unfold dir_at, draft in *. rewrite lookup_insert_ne; [done|]. intros <-. by rewrite Hvac in Hq. }
  apply remove_file_at in H as [(k & -> & ->)|[-> ->]]; [apply passes_refl| |done]. apply passes_log.
  assert (delete (dir ++ [temporary_name pid]) (vol_tree v) = t) as ->; [|split; [apply agree_refl|by left]].
  destruct Hv as [->|(m & d & ->)]; [by apply delete_id|by apply delete_insert_id].
Qed.

Section Run.
Context (root dir : place) (name : string) (trees : list DataPackResourceTree).
Context (base_pack_path : option Path) (base_pack_digest : option string) (changed : list string).
Context (v : Volume).
Hypothesis Htarget : pack_target (vol_tree v) (root ++ dir) name.
Hypothesis Hsmall : small_files (vol_tree v).
Hypothesis Hmanifest : manifest_small v (at_ root) trees.

Let output : place := (root ++ dir) ++ [name].
Let temporary : place := (root ++ dir) ++ [temporary_name pid].

Lemma pack_run w r v' w' :
  pack_chromium_datapack to_vec from_slice sha256_hex torn pid fuel (at_ root) trees (relative_path (dir ++ [name])) platform arch bundle_name
    base_pack_path base_pack_digest changed v w = (r, v', w') ->
  (v' = v /\ is_err r = true) \/
  exists resources base contents,
    pack_plan v (at_ root) trees base_pack_path base_pack_digest changed resources base contents /\
    passes (pack_moment (vol_tree v) (root ++ dir) name (pack_of resources.*1 contents)) v v' /\
    (forall a, r = Ok a ->
       a = pack_answer (at_ output) base_pack_path changed base resources.*1 contents /\
       (exists m, vol_tree v' !! output = Some (EFile m (pack_of resources.*1 contents))) /\
       vol_tree v' !! temporary = None /\ agree [temporary; output] (vol_tree v) (vol_tree v')).
Proof.
  intros H. unfold pack_chromium_datapack in H.
  apply bind_cases in H as (r1 & v1 & w1 & H1 & H). unfold lift in H1. injection H1 as <- <- <-.
  destruct (pack_relative (relative_path (dir ++ [name]))) as [[]|]; [|destruct H as (-> & -> & _); by left].
  apply bind_cases in H as (r2 & v2 & w2 & H2 & H). pose proof (gather_inert _ _ _ _ _ _ _ H2) as ->.
  destruct r2 as [resources|]; [|destruct H as (-> & -> & _); by left].
  apply bind_cases in H as (r3 & v3 & w3 & H3 & H). pose proof (base_entries_spec _ _ _ _ _ _ _ H3) as [-> Hbase].
  destruct r3 as [base|]; [|destruct H as (-> & -> & _); by left]. destruct (Hbase base eq_refl) as (Hb & _ & _).
  destruct (_ && _) in H; [unfold fail in H; injection H as <- <- _; by left|].
  destruct (Z.ltb_spec U16_MAX (Z.of_nat (length resources + 1))) as [|Hcount]; [unfold fail in H; injection H as <- <- _; by left|].
  apply bind_cases in H as (r4 & v4 & w4 & H4 & H). apply content_text_spec in H4 as [-> H4]; [|done].
  destruct r4 as [text|]; [|destruct H as (-> & -> & _); by left]. destruct (H4 text eq_refl) as (contents & HF & ->). change ("" +:+ ?x) with x in H.
  fold (manifest_of resources.*1 contents) in H. pose proof (Forall2_length _ _ _ HF) as Hlen.
  apply bind_cases in H as (r5 & v5 & w5 & H5 & H). eapply pack_offsets_spec in H5 as [-> H5]; [|done..|by eapply Hmanifest|done].
  destruct r5 as [offsets|]; [|destruct H as (-> & -> & _); by left]. destruct (H5 offsets eq_refl) as [-> Hsize]. clear H5.
  rewrite join_relative, app_assoc, path_parent_at in H. cbn [ok_or] in H. unfold bind at 1 in H. unfold lift at 1 in H.
  unfold bind at 1 in H. unfold io_error, with_err in H. rewrite create_dir_all_present in H; [|apply (pt_clear _ _ _ Htarget)|apply (pt_dir _ _ _ Htarget)].
  cbn [map_err] in H. rewrite join_at in H. fold output temporary in H.
  right. exists resources, base, contents.
  assert (pack_plan v (at_ root) trees base_pack_path base_pack_digest changed resources base contents) as Hplan.
  { constructor; [by exists w, w2|by exists w2, w3|done|lia|done]. }
  split; [done|]. apply bind_cases in H as (r6 & v6 & w6 & H6 & H). apply attempt_cases in H6 as (written & -> & H6).
  pose proof (write_pack_run _ _ _ _ _ _ _ _ _ _ _ _ Htarget Hb HF H6) as [Hp Hend]. clear H6. set (t := vol_tree v) in *.
  assert (name <> temporary_name pid) as Hne by apply (pt_name _ _ _ Htarget).
  destruct written as [[]|e]; cbn [is_err] in H.
  - apply bind_cases in H as (ra & va & wa & E & H). unfold ret in E. injection E as <- <- <-.
    apply bind_cases in H as (ra & va & wa & E & H). unfold lift in E. injection E as <- <- <-. destruct Hend as (m & Ho & Hg & Ha). fold output temporary in Ho, Hg, Ha.
    pose proof (output_readable _ _ _ _ _ _ Htarget Ha Ho) as Hf. fold output in Hf.
    apply bind_cases in H as (r7 & v7 & w7 & H7 & H). apply read_file_at in H7 as [-> H7].
    destruct r7 as [bytes|]; [|destruct H as (-> & -> & _); by split]. specialize (H7 bytes eq_refl). rewrite Hf in H7. injection H7 as <-.
    apply bind_cases in H as (r8 & v8 & w8 & H8 & H). apply with_err_cases in H8 as (k8 & [-> H8]%ask_cases & ->).
    destruct k8 as [e|]; [|destruct H as (-> & -> & _); by split]. specialize (H8 e eq_refl). apply file_at_Some in Hf as (q & m' & Hq).
    rewrite Hq in H8. cbn in H8. injection H8 as <-. unfold ret in H. injection H as <- <- _. split; [done|]. intros a [= <-]. split; [|by split_and!; [exists m| |]].
    unfold pack_answer. by rewrite Hlen.
  - apply bind_cases in H as (r7 & v7 & w7 & H7 & H). apply bind_cases in H7 as (r8 & v8 & w8 & H8 & H7).
    apply attempt_cases in H8 as (r9 & -> & H8). unfold ret in H7. injection H7 as <- <- <-. unfold bind, lift in H. injection H as <- <- <-.
    split; [|done]. eapply passes_trans; [exact Hp|]. by eapply cleanup_moment.
Qed.

End Run.

End Packing.
