(* ===== verification/DataPackTheorems.v ===== *)
(** * What a pack holds

    The collected resources are the files of the trees that are not excluded, a
    pack is read back to exactly these with their contents, and packing on top of
    an earlier pack writes the bytes of a full pack. *)
From Stdlib Require Import Ascii.
From stdpp Require Import base gmap strings list sorting pretty.
From S2P Require Import Prelude Json Protocol Store PathPolicy FileTree FileTreeLaws Generations Framing FramingCodec Controller TreeDigest ArtifactRelay GenerationSafety.
From S2P Require Import DataPack DataPackFormat DataPackSafety.
Open Scope Z_scope.
Open Scope fabric_scope.

(** ** Collected resources *)

(** A file below [base ++ relative] that is packed, as its path in the pack and its path on the disk *)
Definition packs_file (t : Tree) (base : place) (tree : DataPackResourceTree) (relative q : place) (x : string * Path) : Prop :=
  exists m data, t !! (base ++ relative ++ q) = Some (EFile m data) /\
    excluded tree (slashes (relative_text (relative ++ q))) = false /\
    x = (packed_path tree (slashes (relative_text (relative ++ q))), at_ (base ++ relative ++ q)).

Definition pack_collected (t : Tree) (base : place) (tree : DataPackResourceTree) (relative : place) (l : list (string * Path)) : Prop :=
  NoDup l /\ forall x, x ∈ l <-> exists q, q <> [] /\ packs_file t base tree relative q x.

Lemma packs_file_inj t base tree relative q q' x : packs_file t base tree relative q x -> packs_file t base tree relative q' x -> q = q'.
Proof.
  intros (m & d & _ & _ & ->) (m' & d' & _ & _ & E). injection E as _ E.
  apply (list_fmap_eq_inj Normal) in E; [by simplify_list_eq|by intros a b [= ->]].
Qed.

Lemma pack_collected_children (t : Tree) (base : place) tree (relative : place) (names : list string) parts :
  (forall n, n ∈ names <-> is_Some (t !! (base ++ relative ++ [n]))) -> rooted t (base ++ relative) ->
  NoDup names ->
  Forall2 (fun n part => NoDup part /\ forall x, x ∈ part <-> exists q, packs_file t base tree relative (n :: q) x) names parts ->
  pack_collected t base tree relative (concat parts).
Proof.
  intros Hnames Hr Hnd HF. split.
  { clear Hnames Hr. induction HF as [|n part names parts [Hp Hx] HF IH]; [constructor|]. apply NoDup_cons in Hnd as [Hn Hnd].
    cbn. apply NoDup_app. split_and!; [done| |by apply IH]. intros x (q & Hq)%Hx (part' & Hin' & Hin)%elem_of_concat.
    apply list_elem_of_lookup in Hin as [i Hi]. destruct (Forall2_lookup_r _ _ _ _ _ HF Hi) as (n' & Hn' & _ & Hx').
    apply Hx' in Hin' as (q' & Hq'). pose proof (packs_file_inj _ _ _ _ _ _ _ Hq Hq') as [= -> _]. by apply Hn, (list_elem_of_lookup_2 _ i). }
  intros x. rewrite elem_of_concat. split.
  - intros (part & Hin & Hx). apply list_elem_of_lookup in Hx as [i Hi]. destruct (Forall2_lookup_r _ _ _ _ _ HF Hi) as (n & Hn & _ & Hx).
    apply Hx in Hin as (q & Hq). by exists (n :: q).
  - intros ([|n q] & Hne & Hq); [done|]. assert (n ∈ names) as Hin.
    { apply Hnames. destruct Hq as (m & d & Hm & _). rewrite app_assoc in *. by eapply rooted_top. }
    apply list_elem_of_lookup in Hin as [i Hi]. destruct (Forall2_lookup_l _ _ _ _ _ HF Hi) as (part & Hpart & _ & Hx).
    exists part. split; [|by eapply list_elem_of_lookup_2]. apply Hx. by exists q.
Qed.

Lemma packs_file_deeper t base tree relative n q x :
  packs_file t base tree relative (n :: q) x <-> packs_file t base tree (relative ++ [n]) q x.
Proof. unfold packs_file. by rewrite <- !(app_assoc relative). Qed.

(** A successful question of the file system *)
Lemma asked_ok {A B : Type} (code : string) (p : Path) (f : Tree -> result IoKind A) (k : A -> M Volume RpcError B) v w b v' w' :
  (let* a := io_error code p (ask f) in k a) v w = (Ok b, v', w') ->
  exists a w1, f (vol_tree v) = Ok a /\ k a v w1 = (Ok b, v', w').
Proof. intros (w1 & _ & [(_ & ? & _)|(a & Ha & H)])%io_ask_run; [done|]. by exists a, w1. Qed.

(** What one name of a directory contributes *)
Lemma pack_child (t : Tree) base tree relative n e part :
  rooted t (base ++ relative) -> t !! (base ++ relative ++ [n]) = Some e -> dir_at t (base ++ relative ++ [n]) = false ->
  part = (if entry_is_file e
          then if excluded tree (slashes (relative_text (relative ++ [n]))) then []
               else [(packed_path tree (slashes (relative_text (relative ++ [n]))), at_ (base ++ relative ++ [n]))]
          else []) ->
  NoDup part /\ forall x, x ∈ part <-> exists q, packs_file t base tree relative (n :: q) x.
Proof.
  intros Hr He Hd ->. split; [repeat case_match; by repeat constructor; apply not_elem_of_nil|]. intros x. assert (forall q, packs_file t base tree relative (n :: q) x -> q = []) as Hq.
  { intros [|y q] Hq; [done|]. destruct Hq as (m & d & Hm & _). rewrite (app_assoc base), (cons_middle n), app_assoc in Hm.
    rewrite (rooted_leaf _ ((base ++ relative) ++ [n])) in Hm; [done|by apply rooted_child|by rewrite <- app_assoc]. }
  split.
  - destruct e as [|m d| |]; cbn [entry_is_file]; try by intros ?%not_elem_of_nil. destruct (excluded _ _) eqn:Ex; [by intros ?%not_elem_of_nil|].
    intros ->%list_elem_of_singleton. exists [], m, d. by split_and!.
  - intros (q & Hp). pose proof (Hq q Hp) as ->. destruct Hp as (m & d & Hm & Hx & ->). rewrite He in Hm. injection Hm as ->. cbn [entry_is_file].
    rewrite Hx. by apply list_elem_of_singleton.
Qed.

Lemma collect_pack_spec n base tree relative v w l v' w' :
  clear (vol_tree v) (base ++ relative) -> dir_at (vol_tree v) (base ++ relative) = true -> rooted (vol_tree v) (base ++ relative) ->
  collect_pack_tree n (at_ base) tree relative v w = (Ok l, v', w') -> pack_collected (vol_tree v) base tree relative l.
Proof.
  revert relative w l v' w'. induction n as [|n IH]; intros relative w l v' w' Hc Hd Hr H; [done|]. cbn [collect_pack_tree] in H.
  rewrite !join_at in H. apply asked_ok in H as (names & w1 & H1 & H). pose proof Hd as [m Hm]%dir_at_Some.
  rewrite entry_clear, Hm in H1; [|done|unfold is_link_at; by rewrite Hm]. cbn in H1. injection H1 as <-.
  mstep H parts v2 w2 H2. unfold ret in H. injection H as <- _ _. apply map_m_inert_ok in H2.
  2:{ intros x. apply inert_bind; [apply inert_io_ask|]. intros resolved. apply inert_bind; [apply inert_io_ask|]. intros canonical.
      apply inert_bind; [destruct (within _ _); [apply inert_bind; [apply inert_io_ask|intros; apply inert_ret]|apply inert_ret]|].
      intros []; [apply inert_fail|]. apply inert_bind; [apply inert_io_ask|]. intros e. destruct (entry_is_dir e); [apply collect_pack_inert|].
      destruct (entry_is_file e); apply inert_ret. }
  apply (pack_collected_children _ _ _ _ (merge_sort String.le (Fs.children (base ++ relative) (vol_tree v)))); [|done|rewrite merge_sort_Permutation; apply children_NoDup|].
  { intros x. rewrite merge_sort_Permutation, elem_of_children. by rewrite <- app_assoc. }
  eapply Forall2_impl; [exact H2|]. clear H2. intros x part (wa & wb & Hf). rewrite !join_at in Hf.
  apply asked_ok in Hf as (resolved & w3 & H3 & Hf). apply asked_ok in Hf as (canonical & w4 & _ & Hf).
  assert (clear (vol_tree v) (base ++ relative ++ [x])) as Hcx by (rewrite app_assoc; by apply clear_snoc).
  mstep Hf linked v5 w5 H5. destruct (within resolved canonical); [|unfold ret in H5; injection H5 as <- _ _; done].
  apply asked_ok in H5 as (e & w6 & H6 & H5). rewrite entry_clear in H6 by done. destruct (vol_tree v !! (base ++ relative ++ [x])) as [e'|] eqn:He; [|done].
  cbn in H6. injection H6 as ->. unfold ret in H5. injection H5 as <- <- <-. destruct (entry_is_link e) eqn:El; [done|].
  apply asked_ok in Hf as (e2 & w7 & H7 & Hf). rewrite entry_clear, He in H7 by done. cbn in H7. injection H7 as <-.
  destruct (entry_is_dir e) eqn:Ed.
  - assert (dir_at (vol_tree v) (base ++ relative ++ [x]) = true) as Hdx by (unfold dir_at; rewrite He; by destruct e).
    apply IH in Hf as [Hndx Hf]; [|done|done|rewrite app_assoc; by apply rooted_child]. split; [done|]. intros y. rewrite (Hf y). split.
    + intros (q & _ & Hq). exists q. by apply packs_file_deeper.
    + intros (q & Hq). exists q. apply packs_file_deeper in Hq. split; [|done]. intros ->. destruct Hq as (m' & d & Hm' & _).
      rewrite app_nil_r in Hm'. rewrite He in Hm'. by simplify_eq.
  - apply (pack_child _ _ _ _ _ e); [done|done|unfold dir_at; rewrite He; by destruct e|].
    destruct (entry_is_file e); unfold ret in Hf; by injection Hf as <- _.
Qed.

(** ** The resources of the trees *)

(** The names of a relative path without [.] and [..] *)
Definition normal_names (p : Path) : place := omap (fun c => match c with Normal n => Some n | _ => None end) (p_components p).

(** The files of a tree that are packed, listed from the whole file system, and those of all trees in order *)
Definition planned_file (base : place) (tree : DataPackResourceTree) (k : place) (e : Entry) : option (string * Path) :=
  match below base k with
  | Some (n :: q) =>
      let text := slashes (relative_text (n :: q)) in
      if entry_is_file e && negb (excluded tree text) then Some (packed_path tree text, at_ k) else None
  | _ => None
  end.
Definition planned_tree (t : Tree) (root : place) (tree : DataPackResourceTree) : list (string * Path) :=
  omap (fun ke => planned_file (root ++ normal_names (root_relative tree)) tree ke.1 ke.2) (map_to_list t).
Definition planned (t : Tree) (root : place) (trees : list DataPackResourceTree) : list (string * Path) :=
  merge_sort key_le (concat (planned_tree t root <$> trees)).

Lemma planned_file_Some base tree k e x :
  planned_file base tree k e = Some x <-> exists q m d, k = base ++ q /\ q <> [] /\ e = EFile m d /\
    excluded tree (slashes (relative_text q)) = false /\ x = (packed_path tree (slashes (relative_text q)), at_ k).
Proof.
  unfold planned_file. split.
  - destruct (below base k) as [[|n q]|] eqn:E; try done. apply below_Some in E as ->. destruct e as [|m d| |]; try done. cbn [entry_is_file andb].
    destruct (excluded _ _) eqn:Ex; [done|]. intros [= <-]. by exists (n :: q), m, d.
  - intros (q & m & d & -> & Hne & -> & Hx & ->). rewrite below_app. destruct q as [|n q]; [done|]. cbn [entry_is_file andb]. by rewrite Hx.
Qed.

Lemma elem_of_planned_tree t root tree x :
  x ∈ planned_tree t root tree <-> exists q, q <> [] /\ packs_file t (root ++ normal_names (root_relative tree)) tree [] q x.
Proof.
  unfold planned_tree, packs_file. rewrite list_elem_of_omap. cbn. split.
  - intros ([k e] & Hin%elem_of_map_to_list & Hx). apply planned_file_Some in Hx as (q & m & d & Ek & Hne & Ee & Hx & ->). cbn in Ek, Ee. subst k e. exists q. split; [done|]. by exists m, d.
  - intros (q & Hne & m & d & Hq & Hx & ->). eexists (_, EFile m d). split; [by apply elem_of_map_to_list|]. apply planned_file_Some. by exists q, m, d.
Qed.
Lemma planned_tree_NoDup t root tree : NoDup (planned_tree t root tree).
Proof.
  apply NoDup_omap_inj; [|apply NoDup_map_to_list]. intros [k e] [k' e'] x H1%elem_of_map_to_list H2%elem_of_map_to_list Hx Hx'. cbn in *.
  apply planned_file_Some in Hx as (q & m & d & _ & _ & -> & _ & ->). apply planned_file_Some in Hx' as (q' & m' & d' & _ & _ & -> & _ & E).
  injection E as _ E. apply (list_fmap_eq_inj Normal) in E; [|by intros a b [= ->]]. subst k'. rewrite H1 in H2. by simplify_eq.
Qed.

(** No directory of resources lies behind a symbolic link. *)
Definition plain_sources (t : Tree) (root : place) (trees : list DataPackResourceTree) : Prop :=
  Forall (fun tree => let base := root ++ normal_names (root_relative tree) in clear t base /\ is_link_at t base = false) trees.

Lemma pack_relative_ok p : pack_relative p = Ok tt -> p = relative_path (normal_names p).
Proof.
  unfold pack_relative. destruct p as [absolute cs]. cbn. destruct absolute; [done|]. cbn [orb]. destruct (forallb is_normal cs) eqn:Hn; [|done]. intros _.
  unfold relative_path, normal_names. cbn. f_equal. induction cs as [|[| |n] cs IH]; cbn in *; try done. f_equal. by apply IH.
Qed.

Lemma tree_resources_spec fuel root tree v w l v' w' :
  tree_wf (vol_tree v) -> clear (vol_tree v) (root ++ normal_names (root_relative tree)) -> is_link_at (vol_tree v) (root ++ normal_names (root_relative tree)) = false ->
  tree_resources fuel (at_ root) tree v w = (Ok l, v', w') -> l ≡ₚ planned_tree (vol_tree v) root tree.
Proof.
  intros Hw Hc Hl H. unfold tree_resources in H. mlift H u Hrel. destruct u. apply pack_relative_ok in Hrel.
  destruct (unsafe_prefix _); [done|]. mstep H present v1 w1 H1. apply test_cases in H1 as (r0 & [-> H0]%ask_cases & H1).
  set (base := root ++ normal_names (root_relative tree)) in *.
  assert (join_path (at_ root) (root_relative tree) = at_ base) as Ej by (rewrite Hrel; apply join_relative). rewrite Ej in *.
  destruct r0 as [e|]; [|injection H1 as ->; done]. injection H1 as ->. specialize (H0 e eq_refl). rewrite entry_clear in H0 by done.
  destruct (vol_tree v !! base) as [e'|] eqn:He; [|done]. cbn in H0. injection H0 as ->. destruct e as [m| | |]; try done. cbn [entry_is_dir negb] in H.
  apply collect_pack_spec in H as [Hnd Hx]; [|by rewrite app_nil_r|rewrite app_nil_r; unfold dir_at; by rewrite He|rewrite app_nil_r; by apply rooted_wf].
  apply NoDup_Permutation; [done|apply planned_tree_NoDup|]. intros x. by rewrite Hx, elem_of_planned_tree.
Qed.

Lemma duplicate_free l : StronglySorted key_le l -> duplicate_path l = None -> NoDup l.*1.
Proof.
  induction 1 as [|a l Hs IH Hall]; [constructor|]. intros Hd. cbn [fmap list_fmap]. apply NoDup_cons. destruct l as [|b l]; [by split; [apply not_elem_of_nil|constructor]|].
  cbn [duplicate_path] in Hd. destruct (String.eqb_spec a.1 b.1) as [|Hne]; [done|]. split; [|by apply IH].
  intros ([k c] & E & Hin)%list_elem_of_fmap. cbn in E. apply Hne. apply (anti_symm String.le); [by apply Forall_inv in Hall|].
  rewrite E. apply elem_of_cons in Hin as [<-|Hin]; [done|]. apply StronglySorted_inv in Hs as [_ Hb]. rewrite Forall_forall in Hb. exact (Hb _ Hin).
Qed.

(** The gathered resources are the planned ones, no path of them twice. *)
Lemma gather_spec fuel root trees v w resources v' w' :
  tree_wf (vol_tree v) -> plain_sources (vol_tree v) root trees ->
  gather_resources fuel (at_ root) trees v w = (Ok resources, v', w') ->
  resources = planned (vol_tree v) root trees /\ NoDup resources.*1.
Proof.
  intros Hw Hp H. unfold gather_resources in H. mstep H parts v1 w1 H1. apply map_m_inert_ok in H1; [|apply tree_resources_inert].
  assert (concat parts ≡ₚ concat (planned_tree (vol_tree v) root <$> trees)) as Hperm.
  { clear H. induction H1 as [|tree part trees parts (wa & wb & Ha) HF IH]; [done|]. apply Forall_cons in Hp as [[Hc Hl] Hp]. cbn.
    apply tree_resources_spec in Ha; [|done..]. by rewrite Ha, IH. }
  assert (forall l : list (string * Path), StronglySorted key_le (merge_sort key_le l)) as Hsort by (intros l; apply Sorted_StronglySorted, Sorted_merge_sort; apply _).
  destruct (duplicate_path _) eqn:Hd; [done|]. apply duplicate_free in Hd; [|apply Hsort].
  assert (resources = merge_sort key_le (concat parts)) as -> by (destruct (merge_sort _ _); [done|]; unfold ret in H; by injection H as <- _ _).
  split; [|done]. unfold planned. apply (StronglySorted_unique_strong key_le); [|apply Hsort|apply Hsort|by rewrite !merge_sort_Permutation].
  intros x y Hx Hy H2 H3. rewrite (merge_sort_Permutation key_le (concat (planned_tree _ _ <$> _))), <- Hperm, <- (merge_sort_Permutation key_le (concat parts)) in Hy.
  assert (x.1 = y.1) as E by (by apply (anti_symm String.le)).
  apply list_elem_of_lookup in Hx as [i Hi]. apply list_elem_of_lookup in Hy as [j Hj].
  assert (i = j) as ->; [|by rewrite Hi in Hj; injection Hj]. apply (NoDup_lookup _ _ _ x.1 Hd); rewrite list_lookup_fmap; [by rewrite Hi|by rewrite Hj; cbn; rewrite E].
Qed.

(** ** What a pack says about itself *)

Definition manifest_entry (index : nat) (relative : string) : Value :=
  obj_of [("id", vu64 (Z.of_nat index + 2)); ("path", VString relative)].

Lemma pack_manifest_entries platform arch bundle hash paths :
  vget "entries" (pack_manifest platform arch bundle hash paths) ≫= as_array = Some (imap manifest_entry paths).
Proof. reflexivity. Qed.
Lemma pack_manifest_paths paths :
  Forall2 (fun entry path => vget "path" entry ≫= as_str = Some path) (imap manifest_entry paths) paths.
Proof. apply Forall2_same_length_lookup_2; [apply length_imap|]. intros i entry path Hi Hp. rewrite list_lookup_imap, Hp in Hi. by injection Hi as <-. Qed.
Lemma readable_insert n k x m : readable n x = true -> forallb (fun p => readable n p.2) m = true -> forallb (fun p => readable n p.2) (obj_insert k x m) = true.
Proof.
  intros Hx. induction m as [|[k' x'] m IH]; cbn [obj_insert forallb snd]; [by rewrite Hx|]. intros [Hx' Hm]%andb_true_iff.
  destruct (String.compare k k'); cbn [forallb snd]; rewrite ?Hx, ?Hx', ?Hm, ?IH by done; done.
Qed.
Lemma readable_obj_of n l : forallb (fun p => readable n p.2) l = true -> readable (S n) (obj_of l) = true.
Proof.
  intros Hl. unfold obj_of. rewrite readable_object. assert (forallb (fun p => readable n p.2) ([] : list (string * Value)) = true) as H0 by done.
  revert H0 Hl. generalize ([] : list (string * Value)). induction l as [|[k x] l IH]; intros m Hm; cbn [fold_left forallb fst snd]; [done|].
  intros [Hx Hl]%andb_true_iff. apply IH; [by apply readable_insert|done].
Qed.
Lemma pack_manifest_readable platform arch bundle hash paths : readable MAX_NESTING (pack_manifest platform arch bundle hash paths) = true.
Proof.
  change MAX_NESTING with (S (S (S 124))). apply readable_obj_of. cbn [forallb snd]. rewrite !readable_text, readable_null, readable_array. cbn [andb]. rewrite andb_true_r. apply forallb_forall.
  intros x Hx%list_elem_of_In. apply elem_of_lookup_imap in Hx as (i & p & -> & _). apply (readable_obj_of 124). cbn [forallb snd]. by rewrite readable_u64, readable_text.
Qed.

Section Theorems.
Context (to_vec : Value -> string) (from_slice : string -> option Value).
Context (sha256_hex : string -> string) (torn : string -> string) (pid : Z) (fuel : nat).

(** Values without floating point numbers, nested within the limit of the reader, are read back as they were written. *)
Hypothesis to_vec_read : forall value, readable MAX_NESTING value = true -> from_slice (to_vec value) = Some value.

(** The file of a pack of the given resources *)
Record is_pack (data : string) (paths contents : list string) : Prop := mk_is_pack {
  ip_bytes : exists platform arch bundle hash, data = pack_bytes (to_vec (pack_manifest platform arch bundle hash paths)) contents;
  ip_count : Z.of_nat (S (length contents)) <= U16_MAX;
  ip_size : str_len data <= U32_MAX;
  ip_paths : NoDup paths;
  ip_length : length paths = length contents;
}.

(** An entry map that gives exactly the contents of the paths. *)
Definition gives (data : string) (found : gmap string (Z * Z)) (paths contents : list string) : Prop :=
  (forall k path content, paths !! k = Some path -> contents !! k = Some content ->
     exists offset, found !! path = Some (offset, str_len content) /\ slice offset (str_len content) data = Some content) /\
  (forall path, path ∉ paths -> found !! path = None).

Lemma parse_is_pack short data paths contents :
  is_pack data paths contents -> exists found, parse_bytes from_slice short data = Ok found /\ gives data found paths contents.
Proof.
  intros [(platform & arch & bundle & hash & ->) Hc Hs Hp Hl]. rewrite pack_bytes_length in Hs.
  destruct (parse_pack _ _ Hc Hs from_slice short _ _ paths (to_vec_read _ (pack_manifest_readable platform arch bundle hash paths))
              (pack_manifest_entries _ _ _ _ _) (pack_manifest_paths paths) Hp Hl) as (found & Hf & H1 & H2).
  exists found. by split_and!.
Qed.

Context (platform arch bundle_name : string).
Context (root dir : place) (name : string) (trees : list DataPackResourceTree) (v : Volume).
Local Abbreviation tree0 := (vol_tree v).
Local Abbreviation files := (planned (vol_tree v) root trees).

(** A place to write to, sources without links above them, and sizes of the real world *)
Record packable : Prop := mk_packable {
  pk_target : pack_target pid tree0 (root ++ dir) name;
  pk_sources : plain_sources tree0 root trees;
  pk_files : small_files tree0;
  pk_manifest : forall contents, str_len (manifest_of to_vec sha256_hex platform arch bundle_name files.*1 contents) < 2 ^ 47;
}.

Local Abbreviation run_pack := (pack_chromium_datapack to_vec from_slice sha256_hex torn pid fuel (at_ root) trees (relative_path (dir ++ [name])) platform arch bundle_name).

Lemma packable_gather w resources v' w' :
  packable -> gather_resources fuel (at_ root) trees v w = (Ok resources, v', w') -> resources = files /\ NoDup files.*1.
Proof.
  intros Hk H. apply gather_spec in H as [-> Hnd]; [|apply (pt_wf _ _ _ _ (pk_target Hk))|apply (pk_sources Hk)]. done.
Qed.

(** Every run that writes: what it found, and what is written. *)
Lemma pack_outcome base_path base_digest changed w r v' w' :
  packable -> run_pack base_path base_digest changed v w = (r, v', w') ->
  (v' = v /\ is_err r = true) \/
  exists base contents,
    let data := pack_of to_vec sha256_hex platform arch bundle_name files.*1 contents in
    (exists w1 w2, base_entries from_slice sha256_hex base_path base_digest v w1 = (Ok base, v, w2)) /\
    contents_of tree0 base changed files contents /\ is_pack data files.*1 contents /\
    passes (pack_moment pid tree0 (root ++ dir) name data) v v' /\
    (forall a, r = Ok a ->
       a = pack_answer to_vec sha256_hex platform arch bundle_name (at_ ((root ++ dir) ++ [name])) base_path changed base files.*1 contents /\
       (exists m, vol_tree v' !! ((root ++ dir) ++ [name]) = Some (EFile m data)) /\
       vol_tree v' !! ((root ++ dir) ++ [temporary_name pid]) = None /\
       agree [(root ++ dir) ++ [temporary_name pid]; (root ++ dir) ++ [name]] tree0 (vol_tree v')).
Proof.
  intros Hk H. pose proof (pk_target Hk) as HT. eapply (pack_run to_vec from_slice) in H as [?|(resources & base & contents & [Hr Hb Hc Hn Hs] & Hp & Ha)]; [by left| |exact HT|apply (pk_files Hk)|].
  - right. destruct Hr as (w1 & w2 & Hr). apply packable_gather in Hr as [-> Hnd]; [|done]. exists base, contents. cbv zeta.
    split_and!; [done|done| |done|done]. constructor; [by do 4 eexists|done|unfold pack_of; by rewrite pack_bytes_length|done|].
    rewrite length_fmap. by eapply Forall2_length.
  - intros resources contents w1 w2 Hg. apply packable_gather in Hg as [-> _]; [|done]. apply (pk_manifest Hk).
Qed.

(** ** Theorems *)

(** whatever fails and wherever it fails, packing changes nothing but its temporary file and the output, and at every moment the output is what it was before or a complete pack of the files of the trees; when it answers, the output is that pack, the temporary file is gone and the digest it reports is that of the output. *)
Theorem pack_atomic base_path base_digest changed w r v' w' :
  packable -> run_pack base_path base_digest changed v w = (r, v', w') ->
  exists data,
    (v' = v \/ exists base contents, contents_of tree0 base changed files contents /\ is_pack data files.*1 contents) /\
    passes (pack_moment pid tree0 (root ++ dir) name data) v v' /\
    (forall a, r = Ok a ->
       (exists m, vol_tree v' !! ((root ++ dir) ++ [name]) = Some (EFile m data)) /\
       vol_tree v' !! ((root ++ dir) ++ [temporary_name pid]) = None /\
       vget "sha256" a = Some (VString ("sha256:" +:+ sha256_hex data)) /\ vget "size" a = Some (vu64 (str_len data))).
Proof.
  intros Hk H. apply pack_outcome in H as [[-> Hr]|(base & contents & _ & HF & Hpack & Hp & Ha)]; [| |done].
  - exists "". split_and!; [by left|apply passes_refl|by intros a ->].
  - eexists. split_and!; [right; by exists base, contents|exact Hp|]. intros a Hr. destruct (Ha a Hr) as (-> & Hm & Hg & _). by split_and!.
Qed.

(** C15: a full pack holds exactly the files of its trees: after it answered, reading its index gives, for every file that is not excluded, a range of the pack that holds the content of the file, and nothing for any other path. *)
Theorem pack_holds_files w a v' w' w1 :
  packable -> io_good w1 -> run_pack None None [] v w = (Ok a, v', w') ->
  exists data found m w2,
    vol_tree v' !! ((root ++ dir) ++ [name]) = Some (EFile m data) /\
    parse_datapack_entries from_slice (at_ ((root ++ dir) ++ [name])) v' w1 = (Ok found, v', w2) /\
    (forall path p, (path, p) ∈ files -> exists content offset, file_at tree0 p = Some content /\
       found !! path = Some (offset, str_len content) /\ slice offset (str_len content) data = Some content) /\
    (forall path, path ∉ files.*1 -> found !! path = None).
Proof.
  intros Hk Hg H. apply pack_outcome in H as [[_ ?]|(base & contents & Hb & HF & Hpack & _ & Ha)]; [done| |done].
  destruct (Ha a eq_refl) as (_ & [m Hm] & _ & Hag). destruct Hb as (wa & wb & Hb). cbn in Hb. unfold ret in Hb. injection Hb as <- _.
  set (data := pack_of _ _ _ _ _ _ _) in *. set (output := (root ++ dir) ++ [name]) in *.
  pose proof (output_readable _ _ _ _ _ _ _ (pk_target Hk) Hag Hm) as (q & m' & Hq)%file_at_Some.
  destruct (parse_datapack_entries from_slice (at_ output) v' w1) as [[r2 v2] w2] eqn:Hp.
  eapply parse_run in Hp as (-> & _ & Hp); [|exact Hq|by eapply entry_found]. destruct Hp as [Hp|[_ []]]; [|done].
  destruct (parse_is_pack (rpc_error "BASE_DATAPACK_INVALID" (display (at_ output) +:+ ": ")) _ _ _ Hpack) as (found & Hf & Hin & Hout).
  rewrite Hf in Hp. subst r2. exists data, found, m, w2. split_and!; [done|done| |done].
  intros path p Hx. apply list_elem_of_lookup in Hx as [k Hk']. destruct (Forall2_lookup_l _ _ _ _ _ HF Hk') as (content & Hc & Hr).
  destruct (Hin k path content) as (offset & Hfo & Hs); [by rewrite list_lookup_fmap, Hk'|done|]. exists content, offset. by split_and!.
Qed.

(** The files outside the changed prefixes are in the earlier pack with the content they have now. *)
Definition unchanged_since (paths0 contents0 : list string) (changed : list string) : Prop :=
  forall path p, (path, p) ∈ files -> path_matches_prefix path changed = false ->
    exists k content, paths0 !! k = Some path /\ contents0 !! k = Some content /\ file_at tree0 p = Some content.

Lemma base_contents b short data paths0 contents0 changed contents1 contents2 :
  file_at tree0 (base_path b) = Some data -> is_pack data paths0 contents0 -> parse_bytes from_slice short data = Ok (base_index b) ->
  unchanged_since paths0 contents0 changed ->
  contents_of tree0 None [] files contents1 -> contents_of tree0 (Some b) changed files contents2 -> contents1 = contents2.
Proof.
  intros Hd Hp Hi Hu H1 H2. destruct (parse_is_pack short _ _ _ Hp) as (found & Hf & Hin & _). rewrite Hi in Hf. injection Hf as <-.
  apply list_eq_same_length with (length contents1); [by apply Forall2_length in H1, H2; congruence|done|].
  intros i x y _ Hx Hy. destruct (Forall2_lookup_r _ _ _ _ _ H1 Hx) as ([path p] & Hi1 & E1). destruct (Forall2_lookup_r _ _ _ _ _ H2 Hy) as (f & Hi2 & E2).
  rewrite Hi1 in Hi2. injection Hi2 as <-. unfold resource_bytes, from_base in E1, E2. cbn [fst snd] in E1, E2.
  destruct (path_matches_prefix path changed) eqn:Hm; [congruence|].
  destruct (Hu path p) as (k & content & Hk & Hc & Ht); [by eapply list_elem_of_lookup_2|done|].
  destruct (Hin k path content Hk Hc) as (offset & Ho & Hs). rewrite Ho in E2. cbn in E2. rewrite Hd in E2. cbn in E2. congruence.
Qed.

(** C16: an incremental pack is the full pack: when the base is an earlier pack and no file outside the changed prefixes differs from it, packing on top of the base writes the same bytes as packing all files, and reports the same digests and size. *)
Theorem incremental_pack_is_full base_file digest data0 paths0 contents0 changed w1 w2 a1 a2 v1 v2 w1' w2' :
  packable -> file_at tree0 base_file = Some data0 -> is_pack data0 paths0 contents0 -> unchanged_since paths0 contents0 changed ->
  run_pack None None [] v w1 = (Ok a1, v1, w1') -> run_pack (Some base_file) digest changed v w2 = (Ok a2, v2, w2') ->
  (exists data m1 m2, vol_tree v1 !! ((root ++ dir) ++ [name]) = Some (EFile m1 data) /\
                      vol_tree v2 !! ((root ++ dir) ++ [name]) = Some (EFile m2 data)) /\
  vget "sha256" a1 = vget "sha256" a2 /\ vget "contentHash" a1 = vget "contentHash" a2 /\ vget "size" a1 = vget "size" a2.
Proof.
  intros Hk Hd Hp Hu H1 H2. apply pack_outcome in H1 as [[_ ?]|(base1 & c1 & (wa & wb & Hb1) & HF1 & _ & _ & Ha1)]; [done| |done].
  apply pack_outcome in H2 as [[_ ?]|(base2 & c2 & (wc & wd & Hb2) & HF2 & _ & _ & Ha2)]; [done| |done].
  cbn in Hb1. unfold ret in Hb1. injection Hb1 as <- _. apply base_entries_spec in Hb2 as [_ Hb2]. destruct (Hb2 base2 eq_refl) as (_ & Hpath & Hb).
  destruct base2 as [b|]; [|done]. injection Hpath as Hpath. destruct (Hb b eq_refl) as (data & short & Hfile & _ & Hparse). rewrite Hpath, Hd in Hfile.
  injection Hfile as <-. rewrite <- Hpath in Hd. assert (c1 = c2) as <- by (by eapply base_contents).
  destruct (Ha1 a1 eq_refl) as (-> & [m1 Hm1] & _). destruct (Ha2 a2 eq_refl) as (-> & [m2 Hm2] & _). split_and!; [by do 3 eexists|reflexivity..].
Qed.

End Theorems.

(** whatever bytes a base pack has, reading it ends with an error of its own or with ranges that lie inside the file; it never indexes outside its buffers. *)
Theorem parse_datapack_safe from_slice path v w r v' w' q m data :
  entry (vol_tree v) true path = Ok (q, EFile m data) -> parse_datapack_entries from_slice path v w = (r, v', w') ->
  v' = v /\
  match r with
  | Ok found => forall name offset length, found !! name = Some (offset, length) -> 0 <= offset /\ 0 <= length /\ offset + length <= str_len data
  | Err e => err_code e = "BASE_DATAPACK_INVALID"
  end.
Proof.
  intros He H. eapply parse_run in H as (-> & _ & H); [|exact He|by eapply entry_found]. split; [done|]. destruct H as [->|[-> _]]; [|done].
  by apply parse_bytes_safe.
Qed.

(** ** Runs *)

(** ** A text form of JSON values, and a digest *)

Definition text_of (b : bytes) : string := foldr String "" b.
Fixpoint bytes_of (s : string) : bytes := match s with EmptyString => [] | String c s' => c :: bytes_of s' end.
Lemma bytes_of_text b : bytes_of (text_of b) = b.
Proof. induction b as [|c b IH]; [done|]. cbn. by f_equal. Qed.

Definition sample_json (value : Value) : string := text_of (value_bytes value).
Definition sample_read (s : string) : option Value := Some (bytes_value (bytes_of s)).
Lemma sample_json_read value : readable MAX_NESTING value = true -> sample_read (sample_json value) = Some value.
Proof. intros H%readable_no_floats. unfold sample_read, sample_json. by rewrite bytes_of_text, bytes_value_bytes. Qed.
Definition sample_digest (s : string) : string := "c0ffee".

(** ** A file system with an earlier pack *)

Definition sample_trees : list DataPackResourceTree :=
  [mkDataPackResourceTree (relative_path ["web"]) "" false ["skip.txt"]; mkDataPackResourceTree (relative_path ["biz"]) "biz" true []].
Definition earlier_paths : list string := ["app.js"; "biz/flow.js"; "img/logo"].
Definition earlier_contents : list string := ["old app"; "flow"; "logo"].
Definition earlier_pack : string := pack_of sample_json sample_digest "win" "x64" "app" earlier_paths earlier_contents.

Definition pack_tree : Tree := list_to_map
  [([], EDir 493); (["app"], EDir 493); (["app"; "web"], EDir 493); (["app"; "web"; "app.js"], EFile 420 "new app, longer");
   (["app"; "web"; "skip.txt"], EFile 420 "skipped"); (["app"; "web"; "img"], EDir 493); (["app"; "web"; "img"; "logo"], EFile 420 "logo");
   (["app"; "biz"], EDir 493); (["app"; "biz"; "flow.js"], EFile 420 "flow"); (["app"; "biz"; "flow.js.map"], EFile 420 "map");
   (["base.pak"], EFile 420 earlier_pack)].
Definition pack_volume : Volume := mkVolume pack_tree 18 [].

Definition sample_pack : option Path -> option string -> list string -> M Volume RpcError Value :=
  pack_chromium_datapack sample_json sample_read sample_digest (fun s => s) 7 5 (at_ ["app"]) sample_trees (relative_path ([] ++ ["out.pak"])) "win" "x64" "app".

Definition smallb (t : Tree) : bool :=
  forallb (fun ke => match ke.2 with EFile _ data => str_len data <? 2 ^ 47 | _ => true end) (map_to_list t).
Lemma smallb_sound t : smallb t = true -> small_files t.
Proof.
  unfold smallb. rewrite forallb_forall. intros H q m data Hq. specialize (H (q, EFile m data)). cbn in H. apply Z.ltb_lt, H.
  by apply list_elem_of_In, elem_of_map_to_list.
Qed.

Lemma sample_packable : packable sample_json sample_digest 7 "win" "x64" "app" ["app"] [] "out.pak" sample_trees pack_volume.
Proof.
  constructor.
  - constructor; [apply wfb_sound; vm_compute; reflexivity|apply clearb_sound; vm_compute; reflexivity|vm_compute; reflexivity..|discriminate].
  - repeat constructor; try (apply clearb_sound); vm_compute; reflexivity.
  - apply smallb_sound. vm_compute. reflexivity.
  - intros contents. vm_compute. reflexivity.
Qed.

(** Packing everything, and packing on top of the earlier pack *)
Definition full_run := sample_pack None None [] pack_volume (sample_world 0).
Definition incremental_run := sample_pack (Some (at_ ["base.pak"])) (Some "sha256:c0ffee") ["app.js"] pack_volume (sample_world 0).
Definition failing_run := sample_pack None None [] pack_volume (mkWorld (w_wall (sample_world 0)) (w_instant (sample_world 0)) (w_uuid (sample_world 0)) (mkOracle (fun n => Nat.ltb n 50) 0)).

Lemma sample_planned : planned pack_tree ["app"] sample_trees =
  [("app.js", at_ ["app"; "web"; "app.js"]); ("biz/flow.js", at_ ["app"; "biz"; "flow.js"]); ("img/logo", at_ ["app"; "web"; "img"; "logo"])].
Proof. vm_compute. reflexivity. Qed.

Lemma earlier_is_pack : is_pack sample_json earlier_pack earlier_paths earlier_contents.
Proof.
  constructor; [by exists "win", "x64", "app", "c0ffee"|vm_compute; discriminate|vm_compute; discriminate| |reflexivity].
  repeat (constructor; [rewrite ?elem_of_cons, elem_of_nil; intuition discriminate|]). constructor.
Qed.

Lemma sample_base : file_at (vol_tree pack_volume) (at_ ["base.pak"]) = Some earlier_pack.
Proof. vm_compute. reflexivity. Qed.

Lemma sample_unchanged : unchanged_since ["app"] sample_trees pack_volume earlier_paths earlier_contents ["app.js"].
Proof.
  intros path p Hin Hm. change (vol_tree pack_volume) with pack_tree in *. rewrite sample_planned in Hin.
  repeat (apply elem_of_cons in Hin as [[= -> ->]|Hin]); [discriminate Hm| | |by apply not_elem_of_nil in Hin].
  - exists 1%nat, "flow". split_and!; vm_compute; reflexivity.
  - exists 2%nat, "logo". split_and!; vm_compute; reflexivity.
Qed.

(** A run in which the disk fails in the middle of writing *)
Lemma pack_atomic_witness :
  is_err failing_run.1.1 = true /\
  exists data, passes (pack_moment 7 pack_tree ["app"] "out.pak" data) pack_volume failing_run.1.2.
Proof.
  split; [vm_compute; reflexivity|]. destruct failing_run as [[r v'] w'] eqn:H. unfold failing_run, sample_pack in H.
  destruct (pack_atomic sample_json sample_read sample_digest (fun s => s) 7 5 "win" "x64" "app" ["app"] [] "out.pak" sample_trees pack_volume
              None None [] _ r v' w' sample_packable H) as (data & _ & Hp & _). exists data. exact Hp.
Defined.

Lemma pack_holds_files_witness :
  is_ok full_run.1.1 = true /\
  exists data found w2, parse_datapack_entries sample_read (at_ ["app"; "out.pak"]) full_run.1.2 (sample_world 0) = (Ok found, full_run.1.2, w2) /\
    exists offset, found !! "app.js" = Some (offset, 15) /\ slice offset 15 data = Some "new app, longer" /\ found !! "skip.txt" = None.
Proof.
  split; [vm_compute; reflexivity|]. destruct full_run as [[r v'] w'] eqn:H.
  assert (is_ok r = true) as Hok. { change r with ((r, v', w').1.1). rewrite <- H. vm_compute. reflexivity. }
  destruct r as [a|]; [|discriminate Hok]. unfold full_run, sample_pack in H.
  destruct (pack_holds_files sample_json sample_read sample_digest (fun s => s) 7 5 sample_json_read "win" "x64" "app" ["app"] [] "out.pak" sample_trees pack_volume
              _ a v' w' (sample_world 0) sample_packable ltac:(by intros k _) H) as (data & found & m & w2 & _ & Hparse & Hin & Hout).
  exists data, found, w2. split; [exact Hparse|].
  destruct (Hin "app.js" (at_ ["app"; "web"; "app.js"])) as (content & offset & Hc & Hf & Hs).
  { change (vol_tree pack_volume) with pack_tree. rewrite sample_planned. left. }
  exists offset. assert (content = "new app, longer") as ->. { vm_compute in Hc. injection Hc as <-. reflexivity. }
  split; [exact Hf|]. split; [exact Hs|]. apply Hout. change (vol_tree pack_volume) with pack_tree. rewrite sample_planned.
  cbn [fmap list_fmap fst]. rewrite !elem_of_cons, elem_of_nil. intuition discriminate.
Defined.

Lemma incremental_pack_is_full_witness :
  is_ok full_run.1.1 = true /\ is_ok incremental_run.1.1 = true /\
  exists data m1 m2, vol_tree full_run.1.2 !! ["app"; "out.pak"] = Some (EFile m1 data) /\ vol_tree incremental_run.1.2 !! ["app"; "out.pak"] = Some (EFile m2 data).
Proof.
  split; [vm_compute; reflexivity|]. split; [vm_compute; reflexivity|].
  destruct full_run as [[r1 v1] w1] eqn:H1. destruct incremental_run as [[r2 v2] w2] eqn:H2.
  assert (is_ok r1 = true) as Hok1. { change r1 with ((r1, v1, w1).1.1). rewrite <- H1. vm_compute. reflexivity. }
  assert (is_ok r2 = true) as Hok2. { change r2 with ((r2, v2, w2).1.1). rewrite <- H2. vm_compute. reflexivity. }
  destruct r1 as [a1|]; [|discriminate Hok1]. destruct r2 as [a2|]; [|discriminate Hok2]. unfold full_run, incremental_run, sample_pack in H1, H2.
  destruct (incremental_pack_is_full sample_json sample_read sample_digest (fun s => s) 7 5 sample_json_read "win" "x64" "app" ["app"] [] "out.pak" sample_trees pack_volume
              _ _ _ _ _ _ _ _ _ _ _ _ _ _ sample_packable sample_base earlier_is_pack sample_unchanged H1 H2) as [Hd _]. exact Hd.
Defined.

Lemma parse_datapack_safe_witness :
  let v := mkVolume (<[["base.pak"] := EFile 420 "not a pack"]> pack_tree) 0 [] in
  match (parse_datapack_entries sample_read (at_ ["base.pak"]) v (sample_world 0)).1.1 with
  | Ok _ => False
  | Err e => err_code e = "BASE_DATAPACK_INVALID"
  end.
Proof.
  intros v. destruct (parse_datapack_entries sample_read (at_ ["base.pak"]) v (sample_world 0)) as [[r v'] w'] eqn:H.
  assert (is_err r = true) as Hr. { change r with ((r, v', w').1.1). rewrite <- H. vm_compute. reflexivity. }
  apply (parse_datapack_safe sample_read (at_ ["base.pak"]) v (sample_world 0) r v' w' ["base.pak"] 420 "not a pack") in H as [_ H]; [|vm_compute; reflexivity].
  destruct r as [f|e]; [discriminate Hr|exact H].
Defined.

(** ** The request *)

Definition pack_request (output : string) : Value :=
  obj_of [("rootPath", VString "/app"); ("outputRelative", VString output); ("bundleName", VString "app");
          ("resourceTrees", VArray [obj_of [("rootRelative", VString "web"); ("excludeRootFiles", VArray [VString "skip.txt"])];
                                    obj_of [("rootRelative", VString "biz"); ("prefix", VString "biz"); ("excludeSourceMaps", VBool true)]]);
          ("basePackPath", VString "/base.pak"); ("basePackDigest", VString "sha256:c0ffee"); ("changedPrefixes", VArray [VString "app.js"])].
Definition pack_executor : ExecutorRuntime := mkExecutorRuntime [at_ ["app"]; at_ ["base.pak"]] (at_ ["relay"]) None.
Definition request_run (rt : ExecutorRuntime) (output : string) :=
  pack_datapack_action sample_json sample_read sample_digest (fun s => s) 7 5 rt (pack_request output) pack_volume (sample_world 0).

Definition output_data (v : Volume) : string := default "" (file_at (vol_tree v) (at_ ["app"; "out.pak"])).

(** The request packs as the function does, and refuses an output outside of the roots or of the directory. *)
Example request_packs :
  String.eqb (output_data (request_run pack_executor "out.pak").1.2) (output_data incremental_run.1.2) = true /\
  match (request_run pack_executor "../out.pak").1.1 with Err e => err_code e = "PATH_INVALID" | Ok _ => False end /\
  match (request_run pack_executor "/etc/out.pak").1.1 with Err e => err_code e = "PATH_OUTSIDE_ALLOWED_ROOTS" | Ok _ => False end.
Proof. split_and!; vm_compute; reflexivity. Qed.
