(* ===== verification/Utf8.v ===== *)
(** * Text of the standard library

    What the executor uses of [str]: the validity of UTF-8 and the lossy decoding
    of [String::from_utf8_lossy], [lines], [matches] and [replacen]. *)
From Stdlib Require Import Ascii.
From stdpp Require Import base strings list.
From S2P Require Import Prelude.
Open Scope nat_scope.

(** ** UTF-8 *)

Definition head_in (lo hi : nat) (s : string) : bool :=
  match s with String c _ => byte_in lo hi c | EmptyString => false end.
Definition tail (s : string) : string := match s with String _ s' => s' | EmptyString => "" end.

(** The first character of a text: the number of its bytes, and whether they are valid; the bytes of an
    invalid one are the longest start of a character. *)
Definition first_char (s : string) : nat * bool :=
  let two (lo hi : nat) := if head_in lo hi (tail s) then (2%nat, true) else (1%nat, false) in
  let three (lo hi : nat) :=
    if head_in lo hi (tail s)
    then if head_in 128 191 (tail (tail s)) then (3%nat, true) else (2%nat, false)
    else (1%nat, false) in
  let four (lo hi : nat) :=
    if head_in lo hi (tail s)
    then if head_in 128 191 (tail (tail s))
         then if head_in 128 191 (tail (tail (tail s))) then (4%nat, true) else (3%nat, false)
         else (2%nat, false)
    else (1%nat, false) in
  if head_in 0 127 s then (1%nat, true)
  else if head_in 194 223 s then two 128 191
  else if head_in 224 224 s then three 160 191
  else if head_in 237 237 s then three 128 159
  else if head_in 225 239 s then three 128 191
  else if head_in 240 240 s then four 144 191
  else if head_in 241 243 s then four 128 191
  else if head_in 244 244 s then four 128 143
  else (1%nat, false).

Fixpoint drop_bytes (n : nat) (s : string) : string :=
  match n, s with
  | S n', String _ s' => drop_bytes n' s'
  | _, _ => s
  end.
Fixpoint take_bytes (n : nat) (s : string) : string :=
  match n, s with
  | S n', String c s' => String c (take_bytes n' s')
  | _, _ => ""
  end.

Definition REPLACEMENT : string := String "239"%char (String "191"%char (String "189"%char "")).

(** [String::from_utf8_lossy]; every step takes at least one byte. *)
Fixpoint lossy_loop (fuel : nat) (s : string) : string :=
  match fuel, s with
  | S fuel', String _ _ =>
      let n := (first_char s).1 in
      (if (first_char s).2 then take_bytes n s else REPLACEMENT) +:+ lossy_loop fuel' (drop_bytes n s)
  | _, _ => ""
  end.
Definition from_utf8_lossy (s : string) : string := lossy_loop (String.length s) s.

(** [String::from_utf8] *)
Fixpoint utf8_loop (fuel : nat) (s : string) : bool :=
  match fuel, s with
  | S fuel', String _ _ => (first_char s).2 && utf8_loop fuel' (drop_bytes (first_char s).1 s)
  | _, _ => true
  end.
Definition is_utf8 (s : string) : bool := utf8_loop (String.length s) s.

(** ** Lines *)

(** The part up to the first newline, and the rest when there is one *)
Fixpoint break_line (s : string) : string * option string :=
  match s with
  | EmptyString => ("", None)
  | String c s' =>
      if Ascii.eqb c "010"%char then ("", Some s')
      else let r := break_line s' in (String c r.1, r.2)
  end.
Fixpoint strip_return (s : string) : string :=
  match s with
  | EmptyString => ""
  | String c EmptyString => if Ascii.eqb c "013"%char then "" else s
  | String c s' => String c (strip_return s')
  end.

(** [str::lines]: a carriage return is part of the end of a line only before a newline. *)
Fixpoint lines_loop (fuel : nat) (s : string) : list string :=
  match fuel, s with
  | S fuel', String _ _ =>
      match break_line s with
      | (line, Some rest) => strip_return line :: lines_loop fuel' rest
      | (line, None) => [line]
      end
  | _, _ => []
  end.
Definition lines (s : string) : list string := lines_loop (String.length s) s.

(** ** Occurrences *)

(** [str::matches(pattern).count()] for a pattern that is not empty *)
Fixpoint count_loop (fuel : nat) (pattern s : string) : nat :=
  match fuel with
  | O => O
  | S fuel' =>
      match String.index 0 pattern s with
      | Some i => S (count_loop fuel' pattern (drop_bytes (i + String.length pattern) s))
      | None => O
      end
  end.
Definition count_matches (pattern s : string) : nat := count_loop (S (String.length s)) pattern s.

(** [str::replacen(pattern, replacement, 1)] *)
Definition replace_first (pattern replacement s : string) : string :=
  match String.index 0 pattern s with
  | Some i => take_bytes i s +:+ replacement +:+ drop_bytes (i + String.length pattern) s
  | None => s
  end.

(** ** Facts *)

Lemma take_drop_bytes n s : take_bytes n s +:+ drop_bytes n s = s.
Proof. revert s. induction n as [|n IH]; intros [|c s]; cbn [take_bytes drop_bytes]; try done. by rewrite string_app_cons, IH. Qed.
Lemma drop_bytes_length n s : String.length (drop_bytes n s) = (String.length s - n)%nat.
Proof. revert s. induction n as [|n IH]; intros [|c s]; cbn; auto. Qed.
Lemma take_bytes_app a b : take_bytes (String.length a) (a +:+ b) = a.
Proof. induction a as [|c a IH]; [by destruct b|]. rewrite string_app_cons. cbn. by rewrite IH. Qed.
Lemma drop_bytes_app a b : drop_bytes (String.length a) (a +:+ b) = b.
Proof. induction a as [|c a IH]; [by destruct b|]. exact IH. Qed.
Lemma first_char_pos s : (1 <= (first_char s).1)%nat.
Proof. unfold first_char. repeat case_match; cbn; lia. Qed.

(** A valid text is its own lossy decoding. *)
Lemma lossy_valid s : is_utf8 s = true -> from_utf8_lossy s = s.
Proof.
  unfold is_utf8, from_utf8_lossy. generalize (Nat.le_refl (String.length s)). generalize (String.length s) at 2 3 4. intros fuel. revert s.
  induction fuel as [|fuel IH]; intros [|c s] Hl H; try done; [cbn in Hl; lia|]. cbn [utf8_loop lossy_loop] in *. apply andb_true_iff in H as [Hv H].
  rewrite Hv, IH; [apply take_drop_bytes| |done]. rewrite drop_bytes_length. pose proof (first_char_pos (String c s)). cbn [String.length] in *. lia.
Qed.

Lemma substring_take n s : String.substring 0 n s = take_bytes n s.
Proof. revert s. induction n as [|n IH]; intros [|c s]; cbn; try done. by rewrite IH. Qed.
Lemma substring_drop i n s : String.substring i n s = take_bytes n (drop_bytes i s).
Proof. revert s. induction i as [|i IH]; intros s; [rewrite substring_take; by destruct s|]. destruct s as [|c s]; [by destruct n|]. apply IH. Qed.
Lemma drop_bytes_add i j s : drop_bytes (i + j) s = drop_bytes j (drop_bytes i s).
Proof. revert s. induction i as [|i IH]; intros [|c s]; cbn; auto; by destruct j. Qed.

(** Where a pattern is found: the text before it, the pattern, and the text after it. *)
Lemma index_split pattern s i :
  String.index 0 pattern s = Some i -> s = take_bytes i s +:+ pattern +:+ drop_bytes (i + String.length pattern) s.
Proof.
  intros H. apply String.index_correct1 in H. rewrite substring_drop in H. rewrite drop_bytes_add, <- H at 1.
  pose proof (take_drop_bytes (String.length pattern) (drop_bytes i s)) as E. rewrite H in E at 1. rewrite H. rewrite E. by rewrite take_drop_bytes.
Qed.

(** A text with one occurrence of the pattern, and what replacing it gives *)
Lemma replace_only pattern replacement s :
  pattern <> "" -> count_matches pattern s = 1 ->
  exists a b, s = a +:+ pattern +:+ b /\ replace_first pattern replacement s = a +:+ replacement +:+ b /\
    String.index 0 pattern s = Some (String.length a) /\ (b = "" \/ String.index 0 pattern b = None).
Proof.
  intros Hne. assert (0 < String.length pattern) as Hpos by (destruct pattern; [done|cbn; lia]).
  unfold count_matches, replace_first. cbn [count_loop]. destruct (String.index 0 pattern s) as [i|] eqn:E; [|done]. intros [= Hc].
  pose proof (index_split _ _ _ E) as Hs. exists (take_bytes i s), (drop_bytes (i + String.length pattern) s). split; [done|]. split; [done|]. split.
  - f_equal. pose proof (f_equal String.length Hs) as Hl. rewrite !string_length_app, drop_bytes_length in Hl.
    assert (String.length (take_bytes i s) = Nat.min i (String.length s)) as Ht; [|lia].
    clear. revert s. induction i as [|i IH]; intros [|c s]; cbn; auto.
  - destruct (String.length s) as [|n] eqn:El; [left; destruct s; [|done]; by destruct i, pattern|]. cbn [count_loop] in Hc.
    right. by destruct (String.index 0 pattern (drop_bytes (i + String.length pattern) s)).
Qed.

(** ** Samples *)

Example lossy_samples :
  from_utf8_lossy (String "226"%char (String "130"%char "x")) = REPLACEMENT +:+ "x" /\
  from_utf8_lossy (String "255"%char (String "192"%char "")) = REPLACEMENT +:+ REPLACEMENT /\
  lines (String "097"%char (String "013"%char (String "010"%char (String "010"%char (String "098"%char (String "013"%char "")))))) = ["a"; ""; String "098"%char (String "013"%char "")] /\
  count_matches "aa" "aaaa" = 2 /\ replace_first "b" "xy" "abcb" = "axycb".
Proof. split_and!; reflexivity. Qed.
