(* ===== verification/FileHandlers.v ===== *)
(** * The file requests of the executor ([fs.*], [filesystem.*] and [artifact.describe] of
      [crates/machine-fabric-runtime/src/executor.rs])

    Reading, listing and searching, writing and patching by replacement, and
    removing into a trash directory from which a file is restored. A hard link is
    a second entry with the content of the first: nothing is written through
    either name while both exist. *)
From Stdlib Require Import Ascii.
From stdpp Require Import base gmap strings list sorting pretty.
From S2P Require Import Prelude Json Protocol PathPolicy FileTree FileTreeLaws Generations Controller TreeDigest ArtifactRelay Utf8.
Open Scope Z_scope.
Open Scope fabric_scope.

(** [fs::hard_link] on Linux *)
Definition hard_link (source target : Path) : M Volume IoKind unit :=
  sys (fun t => bind_result (entry t false source) (fun qe =>
    if entry_is_dir qe.2 then Err OtherError
    else bind_result (vacancy t target) (fun q => Ok (tt, <[q := qe.2]> t)))).

(** [options.mode(...)] with [create_new], and [File::set_permissions] *)
Definition set_handle_mode (q : place) (mode : Z) : M Volume IoKind unit :=
  sys (fun t => Ok (tt, Fs.chmod q mode t)).

Definition kind_text (e : Entry) : string :=
  if entry_is_dir e then "directory" else if entry_is_file e then "file" else "other".

(** [Metadata::len]: what a directory, a link or a special file reports is that of the file system. *)
Section FileHandlers.
Context (sha256_hex : string -> string) (torn : string -> string) (pid : Z) (fuel : nat).
Context (special_len : Entry -> Z) (executor_id : string).

Definition entry_len (e : Entry) : Z := match e with EFile _ data => str_len data | _ => special_len e end.
Definition digest_text (bytes : string) : string := "sha256:" +:+ sha256_hex bytes.

(** [digest_file] *)
Definition digest_file (path : Path) : M Volume RpcError string :=
  let* bytes := io_error "FS_READ_FAILED" path (Fs.read path) in
  ret (digest_text bytes).

(** ** Reading *)

(** [fs.stat] *)
Definition fs_stat (rt : ExecutorRuntime) (params : Value) : M Volume RpcError Value :=
  let* path := read_path rt params "path" false in
  let* metadata := io_error "FS_STAT_FAILED" path (Fs.symlink_metadata path) in
  let* digest := if entry_is_file metadata then let* d := digest_file path in ret (VString d) else ret VNull in
  ret (obj_of [("path", VString (display path)); ("exists", VBool true); ("kind", VString (kind_text metadata));
               ("size", vu64 (entry_len metadata)); ("digest", digest)]).

(** [fs.resolve] *)
Definition fs_resolve (rt : ExecutorRuntime) (params : Value) : M Volume RpcError Value :=
  let* path := read_path rt params "path" false in
  let* present := Fs.exists_ path in
  ret (obj_of [("path", VString (display path)); ("exists", VBool present)]).

(** [fs.read] *)
Definition fs_read (rt : ExecutorRuntime) (params : Value) : M Volume RpcError Value :=
  let* path := read_path rt params "path" true in
  let* bytes := io_error "FS_READ_FAILED" path (Fs.read path) in
  ret (obj_of [("path", VString (display path)); ("content", VString (from_utf8_lossy bytes));
               ("digest", VString (digest_text bytes)); ("size", vu64 (str_len bytes))]).

(** [fs.list] *)
Definition list_entry (rt : ExecutorRuntime) (path : Path) (name : string) : M Volume RpcError (list (string * Value)) :=
  let child := join path [name] in
  let* denied := read_path_denied rt child in
  if denied : bool then ret []
  else
    let* metadata := io_error "FS_LIST_FAILED" child (Fs.symlink_metadata child) in
    ret [(name, obj_of [("name", VString name); ("path", VString (display child));
                        ("kind", VString (kind_text metadata)); ("size", vu64 (entry_len metadata))])].
Definition fs_list (rt : ExecutorRuntime) (params : Value) : M Volume RpcError Value :=
  let* path := read_path rt params "path" true in
  let* names := io_error "FS_LIST_FAILED" path (Fs.read_dir path) in
  let* parts := map_m (list_entry rt path) names in
  ret (obj_of [("path", VString (display path)); ("entries", VArray (merge_sort key_le (concat parts)).*2)]).

(** [search_tree]: the lines of a file that hold the query, up to the number of results *)
Fixpoint search_lines (path : Path) (query : string) (max_results : Z) (index : Z) (lines : list string)
    (matches : list Value) : list Value :=
  match lines with
  | [] => matches
  | line :: lines' =>
      if str_contains query line then
        let matches' := matches ++ [obj_of [("path", VString (display path)); ("line", vu64 (index + 1)); ("text", VString line)]] in
        if max_results <=? Z.of_nat (length matches') then matches'
        else search_lines path query max_results (index + 1) lines' matches'
      else search_lines path query max_results (index + 1) lines' matches
  end.

(** The loop over the children of a directory *)
Fixpoint search_children (search : Path -> list Value -> M Volume RpcError (list Value)) (max_results : Z) (path : Path)
    (names : list string) (matches : list Value) : M Volume RpcError (list Value) :=
  match names with
  | [] => ret matches
  | name :: names' =>
      let* matches' := search (join path [name]) matches in
      if max_results <=? Z.of_nat (length matches') then ret matches'
      else search_children search max_results path names' matches'
  end.

Fixpoint search_tree (depth : nat) (rt : ExecutorRuntime) (query : string) (max_results : Z) (path : Path) (matches : list Value)
    : M Volume RpcError (list Value) :=
  match depth with
  | O => fail out_of_fuel
  | S depth' =>
      if max_results <=? Z.of_nat (length matches) then ret matches
      else
        let* denied := read_path_denied rt path in
        if denied : bool then ret matches
        else
          let* metadata := io_error "FS_SEARCH_FAILED" path (Fs.symlink_metadata path) in
          match metadata with
          | EDir _ =>
              let* names := io_error "FS_SEARCH_FAILED" path (Fs.read_dir path) in
              search_children (search_tree depth' rt query max_results) max_results path (merge_sort String.le names) matches
          | EFile _ data =>
              if str_len data <=? 16 * 1024 * 1024 then
                let* bytes := io_error "FS_SEARCH_FAILED" path (Fs.read path) in
                ret (search_lines path query max_results 0 (lines (from_utf8_lossy bytes)) matches)
              else ret matches
          | _ => ret matches
          end
  end.

(** [fs.search] *)
Definition fs_search (rt : ExecutorRuntime) (params : Value) : M Volume RpcError Value :=
  let* path := read_path rt params "path" true in
  let* query := lift (required_str params "query") in
  let max_results := default 200 (vget "maxResults" params ≫= as_u64) in
  let* matches := search_tree fuel rt query max_results path [] in
  ret (obj_of [("path", VString (display path)); ("query", VString query); ("matches", VArray matches);
               ("truncated", VBool (max_results <=? Z.of_nat (length matches)))]).

(** [artifact.describe] *)
Definition artifact_describe (rt : ExecutorRuntime) (params : Value) : M Volume RpcError Value :=
  let* path := read_path rt params "path" true in
  let* metadata := io_error "ARTIFACT_READ_FAILED" path (Fs.metadata path) in
  let* described :=
    if entry_is_file metadata then
      let* digest := digest_file path in ret (digest, entry_len metadata, 1, "file")
    else if entry_is_dir metadata then
      let* item := runtime_digest_tree sha256_hex fuel rt path in ret (item, "directory")
    else fail (rpc_error "INVALID_ARTIFACT" "artifact must be a file or directory") in
  let '(digest, size, files, kind) := described in
  let* described_at := now_ms in
  ret (obj_of [("digest", VString digest);
               ("digestAlgorithm", VString (if String.eqb kind "directory" then "sha256-tree-posix-v2" else "sha256-file-v1"));
               ("size", vu64 size); ("bytes", vu64 size); ("files", vu64 files); ("kind", VString kind);
               ("path", VString (display path)); ("executorId", VString executor_id); ("describedAt", vu64 described_at)]).

(** ** Writing *)

Definition parents_differ (a b : Path) : bool := negb (bool_decide (path_parent a = path_parent b)).
Definition create_parent (path : Path) : M Volume RpcError unit :=
  match path_parent path with
  | Some parent => io_error "FS_WRITE_FAILED" parent (Fs.create_dir_all parent)
  | None => ret tt
  end.
Definition with_path (p : Path) : Value := obj_of [("path", VString (display p))].

(** [atomic_temporary_path] *)
Definition atomic_temporary_path (rt : ExecutorRuntime) (params : Value) (destination : Path) : M Volume RpcError Path :=
  let* text := lift (required_str params "path") in
  let logical := path_of text in
  let* temporary := write_path rt (with_path (with_extension logical ("fabric." +:+ pretty pid +:+ ".tmp"))) "path" false in
  if parents_differ temporary destination
  then fail (rpc_error "PATH_WRITE_DENIED" "atomic temporary directory differs from checked destination")
  else ret temporary.

(** [write_atomic_payload] *)
Definition write_atomic_payload (destination temporary : Path) (content : string) : M Volume IoKind unit :=
  let* found := attempt (Fs.metadata destination) in
  let* existing_mode :=
    match found with
    | Ok metadata => ret (Some (Z.land (entry_mode metadata) 511))
    | Err NotFound => ret None
    | Err error => fail error
    end in
  let* file := Fs.open_new (default 438 existing_mode) temporary in
  match existing_mode with
  | Some mode => set_handle_mode file mode
  | None => ret tt
  end ;;
  Fs.write_at torn file 0 content.

(** The answer of a write: the path and the digest of what is there *)
Definition written (path : Path) : M Volume RpcError Value :=
  let* digest := digest_file path in
  ret (obj_of [("path", VString (display path)); ("digest", VString digest)]).

(** Replacing the content of a file: the end of [fs.write] and of [fs.patch] *)
Definition replace_content (code : string) (rt : ExecutorRuntime) (params : Value) (path : Path) (content : string)
    : M Volume RpcError Value :=
  let* temporary := atomic_temporary_path rt params path in
  io_error code temporary (write_atomic_payload path temporary content) ;;
  io_error code path (Fs.rename temporary path) ;;
  written path.

(** [expectedAbsent] *)
Definition expected_absent_of (params : Value) : result RpcError bool :=
  match vget "expectedAbsent" params with
  | None => Ok false
  | Some (VBool b) => Ok b
  | _ => Err (rpc_error "INVALID_PARAMS" "expectedAbsent must be a boolean")
  end.

(** The end of [fs.write] with [expectedAbsent]: the content is linked to its name when it is complete. *)
Definition stage_and_link (path temporary : Path) (staged : place) (content : string) : M Volume RpcError unit :=
  io_error "FS_WRITE_FAILED" temporary (Fs.write_at torn staged 0 content) ;;
  with_err (fun kind => match kind with
                        | AlreadyExists => rpc_error "DIGEST_CONFLICT" "expected target to be absent"
                        | _ => rpc_error "FS_WRITE_FAILED" (display path +:+ ": ")
                        end) (hard_link temporary path).
Definition publish_staged (path temporary : Path) (staged : place) (content : string) : M Volume RpcError Value :=
  let* outcome := attempt (stage_and_link path temporary staged content) in
  let* _ := attempt (Fs.remove_file temporary) in
  let* _ := lift outcome in
  written path.

(** [fs.write] with [expectedAbsent] *)
Definition create_absent (rt : ExecutorRuntime) (params : Value) (path : Path) (content : string) : M Volume RpcError Value :=
  if bool_decide (is_Some (vget "expectedDigest" params))
  then fail (rpc_error "INVALID_PARAMS" "expectedAbsent and expectedDigest are mutually exclusive")
  else
    let* text := lift (required_str params "path") in
    let* unique := new_v4 in
    let* temporary := write_path rt (with_path (with_extension (path_of text)
                                       ("fabric." +:+ pretty pid +:+ "." +:+ unique +:+ ".tmp"))) "path" false in
    if parents_differ temporary path
    then fail (rpc_error "PATH_WRITE_DENIED" "creation temporary directory differs from checked destination")
    else
      create_parent path ;;
      let* staged := io_error "FS_WRITE_FAILED" temporary (Fs.open_new 438 temporary) in
      publish_staged path temporary staged content.

(** The check of [expectedDigest] before a write *)
Definition check_expected_digest (params : Value) (path : Path) : M Volume RpcError unit :=
  match vget "expectedDigest" params ≫= as_str with
  | None => ret tt
  | Some expected =>
      let* present := Fs.exists_ path in
      let* actual := if present : bool then let* d := digest_file path in ret (Some d) else ret None in
      if bool_decide (actual = Some expected) then ret tt
      else fail (rpc_error "DIGEST_CONFLICT" ("expected " +:+ expected +:+ ", got " +:+ default "<missing>" actual))
  end.

(** [fs.write] *)
Definition fs_write (rt : ExecutorRuntime) (params : Value) : M Volume RpcError Value :=
  let* path := write_path rt params "path" false in
  let* content := lift (ok_or (vget "content" params ≫= as_str) (rpc_error "INVALID_PARAMS" "content is required")) in
  let* expected_absent := lift (expected_absent_of params) in
  if expected_absent : bool then create_absent rt params path content
  else
    check_expected_digest params path ;;
    create_parent path ;;
    replace_content "FS_WRITE_FAILED" rt params path content.

(** [fs::read_to_string] *)
Definition read_to_string (path : Path) : M Volume IoKind string :=
  let* bytes := Fs.read path in
  if is_utf8 bytes then ret bytes else fail OtherError.

(** [fs.patch] *)
Definition fs_patch (rt : ExecutorRuntime) (params : Value) : M Volume RpcError Value :=
  let* path := write_path rt params "path" true in
  let* expected_digest := lift (required_str params "expectedDigest") in
  let* actual_digest := digest_file path in
  if negb (String.eqb actual_digest expected_digest)
  then fail (rpc_error "DIGEST_CONFLICT" ("expected " +:+ expected_digest +:+ ", got " +:+ actual_digest))
  else
    let* before := lift (required_str params "before") in
    let* after := lift (required_str params "after") in
    let* content := io_error "FS_PATCH_FAILED" path (read_to_string path) in
    let occurrences := count_matches before content in
    if negb (Nat.eqb occurrences 1)
    then fail (rpc_error "PATCH_CONTEXT_MISMATCH" ("patch context matched " +:+ pretty occurrences +:+ " times"))
    else replace_content "FS_PATCH_FAILED" rt params path (replace_first before after content).

(** ** Removing and restoring *)

Definition TRASH : string := ".machine-fabric-trash".

(** [fs.remove] *)
Definition fs_remove (rt : ExecutorRuntime) (params : Value) : M Volume RpcError Value :=
  let* path := write_path rt params "path" true in
  let* expected := lift (required_str params "expectedDigest") in
  let* directory := Fs.test (Fs.metadata path) entry_is_dir in
  let* actual := if directory : bool then let* item := runtime_digest_tree sha256_hex fuel rt path in ret item.1.1
                 else digest_file path in
  if negb (String.eqb actual expected)
  then fail (rpc_error "DIGEST_CONFLICT" ("expected " +:+ expected +:+ ", got " +:+ actual))
  else
    let* text := lift (required_str params "path") in
    let* logical_parent := lift (ok_or (path_parent (path_of text)) (rpc_error "PATH_INVALID" "path has no parent")) in
    let* now := now_ms in
    let* unique := new_v4 in
    let logical_token := join logical_parent [TRASH; pretty now +:+ "_" +:+ unique] in
    let* destination := write_path rt (with_path logical_token) "path" false in
    let* trash := lift (ok_or (path_parent destination) (rpc_error "PATH_INVALID" "trash has no parent")) in
    if parents_differ trash path
    then fail (rpc_error "PATH_WRITE_DENIED" "trash directory differs from checked source directory")
    else
      io_error "FS_REMOVE_FAILED" trash (Fs.create_dir_all trash) ;;
      io_error "FS_REMOVE_FAILED" path (Fs.rename path destination) ;;
      ret (obj_of [("path", VString (display path)); ("removed", VBool true); ("restoreToken", VString (display logical_token))]).

(** [fs.restore] *)
Definition fs_restore (rt : ExecutorRuntime) (params : Value) : M Volume RpcError Value :=
  let* destination := write_path rt params "path" false in
  let* token := write_path rt params "restoreToken" true in
  if negb (bool_decide ((path_parent token ≫= path_name) = Some TRASH))
  then fail (rpc_error "INVALID_RESTORE_TOKEN" "restore token is not managed by fabric")
  else
    let* present := Fs.exists_ destination in
    if present : bool
    then fail (rpc_error "RESTORE_CONFLICT" "restore destination already exists")
    else
      io_error "FS_RESTORE_FAILED" destination (Fs.rename token destination) ;;
      ret (obj_of [("path", VString (display destination)); ("restored", VBool true)]).

(** [filesystem.mkdir] *)
Definition fs_mkdir (rt : ExecutorRuntime) (params : Value) : M Volume RpcError Value :=
  let* path := write_path rt params "path" false in
  io_error "FS_MKDIR_FAILED" path (Fs.create_dir_all path) ;;
  ret (obj_of [("path", VString (display path)); ("created", VBool true)]).

End FileHandlers.
