(* ===== verification/FileSafety.v ===== *)
(** * File requests: writing

    A write replaces the file in one step and keeps its mode, a creation replaces
    nothing, and a patch changes the one occurrence it names. *)
From Stdlib Require Import Ascii.
From stdpp Require Import base gmap strings list sorting pretty.
From S2P Require Import Prelude Json Protocol PathPolicy FileTree FileTreeLaws Generations Controller TreeDigest ArtifactRelay RelaySafety RelayCommit RelayReceive Utf8 FileHandlers.
Open Scope Z_scope.
Open Scope fabric_scope.

(** ** Names of temporary files *)

Lemma siblings_agree p a b : parents_differ (at_ (p ++ [a])) (at_ (p ++ [b])) = false.
Proof. unfold parents_differ. by rewrite !path_parent_at, bool_decide_true. Qed.

Lemma last_dot_tmp a i : (0 < i + String.length a)%nat -> last_dot (a +:+ ".tmp") i = Some (i + String.length a)%nat.
Proof.
  revert i. induction a as [|c a IH]; intros i Hi.
  - change ("" +:+ ".tmp") with ".tmp". cbn in *. rewrite Nat.add_0_r in *. by destruct i; [lia|].
  - rewrite string_app_cons. cbn [last_dot]. rewrite IH by (cbn; lia). cbn. f_equal. lia.
Qed.
(** The temporary of a name is another name. *)
Lemma temporary_differs n middle : n <> file_stem n +:+ "." +:+ ("fabric." +:+ middle +:+ ".tmp").
Proof.
  intros E. set (a := file_stem n +:+ "." +:+ "fabric." +:+ middle) in *. assert (n = a +:+ ".tmp") as En by (unfold a; by rewrite <- !string_app_assoc).
  assert (String.length a = String.length (file_stem n) + 8 + String.length middle)%nat as Hl by (unfold a; rewrite !string_length_app; cbn; lia).
  assert (file_stem n = a) as Hs.
  { rewrite En at 1. unfold file_stem. rewrite last_dot_tmp by lia. cbn. by rewrite substring_take, take_bytes_app. }
  rewrite Hs in Hl. lia.
Qed.

Section Writing.
Context (sha256_hex : string -> string) (torn : string -> string) (pid : Z).

Definition temp_name (n : string) : string := file_stem n +:+ "." +:+ ("fabric." +:+ pretty pid +:+ ".tmp").

(** A file in a directory, both without links, that a request names *)
Record file_site (t : Tree) (dp : place) (n : string) : Prop := mk_file_site {
  fsite_wf : tree_wf t;
  fsite_names : forallb good_name dp = true;
  fsite_clear : clear t dp;
  fsite_dir : dir_at t dp = true;
  fsite_name : good_name n = true;
  fsite_file : t !! (dp ++ [n]) = None \/ exists m data, t !! (dp ++ [n]) = Some (EFile m data);
}.
Definition names (params : Value) (dp : place) (n : string) : Prop := vget "path" params = Some (VString (display (at_ (dp ++ [n])))).

Lemma site_clear t dp n x : file_site t dp n -> clear t (dp ++ [x]).
Proof. intros H. apply clear_snoc. split; [apply (fsite_clear _ _ _ H)|apply (fsite_dir _ _ _ H)]. Qed.
Lemma site_link t dp n : file_site t dp n -> is_link_at t (dp ++ [n]) = false.
Proof. intros H. unfold is_link_at. by destruct (fsite_file _ _ _ H) as [->|(m & d & ->)]. Qed.
Lemma site_vacant_link t dp x : t !! (dp ++ [x]) = None -> is_link_at t (dp ++ [x]) = false.
Proof. intros H. unfold is_link_at. by rewrite H. Qed.

(** What a path of a request comes to *)
Lemma site_path rt params dp n x must_exist v w r v' w' :
  file_site (vol_tree v) dp n -> vget "path" params = Some (VString (display (at_ (dp ++ [x])))) -> good_name x = true ->
  is_link_at (vol_tree v) (dp ++ [x]) = false ->
  write_path rt params "path" must_exist v w = (r, v', w') -> v' = v /\ w' = w /\ forall q, r = Ok q -> q = at_ (dp ++ [x]).
Proof.
  intros Hs Hp Hx Hl H. unfold write_path, checked_path in H. rewrite Hp in H. cbn [mbind option_bind as_str] in H.
  apply checked_text_resolved in H; [done| |]; [|apply resolve_place; [done|apply (fsite_clear _ _ _ Hs)|apply (fsite_dir _ _ _ Hs)|done]].
  rewrite forallb_app, (fsite_names _ _ _ Hs). cbn. by rewrite Hx.
Qed.

Lemma site_text params dp n : forallb good_name dp = true -> good_name n = true -> names params dp n ->
  required_str params "path" = Ok (display (at_ (dp ++ [n]))) /\ path_of (display (at_ (dp ++ [n]))) = at_ (dp ++ [n]).
Proof.
  intros Hg Hn Hp. unfold required_str. rewrite Hp. cbn. rewrite display_at. split; [done|]. rewrite <- display_at. apply path_of_display.
  rewrite forallb_app, Hg. cbn. by rewrite Hn.
Qed.

(** The temporary of a write lies beside the file. *)
Lemma temporary_path_at rt params dp n v w r v' w' :
  file_site (vol_tree v) dp n -> names params dp n -> good_name (temp_name n) = true -> is_link_at (vol_tree v) (dp ++ [temp_name n]) = false ->
  atomic_temporary_path pid rt params (at_ (dp ++ [n])) v w = (r, v', w') -> v' = v /\ forall q, r = Ok q -> q = at_ (dp ++ [temp_name n]).
Proof.
  intros Hs Hp Hg Hl H. unfold atomic_temporary_path in H. destruct (site_text _ _ _ (fsite_names _ _ _ Hs) (fsite_name _ _ _ Hs) Hp) as [Ht Hof].
  rewrite Ht in H. apply bind_cases in H as (r1 & v1 & w1 & H1 & H). unfold lift in H1. injection H1 as <- <- <-. rewrite Hof, with_extension_at in H.
  apply bind_cases in H as (r2 & v2 & w2 & H2 & H). eapply site_path in H2 as (-> & _ & H2); [|done|reflexivity|exact Hg|exact Hl].
  destruct r2 as [q|]; [|by destruct H as (-> & -> & _)]. rewrite (H2 q eq_refl) in H. rewrite siblings_agree in H. unfold ret in H. injection H as <- <- _.
  split; [done|]. by intros q' [= <-].
Qed.

(** ** Replacing a file *)

(** The mode the new content has: that of the file it replaces *)
Definition kept_mode (t : Tree) (p : place) : option Z := match t !! p with Some e => Some (Z.land (entry_mode e) 511) | None => None end.

(** A moment of a write: nothing changed but the temporary and the file; the file is the old one, or it is complete and has the
    mode of the old one; and the temporary never has more of a mode than the old file. *)
Definition write_moment (t : Tree) (umask : Z) (p tmp : place) (content : string) (t' : Tree) : Prop :=
  agree [tmp; p] t t' /\
  (t' !! p = t !! p \/ exists m, t' !! p = Some (EFile m content) /\ forall old, kept_mode t p = Some old -> m = old) /\
  (forall m data old, kept_mode t p = Some old -> t' !! tmp = Some (EFile m data) -> m = old \/ m = masked old umask).

Lemma insert_moment t umask p tmp content m data :
  p <> tmp -> (forall old, kept_mode t p = Some old -> m = old \/ m = masked old umask) ->
  write_moment t umask p tmp content (<[tmp := EFile m data]> t).
Proof.
  intros Hne Hm. split_and!.
  - eapply agree_mono; [|apply agree_insert]. apply Forall_singleton, Exists_cons_hd. done.
  - left. by rewrite lookup_insert_ne.
  - intros m' d old Ho. rewrite lookup_insert_eq. intros [= <- <-]. by apply Hm.
Qed.

Lemma ask_err {A : Type} (f : Tree -> result IoKind A) v w k v' w' :
  ask f v w = (Err k, v', w') -> k = OtherError \/ f (vol_tree v) = Err k.
Proof. unfold ask. munfold. destruct (peek (w_io w)); intros [= <- <- <-]; auto. Qed.

(** The mode that the metadata of the destination gives *)
Lemma destination_mode dp n v w found v' w' :
  file_site (vol_tree v) dp n -> Fs.metadata (at_ (dp ++ [n])) v w = (found, v', w') ->
  v' = v /\ match found with
            | Ok e => kept_mode (vol_tree v) (dp ++ [n]) = Some (Z.land (entry_mode e) 511)
            | Err NotFound => kept_mode (vol_tree v) (dp ++ [n]) = None
            | Err _ => True
            end.
Proof.
  intros Hs H. assert (entry (vol_tree v) true (at_ (dp ++ [n])) = match vol_tree v !! (dp ++ [n]) with Some e => Ok (dp ++ [n], e) | None => Err NotFound end) as He.
  { apply entry_clear; [by eapply site_clear|intros _; by eapply site_link]. }
  unfold kept_mode. pose proof (ask_cases _ _ _ _ _ _ H) as [-> Hok]. split; [done|]. destruct found as [e|k].
  - specialize (Hok e eq_refl). rewrite He in Hok. destruct (vol_tree v !! (dp ++ [n])); [|done]. cbn in Hok. by injection Hok as ->.
  - destruct k; try done. apply ask_err in H as [?|H]; [done|]. rewrite He in H. by destruct (vol_tree v !! (dp ++ [n])).
Qed.

(** [write_atomic_payload] at a vacant temporary: a moment throughout, and on success the whole content with the mode. *)
Lemma payload_run dp n x content v w r v' w' :
  let t := vol_tree v in let p := dp ++ [n] in let tmp := dp ++ [x] in
  file_site t dp n -> n <> x -> t !! tmp = None ->
  write_atomic_payload torn (at_ p) (at_ tmp) content v w = (r, v', w') ->
  passes (write_moment t (vol_umask v) p tmp content) v v' /\
  (is_err r = true \/ exists m, vol_tree v' = <[tmp := EFile m content]> t /\ forall old, kept_mode t p = Some old -> m = old).
Proof.
  intros t p tmp Hs Hne Hvac H. unfold write_atomic_payload in H.
  assert (p <> tmp) as Hpt by (intros E%app_inv_head; congruence).
  apply bind_cases in H as (r1 & v1 & w1 & H1 & H). apply attempt_cases in H1 as (found & -> & H1). apply destination_mode in H1 as [-> Hmode]; [|done].
  fold t p in Hmode. apply bind_cases in H as (r2 & v2 & w2 & H2 & H).
  assert (v2 = v /\ (is_err r2 = true \/ r2 = Ok (kept_mode t p))) as [-> Hr2].
  { destruct found as [e|[]]; unfold ret, fail in H2; injection H2 as <- <- _; split; auto; rewrite Hmode; by right. }
  clear H2 Hmode. destruct r2 as [mode|]; [|destruct H as (-> & -> & _); split; [apply passes_refl|by left]].
  destruct Hr2 as [?|[= ->]]; [done|]. apply bind_cases in H as (r3 & v3 & w3 & H3 & H).
  unfold Fs.open_new in H3. rewrite bind_get in H3. apply sys_cases in H3 as [(k & -> & ->)|(q & t3 & H3 & -> & ->)].
  { destruct H as (-> & -> & _). split; [apply passes_refl|by left]. }
  rewrite vacancy_clear in H3 by (by eapply site_clear). fold t tmp in H3. rewrite Hvac in H3. unfold tmp in H3. rewrite parent_snoc, (fsite_dir _ _ _ Hs) in H3.
  cbn in H3. injection H3 as <- <-. fold tmp in H. set (m0 := masked (default 438 (kept_mode t p)) (vol_umask v)) in *.
  assert (passes (write_moment t (vol_umask v) p tmp content) v (log v (<[tmp := EFile m0 ""]> t))) as Hp1.
  { apply passes_log, insert_moment; [done|]. intros old Ho. right. unfold m0. by rewrite Ho. }
  apply bind_cases in H as (r4 & v4 & w4 & H4 & H).
  assert (passes (write_moment t (vol_umask v) p tmp content) v v4 /\ (is_err r4 = true \/
            exists m, vol_tree v4 = <[tmp := EFile m ""]> t /\ forall old, kept_mode t p = Some old -> m = old)) as [Hp4 Hm4].
  { destruct (kept_mode t p) as [old|] eqn:Ek.
    - unfold set_handle_mode in H4. apply sys_cases in H4 as [(k & -> & ->)|(u & t4 & H4 & -> & ->)]; [split; [done|by left]|].
      injection H4 as <- <-. cbn [vol_tree log]. unfold Fs.chmod. rewrite lookup_insert_eq, insert_insert_eq. split.
      + eapply passes_trans; [exact Hp1|]. apply passes_log, insert_moment; [done|]. intros o. rewrite Ek. intros [= <-]. by left.
      + right. exists old. split; [done|]. by intros o [= <-].
    - unfold ret in H4. injection H4 as <- <- _. split; [done|]. right. by exists m0. }
  destruct r4 as [[]|]; [|destruct H as (-> & -> & _); split; [done|by left]]. destruct Hm4 as [?|(m & Hv4 & Hm)]; [done|].
  eapply write_at_cases in H as (data & -> & Hd); [|rewrite Hv4; apply lookup_insert_eq]. rewrite Hv4, insert_insert_eq. split.
  - eapply passes_trans; [exact Hp4|]. apply passes_log, insert_moment; [done|]. intros old Ho. left. by apply Hm.
  - destruct r as [[]|]; [|by left]. right. exists m. cbn. by rewrite (Hd eq_refl).
Qed.

(** The tree after the temporary was moved to the file *)
Lemma rename_moment dp n x content m v w r v' w' t umask :
  file_site t dp n -> n <> x -> t !! (dp ++ [x]) = None -> vol_tree v = <[dp ++ [x] := EFile m content]> t ->
  (forall old, kept_mode t (dp ++ [n]) = Some old -> m = old) ->
  Fs.rename (at_ (dp ++ [x])) (at_ (dp ++ [n])) v w = (r, v', w') ->
  passes (write_moment t umask (dp ++ [n]) (dp ++ [x]) content) v v' /\
  (is_err r = true \/ vol_tree v' !! (dp ++ [n]) = Some (EFile m content) /\ vol_tree v' !! (dp ++ [x]) = None /\ agree [dp ++ [x]; dp ++ [n]] t (vol_tree v')).
Proof.
  intros Hs Hne Hvac Hv Hm H. assert (forall y, clear (vol_tree v) (dp ++ [y])) as Hc.
  { intros y. rewrite Hv. apply (clear_dirs t); [|by eapply site_clear]. intros q _ Hq. unfold dir_at in *. rewrite lookup_insert_ne; [done|].
    intros <-. by rewrite Hvac in Hq. }
  apply rename_at in H as [(k & -> & ->)|(t' & Ht & -> & ->)]; [split; [apply passes_refl|by left]| |apply Hc|apply Hc].
  rewrite Hv in Ht. apply rename_new_file in Ht as (Ho & Hg & Ha); [|done]. split; [|right; by split_and!].
  apply passes_log. split_and!; [done|right; exists m; by split|]. intros m' d old _. by rewrite Hg.
Qed.

(** The end of a write: the file is read where it was written. *)
Lemma written_run dp n x m content v w r v' w' t :
  file_site t dp n -> agree [dp ++ [x]; dp ++ [n]] t (vol_tree v) -> vol_tree v !! (dp ++ [n]) = Some (EFile m content) ->
  written sha256_hex (at_ (dp ++ [n])) v w = (r, v', w') ->
  v' = v /\ forall a, r = Ok a -> a = obj_of [("path", VString (display (at_ (dp ++ [n])))); ("digest", VString (digest_text sha256_hex content))].
Proof.
  intros Hs Ha Hm H. unfold written, digest_file in H. apply bind_cases in H as (r1 & v1 & w1 & H1 & H).
  apply bind_cases in H1 as (r2 & v2 & w2 & H2 & H1). apply with_err_cases in H2 as (k & [-> H2]%ask_cases & ->).
  destruct k as [bytes|]; [|destruct H1 as (-> & -> & _); by destruct H as (-> & -> & _)]. specialize (H2 bytes eq_refl).
  assert (clear (vol_tree v) (dp ++ [n])) as Hc.
  { assert (outside [dp ++ [x]; dp ++ [n]] dp) as Hout by (repeat constructor; by apply below_above).
    apply clear_snoc. split; [by eapply clear_outside, (fsite_clear _ _ _ Hs)|]. unfold dir_at. rewrite Ha by done. apply (fsite_dir _ _ _ Hs). }
  rewrite entry_clear, Hm in H2; [|done|unfold is_link_at; by rewrite Hm]. cbn in H2. injection H2 as <-.
  cbn [map_err] in H1. unfold ret in H1. injection H1 as <- <- _. unfold ret in H. injection H as <- <- _. split; [done|]. by intros a [= <-].
Qed.

Lemma replace_run code rt params dp n content v w r v' w' :
  let t := vol_tree v in let p := dp ++ [n] in let tmp := dp ++ [temp_name n] in
  file_site t dp n -> names params dp n -> good_name (temp_name n) = true -> t !! tmp = None ->
  replace_content sha256_hex torn pid code rt params (at_ p) content v w = (r, v', w') ->
  passes (write_moment t (vol_umask v) p tmp content) v v' /\
  (forall a, r = Ok a -> a = obj_of [("path", VString (display (at_ p))); ("digest", VString (digest_text sha256_hex content))] /\
     (exists m, vol_tree v' !! p = Some (EFile m content) /\ forall old, kept_mode t p = Some old -> m = old) /\
     vol_tree v' !! tmp = None /\ agree [tmp; p] t (vol_tree v')).
Proof.
  intros t p tmp Hs Hp Hg Hvac H. unfold replace_content in H. pose proof (temporary_differs n (pretty pid)) as Hne. fold (temp_name n) in Hne.
  apply bind_cases in H as (r1 & v1 & w1 & H1 & H). eapply temporary_path_at in H1 as [-> H1]; [|done..|by apply site_vacant_link].
  destruct r1 as [q|]; [|destruct H as (-> & -> & _); split; [apply passes_refl|done]]. rewrite (H1 q eq_refl) in H. fold p tmp in H.
  apply bind_cases in H as (r2 & v2 & w2 & H2 & H). apply with_err_cases in H2 as (k2 & H2 & ->). apply payload_run in H2 as [Hp2 H2]; [|done..].
  destruct k2 as [[]|]; [|destruct H as (-> & -> & _); by split]. destruct H2 as [?|(m & Hv2 & Hm)]; [done|]. cbn [map_err] in H.
  apply bind_cases in H as (r3 & v3 & w3 & H3 & H). apply with_err_cases in H3 as (k3 & H3 & ->).
  eapply (rename_moment _ _ _ _ _ _ _ _ _ _ t (vol_umask v)) in H3 as [Hp3 H3]; [|done..].
  assert (passes (write_moment t (vol_umask v) p tmp content) v v3) as Hpass by (by eapply passes_trans).
  destruct k3 as [[]|]; [|destruct H as (-> & -> & _); by split]. destruct H3 as [?|(Ho & Hgone & Ha)]; [done|]. cbn [map_err] in H.
  eapply written_run in H as [-> H]; [|done..]. split; [done|]. intros a Hr. split; [by apply H|]. split; [by exists m|by split].
Qed.

(** ** Theorems about writing *)

Lemma digest_file_run dp n v w r v' w' :
  file_site (vol_tree v) dp n -> digest_file sha256_hex (at_ (dp ++ [n])) v w = (r, v', w') ->
  v' = v /\ forall d, r = Ok d -> exists m data, vol_tree v !! (dp ++ [n]) = Some (EFile m data) /\ d = digest_text sha256_hex data.
Proof.
  intros Hs H. unfold digest_file in H. apply bind_cases in H as (r2 & v2 & w2 & H2 & H). apply with_err_cases in H2 as (k & [-> H2]%ask_cases & ->).
  destruct k as [bytes|]; [|by destruct H as (-> & -> & _)]. specialize (H2 bytes eq_refl). unfold ret in H. injection H as <- <- _. split; [done|].
  rewrite entry_clear in H2; [|by eapply site_clear|intros _; by eapply site_link]. destruct (vol_tree v !! (dp ++ [n])) as [[]|]; try done.
  cbn in H2. injection H2 as ->. intros d [= <-]. by eexists _, _.
Qed.

Lemma expected_digest_run params dp n v w r v' w' :
  file_site (vol_tree v) dp n -> check_expected_digest sha256_hex params (at_ (dp ++ [n])) v w = (r, v', w') ->
  v' = v /\ (r = Ok tt -> forall d, vget "expectedDigest" params = Some (VString d) ->
    exists m data, vol_tree v !! (dp ++ [n]) = Some (EFile m data) /\ d = digest_text sha256_hex data).
Proof.
  intros Hs H. unfold check_expected_digest in H. destruct (vget "expectedDigest" params ≫= as_str) as [expected|] eqn:E.
  2:{ unfold ret in H. injection H as <- <- _. split; [done|]. intros _ d Hd. by rewrite Hd in E. }
  apply bind_cases in H as (r1 & v1 & w1 & H1 & H). apply test_cases in H1 as (k & [-> _]%ask_cases & ->).
  apply bind_cases in H as (r2 & v2 & w2 & H2 & H).
  assert (v2 = v /\ forall d, r2 = Ok (Some d) -> exists m data, vol_tree v !! (dp ++ [n]) = Some (EFile m data) /\ d = digest_text sha256_hex data) as [-> Hd].
  { destruct k; cbn in H2; [|unfold ret in H2; injection H2 as <- <- _; by split].
    apply bind_cases in H2 as (r3 & v3 & w3 & H3 & H2). apply digest_file_run in H3 as [-> H3]; [|done].
    destruct r3 as [d|]; [|by destruct H2 as (-> & -> & _)]. unfold ret in H2. injection H2 as <- <- _. split; [done|]. intros d' [= <-]. by apply H3. }
  destruct r2 as [actual|]; [|by destruct H as (-> & -> & _)]. destruct (bool_decide_reflect (actual = Some expected)) as [->|].
  - unfold ret in H. injection H as <- <- _. split; [done|]. intros _ d Ed. rewrite Ed in E. cbn in E. injection E as ->. by apply Hd.
  - unfold fail in H. by injection H as <- <- _.
Qed.

Lemma create_parent_run dp n v w :
  file_site (vol_tree v) dp n -> create_parent (at_ (dp ++ [n])) v w = (Ok tt, v, w).
Proof.
  intros Hs. unfold create_parent. rewrite path_parent_at. unfold io_error, with_err. rewrite create_dir_all_present; [done|apply (fsite_clear _ _ _ Hs)|apply (fsite_dir _ _ _ Hs)].
Qed.

(** The first steps of a write *)
Lemma fs_write_begin rt params dp n content v w r v' w' :
  file_site (vol_tree v) dp n -> names params dp n -> vget "content" params = Some (VString content) -> expected_absent_of params = Ok false ->
  fs_write sha256_hex torn pid rt params v w = (r, v', w') ->
  (v' = v /\ is_err r = true) \/
  ((forall d, vget "expectedDigest" params = Some (VString d) -> exists m data, vol_tree v !! (dp ++ [n]) = Some (EFile m data) /\ d = digest_text sha256_hex data) /\
   exists w1, replace_content sha256_hex torn pid "FS_WRITE_FAILED" rt params (at_ (dp ++ [n])) content v w1 = (r, v', w')).
Proof.
  intros Hs Hp Hc Ha H. unfold fs_write in H. apply bind_cases in H as (r1 & v1 & w1 & H1 & H).
  eapply site_path in H1 as (-> & _ & H1); [|done|exact Hp|apply (fsite_name _ _ _ Hs)|by eapply site_link].
  destruct r1 as [q|]; [|destruct H as (-> & -> & _); by left]. rewrite (H1 q eq_refl) in H. clear H1.
  rewrite Hc, Ha in H. cbn [mbind option_bind as_str ok_or] in H. unfold bind at 1 in H. unfold lift at 1 in H. unfold bind at 1 in H. unfold lift at 1 in H.
  apply bind_cases in H as (r2 & v2 & w2 & H2 & H). apply expected_digest_run in H2 as [-> H2]; [|done].
  destruct r2 as [[]|]; [|destruct H as (-> & -> & _); by left]. right. split; [by apply H2|].
  apply bind_cases in H as (r3 & v3 & w3 & H3 & H). rewrite (create_parent_run _ _ _ _ Hs) in H3. injection H3 as <- <- <-. by exists w2.
Qed.

(** C14: a write of a file is atomic and keeps its mode: whatever fails, nothing changes but the file and its temporary, at every moment the file is what it was or has the whole new content with the permission bits of the file it replaces, and the temporary is never readable by more than the old file was; with an expected digest nothing changes unless the old content has it; and an answer means that the new content is there, the temporary is gone and the digest answered is that of the content. *)
Theorem fs_write_atomic rt params dp n content v w r v' w' :
  let t := vol_tree v in let p := dp ++ [n] in let tmp := dp ++ [temp_name n] in
  file_site t dp n -> names params dp n -> good_name (temp_name n) = true -> t !! tmp = None ->
  vget "content" params = Some (VString content) -> expected_absent_of params = Ok false ->
  fs_write sha256_hex torn pid rt params v w = (r, v', w') ->
  passes (write_moment t (vol_umask v) p tmp content) v v' /\
  (forall d, vget "expectedDigest" params = Some (VString d) ->
     v' = v \/ exists m data, t !! p = Some (EFile m data) /\ d = digest_text sha256_hex data) /\
  (forall a, r = Ok a ->
     (exists m, vol_tree v' !! p = Some (EFile m content) /\ forall old, kept_mode t p = Some old -> m = old) /\
     vol_tree v' !! tmp = None /\ vget "digest" a = Some (VString (digest_text sha256_hex content))).
Proof.
  intros t p tmp Hs Hp Hg Hvac Hc Ha H. apply (fs_write_begin _ _ dp n content) in H as [[-> Hr]|[Hd [w1 H]]]; [| |done..].
  - split_and!; [apply passes_refl|by left|by intros a ->].
  - apply replace_run in H as [Hpass H]; [|done..]. split_and!; [done|right; by apply Hd|]. intros a Hr. destruct (H a Hr) as (-> & Hm & Hgone & _). by split_and!.
Qed.

(** a temporary file that a failed write left behind makes every later write of the file by the same process fail: nothing removes it, and it is only ever created anew. *)
Theorem leftover_blocks_writes rt params dp n content v w e :
  let t := vol_tree v in let tmp := dp ++ [temp_name n] in
  file_site t dp n -> names params dp n -> good_name (temp_name n) = true -> t !! tmp = Some e -> entry_is_link e = false ->
  vget "content" params = Some (VString content) -> expected_absent_of params = Ok false ->
  exists error w', fs_write sha256_hex torn pid rt params v w = (Err error, v, w').
Proof.
  intros t tmp Hs Hp Hg He Hl Hc Ha. destruct (fs_write sha256_hex torn pid rt params v w) as [[r v'] w'] eqn:H.
  assert (v' = v /\ is_err r = true) as [-> Hr]; [|destruct r as [|error]; [done|by exists error, w']].
  apply (fs_write_begin _ _ dp n content) in H as [?|[_ [w1 H]]]; [done| |done..]. unfold replace_content in H.
  apply bind_cases in H as (r1 & v1 & w2 & H1 & H). eapply temporary_path_at in H1 as [-> H1]; [|done..|unfold is_link_at; fold tmp; fold t; rewrite He; by destruct e].
  destruct r1 as [q|]; [|by destruct H as (-> & -> & _)]. rewrite (H1 q eq_refl) in H. clear H1.
  apply bind_cases in H as (r2 & v2 & w3 & H2 & H). apply with_err_cases in H2 as (k2 & H2 & ->).
  assert (v2 = v /\ is_err k2 = true) as [-> Hk]; [|destruct k2; [done|by destruct H as (-> & -> & _)]].
  unfold write_atomic_payload in H2. apply bind_cases in H2 as (r3 & v3 & w4 & H3 & H2). apply attempt_cases in H3 as (found & -> & [-> _]%ask_cases).
  apply bind_cases in H2 as (r4 & v4 & w5 & H4 & H2).
  assert (v4 = v) as -> by (destruct found as [|[]]; unfold ret, fail in H4; by injection H4 as _ <- _).
  destruct r4 as [mode|]; [|by destruct H2 as (-> & -> & _)]. apply bind_cases in H2 as (r5 & v5 & w6 & H5 & H2).
  unfold Fs.open_new in H5. rewrite bind_get in H5. apply sys_cases in H5 as [(k & -> & ->)|(q' & t5 & H5 & -> & ->)]; [by destruct H2 as (-> & -> & _)|].
  rewrite vacancy_clear in H5 by (by eapply site_clear). fold t tmp in H5. by rewrite He in H5.
Qed.

(** a patch that answers has replaced the one occurrence of its context: the context was first found between a text before and a text after that stay as they are and was not found again behind it, the digest of the file was the expected one, and now the file holds the replacement in its place, with its permission bits. *)
Theorem fs_patch_replaces rt params dp n v w a v' w' :
  let t := vol_tree v in let p := dp ++ [n] in let tmp := dp ++ [temp_name n] in
  file_site t dp n -> names params dp n -> good_name (temp_name n) = true -> t !! tmp = None ->
  fs_patch sha256_hex torn pid rt params v w = (Ok a, v', w') ->
  exists before after left right m,
    required_str params "before" = Ok before /\ required_str params "after" = Ok after /\
    t !! p = Some (EFile m (left +:+ before +:+ right)) /\
    required_str params "expectedDigest" = Ok (digest_text sha256_hex (left +:+ before +:+ right)) /\
    String.index 0 before (left +:+ before +:+ right) = Some (String.length left) /\ (right = "" \/ String.index 0 before right = None) /\
    vol_tree v' !! p = Some (EFile (Z.land m 511) (left +:+ after +:+ right)) /\
    vget "digest" a = Some (VString (digest_text sha256_hex (left +:+ after +:+ right))) /\
    agree [tmp; p] t (vol_tree v').
Proof.
  intros t p tmp Hs Hp Hg Hvac H. unfold fs_patch in H. mstep H q v1 w1 H1.
  eapply site_path in H1 as (-> & _ & H1); [|done|exact Hp|apply (fsite_name _ _ _ Hs)|by eapply site_link]. rewrite (H1 q eq_refl) in H. clear H1 q. fold p in H.
  mlift H expected Hexp. mstep H actual v2 w2 H2. apply digest_file_run in H2 as [-> H2]; [|done]. destruct (H2 actual eq_refl) as (m & data & Hm & ->). fold t p in Hm.
  destruct (String.eqb_spec (digest_text sha256_hex data) expected) as [<-|]; [|done]. cbn [negb] in H. mlift H before Hbefore. mlift H after Hafter.
  mstep H content v3 w3 H3. apply with_err_cases in H3 as (k3 & H3 & Hk). destruct k3 as [c|]; [|done]. injection Hk as <-.
  unfold read_to_string in H3. mstep H3 bytes v4 w4 H4. apply ask_cases in H4 as [-> H4]. specialize (H4 bytes eq_refl).
  rewrite entry_clear in H4; [|by eapply site_clear|intros _; by eapply site_link]. fold t p in H4. rewrite Hm in H4. cbn in H4. injection H4 as <-.
  destruct (is_utf8 data); [|done]. unfold ret in H3. injection H3 as <- <- _. destruct (Nat.eqb_spec (count_matches before data) 1) as [Hone|]; [|done]. cbn [negb] in H.
  assert (before <> "") as Hne by (intros ->; unfold required_str in Hbefore; repeat case_match; simplify_eq; done).
  destruct (replace_only before after data Hne Hone) as (left & right & -> & Er & Hfirst & Hright). rewrite Er in H.
  apply replace_run in H as [_ H]; [|done..]. destruct (H a eq_refl) as (-> & (m' & Hm' & Hmode) & _ & Hag).
  exists before, after, left, right, m. rewrite (Hmode (Z.land m 511)) in Hm' by (unfold kept_mode; fold t p; by rewrite Hm). by split_and!.
Qed.

(** ** Creating a file *)

Definition absent_name (n unique : string) : string := file_stem n +:+ "." +:+ ("fabric." +:+ pretty pid +:+ "." +:+ unique +:+ ".tmp").

(** A moment of a creation: the file is what it was, or it was absent and is complete. *)
Definition create_moment (t : Tree) (p tmp : place) (content : string) (t' : Tree) : Prop :=
  agree [tmp; p] t t' /\ (t' !! p = t !! p \/ t !! p = None /\ exists m, t' !! p = Some (EFile m content)).

Lemma insert_create_moment t p tmp content e : p <> tmp -> create_moment t p tmp content (<[tmp := e]> t).
Proof.
  intros Hne. split; [eapply agree_mono; [|apply agree_insert]; apply Forall_singleton, Exists_cons_hd; done|left; by rewrite lookup_insert_ne].
Qed.

(** Linking the temporary to the name: the tree is as before, or the name was free and is a second name of the file. *)
Lemma hard_link_run dp n x m data t v w r v' w' :
  file_site t dp n -> n <> x -> t !! (dp ++ [x]) = None -> vol_tree v = <[dp ++ [x] := EFile m data]> t ->
  hard_link (at_ (dp ++ [x])) (at_ (dp ++ [n])) v w = (r, v', w') ->
  (is_err r = true /\ v' = v) \/ (r = Ok tt /\ t !! (dp ++ [n]) = None /\ v' = log v (<[dp ++ [n] := EFile m data]> (vol_tree v))).
Proof.
  intros Hs Hne Hvac Hv H. assert (forall y, clear (vol_tree v) (dp ++ [y])) as Hc.
  { intros y. rewrite Hv. apply (clear_dirs t); [|by eapply site_clear]. intros q _ Hq. unfold dir_at in *. rewrite lookup_insert_ne; [done|].
    intros <-. by rewrite Hvac in Hq. }
  unfold hard_link in H. apply sys_cases in H as [(k & -> & ->)|(u & t' & H & -> & ->)]; [by left|right]. rewrite entry_clear in H by done.
  rewrite Hv, lookup_insert_eq, <- Hv in H. cbn in H. rewrite vacancy_clear in H by done.
  destruct (vol_tree v !! (dp ++ [n])) as [|] eqn:En; [done|]. destruct (dir_at _ _); [|done]. cbn in H. injection H as <- <-.
  split_and!; [done| |done]. rewrite Hv, lookup_insert_ne in En; [done|]. intros E%app_inv_head. congruence.
Qed.

(** The staged file is written, linked and removed. *)
Lemma stage_run dp n x content m t v w r v' w' :
  let p := dp ++ [n] in let tmp := dp ++ [x] in
  file_site t dp n -> n <> x -> t !! tmp = None -> vol_tree v = <[tmp := EFile m ""]> t ->
  stage_and_link torn (at_ p) (at_ tmp) tmp content v w = (r, v', w') ->
  passes (create_moment t p tmp content) v v' /\
  ((is_err r = true /\ exists data, vol_tree v' = <[tmp := EFile m data]> t) \/
   (r = Ok tt /\ t !! p = None /\ vol_tree v' = <[p := EFile m content]> (<[tmp := EFile m content]> t))).
Proof.
  intros p tmp Hs Hne Hvac Hv H. assert (p <> tmp) as Hpt by (intros E%app_inv_head; congruence). unfold stage_and_link in H.
  apply bind_cases in H as (r1 & v1 & w1 & H1 & H). apply with_err_cases in H1 as (k1 & H1 & ->).
  eapply write_at_cases in H1 as (data & Ev1 & Hd); [|rewrite Hv; apply lookup_insert_eq]. subst v1.
  assert (vol_tree (log v (<[tmp := EFile m data]> (vol_tree v))) = <[tmp := EFile m data]> t) as E by (cbn; by rewrite Hv, insert_insert_eq).
  assert (passes (create_moment t p tmp content) v (log v (<[tmp := EFile m data]> (vol_tree v)))) as Hp.
  { apply passes_log. rewrite Hv, insert_insert_eq. by apply insert_create_moment. }
  set (v1 := log v _) in *. clearbody v1. destruct k1 as [[]|]; [|destruct H as (-> & -> & _); split; [done|left; split; [done|by exists data]]].
  rewrite (Hd eq_refl) in *. cbn [map_err] in H. apply with_err_cases in H as (k2 & H & ->). eapply hard_link_run in H as [[Hk ->]|(-> & Hn & ->)]; [| |done..].
  - split; [done|]. left. split; [by destruct k2|by exists content].
  - split; [|right; cbn; by rewrite E]. eapply passes_trans; [exact Hp|]. apply passes_log. rewrite E. split.
    + intros q Hq. pose proof (outside_in _ _ _ Hq ltac:(by left)). pose proof (outside_in _ _ _ Hq ltac:(by right; left)).
      rewrite !lookup_insert_ne; [done|intros <-; by rewrite below_self in *..].
    + right. split; [done|]. exists m. apply lookup_insert_eq.
Qed.

(** The staged file is published: a moment of the creation throughout, and the file is there when it answers. *)
Lemma publish_run dp n x content m t v w r v' w' :
  let p := dp ++ [n] in let tmp := dp ++ [x] in
  file_site t dp n -> n <> x -> t !! tmp = None -> vol_tree v = <[tmp := EFile m ""]> t ->
  publish_staged sha256_hex torn (at_ p) (at_ tmp) tmp content v w = (r, v', w') ->
  passes (create_moment t p tmp content) v v' /\ (is_Some (t !! p) -> is_err r = true) /\
  (forall a, r = Ok a -> t !! p = None /\ vol_tree v' !! p = Some (EFile m content) /\
     vget "digest" a = Some (VString (digest_text sha256_hex content))).
Proof.
  intros p tmp Hs Hne Hvac Hv H. assert (p <> tmp) as Hpt by (intros E%app_inv_head; congruence). unfold publish_staged in H.
  apply bind_cases in H as (r1 & v1 & w1 & H1 & H). apply attempt_cases in H1 as (outcome & -> & H1). eapply stage_run in H1 as [Hp1 Ht1]; [|done..]. fold p tmp in Hp1, Ht1.
  apply bind_cases in H as (r2 & v2 & w2 & H2 & H). apply attempt_cases in H2 as (removed & -> & H2).
  assert (clear (vol_tree v1) tmp) as Hc.
  { apply (clear_dirs t); [|by eapply site_clear]. intros q _ Hq. unfold dir_at in *.
    assert (q <> tmp) by (intros ->; by rewrite Hvac in Hq). destruct Ht1 as [(_ & d & ->)|(_ & Hn & ->)]; [by rewrite lookup_insert_ne|].
    assert (q <> p) by (intros ->; by rewrite Hn in Hq). by rewrite !lookup_insert_ne. }
  apply remove_file_at in H2; [|done]. apply bind_cases in H as (r3 & v3 & w3 & H3 & H). unfold lift in H3. injection H3 as <- <- <-.
  destruct Ht1 as [(Hr & d & Hv1)|(-> & Hn & Hv1)].
  - destruct outcome as [|e]; [done|]. destruct H as (-> & -> & _). split_and!; [|done|done]. eapply passes_trans; [exact Hp1|].
    destruct H2 as [(k & _ & ->)|[_ ->]]; [apply passes_refl|]. apply passes_log. rewrite Hv1, delete_insert_id by done. split; [apply agree_refl|by left].
  - assert (vol_tree v2 !! p = Some (EFile m content) /\ agree [tmp; p] t (vol_tree v2) /\ passes (create_moment t p tmp content) v1 v2) as (Hm & Hag & Hp2).
    { assert (forall t', t' !! p = Some (EFile m content) -> agree [tmp; p] t t' -> create_moment t p tmp content t') as Hmom by (intros t' E1 E2; split; [done|right; split; [done|by exists m]]).
      assert (agree [tmp; p] t (vol_tree v1)) as Ha1.
      { rewrite Hv1. intros q Hq. pose proof (outside_in _ _ _ Hq ltac:(by left)). pose proof (outside_in _ _ _ Hq ltac:(by right; left)).
        rewrite !lookup_insert_ne; [done|intros <-; by rewrite below_self in *..]. }
      assert (vol_tree v1 !! p = Some (EFile m content)) as Hm1 by (rewrite Hv1; apply lookup_insert_eq).
      destruct H2 as [(k & _ & ->)|[_ ->]]; [split_and!; [done|done|apply passes_refl]|].
      assert (delete tmp (vol_tree v1) !! p = Some (EFile m content)) as Hm2 by (by rewrite lookup_delete_ne).
      assert (agree [tmp; p] t (delete tmp (vol_tree v1))) as Ha2.
      { eapply agree_trans; [exact Ha1|]. eapply agree_mono; [|apply agree_delete]. apply Forall_singleton, Exists_cons_hd. done. }
      split_and!; [done|done|]. apply passes_log. by apply Hmom. }
    eapply written_run in H as [-> H]; [|done..]. split_and!; [by eapply passes_trans|intros [e He]; by rewrite He in Hn|].
    intros a Hr. rewrite (H a Hr). by split_and!.
Qed.

(** The first steps of a creation *)
Lemma create_begin rt params dp n content v w r v' w' :
  let t := vol_tree v in let x := absent_name n (peek (w_uuid w)) in
  file_site t dp n -> names params dp n -> good_name x = true -> t !! (dp ++ [x]) = None ->
  vget "content" params = Some (VString content) -> vget "expectedAbsent" params = Some (VBool true) ->
  fs_write sha256_hex torn pid rt params v w = (r, v', w') ->
  (v' = v /\ is_err r = true) \/
  exists m w1, publish_staged sha256_hex torn (at_ (dp ++ [n])) (at_ (dp ++ [x])) (dp ++ [x]) content (log v (<[dp ++ [x] := EFile m ""]> t)) w1 = (r, v', w').
Proof.
  intros t x Hs Hp Hg Hvac Hc Ha H. unfold fs_write in H. apply bind_cases in H as (r1 & v1 & w1 & H1 & H).
  eapply site_path in H1 as (-> & -> & H1); [|done|exact Hp|apply (fsite_name _ _ _ Hs)|by eapply site_link].
  destruct r1 as [q|]; [|destruct H as (-> & -> & _); by left]. rewrite (H1 q eq_refl) in H. clear H1.
  unfold expected_absent_of in H. rewrite Hc, Ha in H. cbn [mbind option_bind as_str ok_or] in H. unfold bind at 1 in H. unfold lift at 1 in H. unfold bind at 1 in H. unfold lift at 1 in H.
  unfold create_absent in H. destruct (bool_decide _); [unfold fail in H; injection H as <- <- _; by left|].
  destruct (site_text _ _ _ (fsite_names _ _ _ Hs) (fsite_name _ _ _ Hs) Hp) as [Ht Hof]. rewrite Ht in H.
  apply bind_cases in H as (r1 & v1 & w1 & H1 & H). unfold lift in H1. injection H1 as <- <- <-. rewrite Hof in H.
  apply bind_cases in H as (r1 & v1 & w1 & H1 & H). unfold new_v4 in H1. injection H1 as <- <- <-. rewrite with_extension_at in H. fold x in H.
  apply bind_cases in H as (r2 & v2 & w2 & H2 & H). eapply site_path in H2 as (-> & _ & H2); [|done|reflexivity|exact Hg|by apply site_vacant_link].
  destruct r2 as [q2|]; [|destruct H as (-> & -> & _); by left]. assert (q2 = at_ (dp ++ [x])) as -> by (exact (H2 q2 eq_refl)). clear H2. rewrite siblings_agree in H.
  apply bind_cases in H as (r3 & v3 & w3 & H3 & H). rewrite (create_parent_run _ _ _ _ Hs) in H3. injection H3 as <- <- <-.
  apply bind_cases in H as (r4 & v4 & w4 & H4 & H). apply with_err_cases in H4 as (k4 & H4 & ->). unfold Fs.open_new in H4. rewrite bind_get in H4.
  apply sys_cases in H4 as [(k & -> & ->)|(q4 & t4 & H4 & -> & ->)]; [destruct H as (-> & -> & _); by left|right].
  rewrite vacancy_clear in H4 by (by eapply site_clear). fold t in H4. rewrite Hvac, parent_snoc, (fsite_dir _ _ _ Hs) in H4. cbn in H4. injection H4 as <- <-. eexists _, w4. exact H.
Qed.

(** a write that expects the file to be absent never replaces one: whatever fails, at every moment the file is what it was, or it was absent and has the whole content; where the file exists the request fails and leaves it; and an answer means the file was absent, has the content now, and the digest answered is that of the content. *)
Theorem create_never_replaces rt params dp n content v w r v' w' :
  let t := vol_tree v in let p := dp ++ [n] in let tmp := dp ++ [absent_name n (peek (w_uuid w))] in
  file_site t dp n -> names params dp n -> good_name (absent_name n (peek (w_uuid w))) = true -> t !! tmp = None ->
  vget "content" params = Some (VString content) -> vget "expectedAbsent" params = Some (VBool true) ->
  fs_write sha256_hex torn pid rt params v w = (r, v', w') ->
  passes (create_moment t p tmp content) v v' /\
  (is_Some (t !! p) -> is_err r = true) /\
  (forall a, r = Ok a -> t !! p = None /\ (exists m, vol_tree v' !! p = Some (EFile m content)) /\
     vget "digest" a = Some (VString (digest_text sha256_hex content))).
Proof.
  intros t p tmp Hs Hp Hg Hvac Hc Ha H. assert (n <> absent_name n (peek (w_uuid w))) as Hne.
  { unfold absent_name. rewrite (string_app_assoc (pretty pid)), (string_app_assoc (pretty pid +:+ ".")). apply temporary_differs. }
  apply (create_begin _ _ dp n content) in H as [[-> Hr]|(m & w1 & H)]; [|clear Hc Ha|done..].
  - split_and!; [apply passes_refl|done|by intros a ->].
  - eapply publish_run in H as (Hp1 & Hex & Hok); [|done..]. split_and!; [|done|].
    + eapply passes_trans; [|exact Hp1]. apply passes_log, insert_create_moment. intros E%app_inv_head. congruence.
    + intros a Hr. destruct (Hok a Hr) as (? & ? & ?). split_and!; [done|by exists m|done].
Qed.

End Writing.
