(* ===== verification/FileRestore.v ===== *)
(** * File requests: removing, restoring and searching

    What a removal takes away lies complete in the trash directory beside it, and
    a restore with its token puts everything back. A search gives lines that hold
    the query, with their file and number, and no more of them than asked for. *)
From Stdlib Require Import Ascii.
From stdpp Require Import base gmap strings list sorting pretty.
From S2P Require Import Prelude Json Protocol PathPolicy FileTree FileTreeLaws Generations Controller TreeDigest ArtifactRelay RelaySafety RelayCommit RelayReceive Utf8.
From S2P Require Import FileHandlers FileSafety.
Open Scope Z_scope.
Open Scope fabric_scope.

(** ** Paths below a missing name *)

Lemma walk_missing (links : nat) (t : Tree) (follow : bool) (dp : place) (x : string) (ys cur : place) :
  (forall q, q `prefix_of` dp -> q <> [] -> dir_at t (cur ++ q) = true) -> t !! (cur ++ dp ++ [x]) = None ->
  is_ok (bind_result (walk links t follow cur (Normal <$> dp ++ x :: ys)) (fun q => match t !! q with Some e => Ok (q, e) | None => Err NotFound end)) = false.
Proof.
  revert cur. induction dp as [|n dp IH]; intros cur Hd Hn.
  - cbn in Hn. destruct links, ys; cbn [app fmap list_fmap walk]; rewrite Hn; cbn [bind_result]; try done; by rewrite Hn.
  - assert (dir_at t (cur ++ [n]) = true) as Hdn by (apply Hd; [by exists dp|done]). destruct (dir_at_Some _ _ Hdn) as [m Hm].
    assert (walk links t follow cur (Normal <$> (n :: dp) ++ x :: ys) = walk links t follow (cur ++ [n]) (Normal <$> dp ++ x :: ys)) as ->.
    { destruct links; cbn [app fmap list_fmap walk]; by rewrite Hm. }
    apply IH; [|by rewrite <- app_assoc]. intros q Hq Hne. rewrite <- app_assoc. apply Hd; [by apply prefix_cons|done].
Qed.

Lemma entry_missing (t : Tree) (dp : place) (x : string) (ys : place) :
  clear t dp -> dir_at t dp = true -> t !! (dp ++ [x]) = None -> is_ok (entry t true (at_ (dp ++ x :: ys))) = false.
Proof.
  intros Hc Hd Hn. unfold entry, resolve, at_. cbn [p_absolute p_components]. apply walk_missing; [|done].
  intros q Hq Hne. cbn. destruct (decide (q = dp)) as [->|]; [done|by apply Hc].
Qed.

(** A path whose names from [x] on are missing resolves to itself. *)
Lemma resolve_beyond (t : Tree) (dp : place) (x : string) (ys : place) :
  forallb good_name (x :: ys) = true -> clear t dp -> dir_at t dp = true -> t !! (dp ++ [x]) = None ->
  @resolve_path (tree_fs t) (at_ (dp ++ x :: ys)) = Ok (at_ (dp ++ x :: ys)).
Proof.
  intros Hg Hc Hd Hn. destruct (dir_at_Some _ _ Hd) as [m Hm].
  assert (entry t true (at_ dp) = Ok (dp, EDir m)) as Hdp by (rewrite entry_clear, Hm; [done|done|intros _; unfold is_link_at; by rewrite Hm]).
  assert (forall path ys' miss, forallb good_name ys' = true -> (ys' = [] \/ exists zs, ys' = x :: zs) ->
    @resolve_missing (tree_fs t) path (rev (Normal <$> dp ++ ys')) miss = Ok (mkPath true ((Normal <$> dp ++ ys') ++ miss))) as Hup.
  { intros path ys'. induction ys' as [|y ys' IH] using rev_ind; intros miss Hgs Hx.
    - rewrite app_nil_r. assert (forall l, rev l = Normal <$> dp -> @resolve_missing (tree_fs t) path l miss = Ok (mkPath true ((Normal <$> dp) ++ miss))) as H0; [|by apply H0, rev_involutive].
      intros l Hrev. assert (mkPath true (rev l) = at_ dp) as Hat by (by rewrite Hrev). destruct l; cbn [resolve_missing]; rewrite Hat; cbn [fs_exists fs_canonicalize tree_fs]; by rewrite Hdp.
    - rewrite forallb_app in Hgs. apply andb_true_iff in Hgs as [Hgs Hy]. cbn in Hy. rewrite andb_true_r in Hy.
      assert (exists zs, ys' ++ [y] = x :: zs) as [zs Hzs] by (destruct Hx as [Hx|?]; [by destruct ys'|done]).
      rewrite app_assoc, fmap_app, rev_app_distr. cbn [fmap list_fmap rev app]. cbn [resolve_missing]. cbn [rev]. rewrite rev_involutive.
      rewrite <- fmap_snoc. change (mkPath true (Normal <$> ((dp ++ ys') ++ [y]))) with (at_ ((dp ++ ys') ++ [y])). rewrite <- app_assoc, Hzs.
      cbn [fs_exists tree_fs]. rewrite (entry_missing t dp x zs) by done. apply good_name_parts in Hy as (_ & Hdot & Hdots). rewrite negb_true_iff in Hdot.
      rewrite Hdot, Hdots. cbn [orb]. rewrite IH; [|done|destruct ys' as [|z ys']; [by left|right; injection Hzs as -> _; by eexists]].
      rewrite <- Hzs, app_assoc, (fmap_app _ (dp ++ ys')). cbn. by rewrite <- app_assoc. }
  unfold resolve_path. rewrite no_parent_at. cbn [p_absolute at_ negb fs_exists tree_fs].
  change (mkPath true (Normal <$> (dp ++ x :: ys))) with (at_ (dp ++ x :: ys)). rewrite entry_missing by done. cbn [is_ok].
  change (p_components (at_ (dp ++ x :: ys))) with (Normal <$> (dp ++ x :: ys)). rewrite Hup; [by rewrite app_nil_r|done|right; by exists ys].
Qed.

Section Restoring.
Context (sha256_hex : string -> string) (fuel : nat).

(** Something that can be removed: a file or a directory, with a trash directory beside it or room for one *)
Record trash_site (t : Tree) (dp : place) (n : string) : Prop := mk_trash_site {
  ts_wf : tree_wf t;
  ts_names : forallb good_name dp = true;
  ts_clear : clear t dp;
  ts_dir : dir_at t dp = true;
  ts_name : good_name n = true;
  ts_present : is_Some (t !! (dp ++ [n]));
  ts_link : is_link_at t (dp ++ [n]) = false;
  ts_apart : n <> TRASH;
  ts_trash : t !! (dp ++ [TRASH]) = None \/ dir_at t (dp ++ [TRASH]) = true;
}.

Lemma trash_good : good_name TRASH = true.
Proof. reflexivity. Qed.
Lemma trash_clear t dp n x : trash_site t dp n -> clear t (dp ++ [x]).
Proof. intros H. apply clear_snoc. split; [apply (ts_clear _ _ _ H)|apply (ts_dir _ _ _ H)]. Qed.

(** What a path of a request comes to, given that it resolves to itself *)
Lemma plain_path rt params key p must_exist v w r v' w' :
  vget key params = Some (VString (display (at_ p))) -> forallb good_name p = true -> @resolve_path (tree_fs (vol_tree v)) (at_ p) = Ok (at_ p) ->
  write_path rt params key must_exist v w = (r, v', w') -> v' = v /\ forall q, r = Ok q -> q = at_ p.
Proof.
  intros Hp Hg Hr H. unfold write_path, checked_path in H. rewrite Hp in H. cbn [mbind option_bind as_str] in H.
  by apply checked_text_resolved in H as (-> & _ & ?).
Qed.

Lemma site_resolves t dp n : trash_site t dp n -> @resolve_path (tree_fs t) (at_ (dp ++ [n])) = Ok (at_ (dp ++ [n])).
Proof. intros H. apply resolve_existing; [by eapply trash_clear|apply (ts_link _ _ _ H)|apply (ts_present _ _ _ H)]. Qed.
Lemma token_resolves t dp n token :
  trash_site t dp n -> good_name token = true -> t !! (dp ++ [TRASH; token]) = None ->
  @resolve_path (tree_fs t) (at_ (dp ++ [TRASH; token])) = Ok (at_ (dp ++ [TRASH; token])).
Proof.
  intros H Hg Hn. destruct (ts_trash _ _ _ H) as [Ht|Ht].
  - apply resolve_beyond; [cbn [forallb]; by rewrite trash_good, Hg|apply (ts_clear _ _ _ H)|apply (ts_dir _ _ _ H)|done].
  - change [TRASH; token] with ([TRASH] ++ [token]) in *. rewrite app_assoc in *. apply resolve_place; [done|by eapply trash_clear|done|unfold is_link_at; by rewrite Hn].
Qed.

Lemma runtime_digest_inert rt root : inert (runtime_digest_tree sha256_hex fuel rt root).
Proof.
  unfold runtime_digest_tree. apply inert_bind; [destruct (desktop_policy rt); [apply ensure_readable_inert|apply inert_ret]|]. intros _.
  unfold digest_tree. apply inert_bind; [apply collect_inert|]. intros paths. apply inert_bind; [apply digest_entries_inert|]. intros item. apply inert_ret.
Qed.
Lemma digest_file_inert path : inert (digest_file sha256_hex path).
Proof. unfold digest_file. apply inert_bind; [apply inert_with_err, inert_ask|]. intros bytes. apply inert_ret. Qed.

(** What was removed, in its trash directory: the tree with the trash directory, and what was at [p] moved to [token]. *)
Definition trashed (t : Tree) (dp : place) (n token : string) (t' : Tree) : Prop :=
  exists t0, (t0 = t /\ dir_at t (dp ++ [TRASH]) = true \/ exists m, t !! (dp ++ [TRASH]) = None /\ t0 = <[dp ++ [TRASH] := EDir m]> t) /\
    t' = graft (dp ++ [TRASH; token]) (subtree (dp ++ [n]) t0) (prune (dp ++ [n]) t0).

Lemma fs_remove_run rt params dp n v w a v' w' :
  trash_site (vol_tree v) dp n -> names params dp n -> fs_remove sha256_hex fuel rt params v w = (Ok a, v', w') ->
  exists token, vget "restoreToken" a = Some (VString (display (at_ (dp ++ [TRASH; token])))) /\
    (good_name token = true -> vol_tree v !! (dp ++ [TRASH; token]) = None -> trashed (vol_tree v) dp n token (vol_tree v')).
Proof.
  intros Hs Hp H. assert (forallb good_name (dp ++ [n]) = true) as Hgn by (rewrite forallb_app, (ts_names _ _ _ Hs); cbn; by rewrite (ts_name _ _ _ Hs)).
  unfold fs_remove in H. mstep H q v1 w1 H1. eapply plain_path in H1 as [-> H1]; [|exact Hp|done|by apply site_resolves]. rewrite (H1 q eq_refl) in H. clear H1 q.
  mlift H expected Hexp. mstep H directory v2 w2 H2. apply test_cases in H2 as (k2 & [-> _]%ask_cases & _).
  mstep H actual v3 w3 H3. assert (v3 = v) as ->.
  { destruct directory; [|by eapply digest_file_inert]. mstep H3 item v4 w4 H4. unfold ret in H3. injection H3 as _ <- _. by eapply runtime_digest_inert. }
  destruct (negb _); [done|]. destruct (site_text _ _ _ (ts_names _ _ _ Hs) (ts_name _ _ _ Hs) Hp) as [Ht Hof]. rewrite Ht in H. mlift H text Htext.
  injection Htext as <-. rewrite Hof, path_parent_at in H. mlift H parent Hpar. injection Hpar as <-.
  mstep H stamp v4 w4 H4. unfold now_ms in H4. injection H4 as <- <- <-. mstep H uniq v5 w5 H5. unfold new_v4 in H5. injection H5 as <- <- <-.
  match type of H with context [join (at_ dp) [TRASH; ?x]] => set (token := x) in * end. rewrite join_at in H. exists token.
  mstep H destination v6 w6 H6. mlift H trash Htrash. destruct (parents_differ trash (at_ (dp ++ [n]))); [done|].
  mstep H u1 v7 w7 H7. mstep H u2 v8 w8 H8. unfold ret in H. injection H as <- <- <-. split; [reflexivity|]. intros Hg Hfresh.
  assert (forallb good_name (dp ++ [TRASH; token]) = true) as Hgt by (rewrite forallb_app, (ts_names _ _ _ Hs); cbn [forallb]; by rewrite trash_good, Hg).
  eapply (plain_path _ (with_path (at_ (dp ++ [TRASH; token]))) "path" (dp ++ [TRASH; token])) in H6 as [-> H6]; [|reflexivity|done|by eapply token_resolves].
  rewrite (H6 destination eq_refl) in *. clear H6. change [TRASH; token] with ([TRASH] ++ [token]) in Htrash. rewrite app_assoc, path_parent_at in Htrash. injection Htrash as <-.
  apply with_err_cases in H7 as (k7 & H7 & E7). destruct k7 as [[]|]; [|done]. apply create_dir_all_at in H7; [|by eapply trash_clear| |done].
  2:{ unfold is_link_at. destruct (ts_trash _ _ _ Hs) as [->|Hd]; [done|]. by destruct (dir_at_Some _ _ Hd) as [m ->]. }
  apply with_err_cases in H8 as (k8 & H8 & E8). destruct k8 as [[]|]; [|done].
  assert (dp ++ [n] <> dp ++ [TRASH; token]) as Hne by (intros E%app_inv_head; done).
  exists (vol_tree v7). split; [destruct H7 as [[-> ?]|(m & ? & ->)]; [by left|right; by exists m]|].
  assert (forall q, dir_at (vol_tree v) q = true -> dir_at (vol_tree v7) q = true) as Hdirs.
  { intros q Hq. destruct H7 as [[-> _]|(m & Hn & ->)]; [done|]. unfold dir_at in *. cbn. destruct (decide (dp ++ [TRASH] = q)) as [<-|]; [by rewrite lookup_insert_eq|by rewrite lookup_insert_ne]. }
  assert (dir_at (vol_tree v7) (dp ++ [TRASH]) = true) as Hdt.
  { destruct H7 as [[-> ?]|(m & ? & ->)]; [done|]. unfold dir_at. cbn. by rewrite lookup_insert_eq. }
  assert (clear (vol_tree v7) (dp ++ [n])) as Hc1 by (apply (clear_dirs (vol_tree v)); [intros; by apply Hdirs|by eapply trash_clear]).
  assert (clear (vol_tree v7) (dp ++ [TRASH; token])) as Hc2.
  { change [TRASH; token] with ([TRASH] ++ [token]). rewrite app_assoc. apply clear_snoc. split; [|done].
    apply (clear_dirs (vol_tree v)); [intros; by apply Hdirs|by eapply trash_clear]. }
  apply rename_at in H8 as [(k & ? & _)|(t' & Ht' & _ & ->)]; [done| |done|done]. apply rename_tree_ok in Ht' as (_ & _ & _ & -> & _); done.
Qed.

Section Trashed.
Context (t t' : Tree) (dp : place) (n token : string).
Context (Hs : trash_site t dp n) (Ht : trashed t dp n token t').
Let p := dp ++ [n].
Let trash := dp ++ [TRASH].
Let tk := dp ++ [TRASH; token].

Lemma token_apart : below p tk = None /\ below tk p = None /\ below p trash = None /\ below trash p = None /\ below tk trash = None.
Proof.
  assert (n <> TRASH) as Hne by apply (ts_apart _ _ _ Hs). split_and!.
  - by apply (below_sibling dp n TRASH).
  - apply below_prefix. intros [z Hz]. unfold p, tk in Hz. rewrite <- app_assoc in Hz. apply app_inv_head in Hz. done.
  - by apply below_sibling'.
  - by apply below_sibling'.
  - apply below_prefix. intros [z Hz]. unfold trash, tk in Hz. rewrite <- app_assoc in Hz. apply app_inv_head in Hz. done.
Qed.
Lemma trash_below q : below trash q = None -> below tk q = None.
Proof.
  rewrite !below_prefix. intros H [z ->]. apply H. exists (token :: z). unfold trash, tk. by rewrite <- !app_assoc.
Qed.

(** What is where after the removal *)
Lemma trashed_gone r : t' !! (p ++ r) = None.
Proof. destruct Ht as (t0 & _ & ->). fold p tk. apply rename_gone. apply below_apart; apply token_apart. Qed.
Lemma trashed_moved r : t' !! (tk ++ r) = t !! (p ++ r).
Proof.
  destruct Ht as (t0 & H0 & ->). fold p tk. rewrite rename_moves by apply token_apart. destruct H0 as [[-> _]|(m & _ & ->)]; [done|].
  rewrite lookup_insert_ne; [done|]. fold trash. intros E. destruct token_apart as (_ & _ & H & _). rewrite E, below_app in H. done.
Qed.
Lemma trashed_elsewhere q : below p q = None -> below tk q = None -> q <> trash -> t' !! q = t !! q.
Proof.
  intros H1 H2 H3. destruct Ht as (t0 & H0 & ->). fold p tk. rewrite rename_frame by done. destruct H0 as [[-> _]|(m & _ & ->)]; [done|].
  rewrite lookup_insert_ne; [done|]. by intros <-.
Qed.
Lemma trashed_trash : dir_at t' trash = true.
Proof.
  destruct Ht as (t0 & H0 & ->). fold p tk. unfold dir_at. rewrite rename_frame by apply token_apart.
  destruct H0 as [[-> H0]|(m & _ & ->)]; [exact H0|]. by rewrite lookup_insert_eq.
Qed.
Lemma trashed_parent : clear t' dp /\ dir_at t' dp = true.
Proof.
  assert (forall q, q `prefix_of` dp -> t' !! q = t !! q) as Hq.
  { intros q Hq. apply trashed_elsewhere; [by apply below_above| |].
    - apply below_prefix. intros Hz. pose proof (prefix_length _ _ (transitivity Hz Hq)) as Hl. unfold tk in Hl. rewrite length_app in Hl. cbn in Hl. lia.
    - intros ->. apply prefix_length in Hq. unfold trash in Hq. rewrite length_app in Hq. cbn in Hq. lia. }
  split; [|unfold dir_at; rewrite Hq by done; apply (ts_dir _ _ _ Hs)]. apply (clear_dirs t); [|apply (ts_clear _ _ _ Hs)].
  intros q Hpre Hd. unfold dir_at. by rewrite Hq.
Qed.

(** Restoring puts everything outside the trash directory back. *)
Lemma fs_restore_run rt params v w a v' w' :
  vol_tree v = t' -> good_name token = true -> names params dp n -> vget "restoreToken" params = Some (VString (display (at_ tk))) ->
  fs_restore rt params v w = (Ok a, v', w') -> forall q, below trash q = None -> vol_tree v' !! q = t !! q.
Proof.
  intros Hv Hg Hp Htok H. destruct trashed_parent as [Hc Hd]. pose proof trashed_trash as Hdt. pose proof (trashed_gone []) as Hgone. rewrite app_nil_r in Hgone.
  assert (t' !! tk = t !! p) as Hmoved by (pose proof (trashed_moved []) as E; by rewrite !app_nil_r in E).
  assert (clear t' trash) as Hct by (by apply clear_snoc). assert (tk = trash ++ [token]) as Etk by (unfold tk, trash; by rewrite <- app_assoc).
  assert (clear t' tk) as Hctk by (rewrite Etk; by apply clear_snoc).
  unfold fs_restore in H. mstep H destination v1 w1 H1. eapply (plain_path _ _ "path" p) in H1 as [-> H1]; [|exact Hp| |].
  2:{ unfold p. rewrite forallb_app, (ts_names _ _ _ Hs). cbn. by rewrite (ts_name _ _ _ Hs). }
  2:{ rewrite Hv. apply resolve_place; [apply (ts_name _ _ _ Hs)|done|done|]. unfold is_link_at. fold p. by rewrite Hgone. }
  rewrite (H1 _ eq_refl) in H. mstep H tok v2 w2 H2. eapply (plain_path _ _ "restoreToken" tk) in H2 as [-> H2]; [|exact Htok| |].
  2:{ unfold tk. rewrite forallb_app, (ts_names _ _ _ Hs). cbn [forallb]. by rewrite trash_good, Hg. }
  2:{ rewrite Hv. apply resolve_existing; [done| |rewrite Hmoved; apply (ts_present _ _ _ Hs)]. unfold is_link_at. rewrite Hmoved. apply (ts_link _ _ _ Hs). }
  rewrite (H2 _ eq_refl) in H. clear H1 H2. destruct (negb _); [done|]. mstep H present v3 w3 H3. apply test_cases in H3 as (k & [-> _]%ask_cases & _).
  destruct present; [done|]. mstep H u v4 w4 H4. unfold ret in H. injection H as _ <- _. apply with_err_cases in H4 as (k4 & H4 & E4). destruct k4 as [[]|]; [|done].
  apply rename_at in H4 as [(k' & ? & _)|(t2 & Ht2 & _ & ->)]; [done| |by rewrite Hv|rewrite Hv; by apply clear_snoc]. rewrite Hv in Ht2.
  destruct token_apart as (A1 & A2 & A3 & A4 & A5). apply rename_tree_ok in Ht2 as (_ & _ & _ & -> & _); [|intros E; by rewrite E, below_self in A2].
  intros q Hq. cbn [vol_tree log]. pose proof (trash_below q Hq) as Hqt. destruct (below p q) as [r|] eqn:Er.
  - apply below_Some in Er as ->. rewrite rename_moves by done. apply trashed_moved.
  - rewrite rename_frame by done. apply trashed_elsewhere; [done|done|]. intros ->. by rewrite below_self in Hq.
Qed.

End Trashed.

(** C19: removing and restoring is a round trip: what a removal takes away lies complete under the token it answers, with nothing else of the file system changed outside the trash directory, and restoring that token puts it back, so that outside the trash directory everything is as it was before the removal. *)
Theorem restore_undoes_remove rt rt' params params' dp n token v w a v1 w1 w2 a2 v2 w3 :
  let t := vol_tree v in let p := dp ++ [n] in let tk := dp ++ [TRASH; token] in
  trash_site t dp n -> names params dp n -> fs_remove sha256_hex fuel rt params v w = (Ok a, v1, w1) ->
  vget "restoreToken" a = Some (VString (display (at_ tk))) -> good_name token = true -> t !! tk = None ->
  names params' dp n -> vget "restoreToken" params' = vget "restoreToken" a -> fs_restore rt' params' v1 w2 = (Ok a2, v2, w3) ->
  (forall q, vol_tree v1 !! (tk ++ q) = t !! (p ++ q)) /\ (forall q, vol_tree v1 !! (p ++ q) = None) /\
  (forall q, below (dp ++ [TRASH]) q = None -> below p q = None -> vol_tree v1 !! q = t !! q) /\
  (forall q, below (dp ++ [TRASH]) q = None -> vol_tree v2 !! q = t !! q).
Proof.
  intros t p tk Hs Hp H1 Htok Hg Hfresh Hp' Htok' H2. apply (fs_remove_run _ _ dp n) in H1 as (token' & Htok2 & Htr); [|done..].
  assert (token' = token) as ->.
  { assert (display (at_ tk) = display (at_ (dp ++ [TRASH; token']))) as E by congruence. unfold tk in E. rewrite !display_at in E. apply (f_equal tail) in E. cbn [tail] in E. change [TRASH; ?x] with ([TRASH] ++ [x]) in E. rewrite !app_assoc in E.
    revert E. clear. generalize (dp ++ [TRASH]). intros l. induction l as [|x [|y l] IH]; intros E; [by cbn in E| |].
    - cbn [app] in E. rewrite !relative_text_cons in E. apply (inj (String.append x)) in E. by injection E as E.
    - cbn [app] in E. rewrite !relative_text_cons in E. apply (inj (String.append x)) in E. injection E as E. by apply IH. }
  specialize (Htr Hg Hfresh). split_and!.
  - intros q. by apply trashed_moved.
  - intros q. by eapply trashed_gone.
  - intros q Hq Hq'. apply (trashed_elsewhere _ _ _ _ token Htr q Hq'); [by apply trash_below|]. intros ->. by rewrite below_self in Hq.
  - rewrite Htok in Htok'. exact (fs_restore_run _ _ _ _ _ Hs Htr _ _ _ _ _ _ _ eq_refl Hg Hp' Htok' H2).
Qed.

End Restoring.

(** ** Searching *)

(** A match: a line of a file that holds the query *)
Definition is_match (t : Tree) (query : string) (m : Value) : Prop :=
  exists path q mode data i line, entry t true path = Ok (q, EFile mode data) /\ lines (from_utf8_lossy data) !! i = Some line /\
    str_contains query line = true /\
    m = obj_of [("path", VString (display path)); ("line", vu64 (Z.of_nat i + 1)); ("text", VString line)].

(** The results so far: matches, and no more than asked for *)
Definition results_ok (t : Tree) (query : string) (max_results : Z) (matches : list Value) : Prop :=
  Forall (is_match t query) matches /\ Z.of_nat (length matches) <= max_results.

Section Searching.
Context (rt : ExecutorRuntime) (query : string) (max_results : Z).

Lemma search_lines_ok t path q mode data (all rest : list string) i matches :
  entry t true path = Ok (q, EFile mode data) -> all = lines (from_utf8_lossy data) -> rest = drop i all ->
  results_ok t query max_results matches -> Z.of_nat (length matches) < max_results ->
  results_ok t query max_results (search_lines path query max_results (Z.of_nat i) rest matches).
Proof.
  intros He Hall. revert i matches. induction rest as [|line rest IH]; intros i matches Hrest [HF Hl] Hlt; [done|]. cbn [search_lines].
  assert (all !! i = Some line /\ rest = drop (S i) all) as [Hline Hrest'].
  { assert ((line :: rest) !! 0%nat = Some line) as H0 by done. rewrite Hrest, lookup_drop, Nat.add_0_r in H0. split; [done|].
    rewrite (drop_S _ _ _ H0) in Hrest. by injection Hrest. }
  replace (Z.of_nat i + 1) with (Z.of_nat (S i)) by lia.
  destruct (str_contains query line) eqn:Hc; [|by apply IH]. set (matches' := matches ++ _).
  assert (results_ok t query max_results matches') as [HF' Hl'].
  { unfold matches'. split; [|rewrite length_app; cbn; lia]. apply Forall_app. split; [done|]. constructor; [|constructor].
    exists path, q, mode, data, i, line. rewrite <- Hall. split_and!; try done. by replace (Z.of_nat (S i)) with (Z.of_nat i + 1) by lia. }
  destruct (Z.leb_spec max_results (Z.of_nat (length matches'))); [done|]. by apply IH.
Qed.

Lemma search_inert depth path matches : inert (search_tree depth rt query max_results path matches).
Proof.
  revert path matches. induction depth as [|depth IH]; intros path matches; [apply inert_fail|]. cbn [search_tree].
  destruct (_ <=? _); [apply inert_ret|]. apply inert_bind.
  { unfold read_path_denied. destruct (desktop_policy rt) as [policy|]; [|apply inert_ret]. destruct (is_err _); [apply inert_ret|].
    apply inert_bind; [intros v w r v' w' H; unfold get in H; by injection H as _ <- _|]. intros v. apply inert_bind; [intros v1 w r v' w' H; unfold lift in H; by injection H as _ <- _|].
    intros c. apply inert_ret. }
  intros []; [apply inert_ret|]. apply inert_bind; [apply inert_with_err, inert_ask|]. intros [| | |]; try apply inert_ret.
  - apply inert_bind; [apply inert_with_err, inert_ask|]. intros names. generalize (merge_sort String.le names). intros l. revert matches.
    induction l as [|x l IHl]; intros matches; [apply inert_ret|]. cbn [search_children]. apply inert_bind; [apply IH|]. intros m'.
    destruct (_ <=? _); [apply inert_ret|apply IHl].
  - destruct (_ <=? _); [|apply inert_ret]. apply inert_bind; [apply inert_with_err, inert_ask|]. intros b. apply inert_ret.
Qed.

Lemma search_tree_ok depth path matches v w l v' w' :
  results_ok (vol_tree v) query max_results matches -> search_tree depth rt query max_results path matches v w = (Ok l, v', w') ->
  results_ok (vol_tree v) query max_results l.
Proof.
  revert path matches w l v' w'. induction depth as [|depth IH]; intros path matches w l v' w' Hm H; [done|]. pose proof (search_inert (S depth) path matches) as Hin.
  cbn [search_tree] in H, Hin. destruct (Z.leb_spec max_results (Z.of_nat (length matches))) as [|Hlt]; [unfold ret in H; by injection H as <- _ _|].
  mstep H denied v1 w1 H1. assert (v1 = v) as ->.
  { unfold read_path_denied in H1. destruct (desktop_policy rt); [|unfold ret in H1; by injection H1 as _ <- _]. destruct (is_err _); [unfold ret in H1; by injection H1 as _ <- _|].
    munfold. destruct (resolve_path path); [|done]. by injection H1 as _ <- _. }
  destruct denied; [unfold ret in H; by injection H as <- _ _|]. mstep H e v2 w2 H2. apply with_err_cases in H2 as (k2 & [-> H2]%ask_cases & _).
  destruct e as [m|m data| |]; try (unfold ret in H; by injection H as <- _ _).
  - mstep H found v3 w3 H3. apply with_err_cases in H3 as (k3 & [-> _]%ask_cases & _). revert H. generalize (merge_sort String.le found). intros names. clear Hin Hlt.
    revert matches w3 Hm. induction names as [|x names IHn]; intros matches w3 Hm H; cbn [search_children] in H; [unfold ret in H; by injection H as <- _ _|].
    mstep H m' v4 w4 H4. pose proof (search_inert _ _ _ _ _ _ _ _ H4) as ->. apply IH in H4; [|done]. destruct (_ <=? _); [unfold ret in H; by injection H as <- _ _|].
    by eapply IHn.
  - destruct (_ <=? _); [|unfold ret in H; by injection H as <- _ _]. mstep H bytes v3 w3 H3. apply with_err_cases in H3 as (k3 & [-> H3]%ask_cases & E3).
    destruct k3 as [b|]; [|done]. injection E3 as ->. specialize (H3 b eq_refl). unfold ret in H. injection H as <- _ _.
    destruct (entry (vol_tree v) true path) as [[q []]|] eqn:He; try done. cbn in H3. injection H3 as ->.
    exact (search_lines_ok _ _ _ _ _ _ _ 0 matches He eq_refl eq_refl Hm Hlt).
Qed.

End Searching.

(** a search answers with lines that hold the query, each with the file it is in and its number there, and with no more of them than asked for; it says that it stopped early exactly when it has that many. *)
Theorem search_finds_lines fuel rt params v w a v' w' :
  0 <= default 200 (vget "maxResults" params ≫= as_u64) -> fs_search fuel rt params v w = (Ok a, v', w') ->
  exists query l, required_str params "query" = Ok query /\ vget "matches" a = Some (VArray l) /\
    Forall (is_match (vol_tree v) query) l /\ Z.of_nat (length l) <= default 200 (vget "maxResults" params ≫= as_u64) /\
    vget "truncated" a = Some (VBool (Z.of_nat (length l) =? default 200 (vget "maxResults" params ≫= as_u64))).
Proof.
  intros Hmax H. unfold fs_search in H. set (max_results := default 200 _) in *. mstep H path v1 w1 H1. assert (v1 = v) as ->.
  { unfold read_path, checked_path, checked_text in H1. munfold. destruct (vget "path" params ≫= as_str) as [raw|]; [|discriminate H1]. by destruct (checked_path_in _ _ _ _ _); injection H1 as _ <- _. }
  mlift H query Hq. mstep H l v2 w2 H2. unfold ret in H. injection H as <- _ _.
  apply search_tree_ok in H2 as [HF Hl]; [|split; [constructor|exact Hmax]]. exists query, l. split_and!; [done|reflexivity|done|done|].
  assert ((max_results <=? Z.of_nat (length l)) = (Z.of_nat (length l) =? max_results)) as <-; [|reflexivity].
  destruct (Z.leb_spec max_results (Z.of_nat (length l))), (Z.eqb_spec (Z.of_nat (length l)) max_results); lia || done.
Qed.
