(* ===== verification/FileRuns.v ===== *)
(** * File requests: runs

    A file system on which the theorems about file requests apply, and runs that
    show what a failed write leaves behind. *)
From Stdlib Require Import Ascii.
From stdpp Require Import base gmap strings list sorting pretty.
From S2P Require Import Prelude Json Store Protocol PathPolicy FileTree FileTreeLaws Generations Controller TreeDigest ArtifactRelay RelaySafety RelayCommit RelayReceive GenerationSafety.
From S2P Require Import Utf8 FileHandlers FileSafety FileRestore.
Open Scope Z_scope.
Open Scope fabric_scope.

Definition file_tree : Tree := list_to_map
  [([], EDir 493); (["data"], EDir 493); (["data"; "conf.txt"], EFile 384 "key = old"); (["data"; "conf.md"], EFile 420 "notes");
   (["data"; "dir"], EDir 493); (["data"; "dir"; "inner"], EFile 420 "deep old line")].
Definition file_volume : Volume := mkVolume file_tree 18 [].
Definition file_executor : ExecutorRuntime := mkExecutorRuntime [at_ ["data"]] (at_ ["relay"]) None.
Definition same_text (s : string) : string := s.

Lemma conf_site n : n ∈ ["conf.txt"; "new.txt"] -> file_site file_tree ["data"] n.
Proof.
  intros Hn. constructor; [apply wfb_sound; vm_compute; reflexivity|vm_compute; reflexivity|apply clearb_sound; vm_compute; reflexivity|vm_compute; reflexivity| |];
    (apply elem_of_cons in Hn as [->|Hn]; [|apply elem_of_cons in Hn as [->|Hn]; [|by apply not_elem_of_nil in Hn]]).
  1,2: vm_compute; reflexivity.
  - right. exists 384, "key = old". vm_compute. reflexivity.
  - left. vm_compute. reflexivity.
Qed.

Definition disk_world (outcome : nat -> bool) : World :=
  mkWorld (w_wall (sample_world 0)) (w_instant (sample_world 0)) (mkOracle (fun n => "u" +:+ pretty n) 0) (mkOracle outcome 0).

(** ** Writing *)

Definition write_request : Value :=
  obj_of [("path", VString "/data/conf.txt"); ("content", VString "key = new"); ("expectedDigest", VString "sha256:key = old")].
Definition write_run (v : Volume) (outcome : nat -> bool) := fs_write same_text (fun s => "ke") 7 file_executor write_request v (disk_world outcome).

Lemma fs_write_atomic_witness :
  is_ok (write_run file_volume (fun _ => true)).1.1 = true /\
  exists m, vol_tree (write_run file_volume (fun _ => true)).1.2 !! ["data"; "conf.txt"] = Some (EFile m "key = new") /\ m = 384.
Proof.
  split; [vm_compute; reflexivity|]. destruct (write_run file_volume (fun _ => true)) as [[r v'] w'] eqn:H.
  assert (is_ok r = true) as Hok. { change r with ((r, v', w').1.1). rewrite <- H. vm_compute. reflexivity. }
  destruct r as [a|]; [|discriminate Hok]. unfold write_run in H.
  apply (fs_write_atomic same_text (fun s => "ke") 7 file_executor write_request ["data"] "conf.txt" "key = new") in H as (_ & _ & Ha).
  - destruct (Ha a eq_refl) as ((m & Hm & Hold) & _). exists m. split; [exact Hm|]. rewrite (Hold 384); [reflexivity|vm_compute; reflexivity].
  - apply (conf_site "conf.txt"). left.
  - reflexivity.
  - vm_compute. reflexivity.
  - vm_compute. reflexivity.
  - reflexivity.
  - reflexivity.
Defined.

(** A write that fails while it writes the content leaves the temporary, and the next write fails although nothing else does. *)
Definition after_failure : Volume := (write_run file_volume (fun n => Nat.ltb n 5)).1.2.
Example failed_write_leaves_temporary :
  is_err (write_run file_volume (fun n => Nat.ltb n 5)).1.1 = true /\
  vol_tree after_failure !! ["data"; "conf.fabric.7.tmp"] = Some (EFile 384 "ke") /\
  match (write_run after_failure (fun _ => true)).1.1 with Err e => err_code e = "FS_WRITE_FAILED" | Ok _ => False end /\
  (fs_write same_text same_text 7 file_executor (obj_of [("path", VString "/data/conf.md"); ("content", VString "more")]) after_failure (disk_world (fun _ => true))).1.1
  = (write_run after_failure (fun _ => true)).1.1.
Proof. split_and!; vm_compute; reflexivity. Qed.

Lemma leftover_blocks_writes_witness :
  exists error w', write_run after_failure (fun _ => true) = (Err error, after_failure, w').
Proof.
  apply (leftover_blocks_writes same_text (fun s => "ke") 7 file_executor write_request ["data"] "conf.txt" "key = new" after_failure (disk_world (fun _ => true)) (EFile 384 "ke")).
  - constructor; [apply wfb_sound; vm_compute; reflexivity|vm_compute; reflexivity|apply clearb_sound; vm_compute; reflexivity|vm_compute; reflexivity..|].
    right. exists 384, "key = old". vm_compute. reflexivity.
  - reflexivity.
  - vm_compute. reflexivity.
  - vm_compute. reflexivity.
  - reflexivity.
  - reflexivity.
  - reflexivity.
Defined.

(** ** Patching *)

Definition patch_request : Value :=
  obj_of [("path", VString "/data/conf.txt"); ("before", VString "old"); ("after", VString "newer"); ("expectedDigest", VString "sha256:key = old")].
Definition patch_run := fs_patch same_text same_text 7 file_executor patch_request file_volume (disk_world (fun _ => true)).

Lemma fs_patch_replaces_witness :
  is_ok patch_run.1.1 = true /\ exists left right, vol_tree patch_run.1.2 !! ["data"; "conf.txt"] = Some (EFile 384 (left +:+ "newer" +:+ right)).
Proof.
  split; [vm_compute; reflexivity|]. destruct patch_run as [[r v'] w'] eqn:H.
  assert (is_ok r = true) as Hok. { change r with ((r, v', w').1.1). rewrite <- H. vm_compute. reflexivity. }
  destruct r as [a|]; [|discriminate Hok]. unfold patch_run in H.
  apply (fs_patch_replaces same_text same_text 7 file_executor patch_request ["data"] "conf.txt") in H as (before & after & left & right & m & Hb & Ha & Ht & _ & _ & _ & Hv & _).
  - assert (after = "newer") as -> by (vm_compute in Ha; injection Ha as <-; reflexivity). exists left, right.
    assert (m = 384) as -> by (vm_compute in Ht; injection Ht as <- _; reflexivity). exact Hv.
  - apply (conf_site "conf.txt"). left.
  - reflexivity.
  - vm_compute. reflexivity.
  - vm_compute. reflexivity.
Defined.

(** ** Creating *)

Definition create_request (path : string) : Value := obj_of [("path", VString path); ("content", VString "fresh"); ("expectedAbsent", VBool true)].
Definition create_run := fs_write same_text same_text 7 file_executor (create_request "/data/new.txt") file_volume (disk_world (fun _ => true)).

Lemma create_never_replaces_witness :
  is_ok create_run.1.1 = true /\ exists m, vol_tree create_run.1.2 !! ["data"; "new.txt"] = Some (EFile m "fresh").
Proof.
  split; [vm_compute; reflexivity|]. destruct create_run as [[r v'] w'] eqn:H.
  assert (is_ok r = true) as Hok. { change r with ((r, v', w').1.1). rewrite <- H. vm_compute. reflexivity. }
  destruct r as [a|]; [|discriminate Hok]. unfold create_run in H.
  apply (create_never_replaces same_text same_text 7 file_executor (create_request "/data/new.txt") ["data"] "new.txt" "fresh") in H as (_ & _ & Ha).
  - destruct (Ha a eq_refl) as (_ & Hm & _). exact Hm.
  - apply (conf_site "new.txt"). right. left.
  - reflexivity.
  - vm_compute. reflexivity.
  - vm_compute. reflexivity.
  - reflexivity.
  - reflexivity.
Defined.

(** ** Removing and restoring *)

Definition remove_request : Value := obj_of [("path", VString "/data/conf.txt"); ("expectedDigest", VString "sha256:key = old")].
Definition remove_run := fs_remove same_text 5 file_executor remove_request file_volume (disk_world (fun _ => true)).
Definition restore_request : Value := obj_of [("path", VString "/data/conf.txt"); ("restoreToken", VString "/data/.machine-fabric-trash/0_u0")].
Definition restore_run := fs_restore file_executor restore_request remove_run.1.2 (disk_world (fun _ => true)).

Lemma restore_undoes_remove_witness :
  is_ok remove_run.1.1 = true /\ is_ok restore_run.1.1 = true /\
  vol_tree remove_run.1.2 !! ["data"; "conf.txt"] = None /\
  vol_tree restore_run.1.2 !! ["data"; "conf.txt"] = Some (EFile 384 "key = old").
Proof.
  split; [vm_compute; reflexivity|]. split; [vm_compute; reflexivity|]. unfold restore_run.
  destruct remove_run as [[r1 v1] w1] eqn:H1.
  assert (is_ok r1 = true) as Hok1. { change r1 with ((r1, v1, w1).1.1). rewrite <- H1. vm_compute. reflexivity. }
  assert (match r1 with Ok a => vget "restoreToken" a = Some (VString "/data/.machine-fabric-trash/0_u0") | Err _ => True end) as Htok.
  { change r1 with ((r1, v1, w1).1.1). rewrite <- H1. vm_compute. reflexivity. }
  destruct (fs_restore file_executor restore_request (r1, v1, w1).1.2 (disk_world (fun _ => true))) as [[r2 v2] w2] eqn:H2.
  assert (is_ok r2 = true) as Hok2. { change r2 with ((r2, v2, w2).1.1). rewrite <- H2. change v1 with ((r1, v1, w1).1.2). rewrite <- H1. vm_compute. reflexivity. }
  destruct r1 as [a1|]; [|discriminate Hok1]. destruct r2 as [a2|]; [|discriminate Hok2]. unfold remove_run in H1. cbn [fst snd] in H2.
  destruct (restore_undoes_remove same_text 5 file_executor file_executor remove_request restore_request ["data"] "conf.txt" "0_u0" file_volume
              (disk_world (fun _ => true)) a1 v1 w1 (disk_world (fun _ => true)) a2 v2 w2) as (_ & Hgone & _ & Hback).
  - constructor; [apply wfb_sound; vm_compute; reflexivity|vm_compute; reflexivity|apply clearb_sound; vm_compute; reflexivity|vm_compute; reflexivity|vm_compute; reflexivity
      |eexists; vm_compute; reflexivity|vm_compute; reflexivity|discriminate|left; vm_compute; reflexivity].
  - reflexivity.
  - exact H1.
  - exact Htok.
  - reflexivity.
  - vm_compute. reflexivity.
  - reflexivity.
  - rewrite Htok. reflexivity.
  - exact H2.
  - split; [exact (Hgone [])|]. exact (Hback ["data"; "conf.txt"] eq_refl).
Defined.

(** ** Searching *)

Definition search_request : Value := obj_of [("path", VString "/data"); ("query", VString "old"); ("maxResults", vu64 1)].
Definition search_run := fs_search 5 file_executor search_request file_volume (disk_world (fun _ => true)).

Lemma search_finds_lines_witness :
  is_ok search_run.1.1 = true /\
  exists a l, search_run.1.1 = Ok a /\ vget "matches" a = Some (VArray l) /\ Forall (is_match file_tree "old") l /\ Z.of_nat (length l) <= 1.
Proof.
  split; [vm_compute; reflexivity|]. destruct search_run as [[r v'] w'] eqn:H.
  assert (is_ok r = true) as Hok. { change r with ((r, v', w').1.1). rewrite <- H. vm_compute. reflexivity. }
  destruct r as [a|]; [|discriminate Hok]. unfold search_run in H.
  apply (search_finds_lines 5 file_executor search_request) in H as (query & l & Hq & Hm & HF & Hl & _); [|vm_compute; discriminate].
  exists a, l. split; [reflexivity|]. split; [exact Hm|]. split; [|exact Hl]. assert (query = "old") as -> by (vm_compute in Hq; injection Hq as <-; reflexivity). exact HF.
Defined.
