(* ===== verification/ProcessTable.v ===== *)
(** * Managed processes ([crates/machine-fabric-runtime/src/process.rs])

    The table of the processes an executor started, kept in memory under a lock
    and written to disk after every change. Every operation runs under the lock
    from its first reading of the table; [start], [restart] and [wait_ready] take
    it several times. The operating system is the set of processes and of process
    groups that exist; a signal asks a group to end, which it may do later. As
    compiled for Linux. *)
From Stdlib Require Import Ascii.
From stdpp Require Import base gmap strings list sorting pretty.
From S2P Require Import Prelude Json Protocol PathPolicy FileTree Generations ArtifactRelay Utf8.
Open Scope Z_scope.
Open Scope fabric_scope.

(** ** Data *)

Inductive ProcessState := Running | Stopped | Failed.
Inductive ReadinessState := Pending | Ready | ReadinessFailed | NotConfigured.

#[export] Instance ProcessState_eq_dec : EqDecision ProcessState.
Proof. solve_decision. Defined.
#[export] Instance ReadinessState_eq_dec : EqDecision ReadinessState.
Proof. solve_decision. Defined.

Record ReadinessStatus := mkReadinessStatus { rs_state : ReadinessState; rs_attempts : Z }.

Record ProcessRecord := mkProcessRecord {
  pr_id : string;
  pr_pid : Z;
  pr_identity_verified : bool;
  pr_observed_at : option Z;
  pr_cwd : Path;
  pr_argv : list string;
  pr_env : gmap string string;
  pr_restartable : bool;
  pr_metadata : Value;
  pr_log_path : Path;
  pr_state : ProcessState;
  pr_readiness : ReadinessStatus;
  pr_readiness_spec : option Value;
  pr_readiness_deadline_at : option Z;
  pr_started_at : Z;
  pr_updated_at : Z;
  pr_last_successful_probe_at : option Z;
}.

Definition set_state (state : ProcessState) (updated_at : Z) (r : ProcessRecord) : ProcessRecord :=
  mkProcessRecord (pr_id r) (pr_pid r) (pr_identity_verified r) (pr_observed_at r) (pr_cwd r) (pr_argv r) (pr_env r)
    (pr_restartable r) (pr_metadata r) (pr_log_path r) state (pr_readiness r) (pr_readiness_spec r)
    (pr_readiness_deadline_at r) (pr_started_at r) updated_at (pr_last_successful_probe_at r).
Definition set_readiness (status : ReadinessStatus) (probed : option Z) (updated_at : Z) (r : ProcessRecord) : ProcessRecord :=
  mkProcessRecord (pr_id r) (pr_pid r) (pr_identity_verified r) (pr_observed_at r) (pr_cwd r) (pr_argv r) (pr_env r)
    (pr_restartable r) (pr_metadata r) (pr_log_path r) (pr_state r) status (pr_readiness_spec r)
    (pr_readiness_deadline_at r) (pr_started_at r) updated_at probed.
Definition set_metadata (metadata : Value) (updated_at : Z) (r : ProcessRecord) : ProcessRecord :=
  mkProcessRecord (pr_id r) (pr_pid r) (pr_identity_verified r) (pr_observed_at r) (pr_cwd r) (pr_argv r) (pr_env r)
    (pr_restartable r) metadata (pr_log_path r) (pr_state r) (pr_readiness r) (pr_readiness_spec r)
    (pr_readiness_deadline_at r) (pr_started_at r) updated_at (pr_last_successful_probe_at r).

(** The operating system: the processes and process groups that exist, the groups that were signalled (the
    last first), the identifiers of the processes to come, and what TCP probes will find ([None] where an
    address does not resolve). *)
Record Host := mkHost {
  h_processes : gset Z;
  h_groups : gset Z;
  h_signalled : list Z;
  h_pids : Oracle Z;
  h_probes : Oracle (option bool);
}.

Record ProcessWorld := mkProcessWorld {
  pw_records : gmap string ProcessRecord;
  pw_volume : Volume;
  pw_host : Host;
}.

Definition set_records (records : gmap string ProcessRecord) (s : ProcessWorld) : ProcessWorld :=
  mkProcessWorld records (pw_volume s) (pw_host s).
Definition set_volume (v : Volume) (s : ProcessWorld) : ProcessWorld := mkProcessWorld (pw_records s) v (pw_host s).
Definition set_host (h : Host) (s : ProcessWorld) : ProcessWorld := mkProcessWorld (pw_records s) (pw_volume s) h.

Definition on_disk {E A} (m : M Volume E A) : M ProcessWorld E A := zoom pw_volume set_volume m.

(** ** System calls *)

(** [OpenOptions::create(true).append(true)] *)
Definition open_append (p : Path) : M Volume IoKind place :=
  let* v := get in
  sys (fun t => bind_result (resolve t true p) (fun q =>
    match t !! q with
    | Some (EFile m data) => Ok (q, t)
    | Some _ => Err OtherError
    | None => if dir_at t (parent_place q) then Ok (q, <[q := EFile (masked 438 (vol_umask v)) ""]> t)
              else Err NotFound
    end)).

(** [Command::spawn] of a process that leads its own group; [None] when it fails *)
Definition spawn {E} : M ProcessWorld E (option Z) :=
  let* ok := io_outcome in
  let* s := get in
  if ok : bool then
    let h := pw_host s in
    let pid := peek (h_pids h) in
    put (set_host (mkHost ({[pid]} ∪ h_processes h) ({[pid]} ∪ h_groups h) (h_signalled h) (advance (h_pids h)) (h_probes h)) s) ;;
    ret (Some pid)
  else ret None.

(** [process_is_alive] *)
Definition process_is_alive {E} (pid : Z) : M ProcessWorld E bool :=
  gets (fun s => bool_decide (pid ∈ h_processes (pw_host s))).

(** [stop_process]: a group that does not exist is no error. *)
Definition stop_process (pid : Z) : M ProcessWorld RpcError unit :=
  let* permitted := io_outcome in
  let* s := get in
  let h := pw_host s in
  if bool_decide (pid ∈ h_groups h) then
    if permitted : bool
    then put (set_host (mkHost (h_processes h) (h_groups h) (pid :: h_signalled h) (h_pids h) (h_probes h)) s)
    else fail (rpc_error "PROCESS_STOP_FAILED" "")
  else ret tt.

(** Resolving an address and connecting to it *)
Definition connect {E} : M ProcessWorld E (option bool) :=
  let* s := get in
  let h := pw_host s in
  put (set_host (mkHost (h_processes h) (h_groups h) (h_signalled h) (h_pids h) (advance (h_probes h))) s) ;;
  ret (peek (h_probes h)).

Fixpoint strip_last (c : ascii) (s : string) : option string :=
  match s with
  | EmptyString => None
  | String d EmptyString => if Ascii.eqb d c then Some "" else None
  | String d s' => String d <$> strip_last c s'
  end.

(** The depth of a value: the recursion over the probes is no deeper. *)
Fixpoint value_depth (v : Value) : nat :=
  match v with
  | VArray l => S (foldr (fun x n => Nat.max (value_depth x) n) 0%nat l)
  | VObject m => S (foldr (fun p n => Nat.max (value_depth p.2) n) 0%nat m)
  | _ => 0%nat
  end.

Section ProcessTable.
Context (to_vec_pretty : gmap string ProcessRecord -> option string) (from_slice : string -> option (gmap string ProcessRecord)).
Context (torn : string -> string) (working_directory : Path) (state_path : option Path).

Definition invalid_readiness (message : string) : RpcError := rpc_error "INVALID_READINESS" message.

(** A path of the file system, relative to the directory the executor runs in *)
Definition absolute_path (p : Path) : Path :=
  if p_absolute p then p
  else mkPath (p_absolute working_directory)
         (p_components working_directory ++ List.filter (fun c => match c with CurDir => false | _ => true end) (p_components p)).

(** ** Readiness *)

Definition log_matches (pattern content : string) : bool :=
  match strip_prefix "^" pattern ≫= strip_last "$"%char with
  | Some exact => existsb (String.eqb exact) (lines content)
  | None => str_contains pattern content
  end.

(** [read_to_string], an error being no content *)
Definition read_text {E} (p : Path) : M Volume E (option string) :=
  let* r := attempt (Fs.read p) in
  ret match r with Ok bytes => if is_utf8 bytes then Some bytes else None | Err _ => None end.

(** The loop over the probes of [all] *)
Fixpoint every_probe (once : Value -> M ProcessWorld RpcError bool) (probes : list Value) : M ProcessWorld RpcError bool :=
  match probes with
  | [] => ret true
  | probe :: probes' =>
      let* ready := once probe in
      if ready : bool then every_probe once probes' else ret false
  end.

(** [readiness_once] *)
Fixpoint readiness_loop (fuel : nat) (log_path : Path) (spec : Value) : M ProcessWorld RpcError bool :=
  match fuel with
  | O => fail out_of_fuel
  | S fuel' =>
      let kind := default "" (vget "type" spec ≫= as_str) in
      if String.eqb kind "all" then
        match vget "probes" spec ≫= as_array with
        | None => fail (invalid_readiness "all probes are required")
        | Some [] => fail (invalid_readiness "all requires at least one probe")
        | Some probes => every_probe (readiness_loop fuel' log_path) probes
        end
      else if String.eqb kind "tcp" then
        match vget "port" spec ≫= as_u64 with
        | None => fail (invalid_readiness "tcp port is required")
        | Some _ =>
            let* found := connect in
            match found with Some connected => ret connected | None => fail (invalid_readiness "") end
        end
      else if String.eqb kind "file" then
        match vget "path" spec ≫= as_str with
        | None => ret false
        | Some path => on_disk (Fs.exists_ (absolute_path (path_of path)))
        end
      else if String.eqb kind "log" then
        match vget "pattern" spec ≫= as_str with
        | None => fail (invalid_readiness "log pattern is required")
        | Some pattern =>
            let* content := on_disk (read_text (absolute_path log_path)) in
            ret match content with Some content => log_matches pattern content | None => false end
        end
      else fail (invalid_readiness ("unsupported readiness type: " +:+ kind))
  end.
Definition readiness_once (spec : Value) (log_path : Path) : M ProcessWorld RpcError bool :=
  readiness_loop (S (value_depth spec)) log_path spec.

(** The probe of a pending process, and what becomes of its readiness *)
Definition probe {E} (r : ProcessRecord) : M ProcessWorld E ProcessRecord :=
  let attempts := u64_saturating_add (rs_attempts (pr_readiness r)) 1 in
  let* outcome :=
    match pr_readiness_spec r with
    | None => ret (Ok None)
    | Some spec =>
        let* ready := attempt (readiness_once spec (pr_log_path r)) in
        ret match ready with Ok b => Ok (Some b) | Err e => Err e end
    end in
  let* next :=
    match outcome with
    | Ok (Some true) => let* at_ := now_ms in ret (Ready, Some at_)
    | Ok (Some false) =>
        match pr_readiness_deadline_at r with
        | Some deadline =>
            let* now := now_ms in
            ret (if deadline <=? now then ReadinessFailed else Pending, pr_last_successful_probe_at r)
        | None => ret (Pending, pr_last_successful_probe_at r)
        end
    | Ok None => ret (Pending, pr_last_successful_probe_at r)
    | Err _ => ret (ReadinessFailed, pr_last_successful_probe_at r)
    end in
  let* updated_at := now_ms in
  ret (set_readiness (mkReadinessStatus next.1 attempts) next.2 updated_at r).

(** [refresh] *)
Definition refresh {E} (r : ProcessRecord) : M ProcessWorld E ProcessRecord :=
  if negb (bool_decide (pr_state r = Running)) then ret r
  else
    let* alive := process_is_alive (pr_pid r) in
    if negb alive then let* now := now_ms in ret (set_state Stopped now r)
    else if bool_decide (rs_state (pr_readiness r) = Pending) then probe r
    else ret r.

(** ** Persistence *)

Definition state_error : RpcError := rpc_error "PROCESS_STATE_FAILED" "".
Definition state_io {A} (m : M Volume IoKind A) : M Volume RpcError A := with_err (fun _ => state_error) m.

(** [path.with_file_name(...)] *)
Definition with_file_name (p : Path) (name : string) : Path :=
  match rev (p_components p) with
  | Normal _ :: cs => mkPath (p_absolute p) (rev cs ++ [Normal name])
  | _ => push p (Normal name)
  end.

Definition write_state (path : Path) (bytes : string) : M Volume RpcError unit :=
  match path_parent path with
  | Some parent => state_io (Fs.create_dir_all parent)
  | None => ret tt
  end ;;
  let* unique := new_v4 in
  let temporary := with_file_name path ("." +:+ default "" (path_name path) +:+ "." +:+ unique +:+ ".tmp") in
  let* file := state_io (Fs.open_new 438 temporary) in
  state_io (Fs.write_at torn file 0 bytes ;;
            Fs.write_at torn file (String.length bytes) (String "010"%char "") ;;
            ask (fun _ => Ok tt)) ;;
  state_io (Fs.rename temporary path).

(** [persist] *)
Definition persist : M ProcessWorld RpcError unit :=
  match state_path with
  | None => ret tt
  | Some path =>
      let* records := gets pw_records in
      let* bytes := lift (ok_or (to_vec_pretty records) state_error) in
      on_disk (write_state path bytes)
  end.

Definition put_record {E} (id : string) (r : ProcessRecord) : M ProcessWorld E unit :=
  modify (fun s => set_records (<[id := r]> (pw_records s)) s).

Definition find_record (id : string) : M ProcessWorld RpcError ProcessRecord :=
  let* records := gets pw_records in
  lift (ok_or (records !! id) (rpc_error "PROCESS_NOT_FOUND" ("unknown process: " +:+ id))).

(** The loop of [list] and [refresh_all] over the records *)
Definition refresh_records {E} : M ProcessWorld E unit :=
  let* records := gets pw_records in
  for_each (btree_entries records) (fun kr => let* r := refresh kr.2 in put_record kr.1 r).

(** [ProcessTable::open] *)
Definition open : M ProcessWorld RpcError unit :=
  match state_path with
  | None => ret tt
  | Some path =>
      let* present := on_disk (Fs.exists_ path) in
      let* records :=
        if present : bool then
          let* bytes := on_disk (state_io (Fs.read path)) in
          lift (ok_or (from_slice bytes) state_error)
        else ret ∅ in
      modify (set_records records) ;;
      refresh_records ;;
      persist
  end.

(** ** Operations *)

(** What [start] does after its check: the log, the process and its record *)
Definition log_io {A} (m : M Volume IoKind A) : M ProcessWorld RpcError A :=
  on_disk (with_err (fun _ => rpc_error "LOG_CREATE_FAILED" "") m).
Definition launch (id : string) (cwd : Path) (argv : list string) (env : gmap string string) (log_path : Path)
    (readiness : option Value) (restartable : bool) (metadata : Value) : M ProcessWorld RpcError ProcessRecord :=
  match path_parent log_path with
  | Some parent => log_io (Fs.create_dir_all parent)
  | None => ret tt
  end ;;
  let* _ := log_io (open_append log_path) in
  log_io (ask (fun _ => Ok tt)) ;;
  let* child := spawn in
  match child with
  | None => fail (rpc_error "PROCESS_START_FAILED" "")
  | Some pid =>
      let* now := now_ms in
      let deadline := (fun spec => u64_saturating_add now (default 180000 (vget "timeoutMs" spec ≫= as_u64))) <$> readiness in
      let record := mkProcessRecord id pid true (Some now) cwd argv env restartable metadata log_path Running
                      (mkReadinessStatus (if bool_decide (is_Some readiness) then Pending else NotConfigured) 0)
                      readiness deadline now now None in
      put_record id record ;;
      persist ;;
      ret record
  end.

(** [ProcessTable::start] *)
Definition start (id : string) (cwd : Path) (argv : list string) (env : gmap string string) (log_path : Path)
    (readiness : option Value) (restartable : bool) (metadata : Value) : M ProcessWorld RpcError ProcessRecord :=
  if bool_decide (argv = []) then fail (rpc_error "INVALID_PARAMS" "argv must not be empty")
  else
    let* records := gets pw_records in
    if bool_decide ((pr_state <$> records !! id) = Some Running)
    then fail (rpc_error "PROCESS_ALREADY_RUNNING" ("process " +:+ id +:+ " is already running"))
    else launch id cwd argv env log_path readiness restartable metadata.

(** [ProcessTable::get] *)
Definition get_process (id : string) : M ProcessWorld RpcError ProcessRecord :=
  let* record := find_record id in
  let* record := refresh record in
  put_record id record ;;
  persist ;;
  ret record.

(** [ProcessTable::list] *)
Definition list_processes {E} : M ProcessWorld E (list ProcessRecord) :=
  refresh_records ;;
  let* _ := attempt persist in
  gets (fun s => btree_values (pw_records s)).

(** [ProcessTable::stop] *)
Definition stop (id : string) : M ProcessWorld RpcError ProcessRecord :=
  let* record := find_record id in
  let* record :=
    if bool_decide (pr_state record = Running) then
      stop_process (pr_pid record) ;;
      let* now := now_ms in
      let record := set_state Stopped now record in
      put_record id record ;;
      ret record
    else ret record in
  persist ;;
  ret record.

(** [ProcessTable::update_metadata] *)
Definition update_metadata (id : string) (metadata : Value) : M ProcessWorld RpcError ProcessRecord :=
  let* record := find_record id in
  let* now := now_ms in
  let record := set_metadata metadata now record in
  put_record id record ;;
  persist ;;
  ret record.

(** [ProcessTable::restart] *)
Definition restart (id : string) : M ProcessWorld RpcError ProcessRecord :=
  let* record := get_process id in
  if negb (pr_restartable record) || bool_decide (pr_argv record = [])
  then fail (rpc_error "PROCESS_NOT_RESTARTABLE" ("process " +:+ id +:+ " is not restartable"))
  else
    let* _ := attempt (stop id) in
    start id (pr_cwd record) (pr_argv record) (pr_env record) (pr_log_path record) (pr_readiness_spec record)
      (pr_restartable record) (pr_metadata record).

(** [ProcessTable::wait_ready]: [None] when the fuel ran out before an answer *)
Fixpoint wait_loop (fuel : nat) (id : string) (deadline : Z) : M ProcessWorld RpcError (option ProcessRecord) :=
  match fuel with
  | O => ret None
  | S fuel' =>
      let* record := get_process id in
      if bool_decide (rs_state (pr_readiness record) = Ready) then ret (Some record)
      else if negb (bool_decide (pr_state record = Running))
      then fail (rpc_error "PROCESS_EXITED" ("process " +:+ id +:+ " exited"))
      else if bool_decide (rs_state (pr_readiness record) = ReadinessFailed)
      then fail (rpc_error "READINESS_MARKER_MISSING" ("process " +:+ id +:+ " readiness failed"))
      else
        let* now := instant_now in
        if deadline <=? now
        then fail (rpc_error "READINESS_TIMEOUT" ("process " +:+ id +:+ " readiness timed out"))
        else wait_loop fuel' id deadline
  end.
Definition wait_ready (fuel : nat) (id : string) (timeout_ms : Z) : M ProcessWorld RpcError (option ProcessRecord) :=
  let* now := instant_now in
  wait_loop fuel id (now + Z.max timeout_ms 1).

(** [ProcessTable::logs] *)
Definition process_logs (id : string) (tail : Z) : M ProcessWorld RpcError Value :=
  let* record := get_process id in
  let* content := on_disk (read_text (absolute_path (pr_log_path record))) in
  match content with
  | None => fail (rpc_error "LOG_READ_FAILED" "")
  | Some content =>
      let all := lines content in
      ret (obj_of [("processId", VString id); ("path", VString (display (pr_log_path record)));
                   ("lines", VArray (VString <$> drop (Z.to_nat (Z.of_nat (length all) - Z.min tail (Z.of_nat (length all)))) all))])
  end.

End ProcessTable.

(** [application_environment] *)
Definition env_of_value (v : Value) : option (gmap string string) :=
  match v with
  | VObject m => foldr (fun kx acc => match acc, as_str kx.2 with Some e, Some s => Some (<[kx.1 := s]> e) | _, _ => None end) (Some ∅) m
  | _ => None
  end.
Definition has_byte (c : ascii) (s : string) : bool := negb (bytes_all (fun d => negb (Ascii.eqb d c)) s).
Definition application_environment (value : option Value) : result RpcError (gmap string string) :=
  bind_result (match value with
               | None | Some VNull => Ok ∅
               | Some v => ok_or (env_of_value v) (rpc_error "INVALID_PARAMS" "env must contain string values")
               end) (fun env =>
  if existsb (fun kv => str_is_empty kv.1 || has_byte "="%char kv.1 || has_byte "000"%char kv.1 || has_byte "000"%char kv.2) (btree_entries env)
  then Err (rpc_error "INVALID_PARAMS" "invalid environment name or value")
  else Ok env).
