(* ===== verification/ProcessSafety.v ===== *)
(** * Managed processes: the life of a record

    What the table does to its records, as steps of an abstract life cycle, and
    what follows of every record in it. *)
From Stdlib Require Import Ascii.
From stdpp Require Import base gmap strings list sorting pretty relations.
From S2P Require Import Prelude Json Protocol PathPolicy FileTree FileTreeLaws Generations ArtifactRelay TreeDigest Utf8 ProcessTable.
Open Scope Z_scope.
Open Scope fabric_scope.

(** ** The life cycle *)

(** A record as [start] makes it *)
Record launched (id : string) (r : ProcessRecord) : Prop := mk_launched {
  la_id : pr_id r = id;
  la_state : pr_state r = Running;
  la_argv : pr_argv r <> [];
  la_verified : pr_identity_verified r = true;
  la_readiness : pr_readiness r = mkReadinessStatus (if bool_decide (is_Some (pr_readiness_spec r)) then Pending else NotConfigured) 0;
  la_deadline : is_Some (pr_readiness_deadline_at r) <-> is_Some (pr_readiness_spec r);
  la_probed : pr_last_successful_probe_at r = None;
}.

(** What a probe makes of the readiness and of the time of the last success *)
Inductive probed (r : ProcessRecord) : ReadinessState -> option Z -> Prop :=
| probed_ready at_ : is_Some (pr_readiness_spec r) -> probed r Ready (Some at_)
| probed_failed : is_Some (pr_readiness_spec r) -> probed r ReadinessFailed (pr_last_successful_probe_at r)
| probed_pending : probed r Pending (pr_last_successful_probe_at r).

Inductive life_step (m : gmap string ProcessRecord) : gmap string ProcessRecord -> Prop :=
| life_launch id r : pr_state <$> m !! id <> Some Running -> launched id r -> life_step m (<[id := r]> m)
| life_end id r at_ : m !! id = Some r -> pr_state r = Running -> life_step m (<[id := set_state Stopped at_ r]> m)
| life_probe id r st at_ now : m !! id = Some r -> pr_state r = Running -> rs_state (pr_readiness r) = Pending -> probed r st at_ ->
    life_step m (<[id := set_readiness (mkReadinessStatus st (u64_saturating_add (rs_attempts (pr_readiness r)) 1)) at_ now r]> m)
| life_metadata id r metadata now : m !! id = Some r -> life_step m (<[id := set_metadata metadata now r]> m).

(** ** What a record can be *)

Record record_ok (id : string) (r : ProcessRecord) : Prop := mk_record_ok {
  ok_id : pr_id r = id;
  ok_state : pr_state r <> Failed;
  ok_argv : pr_argv r <> [];
  ok_spec : rs_state (pr_readiness r) = NotConfigured <-> pr_readiness_spec r = None;
  ok_deadline : is_Some (pr_readiness_deadline_at r) <-> is_Some (pr_readiness_spec r);
  ok_probed : rs_state (pr_readiness r) = Ready <-> is_Some (pr_last_successful_probe_at r);
  ok_attempts : in_u64 (rs_attempts (pr_readiness r));
  ok_unprobed : rs_attempts (pr_readiness r) = 0 -> rs_state (pr_readiness r) = Pending \/ rs_state (pr_readiness r) = NotConfigured;
}.
Definition records_ok (m : gmap string ProcessRecord) : Prop := map_Forall record_ok m.

Lemma launched_ok id r : launched id r -> record_ok id r.
Proof.
  intros []. constructor; rewrite ?la_state0, ?la_readiness0, ?la_probed0; cbn; try done; try (by destruct (pr_readiness_spec r); rewrite ?bool_decide_true by (by eexists); naive_solver).
Qed.
Lemma probed_ok id r st at_ now :
  record_ok id r -> rs_state (pr_readiness r) = Pending -> probed r st at_ ->
  record_ok id (set_readiness (mkReadinessStatus st (u64_saturating_add (rs_attempts (pr_readiness r)) 1)) at_ now r).
Proof.
  intros [] Hp Hst. assert (is_Some (pr_readiness_spec r)) as Hs.
  { apply not_eq_None_Some. rewrite <- ok_spec0. congruence. }
  assert (pr_last_successful_probe_at r = None) as Hn.
  { apply eq_None_not_Some. rewrite <- ok_probed0. congruence. }
  destruct ok_attempts0 as [Ha _]. pose proof (u64_saturating_add_bounds (rs_attempts (pr_readiness r)) 1 Ha ltac:(done)) as Hb.
  constructor; cbn [set_readiness pr_id pr_state pr_argv pr_readiness pr_readiness_spec pr_readiness_deadline_at pr_last_successful_probe_at rs_state rs_attempts]; try done.
  - split; [inversion Hst; congruence|]. intros E. rewrite E in Hs. by destruct Hs.
  - inversion Hst; subst; rewrite ?Hn; (split; [done|]); (done || by intros []).
  - unfold u64_saturating_add, U64_MAX. lia.
Qed.

Lemma life_step_ok m m' : life_step m m' -> records_ok m -> records_ok m'.
Proof.
  intros H Hm. destruct H as [id r _ Hr|id r at_ Hr Hs|id r st at_ now Hr Hs Hp Hst|id r metadata now Hr].
  all: apply map_Forall_insert_2; [|done].
  - by apply launched_ok.
  - destruct (Hm id r Hr). by constructor.
  - apply probed_ok; [by apply Hm|done..].
  - destruct (Hm id r Hr). by constructor.
Qed.
Lemma lives_ok m m' : rtc life_step m m' -> records_ok m -> records_ok m'.
Proof. induction 1; eauto using life_step_ok. Qed.

(** ** Computations that leave a part of the world alone *)

Definition fixes {T E A} (f : ProcessWorld -> T) (m : M ProcessWorld E A) : Prop :=
  forall s w r s' w', m s w = (r, s', w') -> f s' = f s.
Abbreviation quiet := (fixes pw_records).
Abbreviation still := (fixes pw_volume).

Section Fixes.
Context {T : Type} (f : ProcessWorld -> T) {E A B : Type}.

Lemma fixes_ret (a : A) : fixes f (ret (E := E) a).
Proof. by intros s w r s' w' [= <- <- <-]. Qed.
Lemma fixes_fail (e : E) : fixes f (fail (A := A) e).
Proof. by intros s w r s' w' [= <- <- <-]. Qed.
Lemma fixes_lift (x : result E A) : fixes f (lift x).
Proof. by intros s w r s' w' [= <- <- <-]. Qed.
Lemma fixes_gets (g : ProcessWorld -> A) : fixes f (gets (E := E) g).
Proof. by intros s w r s' w' [= <- <- <-]. Qed.
Lemma fixes_now : fixes f (now_ms (E := E)).
Proof. by intros s w r s' w' [= <- <- <-]. Qed.
Lemma fixes_instant : fixes f (instant_now (E := E)).
Proof. by intros s w r s' w' [= <- <- <-]. Qed.
Lemma fixes_bind (m : M ProcessWorld E A) (k : A -> M ProcessWorld E B) : fixes f m -> (forall a, fixes f (k a)) -> fixes f (bind m k).
Proof.
  intros Hm Hk s w r s' w' (r1 & s1 & w1 & H1 & H)%bind_cases. apply Hm in H1. destruct r1 as [a|]; [|by destruct H as (_ & -> & _)].
  apply Hk in H. congruence.
Qed.
Lemma fixes_attempt {F} (m : M ProcessWorld F A) : fixes f m -> fixes f (attempt (F := E) m).
Proof. intros Hm s w r s' w' (r0 & -> & H)%attempt_cases. by eapply Hm. Qed.
End Fixes.
#[export] Hint Resolve fixes_ret fixes_fail fixes_lift fixes_gets fixes_now fixes_instant fixes_attempt : fabric.

Ltac fixes := repeat first [ solve [eauto with fabric] | apply fixes_bind; [|intros ?] | progress case_match ].

Lemma quiet_on_disk {E A} (m : M Volume E A) : quiet (on_disk m).
Proof. intros s w r s' w'. unfold on_disk, zoom. destruct (m (pw_volume s) w) as [[r1 v] w1]. by intros [= <- <- <-]. Qed.
Lemma on_disk_run {E A} (m : M Volume E A) s w r s' w' : on_disk m s w = (r, s', w') -> m (pw_volume s) w = (r, pw_volume s', w') /\ pw_records s' = pw_records s.
Proof. unfold on_disk, zoom. destruct (m (pw_volume s) w) as [[r1 v] w1]. by intros [= <- <- <-]. Qed.
Lemma still_on_disk {E A} (m : M Volume E A) : inert m -> still (on_disk m).
Proof. intros Hm s w r s' w' [H _]%on_disk_run. by apply Hm in H. Qed.
#[export] Hint Resolve quiet_on_disk : fabric.

(** What the operating system does, and what is read from the disk, leaves such a part alone. *)
Section System.
Context {T : Type} (f : ProcessWorld -> T).
Context (Hhost : forall h s, f (set_host h s) = f s).

Lemma spawn_fixes {E} : fixes f (spawn (E := E)).
Proof. intros s w r s' w'. unfold spawn. munfold. by destruct (peek (w_io w)); intros [= <- <- <-]. Qed.
Lemma stop_process_fixes pid : fixes f (stop_process pid).
Proof. intros s w r s' w'. unfold stop_process. munfold. by repeat case_match; intros [= <- <- <-]. Qed.
Lemma connect_fixes {E} : fixes f (connect (E := E)).
Proof. intros s w r s' w'. unfold connect. munfold. by intros [= <- <- <-]. Qed.
End System.

Section Readiness.
Context {T : Type} (f : ProcessWorld -> T) (working_directory : Path).
Context (Hconnect : forall E, fixes f (connect (E := E))) (Hread : forall E A (m : M Volume E A), inert m -> fixes f (on_disk m)).

Lemma every_probe_fixes (once : Value -> M ProcessWorld RpcError bool) probes : (forall p, fixes f (once p)) -> fixes f (every_probe once probes).
Proof. intros H. induction probes as [|p probes IH]; cbn; fixes. Qed.
Lemma readiness_fixes fuel log_path spec : fixes f (readiness_loop working_directory fuel log_path spec).
Proof.
  revert spec. induction fuel as [|fuel IH]; intros spec; cbn [readiness_loop]; [fixes|].
  repeat case_match; fixes; try (by apply every_probe_fixes); apply Hread.
  - apply inert_bind; [by intros v w r v' w' (r0 & _ & [-> _]%ask_cases)%attempt_cases|]. intros x. apply inert_ret.
  - apply inert_bind; [by intros v w r v' w' (r0 & _ & [-> _]%ask_cases)%attempt_cases|]. intros x. apply inert_ret.
Qed.
Lemma probe_fixes {E} r : fixes f (probe (E := E) working_directory r).
Proof. unfold probe, readiness_once. pose proof readiness_fixes. fixes. Qed.
Lemma refresh_fixes {E} r : fixes f (refresh (E := E) working_directory r).
Proof. unfold refresh, process_is_alive. pose proof (@probe_fixes). fixes. Qed.
End Readiness.

Section Life.
Context (to_vec_pretty : gmap string ProcessRecord -> option string) (from_slice : string -> option (gmap string ProcessRecord)).
Context (torn : string -> string) (working_directory : Path) (state_path : option Path).

Lemma refresh_quiet {E} r : quiet (refresh (E := E) working_directory r).
Proof. apply refresh_fixes; [intros; by apply connect_fixes|]. intros. apply quiet_on_disk. Qed.
Lemma refresh_still {E} r : still (refresh (E := E) working_directory r).
Proof. apply refresh_fixes; [intros; by apply connect_fixes|]. intros. by apply still_on_disk. Qed.
Lemma persist_quiet : quiet (persist to_vec_pretty torn state_path).
Proof. unfold persist. fixes. Qed.

(** ** The operations take steps of the life cycle *)

Definition lives {E A} (m : M ProcessWorld E A) : Prop :=
  forall s w r s' w', m s w = (r, s', w') -> rtc life_step (pw_records s) (pw_records s').

Lemma lives_quiet {E A} (m : M ProcessWorld E A) : quiet m -> lives m.
Proof. intros Hm s w r s' w' ->%Hm. reflexivity. Qed.
Lemma lives_bind {E A B} (m : M ProcessWorld E A) (k : A -> M ProcessWorld E B) : lives m -> (forall a, lives (k a)) -> lives (bind m k).
Proof.
  intros Hm Hk s w r s' w' (r1 & s1 & w1 & H1 & H)%bind_cases. apply Hm in H1. destruct r1 as [a|]; [|by destruct H as (_ & -> & _)].
  apply Hk in H. by etrans.
Qed.
Lemma lives_attempt {E F A} (m : M ProcessWorld F A) : lives m -> lives (E := E) (attempt m).
Proof. intros Hm s w r s' w' (r0 & -> & H)%attempt_cases. by eapply Hm. Qed.
(** After a change of the records, what is left only persists and answers. *)
Lemma lives_put id r (k : unit -> M ProcessWorld RpcError ProcessRecord) s w res s' w' :
  (forall u, quiet (k u)) -> rtc life_step (pw_records s) (<[id := r]> (pw_records s)) ->
  bind (put_record id r) k s w = (res, s', w') -> rtc life_step (pw_records s) (pw_records s').
Proof.
  intros Hk Hr (r1 & s1 & w1 & H1 & H)%bind_cases. unfold put_record, modify in H1. injection H1 as <- <- <-. by apply Hk in H as ->.
Qed.
Lemma find_record_run id s w r s' w' : find_record id s w = (r, s', w') -> s' = s /\ w' = w /\ forall record, r = Ok record -> pw_records s !! id = Some record.
Proof.
  unfold find_record. munfold. intros [= <- <- <-]. split_and!; [done..|]. intros record. apply ok_or_ok.
Qed.

(** [refresh] always answers, and its record is a step of the old one. *)
Definition renews (r r' : ProcessRecord) : Prop :=
  forall (m : gmap string ProcessRecord) id, m !! id = Some r -> rtc life_step m (<[id := r']> m).
Lemma renews_refl r : renews r r.
Proof. intros m id H. by rewrite insert_id. Qed.

Lemma probe_run {E} r s w (res : result E ProcessRecord) s' w' :
  probe working_directory r s w = (res, s', w') ->
  exists st at_ now, probed r st at_ /\ res = Ok (set_readiness (mkReadinessStatus st (u64_saturating_add (rs_attempts (pr_readiness r)) 1)) at_ now r).
Proof.
  intros H. unfold probe in H. apply bind_cases in H as (o & s1 & w1 & H1 & H).
  assert (exists x, o = Ok x /\ (x <> Ok None -> is_Some (pr_readiness_spec r))) as (x & -> & Hx).
  { destruct (pr_readiness_spec r) as [spec|]; [|unfold ret in H1; injection H1 as <- _ _; by exists (Ok None)].
    apply bind_cases in H1 as (o1 & s2 & w2 & H2 & H1). apply attempt_cases in H2 as (ready & -> & _). unfold ret in H1.
    injection H1 as <- _ _. by eexists. }
  clear H1. apply bind_cases in H as (n & s2 & w2 & H2 & H).
  assert (exists st at_, n = Ok (st, at_) /\ probed r st at_) as (st & at_ & -> & Hp).
  { destruct x as [[[]|]|e]; [| |unfold ret in H2; injection H2 as <- _ _; eexists _, _; split; [done|constructor]|].
    - munfold. injection H2 as <- _ _. eexists _, _. split; [done|]. constructor. by apply Hx.
    - destruct (pr_readiness_deadline_at r) as [deadline|]; munfold; injection H2 as <- _ _; eexists _, _; (split; [done|]); [|constructor].
      case_match; constructor. by apply Hx.
    - unfold ret in H2. injection H2 as <- _ _. eexists _, _. split; [done|]. constructor. by apply Hx. }
  munfold. injection H as <- _ _. by exists st, at_, (peek (w_wall w2)).
Qed.

Lemma refresh_run {E} r s w (res : result E ProcessRecord) s' w' :
  refresh working_directory r s w = (res, s', w') -> exists r', res = Ok r' /\ renews r r' /\ pw_records s' = pw_records s.
Proof.
  intros H. pose proof (refresh_quiet _ _ _ _ _ _ H) as Hq. unfold refresh in H.
  destruct (bool_decide_reflect (pr_state r = Running)) as [Hr|]; cbn [negb] in H.
  2:{ unfold ret in H. injection H as <- _ _. exists r. by split_and!; [|apply renews_refl|]. }
  apply bind_cases in H as (al & s1 & w1 & H1 & H). unfold process_is_alive, gets in H1. injection H1 as <- <- <-.
  case_match eqn:Hal.
  - munfold. injection H as <- _ _. eexists. split_and!; [done| |done]. intros m id Hm. apply rtc_once. by apply life_end.
  - destruct (bool_decide_reflect (rs_state (pr_readiness r) = Pending)) as [Hp|].
    + apply probe_run in H as (st & at_ & now & Hs & ->). eexists. split_and!; [done| |done]. intros m id Hm. apply rtc_once. by apply life_probe.
    + unfold ret in H. injection H as <- _ _. exists r. by split_and!; [|apply renews_refl|].
Qed.

Lemma get_process_lives id : lives (get_process to_vec_pretty torn working_directory state_path id).
Proof.
  intros s w r s' w' H. unfold get_process in H. apply bind_cases in H as (r1 & s1 & w1 & H1 & H).
  apply find_record_run in H1 as (-> & -> & Hf). destruct r1 as [record|]; [|by destruct H as (_ & -> & _)].
  apply bind_cases in H as (r2 & s2 & w2 & H2 & H). apply refresh_run in H2 as (r' & -> & Hn & E). rewrite <- E in *.
  eapply lives_put; [|by apply Hn, Hf|exact H]. intros u. pose proof persist_quiet. fixes.
Qed.
Lemma update_metadata_lives id metadata : lives (update_metadata to_vec_pretty torn state_path id metadata).
Proof.
  intros s w r s' w' H. unfold update_metadata in H. apply bind_cases in H as (r1 & s1 & w1 & H1 & H).
  apply find_record_run in H1 as (-> & -> & Hf). destruct r1 as [record|]; [|by destruct H as (_ & -> & _)].
  apply bind_cases in H as (r2 & s2 & w2 & H2 & H). pose proof (fixes_now pw_records _ _ _ _ _ H2) as E. destruct r2 as [now|]; [|by destruct H as (_ & -> & _)].
  rewrite <- E in *. eapply lives_put; [|by apply rtc_once, life_metadata, Hf|exact H]. intros u. pose proof persist_quiet. fixes.
Qed.
Lemma stop_lives id : lives (stop to_vec_pretty torn state_path id).
Proof.
  intros s w r s' w' H. unfold stop in H. apply bind_cases in H as (r1 & s1 & w1 & H1 & H).
  apply find_record_run in H1 as (-> & -> & Hf). destruct r1 as [record|]; [|by destruct H as (_ & -> & _)].
  apply bind_cases in H as (r2 & s2 & w2 & H2 & H). assert (pw_records s' = pw_records s2) as ->.
  { destruct r2 as [r2|]; [|by destruct H as (_ & -> & _)]. revert H. apply (fixes_bind pw_records (persist _ _ _) (fun _ => ret r2)); [apply persist_quiet|].
    intros _. apply fixes_ret. }
  clear H. destruct (bool_decide_reflect (pr_state record = Running)) as [Hr|]; [|unfold ret in H2; by injection H2 as _ <- _].
  apply bind_cases in H2 as (r3 & s3 & w3 & H3 & H2). pose proof (stop_process_fixes pw_records ltac:(done) _ _ _ _ _ _ H3) as E.
  destruct r3 as [[]|]; [|destruct H2 as (_ & -> & _); by rewrite E]. munfold. injection H2 as _ <- _. cbn. rewrite E. apply rtc_once, life_end; [by apply Hf|done].
Qed.

(** What a launch makes of the records, whether it answers or not *)
Lemma launch_cases id cwd argv env log_path readiness restartable metadata s w r s' w' :
  argv <> [] -> launch to_vec_pretty torn state_path id cwd argv env log_path readiness restartable metadata s w = (r, s', w') ->
  pw_records s' = pw_records s \/ exists record, launched id record /\ pr_metadata record = metadata /\ pw_records s' = <[id := record]> (pw_records s).
Proof.
  intros Hargv H. unfold launch in H. apply bind_cases in H as (r1 & s1 & w1 & H1 & H).
  assert (pw_records s1 = pw_records s) as E1 by (destruct (path_parent log_path); [by apply quiet_on_disk in H1|by apply (fixes_ret pw_records) in H1]).
  destruct r1 as [u1|]; [|destruct H as (_ & -> & _); by left]. apply bind_cases in H as (r2 & s2 & w2 & H2 & H).
  apply quiet_on_disk in H2 as E2. destruct r2 as [u2|]; [|destruct H as (_ & -> & _); left; congruence].
  apply bind_cases in H as (r3 & s3 & w3 & H3 & H). apply quiet_on_disk in H3 as E3.
  destruct r3 as [u3|]; [|destruct H as (_ & -> & _); left; congruence]. apply bind_cases in H as (r4 & s4 & w4 & H4 & H).
  apply (spawn_fixes pw_records ltac:(done)) in H4 as E4. destruct r4 as [child|]; [|destruct H as (_ & -> & _); left; congruence].
  destruct child as [pid|]; [|apply (fixes_fail pw_records) in H; left; congruence]. apply bind_cases in H as (r5 & s5 & w5 & H5 & H).
  apply (fixes_now pw_records) in H5 as E5. destruct r5 as [now|]; [|destruct H as (_ & -> & _); left; congruence].
  apply bind_cases in H as (r6 & s6 & w6 & H6 & H). unfold put_record, modify in H6. injection H6 as <- <- <-.
  apply (fixes_bind pw_records _ _ persist_quiet (fun _ => fixes_ret pw_records _)) in H. cbn in H.
  assert (pw_records s5 = pw_records s) as E by congruence. rewrite E in H. right. eexists. split; [|split; [|exact H]]; [|reflexivity].
  constructor; cbn; [done..| |done]. destruct readiness; cbn; split; intros []; (done || by eexists).
Qed.
Lemma start_cases id cwd argv env log_path readiness restartable metadata s w r s' w' :
  start to_vec_pretty torn state_path id cwd argv env log_path readiness restartable metadata s w = (r, s', w') ->
  pw_records s' = pw_records s \/
  exists record, pr_state <$> pw_records s !! id <> Some Running /\ launched id record /\ pr_metadata record = metadata /\ pw_records s' = <[id := record]> (pw_records s).
Proof.
  intros H. unfold start in H. case_bool_decide; [left; by apply (fixes_fail pw_records) in H as ->|]. apply bind_cases in H as (r1 & s1 & w1 & H1 & H).
  unfold gets in H1. injection H1 as <- <- <-. case_bool_decide; [left; by apply (fixes_fail pw_records) in H as ->|].
  apply launch_cases in H as [->|(record & ? & ? & ->)]; [by left|right; by exists record|done].
Qed.
Lemma start_lives id cwd argv env log_path readiness restartable metadata :
  lives (start to_vec_pretty torn state_path id cwd argv env log_path readiness restartable metadata).
Proof.
  intros s w r s' w' [->|(record & Hid & Hl & _ & ->)]%start_cases; [reflexivity|]. by apply rtc_once, life_launch.
Qed.
Lemma restart_lives id : lives (restart to_vec_pretty torn working_directory state_path id).
Proof.
  apply lives_bind; [apply get_process_lives|]. intros record. case_match; [apply lives_quiet, fixes_fail|].
  apply lives_bind; [apply lives_attempt, stop_lives|]. intros _. apply start_lives.
Qed.
Lemma wait_ready_lives fuel id timeout : lives (wait_ready to_vec_pretty torn working_directory state_path fuel id timeout).
Proof.
  apply lives_bind; [apply lives_quiet, fixes_instant|]. intros now. generalize (now + Z.max timeout 1). intros deadline.
  induction fuel as [|fuel IH]; cbn [wait_loop]; [apply lives_quiet, fixes_ret|]. apply lives_bind; [apply get_process_lives|]. intros record.
  repeat case_match; try (apply lives_quiet; fixes; fail). apply lives_bind; [apply lives_quiet, fixes_instant|]. intros n. case_match; [apply lives_quiet, fixes_fail|done].
Qed.
Lemma process_logs_lives id tail : lives (process_logs to_vec_pretty torn working_directory state_path id tail).
Proof. apply lives_bind; [apply get_process_lives|]. intros record. apply lives_quiet. fixes. Qed.

(** The loop over all records: each is renewed once, and the others stay. *)
Lemma refresh_entries_lives {E} (l : list (string * ProcessRecord)) s w (r : result E unit) s' w' :
  NoDup l.*1 -> (forall k x, (k, x) ∈ l -> pw_records s !! k = Some x) ->
  for_each l (fun kr => let* r := refresh working_directory kr.2 in put_record kr.1 r) s w = (r, s', w') ->
  rtc life_step (pw_records s) (pw_records s').
Proof.
  revert s w. induction l as [|[k x] l IH]; intros s w Hd Hl H; cbn [for_each] in H; [unfold ret in H; by injection H as _ <- _|].
  apply NoDup_cons in Hd as [Hk Hd]. apply bind_cases in H as (r1 & s1 & w1 & H1 & H). apply bind_cases in H1 as (r2 & s2 & w2 & H2 & H1).
  apply refresh_run in H2 as (x' & -> & Hn & E1). cbn in H1. unfold put_record, modify in H1. injection H1 as <- <- <-.
  etrans; [apply (Hn _ k), Hl, list_elem_of_here|]. rewrite <- E1. change (<[k := x']> (pw_records s2)) with (pw_records (set_records (<[k := x']> (pw_records s2)) s2)).
  eapply IH; [done| |exact H]. intros k' y Hy. cbn. rewrite E1, lookup_insert_ne; [by apply Hl, list_elem_of_further|].
  intros <-. apply Hk, list_elem_of_fmap. by exists (k, y).
Qed.
Lemma refresh_records_lives {E} : lives (E := E) (refresh_records working_directory).
Proof.
  intros s w r s' w' H. unfold refresh_records in H. apply bind_cases in H as (r1 & s1 & w1 & H1 & H). unfold gets in H1. injection H1 as <- <- <-.
  eapply refresh_entries_lives; [apply btree_entries_NoDup| |exact H]. intros k x. by rewrite elem_of_btree_entries.
Qed.
Lemma list_processes_lives {E} : lives (E := E) (list_processes to_vec_pretty torn working_directory state_path).
Proof.
  apply lives_bind; [apply refresh_records_lives|]. intros _. apply lives_quiet. pose proof persist_quiet. fixes.
Qed.

(** ** A request to the table *)

Inductive Operation :=
| OpStart (id : string) (cwd : Path) (argv : list string) (env : gmap string string) (log_path : Path) (readiness : option Value)
    (restartable : bool) (metadata : Value)
| OpGet (id : string)
| OpList
| OpStop (id : string)
| OpMetadata (id : string) (metadata : Value)
| OpRestart (id : string)
| OpWait (fuel : nat) (id : string) (timeout_ms : Z)
| OpLogs (id : string) (tail : Z).

Definition run_operation (op : Operation) : M ProcessWorld RpcError unit :=
  match op with
  | OpStart id cwd argv env log_path readiness restartable metadata =>
      start to_vec_pretty torn state_path id cwd argv env log_path readiness restartable metadata ;; ret tt
  | OpGet id => get_process to_vec_pretty torn working_directory state_path id ;; ret tt
  | OpList => list_processes to_vec_pretty torn working_directory state_path ;; ret tt
  | OpStop id => stop to_vec_pretty torn state_path id ;; ret tt
  | OpMetadata id metadata => update_metadata to_vec_pretty torn state_path id metadata ;; ret tt
  | OpRestart id => restart to_vec_pretty torn working_directory state_path id ;; ret tt
  | OpWait fuel id timeout_ms => wait_ready to_vec_pretty torn working_directory state_path fuel id timeout_ms ;; ret tt
  | OpLogs id tail => process_logs to_vec_pretty torn working_directory state_path id tail ;; ret tt
  end.

Lemma run_operation_lives op : lives (run_operation op).
Proof.
  assert (forall A (m : M ProcessWorld RpcError A), lives m -> lives (m ;; ret tt)) as Hm.
  { intros A m H. apply lives_bind; [done|]. intros _. apply lives_quiet, fixes_ret. }
  destruct op; apply Hm; auto using start_lives, get_process_lives, list_processes_lives, stop_lives, update_metadata_lives, restart_lives, wait_ready_lives, process_logs_lives.
Qed.

(** whatever request the table serves, and whatever fails while it does, every record keeps its type: its identifier is its key, its command is not empty, it is running or stopped but never failed, its readiness is configured exactly when it has a specification and a deadline, it is ready exactly when the time of a successful probe is recorded, its attempts fit in 64 bits, and it is ready or failed only after an attempt. *)
Theorem records_stay_ok op s w r s' w' :
  records_ok (pw_records s) -> run_operation op s w = (r, s', w') -> records_ok (pw_records s').
Proof. intros Hok H. eapply lives_ok; [|exact Hok]. by eapply run_operation_lives. Qed.
End Life.
