(* ===== verification/ProcessDisk.v ===== *)
(** * Managed processes: the state on disk

    The state file always holds a complete table, an answered request is in it,
    and the table that is opened from it is the one that was written. *)
From Stdlib Require Import Ascii.
From stdpp Require Import base gmap strings list sorting pretty relations.
From S2P Require Import Prelude Json Protocol PathPolicy FileTree FileTreeLaws Generations ArtifactRelay TreeDigest Utf8 ProcessTable ProcessSafety.
Open Scope Z_scope.
Open Scope fabric_scope.

Definition newline : string := String "010"%char "".

(** ** Calls that only add entries *)

Definition grows {E A} (m : M Volume E A) : Prop :=
  forall (Q : Tree -> Prop) v w r v' w', (forall t t' : Tree, t ⊆ t' -> Q t -> Q t') -> Q (vol_tree v) ->
  m v w = (r, v', w') -> passes Q v v' /\ Q (vol_tree v').

Lemma grows_inert {E A} (m : M Volume E A) : inert m -> grows m.
Proof. intros Hm Q v w r v' w' _ HQ ->%Hm. split; [apply passes_refl|done]. Qed.
Lemma grows_bind {E A B} (m : M Volume E A) (k : A -> M Volume E B) : grows m -> (forall a, grows (k a)) -> grows (bind m k).
Proof.
  intros Hm Hk Q v w r v' w' Hmono HQ (r1 & v1 & w1 & H1 & H)%bind_cases. eapply Hm in H1 as [Hp1 HQ1]; [|done..].
  destruct r1 as [a|]; [|by destruct H as (_ & -> & _)]. eapply Hk in H as [Hp2 HQ2]; [|done..]. split; [by eapply passes_trans|done].
Qed.
Lemma grows_with_err {E F A} (f : E -> F) (m : M Volume E A) : grows m -> grows (with_err f m).
Proof. intros Hm Q v w r v' w' Hmono HQ (r0 & H & _)%with_err_cases. by eapply Hm. Qed.
(** A call that inserts at a vacant place, or changes nothing *)
Lemma grows_sys {A} (run : Volume -> Tree -> result IoKind (A * Tree)) :
  (forall v t a t', run v t = Ok (a, t') -> t ⊆ t') -> grows (let* v := get in sys (run v)).
Proof.
  intros Hrun Q v w r v' w' Hmono HQ H. rewrite bind_get in H. apply sys_cases in H as [(k & _ & ->)|(a & t & Hr & _ & ->)].
  - split; [apply passes_refl|done].
  - apply Hrun in Hr. split; [apply passes_log|]; by eapply Hmono.
Qed.

Lemma create_dir_grows p : grows (Fs.create_dir p).
Proof.
  apply (grows_sys (fun v t => bind_result (vacancy t p) (fun q => Ok (tt, <[q := EDir (masked 511 (vol_umask v))]> t)))).
  intros v t a t' H. unfold vacancy in H. destruct (resolve t false p) as [q|]; [|done]. cbn in H. destruct (t !! q) eqn:E; [done|].
  destruct (dir_at _ _); [|done]. injection H as _ <-. by apply insert_subseteq.
Qed.
Lemma create_dir_all_grows p : grows (Fs.create_dir_all p).
Proof.
  unfold Fs.create_dir_all. generalize (mkPath (p_absolute p) []). induction (p_components p) as [|c cs IH]; intros above; cbn [Fs.create_dirs].
  - apply grows_inert, inert_ret.
  - intros Q v w r v' w' Hmono HQ H. rewrite bind_get in H. revert HQ H. apply grows_bind; [|intros _; apply IH|done].
    case_match; [apply grows_inert, inert_ret|apply create_dir_grows].
Qed.
Lemma open_append_grows p : grows (open_append p).
Proof.
  apply (grows_sys (fun v t => bind_result (resolve t true p) (fun q => match t !! q with
    | Some (EFile m data) => Ok (q, t) | Some _ => Err OtherError
    | None => if dir_at t (parent_place q) then Ok (q, <[q := EFile (masked 438 (vol_umask v)) ""]> t) else Err NotFound end))).
  intros v t a t' H. destruct (resolve t true p) as [q|]; [|done]. cbn in H. destruct (t !! q) as [[]|] eqn:E; try done.
  - by injection H as _ <-.
  - destruct (dir_at _ _); [|done]. injection H as _ <-. by apply insert_subseteq.
Qed.

(** ** The state file *)

Section Disk.
Context (to_vec_pretty : gmap string ProcessRecord -> option string) (from_slice : string -> option (gmap string ProcessRecord)).
Context (torn : string -> string) (working_directory : Path) (dir : place) (name : string).
Local Abbreviation p := (dir ++ [name]).
Local Abbreviation path := (Some (at_ (dir ++ [name]))).

(** The directory of the state file is there, without links, and the file holds a text of [Q]. *)
Definition holds (Q : string -> Prop) (t : Tree) : Prop :=
  clear t p /\ exists m data, t !! p = Some (EFile m data) /\ Q data.

Lemma clear_sub (t t' : Tree) q : t ⊆ t' -> clear t q -> clear t' q.
Proof.
  intros Hsub. apply clear_dirs. intros x _. unfold dir_at. destruct (t !! x) as [e|] eqn:E; [|done]. by rewrite (lookup_weaken _ _ _ _ E Hsub).
Qed.
Lemma holds_sub (Q : string -> Prop) (t t' : Tree) : t ⊆ t' -> holds Q t -> holds Q t'.
Proof. intros Hsub [Hc (m & data & Hm & HQ)]. split; [by eapply clear_sub|]. exists m, data. split; [by eapply lookup_weaken|done]. Qed.

Definition state_temporary (unique : string) : string := "." +:+ name +:+ "." +:+ unique +:+ ".tmp".
Lemma state_temporary_differs unique : state_temporary unique <> name.
Proof. intros E. apply (f_equal String.length) in E. unfold state_temporary in E. rewrite !string_length_app in E. cbn in E. lia. Qed.
Lemma with_file_name_at n : with_file_name (at_ p) n = at_ (dir ++ [n]).
Proof. unfold with_file_name, at_. cbn. rewrite !fmap_app, rev_app_distr. cbn. by rewrite rev_involutive. Qed.
Lemma path_name_at : path_name (at_ p) = Some name.
Proof. unfold path_name, at_. cbn. by rewrite fmap_app, rev_app_distr. Qed.

(** Writing the two pieces of the new text into the temporary *)
Lemma draft_run (Q : string -> Prop) tmp bytes t v w r v' w' m0 :
  t !! tmp = None -> holds Q t -> vol_tree v = <[tmp := EFile m0 ""]> t ->
  (Fs.write_at torn tmp 0 bytes ;; Fs.write_at torn tmp (String.length bytes) newline ;; ask (fun _ => Ok tt)) v w = (r, v', w') ->
  passes (holds Q) v v' /\ exists data, vol_tree v' = <[tmp := EFile m0 data]> t /\ (r = Ok tt -> data = bytes +:+ newline).
Proof.
  intros Hn Hh Hv H. assert (forall e, holds Q (<[tmp := e]> t)) as Hd by (intros e; by eapply holds_sub, Hh; apply insert_subseteq).
  apply bind_cases in H as (r1 & v1 & w1 & H1 & H). eapply write_at_file in H1 as (d1 & Ev1 & Hd1); [|rewrite Hv; apply lookup_insert_eq].
  subst v1. rewrite Hv, insert_insert_eq in H. destruct r1 as [[]|]; [|destruct H as (-> & -> & _); split; [by apply passes_log|by exists d1]].
  rewrite (Hd1 eq_refl), overwrite_empty in H. apply bind_cases in H as (r2 & v2 & w2 & H2 & H).
  eapply write_at_file in H2 as (d2 & Ev2 & Hd2); [|apply lookup_insert_eq]. subst v2. cbn [vol_tree log] in H. rewrite insert_insert_eq in H.
  assert (passes (holds Q) v (log (log v (<[tmp := EFile m0 bytes]> t)) (<[tmp := EFile m0 d2]> t))) as Hp by (eapply passes_trans; apply passes_log, Hd).
  destruct r2 as [[]|]; [|destruct H as (-> & -> & _); split; [done|by exists d2]].
  apply ask_cases in H as [-> _]. split; [done|]. exists d2. split; [done|]. intros _. by rewrite (Hd2 eq_refl), overwrite_end.
Qed.

(** [write_state]: at every moment a complete text, the old or the new one; on success the new one *)
Lemma write_state_run (Q : string -> Prop) bytes v w r v' w' :
  holds Q (vol_tree v) -> Q (bytes +:+ newline) -> write_state torn (at_ p) bytes v w = (r, v', w') ->
  passes (holds Q) v v' /\ holds Q (vol_tree v') /\ (r = Ok tt -> holds (eq (bytes +:+ newline)) (vol_tree v')).
Proof.
  intros Hh HQ H. unfold write_state in H. rewrite path_parent_at in H. apply bind_cases in H as (r1 & v1 & w1 & H1 & H).
  eapply (grows_with_err _ _ (create_dir_all_grows _)) in H1 as [Hp1 Hh1]; [|apply holds_sub|exact Hh].
  destruct r1 as [[]|]; [|destruct H as (-> & -> & _); by split_and!]. apply bind_cases in H as (r2 & v2 & w2 & H2 & H).
  assert (exists u, r2 = Ok u /\ v2 = v1) as (unique & -> & ->) by (munfold; injection H2 as <- <- _; by eexists).
  rewrite path_name_at, with_file_name_at in H. change (default "" (Some name)) with name in H. fold (state_temporary unique) in H.
  apply bind_cases in H as (r3 & v3 & w3 & H3 & H). apply with_err_cases in H3 as (k3 & H3 & ->). unfold Fs.open_new in H3. rewrite bind_get in H3.
  destruct Hh1 as [Hc Hf]. apply clear_snoc in Hc as [Hc Hdir]. assert (forall n, clear (vol_tree v1) (dir ++ [n])) as Hcn by (intros n; by apply clear_snoc).
  assert (holds Q (vol_tree v1)) as Hh1 by (by split).
  apply sys_cases in H3 as [(k & -> & ->)|(q & t3 & H3 & -> & ->)]; [destruct H as (-> & -> & _); by split_and!|].
  rewrite vacancy_clear in H3 by done. set (tmp := dir ++ [state_temporary unique]) in *. destruct (vol_tree v1 !! tmp) eqn:Hn; [done|].
  destruct (dir_at _ _); [|done]. injection H3 as <- <-. set (m0 := masked 438 (vol_umask v1)) in *.
  cbn [map_err] in H. apply bind_cases in H as (r4 & v4 & w4 & H4 & H). apply with_err_cases in H4 as (k4 & H4 & ->).
  eapply (draft_run Q tmp bytes (vol_tree v1)) in H4 as (Hp4 & data & Hv4 & Hdata); [|done|done|reflexivity].
  assert (passes (holds Q) v v4) as Hp.
  { eapply passes_trans; [exact Hp1|]. eapply passes_trans; [|exact Hp4]. apply passes_log. by eapply holds_sub, Hh1; apply insert_subseteq. }
  assert (holds Q (vol_tree v4)) as Hh4 by (rewrite Hv4; by eapply holds_sub, Hh1; apply insert_subseteq).
  destruct k4 as [[]|]; cbn [map_err] in H; [|destruct H as (-> & -> & _); by split_and!]. rewrite (Hdata eq_refl) in Hv4.
  apply with_err_cases in H as (k5 & H & ->). apply rename_at in H as [(k & -> & ->)|(t' & Ht & -> & ->)];
    [by split_and!| |rewrite Hv4; eapply clear_sub; [by apply insert_subseteq|apply Hcn]..].
  rewrite Hv4 in Ht. apply rename_new_file in Ht as (Ho & _ & Ha); [|apply state_temporary_differs].
  assert (holds (eq (bytes +:+ newline)) t') as Hnew.
  { split; [|by exists m0, (bytes +:+ newline)]. assert (outside [tmp; p] dir) as Hout by (repeat constructor; by apply below_above).
    apply clear_snoc. split; [by eapply clear_outside|]. unfold dir_at. rewrite Ha by done. done. }
  assert (holds Q t') as HQ' by (destruct Hnew as [? (m & d & Hm & <-)]; split; [done|]; by exists m, (bytes +:+ newline)).
  split_and!; [|done|done]. eapply passes_trans; [exact Hp|by apply passes_log].
Qed.

(** ** The table and its file *)

(** What [serde_json] reads back *)
Context (reads_back : forall m bytes, to_vec_pretty m = Some bytes -> from_slice (bytes +:+ newline) = Some m).

Definition good (data : string) : Prop := exists m, from_slice data = Some m /\ records_ok m.
Definition table_sound (s : ProcessWorld) : Prop := records_ok (pw_records s) /\ holds good (vol_tree (pw_volume s)).
Definition saved (s : ProcessWorld) : Prop :=
  exists bytes, to_vec_pretty (pw_records s) = Some bytes /\ holds (eq (bytes +:+ newline)) (vol_tree (pw_volume s)).

(** A computation that keeps the table and its file sound at every moment; and one that leaves the table saved when it answers *)
Definition saves {E A} (m : M ProcessWorld E A) : Prop :=
  forall s w r s' w', table_sound s -> m s w = (r, s', w') -> table_sound s' /\ passes (holds good) (pw_volume s) (pw_volume s').
Definition answers_saved {E A} (m : M ProcessWorld E A) : Prop :=
  forall s w a s' w', table_sound s -> m s w = (Ok a, s', w') -> saved s'.

Lemma saves_bind {E A B} (m : M ProcessWorld E A) (k : A -> M ProcessWorld E B) : saves m -> (forall a, saves (k a)) -> saves (bind m k).
Proof.
  intros Hm Hk s w r s' w' Hs (r1 & s1 & w1 & H1 & H)%bind_cases. apply Hm in H1 as [Hs1 Hp1]; [|done].
  destruct r1 as [a|]; [|by destruct H as (_ & -> & _)]. apply Hk in H as [Hs2 Hp2]; [|done]. split; [done|by eapply passes_trans].
Qed.
Lemma answers_saved_bind {E A B} (m : M ProcessWorld E A) (k : A -> M ProcessWorld E B) :
  saves m -> (forall a, answers_saved (k a)) -> answers_saved (bind m k).
Proof. intros Hm Hk s w b s' w' Hs (a & s1 & w1 & H1 & H)%bind_ok. apply Hm in H1 as [Hs1 _]; [|done]. by eapply Hk. Qed.
(** Only answering is left. *)
Lemma answers_saved_then {E A B} (m : M ProcessWorld E A) (k : A -> M ProcessWorld E B) :
  answers_saved m -> (forall a, quiet (k a)) -> (forall a, still (k a)) -> answers_saved (bind m k).
Proof.
  intros Hm Hq Ht s w b s' w' Hs (a & s1 & w1 & H1 & H)%bind_ok. apply Hm in H1; [|done]. unfold saved in *. by rewrite (Hq _ _ _ _ _ _ H), (Ht _ _ _ _ _ _ H).
Qed.
Lemma saves_attempt {E F A} (m : M ProcessWorld F A) : saves m -> saves (E := E) (attempt m).
Proof. intros Hm s w r s' w' Hs (r0 & -> & H)%attempt_cases. by eapply Hm. Qed.
Lemma saves_fixed {E A} (m : M ProcessWorld E A) : quiet m -> still m -> saves m.
Proof.
  intros Hq Ht s w r s' w' Hs H. unfold table_sound in *. rewrite (Hq _ _ _ _ _ H), (Ht _ _ _ _ _ H). split; [done|apply passes_refl].
Qed.
Lemma saves_on_disk {E A} (m : M Volume E A) : grows m -> saves (on_disk m).
Proof.
  intros Hm s w r s' w' [Hr Hh] [H E']%on_disk_run. eapply Hm in H as [Hp Hh']; [|apply holds_sub|exact Hh]. split; [|done]. split; [by rewrite E'|done].
Qed.

Local Abbreviation persist_ := (persist to_vec_pretty torn path).

Lemma persist_saves : saves persist_.
Proof.
  intros s w r s' w' [Hr Hh] H. unfold persist in H. apply bind_cases in H as (r1 & s1 & w1 & H1 & H). unfold gets in H1. injection H1 as <- <- <-.
  apply bind_cases in H as (r2 & s2 & w2 & H2 & H). unfold lift in H2. injection H2 as <- <- <-.
  destruct (to_vec_pretty (pw_records s)) as [bytes|] eqn:Eb; [|destruct H as (_ & -> & _); split; [done|apply passes_refl]].
  apply on_disk_run in H as [H E']. eapply (write_state_run good) in H as (Hp & Hh' & _); [|done|exists (pw_records s); split; [by apply reads_back|done]].
  split; [|done]. split; [by rewrite E'|done].
Qed.
Lemma persist_answers_saved : answers_saved persist_.
Proof.
  intros s w [] s' w' [Hr Hh] H. unfold persist in H. mstep H m s1 w1 H1. unfold gets in H1. injection H1 as <- <- <-. mlift H bytes Hb. apply ok_or_ok in Hb.
  apply on_disk_run in H as [H E']. eapply (write_state_run good) in H as (_ & _ & Hn); [|done|exists (pw_records s); split; [by apply reads_back|done]].
  exists bytes. rewrite E'. split; [done|by apply Hn].
Qed.

Lemma put_sound id r s w (res : result RpcError unit) s' w' :
  table_sound s -> records_ok (<[id := r]> (pw_records s)) -> put_record id r s w = (res, s', w') -> table_sound s' /\ pw_volume s' = pw_volume s.
Proof. intros [_ Hh] Hr. unfold put_record, modify. intros [= <- <- <-]. by split. Qed.
(** A record is put into the table, which is persisted, and it is the answer. *)
Lemma put_persist_run id r s w res s' w' :
  table_sound s -> records_ok (<[id := r]> (pw_records s)) -> (put_record id r ;; persist_ ;; ret r) s w = (res, s', w') ->
  table_sound s' /\ passes (holds good) (pw_volume s) (pw_volume s') /\ (forall a, res = Ok a -> saved s').
Proof.
  intros Hs Hr H. apply bind_cases in H as (r1 & s1 & w1 & H1 & H). eapply put_sound in H1 as E1; [|done..]. destruct E1 as [Hs1 Ev].
  unfold put_record, modify in H1. injection H1 as <- <- <-. rewrite <- Ev.
  assert (saves (persist_ ;; ret r)) as Hsv by (apply saves_bind; [apply persist_saves|]; intros _; apply saves_fixed; fixes).
  destruct (Hsv _ _ _ _ _ Hs1 H) as [Hs' Hp]. split_and!; [done..|]. intros a ->. revert Hs1 H. apply answers_saved_then; [apply persist_answers_saved|intros; fixes..].
Qed.

(** ** The operations *)

Definition serves {E A} (m : M ProcessWorld E A) : Prop := saves m /\ answers_saved m.

Lemma serves_bind {E A B} (m : M ProcessWorld E A) (k : A -> M ProcessWorld E B) : saves m -> (forall a, serves (k a)) -> serves (bind m k).
Proof. intros Hm Hk. split; [apply saves_bind|apply answers_saved_bind]; try done; intros a; apply Hk. Qed.
Lemma serves_then {E A B} (m : M ProcessWorld E A) (k : A -> M ProcessWorld E B) :
  serves m -> (forall a, quiet (k a)) -> (forall a, still (k a)) -> serves (bind m k).
Proof. intros [Hm Ha] Hq Ht. split; [apply saves_bind; [done|]; intros a; by apply saves_fixed|by apply answers_saved_then]. Qed.
Lemma serves_fail {E A} (e : E) : serves (A := A) (fail e).
Proof. split; [apply saves_fixed; fixes|]. done. Qed.
(** Reading the record first: the rest may use that it is in the table. *)
Lemma serves_found {A} id (k : ProcessRecord -> M ProcessWorld RpcError A) :
  (forall record s w r s' w', table_sound s -> pw_records s !! id = Some record -> k record s w = (r, s', w') ->
     table_sound s' /\ passes (holds good) (pw_volume s) (pw_volume s') /\ (forall a, r = Ok a -> saved s')) ->
  serves (let* record := find_record id in k record).
Proof.
  intros Hk. split; intros s w r s' w' Hs H; apply bind_cases in H as (r1 & s1 & w1 & H1 & H); apply find_record_run in H1 as (-> & -> & Hf);
    (destruct r1 as [record|]; [|by destruct H as (? & -> & _); try (split; [done|apply passes_refl])]); apply Hk in H as (? & ? & Hw); try done; eauto.
Qed.

Lemma get_process_serves id : serves (get_process to_vec_pretty torn working_directory path id).
Proof.
  apply serves_found. intros record s w r s' w' Hs Hf H. apply bind_cases in H as (r1 & s1 & w1 & H1 & H).
  pose proof (refresh_still _ _ _ _ _ _ _ H1) as Ev. apply refresh_run in H1 as (r' & -> & Hn & E1). rewrite <- Ev. assert (table_sound s1) as Hs1 by (unfold table_sound; by rewrite E1, Ev).
  apply put_persist_run in H; [done|done|]. rewrite E1. exact (lives_ok _ _ (Hn _ _ Hf) (proj1 Hs)).
Qed.
Lemma update_metadata_serves id metadata : serves (update_metadata to_vec_pretty torn path id metadata).
Proof.
  apply serves_found. intros record s w r s' w' Hs Hf H. apply bind_cases in H as (r1 & s1 & w1 & H1 & H). munfold. injection H1 as <- <- <-.
  eapply put_persist_run in H; [exact H|done|]. eapply life_step_ok; [by apply life_metadata|apply Hs].
Qed.
Lemma stop_serves id : serves (stop to_vec_pretty torn path id).
Proof.
  apply serves_found. intros record s w r s' w' Hs Hf H. apply bind_cases in H as (r1 & s1 & w1 & H1 & H).
  assert (table_sound s1 /\ pw_volume s1 = pw_volume s) as [Hs1 Ev].
  { destruct (bool_decide_reflect (pr_state record = Running)) as [Hr|]; [|unfold ret in H1; by injection H1 as _ <- _].
    apply bind_cases in H1 as (r2 & s2 & w2 & H2 & H1). pose proof (stop_process_fixes pw_records ltac:(done) _ _ _ _ _ _ H2) as E2.
    pose proof (stop_process_fixes pw_volume ltac:(done) _ _ _ _ _ _ H2) as Ev2. assert (table_sound s2) as Hs2 by (unfold table_sound; by rewrite E2, Ev2).
    destruct r2 as [[]|]; [|by destruct H1 as (_ & -> & _)]. apply bind_cases in H1 as (r3 & s3 & w3 & H3 & H1). munfold. injection H3 as <- <- <-.
    injection H1 as _ <- _. split; [|done]. split; [|apply Hs2]. cbn. rewrite E2. eapply life_step_ok; [by apply life_end|apply Hs]. }
  clear H1. rewrite <- Ev. destruct r1 as [record'|]; [|destruct H as (-> & -> & _); split_and!; [done|apply passes_refl|done]].
  assert (serves (persist_ ;; ret record')) as [Hsv Ha] by (apply serves_then; [split; [apply persist_saves|apply persist_answers_saved]|intros; fixes..]).
  destruct (Hsv _ _ _ _ _ Hs1 H) as [Hs' Hp]. split_and!; [done..|]. intros a ->. exact (Ha _ _ _ _ _ Hs1 H).
Qed.

Lemma launch_run id cwd argv env log_path readiness restartable metadata s w r s' w' :
  argv <> [] -> pr_state <$> pw_records s !! id <> Some Running -> table_sound s ->
  launch to_vec_pretty torn path id cwd argv env log_path readiness restartable metadata s w = (r, s', w') ->
  table_sound s' /\ passes (holds good) (pw_volume s) (pw_volume s') /\ (forall a, r = Ok a -> saved s').
Proof.
  intros Hargv Hid Hs H. set (logs := (match path_parent log_path with Some parent => log_io (Fs.create_dir_all parent) | None => ret tt end) ;;
    (let* q := log_io (open_append log_path) in log_io (ask (fun _ => Ok tt)) ;; spawn)).
  assert (saves logs) as Hlogs.
  { assert (forall A (m : M Volume IoKind A), grows m -> saves (log_io m)) as Hl by (intros A m Hm; by apply saves_on_disk, grows_with_err).
    repeat (apply saves_bind; [|intros _]); [destruct (path_parent log_path); [apply Hl, create_dir_all_grows|apply saves_fixed; fixes]|apply Hl, open_append_grows|
      apply Hl, grows_inert, inert_ask|apply saves_fixed; by apply spawn_fixes]. }
  assert (quiet logs) as Hquiet.
  { repeat (apply fixes_bind; [|intros _]); [destruct (path_parent log_path); fixes|apply quiet_on_disk|apply quiet_on_disk|by apply spawn_fixes]. }
  destruct (logs s w) as [[child s1] w1] eqn:Elogs. destruct (Hlogs _ _ _ _ _ Hs Elogs) as [Hs1 Hp1]. apply Hquiet in Elogs as E1.
  assert (match child with
          | Ok None => fail (rpc_error "PROCESS_START_FAILED" "")
          | Err e => fail e
          | Ok (Some pid) => let* now := now_ms in
              let record := mkProcessRecord id pid true (Some now) cwd argv env restartable metadata log_path Running
                (mkReadinessStatus (if bool_decide (is_Some readiness) then Pending else NotConfigured) 0) readiness
                ((fun spec => u64_saturating_add now (default 180000 (vget "timeoutMs" spec ≫= as_u64))) <$> readiness) now now None in
              put_record id record ;; persist_ ;; ret record
          end s1 w1 = (r, s', w')) as Hrest.
  { rewrite <- H. unfold launch. revert Elogs. unfold logs, bind. intros Elogs. repeat (case_match; simplify_eq; try done). }
  clear H Elogs. assert (forall e, fail (A := ProcessRecord) e s1 w1 = (r, s', w') ->
    table_sound s' /\ passes (holds good) (pw_volume s) (pw_volume s') /\ (forall a, r = Ok a -> saved s')) as Hfail.
  { intros e. unfold fail. intros [= <- <- <-]. by split_and!. }
  destruct child as [[pid|]|e]; [|by eapply Hfail..]. apply bind_cases in Hrest as (r2 & s2 & w2 & H2 & H). munfold. injection H2 as <- <- <-.
  eapply put_persist_run in H as (Hs' & Hp & Ha); [|done|].
  - split_and!; [done|by eapply passes_trans|done].
  - rewrite E1. eapply life_step_ok; [|apply Hs]. apply life_launch; [done|]. constructor; cbn; [done..| |done]. destruct readiness; cbn; split; intros []; (done || by eexists).
Qed.
Lemma start_serves id cwd argv env log_path readiness restartable metadata :
  serves (start to_vec_pretty torn path id cwd argv env log_path readiness restartable metadata).
Proof.
  unfold start. case_bool_decide as Hargv; [apply serves_fail|].
  assert (forall s w r s' w', table_sound s ->
    (let* records := gets pw_records in
     if bool_decide (pr_state <$> records !! id = Some Running) then fail (rpc_error "PROCESS_ALREADY_RUNNING" ("process " +:+ id +:+ " is already running"))
     else launch to_vec_pretty torn path id cwd argv env log_path readiness restartable metadata) s w = (r, s', w') ->
    table_sound s' /\ passes (holds good) (pw_volume s) (pw_volume s') /\ (forall a, r = Ok a -> saved s')) as Hrun.
  { intros s w r s' w' Hs H. apply bind_cases in H as (r1 & s1 & w1 & H1 & H). unfold gets in H1. injection H1 as <- <- <-.
    case_bool_decide as Hid; [|by eapply launch_run]. unfold fail in H. injection H as <- <- _. split; [exact Hs|]. split; [apply passes_refl|done]. }
  split; intros s w r s' w' Hs H; apply Hrun in H as (Hs' & Hp & Ha); [by split|done|by eapply Ha|done].
Qed.
Lemma restart_serves id : serves (restart to_vec_pretty torn working_directory path id).
Proof.
  apply serves_bind; [apply get_process_serves|]. intros record. case_match; [apply serves_fail|].
  apply serves_bind; [apply saves_attempt, stop_serves|]. intros _. apply start_serves.
Qed.
Lemma wait_loop_saves fuel id deadline : saves (wait_loop to_vec_pretty torn working_directory path fuel id deadline).
Proof.
  induction fuel as [|fuel IH]; cbn [wait_loop]; [apply saves_fixed; fixes|]. apply saves_bind; [apply get_process_serves|]. intros record.
  repeat (case_match; [apply saves_fixed; fixes|]). apply saves_bind; [apply saves_fixed; fixes|]. intros n. case_match; [apply saves_fixed; fixes|done].
Qed.
(** An answer of the wait is the answer of the [get] before it. *)
Lemma wait_loop_saved fuel id deadline s w record s' w' :
  table_sound s -> wait_loop to_vec_pretty torn working_directory path fuel id deadline s w = (Ok (Some record), s', w') -> saved s'.
Proof.
  revert s w. induction fuel as [|fuel IH]; intros s w Hs H; cbn [wait_loop] in H; [done|]. mstep H r s1 w1 H1.
  pose proof (proj2 (get_process_serves id) _ _ _ _ _ Hs H1) as Hv. apply (proj1 (get_process_serves id)) in H1 as [Hs1 _]; [|done].
  case_match eqn:C1; [unfold ret in H; by injection H as <- <- _|]. case_match eqn:C2; [done|]. case_match eqn:C3; [done|].
  mstep H now s2 w2 H2. munfold. injection H2 as <- <- <-. case_match eqn:C4; [done|]. by eapply IH.
Qed.
Lemma refresh_records_saves {E} : saves (E := E) (refresh_records working_directory).
Proof.
  intros s w r s' w' Hs H. pose proof (refresh_records_lives _ _ _ _ _ _ H) as Hl. assert (pw_volume s' = pw_volume s) as Ev.
  { revert H. apply (fixes_bind pw_volume); [fixes|]. intros m. induction (btree_entries m) as [|kr l IH]; cbn [for_each]; [fixes|].
    apply fixes_bind; [|done]. apply fixes_bind; [apply refresh_still|]. intros x. intros s1 w1 r1 s1' w1'. unfold put_record, modify. by intros [= <- <- <-]. }
  rewrite Ev. split; [|apply passes_refl]. split; [|rewrite Ev; apply Hs]. eapply lives_ok; [exact Hl|apply Hs].
Qed.
Lemma process_logs_serves id tail : serves (process_logs to_vec_pretty torn working_directory path id tail).
Proof.
  apply serves_then; [apply get_process_serves|intros r; fixes|]. intros r. apply fixes_bind; [|intros c; fixes]. apply still_on_disk.
  apply inert_bind; [by intros v w x v' w' (r0 & _ & [-> _]%ask_cases)%attempt_cases|]. intros x. apply inert_ret.
Qed.

Lemma run_operation_saves op : saves (run_operation to_vec_pretty torn working_directory path op).
Proof.
  assert (forall A (m : M ProcessWorld RpcError A), saves m -> saves (m ;; ret tt)) as Hm.
  { intros A m H. apply saves_bind; [done|]. intros _. apply saves_fixed; fixes. }
  destruct op; apply Hm; [apply start_serves|apply get_process_serves| |apply stop_serves|apply update_metadata_serves|apply restart_serves| |apply process_logs_serves].
  - apply saves_bind; [apply refresh_records_saves|]. intros _. apply saves_bind; [apply saves_attempt, persist_saves|]. intros _. apply saves_fixed; fixes.
  - apply saves_bind; [apply saves_fixed; fixes|]. intros now. apply wait_loop_saves.
Qed.

(** [list] answers when it could not persist, and a wait may run out of the readings of the clock it was given. *)
Definition reports (op : Operation) : bool := match op with OpList | OpWait _ _ _ => false | _ => true end.
Lemma run_operation_saved op s w s' w' :
  reports op = true -> table_sound s -> run_operation to_vec_pretty torn working_directory path op s w = (Ok tt, s', w') -> saved s'.
Proof.
  intros Ho Hs H. revert Hs H. generalize tt. intros u. assert (forall A (m : M ProcessWorld RpcError A), serves m -> answers_saved (m ;; ret tt)) as Hm.
  { intros A m H. apply serves_then; [done|intros; fixes..]. }
  destruct op; try done; apply Hm; [apply start_serves|apply get_process_serves|apply stop_serves|apply update_metadata_serves|apply restart_serves|apply process_logs_serves].
Qed.

(** ** Opening *)

Local Abbreviation open_ := (ProcessTable.open to_vec_pretty from_slice torn working_directory path).

(** What opening makes of the file, when the file system does not fail to say that it is there *)
Lemma open_run (P : string -> Prop) s w r s' w' :
  holds P (vol_tree (pw_volume s)) -> (forall data, P data -> good data) -> peek (w_io w) = true -> open_ s w = (r, s', w') ->
  passes (holds good) (pw_volume s) (pw_volume s') /\ holds good (vol_tree (pw_volume s')) /\
  (r = Ok tt -> exists data m, P data /\ from_slice data = Some m /\ rtc life_step m (pw_records s') /\ saved s').
Proof.
  intros [Hc (mode & data & Hm & HP)] HPg Hio H. assert (holds good (vol_tree (pw_volume s))) as Hg by (split; [done|]; exists mode, data; auto).
  assert (forall k, entry (vol_tree (pw_volume s)) k (at_ p) = Ok (p, EFile mode data)) as He.
  { intros k. rewrite entry_clear, Hm; [done..|]. intros _. unfold is_link_at. by rewrite Hm. }
  unfold ProcessTable.open in H. apply bind_cases in H as (r1 & s1 & w1 & H1 & H). apply on_disk_run in H1 as [H1 E1].
  assert (r1 = Ok true /\ pw_volume s1 = pw_volume s) as [-> Ev1].
  { unfold Fs.exists_, Fs.test, Fs.metadata, ask in H1. munfold. rewrite Hio, He in H1. cbn in H1. by injection H1 as <- <- _. }
  clear H1. apply bind_cases in H as (r2 & s2 & w2 & H2 & H).
  assert (pw_volume s2 = pw_volume s /\ (forall m, r2 = Ok m -> from_slice data = Some m)) as [Ev2 Hr2].
  { apply bind_cases in H2 as (r3 & s3 & w3 & H3 & H2). apply on_disk_run in H3 as [H3 E3]. apply with_err_cases in H3 as (k & [Ev Hk]%ask_cases & ->).
    destruct k as [bytes|]; [|destruct H2 as (-> & -> & _); split; [congruence|done]]. specialize (Hk bytes eq_refl). rewrite Ev1, He in Hk. cbn in Hk. injection Hk as <-.
    cbn [map_err] in H2. unfold lift in H2. injection H2 as <- <- _. split; [congruence|]. intros m. apply ok_or_ok. }
  destruct r2 as [m|]; [|destruct H as (-> & -> & _); rewrite Ev2; split_and!; [apply passes_refl|apply Hg|done]].
  specialize (Hr2 m eq_refl). apply bind_cases in H as (r4 & s4 & w4 & H4 & H). unfold modify in H4. injection H4 as <- <- <-.
  assert (table_sound (set_records m s2)) as Hs.
  { split; [|cbn; by rewrite Ev2]. destruct (HPg data HP) as (m' & Hm' & Hok). cbn. by simplify_eq. }
  assert (pw_volume (set_records m s2) = pw_volume s) as Ev by done. rewrite <- Ev. assert (saves (refresh_records working_directory ;; persist_)) as Hsv by (apply saves_bind; [apply refresh_records_saves|intros _; apply persist_saves]).
  destruct (Hsv _ _ _ _ _ Hs H) as [Hs' Hp]. split_and!; [done|apply Hs'|]. intros ->. exists data, m. split_and!; [done..| |].
  - assert (lives (refresh_records working_directory ;; persist_)) as Hl by (apply lives_bind; [apply refresh_records_lives|intros _; apply lives_quiet, persist_quiet]).
    exact (Hl _ _ _ _ _ H).
  - assert (answers_saved (refresh_records working_directory ;; persist_)) as Ha by (apply answers_saved_bind; [apply refresh_records_saves|intros _; apply persist_answers_saved]).
    exact (Ha _ _ _ _ _ Hs H).
Qed.

(** C13: whatever request the table serves, at every moment of it the state file holds a complete table whose records all have their type, whichever call fails; so an executor that is killed at any moment of it, and that can look at the file when it is opened again, opens a table with such records on what it left, and those are the records of the file with what their refresh learned. (One that cannot takes the file for absent: [unseen_state_is_replaced] of [ProcessRuns].) *)
Theorem state_file_survives op s w r s1 w1 :
  table_sound s -> run_operation to_vec_pretty torn working_directory path op s w = (r, s1, w1) ->
  exists trees, vol_history (pw_volume s1) = trees ++ vol_history (pw_volume s) /\
  Forall (fun t => holds good t /\
    forall h w2 s2 w3, peek (w_io w2) = true -> open_ (mkProcessWorld ∅ (mkVolume t (vol_umask (pw_volume s)) []) h) w2 = (Ok tt, s2, w3) ->
      table_sound s2 /\ saved s2 /\ exists m data, holds (eq data) t /\ from_slice data = Some m /\ rtc life_step m (pw_records s2)) trees.
Proof.
  intros Hs (Hs1 & trees & Ht & Hall)%run_operation_saves; [|done]. exists trees. split; [done|]. eapply Forall_impl; [exact Hall|].
  intros t Hg. split; [done|]. intros h w2 s2 w3 Hio H. destruct Hg as [Hc (mode & data & Hm & Hd)].
  apply (open_run (eq data)) in H as (_ & Hg2 & Hok); [|split; [done|by exists mode, data]|by intros ? <-|done].
  destruct (Hok eq_refl) as (d & m & <- & Hf & Hl & Hsv). destruct Hd as (m' & Hm' & Hr). rewrite Hf in Hm'. injection Hm' as <-. split; [split; [by eapply lives_ok|done]|].
  split; [done|]. exists m, data. split; [|done]. split; [done|by exists mode, data].
Qed.

(** a request that starts, shows, stops, restarts or changes a process is on disk when it answers: an executor that is killed after the answer opens the very table the request left, and changes nothing of it but what the refresh of its running processes learns. *)
Theorem answered_survives op s w s1 w1 h w2 s2 w3 :
  reports op = true -> table_sound s -> run_operation to_vec_pretty torn working_directory path op s w = (Ok tt, s1, w1) ->
  peek (w_io w2) = true -> open_ (mkProcessWorld ∅ (pw_volume s1) h) w2 = (Ok tt, s2, w3) ->
  rtc life_step (pw_records s1) (pw_records s2) /\ table_sound s2 /\ saved s2.
Proof.
  intros Ho Hs Hop Hio H. apply run_operation_saves in Hop as Hs1; [|done]. apply run_operation_saved in Hop as (bytes & Hb & Hf); [|done..].
  pose proof (reads_back _ _ Hb) as Hback. apply (open_run (eq (bytes +:+ newline))) in H as (_ & Hg & Hok); [|done|intros ? <-; exists (pw_records s1); split; [done|apply Hs1]|done].
  destruct (Hok eq_refl) as (d & m & <- & Hd & Hl & Hsv). rewrite Hback in Hd. injection Hd as <-. split_and!; [done| |exact Hsv].
  split; [|done]. eapply lives_ok; [done|apply Hs1].
Qed.
End Disk.
