(* ===== verification/ProcessSignals.v ===== *)
(** * Managed processes: signals and waiting

    A restart asks the old process to end before it starts the new one, and a
    wait for readiness ends. *)
From Stdlib Require Import Ascii.
From stdpp Require Import base gmap strings list sorting pretty relations.
From S2P Require Import Prelude Json Protocol PathPolicy FileTree FileTreeLaws Generations ArtifactRelay TreeDigest Utf8 ProcessTable ProcessSafety.
Open Scope Z_scope.
Open Scope fabric_scope.

(** ** Computations that do not read the monotonic clock *)

Definition timeless {S E A} (m : M S E A) : Prop := forall s w r s' w', m s w = (r, s', w') -> w_instant w' = w_instant w.

Section Timeless.
Context {S E A B : Type}.
Lemma timeless_ret (a : A) : timeless (S := S) (E := E) (ret a).
Proof. by intros s w r s' w' [= <- <- <-]. Qed.
Lemma timeless_fail (e : E) : timeless (S := S) (A := A) (fail e).
Proof. by intros s w r s' w' [= <- <- <-]. Qed.
Lemma timeless_lift (x : result E A) : timeless (S := S) (lift x).
Proof. by intros s w r s' w' [= <- <- <-]. Qed.
Lemma timeless_gets (g : S -> A) : timeless (E := E) (gets g).
Proof. by intros s w r s' w' [= <- <- <-]. Qed.
Lemma timeless_get : timeless (S := S) (E := E) get.
Proof. by intros s w r s' w' [= <- <- <-]. Qed.
Lemma timeless_put (s0 : S) : timeless (E := E) (put s0).
Proof. by intros s w r s' w' [= <- <- <-]. Qed.
Lemma timeless_modify (g : S -> S) : timeless (E := E) (modify g).
Proof. by intros s w r s' w' [= <- <- <-]. Qed.
Lemma timeless_now : timeless (S := S) (E := E) now_ms.
Proof. by intros s w r s' w' [= <- <- <-]. Qed.
Lemma timeless_uuid : timeless (S := S) (E := E) new_v4.
Proof. by intros s w r s' w' [= <- <- <-]. Qed.
Lemma timeless_io : timeless (S := S) (E := E) io_outcome.
Proof. by intros s w r s' w' [= <- <- <-]. Qed.
Lemma timeless_bind (m : M S E A) (k : A -> M S E B) : timeless m -> (forall a, timeless (k a)) -> timeless (bind m k).
Proof.
  intros Hm Hk s w r s' w' (r1 & s1 & w1 & H1 & H)%bind_cases. apply Hm in H1. destruct r1 as [a|]; [|by destruct H as (_ & _ & ->)].
  apply Hk in H. congruence.
Qed.
Lemma timeless_attempt {F} (m : M S F A) : timeless m -> timeless (attempt (F := E) m).
Proof. intros Hm s w r s' w' (r0 & -> & H)%attempt_cases. by eapply Hm. Qed.
Lemma timeless_with_err {F} (f : F -> E) (m : M S F A) : timeless m -> timeless (with_err f m).
Proof. intros Hm s w r s' w' (r0 & H & _)%with_err_cases. by eapply Hm. Qed.
Lemma timeless_zoom {V} (g : V -> S) (p : S -> V -> V) (m : M S E A) : timeless m -> timeless (zoom g p m).
Proof. intros Hm s w r s' w'. unfold zoom. destruct (m (g s) w) as [[r1 v] w1] eqn:E1. intros [= <- <- <-]. by eapply Hm. Qed.
End Timeless.
#[export] Hint Resolve timeless_ret timeless_fail timeless_lift timeless_gets timeless_get timeless_put timeless_modify timeless_now timeless_uuid
  timeless_io : fabric.
Ltac timeless := repeat first
  [ solve [eauto with fabric] | apply timeless_bind; [|intros ?] | apply timeless_attempt | apply timeless_with_err | apply timeless_zoom | progress case_match ].

Lemma timeless_sys {A} (run : Tree -> result IoKind (A * Tree)) : timeless (sys run).
Proof. unfold sys. timeless. Qed.
Lemma timeless_ask {A} (f : Tree -> result IoKind A) : timeless (ask f).
Proof. unfold ask. timeless. Qed.
Lemma timeless_write_at torn q off bytes : timeless (Fs.write_at torn q off bytes).
Proof. unfold Fs.write_at. timeless. Qed.
#[export] Hint Resolve timeless_sys timeless_ask timeless_write_at : fabric.
Lemma timeless_create_dir_all p : timeless (Fs.create_dir_all p).
Proof.
  unfold Fs.create_dir_all. generalize (mkPath (p_absolute p) []). induction (p_components p) as [|c cs IH]; intros above; cbn [Fs.create_dirs];
    unfold Fs.create_dir; timeless.
Qed.
Lemma timeless_exists {E} p : timeless (E := E) (Fs.exists_ p).
Proof. unfold Fs.exists_, Fs.test, Fs.metadata. timeless. Qed.
Lemma timeless_read_text {E} p : timeless (E := E) (read_text p).
Proof. unfold read_text, Fs.read. timeless. Qed.
#[export] Hint Resolve timeless_create_dir_all timeless_exists timeless_read_text : fabric.

Section Signals.
Context (to_vec_pretty : gmap string ProcessRecord -> option string) (torn : string -> string) (working_directory : Path) (state_path : option Path).

Lemma timeless_readiness fuel log_path spec : timeless (readiness_loop working_directory fuel log_path spec).
Proof.
  revert spec. induction fuel as [|fuel IH]; intros spec; cbn [readiness_loop]; [timeless|].
  assert (forall l, timeless (every_probe (readiness_loop working_directory fuel log_path) l)) as Hl.
  { induction l as [|p l IHl]; cbn [every_probe]; timeless. }
  unfold connect, on_disk. timeless.
Qed.
Lemma timeless_refresh {E} r : timeless (E := E) (refresh working_directory r).
Proof. unfold refresh, probe, readiness_once, process_is_alive. pose proof timeless_readiness. timeless. Qed.
Lemma timeless_persist : timeless (persist to_vec_pretty torn state_path).
Proof. unfold persist, write_state, state_io, on_disk, Fs.open_new, Fs.rename. timeless. Qed.
Lemma timeless_get_process id : timeless (get_process to_vec_pretty torn working_directory state_path id).
Proof. unfold get_process, find_record, put_record. pose proof @timeless_refresh. pose proof timeless_persist. timeless. Qed.

Lemma wait_loop_ends fuel id deadline s w r s' w' :
  deadline <= o_at (w_instant w) (o_next (w_instant w) + fuel) ->
  wait_loop to_vec_pretty torn working_directory state_path (S fuel) id deadline s w = (r, s', w') -> r <> Ok None.
Proof.
  revert s w. induction fuel as [|fuel IH]; intros s w Hd H; cbn [wait_loop] in H; apply bind_cases in H as (r1 & s1 & w1 & H1 & H);
    apply timeless_get_process in H1; (destruct r1 as [record|]; [|by destruct H as (-> & _)]);
    (case_match eqn:C1; [unfold ret in H; by injection H as <- _ _|]); (case_match eqn:C2; [unfold fail in H; by injection H as <- _ _|]);
    (case_match eqn:C3; [unfold fail in H; by injection H as <- _ _|]); apply bind_cases in H as (r2 & s2 & w2 & H2 & H);
    unfold instant_now in H2; injection H2 as <- <- <-; (case_match eqn:C4; [unfold fail in H; by injection H as <- _ _|]).
  - apply Z.leb_gt in C4. unfold peek in C4. rewrite H1 in C4. rewrite Nat.add_0_r in Hd. lia.
  - eapply IH; [|exact H]. cbn. rewrite H1. by rewrite <- Nat.add_succ_r.
Qed.

(** a wait for readiness ends: when the monotonic clock shows the deadline at its [n]-th reading after the wait began, [n] turns of the loop are enough for an answer or an error, whatever the process, its probes and the disk do. *)
Theorem wait_ready_ends n id timeout_ms s w r s' w' :
  o_at (w_instant w) (o_next (w_instant w)) + Z.max timeout_ms 1 <= o_at (w_instant w) (o_next (w_instant w) + n) ->
  wait_ready to_vec_pretty torn working_directory state_path n id timeout_ms s w = (r, s', w') -> r <> Ok None.
Proof.
  intros Hd H. unfold wait_ready in H. apply bind_cases in H as (r1 & s1 & w1 & H1 & H). unfold instant_now in H1. injection H1 as <- <- <-.
  destruct n as [|n]; [rewrite Nat.add_0_r in Hd; lia|]. eapply wait_loop_ends; [|exact H]. cbn. by rewrite <- Nat.add_succ_r.
Qed.

(** ** Restarting *)

(** The processes and groups that exist, and the groups that were signalled *)
Definition host_view (s : ProcessWorld) : gset Z * gset Z * list Z :=
  (h_processes (pw_host s), h_groups (pw_host s), h_signalled (pw_host s)).

Lemma refresh_host {E} r : fixes host_view (refresh (E := E) working_directory r).
Proof.
  apply refresh_fixes.
  - intros E' s w res s' w'. unfold connect. munfold. by intros [= <- <- <-].
  - intros E' A m _ s w res s' w'. unfold on_disk, zoom. destruct (m (pw_volume s) w) as [[r1 v] w1]. by intros [= <- <- <-].
Qed.
Lemma persist_host : fixes host_view (persist to_vec_pretty torn state_path).
Proof.
  unfold persist. destruct state_path as [p|]; [|fixes]. fixes. intros s w res s' w'. unfold on_disk, zoom.
  destruct (write_state _ _ _ _ _) as [[r1 v] w1]. by intros [= <- <- <-].
Qed.

(** What a refresh leaves of a record, and when it finds the process running *)
Record same_launch (r r' : ProcessRecord) : Prop := mk_same_launch {
  sl_pid : pr_pid r' = pr_pid r; sl_cwd : pr_cwd r' = pr_cwd r; sl_argv : pr_argv r' = pr_argv r; sl_env : pr_env r' = pr_env r;
  sl_log : pr_log_path r' = pr_log_path r; sl_spec : pr_readiness_spec r' = pr_readiness_spec r;
  sl_restartable : pr_restartable r' = pr_restartable r; sl_metadata : pr_metadata r' = pr_metadata r;
}.
Definition alive (s : ProcessWorld) (r : ProcessRecord) : Prop := pr_state r = Running /\ pr_pid r ∈ h_processes (pw_host s).

Lemma refresh_same {E} r s w r' s' w' :
  refresh (E := E) working_directory r s w = (Ok r', s', w') -> same_launch r r' /\ (pr_state r' = Running <-> alive s r).
Proof.
  intros H. unfold refresh in H. unfold alive. destruct (bool_decide_reflect (pr_state r = Running)) as [Hr|Hr]; cbn [negb] in H.
  2:{ unfold ret in H. injection H as <- _ _. split; [done|]. naive_solver. }
  mstep H al s1 w1 H1. unfold process_is_alive, gets in H1. injection H1 as <- <- <-. destruct (bool_decide_reflect (pr_pid r ∈ h_processes (pw_host s))) as [Hp|Hp]; cbn [negb] in H.
  - case_bool_decide as Hpe; [|unfold ret in H; by injection H as <- _ _].
    apply probe_run in H as (st & at_ & now & _ & [= ->]). by split.
  - munfold. injection H as <- _ _. split; [done|]. naive_solver.
Qed.
Lemma get_process_old id s w r s' w' :
  get_process to_vec_pretty torn working_directory state_path id s w = (Ok r, s', w') ->
  exists old, pw_records s !! id = Some old /\ pw_records s' !! id = Some r /\ host_view s' = host_view s /\ same_launch old r /\ (pr_state r = Running <-> alive s old).
Proof.
  intros H. unfold get_process in H. mstep H old s1 w1 H1. apply find_record_run in H1 as (-> & -> & Hf). exists old. split; [by apply Hf|].
  mstep H r1 s2 w2 H2. pose proof (refresh_host _ _ _ _ _ _ H2) as Eh. apply refresh_same in H2 as [Hl Ha].
  mstep H u s3 w3 H3. unfold put_record, modify in H3. injection H3 as <- <- <-. mstep H u s4 w4 H4. pose proof (persist_host _ _ _ _ _ H4) as Eh4. apply persist_quiet in H4.
  unfold ret in H. injection H as <- <- _. rewrite H4. split_and!; [apply lookup_insert_eq|by rewrite Eh4|done..].
Qed.

Lemma stop_process_cases pid s w r s' w' :
  stop_process pid s w = (r, s', w') ->
  pw_records s' = pw_records s /\
  (is_err r = true /\ host_view s' = host_view s \/ r = Ok tt /\ (h_signalled (pw_host s') = pid :: h_signalled (pw_host s) \/ pid ∉ h_groups (pw_host s))).
Proof.
  unfold stop_process. munfold. destruct (bool_decide_reflect (pid ∈ h_groups (pw_host s))); [destruct (peek (w_io w))|]; intros [= <- <- <-]; (split; [done|]); auto.
Qed.

(** What a stop does to the record and to the groups, even when it does not answer *)
Lemma stop_effect id record s w (r : result RpcError ProcessRecord) s' w' :
  pw_records s !! id = Some record -> stop to_vec_pretty torn state_path id s w = (r, s', w') ->
  (pw_records s' !! id = Some record /\ host_view s' = host_view s) \/
  (exists at_, pr_state record = Running /\ pw_records s' !! id = Some (set_state Stopped at_ record) /\
    (h_signalled (pw_host s') = pr_pid record :: h_signalled (pw_host s) \/ pr_pid record ∉ h_groups (pw_host s))).
Proof.
  intros Hf H. unfold stop in H. apply bind_cases in H as (r1 & s1 & w1 & H1 & H). unfold find_record, bind, gets, lift in H1. rewrite Hf in H1. cbn in H1. injection H1 as <- <- <-.
  apply bind_cases in H as (r2 & s2 & w2 & H2 & H). assert (pw_records s' = pw_records s2 /\ host_view s' = host_view s2) as [-> Eh].
  { destruct r2 as [x|]; [|by destruct H as (_ & -> & _)]. apply bind_cases in H as (r3 & s3 & w3 & H3 & H). pose proof (persist_host _ _ _ _ _ H3) as <-.
    apply persist_quiet in H3 as <-. destruct r3; [unfold ret in H; by injection H as _ <- _|by destruct H as (_ & -> & _)]. }
  clear H. destruct (bool_decide_reflect (pr_state record = Running)) as [Hr|]; [|unfold ret in H2; injection H2 as _ <- _; by left].
  apply bind_cases in H2 as (r3 & s3 & w3 & H3 & H2). apply stop_process_cases in H3 as (E3 & [[He Eh3]|[-> Hg]]).
  - destruct r3; [done|]. destruct H2 as (_ & -> & _). left. by rewrite E3, Eh, Eh3.
  - munfold. injection H2 as _ <- _. right. exists (peek (w_wall w3)). cbn. rewrite E3, lookup_insert_eq. split_and!; [done..|].
    unfold host_view in Eh. injection Eh as _ _ ->. exact Hg.
Qed.

Lemma start_ok id cwd argv env log_path readiness restartable metadata s w r s' w' :
  start to_vec_pretty torn state_path id cwd argv env log_path readiness restartable metadata s w = (Ok r, s', w') ->
  pr_state <$> pw_records s !! id <> Some Running /\ pw_records s' !! id = Some r /\ launched id r /\ h_signalled (pw_host s') = h_signalled (pw_host s) /\
  pr_cwd r = cwd /\ pr_argv r = argv /\ pr_env r = env /\ pr_log_path r = log_path /\ pr_readiness_spec r = readiness /\
  pr_restartable r = restartable /\ pr_metadata r = metadata.
Proof.
  intros H. unfold start in H. case_bool_decide as Hargv; [done|]. mstep H m s1 w1 H1. unfold gets in H1. injection H1 as <- <- <-.
  case_bool_decide as Hid; [done|]. split; [done|]. unfold launch in H. mstep H u2 s2 w2 H2. mstep H u3 s3 w3 H3. mstep H u4 s4 w4 H4. mstep H kid s5 w5 H5.
  assert (h_signalled (pw_host s5) = h_signalled (pw_host s)) as Es.
  { assert (forall A (m : M Volume RpcError A), fixes (fun x => h_signalled (pw_host x)) (on_disk m)) as Hd.
    { intros A m x y z x' y'. unfold on_disk, zoom. destruct (m (pw_volume x) y) as [[a v] y1]. by intros [= <- <- <-]. }
    unfold log_io in *. apply Hd in H3, H4. assert (h_signalled (pw_host s2) = h_signalled (pw_host s)) as H2' by (destruct (path_parent log_path); [by apply Hd in H2|unfold ret in H2; by injection H2 as _ <- _]).
    unfold spawn in H5. munfold. destruct (peek (w_io w4)); injection H5 as _ <- _; cbn; congruence. }
  destruct kid as [pid|]; [|done]. mstep H tm s6 w6 H6. unfold now_ms in H6. injection H6 as <- <- <-. mstep H u7 s7 w7 H7. unfold put_record, modify in H7. injection H7 as <- <- <-.
  mstep H u8 s8 w8 H8. pose proof (persist_host _ _ _ _ _ H8) as Eh. apply persist_quiet in H8. unfold ret in H. injection H as <- <- _. unfold host_view in Eh. injection Eh as _ _ Eh.
  rewrite H8, Eh. cbn. split_and!; [apply lookup_insert_eq| |done..].
  constructor; cbn; [done..| |done]. destruct readiness; cbn; split; intros []; (done || by eexists).
Qed.

(** a restart that answers has asked the old process to end before it started the new one: the record of the identifier was restartable, and its process was not running, did not exist, led no group that exists, or is the one process group that was signalled; the new record is that of a process just launched with the directory, command, environment, log, probes and metadata of the old one. *)
Theorem restart_ends_first id s w r s' w' :
  restart to_vec_pretty torn working_directory state_path id s w = (Ok r, s', w') ->
  exists old, pw_records s !! id = Some old /\ pr_restartable old = true /\ pw_records s' !! id = Some r /\ launched id r /\
    pr_cwd r = pr_cwd old /\ pr_argv r = pr_argv old /\ pr_env r = pr_env old /\ pr_log_path r = pr_log_path old /\
    pr_readiness_spec r = pr_readiness_spec old /\ pr_metadata r = pr_metadata old /\
    (~ alive s old \/ pr_pid old ∉ h_groups (pw_host s) \/ h_signalled (pw_host s') = pr_pid old :: h_signalled (pw_host s)).
Proof.
  intros H. unfold restart in H. mstep H cur s1 w1 H1. apply get_process_old in H1 as (old & Hold & Hcur & Eh1 & Hsame & Halive).
  destruct (negb (pr_restartable cur) || _) eqn:C1; [done|]. apply orb_false_elim in C1 as [C1 _]. apply negb_false_iff in C1.
  mstep H u s2 w2 H2. apply attempt_cases in H2 as (r2 & _ & H2). apply start_ok in H as (Hid & Hr & Hl & Es & Hcwd & Hargv & Henv & Hlog & Hspec & _ & Hmeta).
  destruct Hsame. exists old. split_and!; try (done || congruence). unfold host_view in Eh1. injection Eh1 as _ Eg Eh1. rewrite Es.
  apply (stop_effect id cur) in H2 as [[Hf Eh2]|(at_ & Hrun & Hf & Hg)]; [| |done].
  - left. rewrite <- Halive. intros Hc. apply Hid. by rewrite Hf, <- Hc.
  - right. rewrite sl_pid0, Eh1, Eg in Hg. naive_solver.
Qed.
End Signals.
