(* ===== verification/ProcessRuns.v ===== *)
(** * Managed processes: runs

    A table of one process on which the theorems apply, a serialization of the
    tables of these runs, and runs that show what the table takes on trust. *)
From Stdlib Require Import Ascii.
From stdpp Require Import base gmap strings list sorting pretty relations.
From S2P Require Import Prelude Json Protocol PathPolicy FileTree FileTreeLaws Generations ArtifactRelay TreeDigest Utf8 ProcessTable ProcessSafety ProcessDisk ProcessSignals GenerationSafety.
Open Scope Z_scope.
Open Scope fabric_scope.

(** ** Comparing the records of the runs, whose values are texts and objects of texts *)

Definition text_pair_eqb (a b : string * Value) : bool :=
  String.eqb a.1 b.1 && match a.2, b.2 with VString x, VString y => String.eqb x y | _, _ => false end.
Definition flat_eqb (a b : Value) : bool :=
  match a, b with
  | VNull, VNull => true
  | VObject l, VObject m => Nat.eqb (length l) (length m) && forallb (fun p => text_pair_eqb p.1 p.2) (zip l m)
  | _, _ => false
  end.
Definition spec_eqb (a b : option Value) : bool := match a, b with Some x, Some y => flat_eqb x y | None, None => true | _, _ => false end.
Lemma flat_eqb_eq a b : flat_eqb a b = true -> a = b.
Proof.
  destruct a as [| | | |l|l], b as [| | | |m|m]; cbn; try done. intros [Hl%Nat.eqb_eq H]%andb_true_iff. f_equal.
  revert m Hl H. induction l as [|[k x] l IH]; intros [|[k' y] m] Hl H; try done. cbn in *. apply andb_true_iff in H as [H Hr].
  unfold text_pair_eqb in H. cbn in H. apply andb_true_iff in H as [->%String.eqb_eq Hx]. destruct x, y; try done. apply String.eqb_eq in Hx as ->. f_equal. apply IH; [lia|done].
Qed.
Lemma spec_eqb_eq a b : spec_eqb a b = true -> a = b.
Proof. destruct a, b; cbn; try done. by intros ->%flat_eqb_eq. Qed.

#[export] Instance ReadinessStatus_eq_dec : EqDecision ReadinessStatus.
Proof. solve_decision. Defined.
Definition record_eqb (a b : ProcessRecord) : bool :=
  bool_decide (pr_id a = pr_id b) && bool_decide (pr_pid a = pr_pid b) && bool_decide (pr_identity_verified a = pr_identity_verified b) &&
  bool_decide (pr_observed_at a = pr_observed_at b) && bool_decide (pr_cwd a = pr_cwd b) && bool_decide (pr_argv a = pr_argv b) &&
  bool_decide (pr_env a = pr_env b) && bool_decide (pr_restartable a = pr_restartable b) && flat_eqb (pr_metadata a) (pr_metadata b) &&
  bool_decide (pr_log_path a = pr_log_path b) && bool_decide (pr_state a = pr_state b) && bool_decide (pr_readiness a = pr_readiness b) &&
  spec_eqb (pr_readiness_spec a) (pr_readiness_spec b) && bool_decide (pr_readiness_deadline_at a = pr_readiness_deadline_at b) &&
  bool_decide (pr_started_at a = pr_started_at b) && bool_decide (pr_updated_at a = pr_updated_at b) &&
  bool_decide (pr_last_successful_probe_at a = pr_last_successful_probe_at b).
Lemma record_eqb_eq a b : record_eqb a b = true -> a = b.
Proof.
  unfold record_eqb. rewrite !andb_true_iff, !bool_decide_eq_true. intros H. decompose [and] H.
  destruct a, b; cbn in *. f_equal; auto using flat_eqb_eq, spec_eqb_eq.
Qed.
Definition table_eqb (a b : gmap string ProcessRecord) : bool :=
  Nat.eqb (length (btree_entries a)) (length (btree_entries b)) &&
  forallb (fun p => String.eqb p.1.1 p.2.1 && record_eqb p.1.2 p.2.2) (zip (btree_entries a) (btree_entries b)).
Lemma table_eqb_eq a b : table_eqb a b = true -> a = b.
Proof.
  unfold table_eqb. intros [Hl%Nat.eqb_eq H]%andb_true_iff. rewrite <- (list_to_map_btree_entries a), <- (list_to_map_btree_entries b). f_equal.
  revert Hl H. generalize (btree_entries b). induction (btree_entries a) as [|[k r] l IH]; intros [|[k' r'] m] Hl H; try done. cbn in *.
  apply andb_true_iff in H as [[->%String.eqb_eq ->%record_eqb_eq]%andb_true_iff H]. f_equal. apply IH; [lia|done].
Qed.

(** ** A serialization of the tables of a list *)

Section Sample.
Context (tables : list (gmap string ProcessRecord)).

Definition sample_text (m : gmap string ProcessRecord) : option string := unary <$> position (table_eqb m) tables.
Definition sample_table (text : string) : option (gmap string ProcessRecord) := tables !! (String.length text - 1)%nat.

Lemma unary_length n : String.length (unary n) = n.
Proof. induction n as [|n IH]; cbn; lia. Qed.
Lemma sample_reads_back m bytes : sample_text m = Some bytes -> sample_table (bytes +:+ newline) = Some m.
Proof.
  unfold sample_text, sample_table. destruct (position (table_eqb m) tables) as [i|] eqn:Hi; [|done]. cbn. intros [= <-].
  rewrite string_length_app, unary_length. cbn. rewrite Nat.add_sub. apply position_Some in Hi as (t & Ht & Heq & _). apply table_eqb_eq in Heq as ->. exact Ht.
Qed.
End Sample.

(** ** A running server and what is on the disk *)

Definition up_spec : Value := VObject [("type", VString "file"); ("path", VString "/data/up")].
Definition web_record : ProcessRecord :=
  mkProcessRecord "web" 100 true (Some 1) (at_ ["data"]) ["serve"] ∅ true VNull (at_ ["data"; "web.log"]) Running (mkReadinessStatus Pending 0)
    (Some up_spec) (Some 900) 1 1 None.
Definition web_table : gmap string ProcessRecord := {["web" := web_record]}.
Definition web_tree (saved_text : string) : Tree := list_to_map
  [([], EDir 493); (["data"], EDir 493); (["state"], EDir 493); (["state"; "processes.json"], EFile 420 saved_text)].
Definition web_host (processes groups : gset Z) : Host :=
  mkHost processes groups [] (mkOracle (fun n => 200 + Z.of_nat n) 0) (mkOracle (fun _ => Some false) 0).
Definition web_world (h : Host) : ProcessWorld := mkProcessWorld web_table (mkVolume (web_tree newline) 18 []) h.
Definition running_host : Host := web_host {[100]} {[100]}.
Definition web_stopped (at_ : Z) : gmap string ProcessRecord := {["web" := set_state Stopped at_ web_record]}.
Definition web_tables : list (gmap string ProcessRecord) := [web_table; web_stopped 10].
Definition state_file : Path := at_ ["state"; "processes.json"].
Definition half (s : string) : string := String.substring 0 (Nat.div (String.length s) 2) s.
Definition web_op (op : Operation) := run_operation (sample_text web_tables) half (at_ ["run"]) (Some (at_ (["state"] ++ ["processes.json"]))) op.
Definition web_open := ProcessTable.open (sample_text web_tables) (sample_table web_tables) half (at_ ["run"]) (Some (at_ (["state"] ++ ["processes.json"]))).

Lemma web_record_ok : record_ok "web" web_record.
Proof. constructor; cbn; try done; try (split; [done|by intros []]); try (split; intros _; by eexists); auto. Qed.
Lemma web_sound h : table_sound (sample_table web_tables) ["state"] "processes.json" (web_world h).
Proof.
  assert (records_ok web_table) as Hok by (apply map_Forall_singleton, web_record_ok). split; [exact Hok|]. split; [apply clearb_sound; vm_compute; reflexivity|].
  exists 420, newline. split; [vm_compute; reflexivity|]. exists web_table. split; [reflexivity|exact Hok].
Qed.

Definition stop_run := web_op (OpStop "web") (web_world running_host) (sample_world 10).

Lemma records_stay_ok_witness :
  is_ok stop_run.1.1 = true /\ records_ok (pw_records stop_run.1.2).
Proof.
  split; [vm_compute; reflexivity|]. destruct stop_run as [[r s'] w'] eqn:H. unfold stop_run, web_op in H.
  apply (records_stay_ok (sample_text web_tables) half (at_ ["run"]) (Some (at_ (["state"] ++ ["processes.json"]))) (OpStop "web") (web_world running_host) (sample_world 10) r s' w').
  - apply map_Forall_singleton, web_record_ok.
  - exact H.
Defined.

Lemma state_file_survives_witness :
  exists trees, vol_history (pw_volume stop_run.1.2) = trees ++ [] /\ Forall (holds ["state"] "processes.json" (good (sample_table web_tables))) trees /\ (4 <= length trees)%nat.
Proof.
  destruct stop_run as [[r s'] w'] eqn:H. assert (length (vol_history (pw_volume s')) = 4%nat) as Hl.
  { change s' with ((r, s', w').1.2). rewrite <- H. vm_compute. reflexivity. }
  unfold stop_run, web_op in H. apply (state_file_survives _ (sample_table web_tables)) in H as (trees & Ht & Hall).
  - cbn in Ht. exists trees. cbn [fst snd]. split; [exact Ht|]. split; [|rewrite Ht, app_nil_r in Hl; lia]. eapply Forall_impl; [exact Hall|]. intros t Hg. apply Hg.
  - apply sample_reads_back.
  - apply web_sound.
Defined.

Definition reopened := web_open (mkProcessWorld ∅ (pw_volume stop_run.1.2) running_host) (sample_world 50).
Lemma answered_survives_witness :
  is_ok stop_run.1.1 = true /\ is_ok reopened.1.1 = true /\ rtc life_step (pw_records stop_run.1.2) (pw_records reopened.1.2).
Proof.
  split; [vm_compute; reflexivity|]. split; [vm_compute; reflexivity|]. destruct reopened as [[r2 s2] w3] eqn:H2. unfold reopened in H2.
  assert (is_ok r2 = true) as Hok2. { change r2 with ((r2, s2, w3).1.1). rewrite <- H2. vm_compute. reflexivity. }
  destruct r2 as [[]|]; [|discriminate Hok2]. destruct stop_run as [[r1 s1] w1] eqn:H1.
  assert (is_ok r1 = true) as Hok1. { change r1 with ((r1, s1, w1).1.1). rewrite <- H1. vm_compute. reflexivity. }
  destruct r1 as [[]|]; [|discriminate Hok1]. unfold stop_run, web_op in H1.
  apply (answered_survives (sample_text web_tables) (sample_table web_tables) half (at_ ["run"]) ["state"] "processes.json" (sample_reads_back web_tables)
    (OpStop "web") (web_world running_host) (sample_world 10) s1 w1 running_host (sample_world 50) s2 w3).
  - reflexivity.
  - apply web_sound.
  - exact H1.
  - reflexivity.
  - exact H2.
Defined.

(** ** Restarting and waiting, with no state file *)

Definition free_restart := restart (fun _ => None) half (at_ ["run"]) None "web" (web_world running_host) (sample_world 10).
Lemma restart_ends_first_witness :
  is_ok free_restart.1.1 = true /\
  (~ alive (web_world running_host) web_record \/ pr_pid web_record ∉ h_groups running_host \/ h_signalled (pw_host free_restart.1.2) = [100]).
Proof.
  split; [vm_compute; reflexivity|]. destruct free_restart as [[r s'] w'] eqn:H. unfold free_restart in H.
  assert (is_ok r = true) as Hok. { change r with ((r, s', w').1.1). rewrite <- H. vm_compute. reflexivity. }
  destruct r as [r|]; [|discriminate Hok]. apply restart_ends_first in H as (old & Hold & _ & _ & _ & _ & _ & _ & _ & _ & _ & Hs).
  assert (old = web_record) as -> by (vm_compute in Hold; injection Hold as <-; reflexivity). exact Hs.
Defined.

Lemma wait_ready_ends_witness :
  0 + Z.max 5 1 <= 0 + 5 /\ (wait_ready (fun _ => None) half (at_ ["run"]) None 5 "web" 5 (web_world running_host) (sample_world 0)).1.1 <> Ok None.
Proof.
  split; [lia|]. destruct (wait_ready _ _ _ _ _ _ _ _ _) as [[r s'] w'] eqn:H. cbn [fst].
  apply (wait_ready_ends (fun _ => None) half (at_ ["run"]) None 5 "web" 5 (web_world running_host) (sample_world 0) r s' w').
  - vm_compute. discriminate.
  - exact H.
Defined.

(** ** What the table takes on trust *)

Definition ready_tables : list (gmap string ProcessRecord) :=
  [web_table; {["web" := set_readiness (mkReadinessStatus Pending 1) None 51 web_record]};
   {["web" := set_state Stopped 60 (set_readiness (mkReadinessStatus Pending 1) None 51 web_record)]}; ∅].
Definition trust_open (io : nat -> bool) (h : Host) :=
  ProcessTable.open (sample_text ready_tables) (sample_table ready_tables) half (at_ ["run"]) (Some state_file)
    (mkProcessWorld ∅ (mkVolume (web_tree newline) 18 []) h) (mkWorld (w_wall (sample_world 50)) (w_instant (sample_world 50)) (w_uuid (sample_world 0)) (mkOracle io 0)).

(** After a start of the executor the identifier of a process may name the group of another program: it is held for the process of
    the table, its identity counts as verified, and stopping the process signals that group. *)
Definition foreign_stop :=
  stop (sample_text ready_tables) half (Some state_file) "web" (trust_open (fun _ => true) (web_host {[100]} {[100]})).1.2 (sample_world 60).
Example reused_identifier_is_signalled :
  is_ok (trust_open (fun _ => true) (web_host {[100]} {[100]})).1.1 = true /\
  (match pw_records (trust_open (fun _ => true) (web_host {[100]} {[100]})).1.2 !! "web" with Some r => pr_identity_verified r | None => false end) = true /\
  is_ok foreign_stop.1.1 = true /\ h_signalled (pw_host foreign_stop.1.2) = [100].
Proof. split_and!; vm_compute; reflexivity. Qed.

(** When the file system fails to say that the state file is there, the table is empty and the file is replaced by an empty one. *)
Definition forgetful_open := trust_open (fun n => negb (Nat.eqb n 0)) (web_host {[100]} {[100]}).
Example unseen_state_is_replaced :
  is_ok forgetful_open.1.1 = true /\ btree_entries (pw_records forgetful_open.1.2) = [] /\
  vol_tree (pw_volume forgetful_open.1.2) !! ["state"; "processes.json"] = Some (EFile 420 (unary 3 +:+ newline)).
Proof. split_and!; vm_compute; reflexivity. Qed.

(** A process that has ended counts as running until its record is refreshed. *)
Example ended_process_blocks_start :
  match (start (fun _ => None) half None "web" (at_ ["data"]) ["serve"] ∅ (at_ ["data"; "web.log"]) None false VNull (web_world (web_host ∅ ∅)) (sample_world 10)).1.1 with
  | Err e => err_code e = "PROCESS_ALREADY_RUNNING"
  | Ok _ => False
  end.
Proof. vm_compute. reflexivity. Qed.
