(* ===== verification/Catalogue.v ===== *)
(** * The catalogue of capabilities ([crates/machine-fabric-runtime/src/executor.rs])

    The contracts an executor advertises ([capability_catalog], [contract] and
    [output_schema]) on each platform it is compiled for: the schema of the
    input, the templates of the locks, the fields that identify a request, the
    deadline, the compensation and the evidence of every capability. The one
    [match] of [contract] is split by the family of the capability. *)
From Stdlib Require Import Ascii.
From stdpp Require Import base gmap strings list.
From S2P Require Import Prelude Json Schema Desktop.
Open Scope Z_scope.

Inductive Platform := Linux | MacOS | Windows.
Definition is_windows (p : Platform) : bool := match p with Windows => true | _ => false end.

(** [(required, properties, locks, key_fields, timeout_ms, rollback, evidence)] *)
Record Terms := mkTerms {
  terms_required : list string;
  terms_properties : Value;
  terms_locks : list string;
  terms_key_fields : list string;
  terms_timeout_ms : Z;
  terms_rollback : RollbackStrategy;
  terms_evidence : list string;
}.

Definition typed (kind : string) : Value := obj_of [("type", VString kind)].
(** [one_of names s] with the name first, as a [match] reads *)
Local Abbreviation one_of name names := (Desktop.one_of names name).

(** ** Terms *)

Definition clipboard_terms (platform : Platform) (name : string) : option Terms :=
  if String.eqb name "clipboard.status" then
    Some (mkTerms ["clipboard"]
      (obj_of [])
      [] [] 5000 RollbackNone ["clipboard-status"])
  else if String.eqb name "clipboard.read" then
    Some (mkTerms ["clipboard"]
      (obj_of [("maxBytes", obj_of [("type", VString "integer"); ("minimum", VNumber (PosInt 1)); ("maximum", VNumber (PosInt 16777216))])])
      [] ["maxBytes"] 5000 RollbackNone ["clipboard-digest"])
  else if String.eqb name "clipboard.write" then
    Some (mkTerms ["clipboard"]
      (obj_of [("semanticDigest", typed "string"); ("content", typed "object"); ("expiresAtMs", obj_of [("type", VString "integer");
        ("minimum", VNumber (PosInt 1))]); ("maxBytes", obj_of [("type", VString "integer"); ("minimum", VNumber (PosInt 1));
        ("maximum", VNumber (PosInt 16777216))])])
      ["clipboard:${executorId}"] ["semanticDigest"] 30000 RollbackNone ["clipboard-digest"])
  else None.

Definition filesystem_terms (platform : Platform) (name : string) : option Terms :=
  if one_of name ["filesystem.resolve"; "filesystem.stat"; "filesystem.capacity"; "filesystem.read"; "filesystem.list"] then
    Some (mkTerms ["filesystem"]
      (obj_of [("path", typed "string")])
      [] ["path"] 30000 RollbackNone ["filesystem-result"])
  else if String.eqb name "filesystem.search" then
    Some (mkTerms ["filesystem"]
      (obj_of [("path", typed "string"); ("query", typed "string"); ("maxResults", obj_of [("type", VString "integer"); ("minimum", VNumber (PosInt 1))])])
      [] ["path"; "query"; "maxResults"] 60000 RollbackNone ["search-results"])
  else if String.eqb name "filesystem.write" then
    Some (mkTerms ["filesystem"]
      (obj_of [("path", typed "string"); ("content", typed "string"); ("expectedDigest", typed "string"); ("expectedAbsent", typed "boolean")])
      ["filesystem:${path}"] ["path"; "content"; "expectedDigest"; "expectedAbsent"] 30000 RollbackNone ["file-digest"])
  else if String.eqb name "filesystem.patch" then
    Some (mkTerms ["filesystem"]
      (obj_of [("path", typed "string"); ("before", typed "string"); ("after", typed "string"); ("expectedDigest", typed "string")])
      ["filesystem:${path}"] ["path"; "before"; "after"; "expectedDigest"] 30000 RollbackNone ["file-digest"])
  else if String.eqb name "filesystem.remove" then
    Some (mkTerms ["filesystem"]
      (obj_of [("path", typed "string"); ("expectedDigest", typed "string")])
      ["filesystem:${path}"] ["path"; "expectedDigest"] 30000 (RollbackCompensate "filesystem.restore") ["restore-token"])
  else if String.eqb name "filesystem.restore" then
    Some (mkTerms ["filesystem"]
      (obj_of [("path", typed "string"); ("restoreToken", typed "string")])
      ["filesystem:${path}"] ["path"; "restoreToken"] 30000 RollbackNone ["restore-result"])
  else if String.eqb name "filesystem.mkdir" then
    Some (mkTerms ["filesystem"]
      (obj_of [("path", typed "string")])
      ["filesystem:${path}"] ["path"] 30000 RollbackNone ["directory-result"])
  else if String.eqb name "command.run" then
    Some (mkTerms ["process"]
      (obj_of [("cwd", typed "string"); ("argv", obj_of [("type", VString "array"); ("items", typed "string")]); ("env", obj_of [("type", VString "object");
        ("additionalProperties", typed "string")]); ("approvalDigest", typed "string"); ("timeoutMs", obj_of [("type", VString "integer");
        ("minimum", VNumber (PosInt 1)); ("maximum", VNumber (PosInt 3600000)); ("default", VNumber (PosInt 300000))])])
      ["command:${cwd}"] ["cwd"; "argv"; "env"; "timeoutMs"] 3600000 RollbackNone ["command-result"])
  else if String.eqb name "artifact.build" then
    Some (mkTerms ["process"; "filesystem"]
      (obj_of [("cwd", typed "string"); ("argv", obj_of [("type", VString "array"); ("items", typed "string")]); ("env", obj_of [("type", VString "object");
        ("additionalProperties", typed "string")]); ("artifactPath", typed "string"); ("artifactType", typed "string"); ("approvalDigest", typed "string");
        ("timeoutMs", obj_of [("type", VString "integer"); ("minimum", VNumber (PosInt 1)); ("maximum", VNumber (PosInt 3600000));
        ("default", VNumber (PosInt 3600000))])])
      ["build:${artifactPath}"] ["cwd"; "argv"; "env"; "artifactPath"; "artifactType"; "timeoutMs"] 3600000 RollbackNone ["build-log"; "artifact-digest";
        "provenance"])
  else if String.eqb name "artifact.describe" then
    Some (mkTerms ["filesystem"]
      (obj_of [("path", typed "string")])
      [] ["path"] 600000 RollbackNone ["artifact-digest"; "provenance"])
  else None.

Definition relay_terms (platform : Platform) (name : string) : option Terms :=
  if one_of name ["artifact.relay.archive.create"; "artifact.relay.archive.read"; "artifact.relay.archive.remove"; "artifact.relay.manifest";
    "artifact.relay.read"] then
    Some (mkTerms ["filesystem"]
      (obj_of [("path", typed "string"); ("token", typed "string"); ("relativePath", typed "string"); ("offset", typed "integer"); ("limit", typed "integer")])
      [] ["path"; "relativePath"; "offset"; "limit"] 600000 RollbackNone ["artifact-relay-source"])
  else if one_of name ["artifact.relay.archive.prepare"; "artifact.relay.archive.write"; "artifact.relay.archive.commit"; "artifact.relay.prepare";
    "artifact.relay.write"; "artifact.relay.commit"] then
    Some (mkTerms ["filesystem"]
      (obj_of [("destination", typed "string"); ("staging", typed "string"); ("entries", typed "array"); ("relativePath", typed "string");
        ("offset", typed "integer"); ("data", typed "string"); ("expectedDigest", typed "string"); ("archiveSize", typed "integer"); ("size", typed "integer");
        ("files", typed "integer")])
      ["artifact-relay:${destination}"] ["destination"; "staging"] 3600000 RollbackNone ["artifact-relay-destination"])
  else if String.eqb name "artifact.pack-chromium-datapack" then
    Some (mkTerms ["chromium-datapack"]
      (obj_of [("rootPath", typed "string"); ("resourceTrees", typed "array"); ("outputRelative", typed "string"); ("platform", typed "string");
        ("arch", typed "string"); ("bundleName", typed "string"); ("basePackPath", typed "string"); ("basePackDigest", typed "string");
        ("changedPrefixes", obj_of [("type", VString "array"); ("items", typed "string")])])
      ["datapack:${rootPath}/${outputRelative}"] ["rootPath"; "resourceTrees";
        "outputRelative"] 3600000 RollbackRetainPreviousGeneration ["packed-resource-digest"; "packed-resource-manifest"])
  else None.

Definition application_terms (platform : Platform) (name : string) : option Terms :=
  if String.eqb name "application.materialize" then
    Some (mkTerms ["filesystem-copy"]
      (obj_of [("generationRoot", typed "string"); ("generationId", typed "string"); ("baselinePath", typed "string")])
      ["generation:${generationRoot}/${generationId}"] ["generationRoot"; "generationId";
        "baselinePath"] 3600000 RollbackRetainPreviousGeneration ["generation-marker"; "baseline-identity"])
  else if String.eqb name "application.apply-artifacts" then
    Some (mkTerms ["filesystem-copy"]
      (obj_of [("applicationPath", typed "string"); ("overlays", typed "array")])
      ["application:${applicationPath}"] ["applicationPath"; "overlays"] 3600000 RollbackRetainPreviousGeneration ["applied-artifacts"; "generation-marker"])
  else if String.eqb name "application.finalize" then
    Some (mkTerms ["macos-codesign"]
      (obj_of [("applicationPath", typed "string"); ("identity", typed "string"); ("signingKeychain", typed "string");
        ("signingKeychainPasswordFile", typed "string"); ("units", typed "array")])
      ["application:${applicationPath}"] ["applicationPath"; "units"; "identity"] 600000 RollbackRetainPreviousGeneration ["signature-verification"])
  else if String.eqb name "application.activate" then
    Some (mkTerms ["atomic-symlink"]
      (obj_of [("generationRoot", typed "string"); ("generationId", typed "string"); ("fence", typed "integer")])
      ["activation:${generationRoot}/current"] ["generationRoot"; "generationId"] 30000 RollbackRetainPreviousGeneration ["activation-record"])
  else if one_of name ["application.generation.record"; "application.runtime.record"] then
    Some (mkTerms ["filesystem"]
      (obj_of [("generationRoot", typed "string"); ("generationId", typed "string"); ("state", typed "string"); ("evidence", typed "object");
        ("runtimeMarker", obj_of [])])
      ["generation:${generationRoot}/${generationId}"] ["generationRoot"; "generationId"; "state";
        "evidence"] 30000 RollbackRetainPreviousGeneration ["generation-record"])
  else if String.eqb name "application.inspect" then
    Some (mkTerms [(if is_windows platform then "windows-application" else "macos-application")]
      (obj_of [("applicationPath", typed "string")])
      [] ["applicationPath"] 30000 RollbackNone ["application-identity"])
  else if String.eqb name "application.launch" then
    Some (mkTerms [(if is_windows platform then "windows-application" else "macos-application")]
      (obj_of [("applicationPath", typed "string"); ("bundleIdentifier", typed "string"); ("args", obj_of [("type", VString "array"); ("items", typed "string")]);
        ("env", obj_of [("type", VString "object"); ("additionalProperties", typed "string")]); ("userDataDir", typed "string");
        ("chromiumLocalStatePatch", typed "object"); ("browserExecutableRelative", typed "string"); ("runtimeShadowDir", typed "string");
        ("chromiumLocalStatePath", typed "string"); ("chromiumLocalStateSettleMs", obj_of [("type", VString "integer"); ("minimum", VNumber (PosInt 0));
        ("maximum", VNumber (PosInt 30000))]); ("file", typed "string"); ("remoteDebuggingPort", typed "integer");
        ("terminateConflictingInstances", typed "boolean")])
      ["application-instance:${bundleIdentifier}"; "debug-port:${remoteDebuggingPort}"] ["applicationPath"; "bundleIdentifier"; "args"; "env";
        "terminateConflictingInstances"] 120000 (RollbackCompensate "process.stop") ["process"; "readiness"])
  else if String.eqb name "application.open-file" then
    Some (mkTerms [(if is_windows platform then "windows-shell" else "launch-services")]
      (obj_of [("applicationPath", typed "string"); ("file", typed "string"); ("handlerPath", typed "string")])
      ["application-instance:${applicationPath}"] ["applicationPath"; "file"] 30000 RollbackNone ["open-result"])
  else if String.eqb name "application.stop" then
    Some (mkTerms [(if is_windows platform then "windows-application" else "macos-application")]
      (obj_of [("applicationPath", typed "string")])
      ["application-instance:${applicationPath}"] ["applicationPath"] 30000 RollbackNone ["stop-result"])
  else None.

Definition ui_terms (platform : Platform) (name : string) : option Terms :=
  if String.eqb name "ui.inspect" then
    Some (mkTerms ["cdp"]
      (obj_of [("remoteDebuggingPort", typed "integer")])
      [] [] 30000 RollbackNone ["ui-snapshot"])
  else if String.eqb name "ui.evaluate" then
    Some (mkTerms ["cdp"]
      (obj_of [("remoteDebuggingPort", typed "integer"); ("targetUrlPrefix", typed "string"); ("expression", typed "string")])
      [] ["remoteDebuggingPort"; "targetUrlPrefix"; "expression"] 30000 RollbackNone ["evaluation-result"])
  else if String.eqb name "ui.automate" then
    Some (mkTerms ["cdp"]
      (obj_of [("remoteDebuggingPort", typed "integer"); ("targetUrlPrefix", typed "string"); ("method", typed "string"); ("params", typed "object")])
      ["ui-target:${remoteDebuggingPort}"] ["remoteDebuggingPort"; "targetUrlPrefix"; "method"; "params"] 30000 RollbackNone ["automation-result"])
  else if String.eqb name "ui.capture" && negb (is_windows platform) then
    Some (mkTerms ["cdp"]
      (obj_of [("remoteDebuggingPort", typed "integer"); ("targetUrlPrefix", typed "string"); ("output", typed "string")])
      [] ["remoteDebuggingPort"; "targetUrlPrefix"; "output"] 30000 RollbackNone ["screenshot"])
  else if String.eqb name "ui.capture" && is_windows platform then
    Some (mkTerms ["windows-desktop"; "printwindow"]
      (obj_of [("applicationPath", typed "string"); ("expectedWindowTitle", typed "string"); ("output", typed "string")])
      [] ["applicationPath"; "expectedWindowTitle"; "output"] 30000 RollbackNone ["screenshot"; "capture-backend"; "window-bounds"])
  else if String.eqb name "ui.native-inspect" then
    Some (mkTerms [(if is_windows platform then "windows-accessibility" else "macos-accessibility")]
      (obj_of [("applicationPath", typed "string"); ("requestPermission", typed "boolean"); ("expectedWindowTitle", typed "string");
        ("recoveryInspection", typed "boolean"); ("_desktop", obj_of [("type", VString "object"); ("properties", obj_of [("owner", typed "string");
        ("token", typed "string")]); ("required", VArray [VString "owner"; VString "token"]); ("additionalProperties", VBool false)])])
      [] ["applicationPath"] 30000 RollbackNone ["native-window-tree"; "accessibility-trust"])
  else None.

Definition process_terms (platform : Platform) (name : string) : option Terms :=
  if String.eqb name "process.start" then
    Some (mkTerms ["process"]
      (obj_of [("processId", typed "string"); ("cwd", typed "string"); ("argv", obj_of [("type", VString "array"); ("items", typed "string")]);
        ("env", obj_of [("type", VString "object"); ("additionalProperties", typed "string")]); ("logPath", typed "string"); ("readiness", typed "object")])
      ["process:${processId}"] ["processId"; "argv"; "cwd"] 30000 (RollbackCompensate "process.stop") ["process-record"; "readiness"])
  else if one_of name ["process.get"; "process.stop"; "process.events"; "logs.read"] then
    Some (mkTerms ["process"]
      (obj_of [("processId", typed "string"); ("tail", typed "integer")])
      (if String.eqb name "process.stop" then ["process:${processId}"] else []) ["processId"] 30000 RollbackNone ["process-record"])
  else if String.eqb name "process.list" then
    Some (mkTerms ["process"]
      (obj_of [])
      [] [] 30000 RollbackNone ["process-list"])
  else if String.eqb name "port.check" then
    Some (mkTerms ["network"]
      (obj_of [("port", obj_of [("type", VString "integer"); ("minimum", VNumber (PosInt 1)); ("maximum", VNumber (PosInt 65535))])])
      [] ["port"] 30000 RollbackNone ["port-status"])
  else None.

Definition tunnel_terms (platform : Platform) (name : string) : option Terms :=
  if String.eqb name "tunnel.ensure" then
    Some (mkTerms ["network"; "process"]
      (obj_of [("tunnelId", typed "string"); ("sshHost", typed "string"); ("direction", typed "string"); ("bindHost", typed "string");
        ("bindPort", obj_of [("type", VString "integer"); ("minimum", VNumber (PosInt 1)); ("maximum", VNumber (PosInt 65535))]); ("targetHost", typed "string");
        ("targetPort", obj_of [("type", VString "integer"); ("minimum", VNumber (PosInt 1)); ("maximum", VNumber (PosInt 65535))]); ("cwd", typed "string");
        ("workspaceSessionId", typed "string"); ("knownHostsFile", typed "string"); ("logPath", typed "string")])
      ["tunnel:${tunnelId}"; "bind:${bindHost}:${bindPort}"] ["tunnelId"; "sshHost"; "direction"; "bindHost"; "bindPort"; "targetHost"; "targetPort";
        "cwd"] 30000 (RollbackCompensate "tunnel.stop") ["tunnel-record"; "readiness"])
  else if one_of name ["tunnel.get"; "tunnel.stop"] then
    Some (mkTerms ["network"; "process"]
      (obj_of [("tunnelId", typed "string")])
      ["tunnel:${tunnelId}"] ["tunnelId"] 30000 RollbackNone ["tunnel-record"])
  else if String.eqb name "tunnel.list" then
    Some (mkTerms ["network"; "process"]
      (obj_of [])
      [] [] 30000 RollbackNone ["tunnel-list"])
  else if String.eqb name "agent.start" then
    Some (mkTerms ["process"; "agent-runtime"]
      (obj_of [("agentId", typed "string"); ("role", typed "string"); ("cwd", typed "string"); ("argv", obj_of [("type", VString "array");
        ("items", typed "string")]); ("env", obj_of [("type", VString "object"); ("additionalProperties", typed "string")]); ("logPath", typed "string");
        ("readiness", typed "object")])
      ["agent:${agentId}"] ["agentId"; "role"; "cwd"; "argv"] 60000 (RollbackCompensate "agent.stop") ["agent-process"; "readiness"])
  else if String.eqb name "agent.stop" then
    Some (mkTerms ["process"; "agent-runtime"]
      (obj_of [("agentId", typed "string")])
      ["agent:${agentId}"] ["agentId"] 30000 RollbackNone ["agent-process"])
  else None.

(** ** Contracts *)

Definition no_terms : Terms := mkTerms [] (obj_of []) [] [] 30000 RollbackNone [].
Definition first_of {A} (l : list (option A)) (a : A) : A := default a (head (omap id l)).
Definition terms_of (platform : Platform) (name : string) : Terms :=
  first_of ((fun terms => terms platform name) <$>
    [clipboard_terms; filesystem_terms; relay_terms; application_terms; ui_terms; process_terms; tunnel_terms]) no_terms.

Definition optional_fields : list string :=
  ["mode"; "identity"; "fence"; "remoteDebuggingPort"; "targetUrlPrefix"; "requestPermission"; "maxResults"; "env"; "logPath"; "readiness";
   "tail"; "fence"; "approvalDigest"; "workspaceSessionId"; "knownHostsFile"].
Definition capability_optional_fields (name : string) : list string :=
  if String.eqb name "artifact.pack-chromium-datapack" then
    ["platform"; "arch"; "bundleName"; "basePackPath"; "basePackDigest"; "changedPrefixes"]
  else if one_of name ["application.generation.record"; "application.runtime.record"] then ["evidence"; "runtimeMarker"]
  else if String.eqb name "application.finalize" then ["signingKeychain"; "signingKeychainPasswordFile"]
  else if String.eqb name "application.launch" then
    ["env"; "userDataDir"; "chromiumLocalStatePatch"; "browserExecutableRelative"; "runtimeShadowDir"; "chromiumLocalStatePath";
     "chromiumLocalStateSettleMs"; "file"]
  else if String.eqb name "filesystem.write" then ["expectedDigest"; "expectedAbsent"]
  else if String.eqb name "application.open-file" then ["handlerPath"]
  else if String.eqb name "ui.native-inspect" then ["requestPermission"; "expectedWindowTitle"; "recoveryInspection"; "_desktop"]
  else [].

(** The keys of an object *)
Definition object_keys (v : Value) : list string := match as_object v with Some m => m.*1 | None => [] end.
Definition schema_required (name : string) (properties : Value) : list string :=
  List.filter (fun key => negb (existsb (String.eqb key) optional_fields || existsb (String.eqb key) (capability_optional_fields name))) (object_keys properties).

(** [output_schema] *)
Definition output_properties (name : string) : Value :=
  if String.eqb name "filesystem.resolve" then obj_of [("path", typed "string"); ("exists", typed "boolean")]
  else if String.eqb name "filesystem.stat" then obj_of [("path", typed "string"); ("exists", typed "boolean"); ("kind", typed "string");
    ("size", typed "integer"); ("digest", obj_of [("type", VArray [VString "string"; VString "null"])])]
  else if String.eqb name "filesystem.capacity" then obj_of [("path", typed "string"); ("availableBytes", obj_of [("type", VString "integer");
    ("minimum", VNumber (PosInt 0))]); ("freeBytes", obj_of [("type", VString "integer"); ("minimum", VNumber (PosInt 0))]);
    ("totalBytes", obj_of [("type", VString "integer"); ("minimum", VNumber (PosInt 0))])]
  else if String.eqb name "filesystem.read" then obj_of [("path", typed "string"); ("content", typed "string"); ("digest", typed "string");
    ("size", typed "integer")]
  else if String.eqb name "filesystem.list" then obj_of [("path", typed "string"); ("entries", typed "array")]
  else if String.eqb name "filesystem.search" then obj_of [("path", typed "string"); ("query", typed "string"); ("matches", typed "array");
    ("truncated", typed "boolean")]
  else if one_of name ["filesystem.write"; "filesystem.patch"] then obj_of [("path", typed "string"); ("digest", typed "string")]
  else if String.eqb name "filesystem.remove" then obj_of [("path", typed "string"); ("removed", typed "boolean"); ("restoreToken", typed "string")]
  else if String.eqb name "filesystem.restore" then obj_of [("path", typed "string"); ("restored", typed "boolean")]
  else if String.eqb name "filesystem.mkdir" then obj_of [("path", typed "string"); ("created", typed "boolean")]
  else if String.eqb name "artifact.describe" then obj_of [("digest", typed "string"); ("digestAlgorithm", typed "string"); ("size", typed "integer");
    ("bytes", typed "integer"); ("files", typed "integer"); ("kind", typed "string"); ("path", typed "string"); ("executorId", typed "string");
    ("describedAt", typed "integer")]
  else if String.eqb name "command.run" then obj_of [("cwd", typed "string"); ("argv", typed "array"); ("exitCode", obj_of [("type", VArray [VString "integer";
    VString "null"])]); ("stdout", typed "string"); ("stderr", typed "string"); ("stdoutBytes", typed "integer"); ("stderrBytes", typed "integer");
    ("stdoutTruncated", typed "boolean"); ("stderrTruncated", typed "boolean"); ("outputLimitBytes", typed "integer")]
  else if String.eqb name "artifact.build" then obj_of [("command", typed "object"); ("artifact", typed "object")]
  else if one_of name ["process.start"; "process.get"; "process.stop"; "agent.start"; "agent.stop"] then obj_of [("id", typed "string");
    ("state", typed "string"); ("pid", obj_of [("type", VArray [VString "integer"; VString "null"])])]
  else if String.eqb name "application.materialize" then obj_of [("generationId", typed "string"); ("root", typed "string"); ("applicationPath", typed "string");
    ("markerPath", typed "string"); ("createdAt", typed "integer")]
  else if String.eqb name "application.activate" then obj_of [("current", typed "string"); ("previous", obj_of [("type", VArray [VString "string";
    VString "null"])]); ("generationId", typed "string"); ("activatedAt", typed "integer")]
  else if one_of name ["application.generation.record"; "application.runtime.record"] then obj_of [("generationId", typed "string"); ("state", typed "string")]
  else if String.eqb name "application.inspect" then obj_of [("path", typed "string"); ("bundleIdentifier", obj_of [("type", VArray [VString "string";
    VString "null"])]); ("version", obj_of []); ("build", obj_of []); ("documentTypes", obj_of [])]
  else if String.eqb name "application.finalize" then obj_of [("applicationPath", typed "string"); ("signed", typed "array"); ("verified", typed "boolean")]
  else if String.eqb name "application.launch" then obj_of [("applicationPath", typed "string"); ("pid", typed "integer"); ("args", typed "array");
    ("cdp", obj_of [("type", VArray [VString "object"; VString "null"])])]
  else if String.eqb name "artifact.pack-chromium-datapack" then obj_of [("output", typed "string"); ("resources", typed "integer"); ("entries", typed "integer");
    ("size", typed "integer"); ("sha256", typed "string"); ("contentHash", typed "string")]
  else if String.eqb name "application.apply-artifacts" then obj_of [("applied", typed "array")]
  else if String.eqb name "application.open-file" then obj_of [("applicationPath", typed "string"); ("handlerPath", typed "string"); ("file", typed "string");
    ("openedAt", typed "integer")]
  else if String.eqb name "application.stop" then obj_of [("applicationPath", typed "string"); ("stopped", typed "array")]
  else if String.eqb name "ui.inspect" then obj_of [("targets", typed "array")]
  else if String.eqb name "ui.automate" then obj_of [("target", typed "object"); ("result", obj_of [])]
  else if String.eqb name "ui.capture" then obj_of [("path", typed "string"); ("target", typed "object"); ("bytes", typed "integer");
    ("capturedAt", typed "integer")]
  else if String.eqb name "logs.read" then obj_of [("processId", typed "string"); ("path", typed "string"); ("lines", typed "array")]
  else if String.eqb name "process.list" then obj_of [("processes", typed "array")]
  else if String.eqb name "port.check" then obj_of [("port", typed "integer"); ("available", typed "boolean")]
  else if one_of name ["tunnel.ensure"; "tunnel.get"; "tunnel.stop"] then obj_of [("id", obj_of []); ("workspaceSessionId", obj_of []); ("sshHost", obj_of []);
    ("direction", obj_of []); ("source", obj_of []); ("destination", obj_of []); ("desiredState", obj_of []); ("observedState", obj_of []); ("state", obj_of []);
    ("readiness", obj_of []); ("processId", obj_of []); ("startedAt", obj_of []); ("updatedAt", obj_of []); ("lastProbeAt", obj_of []);
    ("observation", obj_of []); ("reused", obj_of [])]
  else if String.eqb name "tunnel.list" then obj_of [("tunnels", typed "array")]
  else if String.eqb name "ui.evaluate" then obj_of [("target", typed "object"); ("value", obj_of []); ("evaluatedAt", typed "integer")]
  else if String.eqb name "ui.native-inspect" then obj_of [("applicationPath", typed "string"); ("pids", typed "array"); ("inspection", typed "object");
    ("inspectedAt", typed "integer")]
  else if String.eqb name "process.events" then obj_of [("processId", typed "string"); ("events", typed "array")]
  else obj_of [].
Definition output_schema (name : string) : Value :=
  let properties := output_properties name in
  obj_of [("type", VString "object"); ("properties", properties); ("required", VArray (VString <$> object_keys properties));
          ("additionalProperties", VBool true)].

Definition input_schema (name : string) (properties : Value) : Value :=
  obj_of [("$schema", VString "https://json-schema.org/draft/2020-12/schema"); ("type", VString "object"); ("properties", properties);
          ("required", VArray (VString <$> schema_required name properties));
          ("additionalProperties", VBool (negb (String.eqb name "ui.native-inspect")))].

(** [contract] *)
Definition contract (platform : Platform) (name : string) (effect : Effect) : CapabilityDescriptor :=
  let terms := terms_of platform name in
  let retryable_idempotent := negb (bool_decide (terms_key_fields terms = [])) in
  mkCapabilityDescriptor name "1.0.0" (input_schema name (terms_properties terms)) (output_schema name) (terms_required terms)
    ((fun key => mkLockTemplate key LockExclusive) <$> terms_locks terms)
    (mkIdempotencyContract (terms_key_fields terms) 86400000) (terms_timeout_ms terms)
    (mkRetryPolicy (match effect with ReadOnly => 3 | _ => if retryable_idempotent then 3 else 1 end) ["EXECUTOR_UNAVAILABLE"] 500)
    (terms_rollback terms) HealthCheckProcess (terms_evidence terms) effect.

(** ** The catalogue *)

Definition base_capabilities : list (string * Effect) :=
  [("filesystem.resolve", ReadOnly); ("filesystem.stat", ReadOnly); ("filesystem.capacity", ReadOnly); ("filesystem.read", ReadOnly);
   ("filesystem.list", ReadOnly); ("filesystem.search", ReadOnly); ("filesystem.write", Mutating); ("filesystem.patch", Mutating);
   ("filesystem.remove", Mutating); ("filesystem.restore", Mutating); ("filesystem.mkdir", Mutating); ("command.run", Mutating);
   ("clipboard.status", ReadOnly); ("clipboard.read", ReadOnly); ("clipboard.write", Mutating); ("artifact.build", Mutating);
   ("artifact.describe", ReadOnly); ("artifact.pack-chromium-datapack", Mutating); ("artifact.relay.archive.create", ReadOnly);
     ("artifact.relay.archive.read", ReadOnly);
   ("artifact.relay.archive.remove", ReadOnly); ("artifact.relay.archive.prepare", Mutating); ("artifact.relay.archive.write", Mutating);
     ("artifact.relay.archive.commit", Mutating);
   ("artifact.relay.manifest", ReadOnly); ("artifact.relay.read", ReadOnly); ("artifact.relay.prepare", Mutating); ("artifact.relay.write", Mutating);
   ("artifact.relay.commit", Mutating); ("process.start", Mutating); ("process.get", ReadOnly); ("process.list", ReadOnly);
   ("process.stop", Mutating); ("process.events", ReadOnly); ("logs.read", ReadOnly); ("port.check", ReadOnly);
   ("tunnel.ensure", Mutating); ("tunnel.get", ReadOnly); ("tunnel.list", ReadOnly); ("tunnel.stop", Mutating);
   ("agent.start", Mutating); ("agent.stop", Mutating); ("application.materialize", Mutating); ("application.apply-artifacts", Mutating);
   ("application.generation.record", Mutating); ("application.runtime.record", Mutating); ("application.activate", Mutating)].
Definition macos_capabilities : list (string * Effect) :=
  [("application.inspect", ReadOnly); ("application.finalize", Mutating); ("application.launch", Mutating); ("application.open-file", Mutating);
   ("application.stop", Mutating); ("ui.inspect", ReadOnly); ("ui.evaluate", ReadOnly); ("ui.automate", Mutating);
   ("ui.capture", ReadOnly); ("ui.native-inspect", ReadOnly)].
Definition windows_capabilities : list (string * Effect) :=
  [("application.inspect", ReadOnly); ("application.launch", Mutating); ("application.open-file", Mutating); ("application.stop", Mutating);
   ("ui.evaluate", ReadOnly); ("ui.capture", ReadOnly); ("ui.native-inspect", ReadOnly)].

(** [capability_catalog] *)
Definition capabilities (platform : Platform) : list (string * Effect) :=
  base_capabilities ++ match platform with MacOS => macos_capabilities | Windows => windows_capabilities | Linux => [] end.
Definition capability_catalog (platform : Platform) : list CapabilityDescriptor :=
  (fun ne => contract platform ne.1 ne.2) <$> capabilities platform.
