(* ===== verification/CatalogueSafety.v ===== *)
(** * The catalogue and the requests it admits

    The catalogue is consistent, and a request that passes the input schema of
    its capability names every resource the capability locks. *)
From Stdlib Require Import Ascii.
From stdpp Require Import base gmap strings list sorting pretty.
From S2P Require Import Prelude Json Schema Protocol Desktop Resources PathPolicy FileTree FileTreeLaws Generations SchemaCheck Controller TreeDigest ArtifactRelay.
From S2P Require Import Utf8 FileHandlers Catalogue.
Open Scope Z_scope.
Open Scope fabric_scope.

(** ** Templates as pieces *)

(** A template is texts that each precede a key, and a last text. *)
Fixpoint build_template (pieces : list (string * string)) (last : string) : string :=
  match pieces with
  | [] => last
  | (text, key) :: pieces' => text +:+ "${" +:+ key +:+ "}" +:+ build_template pieces' last
  end.
Fixpoint template_pieces (fuel : nat) (s : string) : list (string * string) * string :=
  match fuel with
  | O => ([], s)
  | S fuel' =>
      match find_open s with
      | None => ([], s)
      | Some (text, rest) =>
          match find_close rest with
          | None => ([], s)
          | Some (key, after) => let '(ps, last) := template_pieces fuel' after in ((text, key) :: ps, last)
          end
      end
  end.

Definition plain (s : string) : bool := Nat.eqb (count_dollars s) 0.
Fixpoint no_close (s : string) : bool := match s with EmptyString => true | String c s' => negb (Ascii.eqb c "}"%char) && no_close s' end.

Lemma find_open_plain a s : count_dollars a = 0%nat -> find_open (a +:+ "${" +:+ s) = Some (a, s).
Proof.
  induction a as [|c a IH]; intros H; [done|]. rewrite string_app_cons. cbn [count_dollars] in H. unfold dollar in H.
  destruct (Ascii.eqb c "$"%char) eqn:Ec; [done|]. specialize (IH H). cbn [find_open]. destruct (a +:+ "${" +:+ s) as [|d rest] eqn:E; [by destruct a|].
  rewrite Ec. cbn [andb]. by rewrite IH.
Qed.
Lemma find_open_none s : count_dollars s = 0%nat -> find_open s = None.
Proof.
  induction s as [|c s IH]; intros H; [done|]. cbn [count_dollars] in H. unfold dollar in H. destruct (Ascii.eqb c "$"%char) eqn:Ec; [done|].
  cbn [find_open]. destruct s as [|d s]; [done|]. rewrite Ec. cbn [andb]. by rewrite IH.
Qed.
Lemma find_close_plain k s : no_close k = true -> find_close (k +:+ "}" +:+ s) = Some (k, s).
Proof.
  induction k as [|c k IH]; intros H; [done|]. cbn [no_close] in H. apply andb_true_iff in H as [Hc H]. apply negb_true_iff in Hc.
  rewrite string_app_cons. cbn [find_close]. by rewrite Hc, IH.
Qed.

Section Rendered.
Context (to_string : Value -> string).

(** A template whose keys are all there is rendered, one turn for each key. *)
Lemma render_pieces fuel template params pieces last done :
  plain_values to_string params -> (length pieces < fuel)%nat -> count_dollars done = 0%nat -> count_dollars last = 0%nat ->
  Forall (fun p => count_dollars p.1 = 0%nat /\ no_close p.2 = true /\ is_Some (vget p.2 params)) pieces ->
  exists s, render_loop to_string fuel template params (done +:+ build_template pieces last) = Some (Ok s).
Proof.
  intros Hp. revert fuel done. induction pieces as [|[text key] pieces IH]; intros fuel done Hf Hd Hl Hall; (destruct fuel as [|fuel]; [cbn in Hf; lia|]).
  - cbn [build_template render_loop]. unfold render_step. rewrite find_open_none by (rewrite count_dollars_app; lia). by eexists.
  - apply Forall_cons in Hall as [(Ht & Hk & [v Hv]) Hall]. cbn [build_template fst snd] in *. cbn [render_loop]. unfold render_step.
    rewrite string_app_assoc. rewrite find_open_plain by (rewrite count_dollars_app; lia). rewrite find_close_plain, Hv by done.
    replace ((done +:+ text) +:+ value_text to_string v +:+ build_template pieces last) with ((done +:+ text +:+ value_text to_string v) +:+ build_template pieces last)
      by (by rewrite <- !string_app_assoc).
    apply IH; [cbn in Hf; lia| |done|done]. rewrite !count_dollars_app, (Hp key v Hv). lia.
Qed.

(** ** What the catalogue promises *)

(** Whether every key of a lock template is required by the schema *)
Definition lock_covered (required : list string) (template : string) : bool :=
  let '(pieces, last) := template_pieces (String.length template) template in
  String.eqb (build_template pieces last) template && plain last && Nat.leb (length pieces) 2 &&
  forallb (fun p => plain p.1 && no_close p.2 && existsb (String.eqb p.2) required) pieces.
Definition launch_port_lock (action template : string) : bool :=
  String.eqb action "application.launch" && String.eqb template "debug-port:${remoteDebuggingPort}".
(** The capabilities whose locks have a key that their schema does not require *)
Definition loose_locks : list string := ["clipboard.write"; "ui.automate"].
Definition covered (c : CapabilityDescriptor) : bool :=
  String.eqb (canonical (cap_name c)) (cap_name c) &&
  forallb (fun lock => launch_port_lock (cap_name c) (lock_key lock) || lock_covered (required_keys (cap_input_schema c)) (lock_key lock)) (cap_locks c).

Lemma catalogue_covered platform :
  forallb (fun c => existsb (String.eqb (cap_name c)) loose_locks || covered c) (capability_catalog platform) = true.
Proof. destruct platform; vm_compute; reflexivity. Qed.
Lemma catalogue_names platform : NoDup (cap_name <$> capability_catalog platform).
Proof. destruct platform; apply (bool_decide_unpack _); vm_compute; exact I. Qed.

Lemma lock_covered_rendered required template params fuel :
  lock_covered required template = true -> plain_values to_string params -> (forall key, key ∈ required -> is_Some (vget key params)) -> (3 <= fuel)%nat ->
  exists s, render_authority_resource to_string fuel template params = Some (Ok s).
Proof.
  unfold lock_covered, render_authority_resource. destruct (template_pieces _ _) as [pieces last]. intros H Hp Hreq Hf.
  apply andb_true_iff in H as [[[Hb%String.eqb_eq Hl%Nat.eqb_eq]%andb_true_iff Hn%Nat.leb_le]%andb_true_iff Hall].
  rewrite forallb_forall in Hall. cut (exists s, render_loop to_string fuel template params ("" +:+ build_template pieces last) = Some (Ok s)).
  { change ("" +:+ build_template pieces last) with (build_template pieces last). by rewrite Hb. }
  apply render_pieces; [done|lia|done|done|]. apply Forall_forall. intros [text key] Hin. apply list_elem_of_In, Hall in Hin.
  apply andb_true_iff in Hin as [[Ht%Nat.eqb_eq Hk]%andb_true_iff Hr]. split_and!; [done|done|]. apply existsb_exists in Hr as (k & Hk' & ->%String.eqb_eq).
  apply Hreq. by apply list_elem_of_In.
Qed.

Lemma covered_rendered c params port fuel :
  covered c = true -> plain_values to_string params -> (forall key, key ∈ required_keys (cap_input_schema c) -> is_Some (vget key params)) -> (3 <= fuel)%nat ->
  (cap_name c = "application.launch" -> is_Some (vget "remoteDebuggingPort" params) -> is_ok (required_port params "remoteDebuggingPort") = true) ->
  exists rs, render_locks to_string fuel (cap_locks c) (cap_name c) params port = Some (Ok rs).
Proof.
  unfold covered. intros [_ H]%andb_true_iff Hp Hreq Hf Hport. induction (cap_locks c) as [|lock locks IH]; [by eexists|].
  cbn [forallb] in H. apply andb_true_iff in H as [Hlock H]. destruct (IH H) as [rs Hrs]. cbn [render_locks]. rewrite Hrs.
  assert (exists o, render_execution_resource to_string fuel (lock_key lock) (cap_name c) params port = Some (Ok o)) as [o ->]; [|by eexists].
  unfold render_execution_resource. destruct (launch_port_lock (cap_name c) (lock_key lock)) eqn:El; unfold launch_port_lock in El; rewrite El.
  - apply andb_true_iff in El as [Ha%String.eqb_eq _]. destruct (vget "remoteDebuggingPort" params) as [v|] eqn:Ev; [|by eexists].
    specialize (Hport Ha (ex_intro _ v eq_refl)). destruct (required_port params "remoteDebuggingPort"); [by eexists|done].
  - cbn [orb] in Hlock. destruct (lock_covered_rendered _ _ _ _ Hlock Hp Hreq Hf) as [s ->]. by eexists.
Qed.

Lemma find_contract_catalogue platform c :
  c ∈ capability_catalog platform -> canonical (cap_name c) = cap_name c -> find_contract (capability_catalog platform) (cap_name c) = Some c.
Proof.
  intros Hc Hn. unfold find_contract. rewrite Hn. pose proof (catalogue_names platform) as Hd. induction (capability_catalog platform) as [|d l IH]; [by apply not_elem_of_nil in Hc|].
  cbn in *. apply NoDup_cons in Hd as [Hd Hl]. destruct (String.eqb_spec (cap_name d) (cap_name c)) as [E|E].
  - apply elem_of_cons in Hc as [->|Hc]; [done|]. destruct Hd. rewrite E. by apply list_elem_of_fmap_2.
  - apply elem_of_cons in Hc as [->|Hc]; [done|]. by apply IH.
Qed.

Lemma required_present f64_text schema object path :
  unconstrained schema = false -> validate_schema to_string f64_text schema (VObject object) path = Ok tt ->
  forall key, key ∈ required_keys schema -> is_Some (vget key (VObject object)).
Proof.
  intros Hu H. rewrite validate_schema_eq, Hu in H. do 4 (apply sequence_ok in H as [_ H]). cbn [check_children] in H.
  apply sequence_ok in H as [H _]. exact (proj1 (check_required_ok _ _ _) H).
Qed.
Lemma input_constrained platform c : c ∈ capability_catalog platform -> unconstrained (cap_input_schema c) = false.
Proof. intros (ne & -> & _)%list_elem_of_fmap. reflexivity. Qed.

(** C17: a request that a capability's input schema admits, whose values hold no placeholder mark (the dollar sign: with one the rendering may never end, [rendering_diverges] of [Resources]), knows the resources it locks, on every platform: unless the capability is one of the two whose lock names a field that its schema does not require, or a launch of an application whose port to debug it is no port, the rendering of its locks answers, and for a capability that changes something it names at least one resource. *)
Theorem admitted_inputs_have_resources f64_text platform c object path port executor_id fuel :
  c ∈ capability_catalog platform -> ~ cap_name c ∈ loose_locks -> (3 <= fuel)%nat ->
  validate_schema to_string f64_text (cap_input_schema c) (VObject object) path = Ok tt -> plain_values to_string (VObject object) ->
  (cap_name c = "application.launch" -> is_Some (vget "remoteDebuggingPort" (VObject object)) -> is_ok (required_port (VObject object) "remoteDebuggingPort") = true) ->
  exists rs, execution_resources to_string fuel (capability_catalog platform) port (cap_name c) (VObject object) executor_id = Some (Ok rs) /\ (cap_effect c <> ReadOnly -> rs <> []).
Proof.
  intros Hc Hloose Hf Hv Hp Hport. pose proof (catalogue_covered platform) as Hcov. rewrite forallb_forall in Hcov.
  apply list_elem_of_In in Hc as Hin. specialize (Hcov c Hin). apply orb_true_iff in Hcov as [Hl|Hcov].
  { destruct Hloose. apply existsb_exists in Hl as (n & Hn & ->%String.eqb_eq). by apply list_elem_of_In. }
  assert (canonical (cap_name c) = cap_name c) as Hn by (unfold covered in Hcov; by apply andb_true_iff in Hcov as [?%String.eqb_eq _]).
  destruct (covered_rendered c (VObject object) port fuel Hcov Hp) as [rs Hrs]; [|done|done|].
  { eapply required_present; [by eapply input_constrained|exact Hv]. }
  unfold execution_resources. rewrite find_contract_catalogue, Hn, Hrs by done. eexists. split; [reflexivity|]. intros He.
  assert (is_read_only (cap_effect c) = false) as -> by (by destruct (cap_effect c)).
  assert (forall l : list string, l <> [] -> sort_dedup l <> []) as Hsd.
  { intros [|x l] Hl E; [done|]. assert (x ∈ sort_dedup (x :: l)) as Hx by (apply elem_of_sort_dedup; by left). rewrite E in Hx. by apply not_elem_of_nil in Hx. }
  apply Hsd. by destruct rs.
Qed.
End Rendered.

(** ** Consistency *)

(** One contract is consistent with the others of its catalogue. *)
Definition contract_consistent (catalog : list CapabilityDescriptor) (c : CapabilityDescriptor) : bool :=
  let properties := default [] (vget "properties" (cap_input_schema c) ≫= as_object) in
  let is_property key := existsb (String.eqb key) properties.*1 in
  forallb is_property (idem_key_fields (cap_idempotency c)) && forallb is_property (required_keys (cap_input_schema c)) &&
  (0 <? cap_timeout_ms c) && (cap_timeout_ms c <=? 3600000) && (1 <=? retry_max_attempts (cap_retry c)) &&
  match cap_rollback c with
  | RollbackCompensate name => existsb (fun d => String.eqb (cap_name d) name && negb (is_read_only (cap_effect d))) catalog && negb (is_read_only (cap_effect c))
  | _ => true
  end &&
  (negb (1 <? retry_max_attempts (cap_retry c)) || is_read_only (cap_effect c) || negb (bool_decide (idem_key_fields (cap_idempotency c) = []))).

(** the catalogue of every platform is consistent: no two contracts share a name, the fields that identify a request and the fields that are required are fields of the input, a deadline is positive and at most an hour, a compensation is a capability of the same catalogue that changes something, and only what changes nothing or has an identity is tried again. *)
Theorem catalogue_consistent platform :
  NoDup (cap_name <$> capability_catalog platform) /\ forall c, c ∈ capability_catalog platform -> contract_consistent (capability_catalog platform) c = true.
Proof.
  split; [apply catalogue_names|]. intros c Hc. assert (forallb (contract_consistent (capability_catalog platform)) (capability_catalog platform) = true) as H by (destruct platform; vm_compute; reflexivity).
  rewrite forallb_forall in H. by apply H, list_elem_of_In.
Qed.

(** ** Answers against the catalogue *)

(** Every answer of the computation is in [P]. *)
Definition ensures {S E A} (P : A -> Prop) (m : M S E A) : Prop := forall s w a s' w', m s w = (Ok a, s', w') -> P a.

Section Ensures.
Context {S E A B : Type} (P : B -> Prop).
Lemma ensures_ret (b : B) : P b -> ensures (S := S) (E := E) P (ret b).
Proof. by intros H s w a s' w' [= <- _ _]. Qed.
Lemma ensures_fail (e : E) : ensures (S := S) P (fail e).
Proof. by intros s w a s' w'. Qed.
Lemma ensures_bind_with (Q : A -> Prop) (m : M S E A) (k : A -> M S E B) : ensures Q m -> (forall a, Q a -> ensures P (k a)) -> ensures P (bind m k).
Proof. intros Hm Hk s w b s' w' (a & s1 & w1 & H1 & H)%bind_ok. eapply Hk; [by eapply Hm|exact H]. Qed.
Lemma ensures_bind (m : M S E A) (k : A -> M S E B) : (forall a, ensures P (k a)) -> ensures P (bind m k).
Proof. intros Hk. by apply (ensures_bind_with (fun _ => True)). Qed.
End Ensures.
Ltac ensures := repeat first [ apply ensures_ret | apply ensures_fail | apply ensures_bind; intros ? | progress case_match ].

(** ** Flat schemas *)

(** Whether a value is of a kind, without the width of an integer, which does not matter for a non-negative one *)
Definition kind_ok (kind : string) (v : Value) : bool :=
  match v with
  | VNull => String.eqb kind "null"
  | VBool _ => String.eqb kind "boolean"
  | VNumber (PosInt _) => String.eqb kind "integer"
  | VString _ => String.eqb kind "string"
  | VArray _ => String.eqb kind "array"
  | VObject _ => String.eqb kind "object"
  | _ => false
  end.
Definition kinds_ok (types v : Value) : bool :=
  match types with VString kind => kind_ok kind v | VArray kinds => existsb (fun kind => kind_ok kind v) (strings_of kinds) | _ => false end.
(** Whether the fields of an object are of the kinds of the properties and none of the properties is missing *)
Definition flat_ok (properties object : list (string * Value)) : bool :=
  forallb (fun kv => match obj_get kv.1 properties with
                     | None | Some (VObject []) => true
                     | Some (VObject [(key, types)]) => String.eqb key "type" && kinds_ok types kv.2
                     | _ => false
                     end) object &&
  forallb (fun kv => match obj_get kv.1 object with Some _ => true | None => false end) properties.

Lemma kind_ok_matches kind v : kind_ok kind v = true -> value_matches_type v kind = true.
Proof.
  destruct v as [|b|[n|n|f]|s|l|m]; cbn [kind_ok]; try done; intros ->%String.eqb_eq; try reflexivity.
  unfold value_matches_type. cbn [String.eqb Ascii.eqb Bool.eqb]. cbn. by destruct (n <=? I64_MAX).
Qed.
Lemma kinds_ok_matches types v : kinds_ok types v = true -> type_matches types v = true.
Proof.
  destruct types; cbn; try done; [apply kind_ok_matches|]. rewrite !existsb_exists. intros (k & Hk & H). exists k. split; [done|by apply kind_ok_matches].
Qed.

Lemma strings_of_texts l : strings_of (VString <$> l) = l.
Proof. unfold strings_of. induction l as [|x l IH]; [done|]. cbn. f_equal. exact IH. Qed.

Section Flat.
Context (to_string : Value -> string) (f64_text : SpecFloat.spec_float -> string).
Lemma typed_passes types v path : type_matches types v = true -> validate_schema to_string f64_text (VObject [("type", types)]) v path = Ok tt.
Proof. intros H. rewrite validate_schema_eq. cbn -[type_matches]. unfold check_type. cbn -[type_matches]. rewrite H. by destruct v. Qed.
Lemma flat_fields_pass schema properties object path :
  closed_schema schema = false -> flat_ok properties object = true -> check_fields to_string f64_text schema properties path object = Ok tt.
Proof.
  intros Hc [H _]%andb_true_iff. induction object as [|[k v] object IH]; [done|]. cbn [check_fields forallb fst snd] in *. apply andb_true_iff in H as [Hk H].
  rewrite IH by done. destruct (obj_get k properties) as [[| | | | |[|[key types] [|]]]|]; try done; [| |by rewrite Hc].
  - by rewrite validate_schema_eq.
  - apply andb_true_iff in Hk as [->%String.eqb_eq Hk]. by rewrite typed_passes by (by apply kinds_ok_matches).
Qed.
(** An object with the properties of an output schema passes it. *)
Lemma flat_passes name properties object path :
  output_properties name = VObject properties -> flat_ok properties object = true ->
  validate_schema to_string f64_text (output_schema name) (VObject object) path = Ok tt.
Proof.
  intros Hp H. assert (output_schema name = VObject [("additionalProperties", VBool true); ("properties", VObject properties); ("required", VArray (VString <$> properties.*1)); ("type", VString "object")]) as ->.
  { unfold output_schema. by rewrite Hp. }
  rewrite validate_schema_eq. cbn -[check_fields check_required strings_of]. rewrite strings_of_texts.
  assert (check_required properties.*1 object path = Ok tt) as ->.
  { apply check_required_ok. intros key (kv & -> & Hin)%list_elem_of_fmap. apply andb_true_iff in H as [_ H]. rewrite forallb_forall in H.
    apply list_elem_of_In, H in Hin. destruct (obj_get kv.1 object); [by eexists|done]. }
  by apply flat_fields_pass.
Qed.
End Flat.

Ltac flat := eapply flat_passes; [reflexivity|vm_compute; reflexivity].

Section Answers.
Context (to_string : Value -> string) (f64_text : SpecFloat.spec_float -> string).
Context (sha256_hex : string -> string) (torn : string -> string) (pid : Z) (fuel : nat) (special_len : Entry -> Z) (executor_id : string).

Definition passes_schema (name path : string) (a : Value) : Prop := validate_schema to_string f64_text (output_schema name) a path = Ok tt.

(** The file requests, by the capability they serve *)
Definition file_request (name : string) : option (ExecutorRuntime -> Value -> M Volume RpcError Value) :=
  if String.eqb name "filesystem.resolve" then Some fs_resolve
  else if String.eqb name "filesystem.stat" then Some (fs_stat sha256_hex special_len)
  else if String.eqb name "filesystem.read" then Some (fs_read sha256_hex)
  else if String.eqb name "filesystem.list" then Some (fs_list special_len)
  else if String.eqb name "filesystem.search" then Some (fs_search fuel)
  else if String.eqb name "filesystem.write" then Some (fs_write sha256_hex torn pid)
  else if String.eqb name "filesystem.patch" then Some (fs_patch sha256_hex torn pid)
  else if String.eqb name "filesystem.remove" then Some (fs_remove sha256_hex fuel)
  else if String.eqb name "filesystem.restore" then Some fs_restore
  else if String.eqb name "filesystem.mkdir" then Some fs_mkdir
  else if String.eqb name "artifact.describe" then Some (artifact_describe sha256_hex fuel special_len executor_id)
  else None.

Lemma stat_passes path rt params : ensures (passes_schema "filesystem.stat" path) (fs_stat sha256_hex special_len rt params).
Proof.
  unfold fs_stat. do 2 (apply ensures_bind; intros ?). apply (ensures_bind_with _ (fun d => d = VNull \/ exists x, d = VString x)).
  - ensures; eauto.
  - intros d [->|[x ->]]; apply ensures_ret; flat.
Qed.

(** What a file request answers passes the output schema of its capability. *)
Lemma file_answers_pass name request rt params path :
  file_request name = Some request -> ensures (passes_schema name path) (request rt params).
Proof.
  unfold file_request. intros H.
  repeat (let E := fresh "E" in destruct (String.eqb name _) eqn:E in H; [apply String.eqb_eq in E as ->; injection H as <-; clear|clear E]).
  - unfold fs_resolve. ensures. flat.
  - apply stat_passes.
  - unfold fs_read. ensures. flat.
  - unfold fs_list. ensures. flat.
  - unfold fs_search. ensures. flat.
  - unfold fs_write, create_absent, publish_staged, replace_content, written. ensures; flat.
  - unfold fs_patch, replace_content, written. ensures. flat.
  - unfold fs_remove. ensures. flat.
  - unfold fs_restore. ensures. flat.
  - unfold fs_mkdir. ensures. flat.
  - unfold artifact_describe. ensures; flat.
  - done.
Qed.
End Answers.

(** ** Runs *)

Definition no_text (_ : Value) : string := "".
Definition no_float (_ : SpecFloat.spec_float) : string := "".
Definition input_of (c : CapabilityDescriptor) (input : Value) : result RpcError unit := validate_schema no_text no_float (cap_input_schema c) input "input".

Definition stop_contract : CapabilityDescriptor := contract Linux "process.stop" Mutating.
Lemma admitted_inputs_have_resources_witness :
  exists rs, execution_resources no_text 3 (capability_catalog Linux) None "process.stop" (obj_of [("processId", VString "web")]) "linux" = Some (Ok rs) /\
    (Mutating <> ReadOnly -> rs <> []).
Proof.
  apply (admitted_inputs_have_resources no_text no_float Linux stop_contract [("processId", VString "web")] "input" None "linux" 3).
  - apply list_elem_of_In. vm_compute. repeat (first [left; reflexivity|right]).
  - apply (bool_decide_unpack _). vm_compute. exact I.
  - lia.
  - reflexivity.
  - intros key v Hv. unfold vget in Hv. cbn [obj_get] in Hv. destruct (String.eqb key "processId"); [|discriminate Hv]. injection Hv as <-. reflexivity.
  - discriminate.
Defined.

(** Two capabilities lock a field that their schema does not require: such a request is admitted and then refused. *)
Definition clipboard_content : Value :=
  obj_of [("semanticDigest", VString "d"); ("content", obj_of []); ("expiresAtMs", vu64 9); ("maxBytes", vu64 10)].
Example clipboard_write_needs_executor :
  input_of (contract Linux "clipboard.write" Mutating) clipboard_content = Ok tt /\
  match execution_resources no_text 3 (capability_catalog Linux) None "clipboard.write" clipboard_content "linux" with
  | Some (Err e) => err_code e = "EXECUTOR_AUTHORITY_MISMATCH"
  | _ => False
  end.
Proof. split; vm_compute; reflexivity. Qed.
Definition automation : Value := obj_of [("method", VString "m"); ("params", obj_of [])].
Example automation_needs_port :
  input_of (contract MacOS "ui.automate" Mutating) automation = Ok tt /\
  match execution_resources no_text 3 (capability_catalog MacOS) (Some 9222) "ui.automate" automation "mac" with
  | Some (Err e) => err_code e = "EXECUTOR_AUTHORITY_MISMATCH"
  | _ => False
  end.
Proof. split; vm_compute; reflexivity. Qed.

(** The deadline of a command has a default in its handlers and in its schema, and the schema requires it. *)
Definition plain_command : Value := obj_of [("cwd", VString "/data"); ("argv", VArray [VString "ls"])].
Example command_deadline_is_required :
  map_err err_code (input_of (contract Linux "command.run" Mutating) plain_command) = Err "SCHEMA_VALIDATION_FAILED" /\
  "timeoutMs" ∈ required_keys (cap_input_schema (contract Linux "command.run" Mutating)).
Proof. split; [vm_compute; reflexivity|]. apply (bool_decide_unpack _). vm_compute. exact I. Qed.
