(* ===== verification/ProcessRequests.v ===== *)
(** * The process requests of the executor ([process.*], [agent.*], [logs.read] and [port.check] of
      [crates/machine-fabric-runtime/src/executor.rs])

    The checks of a command before it is started, where its log goes, and what
    the requests answer. The table is that of [ProcessTable]. *)
From Stdlib Require Import Ascii.
From stdpp Require Import base gmap strings list sorting pretty.
From S2P Require Import Prelude Json Schema Protocol Desktop Resources PathPolicy FileTree FileTreeLaws Generations SchemaCheck Controller TreeDigest ArtifactRelay.
From S2P Require Import Utf8 FileHandlers ProcessTable ProcessSafety ProcessRuns Catalogue CatalogueSafety.
Open Scope Z_scope.
Open Scope fabric_scope.

(** ** Records as JSON *)

Definition process_state_kebab (s : ProcessState) : string := match s with Running => "running" | Stopped => "stopped" | Failed => "failed" end.
Definition readiness_state_kebab (s : ReadinessState) : string :=
  match s with Pending => "pending" | Ready => "ready" | ReadinessFailed => "failed" | NotConfigured => "not-configured" end.
Definition readiness_json (r : ReadinessStatus) : Value :=
  obj_of [("state", VString (readiness_state_kebab (rs_state r))); ("attempts", vu64 (rs_attempts r))].
Definition process_json (r : ProcessRecord) : Value :=
  obj_of [("id", VString (pr_id r)); ("pid", vu64 (pr_pid r)); ("identityVerified", VBool (pr_identity_verified r));
          ("observedAt", vopt vu64 (pr_observed_at r)); ("cwd", VString (display (pr_cwd r))); ("argv", VArray (VString <$> pr_argv r));
          ("env", obj_of ((fun kv => (kv.1, VString kv.2)) <$> btree_entries (pr_env r))); ("restartable", VBool (pr_restartable r));
          ("metadata", pr_metadata r); ("logPath", VString (display (pr_log_path r))); ("state", VString (process_state_kebab (pr_state r)));
          ("readiness", readiness_json (pr_readiness r)); ("readinessSpec", vopt id (pr_readiness_spec r));
          ("readinessDeadlineAt", vopt vu64 (pr_readiness_deadline_at r)); ("startedAt", vu64 (pr_started_at r));
          ("updatedAt", vu64 (pr_updated_at r)); ("lastSuccessfulProbeAt", vopt vu64 (pr_last_successful_probe_at r))].

Section ProcessRequests.
Context (to_vec_pretty : gmap string ProcessRecord -> option string) (torn : string -> string) (working_directory : Path) (state_path : option Path).
Context (to_vec : Value -> string) (sha256_hex : string -> string).

(** ** Commands *)

(** [string_array] *)
Definition string_array (params : Value) (key : string) : result RpcError (list string) :=
  match vget key params with
  | None => Err (rpc_error "INVALID_PARAMS" (key +:+ " is required"))
  | Some v =>
      match as_array v ≫= fun l => mapM as_str l with
      | None => Err (rpc_error "INVALID_PARAMS" "")
      | Some [] => Err (rpc_error "INVALID_PARAMS" (key +:+ " is required"))
      | Some values => Ok values
      end
  end.

(** [validate_command]; [argv] is not empty where it is called. *)
Definition validate_command (argv : list string) (cwd : string) (approval_digest : option string) : result RpcError unit :=
  let program := default "" (head argv) in
  let executable := default program (path_name (path_of program)) in
  let digest := "sha256:" +:+ sha256_hex (to_vec (obj_of [("cwd", VString cwd); ("argv", VArray (VString <$> argv))])) in
  if existsb (String.eqb executable) ["rm"; "sudo"; "su"; "dd"; "mkfs"] && negb (bool_decide (approval_digest = Some digest))
  then Err (rpc_error "COMMAND_BLOCKED" ("high-risk executable requires an exact one-shot approval: " +:+ executable))
  else if existsb (String.eqb executable) ["python"; "python3"; "node"; "ruby"; "perl"] && existsb (fun a => String.eqb a "-c" || String.eqb a "-e") argv
  then Err (rpc_error "COMMAND_BLOCKED" "inline interpreter execution is not allowed")
  else Ok tt.

(** [serde_json::from_value::<BTreeMap<String, String>>] of an optional field *)
Definition env_of (params : Value) : result RpcError (gmap string string) :=
  match vget "env" params with
  | None => Ok ∅
  | Some v => ok_or (env_of_value v) (rpc_error "INVALID_PARAMS" "")
  end.

(** ** Requests *)

(** The log of a process: the path of the request, or a name in the directory of the process *)
Definition default_log (cwd : Path) (process_id : string) : Path := join_path cwd (path_of (".fabric-" +:+ process_id +:+ ".log")).
Definition log_path_of (rt : ExecutorRuntime) (params : Value) (cwd : Path) (process_id : string) : M ProcessWorld RpcError Path :=
  match vget "logPath" params ≫= as_str with
  | Some path => on_disk (write_path rt (obj_of [("path", VString path)]) "path" false)
  | None => ret (default_log cwd process_id)
  end.

(** [process.start] and [agent.start] *)
Definition process_start (agent : bool) (rt : ExecutorRuntime) (params : Value) : M ProcessWorld RpcError Value :=
  let* cwd_input := lift (required_str params "cwd") in
  let* cwd := on_disk (write_path rt params "cwd" true) in
  let* argv := lift (string_array params "argv") in
  lift (validate_command argv cwd_input (vget "approvalDigest" params ≫= as_str)) ;;
  let* process_id := lift (required_str params (if agent then "agentId" else "processId")) in
  let* log_path := log_path_of rt params cwd process_id in
  let* env := lift (env_of params) in
  let* record := start to_vec_pretty torn state_path process_id cwd argv env log_path (vget "readiness" params) false (obj_of []) in
  ret (process_json record).

(** [process.get] *)
Definition process_get (params : Value) : M ProcessWorld RpcError Value :=
  let* process_id := lift (required_str params "processId") in
  let* record := get_process to_vec_pretty torn working_directory state_path process_id in
  ret (process_json record).

(** [process.list] *)
Definition process_list : M ProcessWorld RpcError Value :=
  let* records := list_processes to_vec_pretty torn working_directory state_path in
  ret (obj_of [("processes", VArray (process_json <$> records))]).

(** [process.stop] and [agent.stop] *)
Definition process_stop (agent : bool) (params : Value) : M ProcessWorld RpcError Value :=
  let* process_id := lift (required_str params (if agent then "agentId" else "processId")) in
  let* record := stop to_vec_pretty torn state_path process_id in
  ret (process_json record).

(** [process.events] *)
Definition process_events (params : Value) : M ProcessWorld RpcError Value :=
  let* process_id := lift (required_str params "processId") in
  let* record := get_process to_vec_pretty torn working_directory state_path process_id in
  ret (obj_of [("processId", VString (pr_id record));
               ("events", VArray [obj_of [("type", VString "process.snapshot"); ("timestamp", vu64 (pr_updated_at record));
                                          ("state", VString (process_state_kebab (pr_state record))); ("readiness", readiness_json (pr_readiness record))]])]).

(** [logs.read] *)
Definition logs_read (params : Value) : M ProcessWorld RpcError Value :=
  let* process_id := lift (required_str params "processId") in
  process_logs to_vec_pretty torn working_directory state_path process_id (default 200 (vget "tail" params ≫= as_u64)).

(** [port.check]: [bind] says whether a port of the loopback interface, 16 bits wide, can be bound. *)
Definition port_check (bind_port : Z -> bool) (params : Value) : result RpcError Value :=
  match vget "port" params ≫= as_u64 with
  | None => Err (rpc_error "INVALID_PARAMS" "port is required")
  | Some port => Ok (obj_of [("port", vu64 port); ("available", VBool (bind_port (port mod 65536)))])
  end.
End ProcessRequests.

(** ** Answers of the requests *)

Section Requests.
Context (to_vec_pretty : gmap string ProcessRecord -> option string) (torn : string -> string) (working_directory : Path) (state_path : option Path).
Context (to_vec : Value -> string) (sha256_hex : string -> string).

Lemma write_path_inert rt params key must_exist : inert (write_path rt params key must_exist).
Proof.
  intros v w r v' w' H. unfold write_path, checked_path in H. destruct (vget key params ≫= as_str) as [raw|]; [|unfold fail in H; by injection H as _ <- _].
  unfold checked_text, bind, get, lift in H. by injection H as _ <- _.
Qed.
(** Checking a path changes nothing. *)
Lemma on_disk_inert {E A} (m : M Volume E A) s w r s' w' : inert m -> on_disk m s w = (r, s', w') -> s' = s.
Proof.
  intros Hm. unfold on_disk, zoom. destruct (m (pw_volume s) w) as [[r1 v] w1] eqn:E1. apply Hm in E1 as ->. intros [= _ <- _]. by destruct s.
Qed.

(** The programs that need an approval, and the digest that approves a command *)
Definition high_risk (program : string) : Prop := default program (path_name (path_of program)) ∈ ["rm"; "sudo"; "su"; "dd"; "mkfs"].
Definition command_approval (cwd : string) (argv : list string) : string :=
  "sha256:" +:+ sha256_hex (to_vec (obj_of [("cwd", VString cwd); ("argv", VArray (VString <$> argv))])).

(** a request to start a program that can destroy data, by whatever path it is named, starts nothing unless it carries the digest of exactly this command in this directory: it is refused and no process, record, log or file changes. *)
Theorem unapproved_command_starts_nothing agent rt params program arguments cwd s w r s' w' :
  string_array params "argv" = Ok (program :: arguments) -> high_risk program ->
  required_str params "cwd" = Ok cwd -> vget "approvalDigest" params ≫= as_str <> Some (command_approval cwd (program :: arguments)) ->
  process_start to_vec_pretty torn state_path to_vec sha256_hex agent rt params s w = (r, s', w') -> is_err r = true /\ s' = s.
Proof.
  intros Hargv Hrisk Hcwd Happ H. unfold process_start in H. rewrite Hcwd in H. apply bind_cases in H as (r1 & s1 & w1 & H1 & H). unfold lift in H1. injection H1 as <- <- <-.
  apply bind_cases in H as (r2 & s2 & w2 & H2 & H). apply on_disk_inert in H2 as ->; [|apply write_path_inert].
  destruct r2 as [path|]; [|by destruct H as (-> & -> & _)]. rewrite Hargv in H. apply bind_cases in H as (r3 & s3 & w3 & H3 & H). unfold lift in H3. injection H3 as <- <- <-.
  apply bind_cases in H as (r4 & s4 & w4 & H4 & H). unfold lift in H4. injection H4 as <- <- <-.
  assert (exists e, validate_command to_vec sha256_hex (program :: arguments) cwd (vget "approvalDigest" params ≫= as_str) = Err e) as [e E].
  { unfold validate_command. change (default "" (head (program :: arguments))) with program. unfold high_risk in Hrisk.
    set (executable := default program (path_name (path_of program))) in *. cbv zeta.
    assert (existsb (String.eqb executable) ["rm"; "sudo"; "su"; "dd"; "mkfs"] = true) as ->.
    { apply existsb_exists. exists executable. split; [by apply list_elem_of_In|apply String.eqb_refl]. }
    fold (command_approval cwd (program :: arguments)). rewrite bool_decide_false by done. by eexists. }
  rewrite E in H. by destruct H as (-> & -> & _).
Qed.

(** ** Answers *)

Context (to_string : Value -> string) (f64_text : SpecFloat.spec_float -> string) (bind_port : Z -> bool).

(** The process requests, by the capability they serve *)
Definition process_request (rt : ExecutorRuntime) (name : string) : option (Value -> M ProcessWorld RpcError Value) :=
  if String.eqb name "process.start" then Some (process_start to_vec_pretty torn state_path to_vec sha256_hex false rt)
  else if String.eqb name "agent.start" then Some (process_start to_vec_pretty torn state_path to_vec sha256_hex true rt)
  else if String.eqb name "process.get" then Some (process_get to_vec_pretty torn working_directory state_path)
  else if String.eqb name "process.list" then Some (fun _ => process_list to_vec_pretty torn working_directory state_path)
  else if String.eqb name "process.stop" then Some (process_stop to_vec_pretty torn state_path false)
  else if String.eqb name "agent.stop" then Some (process_stop to_vec_pretty torn state_path true)
  else if String.eqb name "process.events" then Some (process_events to_vec_pretty torn working_directory state_path)
  else if String.eqb name "logs.read" then Some (logs_read to_vec_pretty torn working_directory state_path)
  else if String.eqb name "port.check" then Some (fun params => lift (port_check bind_port params))
  else None.

(** An object read back at its fields passes, whatever else it has. *)
Lemma record_passes name path r : output_properties name = output_properties "process.get" -> passes_schema to_string f64_text name path (process_json r).
Proof.
  intros Hn. unfold passes_schema, process_json. eapply flat_passes; [by rewrite Hn|].
  generalize (obj_of ((fun kv => (kv.1, VString kv.2)) <$> btree_entries (pr_env r))). intros env. vm_compute. reflexivity.
Qed.

Lemma process_answers_pass rt name request params path :
  process_request rt name = Some request -> ensures (passes_schema to_string f64_text name path) (request params).
Proof.
  unfold process_request. intros H.
  repeat (let E := fresh "E" in destruct (String.eqb name _) eqn:E in H; [apply String.eqb_eq in E as ->; injection H as <-; clear|clear E]).
  - unfold process_start. do 8 (apply ensures_bind; intros ?). by apply ensures_ret, record_passes.
  - unfold process_start. do 8 (apply ensures_bind; intros ?). by apply ensures_ret, record_passes.
  - unfold process_get. do 2 (apply ensures_bind; intros ?). by apply ensures_ret, record_passes.
  - unfold process_list. apply ensures_bind; intros ?. apply ensures_ret. generalize (process_json <$> a). intros l. flat.
  - unfold process_stop. do 2 (apply ensures_bind; intros ?). by apply ensures_ret, record_passes.
  - unfold process_stop. do 2 (apply ensures_bind; intros ?). by apply ensures_ret, record_passes.
  - unfold process_events. do 2 (apply ensures_bind; intros ?). apply ensures_ret. flat.
  - unfold logs_read, process_logs. ensures. flat.
  - unfold port_check. intros s w a s' w'. unfold lift. case_match; [|done]. intros [= <- _ _]. flat.
  - done.
Qed.

(** C18: whatever the twenty requests on files and processes answer passes the output schema that the executor advertises for the capability, whatever the file system, the processes and the request are; so the controller, which validates the answers of an invocation, never refuses one of them. *)
Theorem answers_pass_schema pid fuel special_len executor_id rt name params path :
  match file_request sha256_hex torn pid fuel special_len executor_id name, process_request rt name with
  | Some request, _ => ensures (passes_schema to_string f64_text name path) (request rt params)
  | None, Some request => ensures (passes_schema to_string f64_text name path) (request params)
  | None, None => True
  end.
Proof.
  destruct (file_request sha256_hex torn pid fuel special_len executor_id name) as [request|] eqn:Ef; [by eapply file_answers_pass|].
  destruct (process_request rt name) as [request|] eqn:Ep; [by eapply process_answers_pass|done].
Qed.
End Requests.

(** ** Runs *)

Definition process_root : ExecutorRuntime := mkExecutorRuntime [at_ ["data"]] (at_ ["relay"]) None.
Definition start_params (program id : string) : Value :=
  obj_of [("cwd", VString "/data"); ("argv", VArray [VString program; VString "-f"]); ("processId", VString id); ("approvalDigest", VString "sha256:other")].
Definition start_request (program id : string) :=
  process_start (fun _ => None) half None (fun _ => "bytes") (fun s => s) false process_root (start_params program id) (web_world running_host) (sample_world 10).

Lemma unapproved_command_starts_nothing_witness :
  is_err (start_request "/bin/rm" "job").1.1 = true /\ (start_request "/bin/rm" "job").1.2 = web_world running_host.
Proof.
  destruct (start_request "/bin/rm" "job") as [[r s'] w'] eqn:H. unfold start_request in H. cbn [fst snd].
  apply (unapproved_command_starts_nothing (fun _ => None) half None (fun _ => "bytes") (fun s => s) false process_root (start_params "/bin/rm" "job") "/bin/rm" ["-f"] "/data"
    (web_world running_host) (sample_world 10) r s' w').
  - reflexivity.
  - unfold high_risk. apply (bool_decide_unpack _). vm_compute. exact I.
  - reflexivity.
  - vm_compute. discriminate.
  - exact H.
Defined.

(** The log of a process without [logPath] is not checked: an identifier with slashes puts it outside the allowed roots. *)
Example log_leaves_roots :
  is_ok (start_request "serve" "a/../../state/b").1.1 = true /\
  match vol_tree (pw_volume (start_request "serve" "a/../../state/b").1.2) !! ["state"; "b.log"] with Some (EFile _ _) => True | _ => False end /\
  allowed_roots process_root = [at_ ["data"]].
Proof. split_and!; [vm_compute; reflexivity|vm_compute; exact I|reflexivity]. Qed.

(** A port that does not fit in 16 bits is answered for the port it is cut to. *)
Example wide_port_is_cut :
  port_check (Z.eqb 80) (obj_of [("port", vu64 65616)]) = Ok (obj_of [("port", vu64 65616); ("available", VBool true)]).
Proof. reflexivity. Qed.
