(* ===== verification/Tunnels.v ===== *)
(** * Managed SSH tunnels ([tunnel.*] of [crates/machine-fabric-runtime/src/executor.rs])

    A tunnel is a managed process named [tunnel-ID] whose metadata is its
    definition: [tunnel.ensure] reuses or starts it, [tunnel.stop] ends it, and
    before every other request the executor restarts the tunnels that should
    run and do not. What [ssh -G] prints and what binding an address gives are
    parameters. *)
From Stdlib Require Import Ascii.
From stdpp Require Import base gmap strings list sorting pretty.
From S2P Require Import Prelude Json Protocol PathPolicy FileTree FileTreeLaws Generations Controller TreeDigest ArtifactRelay Resources Utf8 ProcessTable ProcessRequests.
Open Scope Z_scope.
Open Scope fabric_scope.

Definition OBSERVATION_TTL_MS : Z := 30000.

Inductive BindOutcome := BindFree | BindInUse | BindError (text : string).

(** ** Text *)

Definition bytes_text (l : list nat) : string := foldr (fun n s => String (ascii_of_nat n) s) "" l.
(** The characters of [char::is_whitespace] *)
Definition white_space : list string :=
  (bytes_text <$> [[9]; [10]; [11]; [12]; [13]; [32]; [194; 133]; [194; 160]; [225; 154; 128]; [226; 128; 168]; [226; 128; 169]; [226; 128; 175];
                   [226; 129; 159]; [227; 128; 128]]%nat) ++
  ((fun n => bytes_text [226; 128; n]%nat) <$> seq 128 11).
(** [split_whitespace().next()]: [inside] once the word began *)
Fixpoint first_word_loop (fuel : nat) (inside : bool) (s : string) : string :=
  match fuel, s with
  | S fuel', String _ _ =>
      let n := (first_char s).1 in
      let c := take_bytes n s in
      if existsb (String.eqb c) white_space then (if inside then "" else first_word_loop fuel' false (drop_bytes n s))
      else c +:+ first_word_loop fuel' true (drop_bytes n s)
  | _, _ => ""
  end.
(** The empty text when there is no word *)
Definition first_word (s : string) : string := first_word_loop (String.length s) false s.

Definition forwarding : list string := ["localforward"; "remoteforward"; "dynamicforward"; "clearallforwardings"].
(** [sanitize_tunnel_ssh_config] *)
Definition sanitize_tunnel_ssh_config (resolved : string) : string :=
  String.concat (String "010"%char "") (List.filter (fun line => negb (existsb (String.eqb (first_word line)) forwarding)) (lines resolved))
  +:+ String "010"%char "".

(** [validate_resource_id] *)
Definition resource_byte (c : ascii) : bool :=
  is_ascii_alphanumeric c || Ascii.eqb c "."%char || Ascii.eqb c "_"%char || Ascii.eqb c "-"%char.
Definition validate_resource_id (value : string) : result RpcError unit :=
  if str_is_empty value || (128 <? str_len value) || negb (bytes_all resource_byte value)
  then Err (rpc_error "INVALID_PARAMS" "resource id contains unsupported characters")
  else Ok tt.

(** [tunnel_ssh_argv] *)
Definition tunnel_ssh_argv (ssh_host : string) (config : Path) (direction bind_host : string) (bind_port : Z) (target_host : string) (target_port : Z) : list string :=
  ["ssh"; "-F"; display config; "-N"; "-C"; "-o"; "BatchMode=yes"; "-o"; "PreferredAuthentications=publickey"; "-o"; "ConnectTimeout=8";
   "-o"; "ConnectionAttempts=1"; if String.eqb direction "local-forward" then "-L" else "-R";
   bind_host +:+ ":" +:+ pretty bind_port +:+ ":" +:+ target_host +:+ ":" +:+ pretty target_port;
   "-o"; "ExitOnForwardFailure=yes"; "-o"; "ServerAliveInterval=10"; "-o"; "ServerAliveCountMax=3"; ssh_host].
(** The [splice] before the last argument *)
Definition splice_before_last (l extra : list string) : list string := take (length l - 1) l ++ extra ++ drop (length l - 1) l.

(** ** Records of tunnels *)

Definition metadata_is (key text : string) (m : Value) : bool := bool_decide (vget key m ≫= as_str = Some text).
Definition is_tunnel (r : ProcessRecord) : bool := metadata_is "kind" "tunnel" (pr_metadata r).
Definition require_tunnel_record (r : ProcessRecord) : result RpcError unit :=
  if is_tunnel r then Ok tt else Err (rpc_error "TUNNEL_NOT_FOUND" "process is not a managed tunnel").

Definition option_value_eqb (a b : option Value) : bool :=
  match a, b with Some x, Some y => value_eqb x y | None, None => true | _, _ => false end.
Definition tunnel_definition_matches (left right : Value) : bool :=
  forallb (fun key => option_value_eqb (vget key left) (vget key right))
    ["kind"; "tunnelId"; "workspaceSessionId"; "sshHost"; "direction"; "source"; "destination"].

(** Whether a record is a running tunnel, other than the named one, that binds the address *)
Definition bind_conflict (process_id bind_host : string) (bind_port : Z) (r : ProcessRecord) : bool :=
  negb (String.eqb (pr_id r) process_id) && is_tunnel r && bool_decide (pr_state r = Running) &&
  bool_decide (pointer ["source"; "host"] (pr_metadata r) ≫= as_str = Some bind_host) &&
  bool_decide (pointer ["source"; "port"] (pr_metadata r) ≫= as_u64 = Some bind_port).

(** [metadata[key] = value] of an object *)
Definition set_key (key : string) (x v : Value) : Value := default v (vindex_set key x v).
Definition with_details (e : RpcError) (details : Value) : RpcError := mkRpcError (err_code e) (err_message e) (err_retryable e) details.

Definition source_endpoint (metadata : Value) : option (string * Z) :=
  match as_str (vindex (vindex metadata "source") "host"), as_u64 (vindex (vindex metadata "source") "port") with
  | Some host, Some port => if port <=? 65535 then Some (host, port) else None
  | _, _ => None
  end.

Section Tunnels.
Context (to_vec_pretty : gmap string ProcessRecord -> option string) (torn : string -> string) (working_directory : Path) (state_path : option Path).
Context (ssh_output : string -> option (bool * string)) (bind_outcome : ProcessWorld -> string -> Z -> BindOutcome) (fuel : nat).
Local Abbreviation list_ := (list_processes to_vec_pretty torn working_directory state_path).
Local Abbreviation get_ := (get_process to_vec_pretty torn working_directory state_path).
Local Abbreviation start_ := (start to_vec_pretty torn state_path).
Local Abbreviation stop_ := (stop to_vec_pretty torn state_path).

(** ** Observing *)

(** [tunnel_bind_observation] *)
Definition tunnel_bind_observation {E} (metadata : Value) : M ProcessWorld E Value :=
  let* s := get in
  if negb (bool_decide (as_str (vindex metadata "direction") = Some "local-forward"))
  then ret (obj_of [("state", VString "unknown"); ("reason", VString "bind endpoint is remote")])
  else
    ret match source_endpoint metadata with
        | None => obj_of [("state", VString "unknown")]
        | Some (host, port) =>
            match bind_outcome s host port with
            | BindFree => obj_of [("state", VString "available")]
            | BindInUse => obj_of [("state", VString "in-use")]
            | BindError text => obj_of [("state", VString "unknown"); ("reason", VString text)]
            end
        end.

(** [tunnel_source_is_reachable] *)
Definition tunnel_source_is_reachable {E} (metadata : Value) : M ProcessWorld E bool :=
  if negb (metadata_is "direction" "local-forward" metadata) then ret false
  else
    match source_endpoint metadata with
    | None => ret false
    | Some _ => let* found := connect in ret (default false found)
    end.

(** [tunnel_view] *)
Definition observed_state (r : ProcessRecord) (fresh_identity reachable : bool) : string :=
  if bool_decide (pr_state r = Stopped) then "stopped"
  else if bool_decide (pr_state r = Failed) then "failed"
  else if negb fresh_identity then "unknown"
  else if bool_decide (as_str (vindex (pr_metadata r) "direction") = Some "remote-forward") then "running"
  else if reachable then "ready"
  else if bool_decide (rs_state (pr_readiness r) = Pending) then "starting"
  else "degraded".
Definition is_fresh (r : ProcessRecord) (checked_at : Z) : bool :=
  pr_identity_verified r &&
  match pr_observed_at r with Some at_ => (at_ <=? checked_at) && (checked_at - at_ <? OBSERVATION_TTL_MS) | None => false end.
Definition tunnel_view {E} (r : ProcessRecord) (reused : bool) : M ProcessWorld E Value :=
  let* checked_at := now_ms in
  let* reachable := tunnel_source_is_reachable (pr_metadata r) in
  let* binding := tunnel_bind_observation (pr_metadata r) in
  let field key := vopt id (vget key (pr_metadata r)) in
  ret (obj_of [("id", field "tunnelId"); ("workspaceSessionId", field "workspaceSessionId"); ("sshHost", field "sshHost");
               ("direction", field "direction"); ("source", field "source"); ("destination", field "destination");
               ("desiredState", field "desiredState"); ("observedState", VString (observed_state r (is_fresh r checked_at) reachable));
               ("state", VString (process_state_kebab (pr_state r))); ("readiness", readiness_json (pr_readiness r));
               ("processId", VString (pr_id r)); ("startedAt", vu64 (pr_started_at r)); ("updatedAt", vu64 (pr_updated_at r));
               ("lastProbeAt", vopt vu64 (pr_last_successful_probe_at r));
               ("observation", obj_of [("checkedAt", vu64 checked_at); ("expiresAt", vu64 (u64_saturating_add checked_at OBSERVATION_TTL_MS));
                                       ("ttlMs", vu64 OBSERVATION_TTL_MS); ("identityVerified", VBool (is_fresh r checked_at));
                                       ("sourceReachable", VBool reachable); ("binding", binding)]);
               ("reused", VBool reused)]).

(** ** Operations *)

(** [write_tunnel_ssh_config] *)
Definition write_tunnel_ssh_config (ssh_host : string) (path : Path) : M ProcessWorld RpcError unit :=
  match ssh_output ssh_host with
  | None | Some (false, _) => fail (rpc_error "SSH_CONFIG_RESOLVE_FAILED" "")
  | Some (true, resolved) =>
      if is_utf8 resolved then
        on_disk (with_err (fun _ => rpc_error "SSH_CONFIG_WRITE_FAILED" "")
          (Fs.write torn path (sanitize_tunnel_ssh_config resolved) ;; Fs.set_permissions path 384))
      else fail (rpc_error "SSH_CONFIG_RESOLVE_FAILED" "")
  end.

(** A refusal that shows the record *)
Definition refuse_with {A} (e : RpcError) (r : ProcessRecord) : M ProcessWorld RpcError A :=
  let* view := tunnel_view r false in fail (with_details e view).

(** The definition that [tunnel.ensure] asks for *)
Record TunnelRequest := mkTunnelRequest {
  tr_id : string; tr_direction : string; tr_bind_host : string; tr_bind_port : Z; tr_target_host : string; tr_target_port : Z; tr_ssh_host : string;
  tr_session : Value;
}.
Definition tunnel_request (params : Value) : result RpcError TunnelRequest :=
  bind_result (required_str params "tunnelId") (fun tunnel_id =>
  bind_result (validate_resource_id tunnel_id) (fun _ =>
  bind_result (required_str params "direction") (fun direction =>
  if negb (String.eqb direction "local-forward" || String.eqb direction "remote-forward")
  then Err (rpc_error "INVALID_PARAMS" "unsupported tunnel direction")
  else
    bind_result (required_str params "bindHost") (fun bind_host =>
    bind_result (required_port params "bindPort") (fun bind_port =>
    bind_result (required_str params "targetHost") (fun target_host =>
    bind_result (required_port params "targetPort") (fun target_port =>
    bind_result (required_str params "sshHost") (fun ssh_host =>
    Ok (mkTunnelRequest tunnel_id direction bind_host bind_port target_host target_port ssh_host (vopt id (vget "workspaceSessionId" params))))))))))).
Definition tunnel_metadata (t : TunnelRequest) : Value :=
  obj_of [("kind", VString "tunnel"); ("tunnelId", VString (tr_id t)); ("workspaceSessionId", tr_session t); ("sshHost", VString (tr_ssh_host t));
          ("direction", VString (tr_direction t)); ("source", obj_of [("host", VString (tr_bind_host t)); ("port", vu64 (tr_bind_port t))]);
          ("destination", obj_of [("host", VString (tr_target_host t)); ("port", vu64 (tr_target_port t))]); ("desiredState", VString "running")].
Definition tunnel_process (tunnel_id : string) : string := "tunnel-" +:+ tunnel_id.

(** The end of [tunnel.ensure]: the process that carries the tunnel *)
Definition local_readiness (t : TunnelRequest) : option Value :=
  if String.eqb (tr_direction t) "local-forward"
  then Some (obj_of [("type", VString "tcp"); ("host", VString (tr_bind_host t)); ("port", vu64 (tr_bind_port t)); ("timeoutMs", vu64 8000); ("intervalMs", vu64 250)])
  else None.
Definition start_tunnel (rt : ExecutorRuntime) (params : Value) (t : TunnelRequest) : M ProcessWorld RpcError Value :=
  let process_id := tunnel_process (tr_id t) in
  let* cwd := on_disk (write_path rt params "cwd" true) in
  let* log_path := match vget "logPath" params ≫= as_str with
                   | Some _ => on_disk (write_path rt params "logPath" false)
                   | None => ret (join cwd [".workbench-" +:+ process_id +:+ ".log"])
                   end in
  let config := join cwd [".workbench-" +:+ process_id +:+ ".ssh-config"] in
  write_tunnel_ssh_config (tr_ssh_host t) config ;;
  let argv := tunnel_ssh_argv (tr_ssh_host t) config (tr_direction t) (tr_bind_host t) (tr_bind_port t) (tr_target_host t) (tr_target_port t) in
  let* argv := match vget "knownHostsFile" params ≫= as_str with
               | Some _ =>
                   let* known_hosts := on_disk (write_path rt params "knownHostsFile" false) in
                   ret (splice_before_last argv ["-o"; "UserKnownHostsFile=" +:+ display known_hosts])
               | None => ret argv
               end in
  let* record := start_ process_id cwd argv ∅ log_path (local_readiness t) true (tunnel_metadata t) in
  (if String.eqb (tr_direction t) "local-forward" then
     let* waited := wait_ready to_vec_pretty torn working_directory state_path fuel (pr_id record) 8000 in
     match waited with Some _ => ret tt | None => fail out_of_fuel end
   else ret tt) ;;
  let* record := get_ (pr_id record) in
  tunnel_view record false.

(** [tunnel_ensure] *)
Definition tunnel_ensure (rt : ExecutorRuntime) (params : Value) : M ProcessWorld RpcError Value :=
  let* t := lift (tunnel_request params) in
  let process_id := tunnel_process (tr_id t) in
  let metadata := tunnel_metadata t in
  let* records := list_ in
  match List.find (bind_conflict process_id (tr_bind_host t) (tr_bind_port t)) records with
  | Some conflict => refuse_with (rpc_error "TUNNEL_BIND_CONFLICT" ("bind " +:+ tr_bind_host t +:+ ":" +:+ pretty (tr_bind_port t) +:+ " is held by " +:+ pr_id conflict)) conflict
  | None =>
      let* existing := attempt (get_ process_id) in
      match existing with
      | Ok existing =>
          if negb (bool_decide (pr_state existing = Running)) then start_tunnel rt params t
          else if negb (pr_identity_verified existing) then refuse_with (rpc_error "PROCESS_IDENTITY_UNKNOWN" "recorded tunnel PID cannot be verified; port occupancy is not established") existing
          else if negb (tunnel_definition_matches (pr_metadata existing) metadata) then
            let* view := tunnel_view existing false in
            let* binding := tunnel_bind_observation metadata in
            fail (with_details (rpc_error "TUNNEL_CONFLICT" ("tunnel " +:+ tr_id t +:+ " has a verified live process with a different definition")) (set_key "requestedBinding" binding view))
          else tunnel_view existing true
      | Err _ => start_tunnel rt params t
      end
  end.

(** [tunnel_get] and [tunnel.list] *)
Definition tunnel_get (params : Value) : M ProcessWorld RpcError Value :=
  let* tunnel_id := lift (required_str params "tunnelId") in
  lift (validate_resource_id tunnel_id) ;;
  let* record := get_ (tunnel_process tunnel_id) in
  lift (require_tunnel_record record) ;;
  tunnel_view record false.
Definition tunnel_list : M ProcessWorld RpcError Value :=
  let* records := list_ in
  let* views := map_m (fun r => tunnel_view r false) (List.filter is_tunnel records) in
  ret (obj_of [("tunnels", VArray views)]).

(** [tunnel.stop] *)
Definition tunnel_stop (params : Value) : M ProcessWorld RpcError Value :=
  let* tunnel_id := lift (required_str params "tunnelId") in
  lift (validate_resource_id tunnel_id) ;;
  let process_id := tunnel_process tunnel_id in
  let* existing := get_ process_id in
  lift (require_tunnel_record existing) ;;
  let* _ := update_metadata to_vec_pretty torn state_path process_id (set_key "desiredState" (VString "stopped") (pr_metadata existing)) in
  let* record := stop_ process_id in
  let* removed := attempt (on_disk (Fs.remove_file (join (pr_cwd record) [".workbench-" +:+ process_id +:+ ".ssh-config"]))) in
  match removed with
  | Ok _ | Err NotFound => tunnel_view record false
  | Err _ => fail (rpc_error "SSH_CONFIG_REMOVE_FAILED" "")
  end.

(** [reconcile_tunnels] *)
Definition needs_restart (now : Z) (r : ProcessRecord) : bool :=
  is_tunnel r && metadata_is "desiredState" "running" (pr_metadata r) && (bool_decide (pr_state r = Failed) || bool_decide (pr_state r = Stopped)) &&
  (5000 <=? u64_saturating_sub now (default 0 (vget "lastReconcileAttemptAt" (pr_metadata r) ≫= as_u64))).
Definition reconcile_one {E} (now : Z) (r : ProcessRecord) : M ProcessWorld E unit :=
  let* _ := attempt (update_metadata to_vec_pretty torn state_path (pr_id r) (set_key "lastReconcileAttemptAt" (vu64 now) (pr_metadata r))) in
  let* _ := attempt (restart to_vec_pretty torn working_directory state_path (pr_id r)) in
  ret tt.
Definition reconcile_tunnels {E} : M ProcessWorld E unit :=
  let* now := now_ms in
  let* records := list_ in
  for_each (List.filter (needs_restart now) records) (reconcile_one now).
End Tunnels.
