(* ===== verification/TunnelSafety.v ===== *)
(** * Managed SSH tunnels: who binds what

    A request for a tunnel never makes two running tunnels bind one address; the
    restart of tunnels may, as the runs at the end show. *)
From Stdlib Require Import Ascii.
From stdpp Require Import base gmap strings list sorting pretty relations.
From S2P Require Import Prelude Json Protocol Resources PathPolicy FileTree FileTreeLaws Generations Controller TreeDigest ArtifactRelay Utf8 ProcessTable ProcessSafety.
From S2P Require Import ProcessDisk ProcessSignals ProcessRuns ProcessRequests Tunnels.
Open Scope Z_scope.
Open Scope fabric_scope.

(** ** Records that only fade *)

(** Every record is a former one with the same metadata, that is running only if it was. *)
Definition fades (m m' : gmap string ProcessRecord) : Prop :=
  forall id r', m' !! id = Some r' -> exists r, m !! id = Some r /\ pr_metadata r' = pr_metadata r /\ (pr_state r' = Running -> pr_state r = Running).
#[export] Instance fades_preorder : PreOrder fades.
Proof.
  split.
  - intros m id r H. by exists r.
  - intros m1 m2 m3 H12 H23 id r3 (r2 & (r1 & ? & ? & ?)%H12 & ? & ?)%H23. exists r1. split_and!; [done|congruence|auto].
Qed.
Lemma fades_insert m id r r' : m !! id = Some r -> pr_metadata r' = pr_metadata r -> (pr_state r' = Running -> pr_state r = Running) -> fades m (<[id := r']> m).
Proof.
  intros Hr Hm Hs k x Hk. destruct (decide (id = k)) as [->|Hne].
  - rewrite lookup_insert_eq in Hk. injection Hk as <-. by exists r.
  - rewrite lookup_insert_ne in Hk by done. by exists x.
Qed.

(** The record is a running tunnel that binds the address. *)
Definition binds (r : ProcessRecord) (host : string) (port : Z) : Prop :=
  is_tunnel r = true /\ pr_state r = Running /\ pointer ["source"; "host"] (pr_metadata r) ≫= as_str = Some host /\
  pointer ["source"; "port"] (pr_metadata r) ≫= as_u64 = Some port.
Definition bindings_unique (m : gmap string ProcessRecord) : Prop :=
  forall i j ri rj host port, m !! i = Some ri -> m !! j = Some rj -> binds ri host port -> binds rj host port -> i = j.

Lemma binds_fade r r' host port : pr_metadata r' = pr_metadata r -> (pr_state r' = Running -> pr_state r = Running) -> binds r' host port -> binds r host port.
Proof. intros Hm Hs (Ht & Hr & Hh & Hp). unfold binds, is_tunnel in *. rewrite Hm in *. auto. Qed.
Lemma fades_unique m m' : fades m m' -> bindings_unique m -> bindings_unique m'.
Proof.
  intros Hf Hu i j ri rj host port Hi Hj Hbi Hbj. apply Hf in Hi as (xi & Hi & Hmi & Hsi). apply Hf in Hj as (xj & Hj & Hmj & Hsj).
  eapply Hu; [exact Hi|exact Hj|by eapply binds_fade|by eapply binds_fade].
Qed.
(** A new record keeps the addresses apart when no other running tunnel binds its address. *)
Lemma insert_unique m id r :
  bindings_unique m -> (forall j x host port, m !! j = Some x -> j <> id -> binds r host port -> ~ binds x host port) -> bindings_unique (<[id := r]> m).
Proof.
  intros Hu Hn i j ri rj host port Hi Hj Hbi Hbj. apply lookup_insert_Some in Hi as [[<- <-]|[Hi1 Hi]], Hj as [[<- <-]|[Hj1 Hj]]; [done| | |by eapply Hu].
  - by destruct (Hn j rj host port Hj (not_eq_sym Hj1) Hbi).
  - by destruct (Hn i ri host port Hi (not_eq_sym Hi1) Hbj).
Qed.

Section Bindings.
Context (to_vec_pretty : gmap string ProcessRecord -> option string) (torn : string -> string) (working_directory : Path) (state_path : option Path).
Context (ssh_output : string -> option (bool * string)) (bind_outcome : ProcessWorld -> string -> Z -> BindOutcome) (fuel : nat).

Definition fading {E A} (m : M ProcessWorld E A) : Prop := forall s w r s' w', m s w = (r, s', w') -> fades (pw_records s) (pw_records s').
Lemma fading_quiet {E A} (m : M ProcessWorld E A) : quiet m -> fading m.
Proof. intros Hm s w r s' w' ->%Hm. reflexivity. Qed.
Lemma fading_bind {E A B} (m : M ProcessWorld E A) (k : A -> M ProcessWorld E B) : fading m -> (forall a, fading (k a)) -> fading (bind m k).
Proof.
  intros Hm Hk s w r s' w' (r1 & s1 & w1 & H1 & H)%bind_cases. apply Hm in H1. destruct r1 as [a|]; [|by destruct H as (_ & -> & _)].
  apply Hk in H. by etrans.
Qed.
Lemma fading_attempt {E F A} (m : M ProcessWorld F A) : fading m -> fading (E := E) (attempt m).
Proof. intros Hm s w r s' w' (r0 & -> & H)%attempt_cases. by eapply Hm. Qed.

Lemma refresh_fade {E} r s w (res : result E ProcessRecord) s' w' :
  refresh working_directory r s w = (res, s', w') ->
  exists r', res = Ok r' /\ pr_metadata r' = pr_metadata r /\ (pr_state r' = Running -> pr_state r = Running) /\ pw_records s' = pw_records s.
Proof.
  intros H. destruct (refresh_run _ _ _ _ _ _ _ H) as (r' & -> & _ & E'). exists r'. apply refresh_same in H as [Hs Ha]. split_and!; [done|apply (sl_metadata _ _ Hs)| |done].
  intros Hr. by apply Ha in Hr as [? _].
Qed.
Lemma get_process_fading id : fading (get_process to_vec_pretty torn working_directory state_path id).
Proof.
  intros s w r s' w' H. unfold get_process in H. apply bind_cases in H as (r1 & s1 & w1 & H1 & H).
  apply find_record_run in H1 as (-> & -> & Hf). destruct r1 as [record|]; [|by destruct H as (_ & -> & _)].
  apply bind_cases in H as (r2 & s2 & w2 & H2 & H). apply refresh_fade in H2 as (r' & -> & Hm & Hs & E2). rewrite <- E2 in *.
  apply bind_cases in H as (r3 & s3 & w3 & H3 & H). unfold put_record, modify in H3. injection H3 as <- <- <-.
  apply (fixes_bind pw_records _ _ (persist_quiet _ _ _) (fun _ => fixes_ret pw_records _)) in H. cbn in H. rewrite H.
  eapply fades_insert; [by apply Hf|done|done].
Qed.
Lemma wait_loop_fading n id deadline : fading (wait_loop to_vec_pretty torn working_directory state_path n id deadline).
Proof.
  induction n as [|n IH]; cbn [wait_loop]; [apply fading_quiet, fixes_ret|]. apply fading_bind; [apply get_process_fading|]. intros record.
  repeat case_match; try (apply fading_quiet; fixes; fail). apply fading_bind; [apply fading_quiet, fixes_instant|]. intros now. case_match; [apply fading_quiet, fixes_fail|done].
Qed.
Lemma refresh_records_fading {E} : fading (E := E) (refresh_records working_directory).
Proof.
  intros s w r s' w' H. unfold refresh_records in H. apply bind_cases in H as (r1 & s1 & w1 & H1 & H). unfold gets in H1. injection H1 as <- <- <-.
  assert (forall k x, (k, x) ∈ btree_entries (pw_records s) -> pw_records s !! k = Some x) as Hl by (intros k x; apply elem_of_btree_entries).
  pose proof (btree_entries_NoDup (pw_records s)) as Hd. revert Hl Hd H. generalize (btree_entries (pw_records s)). intros l. revert s w.
  induction l as [|[k x] l IH]; intros s w Hl Hd H; cbn [for_each] in H; [unfold ret in H; injection H as _ <- _; reflexivity|].
  apply NoDup_cons in Hd as [Hk Hd]. apply bind_cases in H as (r1 & s1 & w1 & H1 & H). apply bind_cases in H1 as (r2 & s2 & w2 & H2 & H1).
  apply refresh_fade in H2 as (x' & -> & Hm & Hs & E1). cbn in H1. unfold put_record, modify in H1. injection H1 as <- <- <-.
  etrans; [apply (fades_insert _ k x x'); [apply Hl, list_elem_of_here|done..]|]. rewrite <- E1.
  change (<[k := x']> (pw_records s2)) with (pw_records (set_records (<[k := x']> (pw_records s2)) s2)).
  eapply IH; [|done|exact H]. intros k' y Hy. cbn. rewrite E1, lookup_insert_ne; [by apply Hl, list_elem_of_further|].
  intros <-. apply Hk, list_elem_of_fmap. by exists (k, y).
Qed.
(** A list answers the records of the table. *)
Lemma list_run {E} s w (r : result E (list ProcessRecord)) s' w' :
  list_processes to_vec_pretty torn working_directory state_path s w = (r, s', w') -> fades (pw_records s) (pw_records s') /\ forall l, r = Ok l -> l = btree_values (pw_records s').
Proof.
  intros H. unfold list_processes in H. apply bind_cases in H as (r1 & s1 & w1 & H1 & H). apply refresh_records_fading in H1.
  destruct r1 as [[]|]; [|destruct H as (-> & -> & _); by split]. apply bind_cases in H as (r2 & s2 & w2 & H2 & H). apply attempt_cases in H2 as (r0 & -> & H2).
  apply persist_quiet in H2. unfold gets in H. injection H as <- <- _. rewrite H2. split; [done|]. by intros l [= <-].
Qed.

Lemma view_quiet {E} r reused : quiet (@tunnel_view bind_outcome E r reused).
Proof.
  unfold tunnel_view, tunnel_source_is_reachable, tunnel_bind_observation. pose proof (@connect_fixes _ pw_records ltac:(done)) as Hc.
  assert (forall E, quiet (@get ProcessWorld E)) as Hg by (by intros E' s w r' s' w' [= <- <- <-]). fixes.
Qed.
Lemma refuse_quiet {A} e r : quiet (refuse_with (A := A) bind_outcome e r).
Proof. unfold refuse_with. pose proof @view_quiet. fixes. Qed.
Lemma config_quiet host path : quiet (write_tunnel_ssh_config torn ssh_output host path).
Proof. unfold write_tunnel_ssh_config. fixes. Qed.

(** No running tunnel but that of the request binds its address. *)
Definition address_free (t : TunnelRequest) (m : gmap string ProcessRecord) : Prop :=
  forall j x, m !! j = Some x -> j <> tunnel_process (tr_id t) -> ~ binds x (tr_bind_host t) (tr_bind_port t).
Lemma address_free_fades t m m' : fades m m' -> address_free t m -> address_free t m'.
Proof. intros Hf Ha j x' (x & Hx & Hm & Hs)%Hf Hj Hb. eapply Ha; [exact Hx|exact Hj|by eapply binds_fade]. Qed.

(** The address of a tunnel that was just started is that of its request. *)
Lemma tunnel_binds t r host port : pr_metadata r = tunnel_metadata t -> binds r host port -> host = tr_bind_host t /\ port = tr_bind_port t.
Proof. intros Hm (_ & _ & Hh & Hp). rewrite Hm in Hh, Hp. unfold tunnel_metadata in Hh, Hp. cbn in Hh, Hp. injection Hh as ->. injection Hp as ->. by split. Qed.

Lemma start_tunnel_unique rt params t s w r s' w' :
  bindings_unique (pw_records s) -> address_free t (pw_records s) ->
  start_tunnel to_vec_pretty torn working_directory state_path ssh_output bind_outcome fuel rt params t s w = (r, s', w') -> bindings_unique (pw_records s').
Proof.
  intros Hu Ha H. unfold start_tunnel in H.
  apply bind_cases in H as (r1 & s1 & w1 & H1 & H). apply quiet_on_disk in H1 as E1. destruct r1 as [cwd|]; [|destruct H as (_ & -> & _); by rewrite E1].
  apply bind_cases in H as (r2 & s2 & w2 & H2 & H).
  assert (pw_records s2 = pw_records s1) as E2 by (destruct (vget "logPath" params ≫= as_str); [by apply quiet_on_disk in H2|by apply (fixes_ret pw_records) in H2]).
  destruct r2 as [log_path|]; [|destruct H as (_ & -> & _); by rewrite E2, E1].
  apply bind_cases in H as (r3 & s3 & w3 & H3 & H). apply config_quiet in H3 as E3. destruct r3 as [u3|]; [|destruct H as (_ & -> & _); by rewrite E3, E2, E1].
  apply bind_cases in H as (r4 & s4 & w4 & H4 & H). assert (pw_records s4 = pw_records s3) as E4.
  { destruct (vget "knownHostsFile" params ≫= as_str); [|by apply (fixes_ret pw_records) in H4]. revert H4. apply (fixes_bind pw_records); [apply quiet_on_disk|intros q; apply fixes_ret]. }
  destruct r4 as [argv|]; [|destruct H as (_ & -> & _); by rewrite E4, E3, E2, E1].
  assert (pw_records s4 = pw_records s) as E by congruence. rewrite <- E in *. clear E1 E2 E3 E4 E H1 H2 H3 H4.
  apply bind_cases in H as (r5 & s5 & w5 & H5 & H). assert (bindings_unique (pw_records s5)) as Hu5.
  { apply start_cases in H5 as [->|(record & _ & Hl & Hm & ->)]; [done|]. apply insert_unique; [done|]. intros j x host port Hx Hj Hb.
    apply (tunnel_binds t) in Hb as [-> ->]; [|done]. by apply Ha with j. }
  destruct r5 as [record|]; [|by destruct H as (_ & -> & _)]. eapply fades_unique; [|exact Hu5]. eapply (fading_bind _ _); [| |exact H].
  - case_match; [|apply fading_quiet, fixes_ret]. apply fading_bind.
    + unfold wait_ready. apply fading_bind; [apply fading_quiet, fixes_instant|]. intros now. apply wait_loop_fading.
    + intros waited. apply fading_quiet. fixes.
  - intros u. apply fading_bind; [apply get_process_fading|]. intros x. apply fading_quiet, view_quiet.
Qed.

(** a request for a tunnel keeps the addresses of the running tunnels apart: in a table whose records have their type, where no two running tunnels bind the same address, none do after the request, whether it reuses a tunnel, starts one, or fails at any of its steps. *)
Theorem ensure_keeps_bindings rt params s w r s' w' :
  records_ok (pw_records s) -> bindings_unique (pw_records s) ->
  tunnel_ensure to_vec_pretty torn working_directory state_path ssh_output bind_outcome fuel rt params s w = (r, s', w') -> bindings_unique (pw_records s').
Proof.
  intros Hok Hu H. unfold tunnel_ensure in H. apply bind_cases in H as (r1 & s1 & w1 & H1 & H). unfold lift in H1. injection H1 as <- <- <-.
  destruct (tunnel_request params) as [t|]; [|by destruct H as (_ & -> & _)]. apply bind_cases in H as (r2 & s2 & w2 & H2 & H).
  assert (records_ok (pw_records s2)) as Hok2 by (eapply lives_ok; [by eapply list_processes_lives|done]).
  apply list_run in H2 as [Hf2 Hl]. assert (bindings_unique (pw_records s2)) as Hu2 by (by eapply fades_unique).
  destruct r2 as [records|]; [|by destruct H as (_ & -> & _)]. rewrite (Hl records eq_refl) in H. clear Hl Hf2.
  destruct (List.find _ _) as [conflict|] eqn:Hfind; [apply refuse_quiet in H; by rewrite H|].
  assert (address_free t (pw_records s2)) as Hfree.
  { intros j x Hx Hj (Ht & Hr & Hh & Hp). apply (find_none _ _) with (x := x) in Hfind; [|apply list_elem_of_In, elem_of_btree_values; by exists j].
    unfold bind_conflict in Hfind. rewrite (ok_id _ _ (Hok2 j x Hx)), Ht, !bool_decide_true in Hfind by done.
    apply String.eqb_neq in Hj. by rewrite Hj in Hfind. }
  apply bind_cases in H as (r3 & s3 & w3 & H3 & H). apply attempt_cases in H3 as (existing & -> & H3). apply get_process_fading in H3.
  assert (bindings_unique (pw_records s3)) as Hu3 by (by eapply fades_unique). apply (address_free_fades _ _ _ H3) in Hfree.
  destruct existing as [existing|]; [|by eapply start_tunnel_unique]. case_match; [by eapply start_tunnel_unique|]. case_match; [apply refuse_quiet in H; by rewrite H|].
  case_match; [|apply view_quiet in H; by rewrite H]. revert H. intros H.
  assert (quiet (let* view := tunnel_view bind_outcome existing false in let* binding := tunnel_bind_observation bind_outcome (tunnel_metadata t) in
    fail (A := Value) (with_details (rpc_error "TUNNEL_CONFLICT" ("tunnel " +:+ tr_id t +:+ " has a verified live process with a different definition")) (set_key "requestedBinding" binding view)))) as Hq.
  { apply fixes_bind; [apply view_quiet|]. intros v. apply fixes_bind; [|intros b; apply fixes_fail]. unfold tunnel_bind_observation.
    apply fixes_bind; [by intros s0 w0 r0 s0' w0' [= <- <- <-]|]. intros x. fixes. }
  apply Hq in H. by rewrite H.
Qed.
End Bindings.

(** ** Runs

    A request on which the theorem applies, and runs that show what the restart of
    tunnels and the observation of their identity do not keep. *)

Definition demo_params (ssh_host : string) : Value :=
  obj_of [("tunnelId", VString "demo"); ("sshHost", VString ssh_host); ("direction", VString "remote-forward"); ("bindHost", VString "127.0.0.1");
          ("bindPort", vu64 8000); ("targetHost", VString "127.0.0.1"); ("targetPort", vu64 80); ("cwd", VString "/data")].
Definition ssh_answer (_ : string) : option (bool * string) := Some (true, "user me" +:+ String "010"%char ("localforward 1 2" +:+ String "010"%char "port 22")).
Definition nothing_bound (_ : ProcessWorld) (_ : string) (_ : Z) : BindOutcome := BindFree.
Definition demo_ensure (s : ProcessWorld) := tunnel_ensure (fun _ => None) half (at_ ["run"]) None ssh_answer nothing_bound 5 process_root (demo_params "box") s (sample_world 10).
Definition tunnels_at (host : string) (port : Z) (s : ProcessWorld) : list string := pr_id <$> List.filter (bind_conflict "" host port) (btree_values (pw_records s)).

Lemma ensure_keeps_bindings_witness :
  is_ok (demo_ensure (web_world running_host)).1.1 = true /\ tunnels_at "127.0.0.1" 8000 (demo_ensure (web_world running_host)).1.2 = ["tunnel-demo"] /\
  bindings_unique (pw_records (demo_ensure (web_world running_host)).1.2).
Proof.
  split; [vm_compute; reflexivity|]. split; [vm_compute; reflexivity|]. destruct (demo_ensure (web_world running_host)) as [[r s'] w'] eqn:H. unfold demo_ensure in H. cbn [fst snd].
  apply (ensure_keeps_bindings (fun _ => None) half (at_ ["run"]) None ssh_answer nothing_bound 5 process_root (demo_params "box") (web_world running_host) (sample_world 10) r s' w').
  - apply map_Forall_singleton, web_record_ok.
  - intros i j ri rj host port Hi Hj _ _. cbn [pw_records web_world] in Hi, Hj. unfold web_table in Hi, Hj.
    apply lookup_singleton_Some in Hi as [<- _]. by apply lookup_singleton_Some in Hj as [<- _].
  - exact H.
Defined.

(** What [ssh -G] prints is written without its forwardings. *)
Example config_is_sanitized :
  vol_tree (pw_volume (demo_ensure (web_world running_host)).1.2) !! ["data"; ".workbench-tunnel-demo.ssh-config"] =
  Some (EFile 384 ("user me" +:+ String "010"%char ("port 22" +:+ String "010"%char ""))).
Proof. vm_compute. reflexivity. Qed.

(** A tunnel that ended, and another that took its address: the restart of the first makes both run. *)
Definition tunnel_record (id : string) (pid : Z) (state : ProcessState) : ProcessRecord :=
  mkProcessRecord ("tunnel-" +:+ id) pid true (Some 1) (at_ ["data"]) ["ssh"] ∅ true
    (tunnel_metadata (mkTunnelRequest id "remote-forward" "127.0.0.1" 8000 "127.0.0.1" 80 "box" VNull))
    (at_ ["data"; "t.log"]) state (mkReadinessStatus NotConfigured 0) None None 1 1 None.
Definition two_tunnels : ProcessWorld :=
  mkProcessWorld {["tunnel-a" := tunnel_record "a" 50 Stopped; "tunnel-b" := tunnel_record "b" 100 Running]} (mkVolume (web_tree newline) 18 []) running_host.
Definition reconciled := reconcile_tunnels (E := RpcError) (fun _ => None) half (at_ ["run"]) None two_tunnels (sample_world 9000).
Example restart_takes_a_bound_address :
  tunnels_at "127.0.0.1" 8000 two_tunnels = ["tunnel-b"] /\ tunnels_at "127.0.0.1" 8000 reconciled.1.2 = ["tunnel-a"; "tunnel-b"].
Proof. split; vm_compute; reflexivity. Qed.

(** The time of the observation is that of the start: half a minute later a tunnel that runs is shown as unknown, and asking for it does not change that. *)
Definition running_tunnel : ProcessWorld :=
  mkProcessWorld {["tunnel-b" := tunnel_record "b" 100 Running]} (mkVolume (web_tree newline) 18 []) running_host.
Definition seen_at (time : Z) : result RpcError Value :=
  (tunnel_get (fun _ => None) half (at_ ["run"]) None nothing_bound (obj_of [("tunnelId", VString "b")]) running_tunnel (sample_world time)).1.1.
Definition observed (r : result RpcError Value) : option string := match r with Ok v => vget "observedState" v ≫= as_str | Err _ => None end.
Example running_tunnel_becomes_unknown : observed (seen_at 20000) = Some "running" /\ observed (seen_at 40000) = Some "unknown".
Proof. split; vm_compute; reflexivity. Qed.

(** The host of a tunnel is not checked: it may be an option of the command. *)
Example host_may_be_an_option :
  match tunnel_request (demo_params "-oProxyCommand=run") with
  | Ok t => List.last (tunnel_ssh_argv (tr_ssh_host t) (at_ []) (tr_direction t) (tr_bind_host t) (tr_bind_port t) (tr_target_host t) (tr_target_port t)) "" = "-oProxyCommand=run"
  | Err _ => False
  end.
Proof. reflexivity. Qed.
