(* ===== verification/ControllerTasks.v ===== *)
(** * The task requests of a controller ([task.*] of
      [crates/machine-fabric-runtime/src/controller.rs])

    Submitting, reading, listing, waiting for, pruning and moving tasks. A list
    is a page of bounded summaries. While a request waits for a task, other
    requests run: [idle] is what they do during one sleep. *)
From Stdlib Require Import Ascii.
From stdpp Require Import base gmap strings list pretty.
From S2P Require Import Prelude Json Schema Protocol Tasks Store Payloads Controller ControllerRecords CapabilityInvoke ProcessSignals Utf8.
Open Scope Z_scope.
Open Scope fabric_scope.

(** ** Summaries *)

Definition TASK_LIST_DEFAULT_LIMIT : Z := 100.
Definition TASK_LIST_MAX_LIMIT : Z := 200.
Definition TASK_SUMMARY_TEXT_LIMIT : nat := 512.

(** [value.chars().take(n).collect()] *)
Fixpoint take_chars (n : nat) (s : string) : string :=
  match n, s with
  | S n', String _ _ => take_bytes (first_char s).1 s +:+ take_chars n' (drop_bytes (first_char s).1 s)
  | _, _ => ""
  end.
Definition bounded_text (value : string) : string := take_chars TASK_SUMMARY_TEXT_LIMIT value.

Definition task_state_name (state : TaskState) : string :=
  match state with
  | Queued => "queued" | Running => "running" | Succeeded => "succeeded" | Failed => "failed"
  | Cancelled => "cancelled" | TimedOut => "timed-out" | OutcomeUnknown => "outcome-unknown"
  end.

(** [TaskPayloadRef] serialized *)
Definition payload_ref_json (r : TaskPayloadRef) : Value :=
  obj_of ([("digest", VString (ref_digest r)); ("bytes", vu64 (ref_bytes r)); ("locator", VString (ref_locator r))]
          ++ match ref_chunk r with Some chunk => [("chunk", VString chunk)] | None => [] end).

Definition bounded_json (s : string) : Value := VString (bounded_text s).

Definition task_summary (task : Task) : Value :=
  obj_of [
    ("id", bounded_json (task_id task));
    ("correlationId", vopt bounded_json (task_correlation_id task));
    ("requestId", vopt bounded_json (task_request_id task));
    ("workspaceSessionId", bounded_json (task_workspace_session_id task));
    ("executorId", bounded_json (task_executor_id task));
    ("capability", bounded_json (task_capability task));
    ("idempotencyKey", bounded_json (task_idempotency_key task));
    ("state", VString (task_state_name (task_state task)));
    ("attempt", vu64 (task_attempt task));
    ("revision", vu64 (task_revision task));
    ("createdAt", vu64 (task_created_at task));
    ("updatedAt", vu64 (task_updated_at task));
    ("inputBytes", vopt (fun r => vu64 (ref_bytes r)) (task_input_ref task));
    ("outputBytes", vopt (fun r => vu64 (ref_bytes r)) (task_output_ref task));
    ("hasOutput", VBool (bool_decide (is_Some (task_output task))));
    ("error", vopt (fun e => obj_of [("code", bounded_json (failure_code e)); ("message", bounded_json (failure_message e));
                                     ("retryable", VBool (failure_retryable e))]) (task_error task));
    ("eventCount", vu64 (Z.of_nat (length (task_events task))));
    ("inputRef", vopt payload_ref_json (task_input_ref task));
    ("outputRef", vopt payload_ref_json (task_output_ref task))].

(** The filter of [task.list] *)
Definition in_state (state_filter : option string) (task : Task) : bool :=
  match state_filter with
  | None => true
  | Some state => String.eqb (task_state_name (task_state task)) state
  end.

(** [bounded_task_page_from_table] *)
Definition bounded_task_page_from_table (table : TaskTable) (state_filter : option string) (limit cursor : Z) : Value :=
  let '(total, page) := page_by table (Z.to_nat cursor) (Z.to_nat limit) (in_state state_filter) in
  let items := task_summary <$> page in
  let last := Z.min (u64_saturating_add cursor (Z.of_nat (length items))) (Z.of_nat total) in
  obj_of [("tasks", VArray items); ("total", vu64 (Z.of_nat total)); ("cursor", vu64 cursor); ("limit", vu64 limit);
          ("nextCursor", if last <? Z.of_nat total then vu64 last else VNull)].

(** ** The text of a cursor: [str::parse::<u64>] *)

Fixpoint parse_digits (acc : Z) (s : string) : option Z :=
  match s with
  | EmptyString => Some acc
  | String c s' =>
      if is_ascii_digit c then
        let acc := acc * 10 + (Z.of_nat (nat_of_ascii c) - 48) in
        if U64_MAX <? acc then None else parse_digits acc s'
      else None
  end.
Definition parse_u64 (s : string) : option Z :=
  match s with
  | EmptyString => None
  | String c s' => if Ascii.eqb c "+"%char then (if str_is_empty s' then None else parse_digits 0 s') else parse_digits 0 s
  end.

Definition cursor_of (value : Value) : option Z :=
  match as_u64 value with
  | Some n => Some n
  | None => match as_str value with Some s => parse_u64 s | None => None end
  end.

(** ** The requests *)

Section Tasks.
Context (to_vec : Value -> option string) (from_slice : string -> option Value).
Context (sha256_hex : string -> string) (torn : string -> string) (store : JsonStore).
#[local] Abbreviation persist := (persist to_vec sha256_hex torn store).
#[local] Abbreviation with_payload := (with_payload from_slice sha256_hex store).

Definition unknown_task (id : string) : RpcError := rpc_error "TASK_NOT_FOUND" ("unknown task: " +:+ id).

(** [task.submit]: the task and whether it was there already; [trace] is the trace of the request *)
Definition task_submit (trace : option string * option string) (params : Value) : M Controller RpcError (Task * bool) :=
  let* session := lift (required_str params "workspaceSessionId") in
  let* executor := lift (required_str params "executorId") in
  let* capability := lift (required_str params "capability") in
  let* key := lift (required_str params "idempotencyKey") in
  let* submitted := may_panic (submit_traced session executor capability (default VNull (vget "input" params)) key trace.1 trace.2) in
  persist ;;
  let* task := with_payload submitted.1 in
  ret (task, submitted.2).

(** [task.get] *)
Definition task_get (params : Value) : M Controller RpcError Task :=
  let* id := lift (required_str params "taskId") in
  let* table := gets ctl_tasks in
  let* task := lift (ok_or (get_task table id) (unknown_task id)) in
  with_payload task.

(** [task.list] *)
Definition task_list (params : Value) : M Controller RpcError Value :=
  let limit := Z.min (Z.max (default TASK_LIST_DEFAULT_LIMIT (opt_u64 params "limit")) 1) TASK_LIST_MAX_LIMIT in
  let cursor := default 0 (vget "cursor" params ≫= cursor_of) in
  if bool_decide (vget "includeDetails" params ≫= as_bool = Some true)
  then fail (rpc_error "TASK_DETAILS_EXPLICIT" "use task.get for one complete task payload")
  else
    let* table := gets ctl_tasks in
    ret (bounded_task_page_from_table table (opt_str params "state") limit cursor).

(** [task.events]: the identifier and the events *)
Definition task_events_of (params : Value) : M Controller RpcError (string * list TaskEvent) :=
  let* id := lift (required_str params "taskId") in
  let* table := gets ctl_tasks in
  let* task := lift (ok_or (get_task table id) (unknown_task id)) in
  ret (id, task_events task).

(** [task.wait]; [None] stands for a request that still waits. *)
Section Waiting.
Context (idle : M Controller RpcError unit).

Fixpoint task_wait_loop (fuel : nat) (id : string) (deadline : Z) : M Controller RpcError (option Task) :=
  match fuel with
  | O => ret None
  | S fuel' =>
      let* table := gets ctl_tasks in
      let* task := lift (ok_or (get_task table id) (unknown_task id)) in
      if terminal (task_state task) then let* task := with_payload task in ret (Some task)
      else
        let* now := instant_now in
        if deadline <=? now
        then fail (rpc_error "TASK_WAIT_TIMEOUT" ("task " +:+ id +:+ " did not finish before timeout"))
        else
          let* _ := attempt idle in
          task_wait_loop fuel' id deadline
  end.

Definition task_wait (fuel : nat) (params : Value) : M Controller RpcError (option Task) :=
  let* id := lift (required_str params "taskId") in
  let timeout_ms := Z.min (default 30000 (opt_u64 params "timeoutMs")) 3600000 in
  let* now := instant_now in
  task_wait_loop fuel id (now + timeout_ms).
End Waiting.

(** [task.prune]: the identifiers of the removed tasks *)
Definition task_prune (params : Value) : M Controller RpcError (list string) :=
  let* cutoff := match opt_u64 params "before" with Some t => ret t | None => now_ms end in
  let* removed := may_panic (prune_terminal_before cutoff) in
  persist ;;
  ret (task_id <$> removed).

(** [task.transition]; the outcome of reading the field [state] is an argument *)
Definition task_transition (params : Value) (state : result string TaskState) : M Controller RpcError Task :=
  let* state := lift (field_as params "state" state) in
  let* id := lift (required_str params "taskId") in
  let* task := task_op (transition id state (vget "output" params) None) in
  persist ;;
  ret task.

End Tasks.

(** ** Texts of a summary *)

Lemma take_chars_prefix n s : exists rest, s = take_chars n s +:+ rest.
Proof.
  revert s. induction n as [|n IH]; intros [|c s]; cbn [take_chars]; [by exists ""|by exists (String c s)|by exists ""|].
  destruct (IH (drop_bytes (first_char (String c s)).1 (String c s))) as [rest Hr]. exists rest.
  rewrite <- string_app_assoc, <- Hr. by rewrite take_drop_bytes.
Qed.

Lemma first_char_width s : ((first_char s).1 <= 4)%nat.
Proof. unfold first_char. repeat case_match; cbn; lia. Qed.

Lemma take_bytes_length n s : (String.length (take_bytes n s) <= n)%nat.
Proof. revert s. induction n as [|n IH]; intros [|c s]; cbn; try lia. specialize (IH s). lia. Qed.

Lemma take_chars_length n s : (String.length (take_chars n s) <= 4 * n)%nat.
Proof.
  revert s. induction n as [|n IH]; intros [|c s]; cbn [take_chars]; try (cbn; lia).
  rewrite string_length_app. specialize (IH (drop_bytes (first_char (String c s)).1 (String c s))).
  pose proof (take_bytes_length (first_char (String c s)).1 (String c s)). pose proof (first_char_width (String c s)). lia.
Qed.

(** A short text is shown as it is. *)
Lemma take_chars_all n s : (String.length s <= n)%nat -> take_chars n s = s.
Proof.
  revert s. induction n as [|n IH]; intros [|c s] Hl; cbn [take_chars]; try done; [cbn in Hl; lia|].
  rewrite IH; [apply take_drop_bytes|]. rewrite drop_bytes_length. pose proof (first_char_pos (String c s)). lia.
Qed.

(** ** Lists in pages *)

(** What a client does that reads a list page by page: it passes the cursor of an answer on to the next request. *)
Definition page_params (state_filter : option string) (limit : Z) (cursor : Value) : Value :=
  obj_of ([("limit", vu64 limit); ("cursor", cursor)] ++ match state_filter with Some s => [("state", VString s)] | None => [] end).

Fixpoint read_pages (requests : nat) (state_filter : option string) (limit : Z) (cursor : Value)
    : M Controller RpcError (list Value) :=
  match requests with
  | O => fail (rpc_error "OUT_OF_REQUESTS" "")
  | S requests' =>
      let* page := task_list (page_params state_filter limit cursor) in
      let items := default [] (as_array (vindex page "tasks")) in
      if is_null (vindex page "nextCursor") then ret items
      else let* rest := read_pages requests' state_filter limit (vindex page "nextCursor") in ret (items ++ rest)
  end.

Definition listed_tasks (state_filter : option string) (c : Controller) : list Task :=
  List.filter (in_state state_filter) (Tasks.snapshot (ctl_tasks c)).
Definition page_limit (limit : Z) : Z := Z.min (Z.max limit 1) TASK_LIST_MAX_LIMIT.

Lemma page_params_fields state_filter limit cursor :
  opt_u64 (page_params state_filter limit (vu64 cursor)) "limit" = Some limit /\
  vget "cursor" (page_params state_filter limit (vu64 cursor)) = Some (vu64 cursor) /\
  opt_str (page_params state_filter limit (vu64 cursor)) "state" = state_filter /\
  vget "includeDetails" (page_params state_filter limit (vu64 cursor)) = None.
Proof. by destruct state_filter. Qed.

(** One page: the tasks from the cursor on, and the cursor behind them where some are left. *)
Lemma task_list_page state_filter limit cursor c w :
  0 <= cursor -> cursor + TASK_LIST_MAX_LIMIT <= U64_MAX ->
  let l := listed_tasks state_filter c in
  let items := take (Z.to_nat (page_limit limit)) (drop (Z.to_nat cursor) l) in
  let last := Z.min (cursor + Z.of_nat (length items)) (Z.of_nat (length l)) in
  exists page, task_list (page_params state_filter limit (vu64 cursor)) c w = (Ok page, c, w) /\
    vindex page "tasks" = VArray (task_summary <$> items) /\
    vindex page "nextCursor" = if last <? Z.of_nat (length l) then vu64 last else VNull.
Proof.
  intros H0 Hu l items last. destruct (page_params_fields state_filter limit cursor) as (El & Ec & Es & Ei).
  unfold task_list. rewrite El, Ec, Es, Ei. cbn [default option_bind mbind]. unfold from_option, id, cursor_of. cbn [as_u64 vu64].
  rewrite bool_decide_false by done. unfold bind, gets, ret. eexists. split; [reflexivity|].
  unfold bounded_task_page_from_table. rewrite page_by_is_slice. fold (page_limit limit). fold (listed_tasks state_filter c). fold l. fold items.
  rewrite length_fmap. assert (Z.of_nat (length items) <= TASK_LIST_MAX_LIMIT) as Hi.
  { unfold items. rewrite length_take. unfold page_limit, TASK_LIST_MAX_LIMIT in *. lia. }
  assert (u64_saturating_add cursor (Z.of_nat (length items)) = cursor + Z.of_nat (length items)) as ->.
  { unfold u64_saturating_add. lia. }
  split; reflexivity.
Qed.

Lemma read_pages_from requests state_filter limit cursor c w :
  let l := listed_tasks state_filter c in
  Z.of_nat (length l) + TASK_LIST_MAX_LIMIT <= U64_MAX -> (requests <> 0)%nat ->
  0 <= cursor <= Z.of_nat (length l) -> Z.of_nat (length l) - cursor <= Z.of_nat requests * page_limit limit ->
  read_pages requests state_filter limit (vu64 cursor) c w = (Ok (task_summary <$> drop (Z.to_nat cursor) l), c, w).
Proof.
  intros l Hu. revert cursor. induction requests as [|n IH]; intros cursor Hn Hc Hr; [done|]. cbn [read_pages].
  destruct (task_list_page state_filter limit cursor c w) as (page & Hp & Ht & Hx); [lia|fold l in Hu; lia|]. fold l in Ht, Hx.
  unfold bind at 1. rewrite Hp, Ht, Hx. cbn [as_array default from_option]. unfold id.
  set (k := Z.to_nat (page_limit limit)). fold k in Hx.
  assert (1 <= page_limit limit) as Hk by (unfold page_limit, TASK_LIST_MAX_LIMIT; lia).
  assert (length (take k (drop (Z.to_nat cursor) l)) = Nat.min k (length l - Z.to_nat cursor)) as Hlen.
  { by rewrite length_take, length_drop. }
  rewrite Hlen. destruct (Z.ltb_spec (Z.min (cursor + Z.of_nat (Nat.min k (length l - Z.to_nat cursor))) (Z.of_nat (length l))) (Z.of_nat (length l))) as [Hlt|Hge]; cbn [is_null].
  - assert (Z.min (cursor + Z.of_nat (Nat.min k (length l - Z.to_nat cursor))) (Z.of_nat (length l)) = cursor + page_limit limit) as -> by lia.
    destruct n as [|n]; [lia|]. change (is_null (vu64 _)) with false. cbv beta iota. unfold bind. rewrite IH by lia. unfold ret. rewrite <- fmap_app. do 4 f_equal.
    rewrite Z2Nat.inj_add by lia. fold k. rewrite <- drop_drop. apply take_drop.
  - unfold ret. do 4 f_equal. apply take_ge. rewrite length_drop. lia.
Qed.

(** a listing is complete: a client that asks for the tasks in some state page by page, with any limit, gets the summary of every such task exactly once and in the order of their identifiers, in at most one request per full page and one more; the requests change nothing. *)
Theorem pages_list_every_task requests state_filter limit c w :
  Z.of_nat (size (tasks (ctl_tasks c))) + TASK_LIST_MAX_LIMIT <= U64_MAX -> (requests <> 0)%nat ->
  Z.of_nat (length (listed_tasks state_filter c)) <= Z.of_nat requests * page_limit limit ->
  read_pages requests state_filter limit (vu64 0) c w = (Ok (task_summary <$> listed_tasks state_filter c), c, w).
Proof.
  intros Hu Hn Hr. rewrite read_pages_from; try done; try lia.
  assert (length (listed_tasks state_filter c) <= size (tasks (ctl_tasks c)))%nat; [|lia].
  unfold listed_tasks, Tasks.snapshot. rewrite <- btree_values_length. generalize (btree_values (tasks (ctl_tasks c))). intros l.
  induction l as [|x l IH]; cbn; [lia|]. destruct (in_state _ x); cbn; lia.
Qed.

(** ** Waiting *)

Section WaitEnds.
Context (from_slice : string -> option Value) (sha256_hex : string -> string) (store : JsonStore) (idle : M Controller RpcError unit).
Local Abbreviation wait_loop := (task_wait_loop from_slice sha256_hex store idle).

Lemma task_wait_loop_ends n id deadline c w r c' w' :
  forward idle -> monotonic_clock w -> deadline <= o_at (w_instant w) (o_next (w_instant w) + n) ->
  wait_loop (S n) id deadline c w = (r, c', w') -> r <> Ok None.
Proof.
  intros Hf. revert c w. induction n as [|n IH]; intros c w Hm Hd H; cbn [task_wait_loop] in H;
    apply bind_cases in H as (r1 & c1 & w1 & H1 & H); injection H1 as <- <- <-; apply bind_cases in H as (r2 & c2 & w2 & H2 & H);
    injection H2 as <- <- <-; (destruct (ok_or (get_task (ctl_tasks c) id) (unknown_task id)) as [task|e]; [|by destruct H as (-> & _)]);
    (destruct (terminal (task_state task)); [apply bind_cases in H as ([t|e] & c3 & w3 & H3 & H); [by injection H as <- _ _|by destruct H as (-> & _)]|]);
    apply bind_cases in H as (r3 & c3 & w3 & H3 & H); injection H3 as <- <- <-;
    (destruct (deadline <=? peek (w_instant w)) eqn:C; [by injection H as <- _ _|]); apply Z.leb_gt in C; unfold peek in C.
  - rewrite Nat.add_0_r in Hd. lia.
  - apply bind_cases in H as (r4 & c4 & w4 & H4 & H). apply attempt_cases in H4 as (r0 & -> & H4). pose proof (Hf _ _ _ _ _ H4) as [_ Ei _ _ _ En _ _].
    cbn in Ei, En. eapply IH; [| |exact H].
    + intros i j Hij. rewrite Ei. by apply Hm.
    + rewrite Ei. etrans; [exact Hd|]. apply Hm. lia.
Qed.

(** a wait for a task ends: when the monotonic clock shows the deadline at its [n]-th reading after the wait began, [n] turns of the loop are enough for an answer or an error, whatever other requests do meanwhile. *)
Theorem task_wait_ends n params c w r c' w' :
  forward idle -> monotonic_clock w ->
  peek (w_instant w) + 3600000 <= o_at (w_instant w) (o_next (w_instant w) + n) ->
  task_wait from_slice sha256_hex store idle n params c w = (r, c', w') -> r <> Ok None.
Proof.
  intros Hf Hm Hd H. unfold task_wait in H. apply bind_cases in H as (r1 & c1 & w1 & H1 & H). injection H1 as <- <- <-.
  destruct (required_str params "taskId") as [id|e]; [|by destruct H as (-> & _)].
  apply bind_cases in H as (r2 & c2 & w2 & H2 & H). injection H2 as <- <- <-. destruct n as [|n]; [rewrite Nat.add_0_r in Hd; unfold peek in Hd; lia|].
  eapply task_wait_loop_ends; [done| | |exact H]; cbn [w_instant set_instant advance o_at o_next]; [exact Hm|].
  rewrite Nat.add_succ_comm. lia.
Qed.

(** What a wait answers is a finished task. *)
Lemma task_wait_loop_terminal fuel id deadline c w t c' w' :
  wait_loop fuel id deadline c w = (Ok (Some t), c', w') ->
  exists c0 w0 task, get_task (ctl_tasks c0) id = Some task /\ terminal (task_state task) = true /\
    with_payload from_slice sha256_hex store task c0 w0 = (Ok t, c', w').
Proof.
  revert c w. induction fuel as [|fuel IH]; intros c w H; cbn [task_wait_loop] in H; [done|].
  mstep H t1 c1 w1 H1. injection H1 as <- <- <-. mlift H task Ht. apply ok_or_ok in Ht. destruct (terminal (task_state task)) eqn:Et.
  - mstep H t2 c2 w2 H2. injection H as <- <- <-. eauto 8.
  - mstep H now c2 w2 H2. injection H2 as <- <- <-. case_match; [done|]. mstep H u c3 w3 H3. by apply IH in H.
Qed.
End WaitEnds.
