(* ===== verification/ControllerCalls.v ===== *)
(** * The requests in which a controller calls other nodes
      ([crates/machine-fabric-runtime/src/controller.rs])

    Probing and registering executors and controllers, forwarding requests,
    finding a free port, and [handle], which serves one request. A call acts on
    the controller and on the machines: other requests may run meanwhile. A
    handler returns the data that the source serializes into the response. *)
From Stdlib Require Import Ascii.
From stdpp Require Import base gmap strings list pretty.
From S2P Require Import Prelude Json Schema Protocol Leases Tasks Store Payloads Controller ControllerFrames ControllerRecords ControllerRelay RecordSafety ControllerTasks.
Open Scope Z_scope.
Open Scope fabric_scope.

(** ** Failed calls *)

(** The [ErrorKind]s of [std::io] that the source tells apart *)
Inductive CallFailure :=
| CallNotFound | CallConnectionRefused | CallAddrNotAvailable | CallTimedOut | CallWouldBlock
| CallUnexpectedEof | CallConnectionReset | CallConnectionAborted | CallBrokenPipe | CallOtherIo.

(** An [anyhow::Error] of [call_executor]: its text, the first I/O error of its chain, and whether an error of serde_json is in it *)
Record CallError := mkCallError { ce_text : string; ce_io : option CallFailure; ce_json : bool }.

Definition unavailable_executor_probe (code : string) : Value :=
  obj_of [("available", VBool false); ("status", VString "unreachable");
          ("probe", obj_of [("status", VString "failed"); ("errorCode", VString code); ("scope", VString "executor-route")])].

Definition code_byte (c : ascii) : bool := is_ascii_uppercase c || is_ascii_digit c || Ascii.eqb c "_"%char.
Definition safe_code (code : string) : bool :=
  negb (str_is_empty code) && (str_len code <=? 64)
  && match code with String c _ => is_ascii_uppercase c | EmptyString => false end
  && bytes_all code_byte code.

Definition is_local (e : ExecutorEndpoint) : bool := match e with EndpointLocal _ => true | _ => false end.

Definition failure_code_of (endpoint : ExecutorEndpoint) (e : CallError) : string :=
  let other := if ce_json e then "INVALID_EXECUTOR_RESPONSE" else "EXECUTOR_TRANSPORT_FAILED" in
  match ce_io e with
  | Some CallNotFound => if is_local endpoint then "EXECUTOR_ENDPOINT_NOT_FOUND" else other
  | Some (CallConnectionRefused | CallAddrNotAvailable) => "EXECUTOR_ENDPOINT_UNAVAILABLE"
  | Some (CallTimedOut | CallWouldBlock) => "EXECUTOR_PROBE_TIMEOUT"
  | Some (CallUnexpectedEof | CallConnectionReset | CallConnectionAborted | CallBrokenPipe) => "EXECUTOR_CONNECTION_CLOSED"
  | _ => other
  end.

Definition executor_availability_result (endpoint : ExecutorEndpoint) (response : result CallError Response) : Value :=
  match response with
  | Ok response =>
      if resp_ok response then
        match resp_result response with
        | Some value => if is_object value && is_boolean (vindex value "available") then value
                        else unavailable_executor_probe "INVALID_AVAILABILITY_RESPONSE"
        | None => unavailable_executor_probe "INVALID_AVAILABILITY_RESPONSE"
        end
      else
        let code := match resp_error response with
                    | Some error => if safe_code (err_code error) then Some (err_code error) else None
                    | None => None
                    end in
        unavailable_executor_probe (default "EXECUTOR_PROBE_FAILED" code)
  | Err error => unavailable_executor_probe (failure_code_of endpoint error)
  end.

(** One node of [fabric.context] *)
Record NodeContext := mkNodeContext {
  nc_executor : Executor;
  nc_health : HealthStatus;
  nc_availability : Value;
  nc_capabilities : list CapabilityDescriptor;
}.

(** One check of [doctor]: the executor and, where the call failed, the error of the executor or the text *)
Inductive DoctorCheck := CheckReady (executor : Executor) | CheckFailed (id : string) (error : option RpcError) | CheckOffline (id text : string).
Definition check_ready (check : DoctorCheck) : bool := match check with CheckReady _ => true | _ => false end.

(** How a request fails: with an answer, or by a panic, with the lock of the leases held or not. *)
Inductive Failure := Answered (error : RpcError) | Panicked (holding_leases : bool).

Definition is_named (name : option string) (c : CapabilityDescriptor) : bool :=
  match name with None => true | Some name => String.eqb name (cap_name c) end.
Definition controller_is (id : string) (c : ControllerPeer) : bool := String.eqb (meta_id (peer_metadata c)) id.
Definition no_labels (id : string) (now : Z) : Metadata := mkMetadata id ∅ now now.
Definition unknown_executor (id : string) : RpcError := rpc_error "EXECUTOR_NOT_FOUND" ("unknown executor: " +:+ id).
Definition unavailable (code : string) (error : CallError) : RpcError := mkRpcError code (ce_text error) true VNull.

Section Calls.
Context (to_vec : Value -> option string) (sha256_hex : string -> string) (torn : string -> string) (store : JsonStore).
Context {Net : Type}.
Context (call_executor : ExecutorEndpoint -> string -> Value -> M (Fabric (Net := Net)) CallError Response).
(** Deserialization (generated by serde) *)
Context (endpoint_of : Value -> result string ExecutorEndpoint).
Context (capabilities_of : Value -> result string (list CapabilityDescriptor)) (roots_of : Value -> result string (list string)).
#[local] Abbreviation Fabric := (Fabric (Net := Net)).
#[local] Abbreviation persist := (on_ctl (persist to_vec sha256_hex torn store)).

(** The end of the calls: the result of a successful response, or its error. *)
Definition response_value (failed : RpcError) (response : Response) : M Fabric RpcError Value :=
  if resp_ok response then ret (default VNull (resp_result response)) else fail (default failed (resp_error response)).

(** ** Requests that read *)

(** The loop of [fabric.context] *)
Fixpoint context_nodes (requested_executor requested_capability : option string) (resources : list Value)
    (executors : list Executor) : M Fabric RpcError (list NodeContext) :=
  match executors with
  | [] => ret []
  | executor :: rest =>
      let others := context_nodes requested_executor requested_capability resources rest in
      if match requested_executor with Some id => negb (String.eqb id (meta_id (executor_metadata executor))) | None => false end
      then others
      else
        let capabilities := List.filter (is_named requested_capability) (executor_capabilities executor) in
        if bool_decide (is_Some requested_capability) && bool_decide (capabilities = []) then others
        else
          let* response := attempt (call_executor (executor_endpoint executor) "availability" (obj_of [("resources", VArray resources)])) in
          let availability := executor_availability_result (executor_endpoint executor) response in
          let observed_health := if eq_str (vindex availability "status") "unreachable" then HOffline else executor_health executor in
          let* nodes := others in
          ret (mkNodeContext executor observed_health availability capabilities :: nodes)
  end.

Definition fabric_context (params : Value) : M Fabric RpcError (list NodeContext) :=
  let* c := gets fab_ctl in
  context_nodes (opt_str params "executorId") (opt_str params "capability") (default [] (vget "resources" params ≫= as_array))
    (st_executors (ctl_state c)).

(** [capability.describe] *)
Definition capability_describe (params : Value) : M Controller RpcError CapabilityDescriptor :=
  let* executor_id := lift (required_str params "executorId") in
  let* capability_name := lift (required_str params "capability") in
  let* c := get in
  let* executor := lift (ok_or (find (executor_is executor_id) (st_executors (ctl_state c))) (unknown_executor executor_id)) in
  lift (ok_or (find (fun capability => String.eqb (cap_name capability) capability_name) (executor_capabilities executor))
          (rpc_error "CAPABILITY_NOT_FOUND" ("executor " +:+ executor_id +:+ " does not provide " +:+ capability_name))).

(** [refresh_local_endpoint_health]; [exists_] is [Path::exists]. *)
Definition endpoint_health (exists_ : string -> bool) (endpoint : ExecutorEndpoint) (old : HealthStatus) : HealthStatus :=
  match endpoint with EndpointLocal socket => if exists_ socket then HReady else HOffline | _ => old end.
Definition refresh_local_endpoint_health (exists_ : string -> bool) (controllers : list ControllerPeer) (executors : list Executor)
    : list ControllerPeer * list Executor :=
  ((fun c => mkControllerPeer (peer_api_version c) (peer_metadata c) (peer_endpoint c)
               (endpoint_health exists_ (peer_endpoint c) (peer_health c))) <$> controllers,
   (fun e => mkExecutor (executor_api_version e) (executor_metadata e) (executor_endpoint e) (executor_capabilities e)
               (executor_allowed_roots e) (endpoint_health exists_ (executor_endpoint e) (executor_health e))) <$> executors).

(** [status]: the controllers, the executors, the leases and the page of tasks *)
Definition status (exists_ : string -> bool) : M Controller RpcError (list ControllerPeer * list Executor * list Lease * Value) :=
  let* c := get in
  let '(controllers, executors) := refresh_local_endpoint_health exists_ (st_controllers (ctl_state c)) (st_executors (ctl_state c)) in
  let tasks := bounded_task_page_from_table (ctl_tasks c) None TASK_LIST_DEFAULT_LIMIT 0 in
  ret (controllers, executors, Leases.snapshot (ctl_leases c), tasks).

(** [executor.list], [controller.list], [port.list] *)
Definition executor_list : M Controller RpcError (list Executor) := gets (fun c => st_executors (ctl_state c)).
Definition controller_list : M Controller RpcError (list ControllerPeer) := gets (fun c => st_controllers (ctl_state c)).
Definition port_list : M Controller RpcError (list Lease) :=
  gets (fun c => List.filter (fun lease => String.prefix "port:" (lease_resource lease)) (Leases.snapshot (ctl_leases c))).

(** [doctor]: the checks, and whether all are ready *)
Definition doctor_check (executor : Executor) : M Fabric RpcError DoctorCheck :=
  let* response := attempt (call_executor (executor_endpoint executor) "status" VNull) in
  ret (match response with
       | Ok response => if resp_ok response then CheckReady executor
                        else CheckFailed (meta_id (executor_metadata executor)) (resp_error response)
       | Err error => CheckOffline (meta_id (executor_metadata executor)) (ce_text error)
       end).
Definition doctor : M Fabric RpcError (bool * list DoctorCheck) :=
  let* c := gets fab_ctl in
  let* checks := map_m doctor_check (st_executors (ctl_state c)) in
  ret (forallb check_ready checks, checks).

(** ** Registration *)

(** [controller.register] *)
Definition controller_register (params : Value) : M Fabric RpcError ControllerPeer :=
  let* id := lift (required_str params "controllerId") in
  let* endpoint := lift (field_as params "endpoint" (endpoint_of (vindex params "endpoint"))) in
  let* response := with_err (unavailable "CONTROLLER_UNAVAILABLE") (call_executor endpoint "ping" VNull) in
  let* status := response_value (rpc_error "CONTROLLER_FAILED" "controller failed") response in
  let* actual_id := lift (ok_or ((vget "controller" status ≫= vget "id") ≫= as_str)
                            (rpc_error "CONTROLLER_INVALID" "controller status did not report an identity")) in
  if negb (String.eqb actual_id id)
  then fail (rpc_error "CONTROLLER_IDENTITY_MISMATCH" ("endpoint reported Controller " +:+ actual_id +:+ ", expected " +:+ id))
  else
    let* now := now_ms in
    let controller := mkControllerPeer "machine-fabric.dev/v1" (no_labels id now) endpoint HReady in
    on_ctl (on_state (set_controllers (fun l => upsert_by l controller (controller_is id)))) ;;
    persist ;;
    ret controller.

(** [executor.register] *)
Definition executor_register (params : Value) : M Fabric RpcError Executor :=
  let* id := lift (required_str params "executorId") in
  let* endpoint := lift (field_as params "endpoint" (endpoint_of (vindex params "endpoint"))) in
  let* response := with_err (unavailable "EXECUTOR_UNAVAILABLE") (call_executor endpoint "status" VNull) in
  let* status := response_value (rpc_error "EXECUTOR_FAILED" "executor failed") response in
  let* actual_id := lift (ok_or (vget "executorId" status ≫= as_str)
                            (rpc_error "EXECUTOR_INVALID" "executor status did not report an identity")) in
  if negb (String.eqb actual_id id)
  then fail (rpc_error "EXECUTOR_IDENTITY_MISMATCH" ("endpoint reported Executor " +:+ actual_id +:+ ", expected " +:+ id))
  else
    let* capabilities := lift (map_err (rpc_error "EXECUTOR_INVALID") (capabilities_of (default (VArray []) (vget "capabilities" status)))) in
    let* allowed_roots := lift (map_err (rpc_error "EXECUTOR_INVALID") (roots_of (default (VArray []) (vget "allowedRoots" status)))) in
    let* now := now_ms in
    let executor := mkExecutor "machine-fabric.dev/v1" (no_labels id now) endpoint capabilities allowed_roots HReady in
    on_ctl (on_state (set_executors (fun l => upsert_by l executor (executor_is id)))) ;;
    persist ;;
    ret executor.

(** ** Forwarding *)

(** [controller.call] *)
Definition controller_call (params : Value) : M Fabric RpcError Value :=
  let* id := lift (required_str params "controllerId") in
  let* c := gets fab_ctl in
  let* controller := lift (ok_or (find (controller_is id) (st_controllers (ctl_state c)))
                             (rpc_error "CONTROLLER_NOT_FOUND" ("unknown controller: " +:+ id))) in
  let* action := lift (required_str params "action") in
  let* response := with_err (unavailable "CONTROLLER_UNAVAILABLE")
                     (call_executor (peer_endpoint controller) action (default VNull (vget "params" params))) in
  response_value (rpc_error "CONTROLLER_FAILED" "controller failed") response.

(** The leases that [executor.call] is to prove *)
Definition lease_params (params : Value) : option (list Value) :=
  match vget "leases" params ≫= as_array with
  | Some items => Some items
  | None =>
      match vget "leaseResource" params with
      | Some resource =>
          Some [obj_of [("resource", resource); ("owner", default VNull (vget "owner" params)); ("token", default VNull (vget "token" params))]]
      | None => None
      end
  end.

Definition fence_authority (id : string) (lease : Lease) : Value :=
  obj_of [("controllerId", VString id); ("resource", VString (lease_resource lease)); ("fence", vu64 (lease_fence lease))].

(** One item, checked against the table *)
Definition prove_lease (item : Value) : M Controller RpcError Value :=
  let* resource := lift (required_str item "resource") in
  let* owner := lift (required_str item "owner") in
  let* token := lift (required_str item "token") in
  let* lease := on_leases (validate resource owner token) in
  let* c := get in
  ret (fence_authority (ctl_id c) lease).

(** [executor.call] *)
Definition executor_call (params : Value) : M Fabric Failure Value :=
  let* id := lift (map_err Answered (required_str params "executorId")) in
  let* c := gets fab_ctl in
  let* executor := lift (ok_or (find (executor_is id) (st_executors (ctl_state c))) (Answered (unknown_executor id))) in
  let* nested_action := lift (map_err Answered (required_str params "action")) in
  let nested_params := default VNull (vget "params" params) in
  let* nested_params :=
    match lease_params params with
    | None => ret nested_params
    | Some items =>
        let* authorities := with_err Answered (on_ctl (map_m prove_lease items)) in
        lift (ok_or (vindex_set "_authority" (VArray authorities) nested_params) (Panicked true))
    end in
  let* response := with_err (fun e => Answered (unavailable "EXECUTOR_UNAVAILABLE" e))
                     (call_executor (executor_endpoint executor) nested_action nested_params) in
  with_err Answered (response_value (rpc_error "EXECUTOR_FAILED" "executor failed") response).

(** ** Ports *)

Definition port_resource (executor_id : string) (port : Z) : string := "port:" +:+ executor_id +:+ ":" +:+ pretty port.

(** The body of the loop of [port.allocate]: [Some] lease of a port that is free *)
Definition try_port (executor : Executor) (executor_id owner : string) (ttl : Z) (port : Z) : M Fabric RpcError (option Lease) :=
  let resource := port_resource executor_id port in
  let* acquired := attempt (on_ctl (zoom ctl_leases set_leases (acquire Resource resource owner ttl))) in
  match acquired with
  | Err (LeaseActive _ _) => ret None
  | Err error => fail (map_lease_error error)
  | Ok lease =>
      let* response := attempt (call_executor (executor_endpoint executor) "port.check" (obj_of [("port", vu64 port)])) in
      let available :=
        match response with
        | Ok response => default false ((resp_result response ≫= vget "available") ≫= as_bool)
        | Err _ => false
        end in
      if available then persist ;; ret (Some lease)
      else
        let* _ := attempt (F := RpcError) (on_ctl (zoom ctl_leases set_leases (release resource owner (lease_token lease)))) in
        ret None
  end.

(** [for port in start..=end]: [n] ports from [port] on *)
Fixpoint try_ports (n : nat) (port : Z) (executor : Executor) (executor_id owner : string) (ttl : Z)
    : M Fabric RpcError (option (Z * Lease)) :=
  match n with
  | O => ret None
  | S n' =>
      let* found := try_port executor executor_id owner ttl port in
      match found with
      | Some lease => ret (Some (port, lease))
      | None => try_ports n' (port + 1) executor executor_id owner ttl
      end
  end.

(** [port.allocate] *)
Definition port_allocate (params : Value) : M Fabric RpcError (Z * Lease) :=
  let* executor_id := lift (required_str params "executorId") in
  let* owner := lift (required_str params "owner") in
  let start := default 20000 (opt_u64 params "start") in
  let end_ := default 40000 (opt_u64 params "end") in
  if (start =? 0) || (65535 <? end_) || (end_ <? start) then fail (rpc_error "INVALID_PARAMS" "invalid port range")
  else
    let* c := gets fab_ctl in
    let* executor := lift (ok_or (find (executor_is executor_id) (st_executors (ctl_state c)))
                             (rpc_error "EXECUTOR_NOT_FOUND" "executor not found")) in
    let* found := try_ports (Z.to_nat (end_ - start + 1)) start executor executor_id owner (ttl_of params) in
    match found with
    | Some allocation => ret allocation
    | None => fail (rpc_error "PORT_UNAVAILABLE" ("no available port in " +:+ pretty start +:+ "..=" +:+ pretty end_))
    end.

(** ** Serving a request *)

(** A running controller; a thread that panics while it holds the lock of the leases poisons it. *)
Record Daemon := mkDaemon { d_fabric : Fabric; d_leases_poisoned : bool }.
Definition set_d_fabric (f : Fabric) (d : Daemon) : Daemon := mkDaemon f (d_leases_poisoned d).
Definition poison (held : bool) (d : Daemon) : Daemon := mkDaemon (d_fabric d) (held || d_leases_poisoned d).

(** [handle] fails where it panics; [dispatch] serves the action. *)
Definition handle (dispatch : string -> Value -> M Fabric Failure Value) (request : Request) : M Daemon unit Response :=
  let* poisoned := gets d_leases_poisoned in
  if poisoned : bool then fail tt
  else
    let* reaped := zoom d_fabric set_d_fabric
                     (with_err (fun _ : LeaseError => tt) (on_ctl (zoom ctl_leases set_leases reap_expired))) in
    let* result := attempt (zoom d_fabric set_d_fabric
                     (if bool_decide (reaped = []) then dispatch (req_action request) (req_params request)
                      else with_err Answered persist ;; dispatch (req_action request) (req_params request))) in
    match result with
    | Ok value => ret (response_success (req_request_id request) value)
    | Err (Answered error) => ret (response_failure (req_request_id request) error)
    | Err (Panicked held) => modify (poison held) ;; fail tt
    end.

End Calls.

(** ** Runs *)

Lemma gets_cases {S E A B} (f : S -> A) (k : A -> M S E B) s w : bind (gets f) k s w = k (f s) s w.
Proof. done. Qed.

Lemma find_upsert_key {A} (p : A -> bool) (l : list A) v : p v = true -> find p (upsert_by l v p) = Some v.
Proof. intros Hv. induction l as [|x l IH]; cbn; [by rewrite Hv|]. destruct (p x) eqn:E; cbn; [by rewrite Hv|by rewrite E]. Qed.

(** ** Availability *)

Definition transport_codes : list string :=
  ["EXECUTOR_ENDPOINT_NOT_FOUND"; "EXECUTOR_ENDPOINT_UNAVAILABLE"; "EXECUTOR_PROBE_TIMEOUT"; "EXECUTOR_CONNECTION_CLOSED";
   "INVALID_EXECUTOR_RESPONSE"; "EXECUTOR_TRANSPORT_FAILED"].

Lemma failure_code_known endpoint e : In (failure_code_of endpoint e) transport_codes.
Proof. unfold failure_code_of. destruct (ce_io e) as [[]|], (is_local endpoint), (ce_json e); cbn; tauto. Qed.

Lemma transport_codes_safe code : In code transport_codes -> safe_code code = true.
Proof. cbn. intros H. repeat (destruct H as [<-|H]; [vm_compute; reflexivity|]). done. Qed.

(** An availability that a context may show: the answer of the executor, or a probe that names a code. *)
Definition redacted (endpoint : ExecutorEndpoint) (response : result CallError Response) (v : Value) : Prop :=
  (exists r, response = Ok r /\ resp_ok r = true /\ resp_result r = Some v /\ is_boolean (vindex v "available") = true) \/
  (exists code, v = unavailable_executor_probe code /\ safe_code code = true /\ forall e, response = Err e -> In code transport_codes).

Lemma availability_is_redacted endpoint response : redacted endpoint response (executor_availability_result endpoint response).
Proof.
  unfold executor_availability_result. destruct response as [r|e].
  - destruct (resp_ok r) eqn:Eo.
    + destruct (resp_result r) as [v|] eqn:Ev; [destruct (is_object v && is_boolean (vindex v "available")) eqn:Eb|].
      * left. apply andb_true_iff in Eb as [_ Eb]. by exists r.
      * right. eexists. split_and!; [done|by vm_compute|done].
      * right. eexists. split_and!; [done|by vm_compute|done].
    + right. eexists. split_and!; [done| |done]. destruct (resp_error r) as [x|]; [|by vm_compute].
      destruct (safe_code (err_code x)) eqn:Es; [done|by vm_compute].
  - right. eexists. split_and!; [done| |intros e' _; apply failure_code_known]. apply transport_codes_safe, failure_code_known.
Qed.

(** The executors that [fabric.context] is asked about *)
Definition wanted (requested_executor requested_capability : option string) (e : Executor) : bool :=
  match requested_executor with Some id => String.eqb id (meta_id (executor_metadata e)) | None => true end
  && (bool_decide (requested_capability = None) || negb (bool_decide (List.filter (is_named requested_capability) (executor_capabilities e) = []))).

Section Safety.
Context (to_vec : Value -> option string) (sha256_hex : string -> string) (torn : string -> string) (store : JsonStore).
Context {Net : Type}.
Context (call_executor : ExecutorEndpoint -> string -> Value -> M (Fabric (Net := Net)) CallError Response).
Context (endpoint_of : Value -> result string ExecutorEndpoint).
Context (capabilities_of : Value -> result string (list CapabilityDescriptor)) (roots_of : Value -> result string (list string)).
Local Abbreviation Fab := (Fabric (Net := Net)).

(** What a node of a context says of its executor. *)
Definition node_sound (requested_capability : option string) (n : NodeContext) : Prop :=
  nc_capabilities n = List.filter (is_named requested_capability) (executor_capabilities (nc_executor n)) /\
  (exists response, redacted (executor_endpoint (nc_executor n)) response (nc_availability n)) /\
  nc_health n = if eq_str (vindex (nc_availability n) "status") "unreachable" then HOffline else executor_health (nc_executor n).

Lemma context_nodes_sound rexec rcap resources executors (f : Fab) w :
  exists nodes f' w', context_nodes call_executor rexec rcap resources executors f w = (Ok nodes, f', w') /\
    nc_executor <$> nodes = List.filter (wanted rexec rcap) executors /\ Forall (node_sound rcap) nodes.
Proof.
  revert f w. induction executors as [|e rest IH]; intros f w; cbn [context_nodes]; [by exists [], f, w|].
  cbn [List.filter]. unfold wanted at 1.
  destruct rexec as [id|]; cbn [negb]; [destruct (String.eqb id (meta_id (executor_metadata e))) eqn:Ei; cbn [negb andb]; [|apply IH]|cbn [andb]];
  (destruct (bool_decide (is_Some rcap) && bool_decide (List.filter (is_named rcap) (executor_capabilities e) = [])) eqn:Ec;
    [apply andb_true_iff in Ec as [Es En]; rewrite En; apply bool_decide_eq_true in Es as [c ->]; rewrite bool_decide_false by done; cbn [negb orb]; apply IH
    |assert (bool_decide (rcap = None) || negb (bool_decide (List.filter (is_named rcap) (executor_capabilities e) = [])) = true) as ->;
      [apply andb_false_iff in Ec as [Es|En]; [apply bool_decide_eq_false in Es; destruct rcap; [exfalso; eauto|done]|by rewrite En, orb_true_r]|]]);
  unfold bind at 1, attempt;
  (destruct (call_executor (executor_endpoint e) "availability" (obj_of [("resources", VArray resources)]) f w) as [[r f1] w1]);
  (destruct (IH f1 w1) as (nodes & f2 & w2 & Hr & Hn & Hs)); unfold bind; rewrite Hr; unfold ret;
  eexists _, f2, w2; (split; [reflexivity|]); (split; [cbn; by rewrite Hn|]);
  (constructor; [|done]); (split; [done|]); (split; [|done]); exists r; apply availability_is_redacted.
Qed.

(** [fabric.context] always answers, and it covers exactly the registered executors that the request asks for, in the order of their registration, each with the capabilities asked for. The availability of each is the executor's own answer, or a probe that shows nothing but a code of at most 64 capitals, digits and underscores: of a failed call neither the text nor the data of the error is shown; and an executor that was not reached is shown as offline. *)
Theorem context_covers_and_redacts params (f : Fab) w :
  exists nodes f' w', fabric_context call_executor params f w = (Ok nodes, f', w') /\
    nc_executor <$> nodes = List.filter (wanted (opt_str params "executorId") (opt_str params "capability")) (st_executors (ctl_state (fab_ctl f))) /\
    Forall (node_sound (opt_str params "capability")) nodes.
Proof. unfold fabric_context. rewrite gets_cases. apply context_nodes_sound. Qed.

(** ** Registration *)

Local Abbreviation persist := (persist to_vec sha256_hex torn store).

(** A record is put into the state and the state committed. *)
Lemma put_and_commit {A} (change : FabricState -> FabricState) (a : A) (f : Fab) w b f' w' :
  bind (on_ctl (on_state change)) (fun _ => bind (on_ctl persist) (fun _ => ret a)) f w = (Ok b, f', w') ->
  b = a /\ ctl_state (fab_ctl f') = change (ctl_state (fab_ctl f)) /\ synced (fab_ctl f').
Proof.
  intros H. mstep H u f1 w1 H1. apply zoom_cases in H1 as (c1 & H1 & ->). unfold on_state, modify in H1. injection H1 as _ <- <-.
  mstep H u2 f2 w2 H2. apply zoom_cases in H2 as (c2 & H2 & ->). injection H as <- <- <-. split; [done|]. cbn [fab_ctl set_ctl].
  split; [by rewrite (persist_state _ _ _ _ _ _ _ _ _ H2)|by eapply commits_persist].
Qed.

(** an executor is registered only under the identity that its endpoint reports: when a registration succeeds, the endpoint of the request was called and answered the status of an executor with the requested identifier; the record has the endpoint, the capabilities and the roots of that answer, replaces any record with the identifier, and is on disk with the rest of the state. *)
Theorem executor_registered_as_reported params (f : Fab) w e f' w' :
  executor_register to_vec sha256_hex torn store call_executor endpoint_of capabilities_of roots_of params f w = (Ok e, f', w') ->
  exists response status f1 w1,
    call_executor (executor_endpoint e) "status" VNull f w = (Ok response, f1, w1) /\ resp_ok response = true /\
    status = default VNull (resp_result response) /\
    required_str params "executorId" = Ok (meta_id (executor_metadata e)) /\
    endpoint_of (vindex params "endpoint") = Ok (executor_endpoint e) /\
    vget "executorId" status ≫= as_str = Some (meta_id (executor_metadata e)) /\
    capabilities_of (default (VArray []) (vget "capabilities" status)) = Ok (executor_capabilities e) /\
    roots_of (default (VArray []) (vget "allowedRoots" status)) = Ok (executor_allowed_roots e) /\
    find (executor_is (meta_id (executor_metadata e))) (st_executors (ctl_state (fab_ctl f'))) = Some e /\
    synced (fab_ctl f').
Proof.
  intros H. unfold executor_register in H. mlift H xid Hid. mlift H endpoint Hep. mstep H response f1 w1 H1.
  apply with_err_cases in H1 as ([r|] & H1 & Hr); [|done]. injection Hr as <-.
  unfold response_value in H. mstep H st f2 w2 H2. destruct (resp_ok response) eqn:Eo; [|done]. injection H2 as <- <- <-.
  mlift H actual Ha. apply ok_or_ok in Ha. destruct (String.eqb_spec actual xid) as [->|]; [|done]. cbn [negb] in H.
  mlift H caps Hc. mlift H roots Hro. mstep H now f3 w3 H3. injection H3 as <- <- <-.
  apply put_and_commit in H as (-> & Hs & Hsync). cbn [executor_endpoint executor_metadata meta_id no_labels executor_capabilities executor_allowed_roots].
  exists response, (default VNull (resp_result response)), f1, w1. unfold field_as, deserialized in Hep.
  destruct (vget "endpoint" params); [|done]. destruct (endpoint_of (vindex params "endpoint")); [|done]. injection Hep as ->.
  destruct (capabilities_of _) eqn:E1; [|done]. destruct (roots_of _) eqn:E2; [|done]. injection Hc as ->. injection Hro as ->.
  split_and!; try done. rewrite Hs. cbn. apply find_upsert_key. apply String.eqb_refl.
Qed.
End Safety.

(** ** Forwarding under leases *)

Section Forwarding.
Context {Net : Type} (call_executor : ExecutorEndpoint -> string -> Value -> M (Fabric (Net := Net)) CallError Response).
Local Abbreviation Fab := (Fabric (Net := Net)).

(** [item] names a lease of [c] with its owner and token that is valid at a moment after [w], and [authority] is its fence. *)
Definition proven (c : Controller) (w : World) (item authority : Value) : Prop :=
  exists resource owner token lease w1,
    required_str item "resource" = Ok resource /\ required_str item "owner" = Ok owner /\ required_str item "token" = Ok token /\
    leases (ctl_leases c) !! resource = Some lease /\ lease_owner lease = owner /\ lease_token lease = token /\
    world_le w w1 /\ wall w1 < lease_expires_at lease /\ authority = fence_authority (ctl_id c) lease.

Lemma same_leases c : set_leases (ctl_leases c) c = c.
Proof. by destruct c. Qed.
Lemma same_ctl (f : Fab) : set_ctl (fab_ctl f) f = f.
Proof. by destruct f. Qed.

Lemma prove_lease_cases item c w r c' w' :
  prove_lease item c w = (r, c', w') -> c' = c /\ world_le w w' /\ forall a, r = Ok a -> proven c w item a.
Proof.
  intros H. unfold prove_lease in H.
  destruct (required_str item "resource") as [resource|e] eqn:Er; [|by injection H as <- <- <-]. unfold bind at 1, lift at 1 in H.
  destruct (required_str item "owner") as [owner|e] eqn:Eo; [|by injection H as <- <- <-]. unfold bind at 1, lift at 1 in H.
  destruct (required_str item "token") as [token|e] eqn:Et; [|by injection H as <- <- <-]. unfold bind at 1, lift at 1 in H.
  apply bind_cases in H as (r2 & c2 & w2 & H2 & H). unfold on_leases in H2. apply with_err_cases in H2 as (r0 & H2 & ->).
  apply zoom_cases in H2 as (t & H2 & ->). destruct r0 as [lease|e]; cbn [map_err] in H.
  - apply validate_Ok in H2 as (-> & Hw & Hl & He & Ho & Ht). rewrite same_leases in H. unfold bind, get, ret in H. injection H as <- <- <-.
    split_and!; try done. intros a' [= <-]. by eexists _, _, _, lease, w.
  - apply validate_Err in H2 as [-> Hw]. destruct H as (-> & -> & ->). by rewrite same_leases.
Qed.

Lemma prove_leases_cases items c w r c' w' :
  map_m prove_lease items c w = (r, c', w') -> c' = c /\ world_le w w' /\ forall l, r = Ok l -> Forall2 (proven c w) items l.
Proof.
  revert c w r c' w'. induction items as [|x items IH]; intros c w r c' w' H; cbn [map_m] in H.
  { injection H as <- <- <-. split_and!; try done. intros l [= <-]. constructor. }
  apply bind_cases in H as (r1 & c1 & w1 & H1 & H). apply prove_lease_cases in H1 as (-> & Hw1 & Hp).
  destruct r1 as [a|e]; [|by destruct H as (-> & -> & ->)].
  apply bind_cases in H as (r2 & c2 & w2 & H2 & H). apply IH in H2 as (-> & Hw2 & Hps).
  destruct r2 as [l|e]; [|destruct H as (-> & -> & ->); split_and!; try done; by etrans].
  injection H as <- <- <-. split_and!; [done|by etrans|]. intros l' [= <-]. constructor; [by apply Hp|].
  eapply Forall2_impl; [by apply Hps|]. intros y b (re & o & t & le & w3 & ? & ? & ? & ? & ? & ? & ? & ? & ?).
  exists re, o, t, le, w3. split_and!; try done. by etrans.
Qed.

Lemma vindex_set_spec k x v v' :
  vindex_set k x v = Some v' -> vget k v' = Some x /\ forall j, j <> k -> vget j v' = vget j v.
Proof.
  destruct v; cbn; intros [= <-]; cbn [vget].
  - split; [cbn; by rewrite String.eqb_refl|]. intros j Hj. cbn. by rewrite (proj2 (String.eqb_neq j k) Hj).
  - split; [apply obj_get_insert_eq|]. intros j Hj. by apply obj_get_insert_ne.
Qed.

(** What [executor.call] answers to a response. *)
Definition forwarded (response : result CallError Response) : result Failure Value :=
  match response with
  | Ok r => if resp_ok r then Ok (default VNull (resp_result r))
            else Err (Answered (default (rpc_error "EXECUTOR_FAILED" "executor failed") (resp_error r)))
  | Err e => Err (Answered (unavailable "EXECUTOR_UNAVAILABLE" e))
  end.

(** The parameters that [executor.call] sends. *)
Definition carries (c : Controller) (w : World) (params nested : Value) : Prop :=
  let given := default VNull (vget "params" params) in
  match lease_params params with
  | None => nested = given
  | Some items => exists authorities, Forall2 (proven c w) items authorities /\ vget "_authority" nested = Some (VArray authorities) /\
                    forall k, k <> "_authority" -> vget k nested = vget k given
  end.

(** C28: a forwarded request proves the leases it was given: [executor.call] fails before any machine is called, and then it has changed nothing, or it makes one call of the registered executor, with the action asked for and the parameters given, in which the authority is replaced by the fences of the leases named: each of a lease that the controller holds, under that owner and token, and not expired when it was checked; one that is not there, taken over or expired stops the request. The answer of the executor is handed on. *)
Theorem executor_call_proves_leases params (f : Fab) w r f' w' :
  executor_call call_executor params f w = (r, f', w') ->
  (f' = f /\ exists e, r = Err e) \/
  (exists id executor action nested response w1,
     required_str params "executorId" = Ok id /\ find (executor_is id) (st_executors (ctl_state (fab_ctl f))) = Some executor /\
     required_str params "action" = Ok action /\ carries (fab_ctl f) w params nested /\
     call_executor (executor_endpoint executor) action nested f w1 = (response, f', w') /\ r = forwarded response).
Proof.
  intros H. unfold executor_call in H.
  destruct (required_str params "executorId") as [id|e] eqn:Eid; [|injection H as <- <- <-; left; eauto].
  unfold bind at 1, lift at 1 in H. cbn [map_err] in H. rewrite gets_cases in H.
  destruct (find (executor_is id) (st_executors (ctl_state (fab_ctl f)))) as [executor|] eqn:Ee; [|injection H as <- <- <-; left; eauto].
  unfold bind at 1, lift at 1 in H. cbn [ok_or] in H.
  destruct (required_str params "action") as [action|e] eqn:Ea; [|injection H as <- <- <-; left; eauto].
  unfold bind at 1, lift at 1 in H. cbn [map_err] in H.
  apply bind_cases in H as (r1 & f1 & w1 & H1 & H).
  assert (f1 = f /\ forall nested, r1 = Ok nested -> carries (fab_ctl f) w params nested) as [-> Hn].
  { unfold carries. destruct (lease_params params) as [items|]; [|injection H1 as <- <- <-; split; [done|by intros nested [= <-]]].
    apply bind_cases in H1 as (r2 & f2 & w2 & H2 & H1). apply with_err_cases in H2 as (r0 & H2 & ->).
    apply zoom_cases in H2 as (c & H2 & ->). apply prove_leases_cases in H2 as (-> & _ & Hp). rewrite same_ctl in H1.
    destruct r0 as [l|e]; cbn [map_err] in H1; [|by destruct H1 as (-> & -> & ->)].
    unfold lift in H1. injection H1 as <- <- <-. split; [done|]. intros nested Hs%ok_or_ok.
    apply vindex_set_spec in Hs as [Hg Ho]. exists l. split_and!; [by apply Hp|done|done]. }
  destruct r1 as [nested|e]; [|left; destruct H as (-> & -> & ->); eauto].
  right. apply bind_cases in H as (r2 & f2 & w2 & H2 & H). apply with_err_cases in H2 as (response & H2 & ->).
  exists id, executor, action, nested, response, w1. split_and!; try done; [by apply Hn| |];
    (destruct response as [resp|e]; cbn [map_err forwarded] in *; [|by destruct H as (-> & -> & ->)]);
    unfold with_err, response_value in H; (destruct (resp_ok resp); unfold ret, fail in H; by injection H as <- <- <-).
Qed.

(** ** A request that stops the controller *)

(** Parameters of [executor.call] for a registered executor with leases and with parameters that no field can be put into:
    neither an object nor absent nor null *)
Definition malformed_call (c : Controller) (params : Value) (items : list Value) : Prop :=
  (exists id, required_str params "executorId" = Ok id /\ is_Some (find (executor_is id) (st_executors (ctl_state c)))) /\
  (exists action, required_str params "action" = Ok action) /\
  lease_params params = Some items /\
  is_object (default VNull (vget "params" params)) = false /\ default VNull (vget "params" params) <> VNull.

(** [item] names a lease of [c] with its owner and token. *)
Definition holds_lease (c : Controller) (item : Value) : Prop :=
  exists resource owner token lease, required_str item "resource" = Ok resource /\ required_str item "owner" = Ok owner /\
    required_str item "token" = Ok token /\ leases (ctl_leases c) !! resource = Some lease /\ lease_owner lease = owner /\ lease_token lease = token.

(** No lease expires during the next [n] readings of the clock. *)
Definition leases_last (c : Controller) (w : World) (n : nat) : Prop :=
  forall resource lease k, leases (ctl_leases c) !! resource = Some lease -> (k < n)%nat ->
    o_at (w_wall w) (o_next (w_wall w) + k)%nat < lease_expires_at lease.

Lemma leases_last_wall c w n resource lease :
  leases_last c w (S n) -> leases (ctl_leases c) !! resource = Some lease -> wall w < lease_expires_at lease.
Proof. intros H Hl. specialize (H resource lease 0%nat Hl ltac:(lia)). by rewrite Nat.add_0_r in H. Qed.
Lemma leases_last_next c w n : leases_last c w (S n) -> leases_last c (set_wall (advance (w_wall w)) w) n.
Proof.
  intros H resource lease k Hl Hk. specialize (H resource lease (S k) Hl ltac:(lia)). cbn.
  by replace (S (o_next (w_wall w) + k)) with (o_next (w_wall w) + S k)%nat by lia.
Qed.

Lemma leases_proved items c w :
  Forall (holds_lease c) items -> leases_last c w (length items) -> exists l w', map_m prove_lease items c w = (Ok l, c, w').
Proof.
  revert w. induction items as [|x items IH]; intros w Hp Hl; cbn [map_m]; [by exists [], w|].
  apply Forall_cons in Hp as [(resource & owner & token & lease & Hr & Ho & Ht & Hf & Eo & Et) Hp]. cbn [length] in Hl.
  pose proof (leases_last_wall _ _ _ _ _ Hl Hf) as Hw. apply leases_last_next in Hl.
  assert (prove_lease x c w = (Ok (fence_authority (ctl_id c) lease), c, set_wall (advance (w_wall w)) w)) as E.
  { unfold prove_lease. rewrite Hr, Ho, Ht. unfold on_leases, with_err, zoom, validate. munfold. rewrite Hf. cbn.
    unfold wall in Hw. rewrite (proj2 (Z.leb_gt _ _) Hw), Eo, Et, !String.eqb_refl. cbn. by rewrite same_leases. }
  unfold bind at 1. rewrite E. destruct (IH _ Hp Hl) as (l & w' & E'). unfold bind. rewrite E'. by eexists _, w'.
Qed.

Lemma executor_call_malformed params items (f : Fab) w :
  malformed_call (fab_ctl f) params items -> Forall (holds_lease (fab_ctl f)) items -> leases_last (fab_ctl f) w (length items) ->
  exists w', executor_call call_executor params f w = (Err (Panicked true), f, w').
Proof.
  intros ((id & Hid & executor & He) & (action & Ha) & Hi & Ho & Hn) Hp Hl. unfold executor_call. rewrite Hid.
  unfold bind at 1, lift at 1. cbn [map_err]. rewrite gets_cases, He. unfold bind at 1, lift at 1. cbn [ok_or]. rewrite Ha.
  unfold bind at 1, lift at 1. cbn [map_err]. rewrite Hi. destruct (leases_proved _ _ _ Hp Hl) as (l & w' & E).
  exists w'. unfold bind at 1. unfold bind at 1. unfold with_err at 1, on_ctl, zoom. rewrite E. cbn [map_err]. rewrite same_ctl.
  by destruct (default VNull (vget "params" params)).
Qed.

End Forwarding.

(** ** Ports *)

Section Ports.
Context (to_vec : Value -> option string) (sha256_hex : string -> string) (torn : string -> string) (store : JsonStore).
Context {Net : Type} (call_executor : ExecutorEndpoint -> string -> Value -> M (Fabric (Net := Net)) CallError Response).
Local Abbreviation Fab := (Fabric (Net := Net)).
Local Abbreviation persist := (persist to_vec sha256_hex torn store).

(** While an executor is called, no other request changes the controller. *)
Definition quiet : Prop :=
  forall endpoint action params f w r f' w', call_executor endpoint action params f w = (r, f', w') -> fab_ctl f' = fab_ctl f /\ world_le w w'.

Lemma acquire_cases kind r owner ttl t w res t' w' :
  acquire kind r owner ttl t w = (res, t', w') ->
  world_le w w' /\
  match res with
  | Ok g => lease_resource g = r /\ lease_owner g = owner /\ leases t' = <[r := g]> (leases t) /\
            forall l, leases t !! r = Some l -> lease_expires_at l <= wall w
  | Err e => t' = t /\ exists o x, e = LeaseActive o x
  end.
Proof.
  unfold acquire. munfold. destruct (leases t !! r) as [l|] eqn:Hl;
    [destruct (_ <? lease_expires_at l) eqn:He|]; intros; simplify_eq; (split; [wle|]); try (split; [done|eauto]);
    split_and!; try done; intros l' Hl'; simplify_eq; by apply Z.ltb_ge in He.
Qed.

Lemma release_cases r g t w res t' w' :
  leases t !! r = Some g -> release r (lease_owner g) (lease_token g) t w = (res, t', w') ->
  world_le w w' /\ match res with Ok _ => leases t' = delete r (leases t) | Err _ => t' = t /\ lease_expires_at g <= wall w end.
Proof.
  intros Hg. unfold release, validate. munfold. rewrite Hg, !String.eqb_refl. cbn.
  destruct (lease_expires_at g <=? _) eqn:E; [|rewrite Hg]; intros; simplify_eq; (split; [wle|]); [|done].
  split; [done|]. by apply Z.leb_le in E.
Qed.

(** The lease, if there is one, is over at some moment between [w] and [w']. *)
Definition lapsed (w w' : World) (o : option Lease) : Prop :=
  forall l, o = Some l -> exists w1, world_le w w1 /\ world_le w1 w' /\ lease_expires_at l <= wall w1.
(** A resource has the lease it had, or at most leases that are over. *)
Definition left_alone (t t' : LeaseTable) (w w' : World) (r : string) : Prop :=
  leases t' !! r = leases t !! r \/ (lapsed w w' (leases t !! r) /\ lapsed w w' (leases t' !! r)).

Lemma lapsed_widen w0 w w' w1 o : world_le w0 w -> world_le w' w1 -> lapsed w w' o -> lapsed w0 w1 o.
Proof. intros Ha Hb H l Hl. destruct (H l Hl) as (x & ? & ? & ?). exists x. split_and!; [by etrans|by etrans|done]. Qed.

Lemma left_alone_trans t1 t2 t3 w1 w2 w3 r :
  world_le w1 w2 -> world_le w2 w3 -> left_alone t1 t2 w1 w2 r -> left_alone t2 t3 w2 w3 r -> left_alone t1 t3 w1 w3 r.
Proof.
  intros Ha Hb [E1|[A1 B1]] [E2|[A2 B2]]; unfold left_alone.
  - left. by rewrite E2.
  - right. rewrite <- E1. split; (eapply lapsed_widen; [| |eassumption]; done).
  - right. rewrite E2. split; (eapply lapsed_widen; [| |eassumption]; done).
  - right. split; (eapply lapsed_widen; [| |eassumption]; done).
Qed.

(** The leases before and after a run. *)
Definition undisturbed (f f' : Fab) (w w' : World) (r : string) : Prop :=
  left_alone (ctl_leases (fab_ctl f)) (ctl_leases (fab_ctl f')) w w' r.

(** What a granted port means. *)
Definition allocated (executor : Executor) (executor_id owner : string) (f : Fab) (w : World) (port : Z) (lease : Lease) (f' : Fab) : Prop :=
  lease_resource lease = port_resource executor_id port /\ lease_owner lease = owner /\
  leases (ctl_leases (fab_ctl f')) !! port_resource executor_id port = Some lease /\ synced (fab_ctl f') /\
  (forall x, x <> port_resource executor_id port -> exists w1, world_le w w1 /\ undisturbed f f' w w1 x) /\
  exists response f1 w1 f2 w2,
    call_executor (executor_endpoint executor) "port.check" (obj_of [("port", vu64 port)]) f1 w1 = (Ok response, f2, w2) /\
    (resp_result response ≫= vget "available") ≫= as_bool = Some true.

Definition commit_failed (e : RpcError) (f' : Fab) (w' : World) : Prop := exists c1 w1, persist c1 w1 = (Err e, fab_ctl f', w').

Lemma try_port_cases executor executor_id owner ttl port (f : Fab) w r f' w' :
  quiet -> try_port to_vec sha256_hex torn store call_executor executor executor_id owner ttl port f w = (r, f', w') ->
  match r with
  | Ok None => world_le w w' /\ forall x, undisturbed f f' w w' x
  | Ok (Some lease) => allocated executor executor_id owner f w port lease f'
  | Err e => commit_failed e f' w'
  end.
Proof.
  intros Hq H. unfold try_port in H. apply bind_cases in H as (r1 & f1 & w1 & H1 & H). apply attempt_cases in H1 as (r0 & -> & H1).
  apply zoom_cases in H1 as (c1 & H1 & ->). apply zoom_cases in H1 as (t1 & H1 & ->). apply acquire_cases in H1 as (Hw1 & H1).
  destruct r0 as [lease|e].
  2: { destruct H1 as [-> (o & x & ->)]. injection H as <- <- <-. split; [done|]. intros y. by left. }
  destruct H1 as (Hr & Ho & Ht & Hold). apply bind_cases in H as (r2 & f2 & w2 & H2 & H). apply attempt_cases in H2 as (response & -> & H2).
  pose proof (Hq _ _ _ _ _ _ _ _ H2) as [Hc Hw2]. cbn [fab_ctl set_ctl] in Hc. set (res := port_resource executor_id port) in *.
  assert (forall x, x <> res -> left_alone (ctl_leases (fab_ctl f)) t1 w w2 x) as Hx.
  { intros x Hne. left. by rewrite Ht, lookup_insert_ne. }
  destruct (match response with Ok _ => _ | Err _ => _ end) eqn:Ev.
  - apply bind_cases in H as (r3 & f3 & w3 & H3 & H). apply zoom_cases in H3 as (c3 & H3 & ->).
    destruct r3 as [u|e]; [|destruct H as (-> & -> & ->); by exists (fab_ctl f2), w2]. injection H as <- <- <-.
    assert (frame ctl_leases persist) as Hl by (by apply persist_frame). apply Hl in H3 as Hl3. unfold allocated. cbn [fab_ctl set_ctl].
    rewrite Hc in Hl3. cbn in Hl3. fold res. rewrite Hl3, Ht, lookup_insert_eq. split_and!; try done; [by eapply commits_persist| |].
    + intros x Hne. exists w2. split; [by etrans|]. unfold undisturbed. cbn [fab_ctl set_ctl]. rewrite Hl3. by apply Hx.
    + destruct response as [resp|]; [|done]. eexists resp, _, _, _, _. split; [exact H2|].
      destruct ((resp_result resp ≫= vget "available") ≫= as_bool) as [[]|]; done.
  - apply bind_cases in H as (r3 & f3 & w3 & H3 & H). apply attempt_cases in H3 as (r4 & -> & H3). injection H as <- <- <-.
    apply zoom_cases in H3 as (c3 & H3 & ->). apply zoom_cases in H3 as (t3 & H3 & ->). rewrite Hc in H3. cbn [ctl_leases set_leases] in H3.
    rewrite <- Ho in H3. apply release_cases in H3 as (Hw3 & H3); [|by rewrite Ht, lookup_insert_eq]. unfold undisturbed. cbn [fab_ctl set_ctl ctl_leases set_leases].
    split; [by do 2 (etrans; [eassumption|])|]. intros x. destruct (decide (x = res)) as [->|Hne].
    + right. split.
      * intros l Hl. exists w. split_and!; [done| |by apply Hold]. by do 2 (etrans; [eassumption|]).
      * destruct r4 as [g|e]; [rewrite H3, lookup_delete_eq; by intros l Hl|]. destruct H3 as [-> He]. rewrite Ht, lookup_insert_eq.
        intros l [= <-]. exists w2. split_and!; [by etrans|done|done].
    + left. destruct r4; [rewrite H3, lookup_delete_ne by done|destruct H3 as [-> _]]; by rewrite Ht, lookup_insert_ne.
Qed.

Lemma try_ports_cases n port executor executor_id owner ttl (f : Fab) w r f' w' :
  quiet -> try_ports to_vec sha256_hex torn store call_executor n port executor executor_id owner ttl f w = (r, f', w') ->
  match r with
  | Ok None => world_le w w' /\ forall x, undisturbed f f' w w' x
  | Ok (Some (p, lease)) => port <= p < port + Z.of_nat n /\ allocated executor executor_id owner f w p lease f'
  | Err e => commit_failed e f' w'
  end.
Proof.
  intros Hq. revert port f w. induction n as [|n IH]; intros port f w H; cbn [try_ports] in H.
  { injection H as <- <- <-. split; [done|]. intros x. by left. }
  apply bind_cases in H as (r1 & f1 & w1 & H1 & H). apply try_port_cases in H1; [|done].
  destruct r1 as [[lease|]|e]; [injection H as <- <- <-; split; [lia|done]| |by destruct H as (-> & -> & ->)].
  destruct H1 as [Hw1 Hu]. apply IH in H. destruct r as [[[p lease]|]|e]; [| |done].
  - destruct H as (Hp & Hr & Ho & Hl & Hs & Hx & Hcall). split; [lia|]. split_and!; try done.
    intros x Hne. destruct (Hx x Hne) as (w2 & Hw2 & H2). exists w2. split; [by etrans|]. eapply left_alone_trans; [exact Hw1|exact Hw2|apply Hu|exact H2].
  - destruct H as [Hw2 Hx]. split; [by etrans|]. intros x. eapply left_alone_trans; [exact Hw1|exact Hw2|apply Hu|apply Hx].
Qed.

(** allocating a port, while no other request intervenes: the port that is answered is in the range asked for, below 65536; its executor said that it is free; its lease belongs to the owner that asked and is held and on disk; and of every other port the request kept nothing: it has the lease it had, or leases that are over. When no port is found, this holds of all ports. Only a commit that fails can leave a lease behind. *)
Theorem port_allocated params (f : Fab) w r f' w' :
  quiet -> port_allocate to_vec sha256_hex torn store call_executor params f w = (r, f', w') ->
  match r with
  | Ok (port, lease) =>
      exists executor_id owner executor,
        required_str params "executorId" = Ok executor_id /\ required_str params "owner" = Ok owner /\
        find (executor_is executor_id) (st_executors (ctl_state (fab_ctl f))) = Some executor /\
        default 20000 (opt_u64 params "start") <= port <= default 40000 (opt_u64 params "end") /\ port <= 65535 /\
        allocated executor executor_id owner f w port lease f'
  | Err e => (forall x, undisturbed f f' w w' x) \/ commit_failed e f' w'
  end.
Proof.
  intros Hq H. unfold port_allocate in H.
  destruct (required_str params "executorId") as [executor_id|e] eqn:E1; [|injection H as <- <- <-; left; intros x; by left].
  unfold bind at 1, lift at 1 in H. destruct (required_str params "owner") as [owner|e] eqn:E2; [|injection H as <- <- <-; left; intros x; by left].
  unfold bind at 1, lift at 1 in H. destruct (_ || _) eqn:Eb; [injection H as <- <- <-; left; intros x; by left|].
  apply orb_false_iff in Eb as [[_ E65]%orb_false_iff Ele]. apply Z.ltb_ge in E65, Ele. rewrite gets_cases in H.
  destruct (find _ _) as [executor|] eqn:Ef; [|injection H as <- <- <-; left; intros x; by left]. unfold bind at 1, lift at 1 in H. cbn [ok_or] in H.
  apply bind_cases in H as (r1 & f1 & w1 & H1 & H). apply try_ports_cases in H1; [|done].
  destruct r1 as [[[p lease]|]|e].
  - injection H as <- <- <-. destruct H1 as [Hp Ha]. exists executor_id, owner, executor. split_and!; try done; lia.
  - injection H as <- <- <-. left. apply H1.
  - destruct H as (-> & -> & ->). by right.
Qed.
End Ports.

(** ** Concrete states, with the tasks of [ControllerTasks] *)

(** ** Tasks *)

Definition listed_task (id : string) (state : TaskState) : Task :=
  mkTask id None None "s" "mac" "fs.write" VNull None None None None id state 1 1 0 0 [].
Definition ctl_tasks_of (l : list Task) : Controller :=
  mkController "A" FabricState_default LeaseTable_default (mkTaskTable (list_to_map ((fun t => (task_id t, t)) <$> l)) ∅) empty_disk FabricState_default.
Definition four_tasks : Controller :=
  ctl_tasks_of [listed_task "a" Failed; listed_task "b" Running; listed_task "c" Failed; listed_task "d" Failed].

(** Three failed tasks in pages of two, of a table with four. *)
Lemma pages_list_every_task_witness :
  read_pages 2 (Some "failed") 2 (vu64 0) four_tasks (sample_world 0)
    = (Ok (task_summary <$> listed_tasks (Some "failed") four_tasks), four_tasks, sample_world 0) /\
  task_id <$> listed_tasks (Some "failed") four_tasks = ["a"; "c"; "d"].
Proof. split; [apply pages_list_every_task; [vm_compute; done|done|vm_compute; done]|vm_compute; reflexivity]. Defined.

(** The clock reads an hour more each time; the task goes on running. *)
Definition hourly_world : World := mkWorld (mkOracle Z.of_nat 0) (mkOracle (fun n => Z.of_nat n * 3600000) 0) (mkOracle unary 0) (mkOracle (fun _ => true) 0).
Definition b_params : Value := obj_of [("taskId", VString "b")].

Lemma task_wait_ends_witness :
  let run := task_wait (fun _ => None) (fun s => s) payload_store (ret tt) 1 b_params four_tasks hourly_world in
  run.1.1 <> Ok None /\ run.1.1 = Err (rpc_error "TASK_WAIT_TIMEOUT" "task b did not finish before timeout").
Proof.
  intros run. split; [|vm_compute; reflexivity]. destruct run as [[r c'] w'] eqn:H. unfold run in H.
  apply (task_wait_ends (fun _ => None) (fun s => s) payload_store (ret tt) 1 b_params four_tasks hourly_world r c' w'); [| |vm_compute; done|exact H].
  - intros s w r1 s' w1 [= <- <- <-]. reflexivity.
  - intros i j Hij. cbn. lia.
Defined.

(** ** Calls *)

Definition endpoint_e : ExecutorEndpoint := EndpointLocal "e.sock".
Definition executor_e : Executor := mkExecutor "v1" (mkMetadata "e" ∅ 0 0) endpoint_e [] [] HReady.
Definition lease_r : Lease := mkLease "lease_1" Resource "r" "me" "token_1" 7 0 0 1000000 None.
Definition state_c : FabricState := mkFabricState (Some "A") [] [executor_e] [] [lease_r] {["r" := 7]} [] [] [] [] [] [] [].
Definition ctl_c : Controller := mkController "A" state_c (from_snapshot [lease_r] {["r" := 7]}) TaskTable_default empty_disk state_c.
(** The machines: a list of the requests they got *)
Definition fab_c : Fabric (Net := list (string * Value)) := mkFabric ctl_c [].

Definition ok_response (v : Value) : Response := response_success "id" v.
(** The executor [e]: it reports its status and its free ports, and repeats everything else. *)
Definition call_e (endpoint : ExecutorEndpoint) (action : string) (params : Value) : M (Fabric (Net := list (string * Value))) CallError Response :=
  modify (fun f => set_net (fab_net f ++ [(action, params)]) f) ;;
  ret (ok_response
    (if String.eqb action "status" then obj_of [("executorId", VString "e")]
     else if String.eqb action "port.check" then obj_of [("available", VBool (negb (eq_int (vindex params "port") 20000)))]
     else params)).
Definition endpoint_always (_ : Value) : result string ExecutorEndpoint := Ok endpoint_e.
Definition no_capabilities (_ : Value) : result string (list CapabilityDescriptor) := Ok [].
Definition no_roots (_ : Value) : result string (list string) := Ok [].

Lemma call_e_quiet : quiet call_e.
Proof. intros endpoint action params f w r f' w' H. unfold call_e, bind, modify, ret in H. injection H as <- <- <-. split; reflexivity. Qed.

Definition store_c : JsonStore := payload_store.
Definition to_vec_c (_ : Value) : option string := Some "{}".
Definition same (s : string) : string := s.

Definition register_params : Value := obj_of [("executorId", VString "e"); ("endpoint", VObject [])].

Lemma executor_registered_as_reported_witness :
  let run := executor_register to_vec_c same same store_c call_e endpoint_always no_capabilities no_roots register_params fab_c (sample_world 0) in
  exists e, run.1.1 = Ok e /\ exists id, required_str register_params "executorId" = Ok id /\ find (executor_is id) (st_executors (ctl_state (fab_ctl run.1.2))) = Some e.
Proof.
  intros run. destruct run as [[[e|err] f'] w'] eqn:H.
  2: { exfalso. assert ((Err err : result RpcError Executor) = run.1.1) as E by (by rewrite H). vm_compute in E. discriminate. }
  exists e. split; [reflexivity|]. unfold run in H.
  apply (executor_registered_as_reported to_vec_c same same store_c call_e endpoint_always no_capabilities no_roots) in H as (? & ? & ? & ? & _ & _ & _ & Hid & _ & _ & _ & _ & Hf & _).
  exists (meta_id (executor_metadata e)). split; [exact Hid|exact Hf].
Defined.

(** A request with a lease held and a forged authority: the fence of the lease is sent. *)
Definition call_params : Value :=
  obj_of [("executorId", VString "e"); ("action", VString "fs.write"); ("leaseResource", VString "r"); ("owner", VString "me"); ("token", VString "token_1");
          ("params", obj_of [("path", VString "f"); ("_authority", VString "forged")])].

Lemma executor_call_proves_leases_witness :
  let run := executor_call call_e call_params fab_c (sample_world 0) in
  run.1.1 = Ok (obj_of [("path", VString "f"); ("_authority", VArray [fence_authority "A" lease_r])]) /\
  exists executor action nested response w1, carries (fab_ctl fab_c) (sample_world 0) call_params nested /\
    call_e (executor_endpoint executor) action nested fab_c w1 = (response, run.1.2, run.2).
Proof.
  intros run. split; [vm_compute; reflexivity|]. destruct run as [[r f'] w'] eqn:H. unfold run in H.
  pose proof (executor_call_proves_leases call_e call_params fab_c (sample_world 0) r f' w' H) as [[_ [e He]]|(id & executor & action & nested & response & w1 & _ & _ & _ & Hc & Hcall & _)].
  - exfalso. assert ((Err e : result Failure Value) = run.1.1) as E by (unfold run; rewrite H; by rewrite <- He). vm_compute in E. discriminate.
  - exists executor, action, nested, response, w1. split; [exact Hc|exact Hcall].
Defined.

Definition ping_request : Request := mkRequest RPC_VERSION "req_2" None None "ping" VNull.
Definition daemon_r : Daemon (Net := list (string * Value)) := mkDaemon fab_c false.
(** The lease that is held is named, and the parameters are a text. *)
Definition malformed_params : Value :=
  obj_of [("executorId", VString "e"); ("action", VString "ping"); ("leaseResource", VString "r"); ("owner", VString "me"); ("token", VString "token_1"); ("params", VString "text")].
Definition malformed_request : Request := mkRequest RPC_VERSION "req_1" None None "executor.call" malformed_params.
Definition pong (_ : string) (_ : Value) : M (Fabric (Net := list (string * Value))) Failure Value := ret (VString "pong").


(** The first port is taken, the second free: its lease is held. *)
Definition port_params : Value := obj_of [("executorId", VString "e"); ("owner", VString "me"); ("start", vu64 20000); ("end", vu64 20002)].
Definition ports_run := port_allocate to_vec_c same same store_c call_e port_params fab_c (sample_world 0).

Lemma port_allocated_witness :
  exists port lease, ports_run.1.1 = Ok (port, lease) /\ port = 20001 /\ port <= 65535 /\
    leases (ctl_leases (fab_ctl ports_run.1.2)) !! "port:e:20001" = Some lease.
Proof.
  assert (exists port lease, ports_run.1.1 = Ok (port, lease) /\ port = 20001) as (port & lease & E & Hport).
  { eexists _, _. split; vm_compute; reflexivity. }
  exists port, lease. split; [exact E|]. split; [exact Hport|].
  destruct ports_run as [[r f'] w'] eqn:H. cbn [fst snd] in E |- *. subst r. unfold ports_run in H.
  pose proof (port_allocated to_vec_c same same store_c call_e port_params fab_c (sample_world 0) (Ok (port, lease)) f' w' call_e_quiet H)
    as (executor_id & owner & executor & Hid & _ & _ & _ & Hp & _ & _ & Hl & _).
  split; [exact Hp|]. vm_compute in Hid. injection Hid as <-. subst port. exact Hl.
Defined.
