(* ===== verification/DesktopRun.v ===== *)
(** * The consumer of a desktop request ([desktop_run.rs] of the crate machine-fabric-cli)

    [Run::execute] waits for a grant of the desktop, claims it, starts one
    command and finishes the request. A receipt on disk records how far it came:
    the lock beside it lets one execution at a time use it, an execution may be
    killed before any of its effects, and the next one goes on from the receipt.
    The receipt is the JSON value that is read back; its file is replaced by a
    rename, so it is never torn. *)
From stdpp Require Import base strings list.
From S2P Require Import Prelude Json.
Open Scope Z_scope.
Open Scope fabric_scope.

(** How an execution stops: by an error, or because it was killed; one that still waits counts as killed. *)
Inductive Stop := Failed (text : string) | Killed.

(** A command that was started, with the environment it got *)
Record Launch := mkLaunch { l_argv : list string; l_executor : string; l_owner : string; l_token : string }.

(** [Run]; the socket and the path of the receipt are those of the site. *)
Record Run := mkRun { run_executor : string; run_owner : string; run_request_key : string; run_deadline_at : Z; run_argv : list string }.

(** [value["state"].as_str()] *)
Definition state_of (record : Value) : string := default "" (as_str (vindex record "state")).

Section Consumer.
Context {Net : Type}.
(** A call of the controller: its value, or the text of the error. *)
Context (rpc : string -> Value -> M Net string Value).
(** [child.try_wait()]: the exit, once there is one; its code is missing after a signal. *)
Context (try_wait : M Net string (option (option Z))).
(** [child.id()] *)
Context (child_id : Net -> Z).

(** The machine of the consumer. [s_versions] are the contents that the receipt had, the newest first; [s_overlooked] counts how often an execution did not see the receipt that was there; [s_budget] is the number of effects until the process is killed. *)
Record Site := mkSite {
  s_receipt : option Value;
  s_versions : list (option Value);
  s_launches : list Launch;
  s_overlooked : nat;
  s_budget : nat;
  s_net : Net;
}.
Definition set_receipt (v : option Value) (s : Site) : Site := mkSite v (s_receipt s :: s_versions s) (s_launches s) (s_overlooked s) (s_budget s) (s_net s).
Definition add_launch (l : Launch) (s : Site) : Site := mkSite (s_receipt s) (s_versions s) (s_launches s ++ [l]) (s_overlooked s) (s_budget s) (s_net s).
Definition set_budget (n : nat) (s : Site) : Site := mkSite (s_receipt s) (s_versions s) (s_launches s) (s_overlooked s) n (s_net s).
Definition set_net (n : Net) (s : Site) : Site := mkSite (s_receipt s) (s_versions s) (s_launches s) (s_overlooked s) (s_budget s) n.
Definition overlook (s : Site) : Site := mkSite (s_receipt s) (s_versions s) (s_launches s) (S (s_overlooked s)) (s_budget s) (s_net s).

(** Before every effect the process may be killed. *)
Definition alive : M Site Stop unit :=
  let* n := gets s_budget in
  match n with O => fail Killed | S n' => modify (set_budget n') end.
Definition io (text : string) : M Site Stop unit :=
  alive ;; let* ok := io_outcome in if ok : bool then ret tt else fail (Failed text).
Definition call (action : string) (params : Value) : M Site Stop Value :=
  alive ;; with_err Failed (zoom s_net set_net (rpc action params)).
(** [if let Err(_) = call]: an error is a value; a killed process is not. *)
Definition caught {A} (m : M Site Stop A) : M Site Stop (option A) :=
  let* r := attempt m in
  match r with Ok a => ret (Some a) | Err (Failed _) => ret None | Err Killed => fail Killed end.

(** [store]: a temporary file is written and synced, and renamed over the receipt. *)
Definition store (record : Value) : M Site Stop unit :=
  io "write temporary" ;;
  io "rename" ;;
  modify (set_receipt (Some record)).

(** [self.receipt.exists()]: false also when the receipt cannot be looked at *)
Definition receipt_exists : M Site Stop bool :=
  let* seen := io_outcome in
  let* receipt := gets s_receipt in
  match receipt with
  | Some _ => if seen : bool then ret true else modify overlook ;; ret false
  | None => ret false
  end.

(** [record[key] = value]; a record is an object, so that no panic can happen. *)
Definition record_set (key : string) (value record : Value) : Value := default record (vindex_set key value record).

Definition initial_record (run : Run) (consumer : string) : Value :=
  obj_of [("state", VString "submitting"); ("executorId", VString (run_executor run)); ("owner", VString (run_owner run));
          ("requestKey", VString (run_request_key run)); ("argv", VArray (VString <$> run_argv run));
          ("deadlineAt", vu64 (run_deadline_at run)); ("consumerId", VString consumer)].

Definition receipt_matches (run : Run) (record : Value) : bool :=
  eq_str (vindex record "executorId") (run_executor run)
  && eq_str (vindex record "owner") (run_owner run)
  && eq_str (vindex record "requestKey") (run_request_key run)
  && value_eqb (vindex record "argv") (VArray (VString <$> run_argv run))
  && eq_int (vindex record "deadlineAt") (run_deadline_at run).

Definition credentials (run : Run) (job : Value) : Value :=
  obj_of [("executorId", VString (run_executor run)); ("owner", VString (run_owner run)); ("token", vindex job "token")].

(** The job of the record, or a new one, which the record then keeps *)
Definition submitted (run : Run) (record : Value) : M Site Stop (Value * Value) :=
  match vget "job" record with
  | Some job => ret (job, record)
  | None =>
      let* job := call "desktop.submit"
        (obj_of [("executorId", VString (run_executor run)); ("owner", VString (run_owner run)); ("requestKey", VString (run_request_key run));
                 ("requiresAvailability", VBool true); ("deadlineAt", vu64 (run_deadline_at run)); ("ttlMs", vu64 900000)]) in
      let record := record_set "state" (VString "queued") (record_set "job" job record) in
      store record ;;
      ret (job, record)
  end.

(** The loop that waits for the grant and claims it *)
Fixpoint claim_loop (fuel : nat) (run : Run) (creds record : Value) : M Site Stop unit :=
  match fuel with
  | O => fail Killed
  | S fuel' =>
      let* now := now_ms in
      if run_deadline_at run <=? now then
        let* _ := call "desktop.cancel" creds in
        store (record_set "state" (VString "expired") record) ;;
        fail (Failed "desktop request expired before consumer launch")
      else
        let* status := caught (call "desktop.get" creds) in
        match status with
        | None => claim_loop fuel' run creds record
        | Some status =>
            if String.eqb (state_of status) "queued" then claim_loop fuel' run creds record
            else if negb (String.eqb (state_of status) "active") then fail (Failed "desktop request is no longer runnable")
            else if negb (eq_bool (vindex status "inputAllowed") true) then claim_loop fuel' run creds record
            else if match as_str (vindex status "claimedBy") with Some c => negb (bool_decide (as_str (vindex record "consumerId") = Some c)) | None => false end
            then fail (Failed "another consumer has claimed this request; automatic replay refused")
            else
              let* claimed := caught (call "desktop.claim" (record_set "consumerId" (vindex record "consumerId") creds)) in
              match claimed with Some _ => ret tt | None => claim_loop fuel' run creds record end
        end
  end.

(** The loop that waits for the command: its exit code *)
Fixpoint child_loop (fuel : nat) (creds : Value) (renewed : Z) : M Site Stop (option Z) :=
  match fuel with
  | O => fail Killed
  | S fuel' =>
      alive ;;
      let* exit := with_err Failed (zoom s_net set_net try_wait) in
      match exit with
      | Some code => ret code
      | None =>
          let* now := instant_now in
          if 30000 <=? now - renewed then
            let* _ := call "desktop.renew" creds in
            let* now := instant_now in
            child_loop fuel' creds now
          else child_loop fuel' creds renewed
      end
  end.

Definition vi32 (n : Z) : Value := VNumber (if n <? 0 then NegInt n else PosInt n).

(** From the grant to the end of the command *)
Definition launch (fuel : nat) (run : Run) (job creds record : Value) : M Site Stop Value :=
  let record := record_set "state" (VString "starting") record in
  store record ;;
  let* token := lift (ok_or (as_str (vindex job "token")) (Failed "missing job token")) in
  let* spawned := caught (io "spawn") in
  match spawned with
  | None =>
      store (record_set "state" (VString "spawn_failed") record) ;;
      let* _ := call "desktop.finish" creds in
      fail (Failed "spawn")
  | Some _ =>
      modify (add_launch (mkLaunch (run_argv run) (run_executor run) (run_owner run) token)) ;;
      let* pid := gets (fun s => child_id (s_net s)) in
      let record := record_set "pid" (vu64 pid) (record_set "state" (VString "running") record) in
      store record ;;
      let* renewed := instant_now in
      let* exit := child_loop fuel creds renewed in
      let record := record_set "exitCode" (vopt vi32 exit) (record_set "state" (VString "exited") record) in
      store record ;;
      let* _ := call "desktop.finish" creds in
      store (record_set "state" (VString "completed") record) ;;
      if negb (bool_decide (exit = Some 0)) then fail (Failed "desktop consumer failed; receipt retained")
      else ret (obj_of [("state", VString "completed"); ("exitCode", vopt vi32 exit)])
  end.

(** [Run::execute_with]; another execution that holds the lock is an error of opening it. *)
Definition execute (fuel : nat) (run : Run) : M Site Stop Value :=
  if bool_decide (run_argv run = []) then fail (Failed "a consumer command is required after --")
  else
    io "create the directory" ;;
    io "another consumer owns this receipt" ;;
    let* exists_ := receipt_exists in
    let* record :=
      if exists_ : bool then
        io "read the receipt" ;;
        let* receipt := gets s_receipt in
        lift (ok_or receipt (Failed "read the receipt"))
      else let* consumer := new_v4 in ret (initial_record run consumer) in
    if negb (receipt_matches run record) then fail (Failed "receipt does not match this request")
    else if String.eqb (state_of record) "completed" then
      if negb (eq_int (vindex record "exitCode") 0) then fail (Failed "previous consumer failed; automatic replay refused")
      else ret (obj_of [("state", VString "completed"); ("alreadyConsumed", VBool true); ("exitCode", vindex record "exitCode")])
    else if negb (existsb (String.eqb (state_of record)) ["submitting"; "queued"])
    then fail (Failed "consumer may already have started; inspect its receipt and process; automatic replay refused")
    else
      store record ;;
      let* p := submitted run record in
      let '(job, record) := p in
      let creds := credentials run job in
      claim_loop fuel run creds record ;;
      launch fuel run job creds record.

(** ** What happens to a site *)

(** Executions with the receipt of the site, one after the other, each killed at any point; meanwhile the fabric changes. *)
Inductive happens : Site -> Site -> Prop :=
| happens_nothing s : happens s s
| happens_execution fuel run budget s w r s1 w1 s2 :
    execute fuel run (set_budget budget s) w = (r, s1, w1) -> happens s1 s2 -> happens s s2
| happens_elsewhere n s s2 : happens (set_net n s) s2 -> happens s s2.

(** After a power failure the receipt has any of the contents whose rename was not yet synced; the directory is never synced. *)
Inductive power_failure : Site -> Site -> Prop :=
| power_fails v s : v ∈ s_receipt s :: s_versions s ->
    power_failure s (mkSite v (s_versions s) (s_launches s) (s_overlooked s) (s_budget s) (s_net s)).
End Consumer.

(** ** At most one launch *)

Definition armed (record : Value) : bool := existsb (String.eqb (state_of record)) ["submitting"; "queued"].

Lemma record_set_object k x v : is_object v = true -> is_object (record_set k x v) = true.
Proof. by destruct v. Qed.
Lemma record_set_same k x v : is_object v = true -> vget k (record_set k x v) = Some x.
Proof. destruct v; try done. intros _. cbn. apply obj_get_insert_eq. Qed.
Lemma record_set_other k j x v : is_object v = true -> j <> k -> vget j (record_set k x v) = vget j v.
Proof. destruct v; try done. intros _ Hj. cbn. by apply obj_get_insert_ne. Qed.
Lemma state_of_set st v : is_object v = true -> state_of (record_set "state" (VString st) v) = st.
Proof. intros H. unfold state_of, vindex. by rewrite record_set_same. Qed.
Lemma state_of_other k x v : is_object v = true -> k <> "state" -> state_of (record_set k x v) = state_of v.
Proof. intros H Hk. unfold state_of, vindex. by rewrite record_set_other. Qed.

Lemma matching_object run v : receipt_matches run v = true -> is_object v = true.
Proof. by destruct v. Qed.

Create HintDb spares.

Section OneLaunch.
Context {Net : Type} (rpc : string -> Value -> M Net string Value) (try_wait : M Net string (option (option Z))) (child_id : Net -> Z).
Local Abbreviation Site := (Site (Net := Net)).

(** [spares f m]: [m] does not change [f]. *)
Definition spares {A B} (f : Site -> B) (m : M Site Stop A) : Prop := forall s w r s' w', m s w = (r, s', w') -> f s' = f s.

Section Spares.
Context {B : Type} (f : Site -> B).
Context (Hb : forall n s, f (set_budget n s) = f s) (Hn : forall n s, f (set_net n s) = f s).

Lemma spares_bind {A C} (m : M Site Stop A) (k : A -> M Site Stop C) : spares f m -> (forall a, spares f (k a)) -> spares f (bind m k).
Proof.
  intros Hm Hk s w r s' w' (r1 & s1 & w1 & H1 & H)%bind_cases. apply Hm in H1. destruct r1 as [a|e].
  - apply Hk in H. congruence.
  - destruct H as (_ & -> & _). done.
Qed.
Lemma spares_ret {A} (a : A) : spares f (ret a).
Proof. by intros s w r s' w' [= <- <- <-]. Qed.
Lemma spares_fail {A} e : spares f (fail e : M Site Stop A).
Proof. by intros s w r s' w' [= <- <- <-]. Qed.
Lemma spares_lift {A} (x : result Stop A) : spares f (lift x).
Proof. by intros s w r s' w' [= <- <- <-]. Qed.
Lemma spares_gets {A} (g : Site -> A) : spares f (gets g).
Proof. by intros s w r s' w' [= <- <- <-]. Qed.
Lemma spares_now : spares f now_ms.
Proof. by intros s w r s' w' [= <- <- <-]. Qed.
Lemma spares_instant : spares f instant_now.
Proof. by intros s w r s' w' [= <- <- <-]. Qed.
Lemma spares_outcome : spares f io_outcome.
Proof. by intros s w r s' w' [= <- <- <-]. Qed.
Lemma spares_v4 : spares f new_v4.
Proof. by intros s w r s' w' [= <- <- <-]. Qed.
Lemma spares_alive : spares f alive.
Proof. intros s w r s' w' H. unfold alive, bind, gets in H. destruct (s_budget s); injection H as <- <- <-; [done|apply Hb]. Qed.
Lemma spares_caught {A} (m : M Site Stop A) : spares f m -> spares f (caught m).
Proof.
  intros Hm. apply spares_bind; [|intros [a|[t|]]; [apply spares_ret|apply spares_ret|apply spares_fail]].
  intros s w r s' w' (r0 & -> & H)%attempt_cases. by apply Hm in H.
Qed.
Lemma spares_net {A} (m : M Net string A) : spares f (with_err Failed (zoom s_net set_net m)).
Proof.
  intros s w r s' w' (r0 & H & ->)%with_err_cases. unfold zoom in H. destruct (m (s_net s) w) as [[r1 n1] w1]. injection H as <- <- <-. apply Hn.
Qed.
End Spares.
#[local] Hint Resolve spares_bind spares_ret spares_fail spares_lift spares_gets spares_now spares_instant spares_outcome spares_v4 spares_alive
  spares_caught spares_net : spares.

Ltac spares :=
  repeat first [ solve [auto with spares] | apply spares_bind; [|intros ?] | progress case_match ].

Lemma spares_io {B} (f : Site -> B) text : (forall n s, f (set_budget n s) = f s) -> spares f (io text).
Proof. intros Hb. unfold io. spares. Qed.
Lemma spares_call {B} (f : Site -> B) action params :
  (forall n s, f (set_budget n s) = f s) -> (forall n s, f (set_net n s) = f s) -> spares f (call rpc action params).
Proof. intros Hb Hn. unfold call. spares. Qed.

Lemma store_cases record (s : Site) w r s' w' :
  store record s w = (r, s', w') ->
  s_launches s' = s_launches s /\ match r with Ok _ => s_receipt s' = Some record | Err _ => s_receipt s' = s_receipt s end.
Proof.
  intros H. assert (s_launches s' = s_launches s) as Hl.
  { revert H. generalize s w r s' w'. change (spares s_launches (store record)). unfold store.
    apply spares_bind; [by apply spares_io|intros ?]. apply spares_bind; [by apply spares_io|intros ?]. by intros ? ? ? ? ? [= <- <- <-]. }
  split; [done|]. unfold store in H.
  apply bind_cases in H as (r1 & s1 & w1 & H1 & H). assert (s_receipt s1 = s_receipt s) as E1 by (by eapply (spares_io s_receipt); [|exact H1]).
  destruct r1; [|by destruct H as (-> & -> & _)].
  apply bind_cases in H as (r2 & s2 & w2 & H2 & H). assert (s_receipt s2 = s_receipt s1) as E2 by (by eapply (spares_io s_receipt); [|exact H2]).
  destruct r2; [|destruct H as (-> & -> & _); congruence]. by injection H as <- <- <-.
Qed.

Lemma spares_store record : spares s_launches (store record).
Proof. intros s w r s' w' H. by apply store_cases in H as [? _]. Qed.
Lemma spares_store_overlooked record : spares s_overlooked (store record).
Proof.
  unfold store. apply spares_bind; [by apply spares_io|intros ?]. apply spares_bind; [by apply spares_io|intros ?].
  by intros ? ? ? ? ? [= <- <- <-].
Qed.
#[local] Hint Resolve spares_store spares_store_overlooked spares_io spares_call : spares.

Lemma submitted_spares run record : spares s_launches (submitted rpc run record).
Proof. unfold submitted. spares. Qed.
Lemma submitted_overlooked run record : spares s_overlooked (submitted rpc run record).
Proof. unfold submitted. spares. Qed.
Lemma claim_loop_overlooked fuel run creds record : spares s_overlooked (claim_loop rpc fuel run creds record).
Proof. induction fuel as [|fuel IH]; cbn [claim_loop]; [spares|]. apply spares_bind; [spares|intros now]. spares; apply IH. Qed.
Lemma claim_loop_spares fuel run creds record : spares s_launches (claim_loop rpc fuel run creds record).
Proof. induction fuel as [|fuel IH]; cbn [claim_loop]; [spares|]. apply spares_bind; [spares|intros now]. spares; apply IH. Qed.
Lemma child_loop_spares {B} (f : Site -> B) fuel creds renewed :
  (forall n s, f (set_budget n s) = f s) -> (forall n s, f (set_net n s) = f s) -> spares f (child_loop rpc try_wait fuel creds renewed).
Proof. intros Hb Hn. revert renewed. induction fuel as [|fuel IH]; intros renewed; cbn [child_loop]; [spares|]. spares; apply IH. Qed.

Lemma launch_overlooked fuel run job creds record : spares s_overlooked (launch rpc try_wait child_id fuel run job creds record).
Proof.
  unfold launch. cbv zeta. apply spares_bind; [spares|intros ?]. apply spares_bind; [spares|intros token].
  apply spares_bind; [spares|intros [u|]]; [|spares].
  apply spares_bind; [by intros ? ? ? ? ? [= <- <- <-]|intros ?]. apply spares_bind; [spares|intros pid].
  apply spares_bind; [spares|intros ?]. apply spares_bind; [spares|intros renewed].
  apply spares_bind; [by apply child_loop_spares|intros exit]. spares.
Qed.

(** An existing receipt is seen, or the site counts that it was not. *)
Lemma receipt_exists_cases (s : Site) w r s' w' :
  receipt_exists s w = (r, s', w') ->
  s_launches s' = s_launches s /\ s_receipt s' = s_receipt s /\
  (s' = s /\ r = Ok (bool_decide (is_Some (s_receipt s))) \/ s_overlooked s' = S (s_overlooked s) /\ r = Ok false).
Proof.
  intros H. unfold receipt_exists, bind, io_outcome, gets, modify, ret in H. destruct (s_receipt s) as [v|] eqn:E; [destruct (peek _)|];
    injection H as <- <- <-; cbn; rewrite ?E; (split_and!; [done|done|]); [left|right|left]; done.
Qed.

(** The receipt says that a command may have been started. *)
Definition marked (s : Site) : Prop := exists v, s_receipt s = Some v /\ armed v = false.

Lemma store_marked record (s : Site) w r s' w' : marked s -> armed record = false -> store record s w = (r, s', w') -> marked s'.
Proof. intros [v [Hv Ha]] Hr H. apply store_cases in H as [_ H]. destruct r; [by exists record|exists v; by rewrite H]. Qed.
Lemma same_marked (s s' : Site) : s_receipt s' = s_receipt s -> marked s -> marked s'.
Proof. unfold marked. by intros ->. Qed.
Lemma armed_state st v : is_object v = true -> existsb (String.eqb st) ["submitting"; "queued"] = false -> armed (record_set "state" (VString st) v) = false.
Proof. intros Hv Hs. unfold armed. by rewrite state_of_set. Qed.
Lemma armed_other k x v : is_object v = true -> k <> "state" -> armed (record_set k x v) = armed v.
Proof. intros Hv Hk. unfold armed. by rewrite state_of_other. Qed.

Definition the_launch (run : Run) (token : string) : Launch := mkLaunch (run_argv run) (run_executor run) (run_owner run) token.

(** What [launch] comes to: nothing was started, or the command was, once, and the receipt says so. *)
Definition launched (run : Run) (job : Value) (s : Site) (r : result Stop Value) (s' : Site) : Prop :=
  exists token, as_str (vindex job "token") = Some token /\ s_launches s' = s_launches s ++ [the_launch run token] /\ marked s' /\
    forall v, r = Ok v -> exists record, s_receipt s' = Some record /\ state_of record = "completed" /\ vget "exitCode" record = Some (vu64 0).

(** The steps after the command was started *)
Lemma running_cases fuel creds record (s : Site) w r s' w' :
  is_object record = true -> armed record = false -> marked s ->
  (let* pid := gets (fun s => child_id (s_net s)) in
   let record := record_set "pid" (vu64 pid) (record_set "state" (VString "running") record) in
   store record ;;
   let* renewed := instant_now in
   let* exit := child_loop rpc try_wait fuel creds renewed in
   let record := record_set "exitCode" (vopt vi32 exit) (record_set "state" (VString "exited") record) in
   store record ;;
   let* _ := call rpc "desktop.finish" creds in
   store (record_set "state" (VString "completed") record) ;;
   if negb (bool_decide (exit = Some 0)) then fail (Failed "desktop consumer failed; receipt retained")
   else ret (obj_of [("state", VString "completed"); ("exitCode", vopt vi32 exit)])) s w = (r, s', w') ->
  s_launches s' = s_launches s /\ marked s' /\
  forall v, r = Ok v -> exists record, s_receipt s' = Some record /\ state_of record = "completed" /\ vget "exitCode" record = Some (vu64 0).
Proof.
  intros Ho Ha Hm H. unfold bind at 1, gets in H. set (pid := child_id (s_net s)) in *. cbv zeta in H.
  set (r1 := record_set "pid" (vu64 pid) (record_set "state" (VString "running") record)) in *.
  assert (is_object r1 = true) as Ho1 by (by do 2 apply record_set_object).
  assert (armed r1 = false) as Ha1 by (unfold r1; rewrite armed_other; [by apply armed_state|by apply record_set_object|done]).
  apply bind_cases in H as (q1 & s1 & w1 & H1 & H). apply store_cases in H1 as L1; destruct L1 as [L1 _].
  apply store_marked in H1 as M1; [|done|done]. destruct q1; [|by destruct H as (-> & -> & _)].
  apply bind_cases in H as (q2 & s2 & w2 & H2 & H). injection H2 as <- <- <-.
  apply bind_cases in H as (q3 & s3 & w3 & H3 & H).
  assert (s_launches s3 = s_launches s1) as L3 by (by eapply (child_loop_spares s_launches); [| |exact H3]).
  assert (s_receipt s3 = s_receipt s1) as R3 by (by eapply (child_loop_spares s_receipt); [| |exact H3]).
  apply same_marked in R3 as M3; [|done]. destruct q3 as [exit|]; [|destruct H as (-> & -> & _); split_and!; [congruence|done|done]].
  set (r2 := record_set "exitCode" (vopt vi32 exit) (record_set "state" (VString "exited") r1)) in *.
  assert (is_object r2 = true) as Ho2 by (by do 2 apply record_set_object).
  assert (armed r2 = false) as Ha2 by (unfold r2; rewrite armed_other; [by apply armed_state|by apply record_set_object|done]).
  apply bind_cases in H as (q4 & s4 & w4 & H4 & H). apply store_cases in H4 as L4; destruct L4 as [L4 _].
  apply store_marked in H4 as M4; [|done|done]. destruct q4; [|destruct H as (-> & -> & _); split_and!; [congruence|done|done]].
  apply bind_cases in H as (q5 & s5 & w5 & H5 & H).
  assert (s_launches s5 = s_launches s4) as L5 by (by eapply (spares_call s_launches); [| |exact H5]).
  assert (s_receipt s5 = s_receipt s4) as R5 by (by eapply (spares_call s_receipt); [| |exact H5]).
  apply same_marked in R5 as M5; [|done]. destruct q5; [|destruct H as (-> & -> & _); split_and!; [congruence|done|done]].
  apply bind_cases in H as (q6 & s6 & w6 & H6 & H). apply store_cases in H6 as L6; destruct L6 as [L6 R6].
  apply store_marked in H6 as M6; [|done|by apply armed_state]. destruct q6; [|destruct H as (-> & -> & _); split_and!; [congruence|done|done]].
  case_bool_decide as He; injection H as <- <- <-; (split_and!; [congruence|done|intros v Hv]); [|done].
  exists (record_set "state" (VString "completed") r2). split_and!; [done|by apply state_of_set|].
  rewrite record_set_other by done. unfold r2. rewrite record_set_same by (by apply record_set_object). by rewrite He.
Qed.

Lemma consumer_launch_cases fuel run job creds record (s : Site) w r s' w' :
  is_object record = true -> launch rpc try_wait child_id fuel run job creds record s w = (r, s', w') ->
  (s_launches s' = s_launches s /\ forall v, r <> Ok v) \/ launched run job s r s'.
Proof.
  intros Ho H. unfold launch in H. set (r0 := record_set "state" (VString "starting") record) in *.
  assert (is_object r0 = true) as Ho0 by (by apply record_set_object). assert (armed r0 = false) as Ha0 by (by apply armed_state).
  apply bind_cases in H as (q1 & s1 & w1 & H1 & H). apply store_cases in H1 as [L1 R1]. destruct q1; [|left; destruct H as (-> & -> & _); by split].
  destruct (as_str (vindex job "token")) as [token|] eqn:Et; [|left; injection H as <- <- <-; by split].
  unfold bind at 1, lift at 1 in H. cbn [ok_or] in H. apply bind_cases in H as (q2 & s2 & w2 & H2 & H).
  assert (s_launches s2 = s_launches s1) as L2 by (by eapply (spares_caught s_launches); [by apply spares_io|exact H2]).
  assert (s_receipt s2 = s_receipt s1) as R2 by (by eapply (spares_caught s_receipt); [by apply spares_io|exact H2]).
  destruct q2 as [[u0|]|e]; [|left|left; destruct H as (-> & -> & _); split; [congruence|done]].
  - right. unfold bind at 1, modify at 1 in H. apply running_cases in H as (L & M & F); [|done|done|exists r0; split; [cbn; congruence|done]].
    exists token. split_and!; [done|rewrite L; cbn; by rewrite L2, L1|done|done].
  - apply bind_cases in H as (q3 & s3 & w3 & H3 & H). apply store_cases in H3 as [L3 _]. destruct q3; [|destruct H as (-> & -> & _); split; [congruence|done]].
    apply bind_cases in H as (q4 & s4 & w4 & H4 & H).
    assert (s_launches s4 = s_launches s3) as L4 by (by eapply (spares_call s_launches); [| |exact H4]).
    destruct q4; [injection H as <- <- <-|destruct H as (-> & -> & _)]; (split; [congruence|done]).
Qed.

(** The executor granted the request and accepted the claim of the consumer of [record]. *)
Definition granted (run : Run) (job record : Value) : Prop :=
  exists status n0 w0 n1 w1 answer n2 w2 n3 w3,
    rpc "desktop.get" (credentials run job) n0 w0 = (Ok status, n1, w1) /\
    state_of status = "active" /\ vindex status "inputAllowed" = VBool true /\
    (forall c, as_str (vindex status "claimedBy") = Some c -> as_str (vindex record "consumerId") = Some c) /\
    rpc "desktop.claim" (record_set "consumerId" (vindex record "consumerId") (credentials run job)) n2 w2 = (Ok answer, n3, w3).

Lemma caught_call action params (s : Site) w v s' w' :
  caught (call rpc action params) s w = (Ok (Some v), s', w') -> exists n0 w0 n1 w1, rpc action params n0 w0 = (Ok v, n1, w1).
Proof.
  intros H. unfold caught in H. mstep H q s1 w1 H1. apply attempt_cases in H1 as (r0 & [= <-] & H1).
  destruct q as [a|[t|]]; [|done|done]. injection H as <- <- <-. unfold call in H1. mstep H1 u s2 w2 H2.
  apply with_err_cases in H1 as ([b|e] & H1 & [= <-]). unfold zoom in H1. destruct (rpc action params (s_net s2) w2) as [[r1 n1] w3] eqn:E.
  injection H1 as -> _ _. by exists (s_net s2), w2, n1, w3.
Qed.

Lemma claim_loop_granted fuel run job record (s : Site) w u s' w' :
  claim_loop rpc fuel run (credentials run job) record s w = (Ok u, s', w') -> granted run job record.
Proof.
  revert s w. induction fuel as [|fuel IH]; intros s w H; cbn [claim_loop] in H; [done|].
  mstep H now s1 w1 H1. case_match.
  - mstep H x s2 w2 H2. mstep H y s3 w3 H3. done.
  - mstep H status s2 w2 H2. destruct status as [status|]; [|by eapply IH].
    destruct (String.eqb (state_of status) "queued"); [by eapply IH|].
    destruct (String.eqb_spec (state_of status) "active") as [Ea|]; cbn [negb] in H; [|done].
    destruct (eq_bool (vindex status "inputAllowed") true) eqn:Ei; cbn [negb] in H; [|by eapply IH]. apply eq_bool_spec in Ei.
    destruct (match as_str (vindex status "claimedBy") with Some c => _ | None => _ end) eqn:Ec; [done|].
    mstep H claimed s3 w3 H3. destruct claimed as [answer|]; [|by eapply IH].
    apply caught_call in H2 as (n0 & w0 & n1 & w1' & Hg), H3 as (n2 & w2' & n3 & w3' & Hcl).
    exists status, n0, w0, n1, w1', answer, n2, w2', n3, w3'. split_and!; try done.
    intros c Hc. rewrite Hc in Ec. apply negb_false_iff, bool_decide_eq_true in Ec. done.
Qed.

Lemma submitted_record run record (s : Site) w job record' s' w' :
  is_object record = true -> submitted rpc run record s w = (Ok (job, record'), s', w') ->
  is_object record' = true /\ vindex record' "consumerId" = vindex record "consumerId".
Proof.
  intros Ho H. unfold submitted in H. destruct (vget "job" record); [by injection H as <- <- <- <-|].
  mstep H j s1 w1 H1. mstep H u s2 w2 H2. injection H as <- <- <- <-. split; [by do 2 apply record_set_object|].
  unfold vindex. by rewrite !record_set_other by (done || by apply record_set_object).
Qed.

Lemma spares_record {B} (f : Site -> B) (b : bool) run :
  (forall n s, f (set_budget n s) = f s) ->
  spares f (if b then io "read the receipt" ;; (let* receipt := gets s_receipt in lift (ok_or receipt (Failed "read the receipt")))
            else let* consumer := new_v4 in ret (initial_record run consumer) : M Site Stop Value).
Proof. intros Hb. destruct b; [|spares]. apply spares_bind; [by apply spares_io|intros ?]. spares. Qed.

(** An execution launches nothing, or one command for a granted claim. *)
Lemma execute_cases fuel run (s : Site) w r s' w' :
  execute rpc try_wait child_id fuel run s w = (r, s', w') ->
  s_launches s' = s_launches s \/ exists job record, granted run job record /\ launched run job s r s'.
Proof.
  intros H. unfold execute in H. case_bool_decide; [left; by injection H as <- <- <-|].
  apply bind_cases in H as (q1 & s1 & w1 & H1 & H). assert (s_launches s1 = s_launches s) as L1 by (by eapply (spares_io s_launches); [|exact H1]).
  destruct q1; [|left; by destruct H as (-> & -> & _)].
  apply bind_cases in H as (q2 & s2 & w2 & H2 & H). assert (s_launches s2 = s_launches s1) as L2 by (by eapply (spares_io s_launches); [|exact H2]).
  destruct q2; [|left; destruct H as (-> & -> & _); congruence].
  apply bind_cases in H as (q3 & s3 & w3 & H3 & H). apply receipt_exists_cases in H3 as (L3 & _ & H3).
  destruct q3 as [b|]; [|left; destruct H as (-> & -> & _); congruence]. clear H3.
  apply bind_cases in H as (q4 & s4 & w4 & H4 & H). apply (spares_record s_launches) in H4 as L4; [|done..].
  destruct q4 as [record|]; [|left; destruct H as (-> & -> & _); congruence].
  destruct (receipt_matches run record) eqn:Em; cbn [negb] in H; [|left; injection H as <- <- <-; congruence]. apply matching_object in Em.
  destruct (String.eqb (state_of record) "completed"); [left; destruct (negb _); injection H as <- <- <-; congruence|].
  destruct (negb _); [left; injection H as <- <- <-; congruence|].
  apply bind_cases in H as (q5 & s5 & w5 & H5 & H). apply spares_store in H5. destruct q5; [|left; destruct H as (-> & -> & _); congruence].
  apply bind_cases in H as (q6 & s6 & w6 & H6 & H). apply submitted_spares in H6 as L6. destruct q6 as [[job record']|]; [|left; destruct H as (-> & -> & _); congruence].
  apply submitted_record in H6 as [Ho Hc]; [|done].
  apply bind_cases in H as (q7 & s7 & w7 & H7 & H). apply claim_loop_spares in H7 as L7. destruct q7; [|left; destruct H as (-> & -> & _); congruence].
  apply claim_loop_granted in H7. apply consumer_launch_cases in H as [[H _]|(token & Ht & Hl & Hm & Hv)]; [left; congruence| |done].
  right. exists job, record'. split; [done|]. exists token. split_and!; try done. congruence.
Qed.

(** An execution overlooks the receipt at most once. With a marked receipt that it sees, it starts nothing and leaves the receipt. *)
Lemma execute_overlooked fuel run (s : Site) w r s' w' :
  execute rpc try_wait child_id fuel run s w = (r, s', w') ->
  s_overlooked s' = S (s_overlooked s) \/
  s_overlooked s' = s_overlooked s /\ (marked s -> s_launches s' = s_launches s /\ s_receipt s' = s_receipt s).
Proof.
  intros H. unfold execute in H. case_bool_decide; [right; by injection H as <- <- <-|].
  apply bind_cases in H as (q1 & s1 & w1 & H1 & H).
  assert (s_launches s1 = s_launches s /\ s_receipt s1 = s_receipt s /\ s_overlooked s1 = s_overlooked s) as (L1 & R1 & O1)
    by (split_and!; [by eapply (spares_io s_launches); [|exact H1]|by eapply (spares_io s_receipt); [|exact H1]|by eapply (spares_io s_overlooked); [|exact H1]]).
  destruct q1; [|right; by destruct H as (-> & -> & _)].
  apply bind_cases in H as (q2 & s2 & w2 & H2 & H).
  assert (s_launches s2 = s_launches s1 /\ s_receipt s2 = s_receipt s1 /\ s_overlooked s2 = s_overlooked s1) as (L2 & R2 & O2)
    by (split_and!; [by eapply (spares_io s_launches); [|exact H2]|by eapply (spares_io s_receipt); [|exact H2]|by eapply (spares_io s_overlooked); [|exact H2]]).
  destruct q2; [|right; destruct H as (-> & -> & _); split; [congruence|intros _; split; congruence]].
  apply bind_cases in H as (q3 & s3 & w3 & H3 & H). apply receipt_exists_cases in H3 as (L3 & R3 & H3).
  assert (forall b, q3 = Ok b -> s_overlooked s' = s_overlooked s3) as Hrest.
  { intros b ->. revert H. generalize s3 w3 r s' w'. clear.
    match goal with |- forall s w r s' w', ?m s w = _ -> _ => change (spares s_overlooked m) end.
    apply spares_bind; [by apply spares_record|intros record]. repeat (case_match; [spares|]).
    apply spares_bind; [spares|intros ?]. apply spares_bind; [apply submitted_overlooked|intros [job record']].
    apply spares_bind; [apply claim_loop_overlooked|intros ?]. apply launch_overlooked. }
  destruct H3 as [[-> ->]|[O3 ->]]; [right|left; rewrite (Hrest false) by done; congruence].
  split; [rewrite (Hrest _ eq_refl); congruence|]. clear Hrest. intros (record & Hr & Ha).
  rewrite bool_decide_eq_true_2 in H by (exists record; congruence).
  apply bind_cases in H as (q4 & s4 & w4 & H4 & H). apply bind_cases in H4 as (q5 & s5 & w5 & H5 & H4).
  assert (s_launches s5 = s_launches s2 /\ s_receipt s5 = s_receipt s2) as [L5 R5]
    by (split; [by eapply (spares_io s_launches); [|exact H5]|by eapply (spares_io s_receipt); [|exact H5]]).
  destruct q5; [|destruct H4 as (-> & -> & ->); destruct H as (-> & -> & _); split; congruence].
  unfold bind, gets, lift in H4. assert (s_receipt s5 = Some record) as Er by congruence. rewrite Er in H4. injection H4 as <- <- <-.
  destruct (negb (receipt_matches run record)); [injection H as <- <- <-; split; congruence|].
  destruct (String.eqb (state_of record) "completed"); [destruct (negb _); injection H as <- <- <-; split; congruence|].
  unfold armed in Ha. rewrite Ha in H. injection H as <- <- <-. split; congruence.
Qed.

(** Every command beyond the first was started after a receipt had been overlooked. *)
Definition guarded (s : Site) : Prop :=
  (length (s_launches s) <= s_overlooked s)%nat \/ ((length (s_launches s) <= S (s_overlooked s))%nat /\ marked s).

Lemma happens_guarded (s s' : Site) : happens rpc try_wait child_id s s' -> guarded s -> guarded s'.
Proof.
  induction 1 as [s|fuel run budget s w r s1 w1 s2 He _ IH|n s s2 _ IH]; intros Hg; [done| |by apply IH].
  apply IH. clear IH. assert (guarded (set_budget budget s)) as Hg' by exact Hg. clear Hg.
  pose proof (execute_overlooked _ _ _ _ _ _ _ He) as HO. apply execute_cases in He. unfold guarded in *.
  assert ((length (s_launches s1) <= length (s_launches (set_budget budget s)))%nat \/
    (length (s_launches s1) <= S (length (s_launches (set_budget budget s))))%nat /\ marked s1) as HL.
  { destruct He as [->|(job & record & _ & token & _ & -> & Hm & _)]; [by left|right]. rewrite length_app. cbn. split; [lia|done]. }
  destruct Hg' as [Hn|[Hl Hm]].
  - destruct HO as [HO|[HO _]], HL as [HL|[HL Hm]]; (left; lia) || (right; split; [lia|done]).
  - destruct HO as [HO|[HO Hk]].
    + destruct HL as [HL|[HL Hm']]; [left; lia|right; split; [lia|done]].
    + destruct (Hk Hm) as [L R]. right. rewrite L, HO. split; [done|]. by apply same_marked with (s := set_budget budget s).
Qed.

(** C23: a desktop request is consumed at most once: over any number of executions with a receipt, of the same request or others, each of which may fail in any effect and be killed before any effect, and whatever the fabric answers, the command is started at most once, and once more for every execution that could not look at the receipt that was there and took it for absent (the site counts these executions; [overlooked_receipt_starts_twice] is such a run). *)
Theorem consumer_starts_at_most_once (s s' : Site) :
  s_launches s = [] -> happens rpc try_wait child_id s s' -> (length (s_launches s') <= 1 + s_overlooked s')%nat.
Proof. intros Hs H. apply happens_guarded in H as [H|[H _]]; [lia|exact H|]. left. rewrite Hs. cbn. lia. Qed.

(** a command is started only for a grant: when an execution starts something, it is the command asked for, with the executor, owner and token of the request; the executor had reported the request as active with input allowed and not claimed by another consumer, and then accepted the claim under the consumer of the receipt; and if the execution succeeds, the receipt records a completed command with exit code 0. *)
Theorem consumer_starts_for_a_grant fuel run (s : Site) w r s' w' :
  execute rpc try_wait child_id fuel run s w = (r, s', w') -> s_launches s' <> s_launches s ->
  exists job record, granted run job record /\ launched run job s r s'.
Proof. intros H Hne. by apply execute_cases in H as [H|H]. Qed.
End OneLaunch.

(** ** Concrete runs *)

(** An executor that grants at once and accepts every claim; the token shows that the same request is answered again. *)
Definition obliging (action : string) (params : Value) : M (list string) string Value :=
  modify (fun n => n ++ [action]) ;;
  ret (if String.eqb action "desktop.submit" then obj_of [("token", VString "t")]
       else if String.eqb action "desktop.get" then obj_of [("state", VString "active"); ("inputAllowed", VBool true)]
       else obj_of []).
Definition exits_at_once : M (list string) string (option (option Z)) := ret (Some (Some 0)).
Definition child_4 (_ : list string) : Z := 4.
Definition sample_desktop_run : Run := mkRun "mac" "me" "one" 60000 ["true"].
Definition empty_site : Site (Net := list string) := mkSite None [] [] 0 100 [].
Definition sample_execute (budget : nat) (s : Site (Net := list string)) :=
  execute obliging exits_at_once child_4 5 sample_desktop_run (set_budget budget s) (sample_world 0).

(** Killed after the command was started; the next execution starts nothing and reports it. *)
Definition killed_site : Site (Net := list string) := Eval vm_compute in (sample_execute 15 empty_site).1.2.

Example killed_while_running :
  length (s_launches killed_site) = 1%nat /\ state_of <$> s_receipt killed_site = Some "running" /\
  (sample_execute 100 killed_site).1.1 = Err (Failed "consumer may already have started; inspect its receipt and process; automatic replay refused").
Proof. vm_compute. done. Qed.

Example completes : (sample_execute 100 empty_site).1.1 = Ok (obj_of [("state", VString "completed"); ("exitCode", vu64 0)]).
Proof. vm_compute. done. Qed.

Lemma consumer_starts_at_most_once_witness :
  let s := (sample_execute 100 killed_site).1.2 in (length (s_launches s) <= 1 + s_overlooked s)%nat /\ s_overlooked s = 0%nat.
Proof.
  intros s. split; [|vm_compute; reflexivity]. apply (consumer_starts_at_most_once obliging exits_at_once child_4 empty_site); [reflexivity|].
  apply (happens_execution obliging exits_at_once child_4 5 sample_desktop_run 15 empty_site (sample_world 0)
           (sample_execute 15 empty_site).1.1 killed_site (sample_execute 15 empty_site).2); [vm_compute; reflexivity|].
  apply (happens_execution obliging exits_at_once child_4 5 sample_desktop_run 100 killed_site (sample_world 0)
           (sample_execute 100 killed_site).1.1 s (sample_execute 100 killed_site).2); [vm_compute; reflexivity|]. apply happens_nothing.
Defined.

Lemma consumer_starts_for_a_grant_witness :
  exists job record, granted obliging sample_desktop_run job record /\
    launched sample_desktop_run job (set_budget 100 empty_site) (sample_execute 100 empty_site).1.1 (sample_execute 100 empty_site).1.2.
Proof.
  apply (consumer_starts_for_a_grant obliging exits_at_once child_4 5 sample_desktop_run (set_budget 100 empty_site) (sample_world 0)
           (sample_execute 100 empty_site).1.1 (sample_execute 100 empty_site).1.2 (sample_execute 100 empty_site).2);
    [vm_compute; reflexivity|vm_compute; discriminate].
Defined.

(** a power failure can make a consumer start twice: the rename of the receipt is not made durable before the command is started, so that after a power failure the receipt may be the one that waits for its grant; the next execution claims the request again under the same consumer, which the executor accepts, and starts the command a second time. *)
Theorem power_failure_starts_twice :
  exists s1 s2 s3 : Site (Net := list string),
    happens obliging exits_at_once child_4 empty_site s1 /\ power_failure s1 s2 /\ happens obliging exits_at_once child_4 s2 s3 /\
    s_launches s3 = [the_launch sample_desktop_run "t"; the_launch sample_desktop_run "t"].
Proof.
  exists killed_site.
  set (s2 := mkSite (nth 1 (s_versions killed_site) None) (s_versions killed_site) (s_launches killed_site) (s_overlooked killed_site) (s_budget killed_site) (s_net killed_site)).
  exists s2, (sample_execute 100 s2).1.2. split_and!.
  - apply (happens_execution obliging exits_at_once child_4 5 sample_desktop_run 15 empty_site (sample_world 0)
             (sample_execute 15 empty_site).1.1 killed_site (sample_execute 15 empty_site).2); [vm_compute; reflexivity|]. apply happens_nothing.
  - apply power_fails. right. apply list_elem_of_In, nth_In. vm_compute. lia.
  - apply (happens_execution obliging exits_at_once child_4 5 sample_desktop_run 100 s2 (sample_world 0)
             (sample_execute 100 s2).1.1 (sample_execute 100 s2).1.2 (sample_execute 100 s2).2); [vm_compute; reflexivity|]. apply happens_nothing.
  - vm_compute. reflexivity.
Qed.

(** a receipt that cannot be looked at is taken for absent: [exists()] answers false, the execution writes a new receipt over the one that says that the command is running, and starts the command a second time. *)
Definition blind_world : World :=
  mkWorld (mkOracle Z.of_nat 0) (mkOracle Z.of_nat 0) (mkOracle unary 0) (mkOracle (fun n => negb (Nat.eqb n 2)) 0).
Definition blind_execute (s : Site (Net := list string)) :=
  execute obliging exits_at_once child_4 5 sample_desktop_run (set_budget 100 s) blind_world.

Theorem overlooked_receipt_starts_twice :
  state_of <$> s_receipt killed_site = Some "running" /\
  is_ok (blind_execute killed_site).1.1 = true /\ s_overlooked (blind_execute killed_site).1.2 = 1%nat /\
  s_launches (blind_execute killed_site).1.2 = [the_launch sample_desktop_run "t"; the_launch sample_desktop_run "t"].
Proof. vm_compute. split_and!; reflexivity. Qed.
