(* ===== verification/Commands.v ===== *)
(** * One-shot commands ([command.rs] and the requests [command.run] and [artifact.build] of
      [executor.rs], crate machine-fabric-runtime)

    A command runs in a process group of its own until its deadline; what it
    wrote is answered up to a bound. This is the Unix branch. The output files
    are private to the command and its descendants, which only append. *)
From Stdlib Require Import Ascii.
From stdpp Require Import base gmap strings list pretty.
From S2P Require Import Prelude Json Protocol PathPolicy FileTree FileTreeLaws Generations Controller TreeDigest ArtifactRelay Utf8 FileHandlers Catalogue ProcessRequests.
Open Scope Z_scope.
Open Scope fabric_scope.

(** ** Captured output *)

Definition OUTPUT_LIMIT : Z := 65536.

Record CapturedOutput := mkCapturedOutput { co_bytes : string; co_original_bytes : Z }.

(** [str::is_char_boundary] *)
Definition is_char_boundary (s : string) (offset : nat) : bool :=
  (offset =? 0)%nat ||
  match drop_bytes offset s with EmptyString => (offset =? String.length s)%nat | String c _ => negb (byte_in 128 191 c) end.
(** [while !tail.is_char_boundary(offset) { offset += 1; }] *)
Fixpoint next_boundary (fuel : nat) (s : string) (offset : nat) : nat :=
  match fuel with
  | O => offset
  | S fuel' => if is_char_boundary s offset then offset else next_boundary fuel' s (S offset)
  end.

Definition truncated (c : CapturedOutput) : bool :=
  (str_len (co_bytes c) <? co_original_bytes c) || (OUTPUT_LIMIT <? str_len (from_utf8_lossy (co_bytes c))).

Definition notice (c : CapturedOutput) : string :=
  if truncated c
  then "[machine-fabric: output truncated; showing tail of " +:+ pretty (co_original_bytes c) +:+ " original bytes]" +:+ String "010"%char ""
  else "".

(** The last bytes of a text that fit into the budget, from the start of a character on *)
Definition cut_text (budget : nat) (bytes : string) : string :=
  let tail := from_utf8_lossy (drop_bytes (String.length bytes - budget) bytes) in
  drop_bytes (next_boundary (String.length tail) tail (String.length tail - budget)) tail.

(** [CapturedOutput::text] *)
Definition text (c : CapturedOutput) : string :=
  notice c +:+ cut_text (Z.to_nat (OUTPUT_LIMIT - str_len (notice c))) (co_bytes c).

(** What [tail] reads of a file with this content when it is measured *)
Definition captured (content : string) : CapturedOutput :=
  mkCapturedOutput (drop_bytes (Z.to_nat (str_len content - OUTPUT_LIMIT)) content) (str_len content).

(** ** Running a command *)

Definition timeout_ms (value : option Value) (default : Z) : result RpcError Z :=
  match value with
  | None => Ok default
  | Some value =>
      match as_u64 value with
      | Some n => if (1 <=? n) && (n <=? 3600000) then Ok n
                  else Err (rpc_error "INVALID_PARAMS" "timeoutMs must be an integer from 1 to 3600000")
      | None => Err (rpc_error "INVALID_PARAMS" "timeoutMs must be an integer from 1 to 3600000")
      end
  end.

Definition failed (error : string) : RpcError := rpc_error "COMMAND_FAILED" error.
Definition command_out_of_fuel : RpcError := rpc_error "OUT_OF_FUEL" "".

(** The status of a process: its exit code, unless a signal ended it *)
Definition ExitStatus := option Z.
Record Output := mkOutput { out_status : ExitStatus; out_stdout : CapturedOutput; out_stderr : CapturedOutput }.

Inductive KillError := NoSuchProcess | KillFailed (text : string).
Inductive Stream := Stdout | Stderr.

Section Commands.
(** The operating system: starting a process in its own group, waiting without blocking, signalling a group, and what the output files hold *)
Context {Os : Type}.
Context (spawn : list string -> Path -> gmap string string -> M Os string Z).
Context (try_wait : Z -> M Os string (option ExitStatus)).
Context (kill_group : Z -> M Os KillError unit).
Context (content : Stream -> Os -> string).

(** [con_spawned] counts the commands; [con_reaped] says that the root of the last one was reaped; [con_signals] has an entry per signal: whether the root was reaped by then. *)
Record Console := mkConsole { con_os : Os; con_spawned : nat; con_reaped : bool; con_signals : list bool }.
Definition set_os (o : Os) (c : Console) : Console := mkConsole o (con_spawned c) (con_reaped c) (con_signals c).
Definition on_os {E A} (m : M Os E A) : M Console E A := zoom con_os set_os m.

Definition start_command (argv : list string) (cwd : Path) (env : gmap string string) : M Console RpcError Z :=
  let* pid := with_err failed (on_os (spawn argv cwd env)) in
  modify (fun c => mkConsole (con_os c) (S (con_spawned c)) false (con_signals c)) ;;
  ret pid.
Definition poll (pid : Z) : M Console RpcError (option ExitStatus) :=
  let* status := with_err failed (on_os (try_wait pid)) in
  (match status with Some _ => modify (fun c => mkConsole (con_os c) (con_spawned c) true (con_signals c)) | None => ret tt end) ;;
  ret status.
(** [Tree::terminate] *)
Definition terminate (pid : Z) : M Console RpcError unit :=
  modify (fun c => mkConsole (con_os c) (con_spawned c) (con_reaped c) (con_signals c ++ [con_reaped c])) ;;
  let* r := attempt (on_os (kill_group pid)) in
  match r with
  | Ok _ | Err NoSuchProcess => ret tt
  | Err (KillFailed error) => fail (failed error)
  end.

Definition io_step : M Console RpcError unit := let* ok := io_outcome in if ok : bool then ret tt else fail (failed "").

(** [tail]: measuring the file, seeking and reading *)
Definition tail (stream : Stream) : M Console RpcError CapturedOutput :=
  io_step ;;
  let* bytes := gets (fun c => content stream (con_os c)) in
  io_step ;;
  io_step ;;
  ret (captured bytes).

(** [while !stopped && Instant::now() < reap_deadline] *)
Fixpoint reap_loop (fuel : nat) (pid deadline : Z) (stopped : bool) : M Console RpcError bool :=
  if stopped then ret true
  else
    match fuel with
    | O => fail command_out_of_fuel
    | S fuel' =>
        let* now := instant_now in
        if deadline <=? now then ret false
        else
          let* status := poll pid in
          reap_loop fuel' pid deadline (bool_decide (is_Some status))
    end.

Definition timed_out (fuel : nat) (pid timeout : Z) (status : option ExitStatus) : M Console RpcError Output :=
  let* termination := match status with None => attempt (terminate pid) | Some _ => ret (Ok tt) end in
  let* now := instant_now in
  let* stopped := reap_loop fuel pid (now + 2000) (bool_decide (is_Some status)) in
  let* stdout := tail Stdout in
  let* stderr := tail Stderr in
  fail (mkRpcError "COMMAND_TIMED_OUT"
          "Command deadline exceeded; side effects may have occurred; do not replay automatically" false
          (obj_of [("timeoutMs", vu64 timeout); ("pid", vu64 pid);
                   ("terminationRequested", VBool (bool_decide (status = None) && is_ok termination)); ("rootStopped", VBool stopped);
                   ("outcome", VString "unknown"); ("stdout", VString (text stdout)); ("stderr", VString (text stderr));
                   ("stdoutBytes", vu64 (co_original_bytes stdout)); ("stderrBytes", vu64 (co_original_bytes stderr));
                   ("stdoutTruncated", VBool (truncated stdout)); ("stderrTruncated", VBool (truncated stderr));
                   ("outputLimitBytes", vu64 OUTPUT_LIMIT)])).

Fixpoint run_loop (reap_fuel fuel : nat) (pid started timeout : Z) : M Console RpcError Output :=
  match fuel with
  | O => fail command_out_of_fuel
  | S fuel' =>
      let* status := poll pid in
      let* now := instant_now in
      if timeout <=? now - started then timed_out reap_fuel pid timeout status
      else
        match status with
        | Some status =>
            let* stdout := tail Stdout in
            let* stderr := tail Stderr in
            ret (mkOutput status stdout stderr)
        | None => run_loop reap_fuel fuel' pid started timeout
        end
  end.

(** [run] *)
Definition run (fuel : nat) (argv : list string) (cwd : Path) (env : gmap string string) (timeout : Z) : M Console RpcError Output :=
  lift (ok_or (head argv) (rpc_error "INVALID_PARAMS" "argv must not be empty")) ;;
  io_step ;; io_step ;; io_step ;; io_step ;;
  let* started := instant_now in
  let* pid := start_command argv cwd env in
  run_loop fuel fuel pid started timeout.

(** ** The requests *)

Context (os_volume : Os -> Volume) (set_os_volume : Volume -> Os -> Os).
Context (to_vec : Value -> string) (sha256_hex : string -> string) (status_text : ExitStatus -> string).
Definition on_volume {E A} (m : M Volume E A) : M Console E A := on_os (zoom os_volume set_os_volume m).

(** [run_command_with_default] *)
Definition run_command_with_default (fuel : nat) (rt : ExecutorRuntime) (params : Value) (default_timeout : Z) : M Console RpcError Value :=
  let* cwd_input := lift (required_str params "cwd") in
  let* cwd := on_volume (write_path rt params "cwd" true) in
  let* argv := lift (string_array params "argv") in
  lift (validate_command to_vec sha256_hex argv cwd_input (vget "approvalDigest" params ≫= as_str)) ;;
  let* env := lift (env_of params) in
  let* timeout := lift (timeout_ms (vget "timeoutMs" params) default_timeout) in
  let* output := run fuel argv cwd env timeout in
  let stdout := text (out_stdout output) in
  let stderr := text (out_stderr output) in
  let result := obj_of
    [("cwd", VString (display cwd)); ("argv", VArray (VString <$> argv));
     ("exitCode", vopt (fun n => VNumber (if n <? 0 then NegInt n else PosInt n)) (out_status output));
     ("stdout", VString stdout); ("stderr", VString stderr);
     ("stdoutBytes", vu64 (co_original_bytes (out_stdout output))); ("stderrBytes", vu64 (co_original_bytes (out_stderr output)));
     ("stdoutTruncated", VBool (truncated (out_stdout output))); ("stderrTruncated", VBool (truncated (out_stderr output)));
     ("outputLimitBytes", vu64 OUTPUT_LIMIT)] in
  if negb (bool_decide (out_status output = Some 0))
  then fail (mkRpcError "COMMAND_FAILED" ("command exited with " +:+ status_text (out_status output) +:+ ": " +:+ stderr) false result)
  else ret result.

(** [command.run] *)
Definition run_command (fuel : nat) (rt : ExecutorRuntime) (params : Value) : M Console RpcError Value :=
  run_command_with_default fuel rt params 300000.

(** [artifact.build] *)
Definition artifact_build (fuel : nat) (special_len : Entry -> Z) (executor_id : string) (rt : ExecutorRuntime) (params : Value)
    : M Console RpcError Value :=
  let* result := run_command_with_default fuel rt params 3600000 in
  let* artifact_path := on_volume (read_path rt params "artifactPath" true) in
  let* metadata := on_volume (io_error "ARTIFACT_READ_FAILED" artifact_path (Fs.metadata artifact_path)) in
  let* item :=
    if entry_is_dir metadata then
      let* d := on_volume (digest_tree sha256_hex fuel artifact_path) in
      ret (d.1.1, d.1.2, d.2, "directory")
    else
      let* d := on_volume (digest_file sha256_hex artifact_path) in
      ret (d, entry_len special_len metadata, 1, "file") in
  let '(digest, size, files, kind) := item in
  ret (obj_of [("command", result);
               ("artifact", obj_of [("path", VString (display artifact_path)); ("digest", VString digest); ("size", vu64 size);
                                    ("files", vu64 files); ("kind", VString kind); ("executorId", VString executor_id)])]).
End Commands.

(** ** Valid text *)

Lemma utf8_loop_fuel fuel s : (String.length s <= fuel)%nat -> utf8_loop fuel s = is_utf8 s.
Proof.
  unfold is_utf8. revert s. assert (forall f1 f2 s, (String.length s <= f1)%nat -> (String.length s <= f2)%nat -> utf8_loop f1 s = utf8_loop f2 s) as H; [|auto].
  induction f1 as [|f1 IH]; intros [|f2] [|c s] H1 H2; cbn [String.length] in *; try done; try lia.
  cbn [utf8_loop]. f_equal. pose proof (first_char_pos (String c s)). apply IH; rewrite drop_bytes_length; cbn [String.length]; lia.
Qed.
Lemma is_utf8_step c s : is_utf8 (String c s) = (first_char (String c s)).2 && is_utf8 (drop_bytes (first_char (String c s)).1 (String c s)).
Proof.
  unfold is_utf8 at 1. cbn [String.length utf8_loop]. f_equal. apply utf8_loop_fuel. rewrite drop_bytes_length. cbn [String.length].
  pose proof (first_char_pos (String c s)). lia.
Qed.

(** A valid first character is determined by its own bytes, and those after the first are continuations. *)
Ltac char_leaf :=
  intros ?; try done; cbn [fst take_bytes]; rewrite ?string_app_cons; cbn [head_in Utf8.tail];
  repeat match goal with H : byte_in _ _ _ = _ |- _ => rewrite H; clear H end; reflexivity.
Ltac char_next s := destruct s as [|? s]; cbn [head_in Utf8.tail]; [done|];
  match goal with |- context [byte_in ?l ?h ?c] => is_var c; destruct (byte_in l h c) eqn:?; [|done] end.

Lemma first_char_prefix s t : (first_char s).2 = true -> first_char (take_bytes (first_char s).1 s +:+ t) = first_char s.
Proof.
  destruct s as [|a s]; [done|]. unfold first_char. cbv zeta. cbn [head_in Utf8.tail].
  destruct (byte_in 0 127 a) eqn:?; [char_leaf|].
  destruct (byte_in 194 223 a) eqn:?; [char_next s; char_leaf|].
  destruct (byte_in 224 224 a) eqn:?; [char_next s; char_next s; char_leaf|].
  destruct (byte_in 237 237 a) eqn:?; [char_next s; char_next s; char_leaf|].
  destruct (byte_in 225 239 a) eqn:?; [char_next s; char_next s; char_leaf|].
  destruct (byte_in 240 240 a) eqn:?; [do 3 char_next s; char_leaf|].
  destruct (byte_in 241 243 a) eqn:?; [do 3 char_next s; char_leaf|].
  destruct (byte_in 244 244 a) eqn:?; [do 3 char_next s; char_leaf|]. done.
Qed.

Lemma first_char_width_le c s : (first_char (String c s)).2 = true -> ((first_char (String c s)).1 <= String.length (String c s))%nat.
Proof.
  unfold first_char. cbv zeta. cbn [head_in Utf8.tail].
  destruct (byte_in 0 127 c); [cbn; lia|]. 
  destruct (byte_in 194 223 c) eqn:?; [char_next s; cbn; lia|].
  destruct (byte_in 224 224 c) eqn:?; [do 2 char_next s; cbn; lia|].
  destruct (byte_in 237 237 c) eqn:?; [do 2 char_next s; cbn; lia|].
  destruct (byte_in 225 239 c) eqn:?; [do 2 char_next s; cbn; lia|].
  destruct (byte_in 240 240 c) eqn:?; [do 3 char_next s; cbn; lia|].
  destruct (byte_in 241 243 c) eqn:?; [do 3 char_next s; cbn; lia|].
  destruct (byte_in 244 244 c) eqn:?; [do 3 char_next s; cbn; lia|]. done.
Qed.

Lemma byte_in_wider lo hi lo' hi' c : (lo' <= lo)%nat -> (hi <= hi')%nat -> byte_in lo hi c = true -> byte_in lo' hi' c = true.
Proof. unfold byte_in. rewrite !andb_true_iff, !Nat.leb_le. lia. Qed.

Lemma first_char_continues c s i :
  (first_char (String c s)).2 = true -> (0 < i < (first_char (String c s)).1)%nat -> head_in 128 191 (drop_bytes i (String c s)) = true.
Proof.
  unfold first_char. cbv zeta. cbn [head_in Utf8.tail].
  destruct (byte_in 0 127 c); [cbn; lia|].
  destruct (byte_in 194 223 c) eqn:?; [char_next s|destruct (byte_in 224 224 c) eqn:?; [do 2 char_next s|destruct (byte_in 237 237 c) eqn:?; [do 2 char_next s|
    destruct (byte_in 225 239 c) eqn:?; [do 2 char_next s|destruct (byte_in 240 240 c) eqn:?; [do 3 char_next s|
    destruct (byte_in 241 243 c) eqn:?; [do 3 char_next s|destruct (byte_in 244 244 c) eqn:?; [do 3 char_next s|done]]]]]]];
  cbn [fst]; intros _ Hi; destruct i as [|[|[|[|i]]]]; try lia; cbn [drop_bytes head_in]; (eapply byte_in_wider; [| |eassumption]; lia).
Qed.

Lemma drop_bytes_past n a b : (n <= String.length a)%nat -> drop_bytes n (a +:+ b) = drop_bytes n a +:+ b.
Proof. revert a. induction n as [|n IH]; intros [|c a] H; cbn [String.length] in H; rewrite ?string_app_cons; cbn [drop_bytes]; try done; try lia. apply IH. lia. Qed.
Lemma take_bytes_past n a b : (n <= String.length a)%nat -> take_bytes n (a +:+ b) = take_bytes n a.
Proof. revert a. induction n as [|n IH]; intros [|c a] H; cbn [String.length] in H; rewrite ?string_app_cons; cbn [take_bytes]; try done; try lia. f_equal. apply IH. lia. Qed.

Lemma is_utf8_app a b : is_utf8 a = true -> is_utf8 b = true -> is_utf8 (a +:+ b) = true.
Proof.
  intros Ha Hb. remember (String.length a) as n eqn:Hn. revert a Hn Ha. induction n as [n IH] using lt_wf_ind. intros [|c a] -> Ha; [done|].
  rewrite is_utf8_step in Ha. apply andb_true_iff in Ha as [Hv Ha]. pose proof (first_char_width_le _ _ Hv) as Hw. pose proof (first_char_pos (String c a)) as Hp.
  assert (first_char (String c a +:+ b) = first_char (String c a)) as E.
  { rewrite <- (first_char_prefix (String c a) (drop_bytes (first_char (String c a)).1 (String c a) +:+ b)) by done.
    rewrite string_app_assoc, take_drop_bytes. done. }
  rewrite string_app_cons in *. rewrite is_utf8_step, E, Hv. cbn [andb]. rewrite <- string_app_cons, drop_bytes_past by done.
  eapply IH; [|reflexivity|done]. rewrite drop_bytes_length. lia.
Qed.

Lemma ascii_utf8 s : bytes_all (byte_in 0 127) s = true -> is_utf8 s = true.
Proof.
  induction s as [|c s IH]; [done|]. cbn [bytes_all]. intros [Hc H]%andb_true_iff. rewrite is_utf8_step.
  assert (first_char (String c s) = (1%nat, true)) as -> by (unfold first_char; cbn [head_in]; by rewrite Hc). cbn [fst snd andb drop_bytes]. by apply IH.
Qed.

Lemma is_utf8_char s : (first_char s).2 = true -> is_utf8 (take_bytes (first_char s).1 s) = true.
Proof.
  intros Hv. pose proof (first_char_prefix s "" Hv) as E. rewrite string_app_nil_r in E.
  destruct (take_bytes (first_char s).1 s) as [|c r] eqn:Et; [done|]. rewrite is_utf8_step, E, Hv. cbn [andb].
  assert (drop_bytes (first_char s).1 (String c r) = "") as ->; [|done].
  rewrite <- Et. clear. generalize (first_char s).1. intros n. revert s.
  induction n as [|n IH]; intros [|x s]; cbn; auto.
Qed.

(** Lossy decoding gives valid text. *)
Lemma lossy_is_utf8 s : is_utf8 (from_utf8_lossy s) = true.
Proof.
  unfold from_utf8_lossy. generalize (String.length s). intros fuel. revert s. induction fuel as [|fuel IH]; intros [|c s]; try done.
  cbn [lossy_loop]. apply is_utf8_app; [|apply IH]. destruct (first_char (String c s)).2 eqn:Hv; [by apply is_utf8_char|reflexivity].
Qed.

(** A text that starts where a character does is valid. *)
Lemma boundary_utf8 s i : is_utf8 s = true -> is_char_boundary s i = true -> is_utf8 (drop_bytes i s) = true.
Proof.
  intros Hs Hb. remember (String.length s) as n eqn:Hn. revert s i Hn Hs Hb. induction n as [n IH] using lt_wf_ind. intros [|c s] i -> Hs Hb; [by destruct i|].
  destruct i as [|i]; [exact Hs|]. rewrite is_utf8_step in Hs. apply andb_true_iff in Hs as [Hv Hs].
  pose proof (first_char_pos (String c s)) as Hp. pose proof (first_char_width_le _ _ Hv) as Hw. set (k := (first_char (String c s)).1) in *.
  destruct (decide (S i < k)%nat) as [Hlt|Hge].
  - pose proof (first_char_continues c s (S i) Hv ltac:(lia)) as Hc. unfold is_char_boundary in Hb. cbn [Nat.eqb orb] in Hb.
    destruct (drop_bytes (S i) (String c s)) as [|d r]; [done|]. cbn [head_in] in Hc. by rewrite Hc in Hb.
  - replace (S i) with (k + (S i - k))%nat in * by lia. rewrite drop_bytes_add. eapply IH; [|reflexivity|exact Hs|].
    + rewrite drop_bytes_length. lia.
    + unfold is_char_boundary in *. rewrite drop_bytes_add in Hb. cbn [Nat.eqb orb] in Hb. rewrite drop_bytes_length.
      destruct (S i - k =? 0)%nat eqn:E0; [done|]. apply Nat.eqb_neq in E0. destruct (k + (S i - k) =? 0)%nat eqn:E1; [apply Nat.eqb_eq in E1; lia|]. cbn [orb] in *.
      destruct (drop_bytes (S i - k) (drop_bytes k (String c s))); [|done]. apply Nat.eqb_eq in Hb. apply Nat.eqb_eq. lia.
Qed.

Lemma next_boundary_spec fuel s i :
  (i <= String.length s)%nat -> (String.length s <= fuel + i)%nat ->
  let j := next_boundary fuel s i in (i <= j <= String.length s)%nat /\ is_char_boundary s j = true.
Proof.
  assert (is_char_boundary s (String.length s) = true) as Hend.
  { unfold is_char_boundary. assert (drop_bytes (String.length s) s = "") as -> by (clear; induction s; cbn; auto). by rewrite Nat.eqb_refl, orb_true_r. }
  revert i. induction fuel as [|fuel IH]; intros i Hi Hf; cbn [next_boundary].
  - assert (i = String.length s) as -> by lia. split; [lia|done].
  - destruct (is_char_boundary s i) eqn:E; [split; [lia|done]|].
    destruct (decide (i = String.length s)) as [->|]; [congruence|]. destruct (IH (S i)) as [? ?]; [lia|lia|]. split; [lia|done].
Qed.

(** The cut fits, is valid, and ends the decoded text. *)
Lemma cut_text_spec budget bytes :
  (String.length (cut_text budget bytes) <= budget)%nat /\ is_utf8 (cut_text budget bytes) = true.
Proof.
  unfold cut_text. set (t := from_utf8_lossy _). destruct (next_boundary_spec (String.length t) t (String.length t - budget)) as [Hj Hb]; [lia|lia|].
  split; [rewrite drop_bytes_length; lia|]. apply boundary_utf8; [apply lossy_is_utf8|exact Hb].
Qed.

(** ** The text of an output *)

Lemma pretty_N_go_length k n s : (0 < k)%nat -> (n < 10 ^ N.of_nat k)%N -> (String.length (pretty_N_go n s) <= k + String.length s)%nat.
Proof.
  revert n s. induction k as [|k IH]; intros n s Hk Hn; [lia|]. destruct (decide (n = 0)%N) as [->|Hn0]; [rewrite pretty_N_go_0; lia|].
  rewrite pretty_N_go_step by lia. destruct (decide (k = 0%nat)) as [->|Hk0].
  - assert (n `div` 10 = 0)%N as -> by (apply N.div_small; cbn in Hn; lia). rewrite pretty_N_go_0. cbn. lia.
  - etrans; [apply IH; [lia|]|cbn; lia]. apply N.Div0.div_lt_upper_bound. rewrite Nat2N.inj_succ, N.pow_succ_r' in Hn. lia.
Qed.

Lemma pretty_N_go_ascii n s : bytes_all (byte_in 0 127) s = true -> bytes_all (byte_in 0 127) (pretty_N_go n s) = true.
Proof.
  revert s. induction (N.lt_wf_0 n) as [n _ IH]. intros s Hs. destruct (decide (n = 0)%N) as [->|Hn]; [by rewrite pretty_N_go_0|].
  rewrite pretty_N_go_step by lia. apply IH; [apply N.div_lt; lia|]. cbn [bytes_all]. rewrite Hs, andb_true_r. unfold pretty_N_char. by repeat case_match.
Qed.

Lemma pretty_u64 n : 0 <= n <= U64_MAX -> (String.length (pretty n) <= 20)%nat /\ bytes_all (byte_in 0 127) (pretty n) = true.
Proof.
  intros Hn. destruct n as [|p|p]; [split; [cbn; lia|done]| |lia].
  change (pretty (Z.pos p)) with (pretty (N.pos p)). unfold pretty, pretty_N. case_decide; [done|]. split.
  - etrans; [apply (pretty_N_go_length 20); [lia|]|cbn; lia]. change (10 ^ N.of_nat 20)%N with 100000000000000000000%N. unfold U64_MAX in Hn. lia.
  - by apply pretty_N_go_ascii.
Qed.

Lemma notice_spec c : 0 <= co_original_bytes c <= U64_MAX -> (String.length (notice c) <= 100)%nat /\ is_utf8 (notice c) = true.
Proof.
  intros H. destruct (pretty_u64 _ H) as [Hl Ha]. unfold notice. destruct (truncated c); [|split; [cbn; lia|done]]. split.
  - rewrite !string_length_app. cbn [String.length]. lia.
  - apply ascii_utf8. by rewrite !bytes_all_app, Ha.
Qed.

(** Lossy decoding does not shorten. *)
Lemma invalid_width s : (first_char s).2 = false -> ((first_char s).1 <= 3)%nat.
Proof. unfold first_char. repeat case_match; cbn; intros; try done; lia. Qed.
Lemma lossy_length s : (String.length s <= String.length (from_utf8_lossy s))%nat.
Proof.
  unfold from_utf8_lossy. generalize (Nat.le_refl (String.length s)). generalize (String.length s) at 2 4. intros fuel. revert s.
  induction fuel as [|fuel IH]; intros s Hl; (destruct s as [|c s]; [cbn; lia|]); cbn [String.length] in Hl; [lia|]. cbn [lossy_loop].
  rewrite string_length_app. pose proof (first_char_pos (String c s)) as Hp. specialize (IH (drop_bytes (first_char (String c s)).1 (String c s))).
  rewrite drop_bytes_length in IH. cbn [String.length] in IH |- *.
  destruct (first_char (String c s)).2 eqn:Hv.
  - pose proof (first_char_width_le _ _ Hv) as Hw. cbn [String.length] in Hw.
    assert (String.length (take_bytes (first_char (String c s)).1 (String c s)) = (first_char (String c s)).1) as ->; [|lia].
    pose proof (f_equal String.length (take_drop_bytes (first_char (String c s)).1 (String c s))) as E. rewrite string_length_app, drop_bytes_length in E.
    cbn [String.length] in E. lia.
  - pose proof (invalid_width _ Hv). cbn [String.length REPLACEMENT]. lia.
Qed.

Lemma text_spec c :
  0 <= co_original_bytes c <= U64_MAX ->
  str_len (text c) <= OUTPUT_LIMIT /\ is_utf8 (text c) = true /\
  (truncated c = false -> co_original_bytes c <= str_len (co_bytes c) /\ text c = from_utf8_lossy (co_bytes c)) /\
  (truncated c = true -> exists shown, text c = notice c +:+ shown).
Proof.
  intros H. destruct (notice_spec c H) as [Hn Hu]. unfold text. set (budget := Z.to_nat (OUTPUT_LIMIT - str_len (notice c))).
  destruct (cut_text_spec budget (co_bytes c)) as [Hc Hv]. unfold str_len, OUTPUT_LIMIT in *. split_and!.
  - rewrite string_length_app. lia.
  - by apply is_utf8_app.
  - intros Ht. assert (notice c = "") as En by (unfold notice; by rewrite Ht).
    assert (Z.of_nat budget = 65536) as Hb by (subst budget; rewrite En; cbn [String.length]; lia). rewrite En.
    unfold truncated, str_len, OUTPUT_LIMIT in Ht. apply orb_false_iff in Ht as [H1 H2]. apply Z.ltb_ge in H1, H2. split; [lia|].
    change (cut_text budget (co_bytes c) = from_utf8_lossy (co_bytes c)). unfold cut_text. pose proof (lossy_length (co_bytes c)) as Hl.
    replace (String.length (co_bytes c) - budget)%nat with 0%nat by lia. cbn [drop_bytes].
    replace (String.length (from_utf8_lossy (co_bytes c)) - budget)%nat with 0%nat by lia. by destruct (String.length (from_utf8_lossy (co_bytes c))).
  - intros _. by eexists.
Qed.

(** the output that is answered for a command: whatever bytes it wrote, the answer shows at most 64 KiB of valid UTF-8. Output that is not marked as truncated is shown whole, byte by byte where it is valid UTF-8 (a replacement character stands for what is not); and valid output of at most 64 KiB is never truncated. *)
Theorem output_text_bounded content :
  str_len content <= U64_MAX ->
  let c := captured content in
  str_len (text c) <= OUTPUT_LIMIT /\ is_utf8 (text c) = true /\ str_len (co_bytes c) <= OUTPUT_LIMIT /\ co_original_bytes c = str_len content /\
  (truncated c = false -> text c = from_utf8_lossy content) /\
  (is_utf8 content = true -> str_len content <= OUTPUT_LIMIT -> truncated c = false /\ text c = content).
Proof.
  intros Hu c. assert (str_len (co_bytes c) <= OUTPUT_LIMIT /\ str_len (co_bytes c) <= str_len content /\ (str_len content <= OUTPUT_LIMIT -> co_bytes c = content)) as (Hb & Hle & Hall).
  { unfold c, captured, str_len, OUTPUT_LIMIT in *. cbn [co_bytes]. rewrite drop_bytes_length. split_and!; [lia|lia|].
    intros H. by replace (Z.to_nat (Z.of_nat (String.length content) - 65536)) with 0%nat by lia. }
  destruct (text_spec c) as (Ht & Hv & Hf & _); [unfold c, captured, str_len in *; cbn [co_original_bytes]; lia|].
  assert (truncated c = false -> text c = from_utf8_lossy content) as Hw.
  { intros Hn. destruct (Hf Hn) as [Ho ->]. unfold c, captured in Ho. cbn [co_original_bytes] in Ho. fold c in Ho. change (co_bytes (captured content)) with (co_bytes c) in Ho.
    rewrite Hall; [done|]. unfold c, captured in *. cbn [co_bytes] in *. lia. }
  split_and!; try done. intros Hv8 Hl. assert (truncated c = false) as Hn.
  { unfold truncated. rewrite (Hall Hl), lossy_valid by done. apply orb_false_iff. split; apply Z.ltb_ge; unfold c, captured; cbn [co_original_bytes]; lia. }
  split; [done|]. rewrite Hw by done. by apply lossy_valid.
Qed.

(** ** Running *)

Section Running.
Context {Os : Type}.
Context (spawn : list string -> Path -> gmap string string -> M Os string Z).
Context (try_wait : Z -> M Os string (option ExitStatus)).
Context (kill_group : Z -> M Os KillError unit).
Context (content : Stream -> Os -> string).
Local Abbreviation Con := (Console (Os := Os)).
Local Abbreviation poll := (poll try_wait).
Local Abbreviation tail := (tail content).
Local Abbreviation run_loop := (run_loop try_wait kill_group content).
Local Abbreviation reap_loop := (reap_loop try_wait).
Local Abbreviation timed_out := (timed_out try_wait kill_group content).
Local Abbreviation run := (run spawn try_wait kill_group content).

Lemma poll_cases pid (c : Con) w r c' w' :
  poll pid c w = (r, c', w') ->
  con_spawned c' = con_spawned c /\ con_signals c' = con_signals c /\
  con_reaped c' = match r with Ok (Some _) => true | _ => con_reaped c end.
Proof.
  intros H. unfold Commands.poll in H. apply bind_cases in H as (r1 & c1 & w1 & H1 & H). apply with_err_cases in H1 as (r0 & H1 & ->).
  unfold on_os, zoom in H1. destruct (try_wait pid (con_os c) w) as [[r2 o2] w2]. injection H1 as <- <- <-.
  destruct r2 as [[st|]|e]; cbn [map_err] in H; unfold bind, modify, ret in H; [by injection H as <- <- <-|by injection H as <- <- <-|].
  by destruct H as (-> & -> & ->).
Qed.

Lemma terminate_cases pid (c : Con) w r c' w' :
  terminate kill_group pid c w = (r, c', w') ->
  con_spawned c' = con_spawned c /\ con_signals c' = con_signals c ++ [con_reaped c] /\ con_reaped c' = con_reaped c.
Proof.
  intros H. unfold terminate in H. unfold bind at 1, modify at 1 in H. apply bind_cases in H as (r1 & c1 & w1 & H1 & H).
  apply attempt_cases in H1 as (r0 & -> & H1). unfold on_os, zoom in H1. cbn [con_os] in H1.
  destruct (kill_group pid (con_os c) w) as [[r2 o2] w2]. injection H1 as <- <- <-.
  by destruct r2 as [|[|]]; injection H as <- <- <-.
Qed.

(** What is kept of a console: the count of commands, the signals and whether the root was reaped. *)
Definition ledger (c : Con) : nat * bool * list bool := (con_spawned c, con_reaped c, con_signals c).

Lemma io_step_cases (c : Con) w r c' w' : io_step c w = (r, c', w') -> c' = c /\ world_le w w'.
Proof.
  intros H. unfold io_step, bind, io_outcome in H. cbn in H. destruct (peek (w_io w)); injection H as <- <- <-; (split; [done|]);
    constructor; cbn; auto with lia.
Qed.

Lemma tail_cases stream (c : Con) w r c' w' :
  tail stream c w = (r, c', w') -> c' = c /\ world_le w w' /\ (r = Ok (captured (content stream (con_os c))) \/ exists e, r = Err e).
Proof.
  intros H. unfold Commands.tail in H.
  apply bind_cases in H as (r1 & c1 & w1 & H1 & H). apply io_step_cases in H1 as [-> L1].
  destruct r1; [|destruct H as (-> & -> & ->); split_and!; [done|done|right; eauto]].
  unfold bind at 1, gets in H. apply bind_cases in H as (r2 & c2 & w2 & H2 & H). apply io_step_cases in H2 as [-> L2].
  destruct r2; [|destruct H as (-> & -> & ->); split_and!; [done|by etrans|right; eauto]].
  apply bind_cases in H as (r3 & c3 & w3 & H3 & H). apply io_step_cases in H3 as [-> L3].
  destruct r3; [|destruct H as (-> & -> & ->); split_and!; [done|by do 2 (etrans; [eassumption|])|right; eauto]].
  injection H as <- <- <-. split_and!; [done|by do 2 (etrans; [eassumption|])|by left].
Qed.

Lemma reap_loop_cases fuel pid deadline stopped (c : Con) w r c' w' :
  reap_loop fuel pid deadline stopped c w = (r, c', w') -> con_spawned c' = con_spawned c /\ con_signals c' = con_signals c.
Proof.
  revert stopped c w. induction fuel as [|fuel IH]; intros stopped c w H; cbn [Commands.reap_loop] in H; (destruct stopped; [by injection H as <- <- <-|]);
    [by injection H as <- <- <-|].
  unfold bind at 1, instant_now in H. destruct (deadline <=? peek (w_instant w)); [by injection H as <- <- <-|].
  apply bind_cases in H as (r1 & c1 & w1 & H1 & H). apply poll_cases in H1 as (E1 & E2 & _).
  destruct r1; [apply IH in H as [-> ->]; split; congruence|destruct H as (-> & -> & _); done].
Qed.

(** After the deadline: an error, and at most one signal, which finds the root not reaped. *)
Lemma timed_out_cases fuel pid timeout status (c : Con) w r c' w' :
  con_reaped c = bool_decide (is_Some status) ->
  timed_out fuel pid timeout status c w = (r, c', w') ->
  con_spawned c' = con_spawned c /\ (exists e, r = Err e) /\
  con_signals c' = match status with Some _ => con_signals c | None => con_signals c ++ [false] end.
Proof.
  intros Hc H. unfold Commands.timed_out in H. apply bind_cases in H as (r1 & c1 & w1 & H1 & H).
  assert (con_spawned c1 = con_spawned c /\ (exists t, r1 = Ok t) /\ con_signals c1 = match status with Some _ => con_signals c | None => con_signals c ++ [false] end) as (Es & [t ->] & Eg).
  { destruct status; [injection H1 as <- <- <-; eauto|]. apply attempt_cases in H1 as (r0 & -> & H1). apply terminate_cases in H1 as (? & -> & _). rewrite Hc. eauto. }
  unfold bind at 1, instant_now in H. apply bind_cases in H as (r2 & c2 & w2 & H2 & H). apply reap_loop_cases in H2 as [E1 E2].
  destruct r2; [|destruct H as (-> & -> & _); split_and!; [congruence|eauto|congruence]].
  apply bind_cases in H as (r3 & c3 & w3 & H3 & H). apply tail_cases in H3 as (-> & _ & _).
  destruct r3; [|destruct H as (-> & -> & _); split_and!; [congruence|eauto|congruence]].
  apply bind_cases in H as (r4 & c4 & w4 & H4 & H). apply tail_cases in H4 as (-> & _ & _).
  destruct r4; [injection H as <- <- _|destruct H as (-> & -> & _)]; (split_and!; [congruence|eauto|congruence]).
Qed.

(** What a command does: the signals that were sent, and what an answer says of its end. *)
Definition concluded (before : list bool) (r : result RpcError Output) (c' : Con) : Prop :=
  (con_signals c' = before \/ con_signals c' = before ++ [false]) /\
  forall output, r = Ok output -> con_signals c' = before /\ con_reaped c' = true /\
    out_stdout output = captured (content Stdout (con_os c')) /\ out_stderr output = captured (content Stderr (con_os c')).

Lemma run_loop_cases reap fuel pid started timeout (c : Con) w r c' w' :
  con_reaped c = false -> run_loop reap fuel pid started timeout c w = (r, c', w') ->
  con_spawned c' = con_spawned c /\ concluded (con_signals c) r c'.
Proof.
  revert c w. induction fuel as [|fuel IH]; intros c w Hc H; [injection H as <- <- <-; split; [done|split; [by left|done]]|].
  cbn [Commands.run_loop] in H. apply bind_cases in H as (r1 & c1 & w1 & H1 & H). apply poll_cases in H1 as (E1 & E2 & E3).
  destruct r1 as [status|e]; [|destruct H as (-> & -> & _); split; [done|split; [by left|done]]].
  unfold bind at 1, instant_now in H. destruct (timeout <=? _).
  - apply timed_out_cases in H as (-> & [e ->] & Es); [|rewrite E3, Hc; by destruct status]. split; [done|].
    split; [rewrite Es, E2; destruct status; auto|done].
  - destruct status as [st|]; [|apply IH in H as [-> Hx]; [by rewrite <- E2|by rewrite E3, Hc]].
    apply bind_cases in H as (r2 & c2 & w2 & H2 & H). apply tail_cases in H2 as (-> & _ & T2).
    destruct r2 as [out|]; [|destruct H as (-> & -> & _); split; [done|split; [by left|done]]].
    apply bind_cases in H as (r3 & c3 & w3 & H3 & H). apply tail_cases in H3 as (-> & _ & T3).
    destruct r3 as [err|]; [|destruct H as (-> & -> & _); split; [done|split; [by left|done]]].
    injection H as <- <- <-. split; [done|]. split; [by left|]. intros output [= <-]. cbn [out_stdout out_stderr].
    destruct T2 as [[= ->]|[? ?]]; [|done]. destruct T3 as [[= ->]|[? ?]]; done.
Qed.

Ltac io_guard H :=
  let r := fresh "r" in let c := fresh "c" in let w := fresh "w" in let H1 := fresh "H" in
  apply bind_cases in H as (r & c & w & H1 & H); apply io_step_cases in H1 as [-> _];
  destruct r; [|left; destruct H as (-> & -> & _); by eauto].

Lemma run_cases fuel argv cwd env timeout (c : Con) w r c' w' :
  run fuel argv cwd env timeout c w = (r, c', w') ->
  (con_spawned c' = con_spawned c /\ con_signals c' = con_signals c /\ exists e, r = Err e) \/
  (con_spawned c' = S (con_spawned c) /\ concluded (con_signals c) r c').
Proof.
  intros H. unfold Commands.run in H. apply bind_cases in H as (r0 & c0 & w0 & H0 & H). injection H0 as <- <- <-.
  destruct (head argv); cbn [ok_or] in H; [|left; destruct H as (-> & -> & _); eauto].
  do 4 io_guard H.
  unfold bind at 1, instant_now in H. apply bind_cases in H as (rs & cs & ws & Hs & H).
  unfold start_command in Hs. apply bind_cases in Hs as (rx & cx & wx & Hx & Hs). apply with_err_cases in Hx as (ry & Hx & ->).
  unfold on_os, zoom in Hx. destruct (spawn argv cwd env (con_os c) _) as [[r5 o5] w5]. injection Hx as <- <- <-.
  destruct r5 as [pid|e]; cbn [map_err] in Hs; [|destruct Hs as (-> & -> & ->); left; destruct H as (-> & -> & _); eauto].
  unfold bind, modify, ret in Hs. injection Hs as <- <- <-. right. by apply run_loop_cases in H.
Qed.

(** C27: running a command: it is started at most once; at most one signal is ever sent to its process group, and never after its root was reaped, when the number of the group may belong to others; and an answer means that the root has ended, that no signal was sent, and shows what the output files then hold. *)
Theorem command_signals_its_own_group fuel argv cwd env timeout (c : Con) w r c' w' :
  run fuel argv cwd env timeout c w = (r, c', w') ->
  (con_spawned c' = con_spawned c /\ con_signals c' = con_signals c /\ exists e, r = Err e) \/
  (con_spawned c' = S (con_spawned c) /\ concluded (con_signals c) r c').
Proof. apply run_cases. Qed.

(** ** Every command ends *)

Section Ends.
Context (Hw : forall pid, forward (try_wait pid)) (Hk : forall pid, forward (kill_group pid)) (Hs : forall argv cwd env, forward (spawn argv cwd env)).

Lemma poll_forward pid : forward (poll pid).
Proof.
  intros c w r c' w' H. unfold Commands.poll in H. apply bind_cases in H as (r1 & c1 & w1 & H1 & H). apply with_err_cases in H1 as (r0 & H1 & ->).
  unfold on_os, zoom in H1. destruct (try_wait pid (con_os c) w) as [[r2 o2] w2] eqn:E. injection H1 as <- <- <-. apply Hw in E.
  destruct r2 as [[st|]|e]; cbn [map_err] in H; unfold bind, modify, ret in H; [by injection H as _ _ <-|by injection H as _ _ <-|].
  by destruct H as (_ & _ & ->).
Qed.
Lemma poll_fuel pid (c : Con) w c' w' : poll pid c w <> (Err command_out_of_fuel, c', w').
Proof.
  intros H. unfold Commands.poll in H. apply bind_cases in H as (r1 & c1 & w1 & H1 & H). apply with_err_cases in H1 as (r0 & H1 & ->).
  destruct r0 as [[st|]|e]; cbn [map_err] in H; [done|done|]. by destruct H.
Qed.
Lemma tail_fuel stream (c : Con) w c' w' : tail stream c w <> (Err command_out_of_fuel, c', w').
Proof. intros H. unfold Commands.tail, io_step in H. munfold. repeat case_match; simplify_eq. Qed.

(** The clock is monotonic, and of [n] readings after another the last is two seconds later, and later by the timeout. *)
Definition paced (timeout : Z) (n : nat) (w : World) : Prop :=
  (forall i j, (i <= j)%nat -> o_at (w_instant w) i <= o_at (w_instant w) j) /\
  forall i, o_at (w_instant w) i + Z.max timeout 2000 <= o_at (w_instant w) (i + n).
Lemma paced_later timeout n w w' : world_le w w' -> paced timeout n w -> paced timeout n w'.
Proof. intros [_ E _ _ _ _ _ _]. unfold paced. by rewrite E. Qed.

Lemma reap_loop_ends n pid deadline stopped (c : Con) w c' w' :
  (forall i j, (i <= j)%nat -> o_at (w_instant w) i <= o_at (w_instant w) j) -> deadline <= o_at (w_instant w) (o_next (w_instant w) + n) ->
  reap_loop (S n) pid deadline stopped c w <> (Err command_out_of_fuel, c', w').
Proof.
  revert stopped c w. induction n as [|n IH]; intros stopped c w Hm Hd H; cbn [Commands.reap_loop] in H; (destruct stopped; [done|]);
    unfold bind at 1, instant_now in H; (destruct (deadline <=? peek (w_instant w)) eqn:E; [done|]); apply Z.leb_gt in E; unfold peek in E.
  - rewrite Nat.add_0_r in Hd. lia.
  - apply bind_cases in H as (r1 & c1 & w1 & H1 & H). pose proof (poll_forward _ _ _ _ _ _ H1) as [_ Ei _ _ _ En _ _]. cbn in Ei, En.
    destruct r1 as [status|e]; [|destruct H as ([= <-] & _); by eapply poll_fuel].
    eapply (IH _ c1 w1); [| |exact H]; rewrite Ei; [exact Hm|]. etrans; [exact Hd|]. apply Hm. lia.
Qed.

Lemma timed_out_ends n timeout pid status (c : Con) w c' w' :
  paced timeout n w -> timed_out (S n) pid timeout status c w <> (Err command_out_of_fuel, c', w').
Proof.
  intros Hp H. unfold Commands.timed_out in H. apply bind_cases in H as (r1 & c1 & w1 & H1 & H).
  assert (world_le w w1 /\ exists t, r1 = Ok t) as [L1 [t ->]].
  { destruct status; [injection H1 as <- <- <-; split; [done|by eauto]|]. apply attempt_cases in H1 as (r0 & -> & H1). split; [|eauto]. unfold terminate in H1.
    unfold bind at 1, modify at 1 in H1. apply bind_cases in H1 as (r2 & c2 & w2 & H2 & H1). apply attempt_cases in H2 as (r3 & -> & H2).
    unfold on_os, zoom in H2. destruct (kill_group pid _ w) as [[r4 o4] w4] eqn:E. injection H2 as <- <- <-. apply Hk in E.
    by destruct r4 as [|[|]]; injection H1 as _ _ <-. }
  apply (paced_later _ _ _ _ L1) in Hp as [Hm Hd].
  unfold bind at 1, instant_now in H. apply bind_cases in H as (r2 & c2 & w2 & H2 & H).
  destruct r2 as [stopped|e].
  - apply bind_cases in H as (r3 & c3 & w3 & H3 & H). destruct r3; [|destruct H as ([= <-] & _); by eapply tail_fuel].
    apply bind_cases in H as (r4 & c4 & w4 & H4 & H). destruct r4; [done|destruct H as ([= <-] & _); by eapply tail_fuel].
  - destruct H as ([= <-] & _). eapply reap_loop_ends; [| |exact H2]; cbn; [exact Hm|]. unfold peek.
    etrans; [|apply (Hm (o_next (w_instant w1) + n)%nat); lia]. specialize (Hd (o_next (w_instant w1))). lia.
Qed.

Lemma run_loop_ends m n pid started timeout (c : Con) w c' w' :
  paced timeout n w -> started + timeout <= o_at (w_instant w) (o_next (w_instant w) + m) ->
  run_loop (S n) (S m) pid started timeout c w <> (Err command_out_of_fuel, c', w').
Proof.
  revert c w. induction m as [|m IH]; intros c w Hp Hd H; cbn [Commands.run_loop] in H;
    apply bind_cases in H as (r1 & c1 & w1 & H1 & H); pose proof (poll_forward _ _ _ _ _ _ H1) as L1;
    (destruct r1 as [status|e]; [|destruct H as ([= <-] & _); by eapply poll_fuel]);
    unfold bind at 1, instant_now in H; apply (paced_later _ _ _ _ L1) in Hp as Hp1; destruct L1 as [_ Ei _ _ _ En _ _];
    (destruct (timeout <=? peek (w_instant w1) - started) eqn:E;
      [eapply timed_out_ends; [|exact H]; (eapply paced_later; [|exact Hp1]); constructor; cbn; auto with lia|]);
    apply Z.leb_gt in E; unfold peek in E; rewrite Ei in E.
  - destruct Hp as [Hm _]. rewrite Nat.add_0_r in Hd. specialize (Hm _ _ En). lia.
  - destruct status as [st|].
    + apply bind_cases in H as (r2 & c2 & w2 & H2 & H). destruct r2; [|destruct H as ([= <-] & _); by eapply tail_fuel].
      apply bind_cases in H as (r3 & c3 & w3 & H3 & H). destruct r3; [done|destruct H as ([= <-] & _); by eapply tail_fuel].
    + eapply IH; [| |exact H]; [eapply paced_later; [|exact Hp1]; constructor; cbn; auto with lia|]. cbn [w_instant set_instant advance o_at o_next].
      rewrite Ei. etrans; [exact Hd|]. apply Hp. lia.
Qed.

Lemma guard_ends {A} (k : unit -> M Con RpcError A) (c : Con) w c' w' :
  (forall w1, world_le w w1 -> k tt c w1 <> (Err command_out_of_fuel, c', w')) -> bind io_step k c w <> (Err command_out_of_fuel, c', w').
Proof.
  intros Hk' H. apply bind_cases in H as (r1 & c1 & w1 & H1 & H). assert (r1 <> Err command_out_of_fuel) as E.
  { intros ->. unfold io_step in H1. munfold. case_match; simplify_eq. }
  apply io_step_cases in H1 as [-> H1]. destruct r1 as [[]|e]; [by eapply Hk'|]. destruct H as ([= <-] & _). done.
Qed.

(** C26: a command always ends: when [n] turns of a loop take at least the timeout and two seconds, [n + 1] turns of each of its loops are enough, whatever the process does; an unkillable one is given up after two seconds. *)
Theorem command_ends n argv cwd env timeout (c : Con) w r c' w' :
  paced timeout n w -> run (S n) argv cwd env timeout c w = (r, c', w') -> r <> Err command_out_of_fuel.
Proof.
  intros Hp H ->. unfold Commands.run in H. apply bind_cases in H as (r0 & c0 & w0 & H0 & H). injection H0 as <- <- <-.
  destruct (head argv); cbn [ok_or] in H; [|by destruct H].
  revert H. apply guard_ends; intros w1 L1. apply guard_ends; intros w2 L2. apply guard_ends; intros w3 L3. apply guard_ends; intros w4 L4 H.
  apply (paced_later _ _ _ w4) in Hp; [|by do 3 (etrans; [eassumption|])].
  unfold bind at 1, instant_now in H. apply bind_cases in H as (rs & cs & ws & H2 & H).
  assert (rs <> Err command_out_of_fuel /\ world_le (set_instant (advance (w_instant w4)) w4) ws) as [Hne L].
  { unfold start_command in H2. apply bind_cases in H2 as (rx & cx & wx & Hx & H2). apply with_err_cases in Hx as (ry & Hx & ->).
    unfold on_os, zoom in Hx. destruct (spawn argv cwd env (con_os c) _) as [[r5 o5] w5] eqn:E5. injection Hx as <- <- <-. apply Hs in E5.
    destruct r5; cbn [map_err] in H2; [by injection H2 as <- <- <-|by destruct H2 as (-> & -> & ->)]. }
  destruct rs as [pid|e]; [|destruct H as ([= <-] & _); done].
  eapply run_loop_ends; [| |exact H].
  - eapply paced_later; [exact L|]. eapply paced_later; [|exact Hp]. constructor; cbn; auto with lia.
  - destruct L as [_ Ei _ _ _ En _ _]. cbn in Ei, En. rewrite Ei. destruct Hp as [Hm Hd]. unfold peek.
    etrans; [|apply (Hm (o_next (w_instant w4) + n)%nat); lia]. specialize (Hd (o_next (w_instant w4))). lia.
Qed.
End Ends.
End Running.

(** ** The requests *)

Section Requests.
Context {Os : Type}.
Context (spawn : list string -> Path -> gmap string string -> M Os string Z).
Context (try_wait : Z -> M Os string (option ExitStatus)).
Context (kill_group : Z -> M Os KillError unit).
Context (content : Stream -> Os -> string).
Context (os_volume : Os -> Volume) (set_os_volume : Volume -> Os -> Os).
Context (to_vec : Value -> string) (sha256_hex : string -> string) (status_text : ExitStatus -> string).
Local Abbreviation Con := (Console (Os := Os)).

Lemma timeout_ms_bounds value dflt t : 1 <= dflt <= 3600000 -> timeout_ms value dflt = Ok t -> 1 <= t <= 3600000.
Proof.
  unfold timeout_ms. intros Hd H. destruct value as [v|]; [|by injection H as <-]. destruct (as_u64 v) as [n|]; [|done].
  destruct ((1 <=? n) && (n <=? 3600000)) eqn:E; [|done]. injection H as <-. lia.
Qed.

(** The command of a request, after all its checks *)
Definition admitted (rt : ExecutorRuntime) (params : Value) (v : Volume) (w : World) (cwd : Path) (argv : list string) (env : gmap string string) (timeout : Z) : Prop :=
  exists cwd_input v1 w1,
    required_str params "cwd" = Ok cwd_input /\ write_path rt params "cwd" true v w = (Ok cwd, v1, w1) /\ string_array params "argv" = Ok argv /\
    validate_command to_vec sha256_hex argv cwd_input (vget "approvalDigest" params ≫= as_str) = Ok tt /\ env_of params = Ok env /\ 1 <= timeout <= 3600000.

(** the request [command.run] (and the command of [artifact.build]): nothing is started unless the working directory passed the check of paths to be written, the command passed the check of blocked commands and approvals, the environment is one of texts, and the timeout is between a millisecond and an hour; then the command is started once, and a success means that it exited with code 0 without a signal, and shows the bounded text of what it wrote. *)
Theorem command_run_checked fuel rt params dflt (c : Con) w r c' w' :
  1 <= dflt <= 3600000 ->
  run_command_with_default spawn try_wait kill_group content os_volume set_os_volume to_vec sha256_hex status_text fuel rt params dflt c w = (r, c', w') ->
  (con_spawned c' = con_spawned c /\ con_signals c' = con_signals c /\ exists e, r = Err e) \/
  (con_spawned c' = S (con_spawned c) /\ (con_signals c' = con_signals c \/ con_signals c' = con_signals c ++ [false]) /\
   (exists cwd argv env timeout, admitted rt params (os_volume (con_os c)) w cwd argv env timeout) /\
   forall v, r = Ok v -> con_signals c' = con_signals c /\ con_reaped c' = true /\ vget "exitCode" v = Some (vu64 0) /\
     vget "stdout" v = Some (VString (text (captured (content Stdout (con_os c'))))) /\
     vget "stderr" v = Some (VString (text (captured (content Stderr (con_os c')))))).
Proof.
  intros Hd H. unfold run_command_with_default in H.
  destruct (required_str params "cwd") as [cwd_input|e] eqn:E1; [|injection H as <- <- <-; left; eauto]. unfold bind at 1, lift at 1 in H.
  apply bind_cases in H as (r1 & c1 & w1 & H1 & H).
  assert (exists v1, write_path rt params "cwd" true (os_volume (con_os c)) w = (r1, v1, w1) /\ con_spawned c1 = con_spawned c /\ con_signals c1 = con_signals c) as (v1 & Hp & Ec & Eg).
  { unfold on_volume, on_os, zoom in H1. destruct (write_path rt params "cwd" true (os_volume (con_os c)) w) as [[r2 v2] w2]. injection H1 as <- <- <-. by exists v2. }
  destruct r1 as [cwd|e]; [|left; destruct H as (-> & -> & _); eauto].
  destruct (string_array params "argv") as [argv|e] eqn:E2; [|left; injection H as <- <- _; eauto]. unfold bind at 1, lift at 1 in H.
  destruct (validate_command _ _ _ _ _) as [[]|e] eqn:E3; [|left; injection H as <- <- _; eauto]. unfold bind at 1, lift at 1 in H.
  destruct (env_of params) as [env|e] eqn:E4; [|left; injection H as <- <- _; eauto]. unfold bind at 1, lift at 1 in H.
  destruct (timeout_ms (vget "timeoutMs" params) dflt) as [timeout|e] eqn:E5; [|left; injection H as <- <- _; eauto]. unfold bind at 1, lift at 1 in H.
  apply timeout_ms_bounds in E5; [|done]. apply bind_cases in H as (r2 & c2 & w2 & H2 & H).
  apply run_cases in H2 as [(Es & Eg2 & e & ->)|(Es & Hcon)].
  - destruct H as (-> & -> & _). left. split_and!; [congruence|congruence|eauto].
  - right. destruct Hcon as [Hsig Hout]. rewrite <- Eg. assert (c' = c2) as ->.
    { destruct r2; [|by destruct H as (_ & -> & _)]. by case_bool_decide; injection H as _ <- _. }
    split_and!; [congruence|exact Hsig|exists cwd, argv, env, timeout, cwd_input, v1, w1; done|].
    intros v ->. destruct r2 as [output|e]; [|by destruct H]. destruct (Hout output eq_refl) as (? & ? & <- & <-).
    case_bool_decide as Hst; [|done]. injection H as <- _. rewrite Hst. done.
Qed.
End Requests.

(** ** Concrete commands *)

(** A machine: its files, how many polls the command still runs, and what it wrote *)
Record Sample := mkSample { sm_volume : Volume; sm_polls : nat; sm_written : string }.
Definition sm_set_volume (v : Volume) (s : Sample) : Sample := mkSample v (sm_polls s) (sm_written s).
Definition sm_spawn (_ : list string) (_ : Path) (_ : gmap string string) : M Sample string Z :=
  modify (fun s => mkSample (sm_volume s) (sm_polls s) "hello") ;; ret 7.
Definition sm_wait (_ : Z) : M Sample string (option ExitStatus) :=
  let* n := gets sm_polls in
  match n with
  | O => ret (Some (Some 0))
  | S n' => modify (fun s => mkSample (sm_volume s) n' (sm_written s)) ;; ret None
  end.
(** The process ends when it is signalled. *)
Definition sm_kill (_ : Z) : M Sample KillError unit := modify (fun s => mkSample (sm_volume s) 0 (sm_written s)).
Definition sm_content (_ : Stream) (s : Sample) : string := sm_written s.

Definition data_tree : Tree := list_to_map [([], EDir 493); (["data"], EDir 493)].
Definition data_runtime : ExecutorRuntime := mkExecutorRuntime [at_ ["data"]] (at_ ["relay"]) None.
Definition console_of (polls : nat) : Console (Os := Sample) := mkConsole (mkSample (mkVolume data_tree 18 []) polls "") 0 false [].
Definition run_params : Value := obj_of [("cwd", VString "/data"); ("argv", VArray [VString "echo"; VString "hello"]); ("timeoutMs", vu64 10)].
Definition sample_command (polls : nat) :=
  run_command_with_default sm_spawn sm_wait sm_kill sm_content sm_volume sm_set_volume (fun _ => "") (fun s => s) (fun _ => "") 50 data_runtime run_params 300000
    (console_of polls) (sample_world 0).

Lemma output_text_bounded_witness :
  text (captured "hello") = "hello" /\ truncated (captured "hello") = false.
Proof.
  destruct (output_text_bounded "hello") as (_ & _ & _ & _ & _ & H); [vm_compute; discriminate|].
  destruct H as [H1 H2]; [reflexivity|vm_compute; discriminate|]. split; [exact H2|exact H1].
Defined.

(** It ends by itself after two polls. *)
Lemma command_run_checked_witness :
  exists v, (sample_command 2).1.1 = Ok v /\ vget "exitCode" v = Some (vu64 0) /\ con_spawned (sample_command 2).1.2 = 1%nat.
Proof.
  destruct (sample_command 2) as [[r c'] w'] eqn:H. cbn [fst snd].
  assert (exists v, r = Ok v) as [v ->].
  { change r with ((r, c', w').1.1). rewrite <- H. eexists. vm_compute. reflexivity. }
  exists v. split; [reflexivity|]. unfold sample_command in H.
  apply (command_run_checked sm_spawn sm_wait sm_kill sm_content sm_volume sm_set_volume (fun _ => "") (fun s => s) (fun _ => "") 50 data_runtime run_params 300000) in H
    as [(_ & _ & e & He)|(Hs & _ & _ & Hv)]; [discriminate|split; [apply (Hv v eq_refl)|exact Hs]|lia].
Defined.

(** It outlives its deadline and is killed once. *)
Local Abbreviation slow_run := (run sm_spawn sm_wait sm_kill sm_content 20 ["sleep"] (at_ ["data"]) ∅ 10 (console_of 100) (sample_world 0)).

Lemma slow_run_signals : con_signals slow_run.1.2 = [false].
Proof. vm_compute. reflexivity. Qed.

Lemma command_signals_its_own_group_witness :
  con_signals slow_run.1.2 = [false] /\ concluded sm_content [] slow_run.1.1 slow_run.1.2.
Proof.
  pose proof slow_run_signals as E. destruct slow_run as [[r c'] w'] eqn:H. cbn [fst snd] in *. split; [exact E|].
  destruct (command_signals_its_own_group sm_spawn sm_wait sm_kill sm_content 20 ["sleep"] (at_ ["data"]) ∅ 10 (console_of 100) (sample_world 0) r c' w' H)
    as [(_ & Hs & _)|(_ & Hc)]; [rewrite E in Hs; discriminate|exact Hc].
Defined.

(** A clock that goes on by two seconds per reading: two turns are enough. *)
Definition fast_world : World := mkWorld (mkOracle Z.of_nat 0) (mkOracle (fun n => 2000 * Z.of_nat n) 0) (mkOracle unary 0) (mkOracle (fun _ => true) 0).

Lemma command_ends_witness :
  (run sm_spawn sm_wait sm_kill sm_content 2 ["sleep"] (at_ ["data"]) ∅ 10 (console_of 100) fast_world).1.1 <> Err command_out_of_fuel.
Proof.
  destruct (run sm_spawn sm_wait sm_kill sm_content 2 ["sleep"] (at_ ["data"]) ∅ 10 (console_of 100) fast_world) as [[r c'] w'] eqn:H. cbn [fst].
  apply (command_ends sm_spawn sm_wait sm_kill sm_content) with (n := 1%nat) (argv := ["sleep"]) (cwd := at_ ["data"]) (env := ∅) (timeout := 10) (c := console_of 100) (w := fast_world) (c' := c') (w' := w').
  - intros pid s w r1 s' w1 H1. unfold sm_wait, bind, gets, modify, ret in H1. destruct (sm_polls s); injection H1 as <- <- <-; reflexivity.
  - intros pid s w r1 s' w1 [= <- <- <-]. reflexivity.
  - intros argv cwd env s w r1 s' w1 H1. unfold sm_spawn, bind, modify, ret in H1. injection H1 as <- <- <-. reflexivity.
  - split; [intros i j Hij; cbn [w_instant o_at fast_world]; lia|intros i; cbn [w_instant o_at fast_world]; lia].
  - exact H.
Defined.
