(* ===== verification/Clipboard.v ===== *)
(** * Images of the clipboard ([clipboard.rs] of the crate machine-fabric-runtime and
      [clipboard_cli.rs] of machine-fabric-cli)

    The service reads and writes images of the native clipboard (Unix branch);
    the command pushes the local image to one executor, under a lease. The native
    clipboard, base 64 and SHA-256 are parameters. Probes of several targets run
    in threads of their own; they only read, and are taken one after the other. *)
From Stdlib Require Import Ascii String.
From stdpp Require Import base gmap strings list sorting pretty.
From S2P Require Import Prelude Json Protocol PathPolicy FileTree Generations Controller TreeDigest FramingCodec ArtifactRelay ControllerRecords.
Open Scope Z_scope.
Open Scope fabric_scope.

Definition DEFAULT_MAX_BYTES : Z := 16777216.

Record Image := mkImage { im_width : Z; im_height : Z; im_bytes : string }.

(** [arboard::Error]: the one that the source tells apart, and the text of the others *)
Inductive ClipboardError := ContentNotAvailable | OtherClipboardError (text : string).

Definition unavailable (error : ClipboardError) : RpcError :=
  mkRpcError "CLIPBOARD_UNAVAILABLE"
    ("native clipboard unavailable: " +:+ match error with OtherClipboardError text => text | ContentNotAvailable => "" end) true VNull.

(** [usize::checked_mul] on 64 bits *)
Definition checked_mul (a b : Z) : option Z := if a * b <=? U64_MAX then Some (a * b) else None.
Definition ceil_div (a b : Z) : Z := (a + b - 1) / b.

Definition check_size (size maximum : Z) : result RpcError unit :=
  if (size =? 0) || (Z.min maximum DEFAULT_MAX_BYTES <? size)
  then Err (rpc_error "CLIPBOARD_TOO_LARGE" "image exceeds the clipboard pixel limit (16 MiB maximum)")
  else Ok tt.

(** [ImageContent]: its fields, and no others *)
Definition content_keys : list string := ["height"; "kind"; "rgbaBase64"; "width"].
Definition image_content (raw : Value) : option (Z * Z * string) :=
  match raw with
  | VObject m =>
      if forallb (fun kv => existsb (String.eqb kv.1) content_keys) m then
        match as_str (vindex raw "kind"), as_u64 (vindex raw "width"), as_u64 (vindex raw "height"), as_str (vindex raw "rgbaBase64") with
        | Some _, Some width, Some height, Some rgba_base64 => Some (width, height, rgba_base64)
        | _, _, _, _ => None
        end
      else None
  | _ => None
  end.

(** The [maxBytes] of [clipboard.read] and [clipboard.write] in the executor *)
Definition max_bytes_of (params : Value) : Z := Z.min (default DEFAULT_MAX_BYTES (opt_u64 params "maxBytes")) DEFAULT_MAX_BYTES.

Section Clipboard.
Context (base64_encode : string -> string) (base64_decode : string -> option string) (sha256_hex : string -> string).
(** The native clipboard: connecting, and reading and writing an image *)
Context {Native : Type}.
Context (connect : M Native ClipboardError unit) (get_image : M Native ClipboardError Image) (set_image : Image -> M Native ClipboardError unit).
Context (display_variable : option string).

Definition image_digest (width height : Z) (bytes : string) : string :=
  sha256_hex ("image/rgba" +:+ String "000"%char "" +:+ pretty width +:+ "x" +:+ pretty height +:+ String "000"%char "" +:+ bytes).

Definition decode_image (params : Value) (maximum : Z) : result RpcError (Image * string) :=
  bind_result (ok_or (vget "content" params) (rpc_error "INVALID_PARAMS" "content is required")) (fun raw =>
  if negb (bool_decide (vget "kind" raw ≫= as_str = Some "image")) then Err (rpc_error "NO_IMAGE" "only images can be synchronized")
  else
    bind_result (ok_or (image_content raw) (rpc_error "INVALID_PARAMS" "invalid image content")) (fun '(width, height, rgba_base64) =>
    bind_result (ok_or (match checked_mul width height with
                        | Some n => match checked_mul n 4 with Some n => if 0 <? n then Some n else None | None => None end
                        | None => None
                        end) (rpc_error "INVALID_PARAMS" "invalid image dimensions")) (fun size =>
    bind_result (check_size size maximum) (fun _ =>
    if ceil_div size 3 * 4 <? str_len rgba_base64 then Err (rpc_error "INVALID_PARAMS" "encoded data exceeds image dimensions")
    else
      bind_result (ok_or (base64_decode rgba_base64) (rpc_error "INVALID_PARAMS" "invalid image encoding")) (fun bytes =>
      if negb (str_len bytes =? size) then Err (rpc_error "INVALID_PARAMS" "RGBA size does not match image dimensions")
      else
        let digest := image_digest width height bytes in
        if negb (bool_decide (vget "semanticDigest" params ≫= as_str = Some digest))
        then Err (rpc_error "CLIPBOARD_DIGEST_MISMATCH" "image digest mismatch")
        else Ok (mkImage width height bytes, digest)))))).

(** [ClipboardService]: whether it has a connection, and the native clipboard *)
Record Service := mkService { cs_open : bool; cs_native : Native }.
Definition on_native {E A} (m : M Native E A) : M Service E A := zoom cs_native (fun n s => mkService (cs_open s) n) m.
Definition set_open (b : bool) : M Service RpcError unit := modify (fun s => mkService b (cs_native s)).

(** [ClipboardService::with] *)
Definition with_clipboard {A} (operation : M Service RpcError A) : M Service RpcError A :=
  let* open := gets cs_open in
  (if open : bool then ret tt else with_err unavailable (on_native connect) ;; set_open true) ;;
  let* result := attempt operation in
  (match result with
   | Err e => if String.eqb (err_code e) "CLIPBOARD_UNAVAILABLE" then set_open false else ret tt
   | Ok _ => ret tt
   end) ;;
  lift result.

(** [ClipboardService::status] *)
Definition clipboard_status : M Service RpcError Value :=
  with_clipboard (ret (obj_of [("ready", VBool true); ("imageOnly", VBool true); ("maxBytes", vu64 DEFAULT_MAX_BYTES);
                               ("display", vopt VString display_variable)])).

(** [ClipboardService::read] *)
Definition clipboard_read (max_bytes : Z) : M Service RpcError Value :=
  with_clipboard
    (let* image := with_err (fun e => match e with
                                      | ContentNotAvailable => rpc_error "NO_IMAGE" "clipboard contains no image"
                                      | e => unavailable e
                                      end) (on_native get_image) in
     lift (check_size (str_len (im_bytes image)) max_bytes) ;;
     let digest := image_digest (im_width image) (im_height image) (im_bytes image) in
     ret (obj_of [("semanticDigest", VString digest); ("size", vu64 (str_len (im_bytes image)));
                  ("content", obj_of [("kind", VString "image"); ("width", vu64 (im_width image)); ("height", vu64 (im_height image));
                                      ("rgbaBase64", VString (base64_encode (im_bytes image)))])])).

(** [ClipboardService::write] *)
Definition clipboard_write (params : Value) (max_bytes : Z) : M Service RpcError Value :=
  let* decoded := lift (decode_image params max_bytes) in
  let '(image, digest) := decoded in
  with_clipboard
    (let* expired := match opt_u64 params "expiresAtMs" with
                     | Some deadline => let* now := now_ms in ret (deadline <=? now)
                     | None => ret false
                     end in
     if expired : bool then fail (rpc_error "CLIPBOARD_EXPIRED" "image transfer expired before it could be applied")
     else
       with_err unavailable (on_native (set_image image)) ;;
       ret (obj_of [("applied", VBool true); ("semanticDigest", VString digest); ("width", vu64 (im_width image)); ("height", vu64 (im_height image))])).

(** The arms ["clipboard.read"] and ["clipboard.write"] of the executor *)
Definition executor_clipboard_read (params : Value) : M Service RpcError Value := clipboard_read (max_bytes_of params).
Definition executor_clipboard_write (params : Value) : M Service RpcError Value := clipboard_write params (max_bytes_of params).

(** ** Pushing an image *)

Record Target := mkTarget { t_node_id : string; t_executor_id : option string; t_ready : bool; t_reason : option string; t_display : option string }.

Definition same_peer (controller executor : Value) : bool :=
  if negb (eq_str (vindex controller "transport") "local") || negb (eq_str (vindex executor "transport") "local") then false
  else
    match as_str (vindex controller "socket"), as_str (vindex executor "socket") with
    | Some a, Some b => bool_decide (path_parent (path_of a) = path_parent (path_of b))
    | _, _ => false
    end.

Definition id_of (v : Value) : option string :=
  match as_str (vindex v "id") with Some s => Some s | None => as_str (vindex (vindex v "metadata") "id") end.
Definition entries (snapshot : Value) (key : string) : list Value := default [] (as_array (vindex snapshot key)).
Definition peers_of (snapshot controller : Value) : list Value :=
  List.filter (fun e => eq_str (vindex e "health") "ready" && same_peer (vindex controller "endpoint") (vindex e "endpoint")) (entries snapshot "executors").

Definition candidate (snapshot controller : Value) : option Target :=
  if negb (eq_str (vindex controller "health") "ready") then None
  else
    match id_of controller with
    | None => None
    | Some node_id =>
        let executors := peers_of snapshot controller in
        Some (mkTarget node_id (match executors with [e] => id_of e | _ => None end) false
                (Some (if (1 <? length executors)%nat then "AMBIGUOUS_EXECUTOR" else "EXECUTOR_UNAVAILABLE")) None)
    end.

Definition target_le (a b : Target) : Prop := String.leb (t_node_id a) (t_node_id b) = true.
#[export] Instance target_le_dec a b : Decision (target_le a b) := decide (String.leb (t_node_id a) (t_node_id b) = true).
Definition candidates (snapshot : Value) : list Target := merge_sort target_le (omap (candidate snapshot) (entries snapshot "controllers")).

(** [requested] names the target, by its node or by its executor. *)
Definition named (requested : string) (t : Target) : bool :=
  String.eqb (t_node_id t) requested || bool_decide (t_executor_id t = Some requested).

Definition resolve (targets : list Target) (requested : string) : result string Target :=
  match List.filter (named requested) targets with
  | [target] => if t_ready target then Ok target else Err (default "CLIPBOARD_UNAVAILABLE" (t_reason target))
  | _ => Err ("TARGET_UNAVAILABLE: target is not uniquely connected: " +:+ requested)
  end.

(** A call of the controller: action, parameters and timeout *)
Context {Net : Type} (rpc : string -> Value -> Z -> M Net string Value).

(** The machine of the user. [pu_calls] are the calls of the controller in their order, with what they gave. *)
Record Push := mkPush { pu_local : Service; pu_net : Net; pu_calls : list (string * Value * result string Value) }.
Definition on_local {E A} (m : M Service E A) : M Push E A := zoom pu_local (fun s p => mkPush s (pu_net p) (pu_calls p)) m.
Definition call (action : string) (params : Value) (timeout : Z) : M Push string Value :=
  let* answer := attempt (zoom pu_net (fun n p => mkPush (pu_local p) n (pu_calls p)) (rpc action params timeout)) in
  modify (fun p => mkPush (pu_local p) (pu_net p) (pu_calls p ++ [(action, params, answer)])) ;;
  lift answer.
Definition executor_params (id action : string) (params : Value) : Value :=
  obj_of [("executorId", VString id); ("action", VString action); ("params", params)].
Definition executor_call (id action : string) (params : Value) (timeout : Z) : M Push string Value :=
  call "executor.call" (executor_params id action params) timeout.

Definition has_capability (caps : Value) (name : string) : bool :=
  match as_array caps with Some l => existsb (fun c => eq_str (vindex c "name") name) l | None => false end.

(** One probe of [discover_for] *)
Definition probe (timeout : Z) (target : Target) : M Push string Target :=
  match t_executor_id target with
  | None => ret target
  | Some id =>
      let* status := attempt (
        let* caps := executor_call id "capability.list" (obj_of []) timeout in
        if negb (has_capability caps "clipboard.status") || negb (has_capability caps "clipboard.write")
        then fail "CLIPBOARD_UNSUPPORTED: install image clipboard support on this node"
        else executor_call id "clipboard.status" (obj_of []) timeout) in
      ret (match status with
           | Ok status =>
               if eq_bool (vindex status "ready") true
               then mkTarget (t_node_id target) (t_executor_id target) true None (as_str (vindex status "display"))
               else mkTarget (t_node_id target) (t_executor_id target) (t_ready target) (Some "CLIPBOARD_UNAVAILABLE") (t_display target)
           | Err error => mkTarget (t_node_id target) (t_executor_id target) (t_ready target) (Some error) (t_display target)
           end)
  end.

Definition discover_for (requested : option string) (timeout : Z) : M Push string (list Target) :=
  let* snapshot := call "status" (obj_of []) timeout in
  let wanted t := match requested with None => true | Some id => named id t end in
  map_m (probe timeout) (List.filter wanted (candidates snapshot)).

Definition transfer (target : Target) (image : Value) (send : string -> Value -> M Push string Value) : M Push string Value :=
  if negb (eq_str (vindex (vindex image "content") "kind") "image") then fail "NO_IMAGE: clipboard contains no image"
  else
    let* now := now_ms in
    let* id := lift (ok_or (t_executor_id target) "EXECUTOR_UNAVAILABLE") in
    let* response := send id
      (obj_of [("executorId", vopt VString (t_executor_id target)); ("content", vindex image "content"); ("semanticDigest", vindex image "semanticDigest");
               ("maxBytes", vu64 DEFAULT_MAX_BYTES); ("expiresAtMs", vu64 (u64_add now 30000))]) in
    if negb (eq_bool (vindex response "applied") true) || negb (value_eqb (vindex response "semanticDigest") (vindex image "semanticDigest"))
    then fail "CLIPBOARD_UNCONFIRMED: destination did not confirm the image write"
    else
      ret (obj_of [("target", VString (t_node_id target)); ("executorId", vopt VString (t_executor_id target));
                   ("width", vindex (vindex image "content") "width"); ("height", vindex (vindex image "content") "height");
                   ("bytes", vindex image "size"); ("applied", VBool true); ("display", vopt VString (t_display target))]).

(** The call that [push_image] sends an image with *)
Definition write_params (resource owner : string) (token : Value) (id : string) (params : Value) : Value :=
  obj_of [("executorId", VString id); ("action", VString "clipboard.write"); ("params", params);
          ("leaseResource", VString resource); ("owner", VString owner); ("token", token)].
Definition send_image (resource owner : string) (token : Value) (id : string) (params : Value) : M Push string Value :=
  call "executor.call" (write_params resource owner token id params) 35000.
Definition acquire_params (resource owner : string) : Value :=
  obj_of [("resource", VString resource); ("owner", VString owner); ("ttlMs", vu64 45000)].
Definition release_params (resource owner : string) (token : Value) : Value :=
  obj_of [("resource", VString resource); ("owner", VString owner); ("token", token)].

(** What a failed check of the target says: nothing was sent. *)
Definition preflight_error (error : string) : string :=
  match String.index 0 "RPC_TIMEOUT" error with
  | Some _ => "TARGET_CHECK_TIMEOUT: target check timed out; image was not sent"
  | None => error
  end.

Definition push_image (requested : string) : M Push string Value :=
  let* image := with_err (fun e => err_code e +:+ ": " +:+ err_message e) (on_local (clipboard_read DEFAULT_MAX_BYTES)) in
  let* targets := with_err preflight_error (discover_for (Some requested) 15000) in
  let* target := lift (map_err preflight_error (resolve targets requested)) in
  let* id := lift (ok_or (t_executor_id target) "EXECUTOR_UNAVAILABLE") in
  let resource := "clipboard:" +:+ id in
  let* uuid := new_v4 in
  let owner := "clipboard-" +:+ uuid in
  let* lease := call "lease.acquire" (acquire_params resource owner) 3000 in
  let* result := attempt (transfer target image (send_image resource owner (vindex lease "token"))) in
  let* _ := attempt (F := string) (call "lease.release" (release_params resource owner (vindex lease "token")) 3000) in
  lift result.
End Clipboard.

(** ** What an accepted image is *)

Section Safety.
Context (base64_encode : string -> string) (base64_decode : string -> option string) (sha256_hex : string -> string).
Context {Native : Type}.
Context (connect : M Native ClipboardError unit) (get_image : M Native ClipboardError Image) (set_image : Image -> M Native ClipboardError unit).
Local Abbreviation decode_image := (decode_image base64_decode sha256_hex).
Local Abbreviation image_digest := (image_digest sha256_hex).
Local Abbreviation Srv := (Service (Native := Native)).

(** An image with the pixels that its size says, within the limit *)
Definition proper (img : Image) (maximum : Z) : Prop :=
  0 <= im_width img /\ 0 <= im_height img /\ str_len (im_bytes img) = im_width img * im_height img * 4 /\
  0 < str_len (im_bytes img) <= Z.min maximum DEFAULT_MAX_BYTES.

Lemma check_size_ok size maximum u : check_size size maximum = Ok u -> size <> 0 /\ size <= Z.min maximum DEFAULT_MAX_BYTES.
Proof. unfold check_size. destruct (_ || _) eqn:E; [done|]. intros _. apply orb_false_iff in E as [E1 E2]. apply Z.eqb_neq in E1. apply Z.ltb_ge in E2. done. Qed.

Definition digest_of (img : Image) : string := image_digest (im_width img) (im_height img) (im_bytes img).

(** Widths and heights are numbers of JSON that are read as [u64]. *)
Definition unsigned (v : Value) : Prop := forall k n, as_u64 (vindex v k) = Some n -> 0 <= n.

Lemma decode_image_ok params maximum img digest :
  (forall raw, vget "content" params = Some raw -> unsigned raw) -> decode_image params maximum = Ok (img, digest) ->
  proper img maximum /\ digest = digest_of img /\ vget "semanticDigest" params ≫= as_str = Some digest /\
  exists raw text, vget "content" params = Some raw /\ image_content raw = Some (im_width img, im_height img, text) /\ base64_decode text = Some (im_bytes img).
Proof.
  intros Hu H. unfold Clipboard.decode_image in H. apply bind_result_ok in H as (raw & Hr & H). apply ok_or_ok in Hr.
  destruct (negb (bool_decide (vget "kind" raw ≫= as_str = Some "image"))); [done|].
  apply bind_result_ok in H as ([[width height] txt] & Hi & H). apply ok_or_ok in Hi.
  apply bind_result_ok in H as (size & Hs & H). apply ok_or_ok in Hs.
  apply bind_result_ok in H as (u & Hc & H). apply check_size_ok in Hc as [Hnz Hle].
  destruct (ceil_div size 3 * 4 <? str_len txt); [done|]. apply bind_result_ok in H as (bytes & Hb & H). apply ok_or_ok in Hb.
  destruct (Z.eqb_spec (str_len bytes) size) as [El|]; [|done]. cbn [negb] in H. case_bool_decide as Hd; [|done]. injection H as <- <-.
  assert (0 <= width /\ 0 <= height) as [Hw Hh].
  { specialize (Hu raw Hr). unfold image_content in Hi. destruct raw; try done. destruct (forallb _ _); [|done].
    repeat (match type of Hi with context [match ?x with _ => _ end] => destruct x eqn:? end; try done). injection Hi as <- <- <-. split; by eapply Hu. }
  unfold checked_mul in Hs. destruct (width * height <=? U64_MAX); [|done]. destruct (width * height * 4 <=? U64_MAX); [|done].
  destruct (0 <? width * height * 4) eqn:E0; [|done]. injection Hs as <-. apply Z.ltb_lt in E0. unfold proper. cbn [im_width im_height im_bytes].
  split_and!; try done; try lia. by exists raw, txt.
Qed.

(** The steps of [with_clipboard] on the native clipboard *)
Lemma with_clipboard_cases {A} (operation : M Srv RpcError A) s w r s' w' :
  with_clipboard connect operation s w = (r, s', w') ->
  (exists e, r = Err (unavailable e)) \/
  exists s1 w1 s2, operation s1 w1 = (r, s2, w') /\ cs_native s' = cs_native s2.
Proof.
  intros H. unfold with_clipboard in H. unfold bind at 1, gets in H.
  apply bind_cases in H as (r1 & s1 & w1 & H1 & H). destruct r1 as [u|e].
  2: { left. destruct H as (-> & _). destruct (cs_open s); [done|]. apply bind_cases in H1 as (r2 & s2 & w2 & H2 & H1).
       apply with_err_cases in H2 as (r3 & H2 & ->). destruct r3 as [|e']; cbn [map_err] in H1; [done|]. destruct H1 as ([= ->] & _). eauto. }
  right. apply bind_cases in H as (r2 & s2 & w2 & H2 & H). apply attempt_cases in H2 as (r3 & -> & H2). exists s1, w1, s2.
  apply bind_cases in H as (r4 & s4 & w4 & H4 & H). destruct r3 as [a|e].
  - unfold ret in H4. injection H4 as <- <- <-. injection H as <- <- <-. done.
  - destruct (String.eqb (err_code e) "CLIPBOARD_UNAVAILABLE"); [unfold set_open, modify in H4|]; injection H4 as <- <- <-; injection H as <- <- <-; done.
Qed.

(** writing an image: what is refused, for its kind, its size, its encoding or its digest, does not touch the clipboard; an image that is written has exactly the pixels its width and height say, at most 16 MiB, the digest that was announced, and is what the text in the request decodes to. *)
Theorem clipboard_write_checked params maximum (s : Srv) w r s' w' :
  (forall raw, vget "content" params = Some raw -> unsigned raw) ->
  clipboard_write base64_decode sha256_hex connect set_image params maximum s w = (r, s', w') ->
  (exists e, decode_image params maximum = Err e /\ r = Err e /\ s' = s /\ w' = w) \/
  exists img, decode_image params maximum = Ok (img, digest_of img) /\ proper img maximum /\
    forall v, r = Ok v -> vget "semanticDigest" v = Some (VString (digest_of img)) /\ vget "applied" v = Some (VBool true) /\
      exists n w1 w2, set_image img n w1 = (Ok tt, cs_native s', w2).
Proof.
  intros Hu H. unfold clipboard_write in H. destruct (decode_image params maximum) as [[img digest]|e] eqn:E.
  2: { injection H as <- <- <-. left. by exists e. }
  right. destruct (decode_image_ok _ _ _ _ Hu E) as (Hp & -> & _). exists img. split_and!; try done.
  intros v ->. unfold bind at 1, lift at 1 in H. apply with_clipboard_cases in H as [[e He]|(s1 & w1 & s2 & H & Hs)]; [done|].
  apply bind_cases in H as (r1 & s3 & w3 & H3 & H). destruct r1 as [[]|]; [done| |by destruct H].
  mstep H u s4 w4 H4. injection H as <- <- <-. apply with_err_cases in H4 as ([[]|] & H4 & E4); [|done]. split_and!; [done|done|].
  apply zoom_cases in H4 as (n & H4 & ->). eexists _, _, _. rewrite Hs. cbn [cs_native]. exact H4.
Qed.

(** ** Round trip *)

Context (base64_decode_encode : forall b, base64_decode (base64_encode b) = Some b).
Context (base64_length : forall b, str_len (base64_encode b) = ceil_div (str_len b) 3 * 4).

(** A request that carries what [clipboard.read] answered. *)
Definition carries_image (params answer : Value) : Prop :=
  vget "content" params = Some (vindex answer "content") /\ vget "semanticDigest" params = Some (vindex answer "semanticDigest").

Definition image_answer (img : Image) : Value :=
  obj_of [("semanticDigest", VString (digest_of img)); ("size", vu64 (str_len (im_bytes img)));
          ("content", obj_of [("kind", VString "image"); ("width", vu64 (im_width img)); ("height", vu64 (im_height img));
                              ("rgbaBase64", VString (base64_encode (im_bytes img)))])].

Lemma read_answer maximum (s : Srv) w v s' w' :
  clipboard_read base64_encode sha256_hex connect get_image maximum s w = (Ok v, s', w') ->
  exists img n w1 n' w2, get_image n w1 = (Ok img, n', w2) /\ v = image_answer img /\
    str_len (im_bytes img) <> 0 /\ str_len (im_bytes img) <= Z.min maximum DEFAULT_MAX_BYTES.
Proof.
  intros H. unfold clipboard_read in H. apply with_clipboard_cases in H as [[e He]|(s1 & w1 & s2 & H & _)]; [done|].
  mstep H img s3 w3 H3. apply with_err_cases in H3 as ([im|] & H3 & [= <-]). apply zoom_cases in H3 as (n & H3 & _).
  mlift H u Hc. apply check_size_ok in Hc. injection H as <- _ _. by exists img, (cs_native s1), w1, n, w3.
Qed.

Lemma decode_answer img params maximum :
  0 <= im_width img -> 0 <= im_height img -> str_len (im_bytes img) = im_width img * im_height img * 4 ->
  str_len (im_bytes img) <> 0 -> str_len (im_bytes img) <= Z.min maximum DEFAULT_MAX_BYTES ->
  carries_image params (image_answer img) -> decode_image params maximum = Ok (img, digest_of img).
Proof.
  intros Hw Hh El Hnz Hle [Hc Hd]. unfold Clipboard.decode_image. rewrite Hc, Hd.
  change (vindex (image_answer img) "content") with
    (obj_of [("kind", VString "image"); ("width", vu64 (im_width img)); ("height", vu64 (im_height img)); ("rgbaBase64", VString (base64_encode (im_bytes img)))]).
  change (vindex (image_answer img) "semanticDigest") with (VString (digest_of img)).
  unfold bind_result at 1. cbn [ok_or]. rewrite bool_decide_true by reflexivity. cbn [negb].
  change (image_content _) with (Some (im_width img, im_height img, base64_encode (im_bytes img))). unfold bind_result at 1. cbn [ok_or].
  assert (im_width img * im_height img * 4 <= 16777216) as Hm by (rewrite <- El; unfold DEFAULT_MAX_BYTES in Hle; lia).
  unfold checked_mul. rewrite (proj2 (Z.leb_le (im_width img * im_height img) U64_MAX)) by (unfold U64_MAX; lia).
  rewrite (proj2 (Z.leb_le (im_width img * im_height img * 4) U64_MAX)) by (unfold U64_MAX; lia). rewrite <- El.
  assert (0 < str_len (im_bytes img)) as Hpos by (unfold str_len in *; lia). rewrite (proj2 (Z.ltb_lt _ _) Hpos). unfold bind_result at 1. cbn [ok_or].
  unfold check_size. rewrite (proj2 (Z.eqb_neq _ _) Hnz), (proj2 (Z.ltb_ge _ _) Hle). cbn [orb]. unfold bind_result at 1.
  rewrite base64_length, Z.ltb_irrefl, base64_decode_encode. unfold bind_result. cbn [ok_or]. rewrite Z.eqb_refl. cbn [negb].
  rewrite bool_decide_true by reflexivity. by destruct img.
Qed.

(** an image survives its transfer: what [clipboard.read] answers for an image of the native clipboard, whose bytes are four per pixel, is decoded by [clipboard.write], in any request that carries that content and digest and allows its size, to the same image. *)
Theorem read_then_write_is_identity maximum maximum' (s : Srv) w v s' w' params :
  clipboard_read base64_encode sha256_hex connect get_image maximum s w = (Ok v, s', w') -> carries_image params v ->
  exists img n w1 n' w2, get_image n w1 = (Ok img, n', w2) /\
    (0 <= im_width img -> 0 <= im_height img -> str_len (im_bytes img) = im_width img * im_height img * 4 -> str_len (im_bytes img) <= maximum' ->
     decode_image params maximum' = Ok (img, digest_of img)).
Proof.
  intros H Hp. apply read_answer in H as (img & n & w1 & n' & w2 & Hg & -> & Hnz & Hle). exists img, n, w1, n', w2. split; [done|].
  intros Hw Hh El Hm. apply decode_answer; try done. lia.
Qed.

(** ** Pushing *)

Context {Net : Type} (rpc : string -> Value -> Z -> M Net string Value).
Local Abbreviation Psh := (Push (Native := Native) (Net := Net)).

(** A call that writes an image *)
Definition writes (c : string * Value * result string Value) : bool :=
  String.eqb c.1.1 "executor.call" && eq_str (vindex c.1.2 "action") "clipboard.write".

Lemma pushed_call_cases action params timeout (p : Psh) w r p' w' :
  call rpc action params timeout p w = (r, p', w') ->
  pu_local p' = pu_local p /\ pu_calls p' = pu_calls p ++ [(action, params, r)].
Proof.
  intros H. unfold call in H. apply bind_cases in H as (r1 & p1 & w1 & H1 & H). apply attempt_cases in H1 as (answer & -> & H1).
  apply zoom_cases in H1 as (n & _ & ->). unfold bind, modify, lift in H. by injection H as <- <- _.
Qed.

(** The step writes no image and leaves the local clipboard. *)
Definition mute {E A} (m : M Psh E A) : Prop := forall p w r p' w', m p w = (r, p', w') ->
  pu_local p' = pu_local p /\ exists l, pu_calls p' = pu_calls p ++ l /\ Forall (fun c => writes c = false) l.

Lemma mute_nothing (p : Psh) : pu_local p = pu_local p /\ exists l, pu_calls p = pu_calls p ++ l /\ Forall (fun c => writes c = false) l.
Proof. split; [done|]. exists []. by rewrite app_nil_r. Qed.
Lemma mute_bind {E A B} (m : M Psh E A) (k : A -> M Psh E B) : mute m -> (forall a, mute (k a)) -> mute (bind m k).
Proof.
  intros Hm Hk p w r p' w' H. apply bind_cases in H as (r1 & p1 & w1 & H1 & H). apply Hm in H1 as (L1 & l1 & E1 & F1). destruct r1 as [a|e].
  - apply Hk in H as (L & l & E2 & F). split; [congruence|]. exists (l1 ++ l). split; [by rewrite E2, E1, app_assoc|by apply Forall_app].
  - destruct H as (_ & -> & _). split; [done|]. by exists l1.
Qed.
Lemma mute_ret {E A} (a : A) : mute (E := E) (ret a).
Proof. intros p w r p' w' [= <- <- <-]. apply mute_nothing. Qed.
Lemma mute_lift {E A} (a : result E A) : mute (lift a).
Proof. intros p w r p' w' [= <- <- <-]. apply mute_nothing. Qed.
Lemma mute_fail {E A} e : mute (E := E) (A := A) (fail e).
Proof. intros p w r p' w' [= <- <- <-]. apply mute_nothing. Qed.
Lemma mute_attempt {E F A} (m : M Psh E A) : mute m -> mute (E := F) (attempt m).
Proof. intros Hm p w r p' w' (r0 & -> & H)%attempt_cases. by eapply Hm. Qed.
Lemma mute_with_err {E F A} (f : E -> F) (m : M Psh E A) : mute m -> mute (with_err f m).
Proof. intros Hm p w r p' w' (r0 & H & ->)%with_err_cases. by eapply Hm. Qed.
Lemma mute_call action params timeout : (forall r, writes (action, params, r) = false) -> mute (call rpc action params timeout).
Proof. intros Hw p w r p' w' [L E]%pushed_call_cases. split; [done|]. exists [(action, params, r)]. split; [done|]. by apply Forall_singleton. Qed.
Lemma mute_map_m {E A B} (f : A -> M Psh E B) l : (forall x, mute (f x)) -> mute (map_m f l).
Proof.
  intros Hf. induction l as [|x l IH]; cbn [map_m]; [apply mute_ret|]. apply mute_bind; [done|intros ?]. apply mute_bind; [done|intros ?]. apply mute_ret.
Qed.
Lemma mute_probe timeout t : mute (probe rpc timeout t).
Proof.
  unfold probe, Clipboard.executor_call. destruct (t_executor_id t); [|apply mute_ret]. apply mute_bind; [|intros ?; apply mute_ret]. apply mute_attempt.
  apply mute_bind; [by apply mute_call|intros ?]. case_match; [apply mute_fail|by apply mute_call].
Qed.
Lemma mute_discover requested timeout : mute (discover_for rpc requested timeout).
Proof. apply mute_bind; [by apply mute_call|intros ?]. apply mute_map_m. intros ?. apply mute_probe. Qed.

(** A call that succeeds *)
Definition asked (id action : string) (answer : Value) : string * Value * result string Value :=
  ("executor.call", executor_params id action (obj_of []), Ok answer).

Definition same_target (t t' : Target) : Prop := t_node_id t' = t_node_id t /\ t_executor_id t' = t_executor_id t.
Lemma same_named requested t t' : same_target t t' -> named requested t' = named requested t.
Proof. intros [H1 H2]. unfold named. by rewrite H1, H2. Qed.

(** A probe keeps the names of its target; one that finds it ready has asked it for its capabilities and its state. *)
Lemma probe_cases timeout t (p : Psh) w t' p' w' :
  probe rpc timeout t p w = (Ok t', p', w') ->
  same_target t t' /\
  (t_ready t = false -> t_ready t' = true -> exists id caps status, t_executor_id t = Some id /\
    pu_calls p' = pu_calls p ++ [asked id "capability.list" caps; asked id "clipboard.status" status] /\
    has_capability caps "clipboard.status" = true /\ has_capability caps "clipboard.write" = true /\ vindex status "ready" = VBool true).
Proof.
  intros H. unfold probe in H. destruct (t_executor_id t) as [id|] eqn:Ei; [|injection H as <- _ _; split; [done|congruence]].
  mstep H status p1 w1 H1. apply attempt_cases in H1 as (r & [= <-] & H1). unfold ret in H. injection H as <- <- <-.
  destruct status as [status|e]; [|split; [by split|cbn; congruence]].
  destruct (eq_bool (vindex status "ready") true) eqn:Er; [|split; [by split|cbn; congruence]]. apply eq_bool_spec in Er.
  split; [by split|]. intros _ _. mstep H1 caps p2 w2 H2. apply pushed_call_cases in H2 as [_ E2].
  destruct (has_capability caps "clipboard.status") eqn:C1; [|done]. destruct (has_capability caps "clipboard.write") eqn:C2; [|done]. cbn [negb orb] in H1.
  apply pushed_call_cases in H1 as [_ E1]. exists id, caps, status. split_and!; try done. by rewrite E1, E2, <- app_assoc.
Qed.

Lemma probes_same timeout l (p : Psh) w l' p' w' : map_m (probe rpc timeout) l p w = (Ok l', p', w') -> Forall2 same_target l l'.
Proof.
  revert p w l' p' w'. induction l as [|t l IH]; intros p w l' p' w' H; cbn [map_m] in H; [injection H as <- _ _; constructor|].
  mstep H t' p1 w1 H1. mstep H ts p2 w2 H2. injection H as <- _ _. constructor; [by apply probe_cases in H1 as [? _]|by eapply IH].
Qed.

Lemma candidates_not_ready snapshot t : t ∈ candidates snapshot -> t_ready t = false.
Proof.
  intros H. unfold candidates in H. rewrite merge_sort_Permutation in H. apply list_elem_of_omap in H as (c & _ & H).
  unfold candidate in H. destruct (negb _); [done|]. destruct (id_of c); [|done]. by injection H as <-.
Qed.

(** The target that is resolved is the only candidate of its name, and it was found ready. *)
Lemma discover_resolve requested timeout (p : Psh) w targets p' w' target id :
  discover_for rpc (Some requested) timeout p w = (Ok targets, p', w') -> resolve targets requested = Ok target -> t_executor_id target = Some id ->
  exists snapshot t0 caps status, List.filter (named requested) (candidates snapshot) = [t0] /\ t_executor_id t0 = Some id /\
    has_capability caps "clipboard.status" = true /\ has_capability caps "clipboard.write" = true /\ vindex status "ready" = VBool true /\
    pu_calls p' = pu_calls p ++ [("status", obj_of [], Ok snapshot); asked id "capability.list" caps; asked id "clipboard.status" status].
Proof.
  intros H Hr Hi. unfold discover_for in H. mstep H snapshot p1 w1 H1. apply pushed_call_cases in H1 as [_ E1].
  cbv zeta in H. set (l := List.filter _ (candidates snapshot)) in H. pose proof (probes_same _ _ _ _ _ _ _ H) as Hs.
  assert (Forall (fun t => named requested t = true) l) as Hl.
  { apply Forall_forall. intros t Ht. apply list_elem_of_In in Ht. unfold l in Ht. by apply filter_In in Ht as [_ Ht]. }
  assert (Forall (fun t => named requested t = true) targets) as Ht.
  { clear -Hs Hl. induction Hs as [|t t' l l' Hst _ IH]; [done|]. apply Forall_cons in Hl as [Hn Hl]. constructor; [by rewrite (same_named _ _ _ Hst)|by apply IH]. }
  unfold resolve in Hr. rewrite filter_keeps in Hr by done. destruct targets as [|t' [|]]; try done. destruct (t_ready t') eqn:Er; [|done]. injection Hr as ->.
  apply Forall2_cons_inv_r in Hs as (t0 & l0 & Hst & Hnil & El). apply Forall2_nil_inv_r in Hnil as ->. rewrite El in H. cbn [map_m] in H. mstep H t1 p2 w2 H2. mstep H ts p3 w3 H3.
  unfold ret in H, H3. injection H3 as <- <- <-. injection H as -> <- <-. apply probe_cases in H2 as [_ H2]. destruct Hst as [_ Hst].
  assert (t_ready t0 = false) as Hf.
  { apply (candidates_not_ready snapshot). apply list_elem_of_In. apply (filter_In (named requested) t0). change (In t0 l). rewrite El. by left. }
  destruct (H2 Hf Er) as (id' & caps & status & Hid & Ec & C1 & C2 & Cs). assert (id' = id) as -> by congruence.
  exists snapshot, t0, caps, status. split_and!; try done; try congruence. by rewrite Ec, E1, <- app_assoc.
Qed.

Lemma value_eqb_text v s : value_eqb v (VString s) = true -> v = VString s.
Proof. destruct v; cbn; try done. by intros ->%String.eqb_eq. Qed.

Lemma transfer_cases target id img resource owner token (p : Psh) w r p' w' :
  t_executor_id target = Some id ->
  transfer target (image_answer img) (send_image rpc resource owner token) p w = (r, p', w') ->
  exists params answer, pu_local p' = pu_local p /\
    pu_calls p' = pu_calls p ++ [("executor.call", write_params resource owner token id params, answer)] /\ carries_image params (image_answer img) /\
    forall v, r = Ok v -> exists response, answer = Ok response /\ vindex response "applied" = VBool true /\ vindex response "semanticDigest" = VString (digest_of img).
Proof.
  intros Hi H. unfold transfer in H. change (eq_str _ "image") with true in H. cbn [negb] in H.
  unfold bind at 1, now_ms in H. rewrite Hi in H.
  unfold bind at 1, lift at 1 in H. cbn [ok_or] in H. apply bind_cases in H as (r1 & p1 & w1 & H1 & H).
  match type of H1 with send_image _ _ _ _ _ ?x _ _ = _ => set (params := x) in * end.
  exists params, r1. unfold send_image in H1. apply pushed_call_cases in H1 as [L1 E1].
  assert (carries_image params (image_answer img)) as Hc by (split; reflexivity).
  destruct r1 as [response|e]; [|destruct H as (-> & -> & _); by split_and!].
  destruct (_ || _) eqn:Eb in H; injection H as <- <- <-; split_and!; try done.
  intros v _. exists response. apply orb_false_iff in Eb as [Ea%negb_false_iff Ed%negb_false_iff]. apply eq_bool_spec in Ea.
  change (vindex (image_answer img) "semanticDigest") with (VString (digest_of img)) in Ed. by apply value_eqb_text in Ed.
Qed.

(** What a push that writes an image has called, and in which order: the nodes; the capabilities and the state of the executor; the
    lease of its clipboard; the write under that lease; the release. *)
Definition push_calls (snapshot caps status lease params : Value) (id owner : string) (answer released : result string Value)
    : list (string * Value * result string Value) :=
  let resource := "clipboard:" +:+ id in
  [("status", obj_of [], Ok snapshot); asked id "capability.list" caps; asked id "clipboard.status" status;
   ("lease.acquire", acquire_params resource owner, Ok lease);
   ("executor.call", write_params resource owner (vindex lease "token") id params, answer);
   ("lease.release", release_params resource owner (vindex lease "token"), released)].

End Safety.

(** ** A concrete transfer *)

(** Base 64 on texts, as the codec of peer frames has it *)
Definition sample_encode (s : string) : string := string_of_list_ascii (base64 (list_ascii_of_string s)).
Definition sample_decode (s : string) : option string := option_map string_of_list_ascii (unbase64 (list_ascii_of_string s)).

Lemma sample_decode_encode s : sample_decode (sample_encode s) = Some s.
Proof.
  unfold sample_decode, sample_encode. rewrite list_ascii_of_string_of_list_ascii, unbase64_base64. cbn. by rewrite string_of_list_ascii_of_string.
Qed.
Lemma string_of_length l : String.length (string_of_list_ascii l) = length l.
Proof. induction l as [|c l IH]; cbn; [done|by rewrite IH]. Qed.
Lemma sample_encode_length s : str_len (sample_encode s) = ceil_div (str_len s) 3 * 4.
Proof.
  unfold sample_encode, str_len. rewrite string_of_length. pose proof (base64_len (list_ascii_of_string s)) as H. unfold Framing.len, Framing.div_ceil in H.
  rewrite H. unfold ceil_div. f_equal. assert (length (list_ascii_of_string s) = String.length s) as ->; [|done].
  rewrite <- (string_of_list_ascii_of_string s) at 2. by rewrite string_of_length.
Qed.

(** A native clipboard: the image it holds *)
Definition n_connect : M (option Image) ClipboardError unit := ret tt.
Definition n_get : M (option Image) ClipboardError Image := let* o := gets (fun s => s) in lift (ok_or o ContentNotAvailable).
Definition n_set (img : Image) : M (option Image) ClipboardError unit := modify (fun _ => Some img).
Definition plain_hash (s : string) : string := s.
Definition one_pixel : Image := mkImage 1 1 "abcd".

(** The fabric: one controller with one executor beside it, which serves [clipboard.write] on its own clipboard *)
Definition peer_endpoint_json (socket : string) : Value := obj_of [("transport", VString "local"); ("socket", VString socket)].
Definition snapshot_json : Value :=
  obj_of [("controllers", VArray [obj_of [("id", VString "mac"); ("health", VString "ready"); ("endpoint", peer_endpoint_json "/p/controller.sock")]]);
          ("executors", VArray [obj_of [("id", VString "mac-native"); ("health", VString "ready"); ("endpoint", peer_endpoint_json "/p/executor.sock")]])].
Definition capabilities_json : Value := VArray [obj_of [("name", VString "clipboard.status")]; obj_of [("name", VString "clipboard.write")]].
Definition sample_rpc (action : string) (params : Value) (_ : Z) : M (Service (Native := option Image)) string Value :=
  if String.eqb action "status" then ret snapshot_json
  else if String.eqb action "executor.call" then
    if eq_str (vindex params "action") "capability.list" then ret capabilities_json
    else if eq_str (vindex params "action") "clipboard.status" then with_err err_code (clipboard_status n_connect None)
    else with_err err_code (executor_clipboard_write sample_decode plain_hash n_connect n_set (vindex params "params"))
  else ret (obj_of [("token", VString "t")]).
Definition sample_user : Push (Native := option Image) (Net := Service (Native := option Image)) := mkPush (mkService false (Some one_pixel)) (mkService false None) [].
Local Abbreviation sample_push := (push_image sample_encode plain_hash n_connect n_get sample_rpc "mac" sample_user (sample_world 0)).

(** The destination holds the image. *)
Lemma sample_push_delivers : is_ok sample_push.1.1 = true /\ cs_native (pu_net sample_push.1.2) = Some one_pixel.
Proof. vm_compute. done. Qed.


Definition sample_write_params : Value :=
  obj_of [("content", obj_of [("kind", VString "image"); ("width", vu64 1); ("height", vu64 1); ("rgbaBase64", VString (sample_encode "abcd"))]);
          ("semanticDigest", VString (digest_of plain_hash one_pixel))].

Lemma unsigned_object m :
  forallb (fun kv => match as_u64 kv.2 with Some n => 0 <=? n | None => true end) m = true -> unsigned (VObject m).
Proof.
  intros H k n. unfold vindex, vget. induction m as [|[k' v] m IH]; cbn [obj_get]; [done|]. cbn [forallb snd] in H. apply andb_true_iff in H as [Hv H].
  destruct (String.eqb k k'); [|by apply IH]. intros Hn. rewrite Hn in Hv. by apply Z.leb_le.
Qed.

Lemma clipboard_write_checked_witness :
  let run := clipboard_write sample_decode plain_hash n_connect n_set sample_write_params 4 (mkService false None) (sample_world 0) in
  exists img, decode_image sample_decode plain_hash sample_write_params 4 = Ok (img, digest_of plain_hash img) /\ proper img 4.
Proof.
  intros run. destruct run as [[r s'] w'] eqn:H. unfold run in H.
  apply (clipboard_write_checked sample_decode plain_hash n_connect n_set) in H as [(e & He & _)|(img & Hd & Hp & _)].
  - exfalso. vm_compute in He. discriminate.
  - exists img. split; [exact Hd|exact Hp].
  - intros raw Hr. injection Hr as <-. apply unsigned_object. vm_compute. reflexivity.
Defined.

Lemma read_then_write_is_identity_witness :
  let run := clipboard_read sample_encode plain_hash n_connect n_get 4 (mkService false (Some one_pixel)) (sample_world 0) in
  run.1.1 = Ok (image_answer sample_encode plain_hash one_pixel) /\
  exists img, str_len (im_bytes img) = im_width img * im_height img * 4 -> 0 <= im_width img -> 0 <= im_height img -> str_len (im_bytes img) <= 4 ->
    decode_image sample_decode plain_hash sample_write_params 4 = Ok (img, digest_of plain_hash img).
Proof.
  intros run. assert (run.1.1 = Ok (image_answer sample_encode plain_hash one_pixel)) as E by (vm_compute; reflexivity). split; [exact E|].
  destruct run as [[r s'] w'] eqn:H. cbn [fst snd] in E. subst r. unfold run in H.
  destruct (read_then_write_is_identity sample_encode sample_decode plain_hash n_connect n_get sample_decode_encode sample_encode_length 4 4 _ _ _ _ _ sample_write_params H)
    as (img & n & w1 & n' & w2 & _ & Hd); [split; vm_compute; reflexivity|].
  exists img. intros El Hw Hh Hm. exact (Hd Hw Hh El Hm).
Defined.
