(* ===== verification/ComputerUse.v ===== *)
(** * The adapter of the computer-use host ([computer_use.rs] of the crate machine-fabric-runtime)

    One host process serves one session. A call sends one frame over a local
    connection and reads one frame; a failed transport drops the host. The Unix
    branch. Connections and processes are an interface; locating the package and
    spawning the host, up to the loop that waits for its connection, are a
    parameter. *)
From Stdlib Require Import Ascii.
From stdpp Require Import base gmap strings list pretty.
From S2P Require Import Prelude Json Protocol Desktop DesktopDispatch Utf8.
Open Scope Z_scope.
Open Scope fabric_scope.

Definition MAX_RESPONSE : Z := 16777216.

Definition unavailable_host (text : string) : RpcError := rpc_error "COMPUTER_USE_UNAVAILABLE" text.
Definition newline_char : ascii := "010"%char.
Definition last_byte (s : string) : option ascii := String.get (String.length s - 1) s.

(** [error.details[key] = value] of details that are an object, after [json!({})] where they are not *)
Definition set_detail (key : string) (value : Value) (e : RpcError) : RpcError :=
  let details := if is_object (err_details e) then err_details e else obj_of [] in
  mkRpcError (err_code e) (err_message e) (err_retryable e) (default details (vindex_set key value details)).

(** ** The failure of a tool *)

Definition label_byte (c : ascii) : bool := is_ascii_alphanumeric c || Ascii.eqb c "_"%char || Ascii.eqb c "."%char || Ascii.eqb c "-"%char.
Definition good_label (label : string) : bool := negb (str_is_empty label) && (str_len label <=? 80) && bytes_all label_byte label.

Definition kept_numbers (d : Value) : list (string * Value) :=
  omap (fun key => match vget key d ≫= as_u64 with Some n => Some (key, vu64 n) | None => None end)
    ["messageBytes"; "causeCount"; "diagnosticMessageBytes"].
Definition kept_flags (d : Value) : list (string * Value) :=
  omap (fun key => match vget key d ≫= as_bool with Some b => Some (key, VBool b) | None => None end)
    ["causeChainTruncated"; "diagnosticWritten"].
Definition kept_labels (d : Value) : list (string * Value) :=
  omap (fun key => match vget key d ≫= as_str with Some s => if good_label s then Some (key, VString s) else None | None => None end)
    ["code"; "name"].
Definition kept_indicators (d : Value) : list string :=
  List.filter (fun word => match vget "indicators" d ≫= as_array with
                           | Some values => existsb (fun v => eq_str v word) values
                           | None => false
                           end) ["timeout"; "timed out"; "abort"].

Definition launch_complete (method : string) (d : Value) : bool :=
  String.eqb method "launch_browser" && is_value (vget "launchFailure" d) launch_failure_receipt.
Definition kept_receipts (method : string) (d : Value) : list (string * Value) :=
  if (String.eqb method "navigate_browser" || launch_complete method d) && is_value (vget "navigationFailure" d) navigation_failure_receipt
  then ("navigationFailure", navigation_failure_receipt)
         :: (if launch_complete method d then [("launchFailure", launch_failure_receipt)] else [])
  else [].

Definition bounded_diagnostics (method : string) (d : Value) : Value :=
  obj_of (kept_numbers d ++ kept_flags d ++ kept_labels d ++ [("indicators", VArray (VString <$> kept_indicators d))] ++ kept_receipts method d).

Definition host_tool_failure (response : Value) (request_id method : string) : RpcError :=
  let error := mkRpcError "COMPUTER_USE_TOOL_FAILED" (default "extension tool failed" (as_str (vindex response "error"))) false
    (obj_of [("hostResponseReceived", VBool true); ("hostRequestId", VString request_id); ("tool", VString method);
             ("operationOutcome", VString "unknown")]) in
  match vget "errorDetails" response with
  | Some d => if is_object d then set_detail "hostDiagnostics" (bounded_diagnostics method d) error else error
  | None => error
  end.

(** ** The service *)

Record Host := mkHost { h_session : string; h_identity : Value; h_connection : Z; h_child : option Z }.

(** [accept] without blocking *)
Inductive AcceptError := WouldBlock | AcceptFailed (text : string).
(** [try_wait]: still running, exited, or an error *)
Inductive ChildState := ChildRunning | ChildExited (details : Value) | ChildUnavailable.

Section Service.
Context (to_vec : Value -> option string) (from_slice : string -> option Value).
Context {Os : Type}.
(** Up to the spawned process: the token of the handshake file, and the process *)
Context (prepare : string -> M Os RpcError (string * option Z)).
Context (accept : M Os AcceptError Z).
(** [reader.take(MAX_RESPONSE + 1).read_until(newline)], and [write_all] *)
Context (read_until : Z -> M Os string string) (write_all : Z -> string -> M Os string unit).
Context (try_wait : Z -> Os -> ChildState).
(** Removing the handshake file, and dropping a host: shutting its connection, killing and reaping its process *)
Context (remove_handshake : Os -> Os) (drop_host : option Z -> option Z -> Os -> Os).

(** [cu_sent] are the frames that were written, with their connections. *)
Record Service := mkService { cu_host : option Host; cu_os : Os; cu_sent : list (Z * Value) }.
Definition on_os {E A} (m : M Os E A) : M Service E A := zoom cu_os (fun o s => mkService (cu_host s) o (cu_sent s)) m.
Definition put_host (h : option Host) : M Service RpcError unit := modify (fun s => mkService h (cu_os s) (cu_sent s)).
(** [*guard = None] *)
Definition retire : M Service RpcError unit :=
  modify (fun s => mkService None (match cu_host s with Some h => drop_host (Some (h_connection h)) (h_child h) (cu_os s) | None => cu_os s end) (cu_sent s)).

Definition frame_error (bytes : string) : option string :=
  if str_is_empty bytes then Some "host_eof"
  else if MAX_RESPONSE <? str_len bytes then Some "response_limit_exceeded"
  else if negb (bool_decide (last_byte bytes = Some newline_char)) then Some "truncated_response"
  else None.

Definition read_frame (connection : Z) : M Service RpcError Value :=
  let* bytes := with_err unavailable_host (on_os (read_until connection)) in
  match frame_error bytes with
  | Some reason =>
      fail (mkRpcError "COMPUTER_USE_UNAVAILABLE" (reason +:+ "; operation outcome may be unknown") false
              (obj_of [("transportReason", VString reason); ("receivedBytes", vu64 (str_len bytes)); ("maxResponseBytes", vu64 MAX_RESPONSE);
                       ("operationOutcome", VString "unknown")]))
  | None => lift (ok_or (from_slice bytes) (unavailable_host ""))
  end.

(** The loop of [Host::start]: the first connection that shows the token. A connection whose timeouts cannot be set before it has shown
    anything is one that was not accepted. *)
Fixpoint accept_loop (fuel : nat) (token : string) (child : option Z) (deadline : Z) : M Service RpcError Z :=
  match fuel with
  | O => fail (unavailable_host "")
  | S fuel' =>
      let* accepted := attempt (on_os accept) in
      let* shown :=
        match accepted with
        | Ok connection =>
            let* hello := attempt (read_frame connection) in
            ret (match hello with Ok hello => if eq_str (vindex hello "token") token then Some connection else None | Err _ => None end)
        | Err WouldBlock => ret None
        | Err (AcceptFailed text) => fail (unavailable_host text)
        end in
      match shown with
      | Some connection =>
          let* timeout_set := io_outcome in
          if timeout_set : bool then ret connection else fail (unavailable_host "set_read_timeout")
      | None =>
          let* now := instant_now in
          let* os := gets cu_os in
          if (deadline <=? now) || match child with Some c => match try_wait c os with ChildExited _ => true | _ => false end | None => false end
          then fail (unavailable_host "computer-use host did not connect; check Node installation and interactive desktop session")
          else accept_loop fuel' token child deadline
      end
  end.

(** [Host::start] *)
Definition host_start (fuel : nat) (session : string) : M Service RpcError Host :=
  let* prepared := on_os (prepare session) in
  let '(token, child) := prepared in
  let* now := instant_now in
  let* result := attempt (accept_loop fuel token child (now + 30000)) in
  modify (fun s => mkService (cu_host s) (remove_handshake (cu_os s)) (cu_sent s)) ;;
  match result with
  | Ok connection => ret (mkHost session VNull connection child)
  | Err error => modify (fun s => mkService (cu_host s) (drop_host None child (cu_os s)) (cu_sent s)) ;; fail error
  end.

(** [retire_exited_host] *)
Definition retire_exited_host : M Service RpcError unit :=
  let* host := gets cu_host in
  let* os := gets cu_os in
  match host ≫= h_child with
  | Some c => match try_wait c os with ChildExited _ => retire | _ => ret tt end
  | None => ret tt
  end.

Definition session_of (params : Value) : string := default "discovery" (as_str (vindex params "sessionId")).
Definition method_of (params : Value) (tools_only : bool) : result RpcError string :=
  if tools_only then Ok "tools" else ok_or (as_str (vindex params "tool")) (rpc_error "INVALID_PARAMS" "tool is required").

Definition request_of (id method : string) (params : Value) : Value :=
  obj_of [("id", VString id); ("method", VString method); ("args", default (obj_of []) (vget "arguments" params))].

(** One exchange with the host *)
Definition exchange (host : Host) (id method : string) (params : Value) (tools_only : bool) : M Service RpcError Value :=
  let request := request_of id method params in
  let* bytes := lift (ok_or (to_vec request) (unavailable_host "")) in
  if 1048576 <? str_len bytes then fail (rpc_error "INVALID_PARAMS" "request exceeds 1 MiB")
  else
    modify (fun s => mkService (cu_host s) (cu_os s) (cu_sent s ++ [(h_connection host, request)])) ;;
    with_err unavailable_host (on_os (write_all (h_connection host) (bytes +:+ String newline_char ""))) ;;
    let* response := read_frame (h_connection host) in
    let host := match vget "identity" response with
                | Some identity => mkHost (h_session host) identity (h_connection host) (h_child host)
                | None => host
                end in
    put_host (Some host) ;;
    if negb (eq_str (vindex response "id") id)
    then fail (unavailable_host (default "host response ID mismatch" (as_str (vindex response "error"))))
    else if negb (eq_bool (vindex response "ok") true) then fail (host_tool_failure response id method)
    else
      ret (if tools_only then obj_of [("tools", vindex response "result"); ("hostIdentity", h_identity host)]
           else if String.eqb method "close" then obj_of [("closed", VBool true)]
           else vindex response "result").

Definition is_unavailable (e : RpcError) : bool := String.eqb (err_code e) "COMPUTER_USE_UNAVAILABLE".

(** What is observed of the host after an error of the transport *)
Definition observed (host : option Host) (os : Os) (e : RpcError) : RpcError :=
  if is_unavailable e then
    set_detail "hostExit"
      (match host ≫= h_child with
       | None => obj_of [("state", VString "untracked")]
       | Some c => match try_wait c os with
                   | ChildRunning => obj_of [("state", VString "running")]
                   | ChildExited details => details
                   | ChildUnavailable => obj_of [("state", VString "unavailable")]
                   end
       end) e
  else e.

(** [ComputerUseService::call] *)
Definition call (fuel : nat) (params : Value) (tools_only : bool) : M Service RpcError Value :=
  let session := session_of params in
  if str_is_empty session || (256 <? str_len session) then fail (rpc_error "INVALID_PARAMS" "sessionId must be 1..256 bytes")
  else
    let* method := lift (method_of params tools_only) in
    retire_exited_host ;;
    let* host := gets cu_host in
    (match host with
     | Some h => if negb tools_only && negb (String.eqb (h_session h) session) then retire else ret tt
     | None => ret tt
     end) ;;
    let* host := gets cu_host in
    let* host :=
      match host with
      | Some h => ret h
      | None => let* h := host_start fuel session in put_host (Some h) ;; ret h
      end in
    let* id := new_v4 in
    let* result := attempt (exchange host id method params tools_only) in
    let* os := gets cu_os in
    let* host := gets cu_host in
    let result := match result with Ok v => Ok v | Err e => Err (observed host os e) end in
    (if String.eqb method "close" || match result with Err e => is_unavailable e | Ok _ => false end then retire else ret tt) ;;
    lift result.

(** [ComputerUseService::close_existing] *)
Definition close_existing (fuel : nat) : M Service RpcError unit :=
  let* host := gets cu_host in
  match host with
  | Some h =>
      let* _ := call fuel (obj_of [("sessionId", VString (h_session h)); ("tool", VString "close")]) false in
      ret tt
  | None => ret tt
  end.
End Service.

(** ** Objects *)

Lemma obj_of_app l k v : obj_of (l ++ [(k, v)]) = match obj_of l with VObject m => VObject (obj_insert k v m) | x => x end.
Proof. unfold obj_of. by rewrite fold_left_app. Qed.

(** The last binding of a key counts. *)
Lemma vget_obj_of k l : vget k (obj_of l) = snd <$> last (List.filter (fun kv => String.eqb k kv.1) l).
Proof.
  induction l as [|[k' v] l IH] using rev_ind; [done|]. rewrite obj_of_app, List.filter_app. unfold obj_of in *. cbn [vget] in *. cbn [List.filter fst].
  destruct (String.eqb_spec k k') as [->|Hne]; [by rewrite obj_get_insert_eq, last_snoc|]. rewrite obj_get_insert_ne by done. by rewrite app_nil_r.
Qed.

(** An absent key of a list that keeps keys of a given list *)
Lemma omap_keys (f : string -> option (string * Value)) keys k :
  (forall key kv, f key = Some kv -> kv.1 = key) -> existsb (String.eqb k) keys = false ->
  List.filter (fun kv => String.eqb k kv.1) (omap f keys) = [].
Proof.
  intros Hf. induction keys as [|key keys IH]; [done|]. cbn. intros [Hk H]%orb_false_iff. destruct (f key) as [kv|] eqn:E; [|by apply IH].
  cbn. rewrite (Hf _ _ E), Hk. by apply IH.
Qed.

Lemma diagnostics_field method d key :
  existsb (String.eqb key) ["messageBytes"; "causeCount"; "diagnosticMessageBytes"; "causeChainTruncated"; "diagnosticWritten"; "code"; "name"; "indicators"] = false ->
  vget key (bounded_diagnostics method d) = vget key (obj_of (kept_receipts method d)).
Proof.
  intros H. cbn in H. unfold bounded_diagnostics. rewrite !vget_obj_of, !List.filter_app. repeat (apply orb_false_iff in H as [? H]).
  assert (List.filter (fun kv => String.eqb key kv.1) (kept_numbers d) = []) as ->.
  { apply omap_keys; [intros ? ? Hk; repeat case_match; by simplify_eq|cbn; by repeat (apply orb_false_iff; split)]. }
  assert (List.filter (fun kv => String.eqb key kv.1) (kept_flags d) = []) as ->.
  { apply omap_keys; [intros ? ? Hk; repeat case_match; by simplify_eq|cbn; by repeat (apply orb_false_iff; split)]. }
  assert (List.filter (fun kv => String.eqb key kv.1) (kept_labels d) = []) as ->.
  { apply omap_keys; [intros ? ? Hk; repeat case_match; by simplify_eq|cbn; by repeat (apply orb_false_iff; split)]. }
  cbn [List.filter fst app]. by replace (String.eqb key "indicators") with false.
Qed.

(** ** Failures of tools and the quarantine of the desktop *)

(** The host returned the receipt of a failed navigation, and for a launch also that of the launch. *)
Definition has_receipt (response : Value) (method : string) : bool :=
  match vget "errorDetails" response with
  | Some d => is_object d && (String.eqb method "navigate_browser" || launch_complete method d) && is_value (vget "navigationFailure" d) navigation_failure_receipt
  | None => false
  end.

Lemma failure_fields response id method :
  err_code (host_tool_failure response id method) = "COMPUTER_USE_TOOL_FAILED" /\
  err_message (host_tool_failure response id method) = default "extension tool failed" (as_str (vindex response "error")) /\
  vget "hostResponseReceived" (err_details (host_tool_failure response id method)) = Some (VBool true) /\
  vget "tool" (err_details (host_tool_failure response id method)) = Some (VString method) /\
  vget "operationOutcome" (err_details (host_tool_failure response id method)) = Some (VString "unknown") /\
  vget "hostRequestId" (err_details (host_tool_failure response id method)) = Some (VString id) /\
  vget "hostDiagnostics" (err_details (host_tool_failure response id method)) =
    match vget "errorDetails" response with Some d => if is_object d then Some (bounded_diagnostics method d) else None | None => None end.
Proof. unfold host_tool_failure. destruct (vget "errorDetails" response) as [d|]; [destruct (is_object d)|]; by split_and!. Qed.

Lemma pointer_two a b v : pointer [a; b] v = match vget a v with Some x => vget b x | None => None end.
Proof. cbn. destruct (vget a v) as [x|]; [|done]. by destruct (vget b x). Qed.

Lemma receipt_classified uuid_parses response id method :
  uuid_parses id = true ->
  returned_cdp_navigation_failure uuid_parses "computer-use.call" (Some method) (host_tool_failure response id method) = has_receipt response method.
Proof.
  intros Hu. destruct (failure_fields response id method) as (Ec & _ & Er & Et & Eo & Ei & Ed). unfold returned_cdp_navigation_failure.
  rewrite Ec, Er, Et, Eo, Ei, !pointer_two, Ed. cbn [as_str]. rewrite Hu, bool_decide_true by done. cbn [String.eqb Ascii.eqb Bool.eqb andb].
  change (is_value (Some (VBool true)) (VBool true)) with true. change (is_value (Some (VString "unknown")) (VString "unknown")) with true. cbn [andb].
  unfold has_receipt. destruct (vget "errorDetails" response) as [d|]; [destruct (is_object d) eqn:Eobj|]; cbn [andb].
  - rewrite !diagnostics_field by reflexivity. unfold kept_receipts.
    destruct (String.eqb_spec method "navigate_browser") as [->|Hn].
    + cbn [orb andb]. change (launch_complete "navigate_browser" d) with false. destruct (is_value (vget "navigationFailure" d) navigation_failure_receipt) eqn:En; by vm_compute.
    + cbn [orb]. unfold launch_complete. destruct (String.eqb_spec method "launch_browser") as [->|Hl]; [|done]. cbn [andb].
      destruct (is_value (vget "launchFailure" d) launch_failure_receipt); cbn [andb]; [|by vm_compute].
      destruct (is_value (vget "navigationFailure" d) navigation_failure_receipt); by vm_compute.
  - destruct (String.eqb method "navigate_browser"); [done|]. by destruct (String.eqb method "launch_browser").
  - destruct (String.eqb method "navigate_browser"); [done|]. by destruct (String.eqb method "launch_browser").
Qed.

(** the adapter of the host and the desktop queue agree on a failed tool: after the host answered that a tool failed, the outcome of the desktop action is uncertain, so that the desktop is blocked, exactly when the message of the host speaks of a timeout or an abort, the tool is not a poll that only reads, and the host did not return the whole receipt of a failed navigation; nothing else that the host says about the failure exempts it. *)
Theorem tool_failure_quarantines uuid_parses response id method :
  uuid_parses id = true ->
  desktop_dispatch_uncertain uuid_parses "computer-use.call" (Some method) (Err (host_tool_failure response id method)) =
  negb (one_of ["observe_ui"; "wait_for"] method) && negb (has_receipt response method)
  && (let message := to_ascii_lowercase (default "extension tool failed" (as_str (vindex response "error"))) in
      str_contains "timeout" message || str_contains "timed out" message || str_contains "abort" message).
Proof.
  intros Hu. destruct (failure_fields response id method) as (Ec & Em & _). unfold desktop_dispatch_uncertain.
  rewrite (receipt_classified _ _ _ _ Hu), Ec, Em. unfold read_only_poll. cbn [String.eqb Ascii.eqb Bool.eqb orb andb].
  replace (str_contains "TIMEOUT" "COMPUTER_USE_TOOL_FAILED") with false by reflexivity. done.
Qed.

(** ** One frame per call *)

Section Calls.
Context (to_vec : Value -> option string) (from_slice : string -> option Value).
Context {Os : Type}.
Context (prepare : string -> M Os RpcError (string * option Z)) (accept : M Os AcceptError Z).
Context (read_until : Z -> M Os string string) (write_all : Z -> string -> M Os string unit).
Context (try_wait : Z -> Os -> ChildState) (remove_handshake : Os -> Os) (drop_host : option Z -> option Z -> Os -> Os).
Local Abbreviation Srv := (Service (Os := Os)).
Local Abbreviation call := (call to_vec from_slice prepare accept read_until write_all try_wait remove_handshake drop_host).
Local Abbreviation retire := (retire drop_host).
Local Abbreviation read_frame := (read_frame from_slice read_until).
Local Abbreviation exchange := (exchange to_vec from_slice read_until write_all).

(** The step writes no frame. *)
Definition unsent {A} (m : M Srv RpcError A) : Prop := forall s w r s' w', m s w = (r, s', w') -> cu_sent s' = cu_sent s.

Lemma unsent_bind {A B} (m : M Srv RpcError A) (k : A -> M Srv RpcError B) : unsent m -> (forall a, unsent (k a)) -> unsent (bind m k).
Proof.
  intros Hm Hk s w r s' w' (r1 & s1 & w1 & H1 & H)%bind_cases. apply Hm in H1. destruct r1 as [a|e].
  - apply Hk in H. congruence.
  - destruct H as (_ & -> & _). done.
Qed.
Lemma unsent_ret {A} (a : A) : unsent (ret a).
Proof. by intros s w r s' w' [= <- <- <-]. Qed.
Lemma unsent_fail {A} e : unsent (A := A) (fail e).
Proof. by intros s w r s' w' [= <- <- <-]. Qed.
Lemma unsent_lift {A} (a : result RpcError A) : unsent (lift a).
Proof. by intros s w r s' w' [= <- <- <-]. Qed.
Lemma unsent_gets {A} (f : Srv -> A) : unsent (gets f).
Proof. by intros s w r s' w' [= <- <- <-]. Qed.
Lemma unsent_modify f : (forall s, cu_sent (f s) = cu_sent s) -> unsent (modify f).
Proof. intros Hf s w r s' w' [= <- <- <-]. apply Hf. Qed.
Lemma unsent_instant : unsent instant_now.
Proof. by intros s w r s' w' [= <- <- <-]. Qed.
Lemma unsent_io : unsent io_outcome.
Proof. by intros s w r s' w' [= <- <- <-]. Qed.
Lemma unsent_v4 : unsent new_v4.
Proof. by intros s w r s' w' [= <- <- <-]. Qed.
Lemma unsent_attempt {F A} (m : M Srv F A) : (forall s w r s' w', m s w = (r, s', w') -> cu_sent s' = cu_sent s) -> unsent (attempt m).
Proof. intros Hm s w r s' w' (r0 & -> & H)%attempt_cases. by eapply Hm. Qed.
Lemma unsent_os {E A} (m : M Os E A) (s : Srv) w r s' w' : on_os m s w = (r, s', w') -> cu_sent s' = cu_sent s.
Proof. unfold on_os, zoom. destruct (m (cu_os s) w) as [[r0 o0] w0]. by intros [= <- <- <-]. Qed.
Lemma unsent_with_err {E A} (f : E -> RpcError) (m : M Os E A) : unsent (with_err f (on_os m)).
Proof. intros s w r s' w' (r0 & H & ->)%with_err_cases. by eapply unsent_os. Qed.

Ltac unsent :=
  repeat first [ apply unsent_ret | apply unsent_fail | apply unsent_lift | apply unsent_gets | apply unsent_instant | apply unsent_v4 | apply unsent_io
               | apply unsent_with_err | apply unsent_modify; intros; by repeat case_match | apply unsent_os
               | apply unsent_attempt | apply unsent_bind; [|intros ?] | progress case_match ].

Lemma read_frame_unsent c : unsent (read_frame c).
Proof. unfold ComputerUse.read_frame. unsent. Qed.
Lemma retire_unsent : unsent retire.
Proof. apply unsent_modify. done. Qed.
Lemma accept_loop_unsent fuel token child deadline : unsent (accept_loop from_slice accept read_until try_wait fuel token child deadline).
Proof.
  induction fuel as [|fuel IH]; cbn [accept_loop]; [unsent|]. apply unsent_bind; [apply unsent_attempt, unsent_os|intros a].
  apply unsent_bind; [|intros o; unsent; exact IH].
  destruct a as [c|[]]; [apply unsent_bind; [apply unsent_attempt, read_frame_unsent|intros ?; unsent]|unsent|unsent].
Qed.
Lemma host_start_unsent fuel session :
  unsent (host_start from_slice prepare accept read_until try_wait remove_handshake drop_host fuel session).
Proof.
  unfold host_start. apply unsent_bind; [intros s w r s' w'; apply unsent_os|intros [token child]]. apply unsent_bind; [unsent|intros ?].
  apply unsent_bind; [apply unsent_attempt, accept_loop_unsent|intros ?]. unsent.
Qed.
Lemma retire_exited_unsent : unsent (retire_exited_host try_wait drop_host).
Proof.
  unfold retire_exited_host. apply unsent_bind; [unsent|intros ?]. apply unsent_bind; [unsent|intros ?]. repeat case_match; try apply retire_unsent; unsent.
Qed.

(** The answer of a response to [method] *)
Definition answers (response : Value) (id method : string) (tools_only : bool) (v : Value) : Prop :=
  vindex response "id" = VString id /\ vindex response "ok" = VBool true /\
  (tools_only = false -> method <> "close" -> v = vindex response "result").

(** A frame that was read from the connection *)
Definition received (connection : Z) (response : Value) : Prop :=
  exists os w1 os1 w2 bytes, read_until connection os w1 = (Ok bytes, os1, w2) /\ frame_error bytes = None /\ from_slice bytes = Some response.

Lemma exchange_cases host id method params tools_only (s : Srv) w r s' w' :
  exchange host id method params tools_only s w = (r, s', w') ->
  (cu_sent s' = cu_sent s /\ cu_host s' = cu_host s /\ exists e, r = Err e) \/
  (cu_sent s' = cu_sent s ++ [(h_connection host, request_of id method params)] /\
   (cu_host s' = cu_host s /\ (exists e, r = Err e) \/ exists identity, cu_host s' = Some (mkHost (h_session host) identity (h_connection host) (h_child host))) /\
   forall v, r = Ok v -> exists response, received (h_connection host) response /\ answers response id method tools_only v).
Proof.
  intros H. unfold ComputerUse.exchange in H. destruct (to_vec (request_of id method params)) as [bytes|]; [|left; injection H as <- <- <-; eauto].
  unfold bind at 1, lift at 1 in H. cbn [ok_or] in H. destruct (1048576 <? str_len bytes); [left; injection H as <- <- <-; eauto|].
  right. unfold bind at 1, modify at 1 in H. apply bind_cases in H as (r1 & s1 & w1 & H1 & H).
  assert (cu_sent s1 = cu_sent s ++ [(h_connection host, request_of id method params)] /\ cu_host s1 = cu_host s) as [E1 F1].
  { apply with_err_cases in H1 as (r0 & H1 & _). unfold on_os, zoom in H1. destruct (write_all _ _ _ w) as [[r2 o2] w2]. by injection H1 as _ <- _. }
  destruct r1; [|destruct H as (-> & -> & _); split_and!; [done|left; eauto|done]].
  apply bind_cases in H as (r2 & s2 & w2 & H2 & H). pose proof (read_frame_unsent _ _ _ _ _ _ H2) as E2.
  assert (cu_host s2 = cu_host s1 /\ forall response, r2 = Ok response -> received (h_connection host) response) as [F2 Hrec].
  { unfold ComputerUse.read_frame in H2. apply bind_cases in H2 as (r3 & s3 & w3 & H3 & H2). apply with_err_cases in H3 as (r4 & H3 & ->).
    unfold on_os, zoom in H3. destruct (read_until (h_connection host) (cu_os s1) w1) as [[r5 o5] w5] eqn:E5. injection H3 as <- <- <-.
    destruct r5 as [b|e]; cbn [map_err] in H2; [|by destruct H2 as (-> & -> & _)]. destruct (frame_error b) eqn:Ef; [by injection H2 as <- <- _|].
    unfold lift in H2. injection H2 as <- <- _. split; [done|]. intros response Hr%ok_or_ok. by exists (cu_os s1), w1, o5, w5, b. }
  destruct r2 as [response|e]; [|destruct H as (-> & -> & _); split_and!; [congruence|left; split; [congruence|eauto]|done]].
  set (host' := match vget "identity" response with Some identity => mkHost (h_session host) identity (h_connection host) (h_child host) | None => host end) in *.
  assert (exists identity, host' = mkHost (h_session host) identity (h_connection host) (h_child host)) as [identity Eh].
  { unfold host'. destruct (vget "identity" response); [eauto|]. exists (h_identity host). by destruct host. }
  unfold bind at 1, put_host at 1, modify at 1 in H.
  destruct (eq_str (vindex response "id") id) eqn:Eid; cbn [negb] in H; [|injection H as <- <- <-; split_and!; [cbn; congruence|right; exists identity; cbn; congruence|done]].
  destruct (eq_bool (vindex response "ok") true) eqn:Eok; cbn [negb] in H; [|injection H as <- <- <-; split_and!; [cbn; congruence|right; exists identity; cbn; congruence|done]].
  apply eq_str_spec in Eid. apply eq_bool_spec in Eok. injection H as <- <- <-. split_and!; [cbn; congruence|right; exists identity; cbn; congruence|].
  intros v [= <-]. exists response. split; [by apply Hrec|]. split_and!; [done|done|]. intros -> Hm. by rewrite (proj2 (String.eqb_neq _ _) Hm).
Qed.

Lemma retire_run (s : Srv) w r s' w' : retire s w = (r, s', w') -> cu_host s' = None /\ cu_sent s' = cu_sent s.
Proof. by intros [= <- <- <-]. Qed.

(** C31: a call of the host writes at most one frame and never replays it: the call fails without having written one, or it wrote one request, with an identifier drawn for it, to the host it has; a success is the result of a frame of that host with this identifier that says that the tool succeeded. After a close, and after every failure of the transport, which leaves the outcome unknown, the host is gone, so that a late response can never be taken for the answer of a later request; and a host that is kept after a call of a tool is one of the session of the request. *)
Theorem call_never_replays fuel params tools_only (s : Srv) w r s' w' :
  call fuel params tools_only s w = (r, s', w') ->
  (cu_sent s' = cu_sent s /\ exists e, r = Err e) \/
  exists connection id method,
    method_of params tools_only = Ok method /\ cu_sent s' = cu_sent s ++ [(connection, request_of id method params)] /\
    (forall v, r = Ok v -> exists response, received connection response /\ answers response id method tools_only v) /\
    (method = "close" -> cu_host s' = None) /\ (forall e, r = Err e -> is_unavailable e = true -> cu_host s' = None) /\
    (forall h, cu_host s' = Some h -> tools_only = false -> h_session h = session_of params).
Proof.
  intros H. unfold ComputerUse.call in H. destruct (_ || _); [left; injection H as <- <- <-; eauto|].
  destruct (method_of params tools_only) as [method|e] eqn:Em; [|left; injection H as <- <- <-; eauto]. unfold bind at 1, lift at 1 in H.
  apply bind_cases in H as (r1 & s1 & w1 & H1 & H). apply retire_exited_unsent in H1. destruct r1; [|left; destruct H as (-> & -> & _); eauto].
  unfold bind at 1, gets at 1 in H. apply bind_cases in H as (r2 & s2 & w2 & H2 & H).
  assert (cu_sent s2 = cu_sent s1 /\ forall h, cu_host s2 = Some h -> tools_only = false -> h_session h = session_of params) as [E2 Hses].
  { destruct (cu_host s1) as [h|] eqn:Eh; [|injection H2 as <- <- <-; split; [done|intros h; by rewrite Eh]].
    destruct (negb tools_only && negb (String.eqb (h_session h) (session_of params))) eqn:Eb; [by apply retire_run in H2 as [-> ->]|].
    injection H2 as <- <- <-. split; [done|]. intros h0 E0 ->. rewrite Eh in E0. injection E0 as <-. cbn in Eb. by apply negb_false_iff, String.eqb_eq in Eb. }
  destruct r2; [|left; destruct H as (-> & -> & _); split; [congruence|eauto]].
  unfold bind at 1, gets at 1 in H. apply bind_cases in H as (r3 & s3 & w3 & H3 & H).
  assert (cu_sent s3 = cu_sent s2 /\ forall h, r3 = Ok h -> cu_host s3 = Some h /\ (tools_only = false -> h_session h = session_of params)) as [E3 Hhost].
  { destruct (cu_host s2) as [h|] eqn:Eh; [injection H3 as <- <- <-; split; [done|]; intros h0 [= <-]; split; [done|by apply Hses]|].
    apply bind_cases in H3 as (r4 & s4 & w4 & H4 & H3). pose proof (host_start_unsent _ _ _ _ _ _ _ H4) as E4.
    destruct r4 as [h|e]; [|destruct H3 as (-> & -> & _); by split]. unfold bind, put_host, modify, ret in H3. injection H3 as <- <- <-. split; [done|].
    intros h0 [= <-]. split; [done|]. intros _. unfold host_start in H4. mstep H4 p s5 w5 H5. destruct p as [token child]. mstep H4 now s6 w6 H6. mstep H4 res s7 w7 H7.
    mstep H4 u8 s8 w8 H8. destruct res as [c|e]; [by injection H4 as <- _ _|]. by mstep H4 u9 s9 w9 H9. }
  destruct r3 as [host|e]; [|left; destruct H as (-> & -> & _); split; [congruence|eauto]]. destruct (Hhost host eq_refl) as [Eh Hs]. clear Hhost.
  unfold bind at 1, new_v4 at 1 in H. set (id := peek (w_uuid w3)) in *. apply bind_cases in H as (r4 & s4 & w4 & H4 & H).
  apply attempt_cases in H4 as (result & -> & H4). unfold bind at 1, gets at 1 in H. unfold bind at 1, gets at 1 in H. cbv zeta in H.
  set (result' := match result with Ok v => Ok v | Err e => Err (observed try_wait (cu_host s4) (cu_os s4) e) end) in *.
  apply bind_cases in H as (r5 & s5 & w5 & H5 & H).
  assert (cu_sent s5 = cu_sent s4 /\ r5 = Ok tt /\ (cu_host s5 = None \/
    (cu_host s5 = cu_host s4 /\ method <> "close" /\ forall e, result' = Err e -> is_unavailable e = false))) as (E5 & -> & Hh5).
  { destruct (String.eqb method "close" || match result' with Err e => is_unavailable e | Ok _ => false end) eqn:Ek.
    - pose proof (retire_run _ _ _ _ _ H5) as [? ?]. injection H5 as <- _ _. split_and!; [done|done|by left].
    - injection H5 as <- <- <-. apply orb_false_iff in Ek as [Ec Eu]. split_and!; [done|done|right]. split_and!; [done|by apply String.eqb_neq|].
      intros e He. by rewrite He in Eu. }
  unfold lift in H. injection H as <- <- _. apply exchange_cases in H4 as [(E4 & F4 & e & ->)|(E4 & F4 & Hv)].
  - left. split; [congruence|eauto].
  - right. exists (h_connection host), id, method. split_and!; [done|congruence| | | |].
    + intros v Hr. destruct result as [v0|e]; [|done]. injection Hr as <-. by apply Hv.
    + intros ->. by destruct Hh5 as [?|(_ & ? & _)].
    + intros e Hr Hu. destruct Hh5 as [?|(_ & _ & Hn)]; [done|]. rewrite (Hn e Hr) in Hu. done.
    + intros h Hh Ht. destruct Hh5 as [Hn|(E & _)]; [congruence|]. rewrite E in Hh. destruct F4 as [[F4 _]|[identity F4]]; rewrite F4 in Hh.
      * rewrite Eh in Hh. injection Hh as <-. by apply Hs.
      * injection Hh as <-. cbn [h_session]. by apply Hs.
Qed.
End Calls.

(** ** A concrete host *)

Definition hello_text : string := "hello" +:+ String newline_char "".
Definition answer_text : string := "answer" +:+ String newline_char "".
Definition host_parse (s : string) : option Value :=
  if String.eqb s hello_text then Some (obj_of [("token", VString "t")])
  else Some (obj_of [("id", VString ""); ("ok", VBool true); ("result", VString "seen")]).
(** The frames that the host will send *)
Definition host_read (_ : Z) : M (list string) string string :=
  let* l := gets (fun l => l) in
  match l with [] => fail "closed" | x :: l' => modify (fun _ => l') ;; ret x end.
Definition host_call (s : Service (Os := list string)) :=
  call (fun _ => Some "{}") host_parse (fun _ => ret ("t", None)) (ret 1) host_read (fun _ _ => ret tt) (fun _ _ => ChildRunning) (fun o => o) (fun _ _ o => o)
    3 (obj_of [("sessionId", VString "s"); ("tool", VString "observe_ui")]) false s (sample_world 0).

(** An answer, and a host that closes its connection: the second is dropped. *)
Example host_calls :
  (host_call (mkService None [hello_text; answer_text] [])).1.1 = Ok (VString "seen") /\
  h_session <$> cu_host (host_call (mkService None [hello_text; answer_text] [])).1.2 = Some "s" /\
  cu_host (host_call (mkService None [hello_text] [])).1.2 = None.
Proof. vm_compute. done. Qed.

Lemma call_never_replays_witness :
  exists connection id method, length (cu_sent (host_call (mkService None [hello_text; answer_text] [])).1.2) = 1%nat /\
    cu_sent (host_call (mkService None [hello_text; answer_text] [])).1.2 =
      [(connection, request_of id method (obj_of [("sessionId", VString "s"); ("tool", VString "observe_ui")]))].
Proof.
  assert (length (cu_sent (host_call (mkService None [hello_text; answer_text] [])).1.2) = 1%nat) as Hl by (vm_compute; reflexivity).
  destruct (host_call (mkService None [hello_text; answer_text] [])) as [[r s'] w'] eqn:H. cbn [fst snd] in *. unfold host_call in H.
  apply (call_never_replays (fun _ => Some "{}") host_parse (fun _ => ret ("t", None)) (ret 1) host_read (fun _ _ => ret tt) (fun _ _ => ChildRunning) (fun o => o) (fun _ _ o => o)) in H
    as [[E _]|(c & id & method & _ & E & _)]; [rewrite E in Hl; discriminate|].
  exists c, id, method. split; [exact Hl|exact E].
Defined.

Definition failed_response : Value :=
  obj_of [("error", VString "Navigation timeout"); ("errorDetails", obj_of [("navigationFailure", navigation_failure_receipt); ("secret", VString "path")])].

Lemma tool_failure_quarantines_witness :
  desktop_dispatch_uncertain (fun _ => true) "computer-use.call" (Some "navigate_browser") (Err (host_tool_failure failed_response "i" "navigate_browser")) = false /\
  desktop_dispatch_uncertain (fun _ => true) "computer-use.call" (Some "act_ui") (Err (host_tool_failure failed_response "i" "act_ui")) = true.
Proof.
  split; (etransitivity; [apply (tool_failure_quarantines (fun _ => true)); reflexivity|vm_compute; reflexivity]).
Defined.
