(* ===== verification/Rpc.v ===== *)
(** * Local RPC ([rpc.rs] of the crate machine-fabric-runtime)

    Frames of one line over a local stream that may be slow, cut off or
    cancelled: the bounded reader and writer, the controlled server and its
    caller. The Unix branch. A stream is the
    list of what it will do next; serde_json is a parameter. *)
From Stdlib Require Import Ascii.
From stdpp Require Import base gmap strings list.
From S2P Require Import Prelude Json Protocol Utf8.
Open Scope Z_scope.
Open Scope fabric_scope.

Definition newline_text : string := String "010"%char "".
Definition BUFFER : nat := Z.to_nat 16384.

(** What a stream that does not block does at the next read or write; when the list is over, it blocks. *)
Inductive Arrival := Arrives (data : string) | Idle | Closes | Breaks (text : string).
Inductive Space := Takes (count : nat) | Full | Refuses | WriteBreaks (text : string).

(** A stream; [sent] is what was written to it, and [stops] are the answers of [stopped()], which are false at the end. *)
Record Wire := mkWire { incoming : list Arrival; spaces : list Space; sent : string; stops : list bool }.
Definition set_incoming (l : list Arrival) (x : Wire) : Wire := mkWire l (spaces x) (sent x) (stops x).
Definition set_spaces (l : list Space) (x : Wire) : Wire := mkWire (incoming x) l (sent x) (stops x).
Definition add_sent (s : string) (x : Wire) : Wire := mkWire (incoming x) (spaces x) (sent x +:+ s) (stops x).
Definition set_stops (l : list bool) (x : Wire) : Wire := mkWire (incoming x) (spaces x) (sent x) l.

(** [stopped()] *)
Definition stopped {E} : M Wire E bool :=
  let* l := gets stops in
  match l with [] => ret false | b :: l' => modify (set_stops l') ;; ret b end.

(** [check_io] *)
Definition check_io (deadline : Z) : M Wire string unit :=
  let* stop := stopped in
  if stop : bool then fail "IPC cancelled"
  else
    let* now := instant_now in
    if deadline <=? now then fail "IPC deadline elapsed" else ret tt.

(** [stream.read(buffer)]: [None] where it would block, at most a buffer otherwise, nothing at the end *)
Definition read_some : M Wire string (option string) :=
  let* l := gets incoming in
  match l with
  | [] => ret None
  | Idle :: l' | Arrives EmptyString :: l' => modify (set_incoming l') ;; ret None
  | Closes :: _ => ret (Some "")
  | Breaks text :: _ => fail text
  | Arrives data :: l' =>
      let left := drop_bytes BUFFER data in
      modify (set_incoming (if str_is_empty left then l' else Arrives left :: l')) ;;
      ret (Some (take_bytes BUFFER data))
  end.

(** The bytes up to and with the first newline, and whether there is one *)
Fixpoint line_part (s : string) : string * bool :=
  match s with
  | EmptyString => ("", false)
  | String c s' => if Ascii.eqb c "010"%char then (String c "", true) else let r := line_part s' in (String c r.1, r.2)
  end.

(** [read_controlled] *)
Fixpoint read_controlled (fuel : nat) (maximum deadline : Z) (bytes : string) : M Wire string string :=
  match fuel with
  | O => fail "out of fuel"
  | S fuel' =>
      check_io deadline ;;
      let* got := read_some in
      match got with
      | None => read_controlled fuel' maximum deadline bytes
      | Some EmptyString => fail "IPC closed before a complete frame"
      | Some buffer =>
          let part := (line_part buffer).1 in
          if Z.max 0 (maximum - str_len bytes) <? str_len part then fail "IPC frame limit exceeded"
          else if (line_part buffer).2 then ret (bytes +:+ part) else read_controlled fuel' maximum deadline (bytes +:+ part)
      end
  end.

(** [stream.write(bytes)]: how many bytes were taken *)
Definition write_some (bytes : string) : M Wire string (option nat) :=
  let* l := gets spaces in
  match l with
  | [] => ret None
  | Full :: l' => modify (set_spaces l') ;; ret None
  | Refuses :: _ => ret (Some O)
  | WriteBreaks text :: _ => fail text
  | Takes count :: l' =>
      let taken := take_bytes count bytes in
      modify (fun x => add_sent taken (set_spaces l' x)) ;;
      ret (Some (String.length taken))
  end.

(** [write_controlled] *)
Fixpoint write_controlled (fuel : nat) (deadline : Z) (bytes : string) : M Wire string unit :=
  match bytes with
  | EmptyString => ret tt
  | String _ _ =>
      match fuel with
      | O => fail "out of fuel"
      | S fuel' =>
          check_io deadline ;;
          let* count := write_some bytes in
          match count with
          | None => write_controlled fuel' deadline bytes
          | Some O => fail "IPC closed while writing"
          | Some count => write_controlled fuel' deadline (drop_bytes count bytes)
          end
      end
  end.

Section Rpc.
(** serde_json on the records of the protocol *)
Context (request_text : Request -> string) (parse_request : string -> option Request).
Context (response_text : Response -> string) (parse_response : string -> option Response).

(** What [ControlledRpcServer::serve] does with one connection; first, the response that fits in a frame *)
Definition response_frame (maximum_frame : Z) (response : Response) : Response :=
  if maximum_frame <=? str_len (response_text response)
  then response_failure (resp_request_id response) (rpc_error "IPC_FRAME_TOO_LARGE" "response exceeds IPC limit") else response.
Definition serve_connection (fuel : nat) (maximum_frame : Z) (handler : Request -> Response) : M Wire string unit :=
  let* now := instant_now in
  let* bytes := read_controlled fuel maximum_frame (now + 30000) "" in
  let* request := lift (ok_or (parse_request bytes) "invalid request") in
  let* stop := stopped in
  if stop : bool then ret tt
  else
    let bytes := response_text (response_frame maximum_frame (handler request)) in
    let* now := instant_now in
    write_controlled fuel (now + 30000) (bytes +:+ newline_text).

(** [call_unix_controlled] after the connection was made *)
Definition call_connected (fuel : nat) (request : Request) (maximum_frame deadline : Z) : M Wire string Response :=
  let bytes := request_text request in
  if maximum_frame <=? str_len bytes then fail "IPC request exceeds frame limit"
  else
    write_controlled fuel deadline (bytes +:+ newline_text) ;;
    let* bytes := read_controlled fuel maximum_frame deadline "" in
    lift (ok_or (parse_response bytes) "invalid response").

(** [handle_stream] on the line that was read *)
Definition handle_line (handler : Request -> Response) (line : string) : Response :=
  match parse_request line with
  | Some request => handler request
  | None => response_failure "unknown" (rpc_error "INVALID_REQUEST" "invalid JSON request")
  end.
End Rpc.

(** ** The reader *)

Lemma line_part_app s : (line_part s).2 = true ->
  exists a b, s = a +:+ newline_text +:+ b /\ line_part s = (a +:+ newline_text, true) /\ bytes_all (fun c => negb (Ascii.eqb c "010"%char)) a = true.
Proof.
  induction s as [|c s IH]; [done|]. cbn [line_part]. destruct (Ascii.eqb_spec c "010"%char) as [->|Hne].
  - intros _. exists "", s. done.
  - cbn [snd]. intros H. destruct (IH H) as (a & b & -> & E & Ha). exists (String c a), b. rewrite E. cbn [fst snd]. split_and!; [done|done|].
    cbn [bytes_all]. rewrite Ha, andb_true_r. by apply negb_true_iff, Ascii.eqb_neq.
Qed.
Lemma line_part_none s : (line_part s).2 = false -> (line_part s).1 = s /\ bytes_all (fun c => negb (Ascii.eqb c "010"%char)) s = true.
Proof.
  induction s as [|c s IH]; [done|]. cbn [line_part]. destruct (Ascii.eqb_spec c "010"%char) as [->|Hne]; [done|]. cbn [snd fst]. intros H.
  destruct (IH H) as [E Ha]. rewrite E. split; [done|]. cbn [bytes_all]. rewrite Ha, andb_true_r. by apply negb_true_iff, Ascii.eqb_neq.
Qed.

Definition no_newline (s : string) : bool := bytes_all (fun c => negb (Ascii.eqb c "010"%char)) s.
Lemma no_newline_app a b : no_newline (a +:+ b) = no_newline a && no_newline b.
Proof. unfold no_newline. induction a as [|c a IH]; [done|]. rewrite string_app_cons. cbn [bytes_all]. by rewrite IH, andb_assoc. Qed.

(** All that is still to arrive *)
Fixpoint flow (l : list Arrival) : string :=
  match l with [] => "" | Arrives data :: l' => data +:+ flow l' | _ :: l' => flow l' end.
Definition calm (l : list Arrival) : bool := forallb (fun a => match a with Arrives _ | Idle => true | _ => false end) l.

Lemma check_io_cases deadline x w r x' w' :
  check_io deadline x w = (r, x', w') -> incoming x' = incoming x /\ sent x' = sent x /\ spaces x' = spaces x.
Proof.
  unfold check_io, stopped, bind, gets, modify, instant_now, ret, fail. destruct (stops x) as [|[] l]; cbn; try (by intros [= <- <- <-]);
    destruct (deadline <=? _); by intros [= <- <- <-].
Qed.

Lemma buffer_positive : BUFFER <> 0%nat.
Proof. unfold BUFFER. change 0%nat with (Z.to_nat 0). intros E. apply (f_equal Z.of_nat) in E. rewrite !Z2Nat.id in E; lia. Qed.
#[local] Opaque BUFFER.

(** One read takes the start of what is to arrive. *)
Lemma read_some_cases x w r x' w' :
  read_some x w = (r, x', w') -> sent x' = sent x /\ w' = w /\
  match r with
  | Ok (Some got) => flow (incoming x) = got +:+ flow (incoming x')
  | Ok None => flow (incoming x') = flow (incoming x)
  | Err _ => True
  end.
Proof.
  unfold read_some, bind, gets, modify, ret, fail. destruct (incoming x) as [|[[|c data]| | |text] l] eqn:E; try (intros [= <- <- <-]; cbn [flow]; rewrite ?E; done).
  generalize BUFFER as n. intros n H. injection H as <- <- <-. split_and!; [done|done|]. cbn [incoming set_incoming flow].
  pose proof (take_drop_bytes n (String c data)) as Hd.
  destruct (str_is_empty (drop_bytes n (String c data))) eqn:Ee; cbn [flow].
  - destruct (drop_bytes n (String c data)); [|done]. rewrite <- Hd at 1. by rewrite <- string_app_assoc.
  - rewrite <- Hd at 1. by rewrite <- string_app_assoc.
Qed.

(** a controlled read is bounded and exact: what it returns, from a peer that may send anything in any pieces, is one line of at most the maximum, ended by its only newline, and it is the very start of what the peer sent; nothing is written meanwhile. *)
Theorem read_is_one_bounded_line fuel maximum deadline x w line x' w' :
  0 <= maximum -> read_controlled fuel maximum deadline "" x w = (Ok line, x', w') ->
  exists a rest, line = a +:+ newline_text /\ no_newline a = true /\ str_len line <= maximum /\ flow (incoming x) = line +:+ rest /\ sent x' = sent x.
Proof.
  intros Hmax. assert (forall fuel bytes x w line x' w', no_newline bytes = true -> str_len bytes <= maximum ->
    read_controlled fuel maximum deadline bytes x w = (Ok line, x', w') ->
    exists a rest, line = a +:+ newline_text /\ no_newline a = true /\ str_len line <= maximum /\ bytes +:+ flow (incoming x) = line +:+ rest /\ sent x' = sent x) as Hg.
  2: { intros H. apply Hg in H; [done|done|exact Hmax]. }
  clear. induction fuel as [|fuel IH]; intros bytes x w line x' w' Hb Hl H; [done|]. cbn [read_controlled] in H.
  mstep H u x1 w1 H1. apply check_io_cases in H1 as (Ei & Es & _). mstep H got x2 w2 H2. apply read_some_cases in H2 as (Es2 & -> & Hf).
  destruct got as [[|c buffer]|]; [done| |].
  - cbv iota beta zeta in H. remember (String c buffer) as b. unfold str_len in *. destruct (Z.max 0 (maximum - Z.of_nat (String.length bytes)) <? Z.of_nat (String.length (line_part b).1)) eqn:El; [done|].
    apply Z.ltb_ge in El. destruct ((line_part b).2) eqn:E2.
    + destruct (line_part_app b E2) as (a & rest & Eb & Ep & Ha). rewrite Ep in *. cbn [fst] in *. injection H as <- <- _.
      exists (bytes +:+ a), (rest +:+ flow (incoming x2)). split_and!; [by rewrite <- string_app_assoc|by rewrite no_newline_app, Hb|by rewrite string_length_app; lia| |congruence].
      rewrite <- Ei, Hf, Eb. by rewrite <- !string_app_assoc.
    + destruct (line_part_none b E2) as [Ep Ha]. rewrite Ep in *. apply IH in H; [|by rewrite no_newline_app, Hb|rewrite string_length_app; lia].
      destruct H as (a & rest & -> & Hna & Hle & Hfl & Hse). exists a, rest. split_and!; [done|done|done| |congruence].
      rewrite <- Hfl, <- Ei, Hf. by rewrite <- string_app_assoc.
  - apply IH in H; [|done|done]. destruct H as (a & rest & -> & Hna & Hle & Hfl & Hse). exists a, rest. split_and!; [done|done|done| |congruence].
    by rewrite <- Hfl, Hf, <- Ei.
Qed.

(** ** A patient peer: it sends all, it takes all *)

(** The next [n] readings of the monotonic clock are before the deadline. *)
Definition early (deadline : Z) (n : nat) (w : World) : Prop := forall i, (i < n)%nat -> o_at (w_instant w) (o_next (w_instant w) + i) < deadline.
(** The next readings after [n] others *)
Definition later (n : nat) (w : World) : World := Nat.iter n (fun w => set_instant (advance (w_instant w)) w) w.

Lemma early_mono deadline n n' w : (n' <= n)%nat -> early deadline n w -> early deadline n' w.
Proof. intros Hn H i Hi. apply H. lia. Qed.
Lemma early_step deadline n w : early deadline (S n) w -> early deadline n (set_instant (advance (w_instant w)) w).
Proof. intros H i Hi. cbn. rewrite <- Nat.add_succ_r. apply H. lia. Qed.
Lemma check_io_early deadline n x w : stops x = [] -> early deadline (S n) w ->
  check_io deadline x w = (Ok tt, x, set_instant (advance (w_instant w)) w).
Proof.
  intros Hs He. unfold check_io, stopped, bind, gets, ret, instant_now. rewrite Hs. cbn. specialize (He O ltac:(lia)). rewrite Nat.add_0_r in He.
  unfold peek. by rewrite (proj2 (Z.leb_gt _ _)) by done.
Qed.

(** How many reads can empty the list *)
Fixpoint reads (l : list Arrival) : nat := match l with [] => O | Arrives data :: l' => S (String.length data + reads l') | _ :: l' => S (reads l') end.

Lemma drop_bytes_shorter n s : (n <> 0)%nat -> s <> "" -> (String.length (drop_bytes n s) < String.length s)%nat.
Proof. destruct n, s; [done..|]. intros _ _. cbn [drop_bytes String.length]. rewrite drop_bytes_length. lia. Qed.

(** A read of a calm stream that still holds something takes a piece, or passes an idle moment. *)
Lemma read_some_calm x w : calm (incoming x) = true -> flow (incoming x) <> "" ->
  exists got x', read_some x w = (Ok got, x', w) /\ got <> Some "" /\ calm (incoming x') = true /\ (reads (incoming x') < reads (incoming x))%nat /\
    stops x' = stops x /\ spaces x' = spaces x /\ sent x' = sent x.
Proof.
  unfold read_some, bind, gets, modify, ret. pose proof buffer_positive as Hp. revert Hp. generalize BUFFER as n. intros n Hp.
  destruct (incoming x) as [|[[|c data]| | |text] l] eqn:E; intros Hc Hf; [by destruct Hf| | | |done|done].
  - exists None, (set_incoming l x). split_and!; [done|done|exact Hc|cbn; lia|done..].
  - exists (Some (take_bytes n (String c data))). eexists. split; [reflexivity|]. destruct n as [|n]; [done|]. cbn [incoming set_incoming stops spaces sent].
    pose proof (drop_bytes_shorter (S n) (String c data) Hp ltac:(done)) as Hd. change (calm l = true) in Hc.
    split_and!; [done| | |done|done|done]; destruct (str_is_empty _); cbn [calm forallb reads]; try exact Hc; lia.
  - exists None, (set_incoming l x). split_and!; [done|done|exact Hc|cbn; lia|done..].
Qed.

Lemma no_newline_line_part a : no_newline a = true -> forall b, line_part (a +:+ b) = (a +:+ (line_part b).1, (line_part b).2).
Proof.
  induction a as [|c a IH]; intros H b; [exact (surjective_pairing (line_part b))|]. unfold no_newline in H. cbn [bytes_all] in H. apply andb_true_iff in H as [Hc Ha].
  rewrite !string_app_cons. cbn [line_part]. destruct (Ascii.eqb c _); [done|]. by rewrite IH.
Qed.

(** Two decompositions at the first newline agree. *)
Lemma split_at_newline a b a' b' : no_newline a = true -> no_newline a' = true -> a +:+ newline_text +:+ b = a' +:+ newline_text +:+ b' -> a = a' /\ b = b'.
Proof.
  revert a'. induction a as [|c a IH]; intros [|c' a'] Ha Ha' E; unfold newline_text in E; rewrite ?string_app_cons in E.
  - injection E as E. split; [done|exact E].
  - by injection E as <- _.
  - by injection E as -> _.
  - injection E as E1 E2. unfold no_newline in *. cbn [bytes_all] in *. apply andb_true_iff in Ha as [_ Ha], Ha' as [_ Ha']. destruct (IH a' Ha Ha' E2) as [-> ->]. by rewrite E1.
Qed.

Lemma no_newline_prefix p a t r : no_newline p = true -> p +:+ t = a +:+ newline_text +:+ r -> exists t', a = p +:+ t'.
Proof.
  revert a. induction p as [|c p IH]; intros [|c' a] Hp E; unfold newline_text in E; rewrite ?string_app_cons in E.
  - by exists "".
  - by exists (String c' a).
  - by injection E as -> _.
  - injection E as -> E. unfold no_newline in Hp. cbn [bytes_all] in Hp. apply andb_true_iff in Hp as [_ Hp]. destruct (IH a Hp E) as [t' ->]. by exists t'.
Qed.
(** A whole line that arrives in any pieces is read. *)
Lemma read_controlled_whole maximum deadline : forall fuel bytes x w a rest,
  (reads (incoming x) <= fuel)%nat -> calm (incoming x) = true -> stops x = [] -> early deadline fuel w ->
  no_newline a = true -> no_newline bytes = true -> bytes +:+ flow (incoming x) = a +:+ newline_text +:+ rest -> str_len (a +:+ newline_text) <= maximum ->
  exists x' w', read_controlled fuel maximum deadline bytes x w = (Ok (a +:+ newline_text), x', w') /\ spaces x' = spaces x /\ sent x' = sent x /\ stops x' = [] /\
    exists n, (n <= fuel)%nat /\ w' = later n w.
Proof.
  induction fuel as [|fuel IH]; intros bytes x w a rest Hr Hc Hs He Ha Hb Hf Hm.
  - exfalso. destruct (incoming x) as [|[]]; [|cbn in Hr; lia..]. cbn [flow] in Hf. assert (no_newline (bytes +:+ "") = no_newline (a +:+ newline_text +:+ rest)) as E by (by rewrite Hf).
    rewrite !no_newline_app, Ha, Hb in E. done.
  - assert (flow (incoming x) <> "") as Hne.
    { intros E. rewrite E in Hf. assert (no_newline (bytes +:+ "") = no_newline (a +:+ newline_text +:+ rest)) as E2 by (by rewrite Hf). rewrite !no_newline_app, Ha, Hb in E2. done. }
    cbn [read_controlled]. unfold bind. rewrite (check_io_early _ fuel) by done. set (w1 := set_instant _ w).
    destruct (read_some_calm x w1 Hc Hne) as (got & x1 & Er & Hg & Hc1 & Hr1 & Hs1 & Hp1 & Ht1). rewrite Er. pose proof (read_some_cases _ _ _ _ _ Er) as (_ & _ & Hfl).
    assert (forall bytes', no_newline bytes' = true -> bytes' +:+ flow (incoming x1) = a +:+ newline_text +:+ rest ->
      exists x' w', read_controlled fuel maximum deadline bytes' x1 w1 = (Ok (a +:+ newline_text), x', w') /\ spaces x' = spaces x /\ sent x' = sent x /\ stops x' = [] /\
        exists n, (n <= S fuel)%nat /\ w' = later n w) as Hgo.
    { intros bytes' Hb' Hf'. destruct (IH bytes' x1 w1 a rest) as (x' & w' & E & E1 & E2 & E3 & n & Hn & ->); [lia|done|congruence|by apply early_step|done..|].
      exists x', (later n w1). split_and!; [done|congruence|congruence|done|]. exists (S n). split; [lia|]. unfold later. by rewrite Nat.iter_succ_r. }
    destruct got as [[|c b]|]; [done| |].
    + cbv iota beta zeta. remember (String c b) as buffer eqn:Eb. clear Hg.
      destruct ((line_part buffer).2) eqn:E2.
      * destruct (line_part_app _ E2) as (a1 & r1 & E1 & Ep & Ha1). rewrite Ep. cbn [fst].
        assert (bytes +:+ a1 = a /\ r1 +:+ flow (incoming x1) = rest) as [<- <-].
        { apply split_at_newline; [by rewrite no_newline_app, Hb|done|]. rewrite <- Hf, Hfl, E1. by rewrite <- !string_app_assoc. }
        rewrite <- string_app_assoc in Hm. unfold str_len in *. rewrite string_length_app in Hm. rewrite (proj2 (Z.ltb_ge _ _)) by lia.
        rewrite <- string_app_assoc. exists x1, w1. split_and!; [done|done|done|congruence|]. exists 1%nat. split; [lia|done].
      * destruct (line_part_none _ E2) as [Ep Ha1]. rewrite Ep. rewrite (proj2 (Z.ltb_ge _ _)); [apply Hgo|].
        -- by rewrite no_newline_app, Hb.
        -- rewrite <- Hf, Hfl. by rewrite <- string_app_assoc.
        -- destruct (no_newline_prefix (bytes +:+ buffer) a (flow (incoming x1)) rest) as [t ->];
             [by rewrite no_newline_app, Hb|rewrite <- Hf, Hfl; by rewrite <- string_app_assoc|].
           unfold str_len in *. rewrite !string_length_app in Hm. lia.
    + apply Hgo; [done|]. by rewrite Hfl, Hf.
Qed.

(** ** The writer *)

(** How many bytes a peer that takes something at each turn will take *)
Fixpoint room (l : list Space) : nat := match l with [] => O | Takes n :: l' => n + room l' | _ :: l' => room l' end.
Definition eager (l : list Space) : bool := forallb (fun s => match s with Takes (S _) | Full => true | _ => false end) l.

Lemma taken_length n s : String.length (take_bytes n s) = Nat.min n (String.length s).
Proof. revert s. induction n as [|n IH]; intros [|c s]; cbn; try done. by rewrite IH. Qed.
Lemma take_bytes_whole n s : (String.length s <= n)%nat -> take_bytes n s = s.
Proof. revert s. induction n as [|n IH]; intros [|c s] H; cbn in *; try done; [lia|]. by rewrite IH by lia. Qed.

(** One write moves the start of the bytes to the wire. *)
Lemma write_some_cases bytes x w r x' w' :
  write_some bytes x w = (r, x', w') -> w' = w /\ incoming x' = incoming x /\ stops x' = stops x /\
  match r with Ok (Some n) => sent x' = sent x +:+ take_bytes n bytes | _ => sent x' = sent x end.
Proof.
  unfold write_some, bind, gets, modify, ret, fail. destruct (spaces x) as [|[n| | |text] l]; intros [= <- <- <-]; try done; split_and!; try done.
  - cbn [sent add_sent set_spaces]. f_equal. rewrite taken_length. destruct (Nat.le_ge_cases n (String.length bytes)); [by rewrite Nat.min_l|].
    by rewrite Nat.min_r, !take_bytes_whole.
  - by rewrite string_app_nil_r.
Qed.

(** What reached the wire is the start of the frame, and all of it at success. *)
Lemma write_controlled_prefix fuel deadline : forall bytes x w r x' w',
  write_controlled fuel deadline bytes x w = (r, x', w') ->
  exists a b, bytes = a +:+ b /\ sent x' = sent x +:+ a /\ (r = Ok tt -> b = "").
Proof.
  induction fuel as [|fuel IH]; intros [|c bytes] x w r x' w' H; cbn [write_controlled] in H; try (injection H as <- <- <-; exists "", ""; by rewrite !string_app_nil_r).
  - injection H as <- <- <-. exists "", (String c bytes). by rewrite !string_app_nil_r.
  - apply bind_cases in H as (r1 & x1 & w1 & H1 & H). apply check_io_cases in H1 as (_ & Es & _).
    destruct r1 as [u|e]; [|destruct H as (-> & -> & _); exists "", (String c bytes); by rewrite !string_app_nil_r, Es].
    apply bind_cases in H as (r2 & x2 & w2 & H2 & H). apply write_some_cases in H2 as (-> & _ & _ & Es2).
    destruct r2 as [[n|]|e]; [| |destruct H as (-> & -> & _); exists "", (String c bytes); by rewrite !string_app_nil_r, Es2, Es].
    + destruct n as [|n]; [injection H as <- <- <-; exists "", (String c bytes); rewrite Es2, Es; by rewrite !string_app_nil_r|].
      apply IH in H as (a & b & E & Ea & Hb). exists (take_bytes (S n) (String c bytes) +:+ a), b. rewrite Ea, Es2, Es, <- !string_app_assoc, <- E, take_drop_bytes. done.
    + apply IH in H as (a & b & E & Ea & Hb). exists a, b. by rewrite Ea, Es2, Es.
Qed.

(** A peer with enough room gets the whole frame. *)
Lemma write_controlled_whole deadline : forall fuel bytes x w,
  (length (spaces x) <= fuel)%nat -> eager (spaces x) = true -> (String.length bytes <= room (spaces x))%nat -> stops x = [] -> early deadline fuel w ->
  exists x' w', write_controlled fuel deadline bytes x w = (Ok tt, x', w') /\ sent x' = sent x +:+ bytes /\ incoming x' = incoming x /\ stops x' = [] /\
    exists n, (n <= fuel)%nat /\ w' = later n w.
Proof.
  induction fuel as [|fuel IH]; intros [|c bytes] x w Hl He Hr Hs Hc; cbn [write_controlled];
    try (exists x, w; split_and!; [done|by rewrite string_app_nil_r|done|done|by exists 0%nat; split; [lia|]]).
  - destruct (spaces x); cbn in *; lia.
  - unfold bind. rewrite (check_io_early _ fuel) by done. set (w1 := set_instant _ w). unfold write_some, bind, gets, modify, ret.
    destruct (spaces x) as [|[[|n]| | |] l] eqn:Ex; try done; [cbn in Hr; lia| |].
    + cbn [room] in Hr. cbn [length] in Hl. rewrite taken_length. destruct (Nat.min (S n) (String.length (String c bytes))) as [|m] eqn:Em; [cbn in Em; lia|].
      edestruct (IH (drop_bytes (S m) (String c bytes)) (add_sent (take_bytes (S n) (String c bytes)) (set_spaces l x)) w1) as (x' & w' & E & E1 & E2 & E3 & k & Hk & ->).
      * cbn. lia.
      * exact He.
      * cbn [spaces add_sent set_spaces]. rewrite drop_bytes_length. lia.
      * done.
      * by apply early_step.
      * exists x', (later k w1). split_and!; [exact E| |done|done|exists (S k); split; [lia|unfold later; by rewrite Nat.iter_succ_r]].
        rewrite E1. cbn [sent add_sent set_spaces]. rewrite <- string_app_assoc. f_equal.
        transitivity (take_bytes (S m) (String c bytes) +:+ drop_bytes (S m) (String c bytes)); [|by rewrite take_drop_bytes]. f_equal.
        rewrite <- Em. destruct (Nat.le_ge_cases (S n) (String.length (String c bytes))); [by rewrite Nat.min_l|]. by rewrite Nat.min_r, !take_bytes_whole.
    + edestruct (IH (String c bytes) (set_spaces l x) w1) as (x' & w' & E & E1 & E2 & E3 & k & Hk & ->); [cbn in Hl |- *; lia|exact He|exact Hr|done|by apply early_step|].
      exists x', (later k w1). split_and!; [exact E|done|done|done|exists (S k); split; [lia|unfold later; by rewrite Nat.iter_succ_r]].
Qed.

(** ** A call *)

(** Both ends are patient: what was written arrives, in any pieces and after any idle moments, and nobody cancels. *)
Record patient (fuel : nat) (arrives : string) (answers : nat) (x : Wire) : Prop := mk_patient {
  pt_calm : calm (incoming x) = true;
  pt_flow : flow (incoming x) = arrives;
  pt_stops : stops x = [];
  pt_eager : eager (spaces x) = true;
  pt_room : (answers <= room (spaces x))%nat;
  pt_reads : (reads (incoming x) <= fuel)%nat;
  pt_spaces : (length (spaces x) <= fuel)%nat;
}.

Lemma later_world n w : w_instant (later n w) = mkOracle (o_at (w_instant w)) (n + o_next (w_instant w)).
Proof. unfold later. induction n as [|n IH]; [simpl; by destruct (w_instant w)|].
  rewrite Nat.iter_succ. cbn [w_instant set_instant]. by rewrite IH. Qed.
Lemma early_later deadline n m w : early deadline (n + m) w -> early deadline m (later n w).
Proof. intros H i Hi. rewrite later_world. cbn. replace (n + o_next (w_instant w) + i)%nat with (o_next (w_instant w) + (n + i))%nat by lia. apply H. lia. Qed.
Lemma early_deadline d d' n w : d <= d' -> early d n w -> early d' n w.
Proof. intros Hd H i Hi. specialize (H i Hi). lia. Qed.

Section Call.
Context (request_text : Request -> string) (parse_request : string -> option Request).
Context (response_text : Response -> string) (parse_response : string -> option Response).
Local Abbreviation serve := (serve_connection parse_request response_text).
Local Abbreviation connected := (call_connected request_text parse_response).

(** C25: a call over a local stream is answered: where the request is within the limit of a frame, neither side is cancelled, the caller waits and no clock passes a deadline before the exchange is over, the caller's request, written and read in any pieces, reaches the handler once and whole, and the caller gets exactly the handler's response, or the failure IPC_FRAME_TOO_LARGE in its place when it does not fit in a frame. *)
Theorem controlled_call_answered fuel maximum handler request answer x w :
  answer = response_frame response_text maximum (handler request) ->
  no_newline (request_text request) = true -> str_len (request_text request) < maximum ->
  no_newline (response_text answer) = true -> str_len (response_text answer) < maximum ->
  parse_request (request_text request +:+ newline_text) = Some request ->
  parse_response (response_text answer +:+ newline_text) = Some answer ->
  patient fuel (request_text request +:+ newline_text) (S (String.length (response_text answer))) x ->
  monotonic_clock w -> early (peek (w_instant w) + 30000) (S (S (fuel + fuel))) w ->
  exists x' w', serve fuel maximum handler x w = (Ok tt, x', w') /\ sent x' = sent x +:+ response_text answer +:+ newline_text /\
    forall deadline y v, patient fuel (response_text answer +:+ newline_text) (S (String.length (request_text request))) y -> early deadline (fuel + fuel) v ->
      exists y' v', connected fuel request maximum deadline y v = (Ok answer, y', v') /\ sent y' = sent y +:+ flow (incoming x).
Proof.
  intros Ha Hq1 Hq2 Hr1 Hr2 Hp1 Hp2 Hx Hm He. destruct Hx as [X1 X2 X3 X4 X5 X6 X7].
  assert (forall n, String.length (n +:+ newline_text) = S (String.length n)) as Hlen by (intros n; rewrite string_length_app; cbn; lia).
  unfold serve_connection. unfold bind at 1, instant_now. set (w1 := set_instant (advance (w_instant w)) w). apply early_step in He as He1. fold w1 in He1.
  destruct (read_controlled_whole maximum (peek (w_instant w) + 30000) fuel "" x w1 (request_text request) "" X6 X1 X3) as (x1 & w2 & E & Es & Et & Ep & n & Hn & ->);
    [by apply early_mono with (S (fuel + fuel)); [lia|]|done|done|by rewrite string_app_nil_r, X2|unfold str_len in *; rewrite Hlen; lia|].
  unfold bind at 1. rewrite E. unfold bind at 1, lift. rewrite Hp1. cbn [ok_or]. unfold bind at 1, stopped. unfold bind at 1, gets. rewrite Ep. unfold ret at 1.
  unfold bind at 1. rewrite <- Ha. set (w3 := set_instant _ _).
  assert (w3 = later (S n) w1) as Ew by done. clearbody w3. subst w3.
  destruct (write_controlled_whole (peek (w_instant (later n w1)) + 30000) fuel (response_text answer +:+ newline_text) x1 (later (S n) w1)) as (x2 & w4 & E2 & Es2 & _);
    [by rewrite Es|by rewrite Es|rewrite Es, Hlen; exact X5|done| |].
  { apply early_deadline with (peek (w_instant w) + 30000).
    - unfold w1, peek. rewrite later_world. cbn. specialize (Hm (o_next (w_instant w)) (n + S (o_next (w_instant w)))%nat). lia.
    - apply early_later. apply early_mono with (S (fuel + fuel)); [lia|done]. }
  exists x2, w4. split_and!; [exact E2|by rewrite Es2, Et|].
  intros deadline y v Hy Hv. destruct Hy as [Y1 Y2 Y3 Y4 Y5 Y6 Y7]. unfold call_connected. rewrite (proj2 (Z.leb_gt _ _)) by done.
  destruct (write_controlled_whole deadline fuel (request_text request +:+ newline_text) y v) as (y1 & v1 & E3 & S3 & I3 & P3 & m & Hmf & ->);
    [done|done|by rewrite Hlen|done|by apply early_mono with (fuel + fuel)%nat; [lia|]|].
  unfold bind at 1. rewrite E3.
  destruct (read_controlled_whole maximum deadline fuel "" y1 (later m v) (response_text answer) "") as (y2 & v2 & E4 & _ & S4 & _);
    [by rewrite I3|by rewrite I3|done|by apply early_later, early_mono with (fuel + fuel)%nat; [lia|]|done|done|by rewrite I3, Y2, string_app_nil_r|unfold str_len in *; rewrite Hlen; lia|].
  unfold bind. rewrite E4. unfold lift. rewrite Hp2. cbn [ok_or]. exists y2, v2. split; [done|]. by rewrite S4, S3, X2.
Qed.
End Call.

(** ** Runs *)

Definition ping : Request := mkRequest "v1" "req_1" None None "ping" VNull.
Definition pong : Response := response_success "req_1" (VString "pong").
Definition ping_text (r : Request) : string := req_action r.
Definition parse_ping (s : string) : option Request := if String.eqb s ("ping" +:+ newline_text) then Some ping else None.
Definition pong_text (r : Response) : string := if resp_ok r then "pong" else "failure".
Definition parse_pong (s : string) : option Response := if String.eqb s ("pong" +:+ newline_text) then Some pong else None.
Definition server_wire : Wire := mkWire [Arrives "pi"; Idle; Arrives ("ng" +:+ newline_text)] [Takes 3; Full; Takes 9] "" [].
Definition caller_wire : Wire := mkWire [Idle; Arrives ("pong" +:+ newline_text)] [Takes 100] "" [].
Definition chatter : Wire := mkWire [Arrives "on"; Idle; Arrives ("e" +:+ newline_text +:+ "two")] [] "" [].

Lemma read_is_one_bounded_line_witness :
  let run := read_controlled 9 4 100 "" chatter (sample_world 0) in
  run.1.1 = Ok ("one" +:+ newline_text) /\
  exists a rest, "one" +:+ newline_text = a +:+ newline_text /\ no_newline a = true /\ str_len ("one" +:+ newline_text) <= 4 /\
    flow (incoming chatter) = ("one" +:+ newline_text) +:+ rest /\ sent run.1.2 = sent chatter.
Proof.
  intros run. assert (run.1.1 = Ok ("one" +:+ newline_text)) as E by (vm_compute; reflexivity). split; [exact E|].
  destruct run as [[r x'] w'] eqn:H. cbn [fst snd] in *. subst r. apply (read_is_one_bounded_line 9 4 100 chatter (sample_world 0) _ x' w'); [lia|exact H].
Defined.

Lemma controlled_call_answered_witness :
  exists x' w', serve_connection parse_ping pong_text 9 8 (fun _ => pong) server_wire (sample_world 0) = (Ok tt, x', w') /\
    sent x' = "" +:+ "pong" +:+ newline_text /\
    forall deadline y v, patient 9 ("pong" +:+ newline_text) 5 y -> early deadline 18 v ->
      exists y' v', call_connected ping_text parse_pong 9 ping 8 deadline y v = (Ok pong, y', v') /\ sent y' = sent y +:+ flow (incoming server_wire).
Proof.
  apply (controlled_call_answered ping_text parse_ping pong_text parse_pong 9 8 (fun _ => pong) ping pong server_wire (sample_world 0)); try reflexivity.
  - split; try reflexivity; vm_compute; lia.
  - intros i j Hij. cbn. lia.
  - intros i Hi. unfold peek. cbn. lia.
Defined.

(** The caller of that witness exists. *)
Example caller_is_patient : patient 9 ("pong" +:+ newline_text) 5 caller_wire.
Proof. split; try reflexivity; vm_compute; lia. Qed.
(** A frame over the limit, an end before the newline, and a cancelled read are errors. *)
Example refused_reads :
  map (fun l => (read_controlled 9 3 100 "" (mkWire l.1 [] "" l.2) (sample_world 0)).1.1)
    [([Arrives ("one" +:+ newline_text)], []); ([Arrives "on"; Closes], []); ([Arrives "on"], [false; true]); ([Breaks "reset"], [])]
  = [Err "IPC frame limit exceeded"; Err "IPC closed before a complete frame"; Err "IPC cancelled"; Err "reset"].
Proof. vm_compute. reflexivity. Qed.
(** A response that does not fit is replaced. *)
Example large_response_replaced :
  (serve_connection parse_ping pong_text 9 4 (fun _ => pong) (mkWire [Arrives "pin"; Closes] [] "" []) (sample_world 0)).1.1 = Err "IPC closed before a complete frame" /\
  response_frame pong_text 4 pong = response_failure "req_1" (rpc_error "IPC_FRAME_TOO_LARGE" "response exceeds IPC limit").
Proof. split; vm_compute; reflexivity. Qed.
