(* ===== verification/SocketOwnership.v ===== *)
(** * Ownership of a local endpoint ([SocketOwnership], [RpcServer::bind] and [ControlledRpcServer::bind_with_overwrite] of [rpc.rs])

    The servers of this code race for one socket path: the lock file, the check
    of what is at the path, the bind, the identity of the inode, and what the
    drop removes, each a step of its own, on the Unix branch. Programs that do
    not take the lock change the path meanwhile. *)
From stdpp Require Import base gmap relations list.
From S2P Require Import Prelude.
Open Scope nat_scope.

(** Who listens on a socket: a server of this code, or a program that does not take the lock *)
Inductive Listener := Server (p : nat) | Outsider.
(** What is at the path *)
Inductive Node := Plain | Socket (listener : option Listener).

(** Where a server is: [bind] up to [Owned], then the drop. [Leaving]: [bound()] failed, so the lock is gone before the listener is. *)
Inductive Phase := Locked | Checked | Bound | Owned (identity : nat) | Leaving | Closed (identity : nat) | Removing | Unlocking.

(** The lock of the lock file, the entry at the path with its inode, the servers *)
Record Endpoint := mkEndpoint { locked : option nat; entry : option (nat * Node); servers : gmap nat Phase }.
Definition enter (p : nat) (phase : Phase) (s : Endpoint) : Endpoint := mkEndpoint (locked s) (entry s) (<[p:=phase]> (servers s)).
Definition set_entry (e : option (nat * Node)) (s : Endpoint) : Endpoint := mkEndpoint (locked s) e (servers s).
(** [flock(LOCK_UN)], or the death of its holder *)
Definition release (p : nat) (s : Endpoint) : Endpoint := mkEndpoint (if decide (locked s = Some p) then None else locked s) (entry s) (servers s).
Definition gone (p : nat) (s : Endpoint) : Endpoint := mkEndpoint (locked s) (entry s) (delete p (servers s)).
(** The listener of [p] is closed; a socket that it bound stays. *)
Definition close (p : nat) (s : Endpoint) : Endpoint :=
  match entry s with
  | Some (i, Socket (Some (Server q))) => if decide (q = p) then set_entry (Some (i, Socket None)) s else s
  | _ => s
  end.

Section Race.
(** Which servers bind with [try_overwrite(true)]: [RpcServer::bind] and [bind_legacy] do, [ControlledRpcServer::bind] does not *)
Context (legacy : nat -> bool).

(** One step of the server [p]. *)
Inductive step (s : Endpoint) (p : nat) : Endpoint -> Prop :=
| acquires : servers s !! p = None -> locked s = None -> step s p (enter p Locked (mkEndpoint (Some p) (entry s) (servers s)))
| denied q : servers s !! p = None -> locked s = Some q -> step s p s
| passes : servers s !! p = Some Locked -> (entry s = None \/ exists i, entry s = Some (i, Socket None)) -> step s p (enter p Checked s)
| refused : servers s !! p = Some Locked -> step s p (enter p Unlocking s)
| binds i : servers s !! p = Some Checked -> entry s = None -> step s p (enter p Bound (set_entry (Some (i, Socket (Some (Server p)))) s))
| overwrites i old : servers s !! p = Some Checked -> legacy p = true -> entry s = Some old ->
    step s p (enter p Bound (set_entry (Some (i, Socket (Some (Server p)))) s))
| bind_fails : servers s !! p = Some Checked -> step s p (enter p Unlocking s)
| identified i n : servers s !! p = Some Bound -> entry s = Some (i, n) -> step s p (enter p (Owned i) s)
| unidentified : servers s !! p = Some Bound -> step s p (enter p Leaving (release p s))
| leaves : servers s !! p = Some Leaving -> step s p (gone p (close p s))
| closes i : servers s !! p = Some (Owned i) -> step s p (enter p (Closed i) (close p s))
| same_inode i n : servers s !! p = Some (Closed i) -> entry s = Some (i, n) -> step s p (enter p Removing s)
| other_inode i : servers s !! p = Some (Closed i) -> step s p (enter p Unlocking s)
| removes : servers s !! p = Some Removing -> step s p (enter p Unlocking (set_entry None s))
| remove_fails : servers s !! p = Some Removing -> step s p (enter p Unlocking s)
| unlocks : servers s !! p = Some Unlocking -> step s p (gone p (release p s))
| dies phase : servers s !! p = Some phase -> step s p (gone p (release p (close p s))).

(** The inode that a server takes for its own *)
Definition identity (phase : Phase) : option nat := match phase with Owned i | Closed i => Some i | _ => None end.
(** The moments between a look at the path and what follows from it: from the check to the bind, from the bind to
    the reading of the inode, from the comparison of the inode to the removal *)
Definition in_window (phase : Phase) : bool := match phase with Checked | Bound | Removing => true | _ => false end.
Definition calm (s : Endpoint) : Prop := forall p phase, servers s !! p = Some phase -> in_window phase = false.

(** An entry that a program without the lock makes: not of a server of this code, with an inode that no server takes for its own *)
Definition foreign_entry (s : Endpoint) (e : option (nat * Node)) : Prop :=
  match e with
  | None => True
  | Some (_, Socket (Some (Server _))) => False
  | Some (j, _) => forall p phase, servers s !! p = Some phase -> identity phase <> Some j
  end.

(** A program without the lock removes what is at the path, or puts something else there; or it stops listening there. *)
Inductive outside (s : Endpoint) : Endpoint -> Prop :=
| replaces e : foreign_entry s e -> outside s (set_entry e s)
| stops i : entry s = Some (i, Socket (Some Outsider)) -> outside s (set_entry (Some (i, Socket None)) s).

(** Before any server of this code: whatever is at the path is not of its making. *)
Definition initial (s : Endpoint) : Prop :=
  locked s = None /\ servers s = ∅ /\ match entry s with Some (_, Socket (Some (Server _))) => False | _ => True end.
(** Servers take their steps in any order; other programs change the path at any moment that is no window of a server. *)
Definition moves (a b : Endpoint) : Prop := (exists p, step a p b) \/ (calm a /\ outside a b).
Definition reachable (s : Endpoint) : Prop := exists s0, initial s0 /\ rtc moves s0 s.

(** Something at the path that the server [p] must leave alone: not a socket, or a socket on which another listens *)
Definition anothers (p : nat) (e : option (nat * Node)) : Prop :=
  match e with Some (_, Plain) | Some (_, Socket (Some Outsider)) => True | Some (_, Socket (Some (Server q))) => q <> p | _ => False end.

(** The server whose inode was [i] has been replaced at the path. *)
Definition replaced (i : nat) (e : option (nat * Node)) : Prop :=
  match e with None => True | Some (_, Socket (Some (Server _))) => False | Some (j, _) => j <> i end.

(** What a phase says of the entry at the path *)
Definition agrees (p : nat) (e : option (nat * Node)) (phase : Phase) : Prop :=
  match phase with
  | Locked | Unlocking => forall i, e <> Some (i, Socket (Some (Server p)))
  | Checked => e = None \/ exists i, e = Some (i, Socket None)
  | Bound => exists i, e = Some (i, Socket (Some (Server p)))
  | Leaving => True
  | Owned i => e = Some (i, Socket (Some (Server p))) \/ replaced i e
  | Closed i => e = Some (i, Socket None) \/ replaced i e
  | Removing => exists i, e = Some (i, Socket None)
  end.
Definition leaving (phase : Phase) : bool := match phase with Leaving => true | _ => false end.

Record consistent (s : Endpoint) : Prop := mk_consistent {
  cs_holds : forall p phase, servers s !! p = Some phase -> leaving phase = false -> locked s = Some p;
  cs_agrees : forall p phase, servers s !! p = Some phase -> agrees p (entry s) phase;
  cs_live : forall i p, entry s = Some (i, Socket (Some (Server p))) -> is_Some (servers s !! p);
}.

Lemma initial_consistent s : initial s -> consistent s.
Proof.
  intros (Hl & Hs & He). split.
  - intros p phase H. by rewrite Hs in H.
  - intros p phase H. by rewrite Hs in H.
  - intros i p H. by rewrite H in He.
Qed.

Lemma close_entry p s : entry (close p s) =
  match entry s with Some (i, Socket (Some (Server q))) => if decide (q = p) then Some (i, Socket None) else entry s | e => e end.
Proof. unfold close. destruct (entry s) as [[i [|[[q|]|]]]|] eqn:E; try done. by case_decide. Qed.
Lemma close_locked p s : locked (close p s) = locked s.
Proof. unfold close. repeat case_match; done. Qed.
Lemma close_servers p s : servers (close p s) = servers s.
Proof. unfold close. repeat case_match; done. Qed.

(** A server moves to a new phase: it is enough to look at it, for every other that has started is leaving. *)
Lemma consistent_enter p phase e s :
  consistent s -> is_Some (servers s !! p) -> locked s = Some p -> leaving phase = false ->
  agrees p e phase -> (forall i q, e = Some (i, Socket (Some (Server q))) -> q = p \/ e = entry s) ->
  consistent (enter p phase (set_entry e s)).
Proof.
  intros Hc [old Hold] Hl Hph Ha Hnew. split; cbn [servers enter locked set_entry entry].
  - intros q ph Hq Hlv. apply lookup_insert_Some in Hq as [[<- <-]|[Hne Hq]]; [done|]. by apply (cs_holds _ Hc) in Hq.
  - intros q ph Hq. apply lookup_insert_Some in Hq as [[<- <-]|[Hne Hq]]; [done|]. destruct (leaving ph) eqn:El; [by destruct ph|].
    pose proof (cs_holds _ Hc _ _ Hq El). congruence.
  - intros i q Eq. destruct (decide (q = p)) as [->|Hne]; [rewrite lookup_insert; by case_decide|]. rewrite lookup_insert_ne by done.
    destruct (Hnew i q Eq) as [->|E]; [done|]. rewrite E in Eq. by apply (cs_live _ Hc) in Eq.
Qed.

(** A server goes away: its listener is closed, and the lock stays with whom else holds it. *)
Lemma consistent_gone p l s : consistent s -> (forall q, q <> p -> locked s = Some q -> l = Some q) ->
  consistent (mkEndpoint l (entry (close p s)) (delete p (servers s))).
Proof.
  intros Hc Hl. rewrite close_entry. split; cbn [servers locked entry].
  - intros q ph Hq Hlv. apply lookup_delete_Some in Hq as [Hne Hq]. apply Hl; [done|]. by apply (cs_holds _ Hc) in Hq.
  - intros q ph Hq. apply lookup_delete_Some in Hq as [Hne Hq]. pose proof (cs_agrees _ Hc _ _ Hq) as Ha.
    destruct (entry s) as [[i [|[[r|]|]]]|]; try exact Ha. case_decide as Er; [|exact Ha]. subst r.
    destruct ph; cbn in Ha |- *; naive_solver congruence.
  - intros i q Eq. rewrite lookup_delete_ne; [apply (cs_live _ Hc i)|]; destruct (entry s) as [[j [|[[r|]|]]]|]; try done; case_decide; congruence.
Qed.

Lemma release_locked p s q : q <> p -> locked s = Some q -> locked (release p s) = Some q.
Proof. intros Hne E. unfold release. cbn. case_decide; congruence. Qed.

Lemma same_entry p phase s : enter p phase s = enter p phase (set_entry (entry s) s).
Proof. by destruct s. Qed.

Lemma closed_replaced p i e : agrees p e (Closed i) -> forall j, e <> Some (j, Socket (Some (Server p))).
Proof. intros [->|Hr] j; [done|]. by intros ->. Qed.

Lemma step_consistent p s s' : consistent s -> step s p s' -> consistent s'.
Proof.
  intros Hc Hs. assert (forall phase, servers s !! p = Some phase -> agrees p (entry s) phase) as Hag by (intros ph; apply (cs_agrees _ Hc)).
  assert (forall phase ph', servers s !! p = Some phase -> leaving phase = false -> leaving ph' = false -> agrees p (entry s) ph' -> consistent (enter p ph' s)) as Hstay.
  { intros ph ph' Hp H1 H2 Ha. rewrite same_entry. apply consistent_enter; [done|by exists ph|by apply (cs_holds _ Hc) in Hp|done|done|by right]. }
  destruct Hs as [Hn Hl|q Hn Hl|Hp He|Hp|i Hp He|i old Hp Hlg He|Hp|i n Hp He|Hp|Hp|i Hp|i n Hp He|i Hp|Hp|Hp|Hp|ph Hp].
  - split; cbn.
    + intros q ph Hq Hlv. apply lookup_insert_Some in Hq as [[<- <-]|[Hne Hq]]; [done|]. apply (cs_holds _ Hc) in Hq; congruence.
    + intros q ph Hq. apply lookup_insert_Some in Hq as [[<- <-]|[Hne Hq]]; [|by apply (cs_agrees _ Hc)].
      intros i E. apply (cs_live _ Hc) in E as [ph E]. congruence.
    + intros i q E. apply (cs_live _ Hc) in E as [ph E]. destruct (decide (q = p)) as [->|Hne]; [congruence|]. rewrite lookup_insert_ne by done. by exists ph.
  - done.
  - by apply (Hstay Locked).
  - apply (Hstay Locked); [done..|]. by apply Hag in Hp.
  - apply consistent_enter; [done|by eexists|by apply (cs_holds _ Hc) in Hp|done|by exists i|]. intros j q [= _ <-]. by left.
  - apply consistent_enter; [done|by eexists|by apply (cs_holds _ Hc) in Hp|done|by exists i|]. intros j q [= _ <-]. by left.
  - apply (Hstay Checked); [done..|]. apply Hag in Hp. cbn in Hp |- *. naive_solver congruence.
  - apply (Hstay Bound); [done..|]. apply Hag in Hp as [j Ha]. cbn. left. congruence.
  - pose proof (cs_holds _ Hc _ _ Hp eq_refl) as Hl. split; cbn.
    + intros q ph Hq Hlv. apply lookup_insert_Some in Hq as [[<- <-]|[Hne Hq]]; [done|]. pose proof (cs_holds _ Hc _ _ Hq Hlv). congruence.
    + intros q ph Hq. apply lookup_insert_Some in Hq as [[<- <-]|[Hne Hq]]; [done|by apply (cs_agrees _ Hc)].
    + intros j q E. apply (cs_live _ Hc) in E. destruct (decide (q = p)) as [->|Hne]; [rewrite lookup_insert; by case_decide|by rewrite lookup_insert_ne].
  - unfold gone. rewrite close_locked, close_servers. by apply consistent_gone.
  - apply Hag in Hp as Ha. destruct Ha as [Ha|Ha].
    + assert (close p s = set_entry (Some (i, Socket None)) s) as -> by (unfold close; rewrite Ha; by case_decide).
      apply consistent_enter; [done|by eexists|by apply (cs_holds _ Hc) in Hp|done|by left|done].
    + assert (close p s = s) as -> by (unfold close; destruct (entry s) as [[j [|[[r|]|]]]|]; done).
      apply (Hstay (Owned i)); [done..|by right].
  - apply (Hstay (Closed i)); [done..|]. apply Hag in Hp as [Ha|Ha]; [by exists i|]. rewrite He in Ha. exfalso.
    destruct n as [|[[r|]|]]; cbn in Ha; done.
  - apply (Hstay (Closed i)); [done..|]. apply Hag in Hp. intros j. by apply (closed_replaced p i).
  - apply consistent_enter; [done|by eexists|by apply (cs_holds _ Hc) in Hp|done|done|done].
  - apply (Hstay Removing); [done..|]. apply Hag in Hp as [j E]. cbn. congruence.
  - apply Hag in Hp as Ha. cbn in Ha. unfold gone. assert (entry (release p s) = entry (close p s)) as ->; [|apply (consistent_gone p _ s); [done|intros q Hne E; by apply release_locked]].
    rewrite close_entry. cbn. destruct (entry s) as [[i [|[[r|]|]]]|]; try done. case_decide; [|done]. subst r. by destruct (Ha i).
  - unfold gone. cbn [release entry servers]. rewrite close_servers. apply (consistent_gone p _ s); [done|]. intros q Hne E. apply release_locked; [done|]. by rewrite close_locked.
Qed.

Lemma outside_consistent s s' : consistent s -> calm s -> outside s s' -> consistent s'.
Proof.
  intros Hc Hcalm [e He|i He]; split; cbn [servers locked entry set_entry].
  - apply (cs_holds _ Hc).
  - intros p phase Hp. specialize (Hcalm _ _ Hp). unfold foreign_entry in He.
    destruct phase; try done; cbn; [intros i ->; done| | |intros i ->; done];
      right; destruct e as [[j [|[[q|]|]]]|]; cbn; try done; intros ->; by eapply He.
  - intros i p ->. done.
  - apply (cs_holds _ Hc).
  - intros p phase Hp. pose proof (cs_agrees _ Hc _ _ Hp) as Ha. rewrite He in Ha. destruct phase; cbn in Ha |- *; naive_solver.
  - done.
Qed.

Lemma reachable_consistent s : reachable s -> consistent s.
Proof.
  intros (s0 & H0 & H). apply initial_consistent in H0. induction H as [|a b c [[p Hp]|[Hcalm Ho]] _ IH]; [done| |]; apply IH.
  - by apply (step_consistent p a).
  - by apply (outside_consistent a).
Qed.

(** C24: the servers of this code share a socket path safely, in every interleaving, deaths included, with programs that do not take the lock and replace what is at the path at any moment that is no window of a server (with an inode that no server takes for its own): one that serves is the only one, and it is reached at the path unless such a program has put something else there; and no step of a server, neither the bind that overwrites nor the removal at the drop, takes away a live endpoint of another server or program, or what is not a socket. *)
Theorem endpoints_are_not_stolen s : reachable s ->
  (forall p i, servers s !! p = Some (Owned i) ->
     (entry s = Some (i, Socket (Some (Server p))) \/ replaced i (entry s)) /\ forall q j, servers s !! q = Some (Owned j) -> q = p) /\
  (forall p s', step s p s' -> anothers p (entry s) -> entry s' = entry s).
Proof.
  intros Hr. apply reachable_consistent in Hr as Hc. split.
  - intros p i Hp. split; [exact (cs_agrees _ Hc _ _ Hp)|]. intros q j Hq. apply (cs_holds _ Hc) in Hp, Hq; [|done..]. congruence.
  - intros p s' Hs Ha. assert (forall ph, servers s !! p = Some ph -> agrees p (entry s) ph) as Hag by (intros ph; apply (cs_agrees _ Hc)).
    assert (entry (close p s) = entry s) as Hcl by (rewrite close_entry; destruct (entry s) as [[i [|[[r|]|]]]|]; try done; cbn in Ha; by case_decide).
    destruct Hs; cbn; try done; try (by rewrite Hcl).
    all: match goal with H : servers _ !! _ = Some _ |- _ => apply Hag in H; cbn in H end; exfalso.
    all: repeat match goal with H : _ \/ _ |- _ => destruct H | H : exists _, _ |- _ => destruct H end.
    all: match goal with H : entry _ = _ |- _ => by rewrite H in Ha end.
Qed.
End Race.

(** ** A run *)

(** A dead socket is left at the path; server 0, which overwrites, takes it, and server 1 is denied. *)
Definition stale : Endpoint := mkEndpoint None (Some (7, Socket None)) ∅.
Definition holding : Endpoint := enter 0 Locked (mkEndpoint (Some 0) (entry stale) (servers stale)).
Definition binding : Endpoint := enter 0 Checked holding.
Definition bound : Endpoint := enter 0 Bound (set_entry (Some (8, Socket (Some (Server 0)))) binding).
Definition serving : Endpoint := enter 0 (Owned 8) bound.
Lemma serving_reachable : reachable (fun _ => true) serving.
Proof.
  exists stale. split; [by repeat split|].
  apply rtc_l with holding; [left; by exists 0; apply acquires|]. apply rtc_l with binding; [left; exists 0; apply passes; [done|right; by exists 7]|].
  apply rtc_l with bound; [left; by exists 0; apply (overwrites _ binding 0 8 (7, Socket None))|].
  apply rtc_once. left. exists 0. by apply (identified _ bound 0 8 (Socket (Some (Server 0)))).
Qed.

(** Another program replaces the socket while the server serves, and the server is dropped. *)
Definition replacement : option (nat * Node) := Some (9, Socket (Some Outsider)).
Definition taken_over : Endpoint := set_entry replacement serving.
Definition dropping : Endpoint := enter 0 (Closed 8) (close 0 taken_over).
Lemma dropping_reachable : reachable (fun _ => true) dropping.
Proof.
  destruct serving_reachable as (s0 & H0 & H). exists s0. split; [done|]. apply (rtc_r _ taken_over); [apply (rtc_r _ serving)|].
  - exact H.
  - right. split.
    + intros p phase Hp. destruct (decide (p = 0)) as [->|Hne]; [by simplify_map_eq|]. unfold serving, bound, binding, holding, stale in Hp. by simplify_map_eq.
    + apply replaces. intros p phase Hp. destruct (decide (p = 0)) as [->|Hne]; [by simplify_map_eq|]. unfold serving, bound, binding, holding, stale in Hp. by simplify_map_eq.
  - left. exists 0. by apply closes.
Qed.

(** The drop leaves the replacement in place, whatever the server does next. *)
Lemma endpoints_are_not_stolen_witness :
  (entry serving = Some (8, Socket (Some (Server 0))) \/ replaced 8 (entry serving)) /\
  forall s', step (fun _ => true) dropping 0 s' -> entry s' = replacement.
Proof.
  split; [by apply (proj1 (endpoints_are_not_stolen (fun _ => true) serving serving_reachable) 0 8)|].
  intros s' Hst. exact (proj2 (endpoints_are_not_stolen (fun _ => true) dropping dropping_reachable) 0 s' Hst I).
Defined.
(** The second server cannot do anything but be denied. *)
Example second_server_denied s' : step (fun _ => true) serving 1 s' -> s' = serving.
Proof. by inversion 1; simplify_map_eq. Qed.

(** In a window the check does not help: a program without the lock that binds between the check of a server and its
    bind loses its live endpoint to the bind that overwrites. *)
Theorem endpoint_stolen_in_the_window :
  exists s', outside binding (set_entry replacement binding) /\ step (fun _ => true) (set_entry replacement binding) 0 s' /\
    entry s' = Some (10, Socket (Some (Server 0))).
Proof.
  eexists. split_and!; [|by apply (overwrites _ _ 0 10 (9, Socket (Some Outsider)))|done].
  apply replaces. intros p phase Hp. destruct (decide (p = 0)) as [->|Hne]; [by simplify_map_eq|]. unfold binding, holding, stale in Hp. by simplify_map_eq.
Qed.
