(* ===== verification/PeerSsh.v ===== *)
(** * Peers over ssh ([crates/machine-fabric-peer/src/ssh.rs])

    The endpoint with its checks and the arguments of [ssh], and [ManagedSshPeer]:
    the worker that opens one connection after the other under one lease, the
    threads that close the channel, the callers, the lease and the connections
    themselves, as interleaved steps. A connection is its number; [Connection]
    has its inside. *)
From Stdlib Require Import Ascii.
From stdpp Require Import base gmap fin_sets strings list relations pretty.
From S2P Require Import Prelude Framing Connection.
Open Scope Z_scope.
Open Scope fabric_scope.

(** ** The endpoint *)

(** [SshEndpoint]; paths are their text *)
Record SshEndpoint := mkSshEndpoint {
  host : string;
  port : Z;
  username : string;
  identity_file : string;
  known_hosts_file : string;
  remote_command : string;
  executable : string;
  connect_timeout_seconds : Z;
}.

Definition one_of (l : string) (c : ascii) : bool := existsb (Ascii.eqb c) (String.list_ascii_of_string l).
Definition first_is (c : ascii) (s : string) : bool := match s with String d _ => Ascii.eqb c d | EmptyString => false end.
(** [Path::is_absolute] on Unix *)
Definition is_absolute (path : string) : bool := first_is "/"%char path.
Definition NUL : ascii := "000"%char.
Definition CR : ascii := "013"%char.
Definition LF : ascii := "010"%char.

(** [SshEndpoint::validate]: the conditions on the fields, and the files *)
Definition fields_refused (e : SshEndpoint) : bool :=
  str_is_empty (host e) || first_is "-"%char (host e)
  || negb (bytes_all (fun c => is_ascii_alphanumeric c || one_of ".:-_[]" c) (host e))
  || (port e =? 0) || str_is_empty (username e)
  || negb (bytes_all (fun c => is_ascii_alphanumeric c || one_of "._-\@" c) (username e))
  || negb (is_absolute (identity_file e)) || negb (is_absolute (known_hosts_file e))
  || str_is_empty (remote_command e) || (16384 <? str_len (remote_command e))
  || negb (bytes_all (fun c => negb (Ascii.eqb c NUL || Ascii.eqb c CR || Ascii.eqb c LF)) (remote_command e))
  || (connect_timeout_seconds e =? 0) || (300 <? connect_timeout_seconds e) || str_is_empty (executable e).

Definition validate (is_file : string -> bool) (e : SshEndpoint) : result string unit :=
  if fields_refused e then Err "invalid executor-owned SSH configuration"
  else if forallb is_file [identity_file e; known_hosts_file e] then Ok tt
  else Err "SSH identity or pinned known-hosts file is unavailable".

Definition quote_char : ascii := "034"%char.
Definition known_hosts_char (c : ascii) : bool := negb (existsb (Ascii.eqb c) [quote_char; CR; LF; NUL; "%"%char]).

(** The arguments that are the same for every endpoint *)
Definition fixed_arguments : list string :=
  ["-F"; "none"; "-T"; "-a"; "-x"; "-o"; "BatchMode=yes"; "-o"; "StrictHostKeyChecking=yes"; "-o"; "IdentitiesOnly=yes";
   "-o"; "IdentityAgent=none"; "-o"; "PasswordAuthentication=no"; "-o"; "KbdInteractiveAuthentication=no";
   "-o"; "PreferredAuthentications=publickey"; "-o"; "ClearAllForwardings=yes"; "-o"; "ControlMaster=no"; "-o"; "ControlPath=none";
   "-o"; "ProxyCommand=none"; "-o"; "ProxyJump=none"; "-o"; "ServerAliveInterval=5"; "-o"; "ServerAliveCountMax=2"; "-o"; "TCPKeepAlive=yes";
   "-o"; "GlobalKnownHostsFile=/dev/null"].

(** [SshEndpoint::command]: the program and its arguments *)
Definition command (is_file : string -> bool) (e : SshEndpoint) : result string (string * list string) :=
  bind_result (validate is_file e) (fun _ =>
  if negb (bytes_all known_hosts_char (known_hosts_file e)) then Err "unsupported known-hosts path"
  else Ok (executable e,
    fixed_arguments ++ ["-o"; "ConnectTimeout=" +:+ pretty (connect_timeout_seconds e)]
      ++ ["-o"; "UserKnownHostsFile=" +:+ String quote_char "" +:+ known_hosts_file e +:+ String quote_char ""]
      ++ ["-i"; identity_file e] ++ ["-p"; pretty (port e)] ++ ["-l"; username e]
      ++ ["--"; host e; remote_command e])).

(** ** The managed channel *)

Record ReconnectPolicy := mkReconnectPolicy { initial_backoff : Z; max_backoff : Z; drain_timeout : Z }.
Definition ReconnectPolicy_default : ReconnectPolicy := mkReconnectPolicy 1000 5000 2000.
Definition policy_refused (p : ReconnectPolicy) : bool :=
  (initial_backoff p =? 0) || (max_backoff p <? initial_backoff p) || (drain_timeout p =? 0).

(** Where the worker of [ManagedSshPeer::start] is; the number is the connection it works with. *)
Inductive Worker :=
| WCheck                                 (* the condition of the loop *)
| WBegin                                 (* the condition held; the attempt is not yet counted *)
| WOpening                               (* [endpoint.open()] *)
| WStarting                              (* [PeerConnection::start] on an open transport *)
| WStarted (p : nat)                     (* not yet in [current] *)
| WPublished (p : nat)                   (* [wait_ready] *)
| WWaiting (p : nat)                     (* [wait_closed] *)
| WDraining (p : nat) (last : CloseReason)
| WOver (last : CloseReason)             (* before [current = None] *)
| WBackoff
| WLeaving                               (* after the loop *)
| WStopped.

#[export] Instance Worker_eq_dec : EqDecision Worker.
Proof. solve_decision. Defined.

(** The connection that the worker has started *)
Definition peer_of (w : Worker) : option nat :=
  match w with WStarted p | WPublished p | WWaiting p => Some p | _ => None end.

(** A thread in [close]: it has set [stop]; it has read [current]; it has returned. *)
Inductive Closer := ClStopping | ClClosing (current : option nat) | ClReturned.

(** [Managed] with its state, the state of the worker and of the closers, the lease, and the connections that were
    started: [mg_closed] are those that are closed; [mg_children] are the ssh processes, by generation, that were not yet reaped. *)
Record Managed := mkManaged {
  mg_current : option nat;
  mg_state : string;
  mg_generation : nat;
  mg_last_close : option CloseReason;
  mg_stopped : bool;
  mg_stop : bool;
  mg_worker : Worker;
  mg_backoff : Z;
  mg_closers : gmap nat Closer;
  mg_lease : option string;
  mg_closed : gmap nat CloseReason;
  mg_children : list nat;
}.

Definition put_worker (w : Worker) (s : Managed) : Managed :=
  mkManaged (mg_current s) (mg_state s) (mg_generation s) (mg_last_close s) (mg_stopped s) (mg_stop s) w (mg_backoff s) (mg_closers s) (mg_lease s) (mg_closed s) (mg_children s).
Definition put_current (c : option nat) (s : Managed) : Managed :=
  mkManaged c (mg_state s) (mg_generation s) (mg_last_close s) (mg_stopped s) (mg_stop s) (mg_worker s) (mg_backoff s) (mg_closers s) (mg_lease s) (mg_closed s) (mg_children s).
Definition put_status (state : string) (last : option CloseReason) (stopped : bool) (s : Managed) : Managed :=
  mkManaged (mg_current s) state (mg_generation s) last stopped (mg_stop s) (mg_worker s) (mg_backoff s) (mg_closers s) (mg_lease s) (mg_closed s) (mg_children s).
Definition next_generation (s : Managed) : Managed :=
  mkManaged (mg_current s) (mg_state s) (S (mg_generation s)) (mg_last_close s) (mg_stopped s) (mg_stop s) (mg_worker s) (mg_backoff s) (mg_closers s) (mg_lease s) (mg_closed s) (mg_children s).
Definition put_stop (s : Managed) : Managed :=
  mkManaged (mg_current s) (mg_state s) (mg_generation s) (mg_last_close s) (mg_stopped s) true (mg_worker s) (mg_backoff s) (mg_closers s) (mg_lease s) (mg_closed s) (mg_children s).
Definition put_backoff (b : Z) (s : Managed) : Managed :=
  mkManaged (mg_current s) (mg_state s) (mg_generation s) (mg_last_close s) (mg_stopped s) (mg_stop s) (mg_worker s) b (mg_closers s) (mg_lease s) (mg_closed s) (mg_children s).
Definition put_closer (k : nat) (c : Closer) (s : Managed) : Managed :=
  mkManaged (mg_current s) (mg_state s) (mg_generation s) (mg_last_close s) (mg_stopped s) (mg_stop s) (mg_worker s) (mg_backoff s) (<[k:=c]> (mg_closers s)) (mg_lease s) (mg_closed s) (mg_children s).
Definition put_lease (l : option string) (s : Managed) : Managed :=
  mkManaged (mg_current s) (mg_state s) (mg_generation s) (mg_last_close s) (mg_stopped s) (mg_stop s) (mg_worker s) (mg_backoff s) (mg_closers s) l (mg_closed s) (mg_children s).
Definition put_children (l : list nat) (s : Managed) : Managed :=
  mkManaged (mg_current s) (mg_state s) (mg_generation s) (mg_last_close s) (mg_stopped s) (mg_stop s) (mg_worker s) (mg_backoff s) (mg_closers s) (mg_lease s) (mg_closed s) l.
(** [peer.close()] and every other end of a connection: the first reason counts. *)
Definition close_peer (p : nat) (reason : CloseReason) (s : Managed) : Managed :=
  mkManaged (mg_current s) (mg_state s) (mg_generation s) (mg_last_close s) (mg_stopped s) (mg_stop s) (mg_worker s) (mg_backoff s) (mg_closers s) (mg_lease s)
    (match mg_closed s !! p with Some _ => mg_closed s | None => <[p:=reason]> (mg_closed s) end) (mg_children s).
Definition reap (g : nat) (s : Managed) : Managed := put_children (List.filter (fun c => negb (Nat.eqb c g)) (mg_children s)) s.

(** [worker.stop.load() || lease.ended().is_some()] *)
Definition ending (s : Managed) : bool := mg_stop s || bool_decide (is_Some (mg_lease s)).
Definition stop_reason (lease : option string) (last : option CloseReason) : CloseReason :=
  match lease with
  | Some reason => if String.eqb reason "expired" then LeaseExpired else LeaseRevoked
  | None => if bool_decide (last = Some DrainIncomplete) then DrainIncomplete else Requested
  end.

(** The steps: of the worker, with what it then finds; of a thread that closes; of the lease; of a connection that ends by itself.
    The worker reads [stop], then the lease, and takes no lock for it: what it found is one step, and what it does then, another.
    (One step for both reads is enough: a lease that has ended stays so.) *)
Inductive Event :=
| EvCheck
| EvBegin
| EvOpen (opened : bool)
| EvStart (begun : bool)
| EvPublish
| EvReady (ok : bool)
| EvClosed
| EvDrained (drained : bool)
| EvOver (stable : bool)
| EvBackoff (over : bool)
| EvLeave
| EvClose (k : nat)
| EvLease (reason : string)
| EvEnds (p : nat) (reason : CloseReason).

Definition of_worker (e : Event) : bool := match e with EvClose _ | EvLease _ | EvEnds _ _ => false | _ => true end.

Section Managed.
Context (policy : ReconnectPolicy).

Definition worker_step (e : Event) (s : Managed) : option Managed :=
  match mg_worker s, e with
  | WCheck, EvCheck =>
      if ending s then Some (put_worker WLeaving s)
      else Some (put_worker WBegin s)
  | WBegin, EvBegin => Some (put_worker WOpening (next_generation (put_status "connecting" (mg_last_close s) (mg_stopped s) s)))
  | WOpening, EvOpen opened =>
      if opened then Some (put_worker WStarting (put_children (mg_generation s :: mg_children s) s))
      else Some (put_worker (WOver Disconnected) s)
  | WStarting, EvStart begun =>
      if begun then Some (put_worker (WStarted (mg_generation s)) s)
      else Some (put_worker (WOver Disconnected) (reap (mg_generation s) s))
  | WStarted p, EvPublish =>
      let s := put_worker (WPublished p) (put_current (Some p) s) in
      Some (if ending s then close_peer p Requested s else s)
  | WPublished p, EvReady ok =>
      Some (put_worker (WWaiting p) (if ok then put_status "ready" (mg_last_close s) (mg_stopped s) s else s))
  | WWaiting p, EvClosed =>
      match mg_closed s !! p with
      | Some reason => Some (put_worker (WDraining p reason) (reap p s))
      | None => None
      end
  | WDraining p last, EvDrained drained =>
      if drained then Some (put_worker (WOver last) s) else Some (put_worker (WOver DrainIncomplete) (put_stop s))
  | WOver last, EvOver stable =>
      let s := put_current None (put_status "backoff" (Some last) (mg_stopped s) s) in
      Some (put_worker WBackoff (if stable then put_backoff (initial_backoff policy) s else s))
  | WBackoff, EvBackoff over =>
      if over || ending s then Some (put_worker WCheck (put_backoff (Z.min (mg_backoff s * 2) (max_backoff policy)) s)) else Some s
  | WLeaving, EvLeave =>
      Some (put_worker WStopped (put_current None (put_status "stopped" (Some (stop_reason (mg_lease s) (mg_last_close s))) true s)))
  | _, _ => None
  end.

(** [close] *)
Definition close_step (k : nat) (s : Managed) : option Managed :=
  match mg_closers s !! k with
  | None => Some (put_closer k ClStopping (put_stop s))
  | Some ClStopping => Some (put_closer k (ClClosing (mg_current s)) s)
  | Some (ClClosing (Some p)) => Some (put_closer k ClReturned (close_peer p Requested s))
  | Some (ClClosing None) => Some (put_closer k ClReturned s)
  | Some ClReturned => None
  end.

Definition step (e : Event) (s : Managed) : option Managed :=
  match e with
  | EvClose k => close_step k s
  | EvLease reason => match mg_lease s with None => Some (put_lease (Some reason) s) | Some _ => None end
  | EvEnds p reason => if bool_decide (peer_of (mg_worker s) = Some p) then Some (close_peer p reason s) else None
  | _ => worker_step e s
  end.

(** [ManagedSshPeer::start], when its checks pass *)
Definition started : Managed := mkManaged None "connecting" 0 None false false WCheck (initial_backoff policy) ∅ None ∅ [].

Definition goes (s s' : Managed) : Prop := exists e, step e s = Some s'.
Definition reachable (s : Managed) : Prop := rtc goes started s.

(** [ManagedSshPeer::call]: the connection on which the request is sent, once, or the failure *)
Definition route (s : Managed) : option nat := mg_current s.
(** [ManagedSshPeer::status] *)
Definition status_of (s : Managed) : string * nat * option CloseReason := (mg_state s, mg_generation s, mg_last_close s).
End Managed.

(** ** The channel: theorems *)

Section Theorems.
Context (policy : ReconnectPolicy).
Local Abbreviation step := (step policy).
Local Abbreviation worker_step := (worker_step policy).
Local Abbreviation reachable := (reachable policy).

(** The ssh processes that are not reaped *)
Definition children_of (s : Managed) : list nat :=
  match mg_worker s with
  | WStarting => [mg_generation s]
  | WStarted p | WPublished p | WWaiting p => [p]
  | _ => []
  end.
(** The connection that is in [current], and that a caller may be using *)
Definition published (w : Worker) : option nat := match w with WPublished p | WWaiting p => Some p | _ => None end.

Record sound (s : Managed) : Prop := mk_sound {
  so_peer : forall p, peer_of (mg_worker s) = Some p -> p = mg_generation s;
  so_current : forall p, published (mg_worker s) = Some p -> mg_current s = Some p;
  so_children : mg_children s = children_of s;
  so_closers : forall k c, mg_closers s !! k = Some c -> mg_stop s = true;
  (** Who closes after the connection was published has seen it or will see it. *)
  so_seen : forall p k c, published (mg_worker s) = Some p -> mg_closed s !! p = None ->
    mg_closers s !! k = Some c -> c = ClStopping \/ c = ClClosing (Some p);
  so_stopped : mg_stopped s = bool_decide (mg_worker s = WStopped);
}.

Lemma started_sound : sound (started policy).
Proof. by split. Qed.

Ltac fields := cbn [mg_current mg_state mg_generation mg_last_close mg_stopped mg_stop mg_worker mg_backoff mg_closers mg_lease mg_closed mg_children
  put_worker put_current put_status next_generation put_stop put_backoff put_closer put_lease put_children close_peer reap peer_of published children_of] in *.

Lemma close_peer_sound p reason s : sound s -> sound (close_peer p reason s).
Proof.
  intros [H1 H2 H3 H4 H5 H6]. split; [exact H1|exact H2|exact H3|exact H4| |exact H6]. intros q k c Hq Hn. fields.
  destruct (mg_closed s !! p) eqn:E; [by apply H5|]. apply lookup_insert_None in Hn as [Hn _]. by apply H5.
Qed.

Lemma close_step_sound k s s' : sound s -> close_step k s = Some s' -> sound s'.
Proof.
  intros [H1 H2 H3 H4 H5 H6]. unfold close_step. destruct (mg_closers s !! k) as [[|[p|]|]|] eqn:E; intros H'; inversion H'; subst s'; clear H'.
  - split; fields; try done; intros.
    + apply lookup_insert_Some in H as [[_ <-]|[_ H]]; eauto.
    + apply lookup_insert_Some in H7 as [[_ <-]|[_ H7]]; [|by eapply H5]. right. by rewrite (H2 p).
  - split; fields; try done; intros.
    + apply lookup_insert_Some in H as [[_ <-]|[_ H]]; eauto.
    + assert (mg_closed s !! p0 = None /\ p0 <> p) as [Hn Hne] by (destruct (mg_closed s !! p) eqn:Ep; [split; congruence|by apply lookup_insert_None in H0 as [? ?]]).
      apply lookup_insert_Some in H7 as [[_ <-]|[_ H7]]; [|by eapply H5]. destruct (H5 p0 k _ H Hn E); congruence.
  - split; fields; try done; intros.
    + apply lookup_insert_Some in H as [[_ <-]|[_ H]]; eauto.
    + destruct (H5 p k _ H H0 E); congruence.
  - split; fields; try done; intros. apply lookup_insert_Some in H7 as [[_ <-]|[_ H7]]; [by left|by eapply H5].
Qed.

Lemma filter_self n : List.filter (fun c => negb (Nat.eqb c n)) [n] = [].
Proof. cbn. by rewrite Nat.eqb_refl. Qed.

Lemma worker_step_sound e s s' : sound s -> worker_step e s = Some s' -> sound s'.
Proof.
  intros [H1 H2 H3 H4 H5 H6] H. unfold PeerSsh.worker_step in H. unfold children_of in *.
  destruct (mg_worker s) as [| | | |p|p|p|p last|last| | |] eqn:Ew; try done; destruct e; try done; cbv zeta in H.
  - destruct (ending s); injection H as H; subst s'; split; fields; try done; congruence.
  - injection H as H; subst s'; split; fields; try done; congruence.
  - destruct opened; injection H as H; subst s'; split; fields; try done; congruence.
  - destruct begun; injection H as H; subst s'; split; fields; try done; rewrite ?H3, ?filter_self; try done; congruence.
  - assert (sound (if ending s then close_peer p Requested (put_worker (WPublished p) (put_current (Some p) s)) else put_worker (WPublished p) (put_current (Some p) s))) as Hs.
    { destruct (ending s) eqn:Ee; split; fields; try done; try (intros q; apply (H1 q)); try (by rewrite H6); intros q k c [= <-] Hn Hk; exfalso.
      - destruct (mg_closed s !! p) eqn:Ep; [congruence|]. by rewrite lookup_insert in Hn; case_decide.
      - unfold ending in Ee. by rewrite (H4 k c Hk) in Ee. }
    injection H as H; subst s'. exact Hs.
  - destruct ok; injection H as H; subst s'; split; fields; try done; by apply H5.
  - destruct (mg_closed s !! p) as [reason|] eqn:Ep; [|done]. injection H as H; subst s'. split; fields; try done. by rewrite H3, filter_self.
  - destruct drained; injection H as H; subst s'; split; fields; try done; by rewrite H6.
  - destruct stable; injection H as H; subst s'; split; fields; try done.
  - destruct (over || ending s); injection H as H; subst s'; split; fields; try done; rewrite ?Ew; try done; try (intros; congruence); by rewrite H3; unfold children_of; rewrite Ew.
  - injection H as H; subst s'; split; fields; done.
Qed.

Lemma managed_step_sound e s s' : sound s -> step e s = Some s' -> sound s'.
Proof.
  intros Hs H. destruct e as [| | | | | | | | | | |k|reason|p reason]; try by apply (worker_step_sound _ _ _ Hs H).
  - by apply (close_step_sound k s).
  - cbn in H. destruct (mg_lease s); [done|]. injection H as H; subst s'. destruct Hs as [H1 H2 H3 H4 H5 H6]. by split.
  - cbn in H. case_bool_decide; [|done]. injection H as H; subst s'. by apply close_peer_sound.
Qed.
Lemma managed_reachable_sound s : reachable s -> sound s.
Proof. unfold PeerSsh.reachable. pose proof started_sound as H0. revert H0. induction 2 as [|a b c [e He] _ IH]; [done|]. apply IH. by apply (managed_step_sound e a). Qed.

(** How many steps the worker still takes once the channel is closed *)
Definition rank (w : Worker) : nat :=
  match w with
  | WBegin => 11 | WOpening => 10 | WStarting => 9 | WStarted _ => 8 | WPublished _ => 7 | WWaiting _ => 6 | WDraining _ _ => 5 | WOver _ => 4
  | WBackoff => 3 | WCheck => 2 | WLeaving => 1 | WStopped => 0
  end%nat.

(** Only the worker that has seen the condition of the loop hold begins an attempt. *)
Lemma attempt_begins e s s' : step e s = Some s' ->
  mg_generation s' = mg_generation s \/ (mg_worker s = WBegin /\ mg_worker s' = WOpening /\ mg_generation s' = S (mg_generation s)).
Proof.
  intros H. destruct e as [| | | | | | | | | | |k|reason|p reason]; cbn in H; try (unfold PeerSsh.worker_step in H; destruct (mg_worker s) eqn:Ew; try done; cbv zeta in H).
  2: injection H as H; subst s'; by right.
  all: left; unfold close_step in *; repeat case_match; try done; by simplify_eq.
Qed.
Lemma condition_held e s s' : step e s = Some s' -> mg_worker s' = WBegin -> mg_worker s = WBegin \/ (mg_worker s = WCheck /\ ending s = false).
Proof.
  intros H. destruct e as [| | | | | | | | | | |k|reason|p reason]; cbn in H; try (unfold PeerSsh.worker_step in H; destruct (mg_worker s) eqn:Ew; try done; cbv zeta in H).
  1: destruct (ending s) eqn:E; injection H as H; subst s'; [done|by right].
  all: unfold close_step in *; repeat case_match; try done; simplify_eq; try done; left; cbn in *; congruence.
Qed.

(** The attempts that may yet begin once the channel is closed *)
Definition owed (s : Managed) : nat := if bool_decide (mg_worker s = WBegin) then 1 else 0.
Lemma owed_step e s s' : step e s = Some s' -> mg_stop s = true -> (mg_generation s <= mg_generation s' /\ mg_generation s' + owed s' <= mg_generation s + owed s)%nat.
Proof.
  intros H Hs. unfold owed. assert (mg_worker s' = WBegin -> mg_worker s = WBegin) as Hb.
  { intros E. destruct (condition_held _ _ _ H E) as [?|[_ En]]; [done|]. unfold ending in En. by rewrite Hs in En. }
  apply attempt_begins in H as [->|(-> & -> & ->)]; [|rewrite (bool_decide_true (WBegin = WBegin)), (bool_decide_false (WOpening = WBegin)) by done; lia].
  repeat case_bool_decide; try lia. exfalso. auto.
Qed.
Lemma stop_stays e s s' : step e s = Some s' -> mg_stop s = true -> mg_stop s' = true.
Proof.
  intros H Hs. destruct e as [| | | | | | | | | | |k|reason|p reason]; cbn in H; try (unfold PeerSsh.worker_step in H; destruct (mg_worker s); try done; cbv zeta in H);
    unfold close_step in *; repeat case_match; try done; by simplify_eq.
Qed.
Lemma worker_moves e s s' : sound s -> mg_stop s = true -> of_worker e = true -> step e s = Some s' -> (rank (mg_worker s') < rank (mg_worker s))%nat.
Proof.
  intros Hs Hst He H. assert (ending s = true) as En by (unfold ending; by rewrite Hst).
  destruct e; try done; cbn in H; unfold PeerSsh.worker_step in H; rewrite ?En, ?orb_true_r in H; destruct (mg_worker s) eqn:Ew; try done; cbv zeta in H;
    try (rewrite (_ : ending (put_worker (WPublished p) (put_current (Some p) s)) = true) in H by (unfold ending; cbn; by rewrite Hst));
    repeat case_match; try done; simplify_eq; cbn; lia.
Qed.
Lemma closers_stay e s s' k : step e s = Some s' -> mg_closers s !! k = Some ClReturned -> mg_closers s' !! k = Some ClReturned.
Proof.
  intros H Hk. destruct e as [| | | | | | | | | | |j|reason|p reason]; cbn in H; try (unfold PeerSsh.worker_step in H; destruct (mg_worker s); try done; cbv zeta in H);
    unfold close_step in *; repeat case_match; try done; simplify_eq; try done; cbn; (destruct (decide (j = k)) as [->|Hne]; [congruence|by rewrite lookup_insert_ne]).
Qed.

Lemma owed_run s s' : mg_stop s = true -> rtc (goes policy) s s' -> (mg_generation s <= mg_generation s' /\ mg_generation s' + owed s' <= mg_generation s + owed s)%nat.
Proof.
  intros Hs Hr. revert Hs. induction Hr as [|a b c [e He] _ IH]; intros Hs; [lia|]. pose proof (owed_step _ _ _ He Hs). specialize (IH (stop_stays _ _ _ He Hs)). lia.
Qed.
Lemma closers_stay_run s s' k : rtc (goes policy) s s' -> mg_closers s !! k = Some ClReturned -> mg_closers s' !! k = Some ClReturned.
Proof. induction 1 as [|a b c [e He] _ IH]; [done|]. intros Hk. by apply IH, (closers_stay e a). Qed.

(** C33: closing a managed channel is final: in every interleaving with the worker, the callers, other threads that close and the lease, once a call of [close] has returned, and whatever happens afterwards: at most one more attempt begins, and only if the worker had seen, before it was closed, that it may; the connection on which the worker waits is closed, however late it was opened; and the worker is never stuck: until it has stopped it can always go on, each of its steps brings it nearer to the end, which is at most eleven steps away, and then no ssh process is left. Where the worker waits for ssh to exit or for the handshake, the step is the answer that it gets. *)
Theorem close_stops_the_channel s0 s k : reachable s0 -> mg_closers s0 !! k = Some ClReturned -> rtc (goes policy) s0 s ->
  (mg_generation s0 <= mg_generation s <= mg_generation s0 + (if bool_decide (mg_worker s0 = WBegin) then 1 else 0))%nat /\
  (forall p, published (mg_worker s) = Some p -> is_Some (mg_closed s !! p)) /\
  (mg_worker s <> WStopped -> exists e s', of_worker e = true /\ step e s = Some s') /\
  (forall e s', step e s = Some s' -> of_worker e = true -> (rank (mg_worker s') < rank (mg_worker s) <= 11)%nat) /\
  (mg_worker s = WStopped -> mg_stopped s = true /\ mg_children s = []).
Proof.
  intros Hr0 Hk0 Hrun. pose proof (so_closers _ (managed_reachable_sound _ Hr0) _ _ Hk0) as Hst0.
  pose proof (owed_run _ _ Hst0 Hrun) as Hg. fold (owed s0). split; [lia|]. clear Hg Hst0. apply (closers_stay_run _ _ _ Hrun) in Hk0 as Hk.
  assert (reachable s) as Hr by (unfold PeerSsh.reachable in *; by etrans). clear Hr0 Hk0 Hrun.
  apply managed_reachable_sound in Hr as Hs. pose proof (so_closers _ Hs _ _ Hk) as Hst.
  assert (forall p, published (mg_worker s) = Some p -> is_Some (mg_closed s !! p)) as Hcl.
  { intros p Hp. destruct (mg_closed s !! p) eqn:E; [by eexists|]. destruct (so_seen _ Hs p k _ Hp E Hk); congruence. }
  split_and!; [exact Hcl| | |].
  - intros Hw. destruct (mg_worker s) as [| | | |p|p|p|p last|last| | |] eqn:Ew; try done.
    1: exists EvCheck. 2: exists EvBegin. 3: exists (EvOpen false). 4: exists (EvStart false). 5: exists EvPublish. 6: exists (EvReady false). 7: exists EvClosed.
    8: exists (EvDrained true). 9: exists (EvOver false). 10: exists (EvBackoff true). 11: exists EvLeave.
    all: cbn; unfold PeerSsh.worker_step; rewrite Ew; try by eexists.
    + destruct (ending s); by eexists.
    + destruct (Hcl p eq_refl) as [reason ->]. by eexists.
  - intros e s' H He. split; [by apply (worker_moves e)|]. destruct (mg_worker s); cbn; lia.
  - intros Hw. rewrite (so_stopped _ Hs), (so_children _ Hs). unfold children_of. rewrite Hw. by split; [apply bool_decide_eq_true|].
Qed.

Lemma backoff_bounded e s s' : 0 <= initial_backoff policy -> policy_refused policy = false -> initial_backoff policy <= mg_backoff s <= max_backoff policy -> step e s = Some s' ->
  initial_backoff policy <= mg_backoff s' <= max_backoff policy.
Proof.
  intros Hz. unfold policy_refused. rewrite !orb_false_iff. intros [[H1 H2] _] Hb H. apply Z.ltb_ge in H2.
  destruct e as [| | | | | | | | | | |k|reason|p reason]; cbn in H; try (unfold PeerSsh.worker_step in H; destruct (mg_worker s); try done; cbv zeta in H);
    unfold close_step in *; repeat case_match; try done; simplify_eq; cbn; try done; lia.
Qed.

Lemma reachable_backoff s : 0 <= initial_backoff policy -> policy_refused policy = false -> reachable s -> initial_backoff policy <= mg_backoff s <= max_backoff policy.
Proof.
  intros Hz Hp. assert (initial_backoff policy <= mg_backoff (started policy) <= max_backoff policy) as H0.
  { unfold policy_refused in Hp. rewrite !orb_false_iff in Hp. destruct Hp as [[_ H%Z.ltb_ge] _]. cbn. lia. }
  unfold PeerSsh.reachable. revert H0. induction 2 as [|a b c [e He] _ IH]; [done|]. apply IH. by apply (backoff_bounded e a).
Qed.

(** a managed channel has at most one ssh process, and reconnects only under its lease: in every interleaving the processes that are not reaped are those of the one attempt at hand, and there are none while the worker waits for the next attempt or has stopped; an attempt begins only when the worker saw that the lease lived and nobody had closed the channel, after a pause between the two bounds of the policy. *)
Theorem one_ssh_process s : 0 <= initial_backoff policy -> policy_refused policy = false -> reachable s ->
  (length (mg_children s) <= 1)%nat /\ (forall c, c ∈ mg_children s -> c = mg_generation s) /\
  (mg_worker s = WBackoff \/ mg_worker s = WCheck \/ mg_worker s = WBegin \/ mg_worker s = WStopped -> mg_children s = []) /\
  initial_backoff policy <= mg_backoff s <= max_backoff policy /\
  (forall e s', step e s = Some s' -> mg_generation s' <> mg_generation s -> mg_worker s = WBegin /\ mg_generation s' = S (mg_generation s)) /\
  (forall e s', step e s = Some s' -> mg_worker s' = WBegin -> mg_worker s <> WBegin -> mg_stop s = false /\ mg_lease s = None).
Proof.
  intros Hz Hp Hr. pose proof (reachable_backoff s Hz Hp Hr) as Hb. apply managed_reachable_sound in Hr as Hs. rewrite (so_children _ Hs). pose proof (so_peer _ Hs) as Hpe. unfold children_of. split_and!.
  - destruct (mg_worker s); cbn; lia.
  - intros c Hc. destruct (mg_worker s); cbn in *; repeat (apply elem_of_cons in Hc as [Hc|Hc]; [subst; auto|]); by apply elem_of_nil in Hc.
  - intros [->|[->|[->| ->]]]; done.
  - apply Hb.
  - apply Hb.
  - intros e s' H Hne. apply attempt_begins in H as [H|(H & _ & H2)]; [done|by split].
  - intros e s' H Hbe Hne. destruct (condition_held _ _ _ H Hbe) as [|[_ En]]; [done|]. unfold ending in En. apply orb_false_iff in En as [H1 H2].
    split; [done|]. apply bool_decide_eq_false in H2. by apply eq_None_not_Some.
Qed.
End Theorems.

(** ** The arguments *)

(** What validation leaves: the host is not an option and no shell or configuration syntax, the files are there, and the last three arguments are the end of options, the host and the command. *)
Lemma command_checked is_file e program args : command is_file e = Ok (program, args) ->
  program = executable e /\ (exists options, args = fixed_arguments ++ options ++ ["--"; host e; remote_command e]) /\
  first_is "-"%char (host e) = false /\ host e <> "" /\ is_file (identity_file e) = true /\ is_file (known_hosts_file e) = true /\
  bytes_all known_hosts_char (known_hosts_file e) = true /\ is_absolute (known_hosts_file e) = true.
Proof.
  unfold command, validate. destruct (fields_refused e) eqn:Ef; [done|]. destruct (forallb is_file _) eqn:Ei; [|done]. cbn [bind_result].
  destruct (bytes_all known_hosts_char (known_hosts_file e)) eqn:Ek; [|done]. cbn [negb]. intros H. injection H as <- <-.
  unfold fields_refused in Ef. rewrite !orb_false_iff in Ef. cbn [forallb] in Ei. rewrite !andb_true_iff in Ei. destruct Ei as (E1 & E2 & _).
  destruct Ef as [[[[[[[[[[[[[F1 F2] _] _] _] _] _] F8] _] _] _] _] _] _].
  apply negb_false_iff in F8. split; [reflexivity|]. split; [|split_and!; [exact F2|intros E; by rewrite E in F1|exact E1|exact E2|reflexivity|exact F8]].
  exists ["-o"; "ConnectTimeout=" +:+ pretty (connect_timeout_seconds e); "-o"; "UserKnownHostsFile=" +:+ String quote_char "" +:+ known_hosts_file e +:+ String quote_char "";
          "-i"; identity_file e; "-p"; pretty (port e); "-l"; username e].
  reflexivity.
Qed.

Definition sample_endpoint : SshEndpoint := mkSshEndpoint "peer.example" 22 "fabric" "/keys/id" "/keys/known hosts" "machine-fabric peer accept" "ssh" 10.
Example sample_arguments :
  (drop 38 <$> (match command (fun _ => true) sample_endpoint with Ok (_, args) => Some args | Err _ => None end)) =
  Some ["ConnectTimeout=10"; "-o"; "UserKnownHostsFile=" +:+ String quote_char "" +:+ "/keys/known hosts" +:+ String quote_char "";
        "-i"; "/keys/id"; "-p"; "22"; "-l"; "fabric"; "--"; "peer.example"; "machine-fabric peer accept"].
Proof. vm_compute. reflexivity. Qed.
(** A host that is an option is refused. *)
Example option_refused :
  validate (fun _ => true) (mkSshEndpoint "-oProxyCommand" 22 "fabric" "/keys/id" "/keys/known" "run" "ssh" 10) = Err "invalid executor-owned SSH configuration".
Proof. vm_compute. reflexivity. Qed.

(** ** Runs *)

Fixpoint run (policy : ReconnectPolicy) (l : list Event) (s : Managed) : option Managed :=
  match l with
  | [] => Some s
  | e :: l' => match step policy e s with Some s' => run policy l' s' | None => None end
  end.
Lemma run_goes policy l s s' : run policy l s = Some s' -> rtc (goes policy) s s'.
Proof.
  revert s. induction l as [|e l IH]; intros a H; cbn in H; [by injection H as ->|].
  destruct (step policy e a) as [b|] eqn:E; [|done]. apply rtc_l with b; [by exists e|by apply IH].
Qed.
Lemma run_reachable policy l s : run policy l (started policy) = Some s -> reachable policy s.
Proof. apply run_goes. Qed.

(** The channel is closed while the worker opens its first connection: thread 3 finds none in [current]. *)
Definition late : list Event := [EvCheck; EvBegin; EvOpen true; EvStart true; EvClose 3; EvClose 3; EvClose 3; EvPublish].
Definition late_state : Managed := default (started ReconnectPolicy_default) (run ReconnectPolicy_default late (started ReconnectPolicy_default)).
Lemma late_reachable : reachable ReconnectPolicy_default late_state.
Proof. apply (run_reachable _ late). vm_compute. reflexivity. Qed.

(** The channel is closed, by thread 3, after the worker has seen that it may begin an attempt: it begins it. *)
Definition passed : list Event := [EvCheck; EvClose 3; EvClose 3; EvClose 3].
Definition passed_state : Managed := default (started ReconnectPolicy_default) (run ReconnectPolicy_default passed (started ReconnectPolicy_default)).
Lemma passed_reachable : reachable ReconnectPolicy_default passed_state.
Proof. apply (run_reachable _ passed). vm_compute. reflexivity. Qed.

(** An attempt, with its ssh process, can begin after [close] has returned. *)
Theorem attempt_after_close :
  exists s s', reachable ReconnectPolicy_default s /\ mg_closers s !! 3%nat = Some ClReturned /\ mg_generation s = 0%nat /\
    rtc (goes ReconnectPolicy_default) s s' /\ mg_generation s' = 1%nat /\ mg_children s' = [1%nat].
Proof.
  destruct (run ReconnectPolicy_default [EvBegin; EvOpen true] passed_state) as [s'|] eqn:E; [|vm_compute in E; discriminate].
  exists passed_state, s'. split_and!; [exact passed_reachable|vm_compute; reflexivity|vm_compute; reflexivity|by apply (run_goes _ _ _ _ E)| |];
    vm_compute in E; injection E as <-; reflexivity.
Qed.

Lemma close_stops_the_channel_witness :
  mg_worker passed_state = WBegin /\
  exists s, run ReconnectPolicy_default [EvBegin; EvOpen true; EvStart true; EvPublish] passed_state = Some s /\
    (mg_generation s <= 1)%nat /\ mg_worker s = WPublished 1 /\ is_Some (mg_closed s !! 1%nat) /\
    exists e s', of_worker e = true /\ step ReconnectPolicy_default e s = Some s'.
Proof.
  split; [vm_compute; reflexivity|].
  destruct (run ReconnectPolicy_default [EvBegin; EvOpen true; EvStart true; EvPublish] passed_state) as [s|] eqn:E; [|vm_compute in E; discriminate].
  exists s. split; [reflexivity|]. assert (mg_worker s = WPublished 1) as Ew by (vm_compute in E; injection E as <-; reflexivity).
  destruct (close_stops_the_channel ReconnectPolicy_default passed_state s 3 passed_reachable) as (Hg & H1 & H2 & _); [vm_compute; reflexivity|by apply (run_goes _ _ _ _ E)|].
  rewrite Ew in H1, H2. split_and!; [apply Hg|exact Ew|by apply H1|by apply H2].
Defined.
Lemma one_ssh_process_witness : mg_children late_state = [1%nat] /\ (length (mg_children late_state) <= 1)%nat /\ 1000 <= mg_backoff late_state <= 5000.
Proof.
  destruct (one_ssh_process ReconnectPolicy_default late_state) as (H1 & _ & _ & H2 & _); [vm_compute; discriminate|vm_compute; reflexivity|exact late_reachable|].
  split_and!; [vm_compute; reflexivity|exact H1|apply H2|apply H2].
Defined.
(** It then stops. *)
Example late_run_stops :
  option_map (fun s => (mg_stopped s, mg_last_close s, mg_children s))
    (run ReconnectPolicy_default [EvReady false; EvClosed; EvDrained true; EvOver false; EvBackoff false; EvCheck; EvLeave] late_state)
  = Some (true, Some Requested, []).
Proof. vm_compute. reflexivity. Qed.
