(* ===== verification/PeerChannel.v ===== *)
(** * Peers of a node ([crates/machine-fabric-runtime/src/peer.rs], [peer_channel.rs])

    The life of a peer: its checks, the attempts to connect with their status file,
    generations and pauses, and one attempt with its ssh process and its bridge; and
    the adapter of a scoped channel: its configuration, the grant in both directions,
    and the control requests over its lease. *)
From Stdlib Require Import Ascii.
From stdpp Require Import base gmap strings sorting list.
From S2P Require Import Prelude PathPolicy ArtifactRelay Json Protocol Store PeerLease Framing Connection PeerSsh.
Open Scope Z_scope.
Open Scope fabric_scope.

(** ** Checks of a peer *)

(** [validate_id] *)
Definition id_char (c : ascii) : bool := is_ascii_alphanumeric c || one_of "._-" c.
Definition validate_id (name value : string) : result string unit :=
  if str_is_empty value || negb (bytes_all id_char value) then Err ("invalid " +:+ name +:+ ": " +:+ value) else Ok tt.
(** [validate_absolute_paths] *)
Fixpoint validate_absolute_paths (paths : list string) : result string unit :=
  match paths with
  | [] => Ok tt
  | path :: paths' => if is_absolute path then validate_absolute_paths paths' else Err ("peer path must be absolute: " +:+ path)
  end.
(** [validate_remote_root] *)
Definition validate_remote_root (path : string) : result string unit :=
  if str_is_empty path || negb (bytes_all (fun c => negb (Ascii.eqb c LF || Ascii.eqb c CR || Ascii.eqb c "039"%char)) path)
  then Err ("invalid remote state root: " +:+ path) else Ok tt.

(** [peer_response_timeout], in milliseconds *)
Definition quick_actions : list string :=
  ["ping"; "status"; "availability"; "capability.list"; "capability.describe"; "desktop.list"; "desktop.get"; "process.get"; "process.list"].
Definition peer_response_timeout (action : string) : Z := if existsb (String.eqb action) quick_actions then 10000 else 3600000.

Definition PEER_BACKOFF_INITIAL : Z := 1000.
Definition PEER_BACKOFF_MAX : Z := 5000.
Definition PEER_STABLE_CONNECTION : Z := 30000.
(** [next_peer_backoff] *)
Definition next_peer_backoff (current connected_for : Z) : Z :=
  if PEER_STABLE_CONNECTION <=? connected_for then PEER_BACKOFF_INITIAL else Z.min (current * 2) PEER_BACKOFF_MAX.

(** ** The life of a peer *)

(** [PeerStatus] of [peer.rs] *)
Record PeerStatus := mkPeerStatus {
  pst_peer_id : string;
  pst_host : string;
  pst_connection_id : string;
  pst_generation : Z;
  pst_state : string;
  pst_updated_at : Z;
  pst_error : option string;
}.
(** [PeerConnectConfig] *)
Record PeerConnectConfig := mkPeerConnectConfig {
  pc_local_id : string;
  pc_peer_id : string;
  pc_host : string;
  pc_sockets : list string;
  pc_remote_executable : string;
  pc_remote_state_root : string;
  pc_state_path : string;
}.

Section Peer.
Context (to_vec_pretty : PeerStatus -> string) (from_slice : string -> option PeerStatus).
Context {Net : Type}.
(** A ping of the local controller; starting [ssh], starting the bridge over it, and what [wait_ready] and a ping of a role of the
    other machine say *)
Context (call_local : M Net string Response).
Context (spawn start_bridge wait_ready : M Net string unit) (ping : string -> M Net string Response).
(** The end of the reader thread: its result, or that it panicked *)
Context (join : M Net string (result string unit)).

(** The machine: the status file, what was written to it, newest first, whether the [ssh] of an attempt lives and its bridge is open *)
Record Node := mkNode { nd_file : option string; nd_written : list PeerStatus; nd_child : bool; nd_bridge : bool; nd_net : Net }.
Definition on_net {A} (m : M Net string A) : M Node string A :=
  zoom nd_net (fun n s => mkNode (nd_file s) (nd_written s) (nd_child s) (nd_bridge s) n) m.
Definition set_child (b : bool) : M Node string unit := modify (fun s => mkNode (nd_file s) (nd_written s) b (nd_bridge s) (nd_net s)).
Definition set_bridge (b : bool) : M Node string unit := modify (fun s => mkNode (nd_file s) (nd_written s) (nd_child s) b (nd_net s)).

(** [write_status] *)
Definition write_status (config : PeerConnectConfig) (connection_id : string) (generation : Z) (state : string) (error : option string) : M Node string unit :=
  let* now := now_ms in
  let value := mkPeerStatus (pc_peer_id config) (pc_host config) connection_id generation state now error in
  let* written := io_outcome in
  if written : bool then
    let* replaced := io_outcome in
    if replaced : bool
    then modify (fun s => mkNode (Some (to_vec_pretty value)) (value :: nd_written s) (nd_child s) (nd_bridge s) (nd_net s))
    else fail "replace"
  else fail "write".
(** [read_peer_status] *)
Definition read_peer_status : M Node string PeerStatus :=
  let* file := gets nd_file in
  let* bytes := lift (ok_or file "read") in
  lift (ok_or (from_slice bytes) "decode peer status").

(** [bridge.close()], then the end of [ssh] and of the reader *)
Definition abandon : M Node string unit := set_bridge false ;; set_child false.

Fixpoint roles_ready (roles : list string) : M Node string unit :=
  match roles with
  | [] => ret tt
  | role :: roles' =>
      let* response := on_net (ping role) in
      if resp_ok response then roles_ready roles' else fail ("remote " +:+ role +:+ " did not become ready")
  end.

(** [connect_once] *)
Definition connect_once (config : PeerConnectConfig) (connection_id : string) (generation : Z) : M Node string unit :=
  on_net spawn ;;
  set_child true ;;
  let* bridge := attempt (on_net start_bridge) in
  match bridge with
  | Err error => set_child false ;; fail error
  | Ok _ =>
      set_bridge true ;;
      let* ready := attempt (on_net wait_ready ;; roles_ready ["controller"; "executor"]) in
      match ready with
      | Err error => abandon ;; fail error
      | Ok _ =>
          let* noted := attempt (write_status config connection_id generation "ready" None) in
          match noted with
          | Err error => abandon ;; fail error
          | Ok _ =>
              let* reader := on_net join in
              abandon ;;
              lift reader
          end
      end
  end.

(** One turn of the loop of [connect_peer]: the next pause *)
Definition connect_turn (config : PeerConnectConfig) (connection_id : string) (generation backoff : Z) : M Node string Z :=
  write_status config connection_id generation "connecting" None ;;
  let* started := instant_now in
  let* r := attempt (connect_once config connection_id generation) in
  write_status config connection_id generation "reconnecting" (Some (match r with Ok _ => "peer transport closed" | Err error => error end)) ;;
  let* now := instant_now in
  ret (next_peer_backoff backoff (now - started)).

(** The loop, for [turns] turns *)
Fixpoint connect_turns (turns : nat) (config : PeerConnectConfig) (connection_id : string) (generation backoff : Z) : M Node string (Z * Z) :=
  match turns with
  | O => ret (generation, backoff)
  | S turns' =>
      let* backoff := connect_turn config connection_id generation backoff in
      connect_turns turns' config connection_id (u64_saturating_add generation 1) backoff
  end.

(** The checks of [connect_peer] and its first generation *)
Definition connect_start (config : PeerConnectConfig) : M Node string (string * Z) :=
  for_each [("local id", pc_local_id config); ("peer id", pc_peer_id config); ("host", pc_host config)] (fun p => lift (validate_id p.1 p.2)) ;;
  lift (validate_absolute_paths (pc_sockets config ++ [pc_state_path config])) ;;
  lift (validate_remote_root (pc_remote_state_root config)) ;;
  lift (validate_remote_root (pc_remote_executable config)) ;;
  let* controller_status := on_net call_local in
  let* actual_local_id := lift (ok_or (((resp_result controller_status ≫= vget "controller") ≫= vget "id") ≫= as_str)
                                  "local Controller did not report its node identity") in
  if negb (String.eqb actual_local_id (pc_local_id config))
  then fail ("local Controller identity is " +:+ actual_local_id +:+ ", configured peer identity is " +:+ pc_local_id config)
  else
    let* uuid := new_v4 in
    let* known := attempt read_peer_status in
    ret ("connection_" +:+ uuid, match known with Ok st => u64_saturating_add (pst_generation st) 1 | Err _ => 1 end).

(** [connect_peer], for [turns] turns of its loop *)
Definition connect_peer (turns : nat) (config : PeerConnectConfig) : M Node string (Z * Z) :=
  let* start := connect_start config in
  connect_turns turns config start.1 start.2 PEER_BACKOFF_INITIAL.
End Peer.

(** ** Theorems: attempts *)

Lemma next_peer_backoff_bounds current connected_for :
  PEER_BACKOFF_INITIAL <= current <= PEER_BACKOFF_MAX -> PEER_BACKOFF_INITIAL <= next_peer_backoff current connected_for <= PEER_BACKOFF_MAX.
Proof. unfold next_peer_backoff, PEER_BACKOFF_INITIAL, PEER_BACKOFF_MAX. destruct (_ <=? _); lia. Qed.

Section PeerTheorems.
Context (to_vec_pretty : PeerStatus -> string) (from_slice : string -> option PeerStatus).
Context {Net : Type}.
Context (call_local : M Net string Response).
Context (spawn start_bridge wait_ready : M Net string unit) (ping : string -> M Net string Response) (join : M Net string (result string unit)).
Local Abbreviation Nd := (Node (Net := Net)).
Local Abbreviation write_status := (write_status to_vec_pretty).
Local Abbreviation connect_once := (connect_once to_vec_pretty spawn start_bridge wait_ready ping join).
Local Abbreviation connect_turn := (connect_turn to_vec_pretty spawn start_bridge wait_ready ping join).
Local Abbreviation connect_turns := (connect_turns to_vec_pretty spawn start_bridge wait_ready ping join).
Local Abbreviation connect_peer := (connect_peer to_vec_pretty from_slice call_local spawn start_bridge wait_ready ping join).

(** What the status file has: the status that was written last *)
Definition shown (s : Nd) : Prop := match nd_written s with [] => True | st :: _ => nd_file s = Some (to_vec_pretty st) end.

(** [m] writes only statuses of one generation, and keeps the file what was written last. *)
Definition notes {A} (g : Z) (m : M Nd string A) : Prop := forall s w r s' w', m s w = (r, s', w') ->
  exists l, nd_written s' = l ++ nd_written s /\ Forall (fun st => pst_generation st = g) l /\
    (l = [] -> nd_file s' = nd_file s) /\ (shown s -> shown s').

Lemma notes_silent {A} g (m : M Nd string A) :
  (forall s w r s' w', m s w = (r, s', w') -> nd_written s' = nd_written s /\ nd_file s' = nd_file s) -> notes g m.
Proof.
  intros H s w r s' w' E. apply H in E as [E1 E2]. exists []. split_and!; [done|done|done|]. unfold shown. by rewrite E1, E2.
Qed.
Lemma notes_bind {A B} g (m : M Nd string A) (k : A -> M Nd string B) : notes g m -> (forall a, notes g (k a)) -> notes g (bind m k).
Proof.
  intros Hm Hk s w r s' w' H. apply bind_cases in H as (r1 & s1 & w1 & H1 & H). apply Hm in H1 as (l1 & E1 & F1 & N1 & S1).
  destruct r1 as [a|e]; [|destruct H as (-> & -> & _); by exists l1].
  apply Hk in H as (l2 & E2 & F2 & N2 & S2). exists (l2 ++ l1). rewrite E2, E1, app_assoc. split_and!; [done|by apply Forall_app|intros [-> ->]%app_eq_nil; by rewrite N2, N1|auto].
Qed.
Lemma notes_attempt {A} g (m : M Nd string A) : notes g m -> notes g (attempt (F := string) m).
Proof. intros Hm s w r s' w' H. apply attempt_cases in H as (r0 & _ & H). by apply Hm in H. Qed.
Lemma notes_net {A} g (m : M Net string A) : notes g (on_net m).
Proof. apply notes_silent. intros s w r s' w' H. by apply zoom_cases in H as (n & _ & ->). Qed.
Lemma notes_lift {A} g (r : result string A) : notes g (lift r).
Proof. apply notes_silent. by intros s w r' s' w' [= <- <- <-]. Qed.
Lemma notes_ret {A} g (a : A) : notes g (ret a).
Proof. apply notes_silent. by intros s w r' s' w' [= <- <- <-]. Qed.
Lemma notes_fail {A} g e : notes g (@fail Nd string A e).
Proof. apply notes_silent. by intros s w r' s' w' [= <- <- <-]. Qed.
Lemma notes_child g b : notes g (set_child b).
Proof. apply notes_silent. by intros s w r' s' w' [= <- <- <-]. Qed.
Lemma notes_bridge g b : notes g (set_bridge b).
Proof. apply notes_silent. by intros s w r' s' w' [= <- <- <-]. Qed.
Lemma notes_write config id g state error : notes g (write_status config id g state error).
Proof.
  intros s w r s' w' H. unfold PeerChannel.write_status in H. munfold. cbn in H. repeat case_match; simplify_eq; cbn.
  - eexists [_]. split_and!; [reflexivity|by repeat constructor|done|by intros _].
  - by exists [].
  - by exists [].
Qed.

Lemma notes_once config id g : notes g (connect_once config id g).
Proof.
  unfold PeerChannel.connect_once. repeat (apply notes_bind; [first [apply notes_net|apply notes_child|apply notes_bridge|apply notes_attempt, notes_net]|intros ?]).
  case_match; [|apply notes_bind; [apply notes_child|intros; apply notes_fail]]. apply notes_bind; [apply notes_bridge|intros _].
  assert (forall roles, notes g (roles_ready ping roles)) as Hroles.
  { induction roles as [|role roles IH]; cbn; [apply notes_ret|]. apply notes_bind; [apply notes_net|]. intros resp. destruct (resp_ok resp); [done|apply notes_fail]. }
  assert (notes g (abandon (Net := Net))) as Hgive by (unfold abandon; apply notes_bind; [apply notes_bridge|intros; apply notes_child]).
  apply notes_bind; [apply notes_attempt, notes_bind; [apply notes_net|intros; apply Hroles]|]. intros [u|e]; [|apply notes_bind; [done|intros; apply notes_fail]].
  apply notes_bind; [apply notes_attempt, notes_write|]. intros [u2|e]; [|apply notes_bind; [done|intros; apply notes_fail]].
  apply notes_bind; [apply notes_net|]. intros reader. apply notes_bind; [done|intros; apply notes_lift].
Qed.
Lemma notes_turn config id g b : notes g (connect_turn config id g b).
Proof.
  unfold PeerChannel.connect_turn. apply notes_bind; [apply notes_write|intros _]. apply notes_bind; [|intros started].
  - apply notes_silent. by intros s w r' s' w' [= <- <- <-].
  - apply notes_bind; [apply notes_attempt, notes_once|]. intros r. apply notes_bind; [apply notes_write|intros _]. apply notes_bind; [|intros; apply notes_ret].
    apply notes_silent. by intros s w r' s' w' [= <- <- <-].
Qed.

(** Newest first, the generations do not grow. *)
Definition ordered (l : list PeerStatus) : Prop := StronglySorted (fun a b => pst_generation b <= pst_generation a) l.
Lemma ordered_app g l l' : Forall (fun st => pst_generation st = g) l -> Forall (fun st => pst_generation st <= g) l' -> ordered l' -> ordered (l ++ l').
Proof.
  intros Hl Hl' Ho. induction Hl as [|st l Hst Hl IH]; [done|]. cbn. constructor; [done|]. apply Forall_app. split.
  - eapply Forall_impl; [exact Hl|]. cbn. intros x ->. lia.
  - eapply Forall_impl; [exact Hl'|]. cbn. intros x Hx. lia.
Qed.

Lemma saturating_next g : 0 <= g <= U64_MAX -> g <= u64_saturating_add g 1 <= U64_MAX /\ 0 <= u64_saturating_add g 1.
Proof. unfold u64_saturating_add, U64_MAX. lia. Qed.

Lemma turns_ordered config id turns : forall g b s w r s' w', 0 <= g <= U64_MAX ->
  Forall (fun st => pst_generation st <= g) (nd_written s) -> ordered (nd_written s) -> shown s ->
  connect_turns turns config id g b s w = (r, s', w') ->
  ordered (nd_written s') /\ shown s' /\ exists l, nd_written s' = l ++ nd_written s /\ Forall (fun st => g <= pst_generation st <= U64_MAX) l.
Proof.
  induction turns as [|turns IH]; intros g b s w r s' w' Hg Hw Ho Hs H; cbn [PeerChannel.connect_turns] in H; [injection H as <- <- <-; split_and!; [done|done|by exists []]|].
  apply bind_cases in H as (r1 & s1 & w1 & H1 & H). apply notes_turn in H1 as (l & E & F & _ & S). specialize (S Hs).
  assert (ordered (nd_written s1)) as Ho1 by (rewrite E; by apply (ordered_app g)).
  destruct r1 as [b'|e].
  - pose proof (saturating_next g Hg) as [Hn Hn0]. apply IH in H as (Ho2 & Hs2 & l2 & E2 & F2); [|lia| |done|done].
    + split_and!; [done|done|]. exists (l2 ++ l). rewrite E2, E, app_assoc. split; [done|]. apply Forall_app. split.
      * eapply Forall_impl; [exact F2|]. cbn. intros. lia.
      * eapply Forall_impl; [exact F|]. cbn. intros. lia.
    + rewrite E. apply Forall_app. split; [eapply Forall_impl; [exact F|]|eapply Forall_impl; [exact Hw|]]; cbn; intros; lia.
  - destruct H as (-> & -> & _). split_and!; [done|done|]. exists l. split; [done|]. eapply Forall_impl; [exact F|]. cbn. intros. lia.
Qed.

(** [ssh] and the bridge live only within an attempt. *)
Definition idle (s : Nd) : Prop := nd_child s = false /\ nd_bridge s = false.
(** [m] leaves [ssh] and the bridge alone. *)
Definition steady {A} (m : M Nd string A) : Prop := forall s w r s' w', m s w = (r, s', w') -> nd_child s' = nd_child s /\ nd_bridge s' = nd_bridge s.
Lemma steady_net {A} (m : M Net string A) : steady (on_net m).
Proof. intros s w r s' w' H. by apply zoom_cases in H as (n & _ & ->). Qed.
Lemma steady_write config id g state error : steady (write_status config id g state error).
Proof. intros s w r s' w' H. unfold PeerChannel.write_status in H. munfold. cbn in H. by repeat case_match; simplify_eq. Qed.
Lemma steady_bind {A B} (m : M Nd string A) (k : A -> M Nd string B) : steady m -> (forall a, steady (k a)) -> steady (bind m k).
Proof.
  intros Hm Hk s w r s' w' H. apply bind_cases in H as (r1 & s1 & w1 & H1 & H). apply Hm in H1 as [E1 E2].
  destruct r1 as [x|e]; [apply Hk in H as [E3 E4]; split; congruence|]. by destruct H as (-> & -> & _).
Qed.
Lemma steady_roles roles : steady (roles_ready ping roles).
Proof.
  induction roles as [|role roles IH]; cbn; [by intros s w r s' w' [= <- <- <-]|]. apply steady_bind; [apply steady_net|]. intros resp.
  destruct (resp_ok resp); [done|by intros s w r s' w' [= <- <- <-]].
Qed.

(** The reader thread does not panic. *)
Definition calm_reader : Prop := forall s w r s' w', join s w = (r, s', w') -> is_ok r = true.
Context (Hjoin : calm_reader).
Lemma once_idle config id g s w r s' w' : idle s -> connect_once config id g s w = (r, s', w') -> idle s'.
Proof.
  intros Hi H. unfold PeerChannel.connect_once in H.
  apply bind_cases in H as (r1 & s1 & w1 & H1 & H). apply steady_net in H1 as [E1 E2]. destruct r1 as [u1|e]; [|destruct H as (-> & -> & _); unfold idle; by rewrite E1, E2].
  apply bind_cases in H as (r2 & s2 & w2 & H2 & H). injection H2 as <- <- <-.
  apply bind_cases in H as (r3 & s3 & w3 & H3 & H). apply attempt_cases in H3 as (r3' & -> & H3). apply steady_net in H3 as [E3 E4]. cbn in E3, E4.
  assert (nd_bridge s3 = false) as Hb by (unfold idle in Hi; destruct Hi; congruence). destruct r3' as [u3|e]; [|by injection H as <- <- <-].
  apply bind_cases in H as (r4 & s4 & w4 & H4 & H). injection H4 as <- <- <-.
  apply bind_cases in H as (r5 & s5 & w5 & H5 & H). apply attempt_cases in H5 as (r5' & -> & H5). destruct r5' as [u5|e]; [|by injection H as <- <- <-].
  apply bind_cases in H as (r6 & s6 & w6 & H6 & H). apply attempt_cases in H6 as (r6' & -> & H6). destruct r6' as [u6|e]; [|by injection H as <- <- <-].
  apply bind_cases in H as (r7 & s7 & w7 & H7 & H). apply zoom_cases in H7 as (n & H7 & ->). apply Hjoin in H7. destruct r7 as [reader|e]; [|done]. by injection H as <- <- <-.
Qed.

Lemma turn_cases config id g b s w r s' w' : idle s -> PEER_BACKOFF_INITIAL <= b <= PEER_BACKOFF_MAX -> connect_turn config id g b s w = (r, s', w') ->
  idle s' /\ match r with Ok b' => PEER_BACKOFF_INITIAL <= b' <= PEER_BACKOFF_MAX | Err _ => True end.
Proof.
  intros Hi Hb H. unfold PeerChannel.connect_turn in H.
  assert (forall s s' : Nd, idle s -> nd_child s' = nd_child s /\ nd_bridge s' = nd_bridge s -> idle s') as Hsame by (intros a a' [? ?] [? ?]; split; congruence).
  apply bind_cases in H as (r1 & s1 & w1 & H1 & H). apply steady_write in H1. assert (idle s1) as I1 by eauto. destruct r1 as [u1|e]; [|by destruct H as (-> & -> & _)].
  apply bind_cases in H as (r2 & s2 & w2 & H2 & H). injection H2 as <- <- <-.
  apply bind_cases in H as (r3 & s3 & w3 & H3 & H). apply attempt_cases in H3 as (r3' & -> & H3). apply once_idle in H3; [|done].
  apply bind_cases in H as (r4 & s4 & w4 & H4 & H). apply steady_write in H4. assert (idle s4) as I4 by eauto. destruct r4 as [u4|e]; [|by destruct H as (-> & -> & _)].
  apply bind_cases in H as (r5 & s5 & w5 & H5 & H). injection H5 as <- <- <-. injection H as <- <- <-. split; [done|by apply next_peer_backoff_bounds].
Qed.
Lemma turns_idle config id turns : forall g b s w r s' w', idle s -> PEER_BACKOFF_INITIAL <= b <= PEER_BACKOFF_MAX -> connect_turns turns config id g b s w = (r, s', w') ->
  idle s' /\ match r with Ok p => PEER_BACKOFF_INITIAL <= p.2 <= PEER_BACKOFF_MAX | Err _ => True end.
Proof.
  induction turns as [|turns IH]; intros g b s w r s' w' Hi Hb H; cbn [PeerChannel.connect_turns] in H; [by injection H as <- <- <-|].
  apply bind_cases in H as (r1 & s1 & w1 & H1 & H). apply turn_cases in H1 as [I1 B1]; [|done|done]. destruct r1 as [b'|e]; [by apply IH in H|by destruct H as (-> & -> & _)].
Qed.

(** The checks before the loop write nothing. *)
Lemma start_quiet config s w r s' w' : connect_start from_slice call_local config s w = (r, s', w') ->
  nd_written s' = nd_written s /\ nd_file s' = nd_file s /\ nd_child s' = nd_child s /\ nd_bridge s' = nd_bridge s /\
  match r with
  | Ok p => p.2 = match nd_file s ≫= from_slice with Some st => u64_saturating_add (pst_generation st) 1 | None => 1 end
  | Err _ => True
  end.
Proof.
  intros H. unfold connect_start in H. apply bind_cases in H as (r1 & s1 & w1 & H1 & H).
  assert (s1 = s) as -> by (revert H1; unfold for_each; munfold; cbn; repeat case_match; intros; by simplify_eq).
  destruct r1 as [u1|e]; [|by destruct H as (-> & -> & _)].
  do 3 (apply bind_cases in H as (r2 & s2 & w2 & H2 & H); injection H2 as <- <- <-; match type of H with match ?r with Ok _ => _ | Err _ => _ end => destruct r; [|by destruct H as (-> & -> & _)] end).
  apply bind_cases in H as (r3 & s3 & w3 & H3 & H). apply zoom_cases in H3 as (n & _ & ->). destruct r3 as [status|e]; [|by destruct H as (-> & -> & _)].
  apply bind_cases in H as (r4 & s4 & w4 & H4 & H). injection H4 as <- <- <-. match type of H with match ?r with Ok _ => _ | Err _ => _ end => destruct r as [actual|e]; [|by destruct H as (-> & -> & _)] end.
  destruct (negb _); [by injection H as <- <- <-|].
  apply bind_cases in H as (r5 & s5 & w5 & H5 & H). injection H5 as <- <- <-.
  apply bind_cases in H as (r6 & s6 & w6 & H6 & H). apply attempt_cases in H6 as (r6' & -> & H6). injection H as <- <- <-.
  unfold read_peer_status in H6. munfold. cbn in H6. cbn [nd_file snd] in *. destruct (nd_file s) as [bytes|]; cbn in H6 |- *.
  - destruct (from_slice bytes); cbn in H6; by simplify_eq.
  - by simplify_eq.
Qed.

(** Later than [g], or both at the end of the numbers *)
Definition before (g : Z) (st : PeerStatus) : Prop := pst_generation st < g \/ (pst_generation st = U64_MAX /\ g = U64_MAX).
Lemma before_next st st' : 0 <= pst_generation st <= U64_MAX -> pst_generation st' <= pst_generation st -> before (u64_saturating_add (pst_generation st) 1) st'.
Proof. unfold before, u64_saturating_add. lia. Qed.
Lemma first_generation (s : Nd) g : Forall (fun st => from_slice (to_vec_pretty st) = Some st) (nd_written s) -> shown s -> ordered (nd_written s) ->
  Forall (fun st => 0 <= pst_generation st <= U64_MAX) (nd_written s) -> (nd_written s = [] -> nd_file s = None) ->
  g = match nd_file s ≫= from_slice with Some st => u64_saturating_add (pst_generation st) 1 | None => 1 end ->
  0 <= g <= U64_MAX /\ Forall (before g) (nd_written s).
Proof.
  intros Hser Hsh Ho Hrange Hempty ->. destruct (nd_written s) as [|st l] eqn:Ew; [by rewrite (Hempty eq_refl)|].
  unfold shown in Hsh. rewrite Ew in Hsh. rewrite Hsh. change (Some ?x ≫= from_slice) with (from_slice x). apply Forall_cons in Hser as [-> _].
  apply Forall_cons in Hrange as [R1 _]. split; [pose proof (saturating_next _ R1); lia|]. apply StronglySorted_inv in Ho as [_ Ho].
  constructor; [by apply before_next|]. eapply Forall_impl; [exact Ho|]. cbn. intros st' Hst. by apply before_next.
Qed.

(** a peer connects again in ever later generations: over any number of attempts, of one run of the daemon and of the next, whatever ssh, the other machine and the disk do, the generations in the status file never go back, and those of a later run are later than all of the runs before (up to the largest number); whenever the daemon is between attempts or has ended, neither an ssh process nor a bridge is left (unless the thread that reads panicked), and the pause is between one and five seconds. *)
Theorem peer_generations_increase turns config s w r s' w' :
  Forall (fun st => from_slice (to_vec_pretty st) = Some st) (nd_written s) ->
  shown s -> ordered (nd_written s) -> Forall (fun st => 0 <= pst_generation st <= U64_MAX) (nd_written s) -> idle s ->
  (nd_written s = [] -> nd_file s = None) ->
  connect_peer turns config s w = (r, s', w') ->
  shown s' /\ ordered (nd_written s') /\ Forall (fun st => 0 <= pst_generation st <= U64_MAX) (nd_written s') /\ idle s' /\
  (exists l, nd_written s' = l ++ nd_written s /\
     forall a b, a ∈ l -> b ∈ nd_written s -> pst_generation b < pst_generation a \/ (pst_generation b = U64_MAX /\ pst_generation a = U64_MAX)) /\
  match r with Ok p => PEER_BACKOFF_INITIAL <= p.2 <= PEER_BACKOFF_MAX | Err _ => True end.
Proof.
  intros Hser Hsh Ho Hrange Hi Hempty H. unfold PeerChannel.connect_peer in H. apply bind_cases in H as (r1 & s1 & w1 & H1 & H). apply start_quiet in H1 as (E1 & E2 & E3 & E4 & Hg).
  assert (shown s1) as Hs1 by (unfold shown; rewrite E1, E2; exact Hsh). assert (idle s1) as Hi1 by (destruct Hi; split; congruence).
  destruct r1 as [[id g]|e]; [|destruct H as (-> & -> & _); rewrite E1; split_and!; [done|done|done|done|by exists []; split; [|intros a b Ha; by apply elem_of_nil in Ha]|done]].
  cbn [fst snd] in *.
  destruct (first_generation s g Hser Hsh Ho Hrange Hempty Hg) as [Hg1 Hg2].
  pose proof H as H'. apply turns_ordered in H as (O & S & l & E & F); [|done| |by rewrite E1|done].
  2: { rewrite E1. eapply Forall_impl; [exact Hg2|]. unfold before. intros. lia. }
  apply turns_idle in H' as [I B]; [|done|unfold PEER_BACKOFF_INITIAL, PEER_BACKOFF_MAX; lia]. split_and!; [done|done| |done| |done].
  { rewrite E, E1. apply Forall_app. split; [|done]. eapply Forall_impl; [exact F|]. cbn. intros. lia. }
  exists l. rewrite E, E1. split; [done|]. intros a b Ha Hb. rewrite Forall_forall in F, Hg2. specialize (F a Ha). specialize (Hg2 b Hb). unfold before in Hg2. lia.
Qed.
End PeerTheorems.

(** ** The adapter of a scoped channel *)

Definition CHANNEL_VERSION : string := "machine-fabric.peer-channel/v1".
(** [ChannelLimits] and its default *)
Record ChannelLimits := mkChannelLimits {
  cl_max_frame_bytes : Z; cl_max_outbound_requests : Z; cl_max_inbound_requests : Z; cl_max_queued_frames : Z;
  cl_handshake_timeout_ms : Z; cl_request_timeout_ms : Z;
}.
Definition ChannelLimits_default : ChannelLimits := mkChannelLimits (8 * 1024 * 1024) 64 16 64 15000 60000.

(** [PeerChannelConfig]; the endpoint of ssh is present or not *)
Record PeerChannelConfig := mkPeerChannelConfig {
  ch_api_version : string;
  ch_local_id : string;
  ch_peer_id : string;
  ch_services : list string;
  ch_required_peer_services : list string;
  ch_binding : ChannelBinding;
  ch_expires_at_ms : Z;
  ch_handler_socket : string;
  ch_request_socket : string;
  ch_control_socket : string;
  ch_allowed_inbound_actions : list string;
  ch_allowed_outbound_actions : list string;
  ch_ssh : option SshEndpoint;
  ch_limits : ChannelLimits;
}.

Definition CONFIG_LIMIT : Z := 1024 * 1024.
(** [PeerChannelConfig::read] of a file with its mode, owner and contents *)
Definition read_config (from_slice : string -> option PeerChannelConfig) (euid mode uid : Z) (bytes : string) : result string PeerChannelConfig :=
  if negb (Z.land mode 63 =? 0) || negb (uid =? euid) then Err "peer channel config must be owned by this service user and mode 0600"
  else if CONFIG_LIMIT <? str_len bytes then Err "peer channel config exceeds 1 MiB"
  else ok_or (from_slice bytes) "decode daemon peer config".

Definition bad_action (action : string) : bool := str_is_empty action || (256 <? str_len action) || has_control action.
Definition bad_actions (actions : list string) : bool := (256 <? len actions) || existsb bad_action actions.

(** Two values of [PathBuf] are equal when their components are *)
Definition same_path (a b : string) : bool := bool_decide (path_of a = path_of b).

(** [PeerChannelConfig::peer_config] *)
Definition peer_config (c : PeerChannelConfig) (lease_id : string) : M PeerLease.State string PeerConfig :=
  if negb (String.eqb (ch_api_version c) CHANNEL_VERSION) then fail "unsupported peer channel config version"
  else if existsb (fun path => negb (is_absolute path)) [ch_handler_socket c; ch_request_socket c; ch_control_socket c]
          || same_path (ch_handler_socket c) (ch_request_socket c) || same_path (ch_handler_socket c) (ch_control_socket c)
          || same_path (ch_request_socket c) (ch_control_socket c)
  then fail "channel IPC paths must be absolute and distinct"
  else if existsb bad_actions [ch_allowed_inbound_actions c; ch_allowed_outbound_actions c] then fail "invalid exact action allowlist"
  else
    let l := ch_limits c in
    let config := mkPeerConfig ScopedV2 (ch_local_id c) (ch_peer_id c) (ch_services c) (ch_required_peer_services c) (Some (ch_binding c)) (Some lease_id)
      (mkPeerLimits (cl_max_frame_bytes l) (cl_max_outbound_requests l) (cl_max_inbound_requests l) (cl_max_queued_frames l) (cl_handshake_timeout_ms l) (cl_request_timeout_ms l)) in
    Connection.validate config ;;
    ret config.

Section Channel.
Context (INSTANT_MAX : Z).
Context (request_json : Request -> Value) (parse_request : Value -> option Request) (response_json : Response -> Value) (binding_json : option ChannelBinding -> Value).
Context {Net : Type}.
(** A call over the channel, and a call of the local handler *)
Context (channel_call : string -> Request -> M Net string Response) (handler_call : Request -> M Net string Response).
Context (channel_status : Net -> Value).

(** The adapter: the lease, whether the channel was closed, what was called over the channel and locally *)
Record Adapter := mkAdapter { ad_lease : PeerLease.State; ad_closed : bool; ad_called : list (string * Request); ad_dispatched : list Request; ad_net : Net }.

Definition denied (id message : string) : Response := response_failure id (rpc_error "PEER_ACTION_DENIED" message).

(** The handler of the requests of the local side ([request_thread]) *)
Definition handle_request (outbound : list string) (request : Request) : M Adapter string Response :=
  if negb (String.eqb (req_action request) "peer.call")
  then ret (denied (req_request_id request) "only peer.call is available on this endpoint")
  else
    match vget "service" (req_params request) ≫= as_str, parse_request (vindex (req_params request) "request") with
    | Some service, Some inner =>
        if existsb (String.eqb (req_action inner)) outbound then
          modify (fun a => mkAdapter (ad_lease a) (ad_closed a) (ad_called a ++ [(service, inner)]) (ad_dispatched a) (ad_net a)) ;;
          let* result := zoom ad_net (fun n a => mkAdapter (ad_lease a) (ad_closed a) (ad_called a) (ad_dispatched a) n) (channel_call service inner) in
          ret (response_success (req_request_id request) (response_json result))
        else ret (denied (req_request_id request) "invalid or unauthorized outbound request")
    | _, _ => ret (denied (req_request_id request) "invalid or unauthorized outbound request")
    end.

(** [authorize] *)
Definition authorize (inbound : list string) (request : Request) : result RpcError unit :=
  if existsb (String.eqb (req_action request)) inbound then Ok tt else Err (rpc_error "PEER_ACTION_DENIED" "action is outside channel grant").
(** The envelope in which [handler] forwards a request *)
Definition forwarded (context : RequestContext) (request : Request) : Request :=
  mkRequest (req_api_version request) (req_request_id request) (req_correlation_id request) (req_parent_request_id request) "peer.dispatch"
    (obj_of [("peerId", VString (rc_peer_id context)); ("service", VString (rc_service context)); ("binding", binding_json (rc_binding context));
             ("request", request_json request)]).
Definition handler (context : RequestContext) (request : Request) : M Adapter string Response :=
  modify (fun a => mkAdapter (ad_lease a) (ad_closed a) (ad_called a) (ad_dispatched a ++ [forwarded context request]) (ad_net a)) ;;
  let* r := attempt (zoom ad_net (fun n a => mkAdapter (ad_lease a) (ad_closed a) (ad_called a) (ad_dispatched a) n) (handler_call (forwarded context request))) in
  ret (match r with
       | Ok response => response
       | Err _ => response_failure (req_request_id request) (rpc_error "PEER_OUTCOME_UNKNOWN" "local handler interrupted; query the command journal")
       end).
(** A request that arrived over the channel, as the connection handles it *)
Definition serve_inbound (inbound : list string) (context : RequestContext) (request : Request) : M Adapter string Response :=
  match authorize inbound request with
  | Ok _ => handler context request
  | Err error => ret (response_failure (req_request_id request) error)
  end.

Definition on_lease {A} (m : M PeerLease.State string A) : M Adapter string A :=
  zoom ad_lease (fun l a => mkAdapter l (ad_closed a) (ad_called a) (ad_dispatched a) (ad_net a)) m.
(** [control_channel.close()] *)
Definition close_channel : M Adapter string unit := modify (fun a => mkAdapter (ad_lease a) true (ad_called a) (ad_dispatched a) (ad_net a)).

(** The handler of the control requests ([control_thread]) *)
Definition handle_control (lease_id : string) (request : Request) : M Adapter string Response :=
  let id := req_request_id request in
  if String.eqb (req_action request) "peer.status" then
    let* expires := on_lease expires_at_ms in
    let* over := on_lease PeerLease.ended in
    let* a := get in
    ret (response_success id (obj_of [("channel", channel_status (ad_net a)); ("leaseId", VString lease_id); ("expiresAtMs", vu64 expires);
                                      ("leaseEnded", vopt VString over)]))
  else if String.eqb (req_action request) "peer.revoke" then
    on_lease PeerLease.revoke ;; close_channel ;; ret (response_success id (obj_of [("revoked", VBool true)]))
  else if String.eqb (req_action request) "peer.close" then
    close_channel ;; ret (response_success id (obj_of [("closed", VBool true)]))
  else if String.eqb (req_action request) "peer.renew" then
    let* renewed := attempt (F := string) (match as_u64 (vindex (req_params request) "expiresAtMs") with
                                           | Some expiry => on_lease (renew INSTANT_MAX expiry)
                                           | None => fail "missing expiry"
                                           end) in
    match renewed with
    | Ok _ => let* expires := on_lease expires_at_ms in ret (response_success id (obj_of [("expiresAtMs", vu64 expires)]))
    | Err _ => ret (response_failure id (rpc_error "PEER_RENEW_DENIED" "lease cannot be renewed"))
    end
  else ret (denied id "unsupported control action").
End Channel.

(** ** Theorems: the grant of a channel *)

Section Grant.
Context (INSTANT_MAX : Z).
Context (request_json : Request -> Value) (parse_request : Value -> option Request) (response_json : Response -> Value) (binding_json : option ChannelBinding -> Value).
Context {Net : Type}.
Context (channel_call : string -> Request -> M Net string Response) (handler_call : Request -> M Net string Response).
Context (channel_status : Net -> Value).
Context (inbound outbound : list string) (lease_id : string).
Local Abbreviation Ad := (Adapter (Net := Net)).
Local Abbreviation forwarded := (forwarded request_json binding_json).

(** What happens to an adapter: a request of the local side, a request over the channel, a control request *)
Inductive Arrived := Local_ (request : Request) | Inbound (context : RequestContext) (request : Request) | Control (request : Request).
Definition arrives (ev : Arrived) : M Ad string Response :=
  match ev with
  | Local_ request => handle_request parse_request response_json channel_call outbound request
  | Inbound context request => serve_inbound request_json binding_json handler_call inbound context request
  | Control request => handle_control INSTANT_MAX channel_status lease_id request
  end.
Fixpoint adapter_run (evs : list Arrived) (a : Ad) (w : World) : Ad * World :=
  match evs with
  | [] => (a, w)
  | ev :: evs' => let '(_, a', w') := arrives ev a w in adapter_run evs' a' w'
  end.
Definition revokes (ev : Arrived) : bool := match ev with Control request => String.eqb (req_action request) "peer.revoke" | _ => false end.

(** The call that a request of the local side asks for, if the grant allows it: the service and the request are its parameters. *)
Definition outgoing (ev : Arrived) : option (string * Request) :=
  match ev with
  | Local_ request =>
      if bool_decide (req_action request = "peer.call") then
        service ← vget "service" (req_params request) ≫= as_str;
        inner ← parse_request (vindex (req_params request) "request");
        if bool_decide (req_action inner ∈ outbound) then Some (service, inner) else None
      else None
  | _ => None
  end.
(** A request over the channel that the grant allows, with what the connection says of its sender. *)
Definition admitted (ev : Arrived) : option (RequestContext * Request) :=
  match ev with
  | Inbound context request => if bool_decide (req_action request ∈ inbound) then Some (context, request) else None
  | _ => None
  end.
(** What the local handler is told of a request: who sent it and to which service, as the connection knows it, and the request itself *)
Definition envelope (p : RequestContext * Request) (e : Request) : Prop :=
  req_action e = "peer.dispatch" /\ req_request_id e = req_request_id p.2 /\
  vget "peerId" (req_params e) = Some (VString (rc_peer_id p.1)) /\ vget "service" (req_params e) = Some (VString (rc_service p.1)) /\
  vget "binding" (req_params e) = Some (binding_json (rc_binding p.1)) /\ vget "request" (req_params e) = Some (request_json p.2).

(** What an adapter did for these events is what its grant allows of them. *)
Record granted (evs : list Arrived) (a a' : Ad) : Prop := mk_granted {
  gr_called : ad_called a' = ad_called a ++ omap outgoing evs;
  gr_dispatched : ad_dispatched a' = ad_dispatched a ++ ((fun p => forwarded p.1 p.2) <$> omap admitted evs);
  gr_lease : extends (ad_lease a) (ad_lease a');
  gr_closed : ad_closed a = true -> ad_closed a' = true;
}.
Lemma granted_refl a : granted [] a a.
Proof. split; [by rewrite app_nil_r|by rewrite app_nil_r|done|done]. Qed.
Lemma granted_trans evs evs' a b c : granted evs a b -> granted evs' b c -> granted (evs ++ evs') a c.
Proof.
  intros [E1 G1 L1 C1] [E2 G2 L2 C2]. split; [| |by etrans|auto].
  - by rewrite E2, E1, omap_app, app_assoc.
  - by rewrite G2, G1, omap_app, fmap_app, app_assoc.
Qed.
Lemma in_actions action actions : existsb (String.eqb action) actions = bool_decide (action ∈ actions).
Proof.
  apply eq_bool_prop_intro. rewrite !Is_true_true, existsb_exists, bool_decide_eq_true. setoid_rewrite String.eqb_eq.
  split; [intros (x & Hx & ->); by apply list_elem_of_In|intros H; exists action; by rewrite <- list_elem_of_In].
Qed.

(** A step that only changes the lease, along a run of it *)
Lemma granted_lease a l closed : extends (ad_lease a) l -> (ad_closed a = true -> closed = true) ->
  granted [] a (mkAdapter l closed (ad_called a) (ad_dispatched a) (ad_net a)).
Proof. intros Hl Hc. split; cbn; [by rewrite app_nil_r|by rewrite app_nil_r|done|done]. Qed.
Lemma on_lease_granted {A} (m : M PeerLease.State string A) ev a w r a' w' :
  (forall l w, (let '(_, l', _) := m l w in l') = fst (lease_step INSTANT_MAX ev l w)) -> on_lease m a w = (r, a', w') -> granted [] a a'.
Proof.
  intros Hm H. apply zoom_cases in H as (l' & H & ->). specialize (Hm (ad_lease a) w). rewrite H in Hm. subst l'.
  apply granted_lease; [apply lease_step_extends|done].
Qed.
Lemma expires_same a w r a' w' : on_lease (Net := Net) expires_at_ms a w = (r, a', w') -> a' = a.
Proof. intros H. apply zoom_cases in H as (l & [= _ <- _] & ->). by destruct a. Qed.

Lemma control_granted request a w r a' w' : arrives (Control request) a w = (r, a', w') -> granted [Control request] a a'.
Proof.
  intros H. assert (granted [] a a' -> granted [Control request] a a') as Hs by (intros []; by split). apply Hs. clear Hs. cbn [arrives] in H. unfold handle_control in H. destruct (String.eqb _ "peer.status").
  { apply bind_cases in H as (r1 & a1 & w1 & H1 & H). apply expires_same in H1 as ->. destruct r1 as [expires|e]; [|destruct H as (-> & -> & _); apply granted_refl].
    apply bind_cases in H as (r2 & a2 & w2 & H2 & H). apply (on_lease_granted _ LvEnded) in H2; [|intros l w0; unfold lease_step; by destruct (PeerLease.ended l w0) as [[? ?] ?]].
    destruct r2; [by injection H as <- <- <-|by destruct H as (-> & -> & _)]. }
  destruct (String.eqb _ "peer.revoke").
  { apply bind_cases in H as (r1 & a1 & w1 & H1 & H). apply (on_lease_granted _ LvRevoke) in H1; [|intros l w0; reflexivity].
    destruct r1; [|by destruct H as (-> & -> & _)]. injection H as <- <- <-. apply (granted_trans [] [] _ _ _ H1). by apply (granted_lease a1). }
  destruct (String.eqb _ "peer.close"); [injection H as <- <- <-; by apply (granted_lease a)|].
  destruct (String.eqb _ "peer.renew"); [|injection H as <- <- <-; apply granted_refl].
  apply bind_cases in H as (r1 & a1 & w1 & H1 & H). apply attempt_cases in H1 as (r1' & -> & H1).
  assert (granted [] a a1) as Hg.
  { destruct (as_u64 _) as [expiry|]; [|injection H1 as <- <- <-; apply granted_refl].
    apply (on_lease_granted _ (LvRenew expiry)) in H1; [done|]. intros l w0; unfold lease_step; by destruct (renew _ expiry l w0) as [[? ?] ?]. }
  destruct r1' as [u|e]; [|by injection H as <- <- <-].
  apply bind_cases in H as (r2 & a2 & w2 & H2 & H). apply expires_same in H2 as ->. destruct r2; [by injection H as <- <- <-|by destruct H as (-> & -> & _)].
Qed.

Lemma local_granted request a w r a' w' : arrives (Local_ request) a w = (r, a', w') -> granted [Local_ request] a a'.
Proof.
  intros H. cbn [arrives] in H. unfold handle_request in H.
  assert (outgoing (Local_ request) = None -> granted [Local_ request] a a) as Hnone.
  { intros E. split; cbn [omap list_omap]; rewrite ?E; [by rewrite app_nil_r|by rewrite app_nil_r|done|done]. }
  cbn [outgoing] in Hnone. destruct (String.eqb_spec (req_action request) "peer.call") as [Ea|Ea]; cbn [negb] in H;
    [rewrite bool_decide_true in Hnone by done|rewrite bool_decide_false in Hnone by done; injection H as <- <- <-; by apply Hnone].
  destruct (vget _ _ ≫= as_str) as [service|] eqn:Es; [|injection H as <- <- <-; by apply Hnone].
  destruct (parse_request _) as [inner|] eqn:Ep; [|injection H as <- <- <-; by apply Hnone].
  rewrite in_actions in H. cbn [mbind option_bind] in Hnone. case_bool_decide as Eo; [|injection H as <- <- <-; by apply Hnone]. clear Hnone.
  assert (outgoing (Local_ request) = Some (service, inner)) as Eout.
  { cbn [outgoing]. rewrite bool_decide_true by done. rewrite Es, Ep. cbn. by rewrite bool_decide_true. }
  apply bind_cases in H as (r1 & a1 & w1 & H1 & H). injection H1 as <- <- <-.
  apply bind_cases in H as (r2 & a2 & w2 & H2 & H). apply zoom_cases in H2 as (n & _ & ->).
  assert (granted [Local_ request] a (mkAdapter (ad_lease a) (ad_closed a) (ad_called a ++ [(service, inner)]) (ad_dispatched a) n)) as Hg.
  { split; cbn [omap list_omap]; rewrite ?Eout; cbn; [done|by rewrite app_nil_r|done|done]. }
  destruct r2; [by injection H as <- <- <-|by destruct H as (-> & -> & _)].
Qed.

Lemma inbound_granted context request a w r a' w' : arrives (Inbound context request) a w = (r, a', w') -> granted [Inbound context request] a a'.
Proof.
  intros H. cbn [arrives] in H. unfold serve_inbound, authorize in H. rewrite in_actions in H.
  assert (omap admitted [Inbound context request] = if bool_decide (req_action request ∈ inbound) then [(context, request)] else []) as Ea
    by (cbn [omap list_omap admitted]; by case_bool_decide).
  case_bool_decide as Ei; [|injection H as <- <- <-; split; rewrite ?Ea; cbn; [by rewrite app_nil_r|by rewrite app_nil_r|done|done]].
  unfold handler in H. apply bind_cases in H as (r1 & a1 & w1 & H1 & H). injection H1 as <- <- <-.
  apply bind_cases in H as (r2 & a2 & w2 & H2 & H). apply attempt_cases in H2 as (r2' & -> & H2). apply zoom_cases in H2 as (n & _ & ->). injection H as <- <- <-.
  split; rewrite ?Ea; cbn; [by rewrite app_nil_r|done|done|done].
Qed.

Lemma arrives_granted ev a w r a' w' : arrives ev a w = (r, a', w') ->
  granted [ev] a a' /\ (revokes ev = true -> is_Some (pl_ended (ad_lease a')) /\ ad_closed a' = true).
Proof.
  intros H. split; [destruct ev; [by apply local_granted in H|by apply inbound_granted in H|by apply control_granted in H]|].
  destruct ev as [| |request]; try done. cbn [revokes]. intros E. cbn [arrives] in H. unfold handle_control in H. apply String.eqb_eq in E. rewrite E in H.
  injection H as <- <- <-. by split; [eexists|].
Qed.

Lemma outgoing_within evs : Forall (fun p => req_action p.2 ∈ outbound) (omap outgoing evs).
Proof.
  apply Forall_forall. intros p (ev & _ & H)%list_elem_of_omap. destruct ev as [request| |]; cbn [outgoing] in H; try done. case_bool_decide; [|done].
  destruct (vget _ _ ≫= as_str); [|done]. destruct (parse_request _); [|done]. cbn in H. case_bool_decide; [|done]. by injection H as <-.
Qed.

End Grant.

(** ** Runs *)

Definition sample_peer : PeerConnectConfig := mkPeerConnectConfig "node-a" "node-b" "b.example" ["/a/controller.sock"] "/opt/machine-fabric" "/opt/state" "/a/peer.json".
Definition status_7 : PeerStatus := mkPeerStatus "node-b" "b.example" "connection_x" 7 "reconnecting" 0 None.
Definition status_text (st : PeerStatus) : string := pst_connection_id st.
Definition parse_status (s : string) : option PeerStatus := if String.eqb s "connection_x" then Some status_7 else None.
Definition known_node : Node (Net := unit) := mkNode (Some "connection_x") [status_7] false false tt.
Definition local_controller : M unit string Response := ret (response_success "r" (obj_of [("controller", obj_of [("id", VString "node-a")])])).
Definition role_answers (_ : string) : M unit string Response := ret (response_success "r" VNull).
Local Abbreviation sample_connect := (connect_peer status_text parse_status local_controller (ret tt) (ret tt) (ret tt) role_answers (ret (Ok tt))).

Lemma peer_generations_increase_witness :
  let run := sample_connect 2 sample_peer known_node (sample_world 0) in
  (pst_generation <$> nd_written run.1.2) = [9; 9; 9; 8; 8; 8; 7] /\ ordered (nd_written run.1.2) /\ nd_child run.1.2 = false.
Proof.
  intros run. split; [vm_compute; reflexivity|]. destruct run as [[r s'] w'] eqn:H. unfold run in H.
  assert (calm_reader (Net := unit) (ret (Ok tt))) as Hj by (intros n v q n' v' [= <- _ _]; reflexivity).
  destruct (peer_generations_increase status_text parse_status local_controller (ret tt) (ret tt) (ret tt) role_answers (ret (Ok tt)) Hj 2 sample_peer known_node (sample_world 0) r s' w')
    as (_ & Ho & _ & Hi & _); [repeat constructor|reflexivity|repeat constructor|repeat constructor; vm_compute; discriminate|split; reflexivity|intros E; discriminate E|exact H|].
  split; [exact Ho|exact (proj1 Hi)].
Defined.

Definition free_lease : PeerLease.State := PeerLease.mkState 100000 100000 None.
Definition sample_adapter : Adapter (Net := unit) := mkAdapter free_lease false [] [] tt.
Definition request_of_ (action : string) (params : Value) : Request := mkRequest RPC_VERSION "q" None None action params.
Definition action_json (r : Request) : Value := VString (req_action r).
Definition json_action (v : Value) : option Request := match v with VString s => Some (request_of_ s VNull) | _ => None end.
Definition answered (_ : string) (_ : Request) : M unit string Response := ret (response_success "q" VNull).
Definition sample_events : list Arrived :=
  [Local_ (request_of_ "peer.call" (obj_of [("service", VString "executor"); ("request", VString "status")]));
   Local_ (request_of_ "peer.call" (obj_of [("service", VString "executor"); ("request", VString "fs.write")]));
   Inbound (mkRequestContext "node-b" "controller" None) (request_of_ "ping" (obj_of [("peerId", VString "someone else")]));
   Inbound (mkRequestContext "node-b" "controller" None) (request_of_ "lease.acquire" VNull);
   Control (request_of_ "peer.renew" (obj_of [("expiresAtMs", vu64 200000)]));
   Control (request_of_ "peer.revoke" VNull);
   Control (request_of_ "peer.renew" (obj_of [("expiresAtMs", vu64 300000)]))].
Local Abbreviation sample_adapter_run :=
  (adapter_run 1000000 action_json json_action (fun _ => VNull) (fun _ => VNull) answered (answered "") (fun _ : unit => VNull) ["ping"] ["status"] "lease").

