(* ===== verification/Quoting.v ===== *)
(** * Quoting of command lines ([transport.rs], [peer.rs], [process.rs], [windows.rs], [windows_computer_use.rs])

    The commands that are handed to a remote shell and the command lines of
    Windows, with readers that say how such text is split into arguments: POSIX
    token recognition for what the commands use, and the documented rules of
    CommandLineToArgvW. A text with a NUL is no argument of a process on either
    system: [Command] refuses it, and a Windows command line ends there. *)
From Stdlib Require Import Ascii.
From stdpp Require Import base gmap strings list sorting.
From S2P Require Import Prelude PeerSsh PeerChannel.
Open Scope string_scope.

Definition quote : ascii := "034"%char.
Definition apostrophe : ascii := "039"%char.
Definition backslash : ascii := "092"%char.
Definition space : ascii := " "%char.
Definition one (c : ascii) : string := String c "".
Definition no_nul (s : string) : bool := bytes_all (fun c => negb (Ascii.eqb c NUL)) s.

(** [value.replace(c, by)] *)
Fixpoint replace_char (c : ascii) (by_ : string) (s : string) : string :=
  match s with
  | EmptyString => ""
  | String d s' => (if Ascii.eqb d c then by_ else one d) +:+ replace_char c by_ s'
  end.

(** [slice::join] *)
Fixpoint join (sep : string) (l : list string) : string :=
  match l with
  | [] => ""
  | [s] => s
  | s :: l' => s +:+ sep +:+ join sep l'
  end.

(** ** The remote shell *)

(** [shell_single_quote] of [peer.rs] and [transport.rs] *)
Definition shell_single_quote (value : string) : string := replace_char apostrophe (one apostrophe +:+ one backslash +:+ one apostrophe +:+ one apostrophe) value.
(** ['{}'] *)
Definition quoted (value : string) : string := one apostrophe +:+ shell_single_quote value +:+ one apostrophe.
Definition powershell_single_quote (value : string) : string := replace_char apostrophe (one apostrophe +:+ one apostrophe) value.

(** [call_executor] over ssh: the arguments of [ssh] *)
Definition ssh_remote_command (socket action params : string) : string :=
  ".local/bin/machine-fabric --socket " +:+ quoted socket +:+ " call " +:+ quoted action +:+ " " +:+ quoted params.
Definition ssh_call_arguments (host socket : string) (control_path : option string) (action params : string) : list string :=
  ["-o"; "ClearAllForwardings=yes"; "-o"; "BatchMode=yes"]
    ++ (match control_path with Some path => ["-S"; path] | None => [] end)
    ++ [host; ssh_remote_command socket action params].

(** [connect_once]: where the peer is to listen and to call on the other machine *)
Record RemotePeer := mkRemotePeer {
  rp_local_id : string;
  rp_peer_id : string;
  rp_remote_executable : string;
  rp_remote_state_root : string;
  rp_remote_windows : bool;
}.
Definition separator (c : RemotePeer) : string := if rp_remote_windows c then one backslash else "/".
Definition remote_controller (c : RemotePeer) : string :=
  rp_remote_state_root c +:+ separator c +:+ "fabric" +:+ separator c +:+ rp_local_id c +:+ "-controller.sock".
Definition remote_executor (c : RemotePeer) : string :=
  rp_remote_state_root c +:+ separator c +:+ "fabric" +:+ separator c +:+ rp_local_id c +:+ "-executor.sock".
Definition remote_local_controller (c : RemotePeer) : string := rp_remote_state_root c +:+ separator c +:+ "controller.sock".
Definition remote_local_executor (c : RemotePeer) : string := rp_remote_state_root c +:+ separator c +:+ "executor.sock".

(** The command of [connect_once]; [q] is how a value is quoted. *)
Definition accept_command (q : string -> string) (c : RemotePeer) : string :=
  q (rp_remote_executable c) +:+ " peer accept --id " +:+ q (rp_local_id c) +:+ " --local-id " +:+ q (rp_peer_id c)
    +:+ " --local-controller-socket " +:+ q (remote_local_controller c) +:+ " --local-executor-socket " +:+ q (remote_local_executor c)
    +:+ " --expose-controller-socket " +:+ q (remote_controller c) +:+ " --expose-executor-socket " +:+ q (remote_executor c).
Definition powershell_quoted (value : string) : string := one apostrophe +:+ powershell_single_quote value +:+ one apostrophe.
Definition remote_command (c : RemotePeer) : string :=
  if rp_remote_windows c
  then "powershell.exe -NoProfile -NonInteractive -Command " +:+ one quote +:+ "& " +:+ accept_command powershell_quoted c +:+ one quote
  else accept_command quoted c.

(** Token recognition of a POSIX shell, for text without expansions and operators: [None] where there are some, and for a NUL, which no command can have. *)
Definition plain_char (c : ascii) : bool :=
  is_ascii_alphanumeric c || existsb (Ascii.eqb c) (String.list_ascii_of_string "-_./:@,+").
Fixpoint shell_read (in_quotes : bool) (word : option string) (s : string) : option (list string) :=
  match s with
  | EmptyString => if in_quotes then None else Some (match word with Some w => [w] | None => [] end)
  | String c s' =>
      if Ascii.eqb c NUL then None
      else if in_quotes then
        if Ascii.eqb c apostrophe then shell_read false word s' else shell_read true (Some (default "" word +:+ one c)) s'
      else if Ascii.eqb c apostrophe then shell_read true (Some (default "" word)) s'
      else if Ascii.eqb c space then
        match word with Some w => option_map (cons w) (shell_read false None s') | None => shell_read false None s' end
      else if Ascii.eqb c backslash then
        match s' with
        | String d s'' => shell_read false (Some (default "" word +:+ one d)) s''
        | EmptyString => None
        end
      else if plain_char c then shell_read false (Some (default "" word +:+ one c)) s'
      else None
  end.
Definition shell_words (s : string) : option (list string) := shell_read false None s.

(** ** The command line of Windows *)

Fixpoint backslashes (n : nat) : string := match n with O => "" | S n' => String backslash (backslashes n') end.
(** [char::is_ascii_whitespace] *)
Definition is_ascii_whitespace (c : ascii) : bool := byte_in 9 10 c || byte_in 12 13 c || Ascii.eqb c space.

Fixpoint argument_body (count : nat) (s : string) : string :=
  match s with
  | EmptyString => backslashes (count * 2) +:+ one quote
  | String c s' =>
      if Ascii.eqb c backslash then argument_body (S count) s'
      else backslashes (if Ascii.eqb c quote then count * 2 + 1 else count) +:+ one c +:+ argument_body 0 s'
  end.
(** [windows_command_line_argument] *)
Definition windows_command_line_argument (value : string) : string :=
  if negb (str_is_empty value) && bytes_all (fun c => negb (Ascii.eqb c quote || is_ascii_whitespace c)) value then value
  else one quote +:+ argument_body 0 value.
Definition verbatim_prefix : string := one backslash +:+ one backslash +:+ "?" +:+ one backslash.
(** [native_process_argument] *)
Definition native_process_argument (value : string) : string :=
  match strip_prefix (verbatim_prefix +:+ "UNC" +:+ one backslash) value with
  | Some rest => one backslash +:+ one backslash +:+ rest
  | None => match strip_prefix verbatim_prefix value with Some rest => rest | None => value end
  end.
(** The command line of [spawn_in_active_session_with_env] *)
Definition session_command_line (executable : string) (args : list string) : string :=
  join " " (windows_command_line_argument <$> (native_process_argument <$> executable :: args)).
(** The arguments in [spawn_hidden_in_active_session] of [windows_computer_use.rs] *)
Definition hidden_argument (value : string) : string := one quote +:+ replace_char quote (one backslash +:+ one quote) value +:+ one quote.

(** CommandLineToArgvW after the program: backslashes count only before a quotation mark, a pair of them for one. (Its rule for two
    quotation marks in a row within quotes is left out: no such text is written here.) *)
Definition with_slashes (count : nat) (word : option string) : option string :=
  match count with O => word | S _ => Some (default "" word +:+ backslashes count) end.
Fixpoint windows_read (in_quotes : bool) (count : nat) (word : option string) (s : string) : list string :=
  match s with
  | EmptyString => match with_slashes count word with Some w => [w] | None => [] end
  | String c s' =>
      if Ascii.eqb c backslash then windows_read in_quotes (S count) word s'
      else if Ascii.eqb c quote then
        let w := default "" word +:+ backslashes (Nat.div2 count) in
        if Nat.odd count then windows_read in_quotes 0 (Some (w +:+ one quote)) s' else windows_read (negb in_quotes) 0 (Some w) s'
      else if negb in_quotes && (Ascii.eqb c space || byte_in 9 9 c) then
        match with_slashes count word with Some w => w :: windows_read false 0 None s' | None => windows_read false 0 None s' end
      else windows_read in_quotes 0 (Some (default "" (with_slashes count word) +:+ one c)) s'
  end.
(** A command line ends at its first NUL. *)
Fixpoint until_nul (s : string) : string :=
  match s with
  | EmptyString => ""
  | String c s' => if Ascii.eqb c NUL then "" else String c (until_nul s')
  end.
Definition windows_arguments (s : string) : list string := windows_read false 0 None (until_nul s).

(** The program: within quotation marks if there are any, and else to the first space; backslashes are not special in it. *)
Fixpoint read_to (stop : ascii -> bool) (s : string) : string * string :=
  match s with
  | EmptyString => ("", "")
  | String c s' => if stop c then ("", s') else let '(w, rest) := read_to stop s' in (String c w, rest)
  end.
Definition windows_argv (s : string) : list string :=
  let '(program, rest) :=
    match until_nul s with
    | String c s' => if Ascii.eqb c quote then read_to (Ascii.eqb quote) s' else read_to (byte_in 0 32) (String c s')
    | EmptyString => ("", "")
    end in
  program :: windows_read false 0 None rest.

(** ** Theorems: the remote shell *)

Lemma one_app c s : one c +:+ s = String c s.
Proof. reflexivity. Qed.
Lemma app_one w c s : (w +:+ one c) +:+ s = w +:+ String c s.
Proof. by rewrite <- string_app_assoc. Qed.

Lemma apostrophe_not_nul : Ascii.eqb apostrophe NUL = false.
Proof. reflexivity. Qed.
Lemma shell_reads_apostrophe w t :
  shell_read true (Some w) (String apostrophe (one backslash +:+ one apostrophe +:+ one apostrophe) +:+ t) = shell_read true (Some (w +:+ one apostrophe)) t.
Proof. reflexivity. Qed.
Lemma shell_reads_quoted v word s : no_nul v = true -> shell_read false word (quoted v +:+ s) = shell_read false (Some (default "" word +:+ v)) s.
Proof.
  intros Hn. unfold quoted. rewrite <- !string_app_assoc, !one_app. cbn [shell_read]. rewrite Ascii.eqb_refl, apostrophe_not_nul.
  generalize (default "" word) as w. clear word. unfold shell_single_quote. rewrite !one_app. revert Hn. induction v as [|c v IH]; intros Hn w; cbn [replace_char].
  - change ("" +:+ ?x) with x. cbn [shell_read]. by rewrite Ascii.eqb_refl, apostrophe_not_nul, string_app_nil_r.
  - unfold no_nul in *. cbn [bytes_all] in Hn. apply andb_true_iff in Hn as [Hc Hn]. apply negb_true_iff in Hc. specialize (IH Hn). rewrite <- string_app_assoc. destruct (Ascii.eqb_spec c apostrophe) as [->|Hne].
    + rewrite shell_reads_apostrophe, IH. by rewrite app_one.
    + rewrite one_app. cbn [shell_read default]. rewrite Hc, (proj2 (Ascii.eqb_neq _ _) Hne). rewrite IH. by rewrite app_one.
Qed.

(** Plain text between quoted values *)
Definition plain (s : string) : bool := bytes_all plain_char s.
Lemma plain_not c : plain_char c = true -> Ascii.eqb c apostrophe = false /\ Ascii.eqb c space = false /\ Ascii.eqb c backslash = false /\ Ascii.eqb c NUL = false.
Proof. intros H. split_and!; apply Ascii.eqb_neq; intros ->; by vm_compute in H. Qed.
Lemma shell_reads_plain v word s : plain v = true -> v <> "" -> shell_read false word (v +:+ s) = shell_read false (Some (default "" word +:+ v)) s.
Proof.
  revert word. induction v as [|c v IH]; intros word Hp Hv; [done|]. unfold plain in *. cbn [bytes_all] in Hp. apply andb_true_iff in Hp as [Hc Hp].
  rewrite string_app_cons. cbn [shell_read]. destruct (plain_not _ Hc) as (-> & -> & -> & ->). rewrite Hc.
  destruct v as [|d v]; [done|]. rewrite IH by done. change (default "" (Some ?x)) with x. by rewrite app_one.
Qed.
Lemma shell_reads_space word s : shell_read false word (" " +:+ s) = match word with Some w => option_map (cons w) (shell_read false None s) | None => shell_read false None s end.
Proof. reflexivity. Qed.
Lemma shell_reads_end word : shell_read false word "" = Some (match word with Some w => [w] | None => [] end).
Proof. reflexivity. Qed.

(** One more option and its quoted value *)
Lemma shell_reads_option name v w s : plain name = true -> name <> "" -> no_nul v = true ->
  shell_read false (Some w) (" " +:+ name +:+ " " +:+ quoted v +:+ s) = option_map (fun l => w :: name :: l) (shell_read false (Some v) s).
Proof.
  intros Hp Hn Hv. rewrite shell_reads_space, shell_reads_plain, shell_reads_space, shell_reads_quoted by done. change (default "" None +:+ ?x) with x.
  by destruct (shell_read false (Some v) s).
Qed.

Lemma no_nul_app a b : no_nul (a +:+ b) = no_nul a && no_nul b.
Proof. apply bytes_all_app. Qed.
(** The texts of a peer without NUL *)
Definition clean_peer (c : RemotePeer) : bool :=
  no_nul (rp_local_id c) && no_nul (rp_peer_id c) && no_nul (rp_remote_executable c) && no_nul (rp_remote_state_root c).
Lemma clean_paths c : clean_peer c = true ->
  no_nul (rp_local_id c) = true /\ no_nul (rp_peer_id c) = true /\ no_nul (rp_remote_executable c) = true /\
  no_nul (remote_controller c) = true /\ no_nul (remote_executor c) = true /\ no_nul (remote_local_controller c) = true /\ no_nul (remote_local_executor c) = true.
Proof.
  unfold clean_peer. rewrite !andb_true_iff. intros [[[H1 H2] H3] H4].
  assert (no_nul (separator c) = true) as Hs by (unfold separator; by destruct (rp_remote_windows c)).
  unfold remote_controller, remote_executor, remote_local_controller, remote_local_executor. rewrite !no_nul_app, H1, H2, H3, H4, Hs. done.
Qed.

(** C34: no value breaks out of the commands that are handed to the POSIX shell of another machine, whatever the values contain (a NUL apart, which no command may have): for a call of an executor over ssh the shell there gets exactly the program with the socket, the action and the parameters as its arguments; and for the command with which a POSIX machine accepts a peer, exactly the executable with the identifiers and the paths under its state root. *)
Theorem remote_commands_are_exact :
  (forall socket action params, no_nul socket = true -> no_nul action = true -> no_nul params = true ->
     shell_words (ssh_remote_command socket action params) = Some [".local/bin/machine-fabric"; "--socket"; socket; "call"; action; params]) /\
  (forall c, rp_remote_windows c = false -> clean_peer c = true ->
     shell_words (remote_command c) =
     Some [rp_remote_executable c; "peer"; "accept"; "--id"; rp_local_id c; "--local-id"; rp_peer_id c;
           "--local-controller-socket"; remote_local_controller c; "--local-executor-socket"; remote_local_executor c;
           "--expose-controller-socket"; remote_controller c; "--expose-executor-socket"; remote_executor c]).
Proof.
  split.
  - intros socket action params Hs Ha Hp. unfold shell_words, ssh_remote_command.
    change (".local/bin/machine-fabric --socket " +:+ ?x) with (".local/bin/machine-fabric" +:+ " " +:+ "--socket" +:+ " " +:+ x).
    change (" call " +:+ ?x) with (" " +:+ "call" +:+ " " +:+ x). rewrite shell_reads_plain by done. change (default "" None +:+ ?x) with x.
    rewrite shell_reads_option by done. rewrite shell_reads_option by done. rewrite shell_reads_space.
    rewrite <- (string_app_nil_r (quoted params)), shell_reads_quoted, shell_reads_end by done. done.
  - intros c Hw (H1 & H2 & H3 & H4 & H5 & H6 & H7)%clean_paths. unfold shell_words, remote_command, accept_command. rewrite Hw. rewrite shell_reads_quoted by done. change (default "" None +:+ ?x) with x.
    change (" peer accept --id " +:+ ?x) with (" " +:+ "peer" +:+ " " +:+ "accept" +:+ " " +:+ "--id" +:+ " " +:+ x).
    change (" --local-id " +:+ ?x) with (" " +:+ "--local-id" +:+ " " +:+ x).
    change (" --local-controller-socket " +:+ ?x) with (" " +:+ "--local-controller-socket" +:+ " " +:+ x).
    change (" --local-executor-socket " +:+ ?x) with (" " +:+ "--local-executor-socket" +:+ " " +:+ x).
    change (" --expose-controller-socket " +:+ ?x) with (" " +:+ "--expose-controller-socket" +:+ " " +:+ x).
    change (" --expose-executor-socket " +:+ ?x) with (" " +:+ "--expose-executor-socket" +:+ " " +:+ x).
    rewrite !shell_reads_space, shell_reads_plain, shell_reads_space, shell_reads_plain, shell_reads_option by done.
    rewrite !shell_reads_option by done.
    rewrite <- (string_app_nil_r (quoted (remote_executor c))). rewrite shell_reads_option, shell_reads_end by done. done.
Qed.

(** ** Theorems: Windows *)

Lemma backslashes_add a b : backslashes a +:+ backslashes b = backslashes (a + b).
Proof. induction a as [|a IH]; [done|]. cbn [backslashes Nat.add]. by rewrite string_app_cons, IH. Qed.
Lemma with_slashes_default n w : default "" (with_slashes n (Some w)) = w +:+ backslashes n.
Proof. destruct n; [by rewrite string_app_nil_r|done]. Qed.
Lemma windows_reads_backslashes q k n w s : windows_read q k w (backslashes n +:+ s) = windows_read q (k + n) w s.
Proof.
  revert k. induction n as [|n IH]; intros k; [by rewrite Nat.add_0_r|]. cbn [backslashes]. rewrite string_app_cons. cbn [windows_read]. rewrite Ascii.eqb_refl, IH.
  f_equal. lia.
Qed.
Lemma quote_not_backslash : Ascii.eqb quote backslash = false.
Proof. reflexivity. Qed.
Lemma windows_reads_quote q k w s :
  windows_read q k (Some w) (String quote s) =
  if Nat.odd k then windows_read q 0 (Some (w +:+ backslashes (Nat.div2 k) +:+ one quote)) s else windows_read (negb q) 0 (Some (w +:+ backslashes (Nat.div2 k))) s.
Proof. cbn [windows_read]. rewrite quote_not_backslash, Ascii.eqb_refl. change (default "" (Some w)) with w. by rewrite <- string_app_assoc. Qed.
Lemma windows_reads_char c k w s : Ascii.eqb c backslash = false -> Ascii.eqb c quote = false ->
  windows_read true k (Some w) (String c s) = windows_read true 0 (Some (w +:+ backslashes k +:+ one c)) s.
Proof. intros Hb Hq. cbn [windows_read]. rewrite Hb, Hq. cbn [negb andb]. by rewrite with_slashes_default, <- string_app_assoc. Qed.

(** The body that was written for [s] is read as [s], after the backslashes that wait to be written. *)
Lemma windows_reads_body s : forall n w t, windows_read true 0 (Some w) (argument_body n s +:+ t) = windows_read false 0 (Some (w +:+ backslashes n +:+ s)) t.
Proof.
  induction s as [|c s IH]; intros n w t; cbn [argument_body].
  - rewrite <- string_app_assoc, windows_reads_backslashes, one_app, windows_reads_quote. cbn [Nat.add].
    rewrite (Nat.mul_comm n 2). rewrite Nat.odd_even. by rewrite Nat.div2_even, string_app_nil_r.
  - destruct (Ascii.eqb c backslash) eqn:Eb; [apply Ascii.eqb_eq in Eb as ->|].
    + rewrite IH. replace (S n) with (n + 1)%nat by lia. rewrite <- backslashes_add, <- string_app_assoc. done.
    + rewrite <- !string_app_assoc, windows_reads_backslashes, one_app. cbn [Nat.add]. destruct (Ascii.eqb c quote) eqn:Eq.
      * apply Ascii.eqb_eq in Eq as ->. rewrite windows_reads_quote, (Nat.mul_comm n 2), Nat.odd_odd, Nat.div2_odd', IH.
        change (backslashes 0 +:+ ?x) with x. by rewrite <- !string_app_assoc.
      * rewrite windows_reads_char, IH by done. change (backslashes 0 +:+ ?x) with x. by rewrite <- !string_app_assoc.
Qed.

Lemma default_some (w : string) : default "" (Some w) = w.
Proof. reflexivity. Qed.
(** An argument that needs no quotation marks *)
Definition bare (value : string) : bool := bytes_all (fun c => negb (Ascii.eqb c quote || is_ascii_whitespace c)) value.
Lemma bare_char c : negb (Ascii.eqb c quote || is_ascii_whitespace c) = true -> Ascii.eqb c quote = false /\ (Ascii.eqb c space || byte_in 9 9 c) = false.
Proof.
  intros H. apply negb_true_iff, orb_false_iff in H as [H1 H2]. split; [done|]. unfold is_ascii_whitespace in H2. rewrite !orb_false_iff in H2. destruct H2 as [[H2 _] H3].
  rewrite H3. cbn [orb]. unfold byte_in in *. apply andb_false_iff. apply andb_false_iff in H2. destruct H2 as [H2|H2]; [by left|right].
  revert H2. rewrite !Nat.leb_gt. lia.
Qed.
(** Reading a bare argument: its last backslashes wait for what follows. *)
Lemma windows_reads_bare v : forall k w t, bare v = true -> v <> "" ->
  exists k' w', windows_read false k w (v +:+ t) = windows_read false k' w' t /\ with_slashes k' w' = Some (default "" (with_slashes k w) +:+ v).
Proof.
  induction v as [|c v IH]; intros k w t Hb Hv; [done|]. unfold bare in *. cbn [bytes_all] in Hb. apply andb_true_iff in Hb as [Hc Hb].
  apply bare_char in Hc as [Hq Hs]. rewrite string_app_cons. cbn [windows_read]. destruct (Ascii.eqb c backslash) eqn:Eb.
  - apply Ascii.eqb_eq in Eb as ->. assert (default "" (with_slashes (S k) w) = default "" (with_slashes k w) +:+ one backslash) as Ed.
    { destruct k; [done|]. cbn [with_slashes]. rewrite !default_some, <- string_app_assoc.
      change (one backslash) with (backslashes 1). rewrite backslashes_add. f_equal. f_equal. lia. }
    destruct v as [|d v]; [exists (S k), w; split; [done|]|].
    + change (String backslash "") with (one backslash). by rewrite <- Ed.
    + destruct (IH (S k) w t Hb ltac:(done)) as (k' & w' & E & E'). exists k', w'. split; [exact E|]. rewrite E', Ed. by rewrite app_one.
  - rewrite Hq. cbn [negb andb]. rewrite Hs. destruct v as [|d v]; [exists 0%nat, (Some (default "" (with_slashes k w) +:+ one c)); done|].
    destruct (IH 0%nat (Some (default "" (with_slashes k w) +:+ one c)) t Hb ltac:(done)) as (k' & w' & E & E'). exists k', w'. split; [exact E|]. rewrite E'.
    cbn [with_slashes]. change (default "" (Some ?x)) with x. by rewrite app_one.
Qed.

Lemma windows_reads_argument v t :
  exists k w, windows_read false 0 None (windows_command_line_argument v +:+ t) = windows_read false k w t /\ with_slashes k w = Some v.
Proof.
  unfold windows_command_line_argument. destruct (negb (str_is_empty v) && bytes_all _ v) eqn:E.
  - apply andb_true_iff in E as [E1 E2]. destruct (windows_reads_bare v 0 None t) as (k & w & H & H'); [exact E2|by intros ->|]. exists k, w. split; [exact H|]. by rewrite H'.
  - exists 0%nat, (Some v). split; [|done]. rewrite <- string_app_assoc, one_app. cbn [windows_read]. rewrite quote_not_backslash, Ascii.eqb_refl.
    cbn [Nat.odd negb Nat.div2 backslashes]. change (default "" None +:+ "") with "". rewrite windows_reads_body. done.
Qed.

Lemma windows_reads_arguments args : windows_read false 0 None (join " " (windows_command_line_argument <$> args)) = args.
Proof.
  induction args as [|v args IH]; [done|]. cbn [fmap list_fmap]. destruct args as [|v' args].
  - cbn [fmap list_fmap join]. rewrite <- (string_app_nil_r (windows_command_line_argument v)). destruct (windows_reads_argument v "") as (k & w & -> & E).
    cbn [windows_read]. by rewrite E.
  - set (rest := windows_command_line_argument <$> (v' :: args)) in *. change (join " " (?a :: rest)) with (a +:+ " " +:+ join " " rest).
    destruct (windows_reads_argument v (" " +:+ join " " rest)) as (k & w & -> & E).
    change (" " +:+ ?x) with (String space x). change (windows_read false k w (String space ?x)) with (match with_slashes k w with Some w => w :: windows_read false 0 None x | None => windows_read false 0 None x end).
    rewrite E. by rewrite IH.
Qed.

(** *** The end of the line *)

Lemma until_nul_clean s : no_nul s = true -> until_nul s = s.
Proof.
  unfold no_nul. induction s as [|c s IH]; [done|]. cbn [bytes_all until_nul]. intros [Hc Hs]%andb_true_iff. apply negb_true_iff in Hc. by rewrite Hc, IH.
Qed.
Lemma no_nul_backslashes n : no_nul (backslashes n) = true.
Proof. induction n as [|n IH]; [done|]. exact IH. Qed.
Lemma no_nul_body s : forall n, no_nul s = true -> no_nul (argument_body n s) = true.
Proof.
  induction s as [|c s IH]; intros n Hs; cbn [argument_body]; [by rewrite no_nul_app, no_nul_backslashes|].
  unfold no_nul in Hs. cbn [bytes_all] in Hs. apply andb_true_iff in Hs as [Hc Hs]. destruct (Ascii.eqb c backslash); [by apply IH|].
  rewrite !no_nul_app, no_nul_backslashes, IH by done. unfold no_nul, one. cbn [bytes_all]. by rewrite Hc.
Qed.
Lemma no_nul_argument v : no_nul v = true -> no_nul (windows_command_line_argument v) = true.
Proof. intros H. unfold windows_command_line_argument. case_match; [done|]. rewrite no_nul_app. by apply (no_nul_body v 0). Qed.
Lemma no_nul_native v : no_nul v = true -> no_nul (native_process_argument v) = true.
Proof.
  intros H. unfold native_process_argument. destruct (strip_prefix (_ +:+ _) v) as [rest|] eqn:E.
  - apply strip_prefix_Some in E as ->. rewrite !no_nul_app in *. by apply andb_true_iff in H as [_ ->].
  - clear E. destruct (strip_prefix _ v) as [rest|] eqn:E; [|done]. apply strip_prefix_Some in E as ->. rewrite no_nul_app in H. by apply andb_true_iff in H as [_ ->].
Qed.
Lemma no_nul_join l : Forall (fun v => no_nul v = true) l -> no_nul (join " " l) = true.
Proof.
  induction 1 as [|v l Hv Hl IH]; [done|]. destruct l as [|v' l]; [exact Hv|]. change (join " " (v :: v' :: l)) with (v +:+ " " +:+ join " " (v' :: l)).
  rewrite !no_nul_app, Hv, IH. done.
Qed.

(** *** The program *)

(** What the name of a program has: no quotation mark, no control character, no backslash at its end *)
Fixpoint ends_open (s : string) : bool :=
  match s with EmptyString => true | String c EmptyString => negb (Ascii.eqb c backslash) | String _ s' => ends_open s' end.
Definition program_path (s : string) : bool := negb (str_is_empty s) && ends_open s && bytes_all (fun c => negb (Ascii.eqb c quote || byte_in 0 31 c)) s.

Lemma body_open s : forall n, s <> "" -> ends_open s = true -> bytes_all (fun c => negb (Ascii.eqb c quote || byte_in 0 31 c)) s = true ->
  argument_body n s = backslashes n +:+ s +:+ one quote.
Proof.
  induction s as [|c s IH]; intros n Hne He Hs; [done|]. cbn [bytes_all] in Hs. apply andb_true_iff in Hs as [Hc Hs]. apply negb_true_iff, orb_false_iff in Hc as [Hc _].
  cbn [argument_body]. destruct s as [|d s].
  - cbn in He. apply negb_true_iff in He. rewrite He, Hc. done.
  - change (ends_open (String c (String d s))) with (ends_open (String d s)) in He. destruct (Ascii.eqb c backslash) eqn:Eb.
    + apply Ascii.eqb_eq in Eb as ->. rewrite IH by done. replace (S n) with (n + 1)%nat by lia. by rewrite <- backslashes_add, <- string_app_assoc.
    + rewrite Hc, IH by done. done.
Qed.
Lemma reads_to (stop : ascii -> bool) p c t : bytes_all (fun d => negb (stop d)) p = true -> stop c = true -> read_to stop (p +:+ String c t) = (p, t).
Proof.
  intros Hp Hc. induction p as [|d p IH]; cbn [bytes_all] in Hp; [cbn [read_to]; change ("" +:+ ?x) with x; cbn [read_to]; by rewrite Hc|].
  apply andb_true_iff in Hp as [Hd Hp]. apply negb_true_iff in Hd. rewrite string_app_cons. cbn [read_to]. by rewrite Hd, IH.
Qed.
Lemma reads_all (stop : ascii -> bool) p : bytes_all (fun d => negb (stop d)) p = true -> read_to stop p = (p, "").
Proof.
  intros Hp. induction p as [|d p IH]; [done|]. cbn [bytes_all] in Hp. apply andb_true_iff in Hp as [Hd Hp]. apply negb_true_iff in Hd. cbn [read_to]. by rewrite Hd, IH.
Qed.
Lemma bytes_all_impl (f g : ascii -> bool) s : (forall c, f c = true -> g c = true) -> bytes_all f s = true -> bytes_all g s = true.
Proof. intros H. induction s as [|c s IH]; [done|]. cbn [bytes_all]. rewrite !andb_true_iff. intros [? ?]. auto. Qed.

(** What follows the program on the line *)
Definition rest_of_line (l : list string) : string := match l with [] => "" | _ => " " +:+ join " " l end.
Lemma join_cons v l : join " " (v :: l) = v +:+ rest_of_line l.
Proof. destruct l; [by rewrite string_app_nil_r|done]. Qed.
Lemma reads_program p l : program_path p = true ->
  (match windows_command_line_argument p +:+ rest_of_line l with
   | String c s' => if Ascii.eqb c quote then read_to (Ascii.eqb quote) s' else read_to (byte_in 0 32) (String c s')
   | EmptyString => ("", "")
   end) = (p, rest_of_line l) \/
  (match windows_command_line_argument p +:+ rest_of_line l with
   | String c s' => if Ascii.eqb c quote then read_to (Ascii.eqb quote) s' else read_to (byte_in 0 32) (String c s')
   | EmptyString => ("", "")
   end) = (p, join " " l).
Proof.
  intros [[Hne He]%andb_true_iff Hp]%andb_true_iff. destruct p as [|c0 p0] eqn:Ep; [done|]. rewrite <- Ep in *.
  unfold windows_command_line_argument. rewrite Hne. cbn [andb]. destruct (bytes_all (fun c => negb (Ascii.eqb c quote || is_ascii_whitespace c)) p) eqn:Eb.
  - right. assert (bytes_all (fun d => negb (byte_in 0 32 d)) p = true) as H32.
    { revert Eb Hp. clear. induction p as [|c p IH]; [done|]. cbn [bytes_all]. rewrite !andb_true_iff, !negb_true_iff, !orb_false_iff. intros [[_ Hw] Hb] [[_ Hc] Hp].
      split; [|by apply IH]. unfold is_ascii_whitespace in Hw. apply orb_false_iff in Hw as [_ Hw]. apply Ascii.eqb_neq in Hw. unfold byte_in in *.
      apply andb_false_iff in Hc. apply andb_false_iff. rewrite !Nat.leb_gt in *. destruct Hc as [Hc|Hc]; [lia|right].
      assert (nat_of_ascii c <> 32%nat); [|lia]. intros E. apply Hw. rewrite <- (ascii_nat_embedding c), E. done. }
    assert (Ascii.eqb c0 quote = false) as Hq by (rewrite Ep in Hp; cbn [bytes_all] in Hp; apply andb_true_iff in Hp as [Hc _]; by apply negb_true_iff, orb_false_iff in Hc as [Hc _]).
    rewrite Ep. rewrite string_app_cons, Hq, <- string_app_cons, <- Ep. destruct l as [|v l]; cbn [rest_of_line]; [rewrite string_app_nil_r; by apply reads_all|]. by apply reads_to.
  - left. rewrite (body_open p 0) by (try done; by rewrite Ep). rewrite <- !string_app_assoc. rewrite !one_app. cbv iota beta. rewrite Ascii.eqb_refl.
    change ("" +:+ ?x) with x. apply reads_to; [|done]. eapply bytes_all_impl; [|exact Hp]. intros c. cbv beta. rewrite negb_orb, andb_true_iff, Ascii.eqb_sym. tauto.
Qed.

(** C35: a process that is started in the session of the user gets its program and its arguments: the command line of [spawn_in_active_session_with_env] is read, by the rules of CommandLineToArgvW, as exactly these, each without the prefix of a verbatim path where it has one; so, where none has one, as exactly the program and the arguments that were given, with quotation marks, backslashes at any place, spaces, and empty ones. None has a NUL, and the program has the name of a file. *)
Theorem windows_arguments_round_trip executable args :
  Forall (fun v => no_nul v = true) (executable :: args) -> program_path (native_process_argument executable) = true ->
  windows_argv (session_command_line executable args) = native_process_argument <$> executable :: args /\
  (Forall (fun v => strip_prefix verbatim_prefix v = None /\ strip_prefix (verbatim_prefix +:+ "UNC" +:+ one backslash) v = None) (executable :: args) ->
   windows_argv (session_command_line executable args) = executable :: args).
Proof.
  intros Hn Hp. assert (windows_argv (session_command_line executable args) = native_process_argument <$> executable :: args) as E.
  { unfold windows_argv, session_command_line. rewrite until_nul_clean.
    2: { apply no_nul_join, Forall_fmap, Forall_fmap. eapply Forall_impl; [exact Hn|]. intros v Hv. by apply no_nul_argument, no_nul_native. }
    change (native_process_argument <$> executable :: args) with (native_process_argument executable :: (native_process_argument <$> args)).
    change (windows_command_line_argument <$> ?x :: ?l) with (windows_command_line_argument x :: (windows_command_line_argument <$> l)). rewrite join_cons.
    destruct (reads_program _ (windows_command_line_argument <$> (native_process_argument <$> args)) Hp) as [-> | ->]; [|by rewrite windows_reads_arguments].
    destruct args as [|v args]; [done|]. set (l := native_process_argument <$> v :: args). change (rest_of_line (windows_command_line_argument <$> l)) with (String space (join " " (windows_command_line_argument <$> l))).
    change (windows_read false 0 None (String space ?x)) with (windows_read false 0 None x). by rewrite windows_reads_arguments. }
  split; [exact E|]. intros Hv. rewrite E. clear -Hv. induction Hv as [|v l [H1 H2] _ IH]; [done|]. cbn [fmap list_fmap]. f_equal; [|exact IH].
  unfold native_process_argument. by rewrite H1, H2.
Qed.

(** The arguments of the computer-use host do not survive: a path that ends with a backslash takes the next argument with it. *)
Theorem hidden_arguments_merge :
  windows_arguments (join " " (hidden_argument <$> ["C:" +:+ one backslash; "root"])) = ["C:" +:+ one quote +:+ " root"].
Proof. vm_compute. reflexivity. Qed.

(** PowerShell: a quotation mark in a value, which no check of a peer refuses, ends the text of the command. Here the path of the
    executable adds an option of [powershell.exe] itself. *)
Definition powershell_peer : RemotePeer :=
  mkRemotePeer "a" "b" ("C:/fabric" +:+ one quote +:+ " -File C:/other.ps1 " +:+ one quote) "C:/state" true.
Theorem powershell_command_breaks :
  validate_remote_root (rp_remote_executable powershell_peer) = Ok tt /\ validate_remote_root (rp_remote_state_root powershell_peer) = Ok tt /\
  validate_id "local id" (rp_local_id powershell_peer) = Ok tt /\ validate_id "peer id" (rp_peer_id powershell_peer) = Ok tt /\
  take 7 (windows_arguments (remote_command powershell_peer)) =
    ["powershell.exe"; "-NoProfile"; "-NonInteractive"; "-Command"; "& 'C:/fabric"; "-File"; "C:/other.ps1"].
Proof. vm_compute. split_and!; reflexivity. Qed.

(** ** Runs *)

Lemma windows_arguments_round_trip_witness :
  let exe := verbatim_prefix +:+ "C:" +:+ one backslash +:+ "Program Files" +:+ one backslash +:+ "app.exe" in
  let args := ["a b" +:+ one backslash; one quote; ""] in
  windows_argv (session_command_line exe args) = ("C:" +:+ one backslash +:+ "Program Files" +:+ one backslash +:+ "app.exe") :: args.
Proof.
  intros exe args. exact (proj1 (windows_arguments_round_trip exe args ltac:(repeat constructor) ltac:(vm_compute; reflexivity))).
Defined.

Lemma remote_commands_are_exact_witness :
  let c := mkRemotePeer "a" "b" "/opt/it's here" "/state; rm" false in
  shell_words (remote_command c) =
  Some ["/opt/it's here"; "peer"; "accept"; "--id"; "a"; "--local-id"; "b"; "--local-controller-socket"; "/state; rm/controller.sock";
        "--local-executor-socket"; "/state; rm/executor.sock"; "--expose-controller-socket"; "/state; rm/fabric/a-controller.sock";
        "--expose-executor-socket"; "/state; rm/fabric/a-executor.sock"].
Proof. intros c. exact (proj2 remote_commands_are_exact c eq_refl eq_refl). Defined.
Example ssh_arguments :
  ssh_call_arguments "h" "/s" (Some "/c") "ping" "null" =
  ["-o"; "ClearAllForwardings=yes"; "-o"; "BatchMode=yes"; "-S"; "/c"; "h"; ".local/bin/machine-fabric --socket '/s' call 'ping' 'null'"].
Proof. reflexivity. Qed.

(** ** The deployment of a binary *)

(** The script of [deploy_binary_over_ssh] after its first command *)
Definition deploy_rest (target : string) : string :=
  let temporary := target +:+ ".fabric.tmp" in
  "mkdir -p " +:+ one quote +:+ "$(dirname " +:+ quoted target +:+ ")" +:+ one quote +:+ " && dd of=" +:+ quoted temporary +:+ " status=none && chmod 755 "
    +:+ quoted temporary +:+ " && mv " +:+ quoted temporary +:+ " " +:+ quoted target.
Definition deploy_script (target : string) : string := "umask 077 && " +:+ deploy_rest target.
(** The command among the arguments of [ssh]; [ssh] joins its words by spaces before the shell there reads it. *)
Definition deploy_command (target : string) : list string := ["sh"; "-c"; deploy_script target].
Definition ssh_joins (l : list string) : string := join " " l.

(** The script is not quoted for the remote shell: only [umask] itself is run by the inner shell, with 077 as its name; the commands
    after it, which create the file, run in the login shell, whose mask is not changed. *)
Theorem deploy_umask_is_lost target :
  ssh_joins (deploy_command target) = "sh -c umask 077" +:+ " && " +:+ deploy_rest target /\
  shell_words "sh -c umask 077" = Some ["sh"; "-c"; "umask"; "077"].
Proof. split; reflexivity. Qed.
